(* ===== verification/_CoqProject ===== *)
-Q . S2P
Prelude.v
MathUtils.v
KVSpec.v
FreeQueue.v
Request.v
BlockHash.v
BlockPool.v
Ledger.v
SingleType.v
ManagerSpec.v
CacheHit.v
Coordinator.v
CoordinatorSpec.v
HybridHit.v
KVCacheManager.v
AllocateSlots.v
ManagerTrace.v
NewRequest.v
HybridCases.v
RequestQueue.v
EncoderCache.v
SchedUtils.v
Scheduler.v
Schedule.v
UpdateOutput.v
SchedulerSpec.v
KVInstance.v
RunningPass.v
WaitingPass.v
ScheduleSafe.v
Lifecycle.v
UpdateSafe.v
EngineCore.v
EngineTrace.v
NgramProposer.v
OffloadPolicy.v
OffloadManager.v
KVGroups.v
KVPlan.v
KVPlanSafe.v
BlockTable.v
SlotMapping.v
BatchUpdate.v
InputBatch.v
InputBatchSafe.v
InputBatchStep.v
InputBatchTouch.v
ReorderBatch.v
ModelRunner.v
ModelRunnerSafe.v
ModelRunnerTrace.v
ModelRunnerStep.v
PrepareInputs.v
PrepareSafe.v
RunnerReachable.v
CacheMetrics.v
