(* ===== verification/Prelude.v ===== *)
(** * A verification library for the vLLM engine core

    This library models the scheduling core of vLLM, [src/vllm/vllm/v1/core]: the
    components that decide, before every step of the model, which requests run, how
    many of their tokens are computed and which blocks of the paged KV cache hold
    them; the planning that sizes that cache when the engine starts; the worker's
    persistent batch, which follows those decisions and turns them into the inputs of the
    model; and the parts of the engine next to it that are not tensor code. All paths
    below are relative to [src/vllm/vllm].

    ** The program and its parts

    A scheduler ([v1/core/sched/scheduler.py]) owns the request objects
    ([v1/request.py]), two waiting queues ([sched/request_queue.py]), the list of
    running requests, an encoder cache ([encoder_cache_manager.py]) and a KV-cache
    manager ([kv_cache_manager.py]). The manager delegates to a coordinator
    ([kv_cache_coordinator.py]) over one manager per group of layers
    ([single_type_kv_cache_manager.py]); those allocate, share, cache and free the
    blocks of one pool ([block_pool.py]), which keeps the free blocks in an intrusive
    linked list and finds cached blocks by chained hashes ([kv_cache_utils.py]). The
    engine core ([v1/engine/core.py]) drives the scheduler and the executor. In a worker
    the model runner ([v1/worker/gpu_model_runner.py]) applies each scheduler output to
    its persistent batch ([gpu_input_batch.py]) with one block table per group
    ([block_table.py]), tells the logits processors what moved, and gathers the tokens,
    positions and slots of the step; after the model it records the sampled tokens.

    ** Files

    - [Prelude]: exceptions ([result]), the state-and-exception monad [M] with its
      tactic [mstep], Python slices, indices and dicts, generic lemmas.
    - [MathUtils] ([utils/math_utils.py]), [KVSpec] ([v1/kv_cache_interface.py],
      [kv_cache_spec_registry.py]): integer helpers and layer specifications.
    - [FreeQueue]: [KVCacheBlock] and [FreeKVCacheBlockQueue]. Block objects live in
      a heap; the queue is refined to a list ([queue_repr]).
    - [Request]: request objects and their parameters. A request is a record; code
      that mutates a request returns the changed record.
    - [BlockHash]: hashing of a request's blocks, keys with group ids, views of a hash
      list at another block size.
    - [BlockPool]: [BlockHashToBlockMap] and [BlockPool], with the invariant
      [pool_inv]. [Ledger]: who holds which block.
    - [SingleType]: the manager classes. [ManagerSpec]: their operations against the
      ledger. [CacheHit]: their prefix lookups, behind the class [HitFinder].
    - [Coordinator]: the three coordinators. [CoordinatorSpec]: ownership of all
      groups. [HybridHit]: the fixed point of the hybrid lookup, proved against
      [HitFinder].
    - [KVCacheManager]: the manager. [AllocateSlots], [ManagerTrace], [NewRequest]:
      its theorems. [HybridCases]: two configurations in which groups disagree, replayed
      through the manager (lemmas only).
    - [RequestQueue]: the FCFS and the priority queue, on the algorithms of [heapq].
    - [EncoderCache]: [EncoderCacheManager] and [EncoderDecoderCacheManager].
    - [SchedUtils] ([sched/utils.py]): stop conditions.
    - [Scheduler], [Schedule], [UpdateOutput]: the scheduler's state and request
      lifecycle, [schedule] and [update_from_output], with the overrides of
      [async_scheduler.py].
    - [SchedulerSpec]: the scheduler's invariant, proved against the class
      [KVContract], which states what a KV-cache manager promises. [KVInstance]: the
      modelled manager as an instance. [RunningPass], [WaitingPass], [ScheduleSafe]:
      the two passes of [schedule] and its output. [Lifecycle], [UpdateSafe]: adding,
      finishing and updating requests.
    - [EngineCore] ([v1/engine/core.py]): the engine loop over the scheduler, with the
      executor as a parameter. [EngineTrace]: the three layers put together.
    - [NgramProposer] ([v1/spec_decode/ngram_proposer.py]): the n-gram draft proposer.
    - [OffloadPolicy], [OffloadManager] ([v1/kv_offload/cpu]): the LRU and ARC policies
      behind the class [PolicyLaws] and the manager of the CPU blocks.
    - [KVGroups], [KVPlan]: the start-up planning of [kv_cache_utils.py]: grouping the
      layers, sizing the tensors of the workers and fitting the context length.
      [KVPlanSafe]: its theorems.
    - [BlockTable] ([v1/worker/block_table.py]): block tables and the slot-mapping
      kernel. [SlotMapping]: its theorems.
    - [BatchUpdate] ([v1/sample/logits_processor]): batch updates and how a sparse
      processor applies them. [InputBatch] ([v1/worker/gpu_input_batch.py]): the
      persistent batch. A row of the parallel arrays is one [Slot]; the sets of request
      ids are [Marks]. [InputBatchSafe], [InputBatchStep], [InputBatchTouch]: its
      invariant, what each operation does to the [View] of a row, and how a processor
      that applies the update keeps [tracks].
    - [ReorderBatch] ([v1/attention/backends/utils.py]): the reordering of decodes
      before prefills, by following cycles.
    - [ModelRunner] ([v1/worker/gpu_model_runner.py]): [_update_states] and
      [_bookkeeping_sync]. [ModelRunnerSafe], [ModelRunnerTrace], [ModelRunnerStep]: the
      cached requests against the batch, and one update as a whole. [PrepareInputs]:
      [_prepare_inputs]. [PrepareSafe]: its array computations against their
      specifications. [RunnerReachable]: every run of the runner.
    - [CacheMetrics] ([v1/core/kv_cache_metrics.py]): the residency metrics on the calls
      the pool logs.

    ** Correspondence

    A method is a definition of the same name where the name is free, otherwise with
    a prefix for its class ([km_free] is [KVCacheManager.free], [co_free] the
    coordinator's, [ec_free] the encoder cache's). [self] is the state of [M]; an
    exception is [Err]. Python integers are [Z], [//] and [%] are [Z.div] and
    [Z.modulo]. A dict whose order matters is an association list, otherwise a
    [gmap]. Objects shared and compared by identity stay shared: blocks are locations
    of a heap, requests in queues are ids of the scheduler's store [requests].

    ** Theorems

    - Blocks: the free queue refines a list (C1); the pool stays consistent and
      raises nothing under every sequence of its operations (C7), hands out the least
      recently freed blocks (C8) and finds what was cached (C10).
    - Hashes: keys round-trip (C2); incremental hashing equals hashing from scratch
      (C3); equal hashes mean equal prefixes (C4); what they do not cover is in the
      lemma [tail_block_hash_ignores_earlier_items] and in C20: an adapter's name and a
      cache salt are not told apart.
    - Lookups: hits cover what attention reads (C13) and are the longest possible
      (C14-C16); the hybrid search ends and its groups agree (C17, C18); where
      they do not is in [HybridCases].
    - Allocation: a new request gets its slots end to end (C21), every trace of the
      manager is balanced (C22), a running request is served unless memory is short (C23).
    - Queues, encoder cache and stop conditions: C24, C25, C27, C28.
    - Scheduler and engine: the manager implements the contract (C29); a call of
      [schedule] raises nothing and keeps the invariant (C30); every sequence of
      engine operations is safe, from an empty engine (C31).
    - Drafts: the n-gram search finds the longest match (C32) and the batch proposer
      reads only what it wrote (C33).
    - Offloading: for both policies blocks being loaded stay (C34), and a store is
      refused, counting skipped keys only, or stores exactly the missing blocks (C35).
    - Planning: the groups partition the layers (C36); a worker's tensors hold each
      layer once, apart from the layers of its group, within the memory (C37); the
      automatic fit is the longest (C38); the workers agree on a number of blocks
      (C39), and when these are just enough for one request it is refused, since the
      pool keeps one (C40).
    - Worker: the block tables refine lists of blocks (C9) and slots never collide (C11);
      in every reachable state the runner follows the scheduler (C12), hands the model
      exactly the scheduled tokens (C5), records the sampled ones and changes nothing
      else (C6), and the logits processors agree with the batch (C26); the masks of
      allowed tokens do not follow their requests (C19).

    ** Fuel and bounds

    [popleft_n_loop], [evict_until] and the like recurse on the list they consume.
    The hash loop has one unit of fuel per token. [hit_fuel] bounds the fixed point of
    the hybrid lookup by the number of tokens, and C17 shows that it is never used up.
    The scheduler's loops have as many units as there are running or waiting requests,
    plus one; running out is a [RuntimeError], which C30 and C31 exclude. The
    n-gram search has two units per token, enough by C32: every step moves on in the
    tokens or shortens the match. The search for the context length has as many units as
    the length has binary digits, plus one, enough by C38: every step halves the range.
    [condense_loop] has one unit per removed row and [follow_cycle] one per misplaced
    row, enough by C12: each iteration fills a hole or settles a row.

    ** Parameters and hypotheses

    Digest functions are the fields of [HashConfig]; collision resistance is a named
    hypothesis where a theorem needs it. The order in which a set is iterated is
    [iter_set] of the class [SetOrder]. What the structured-output manager answers is
    the class [StructuredOutput]. The floating-point target of the ARC policy is the
    class [FloatArith]; the numbers of sampling parameters, which the batch only stores
    and compares, are the class [Float]. The executor's answers are arguments of the
    engine, the sampled tokens arguments of the runner, and what a pooling model does to
    pooling parameters is a function. Object identity of requests in the priority order
    is an injective address. What the runner's theorems assume of a scheduler output is
    [schedule_ok] of [ModelRunnerStep], and of the tokens of a step [step_fits].

    ** Not modelled

    KV and encoder-cache connectors with the branches of the scheduler they enable,
    routed experts, grammar bitmasks, statistics and event publishing, the engine's batch queue and
    data parallelism, the offloading workers and storage tiers, draft models,
    asynchronous scheduling, M-RoPE positions, prompt embeddings and adapters in the
    model runner, its encoders, graphs and hybrid-model state, the engine processes and
    servers, and the models: tensor programs, I/O, or code outside the scheduling core. *)

From Stdlib Require Import ZArith Lia.
From Stdlib Require Export Strings.Byte.
From stdpp Require Export base tactics functions numbers gmap strings fin_maps list.

(** ** Exceptions and the state-and-exception monad *)

(** The Python exceptions raised by the modelled code. *)
Inductive exn :=
  | AssertionError
  | ValueError
  | RuntimeError
  | TypeError
  | NotImplementedError
  | KeyError
  | IndexError
  | ZeroDivisionError
  | OverflowError
  | StopIteration
  | AttributeError.

#[global] Instance exn_eq_dec : EqDecision exn.
Proof. solve_decision. Defined.

Inductive result (A : Type) :=
  | Ok (a : A)
  | Err (e : exn).
Arguments Ok {_} _.
Arguments Err {_} _.

#[global] Instance result_ret : MRet result := λ A a, Ok a.
#[global] Instance result_bind : MBind result := λ A B f m,
  match m with Ok a => f a | Err e => Err e end.
#[global] Instance result_fmap : FMap result := λ A B f m,
  match m with Ok a => Ok (f a) | Err e => Err e end.

(** A comprehension whose body may raise. *)
Fixpoint result_map {A B} (f : A → result B) (l : list A) : result (list B) :=
  match l with [] => Ok [] | x :: l => y ← f x; ys ← result_map f l; Ok (y :: ys) end.

Lemma result_map_ok {A B} (f : A → result B) l : (∀ x, x ∈ l → ∃ y, f x = Ok y) → ∃ ys, result_map f l = Ok ys.
Proof.
  induction l as [|x l IH]; intros Hl; [by eexists|]. destruct (Hl x) as [y Hy]; [left|].
  destruct IH as [ys Hys]; [intros z Hz; apply Hl; by right|]. exists (y :: ys). simpl. by rewrite Hy, Hys.
Qed.
Lemma result_map_Forall2 {A B} (f : A → result B) l ys :
  result_map f l = Ok ys ↔ Forall2 (λ x y, f x = Ok y) l ys.
Proof.
  revert ys. induction l as [|x l IH]; intros ys; simpl.
  - split; [intros [= <-]; constructor|]. by intros ->%Forall2_nil_inv_l.
  - unfold mbind, result_bind. destruct (f x) as [y|] eqn:Hx.
    + destruct (result_map f l) as [zs|] eqn:Hl.
      * split; [intros [= <-]; constructor; [done|by apply IH]|].
        intros (y' & ys' & Hy & Hl' & ->)%Forall2_cons_inv_l. apply IH in Hl'. congruence.
      * split; [done|]. intros (y' & ys' & Hy & Hl' & ->)%Forall2_cons_inv_l. by apply IH in Hl'.
    + split; [done|]. intros (y' & ys' & Hy & _)%Forall2_cons_inv_l. congruence.
Qed.

(** A method body over an object (or group of objects) of type [S]. The state
    an exception leaves behind is not kept: none of the modelled callers
    catches one of these exceptions and goes on. *)
Definition M (S A : Type) : Type := S → result (A * S).

#[global] Instance M_ret {S} : MRet (M S) := λ A a s, Ok (a, s).
#[global] Instance M_bind {S} : MBind (M S) := λ A B f m s,
  match m s with Ok (a, s') => f a s' | Err e => Err e end.

(** Running the first statement of a body. *)
Lemma bind_ok {S A B} (m : M S A) (f : A → M S B) s a s' :
  m s = Ok (a, s') → (m ≫= f) s = f a s'.
Proof. unfold mbind, M_bind. by intros ->. Qed.
Lemma bind_err {S A B} (m : M S A) (f : A → M S B) s e :
  m s = Err e → (m ≫= f) s = Err e.
Proof. unfold mbind, M_bind. by intros ->. Qed.

Definition raise {S A} (e : exn) : M S A := λ _, Err e.
Definition get {S} : M S S := λ s, Ok (s, s).
Definition put {S} (s : S) : M S unit := λ _, Ok (tt, s).
Definition gets {S A} (f : S → A) : M S A := λ s, Ok (f s, s).
Definition modify {S} (f : S → S) : M S unit := λ s, Ok (tt, f s).
(** [assert b]: Python's [assert] statement. *)
Definition py_assert {S} (b : bool) : M S unit :=
  if b then mret tt else raise AssertionError.
Definition lift_result {S A} (r : result A) : M S A := λ s,
  match r with Ok a => Ok (a, s) | Err e => Err e end.

(** [for x in l: f x] *)
Fixpoint forM {S A} (l : list A) (f : A → M S unit) : M S unit :=
  match l with
  | [] => mret tt
  | x :: l => f x ≫= λ _, forM l f
  end.

Lemma forM_app {S A} (l1 l2 : list A) (f : A → M S unit) (s : S) :
  forM (l1 ++ l2) f s = (forM l1 f ≫= λ _, forM l2 f) s.
Proof.
  revert s. induction l1 as [|x l1 IH]; intros s; [done|]. simpl.
  unfold mbind, M_bind in *. destruct (f x s) as [[[] s']|]; [apply IH|done].
Qed.

(** Running a method of a component held in a field. *)
Definition zoom {S T A} (g : S → T) (p : T → S → S) (m : M T A) : M S A := λ s,
  match m (g s) with Ok (a, t) => Ok (a, p t s) | Err e => Err e end.

Declare Scope vllm_scope.
Delimit Scope vllm_scope with vllm.
Notation "'when' b 'do' m" := (if b then m else mret tt)
  (at level 100, b at level 99, m at level 100, right associativity) : vllm_scope.

(** ** Python sequences and integers *)

Local Open Scope Z_scope.

(** Python clamps slice bounds: a negative index counts from the end. *)
Definition clamp_index (len i : Z) : Z :=
  Z.max 0 (Z.min len (if (i <? 0)%Z then (i + len)%Z else i)).

(** [l[a:b]] *)
Definition py_slice {A} (l : list A) (a b : Z) : list A :=
  let len := Z.of_nat (length l) in
  let a' := clamp_index len a in
  let b' := clamp_index len b in
  take (Z.to_nat (b' - a')) (drop (Z.to_nat a') l).

(** [l[a:]] *)
Definition py_from {A} (l : list A) (a : Z) : list A :=
  drop (Z.to_nat (clamp_index (Z.of_nat (length l)) a)) l.

(** [l[i]], which raises [IndexError] out of range; a negative index counts
    from the end. *)
Definition py_index {A} (l : list A) (i : Z) : result A :=
  let len := Z.of_nat (length l) in
  let j := if (i <? 0)%Z then (i + len)%Z else i in
  if (j <? 0)%Z then Err IndexError
  else match l !! Z.to_nat j with Some x => Ok x | None => Err IndexError end.

(** [range(a, b)] *)
Definition zrange (a b : Z) : list Z := seqZ a (b - a).

Definition zlen {A} (l : list A) : Z := Z.of_nat (length l).

(** Python's [sum] over an iterable of integers. *)
Definition zsum (l : list Z) : Z := foldr Z.add 0%Z l.

Lemma clamp_index_pos len i : 0 ≤ i ≤ len → clamp_index len i = i.
Proof. unfold clamp_index. case_match; lia. Qed.

Lemma py_slice_pos {A} (l : list A) a b :
  0 ≤ a → a ≤ b → b ≤ Z.of_nat (length l) →
  py_slice l a b = take (Z.to_nat (b - a)) (drop (Z.to_nat a) l).
Proof. intros ???. unfold py_slice. by rewrite !clamp_index_pos by lia. Qed.

Lemma py_slice_app_l {A} (l l' : list A) a b :
  0 ≤ a → a ≤ b → b ≤ Z.of_nat (length l) → py_slice (l ++ l') a b = py_slice l a b.
Proof.
  intros ???. rewrite !py_slice_pos by (rewrite ?length_app; lia).
  rewrite drop_app_le, take_app_le by (rewrite ?length_drop; lia). done.
Qed.

Lemma zlen_app {A} (l1 l2 : list A) : zlen (l1 ++ l2) = zlen l1 + zlen l2.
Proof. unfold zlen. rewrite length_app. lia. Qed.
Lemma zlen_nonneg {A} (l : list A) : 0 ≤ zlen l.
Proof. unfold zlen. lia. Qed.
Lemma zlen_cons {A} (x : A) (l : list A) : zlen (x :: l) = zlen l + 1.
Proof. unfold zlen. simpl. lia. Qed.

Lemma filter_all {A} (P : A → Prop) `{∀ x, Decision (P x)} (l : list A) :
  (∀ x, x ∈ l → P x) → filter P l = l.
Proof.
  induction l as [|x l IH]; intros Hl; [done|].
  rewrite filter_cons_True by (apply Hl; left). rewrite IH; [done|].
  intros y Hy. apply Hl. by right.
Qed.

Lemma list_filter_iff' {A} (P Q : A → Prop) `{∀ x, Decision (P x), ∀ x, Decision (Q x)} (l : list A) :
  (∀ x, x ∈ l → P x ↔ Q x) → filter P l = filter Q l.
Proof.
  induction l as [|x l IH]; intros Hl; [done|]. rewrite !filter_cons, IH.
  - destruct (Hl x) as [H1 H2]; [left|]. repeat case_decide; done || naive_solver.
  - intros y Hy. apply Hl. by right.
Qed.

(** ** Python dicts as association lists

    Used where insertion order is observable: assigning to a present key keeps
    its position, a new key goes to the end. *)
Fixpoint dict_get {K V} `{EqDecision K} (d : list (K * V)) (k : K) : option V :=
  match d with
  | [] => None
  | (k', v) :: d => if decide (k' = k) then Some v else dict_get d k
  end.
Fixpoint dict_set {K V} `{EqDecision K} (d : list (K * V)) (k : K) (v : V) : list (K * V) :=
  match d with
  | [] => [(k, v)]
  | (k', v') :: d => if decide (k' = k) then (k', v) :: d else (k', v') :: dict_set d k v
  end.
Fixpoint dict_del {K V} `{EqDecision K} (d : list (K * V)) (k : K) : list (K * V) :=
  match d with
  | [] => []
  | (k', v') :: d => if decide (k' = k) then d else (k', v') :: dict_del d k
  end.

Lemma dict_get_None {K V} `{EqDecision K} (d : list (K * V)) k : dict_get d k = None ↔ k ∉ d.*1.
Proof.
  induction d as [|[k' v] d IH]; simpl; [split; [intros _; apply not_elem_of_nil|done]|].
  rewrite not_elem_of_cons. case_decide; naive_solver.
Qed.
Lemma dict_set_new {K V} `{EqDecision K} (d : list (K * V)) k v :
  k ∉ d.*1 → dict_set d k v = d ++ [(k, v)].
Proof.
  induction d as [|[k' v'] d IH]; simpl; [done|]. rewrite not_elem_of_cons. intros [Hk Hd].
  rewrite decide_False by done. by rewrite IH.
Qed.
Lemma dict_get_split {K V} `{EqDecision K} (d : list (K * V)) k v :
  dict_get d k = Some v → ∃ d1 d2, d = d1 ++ (k, v) :: d2 ∧ dict_del d k = d1 ++ d2.
Proof.
  induction d as [|[k' v'] d IH]; simpl; [done|]. case_decide as Hk.
  - intros [= ->]. exists [], d. by subst.
  - intros Hd. destruct (IH Hd) as (d1 & d2 & -> & ->). by exists ((k', v') :: d1), d2.
Qed.

Lemma dict_get_set {K V} `{EqDecision K} (d : list (K * V)) k v k' :
  dict_get (dict_set d k v) k' = if decide (k' = k) then Some v else dict_get d k'.
Proof.
  induction d as [|[k1 v1] d IH]; simpl.
  - repeat case_decide; congruence || done.
  - destruct (decide (k1 = k)) as [->|]; simpl; [|rewrite IH]; repeat case_decide; congruence || done.
Qed.
Lemma dict_set_keys {K V} `{EqDecision K} (d : list (K * V)) k v :
  (dict_set d k v).*1 = if decide (k ∈ d.*1) then d.*1 else d.*1 ++ [k].
Proof.
  induction d as [|[k1 v1] d IH]; [done|]. csimpl. destruct (decide (k1 = k)) as [->|Hne]; csimpl.
  - rewrite decide_True by left. done.
  - rewrite IH. destruct (decide (k ∈ d.*1)) as [Hk|Hk].
    + rewrite decide_True by (by right). done.
    + rewrite decide_False; [done|]. by intros [?|?]%elem_of_cons.
Qed.
Lemma dict_get_is_Some {K V} `{EqDecision K} (d : list (K * V)) k : is_Some (dict_get d k) ↔ k ∈ d.*1.
Proof.
  destruct (dict_get d k) as [v|] eqn:E.
  - split; [intros _|by eauto]. destruct (decide (k ∈ d.*1)) as [|Hk]; [done|]. apply dict_get_None in Hk. congruence.
  - apply dict_get_None in E. split; [by intros []|done].
Qed.
Lemma dict_get_in {K V} `{EqDecision K} (d : list (K * V)) k v : dict_get d k = Some v → (k, v) ∈ d.
Proof. intros (d1 & d2 & -> & _)%dict_get_split. set_solver. Qed.
Lemma dict_in_get {K V} `{EqDecision K} (d : list (K * V)) k v : NoDup d.*1 → (k, v) ∈ d → dict_get d k = Some v.
Proof.
  induction d as [|[k1 v1] d IH]; csimpl; [by intros _ ?%not_elem_of_nil|].
  intros [Hk Hd]%NoDup_cons [[= <- <-]|Hin]%elem_of_cons; [by rewrite decide_True|].
  rewrite decide_False; [by apply IH|]. intros ->. apply Hk. by apply (list_elem_of_fmap_2 fst) in Hin.
Qed.
Lemma dict_get_del {K V} `{EqDecision K} (d : list (K * V)) k k' : NoDup d.*1 →
  dict_get (dict_del d k) k' = if decide (k' = k) then None else dict_get d k'.
Proof.
  induction d as [|[k1 v1] d IH]; csimpl; [by repeat case_decide|].
  intros [Hk Hd]%NoDup_cons. destruct (decide (k1 = k)) as [->|]; simpl.
  - case_decide as Hd'; [subst; by apply dict_get_None|]. by rewrite decide_False.
  - rewrite (IH Hd). repeat case_decide; congruence || done.
Qed.
Lemma dict_set_nodup {K V} `{EqDecision K} (d : list (K * V)) k v : NoDup d.*1 → NoDup (dict_set d k v).*1.
Proof.
  intros Hd. rewrite dict_set_keys. destruct (decide (k ∈ d.*1)); [done|]. apply NoDup_app. split; [done|].
  split; [|apply NoDup_singleton]. set_solver.
Qed.
Lemma dict_del_nodup {K V} `{EqDecision K} (d : list (K * V)) k : NoDup d.*1 → NoDup (dict_del d k).*1.
Proof.
  induction d as [|[k1 v1] d IH]; [done|]. csimpl. intros [Hn Hd]%NoDup_cons. destruct (decide (k1 = k)); [done|]. csimpl.
  constructor; [|by apply IH]. intros Hk. apply Hn. apply dict_get_is_Some in Hk. apply dict_get_is_Some.
  rewrite dict_get_del in Hk by done. destruct (decide (k1 = k)); [by destruct Hk|done].
Qed.

(** Sums do not depend on the order. *)
#[global] Instance zsum_perm : Proper ((≡ₚ) ==> (=)) zsum.
Proof. intros l1 l2. induction 1; simpl; lia. Qed.
Lemma zsum_app l1 l2 : zsum (l1 ++ l2) = zsum l1 + zsum l2.
Proof. induction l1; simpl; lia. Qed.
Lemma zsum_nonneg l : (∀ x, x ∈ l → 0 ≤ x) → 0 ≤ zsum l.
Proof.
  induction l as [|x l IH]; simpl; [done|]. intros Hl.
  assert (0 ≤ x) by (apply Hl; left). assert (0 ≤ zsum l) by (apply IH; intros y Hy; apply Hl; by right). lia.
Qed.

(** An index in range. *)
Lemma py_index_pos {A} (l : list A) i x : 0 ≤ i → l !! Z.to_nat i = Some x → py_index l i = Ok x.
Proof.
  intros Hi Hx. unfold py_index. rewrite (proj2 (Z.ltb_ge i 0)) by done. simpl.
  rewrite (proj2 (Z.ltb_ge i 0)) by done. by rewrite Hx.
Qed.
Lemma py_index_nat {A} (l : list A) i x : l !! i = Some x → py_index l (Z.of_nat i) = Ok x.
Proof. intros Hx. apply py_index_pos; [lia|]. by rewrite Nat2Z.id. Qed.

Lemma py_index_last {A} (l : list A) x : last l = Some x → py_index l (-1) = Ok x.
Proof.
  intros Hl. assert (l ≠ []) as Hn by (by intros ->). unfold py_index. simpl.
  assert (0 < Z.of_nat (length l)) by (destruct l; [done|simpl; lia]). rewrite (proj2 (Z.ltb_ge (-1 + _) 0)) by lia.
  replace (Z.to_nat (-1 + Z.of_nat (length l))) with (pred (length l)) by lia. by rewrite <-last_lookup, Hl.
Qed.

(** ** Hint databases and tactics *)

Create HintDb vllm.

(** Unfold the monad's plumbing in the goal. *)
Ltac munfold :=
  unfold mbind, M_bind, mret, M_ret, raise, get, put, gets, modify,
    py_assert, lift_result, zoom, result_bind, result_ret in *; simpl in *.

(** Run the first statement of a body whose outcome [H] gives or computes. *)
Tactic Notation "mstep" := erewrite bind_ok; [|reflexivity]; cbv beta.
Tactic Notation "mstep" "by" tactic3(t) := erewrite bind_ok; [|solve [t]]; cbv beta.

(** Case analysis on the innermost [match] of a hypothesis [H : run = Ok _]. *)
Ltac inv_ok H :=
  repeat (munfold;
    match type of H with
    | Ok _ = Ok _ => injection H as H
    | Err _ = Ok _ => discriminate H
    | context [match ?x with _ => _ end] =>
        let E := fresh "E" in destruct x eqn:E; simplify_eq/=
    end).

(** ** Byte strings *)

#[global] Instance byte_eq_dec : EqDecision byte := Byte.byte_eq_dec.
#[global] Program Instance byte_countable : Countable byte :=
  inj_countable Byte.to_N Byte.of_N _.
Next Obligation. intros b. apply Byte.of_to_N. Qed.

Abbreviation bytes := (list byte).
