(* ===== verification/MathUtils.v ===== *)
(** * Integer helpers

    Models [vllm/utils/math_utils.py]. Python's [//] and [%] on integers are
    [Z.div] and [Z.modulo] (both round towards minus infinity); the callers
    never pass a zero divisor, for which Python raises [ZeroDivisionError]. *)

From Stdlib Require Import ZArith Lia.
From S2P Require Import Prelude.
Local Open Scope Z_scope.

Definition cdiv (a b : Z) : Z := - (a / (- b)).

(** [int.bit_length] *)
Definition bit_length (n : Z) : Z := if n =? 0 then 0 else Z.log2 (Z.abs n) + 1.

Definition next_power_of_2 (n : Z) : Z := if n <? 1 then 1 else Z.shiftl 1 (bit_length (n - 1)).

Definition round_up (x y : Z) : Z := ((x + y - 1) / y) * y.

Definition round_down (x y : Z) : Z := (x / y) * y.

Definition largest_power_of_2_divisor (n : Z) : Z := Z.land n (- n).

(** [cdiv] is the least number of [b]-sized pieces that cover [a]. *)
Lemma cdiv_spec a b : 0 < b → b * (cdiv a b - 1) < a ≤ b * cdiv a b.
Proof.
  intros Hb. unfold cdiv. pose proof (Z.div_mod a (- b) ltac:(lia)).
  pose proof (Z.mod_neg_bound a (- b) ltac:(lia)). nia.
Qed.
Lemma cdiv_le_iff a b k : 0 < b → cdiv a b ≤ k ↔ a ≤ b * k.
Proof. intros Hb. pose proof (cdiv_spec a b Hb). nia. Qed.
Lemma cdiv_nonneg a b : 0 < b → 0 ≤ a → 0 ≤ cdiv a b.
Proof. intros Hb Ha. pose proof (cdiv_spec a b Hb). nia. Qed.
Lemma cdiv_mono a a' b : 0 < b → a ≤ a' → cdiv a b ≤ cdiv a' b.
Proof. intros Hb Ha. apply cdiv_le_iff; [done|]. pose proof (cdiv_spec a' b Hb). lia. Qed.
Lemma cdiv_mul a b : 0 < b → cdiv (a * b) b = a.
Proof. intros Hb. pose proof (cdiv_spec (a * b) b Hb). nia. Qed.
Lemma cdiv_add a b k : 0 < b → cdiv (a + k * b) b = cdiv a b + k.
Proof. intros Hb. pose proof (cdiv_spec (a + k * b) b Hb). pose proof (cdiv_spec a b Hb). nia. Qed.
Lemma div_le_cdiv a b : 0 < b → a / b ≤ cdiv a b.
Proof.
  intros Hb. pose proof (cdiv_spec a b Hb). pose proof (Z.div_mod a b ltac:(lia)).
  pose proof (Z.mod_pos_bound a b Hb). nia.
Qed.

Lemma round_up_cdiv x y : 0 < y → round_up x y = cdiv x y * y.
Proof.
  intros Hy. unfold round_up. f_equal. pose proof (cdiv_spec x y Hy).
  symmetry. apply (Z.div_unique _ _ _ (x + y - 1 - y * cdiv x y)); nia.
Qed.

Lemma bit_length_pos n : 0 < n → 2 ^ (bit_length n - 1) ≤ n < 2 ^ bit_length n.
Proof.
  intros Hn. unfold bit_length. rewrite (proj2 (Z.eqb_neq n 0)), Z.abs_eq by lia.
  rewrite Z.add_simpl_r, Z.add_1_r. apply Z.log2_spec. lia.
Qed.

Lemma land_odd_opp m : Z.land (2 * m + 1) (- (2 * m + 1)) = 1.
Proof.
  replace (- (2 * m + 1)) with (Z.lnot (2 * m)) by (unfold Z.lnot; lia).
  rewrite <-Z.ldiff_land. apply Z.bits_inj'. intros i Hi.
  rewrite Z.ldiff_spec. destruct (decide (i = 0)) as [->|Hi0].
  { by rewrite Z.testbit_odd_0, Z.testbit_even_0. }
  replace i with (Z.succ (i - 1)) by lia.
  rewrite Z.testbit_odd_succ, Z.testbit_even_succ by lia.
  rewrite andb_negb_r. symmetry. change 1 with (2 * 0 + 1). rewrite Z.testbit_odd_succ by lia.
  apply Z.testbit_0_l.
Qed.

Lemma largest_power_of_2_divisor_odd k m :
  0 ≤ k → largest_power_of_2_divisor (2 ^ k * (2 * m + 1)) = 2 ^ k.
Proof.
  intros Hk. unfold largest_power_of_2_divisor.
  rewrite <-Z.mul_opp_r, !(Z.mul_comm (2 ^ k)), <-!Z.shiftl_mul_pow2 by done.
  rewrite <-Z.shiftl_land, land_odd_opp. by rewrite Z.shiftl_1_l.
Qed.

(** The integer helpers meet their descriptions for all inputs the callers pass:
    [cdiv] is the ceiling of the quotient, [round_up] and [round_down] are the
    nearest multiples on either side, [next_power_of_2] is the least power of two
    that is at least [n]. *)
Lemma math_utils_correct n x y :
  0 < y →
  (∀ k, cdiv x y ≤ k ↔ x ≤ k * y)
  ∧ (round_up x y mod y = 0 ∧ x ≤ round_up x y < x + y)
  ∧ (round_down x y mod y = 0 ∧ x - y < round_down x y ≤ x)
  ∧ (0 < n → ∃ k, 0 ≤ k ∧ next_power_of_2 n = 2 ^ k ∧ n ≤ 2 ^ k
        ∧ ∀ j, 0 ≤ j → n ≤ 2 ^ j → 2 ^ k ≤ 2 ^ j).
Proof.
  intros Hy. split; [|split; [|split]].
  - intros k. rewrite cdiv_le_iff by done. by rewrite Z.mul_comm.
  - rewrite round_up_cdiv by done. pose proof (cdiv_spec x y Hy). rewrite Z_mod_mult. split; [done|]. nia.
  - unfold round_down. rewrite Z_mod_mult. pose proof (Z.div_mod x y ltac:(lia)).
    pose proof (Z.mod_pos_bound x y Hy). split; [done|]. nia.
  - intros Hn. unfold next_power_of_2. rewrite (proj2 (Z.ltb_ge n 1)) by lia.
    rewrite Z.shiftl_1_l. exists (bit_length (n - 1)).
    destruct (decide (n = 1)) as [->|Hn1].
    { split; [done|]. split; [done|]. split; [done|]. intros j Hj _. change (2 ^ bit_length (1 - 1)) with 1.
      pose proof (Z.pow_pos_nonneg 2 j ltac:(lia) Hj). lia. }
    pose proof (bit_length_pos (n - 1) ltac:(lia)) as Hb.
    assert (0 ≤ bit_length (n - 1)) as H0.
    { unfold bit_length. case_match; [lia|]. pose proof (Z.log2_nonneg (Z.abs (n - 1))). lia. }
    split; [done|]. split; [done|]. split; [lia|]. intros j Hj Hnj.
    apply Z.pow_le_mono_r; [lia|]. destruct (Z.le_gt_cases (bit_length (n - 1)) j) as [|Hlt]; [done|].
    assert (2 ^ j ≤ 2 ^ (bit_length (n - 1) - 1)) by (apply Z.pow_le_mono_r; lia). lia.
Qed.
