(* ===== verification/KVSpec.v ===== *)
(** * KV-cache specifications

    Models [vllm/v1/kv_cache_interface.py]: the per-layer cache specifications,
    their page sizes, the memory they may need, merging, and the grouping test.
    A [torch.dtype] is its name and its element size. The fields of
    [VllmConfig] the code reads are collected in one record. *)

From Stdlib Require Import ZArith Lia.
From S2P Require Import Prelude MathUtils.
Local Open Scope Z_scope.

Inductive KVQuantMode := QUANT_NONE | FP8_PER_TENSOR | INT8_PER_TOKEN_HEAD | FP8_PER_TOKEN_HEAD | NVFP4.
#[global] Instance KVQuantMode_eq_dec : EqDecision KVQuantMode.
Proof. solve_decision. Defined.

Definition is_per_token_head (m : KVQuantMode) : bool :=
  match m with INT8_PER_TOKEN_HEAD | FP8_PER_TOKEN_HEAD => true | _ => false end.
Definition is_nvfp4 (m : KVQuantMode) : bool := bool_decide (m = NVFP4).

Definition get_kv_quant_mode (kv_cache_dtype : string) : KVQuantMode :=
  if bool_decide (kv_cache_dtype = "int8_per_token_head"%string) then INT8_PER_TOKEN_HEAD
  else if bool_decide (kv_cache_dtype = "fp8_per_token_head"%string) then FP8_PER_TOKEN_HEAD
  else if bool_decide (kv_cache_dtype = "nvfp4"%string) then NVFP4
  else if String.prefix "fp8" kv_cache_dtype then FP8_PER_TENSOR
  else QUANT_NONE.

Record torch_dtype := mkDtype { dtype_name : string; get_dtype_size : Z }.
#[global] Instance torch_dtype_eq_dec : EqDecision torch_dtype.
Proof. solve_decision. Defined.

Definition nvfp4_kv_cache_full_dim (head_size : Z) : Z := head_size / 2 + head_size / 16.

(** The fields of [AttentionSpec] (with [KVCacheSpec]'s [block_size]). *)
Record AttentionSpec := mkAttentionSpec {
  a_block_size : Z;
  num_kv_heads : Z;
  head_size : Z;
  a_dtype : torch_dtype;
  kv_quant_mode : KVQuantMode;
  a_page_size_padded : option Z
}.
#[global] Instance AttentionSpec_eq_dec : EqDecision AttentionSpec.
Proof. solve_decision. Defined.

(** What [FullAttentionSpec] adds; [head_size_v] after [__post_init__]. *)
Record FullFields := mkFull {
  f_head_size_v : Z;
  f_sliding_window : option Z;
  f_attention_chunk_size : option Z
}.
#[global] Instance FullFields_eq_dec : EqDecision FullFields.
Proof. solve_decision. Defined.

(** What the two MLA specs add. *)
Record MLAFields := mkMLA {
  cache_dtype_str : option string;
  alignment : option Z;
  compress_ratio : Z;
  model_version : option string
}.
#[global] Instance MLAFields_eq_dec : EqDecision MLAFields.
Proof. solve_decision. Defined.

Record MambaFields := mkMamba {
  m_block_size : Z;
  shapes : list (list Z);
  m_dtypes : list torch_dtype;
  m_page_size_padded : option Z;
  mamba_type : string;
  mamba_cache_mode : string;
  num_speculative_blocks : Z
}.
#[global] Instance MambaFields_eq_dec : EqDecision MambaFields.
Proof. solve_decision. Defined.

(** The specification of one layer, one constructor per class. *)
Inductive LayerSpec :=
  | FullAttentionSpec (a : AttentionSpec) (f : FullFields)
  | TQFullAttentionSpec (a : AttentionSpec) (f : FullFields) (tq_slot_size : Z)
  | MLAAttentionSpec (a : AttentionSpec) (f : FullFields) (m : MLAFields)
  | HiddenStateCacheSpec (a : AttentionSpec) (f : FullFields) (m : MLAFields)
  | SinkFullAttentionSpec (a : AttentionSpec) (f : FullFields) (sink_len : option Z)
  | ChunkedLocalAttentionSpec (a : AttentionSpec) (attention_chunk_size : Z)
  | SlidingWindowSpec (a : AttentionSpec) (sliding_window head_size_v : Z)
  | SlidingWindowMLASpec (a : AttentionSpec) (sliding_window : Z) (head_size_v : option Z) (m : MLAFields)
  | MambaSpec (m : MambaFields)
  | EncoderOnlyAttentionSpec (a : AttentionSpec)
  | CrossAttentionSpec (a : AttentionSpec).
#[global] Instance LayerSpec_eq_dec : EqDecision LayerSpec.
Proof. solve_decision. Defined.

(** A group's specification: that of its layers, or a dict of layer
    specifications of the same type. *)
Inductive KVCacheSpec :=
  | OneSpec (s : LayerSpec)
  | UniformTypeKVCacheSpecs (u_block_size : Z) (kv_cache_specs : list (string * LayerSpec)).
#[global] Instance KVCacheSpec_eq_dec : EqDecision KVCacheSpec.
Proof. solve_decision. Defined.

(** The [AttentionSpec] part of a layer spec; [MambaSpec] has none. *)
Definition attention_spec (s : LayerSpec) : option AttentionSpec :=
  match s with
  | FullAttentionSpec a _ | TQFullAttentionSpec a _ _ | MLAAttentionSpec a _ _
  | HiddenStateCacheSpec a _ _ | SinkFullAttentionSpec a _ _ | ChunkedLocalAttentionSpec a _
  | SlidingWindowSpec a _ _ | SlidingWindowMLASpec a _ _ _ | EncoderOnlyAttentionSpec a
  | CrossAttentionSpec a => Some a
  | MambaSpec _ => None
  end.

(** [isinstance] tests. *)
Definition full_fields (s : LayerSpec) : option FullFields :=
  match s with
  | FullAttentionSpec _ f | TQFullAttentionSpec _ f _ | MLAAttentionSpec _ f _
  | HiddenStateCacheSpec _ f _ | SinkFullAttentionSpec _ f _ => Some f
  | _ => None
  end.
Definition is_FullAttentionSpec (s : LayerSpec) : bool := bool_decide (full_fields s ≠ None).
Definition is_MLAAttentionSpec (s : LayerSpec) : bool :=
  match s with MLAAttentionSpec _ _ _ | HiddenStateCacheSpec _ _ _ => true | _ => false end.
Definition spec_sliding_window (s : LayerSpec) : option Z :=
  match s with SlidingWindowSpec _ w _ | SlidingWindowMLASpec _ w _ _ => Some w | _ => None end.
Definition is_SlidingWindowSpec (s : LayerSpec) : bool := bool_decide (spec_sliding_window s ≠ None).
Definition is_SlidingWindowMLASpec (s : LayerSpec) : bool :=
  match s with SlidingWindowMLASpec _ _ _ _ => true | _ => false end.
Definition spec_chunk_size (s : LayerSpec) : option Z :=
  match s with ChunkedLocalAttentionSpec _ c => Some c | _ => None end.
Definition mamba_fields (s : LayerSpec) : option MambaFields :=
  match s with MambaSpec m => Some m | _ => None end.

Definition layer_block_size (s : LayerSpec) : Z :=
  match s with
  | MambaSpec m => m_block_size m
  | _ => match attention_spec s with Some a => a_block_size a | None => 0 end
  end.
Definition spec_block_size (s : KVCacheSpec) : Z :=
  match s with OneSpec s => layer_block_size s | UniformTypeKVCacheSpecs b _ => b end.

(** ** Page sizes *)

Definition mla_storage_block_size (a : AttentionSpec) (m : MLAFields) : Z :=
  a_block_size a / compress_ratio m.

Definition storage_block_size (s : LayerSpec) : Z :=
  match s with
  | MLAAttentionSpec a _ m | HiddenStateCacheSpec a _ m | SlidingWindowMLASpec a _ _ m =>
      mla_storage_block_size a m
  | _ => layer_block_size s
  end.

Definition attn_real_page_size_bytes (a : AttentionSpec) : Z :=
  if is_nvfp4 (kv_quant_mode a)
  then 2 * a_block_size a * num_kv_heads a * nvfp4_kv_cache_full_dim (head_size a)
         * get_dtype_size (a_dtype a)
  else 2 * a_block_size a * num_kv_heads a * head_size a * get_dtype_size (a_dtype a).

(** [FullAttentionSpec] and [SlidingWindowSpec] *)
Definition kv_real_page_size_bytes (a : AttentionSpec) (head_size_v : Z) : Z :=
  if is_nvfp4 (kv_quant_mode a)
  then a_block_size a * num_kv_heads a
         * (nvfp4_kv_cache_full_dim (head_size a) + nvfp4_kv_cache_full_dim head_size_v)
         * get_dtype_size (a_dtype a)
  else a_block_size a * num_kv_heads a * (head_size a + head_size_v) * get_dtype_size (a_dtype a).

Definition mla_real_page_size_bytes (a : AttentionSpec) (m : MLAFields) : Z :=
  if bool_decide (cache_dtype_str m = Some "fp8_ds_mla"%string) then
    if bool_decide (model_version m = Some "deepseek_v4"%string)
    then mla_storage_block_size a m * 584
    else a_block_size a * 656
  else mla_storage_block_size a m * num_kv_heads a * head_size a * get_dtype_size (a_dtype a).

Definition swa_mla_real_page_size_bytes (a : AttentionSpec) (m : MLAFields) : result Z :=
  if bool_decide (model_version m = Some "deepseek_v4"%string)
     && bool_decide (cache_dtype_str m = Some "fp8_ds_mla"%string)
  then Ok (mla_storage_block_size a m * 584)
  else if bool_decide (model_version m = None)
          || bool_decide (model_version m = Some "deepseek_v4"%string)
  then Ok (mla_storage_block_size a m * num_kv_heads a * head_size a * get_dtype_size (a_dtype a))
  else Err AssertionError.

Definition real_page_size_bytes (s : LayerSpec) : result Z :=
  match s with
  | FullAttentionSpec a f | SinkFullAttentionSpec a f _ => Ok (kv_real_page_size_bytes a (f_head_size_v f))
  | TQFullAttentionSpec a f tq =>
      if 0 <? tq then Ok (a_block_size a * num_kv_heads a * tq)
      else Ok (kv_real_page_size_bytes a (f_head_size_v f))
  | MLAAttentionSpec a _ m | HiddenStateCacheSpec a _ m => Ok (mla_real_page_size_bytes a m)
  | SlidingWindowSpec a _ v => Ok (kv_real_page_size_bytes a v)
  | SlidingWindowMLASpec a _ _ m => swa_mla_real_page_size_bytes a m
  | ChunkedLocalAttentionSpec a _ | EncoderOnlyAttentionSpec a | CrossAttentionSpec a =>
      Ok (attn_real_page_size_bytes a)
  | MambaSpec _ => Err NotImplementedError
  end.

(** The padded size replaces the real one, which it must cover. *)
Definition padded_page_size (page_size_padded : option Z) (page_size : Z) : result Z :=
  match page_size_padded with
  | None => Ok page_size
  | Some pad => if page_size <=? pad then Ok pad else Err AssertionError
  end.

Definition attn_page_size_bytes (a : AttentionSpec) (real : Z) : result Z :=
  padded_page_size (a_page_size_padded a)
    (if is_per_token_head (kv_quant_mode a)
     then real + 2 * a_block_size a * num_kv_heads a * 4 else real).

Definition mamba_page_size_bytes (m : MambaFields) : result Z :=
  padded_page_size (m_page_size_padded m)
    (zsum (zip_with (λ shape dtype, foldr Z.mul 1 shape * get_dtype_size dtype) (shapes m) (m_dtypes m))).

Definition layer_page_size_bytes (s : LayerSpec) : result Z :=
  match s with
  | MambaSpec m => mamba_page_size_bytes m
  | _ =>
      real ← real_page_size_bytes s;
      match attention_spec s with Some a => attn_page_size_bytes a real | None => Err NotImplementedError end
  end.

Fixpoint sum_results {A} (f : A → result Z) (l : list A) : result Z :=
  match l with
  | [] => Ok 0
  | x :: l => v ← f x; rest ← sum_results f l; Ok (v + rest)
  end.

Definition page_size_bytes (s : KVCacheSpec) : result Z :=
  match s with
  | OneSpec s => layer_page_size_bytes s
  | UniformTypeKVCacheSpecs _ specs => sum_results (λ ns, layer_page_size_bytes ns.2) specs
  end.

(** [_apply_alignment_padding], run by [__post_init__] of the MLA specs. *)
Definition _apply_alignment_padding (a : AttentionSpec) (m : MLAFields) (actual_page_size : Z) : AttentionSpec :=
  match alignment m with
  | None => a
  | Some al =>
      let padded := round_up actual_page_size al in
      if padded =? actual_page_size then a
      else mkAttentionSpec (a_block_size a) (num_kv_heads a) (head_size a) (a_dtype a)
             (kv_quant_mode a) (Some padded)
  end.

(** ** Memory needed per request *)

(** The fields of [VllmConfig] read by this file. *)
Record VllmConfig := mkVllmConfig {
  max_model_len : Z;
  max_num_batched_tokens : Z;
  max_num_encoder_input_tokens : Z;
  decode_context_parallel_size : Z;
  prefill_context_parallel_size : Z;
  cfg_mamba_cache_mode : string
}.

Definition chunked_max_admission_blocks_per_request (a : AttentionSpec) (chunk max_batched max_len : Z) : Z :=
  cdiv (Z.min (chunk + max_batched) max_len) (a_block_size a).

Definition swa_max_admission_blocks_per_request (a : AttentionSpec) (window max_batched max_len : Z) : Z :=
  cdiv (Z.min (window - 1 + max_batched) max_len) (a_block_size a) + 1.

(** [max_admission_blocks_per_request] of the specs that have it. *)
Definition max_admission_blocks_per_request (s : LayerSpec) (max_batched max_len : Z) : option Z :=
  match s with
  | ChunkedLocalAttentionSpec a c => Some (chunked_max_admission_blocks_per_request a c max_batched max_len)
  | SlidingWindowSpec a w _ | SlidingWindowMLASpec a w _ _ =>
      Some (swa_max_admission_blocks_per_request a w max_batched max_len)
  | _ => None
  end.

Definition full_max_memory_usage_bytes (cfg : VllmConfig) (block_size page : Z) : Z :=
  let world := decode_context_parallel_size cfg * prefill_context_parallel_size cfg in
  let len := if 1 <? world then cdiv (max_model_len cfg) world else max_model_len cfg in
  cdiv len block_size * page.

Definition mamba_max_memory_usage_bytes (cfg : VllmConfig) (m : MambaFields) (page : Z) : Z :=
  if bool_decide (cfg_mamba_cache_mode cfg = "all"%string)
  then (cdiv (max_model_len cfg) (m_block_size m) + num_speculative_blocks m) * page
  else if bool_decide (cfg_mamba_cache_mode cfg = "align"%string)
  then page * (2 + num_speculative_blocks m)
  else page * (1 + num_speculative_blocks m).

Definition layer_max_memory_usage_bytes (cfg : VllmConfig) (s : LayerSpec) : result Z :=
  match s with
  | FullAttentionSpec a _ | TQFullAttentionSpec a _ _ | MLAAttentionSpec a _ _
  | HiddenStateCacheSpec a _ _ | SinkFullAttentionSpec a _ _ =>
      page ← layer_page_size_bytes s; Ok (full_max_memory_usage_bytes cfg (a_block_size a) page)
  | ChunkedLocalAttentionSpec a c =>
      page ← layer_page_size_bytes s;
      Ok (chunked_max_admission_blocks_per_request a c (max_num_batched_tokens cfg) (max_model_len cfg) * page)
  | SlidingWindowSpec a w _ | SlidingWindowMLASpec a w _ _ =>
      if decode_context_parallel_size cfg =? 1 then
        page ← layer_page_size_bytes s;
        Ok (swa_max_admission_blocks_per_request a w (max_num_batched_tokens cfg) (max_model_len cfg) * page)
      else Err AssertionError
  | MambaSpec m => page ← layer_page_size_bytes s; Ok (mamba_max_memory_usage_bytes cfg m page)
  | EncoderOnlyAttentionSpec _ => Ok 0
  | CrossAttentionSpec a =>
      page ← layer_page_size_bytes s; Ok (cdiv (max_num_encoder_input_tokens cfg) (a_block_size a) * page)
  end.

(** [cdiv(spec.max_memory_usage_bytes(cfg), spec.page_size_bytes)] *)
Definition layer_max_pages (cfg : VllmConfig) (s : LayerSpec) : result Z :=
  mem ← layer_max_memory_usage_bytes cfg s;
  page ← layer_page_size_bytes s;
  if page =? 0 then Err ZeroDivisionError else Ok (cdiv mem page).

(** Python's [max] over a non-empty iterable; [ValueError] on an empty one. *)
Fixpoint max_results {A} (f : A → result Z) (l : list A) : result Z :=
  match l with
  | [] => Err ValueError
  | [x] => f x
  | x :: l => v ← f x; rest ← max_results f l; Ok (Z.max v rest)
  end.

(** [UniformTypeKVCacheSpecs.max_memory_usage_pages] *)
Definition max_memory_usage_pages (cfg : VllmConfig) (specs : list (string * LayerSpec)) : result Z :=
  max_results (λ ns, layer_max_pages cfg ns.2) specs.

Definition max_memory_usage_bytes (cfg : VllmConfig) (s : KVCacheSpec) : result Z :=
  match s with
  | OneSpec s => layer_max_memory_usage_bytes cfg s
  | UniformTypeKVCacheSpecs _ specs =>
      pages ← max_memory_usage_pages cfg specs;
      page ← page_size_bytes s;
      Ok (pages * page)
  end.

(** ** Merging the specs of a group *)

Definition merge_window_sizes (window_sizes : list Z) : result (option Z) :=
  match remove_dups window_sizes with
  | [] => Ok None
  | [w] => Ok (Some w)
  | _ => Err ValueError
  end.

(** The body shared by [FullAttentionSpec.merge] and [SinkFullAttentionSpec.merge];
    [build] is the class' constructor. *)
Definition merge_full (build : AttentionSpec → FullFields → LayerSpec)
    (a0 : AttentionSpec) (f0 : FullFields) (specs : list LayerSpec) : result LayerSpec :=
  if negb (forallb is_FullAttentionSpec specs) then Err AssertionError
  else if existsb is_MLAAttentionSpec specs then Err AssertionError
  else
    w ← merge_window_sizes (omap (λ s, full_fields s ≫= f_sliding_window) specs);
    c ← merge_window_sizes (omap (λ s, full_fields s ≫= f_attention_chunk_size) specs);
    if negb (forallb (λ s, bool_decide (attention_spec s = Some a0)) specs) then Err AssertionError
    else if bool_decide (w ≠ None) && bool_decide (c ≠ None) then Err AssertionError
    else Ok (build a0 (mkFull (f_head_size_v f0) w c)).

Definition tq_slot (s : LayerSpec) : option Z :=
  match s with TQFullAttentionSpec _ _ t => Some t | _ => None end.

(** [all(s.tq_slot_size == t for s in specs)] *)
Fixpoint all_tq_slots (t : Z) (specs : list LayerSpec) : result bool :=
  match specs with
  | [] => Ok true
  | s :: specs =>
      match tq_slot s with
      | None => Err AttributeError
      | Some t' => if t' =? t then all_tq_slots t specs else Ok false
      end
  end.

Definition mla_part (s : LayerSpec) : option MLAFields :=
  match s with
  | MLAAttentionSpec _ _ m | HiddenStateCacheSpec _ _ m | SlidingWindowMLASpec _ _ _ m => Some m
  | _ => None
  end.

(** [len({f(spec) for spec in specs}) == 1] for the three MLA fields. *)
Definition same_mla (m0 : MLAFields) (specs : list LayerSpec) : bool :=
  forallb (λ s, match mla_part s with
                | Some m => bool_decide (cache_dtype_str m = cache_dtype_str m0)
                            && (compress_ratio m =? compress_ratio m0)
                            && bool_decide (model_version m = model_version m0)
                | None => false end) specs.

(** [specs[0].merge(specs)] *)
Definition merge (specs : list LayerSpec) : result LayerSpec :=
  match specs with
  | [] => Err IndexError
  | s0 :: _ =>
      match s0 with
      | FullAttentionSpec a f => merge_full FullAttentionSpec a f specs
      | SinkFullAttentionSpec a f sl => merge_full (λ a f, SinkFullAttentionSpec a f sl) a f specs
      | TQFullAttentionSpec a f t =>
          merged ← merge_full (λ a f, TQFullAttentionSpec a f 0) a f specs;
          ok ← all_tq_slots t specs;
          match merged with
          | TQFullAttentionSpec a f _ =>
              if (ok : bool) then Ok (TQFullAttentionSpec a f t) else Err AssertionError
          | _ => Err AssertionError
          end
      | MLAAttentionSpec a _ m | HiddenStateCacheSpec a _ m =>
          if negb (forallb is_MLAAttentionSpec specs) then Err AssertionError
          else if negb (same_mla m specs) then Err AssertionError
          else
            let f' := mkFull (head_size a) None None in
            let m' := mkMLA (cache_dtype_str m) None (compress_ratio m) (model_version m) in
            Ok (match s0 with HiddenStateCacheSpec _ _ _ => HiddenStateCacheSpec a f' m'
                | _ => MLAAttentionSpec a f' m' end)
      | SlidingWindowMLASpec a w _ m =>
          if negb (forallb is_SlidingWindowMLASpec specs) then Err AssertionError
          else if negb (same_mla m specs
                        && forallb (λ s, bool_decide (spec_sliding_window s = Some w)) specs)
          then Err AssertionError
          else Ok (SlidingWindowMLASpec
                 (mkAttentionSpec (a_block_size a) (num_kv_heads a) (head_size a) (a_dtype a)
                    QUANT_NONE (a_page_size_padded a)) w None
                 (mkMLA (cache_dtype_str m) None (compress_ratio m) (model_version m)))
      | _ => if forallb (λ s, bool_decide (s = s0)) specs then Ok s0 else Err AssertionError
      end
  end.

(** ** Grouping *)

(** [is_uniform_with_collection] with the built-in registrations: the classes
    derived from [FullAttentionSpec] have it as their base, the encoder-only spec is
    not registered. *)
Definition is_uniform_with_collection (s : LayerSpec) (specs : list (string * LayerSpec)) : result bool :=
  match s with
  | ChunkedLocalAttentionSpec _ c => Ok (forallb (λ ns, bool_decide (spec_chunk_size ns.2 = Some c)) specs)
  | SlidingWindowSpec _ w _ => Ok (forallb (λ ns, bool_decide (spec_sliding_window ns.2 = Some w)) specs)
  | SlidingWindowMLASpec _ w _ _ =>
      Ok (forallb (λ ns, is_SlidingWindowMLASpec ns.2 && bool_decide (spec_sliding_window ns.2 = Some w)) specs)
  | MambaSpec m =>
      Ok (forallb (λ ns, match mamba_fields ns.2 with
                         | Some m' => num_speculative_blocks m' =? num_speculative_blocks m
                         | None => false end) specs)
  | EncoderOnlyAttentionSpec _ => Err AssertionError
  | CrossAttentionSpec _ =>
      Ok (forallb (λ ns, match ns.2 with CrossAttentionSpec _ => true | _ => false end) specs)
  | _ => Ok (forallb (λ ns, is_FullAttentionSpec ns.2) specs)
  end.

Definition is_uniform_type (specs : list (string * LayerSpec)) : result bool :=
  if (1 <? zlen (remove_dups ((λ ns, layer_block_size ns.2) <$> specs))) then Ok false
  else match specs with
       | [] => Err StopIteration
       | ns :: _ => is_uniform_with_collection ns.2 specs
       end.

Definition from_specs (specs : list (string * LayerSpec)) : result (option KVCacheSpec) :=
  u ← is_uniform_type specs;
  if (u : bool) then
    match specs with
    | [] => Err StopIteration
    | ns :: _ => Ok (Some (UniformTypeKVCacheSpecs (layer_block_size ns.2) specs))
    end
  else Ok None.

(** [get_page_sizes]: the distinct page sizes (in some order). *)
Definition get_page_sizes (specs : list (string * LayerSpec)) : result (list Z) :=
  sizes ← foldr (λ (ns : string * LayerSpec) (acc : result (list Z)),
             p ← layer_page_size_bytes ns.2; l ← acc; Ok (p :: l)) (Ok []) specs;
  Ok (remove_dups sizes).

Inductive KVCacheSpecKind :=
  | FULL_ATTENTION | MLA_ATTENTION | SLIDING_WINDOW | SLIDING_WINDOW_MLA | MAMBA
  | CHUNKED_LOCAL_ATTENTION | SINK_FULL_ATTENTION | ENCODER_ONLY_ATTENTION | CROSS_ATTENTION | UNKNOWN.
#[global] Instance KVCacheSpecKind_eq_dec : EqDecision KVCacheSpecKind.
Proof. solve_decision. Defined.

Definition layer_kind (s : LayerSpec) : KVCacheSpecKind :=
  match s with
  | SlidingWindowMLASpec _ _ _ _ => SLIDING_WINDOW_MLA
  | MLAAttentionSpec _ _ _ | HiddenStateCacheSpec _ _ _ => MLA_ATTENTION
  | SinkFullAttentionSpec _ _ _ => SINK_FULL_ATTENTION
  | FullAttentionSpec _ _ | TQFullAttentionSpec _ _ _ => FULL_ATTENTION
  | ChunkedLocalAttentionSpec _ _ => CHUNKED_LOCAL_ATTENTION
  | SlidingWindowSpec _ _ _ => SLIDING_WINDOW
  | MambaSpec _ => MAMBA
  | EncoderOnlyAttentionSpec _ => ENCODER_ONLY_ATTENTION
  | CrossAttentionSpec _ => CROSS_ATTENTION
  end.

Definition get_kv_cache_spec_kind (s : KVCacheSpec) : KVCacheSpecKind :=
  match s with
  | OneSpec s => layer_kind s
  | UniformTypeKVCacheSpecs _ specs =>
      match remove_dups ((λ ns, layer_kind ns.2) <$> specs) with [k] => k | _ => UNKNOWN end
  end.

Definition get_kv_cache_spec_sliding_window (s : KVCacheSpec) : option Z :=
  match s with
  | OneSpec s => spec_sliding_window s
  | UniformTypeKVCacheSpecs _ specs =>
      match remove_dups ((λ ns, spec_sliding_window ns.2) <$> specs) with [w] => w | _ => None end
  end.

Record KVCacheTensor := mkKVCacheTensor { size : Z; shared_by : list string }.

Record KVCacheGroupSpec := mkKVCacheGroupSpec {
  layer_names : list string;
  kv_cache_spec : KVCacheSpec;
  is_eagle_group : bool
}.

Record KVCacheConfig := mkKVCacheConfig {
  num_blocks : Z;
  kv_cache_tensors : list KVCacheTensor;
  kv_cache_groups : list KVCacheGroupSpec
}.

Definition is_mamba_group (g : KVCacheGroupSpec) : bool :=
  match kv_cache_spec g with OneSpec (MambaSpec _) => true | _ => false end.
Definition has_mamba_layers (c : KVCacheConfig) : bool := existsb is_mamba_group (kv_cache_groups c).
Definition needs_kv_cache_zeroing (c : KVCacheConfig) : bool := has_mamba_layers c.
