(* ===== verification/FreeQueue.v ===== *)
(** * KV-cache blocks and the free-block queue

    Models [KVCacheBlock] and [FreeKVCacheBlockQueue] of
    [vllm/v1/core/kv_cache_utils.py]. Block objects live in a heap indexed by
    object identity; the queue is a doubly linked list threaded through the
    [prev_free_block]/[next_free_block] fields of the blocks between two
    sentinel objects. The abstract queue is the list of block objects in
    eviction order; every operation is shown to refine the list operation. *)

From Stdlib Require Import ZArith Lia.
From S2P Require Import Prelude.
Local Open Scope Z_scope.

(** ** Block objects *)

(** Object identities: the two sentinels of the queue and the [i]-th block
    object of the pool. *)
Inductive loc :=
  | FakeHead
  | FakeTail
  | Block (i : nat).

#[global] Instance loc_eq_dec : EqDecision loc.
Proof. solve_decision. Defined.
#[global] Instance loc_inhabited : Inhabited loc := populate FakeHead.
#[global] Program Instance loc_countable : Countable loc :=
  inj_countable'
    (λ l, match l with FakeHead => inl true | FakeTail => inl false | Block i => inr i end)
    (λ s, match s with inl true => FakeHead | inl false => FakeTail | inr i => Block i end) _.
Next Obligation. by intros []. Qed.

Record KVCacheBlock := mkKVCacheBlock {
  block_id : Z;
  ref_cnt : Z;
  _block_hash : option bytes;
  prev_free_block : option loc;
  next_free_block : option loc;
  is_null : bool
}.

(** [KVCacheBlock(block_id=i)] with the dataclass defaults. *)
Definition new_block (i : Z) : KVCacheBlock := mkKVCacheBlock i 0 None None None false.

Definition with_ref_cnt (v : Z) (b : KVCacheBlock) : KVCacheBlock :=
  mkKVCacheBlock (block_id b) v (_block_hash b) (prev_free_block b) (next_free_block b) (is_null b).
Definition with_hash (v : option bytes) (b : KVCacheBlock) : KVCacheBlock :=
  mkKVCacheBlock (block_id b) (ref_cnt b) v (prev_free_block b) (next_free_block b) (is_null b).
Definition with_prev (v : option loc) (b : KVCacheBlock) : KVCacheBlock :=
  mkKVCacheBlock (block_id b) (ref_cnt b) (_block_hash b) v (next_free_block b) (is_null b).
Definition with_next (v : option loc) (b : KVCacheBlock) : KVCacheBlock :=
  mkKVCacheBlock (block_id b) (ref_cnt b) (_block_hash b) (prev_free_block b) v (is_null b).
Definition with_is_null (v : bool) (b : KVCacheBlock) : KVCacheBlock :=
  mkKVCacheBlock (block_id b) (ref_cnt b) (_block_hash b) (prev_free_block b) (next_free_block b) v.

Abbreviation heap := (loc → KVCacheBlock).

Record FreeKVCacheBlockQueue := mkQueue {
  q_heap : heap;
  num_free_blocks : Z
}.

Abbreviation FQ := FreeKVCacheBlockQueue.

Definition upd (x : loc) (f : KVCacheBlock → KVCacheBlock) : M FQ unit :=
  modify (λ q, mkQueue (alter f x (q_heap q)) (num_free_blocks q)).
Definition set_prev (x : loc) (v : option loc) : M FQ unit := upd x (with_prev v).
Definition set_next (x : loc) (v : option loc) : M FQ unit := upd x (with_next v).
Definition get_prev (x : loc) : M FQ (option loc) := gets (λ q, prev_free_block (q_heap q x)).
Definition get_next (x : loc) : M FQ (option loc) := gets (λ q, next_free_block (q_heap q x)).
Definition add_num (d : Z) : M FQ unit :=
  modify (λ q, mkQueue (q_heap q) (num_free_blocks q + d)).

(** The property setter of [KVCacheBlock.block_hash] and [reset_hash]. *)
Definition set_block_hash (x : loc) (key : bytes) : M FQ unit :=
  old ← gets (λ q, _block_hash (q_heap q x));
  _ ← py_assert (bool_decide (old = None));
  upd x (with_hash (Some key)).
Definition reset_hash (x : loc) : M FQ unit := upd x (with_hash None).

(** ** The operations of [FreeKVCacheBlockQueue] *)

(** The loop of [__init__] that links consecutive blocks. *)
Definition init_link (blocks : list loc) (i : nat) : M FQ unit :=
  _ ← (if bool_decide (0 < i)%nat
       then set_prev (blocks !!! i) (Some (blocks !!! (i - 1)%nat)) else mret tt);
  (if bool_decide (i < length blocks - 1)%nat
   then set_next (blocks !!! i) (Some (blocks !!! (i + 1)%nat)) else mret tt).

(** [__init__]: [blocks] are existing block objects of the heap. *)
Definition init (blocks : list loc) : M FQ unit :=
  _ ← modify (λ q, mkQueue (q_heap q) (zlen blocks));
  _ ← forM (seq 0 (length blocks)) (init_link blocks);
  _ ← upd FakeHead (λ _, new_block (-1));
  _ ← upd FakeTail (λ _, new_block (-1));
  match head blocks, last blocks with
  | Some b0, Some bl =>
      _ ← set_next FakeHead (Some b0);
      _ ← set_prev b0 (Some FakeHead);
      _ ← set_prev FakeTail (Some bl);
      set_next bl (Some FakeTail)
  | _, _ =>
      _ ← set_next FakeHead (Some FakeTail);
      set_prev FakeTail (Some FakeHead)
  end.

Definition popleft : M FQ loc :=
  hn ← get_next FakeHead;
  match hn with
  | None | Some FakeTail =>
      n ← gets num_free_blocks;
      _ ← py_assert (n =? 0);
      raise ValueError
  | Some first_block =>
      fn ← get_next first_block;
      match fn with
      | None => raise RuntimeError
      | Some second_block =>
          _ ← set_next FakeHead (Some second_block);
          _ ← set_prev second_block (Some FakeHead);
          _ ← set_prev first_block None;
          _ ← set_next first_block None;
          _ ← add_num (-1);
          mret first_block
      end
  end.

(** The [for _ in range(n)] loop of [popleft_n]: the blocks taken and the
    block reached. *)
Fixpoint popleft_n_loop (n : nat) (curr : option loc) : M FQ (list loc * option loc) :=
  match n with
  | O => mret ([], curr)
  | S n =>
      match curr with
      | None => raise AssertionError
      | Some last_block =>
          nxt ← get_next last_block;
          _ ← set_prev last_block None;
          _ ← set_next last_block None;
          rest ← popleft_n_loop n nxt;
          mret (last_block :: fst rest, snd rest)
      end
  end.

Definition popleft_n (n : Z) : M FQ (list loc) :=
  if n =? 0 then mret []
  else
    num ← gets num_free_blocks;
    _ ← py_assert (n <=? num);
    _ ← add_num (- n);
    curr ← get_next FakeHead;
    r ← popleft_n_loop (Z.to_nat n) curr;
    _ ← match snd r with
        | Some curr_block =>
            _ ← set_next FakeHead (Some curr_block);
            set_prev curr_block (Some FakeHead)
        | None => mret tt
        end;
    mret (fst r).

Definition remove (block : loc) : M FQ unit :=
  p ← get_prev block;
  n ← get_next block;
  match p, n with
  | Some prev_block, Some next_block =>
      _ ← set_next prev_block (Some next_block);
      _ ← set_prev next_block (Some prev_block);
      _ ← set_prev block None;
      _ ← set_next block None;
      add_num (-1)
  | _, _ => raise RuntimeError
  end.

Definition append (block : loc) : M FQ unit :=
  tp ← get_prev FakeTail;
  match tp with
  | None => raise RuntimeError
  | Some last_block =>
      _ ← set_next last_block (Some block);
      _ ← set_prev block (Some last_block);
      _ ← set_next block (Some FakeTail);
      _ ← set_prev FakeTail (Some block);
      add_num 1
  end.

(** The loop shared by [prepend_n] and [append_n]: chain [blocks] after
    [prev_block], returning the last block chained. *)
Fixpoint chain (prev_block : loc) (blocks : list loc) : M FQ loc :=
  match blocks with
  | [] => mret prev_block
  | block :: blocks =>
      _ ← set_prev block (Some prev_block);
      _ ← set_next prev_block (Some block);
      chain block blocks
  end.

Definition prepend_n (blocks : list loc) : M FQ unit :=
  if bool_decide (blocks = []) then mret tt
  else
    hn ← get_next FakeHead;
    match hn with
    | None => raise AssertionError
    | Some first_block =>
        prev_block ← chain FakeHead blocks;
        _ ← set_next prev_block (Some first_block);
        _ ← set_prev first_block (Some prev_block);
        add_num (zlen blocks)
    end.

Definition append_n (blocks : list loc) : M FQ unit :=
  if bool_decide (blocks = []) then mret tt
  else
    tp ← get_prev FakeTail;
    match tp with
    | None => raise AssertionError
    | Some last_block =>
        last_block' ← chain last_block blocks;
        _ ← set_next last_block' (Some FakeTail);
        _ ← set_prev FakeTail (Some last_block');
        add_num (zlen blocks)
    end.

(** The [while] loop of [get_all_free_blocks], bounded by [fuel] iterations;
    [None] when the fuel runs out. *)
Fixpoint get_all_loop (fuel : nat) (h : heap) (curr_block : loc) : option (list loc) :=
  match fuel with
  | O => None
  | S fuel =>
      match next_free_block (h curr_block) with
      | None => Some []
      | Some nxt => cons curr_block <$> get_all_loop fuel h nxt
      end
  end.

Definition get_all_free_blocks (fuel : nat) (q : FQ) : result (option (list loc)) :=
  match next_free_block (q_heap q FakeHead) with
  | None => Err RuntimeError
  | Some b => Ok (get_all_loop fuel (q_heap q) b)
  end.

(** ** The representation predicate *)

(** Consecutive objects of [xs] point at each other. *)
Fixpoint linked (h : heap) (xs : list loc) : Prop :=
  match xs with
  | a :: (b :: _) as xs' =>
      next_free_block (h a) = Some b ∧ prev_free_block (h b) = Some a ∧ linked h xs'
  | _ => True
  end.

(** The objects threaded by a queue whose free blocks are [l]. *)
Definition spine (l : list loc) : list loc := FakeHead :: l ++ [FakeTail].

Record queue_repr (q : FQ) (l : list loc) : Prop := {
  qr_linked : linked (q_heap q) (spine l);
  qr_nodup : NoDup (spine l);
  qr_num : num_free_blocks q = zlen l;
  qr_head : prev_free_block (q_heap q FakeHead) = None;
  qr_tail : next_free_block (q_heap q FakeTail) = None;
  qr_out : ∀ i, Block i ∉ l →
    prev_free_block (q_heap q (Block i)) = None ∧ next_free_block (q_heap q (Block i)) = None
}.

(** The fields the queue never touches. *)
Definition same_meta (b b' : KVCacheBlock) : Prop :=
  block_id b' = block_id b ∧ ref_cnt b' = ref_cnt b ∧
  _block_hash b' = _block_hash b ∧ is_null b' = is_null b.
Definition meta_frame (h h' : heap) : Prop := ∀ x, same_meta (h x) (h' x).

#[global] Instance same_meta_preorder : PreOrder same_meta.
Proof.
  split; [by repeat split|].
  intros ??? (?&?&?&?) (?&?&?&?). repeat split; congruence.
Qed.
#[global] Instance meta_frame_preorder : PreOrder meta_frame.
Proof.
  split; [intros h x; reflexivity|].
  intros h1 h2 h3 H1 H2 x. etrans; [apply H1|apply H2].
Qed.

(** ** Lemmas on linked lists *)

Lemma heap_alter (f : KVCacheBlock → KVCacheBlock) (x y : loc) (h : heap) :
  alter f x h y = if decide (x = y) then f (h x) else h y.
Proof. done. Qed.

(** Decide every pointer comparison left in the goal. *)
Ltac heap_simpl :=
  repeat (rewrite ?heap_alter; simpl; try case_decide; simplify_eq/=).

Lemma meta_frame_alter f x h :
  (∀ b, same_meta b (f b)) → meta_frame h (alter f x h).
Proof. intros Hf y. rewrite heap_alter. case_decide; subst; [apply Hf|done]. Qed.
Lemma same_meta_prev v b : same_meta b (with_prev v b).
Proof. done. Qed.
Lemma same_meta_next v b : same_meta b (with_next v b).
Proof. done. Qed.

Ltac solve_frame :=
  repeat first
    [ done
    | etrans; [|by apply meta_frame_alter]; cbn ].

Lemma linked_cons h a b xs :
  linked h (a :: b :: xs) ↔
  next_free_block (h a) = Some b ∧ prev_free_block (h b) = Some a ∧ linked h (b :: xs).
Proof. done. Qed.
Lemma linked_one h a : linked h [a].
Proof. done. Qed.

Lemma linked_cons_inv h a xs : linked h (a :: xs) → linked h xs.
Proof. destruct xs; [done|]. by intros (_&_&?). Qed.

Lemma linked_app h xs a ys :
  linked h (xs ++ a :: ys) ↔ linked h (xs ++ [a]) ∧ linked h (a :: ys).
Proof.
  induction xs as [|x xs IH]; simpl; [tauto|].
  destruct xs as [|y xs]; simpl in *; tauto.
Qed.

(** A segment survives an update that keeps the forward pointers of all but
    its last object and the backward pointers of all but its first. *)
Lemma linked_ext h h' xs z :
  linked h (xs ++ [z]) →
  (∀ a, a ∈ xs → next_free_block (h' a) = next_free_block (h a)) →
  (∀ b, b ∈ tail (xs ++ [z]) → prev_free_block (h' b) = prev_free_block (h b)) →
  linked h' (xs ++ [z]).
Proof.
  induction xs as [|x xs IH]; simpl; [done|]. intros Hl Hn Hp.
  assert (∃ y ys, xs ++ [z] = y :: ys) as (y & ys & E).
  { destruct xs; simpl; eauto. }
  rewrite E in *. destruct Hl as (H1 & H2 & H3).
  repeat split.
  - rewrite Hn; [done|]. set_solver.
  - rewrite Hp; [done|]. set_solver.
  - apply IH; [done|set_solver|set_solver].
Qed.

#[global] Arguments linked : simpl never.

Lemma linked_next h xs a b ys :
  linked h (xs ++ a :: b :: ys) → next_free_block (h a) = Some b.
Proof. rewrite linked_app. by intros (_ & ? & _). Qed.
Lemma linked_prev h xs a b ys :
  linked h (xs ++ a :: b :: ys) → prev_free_block (h b) = Some a.
Proof. rewrite linked_app. by intros (_ & _ & ? & _). Qed.

Lemma spine_app l1 l2 : spine (l1 ++ l2) = (FakeHead :: l1) ++ l2 ++ [FakeTail].
Proof. unfold spine. by rewrite <-(assoc_L (++)). Qed.

Lemma spine_first l : ∃ y ys, l ++ [FakeTail] = y :: ys.
Proof. destruct l; simpl; eauto. Qed.
Lemma spine_last l : ∃ ys y, FakeHead :: l = ys ++ [y].
Proof.
  destruct l as [|x l] using rev_ind; [by exists [], FakeHead|].
  by exists (FakeHead :: l), x.
Qed.

(** Replacing the objects between [a] and [b]: only the forward pointer of
    [a], the backward pointer of [b] and the inserted objects matter. *)
Lemma linked_splice h h' xs a ms b zs :
  linked h (xs ++ [a]) → linked h (b :: zs) →
  (∀ x, x ∈ xs ++ zs → h' x = h x) →
  prev_free_block (h' a) = prev_free_block (h a) →
  next_free_block (h' b) = next_free_block (h b) →
  linked h' (a :: ms ++ [b]) →
  linked h' (xs ++ a :: ms ++ b :: zs).
Proof.
  intros Hx Hz Heq Ha Hb Hm. apply linked_app. split.
  - eapply linked_ext; [done| |].
    + intros x Hin. rewrite Heq; [done|set_solver+Hin].
    + intros x Hin. destruct (decide (x = a)) as [->|]; [done|].
      rewrite Heq; [done|]. destruct xs; set_solver.
  - change (linked h' ((a :: ms) ++ b :: zs)). apply linked_app. split; [done|].
    destruct (exists_last (l:=b :: zs)) as (ws & w & E); [done|].
    rewrite E in *. eapply linked_ext; [done| |].
    + intros x Hin. destruct (decide (x = b)) as [->|]; [done|].
      rewrite Heq; [done|]. assert (x ∈ b :: zs) by (rewrite E; set_solver+Hin).
      set_solver.
    + intros x Hin. rewrite <-E in Hin. simpl in Hin. rewrite Heq; [done|set_solver+Hin].
Qed.

Lemma spine_block l i : Block i ∈ spine l ↔ Block i ∈ l.
Proof. unfold spine. set_solver. Qed.
Lemma spine_length l : zlen l = zlen (spine l) - 2.
Proof. unfold spine, zlen. simpl. rewrite length_app. simpl. lia. Qed.

(** The queue operations all replace the objects between two objects of the
    spine; this is the representation argument they share. *)
Lemma repr_splice q l l' xs a old new b zs h' :
  queue_repr q l →
  spine l = xs ++ a :: old ++ b :: zs →
  spine l' = xs ++ a :: new ++ b :: zs →
  NoDup (spine l') →
  (∀ x, x ≠ a → x ≠ b → x ∉ old → x ∉ new → h' x = q_heap q x) →
  prev_free_block (h' a) = prev_free_block (q_heap q a) →
  next_free_block (h' b) = next_free_block (q_heap q b) →
  (∀ x, x ∈ old → x ∉ new → prev_free_block (h' x) = None ∧ next_free_block (h' x) = None) →
  linked h' (a :: new ++ [b]) →
  queue_repr (mkQueue h' (zlen l')) l'.
Proof.
  intros [Hl Hnd Hn Hh Ht Ho] E E' Hnd' Heq Ha Hb Hold Hnew.
  assert (Hout : ∀ x, x ∈ xs ++ zs → h' x = q_heap q x).
  { intros x Hx. rewrite E in Hnd. rewrite E' in Hnd'.
    apply NoDup_app in Hnd as (_ & N1 & N2), Hnd' as (_ & N1' & N2').
    apply NoDup_cons in N2 as [N2 N3], N2' as [N2' N3'].
    apply NoDup_app in N3 as (_ & N4 & N5), N3' as (_ & N4' & N5').
    apply NoDup_cons in N5 as [N5 _].
    clear Hl Ho Hold Hnew. apply Heq.
    - intros ->. set_solver.
    - intros ->. set_solver.
    - intros ?. set_solver.
    - intros ?. set_solver. }
  split; simpl; [| done | done | | | ].
  - rewrite E', E in *.
    apply linked_app in Hl as [Hl1 Hl2].
    change (linked (q_heap q) ((a :: old) ++ b :: zs)) in Hl2.
    apply linked_app in Hl2 as [_ Hl2]. by eapply linked_splice.
  - destruct xs as [|x xs]; unfold spine in E; simplify_eq/=; [by rewrite Ha|].
    rewrite Hout; [done|left].
  - assert (last (b :: zs) = Some FakeTail) as Hlast.
    { rewrite <-(last_app_cons (xs ++ a :: old)), <-(assoc_L (++)). simpl.
      rewrite <-E. apply (last_snoc FakeTail (FakeHead :: l)). }
    apply last_Some_elem_of, elem_of_cons in Hlast as [<-|Hz]; [by rewrite Hb|].
    rewrite Hout; [done|set_solver +Hz].
  - intros i Hi. destruct (decide (Block i ∈ old)) as [Hin|Hin].
    + apply Hold; [done|]. intros ?. apply Hi, spine_block. rewrite E'. set_solver.
    + assert (Block i ∉ l).
      { intros Hin'%spine_block. apply Hi, spine_block. rewrite E in Hin'. rewrite E'.
        set_solver +Hin' Hin. }
      assert (Block i ∉ spine l') as Hns by (by rewrite spine_block). rewrite E' in Hns.
      rewrite Heq; [by apply Ho| | | |]; set_solver +Hns Hin.
Qed.

(** ** Each operation refines its list counterpart *)

Lemma repr_not_sentinel q l b : queue_repr q l → b ∈ l → ∃ i, b = Block i.
Proof.
  intros [_ Hnd _ _ _ _] Hb. unfold spine in Hnd.
  apply NoDup_cons in Hnd as [Hh [_ [Ht _]]%NoDup_app].
  destruct b; [set_solver|set_solver|eauto].
Qed.

Lemma repr_num q l (l' : list loc) d : queue_repr q l → zlen l' = zlen l + d →
  num_free_blocks q + d = zlen l'.
Proof. intros Hq ->. by rewrite (qr_num _ _ Hq). Qed.

(** Facts about pairwise distinct objects, as disequalities [set_solver] uses. *)
Ltac nodup_split :=
  repeat match goal with
  | H : NoDup (_ :: _) |- _ => apply NoDup_cons in H as [? H]
  | H : NoDup (_ ++ _) |- _ => apply NoDup_app in H as (? & ? & ?)
  end.

Lemma popleft_nil q : queue_repr q [] → popleft q = Err ValueError.
Proof.
  intros [Hl _ Hn _ _ _]. destruct Hl as (H1 & _).
  unfold popleft. munfold. rewrite H1. simpl. by rewrite Hn.
Qed.

Lemma popleft_cons q x l :
  queue_repr q (x :: l) →
  ∃ q', popleft q = Ok (x, q') ∧ queue_repr q' l ∧ meta_frame (q_heap q) (q_heap q').
Proof.
  intros Hq. destruct (repr_not_sentinel _ _ x Hq) as [i ->]; [left|].
  pose proof (qr_linked _ _ Hq) as Hl. pose proof (qr_nodup _ _ Hq) as Hnd.
  unfold spine in Hl, Hnd. simpl in *.
  destruct (spine_first l) as (y & ys & E). rewrite E in *.
  rewrite !linked_cons in Hl. destruct Hl as (H1 & H2 & H3 & H4 & H5).
  eexists. unfold popleft. munfold. rewrite H1, H3.
  split; [done|]. split; [|solve_frame].
  rewrite (repr_num q (Block i :: l) l (-1)); [|done|unfold zlen; simpl; lia].
  apply NoDup_cons in Hnd as [N1 [N2 Hnd]%NoDup_cons].
  eapply (repr_splice q _ _ [] FakeHead [Block i] [] y ys); [done|..].
  - unfold spine. simpl. by rewrite E.
  - unfold spine. simpl. by rewrite E.
  - unfold spine. rewrite E. constructor; [set_solver +N1|done].
  - intros z ????. heap_simpl; set_solver.
  - heap_simpl; set_solver +N1.
  - heap_simpl; set_solver +N1 N2.
  - intros z Hz _. apply list_elem_of_singleton in Hz as ->.
    heap_simpl; (done || set_solver +N2).
  - simpl. apply linked_cons. heap_simpl; (done || set_solver +N1 N2).
Qed.

(** The loop of [popleft_n] detaches exactly the blocks it walks over. *)
Lemma popleft_n_loop_spec ls y q :
  linked (q_heap q) (ls ++ [y]) → NoDup (ls ++ [y]) →
  ∃ h', popleft_n_loop (length ls) (head (ls ++ [y])) q
          = Ok ((ls, Some y), mkQueue h' (num_free_blocks q))
    ∧ (∀ x, x ∉ ls → h' x = q_heap q x)
    ∧ (∀ x, x ∈ ls → prev_free_block (h' x) = None ∧ next_free_block (h' x) = None)
    ∧ meta_frame (q_heap q) h'.
Proof.
  revert q. induction ls as [|x ls IH]; intros q Hl Hnd; simpl.
  { exists (q_heap q). destruct q. set_solver. }
  simpl in *. apply NoDup_cons in Hnd as [Nx Hnd].
  assert (∃ z zs, ls ++ [y] = z :: zs) as (z & zs & E) by (destruct ls; simpl; eauto).
  assert (next_free_block (q_heap q x) = head (ls ++ [y])) as Hx.
  { rewrite E in *. by destruct Hl as (-> & _). }
  set (q1 := mkQueue (alter (with_next None) x (alter (with_prev None) x (q_heap q)))
               (num_free_blocks q)).
  destruct (IH q1) as (h' & Hrun & Heq & Hnone & Hfr); [|done|].
  { apply linked_cons_inv in Hl. eapply linked_ext; [done| |].
    - intros a Ha. simpl. heap_simpl; set_solver.
    - intros b Hb. assert (b ∈ ls ++ [y]) by (rewrite E in *; set_solver +Hb).
      simpl. heap_simpl; set_solver. }
  exists h'. split_and!.
  - munfold. rewrite Hx. fold q1. by rewrite Hrun.
  - intros a [??]%not_elem_of_cons. rewrite Heq; [|done]. simpl. by heap_simpl.
  - intros a [->|Ha]%elem_of_cons; [|by apply Hnone].
    rewrite Heq by set_solver. simpl. by heap_simpl.
  - etrans; [|done]. simpl. solve_frame.
Qed.

Lemma popleft_n_spec q n l :
  queue_repr q l → 0 ≤ n ≤ zlen l →
  ∃ q', popleft_n n q = Ok (take (Z.to_nat n) l, q')
    ∧ queue_repr q' (drop (Z.to_nat n) l) ∧ meta_frame (q_heap q) (q_heap q').
Proof.
  intros Hq Hn. unfold popleft_n. destruct (Z.eqb_spec n 0) as [->|Hn0].
  { exists q. by rewrite Z2Nat.inj_0, take_0, drop_0. }
  set (k := Z.to_nat n). set (ls := take k l).
  assert (length ls = k) as Hlen by (unfold ls, zlen in *; rewrite length_take; lia).
  destruct (spine_first (drop k l)) as (y & ys & E).
  assert (spine l = FakeHead :: ls ++ y :: ys) as Es.
  { unfold spine. rewrite <-E, (assoc_L (++)). unfold ls. by rewrite take_drop. }
  pose proof (qr_linked _ _ Hq) as Hl. pose proof (qr_nodup _ _ Hq) as Hnd.
  rewrite Es in Hl, Hnd. apply NoDup_cons in Hnd as [N1 Hnd].
  destruct (popleft_n_loop_spec ls y (mkQueue (q_heap q) (num_free_blocks q - n)))
    as (h' & Hrun & Heq & Hnone & Hfr).
  { apply linked_cons_inv, linked_app in Hl as [? _]. done. }
  { change (y :: ys) with ([y] ++ ys) in Hnd. rewrite (assoc_L (++)) in Hnd.
    by apply NoDup_app in Hnd as [? _]. }
  assert (next_free_block (q_heap q FakeHead) = head (ls ++ [y])) as Hh.
  { destruct ls; simpl in *; rewrite linked_cons in Hl; by destruct Hl as (-> & _). }
  apply NoDup_app in Hnd as (N2 & N3 & N4). apply NoDup_cons in N4 as [N4 N5].
  eexists. munfold. rewrite (proj2 (Z.leb_le n _)) by (rewrite (qr_num _ _ Hq); lia).
  simpl. rewrite Hh. fold k. rewrite Hlen, <-Z.add_opp_r in Hrun. rewrite Hrun.
  split; [done|]. split; [|etrans; [done|solve_frame]]. simpl.
  rewrite (repr_num q l (drop k l)); [|done|unfold zlen, k in *; rewrite length_drop; lia].
  eapply (repr_splice q l _ [] FakeHead ls [] y ys); [done|done|..]; simpl in *.
  - unfold spine. by rewrite E.
  - unfold spine. rewrite E. constructor; [set_solver +N1|by constructor].
  - intros z ????. heap_simpl; by rewrite Heq.
  - heap_simpl; [set_solver +N1|]. rewrite Heq; [done|set_solver +N1].
  - assert (y ∉ ls) by (intros ?; by eapply N3; [|left]).
    heap_simpl; [set_solver +N1|]. by rewrite Heq.
  - intros z Hz _. assert (z ≠ y) by (intros ->; by eapply N3; [|left]).
    heap_simpl; [set_solver +N1 Hz|]. by apply Hnone.
  - apply linked_cons. heap_simpl; (done || set_solver +N1).
Qed.

Lemma popleft_n_too_many q n l :
  queue_repr q l → zlen l < n → popleft_n n q = Err AssertionError.
Proof.
  intros Hq Hn. unfold popleft_n. destruct (Z.eqb_spec n 0) as [->|_].
  { unfold zlen in *. lia. }
  munfold. rewrite (qr_num _ _ Hq). by destruct (Z.leb_spec n (zlen l)); [lia|].
Qed.

Lemma remove_not_in q i l :
  queue_repr q l → Block i ∉ l → remove (Block i) q = Err RuntimeError.
Proof.
  intros Hq Hi. unfold remove. munfold. by destruct (qr_out _ _ Hq i Hi) as [-> _].
Qed.

Lemma remove_spec q l1 b l2 :
  queue_repr q (l1 ++ b :: l2) →
  ∃ q', remove b q = Ok (tt, q') ∧ queue_repr q' (l1 ++ l2)
    ∧ meta_frame (q_heap q) (q_heap q').
Proof.
  intros Hq. pose proof (qr_linked _ _ Hq) as Hl. pose proof (qr_nodup _ _ Hq) as Hnd.
  destruct (spine_first l2) as (y & ys & E), (spine_last l1) as (xs & x & E').
  assert (Es : spine (l1 ++ b :: l2) = xs ++ x :: b :: y :: ys).
  { rewrite spine_app, E'. simpl. rewrite E. by rewrite <-(assoc_L (++)). }
  rewrite Es in *. pose proof (linked_next (q_heap q) (xs ++ [x]) b y ys) as Hn.
  rewrite <-(assoc_L (++)) in Hn. specialize (Hn Hl).
  pose proof (linked_prev _ _ _ _ _ Hl) as Hp.
  apply NoDup_app in Hnd as (N1 & N2 & N3). apply NoDup_cons in N3 as [N3 N4].
  apply NoDup_cons in N4 as [N4 N5].
  assert (b ≠ x ∧ b ≠ y ∧ x ≠ y) as (?&?&?) by set_solver.
  unfold remove. munfold. rewrite Hp, Hn. eexists. split; [done|].
  split; [|solve_frame].
  assert (spine (l1 ++ l2) = xs ++ x :: [] ++ y :: ys) as Es'.
  { rewrite spine_app, E', E. by rewrite <-(assoc_L (++)). }
  simpl. rewrite (repr_num q (l1 ++ b :: l2) (l1 ++ l2) (-1));
    [|done|unfold zlen; rewrite !length_app; simpl; lia].
  eapply (repr_splice q _ _ xs x [b] [] y ys); [done|done|done|..].
  - rewrite Es'. apply NoDup_app. split; [done|]. split; [set_solver +N2|].
    constructor; [set_solver +N3|done].
  - intros z ????. heap_simpl; set_solver.
  - by heap_simpl.
  - by heap_simpl.
  - intros z ->%list_elem_of_singleton _. by heap_simpl.
  - apply linked_cons. by heap_simpl.
Qed.

(** Chaining fresh objects behind [p] links them and touches nothing else. *)
Lemma chain_spec bs p q :
  p ∉ bs → NoDup bs →
  ∃ h', chain p bs q = Ok (default p (last bs), mkQueue h' (num_free_blocks q))
    ∧ linked h' (p :: bs)
    ∧ (∀ x, x ≠ p → x ∉ bs → h' x = q_heap q x)
    ∧ prev_free_block (h' p) = prev_free_block (q_heap q p)
    ∧ meta_frame (q_heap q) h'.
Proof.
  revert p q. induction bs as [|b bs IH]; intros p q Hp Hnd; simpl.
  { exists (q_heap q). by destruct q. }
  apply NoDup_cons in Hnd as [Hb Hnd].
  set (q1 := mkQueue (alter (with_next (Some b)) p (alter (with_prev (Some p)) b (q_heap q)))
               (num_free_blocks q)).
  destruct (IH b q1) as (h' & Hrun & Hl & Heq & Hprev & Hfr); [done|done|].
  assert (p ≠ b) by set_solver. exists h'. split_and!.
  - munfold. fold q1. rewrite Hrun. change (match bs with [] => Some b | _ :: _ => last bs end)
      with (last (b :: bs)). rewrite last_cons. by destruct (last bs).
  - apply linked_cons. split; [|split; [|done]].
    + rewrite Heq; [|done|set_solver]. simpl. by heap_simpl.
    + rewrite Hprev. simpl. by heap_simpl.
  - intros x Hx [??]%not_elem_of_cons. rewrite Heq by done. simpl. by heap_simpl.
  - rewrite Heq; [|done|set_solver]. simpl. by heap_simpl.
  - etrans; [|done]. simpl. solve_frame.
Qed.

Lemma linked_snoc h xs a b :
  linked h (xs ++ [a]) → next_free_block (h a) = Some b → prev_free_block (h b) = Some a →
  linked h (xs ++ [a; b]).
Proof. intros H1 H2 H3. apply linked_app. by split; [|apply linked_cons]. Qed.

(** The blocks a queue can take back: distinct and not already queued. *)
Definition fresh_for (l bs : list loc) : Prop :=
  NoDup bs ∧ ∀ b, b ∈ bs → b ∉ spine l.

Lemma spine_nodup_insert l1 bs l2 :
  NoDup (spine (l1 ++ l2)) → fresh_for (l1 ++ l2) bs → NoDup (spine (l1 ++ bs ++ l2)).
Proof.
  rewrite !spine_app. intros Hnd [Hbs Hf]. rewrite <-(assoc_L (++)).
  unfold spine in Hf. rewrite <-(assoc_L (++)), app_comm_cons in Hf.
  apply NoDup_app in Hnd as (N1 & N2 & N3).
  apply NoDup_app. split; [done|]. split; [set_solver +N2 Hf|].
  apply NoDup_app. split; [done|]. split; [set_solver +Hf|done].
Qed.

(** Both [prepend_n] and [append_n] chain [bs] between neighbours [a] and [b]
    and then close the chain. *)
Lemma chain_insert q l1 l2 bs a b xs zs :
  queue_repr q (l1 ++ l2) → bs ≠ [] → fresh_for (l1 ++ l2) bs →
  FakeHead :: l1 = xs ++ [a] → l2 ++ [FakeTail] = b :: zs →
  ∃ q1, chain a bs q = Ok (default a (last bs), q1)
    ∧ num_free_blocks q1 = num_free_blocks q
    ∧ let h' := alter (with_prev (last bs)) b
                  (alter (with_next (Some b)) (default a (last bs)) (q_heap q1)) in
      queue_repr (mkQueue h' (num_free_blocks q + zlen bs)) (l1 ++ bs ++ l2)
      ∧ meta_frame (q_heap q) h'.
Proof.
  intros Hq Hne Hf E1 E2. pose proof (qr_nodup _ _ Hq) as Hnd.
  assert (Es : ∀ ms, spine (l1 ++ ms ++ l2) = xs ++ a :: ms ++ b :: zs).
  { intros ms. rewrite spine_app, <-(assoc_L (++)), E1, E2. by rewrite <-(assoc_L (++)). }
  pose proof (spine_nodup_insert _ _ _ Hnd Hf) as Hnd'. pose proof Hnd' as Hnd''. rewrite Es in Hnd'.
  destruct Hf as [Hbs _]. pose proof (Es []) as Es0. simpl in Es0.
  apply NoDup_app in Hnd' as (_ & _ & N3). apply NoDup_cons in N3 as [N3 N4].
  apply NoDup_app in N4 as (_ & N4 & _). apply not_elem_of_app in N3 as [Na N3].
  apply not_elem_of_cons in N3 as [Nab _].
  assert (b ∉ bs) as Nb by (intros ?; eapply N4; [done|left]). clear N4 Hnd.
  destruct (chain_spec bs a q) as (h1 & Hrun & Hl & Heq & Hprev & Hfr); [done|done|].
  destruct (exists_last Hne) as (cs & c & Ec). subst bs. rewrite last_snoc in *.
  simpl in *. apply not_elem_of_app in Na as [Na Nac], Nb as [Nb Nbc].
  rewrite list_elem_of_singleton in Nac, Nbc. apply NoDup_app in Hbs as (_ & Nc & _).
  eexists. split; [exact Hrun|]. split; [done|]. simpl. split; [|etrans; [done|solve_frame]].
  rewrite (repr_num q (l1 ++ l2) (l1 ++ (cs ++ [c]) ++ l2));
    [|done|unfold zlen; rewrite !length_app; lia].
  eapply (repr_splice q _ _ xs a [] (cs ++ [c]) b zs); [done|done|by rewrite Es|..].
  - done.
  - intros x ?? _ Hx. pose proof Hx as [_ Hxc]%not_elem_of_app.
    rewrite list_elem_of_singleton in Hxc. heap_simpl; by apply Heq.
  - by heap_simpl.
  - heap_simpl; rewrite Heq; [done|done|]. rewrite elem_of_app, list_elem_of_singleton. tauto.
  - by intros x ?%elem_of_nil.
  - rewrite <-(assoc_L (++)). simpl. rewrite app_comm_cons. apply linked_snoc.
    + eapply linked_ext; [exact Hl| |].
      * intros x Hx. assert (x ≠ c).
        { intros ->. apply elem_of_cons in Hx as [?|Hx]; [congruence|].
          by eapply Nc; [|left]. }
        by heap_simpl.
      * intros x Hx. simpl in Hx. assert (x ≠ b).
        { intros ->. rewrite elem_of_app, list_elem_of_singleton in Hx. naive_solver. }
        by heap_simpl.
    + by heap_simpl.
    + by heap_simpl.
Qed.

Lemma append_n_spec q l bs :
  queue_repr q l → fresh_for l bs →
  ∃ q', append_n bs q = Ok (tt, q') ∧ queue_repr q' (l ++ bs)
    ∧ meta_frame (q_heap q) (q_heap q').
Proof.
  intros Hq Hf. unfold append_n. case_bool_decide as Hb.
  { exists q. subst. by rewrite app_nil_r. }
  destruct (spine_last l) as (xs & a & E).
  pose proof (qr_linked _ _ Hq) as Hl. unfold spine in Hl.
  rewrite app_comm_cons, E, <-(assoc_L (++)) in Hl. apply linked_prev in Hl.
  destruct (chain_insert q l [] bs a FakeTail xs []) as (q1 & Hrun & Hnum & Hr & Hfr);
    rewrite ?app_nil_r; [done..|].
  rewrite app_nil_r in Hr. munfold. rewrite Hl, Hrun. eexists. split; [done|].
  simpl. rewrite Hnum. destruct (exists_last Hb) as (cs & c & ->).
  by rewrite last_snoc in *.
Qed.

Lemma prepend_n_spec q l bs :
  queue_repr q l → fresh_for l bs →
  ∃ q', prepend_n bs q = Ok (tt, q') ∧ queue_repr q' (bs ++ l)
    ∧ meta_frame (q_heap q) (q_heap q').
Proof.
  intros Hq Hf. unfold prepend_n. case_bool_decide as Hb; [exists q; by subst|].
  destruct (spine_first l) as (b & zs & E).
  pose proof (qr_linked _ _ Hq) as Hl. unfold spine in Hl. rewrite E in Hl.
  apply linked_cons in Hl as (Hl & _).
  destruct (chain_insert q [] l bs FakeHead b [] zs) as (q1 & Hrun & Hnum & Hr & Hfr);
    [done..|].
  munfold. rewrite Hl, Hrun. eexists. split; [done|].
  simpl. rewrite Hnum. destruct (exists_last Hb) as (cs & c & ->).
  by rewrite last_snoc in *.
Qed.

Lemma append_spec q l b :
  queue_repr q l → fresh_for l [b] →
  ∃ q', append b q = Ok (tt, q') ∧ queue_repr q' (l ++ [b])
    ∧ meta_frame (q_heap q) (q_heap q').
Proof.
  intros Hq Hf. destruct (spine_last l) as (xs & a & E).
  pose proof (qr_linked _ _ Hq) as Hl. pose proof (qr_nodup _ _ Hq) as Hnd.
  assert (Hnd' : NoDup (spine (l ++ [b]))).
  { pose proof (spine_nodup_insert l [b] []) as H. rewrite !app_nil_r in H. by apply H. }
  assert (Es : ∀ ms, spine (l ++ ms) = xs ++ a :: ms ++ [FakeTail]).
  { intros ms. by rewrite spine_app, E, <-(assoc_L (++)). }
  rewrite <-(app_nil_r l), Es in Hl, Hnd. apply linked_prev in Hl.
  apply NoDup_app in Hnd as (_ & _ & [Na _]%NoDup_cons). simpl in Na.
  assert (b ≠ a ∧ b ≠ FakeTail) as [??].
  { destruct Hf as [_ Hf]. specialize (Hf b). rewrite <-(app_nil_r l), Es in Hf. set_solver +Hf. }
  unfold append. munfold. rewrite Hl. eexists. split; [done|]. split; [|solve_frame]. simpl.
  rewrite (repr_num q l (l ++ [b])); [|done|unfold zlen; rewrite length_app; simpl; lia].
  assert (a ≠ FakeTail) by set_solver +Na.
  eapply (repr_splice q l _ xs a [] [b] FakeTail []); [done|by rewrite <-(Es []), app_nil_r|by rewrite Es|done|..].
  - intros x ?? _ ?%not_elem_of_cons. heap_simpl; naive_solver.
  - by heap_simpl.
  - by heap_simpl.
  - by intros x ?%elem_of_nil.
  - simpl. rewrite !linked_cons. by heap_simpl.
Qed.

(** [get_all_free_blocks] returns the queue's blocks in order as soon as the
    loop is allowed one iteration per block and one for the tail. *)
Lemma get_all_loop_spec h xs x fuel :
  linked h (x :: xs ++ [FakeTail]) → next_free_block (h FakeTail) = None →
  (length xs + 1 < fuel)%nat → get_all_loop fuel h x = Some (x :: xs).
Proof.
  revert x fuel. induction xs as [|y xs IH]; intros x fuel Hl Ht Hf;
    simpl in *; apply linked_cons in Hl as (Hn & _ & Hl);
    (destruct fuel as [|fuel]; [lia|]); simpl; rewrite Hn.
  - destruct fuel; [lia|]. simpl. by rewrite Ht.
  - rewrite (IH y fuel); [done|done|done|lia].
Qed.

Lemma get_all_free_blocks_spec q l fuel :
  queue_repr q l → (length l < fuel)%nat → get_all_free_blocks fuel q = Ok (Some l).
Proof.
  intros Hq Hf. pose proof (qr_linked _ _ Hq) as Hl. pose proof (qr_tail _ _ Hq) as Ht.
  unfold get_all_free_blocks. unfold spine in Hl.
  destruct l as [|x l]; simpl in *; apply linked_cons in Hl as (-> & _ & Hl).
  - destruct fuel; [lia|]. simpl. by rewrite Ht.
  - by rewrite (get_all_loop_spec _ l) by (done || lia).
Qed.

(** ** Construction *)

Lemma linked_lookup h xs :
  (∀ i a b, xs !! i = Some a → xs !! S i = Some b →
    next_free_block (h a) = Some b ∧ prev_free_block (h b) = Some a) →
  linked h xs.
Proof.
  induction xs as [|a [|b xs] IH]; intros H; [done|done|].
  apply linked_cons. destruct (H 0%nat a b) as [-> ->]; [done..|].
  split_and!; [done..|]. apply IH. intros i. apply (H (S i)).
Qed.

(** What the linking loop of [__init__] has written after [k] iterations. *)
Definition init_fields (bs : list loc) (k : nat) (h h' : heap) : Prop :=
  (∀ i x, bs !! i = Some x → (i < k)%nat →
     prev_free_block (h' x) =
       (if decide (i = 0%nat) then prev_free_block (h x) else bs !! (i - 1)%nat) ∧
     next_free_block (h' x) =
       (if decide (i < length bs - 1)%nat then bs !! S i else next_free_block (h x))) ∧
  (∀ x, (∀ i, (i < k)%nat → bs !! i ≠ Some x) → h' x = h x) ∧
  meta_frame h h'.

Lemma init_loop_spec bs q k :
  NoDup bs → (k ≤ length bs)%nat →
  ∃ h', forM (seq 0 k) (init_link bs) q = Ok (tt, mkQueue h' (num_free_blocks q))
    ∧ init_fields bs k (q_heap q) h'.
Proof.
  intros Hnd. induction k as [|k IH]; intros Hk.
  { exists (q_heap q). destruct q. split; [done|]. split; [intros; lia|]. by split. }
  destruct IH as (h & Hrun & Hf & Ho & Hm); [lia|].
  destruct (lookup_lt_is_Some_2 bs k) as [x Hx]; [lia|].
  assert (Hfresh : h x = q_heap q x).
  { apply Ho. intros i Hi Hix. assert (i = k); [by eapply NoDup_lookup|lia]. }
  set (h1 := if decide (k = 0%nat) then h else alter (with_prev (bs !! (k - 1)%nat)) x h).
  set (h2 := if decide (k < length bs - 1)%nat then alter (with_next (bs !! S k)) x h1 else h1).
  exists h2. split.
  { rewrite seq_S, forM_app. unfold mbind at 1, M_bind at 1. rewrite Hrun.
    simpl. unfold init_link, h2, h1. munfold.
    rewrite (list_lookup_total_correct _ _ _ Hx).
    repeat case_bool_decide; repeat case_decide; try lia; simpl;
      rewrite ?list_lookup_lookup_total_lt, ?Nat.add_1_r by lia; done. }
  split_and!.
  - intros i y Hy Hi. destruct (decide (i = k)) as [->|Hne].
    + simplify_eq. unfold h2, h1. rewrite <-Hfresh.
      repeat case_decide; heap_simpl; done.
    + assert (x ≠ y) by (intros <-; apply Hne; by eapply NoDup_lookup).
      destruct (Hf i y) as [<- <-]; [done|lia|].
      unfold h2, h1. repeat case_decide; heap_simpl; done.
  - intros y Hy. rewrite <-Ho by (intros i Hi; apply Hy; lia).
    assert (x ≠ y) by (intros <-; by apply (Hy k); [lia|]).
    unfold h2, h1. repeat case_decide; heap_simpl; done.
  - etrans; [done|]. unfold h2, h1. repeat case_decide; solve_frame.
Qed.

Definition all_unlinked (h : heap) : Prop :=
  ∀ i, prev_free_block (h (Block i)) = None ∧ next_free_block (h (Block i)) = None.

Lemma spine_nodup bs : NoDup bs → Forall (λ b, ∃ i, b = Block i) bs → NoDup (spine bs).
Proof.
  intros Hnd Hb. rewrite Forall_forall in Hb. unfold spine. constructor.
  - intros [Hin|?%list_elem_of_singleton]%elem_of_app; [|done].
    by destruct (Hb _ Hin).
  - apply NoDup_app. split; [done|]. split; [|apply NoDup_singleton].
    intros x Hx ->%list_elem_of_singleton. by destruct (Hb _ Hx).
Qed.

(** The links between the blocks written by the loop, seen as a list. *)
Lemma init_fields_linked bs h h' :
  init_fields bs (length bs) h h' → linked h' bs.
Proof.
  intros (Hf & _ & _). apply linked_lookup. intros i a b Ha Hb.
  pose proof (lookup_lt_Some _ _ _ Hb).
  destruct (Hf i a) as [_ ->]; [done|lia|]. destruct (Hf (S i) b) as [-> _]; [done|lia|].
  rewrite decide_True by lia. rewrite decide_False by lia. simpl.
  by rewrite Nat.sub_0_r.
Qed.

Lemma init_spec q bs :
  NoDup bs → Forall (λ b, ∃ i, b = Block i) bs → all_unlinked (q_heap q) →
  ∃ q', init bs q = Ok (tt, q') ∧ queue_repr q' bs
    ∧ ∀ i, same_meta (q_heap q (Block i)) (q_heap q' (Block i)).
Proof.
  intros Hnd Hb Hun. pose proof (spine_nodup _ Hnd Hb) as Hsp.
  destruct (init_loop_spec bs (mkQueue (q_heap q) (zlen bs)) (length bs))
    as (h & Hrun & Hf); [done|lia|].
  pose proof (init_fields_linked _ _ _ Hf) as Hl. destruct Hf as (_ & Ho & Hm).
  assert (Hout : ∀ i, Block i ∉ bs → h (Block i) = q_heap q (Block i)).
  { intros i Hi. apply Ho. intros j _ Hj. by apply Hi, list_elem_of_lookup_2 with j. }
  assert (∀ x, x ∈ bs → x ≠ FakeHead ∧ x ≠ FakeTail) as Hreal.
  { intros x Hx. rewrite Forall_forall in Hb. by destruct (Hb _ Hx) as [? ->]. }
  unfold init. munfold. rewrite Hrun. clear Hrun. destruct bs as [|b0 bs'].
  { eexists. split; [done|]. split; [split; simpl|].
    - apply linked_cons. simpl. by heap_simpl.
    - done.
    - done.
    - by heap_simpl.
    - by heap_simpl.
    - intros i _. heap_simpl. rewrite Hout by apply not_elem_of_nil. apply Hun.
    - intros i. simpl. heap_simpl. apply Hm. }
  destruct (exists_last (l:=b0 :: bs')) as (cs & c & E); [done|].
  rewrite E, last_snoc, <-E. clear Ho.
  assert (c ∈ b0 :: bs') as Hc by (rewrite E; set_solver+).
  destruct (Hreal b0) as [??]; [left|]. destruct (Hreal c) as [??]; [done|].
  eexists. split; [done|]. split; [split; simpl|].
  - unfold spine. rewrite E in Hl |- *. rewrite <-(assoc_L (++)). simpl.
    assert (∃ zs, cs ++ [c; FakeTail] = b0 :: zs) as [zs Ez].
    { destruct cs; simplify_eq/=; eauto. }
    rewrite Ez. apply linked_cons. split_and!; [by heap_simpl..|].
    rewrite <-Ez. apply linked_snoc; [|by heap_simpl..].
    eapply linked_ext; [done| |].
    + intros a Ha. assert (a ≠ c).
      { intros ->. rewrite E in Hnd. apply NoDup_app in Hnd as (_ & Hnd & _).
        by eapply Hnd; [|left]. }
      destruct (Hreal a); [rewrite E; set_solver +Ha|]. by heap_simpl.
    + intros a Ha. rewrite <-E in Ha. simpl in Ha. assert (a ≠ b0).
      { intros ->. by apply NoDup_cons in Hnd as [? _]. }
      destruct (Hreal a); [set_solver +Ha|]. by heap_simpl.
  - done.
  - done.
  - by heap_simpl.
  - by heap_simpl.
  - intros i Hi. assert (Block i ≠ b0 ∧ Block i ≠ c) as [??].
    { split; intros <-; [by apply Hi; left|done]. }
    heap_simpl; rewrite Hout by done; apply Hun.
  - intros i. simpl. specialize (Hm (Block i)). simpl in Hm. heap_simpl; done.
Qed.

(** ** The abstract queue and the refinement theorem *)

Module Deque.
(** The calls a client can make. *)
Inductive op :=
  | Popleft
  | PopleftN (n : Z)
  | Remove (b : loc)
  | Append (b : loc)
  | PrependN (bs : list loc)
  | AppendN (bs : list loc).

(** The abstract queue is the list of free blocks in eviction order; a call
    returns the blocks it hands out. *)
Definition abs_step (o : op) (l : list loc) : result (list loc * list loc) :=
  match o with
  | Popleft => match l with [] => Err ValueError | x :: l => Ok ([x], l) end
  | PopleftN n =>
      if zlen l <? n then Err AssertionError
      else Ok (take (Z.to_nat n) l, drop (Z.to_nat n) l)
  | Remove b =>
      if decide (b ∈ l) then Ok ([], filter (λ x, x ≠ b) l) else Err RuntimeError
  | Append b => Ok ([], l ++ [b])
  | PrependN bs => Ok ([], bs ++ l)
  | AppendN bs => Ok ([], l ++ bs)
  end.

Definition conc_step (o : op) : M FQ (list loc) :=
  match o with
  | Popleft => x ← popleft; mret [x]
  | PopleftN n => popleft_n n
  | Remove b => _ ← remove b; mret []
  | Append b => _ ← append b; mret []
  | PrependN bs => _ ← prepend_n bs; mret []
  | AppendN bs => _ ← append_n bs; mret []
  end.

(** What the caller owes: counts are not negative, only block objects are
    removed, and blocks put back are distinct and not already queued. *)
Definition op_pre (o : op) (l : list loc) : Prop :=
  match o with
  | Popleft => True
  | PopleftN n => 0 ≤ n
  | Remove b => ∃ i, b = Block i
  | Append b => fresh_for l [b]
  | PrependN bs | AppendN bs => fresh_for l bs
  end.

Fixpoint abs_run (os : list op) (l : list loc) : result (list (list loc) * list loc) :=
  match os with
  | [] => Ok ([], l)
  | o :: os =>
      match abs_step o l with
      | Ok (r, l') =>
          match abs_run os l' with Ok (rs, l'') => Ok (r :: rs, l'') | Err e => Err e end
      | Err e => Err e
      end
  end.

Fixpoint conc_run (os : list op) : M FQ (list (list loc)) :=
  match os with
  | [] => mret []
  | o :: os => r ← conc_step o; rs ← conc_run os; mret (r :: rs)
  end.

Fixpoint ops_pre (os : list op) (l : list loc) : Prop :=
  match os with
  | [] => True
  | o :: os =>
      op_pre o l ∧ match abs_step o l with Ok (_, l') => ops_pre os l' | Err _ => True end
  end.
End Deque.

Lemma filter_ne_split {A} `{EqDecision A} (l1 l2 : list A) (b : A) :
  NoDup (l1 ++ b :: l2) → filter (λ x, x ≠ b) (l1 ++ b :: l2) = l1 ++ l2.
Proof.
  intros (_ & H1 & [H2 _]%NoDup_cons)%NoDup_app.
  assert (Hid : ∀ l : list A, b ∉ l → filter (λ x, x ≠ b) l = l).
  { intros l Hb. induction l as [|x l IH]; [done|].
    apply not_elem_of_cons in Hb as [??].
    rewrite filter_cons_True by done. by rewrite IH. }
  rewrite filter_app, filter_cons_False by tauto.
  rewrite !Hid; [done|done|]. intros ?. by eapply H1; [|left].
Qed.

Lemma deque_step_refines q l o :
  queue_repr q l → Deque.op_pre o l →
  match Deque.abs_step o l with
  | Ok (r, l') =>
      ∃ q', Deque.conc_step o q = Ok (r, q') ∧ queue_repr q' l'
        ∧ meta_frame (q_heap q) (q_heap q')
  | Err e => Deque.conc_step o q = Err e
  end.
Proof.
  intros Hq Hpre. destruct o as [|n|b|b|bs|bs]; simpl in *; munfold.
  - destruct l as [|x l]; [by rewrite popleft_nil|].
    destruct (popleft_cons _ _ _ Hq) as (q' & -> & ?). eauto.
  - destruct (Z.ltb_spec (zlen l) n); [by eapply popleft_n_too_many|].
    by apply popleft_n_spec.
  - destruct Hpre as [i ->]. case_decide as Hin.
    + apply list_elem_of_split in Hin as (l1 & l2 & ->).
      pose proof (qr_nodup _ _ Hq) as Hnd.
      rewrite filter_ne_split by (by apply NoDup_cons in Hnd as [_ [? _]%NoDup_app]).
      destruct (remove_spec _ _ _ _ Hq) as (q' & -> & ?). eauto.
    + by erewrite remove_not_in.
  - destruct (append_spec _ _ _ Hq Hpre) as (q' & -> & ?). eauto.
  - destruct (prepend_n_spec _ _ _ Hq Hpre) as (q' & -> & ?). eauto.
  - destruct (append_n_spec _ _ _ Hq Hpre) as (q' & -> & ?). eauto.
Qed.

Lemma deque_run_refines os q l :
  queue_repr q l → Deque.ops_pre os l →
  match Deque.abs_run os l with
  | Ok (rs, l') => ∃ q', Deque.conc_run os q = Ok (rs, q') ∧ queue_repr q' l'
  | Err e => Deque.conc_run os q = Err e
  end.
Proof.
  revert q l. induction os as [|o os IH]; intros q l Hq Hpre; simpl; [by eexists|].
  destruct Hpre as [Ho Hos]. pose proof (deque_step_refines q l o Hq Ho) as Hstep.
  unfold mbind, M_bind.
  destruct (Deque.abs_step o l) as [[r l']|e]; [|by rewrite Hstep].
  destruct Hstep as (q1 & -> & Hq1 & _). specialize (IH q1 l' Hq1 Hos).
  destruct (Deque.abs_run os l') as [[rs l'']|e]; [|by rewrite IH].
  destruct IH as (q2 & -> & Hq2). by eexists.
Qed.

(** C1. The linked free-block queue refines a list: build the queue over
    distinct unlinked block objects and run any sequence of calls that respects
    the callers' obligations; the calls return exactly the blocks (or raise
    exactly the exception) that the same calls give on the list of blocks in
    eviction order, and afterwards [get_all_free_blocks] enumerates that list and
    [num_free_blocks] is its length. *)
Theorem free_queue_refines_list (q : FQ) (bs : list loc) (os : list Deque.op) :
  NoDup bs → Forall (λ b, ∃ i, b = Block i) bs → all_unlinked (q_heap q) →
  Deque.ops_pre os bs →
  ∃ q0, init bs q = Ok (tt, q0) ∧
  match Deque.abs_run os bs with
  | Ok (rs, l) =>
      ∃ q', Deque.conc_run os q0 = Ok (rs, q')
        ∧ get_all_free_blocks (S (length l)) q' = Ok (Some l)
        ∧ num_free_blocks q' = zlen l
  | Err e => Deque.conc_run os q0 = Err e
  end.
Proof.
  intros Hnd Hb Hun Hpre. destruct (init_spec q bs Hnd Hb Hun) as (q0 & Hi & Hq0 & _).
  exists q0. split; [done|]. pose proof (deque_run_refines os q0 bs Hq0 Hpre) as Hrun.
  destruct (Deque.abs_run os bs) as [[rs l]|e]; [|done].
  destruct Hrun as (q' & ? & Hq'). exists q'. split; [done|].
  split; [apply get_all_free_blocks_spec; [done|lia]|by apply qr_num].
Qed.

Definition fresh_heap : heap := λ x,
  match x with Block i => new_block (Z.of_nat i) | _ => new_block (-1) end.

Definition demo_ops : list Deque.op :=
  [Deque.Remove (Block 1); Deque.PopleftN 2; Deque.AppendN [Block 2; Block 1];
   Deque.PrependN [Block 0]; Deque.Popleft].

Lemma free_queue_refines_list_witness :
  ∃ q0, init (Block <$> seq 0 4) (mkQueue fresh_heap 0) = Ok (tt, q0) ∧
    ∃ q', Deque.conc_run demo_ops q0 = Ok ([[]; [Block 0; Block 2]; []; []; [Block 0]], q')
      ∧ get_all_free_blocks 4 q' = Ok (Some [Block 3; Block 2; Block 1])
      ∧ num_free_blocks q' = 3.
Proof.
  assert (E : Deque.abs_run demo_ops (Block <$> seq 0 4)
    = Ok ([[]; [Block 0; Block 2]; []; []; [Block 0]], [Block 3; Block 2; Block 1]))
    by (by vm_compute).
  pose proof (free_queue_refines_list (mkQueue fresh_heap 0) (Block <$> seq 0 4) demo_ops) as W.
  rewrite E in W. apply W.
  - apply (bool_decide_unpack _). by vm_compute.
  - repeat constructor; eauto.
  - by intros i.
  - split; [by eexists|]. split; [simpl; lia|]. split.
    { split; [apply (bool_decide_unpack _); by vm_compute|]. vm_compute. set_solver. }
    split; [|done]. split; [apply (bool_decide_unpack _); by vm_compute|]. vm_compute. set_solver.
Defined.
