(* ===== verification/Request.v ===== *)
(** * Requests

    Models [vllm/v1/request.py] ([Request], [RequestStatus]) with the parts of
    the multi-modal placeholders, sampling, pooling and LoRA parameters that the
    modelled components read. A [float] arrival time is an integer tick: it is
    only ever compared. *)

From Stdlib Require Import ZArith Lia.
From S2P Require Import Prelude.
Local Open Scope Z_scope.

(** ** Request status *)

Inductive RequestStatus :=
  | WAITING
  | WAITING_FOR_STRUCTURED_OUTPUT_GRAMMAR
  | WAITING_FOR_REMOTE_KVS
  | WAITING_FOR_STREAMING_REQ
  | RUNNING
  | PREEMPTED
  | FINISHED_STOPPED
  | FINISHED_LENGTH_CAPPED
  | FINISHED_ABORTED
  | FINISHED_IGNORED
  | FINISHED_ERROR
  | FINISHED_REPETITION.

#[global] Instance RequestStatus_eq_dec : EqDecision RequestStatus.
Proof. solve_decision. Defined.

(** The [IntEnum] value: [enum.auto()] counts from 1 in declaration order. *)
Definition status_value (s : RequestStatus) : Z :=
  match s with
  | WAITING => 1
  | WAITING_FOR_STRUCTURED_OUTPUT_GRAMMAR => 2
  | WAITING_FOR_REMOTE_KVS => 3
  | WAITING_FOR_STREAMING_REQ => 4
  | RUNNING => 5
  | PREEMPTED => 6
  | FINISHED_STOPPED => 7
  | FINISHED_LENGTH_CAPPED => 8
  | FINISHED_ABORTED => 9
  | FINISHED_IGNORED => 10
  | FINISHED_ERROR => 11
  | FINISHED_REPETITION => 12
  end.

Definition status_is_finished (s : RequestStatus) : bool :=
  status_value PREEMPTED <? status_value s.

Inductive FinishReason := STOP | LENGTH | ABORT | ERROR | REPETITION.

(** [_FINISHED_REASON_MAP.get(status)] *)
Definition get_finished_reason (s : RequestStatus) : option FinishReason :=
  match s with
  | FINISHED_STOPPED => Some STOP
  | FINISHED_LENGTH_CAPPED => Some LENGTH
  | FINISHED_ABORTED => Some ABORT
  | FINISHED_IGNORED => Some LENGTH
  | FINISHED_ERROR => Some ERROR
  | WAITING_FOR_STREAMING_REQ => Some STOP
  | FINISHED_REPETITION => Some REPETITION
  | _ => None
  end.

(** ** Parameters attached to a request *)

Record RepetitionDetectionParams := mkRepetitionDetectionParams {
  max_pattern_size : Z;
  min_pattern_size : Z;
  min_count : Z
}.

Record SamplingParams := mkSamplingParams {
  sp_max_tokens : option Z;
  sp_min_tokens : Z;
  sp_eos_token_id : option Z;
  sp_stop_token_ids : list Z;
  sp_repetition_detection : option RepetitionDetectionParams;
  sp_skip_reading_prefix_cache : option bool
}.

Record PoolingParams := mkPoolingParams {
  pp_task : option string;
  pp_skip_reading_prefix_cache : option bool
}.

Record LoRARequest := mkLoRARequest {
  lora_name : string;
  lora_int_id : Z
}.

(** [PlaceholderRange]: [is_embed] is the boolean mask, when there is one. *)
Record PlaceholderRange := mkPlaceholderRange {
  pr_offset : Z;
  pr_length : Z;
  pr_is_embed : option (list bool)
}.

(** [self.is_embed.cumsum(dim=0).tolist()] *)
Fixpoint cumsum_from (acc : Z) (l : list bool) : list Z :=
  match l with
  | [] => []
  | b :: l => let acc := acc + (if b then 1 else 0) in acc :: cumsum_from acc l
  end.
Definition embeds_cumsum (p : PlaceholderRange) : option (list Z) :=
  cumsum_from 0 <$> pr_is_embed p.

Definition get_num_embeds (p : PlaceholderRange) : Z :=
  match embeds_cumsum p with
  | None => pr_length p
  | Some c => default 0 (last c)
  end.

Record MultiModalFeatureSpec := mkMultiModalFeatureSpec {
  mm_identifier : string;
  mm_position : PlaceholderRange
}.

(** [stop_reason: int | str | None] *)
Inductive StopReason :=
  | StopToken (t : Z)
  | StopStr (s : string).

Inductive EngineCoreEvent := QUEUED | SCHEDULED | PREEMPTED_EVENT.

(** [StreamingUpdate] *)
Record StreamingUpdate := mkStreamingUpdate {
  su_mm_features : list MultiModalFeatureSpec;
  su_prompt_token_ids : option (list Z);
  su_max_tokens : Z;
  su_arrival_time : Z;
  su_sampling_params : option SamplingParams
}.

(** [PrefillStats] of [vllm/v1/metrics/stats.py] *)
Record PrefillStats := mkPrefillStats {
  ps_num_prompt_tokens : Z;
  ps_num_computed_tokens : Z;
  ps_num_cached_tokens : Z;
  ps_num_local_cached_tokens : Z;
  ps_num_external_cached_tokens : Z
}.
Definition new_prefill_stats : PrefillStats := mkPrefillStats 0 0 0 0 0.

(** [PrefillStats.set] *)
Definition prefill_stats_set (num_prompt_tokens num_local num_external : Z) : result PrefillStats :=
  let num_cached := num_local + num_external in
  if num_cached <=? num_prompt_tokens
  then Ok (mkPrefillStats num_prompt_tokens (num_prompt_tokens - num_cached) num_cached num_local num_external)
  else Err AssertionError.

(** ** The request object *)

Record Request := mkRequest {
  request_id : string;
  priority : Z;
  arrival_time : Z;
  status : RequestStatus;
  stop_reason : option StopReason;
  sampling_params : option SamplingParams;
  pooling_params : option PoolingParams;
  lora_request : option LoRARequest;
  structured_output_request : bool;
  max_tokens : Z;
  prompt_token_ids : option (list Z);
  prompt_embeds : option (list bytes);
  _prompt_embeds_per_block_hashes : gmap (Z * Z) bytes;
  num_prompt_tokens : Z;
  _output_token_ids : list Z;
  _all_token_ids : list Z;
  num_output_placeholders : Z;
  spec_token_ids : list Z;
  num_computed_tokens : Z;
  cache_salt : option string;
  mm_features : list MultiModalFeatureSpec;
  is_prefill_chunk : bool;
  num_preemptions : Z;
  block_hashes : list bytes;
  skip_reading_prefix_cache : bool;
  resumable : bool;
  events : list EngineCoreEvent;
  client_index : Z;
  async_tokens_to_discard : Z;
  next_decode_eligible_step : Z;
  prefill_stats : option PrefillStats;
  streaming_queue : option (list (option StreamingUpdate))
}.

Definition req_set_arrival_time (v : Z) (r : Request) : Request :=
  mkRequest (request_id r) (priority r) v (status r) (stop_reason r) (sampling_params r)
    (pooling_params r) (lora_request r) (structured_output_request r) (max_tokens r)
    (prompt_token_ids r) (prompt_embeds r) (_prompt_embeds_per_block_hashes r)
    (num_prompt_tokens r) (_output_token_ids r) (_all_token_ids r) (num_output_placeholders
    r) (spec_token_ids r) (num_computed_tokens r) (cache_salt r) (mm_features r)
    (is_prefill_chunk r) (num_preemptions r) (block_hashes r) (skip_reading_prefix_cache r)
    (resumable r) (events r) (client_index r) (async_tokens_to_discard r)
    (next_decode_eligible_step r) (prefill_stats r) (streaming_queue r).
Definition req_set_status (v : RequestStatus) (r : Request) : Request :=
  mkRequest (request_id r) (priority r) (arrival_time r) v (stop_reason r) (sampling_params
    r) (pooling_params r) (lora_request r) (structured_output_request r) (max_tokens r)
    (prompt_token_ids r) (prompt_embeds r) (_prompt_embeds_per_block_hashes r)
    (num_prompt_tokens r) (_output_token_ids r) (_all_token_ids r) (num_output_placeholders
    r) (spec_token_ids r) (num_computed_tokens r) (cache_salt r) (mm_features r)
    (is_prefill_chunk r) (num_preemptions r) (block_hashes r) (skip_reading_prefix_cache r)
    (resumable r) (events r) (client_index r) (async_tokens_to_discard r)
    (next_decode_eligible_step r) (prefill_stats r) (streaming_queue r).
Definition req_set_stop_reason (v : option StopReason) (r : Request) : Request :=
  mkRequest (request_id r) (priority r) (arrival_time r) (status r) v (sampling_params r)
    (pooling_params r) (lora_request r) (structured_output_request r) (max_tokens r)
    (prompt_token_ids r) (prompt_embeds r) (_prompt_embeds_per_block_hashes r)
    (num_prompt_tokens r) (_output_token_ids r) (_all_token_ids r) (num_output_placeholders
    r) (spec_token_ids r) (num_computed_tokens r) (cache_salt r) (mm_features r)
    (is_prefill_chunk r) (num_preemptions r) (block_hashes r) (skip_reading_prefix_cache r)
    (resumable r) (events r) (client_index r) (async_tokens_to_discard r)
    (next_decode_eligible_step r) (prefill_stats r) (streaming_queue r).
Definition req_set_sampling_params (v : option SamplingParams) (r : Request) : Request :=
  mkRequest (request_id r) (priority r) (arrival_time r) (status r) (stop_reason r) v
    (pooling_params r) (lora_request r) (structured_output_request r) (max_tokens r)
    (prompt_token_ids r) (prompt_embeds r) (_prompt_embeds_per_block_hashes r)
    (num_prompt_tokens r) (_output_token_ids r) (_all_token_ids r) (num_output_placeholders
    r) (spec_token_ids r) (num_computed_tokens r) (cache_salt r) (mm_features r)
    (is_prefill_chunk r) (num_preemptions r) (block_hashes r) (skip_reading_prefix_cache r)
    (resumable r) (events r) (client_index r) (async_tokens_to_discard r)
    (next_decode_eligible_step r) (prefill_stats r) (streaming_queue r).
Definition req_set_prompt_token_ids (v : option (list Z)) (r : Request) : Request :=
  mkRequest (request_id r) (priority r) (arrival_time r) (status r) (stop_reason r)
    (sampling_params r) (pooling_params r) (lora_request r) (structured_output_request r)
    (max_tokens r) v (prompt_embeds r) (_prompt_embeds_per_block_hashes r)
    (num_prompt_tokens r) (_output_token_ids r) (_all_token_ids r) (num_output_placeholders
    r) (spec_token_ids r) (num_computed_tokens r) (cache_salt r) (mm_features r)
    (is_prefill_chunk r) (num_preemptions r) (block_hashes r) (skip_reading_prefix_cache r)
    (resumable r) (events r) (client_index r) (async_tokens_to_discard r)
    (next_decode_eligible_step r) (prefill_stats r) (streaming_queue r).
Definition req_set_prompt_embeds_per_block_hashes (v : gmap (Z * Z) bytes) (r : Request) : Request :=
  mkRequest (request_id r) (priority r) (arrival_time r) (status r) (stop_reason r)
    (sampling_params r) (pooling_params r) (lora_request r) (structured_output_request r)
    (max_tokens r) (prompt_token_ids r) (prompt_embeds r) v (num_prompt_tokens r)
    (_output_token_ids r) (_all_token_ids r) (num_output_placeholders r) (spec_token_ids r)
    (num_computed_tokens r) (cache_salt r) (mm_features r) (is_prefill_chunk r)
    (num_preemptions r) (block_hashes r) (skip_reading_prefix_cache r) (resumable r) (events
    r) (client_index r) (async_tokens_to_discard r) (next_decode_eligible_step r)
    (prefill_stats r) (streaming_queue r).
Definition req_set_num_prompt_tokens (v : Z) (r : Request) : Request :=
  mkRequest (request_id r) (priority r) (arrival_time r) (status r) (stop_reason r)
    (sampling_params r) (pooling_params r) (lora_request r) (structured_output_request r)
    (max_tokens r) (prompt_token_ids r) (prompt_embeds r) (_prompt_embeds_per_block_hashes
    r) v (_output_token_ids r) (_all_token_ids r) (num_output_placeholders r)
    (spec_token_ids r) (num_computed_tokens r) (cache_salt r) (mm_features r)
    (is_prefill_chunk r) (num_preemptions r) (block_hashes r) (skip_reading_prefix_cache r)
    (resumable r) (events r) (client_index r) (async_tokens_to_discard r)
    (next_decode_eligible_step r) (prefill_stats r) (streaming_queue r).
Definition req_set_output_token_ids (v : list Z) (r : Request) : Request :=
  mkRequest (request_id r) (priority r) (arrival_time r) (status r) (stop_reason r)
    (sampling_params r) (pooling_params r) (lora_request r) (structured_output_request r)
    (max_tokens r) (prompt_token_ids r) (prompt_embeds r) (_prompt_embeds_per_block_hashes
    r) (num_prompt_tokens r) v (_all_token_ids r) (num_output_placeholders r)
    (spec_token_ids r) (num_computed_tokens r) (cache_salt r) (mm_features r)
    (is_prefill_chunk r) (num_preemptions r) (block_hashes r) (skip_reading_prefix_cache r)
    (resumable r) (events r) (client_index r) (async_tokens_to_discard r)
    (next_decode_eligible_step r) (prefill_stats r) (streaming_queue r).
Definition req_set_all_token_ids (v : list Z) (r : Request) : Request :=
  mkRequest (request_id r) (priority r) (arrival_time r) (status r) (stop_reason r)
    (sampling_params r) (pooling_params r) (lora_request r) (structured_output_request r)
    (max_tokens r) (prompt_token_ids r) (prompt_embeds r) (_prompt_embeds_per_block_hashes
    r) (num_prompt_tokens r) (_output_token_ids r) v (num_output_placeholders r)
    (spec_token_ids r) (num_computed_tokens r) (cache_salt r) (mm_features r)
    (is_prefill_chunk r) (num_preemptions r) (block_hashes r) (skip_reading_prefix_cache r)
    (resumable r) (events r) (client_index r) (async_tokens_to_discard r)
    (next_decode_eligible_step r) (prefill_stats r) (streaming_queue r).
Definition req_set_num_output_placeholders (v : Z) (r : Request) : Request :=
  mkRequest (request_id r) (priority r) (arrival_time r) (status r) (stop_reason r)
    (sampling_params r) (pooling_params r) (lora_request r) (structured_output_request r)
    (max_tokens r) (prompt_token_ids r) (prompt_embeds r) (_prompt_embeds_per_block_hashes
    r) (num_prompt_tokens r) (_output_token_ids r) (_all_token_ids r) v (spec_token_ids r)
    (num_computed_tokens r) (cache_salt r) (mm_features r) (is_prefill_chunk r)
    (num_preemptions r) (block_hashes r) (skip_reading_prefix_cache r) (resumable r) (events
    r) (client_index r) (async_tokens_to_discard r) (next_decode_eligible_step r)
    (prefill_stats r) (streaming_queue r).
Definition req_set_spec_token_ids (v : list Z) (r : Request) : Request :=
  mkRequest (request_id r) (priority r) (arrival_time r) (status r) (stop_reason r)
    (sampling_params r) (pooling_params r) (lora_request r) (structured_output_request r)
    (max_tokens r) (prompt_token_ids r) (prompt_embeds r) (_prompt_embeds_per_block_hashes
    r) (num_prompt_tokens r) (_output_token_ids r) (_all_token_ids r)
    (num_output_placeholders r) v (num_computed_tokens r) (cache_salt r) (mm_features r)
    (is_prefill_chunk r) (num_preemptions r) (block_hashes r) (skip_reading_prefix_cache r)
    (resumable r) (events r) (client_index r) (async_tokens_to_discard r)
    (next_decode_eligible_step r) (prefill_stats r) (streaming_queue r).
Definition req_set_num_computed_tokens (v : Z) (r : Request) : Request :=
  mkRequest (request_id r) (priority r) (arrival_time r) (status r) (stop_reason r)
    (sampling_params r) (pooling_params r) (lora_request r) (structured_output_request r)
    (max_tokens r) (prompt_token_ids r) (prompt_embeds r) (_prompt_embeds_per_block_hashes
    r) (num_prompt_tokens r) (_output_token_ids r) (_all_token_ids r)
    (num_output_placeholders r) (spec_token_ids r) v (cache_salt r) (mm_features r)
    (is_prefill_chunk r) (num_preemptions r) (block_hashes r) (skip_reading_prefix_cache r)
    (resumable r) (events r) (client_index r) (async_tokens_to_discard r)
    (next_decode_eligible_step r) (prefill_stats r) (streaming_queue r).
Definition req_set_mm_features (v : list MultiModalFeatureSpec) (r : Request) : Request :=
  mkRequest (request_id r) (priority r) (arrival_time r) (status r) (stop_reason r)
    (sampling_params r) (pooling_params r) (lora_request r) (structured_output_request r)
    (max_tokens r) (prompt_token_ids r) (prompt_embeds r) (_prompt_embeds_per_block_hashes
    r) (num_prompt_tokens r) (_output_token_ids r) (_all_token_ids r)
    (num_output_placeholders r) (spec_token_ids r) (num_computed_tokens r) (cache_salt r) v
    (is_prefill_chunk r) (num_preemptions r) (block_hashes r) (skip_reading_prefix_cache r)
    (resumable r) (events r) (client_index r) (async_tokens_to_discard r)
    (next_decode_eligible_step r) (prefill_stats r) (streaming_queue r).
Definition req_set_is_prefill_chunk (v : bool) (r : Request) : Request :=
  mkRequest (request_id r) (priority r) (arrival_time r) (status r) (stop_reason r)
    (sampling_params r) (pooling_params r) (lora_request r) (structured_output_request r)
    (max_tokens r) (prompt_token_ids r) (prompt_embeds r) (_prompt_embeds_per_block_hashes
    r) (num_prompt_tokens r) (_output_token_ids r) (_all_token_ids r)
    (num_output_placeholders r) (spec_token_ids r) (num_computed_tokens r) (cache_salt r)
    (mm_features r) v (num_preemptions r) (block_hashes r) (skip_reading_prefix_cache r)
    (resumable r) (events r) (client_index r) (async_tokens_to_discard r)
    (next_decode_eligible_step r) (prefill_stats r) (streaming_queue r).
Definition req_set_num_preemptions (v : Z) (r : Request) : Request :=
  mkRequest (request_id r) (priority r) (arrival_time r) (status r) (stop_reason r)
    (sampling_params r) (pooling_params r) (lora_request r) (structured_output_request r)
    (max_tokens r) (prompt_token_ids r) (prompt_embeds r) (_prompt_embeds_per_block_hashes
    r) (num_prompt_tokens r) (_output_token_ids r) (_all_token_ids r)
    (num_output_placeholders r) (spec_token_ids r) (num_computed_tokens r) (cache_salt r)
    (mm_features r) (is_prefill_chunk r) v (block_hashes r) (skip_reading_prefix_cache r)
    (resumable r) (events r) (client_index r) (async_tokens_to_discard r)
    (next_decode_eligible_step r) (prefill_stats r) (streaming_queue r).
Definition req_set_block_hashes (v : list bytes) (r : Request) : Request :=
  mkRequest (request_id r) (priority r) (arrival_time r) (status r) (stop_reason r)
    (sampling_params r) (pooling_params r) (lora_request r) (structured_output_request r)
    (max_tokens r) (prompt_token_ids r) (prompt_embeds r) (_prompt_embeds_per_block_hashes
    r) (num_prompt_tokens r) (_output_token_ids r) (_all_token_ids r)
    (num_output_placeholders r) (spec_token_ids r) (num_computed_tokens r) (cache_salt r)
    (mm_features r) (is_prefill_chunk r) (num_preemptions r) v (skip_reading_prefix_cache r)
    (resumable r) (events r) (client_index r) (async_tokens_to_discard r)
    (next_decode_eligible_step r) (prefill_stats r) (streaming_queue r).
Definition req_set_resumable (v : bool) (r : Request) : Request :=
  mkRequest (request_id r) (priority r) (arrival_time r) (status r) (stop_reason r)
    (sampling_params r) (pooling_params r) (lora_request r) (structured_output_request r)
    (max_tokens r) (prompt_token_ids r) (prompt_embeds r) (_prompt_embeds_per_block_hashes
    r) (num_prompt_tokens r) (_output_token_ids r) (_all_token_ids r)
    (num_output_placeholders r) (spec_token_ids r) (num_computed_tokens r) (cache_salt r)
    (mm_features r) (is_prefill_chunk r) (num_preemptions r) (block_hashes r)
    (skip_reading_prefix_cache r) v (events r) (client_index r) (async_tokens_to_discard r)
    (next_decode_eligible_step r) (prefill_stats r) (streaming_queue r).
Definition req_set_events (v : list EngineCoreEvent) (r : Request) : Request :=
  mkRequest (request_id r) (priority r) (arrival_time r) (status r) (stop_reason r)
    (sampling_params r) (pooling_params r) (lora_request r) (structured_output_request r)
    (max_tokens r) (prompt_token_ids r) (prompt_embeds r) (_prompt_embeds_per_block_hashes
    r) (num_prompt_tokens r) (_output_token_ids r) (_all_token_ids r)
    (num_output_placeholders r) (spec_token_ids r) (num_computed_tokens r) (cache_salt r)
    (mm_features r) (is_prefill_chunk r) (num_preemptions r) (block_hashes r)
    (skip_reading_prefix_cache r) (resumable r) v (client_index r) (async_tokens_to_discard
    r) (next_decode_eligible_step r) (prefill_stats r) (streaming_queue r).
Definition req_set_async_tokens_to_discard (v : Z) (r : Request) : Request :=
  mkRequest (request_id r) (priority r) (arrival_time r) (status r) (stop_reason r)
    (sampling_params r) (pooling_params r) (lora_request r) (structured_output_request r)
    (max_tokens r) (prompt_token_ids r) (prompt_embeds r) (_prompt_embeds_per_block_hashes
    r) (num_prompt_tokens r) (_output_token_ids r) (_all_token_ids r)
    (num_output_placeholders r) (spec_token_ids r) (num_computed_tokens r) (cache_salt r)
    (mm_features r) (is_prefill_chunk r) (num_preemptions r) (block_hashes r)
    (skip_reading_prefix_cache r) (resumable r) (events r) (client_index r) v
    (next_decode_eligible_step r) (prefill_stats r) (streaming_queue r).
Definition req_set_next_decode_eligible_step (v : Z) (r : Request) : Request :=
  mkRequest (request_id r) (priority r) (arrival_time r) (status r) (stop_reason r)
    (sampling_params r) (pooling_params r) (lora_request r) (structured_output_request r)
    (max_tokens r) (prompt_token_ids r) (prompt_embeds r) (_prompt_embeds_per_block_hashes
    r) (num_prompt_tokens r) (_output_token_ids r) (_all_token_ids r)
    (num_output_placeholders r) (spec_token_ids r) (num_computed_tokens r) (cache_salt r)
    (mm_features r) (is_prefill_chunk r) (num_preemptions r) (block_hashes r)
    (skip_reading_prefix_cache r) (resumable r) (events r) (client_index r)
    (async_tokens_to_discard r) v (prefill_stats r) (streaming_queue r).
Definition req_set_prefill_stats (v : option PrefillStats) (r : Request) : Request :=
  mkRequest (request_id r) (priority r) (arrival_time r) (status r) (stop_reason r)
    (sampling_params r) (pooling_params r) (lora_request r) (structured_output_request r)
    (max_tokens r) (prompt_token_ids r) (prompt_embeds r) (_prompt_embeds_per_block_hashes
    r) (num_prompt_tokens r) (_output_token_ids r) (_all_token_ids r)
    (num_output_placeholders r) (spec_token_ids r) (num_computed_tokens r) (cache_salt r)
    (mm_features r) (is_prefill_chunk r) (num_preemptions r) (block_hashes r)
    (skip_reading_prefix_cache r) (resumable r) (events r) (client_index r)
    (async_tokens_to_discard r) (next_decode_eligible_step r) v (streaming_queue r).
Definition req_set_streaming_queue (v : option (list (option StreamingUpdate))) (r : Request) : Request :=
  mkRequest (request_id r) (priority r) (arrival_time r) (status r) (stop_reason r)
    (sampling_params r) (pooling_params r) (lora_request r) (structured_output_request r)
    (max_tokens r) (prompt_token_ids r) (prompt_embeds r) (_prompt_embeds_per_block_hashes
    r) (num_prompt_tokens r) (_output_token_ids r) (_all_token_ids r)
    (num_output_placeholders r) (spec_token_ids r) (num_computed_tokens r) (cache_salt r)
    (mm_features r) (is_prefill_chunk r) (num_preemptions r) (block_hashes r)
    (skip_reading_prefix_cache r) (resumable r) (events r) (client_index r)
    (async_tokens_to_discard r) (next_decode_eligible_step r) (prefill_stats r) v.

(** ** Methods *)

(** [length_from_prompt_token_ids_or_embeds] *)
Definition length_from_prompt_token_ids_or_embeds
    (toks : option (list Z)) (embeds : option (list bytes)) : result Z :=
  match toks, embeds with
  | None, None => Err ValueError
  | None, Some e => Ok (zlen e)
  | Some t, None => Ok (zlen t)
  | Some t, Some e => if zlen e =? zlen t then Ok (zlen t) else Err ValueError
  end.

(** [get_skip_reading_prefix_cache] *)
Definition get_skip_reading_prefix_cache
    (sp : option SamplingParams) (pp : option PoolingParams) : bool :=
  match (sp ≫= sp_skip_reading_prefix_cache), (pp ≫= pp_skip_reading_prefix_cache) with
  | Some b, _ => b
  | None, Some b => b
  | None, None => false
  end.

Definition num_tokens (r : Request) : Z := zlen (_all_token_ids r).
Definition num_tokens_with_spec (r : Request) : Z :=
  zlen (_all_token_ids r) + zlen (spec_token_ids r).
Definition num_output_tokens (r : Request) : Z := zlen (_output_token_ids r).
Definition num_encoder_inputs (r : Request) : Z := zlen (mm_features r).
Definition has_encoder_inputs (r : Request) : bool := 0 <? num_encoder_inputs r.
Definition is_finished (r : Request) : bool := status_is_finished (status r).

Definition get_num_encoder_embeds (r : Request) (input_id : Z) : result Z :=
  if input_id <? zlen (mm_features r)
  then f ← py_index (mm_features r) input_id; Ok (get_num_embeds (mm_position f))
  else Err AssertionError.

(** [update_block_hashes]: the hasher may fill the request's memo of
    prompt-embedding hashes, so it returns the request with the new hashes. *)
Definition update_block_hashes
    (block_hasher : option (Request → result (list bytes * Request))) (r : Request) : result Request :=
  match block_hasher with
  | Some hasher =>
      '(hs, r') ← hasher r; Ok (req_set_block_hashes (block_hashes r' ++ hs) r')
  | None => Ok r
  end.

(** [append_output_token_ids] (an [int] is the one-element list) *)
Definition append_output_token_ids
    (block_hasher : option (Request → result (list bytes * Request))) (token_ids : list Z)
    (r : Request) : result Request :=
  let r := req_set_output_token_ids (_output_token_ids r ++ token_ids) r in
  let r := req_set_all_token_ids (_all_token_ids r ++ token_ids) r in
  update_block_hashes block_hasher r.

(** [__init__] *)
Definition new_request
    (request_id : string) (prompt_token_ids : option (list Z))
    (sampling_params : option SamplingParams) (pooling_params : option PoolingParams)
    (arrival_time : Z) (prompt_embeds : option (list bytes))
    (mm_features : list MultiModalFeatureSpec) (lora_request : option LoRARequest)
    (cache_salt : option string) (priority : Z) (structured_output_request : bool)
    (resumable : bool)
    (block_hasher : option (Request → result (list bytes * Request))) : result Request :=
  st_mt ← match pooling_params, sampling_params with
          | Some _, _ => Ok (WAITING, 1)
          | None, Some sp =>
              match sp_max_tokens sp with
              | None => Err AssertionError
              | Some m =>
                  Ok (if structured_output_request
                      then WAITING_FOR_STRUCTURED_OUTPUT_GRAMMAR else WAITING, m)
              end
          | None, None => Err ValueError
          end;
  n ← length_from_prompt_token_ids_or_embeds prompt_token_ids prompt_embeds;
  let all_tokens := match prompt_token_ids with
                    | Some t => t | None => replicate (Z.to_nat n) 0 end in
  update_block_hashes block_hasher
    (mkRequest request_id priority arrival_time (fst st_mt) None sampling_params
       pooling_params lora_request structured_output_request (snd st_mt)
       prompt_token_ids prompt_embeds ∅ n [] all_tokens 0 [] 0 cache_salt mm_features
       false 0 [] (get_skip_reading_prefix_cache sampling_params pooling_params)
       resumable [] 0 0 0 (Some new_prefill_stats) None).

(** [record_event] (the timestamp is not modelled) *)
Definition record_event (e : EngineCoreEvent) (r : Request) : Request := req_set_events (events r ++ [e]) r.

Definition use_structured_output (r : Request) : bool := structured_output_request r.

(** [StreamingUpdate.from_request] *)
Definition update_from_request (r : Request) : option StreamingUpdate :=
  if negb (resumable r) then None
  else Some (mkStreamingUpdate (mm_features r) (prompt_token_ids r) (max_tokens r) (arrival_time r) (sampling_params r)).

Definition take_prefill_stats (r : Request) : option PrefillStats * Request :=
  match prefill_stats r with
  | None => (None, r)
  | Some s => (Some s, req_set_prefill_stats None r)
  end.

(** [take_events] *)
Definition take_events (r : Request) : option (list EngineCoreEvent) * Request :=
  match events r with
  | [] => (None, r)
  | es => (Some es, req_set_events [] r)
  end.
