(* ===== verification/BlockHash.v ===== *)
(** * Block hashes

    Models the hashing part of [vllm/v1/core/kv_cache_utils.py]: packing a block
    hash with its KV-cache group id, the extra keys of a block (LoRA name,
    multi-modal items, cache salt, prompt embeddings), the chained block hash, the
    request block hasher and the lazy re-granulation of a hash list.

    The digest functions are not part of the repository; they are the fields of
    [HashConfig]. *)

From Stdlib Require Import ZArith Lia.
From stdpp Require Import sorting.
From S2P Require Import Prelude Request.
Local Open Scope Z_scope.

(** ** Big-endian integers *)

Definition byte_of_Z (z : Z) : byte := default x00 (Byte.of_N (Z.to_N (z mod 256))).
Definition Z_of_byte (b : byte) : Z := Z.of_N (Byte.to_N b).

(** [n.to_bytes(k, "big", signed=False)] for an [n] that fits *)
Fixpoint be_bytes (k : nat) (n : Z) : bytes :=
  match k with
  | O => []
  | S k => be_bytes k (n / 256) ++ [byte_of_Z n]
  end.

(** [int.from_bytes(b, "big", signed=False)] *)
Definition int_from_bytes (b : bytes) : Z :=
  fold_left (λ acc x, acc * 256 + Z_of_byte x) b 0.

Definition int_to_bytes (k : nat) (n : Z) : result bytes :=
  if (0 <=? n) && (n <? 256 ^ Z.of_nat k) then Ok (be_bytes k n) else Err OverflowError.

(** ** Keys of the prefix cache *)

Definition make_block_hash_with_group_id (block_hash : bytes) (group_id : Z) : result bytes :=
  g ← int_to_bytes 4 group_id; Ok (block_hash ++ g).

Definition get_block_hash (key : bytes) : bytes := py_slice key 0 (-4).

Definition get_group_id (key : bytes) : Z := int_from_bytes (py_from key (-4)).

(** [ExternalBlockHash = bytes | int] *)
Inductive ExternalBlockHash :=
  | EBytes (b : bytes)
  | EInt (n : Z).

(** [use_int] is [envs.VLLM_KV_EVENTS_USE_INT_BLOCK_HASHES]. *)
Definition maybe_convert_block_hash (use_int : bool) (hash_bytes : bytes) : ExternalBlockHash :=
  if negb use_int then EBytes hash_bytes
  else EInt (Z.land (int_from_bytes hash_bytes) (Z.shiftl 1 64 - 1)).

(** ** Extra keys *)

(** An element of the [extra_keys] tuple. LoRA names and cache salts are both
    plain strings there. *)
Inductive extra_key :=
  | KStr (s : string)
  | KMM (identifier : string) (offset : Z)
  | KBytes (b : bytes).

#[global] Instance extra_key_eq_dec : EqDecision extra_key.
Proof. solve_decision. Defined.

Class HashConfig := {
  (** the caching hash function, applied to [(parent, token_ids, extra_keys)] *)
  hash_function : bytes * list Z * option (list extra_key) → bytes;
  (** the seed of a chain, set by [init_none_hash] *)
  NONE_HASH : bytes;
  (** [hashlib.sha256(...).digest()] of a slice of prompt embeddings *)
  sha256 : list bytes → bytes
}.

Definition need_extra_keys (r : Request) : bool :=
  bool_decide (mm_features r ≠ []) || bool_decide (lora_request r ≠ None)
  || bool_decide (cache_salt r ≠ None).

(** The [while] loop of [_gen_mm_extra_hash_keys] over the features from
    [curr_mm_idx] on. *)
Fixpoint mm_keys_loop (fs : list MultiModalFeatureSpec)
    (start_token_idx end_token_idx curr_mm_idx : Z) : list extra_key * Z :=
  match fs with
  | [] => ([], curr_mm_idx)
  | f :: fs =>
      let offset := pr_offset (mm_position f) in
      let length := pr_length (mm_position f) in
      if offset <? end_token_idx then
        if offset + length <=? start_token_idx then
          mm_keys_loop fs start_token_idx end_token_idx (curr_mm_idx + 1)
        else
          let key := KMM (mm_identifier f) (offset - start_token_idx) in
          if offset + length <=? end_token_idx then
            let '(ks, i) := mm_keys_loop fs start_token_idx end_token_idx (curr_mm_idx + 1) in
            (key :: ks, i)
          else ([key], curr_mm_idx)
      else ([], curr_mm_idx)
  end.

Definition _gen_mm_extra_hash_keys (r : Request)
    (start_token_idx end_token_idx start_mm_idx : Z) : result (list extra_key * Z) :=
  match last (mm_features r) with
  | None => Ok ([], start_mm_idx)
  | Some last_f =>
      let last_pos := mm_position last_f in
      if pr_offset last_pos + pr_length last_pos <=? start_token_idx
      then Ok ([], start_mm_idx)
      else
        let n := zlen (mm_features r) in
        if (start_mm_idx <? 0) && negb (- start_mm_idx <=? n) then Err AssertionError
        else
          let idx := if start_mm_idx <? 0 then n + start_mm_idx else start_mm_idx in
          Ok (mm_keys_loop (drop (Z.to_nat idx) (mm_features r))
                start_token_idx end_token_idx idx)
  end.

Definition _gen_lora_extra_hash_keys (r : Request) : list extra_key :=
  match lora_request r with None => [] | Some l => [KStr (lora_name l)] end.

(** [if request.cache_salt]: the empty string is falsy. *)
Definition cache_salt_keys (r : Request) (start_token_idx : Z) : list extra_key :=
  match cache_salt r with
  | Some salt =>
      if (start_token_idx =? 0) && negb (String.eqb salt EmptyString) then [KStr salt] else []
  | None => []
  end.

Section hashing.
Context `{HashConfig}.

(** Memoised per block range on the request. *)
Definition _gen_prompt_embeds_extra_hash_keys (r : Request)
    (start_token_idx end_token_idx : Z) : list extra_key * Request :=
  match prompt_embeds r with
  | None => ([], r)
  | Some embeds =>
      let block_range := (start_token_idx, end_token_idx) in
      match _prompt_embeds_per_block_hashes r !! block_range with
      | Some h => ([KBytes h], r)
      | None =>
          let h := sha256 (py_slice embeds start_token_idx end_token_idx) in
          ([KBytes h],
           req_set_prompt_embeds_per_block_hashes
             (<[block_range := h]> (_prompt_embeds_per_block_hashes r)) r)
      end
  end.

Definition generate_block_hash_extra_keys (r : Request)
    (start_token_idx end_token_idx start_mm_idx : Z)
    : result (option (list extra_key) * Z * Request) :=
  '(mm_keys, new_start_mm_idx) ←
    _gen_mm_extra_hash_keys r start_token_idx end_token_idx start_mm_idx;
  let '(pe_keys, r') := _gen_prompt_embeds_extra_hash_keys r start_token_idx end_token_idx in
  let extra_keys :=
    _gen_lora_extra_hash_keys r ++ mm_keys ++ cache_salt_keys r start_token_idx ++ pe_keys in
  Ok (if bool_decide (extra_keys = []) then None else Some extra_keys, new_start_mm_idx, r').

(** [if not parent_block_hash]: [None] and the empty byte string are falsy. *)
Definition hash_block_tokens (parent_block_hash : option bytes)
    (curr_block_token_ids : list Z) (extra_keys : option (list extra_key)) : bytes :=
  let parent := match parent_block_hash with
                | None | Some [] => NONE_HASH | Some h => h end in
  hash_function (parent, curr_block_token_ids, extra_keys).

(** The [while True] loop of [request_block_hasher]; every round hashes one
    full block, so one round per token is more than enough. *)
Fixpoint hasher_loop (fuel : nat) (block_size : Z) (r : Request)
    (start_token_idx curr_mm_idx : Z) (prev : option bytes)
    : result (list bytes * Request) :=
  match fuel with
  | O => Ok ([], r)
  | S fuel =>
      let end_token_idx := start_token_idx + block_size in
      if num_tokens r <? end_token_idx then Ok ([], r)
      else
        '(extra_keys, curr_mm_idx, r) ←
          generate_block_hash_extra_keys r start_token_idx end_token_idx curr_mm_idx;
        let block_tokens := py_slice (_all_token_ids r) start_token_idx end_token_idx in
        let block_hash := hash_block_tokens prev block_tokens extra_keys in
        '(hs, r) ← hasher_loop fuel block_size r end_token_idx curr_mm_idx (Some block_hash);
        Ok (block_hash :: hs, r)
  end.

(** The closure returned by [get_request_block_hasher(block_size, hash_fn)]. *)
Definition request_block_hasher (block_size : Z) (r : Request)
    : result (list bytes * Request) :=
  let start_token_idx := zlen (block_hashes r) * block_size in
  if num_tokens r <? start_token_idx + block_size then Ok ([], r)
  else
    let curr_mm_idx := if 0 <? start_token_idx then -1 else 0 in
    hasher_loop (S (Z.to_nat (num_tokens r))) block_size r start_token_idx curr_mm_idx
      (last (block_hashes r)).
End hashing.

(** ** [BlockHashListWithBlockSize] *)

Record BlockHashListWithBlockSize := mkBHL {
  bhl_block_hashes : list bytes;
  scale_factor : Z
}.

Definition new_bhl (block_hashes : list bytes) (hash_block_size target_block_size : Z)
    : result BlockHashListWithBlockSize :=
  if hash_block_size =? 0 then Err ZeroDivisionError
  else if target_block_size mod hash_block_size =? 0
  then Ok (mkBHL block_hashes (target_block_size / hash_block_size))
  else Err AssertionError.

Definition bhl_len (l : BlockHashListWithBlockSize) : Z :=
  zlen (bhl_block_hashes l) / scale_factor l.

Definition _get_value_at (l : BlockHashListWithBlockSize) (idx : Z) : bytes :=
  let base := idx * scale_factor l in
  concat (py_slice (bhl_block_hashes l) base (base + scale_factor l)).

(** [l[a:]]: [slice.indices(len)] clamps the bounds. *)
Definition bhl_from (l : BlockHashListWithBlockSize) (a : Z) : list bytes :=
  map (_get_value_at l) (zrange (clamp_index (bhl_len l) a) (bhl_len l)).

(** [__iter__] *)
Definition bhl_iter (l : BlockHashListWithBlockSize) : list bytes :=
  map (_get_value_at l) (zrange 0 (bhl_len l)).

(** ** Round trip of the cache key *)

Lemma Z_of_byte_of_Z z : Z_of_byte (byte_of_Z z) = z mod 256.
Proof.
  unfold Z_of_byte, byte_of_Z. pose proof (Z.mod_pos_bound z 256 eq_refl).
  destruct (Byte.of_N (Z.to_N (z mod 256))) as [b|] eqn:E; simpl.
  - apply Byte.to_of_N in E. rewrite E. lia.
  - apply Byte.of_N_None_iff in E. lia.
Qed.

Lemma be_bytes_length k n : length (be_bytes k n) = k.
Proof. revert n. induction k as [|k IH]; intros n; simpl; [done|]. rewrite length_app, IH. simpl. lia. Qed.

Lemma int_from_bytes_snoc l b : int_from_bytes (l ++ [b]) = int_from_bytes l * 256 + Z_of_byte b.
Proof. unfold int_from_bytes. by rewrite fold_left_app. Qed.

Lemma int_from_be_bytes k n : 0 ≤ n < 256 ^ Z.of_nat k → int_from_bytes (be_bytes k n) = n.
Proof.
  revert n. induction k as [|k IH]; intros n Hn; [simpl in *; change (int_from_bytes []) with 0; lia|].
  rewrite Nat2Z.inj_succ, Z.pow_succ_r in Hn by lia. cbn [be_bytes].
  rewrite int_from_bytes_snoc, IH, Z_of_byte_of_Z.
  - pose proof (Z.div_mod n 256). lia.
  - split; [apply Z.div_pos; lia|]. apply Z.div_lt_upper_bound; lia.
Qed.

Lemma get_block_hash_app h g : length g = 4%nat → get_block_hash (h ++ g) = h.
Proof.
  intros Hg. unfold get_block_hash, py_slice, clamp_index. simpl. rewrite length_app, Hg.
  rewrite (Z.min_r _ 0), (Z.max_l 0 0), Z.sub_0_r, drop_0 by lia.
  rewrite take_app_length'; [done|lia].
Qed.

Lemma get_group_id_app h g : length g = 4%nat → get_group_id (h ++ g) = int_from_bytes g.
Proof.
  intros Hg. unfold get_group_id, py_from, clamp_index. simpl. rewrite length_app, Hg.
  rewrite drop_app_length'; [done|lia].
Qed.

Lemma make_key_ok h g :
  0 ≤ g < 256 ^ 4 → make_block_hash_with_group_id h g = Ok (h ++ be_bytes 4 g).
Proof.
  intros Hg. unfold make_block_hash_with_group_id, int_to_bytes.
  change (Z.of_nat 4) with 4.
  by rewrite (proj2 (Z.leb_le 0 g)), (proj2 (Z.ltb_lt g (256 ^ 4))) by lia.
Qed.

Lemma make_key_inv h g k :
  make_block_hash_with_group_id h g = Ok k → 0 ≤ g < 256 ^ 4 ∧ k = h ++ be_bytes 4 g.
Proof.
  unfold make_block_hash_with_group_id, int_to_bytes. change (Z.of_nat 4) with 4.
  destruct (Z.leb_spec 0 g), (Z.ltb_spec g (256 ^ 4)); munfold; intros [= <-]; done || lia.
Qed.

Lemma make_key_unpack h g k :
  make_block_hash_with_group_id h g = Ok k → get_block_hash k = h ∧ get_group_id k = g.
Proof.
  intros [Hg ->]%make_key_inv.
  rewrite get_block_hash_app, get_group_id_app, int_from_be_bytes;
    rewrite ?be_bytes_length; done.
Qed.

Lemma make_key_inj h1 g1 h2 g2 k :
  make_block_hash_with_group_id h1 g1 = Ok k →
  make_block_hash_with_group_id h2 g2 = Ok k → h1 = h2 ∧ g1 = g2.
Proof.
  intros [<- <-]%make_key_unpack [<- <-]%make_key_unpack. done.
Qed.

(** C2. The cache key packs a block hash and a KV-cache group id without loss:
    packing succeeds exactly for group ids that fit four bytes (otherwise
    [OverflowError]), the two accessors recover both components, and two keys are
    equal only when both the hash and the group agree, for hashes of any
    length. *)
Theorem block_hash_key_roundtrip (h : bytes) (g : Z) :
  match make_block_hash_with_group_id h g with
  | Ok k =>
      0 ≤ g < 2 ^ 32 ∧ get_block_hash k = h ∧ get_group_id k = g ∧
      ∀ h' g', make_block_hash_with_group_id h' g' = Ok k → h' = h ∧ g' = g
  | Err e => e = OverflowError ∧ ¬ 0 ≤ g < 2 ^ 32
  end.
Proof.
  destruct (make_block_hash_with_group_id h g) as [k|e] eqn:E.
  - pose proof (make_key_inv _ _ _ E) as [Hg _].
    pose proof (make_key_unpack _ _ _ E) as [-> ->]. change (2 ^ 32) with (256 ^ 4).
    split; [done|]. split_and!; [done..|]. intros h' g' E'.
    by destruct (make_key_inj _ _ _ _ _ E' E).
  - change (2 ^ 32) with (256 ^ 4). split.
    + unfold make_block_hash_with_group_id, int_to_bytes in E. munfold.
      by destruct ((0 <=? g) && _); simplify_eq.
    + intros Hg. by rewrite make_key_ok in E.
Qed.

(** ** Reference definition of the block hashes *)

Definition mm_start (f : MultiModalFeatureSpec) : Z := pr_offset (mm_position f).
Definition mm_end (f : MultiModalFeatureSpec) : Z :=
  pr_offset (mm_position f) + pr_length (mm_position f).

(** Placeholders are in prompt order and do not overlap. *)
Definition mm_sorted (fs : list MultiModalFeatureSpec) : Prop :=
  StronglySorted (λ f g, mm_end f ≤ mm_start g) fs ∧ Forall (λ f, 0 < pr_length (mm_position f)) fs.

Definition mm_overlaps (s e : Z) (f : MultiModalFeatureSpec) : Prop :=
  mm_start f < e ∧ s < mm_end f.
#[global] Instance mm_overlaps_dec s e f : Decision (mm_overlaps s e f).
Proof. unfold mm_overlaps. apply _. Defined.

(** The multi-modal keys of the block [s, e): one per item inside it. *)
Definition mm_ref (fs : list MultiModalFeatureSpec) (s e : Z) : list extra_key :=
  (λ f, KMM (mm_identifier f) (mm_start f - s)) <$> filter (mm_overlaps s e) fs.

Section reference.
Context `{HashConfig}.

Definition ref_extra_keys (r : Request) (s e : Z) : option (list extra_key) :=
  let ks := _gen_lora_extra_hash_keys r ++ mm_ref (mm_features r) s e ++ cache_salt_keys r s
    ++ match prompt_embeds r with None => [] | Some em => [KBytes (sha256 (py_slice em s e))] end in
  if bool_decide (ks = []) then None else Some ks.

(** The hash chain of [n] blocks from token [start] on. *)
Fixpoint ref_chain (bs : Z) (r : Request) (n : nat) (prev : option bytes) (start : Z) : list bytes :=
  match n with
  | O => []
  | S n =>
      let h := hash_block_tokens prev (py_slice (_all_token_ids r) start (start + bs))
                 (ref_extra_keys r start (start + bs)) in
      h :: ref_chain bs r n (Some h) (start + bs)
  end.

(** All the full blocks of a request, hashed from scratch. *)
Definition ref_hashes (bs : Z) (r : Request) : list bytes :=
  ref_chain bs r (Z.to_nat (num_tokens r / bs)) None 0.

Definition memo_ok (r : Request) : Prop :=
  ∀ s e h, _prompt_embeds_per_block_hashes r !! (s, e) = Some h →
    ∃ em, prompt_embeds r = Some em ∧ h = sha256 (py_slice em s e).

Definition same_but_memo (r r' : Request) : Prop :=
  r' = req_set_prompt_embeds_per_block_hashes (_prompt_embeds_per_block_hashes r') r.

(** ** Multi-modal keys *)

Lemma mm_sorted_cons f fs : mm_sorted (f :: fs) →
  mm_sorted fs ∧ 0 < pr_length (mm_position f) ∧ Forall (λ g, mm_end f ≤ mm_start g) fs.
Proof. intros [[??]%StronglySorted_inv [??]%Forall_cons]. by repeat split. Qed.

Lemma mm_ref_none fs s e :
  Forall (λ f, ¬ mm_overlaps s e f) fs → mm_ref fs s e = [].
Proof.
  intros Hf. unfold mm_ref. induction Hf as [|f fs Hx _ IH]; [done|].
  by rewrite filter_cons_False.
Qed.

Lemma mm_ref_drop fs s e n :
  Forall (λ f, mm_end f ≤ s) (take n fs) → mm_ref (drop n fs) s e = mm_ref fs s e.
Proof.
  intros Hf. rewrite <-(take_drop n fs) at 2. unfold mm_ref. rewrite filter_app, fmap_app.
  fold (mm_ref (take n fs) s e). rewrite mm_ref_none; [done|].
  eapply Forall_impl; [done|]. unfold mm_overlaps. intros. simpl in *. lia.
Qed.

(** The scan lists exactly the overlapping items and stops at an index before
    which every item has ended. *)
Lemma mm_keys_loop_spec fs s e i :
  s ≤ e → mm_sorted fs →
  ∃ j, mm_keys_loop fs s e i = (mm_ref fs s e, i + Z.of_nat j)
    ∧ (j ≤ length fs)%nat ∧ Forall (λ f, mm_end f ≤ e) (take j fs).
Proof.
  intros Hse. revert i. induction fs as [|f fs IH]; intros i Hs.
  { exists 0%nat. simpl. rewrite Z.add_0_r. split; [done|]. split; [lia|done]. }
  apply mm_sorted_cons in Hs as (Hs & Hlen & Hgt). simpl.
  fold (mm_end f). fold (mm_start f).
  assert (Hend : mm_end f = mm_start f + pr_length (mm_position f)) by done.
  destruct (Z.ltb_spec (mm_start f) e) as [H1|H1].
  2:{ exists 0%nat. rewrite mm_ref_none, Z.add_0_r; [split; [done|]; split; [lia|done]|].
      constructor; [unfold mm_overlaps; lia|].
      eapply Forall_impl; [done|]. unfold mm_overlaps. simpl. intros. lia. }
  destruct (Z.leb_spec (mm_end f) s) as [H2|H2].
  { destruct (IH (i + 1)) as (j & -> & Hj & Hf); [done|]. exists (S j).
    unfold mm_ref. rewrite filter_cons_False by (unfold mm_overlaps; lia).
    replace (i + 1 + Z.of_nat j) with (i + Z.of_nat (S j)) by lia.
    split; [done|]. split; [lia|]. simpl. constructor; [lia|done]. }
  unfold mm_ref. rewrite filter_cons_True by (unfold mm_overlaps; lia).
  rewrite fmap_cons. fold (mm_ref fs s e).
  destruct (Z.leb_spec (mm_end f) e) as [H3|H3].
  - destruct (IH (i + 1)) as (j & -> & Hj & Hf); [done|]. exists (S j).
    replace (i + 1 + Z.of_nat j) with (i + Z.of_nat (S j)) by lia.
    split; [done|]. split; [lia|]. simpl. by constructor.
  - exists 0%nat. rewrite mm_ref_none, Z.add_0_r; [split; [done|]; split; [lia|done]|].
    eapply Forall_impl; [done|]. unfold mm_overlaps. simpl. intros. lia.
Qed.

(** A scan index is sound for a block starting at [s] when every item before it
    has ended; [-1] stands for the last item. *)
Definition idx_ok (fs : list MultiModalFeatureSpec) (idx s : Z) : Prop :=
  (0 ≤ idx ≤ zlen fs ∧ Forall (λ f, mm_end f ≤ s) (take (Z.to_nat idx) fs)) ∨
  (idx = -1 ∧ Forall (λ f, mm_end f ≤ s) (take (length fs - 1) fs)).

Lemma idx_ok_mono fs idx s e : s ≤ e → idx_ok fs idx s → idx_ok fs idx e.
Proof.
  intros Hse [[Hi Hf]|[Hi Hf]]; [left|right]; (split; [done|]);
    (eapply Forall_impl; [exact Hf|]); simpl; intros; lia.
Qed.

Lemma gen_mm_spec r s e idx :
  s ≤ e → mm_sorted (mm_features r) → idx_ok (mm_features r) idx s →
  ∃ idx', _gen_mm_extra_hash_keys r s e idx = Ok (mm_ref (mm_features r) s e, idx')
    ∧ idx_ok (mm_features r) idx' e.
Proof.
  intros Hse Hs Hidx. unfold _gen_mm_extra_hash_keys. set (fs := mm_features r) in *.
  destruct (last fs) as [lf|] eqn:El.
  2:{ apply last_None in El. rewrite El. eexists. split; [done|]. rewrite <-El.
      by eapply idx_ok_mono. }
  fold (mm_end lf). apply last_Some in El as [fs0 El].
  destruct (Z.leb_spec (mm_end lf) s) as [Hl|Hl].
  { exists idx. split; [|by eapply idx_ok_mono]. rewrite mm_ref_none; [done|].
    rewrite El in Hs |- *. apply Forall_app. destruct Hs as [Hs Hp].
    apply Forall_app in Hp as [_ [Hp _]%Forall_cons].
    assert (mm_start lf < mm_end lf) by (unfold mm_start, mm_end; lia).
    split; [|constructor; [|done]; unfold mm_overlaps; lia].
    apply Forall_forall. intros f Hf. unfold mm_overlaps.
    apply StronglySorted_app_1_elem_of with (x1:=f) (x2:=lf) in Hs; [|done|left].
    simpl in Hs. lia. }
  set (i := if idx <? 0 then zlen fs + idx else idx).
  assert (Hfs : zlen fs = zlen fs0 + 1) by (rewrite El, zlen_app; done).
  pose proof (zlen_nonneg fs0).
  assert (Hi : 0 ≤ i ≤ zlen fs ∧ Forall (λ f, mm_end f ≤ s) (take (Z.to_nat i) fs)).
  { unfold i. destruct Hidx as [[? ?]|[-> ?]].
    - by rewrite (proj2 (Z.ltb_ge idx 0)) by lia.
    - simpl. split; [lia|].
      by replace (Z.to_nat (zlen fs + -1)) with (length fs - 1)%nat by (unfold zlen; lia). }
  replace ((idx <? 0) && negb (- idx <=? zlen fs)) with false.
  2:{ destruct (Z.ltb_spec idx 0); [|done]. destruct Hidx as [[? _]|[-> _]]; [lia|].
      simpl. by rewrite (proj2 (Z.leb_le 1 _)) by lia. }
  destruct Hi as [Hi Hf].
  destruct (mm_keys_loop_spec (drop (Z.to_nat i) fs) s e i) as (j & -> & Hj & Hfj); [done| |].
  { destruct Hs as [Hs1 Hs2]. split; [|by apply Forall_drop].
    rewrite <-(take_drop (Z.to_nat i) fs) in Hs1. by apply StronglySorted_app_1_r in Hs1. }
  rewrite mm_ref_drop by done. eexists. split; [done|]. left.
  rewrite length_drop in Hj. unfold zlen in *. split; [lia|].
  replace (Z.to_nat (i + Z.of_nat j)) with (Z.to_nat i + j)%nat by lia.
  rewrite <-take_take_drop. apply Forall_app. split; [|done].
  eapply Forall_impl; [exact Hf|]. simpl. intros. lia.
Qed.

(** ** The hasher computes the reference chain *)

Lemma same_but_memo_refl r : same_but_memo r r.
Proof. by destruct r. Qed.
Lemma same_but_memo_trans r1 r2 r3 :
  same_but_memo r1 r2 → same_but_memo r2 r3 → same_but_memo r1 r3.
Proof. unfold same_but_memo. by intros -> ->. Qed.

Lemma ref_extra_keys_memo r r' s e :
  same_but_memo r r' → ref_extra_keys r' s e = ref_extra_keys r s e.
Proof. by intros ->. Qed.
Lemma ref_chain_memo bs r r' n prev start :
  same_but_memo r r' → ref_chain bs r' n prev start = ref_chain bs r n prev start.
Proof.
  intros Hr. revert prev start. induction n as [|n IH]; intros prev start; simpl; [done|].
  rewrite (ref_extra_keys_memo _ _ _ _ Hr), IH. by rewrite Hr.
Qed.

Lemma gen_embeds_spec r s e :
  memo_ok r →
  ∃ r', _gen_prompt_embeds_extra_hash_keys r s e
      = (match prompt_embeds r with None => [] | Some em => [KBytes (sha256 (py_slice em s e))] end, r')
    ∧ same_but_memo r r' ∧ memo_ok r'.
Proof.
  intros Hm. unfold _gen_prompt_embeds_extra_hash_keys.
  destruct (prompt_embeds r) as [em|] eqn:E; [|eauto using same_but_memo_refl].
  destruct (_prompt_embeds_per_block_hashes r !! (s, e)) as [h|] eqn:El.
  - destruct (Hm _ _ _ El) as (em' & ? & ->). simplify_eq. eauto using same_but_memo_refl.
  - eexists. split; [done|]. split; [by destruct r|].
    intros s' e' h. simpl. rewrite lookup_insert_Some. intros [[[= <- <-] <-]|[_ Hh]].
    + simpl. eauto.
    + simpl. by apply Hm.
Qed.

Lemma generate_keys_spec r s e idx :
  s ≤ e → mm_sorted (mm_features r) → idx_ok (mm_features r) idx s → memo_ok r →
  ∃ idx' r', generate_block_hash_extra_keys r s e idx = Ok (ref_extra_keys r s e, idx', r')
    ∧ idx_ok (mm_features r) idx' e ∧ same_but_memo r r' ∧ memo_ok r'.
Proof.
  intros Hse Hs Hidx Hm. unfold generate_block_hash_extra_keys.
  destruct (gen_mm_spec r s e idx) as (idx' & -> & Hidx'); [done..|].
  destruct (gen_embeds_spec r s e Hm) as (r' & Er & Hr & Hm').
  munfold. rewrite Er. exists idx', r'. by split_and!.
Qed.

Lemma hasher_loop_spec fuel bs r start idx prev :
  0 < bs → 0 ≤ start → mm_sorted (mm_features r) → idx_ok (mm_features r) idx start →
  memo_ok r → (Z.to_nat ((num_tokens r - start) / bs) < fuel)%nat →
  ∃ r', hasher_loop fuel bs r start idx prev
      = Ok (ref_chain bs r (Z.to_nat ((num_tokens r - start) / bs)) prev start, r')
    ∧ same_but_memo r r' ∧ memo_ok r'.
Proof.
  intros Hbs. revert r start idx prev.
  induction fuel as [|fuel IH]; intros r start idx prev Hst Hs Hidx Hm Hf; [lia|].
  simpl. destruct (Z.ltb_spec (num_tokens r) (start + bs)) as [Hlt|Hge].
  { replace (Z.to_nat ((num_tokens r - start) / bs)) with 0%nat.
    - exists r. split; [done|]. by split; [apply same_but_memo_refl|].
    - assert ((num_tokens r - start) / bs < 1); [apply Z.div_lt_upper_bound; lia|lia]. }
  destruct (generate_keys_spec r start (start + bs) idx) as (idx' & r1 & -> & Hi & Hr1 & Hm1);
    [lia|done..|]. munfold.
  assert (Hdiv : (num_tokens r - start) / bs = (num_tokens r - (start + bs)) / bs + 1).
  { replace (num_tokens r - start) with (num_tokens r - (start + bs) + 1 * bs) by lia.
    by rewrite Z.div_add by lia. }
  assert (0 ≤ (num_tokens r - (start + bs)) / bs) by (apply Z.div_pos; lia).
  assert (Hn : num_tokens r1 = num_tokens r) by (by rewrite Hr1).
  assert (Hfs : mm_features r1 = mm_features r) by (by rewrite Hr1).
  edestruct (IH r1 (start + bs) idx') as (r2 & -> & Hr2 & Hm2);
    rewrite ?Hfs, ?Hn; [lia|done..|lia|].
  exists r2. split; [|by split; [eapply same_but_memo_trans|]].
  rewrite Hdiv, Z2Nat.inj_add, Nat.add_1_r by lia. simpl.
  rewrite (ref_chain_memo _ _ _ _ _ _ Hr1). by rewrite Hr1.
Qed.

(** ** Chains over growing token lists *)

Lemma ref_chain_app bs r n m prev start :
  ref_chain bs r (n + m) prev start =
  ref_chain bs r n prev start ++
  ref_chain bs r m (match last (ref_chain bs r n prev start) with Some h => Some h | None => prev end)
    (start + Z.of_nat n * bs).
Proof.
  revert prev start. induction n as [|n IH]; intros prev start; simpl.
  { by rewrite Z.add_0_r. }
  f_equal. rewrite IH. f_equal.
  match goal with |- context [last (ref_chain bs r n (Some ?h) ?st)] =>
    set (h0 := h); set (tl := ref_chain bs r n (Some h0) st) end.
  replace (start + bs + Z.of_nat n * bs) with (start + Z.of_nat (S n) * bs) by lia.
  f_equal. destruct tl as [|x tl]; [done|].
  change (match last (x :: tl) with Some h => Some h | None => Some h0 end =
          match last (h0 :: x :: tl) with Some h => Some h | None => prev end).
  rewrite (last_cons h0). by destruct (last (x :: tl)) eqn:E.
Qed.

Lemma ref_chain_length bs r n prev start : length (ref_chain bs r n prev start) = n.
Proof. revert prev start. induction n; intros; simpl; auto. Qed.

(** Extra keys do not depend on the tokens, so a longer request keeps the
    hashes of its old full blocks. *)
Lemma ref_chain_tokens bs r1 r2 n prev start t :
  0 < bs → 0 ≤ start → start + Z.of_nat n * bs ≤ num_tokens r1 →
  (∀ s e, ref_extra_keys r2 s e = ref_extra_keys r1 s e) →
  _all_token_ids r2 = _all_token_ids r1 ++ t →
  ref_chain bs r2 n prev start = ref_chain bs r1 n prev start.
Proof.
  intros Hbs Hst Hn Hk Ht. revert prev start Hst Hn.
  induction n as [|n IH]; intros prev start Hst Hn; simpl; [done|].
  unfold num_tokens, zlen in Hn.
  rewrite Hk, Ht, py_slice_app_l by lia. f_equal.
  apply IH; unfold num_tokens, zlen; lia.
Qed.

Lemma ref_hashes_fields bs r1 r2 :
  (∀ s e, ref_extra_keys r2 s e = ref_extra_keys r1 s e) →
  _all_token_ids r2 = _all_token_ids r1 → ref_hashes bs r2 = ref_hashes bs r1.
Proof.
  intros Hk Ht. unfold ref_hashes, num_tokens. rewrite Ht. generalize (None : option bytes), 0.
  generalize (Z.to_nat (zlen (_all_token_ids r1) / bs)) as n.
  induction n as [|n IH]; intros prev start; simpl; [done|]. by rewrite Hk, Ht, IH.
Qed.

Lemma ref_hashes_length bs r :
  0 < bs → zlen (ref_hashes bs r) = num_tokens r / bs.
Proof.
  intros. unfold ref_hashes, zlen. rewrite ref_chain_length.
  pose proof (Z.div_pos (num_tokens r) bs). unfold num_tokens, zlen in *. lia.
Qed.
End reference.

(** ** Hashing a request as it grows *)

Section growing.
Context `{HashConfig}.

(** Tokens arrive batch by batch. *)
Fixpoint append_batches (bs : Z) (batches : list (list Z)) (r : Request) : result Request :=
  match batches with
  | [] => Ok r
  | t :: batches =>
      r' ← append_output_token_ids (Some (request_block_hasher bs)) t r;
      append_batches bs batches r'
  end.

(** [r'] is [r] with tokens [t] appended and its new full blocks hashed. *)
Definition appended (t : list Z) (r r' : Request) : Prop :=
  r' = req_set_block_hashes (block_hashes r')
         (req_set_prompt_embeds_per_block_hashes (_prompt_embeds_per_block_hashes r')
            (req_set_all_token_ids (_all_token_ids r ++ t) (req_set_output_token_ids (_output_token_ids r ++ t) r))).

Record hash_inv (bs : Z) (r : Request) : Prop := {
  hi_hashes : block_hashes r = ref_hashes bs r;
  hi_sorted : mm_sorted (mm_features r);
  hi_memo : memo_ok r;
  hi_idx : block_hashes r = [] ∧ Forall (λ f, mm_end f ≤ bs) (mm_features r) ∨
           Forall (λ f, mm_end f ≤ zlen (block_hashes r) * bs)
             (take (length (mm_features r) - 1) (mm_features r))
}.

(** One call of the hasher completes the chain: [r0] carries the hashes of the
    first [n0 / bs] blocks of its [n] tokens. *)
Lemma request_block_hasher_spec bs r n0 :
  0 < bs → 0 ≤ n0 ≤ num_tokens r → mm_sorted (mm_features r) → memo_ok r →
  block_hashes r = ref_chain bs r (Z.to_nat (n0 / bs)) None 0 →
  block_hashes r = [] ∨
    Forall (λ f, mm_end f ≤ zlen (block_hashes r) * bs)
      (take (length (mm_features r) - 1) (mm_features r)) →
  ∃ hs r', request_block_hasher bs r = Ok (hs, r')
    ∧ block_hashes r ++ hs = ref_hashes bs r ∧ same_but_memo r r' ∧ memo_ok r'.
Proof.
  intros Hbs Hn0 Hs Hm Hh Hi. set (k := n0 / bs) in *.
  assert (0 ≤ k) by (apply Z.div_pos; lia).
  assert (Hk : k ≤ num_tokens r / bs) by (apply Z.div_le_mono; lia).
  assert (Hlen : zlen (block_hashes r) = k).
  { rewrite Hh. unfold zlen. rewrite ref_chain_length. lia. }
  assert (Hle : k * bs ≤ num_tokens r).
  { pose proof (Z.mul_div_le (num_tokens r) bs Hbs). nia. }
  assert (Hmore : (num_tokens r - k * bs) / bs = num_tokens r / bs - k).
  { replace (num_tokens r - k * bs) with (num_tokens r + (- k) * bs) by lia.
    rewrite Z.div_add by lia. lia. }
  assert (Hsplit : ref_hashes bs r = block_hashes r ++
    ref_chain bs r (Z.to_nat ((num_tokens r - k * bs) / bs)) (last (block_hashes r)) (k * bs)).
  { unfold ref_hashes. rewrite Hmore.
    replace (Z.to_nat (num_tokens r / bs)) with (Z.to_nat k + Z.to_nat (num_tokens r / bs - k))%nat by lia.
    rewrite ref_chain_app, <-Hh. simpl. rewrite Z2Nat.id by lia. by destruct (last _). }
  unfold request_block_hasher. rewrite Hlen.
  destruct (Z.ltb_spec (num_tokens r) (k * bs + bs)) as [Hlt|Hge].
  { exists [], r. split; [done|]. rewrite Hsplit.
    replace ((num_tokens r - k * bs) / bs) with 0; [by split_and!; [|apply same_but_memo_refl|]|].
    symmetry. apply Z.div_small. lia. }
  destruct (hasher_loop_spec (S (Z.to_nat (num_tokens r))) bs r (k * bs)
    (if 0 <? k * bs then -1 else 0) (last (block_hashes r))) as (r' & -> & Hr & Hm');
    [done|lia|done| |done| |].
  { destruct (Z.ltb_spec 0 (k * bs)) as [Hpos|].
    - right. split; [done|]. destruct Hi as [Hi|Hi]; [|by rewrite Hlen in Hi].
      rewrite Hi in Hlen. unfold zlen in Hlen. simpl in Hlen. lia.
    - left. pose proof (zlen_nonneg (mm_features r)). split; [lia|]. by rewrite take_0. }
  { assert ((num_tokens r - k * bs) / bs ≤ num_tokens r); [|lia].
    apply Z.div_le_upper_bound; nia. }
  eexists _, r'. by rewrite <-Hsplit.
Qed.

Lemma append_keeps_hash_inv bs t r :
  0 < bs → hash_inv bs r →
  ∃ r', append_output_token_ids (Some (request_block_hasher bs)) t r = Ok r'
    ∧ hash_inv bs r' ∧ appended t r r'.
Proof.
  intros Hbs [Hh Hs Hm Hi]. unfold append_output_token_ids, update_block_hashes.
  set (r1 := req_set_all_token_ids _ _).
  assert (Htok : _all_token_ids r1 = _all_token_ids r ++ t) by done.
  assert (Hn : 0 ≤ num_tokens r ≤ num_tokens r1).
  { unfold num_tokens. rewrite Htok, zlen_app. pose proof (zlen_nonneg t).
    pose proof (zlen_nonneg (_all_token_ids r)). lia. }
  destruct (request_block_hasher_spec bs r1 (num_tokens r)) as (hs & r2 & -> & Hc & Hr & Hm2);
    [done|done|done|done| | |].
  - change (block_hashes r1) with (block_hashes r). rewrite Hh. unfold ref_hashes.
    symmetry. eapply ref_chain_tokens; [done|lia| |done|done].
    rewrite Z2Nat.id by (apply Z.div_pos; lia).
    pose proof (Z.mul_div_le (num_tokens r) bs Hbs). lia.
  - change (block_hashes r1) with (block_hashes r). tauto.
  - munfold. eexists. split; [done|]. split; [|unfold appended; simpl; f_equal; exact Hr].
    assert (Hb2 : block_hashes r2 = block_hashes r) by (by rewrite Hr).
    split; simpl.
    + rewrite Hb2, Hc. symmetry. apply ref_hashes_fields; [|by rewrite Hr].
      intros s e. exact (ref_extra_keys_memo _ _ s e Hr).
    + by rewrite Hr.
    + by rewrite Hr in Hm2 |- *.
    + replace (mm_features r2) with (mm_features r) by (by rewrite Hr).
      assert (Hlen : zlen (block_hashes r2 ++ hs) = num_tokens r1 / bs).
      { rewrite Hb2, Hc. by apply ref_hashes_length. }
      rewrite Hb2 in *. destruct Hi as [[Hi1 Hi2]|Hi].
      * destruct (block_hashes r ++ hs) as [|h l] eqn:E; [by left|]. right.
        apply Forall_take. eapply Forall_impl; [done|]. simpl. intros f Hf.
        rewrite zlen_cons. pose proof (zlen_nonneg l). nia.
      * right. eapply Forall_impl; [exact Hi|]. simpl. intros f Hf.
        rewrite zlen_app. pose proof (zlen_nonneg hs). nia.
Qed.

Lemma append_batches_keeps_hash_inv bs batches r :
  0 < bs → hash_inv bs r →
  ∃ r', append_batches bs batches r = Ok r' ∧ hash_inv bs r'
    ∧ _all_token_ids r' = _all_token_ids r ++ concat batches.
Proof.
  intros Hbs. revert r. induction batches as [|t batches IH]; intros r Hr.
  { exists r. simpl. by rewrite app_nil_r. }
  destruct (append_keeps_hash_inv bs t r Hbs Hr) as (r1 & E & Hr1 & Ha1).
  assert (_all_token_ids r1 = _all_token_ids r ++ t) as Ht1 by (by rewrite Ha1).
  destruct (IH r1 Hr1) as (r2 & E2 & Hr2 & Ht2). exists r2. cbn [append_batches].
  unfold mbind, result_bind. rewrite E, E2. split; [done|]. split; [done|].
  simpl. by rewrite Ht2, Ht1, (assoc_L (++)).
Qed.

(** The constructor hashes the full blocks of the prompt. *)
Lemma new_request_hash_inv rid toks sp pp at_ embeds mms lora salt prio so res bs r :
  0 < bs → mm_sorted mms →
  new_request rid toks sp pp at_ embeds mms lora salt prio so res
    (Some (request_block_hasher bs)) = Ok r →
  Forall (λ f, mm_end f ≤ num_prompt_tokens r) mms →
  num_prompt_tokens r < bs ∨
    Forall (λ f, mm_end f ≤ num_prompt_tokens r / bs * bs) (take (length mms - 1) mms) →
  hash_inv bs r ∧ num_tokens r = num_prompt_tokens r.
Proof.
  intros Hbs Hs Hnew Hin Hcond. unfold new_request in Hnew.
  set (st := match pp with Some _ => _ | None => _ end) in Hnew.
  destruct st as [[st0 mt]|]; [|done]. munfold.
  destruct (length_from_prompt_token_ids_or_embeds toks embeds) as [n|] eqn:El; [|done].
  unfold update_block_hashes in Hnew.
  match type of Hnew with context [request_block_hasher bs ?r0] => set (r1 := r0) in * end.
  assert (Hn1 : num_tokens r1 = n).
  { unfold num_tokens, r1. simpl. destruct toks as [t|], embeds as [em|]; simpl in El;
      repeat case_match; simplify_eq; try done.
    unfold zlen. by rewrite length_replicate, Nat2Z.id. }
  assert (0 ≤ n) by (rewrite <-Hn1; apply zlen_nonneg).
  destruct (request_block_hasher_spec bs r1 0) as (hs & r2 & E & Hc & Hr & Hm2);
    [done|lia|done|done|done|by left|].
  rewrite E in Hnew. simpl in Hnew. injection Hnew as <-. simpl in *.
  assert (Hb2 : block_hashes r2 = []) by (by rewrite Hr).
  assert (Hp : num_prompt_tokens r2 = n) by (by rewrite Hr).
  assert (Hmm : mm_features r2 = mms) by (by rewrite Hr).
  split; [|unfold num_tokens; simpl; rewrite Hp, <-Hn1; by rewrite Hr].
  split; simpl; rewrite ?Hb2, ?Hmm; simpl; [|done|done|].
  - rewrite Hc. symmetry. apply ref_hashes_fields; [|by rewrite Hr].
    intros s e. exact (ref_extra_keys_memo _ _ s e Hr).
  - assert (Hlen : zlen hs = n / bs) by (rewrite Hc, <-Hn1; by apply ref_hashes_length).
    rewrite Hlen, Hp in *. destruct Hcond as [Hc'|Hc']; [left|by right].
    rewrite Z.div_small in Hlen by lia. split; [by destruct hs|].
    eapply Forall_impl; [exact Hin|]. simpl. lia.
Qed.
End growing.

(** C3. Hashing incrementally equals hashing from scratch: construct a request
    (with LoRA, cache salt, prompt embeddings and multi-modal items) and append
    any batches of output tokens; every call of the hasher succeeds, and at the
    end [block_hashes] is exactly the chain of all full blocks of prompt and
    output computed from scratch, each block keyed by every multi-modal item
    inside it. The placeholders are in order and inside the prompt, and all but
    the last end within the prompt's full blocks (see
    [tail_block_hash_ignores_earlier_items] for why). *)
Theorem incremental_hashes_from_scratch `{HashConfig}
    rid toks sp pp at_ embeds mms lora salt prio so res bs r batches :
  0 < bs → mm_sorted mms →
  new_request rid toks sp pp at_ embeds mms lora salt prio so res
    (Some (request_block_hasher bs)) = Ok r →
  Forall (λ f, mm_end f ≤ num_prompt_tokens r) mms →
  num_prompt_tokens r < bs ∨
    Forall (λ f, mm_end f ≤ num_prompt_tokens r / bs * bs) (take (length mms - 1) mms) →
  ∃ r', append_batches bs batches r = Ok r'
    ∧ block_hashes r' = ref_hashes bs r'
    ∧ _all_token_ids r' = _all_token_ids r ++ concat batches.
Proof.
  intros Hbs Hs Hnew Hin Hcond.
  destruct (new_request_hash_inv _ _ _ _ _ _ _ _ _ _ _ _ _ _ Hbs Hs Hnew Hin Hcond) as [Hinv _].
  destruct (append_batches_keeps_hash_inv bs batches r Hbs Hinv) as (r' & ? & [] & ?). eauto.
Qed.

(** ** Equal block hashes mean equal prefixes *)

Section soundness.
Context `{HashConfig}.
Context (hash_inj : Inj (=) (=) hash_function) (hash_nonempty : ∀ x, hash_function x ≠ []).

Lemma hash_block_tokens_inj h1 h2 x1 x2 t1 t2 k1 k2 :
  h1 = hash_function x1 → h2 = hash_function x2 →
  hash_block_tokens (Some h1) t1 k1 = hash_block_tokens (Some h2) t2 k2 →
  h1 = h2 ∧ t1 = t2 ∧ k1 = k2.
Proof.
  intros -> -> E. unfold hash_block_tokens in E. apply (inj _) in E.
  pose proof (hash_nonempty x1). pose proof (hash_nonempty x2).
  repeat case_match; simplify_eq; done.
Qed.

(** Two chains from the same seed and the same start that meet at index [i]
    agree on every block up to [i]. *)
Lemma ref_chain_agree bs r1 r2 i n m p1 p2 start h :
  ref_chain bs r1 n p1 start !! i = Some h →
  ref_chain bs r2 m p2 start !! i = Some h →
  (∃ x1 x2, p1 = Some (hash_function x1) ∧ p2 = Some (hash_function x2)) ∨ p1 = p2 →
  p1 = p2 ∧ ∀ j, (j ≤ i)%nat →
    let s := start + Z.of_nat j * bs in
    py_slice (_all_token_ids r1) s (s + bs) = py_slice (_all_token_ids r2) s (s + bs) ∧
    ref_extra_keys r1 s (s + bs) = ref_extra_keys r2 s (s + bs).
Proof.
  revert n m p1 p2 start. induction i as [|i IH]; intros n m p1 p2 start H1 H2 Hp;
    destruct n as [|n], m as [|m]; try done; simpl in H1, H2.
  - injection H1 as H1. injection H2 as H2. rewrite <-H2 in H1.
    destruct Hp as [(x1 & x2 & -> & ->)| ->].
    + destruct (hash_block_tokens_inj _ _ _ _ _ _ _ _ eq_refl eq_refl H1)
        as (-> & Ht & Hk).
      split; [done|]. intros j Hj. assert (j = 0%nat) as -> by lia. simpl.
      by rewrite Z.add_0_r.
    + split; [done|]. unfold hash_block_tokens in H1. apply (inj _) in H1 as [= Ht Hk].
      intros j Hj. assert (j = 0%nat) as -> by lia. simpl. by rewrite Z.add_0_r.
  - destruct (IH _ _ _ _ _ H1 H2) as [Heq Hrest]; [left; unfold hash_block_tokens; eauto|].
    injection Heq as Heq.
    assert (p1 = p2 ∧ py_slice (_all_token_ids r1) start (start + bs)
                      = py_slice (_all_token_ids r2) start (start + bs)
            ∧ ref_extra_keys r1 start (start + bs) = ref_extra_keys r2 start (start + bs))
      as (-> & Ht & Hk).
    { destruct Hp as [(x1 & x2 & -> & ->)| ->].
      - by destruct (hash_block_tokens_inj _ _ _ _ _ _ _ _ eq_refl eq_refl Heq) as (-> & -> & ->).
      - unfold hash_block_tokens in Heq. by apply (inj _) in Heq as [= -> ->]. }
    split; [done|]. intros [|j] Hj; simpl.
    + by rewrite Z.add_0_r.
    + specialize (Hrest j). replace (start + Z.of_nat (S j) * bs)
        with (start + bs + Z.of_nat j * bs) by lia. apply Hrest. lia.
Qed.

(** Equal slices of consecutive blocks are equal prefixes. *)
Lemma slices_prefix (t1 t2 : list Z) bs n :
  0 < bs → Z.of_nat n * bs ≤ zlen t1 → Z.of_nat n * bs ≤ zlen t2 →
  (∀ j, (j < n)%nat →
    py_slice t1 (Z.of_nat j * bs) (Z.of_nat j * bs + bs)
    = py_slice t2 (Z.of_nat j * bs) (Z.of_nat j * bs + bs)) →
  take (n * Z.to_nat bs) t1 = take (n * Z.to_nat bs) t2.
Proof.
  intros Hbs. induction n as [|n IH]; intros H1 H2 Hs; [done|].
  unfold zlen in *. specialize (Hs n ltac:(lia)) as Hn.
  rewrite !py_slice_pos in Hn by lia.
  replace (S n * Z.to_nat bs)%nat with (n * Z.to_nat bs + Z.to_nat bs)%nat by lia.
  rewrite <-!take_take_drop. rewrite IH; [|lia|lia|intros; apply Hs; lia]. f_equal.
  replace (Z.of_nat n * bs + bs - Z.of_nat n * bs) with bs in Hn by lia.
  by replace (Z.to_nat (Z.of_nat n * bs)) with (n * Z.to_nat bs)%nat in Hn by lia.
Qed.
End soundness.

(** Requests as the engine makes them: built by the constructor, tokens appended. *)
Inductive made_request `{HashConfig} (bs : Z) : Request → Prop :=
  | made_new rid toks sp pp at_ embeds mms lora salt prio so res r :
      new_request rid toks sp pp at_ embeds mms lora salt prio so res (Some (request_block_hasher bs)) = Ok r → made_request bs r
  | made_append r t r' :
      made_request bs r → append_output_token_ids (Some (request_block_hasher bs)) t r = Ok r' → made_request bs r'.

(** The multi-modal items are in order, inside the prompt, and all but the last end within
    the full blocks of the prompt. *)
Definition items_placed (bs : Z) (r : Request) : Prop :=
  mm_sorted (mm_features r) ∧ Forall (λ f, mm_end f ≤ num_prompt_tokens r) (mm_features r) ∧
  (num_prompt_tokens r < bs ∨
   Forall (λ f, mm_end f ≤ num_prompt_tokens r / bs * bs) (take (length (mm_features r) - 1) (mm_features r))).

Section chains.
Context `{HashConfig}.

(** Each hash is that of its block of tokens, with some extra keys, after the hash
    before it. *)
Record chained (bs : Z) (toks : list Z) (hs : list bytes) : Prop := {
  cd_blocks : ∀ i h, hs !! i = Some h → ∃ keys,
    h = hash_block_tokens (match i with O => None | S j => hs !! j end) (py_slice toks (Z.of_nat i * bs) (Z.of_nat i * bs + bs)) keys;
  cd_full : zlen hs * bs ≤ zlen toks;
}.

Lemma generate_keys_memo r s e idx keys idx' r' :
  generate_block_hash_extra_keys r s e idx = Ok (keys, idx', r') → same_but_memo r r'.
Proof.
  unfold generate_block_hash_extra_keys, _gen_prompt_embeds_extra_hash_keys, mbind, result_bind. intros Hg.
  repeat case_match; simplify_eq; first [apply same_but_memo_refl|by destruct r].
Qed.

(** Whatever the keys, the loop continues the chain. *)
Lemma hasher_loop_chained fuel bs r start idx prev hs r' : 0 < bs →
  hasher_loop fuel bs r start idx prev = Ok (hs, r') → same_but_memo r r' ∧ (hs = [] ∨ start + zlen hs * bs ≤ num_tokens r) ∧
  ∀ i h, hs !! i = Some h → ∃ keys,
    h = hash_block_tokens (match i with O => prev | S j => hs !! j end)
          (py_slice (_all_token_ids r) (start + Z.of_nat i * bs) (start + Z.of_nat i * bs + bs)) keys.
Proof.
  intros Hbs. revert r start idx prev hs r'. induction fuel as [|fuel IH]; intros r start idx prev hs r' Hl; simpl in Hl.
  { injection Hl as <- <-. split; [apply same_but_memo_refl|]. by split; [left|]. }
  destruct (Z.ltb_spec (num_tokens r) (start + bs)) as [|Hge].
  { injection Hl as <- <-. split; [apply same_but_memo_refl|]. by split; [left|]. }
  unfold mbind, result_bind in Hl. destruct (generate_block_hash_extra_keys r start (start + bs) idx) as [[[keys idx'] r1]|] eqn:Eg; [|done].
  apply generate_keys_memo in Eg as Hr1. set (h0 := hash_block_tokens prev _ keys) in Hl.
  destruct (hasher_loop fuel bs r1 (start + bs) idx' (Some h0)) as [[hs1 r2]|] eqn:El; [|done]. injection Hl as <- <-.
  destruct (IH _ _ _ _ _ _ El) as (Hr2 & Hlen & Hc). split; [by eapply same_but_memo_trans|].
  assert (num_tokens r1 = num_tokens r ∧ _all_token_ids r1 = _all_token_ids r) as [Hn Ht] by (by rewrite Hr1). split.
  - right. rewrite zlen_cons. destruct Hlen as [->|Hlen]; [unfold zlen; simpl; lia|]. lia.
  - intros [|i] h Hi; simpl in Hi.
    + injection Hi as <-. exists keys. unfold h0. by rewrite Ht, Z.add_0_r.
    + destruct (Hc i h Hi) as [keys' ->]. exists keys'.
      replace (start + Z.of_nat (S i) * bs) with (start + bs + Z.of_nat i * bs) by lia. rewrite Ht. by destruct i.
Qed.

(** One call of the hasher, on a request that has new tokens at its end. *)
Lemma hasher_chained bs r t hs r' : 0 < bs → chained bs t (block_hashes r) → t `prefix_of` _all_token_ids r →
  request_block_hasher bs r = Ok (hs, r') → same_but_memo r r' ∧ chained bs (_all_token_ids r) (block_hashes r ++ hs).
Proof.
  intros Hbs [Hc Hf] [t' Ht] Hh. set (n := zlen (block_hashes r) * bs) in *.
  assert (Hlen : zlen (_all_token_ids r) = zlen t + zlen t') by (rewrite Ht; apply zlen_app). pose proof (zlen_nonneg t') as Ht'.
  assert (Hold : ∀ i h, block_hashes r !! i = Some h → ∃ keys,
    h = hash_block_tokens (match i with O => None | S j => block_hashes r !! j end)
          (py_slice (_all_token_ids r) (Z.of_nat i * bs) (Z.of_nat i * bs + bs)) keys).
  { intros i h Hi. destruct (Hc i h Hi) as [keys ->]. exists keys. f_equal. rewrite Ht, py_slice_app_l; [done|lia|lia|].
    apply lookup_lt_Some in Hi. unfold n, zlen in *. nia. }
  unfold request_block_hasher in Hh. fold n in Hh. destruct (Z.ltb_spec (num_tokens r) (n + bs)) as [|Hge].
  { injection Hh as <- <-. split; [apply same_but_memo_refl|]. rewrite app_nil_r. split; [done|]. fold n. lia. }
  destruct (hasher_loop_chained _ _ _ _ _ _ _ _ Hbs Hh) as (Hr & Hend & Hnew). split; [done|]. split.
  - intros i h [Hi|[Hi1 Hi2]]%lookup_app_Some.
    + destruct (Hold i h Hi) as [keys ->]. exists keys. f_equal. destruct i as [|i]; [done|].
      apply lookup_lt_Some in Hi. by rewrite lookup_app_l by lia.
    + destruct (Hnew _ _ Hi2) as [keys ->]. exists keys. set (m := length (block_hashes r)) in *. f_equal.
      * destruct (i - m)%nat as [|j] eqn:Ej.
        -- assert (i = m) as -> by lia. destruct m as [|m'] eqn:Em; [by destruct (block_hashes r)|].
           rewrite lookup_app_l by lia. rewrite last_lookup. unfold m in Em. by rewrite Em.
        -- destruct i as [|i]; [lia|]. rewrite lookup_app_r by (unfold m in *; lia). f_equal. lia.
      * assert (n + Z.of_nat (i - m) * bs = Z.of_nat i * bs) as -> by (unfold n, zlen; fold m; nia). done.
  - rewrite zlen_app. unfold num_tokens in *. destruct Hend as [->|Hend]; [|lia]. unfold zlen at 2. simpl. lia.
Qed.

Lemma made_chained bs r : 0 < bs → made_request bs r → chained bs (_all_token_ids r) (block_hashes r).
Proof.
  intros Hbs. induction 1 as [rid toks sp pp at_ embeds mms lora salt prio so res r Hn|r t r' _ IH Ha].
  - unfold new_request in Hn. set (st := match pp with Some _ => _ | None => _ end) in Hn. destruct st as [[st0 mt]|]; [|done]. munfold.
    destruct (length_from_prompt_token_ids_or_embeds toks embeds) as [n|]; [|done]. unfold update_block_hashes in Hn.
    match type of Hn with context [request_block_hasher bs ?r0] => set (r1 := r0) in * end.
    destruct (request_block_hasher bs r1) as [[hs r2]|] eqn:E; [|done]. simpl in Hn. injection Hn as <-.
    destruct (hasher_chained bs r1 [] hs r2 Hbs) as [Hr Hc]; [by split|apply prefix_nil|done|]. simpl in *. rewrite Hr. exact Hc.
  - unfold append_output_token_ids, update_block_hashes in Ha. set (r1 := req_set_all_token_ids _ _) in *.
    munfold. destruct (request_block_hasher bs r1) as [[hs r2]|] eqn:E; [|done]. simpl in Ha. injection Ha as <-.
    destruct (hasher_chained bs r1 (_all_token_ids r) hs r2 Hbs IH) as [Hr Hc]; [by exists t|done|]. simpl in *. rewrite Hr. exact Hc.
Qed.

(** Where the items are placed so, the hashes are those from scratch. *)
Lemma made_placed bs r : 0 < bs → made_request bs r → items_placed bs r → hash_inv bs r.
Proof.
  intros Hbs. induction 1 as [rid toks sp pp at_ embeds mms lora salt prio so res r Hn|r t r' _ IH Ha]; intros (H1 & H2 & H3).
  - assert (mm_features r = mms) as Em.
    { unfold new_request, update_block_hashes in Hn. munfold. set (st := match pp with Some _ => _ | None => _ end) in Hn.
      destruct st as [[st0 mt]|]; [|done]. destruct (length_from_prompt_token_ids_or_embeds toks embeds) as [n|]; [|done].
      match type of Hn with context [request_block_hasher bs ?r0] => set (r1 := r0) in * end.
      destruct (request_block_hasher bs r1) as [[hs r2]|] eqn:E; [|done]. simpl in Hn. injection Hn as <-.
      destruct (hasher_chained bs r1 [] hs r2 Hbs) as [Hr _]; [by split|apply prefix_nil|done|]. simpl. by rewrite Hr. }
    rewrite Em in *. by eapply new_request_hash_inv.
  - assert (mm_features r' = mm_features r ∧ num_prompt_tokens r' = num_prompt_tokens r) as [Em En].
    { unfold append_output_token_ids, update_block_hashes in Ha. set (r1 := req_set_all_token_ids _ _) in *. munfold.
      destruct (request_block_hasher bs r1) as [[hs r2]|] eqn:E; [|done]. simpl in Ha. injection Ha as <-.
      unfold request_block_hasher in E. destruct (num_tokens r1 <? _); [by injection E as _ <-|].
      destruct (hasher_loop_chained _ _ _ _ _ _ _ _ Hbs E) as [Hr _]. simpl. by rewrite Hr. }
    unfold items_placed in IH. rewrite Em, En in *.
    destruct (append_keeps_hash_inv bs t r Hbs) as (r2 & E & Hi & _); [by apply IH|]. congruence.
Qed.

Context (hash_inj : Inj (=) (=) hash_function) (hash_nonempty : ∀ x, hash_function x ≠ []).

(** Chains that meet agree before. *)
Lemma chained_agree bs t1 t2 hs1 hs2 i h : chained bs t1 hs1 → chained bs t2 hs2 → hs1 !! i = Some h → hs2 !! i = Some h →
  ∀ j, (j ≤ i)%nat → py_slice t1 (Z.of_nat j * bs) (Z.of_nat j * bs + bs) = py_slice t2 (Z.of_nat j * bs) (Z.of_nat j * bs + bs).
Proof.
  intros C1 C2. revert h. induction i as [|i IH]; intros h H1 H2 j Hj;
    destruct (cd_blocks _ _ _ C1 _ _ H1) as [k1 E1], (cd_blocks _ _ _ C2 _ _ H2) as [k2 E2].
  - assert (j = 0%nat) as -> by lia. rewrite E1 in E2. unfold hash_block_tokens in E2. apply (inj _) in E2. by injection E2.
  - destruct (lookup_lt_is_Some_2 hs1 i) as [h1 L1]; [apply lookup_lt_Some in H1; lia|].
    destruct (lookup_lt_is_Some_2 hs2 i) as [h2 L2]; [apply lookup_lt_Some in H2; lia|]. rewrite L1 in E1. rewrite L2 in E2.
    destruct (cd_blocks _ _ _ C1 _ _ L1) as [k1' F1], (cd_blocks _ _ _ C2 _ _ L2) as [k2' F2]. rewrite E1 in E2.
    unfold hash_block_tokens in F1, F2.
    destruct (hash_block_tokens_inj hash_inj hash_nonempty _ _ _ _ _ _ _ _ F1 F2 E2) as (Eh & Et & _).
    destruct (decide (j = S i)) as [->|]; [done|]. apply (IH h1); [done|by rewrite L2, Eh|lia].
Qed.
End chains.

(** C4. Equal block hashes mean equal prefixes: for a collision-free hash function, if
    the hashers of two requests (any prompt, adapter, salt, embeddings and multi-modal
    items, any tokens appended) give their [i]-th blocks one hash, their tokens agree on
    the whole prefix up to and including that block. If moreover the items of both are
    placed as in the statement of incremental hashing, every block of the prefix has
    the same extra keys: adapter, items with their offsets, salt and embeddings. *)
Theorem equal_block_hash_equal_prefix `{HashConfig} bs (r1 r2 : Request) (i : nat) (h : bytes) :
  Inj (=) (=) hash_function → (∀ x, hash_function x ≠ []) → 0 < bs →
  made_request bs r1 → made_request bs r2 → block_hashes r1 !! i = Some h → block_hashes r2 !! i = Some h →
  take (S i * Z.to_nat bs) (_all_token_ids r1) = take (S i * Z.to_nat bs) (_all_token_ids r2) ∧
  (items_placed bs r1 → items_placed bs r2 → ∀ j, (j ≤ i)%nat →
    ref_extra_keys r1 (Z.of_nat j * bs) (Z.of_nat j * bs + bs)
    = ref_extra_keys r2 (Z.of_nat j * bs) (Z.of_nat j * bs + bs)).
Proof.
  intros Hinj Hne Hbs R1 R2 H1 H2. split.
  - pose proof (made_chained _ _ Hbs R1) as C1. pose proof (made_chained _ _ Hbs R2) as C2.
    assert (∀ t hs, chained bs t hs → hs !! i = Some h → Z.of_nat (S i) * bs ≤ zlen t) as Hlen.
    { intros t hs [_ Hf] Hi%lookup_lt_Some. unfold zlen in *. nia. }
    apply slices_prefix; [done|by eapply Hlen..|]. intros j Hj. eapply (chained_agree Hinj Hne); [done..|]. lia.
  - intros I1 I2. rewrite (hi_hashes _ _ (made_placed _ _ Hbs R1 I1)) in H1. rewrite (hi_hashes _ _ (made_placed _ _ Hbs R2 I2)) in H2.
    unfold ref_hashes in *. destruct (ref_chain_agree Hinj Hne _ _ _ _ _ _ _ _ _ _ H1 H2) as [_ Hag]; [by right|].
    intros j Hj. by apply Hag.
Qed.

(** ** A concrete collision-free hash for evaluation *)

#[global] Program Instance extra_key_countable : Countable extra_key :=
  inj_countable'
    (λ k, match k with
          | KStr s => inl s | KMM i o => inr (inl (i, o)) | KBytes b => inr (inr b) end)
    (λ x, match x with
          | inl s => KStr s | inr (inl (i, o)) => KMM i o | inr (inr b) => KBytes b end) _.
Next Obligation. by intros []. Qed.

Fixpoint pos_bytes (p : positive) : bytes :=
  match p with
  | xH => [x01] | xO p => x02 :: pos_bytes p | xI p => x03 :: pos_bytes p
  end.
#[global] Instance pos_bytes_inj : Inj (=) (=) pos_bytes.
Proof.
  intros p. induction p as [p IH|p IH|]; intros [q|q|] E; simpl in E; simplify_eq;
    try by (f_equal; apply IH); done.
Qed.

Definition demo_hash : HashConfig := {|
  hash_function := λ x, pos_bytes (encode x);
  NONE_HASH := [x00];
  sha256 := λ x, pos_bytes (encode x)
|}.

Definition demo_sampling : SamplingParams := mkSamplingParams (Some 16) 0 None [] None None.
Definition demo_mm (id : string) (off len : Z) : MultiModalFeatureSpec :=
  mkMultiModalFeatureSpec id (mkPlaceholderRange off len None).
Definition demo_new (mms : list MultiModalFeatureSpec) (lora : option LoRARequest)
    (salt : option string) (prompt : list Z) (bs : Z) : result Request :=
  @new_request "r" (Some prompt) (Some demo_sampling) None 0 None mms lora salt 0 false false
    (Some (@request_block_hasher demo_hash bs)).

Lemma incremental_hashes_witness :
  ∃ r r' : Request,
    demo_new [demo_mm "a" 0 2; demo_mm "b" 4 1] None (Some "s"%string) [1;2;3;4;5] 2 = Ok r
    ∧ @append_batches demo_hash 2 [[6]; [7; 8; 9]] r = Ok r'
    ∧ block_hashes r' = @ref_hashes demo_hash 2 r'
    ∧ _all_token_ids r' = _all_token_ids r ++ [6; 7; 8; 9].
Proof.
  destruct (demo_new [demo_mm "a" 0 2; demo_mm "b" 4 1] None (Some "s"%string) [1;2;3;4;5] 2)
    as [r|] eqn:E; [|by vm_compute in E].
  assert (Hn : num_prompt_tokens r = 5) by (by vm_compute in E; simplify_eq).
  destruct (@incremental_hashes_from_scratch demo_hash "r"%string (Some [1;2;3;4;5])
    (Some demo_sampling) None 0 None [demo_mm "a" 0 2; demo_mm "b" 4 1] None
    (Some "s"%string) 0 false false 2 r [[6]; [7; 8; 9]] eq_refl) as (r' & ? & ? & ?); [| exact E | | |].
  - split; repeat constructor; vm_compute; done.
  - rewrite Hn. repeat constructor; vm_compute; done.
  - right. rewrite Hn. repeat constructor; vm_compute; done.
  - by exists r, r'.
Defined.

Lemma equal_block_hash_witness :
  ∃ r1 r2 : Request,
    demo_new [demo_mm "a" 0 2] None None [1;2;3;4;5] 2 = Ok r1 ∧ demo_new [demo_mm "a" 0 2] None None [1;2;3;4;7] 2 = Ok r2
    ∧ take 4 (_all_token_ids r1) = take 4 (_all_token_ids r2).
Proof.
  destruct (demo_new [demo_mm "a" 0 2] None None [1;2;3;4;5] 2) as [r1|] eqn:E1; [|by vm_compute in E1].
  destruct (demo_new [demo_mm "a" 0 2] None None [1;2;3;4;7] 2) as [r2|] eqn:E2; [|by vm_compute in E2].
  exists r1, r2. split; [done|]. split; [done|].
  destruct (@equal_block_hash_equal_prefix demo_hash 2 r1 r2 1 (default [] (block_hashes r1 !! 1%nat))) as [Ht _]; [..|exact Ht].
  - intros x y Hxy. cbn [hash_function demo_hash] in Hxy. by do 2 apply (inj _) in Hxy.
  - intros x. cbn [hash_function demo_hash]. by destruct (encode x).
  - done.
  - eapply (@made_new demo_hash). exact E1.
  - eapply (@made_new demo_hash). exact E2.
  - vm_compute in E1. simplify_eq. by vm_compute.
  - vm_compute in E1, E2. simplify_eq. by vm_compute.
Defined.

(** ** Where distinct inputs share a key *)

(** A block completed by generated tokens is keyed by the last multi-modal
    item only: two requests whose prompts end with a partial block holding two
    items, and which differ in the first of them, get identical block hashes once
    that block fills up, although hashing the same tokens from scratch keys the
    block by both items. *)
Theorem tail_block_hash_ignores_earlier_items `{HashConfig} (a a' b : string) (prompt gen : list Z) :
  length prompt = 7%nat → length gen = 1%nat →
  let req x := new_request "r" (Some prompt) (Some demo_sampling) None 0 None
                 [demo_mm x 4 1; demo_mm b 5 1] None None 0 false false
                 (Some (request_block_hasher 4)) in
  ∃ r1 r2 r1' r2',
    req a = Ok r1 ∧ req a' = Ok r2 ∧
    append_batches 4 [gen] r1 = Ok r1' ∧ append_batches 4 [gen] r2 = Ok r2' ∧
    block_hashes r1' = block_hashes r2' ∧ length (block_hashes r1') = 2%nat ∧
    ref_extra_keys r1' 4 8 = Some [KMM a 0; KMM b 1] ∧
    ref_extra_keys r2' 4 8 = Some [KMM a' 0; KMM b 1].
Proof.
  intros Hp Hg. repeat (destruct prompt as [|? prompt]; [done|]). destruct prompt; [|done].
  destruct gen as [|g [|??]]; [done| |done]. do 4 eexists.
  split; [reflexivity|]. split; [reflexivity|]. split; [reflexivity|]. split; [reflexivity|].
  split; [reflexivity|]. split; [reflexivity|]. split; reflexivity.
Qed.

Lemma tail_block_hash_witness :
  ∃ r1 r2 r1' r2',
    demo_new [demo_mm "cat" 4 1; demo_mm "x" 5 1] None None [1;2;3;4;0;0;5] 4 = Ok r1 ∧
    demo_new [demo_mm "dog" 4 1; demo_mm "x" 5 1] None None [1;2;3;4;0;0;5] 4 = Ok r2 ∧
    @append_batches demo_hash 4 [[9]] r1 = Ok r1' ∧ @append_batches demo_hash 4 [[9]] r2 = Ok r2' ∧
    block_hashes r1' = block_hashes r2' ∧ length (block_hashes r1') = 2%nat ∧
    @ref_extra_keys demo_hash r1' 4 8 = Some [KMM "cat" 0; KMM "x" 1] ∧
    @ref_extra_keys demo_hash r2' 4 8 = Some [KMM "dog" 0; KMM "x" 1].
Proof.
  apply (@tail_block_hash_ignores_earlier_items demo_hash "cat" "dog" "x" [1;2;3;4;0;0;5] [9]);
    reflexivity.
Defined.


