(* ===== verification/BlockPool.v ===== *)
(** * The block pool

    Models [vllm/v1/core/block_pool.py]: [BlockHashToBlockMap], the prefix-cache
    index from keys to blocks, and [BlockPool], which allocates, shares, frees,
    caches and evicts KV-cache blocks. The block objects live in the heap of the
    free-block queue. The optional metrics collector is the log of the calls made
    to it. *)

From Stdlib Require Import ZArith Lia QArith.
From S2P Require Import Prelude FreeQueue Request BlockHash.
Local Open Scope Z_scope.

(** ** [BlockHashToBlockMap] *)

(** A value of the cache dict: one block, or a dict from block ids to blocks in
    insertion order. *)
Inductive cached_blocks :=
  | OneBlock (b : loc)
  | ManyBlocks (d : list (Z * loc)).

Abbreviation block_map := (gmap bytes cached_blocks).

(** [next(iter(blocks.values()))] raises [StopIteration] on an empty dict. *)
Definition get_one_block (m : block_map) (key : bytes) : result (option loc) :=
  match m !! key with
  | None => Ok None
  | Some (OneBlock b) => Ok (Some b)
  | Some (ManyBlocks d) =>
      match d with [] => Err StopIteration | (_, b) :: _ => Ok (Some b) end
  end.

Definition map_insert (h : heap) (m : block_map) (key : bytes) (block : loc) : block_map :=
  match m !! key with
  | None => <[key := OneBlock block]> m
  | Some (OneBlock b) =>
      <[key := ManyBlocks (dict_set (dict_set [] (block_id (h b)) b) (block_id (h block)) block)]> m
  | Some (ManyBlocks d) =>
      <[key := ManyBlocks (dict_set d (block_id (h block)) block)]> m
  end.

Definition map_pop (h : heap) (m : block_map) (key : bytes) (id : Z) : option loc * block_map :=
  match m !! key with
  | None => (None, m)
  | Some (OneBlock b) =>
      if block_id (h b) =? id then (Some b, delete key m) else (None, m)
  | Some (ManyBlocks d) =>
      let d' := dict_del d id in
      (dict_get d id,
       if bool_decide (d' = []) then delete key m else <[key := ManyBlocks d']> m)
  end.

(** ** [BlockPool] *)

(** [vllm.distributed.kv_events]; the medium is always [MEDIUM_GPU] here. *)
Inductive KVCacheEvent :=
  | BlockStored (ev_block_hashes : list ExternalBlockHash)
      (ev_parent : option ExternalBlockHash) (ev_token_ids : list Z) (ev_block_size : Z)
      (ev_lora_id : option Z) (ev_lora_name : option string)
      (ev_extra_keys : option (list (option (list extra_key)))) (ev_group_idx : Z)
  | BlockRemoved (ev_block_hashes : list ExternalBlockHash) (ev_group_idx : Z)
  | AllBlocksCleared.

Inductive metrics_call :=
  | on_block_allocated (id : Z)
  | on_block_accessed (id : Z)
  | on_block_evicted (id : Z)
  | metrics_reset.

Record BlockPool := mkBlockPool {
  num_gpu_blocks : Z;
  enable_caching : bool;
  hash_block_size : Z;
  bp_blocks : list loc;
  free_block_queue : FreeKVCacheBlockQueue;
  cached_block_hash_to_block : gmap bytes cached_blocks;
  null_block : loc;
  enable_kv_cache_events : bool;
  use_int_block_hashes : bool;
  kv_event_queue : list KVCacheEvent;
  metrics_collector : option (list metrics_call)
}.

Definition bp_set_free_block_queue (v : FreeKVCacheBlockQueue) (r : BlockPool) : BlockPool :=
  mkBlockPool (num_gpu_blocks r) (enable_caching r) (hash_block_size r) (bp_blocks r) v
    (cached_block_hash_to_block r) (null_block r) (enable_kv_cache_events r)
    (use_int_block_hashes r) (kv_event_queue r) (metrics_collector r).
Definition bp_set_cached_block_hash_to_block (v : gmap bytes cached_blocks) (r : BlockPool) : BlockPool :=
  mkBlockPool (num_gpu_blocks r) (enable_caching r) (hash_block_size r) (bp_blocks r)
    (free_block_queue r) v (null_block r) (enable_kv_cache_events r) (use_int_block_hashes
    r) (kv_event_queue r) (metrics_collector r).
Definition bp_set_kv_event_queue (v : list KVCacheEvent) (r : BlockPool) : BlockPool :=
  mkBlockPool (num_gpu_blocks r) (enable_caching r) (hash_block_size r) (bp_blocks r)
    (free_block_queue r) (cached_block_hash_to_block r) (null_block r)
    (enable_kv_cache_events r) (use_int_block_hashes r) v (metrics_collector r).
Definition bp_set_metrics_collector (v : option (list metrics_call)) (r : BlockPool) : BlockPool :=
  mkBlockPool (num_gpu_blocks r) (enable_caching r) (hash_block_size r) (bp_blocks r)
    (free_block_queue r) (cached_block_hash_to_block r) (null_block r)
    (enable_kv_cache_events r) (use_int_block_hashes r) (kv_event_queue r) v.

Abbreviation P := (M BlockPool).

Definition pool_heap (p : BlockPool) : heap := q_heap (free_block_queue p).
Definition onq {A} (m : M FQ A) : P A := zoom free_block_queue bp_set_free_block_queue m.
Definition blk (x : loc) : P KVCacheBlock := gets (λ p, pool_heap p x).
Definition upd_blk (x : loc) (f : KVCacheBlock → KVCacheBlock) : P unit := onq (upd x f).
(** [if self.metrics_collector: self.metrics_collector.call(...)] *)
Definition metrics (c : metrics_call) : P unit :=
  modify (λ p, bp_set_metrics_collector ((λ l, l ++ [c]) <$> metrics_collector p) p).
Definition emit (e : KVCacheEvent) : P unit :=
  modify (λ p, if enable_kv_cache_events p
               then bp_set_kv_event_queue (kv_event_queue p ++ [e]) p else p).

(** [__init__]; the heap starts with the fresh blocks [KVCacheBlock(idx)]. *)
Definition new_block_pool (num_gpu_blocks : Z) (enable_caching : bool) (hash_block_size : Z)
    (enable_kv_cache_events use_int : bool) (metrics_on : bool) : result BlockPool :=
  if negb (0 <? num_gpu_blocks) then Err AssertionError
  else
    let blocks := Block <$> seq 0 (Z.to_nat num_gpu_blocks) in
    '(_, q) ← init blocks (mkQueue fresh_heap 0);
    '(null, q) ← popleft q;
    '(_, q) ← upd null (with_is_null true) q;
    Ok (mkBlockPool num_gpu_blocks enable_caching hash_block_size blocks q ∅ null
          enable_kv_cache_events use_int [] (if metrics_on then Some [] else None)).

Definition get_num_free_blocks (p : BlockPool) : Z := num_free_blocks (free_block_queue p).

Fixpoint get_cached_block (p : BlockPool) (block_hash : bytes) (kv_cache_group_ids : list Z)
    : result (option (list loc)) :=
  match kv_cache_group_ids with
  | [] => Ok (Some [])
  | group_id :: ids =>
      key ← make_block_hash_with_group_id block_hash group_id;
      b ← get_one_block (cached_block_hash_to_block p) key;
      match b with
      | None => Ok None
      | Some block =>
          rest ← get_cached_block p block_hash ids;
          Ok (match rest with Some bs => Some (block :: bs) | None => None end)
      end
  end.

Definition _maybe_evict_cached_block (block : loc) : P bool :=
  b ← blk block;
  _ ← metrics (on_block_evicted (block_id b));
  match _block_hash b with
  | None => mret false
  | Some block_hash =>
      p ← get;
      match map_pop (pool_heap p) (cached_block_hash_to_block p) block_hash (block_id b) with
      | (None, m) => _ ← modify (bp_set_cached_block_hash_to_block m); mret false
      | (Some _, m) =>
          _ ← modify (bp_set_cached_block_hash_to_block m);
          _ ← onq (reset_hash block);
          _ ← emit (BlockRemoved
                      [maybe_convert_block_hash (use_int_block_hashes p) (get_block_hash block_hash)]
                      (get_group_id block_hash));
          mret true
      end
  end.

(** The body of the loops of [get_new_blocks]. *)
Definition allocate_one (evict : bool) (block : loc) : P unit :=
  _ ← (if evict then _ ← _maybe_evict_cached_block block; mret tt else mret tt);
  b ← blk block;
  _ ← py_assert (ref_cnt b =? 0);
  _ ← upd_blk block (with_ref_cnt (ref_cnt b + 1));
  metrics (on_block_allocated (block_id b)).

Definition get_new_blocks (num_blocks : Z) : P (list loc) :=
  free ← gets get_num_free_blocks;
  if free <? num_blocks then raise ValueError
  else
    ret ← onq (popleft_n num_blocks);
    evict ← gets enable_caching;
    _ ← forM ret (allocate_one evict);
    mret ret.

Definition touch_one (block : loc) : P unit :=
  b ← blk block;
  _ ← (if (ref_cnt b =? 0) && negb (is_null b) then onq (remove block) else mret tt);
  _ ← upd_blk block (λ b, with_ref_cnt (ref_cnt b + 1) b);
  metrics (on_block_accessed (block_id b)).

Definition touch (blocks : list loc) : P unit := forM blocks touch_one.

Definition free_blocks (ordered_blocks : list loc) (prepend : bool) : P unit :=
  _ ← forM ordered_blocks (λ block, upd_blk block (λ b, with_ref_cnt (ref_cnt b - 1) b));
  h ← gets pool_heap;
  let freed_blocks := filter (λ block, ref_cnt (h block) = 0 ∧ is_null (h block) = false)
                        ordered_blocks in
  if prepend then onq (prepend_n freed_blocks) else onq (append_n freed_blocks).

(** [block_ids] enumerates the set in Python's iteration order. *)
Definition evict_blocks (block_ids : list Z) : P unit :=
  forM block_ids (λ block_id,
    blocks ← gets bp_blocks;
    _ ← py_assert (block_id <? zlen blocks);
    block ← lift_result (py_index blocks block_id);
    _ ← _maybe_evict_cached_block block;
    mret tt).

Definition reset_prefix_cache : P bool :=
  p ← get;
  let num_used_blocks := num_gpu_blocks p - get_num_free_blocks p in
  if negb (num_used_blocks =? 1) then mret false
  else
    _ ← modify (bp_set_cached_block_hash_to_block ∅);
    _ ← forM (bp_blocks p) (λ block, onq (reset_hash block));
    _ ← metrics metrics_reset;
    _ ← emit AllBlocksCleared;
    mret true.

(** The KV-cache usage; the float division is exact here. *)
Definition get_usage (p : BlockPool) : Q :=
  let total_gpu_blocks := num_gpu_blocks p - 1 in
  if total_gpu_blocks =? 0 then 0%Q
  else (1 - inject_Z (get_num_free_blocks p) / inject_Z total_gpu_blocks)%Q.

(** [BlockPool.take_events] *)
Definition pool_take_events : P (list KVCacheEvent) :=
  p ← get;
  if negb (enable_kv_cache_events p) then mret []
  else _ ← put (bp_set_kv_event_queue [] p); mret (kv_event_queue p).

(** ** Caching full blocks *)

(** [BlockHashList = list[BlockHash] | BlockHashListWithBlockSize] *)
Inductive BlockHashList :=
  | HashList (l : list bytes)
  | ScaledHashList (l : BlockHashListWithBlockSize).

Definition bh_from (l : BlockHashList) (a : Z) : list bytes :=
  match l with HashList l => py_from l a | ScaledHashList l => bhl_from l a end.
Definition bh_index (l : BlockHashList) (i : Z) : result bytes :=
  match l with HashList l => py_index l i | ScaledHashList l => Ok (_get_value_at l i) end.

Section caching.
Context `{HashConfig}.

(** [blk.is_null or (block_mask is not None and not block_mask[i])] *)
Definition skip_block (h : heap) (block_mask : option (list bool)) (i : nat) (b : loc) : bool :=
  is_null (h b) || match block_mask with Some m => negb (default false (m !! i)) | None => false end.

(** The loop of [cache_full_blocks] over [new_full_blocks] from index [i];
    returns the hashes reported in the event. *)
Fixpoint cache_loop (kv_cache_group_id : Z) (block_mask : option (list bool))
    (new_block_hashes : list bytes) (i : nat) (blocks : list loc) : P (list ExternalBlockHash) :=
  match blocks with
  | [] => mret []
  | b :: blocks =>
      p ← get;
      if skip_block (pool_heap p) block_mask i b
      then cache_loop kv_cache_group_id block_mask new_block_hashes (S i) blocks
      else
        _ ← py_assert (bool_decide (_block_hash (pool_heap p b) = None));
        block_hash ← lift_result (py_index new_block_hashes (Z.of_nat i));
        key ← lift_result (make_block_hash_with_group_id block_hash kv_cache_group_id);
        _ ← onq (set_block_hash b key);
        _ ← modify (λ p, bp_set_cached_block_hash_to_block
                     (map_insert (pool_heap p) (cached_block_hash_to_block p) key b) p);
        rest ← cache_loop kv_cache_group_id block_mask new_block_hashes (S i) blocks;
        mret (maybe_convert_block_hash (use_int_block_hashes p) block_hash :: rest)
  end.

(** The loop that collects the extra keys of the reported blocks. *)
Fixpoint extra_keys_loop (h : heap) (r : Request) (block_mask : option (list bool))
    (block_size num_cached_blocks : Z) (i : nat) (blocks : list loc) (curr_mm_idx : Z)
    : result (list (option (list extra_key))) :=
  match blocks with
  | [] => Ok []
  | b :: blocks =>
      if skip_block h block_mask i b
      then extra_keys_loop h r block_mask block_size num_cached_blocks (S i) blocks curr_mm_idx
      else
        let block_start := (num_cached_blocks + Z.of_nat i) * block_size in
        '(ek, curr_mm_idx, r) ←
          generate_block_hash_extra_keys r block_start (block_start + block_size) curr_mm_idx;
        rest ← extra_keys_loop h r block_mask block_size num_cached_blocks (S i) blocks curr_mm_idx;
        Ok (ek :: rest)
  end.

Definition cache_full_blocks (r : Request) (blocks : list loc)
    (num_cached_blocks num_full_blocks block_size kv_cache_group_id : Z)
    (block_mask : option (list bool)) : P unit :=
  if num_full_blocks <=? num_cached_blocks then mret tt
  else
    let new_full_blocks := py_slice blocks num_cached_blocks num_full_blocks in
    _ ← py_assert (num_full_blocks <=? zlen (block_hashes r));
    _ ← py_assert (match block_mask with
                   | None => true
                   | Some m => bool_decide (length m = length new_full_blocks) end);
    p ← get;
    bh ← (if block_size =? hash_block_size p then mret (HashList (block_hashes r))
          else l ← lift_result (new_bhl (block_hashes r) (hash_block_size p) block_size);
               mret (ScaledHashList l));
    new_hashes ← cache_loop kv_cache_group_id block_mask (bh_from bh num_cached_blocks)
                   0 new_full_blocks;
    if enable_kv_cache_events p then
      parent ← (if num_cached_blocks =? 0 then mret None
                else h ← lift_result (bh_index bh (num_cached_blocks - 1));
                     mret (Some (maybe_convert_block_hash (use_int_block_hashes p) h)));
      (* [blocks[i]] for [i] in [range(num_cached_blocks, num_full_blocks)] *)
      _ ← (if zlen blocks <? num_full_blocks then raise IndexError else mret tt);
      h ← gets pool_heap;
      eks ← lift_result (extra_keys_loop h r block_mask block_size num_cached_blocks 0
                           new_full_blocks 0);
      emit (BlockStored new_hashes parent
              (py_slice (_all_token_ids r) (num_cached_blocks * block_size)
                 (num_full_blocks * block_size))
              block_size (lora_int_id <$> lora_request r) (lora_name <$> lora_request r)
              (if bool_decide (eks = []) then None else Some eks) kv_cache_group_id)
    else mret tt.
End caching.

(** ** The prefix-cache index *)

(** The blocks stored under a key, in the order [get_one_block] prefers them. *)
Definition members (m : block_map) (key : bytes) : list loc :=
  match m !! key with
  | None => []
  | Some (OneBlock b) => [b]
  | Some (ManyBlocks d) => d.*2
  end.

Definition entry_wf (h : heap) (c : cached_blocks) : Prop :=
  match c with
  | OneBlock _ => True
  | ManyBlocks d => d ≠ [] ∧ NoDup d.*1 ∧ Forall (λ kb, fst kb = block_id (h (snd kb))) d
  end.

Definition map_wf (h : heap) (m : block_map) : Prop := map_Forall (λ _ c, entry_wf h c) m.

Lemma map_wf_ids h h' m :
  (∀ x, block_id (h' x) = block_id (h x)) → map_wf h m → map_wf h' m.
Proof.
  intros Hid Hm key c Hc. specialize (Hm key c Hc). destruct c as [|d]; [done|].
  destruct Hm as (? & ? & Hf). split_and!; [done..|].
  eapply Forall_impl; [exact Hf|]. intros [k b]. simpl. by rewrite Hid.
Qed.

Lemma get_one_block_members h m key :
  map_wf h m → get_one_block m key = Ok (head (members m key)).
Proof.
  intros Hm. unfold get_one_block, members.
  destruct (m !! key) as [[b|d]|] eqn:E; [done| |done].
  destruct (Hm _ _ E) as (Hd & _). by destruct d as [|[]].
Qed.

Lemma dict_set_fresh {K V} `{EqDecision K} (d : list (K * V)) k v :
  k ∉ d.*1 → dict_set d k v = d ++ [(k, v)].
Proof.
  induction d as [|[k' v'] d IH]; simpl; [done|]. intros [??]%not_elem_of_cons.
  rewrite decide_False by done. by rewrite IH.
Qed.

Lemma dict_del_split {K V} `{EqDecision K} (d1 d2 : list (K * V)) k v :
  k ∉ d1.*1 → dict_del (d1 ++ (k, v) :: d2) k = d1 ++ d2 ∧ dict_get (d1 ++ (k, v) :: d2) k = Some v.
Proof.
  induction d1 as [|[k' v'] d1 IH]; simpl; [by rewrite !decide_True|].
  intros [??]%not_elem_of_cons. rewrite !decide_False by done.
  destruct IH as [-> ->]; done.
Qed.

Lemma dict_del_fresh {K V} `{EqDecision K} (d : list (K * V)) k :
  k ∉ d.*1 → dict_del d k = d ∧ dict_get d k = None.
Proof.
  induction d as [|[k' v'] d IH]; simpl; [done|]. intros [??]%not_elem_of_cons.
  rewrite !decide_False by done. by destruct IH as [-> ->].
Qed.

(** The ids in an entry's dict are those of the blocks stored in it. *)
Lemma entry_ids h (d : list (Z * loc)) :
  Forall (λ kb, fst kb = block_id (h (snd kb))) d → d.*1 = (λ b, block_id (h b)) <$> d.*2.
Proof. induction 1 as [|[k b] d Hk _ IH]; csimpl in *; [done|]. f_equal; [apply Hk|apply IH]. Qed.

Lemma members_nodup h m key : map_wf h m → NoDup (members m key).
Proof.
  intros Hm. unfold members. destruct (m !! key) as [[b|d]|] eqn:E;
    [apply NoDup_singleton| |apply NoDup_nil_2].
  destruct (Hm _ _ E) as (_ & Hnd & Hf). rewrite (entry_ids h d Hf) in Hnd.
  by eapply NoDup_fmap_1.
Qed.

(** Storing a block whose id is not under the key yet appends it. *)
Lemma map_insert_spec h m key b :
  map_wf h m → block_id (h b) ∉ (λ x, block_id (h x)) <$> members m key →
  map_wf h (map_insert h m key b) ∧
  members (map_insert h m key b) key = members m key ++ [b] ∧
  ∀ key', key' ≠ key → members (map_insert h m key b) key' = members m key'.
Proof.
  intros Hm Hb.
  assert (∃ c, map_insert h m key b = <[key := c]> m ∧ entry_wf h c ∧
    (match c with OneBlock x => [x] | ManyBlocks d => d.*2 end) = members m key ++ [b])
    as (c & -> & Hc & Hmem).
  { unfold map_insert, members in *. destruct (m !! key) as [[x|d]|] eqn:E; simpl in *.
    - rewrite decide_False by set_solver. eexists. split; [done|].
      split; [|done]. split_and!; [done| |by repeat constructor].
      repeat constructor; set_solver.
    - destruct (Hm _ _ E) as (Hd & Hnd & Hf). rewrite <-(entry_ids h d Hf) in Hb.
      rewrite (dict_set_fresh d (block_id (h b)) b Hb). eexists. split; [done|]. simpl.
      rewrite !fmap_app. split; [|done]. split_and!.
      + by destruct d.
      + apply NoDup_app. split; [done|]. split; [set_solver|apply NoDup_singleton].
      + apply Forall_app. by split; [|repeat constructor].
    - eexists. split; [done|]. done. }
  split; [|split].
  - by apply map_Forall_insert_2.
  - unfold members at 1. by rewrite lookup_insert_eq.
  - intros key' Hne. unfold members. by rewrite lookup_insert_ne.
Qed.

(** Popping a stored block removes exactly that block. *)
Lemma map_pop_spec h m key l1 b l2 :
  map_wf h m → members m key = l1 ++ b :: l2 →
  ∃ m', map_pop h m key (block_id (h b)) = (Some b, m') ∧ map_wf h m' ∧
    members m' key = l1 ++ l2 ∧ ∀ key', key' ≠ key → members m' key' = members m key'.
Proof.
  intros Hm Hmem. unfold map_pop, members in Hmem |- *.
  destruct (m !! key) as [[x|d]|] eqn:E; simpl in *.
  - destruct l1 as [|? [|]]; simplify_eq/=. rewrite Z.eqb_refl.
    eexists. split; [done|]. split_and!.
    + by apply map_Forall_delete.
    + by rewrite lookup_delete_eq.
    + intros key' Hne. by rewrite lookup_delete_ne.
  - destruct (Hm _ _ E) as (Hd & Hnd & Hf).
    apply fmap_app_inv in Hmem as (d1 & d2 & -> & Hd2 & ->).
    symmetry in Hd2. apply fmap_cons_inv in Hd2 as ([k b'] & d3 & -> & -> & ->). simpl in *.
    apply Forall_app in Hf as [Hf1 [Hk Hf2]%Forall_cons]. simpl in Hk. subst k.
    rewrite fmap_app in Hnd. apply NoDup_app in Hnd as (Hn1 & Hn2 & Hn3).
    apply NoDup_cons in Hn3 as [Hn3 Hn4].
    destruct (dict_del_split d1 d3 (block_id (h b')) b') as [-> ->].
    { intros Hin. by eapply Hn2; [|left]. }
    eexists. split; [done|]. case_bool_decide as He; split_and!.
    + by apply map_Forall_delete.
    + rewrite lookup_delete_eq. apply app_eq_nil in He as [-> ->]. done.
    + intros key' Hne. by rewrite lookup_delete_ne.
    + apply map_Forall_insert_2; [|done]. simpl. split_and!; [done| |by apply Forall_app].
      rewrite fmap_app. apply NoDup_app. split; [done|]. split; [|done].
      intros x Hx ?. eapply Hn2; [done|by right].
    + rewrite lookup_insert_eq. by rewrite fmap_app.
    + intros key' Hne. by rewrite lookup_insert_ne.
  - by destruct l1.
Qed.

(** ** The pool invariant *)

Definition nblocks (p : BlockPool) : nat := Z.to_nat (num_gpu_blocks p).
Definition refc (p : BlockPool) (i : nat) : Z := ref_cnt (pool_heap p (Block i)).
Definition hashc (p : BlockPool) (i : nat) : option bytes := _block_hash (pool_heap p (Block i)).

(** [free] are the queued blocks in eviction order. [pend] are blocks with
    reference count 0 that an operation in progress has taken off the queue or
    has not put back yet; it is empty between operations. *)
Record pool_inv (p : BlockPool) (free pend : list loc) : Prop := {
  pi_queue : queue_repr (free_block_queue p) free;
  pi_pos : 0 < num_gpu_blocks p;
  pi_blocks : bp_blocks p = Block <$> seq 0 (nblocks p);
  pi_null : null_block p = Block 0;
  pi_is_null : ∀ i, (i < nblocks p)%nat →
    is_null (pool_heap p (Block i)) = bool_decide (i = 0%nat);
  pi_id : ∀ i, (i < nblocks p)%nat → block_id (pool_heap p (Block i)) = Z.of_nat i;
  pi_nodup : NoDup (free ++ pend);
  pi_free : ∀ b, b ∈ free ++ pend ↔ ∃ i, b = Block i ∧ (0 < i < nblocks p)%nat ∧ refc p i = 0;
  pi_ref : ∀ i, (0 < i < nblocks p)%nat → 0 ≤ refc p i;
  pi_null_hash : hashc p 0 = None;
  pi_map_wf : map_wf (pool_heap p) (cached_block_hash_to_block p);
  pi_cached : ∀ key b, b ∈ members (cached_block_hash_to_block p) key ↔
    ∃ i, b = Block i ∧ (0 < i < nblocks p)%nat ∧ hashc p i = Some key
}.

(** What no operation changes. *)
Definition same_config (p p' : BlockPool) : Prop :=
  num_gpu_blocks p' = num_gpu_blocks p ∧ enable_caching p' = enable_caching p ∧
  hash_block_size p' = hash_block_size p ∧ bp_blocks p' = bp_blocks p ∧
  null_block p' = null_block p ∧ enable_kv_cache_events p' = enable_kv_cache_events p ∧
  use_int_block_hashes p' = use_int_block_hashes p.

#[global] Instance same_config_preorder : PreOrder same_config.
Proof.
  split; [by repeat split|].
  intros p1 p2 p3 (?&?&?&?&?&?&?) (?&?&?&?&?&?&?). repeat split; congruence.
Qed.

Definition same_links (b b' : KVCacheBlock) : Prop :=
  prev_free_block b' = prev_free_block b ∧ next_free_block b' = next_free_block b.

Lemma linked_same h h' xs : (∀ x, same_links (h x) (h' x)) → linked h xs → linked h' xs.
Proof.
  intros Hs. induction xs as [|a [|b xs] IH]; [done|done|].
  rewrite !linked_cons. intros (H1 & H2 & H3). destruct (Hs a) as [_ ->], (Hs b) as [-> _].
  split_and!; [done..|]. by apply IH.
Qed.

Lemma queue_repr_same q q' l :
  (∀ x, same_links (q_heap q x) (q_heap q' x)) → num_free_blocks q' = num_free_blocks q →
  queue_repr q l → queue_repr q' l.
Proof.
  intros Hs Hn [H1 H2 H3 H4 H5 H6]. split; [by eapply linked_same|done|congruence|..].
  - by destruct (Hs FakeHead) as [-> _].
  - by destruct (Hs FakeTail) as [_ ->].
  - intros i Hi. destruct (Hs (Block i)) as [-> ->]. by apply H6.
Qed.

(** The logs are not part of the invariant. *)
Lemma pool_inv_logs p free pend ev mc :
  pool_inv p free pend →
  pool_inv (bp_set_kv_event_queue ev p) free pend ∧ pool_inv (bp_set_metrics_collector mc p) free pend.
Proof. intros []. by split; split. Qed.

(** Changing reference counts only, provided they still say which blocks are
    free. *)
Lemma pool_inv_refs p q' free pend pend' :
  pool_inv p free pend →
  (∀ x, ∃ v, q_heap q' x = with_ref_cnt v (pool_heap p x)) →
  num_free_blocks q' = get_num_free_blocks p →
  NoDup (free ++ pend') →
  (∀ b, b ∈ free ++ pend' ↔
    ∃ i, b = Block i ∧ (0 < i < nblocks p)%nat ∧ ref_cnt (q_heap q' (Block i)) = 0) →
  (∀ i, (0 < i < nblocks p)%nat → 0 ≤ ref_cnt (q_heap q' (Block i))) →
  pool_inv (bp_set_free_block_queue q' p) free pend'.
Proof.
  intros [H1 H2 H3 H4 H5 H6 H7 H8 H9 H10 H11 H12] Hq Hn Hnd Hf Hr.
  assert (Hfields : ∀ x, same_links (pool_heap p x) (q_heap q' x)
    ∧ block_id (q_heap q' x) = block_id (pool_heap p x)
    ∧ is_null (q_heap q' x) = is_null (pool_heap p x)
    ∧ _block_hash (q_heap q' x) = _block_hash (pool_heap p x)).
  { intros x. by destruct (Hq x) as [v ->]. }
  split; try done; unfold hashc, refc, pool_heap, nblocks in *; simpl.
  - eapply queue_repr_same; [|done|done]. intros x. apply Hfields.
  - intros i Hi. destruct (Hfields (Block i)) as (_ & _ & -> & _). by apply H5.
  - intros i Hi. destruct (Hfields (Block i)) as (_ & -> & _). by apply H6.
  - by destruct (Hfields (Block 0)) as (_ & _ & _ & ->).
  - eapply map_wf_ids; [|done]. intros x. apply Hfields.
  - intros key b. rewrite H12. split; intros (i & -> & Hi & Hh); exists i;
      (split; [done|]); (split; [done|]); by destruct (Hfields (Block i)) as (_ & _ & _ & Heq); rewrite Heq in *.
Qed.

(** A queue operation moves blocks between the queue and the pending list and
    leaves the blocks' own fields alone. *)
Lemma pool_inv_queue p q' free pend free' pend' :
  pool_inv p free pend → queue_repr q' free' → meta_frame (pool_heap p) (q_heap q') →
  free' ++ pend' ≡ₚ free ++ pend →
  pool_inv (bp_set_free_block_queue q' p) free' pend'.
Proof.
  intros [H1 H2 H3 H4 H5 H6 H7 H8 H9 H10 H11 H12] Hq Hm Hperm.
  split; try done; unfold refc, hashc, pool_heap, nblocks in *; simpl in *.
  - intros i Hi. destruct (Hm (Block i)) as (_ & _ & _ & ->). by apply H5.
  - intros i Hi. destruct (Hm (Block i)) as (-> & _). by apply H6.
  - by rewrite Hperm.
  - intros b. rewrite Hperm, H8.
    split; intros (i & -> & Hi & Hr); exists i; (split; [done|]); (split; [done|]);
      destruct (Hm (Block i)) as (_ & Heq & _); by rewrite Heq in *.
  - intros i Hi. destruct (Hm (Block i)) as (_ & -> & _). by apply H9.
  - by destruct (Hm (Block 0)) as (_ & _ & -> & _).
  - eapply map_wf_ids; [|done]. intros x. apply Hm.
  - intros key b. rewrite H12.
    split; intros (i & -> & Hi & Hr); exists i; (split; [done|]); (split; [done|]);
      destruct (Hm (Block i)) as (_ & _ & Heq & _); by rewrite Heq in *.
Qed.

(** Changing the hash of one block together with the index. *)
Definition set_hash_and_map (b : loc) (v : option bytes) (m : block_map) (p : BlockPool) : BlockPool :=
  bp_set_cached_block_hash_to_block m
    (bp_set_free_block_queue
       (mkQueue (alter (with_hash v) b (pool_heap p)) (get_num_free_blocks p)) p).

Lemma pool_inv_hash p free pend b v m :
  pool_inv p free pend →
  (v ≠ None → b ≠ Block 0) →
  map_wf (pool_heap p) m →
  (∀ key x, x ∈ members m key ↔
    ∃ i, x = Block i ∧ (0 < i < nblocks p)%nat ∧
      (if decide (b = x) then v else hashc p i) = Some key) →
  pool_inv (set_hash_and_map b v m p) free pend.
Proof.
  intros [H1 H2 H3 H4 H5 H6 H7 H8 H9 H10 H11 H12] Hv Hwf Hm.
  assert (Hmeta : ∀ x, let b' := alter (with_hash v) b (pool_heap p) x in
    same_links (pool_heap p x) b' ∧ block_id b' = block_id (pool_heap p x)
    ∧ is_null b' = is_null (pool_heap p x) ∧ ref_cnt b' = ref_cnt (pool_heap p x)
    ∧ _block_hash b' = if decide (b = x) then v else _block_hash (pool_heap p x)).
  { intros x. simpl. rewrite heap_alter. by case_decide; subst. }
  split; try done; unfold set_hash_and_map, hashc, refc, pool_heap, nblocks in *; simpl in *.
  - apply (queue_repr_same (free_block_queue p)); [|done|done]. intros x. apply Hmeta.
  - intros i Hi. destruct (Hmeta (Block i)) as (_ & _ & -> & _). by apply H5.
  - intros i Hi. destruct (Hmeta (Block i)) as (_ & -> & _). by apply H6.
  - intros x. rewrite H8. split; intros (i & -> & Hi & Hr); exists i; (split; [done|]);
      (split; [done|]); destruct (Hmeta (Block i)) as (_ & _ & _ & Heq & _); by rewrite Heq in *.
  - intros i Hi. destruct (Hmeta (Block i)) as (_ & _ & _ & -> & _). by apply H9.
  - destruct (Hmeta (Block 0)) as (_ & _ & _ & _ & ->). case_decide; [|done].
    destruct v; [by destruct Hv|done].
  - eapply map_wf_ids; [|done]. intros x. apply Hmeta.
  - intros key x. rewrite Hm. split; intros (i & -> & Hi & Hh); exists i; (split; [done|]);
      (split; [done|]); destruct (Hmeta (Block i)) as (_ & _ & _ & _ & Heq); by rewrite Heq in *.
Qed.

(** ** Eviction from the prefix cache *)

Lemma with_hash_same b : with_hash (_block_hash b) b = b.
Proof. by destruct b. Qed.

Lemma maybe_evict_spec p free pend i :
  pool_inv p free pend → (i < nblocks p)%nat →
  ∃ p', _maybe_evict_cached_block (Block i) p = Ok (bool_decide (hashc p i ≠ None), p')
    ∧ pool_inv p' free pend ∧ same_config p p'
    ∧ get_num_free_blocks p' = get_num_free_blocks p
    ∧ (∀ x, pool_heap p' x = alter (with_hash None) (Block i) (pool_heap p) x).
Proof.
  intros Hp Hi. unfold _maybe_evict_cached_block, metrics, emit. munfold.
  set (mc := (λ l, l ++ _) <$> metrics_collector p).
  destruct (pool_inv_logs p free pend [] mc Hp) as [_ Hp1].
  set (p1 := bp_set_metrics_collector mc p) in *.
  fold (hashc p i). destruct (hashc p i) as [key|] eqn:Eh.
  2:{ exists p1. rewrite bool_decide_eq_false_2 by auto. split_and!; try done.
      intros x. rewrite heap_alter. case_decide; [subst|done].
      unfold hashc in Eh. by rewrite <-Eh, with_hash_same. }
  rewrite bool_decide_eq_true_2 by done.
  assert (0 < i < nblocks p)%nat.
  { destruct i; [|lia]. by rewrite (pi_null_hash _ _ _ Hp) in Eh. }
  assert (Hin : Block i ∈ members (cached_block_hash_to_block p) key).
  { apply (pi_cached _ _ _ Hp). eauto. }
  apply list_elem_of_split in Hin as (l1 & l2 & Hmem).
  pose proof (members_nodup _ _ key (pi_map_wf _ _ _ Hp)) as Hnd. rewrite Hmem in Hnd.
  destruct (map_pop_spec (pool_heap p) _ _ _ _ _ (pi_map_wf _ _ _ Hp) Hmem)
    as (m' & Hpop & Hwf & Hm1 & Hm2).
  change (map_pop (pool_heap p) (cached_block_hash_to_block p)) with
    (map_pop (pool_heap p1) (cached_block_hash_to_block p1)) in Hpop. rewrite Hpop.
  assert (Hp2 : pool_inv (set_hash_and_map (Block i) None m' p1) free pend).
  { apply pool_inv_hash; [done|done|done|]. intros key' x. change (hashc p1) with (hashc p).
    change (nblocks p1) with (nblocks p).
    destruct (decide (key' = key)) as [->|Hne].
    - apply NoDup_app in Hnd as (_ & Hn1 & [Hn2 _]%NoDup_cons). rewrite Hm1.
      pose proof (pi_cached _ _ _ Hp key x) as Hc. rewrite Hmem in Hc. case_decide as Hx.
      + subst x. split; [|naive_solver]. intros [Hin|Hin]%elem_of_app; [|done].
        exfalso. by eapply Hn1; [|left].
      + rewrite <-Hc. set_solver.
    - rewrite Hm2 by done. rewrite (pi_cached _ _ _ Hp key' x). split.
      + intros (j & -> & Hj & Hh). exists j. split_and!; [done|lia|lia|].
        rewrite decide_False; [done|]. intros [= <-]. congruence.
      + intros (j & -> & Hj & Hh). exists j. split; [done|]. split; [done|].
        by case_decide. }
  simpl. case_match; eexists; (split; [reflexivity|]); (split; [|by repeat split]).
  - destruct (pool_inv_logs _ _ _ (kv_event_queue p1 ++ [BlockRemoved
      [maybe_convert_block_hash (use_int_block_hashes p) (get_block_hash key)] (get_group_id key)])
      None Hp2) as [Hp3 _]. exact Hp3.
  - exact Hp2.
Qed.

(** Writing the reference count of one block. *)
Definition set_ref (b : loc) (v : Z) (p : BlockPool) : BlockPool :=
  bp_set_free_block_queue (mkQueue (alter (with_ref_cnt v) b (pool_heap p)) (get_num_free_blocks p)) p.

Lemma refc_set_ref b v p i : refc (set_ref b v p) i = if decide (b = Block i) then v else refc p i.
Proof. unfold refc, pool_heap. simpl. rewrite heap_alter. by case_decide; subst. Qed.
Lemma hashc_set_ref b v p i : hashc (set_ref b v p) i = hashc p i.
Proof. unfold hashc, pool_heap. simpl. rewrite heap_alter. by case_decide; subst. Qed.
Lemma set_ref_config b v p : same_config p (set_ref b v p).
Proof. by repeat split. Qed.

(** A written count keeps the invariant when the block's place among the free or
    pending blocks is updated with it. *)
Lemma pool_inv_set_ref p free pend pend' i v :
  pool_inv p free pend → (i < nblocks p)%nat →
  NoDup (free ++ pend') →
  (∀ b, b ≠ Block i → b ∈ free ++ pend' ↔ b ∈ free ++ pend) →
  (i ≠ 0%nat → 0 ≤ v) →
  (Block i ∈ free ++ pend' ↔ i ≠ 0%nat ∧ v = 0) →
  pool_inv (set_ref (Block i) v p) free pend'.
Proof.
  intros Hp Hi Hnd Hothers Hv Hthis. eapply pool_inv_refs; [done| |done|done| |].
  - intros x. simpl. rewrite heap_alter. case_decide; subst; [eauto|].
    exists (ref_cnt (pool_heap p x)). unfold pool_heap. by destruct (q_heap _ x).
  - intros b. simpl. destruct (decide (b = Block i)) as [->|Hne].
    + rewrite Hthis. split.
      * intros [? ->]. exists i. rewrite heap_alter, decide_True by done. split_and!; [done|lia..|done].
      * intros (j & [= <-] & Hj & Hr). rewrite heap_alter, decide_True in Hr by done.
        split; [lia|done].
    + rewrite Hothers, (pi_free _ _ _ Hp) by done. unfold refc.
      split; intros (j & -> & Hj & Hr); exists j; (split; [done|]); (split; [done|]);
        rewrite heap_alter, decide_False in * by congruence; done.
  - intros j Hj. simpl. rewrite heap_alter. case_decide; simplify_eq; [apply Hv; lia|].
    by apply (pi_ref _ _ _ Hp).
Qed.

(** A pending block becomes owned. *)
Lemma pool_inv_claim p free i pend v :
  pool_inv p free (Block i :: pend) → 0 < v → pool_inv (set_ref (Block i) v p) free pend.
Proof.
  intros Hp Hv. pose proof (pi_nodup _ _ _ Hp) as Hnd.
  rewrite <-Permutation_middle in Hnd. apply NoDup_cons in Hnd as [Hni Hnd].
  assert (∃ j, Block i = Block j ∧ (0 < j < nblocks p)%nat ∧ refc p j = 0) as (j & [= <-] & Hj & _).
  { apply (pi_free _ _ _ Hp). set_solver. }
  eapply pool_inv_set_ref; [done|lia|done| |lia|].
  - intros b Hb. rewrite !elem_of_app, elem_of_cons. naive_solver.
  - split; [done|]. lia.
Qed.

(** The null block's count is free; an owned block stays owned. *)
Lemma pool_inv_bump p free pend i v :
  pool_inv p free pend → (i < nblocks p)%nat → i = 0%nat ∨ refc p i ≠ 0 ∧ 0 < v →
  pool_inv (set_ref (Block i) v p) free pend.
Proof.
  intros Hp Hi Hc. eapply pool_inv_set_ref; [done|done|by apply (pi_nodup _ _ _ Hp)|done| |].
  - intros ?. destruct Hc as [?|[_ ?]]; [done|lia].
  - rewrite (pi_free _ _ _ Hp). split.
    + intros (j & [= <-] & Hj & Hr). destruct Hc as [?|[? _]]; [lia|done].
    + intros [Hi0 ->]. destruct Hc as [?|[_ ?]]; [done|lia].
Qed.

(** The last owner lets go: the block becomes pending. *)
Lemma pool_inv_release p free pend i :
  pool_inv p free pend → (0 < i < nblocks p)%nat → refc p i ≠ 0 →
  pool_inv (set_ref (Block i) 0 p) free (pend ++ [Block i]).
Proof.
  intros Hp Hi Hr.
  assert (Hni : Block i ∉ free ++ pend).
  { rewrite (pi_free _ _ _ Hp). intros (j & [= <-] & _ & ?). done. }
  eapply pool_inv_set_ref; [done|lia| | |lia|].
  - rewrite (assoc_L (++)). apply NoDup_app. split; [by apply (pi_nodup _ _ _ Hp)|].
    split; [|apply NoDup_singleton]. intros x Hx ->%list_elem_of_singleton. done.
  - intros b Hb. rewrite (assoc_L (++)), elem_of_app, list_elem_of_singleton. naive_solver.
  - split; [lia|]. intros _. set_solver.
Qed.

(** ** Allocation *)

Definition allocated (evict : bool) (b : KVCacheBlock) : KVCacheBlock :=
  with_ref_cnt 1 (if evict then with_hash None b else b).

Lemma pool_inv_pend p free pend b :
  pool_inv p free pend → b ∈ free ++ pend →
  ∃ i, b = Block i ∧ (0 < i < nblocks p)%nat ∧ refc p i = 0.
Proof. intros Hp Hb. by apply (pi_free _ _ _ Hp). Qed.

Lemma allocate_one_spec p free b pend evict :
  pool_inv p free (b :: pend) →
  ∃ p', allocate_one evict b p = Ok (tt, p') ∧ pool_inv p' free pend ∧ same_config p p'
    ∧ get_num_free_blocks p' = get_num_free_blocks p
    ∧ (∀ x, pool_heap p' x = alter (allocated evict) b (pool_heap p) x).
Proof.
  intros Hp. destruct (pool_inv_pend p free (b :: pend) b Hp) as (i & -> & Hi & Hr); [set_solver|].
  assert (∃ p1, (if evict then _ ← _maybe_evict_cached_block (Block i); mret tt else mret tt) p
      = Ok (tt, p1) ∧ pool_inv p1 free (Block i :: pend) ∧ same_config p p1
      ∧ get_num_free_blocks p1 = get_num_free_blocks p
      ∧ (∀ x, pool_heap p1 x =
           if evict then alter (with_hash None) (Block i) (pool_heap p) x else pool_heap p x))
    as (p1 & Hrun & Hp1 & Hc1 & Hn1 & Hh1).
  { destruct evict; [|exists p; by split_and!].
    destruct (maybe_evict_spec p free (Block i :: pend) i Hp) as (p1 & E & ? & ? & ? & ?); [lia|].
    exists p1. munfold. by rewrite E. }
  assert (Hr1 : ref_cnt (pool_heap p1 (Block i)) = 0).
  { rewrite Hh1. destruct evict; [|done]. by rewrite heap_alter, decide_True. }
  unfold allocate_one, metrics, upd_blk, onq, upd, blk. unfold mbind, M_bind in *.
  rewrite Hrun. unfold zoom, modify, gets, py_assert. simpl. rewrite Hr1. simpl.
  eexists. split; [reflexivity|]. split; [|split_and!; [by etrans|done|]].
  - match goal with |- pool_inv (bp_set_metrics_collector ?mc ?p2) _ _ =>
      refine (proj2 (pool_inv_logs p2 _ _ [] mc _)) end.
    by apply (pool_inv_claim p1).
  - intros x. simpl. unfold pool_heap at 1. simpl. rewrite !heap_alter. fold (pool_heap p1).
    unfold allocated. case_decide as Hx; rewrite Hh1; destruct evict; try done;
      rewrite heap_alter; [by rewrite decide_True|by rewrite decide_False].
Qed.

Lemma allocate_loop_spec bs p free evict :
  pool_inv p free bs →
  ∃ p', forM bs (allocate_one evict) p = Ok (tt, p') ∧ pool_inv p' free [] ∧ same_config p p'
    ∧ get_num_free_blocks p' = get_num_free_blocks p
    ∧ (∀ x, pool_heap p' x = if decide (x ∈ bs) then allocated evict (pool_heap p x) else pool_heap p x).
Proof.
  revert p. induction bs as [|b bs IH]; intros p Hp; simpl.
  { exists p. by split_and!. }
  pose proof (pi_nodup _ _ _ Hp) as (_ & _ & [Hb _]%NoDup_cons)%NoDup_app.
  destruct (allocate_one_spec p free b bs evict Hp) as (p1 & Hrun1 & Hp1 & Hc1 & Hn1 & Hh1).
  destruct (IH p1 Hp1) as (p2 & Hrun2 & Hp2 & Hc2 & Hn2 & Hh2).
  exists p2. unfold mbind, M_bind. rewrite Hrun1. split; [done|].
  split; [done|]. split; [by etrans|]. split; [congruence|].
  intros x. rewrite Hh2, Hh1, heap_alter.
  repeat case_decide; subst; try set_solver; done.
Qed.

Lemma get_new_blocks_spec p free n :
  pool_inv p free [] → 0 ≤ n ≤ zlen free →
  ∃ p', get_new_blocks n p = Ok (take (Z.to_nat n) free, p')
    ∧ pool_inv p' (drop (Z.to_nat n) free) [] ∧ same_config p p'
    ∧ ∀ i, let new := bool_decide (Block i ∈ take (Z.to_nat n) free) in
        refc p' i = (if new then 1 else refc p i) ∧
        hashc p' i = (if new && enable_caching p then None else hashc p i).
Proof.
  intros Hp Hn. unfold get_new_blocks. munfold. unfold get_num_free_blocks.
  rewrite (qr_num _ _ (pi_queue _ _ _ Hp)).
  destruct (Z.ltb_spec (zlen free) n); [lia|]. unfold onq, zoom.
  destruct (popleft_n_spec _ n free (pi_queue _ _ _ Hp)) as (q' & -> & Hq' & Hfr); [done|].
  set (p1 := bp_set_free_block_queue q' p).
  assert (Hp1 : pool_inv p1 (drop (Z.to_nat n) free) (take (Z.to_nat n) free)).
  { eapply pool_inv_queue; [done..|]. by rewrite (comm (++)), take_drop, app_nil_r. }
  destruct (allocate_loop_spec _ p1 _ (enable_caching p) Hp1) as (p2 & Hrun & Hp2 & Hc2 & _ & Hh2).
  simpl. fold p1. change (enable_caching p1) with (enable_caching p).
  rewrite Hrun. exists p2. split; [done|]. split; [done|]. split; [done|].
  intros i. simpl. unfold refc, hashc. rewrite Hh2. destruct (Hfr (Block i)) as (_ & Hr & Hh & _).
  unfold pool_heap, p1 in *. simpl.
  repeat (case_decide || case_bool_decide); try done; simpl; destruct (enable_caching p); done.
Qed.

Lemma get_new_blocks_too_many p free n :
  pool_inv p free [] → zlen free < n → get_new_blocks n p = Err ValueError.
Proof.
  intros Hp Hn. unfold get_new_blocks. munfold. unfold get_num_free_blocks.
  rewrite (qr_num _ _ (pi_queue _ _ _ Hp)). by rewrite (proj2 (Z.ltb_lt _ _)).
Qed.

(** ** Touching *)

(** Occurrences of an object in a list. *)
Definition occ (b : loc) (bs : list loc) : Z := zlen (filter (λ x, x = b) bs).

Lemma occ_cons b x bs : occ b (x :: bs) = occ b bs + (if decide (x = b) then 1 else 0).
Proof. unfold occ. rewrite filter_cons. case_decide; [rewrite zlen_cons|]; lia. Qed.
Lemma occ_nil b : occ b [] = 0.
Proof. done. Qed.
Lemma occ_nonneg b bs : 0 ≤ occ b bs.
Proof. apply zlen_nonneg. Qed.

Lemma touch_one_spec p free i :
  pool_inv p free [] → (i < nblocks p)%nat →
  ∃ p', touch_one (Block i) p = Ok (tt, p')
    ∧ pool_inv p' (filter (λ b, b ≠ Block i) free) [] ∧ same_config p p'
    ∧ ∀ j, refc p' j = refc p j + (if decide (i = j) then 1 else 0) ∧ hashc p' j = hashc p j.
Proof.
  intros Hp Hi. unfold touch_one, metrics, upd_blk, onq, upd, blk. munfold.
  rewrite (pi_is_null _ _ _ Hp i Hi). fold (refc p i).
  destruct ((refc p i =? 0) && negb (bool_decide (i = 0%nat))) eqn:Ec.
  - apply andb_true_iff in Ec as [Er%Z.eqb_eq Ez%negb_true_iff%bool_decide_eq_false].
    assert (Hin : Block i ∈ free).
    { pose proof (pi_free _ _ _ Hp (Block i)) as Hf. rewrite app_nil_r in Hf.
      apply Hf. exists i. split_and!; [done|lia..|done]. }
    pose proof (pi_nodup _ _ _ Hp) as Hnd. rewrite app_nil_r in Hnd.
    apply list_elem_of_split in Hin as (l1 & l2 & ->). rewrite filter_ne_split by done.
    destruct (remove_spec _ _ _ _ (pi_queue _ _ _ Hp)) as (q' & -> & Hq' & Hfr).
    assert (Hp1 : pool_inv (bp_set_free_block_queue q' p) (l1 ++ l2) [Block i]).
    { eapply pool_inv_queue; [done..|]. rewrite app_nil_r, (comm (++)). simpl.
      by rewrite Permutation_middle. }
    destruct (Hfr (Block i)) as (_ & Hri & _). unfold refc, pool_heap in Er.
    eexists. split; [reflexivity|]. split; [|split; [by repeat split|]].
    + refine (proj2 (pool_inv_logs _ _ _ [] _
        (pool_inv_claim _ _ _ _ (ref_cnt (q_heap q' (Block i)) + 1) Hp1 _))). lia.
    + intros j. unfold refc, hashc, pool_heap. simpl. rewrite heap_alter.
      destruct (Hfr (Block j)) as (_ & Hrj & Hhj & _).
      destruct (decide (i = j)) as [<-|Hne];
        [rewrite decide_True by done|rewrite decide_False by congruence];
        simpl; rewrite ?Hrj, ?Hhj, ?Er; split; done || lia.
  - rewrite filter_all; [|].
    2:{ intros b Hb ->. apply andb_false_iff in Ec.
        assert (Hin : Block i ∈ free ++ []) by (by rewrite app_nil_r).
        apply (pi_free _ _ _ Hp) in Hin as (j & [= <-] & Hj & Hr). rewrite Hr in Ec.
        destruct Ec as [?|Ec]; [done|]. rewrite bool_decide_eq_false_2 in Ec by lia. done. }
    eexists. split; [reflexivity|]. split; [|split; [by repeat split|]].
    + refine (proj2 (pool_inv_logs _ _ _ [] _ (pool_inv_bump p _ _ i (refc p i + 1) Hp Hi _))).
      destruct (decide (i = 0%nat)) as [|Hi0]; [by left|right].
      rewrite bool_decide_eq_false_2 in Ec by done. rewrite andb_true_r in Ec.
      apply Z.eqb_neq in Ec. pose proof (pi_ref _ _ _ Hp i). lia.
    + intros j. unfold refc, hashc, pool_heap. simpl. rewrite heap_alter.
      destruct (decide (i = j)) as [<-|Hne];
        [rewrite decide_True by done|rewrite decide_False by congruence];
        simpl; split; done || lia.
Qed.

(** Blocks of this pool. *)
Definition in_pool (p : BlockPool) (bs : list loc) : Prop :=
  Forall (λ b, ∃ i, b = Block i ∧ (i < nblocks p)%nat) bs.

Lemma same_config_nblocks p p' : same_config p p' → nblocks p' = nblocks p.
Proof. unfold nblocks. by intros (-> & _). Qed.
Lemma in_pool_config p p' bs : same_config p p' → in_pool p bs → in_pool p' bs.
Proof. intros Hc. unfold in_pool. by rewrite (same_config_nblocks _ _ Hc). Qed.

Lemma touch_spec bs p free :
  pool_inv p free [] → in_pool p bs →
  ∃ p', touch bs p = Ok (tt, p')
    ∧ pool_inv p' (filter (λ b, b ∉ bs) free) [] ∧ same_config p p'
    ∧ ∀ i, refc p' i = refc p i + occ (Block i) bs ∧ hashc p' i = hashc p i.
Proof.
  revert p free. induction bs as [|b bs IH]; intros p free Hp Hin; simpl.
  { exists p. rewrite filter_all by (intros; apply not_elem_of_nil). split_and!; [done..|].
    intros i. rewrite occ_nil. split; [lia|done]. }
  apply Forall_cons in Hin as [(i & -> & Hi) Hin].
  destruct (touch_one_spec p free i Hp Hi) as (p1 & Hrun1 & Hp1 & Hc1 & Hh1).
  destruct (IH p1 _ Hp1) as (p2 & Hrun2 & Hp2 & Hc2 & Hh2); [by eapply in_pool_config|].
  exists p2. unfold touch, mbind, M_bind in *. simpl. unfold mbind, M_bind. rewrite Hrun1.
  split; [done|]. split; [|split; [by etrans|]].
  - rewrite list_filter_filter in Hp2. erewrite list_filter_iff; [exact Hp2|].
    intros x. rewrite not_elem_of_cons. tauto.
  - intros j. destruct (Hh2 j) as [-> ->], (Hh1 j) as [-> ->]. rewrite occ_cons.
    destruct (decide (i = j)) as [<-|]; [rewrite decide_True by done|rewrite decide_False by congruence];
      split; done || lia.
Qed.

(** ** Freeing *)

(** The caller owns one reference to each block it frees, and lists no block
    twice (the null block excepted, whose count is not maintained). *)
Definition freeable (p : BlockPool) (bs : list loc) : Prop :=
  Forall (λ b, ∃ i, b = Block i ∧ (i < nblocks p)%nat ∧ (i ≠ 0%nat → 0 < refc p i)) bs ∧
  NoDup (filter (λ b, b ≠ Block 0) bs).

(** The blocks whose last reference goes away. *)
Definition last_refs (p : BlockPool) (bs : list loc) : list loc :=
  filter (λ b, b ≠ Block 0 ∧ ref_cnt (pool_heap p b) = 1) bs.

Definition dec_ref (block : loc) : P unit :=
  upd_blk block (λ b, with_ref_cnt (ref_cnt b - 1) b).

Lemma dec_ref_run b p : dec_ref b p = Ok (tt, set_ref b (ref_cnt (pool_heap p b) - 1) p).
Proof. done. Qed.

Lemma freeable_cons p b bs :
  freeable p (b :: bs) →
  ∃ i, b = Block i ∧ (i < nblocks p)%nat ∧ (i ≠ 0%nat → 0 < refc p i ∧ b ∉ bs) ∧
    freeable (set_ref b (ref_cnt (pool_heap p b) - 1) p) bs.
Proof.
  intros [[(i & -> & Hi & Hr) Hf]%Forall_cons Hnd]. exists i. split; [done|]. split; [done|].
  assert (Hni : i ≠ 0%nat → Block i ∉ bs).
  { intros Hi0 Hin. rewrite filter_cons_True in Hnd by congruence.
    apply NoDup_cons in Hnd as [Hn _]. apply Hn, list_elem_of_filter. by split; [congruence|]. }
  split; [by auto|]. split.
  - rewrite Forall_forall in Hf |- *. intros b Hb. destruct (Hf b Hb) as (j & -> & Hj & Hrj).
    exists j. split; [done|]. split; [done|]. intros Hj0. rewrite refc_set_ref.
    rewrite decide_False; [auto|]. intros [= <-]. by apply Hni.
  - destruct (decide (i = 0%nat)) as [->|]; [by rewrite filter_cons_False in Hnd by auto|].
    rewrite filter_cons_True in Hnd by congruence. by apply NoDup_cons in Hnd as [_ ?].
Qed.

Lemma dec_loop_spec bs p free pend :
  pool_inv p free pend → freeable p bs →
  ∃ p', forM bs dec_ref p = Ok (tt, p') ∧ pool_inv p' free (pend ++ last_refs p bs)
    ∧ same_config p p'
    ∧ ∀ i, (i ≠ 0%nat → refc p' i = refc p i - (if decide (Block i ∈ bs) then 1 else 0))
        ∧ hashc p' i = hashc p i ∧ is_null (pool_heap p' (Block i)) = is_null (pool_heap p (Block i)).
Proof.
  revert p pend. induction bs as [|b bs IH]; intros p pend Hp Hf.
  { exists p. rewrite app_nil_r. split; [done|]. split; [done|]. split; [done|]. intros i.
    rewrite decide_False by apply not_elem_of_nil. split_and!; [lia|done..]. }
  apply freeable_cons in Hf as (i & -> & Hi & Hr & Hf).
  cbn [forM]. unfold mbind, M_bind. rewrite dec_ref_run.
  set (v := ref_cnt (pool_heap p (Block i)) - 1) in *.
  set (p1 := set_ref (Block i) v p) in *.
  assert (Hp1 : pool_inv p1 free (pend ++
    if decide (Block i ≠ Block 0 ∧ ref_cnt (pool_heap p (Block i)) = 1) then [Block i] else [])).
  { case_decide as Hd.
    - unfold p1, v. destruct Hd as [Hi0 ->]. apply pool_inv_release; [done| |].
      + assert (i ≠ 0%nat) by congruence. lia.
      + assert (i ≠ 0%nat) as Hi0' by congruence. specialize (Hr Hi0'). lia.
    - rewrite app_nil_r. apply pool_inv_bump; [done|done|].
      destruct (decide (i = 0%nat)) as [|Hi0]; [by left|right]. destruct (Hr Hi0) as [Hr0 _].
      unfold refc, v in *. split; [lia|]. assert (ref_cnt (pool_heap p (Block i)) ≠ 1); [|lia].
      intros ?. apply Hd. split; [congruence|done]. }
  destruct (IH p1 _ Hp1 Hf) as (p2 & Hrun & Hp2 & Hc2 & Hh2). exists p2. split; [done|].
  assert (Hlr : last_refs p1 bs = last_refs p bs).
  { unfold last_refs. apply list_filter_iff'. intros x Hx.
    unfold p1, set_ref, pool_heap. simpl. rewrite heap_alter.
    destruct (decide (Block i = x)) as [<-|]; [|done].
    destruct (decide (i = 0%nat)) as [->|Hi0]; [naive_solver|]. by destruct (Hr Hi0). }
  split; [|split; [by etrans; [apply set_ref_config|]|]].
  - rewrite Hlr, <-(assoc_L (++)) in Hp2. unfold last_refs. rewrite filter_cons.
    fold (last_refs p bs). by case_decide.
  - intros j. destruct (Hh2 j) as (Hr2 & -> & ->). split; [|split].
    + intros Hj0. rewrite Hr2 by done. unfold p1. rewrite refc_set_ref.
      destruct (decide (i = j)) as [<-|Hne].
      * rewrite (decide_True (P:=Block i = Block i)) by done.
        rewrite (decide_False (P:=Block i ∈ bs)) by (by apply Hr).
        rewrite decide_True by left. unfold v, refc. lia.
      * rewrite (decide_False (P:=Block i = Block j)) by congruence.
        f_equal. repeat case_decide; try done; set_solver.
    + by apply hashc_set_ref.
    + unfold p1, set_ref, pool_heap. simpl. rewrite heap_alter.
      by destruct (decide (Block i = Block j)) as [<-|].
Qed.

Lemma same_config_queue q p : same_config p (bp_set_free_block_queue q p).
Proof. by repeat split. Qed.

Lemma pool_inv_fresh_for p free pend : pool_inv p free pend → fresh_for free pend.
Proof.
  intros Hp. destruct (proj1 (NoDup_app _ _) (pi_nodup _ _ _ Hp)) as (_ & Hd & Hnd).
  split; [done|]. intros b Hb Hs.
  destruct (pool_inv_pend p free pend b Hp) as (i & -> & _); [set_solver|].
  unfold spine in Hs. apply elem_of_cons in Hs as [?|[Hs|Hs%list_elem_of_singleton]%elem_of_app];
    [done| |done]. by eapply Hd.
Qed.

Lemma free_blocks_spec p free bs prepend :
  pool_inv p free [] → freeable p bs →
  ∃ p', free_blocks bs prepend p = Ok (tt, p')
    ∧ pool_inv p' (if prepend then last_refs p bs ++ free else free ++ last_refs p bs) []
    ∧ same_config p p'
    ∧ ∀ i, (i ≠ 0%nat → refc p' i = refc p i - (if decide (Block i ∈ bs) then 1 else 0))
        ∧ hashc p' i = hashc p i.
Proof.
  intros Hp Hf. destruct (dec_loop_spec bs p free [] Hp Hf) as (p1 & Hrun & Hp1 & Hc1 & Hh1).
  simpl in Hp1. unfold free_blocks, mbind, M_bind.
  change (forM bs _ p) with (forM bs dec_ref p). rewrite Hrun. unfold gets.
  assert (filter (λ b, ref_cnt (pool_heap p1 b) = 0 ∧ is_null (pool_heap p1 b) = false) bs
    = last_refs p bs) as ->.
  { apply list_filter_iff'. intros b Hb. destruct Hf as [Hf _].
    rewrite Forall_forall in Hf. destruct (Hf b Hb) as (i & -> & Hi & Hr).
    destruct (Hh1 i) as (Hr1 & _ & ->). rewrite (pi_is_null _ _ _ Hp i Hi).
    fold (refc p1 i) (refc p i). destruct (decide (i = 0%nat)) as [->|Hi0].
    - rewrite bool_decide_eq_true_2 by done. naive_solver.
    - rewrite bool_decide_eq_false_2, Hr1, decide_True by done.
      split; [intros [? _]; split; [congruence|lia]|intros [_ ?]; split; [lia|done]]. }
  pose proof (pool_inv_fresh_for _ _ _ Hp1) as Hfr.
  destruct prepend; unfold onq, zoom;
    [destruct (prepend_n_spec _ _ _ (pi_queue _ _ _ Hp1) Hfr) as (q' & -> & Hq & Hm)
    |destruct (append_n_spec _ _ _ (pi_queue _ _ _ Hp1) Hfr) as (q' & -> & Hq & Hm)].
  all: eexists; split; [done|]; split; [eapply pool_inv_queue; [done..|]|].
  1,3: rewrite app_nil_r; done || apply Permutation_app_comm.
  all: split; [etrans; [done|apply same_config_queue]|].
  all: intros i; destruct (Hm (Block i)) as (_ & Er & Eh & _), (Hh1 i) as (Hr & Hh & _).
  all: unfold refc, hashc, pool_heap in *; simpl; by rewrite Er, Eh.
Qed.

(** ** Evicting and resetting *)

Lemma py_index_seq n i :
  0 ≤ i < Z.of_nat n → py_index (Block <$> seq 0 n) i = Ok (Block (Z.to_nat i)).
Proof.
  intros Hi. unfold py_index. rewrite length_fmap, length_seq.
  destruct (Z.ltb_spec i 0); [lia|]. destruct (Z.ltb_spec i 0); [lia|].
  rewrite list_lookup_fmap, lookup_seq_lt by lia. done.
Qed.

Lemma pool_inv_nblocks p free pend : pool_inv p free pend → Z.of_nat (nblocks p) = num_gpu_blocks p.
Proof. intros Hp. pose proof (pi_pos _ _ _ Hp). unfold nblocks. lia. Qed.

Lemma pool_inv_zlen_blocks p free pend :
  pool_inv p free pend → zlen (bp_blocks p) = num_gpu_blocks p.
Proof.
  intros Hp. rewrite (pi_blocks _ _ _ Hp). unfold zlen. rewrite length_fmap, length_seq.
  by eapply pool_inv_nblocks.
Qed.

(** Eviction removes hashes and leaves the reference counts and the queue. *)
Lemma evict_blocks_spec ids p free :
  pool_inv p free [] → Forall (λ id, 0 ≤ id < num_gpu_blocks p) ids →
  ∃ p', evict_blocks ids p = Ok (tt, p') ∧ pool_inv p' free [] ∧ same_config p p'
    ∧ ∀ i, refc p' i = refc p i
        ∧ hashc p' i = if decide (Z.of_nat i ∈ ids) then None else hashc p i.
Proof.
  revert p. induction ids as [|id ids IH]; intros p Hp Hids.
  { exists p. split; [done|]. split; [done|]. split; [done|]. intros i.
    by rewrite decide_False by apply not_elem_of_nil. }
  apply Forall_cons in Hids as [Hid Hids]. pose proof (pool_inv_nblocks _ _ _ Hp) as Hnb.
  destruct (maybe_evict_spec p free [] (Z.to_nat id) Hp) as (p1 & Hrun1 & Hp1 & Hc1 & _ & Hh1); [lia|].
  destruct (IH p1 Hp1) as (p2 & Hrun2 & Hp2 & Hc2 & Hh2); [by destruct Hc1 as [-> _]|].
  exists p2. split; [|split; [done|split; [by etrans|]]].
  - unfold evict_blocks in *. cbn [forM]. unfold mbind, M_bind, gets in *.
    rewrite (pool_inv_zlen_blocks _ _ _ Hp). rewrite (proj2 (Z.ltb_lt _ _)) by lia.
    unfold py_assert, mret, M_ret, lift_result. rewrite (pi_blocks _ _ _ Hp), py_index_seq by lia.
    by rewrite Hrun1.
  - intros i. destruct (Hh2 i) as [-> ->]. unfold refc, hashc. rewrite Hh1, heap_alter.
    destruct (decide (Block (Z.to_nat id) = Block i)) as [[= <-]|Hne]; simpl.
    + rewrite Z2Nat.id by lia. rewrite (decide_True (P:=id ∈ id :: ids)) by left.
      by case_decide.
    + assert (Z.of_nat i ≠ id) by (intros <-; rewrite Nat2Z.id in Hne; done).
      split; [done|]. repeat case_decide; set_solver.
Qed.

#[global] Instance Block_inj : Inj (=) (=) Block.
Proof. by intros i j [= ->]. Qed.

(** The free list is, up to order, the unreferenced blocks other than the null
    block. *)
Definition unreferenced (p : BlockPool) : list loc :=
  Block <$> filter (λ i, refc p i = 0) (seq 1 (nblocks p - 1)).

Lemma pool_free_perm p free : pool_inv p free [] → free ≡ₚ unreferenced p.
Proof.
  intros Hp. pose proof (pi_nodup _ _ _ Hp) as Hnd. pose proof (pi_free _ _ _ Hp) as Hf.
  rewrite app_nil_r in Hnd. apply NoDup_Permutation; [done| |].
  - apply (NoDup_fmap_2 Block). apply NoDup_filter, NoDup_seq.
  - intros b. rewrite app_nil_r in Hf. rewrite Hf. unfold unreferenced. rewrite list_elem_of_fmap.
    split; intros (i & -> & Hi).
    + exists i. split; [done|]. apply list_elem_of_filter. split; [apply Hi|]. apply elem_of_seq. lia.
    + exists i. apply list_elem_of_filter in Hi as [? ?%elem_of_seq]. split_and!; [done|lia..|done].
Qed.

(** Blocks referenced by some request. *)
Definition num_referenced (p : BlockPool) : Z :=
  zlen (filter (λ i, refc p i ≠ 0) (seq 1 (nblocks p - 1))).

Lemma filter_split_length {A} (Q : A → Prop) `{∀ x, Decision (Q x)} (l : list A) :
  zlen (filter Q l) + zlen (filter (λ x, ¬ Q x) l) = zlen l.
Proof.
  induction l as [|x l IH]; [done|]. rewrite !filter_cons, zlen_cons.
  repeat case_decide; rewrite ?zlen_cons; tauto || lia.
Qed.

(** Conservation: every block but the null block is either queued or referenced. *)
Lemma pool_conservation p free :
  pool_inv p free [] →
  get_num_free_blocks p + num_referenced p = num_gpu_blocks p - 1.
Proof.
  intros Hp. unfold get_num_free_blocks. rewrite (qr_num _ _ (pi_queue _ _ _ Hp)).
  assert (zlen free = zlen (filter (λ i, refc p i = 0) (seq 1 (nblocks p - 1)))) as ->.
  { unfold zlen. rewrite (Permutation_length (pool_free_perm _ _ Hp)). unfold unreferenced.
    by rewrite length_fmap. }
  unfold num_referenced. rewrite filter_split_length. unfold zlen. rewrite length_seq.
  pose proof (pool_inv_nblocks _ _ _ Hp). pose proof (pi_pos _ _ _ Hp). lia.
Qed.

Lemma reset_loop_spec bs p :
  ∃ p', forM bs (λ b, onq (reset_hash b)) p = Ok (tt, p')
    ∧ p' = bp_set_free_block_queue (free_block_queue p') p
    ∧ get_num_free_blocks p' = get_num_free_blocks p
    ∧ ∀ x, pool_heap p' x = if decide (x ∈ bs) then with_hash None (pool_heap p x) else pool_heap p x.
Proof.
  revert p. induction bs as [|b bs IH]; intros p.
  { exists p. split; [done|]. split; [by destruct p|]. split; [done|].
    intros x. by rewrite decide_False by apply not_elem_of_nil. }
  set (p1 := bp_set_free_block_queue
    (mkQueue (alter (with_hash None) b (pool_heap p)) (get_num_free_blocks p)) p).
  destruct (IH p1) as (p2 & Hrun & Hp2 & Hn2 & Hh2). exists p2. split; [exact Hrun|].
  split; [by rewrite Hp2|]. split; [by rewrite Hn2|].
  intros x. rewrite Hh2. unfold p1, pool_heap. simpl. rewrite heap_alter.
  destruct (decide (b = x)) as [<-|].
  - rewrite (decide_True (P:=b ∈ b :: bs)) by left. by case_decide.
  - repeat case_decide; set_solver.
Qed.

Lemma pool_inv_clear p q' free :
  pool_inv p free [] →
  num_free_blocks q' = get_num_free_blocks p →
  (∀ x, q_heap q' x = if decide (x ∈ bp_blocks p) then with_hash None (pool_heap p x) else pool_heap p x) →
  pool_inv (bp_set_free_block_queue q' (bp_set_cached_block_hash_to_block ∅ p)) free [].
Proof.
  intros [H1 H2 H3 H4 H5 H6 H7 H8 H9 H10 H11 H12] Hn Hq.
  assert (Hmeta : ∀ x, same_links (pool_heap p x) (q_heap q' x)
    ∧ block_id (q_heap q' x) = block_id (pool_heap p x)
    ∧ is_null (q_heap q' x) = is_null (pool_heap p x)
    ∧ ref_cnt (q_heap q' x) = ref_cnt (pool_heap p x)).
  { intros x. rewrite Hq. by case_decide. }
  assert (Hhash : ∀ i, (i < nblocks p)%nat → _block_hash (q_heap q' (Block i)) = None).
  { intros i Hi. rewrite Hq, decide_True; [done|]. rewrite H3. apply list_elem_of_fmap.
    exists i. split; [done|]. apply elem_of_seq. lia. }
  split; try done; unfold hashc, refc, pool_heap, nblocks in *; simpl in *.
  - apply (queue_repr_same (free_block_queue p)); [|done|done]. intros x. apply Hmeta.
  - intros i Hi. destruct (Hmeta (Block i)) as (_ & _ & -> & _). by apply H5.
  - intros i Hi. destruct (Hmeta (Block i)) as (_ & -> & _). by apply H6.
  - intros x. rewrite H8. split; intros (i & -> & Hi & Hr); exists i; (split; [done|]);
      (split; [done|]); destruct (Hmeta (Block i)) as (_ & _ & _ & Heq); by rewrite Heq in *.
  - intros i Hi. destruct (Hmeta (Block i)) as (_ & _ & _ & ->). by apply H9.
  - apply Hhash. lia.
  - intros key b. unfold members. rewrite lookup_empty. split; [by intros ?%not_elem_of_nil|].
    intros (i & -> & Hi & Hh). by rewrite Hhash in Hh by lia.
Qed.

(** The reset succeeds exactly when no block but the null block is in use, and
    then forgets every hash; otherwise it changes nothing. *)
Lemma reset_prefix_cache_spec p free :
  pool_inv p free [] →
  ∃ p', reset_prefix_cache p = Ok (bool_decide (num_referenced p = 0), p')
    ∧ pool_inv p' free [] ∧ same_config p p'
    ∧ (num_referenced p ≠ 0 → p' = p)
    ∧ ∀ i, refc p' i = refc p i ∧ ((i < nblocks p)%nat →
        hashc p' i = if decide (num_referenced p = 0) then None else hashc p i).
Proof.
  intros Hp. pose proof (pool_conservation p free Hp) as Hcons.
  unfold reset_prefix_cache. munfold.
  destruct (Z.eqb_spec (num_gpu_blocks p - get_num_free_blocks p) 1) as [He|He]; simpl.
  2:{ exists p. rewrite bool_decide_eq_false_2 by lia. split_and!; try done.
      intros i. by rewrite decide_False by lia. }
  destruct (reset_loop_spec (bp_blocks p) (bp_set_cached_block_hash_to_block ∅ p))
    as (p1 & Hrun & Heq & Hn & Hh).
  assert (Hp1 : pool_inv p1 free []) by (rewrite Heq; by apply pool_inv_clear).
  fold (forM (bp_blocks p) (λ b, onq (reset_hash b))). rewrite Hrun.
  rewrite (bool_decide_eq_true_2 (num_referenced p = 0)) by lia. eexists. split; [done|].
  split; [|split; [|split; [lia|]]].
  - set (mc := (λ l, l ++ _) <$> metrics_collector p1).
    destruct (pool_inv_logs _ _ _ [] mc Hp1) as [_ Hp2]. simpl. case_match; [|done].
    by eapply pool_inv_logs.
  - rewrite Heq. case_match; by repeat split.
  - intros i. rewrite (decide_True (P:=num_referenced p = 0)) by lia.
    assert (refc p1 i = refc p i ∧ ((i < nblocks p)%nat → hashc p1 i = None)) as Hf.
    { unfold refc, hashc. rewrite Hh. split; [by case_decide|]. intros Hi.
      rewrite decide_True; [done|]. rewrite (pi_blocks _ _ _ Hp). apply list_elem_of_fmap.
      exists i. split; [done|]. apply elem_of_seq. lia. }
    by case_match.
Qed.

(** ** Construction *)

Lemma new_block_pool_spec n ec hbs ev ui mo :
  0 < n →
  ∃ p, new_block_pool n ec hbs ev ui mo = Ok p
    ∧ pool_inv p (Block <$> seq 1 (Z.to_nat n - 1)) []
    ∧ num_gpu_blocks p = n ∧ enable_caching p = ec ∧ hash_block_size p = hbs
    ∧ ∀ i, refc p i = 0 ∧ hashc p i = None.
Proof.
  intros Hn. unfold new_block_pool. rewrite (proj2 (Z.ltb_lt 0 n)) by lia. simpl.
  destruct (init_spec (mkQueue fresh_heap 0) (Block <$> seq 0 (Z.to_nat n))) as (q1 & -> & Hq1 & Hm1).
  { apply (NoDup_fmap_2 Block), NoDup_seq. }
  { apply Forall_fmap, Forall_true. intros i. by exists i. }
  { by intros i. }
  assert (seq 0 (Z.to_nat n) = 0%nat :: seq 1 (Z.to_nat n - 1)) as Hseq.
  { replace (Z.to_nat n) with (S (Z.to_nat n - 1)) at 1 by lia. done. }
  rewrite Hseq in Hq1. simpl in Hq1.
  destruct (popleft_cons _ _ _ Hq1) as (q2 & Hpop & Hq2 & Hm2). munfold. rewrite Hpop. simpl.
  eexists. split; [done|].
  assert (Hf : ∀ i, let b := alter (with_is_null true) (Block 0) (q_heap q2) (Block i) in
    block_id b = Z.of_nat i ∧ ref_cnt b = 0 ∧ _block_hash b = None ∧ is_null b = bool_decide (i = 0%nat)).
  { intros i. simpl. rewrite heap_alter. destruct (Hm1 i) as (I1 & I2 & I3 & I4).
    destruct (Hm2 (Block i)) as (J1 & J2 & J3 & J4). rewrite I1 in J1. rewrite I2 in J2.
    rewrite I3 in J3. rewrite I4 in J4. simpl in *.
    destruct (decide (Block 0 = Block i)) as [[= <-]|Hne]; simpl; [by split_and!|].
    rewrite bool_decide_eq_false_2 by congruence. by split_and!. }
  split; [|split_and!; [done..|]].
  2:{ intros i. destruct (Hf i) as (_ & Hr & Hh & _). by split. }
  split; unfold refc, hashc, pool_heap, nblocks; simpl in *; try done.
  - apply (queue_repr_same q2); [|done|done]. intros x. simpl. rewrite heap_alter.
    by destruct (decide (Block 0 = x)) as [<-|].
  - intros i _. by destruct (Hf i) as (_ & _ & _ & ->).
  - intros i _. by destruct (Hf i) as (-> & _).
  - rewrite app_nil_r. apply (NoDup_fmap_2 Block), NoDup_seq.
  - intros b. rewrite app_nil_r, list_elem_of_fmap.
    split; intros (i & -> & Hi); exists i; (split; [done|]).
    + apply elem_of_seq in Hi. destruct (Hf i) as (_ & -> & _). split; [lia|done].
    + apply elem_of_seq. lia.
  - intros i _. by destruct (Hf i) as (_ & -> & _).
  - exact (proj1 (proj2 (proj2 (Hf 0%nat)))).
  - intros key b. unfold members. rewrite lookup_empty. split; [by intros ?%not_elem_of_nil|].
    intros (i & _ & _ & Hh). by destruct (Hf i) as (_ & _ & E & _); rewrite E in Hh.
Qed.

(** ** Caching full blocks *)

(** The blocks a call of [cache_full_blocks] gives a key, with their keys. *)
Fixpoint assigned (h : heap) (gid : Z) (mask : option (list bool)) (hs : list bytes) (i : nat)
    (bs : list loc) : list (loc * bytes) :=
  match bs with
  | [] => []
  | b :: bs =>
      let rest := assigned h gid mask hs (S i) bs in
      if skip_block h mask i b then rest
      else match hs !! i with Some k => (b, k ++ be_bytes 4 gid) :: rest | None => rest end
  end.

Lemma skip_block_null h h' mask i b :
  is_null (h' b) = is_null (h b) → skip_block h' mask i b = skip_block h mask i b.
Proof. unfold skip_block. by intros ->. Qed.

Lemma assigned_null h h' gid mask hs i bs :
  (∀ b, is_null (h' b) = is_null (h b)) → assigned h' gid mask hs i bs = assigned h gid mask hs i bs.
Proof.
  intros Hn. revert i. induction bs as [|b bs IH]; intros i; simpl; [done|].
  by rewrite (skip_block_null h h'), IH by done.
Qed.

Lemma assigned_subset h gid mask hs i bs b :
  b ∈ (assigned h gid mask hs i bs).*1 → b ∈ bs.
Proof.
  revert i. induction bs as [|x bs IH]; intros i; simpl; [done|].
  case_match; [intros ?%IH; by right|]. case_match; [|intros ?%IH; by right].
  csimpl. intros [->|?%IH]%elem_of_cons; [by left|by right].
Qed.

(** Giving one uncached block a key. *)
Lemma pool_inv_assign p free i key :
  pool_inv p free [] → (0 < i < nblocks p)%nat → hashc p i = None →
  pool_inv (set_hash_and_map (Block i) (Some key)
    (map_insert (pool_heap p) (cached_block_hash_to_block p) key (Block i)) p) free [].
Proof.
  intros Hp Hi Hh. pose proof (pi_cached _ _ _ Hp) as Hcd.
  destruct (map_insert_spec (pool_heap p) (cached_block_hash_to_block p) key (Block i))
    as (Hwf & Hm1 & Hm2); [apply (pi_map_wf _ _ _ Hp)| |].
  { rewrite list_elem_of_fmap. intros (x & Hid & Hx). apply Hcd in Hx as (j & -> & Hj & Hhj).
    rewrite !(pi_id _ _ _ Hp) in Hid by lia. assert (i = j) as -> by lia. congruence. }
  apply pool_inv_hash; [done| |done|].
  { intros _ [= ->]. lia. }
  intros key' x. destruct (decide (key' = key)) as [->|Hne].
  - rewrite Hm1, elem_of_app, list_elem_of_singleton, Hcd. split.
    + intros [(j & -> & Hj & Hhj)| ->].
      * exists j. rewrite decide_False by (intros [= <-]; congruence). done.
      * exists i. by rewrite decide_True.
    + intros (j & -> & Hj & Hv). destruct (decide (Block i = Block j)) as [->|]; [by right|].
      left. eauto.
  - rewrite Hm2, Hcd by done. split; intros (j & -> & Hj & Hv); exists j; (split; [done|]);
      (split; [done|]); destruct (decide (Block i = Block j)) as [[= <-]|]; congruence.
Qed.

Definition assign (todo : list (loc * bytes)) (j : nat) (old : option bytes) : option bytes :=
  match dict_get todo (Block j) with Some key => Some key | None => old end.

Lemma set_block_hash_run p j key :
  hashc p j = None →
  onq (set_block_hash (Block j) key) p = Ok (tt, bp_set_free_block_queue
    (mkQueue (alter (with_hash (Some key)) (Block j) (pool_heap p)) (get_num_free_blocks p)) p).
Proof.
  intros Hh. unfold onq, zoom, set_block_hash. munfold. fold (pool_heap p). fold (hashc p j).
  by rewrite Hh.
Qed.

Lemma map_insert_ids h h' m key b :
  (∀ x, block_id (h' x) = block_id (h x)) → map_insert h' m key b = map_insert h m key b.
Proof. intros Hid. unfold map_insert. by repeat case_match; rewrite ?Hid. Qed.


Section caching_spec.
Context `{HashConfig}.

Lemma cache_loop_spec gid mask hs i bs p free :
  let todo := assigned (pool_heap p) gid mask hs i bs in
  pool_inv p free [] → in_pool p bs → 0 ≤ gid < 256 ^ 4 → (i + length bs ≤ length hs)%nat →
  NoDup todo.*1 → (∀ b, b ∈ todo.*1 → _block_hash (pool_heap p b) = None) →
  ∃ p', cache_loop gid mask hs i bs p
      = Ok ((λ bk, maybe_convert_block_hash (use_int_block_hashes p) (get_block_hash bk.2)) <$> todo, p')
    ∧ pool_inv p' free [] ∧ same_config p p' ∧ kv_event_queue p' = kv_event_queue p
    ∧ (∀ j, refc p' j = refc p j ∧ hashc p' j = assign todo j (hashc p j))
    ∧ ∀ x, is_null (pool_heap p' x) = is_null (pool_heap p x).
Proof.
  intros todo. subst todo. intros Hp Hin Hg. revert i p Hp Hin.
  induction bs as [|b bs IH]; intros i p Hp Hin Hlen Hnd Hnone.
  { exists p. by split_and!. }
  simpl in Hlen, Hnd, Hnone. apply Forall_cons in Hin as [(j & -> & Hj) Hin].
  cbn [cache_loop assigned]. unfold mbind, M_bind, get.
  destruct (skip_block (pool_heap p) mask i (Block j)) eqn:Es.
  { apply IH; try done. lia. }
  destruct (lookup_lt_is_Some_2 hs i) as [k Hk]; [lia|]. rewrite Hk in *. csimpl in *.
  apply NoDup_cons in Hnd as [Hni Hnd].
  assert (Hhj : hashc p j = None) by (apply Hnone; left).
  assert (Hj0 : j ≠ 0%nat).
  { intros ->. unfold skip_block in Es. by rewrite (pi_is_null _ _ _ Hp), bool_decide_eq_true_2 in Es. }
  fold (hashc p j). rewrite Hhj, bool_decide_eq_true_2 by done.
  unfold py_assert, lift_result. unfold mret, M_ret. rewrite (py_index_nat _ _ _ Hk), make_key_ok by done.
  rewrite set_block_hash_run by done. unfold modify.
  set (key := k ++ be_bytes 4 gid) in *.
  rewrite (map_insert_ids (pool_heap p)).
  2:{ intros x. unfold pool_heap. simpl. rewrite heap_alter. by destruct (decide _) as [<-|]. }
  pose proof (pool_inv_assign p free j key Hp ltac:(lia) Hhj) as Hp1.
  match goal with |- context [cache_loop gid mask hs (S i) bs ?q] => set (p1 := q) end.
  change (pool_inv p1 free []) in Hp1.
  assert (Hnull : ∀ x, is_null (pool_heap p1 x) = is_null (pool_heap p x)).
  { intros x. unfold p1, pool_heap. simpl. rewrite heap_alter. by destruct (decide _) as [<-|]. }
  pose proof (assigned_null (pool_heap p) (pool_heap p1) gid mask hs (S i) bs Hnull) as Has.
  destruct (IH (S i) p1 Hp1) as (p2 & Hrun & Hp2 & Hc2 & He2 & Hh2 & Hn2); rewrite ?Has; [done|lia|done| |].
  { intros b Hb. unfold p1, pool_heap. simpl. rewrite heap_alter, decide_False.
    - apply Hnone. by right.
    - intros <-. done. }
  rewrite Has in Hrun, Hh2. exists p2. rewrite Hrun.
  split; [unfold key; by rewrite get_block_hash_app by done|].
  split; [done|]. split; [done|]. split; [by rewrite He2|].
  split; [|intros x; by rewrite Hn2, Hnull].
  intros x. destruct (Hh2 x) as [-> ->]. unfold p1, refc, hashc, pool_heap. simpl. rewrite !heap_alter.
  unfold assign. simpl. destruct (decide (Block j = Block x)) as [[= <-]|Hne]; [|done].
  rewrite (proj2 (dict_del_fresh _ _ Hni)). done.
Qed.

(** The extra keys published for the blocks cached by a call. *)
Fixpoint published_keys (h : heap) (r : Request) (mask : option (list bool)) (bs nc : Z)
    (i : nat) (blocks : list loc) : list (option (list extra_key)) :=
  match blocks with
  | [] => []
  | b :: blocks =>
      let rest := published_keys h r mask bs nc (S i) blocks in
      if skip_block h mask i b then rest
      else let s := (nc + Z.of_nat i) * bs in ref_extra_keys r s (s + bs) :: rest
  end.

Lemma published_keys_memo h r r' mask bs nc i blocks :
  same_but_memo r r' → published_keys h r' mask bs nc i blocks = published_keys h r mask bs nc i blocks.
Proof.
  intros Hr. revert i. induction blocks as [|b blocks IH]; intros i; simpl; [done|].
  by rewrite IH, (ref_extra_keys_memo _ _ _ _ Hr).
Qed.

Lemma extra_keys_loop_spec h r mask bs nc i blocks idx :
  0 < bs → mm_sorted (mm_features r) → idx_ok (mm_features r) idx ((nc + Z.of_nat i) * bs) →
  memo_ok r →
  extra_keys_loop h r mask bs nc i blocks idx = Ok (published_keys h r mask bs nc i blocks).
Proof.
  intros Hbs. revert r i idx. induction blocks as [|b blocks IH]; intros r i idx Hs Hidx Hm; [done|].
  simpl. set (s := (nc + Z.of_nat i) * bs) in *.
  assert (Hnext : (nc + Z.of_nat (S i)) * bs = s + bs) by (unfold s; lia).
  destruct (skip_block h mask i b).
  { apply IH; [done| |done]. rewrite Hnext. eapply idx_ok_mono; [|done]. lia. }
  destruct (generate_keys_spec r s (s + bs) idx) as (idx' & r' & -> & Hi & Hr & Hm'); [lia|done..|].
  munfold. assert (mm_features r' = mm_features r) as Hfs by (by rewrite Hr).
  rewrite IH; [by rewrite (published_keys_memo _ _ _ _ _ _ _ _ Hr)|by rewrite Hfs| |done].
  by rewrite Hnext, Hfs.
Qed.

(** The request's hashes at the granularity of [block_size]. *)
Definition hashes_at (hash_block_size block_size : Z) (l : list bytes) : list bytes :=
  if block_size =? hash_block_size then l
  else bhl_iter (mkBHL l (block_size / hash_block_size)).

Lemma drop_zrange a b : 0 ≤ a ≤ b → drop (Z.to_nat a) (zrange 0 b) = zrange a b.
Proof.
  intros Hab. unfold zrange. apply list_eq. intros i. rewrite lookup_drop.
  destruct (decide (Z.of_nat i < b - a)).
  - rewrite !lookup_seqZ_lt by lia. f_equal. lia.
  - rewrite !lookup_seqZ_ge by lia. done.
Qed.

Lemma bhl_from_drop l a : 0 ≤ a ≤ bhl_len l → bhl_from l a = drop (Z.to_nat a) (bhl_iter l).
Proof.
  intros Ha. unfold bhl_from, bhl_iter. rewrite clamp_index_pos by done.
  by rewrite skipn_map, drop_zrange.
Qed.

Lemma zlen_bhl_iter l : 0 ≤ bhl_len l → zlen (bhl_iter l) = bhl_len l.
Proof. intros Hl. unfold bhl_iter, zlen, zrange. rewrite length_map, length_seqZ. lia. Qed.

Lemma hashes_at_len hbs bs l :
  0 < hbs → 0 < bs → bs mod hbs = 0 → zlen (hashes_at hbs bs l) ≤ zlen l.
Proof.
  intros Hh Hb Hm. unfold hashes_at. destruct (Z.eqb_spec bs hbs); [done|].
  assert (1 ≤ bs / hbs) by (apply Z.div_le_lower_bound; [lia|];
    rewrite Z.mul_1_r; apply Z.divide_pos_le; [lia|]; apply Z.mod_divide; lia).
  pose proof (zlen_nonneg l).
  rewrite zlen_bhl_iter; unfold bhl_len; simpl; [apply Z.div_le_upper_bound; nia|apply Z.div_pos; lia].
Qed.

(** The event published by a call that gives keys to [todo]. *)
Definition stored_event (p : BlockPool) (r : Request) (hs : list bytes) (new : list loc)
    (nc nf bs gid : Z) (mask : option (list bool)) (todo : list (loc * bytes)) : KVCacheEvent :=
  let conv := maybe_convert_block_hash (use_int_block_hashes p) in
  let eks := published_keys (pool_heap p) r mask bs nc 0 new in
  BlockStored ((λ bk, conv (get_block_hash bk.2)) <$> todo)
    (if nc =? 0 then None else conv <$> hs !! Z.to_nat (nc - 1))
    (py_slice (_all_token_ids r) (nc * bs) (nf * bs)) bs
    (lora_int_id <$> lora_request r) (lora_name <$> lora_request r)
    (if bool_decide (eks = []) then None else Some eks) gid.

Lemma published_keys_null h h' r mask bs nc i blocks :
  (∀ b, is_null (h' b) = is_null (h b)) →
  published_keys h' r mask bs nc i blocks = published_keys h r mask bs nc i blocks.
Proof.
  intros Hn. revert i. induction blocks as [|b blocks IH]; intros i; simpl; [done|].
  by rewrite (skip_block_null h h'), IH by done.
Qed.

(** The hash list [cache_full_blocks] picks. *)
Definition pick_hashes (p : BlockPool) (r : Request) (bs : Z) : BlockHashList :=
  if bs =? hash_block_size p then HashList (block_hashes r)
  else ScaledHashList (mkBHL (block_hashes r) (bs / hash_block_size p)).

Lemma pick_hashes_from p r bs nc :
  0 ≤ nc ≤ zlen (hashes_at (hash_block_size p) bs (block_hashes r)) →
  bh_from (pick_hashes p r bs) nc
    = drop (Z.to_nat nc) (hashes_at (hash_block_size p) bs (block_hashes r)).
Proof.
  unfold pick_hashes, hashes_at. destruct (bs =? hash_block_size p); intros Hnc; simpl.
  - unfold py_from. by rewrite clamp_index_pos.
  - set (l := mkBHL _ _) in *. destruct (decide (0 ≤ bhl_len l)).
    + rewrite zlen_bhl_iter in Hnc by done. by apply bhl_from_drop.
    + unfold bhl_iter, zrange, zlen in Hnc. rewrite length_map, length_seqZ in Hnc.
      assert (nc = 0) as -> by lia. unfold bhl_from, clamp_index. simpl.
      rewrite drop_0. by replace (Z.max 0 (bhl_len l `min` 0)) with 0 by lia.
Qed.

Lemma pick_hashes_index p r bs i h :
  hashes_at (hash_block_size p) bs (block_hashes r) !! i = Some h →
  bh_index (pick_hashes p r bs) (Z.of_nat i) = Ok h.
Proof.
  unfold pick_hashes, hashes_at. destruct (bs =? hash_block_size p); simpl; [apply py_index_nat|].
  unfold bhl_iter. rewrite list_lookup_fmap. intros (z & Hz & ->)%fmap_Some.
  apply lookup_seqZ in Hz as [-> _]. by rewrite Z.add_0_l.
Qed.

Lemma pick_hashes_run p r bs :
  0 < hash_block_size p → bs mod hash_block_size p = 0 →
  (if bs =? hash_block_size p then mret (HashList (block_hashes r))
   else l ← lift_result (new_bhl (block_hashes r) (hash_block_size p) bs);
        mret (ScaledHashList l)) p = Ok (pick_hashes p r bs, p).
Proof.
  intros Hz1 Hz3. unfold pick_hashes. destruct (bs =? hash_block_size p); [done|].
  unfold lift_result, new_bhl. munfold. by rewrite (proj2 (Z.eqb_neq _ 0)), Hz3 by lia.
Qed.

Lemma parent_run p r bs nc (p1 : BlockPool) :
  let hs := hashes_at (hash_block_size p) bs (block_hashes r) in
  0 ≤ nc ≤ zlen hs →
  (if nc =? 0 then mret None
   else h ← lift_result (bh_index (pick_hashes p r bs) (nc - 1));
        mret (Some (maybe_convert_block_hash (use_int_block_hashes p) h))) p1
  = Ok (if nc =? 0 then None
        else maybe_convert_block_hash (use_int_block_hashes p) <$> hs !! Z.to_nat (nc - 1), p1).
Proof.
  intros hs Hnc. destruct (Z.eqb_spec nc 0); [done|].
  destruct (lookup_lt_is_Some_2 hs (Z.to_nat (nc - 1))) as [h Eh]; [unfold zlen in *; lia|].
  pose proof (pick_hashes_index p r bs _ _ Eh) as Ei. rewrite Z2Nat.id in Ei by lia.
  munfold. by rewrite Ei, Eh.
Qed.

(** What a caller of [cache_full_blocks] has to provide. *)
Record cache_pre (p : BlockPool) (r : Request) (blocks : list loc) (nc nf bs gid : Z)
    (mask : option (list bool)) (hs : list bytes) (new : list loc) (todo : list (loc * bytes)) : Prop := {
  cp_blocks : in_pool p blocks;
  cp_range : 0 ≤ nc < nf;
  cp_have : nf ≤ zlen blocks;
  cp_sizes : 0 < hash_block_size p ∧ 0 < bs ∧ bs mod hash_block_size p = 0;
  cp_hs : hs = hashes_at (hash_block_size p) bs (block_hashes r);
  cp_hashed : nf ≤ zlen hs;
  cp_new : new = py_slice blocks nc nf;
  cp_mask : match mask with Some m => length m = length new | None => True end;
  cp_gid : 0 ≤ gid < 256 ^ 4;
  cp_todo : todo = assigned (pool_heap p) gid mask (drop (Z.to_nat nc) hs) 0 new;
  cp_nodup : NoDup todo.*1;
  cp_unhashed : ∀ b, b ∈ todo.*1 → _block_hash (pool_heap p b) = None;
  cp_request : mm_sorted (mm_features r) ∧ memo_ok r
}.

Lemma cache_full_blocks_spec p free r blocks nc nf bs gid mask hs new todo :
  pool_inv p free [] → cache_pre p r blocks nc nf bs gid mask hs new todo →
  ∃ p', cache_full_blocks r blocks nc nf bs gid mask p = Ok (tt, p')
    ∧ pool_inv p' free [] ∧ same_config p p'
    ∧ kv_event_queue p' = kv_event_queue p ++
        (if enable_kv_cache_events p then [stored_event p r hs new nc nf bs gid mask todo] else [])
    ∧ ∀ j, refc p' j = refc p j ∧ hashc p' j = assign todo j (hashc p j).
Proof.
  intros Hp [Hin Hr Hhave (Hz1 & Hz2 & Hz3) -> Hhs -> Hmask Hg -> Hnd Hun [Hmm Hmemo]].
  set (hs := hashes_at _ _ _) in *. set (new := py_slice blocks nc nf) in *.
  set (todo := assigned _ _ _ _ _ _) in *.
  assert (Hnew : length new = Z.to_nat (nf - nc)).
  { unfold new, zlen in *. rewrite py_slice_pos, length_take, length_drop by lia. lia. }
  pose proof (hashes_at_len _ _ (block_hashes r) Hz1 Hz2 Hz3) as Hlen. fold hs in Hlen.
  destruct (cache_loop_spec gid mask (drop (Z.to_nat nc) hs) 0 new p free)
    as (p1 & Hrun & Hp1 & Hc1 & He1 & Hh1 & Hn1); [done| |done| |done|done|].
  { unfold new. rewrite py_slice_pos by (unfold zlen in *; lia). by apply Forall_take, Forall_drop. }
  { rewrite Hnew, length_drop. unfold zlen in *. lia. }
  fold todo in Hrun, Hh1.
  unfold cache_full_blocks. rewrite (proj2 (Z.leb_gt nf nc)) by lia. fold new.
  rewrite (proj2 (Z.leb_le nf _)) by lia.
  mstep. mstep by (destruct mask; [by rewrite bool_decide_eq_true_2|done]). mstep.
  mstep by (by apply pick_hashes_run). rewrite pick_hashes_from by (fold hs; lia). fold hs.
  mstep by exact Hrun. destruct (enable_kv_cache_events p) eqn:Eev.
  2:{ exists p1. rewrite app_nil_r. by split_and!. }
  mstep by (by apply parent_run; fold hs; lia). fold hs.
  rewrite (proj2 (Z.ltb_ge _ nf)) by lia. mstep. mstep. unfold lift_result.
  rewrite extra_keys_loop_spec; [|done|done| |done].
  2:{ left. split; [pose proof (zlen_nonneg (mm_features r)); lia|]. constructor. }
  mstep.
  rewrite (published_keys_null (pool_heap p) (pool_heap p1)) by done.
  eexists. split; [reflexivity|].
  assert (enable_kv_cache_events p1 = true) as Eev1 by (destruct Hc1 as (_&_&_&_&_&->&_); done).
  rewrite Eev1. split; [exact (proj1 (pool_inv_logs p1 _ _ _ None Hp1))|].
  split; [done|]. split; [by simpl; rewrite He1|done].
Qed.
End caching_spec.

(** ** Looking up *)

Lemma get_cached_block_spec p free h gids :
  pool_inv p free [] → Forall (λ g, 0 ≤ g < 256 ^ 4) gids →
  ∃ res, get_cached_block p h gids = Ok res ∧
    match res with
    | Some bs => Forall2 (λ g b, ∃ i, b = Block i ∧ (0 < i < nblocks p)%nat
                                   ∧ hashc p i = Some (h ++ be_bytes 4 g)) gids bs
    | None => Exists (λ g, ∀ i, (i < nblocks p)%nat → hashc p i ≠ Some (h ++ be_bytes 4 g)) gids
    end.
Proof.
  intros Hp. induction 1 as [|g gids Hg Hgs (res & IH & Hres)]; simpl.
  { exists (Some []). by split; [|constructor]. }
  rewrite make_key_ok by done. munfold.
  rewrite (get_one_block_members (pool_heap p)) by apply (pi_map_wf _ _ _ Hp).
  pose proof (pi_cached _ _ _ Hp (h ++ be_bytes 4 g)) as Hm.
  destruct (members _ _) as [|b bs]; simpl.
  - eexists. split; [done|]. left. intros i Hi Hh.
    assert (i ≠ 0%nat) by (intros ->; by rewrite (pi_null_hash _ _ _ Hp) in Hh).
    eapply not_elem_of_nil, Hm. exists i. split; [done|]. split; [lia|done].
  - rewrite IH. destruct res as [bs'|]; eexists; (split; [done|]).
    + constructor; [apply Hm; left|done].
    + by right.
Qed.

(** ** Traces of pool operations *)

Module PoolTrace.
Section trace.
Context `{HashConfig}.

Inductive op :=
  | GetNew (n : Z)
  | Touch (bs : list loc)
  | Free (bs : list loc) (prepend : bool)
  | Evict (ids : list Z)
  | Reset
  | Cache (r : Request) (blocks : list loc) (nc nf bs gid : Z) (mask : option (list bool))
  | TakeEvents.

Definition run_op (o : op) : P (list loc) :=
  match o with
  | GetNew n => get_new_blocks n
  | Touch bs => _ ← touch bs; mret []
  | Free bs prepend => _ ← free_blocks bs prepend; mret []
  | Evict ids => _ ← evict_blocks ids; mret []
  | Reset => _ ← reset_prefix_cache; mret []
  | Cache r blocks nc nf bs gid mask => _ ← cache_full_blocks r blocks nc nf bs gid mask; mret []
  | TakeEvents => _ ← pool_take_events; mret []
  end.

Fixpoint run (os : list op) : P (list (list loc)) :=
  match os with [] => mret [] | o :: os => x ← run_op o; xs ← run os; mret (x :: xs) end.

(** What the callers guarantee: enough free blocks, blocks of this pool, one
    owned reference per freed block, unhashed blocks to cache. *)
Definition op_pre (p : BlockPool) (o : op) : Prop :=
  match o with
  | GetNew n => 0 ≤ n ≤ get_num_free_blocks p
  | Touch bs => in_pool p bs
  | Free bs _ => freeable p bs
  | Evict ids => Forall (λ id, 0 ≤ id < num_gpu_blocks p) ids
  | Cache r blocks nc nf bs gid mask =>
      nf ≤ nc ∨ ∃ hs new todo, cache_pre p r blocks nc nf bs gid mask hs new todo
  | Reset | TakeEvents => True
  end.

Fixpoint ops_pre (p : BlockPool) (os : list op) : Prop :=
  match os with
  | [] => True
  | o :: os => op_pre p o ∧ ∀ x p', run_op o p = Ok (x, p') → ops_pre p' os
  end.

Lemma run_op_inv p free o :
  pool_inv p free [] → op_pre p o →
  ∃ x p' free', run_op o p = Ok (x, p') ∧ pool_inv p' free' [] ∧ same_config p p'.
Proof.
  intros Hp Hpre. destruct o as [n|bs|bs pre|ids| |r blocks nc nf bs gid mask|]; simpl in *.
  - unfold get_num_free_blocks in Hpre. rewrite (qr_num _ _ (pi_queue _ _ _ Hp)) in Hpre.
    destruct (get_new_blocks_spec p free n Hp Hpre) as (p' & ? & ? & ? & _). eauto 6.
  - destruct (touch_spec bs p free Hp Hpre) as (p' & E & ? & ? & _).
    rewrite (bind_ok _ _ _ _ _ E). eexists _, _, _. eauto.
  - destruct (free_blocks_spec p free bs pre Hp Hpre) as (p' & E & ? & ? & _).
    rewrite (bind_ok _ _ _ _ _ E). eexists _, _, _. eauto.
  - destruct (evict_blocks_spec ids p free Hp Hpre) as (p' & E & ? & ? & _).
    rewrite (bind_ok _ _ _ _ _ E). eexists _, _, _. eauto.
  - destruct (reset_prefix_cache_spec p free Hp) as (p' & E & ? & ? & _).
    rewrite (bind_ok _ _ _ _ _ E). eexists _, _, _. eauto.
  - destruct Hpre as [Hle|(hs & new & todo & Hpre)].
    + unfold cache_full_blocks. rewrite (proj2 (Z.leb_le nf nc) Hle).
      eexists _, _, _. by split.
    + destruct (cache_full_blocks_spec p free r blocks nc nf bs gid mask hs new todo Hp Hpre)
        as (p' & E & ? & ? & _).
      rewrite (bind_ok _ _ _ _ _ E). eexists _, _, _. eauto.
  - unfold pool_take_events. munfold. destruct (enable_kv_cache_events p); simpl;
      eexists _, _, _; (split; [done|]); (split; [|by repeat split]); [|done].
    exact (proj1 (pool_inv_logs p free [] [] None Hp)).
Qed.

Lemma run_inv os p free :
  pool_inv p free [] → ops_pre p os →
  ∃ xs p' free', run os p = Ok (xs, p') ∧ pool_inv p' free' [] ∧ same_config p p'.
Proof.
  revert p free. induction os as [|o os IH]; intros p free Hp Hpre.
  { eexists _, _, _. by split. }
  destruct Hpre as [Ho Hos].
  destruct (run_op_inv p free o Hp Ho) as (x & p1 & free1 & E1 & Hp1 & Hc1).
  destruct (IH p1 free1 Hp1 (Hos _ _ E1)) as (xs & p2 & free2 & E2 & Hp2 & Hc2).
  eexists _, p2, free2. simpl. rewrite (bind_ok _ _ _ _ _ E1), (bind_ok _ _ _ _ _ E2).
  split; [done|]. split; [done|]. by etrans.
Qed.
End trace.
End PoolTrace.

(** C7. Any sequence of allocations, touches, frees, evictions, resets, cachings
    and event drains on a new pool of [n] blocks, whose callers keep to the
    stated preconditions, runs without exception. Afterwards every block but the
    null block is either queued exactly once or referenced (the counts add up to
    [n - 1]), a block is queued exactly when its count is 0, and a block is in
    the prefix-cache index under a key exactly when it carries that key. *)
Theorem pool_trace_safe `{HashConfig} n caching hbs events use_int metrics_on (os : list PoolTrace.op) :
  0 < n →
  ∃ p0, new_block_pool n caching hbs events use_int metrics_on = Ok p0 ∧
  (PoolTrace.ops_pre p0 os →
   ∃ xs p free, PoolTrace.run os p0 = Ok (xs, p)
     ∧ queue_repr (free_block_queue p) free ∧ NoDup free
     ∧ get_num_free_blocks p + num_referenced p = n - 1
     ∧ (∀ b, b ∈ free ↔ ∃ i, b = Block i ∧ 0 < Z.of_nat i < n ∧ refc p i = 0)
     ∧ (∀ key b, b ∈ members (cached_block_hash_to_block p) key ↔
          ∃ i, b = Block i ∧ 0 < Z.of_nat i < n ∧ hashc p i = Some key)).
Proof.
  intros Hn. destruct (new_block_pool_spec n caching hbs events use_int metrics_on Hn)
    as (p0 & E0 & Hp0 & Hn0 & _). exists p0. split; [done|]. intros Hpre.
  destruct (PoolTrace.run_inv os p0 _ Hp0 Hpre) as (xs & p & free & E & Hp & Hc).
  assert (num_gpu_blocks p = n) as Hnp by (destruct Hc as [-> _]; done).
  pose proof (pool_inv_nblocks _ _ _ Hp) as Hnb. rewrite Hnp in Hnb.
  pose proof (pi_nodup _ _ _ Hp) as Hnd. pose proof (pi_free _ _ _ Hp) as Hf. rewrite app_nil_r in Hnd.
  exists xs, p, free. split; [done|]. split; [apply (pi_queue _ _ _ Hp)|]. split; [done|].
  split; [by rewrite (pool_conservation _ _ Hp), Hnp|]. split.
  - intros b. rewrite app_nil_r in Hf. rewrite Hf.
    split; intros (i & -> & Hi & ?); exists i; (split; [done|]); (split; [lia|done]).
  - intros key b. rewrite (pi_cached _ _ _ Hp).
    split; intros (i & -> & Hi & ?); exists i; (split; [done|]); (split; [lia|done]).
Qed.

(** Executable forms of the callers' obligations. *)
Definition in_poolb (p : BlockPool) (bs : list loc) : bool :=
  forallb (λ b, match b with Block i => (i <? nblocks p)%nat | _ => false end) bs.
Definition freeableb (p : BlockPool) (bs : list loc) : bool :=
  forallb (λ b, match b with
                | Block i => (i <? nblocks p)%nat && (bool_decide (i = 0%nat) || (0 <? refc p i))
                | _ => false end) bs
  && bool_decide (NoDup (filter (λ b, b ≠ Block 0) bs)).

Lemma in_poolb_ok p bs : in_poolb p bs = true → in_pool p bs.
Proof.
  intros Hb. apply Forall_forall. intros b Hin%list_elem_of_In. apply forallb_forall with (x:=b) in Hb; [|done].
  destruct b as [| |i]; [done..|]. exists i. split; [done|]. by apply Nat.ltb_lt in Hb.
Qed.
Lemma freeableb_ok p bs : freeableb p bs = true → freeable p bs.
Proof.
  intros [Hb Hnd%bool_decide_eq_true]%andb_true_iff. split; [|done].
  apply Forall_forall. intros b Hin%list_elem_of_In. apply forallb_forall with (x:=b) in Hb; [|done].
  destruct b as [| |i]; [done..|]. apply andb_true_iff in Hb as [Hi%Nat.ltb_lt Hr].
  exists i. split; [done|]. split; [done|]. intros Hi0.
  rewrite bool_decide_eq_false_2 in Hr by done. by apply Z.ltb_lt.
Qed.

Module PoolCheck.
Import PoolTrace.
Section check.
Context `{HashConfig}.
Definition op_preb (p : BlockPool) (o : op) : bool :=
  match o with
  | GetNew n => (0 <=? n) && (n <=? get_num_free_blocks p)
  | Touch bs => in_poolb p bs
  | Free bs _ => freeableb p bs
  | Evict ids => forallb (λ id, (0 <=? id) && (id <? num_gpu_blocks p)) ids
  | Cache _ _ nc nf _ _ _ => nf <=? nc
  | Reset | TakeEvents => true
  end.
Fixpoint ops_preb (p : BlockPool) (os : list op) : bool :=
  match os with
  | [] => true
  | o :: os => op_preb p o && match run_op o p with Ok (_, p') => ops_preb p' os | Err _ => true end
  end.

Lemma ops_preb_ok os p : ops_preb p os = true → ops_pre p os.
Proof.
  revert p. induction os as [|o os IH]; intros p; simpl; [done|].
  intros [Ho Hos]%andb_true_iff. split.
  - destruct o; simpl in *; eauto using in_poolb_ok, freeableb_ok.
    + apply andb_true_iff in Ho as [?%Z.leb_le ?%Z.leb_le]. done.
    + apply Forall_forall. intros id Hid%list_elem_of_In.
      apply forallb_forall with (x:=id) in Ho; [|done].
      apply andb_true_iff in Ho as [?%Z.leb_le ?%Z.ltb_lt]. done.
    + left. by apply Z.leb_le.
  - intros x p' E. rewrite E in Hos. by apply IH.
Qed.
End check.
End PoolCheck.

#[local] Existing Instance demo_hash.

Lemma pool_trace_safe_witness :
  let os := [PoolTrace.GetNew 2; PoolTrace.Touch [Block 1]; PoolTrace.Free [Block 1; Block 2] false;
             PoolTrace.Evict [3]; PoolTrace.Reset; PoolTrace.Free [Block 1] true; PoolTrace.Reset] in
  ∃ p0, new_block_pool 4 true 16 true false false = Ok p0 ∧
  ∃ xs p free, PoolTrace.run os p0 = Ok (xs, p)
     ∧ queue_repr (free_block_queue p) free ∧ NoDup free
     ∧ get_num_free_blocks p + num_referenced p = 4 - 1
     ∧ (∀ b, b ∈ free ↔ ∃ i, b = Block i ∧ 0 < Z.of_nat i < 4 ∧ refc p i = 0)
     ∧ (∀ key b, b ∈ members (cached_block_hash_to_block p) key ↔
          ∃ i, b = Block i ∧ 0 < Z.of_nat i < 4 ∧ hashc p i = Some key).
Proof.
  intros os. destruct (pool_trace_safe 4 true 16 true false false os) as (p0 & E0 & W); [lia|].
  exists p0. split; [done|]. apply W. clear W. apply PoolCheck.ops_preb_ok.
  assert (match new_block_pool 4 true 16 true false false with
    Ok p => PoolCheck.ops_preb p os | Err _ => false end = true) as Hb by (by vm_compute).
  by rewrite E0 in Hb.
Defined.

(** ** What the operations promise *)

Section promises.
Context (p : BlockPool) (free : list loc) (Hp : pool_inv p free []).

(** C8. [get_new_blocks] hands out the least recently freed blocks: exactly the
    first [n] of the queue, in order, each with count 1 and (when caching is on)
    without its old key; all other blocks are unchanged. It raises [ValueError]
    exactly when fewer than [n] blocks are free. *)
Theorem get_new_blocks_least_recent n :
  0 ≤ n →
  if decide (zlen free < n) then get_new_blocks n p = Err ValueError
  else ∃ p', get_new_blocks n p = Ok (take (Z.to_nat n) free, p')
    ∧ pool_inv p' (drop (Z.to_nat n) free) []
    ∧ get_num_free_blocks p' = get_num_free_blocks p - n
    ∧ ∀ i, if decide (Block i ∈ take (Z.to_nat n) free)
           then refc p' i = 1 ∧ (enable_caching p = true → hashc p' i = None)
           else refc p' i = refc p i ∧ hashc p' i = hashc p i.
Proof using Hp.
  intros Hn. case_decide; [by eapply get_new_blocks_too_many|].
  destruct (get_new_blocks_spec p free n Hp) as (p' & E & Hp' & _ & Hh); [lia|].
  exists p'. split; [done|]. split; [done|]. split.
  - unfold get_num_free_blocks. rewrite (qr_num _ _ (pi_queue _ _ _ Hp)), (qr_num _ _ (pi_queue _ _ _ Hp')).
    unfold zlen in *. rewrite length_drop. lia.
  - intros i. destruct (Hh i) as [Hr Hs]. case_decide as Hd.
    + rewrite bool_decide_eq_true_2 in Hr, Hs by done. split; [done|].
      intros Hc. by rewrite Hc in Hs.
    + by rewrite bool_decide_eq_false_2 in Hr, Hs by done.
Qed.

(** Touching the blocks of a cache hit and freeing them again restores every
    reference count (the null block's aside) and keeps every key, so the blocks
    stay reusable; the ones that were free move to the tail of the eviction
    order, in the order they were freed. *)
Theorem touch_then_free_keeps_cached bs :
  in_pool p bs → NoDup bs →
  ∃ p1 p2, touch bs p = Ok (tt, p1) ∧ free_blocks bs false p1 = Ok (tt, p2)
    ∧ pool_inv p1 (filter (λ b, b ∉ bs) free) []
    ∧ pool_inv p2 (filter (λ b, b ∉ bs) free ++ filter (λ b, b ∈ free) bs) []
    ∧ ∀ i, (i ≠ 0%nat → refc p2 i = refc p i) ∧ hashc p2 i = hashc p i.
Proof using Hp.
  intros Hin Hnd. destruct (touch_spec bs p free Hp Hin) as (p1 & E1 & Hp1 & Hc1 & Hh1).
  assert (Hocc : ∀ b, occ b bs = if decide (b ∈ bs) then 1 else 0).
  { intros b. clear -Hnd. induction Hnd as [|x bs Hx _ IH].
    - by rewrite decide_False by apply not_elem_of_nil.
    - rewrite occ_cons, IH. destruct (decide (x = b)) as [<-|].
      + rewrite (decide_True (P:=x ∈ x :: bs)) by left. by rewrite decide_False.
      + repeat case_decide; set_solver. }
  assert (Hf : freeable p1 bs).
  { split; [|by apply NoDup_filter]. rewrite Forall_forall. intros b Hb.
    unfold in_pool in Hin. rewrite Forall_forall in Hin. destruct (Hin b Hb) as (i & -> & Hi).
    exists i. rewrite (same_config_nblocks _ _ Hc1). split; [done|]. split; [done|]. intros Hi0.
    destruct (Hh1 i) as [-> _]. rewrite Hocc, decide_True by done.
    pose proof (pi_ref _ _ _ Hp i). lia. }
  destruct (free_blocks_spec p1 _ bs false Hp1 Hf) as (p2 & E2 & Hp2 & _ & Hh2).
  assert (last_refs p1 bs = filter (λ b, b ∈ free) bs) as Hlr.
  { apply list_filter_iff'. intros b Hb. unfold in_pool in Hin. rewrite Forall_forall in Hin.
    destruct (Hin b Hb) as (i & -> & Hi). pose proof (pi_free _ _ _ Hp (Block i)) as Hfr.
    rewrite app_nil_r in Hfr. rewrite Hfr. fold (refc p1 i). destruct (Hh1 i) as [-> _].
    rewrite Hocc, decide_True by done. split.
    - intros [Hi0 Hr]. exists i. assert (i ≠ 0%nat) by congruence. split; [done|]. lia.
    - intros (j & [= <-] & Hj & Hr). split; [intros [= ->]; lia|lia]. }
  rewrite Hlr in Hp2. exists p1, p2. split_and!; [done..|]. intros i.
  destruct (Hh2 i) as [Hr2 ->], (Hh1 i) as [Hr1 ->]. split; [|done].
  intros Hi0. rewrite Hr2, Hr1, Hocc by done. case_decide; lia.
Qed.

(** [reset_prefix_cache] succeeds exactly when no block but the null block
    is referenced; then no block carries a key any more and the index is empty.
    Otherwise it returns [false] and changes nothing. *)
Theorem reset_prefix_cache_iff_idle :
  ∃ p', reset_prefix_cache p = Ok (bool_decide (num_referenced p = 0), p')
    ∧ pool_inv p' free []
    ∧ if decide (num_referenced p = 0)
      then (∀ i, (i < nblocks p)%nat → hashc p' i = None) ∧
           (∀ key, members (cached_block_hash_to_block p') key = [])
      else p' = p.
Proof using Hp.
  destruct (reset_prefix_cache_spec p free Hp) as (p' & E & Hp' & Hc & Hsame & Hh).
  exists p'. split; [done|]. split; [done|]. destruct (decide (num_referenced p = 0)) as [H0|]; [|by apply Hsame].
  assert (∀ i, (i < nblocks p)%nat → hashc p' i = None) as Hnone.
  { intros i Hi. by apply Hh. }
  split; [done|]. intros key. destruct (members _ key) as [|b bs] eqn:Em; [done|exfalso].
  assert (b ∈ members (cached_block_hash_to_block p') key) as Hb by (rewrite Em; left).
  apply (pi_cached _ _ _ Hp') in Hb as (i & -> & Hi & Hk).
  rewrite (same_config_nblocks _ _ Hc) in Hi. rewrite Hnone in Hk by lia. done.
Qed.

(** The reported usage is the share of referenced blocks among the blocks
    other than the null block; it lies between 0 and 1. *)
Theorem get_usage_is_referenced_share :
  (get_usage p == if num_gpu_blocks p =? 1 then 0
                  else inject_Z (num_referenced p) / inject_Z (num_gpu_blocks p - 1))%Q
  ∧ (0 <= get_usage p <= 1)%Q.
Proof using Hp.
  pose proof (pool_conservation p free Hp) as Hcons. pose proof (pi_pos _ _ _ Hp) as Hpos.
  assert (0 ≤ num_referenced p) as Hr by apply zlen_nonneg.
  assert (0 ≤ get_num_free_blocks p) as Hf.
  { unfold get_num_free_blocks. rewrite (qr_num _ _ (pi_queue _ _ _ Hp)). apply zlen_nonneg. }
  unfold get_usage. destruct (Z.eqb_spec (num_gpu_blocks p - 1) 0), (Z.eqb_spec (num_gpu_blocks p) 1);
    try lia; [split; [done|split; discriminate]|].
  set (t := num_gpu_blocks p - 1) in *. set (f := get_num_free_blocks p) in *.
  assert (Ht : (0 < inject_Z t)%Q) by (rewrite <-(Zlt_Qlt 0); lia).
  assert ((1 - inject_Z f / inject_Z t) == inject_Z (num_referenced p) / inject_Z t)%Q as Heq.
  { replace (num_referenced p) with (t - f) by lia. unfold Z.sub. rewrite inject_Z_plus, inject_Z_opp.
    field. intros Hz. rewrite Hz in Ht. by apply Qlt_irrefl in Ht. }
  split; [done|]. rewrite Heq. split.
  - apply Qle_shift_div_l; [done|]. rewrite Qmult_0_l. by rewrite <-(Zle_Qle 0).
  - apply Qle_shift_div_r; [done|]. rewrite Qmult_1_l. rewrite <-Zle_Qle. lia.
Qed.
End promises.

Lemma assign_lookup todo b key i old :
  NoDup todo.*1 → (b, key) ∈ todo → b = Block i → assign todo i old = Some key.
Proof.
  intros Hnd Hin ->. unfold assign.
  apply list_elem_of_split in Hin as (t1 & t2 & ->). rewrite fmap_app in Hnd. simpl in Hnd.
  rewrite (proj2 (dict_del_split t1 t2 (Block i) key ltac:(
    intros Hx; apply NoDup_app in Hnd as (_ & Hn & _); by eapply Hn; [|left]))). done.
Qed.

Lemma assigned_in_pool p gid mask hs n bs todo :
  in_pool p bs → todo = assigned (pool_heap p) gid mask hs n bs →
  ∀ b key, (b, key) ∈ todo → ∃ i, b = Block i ∧ (i < nblocks p)%nat ∧
    ∃ h, key = h ++ be_bytes 4 gid ∧ h ∈ hs.
Proof.
  intros Hin ->. revert n. induction bs as [|x bs IH]; intros n b key; [by intros ?%not_elem_of_nil|].
  apply Forall_cons in Hin as [(i & -> & Hi) Hin]. cbn [assigned].
  destruct (skip_block _ _ _ _); [by apply IH|]. destruct (hs !! n) as [h|] eqn:Eh; [|by apply IH].
  intros [[= -> ->]|Hb]%elem_of_cons; [|by eapply IH].
  exists i. split; [done|]. split; [done|]. exists h. split; [done|]. by eapply list_elem_of_lookup_2.
Qed.

(** C10. Caching full blocks and looking them up: after [cache_full_blocks] every
    block it gave a key is found under its own hash in its group (the answer is a
    block of the pool carrying that very key), every lookup that hit before still
    hits, no reference count changes, and, with events on, exactly one
    [BlockStored] event is queued, carrying the hashes, tokens, parent and extra
    keys of the blocks just cached. *)
Theorem cached_blocks_are_found `{HashConfig} p free r blocks nc nf bs gid mask hs new todo :
  pool_inv p free [] → cache_pre p r blocks nc nf bs gid mask hs new todo →
  ∃ p', cache_full_blocks r blocks nc nf bs gid mask p = Ok (tt, p')
    ∧ pool_inv p' free []
    ∧ (∀ i, refc p' i = refc p i)
    ∧ kv_event_queue p' = kv_event_queue p ++
        (if enable_kv_cache_events p then [stored_event p r hs new nc nf bs gid mask todo] else [])
    ∧ (∀ b key, (b, key) ∈ todo → ∃ i, get_cached_block p' (get_block_hash key) [gid] = Ok (Some [Block i])
                                      ∧ hashc p' i = Some key)
    ∧ (∀ h g, 0 ≤ g < 256 ^ 4 → get_cached_block p h [g] ≠ Ok None →
              get_cached_block p' h [g] ≠ Ok None).
Proof.
  intros Hp Hpre.
  destruct (cache_full_blocks_spec p free r blocks nc nf bs gid mask hs new todo Hp Hpre)
    as (p' & E & Hp' & Hc & He & Hh).
  pose proof (same_config_nblocks _ _ Hc) as Hn.
  exists p'. split; [done|]. split; [done|]. split; [apply Hh|]. split; [done|]. split.
  - intros b key Hin.
    assert (in_pool p new) as Hnew.
    { rewrite (cp_new _ _ _ _ _ _ _ _ _ _ _ Hpre). apply Forall_take, Forall_drop.
      apply (cp_blocks _ _ _ _ _ _ _ _ _ _ _ Hpre). }
    destruct (assigned_in_pool _ _ _ _ _ _ _ Hnew (cp_todo _ _ _ _ _ _ _ _ _ _ _ Hpre) _ _ Hin)
      as (i & -> & Hi & h & -> & _).
    pose proof (assign_lookup _ _ _ i (hashc p i) (cp_nodup _ _ _ _ _ _ _ _ _ _ _ Hpre) Hin eq_refl) as Ha.
    rewrite get_block_hash_app by apply be_bytes_length.
    destruct (get_cached_block_spec p' free h [gid] Hp') as (res & -> & Hres).
    { repeat constructor; apply (cp_gid _ _ _ _ _ _ _ _ _ _ _ Hpre). }
    destruct res as [bs'|].
    + apply Forall2_cons_inv_l in Hres as (b' & bs2 & (j & -> & _ & Hj) & Hnil & ->).
      apply Forall2_nil_inv_l in Hnil as ->. by exists j.
    + exfalso. apply Exists_cons in Hres as [Hno|Hno%Exists_nil]; [|done].
      apply (Hno i); [lia|]. destruct (Hh i) as [_ ->]. done.
  - intros h g Hg. destruct (get_cached_block_spec p free h [g] Hp) as (res & -> & Hres);
      [by apply Forall_cons|].
    destruct res as [bs0|]; [intros _|done].
    apply Forall2_cons_inv_l in Hres as (b' & bs2 & (j & -> & Hj & Hk) & _ & _).
    destruct (get_cached_block_spec p' free h [g] Hp') as (res & -> & Hres);
      [by apply Forall_cons|].
    intros [= ->]. apply Exists_cons in Hres as [Hno|Hno%Exists_nil]; [|done].
    destruct (Hh j) as [_ Hj2]. unfold assign in Hj2.
    destruct (dict_get todo (Block j)) as [k|] eqn:Ek; [|apply (Hno j); [lia|by rewrite Hj2]].
    assert (Block j ∈ todo.*1) as Hjt.
    { destruct (decide (Block j ∈ todo.*1)); [done|]. by rewrite (proj2 (dict_del_fresh todo _ n)) in Ek. }
    pose proof (cp_unhashed _ _ _ _ _ _ _ _ _ _ _ Hpre _ Hjt) as Hu. unfold hashc in Hk. congruence.
Qed.

(** ** Witnesses *)

Lemma get_new_blocks_least_recent_witness :
  ∃ p, new_block_pool 4 true 2 true false true = Ok p ∧
    get_new_blocks 4 p = Err ValueError ∧
    ∃ p', get_new_blocks 2 p = Ok ([Block 1; Block 2], p') ∧ refc p' 1 = 1.
Proof.
  destruct (new_block_pool_spec 4 true 2 true false true) as (p & E & Hp & _); [lia|].
  exists p. split; [done|]. split.
  - exact (get_new_blocks_least_recent p _ Hp 4 ltac:(lia)).
  - destruct (get_new_blocks_least_recent p _ Hp 2 ltac:(lia)) as (p' & E' & _ & _ & Hi).
    exists p'. split; [done|]. apply (Hi 1%nat).
Defined.

Lemma touch_then_free_keeps_cached_witness :
  ∃ p, new_block_pool 4 true 2 true false true = Ok p ∧
    ∃ p1 p2, touch [Block 2; Block 1] p = Ok (tt, p1)
      ∧ free_blocks [Block 2; Block 1] false p1 = Ok (tt, p2)
      ∧ pool_inv p2 [Block 3; Block 2; Block 1] [].
Proof.
  destruct (new_block_pool_spec 4 true 2 true false true) as (p & E & Hp & Hn & _); [lia|].
  exists p. split; [done|].
  destruct (touch_then_free_keeps_cached p _ Hp [Block 2; Block 1]) as (p1 & p2 & E1 & E2 & _ & H2 & _).
  - unfold in_pool, nblocks. rewrite Hn. repeat constructor; eexists; (split; [done|]); lia.
  - apply (bool_decide_unpack _). by vm_compute.
  - by exists p1, p2.
Defined.

Lemma cached_blocks_are_found_witness :
  ∃ p r, new_block_pool 4 true 2 true false true = Ok p
    ∧ demo_new [] None None [1;2;3;4;5] 2 = Ok r
    ∧ ∃ p', cache_full_blocks r [Block 1; Block 2] 0 2 2 7 None p = Ok (tt, p')
        ∧ length (kv_event_queue p') = 1%nat
        ∧ ∃ h, block_hashes r !! 1%nat = Some h ∧ get_cached_block p' h [7] ≠ Ok None.
Proof.
  destruct (new_block_pool_spec 4 true 2 true false true) as (p & E & Hp & Hn & _ & Hb & Hh); [lia|].
  destruct (demo_new [] None None [1;2;3;4;5] 2) as [r|] eqn:Er; [|by vm_compute in Er].
  assert (∃ h0 h1, block_hashes r = [h0; h1]) as (h0 & h1 & Ehs) by (vm_compute in Er; simplify_eq; eauto).
  assert (kv_event_queue p = [] ∧ enable_kv_cache_events p = true) as [Ev0 Ev] by (vm_compute in E; by simplify_eq).
  exists p, r. split; [done|]. split; [done|].
  assert (Hnull : ∀ i, (i < 4)%nat → is_null (pool_heap p (Block i)) = bool_decide (i = 0%nat)).
  { intros i Hi. apply (pi_is_null _ _ _ Hp). unfold nblocks. rewrite Hn. done. }
  destruct (cached_blocks_are_found p _ r [Block 1; Block 2] 0 2 2 7 None [h0; h1] [Block 1; Block 2]
    [(Block 1, h0 ++ be_bytes 4 7); (Block 2, h1 ++ be_bytes 4 7)] Hp) as (p' & E' & _ & _ & He & Hf & _).
  - split; try done.
    + unfold in_pool, nblocks. rewrite Hn. repeat constructor; eexists; (split; [done|]); lia.
    + by rewrite Hb.
    + by rewrite Hb, Ehs.
    + unfold assigned, skip_block. rewrite !Hnull by lia. done.
    + apply (bool_decide_unpack _). by vm_compute.
    + intros b [->|[->|?%not_elem_of_nil]%elem_of_cons]%elem_of_cons; [apply Hh|apply Hh|done].
    + vm_compute in Er. simplify_eq. split; [by repeat constructor|]. intros s e h. simpl. done.
  - exists p'. split; [done|]. split; [by rewrite He, Ev0, Ev|].
    exists h1. split; [by rewrite Ehs|].
    destruct (Hf (Block 2) (h1 ++ be_bytes 4 7)) as (i & Hi & _); [by right; left|].
    rewrite get_block_hash_app in Hi by done. by rewrite Hi.
Defined.

Lemma reset_prefix_cache_iff_idle_witness :
  ∃ p p', new_block_pool 4 true 2 true false true = Ok p ∧ reset_prefix_cache p = Ok (true, p').
Proof.
  destruct (new_block_pool_spec 4 true 2 true false true) as (p & E & Hp & _); [lia|].
  destruct (reset_prefix_cache_iff_idle p _ Hp) as (p' & Er & _). exists p, p'. split; [done|].
  assert (bool_decide (num_referenced p = 0) = true) as Eb by (injection E as <-; by vm_compute).
  by rewrite Eb in Er.
Defined.

Lemma get_usage_is_referenced_share_witness :
  ∃ p, new_block_pool 4 true 2 true false true = Ok p ∧ (0 <= get_usage p <= 1)%Q.
Proof.
  destruct (new_block_pool_spec 4 true 2 true false true) as (p & E & Hp & _); [lia|].
  exists p. split; [done|]. exact (proj2 (get_usage_is_referenced_share p _ Hp)).
Defined.
