(* ===== verification/Ledger.v ===== *)
(** * The ownership ledger of a block pool

    An abstract account of who holds the blocks of a pool: [own] lists the
    references held (with repetition), [fresh] the blocks held once and not cached
    yet. The operations of the pool move entries between the free queue and [own];
    the managers' theorems are proved against these rules. *)

From Stdlib Require Import ZArith Lia.
From S2P Require Import Prelude MathUtils FreeQueue Request BlockHash BlockPool.
Local Open Scope Z_scope.

Definition nonnull (bs : list loc) : list loc := filter (λ b, b ≠ Block 0) bs.

#[global] Instance occ_perm b : Proper ((≡ₚ) ==> (=)) (occ b).
Proof. intros l l' Hl. unfold occ, zlen. by rewrite Hl. Qed.
Lemma occ_app b l l' : occ b (l ++ l') = occ b l + occ b l'.
Proof. unfold occ. by rewrite filter_app, zlen_app. Qed.
Lemma occ_not_in b l : b ∉ l → occ b l = 0.
Proof.
  intros Hn. induction l as [|x l IH]; [done|]. apply not_elem_of_cons in Hn as [Hx Hn].
  rewrite occ_cons, IH, decide_False by congruence || done. done.
Qed.
Lemma occ_pos b l : b ∈ l ↔ 0 < occ b l.
Proof.
  split; [|intros H; destruct (decide (b ∈ l)); [done|]; rewrite occ_not_in in H by done; lia].
  intros (l1 & l2 & ->)%list_elem_of_split. rewrite occ_app, occ_cons, decide_True by done.
  pose proof (occ_nonneg b l1). pose proof (occ_nonneg b l2). lia.
Qed.
Lemma occ_replicate_null i k : (0 < i)%nat → occ (Block i) (replicate k (Block 0)) = 0.
Proof. intros Hi. apply occ_not_in. rewrite elem_of_replicate. intros [[= ->] _]. lia. Qed.
Lemma nonnull_app l l' : nonnull (l ++ l') = nonnull l ++ nonnull l'.
Proof. apply filter_app. Qed.
Lemma nonnull_replicate k : nonnull (replicate k (Block 0)) = [].
Proof. induction k as [|k IH]; [done|]. simpl. unfold nonnull. by rewrite filter_cons_False by auto. Qed.
Lemma elem_of_nonnull b l : b ∈ nonnull l ↔ b ≠ Block 0 ∧ b ∈ l.
Proof. unfold nonnull. by rewrite list_elem_of_filter. Qed.
#[global] Instance nonnull_perm : Proper ((≡ₚ) ==> (≡ₚ)) nonnull.
Proof. intros l l' Hl. unfold nonnull. by rewrite Hl. Qed.
Lemma nonnull_reverse l : nonnull (reverse l) ≡ₚ nonnull l.
Proof. by rewrite reverse_Permutation. Qed.

(** Without repetition a block occurs at most once. *)
Lemma occ_nodup i l : (0 < i)%nat → NoDup (nonnull l) → occ (Block i) l = if decide (Block i ∈ l) then 1 else 0.
Proof.
  intros Hi Hnd. case_decide as Hin; [|by apply occ_not_in].
  apply list_elem_of_split in Hin as (l1 & l2 & ->).
  assert (Block i ≠ Block 0) by (intros [= ->]; lia).
  rewrite nonnull_app in Hnd. unfold nonnull in Hnd. rewrite filter_cons_True in Hnd by done.
  apply NoDup_app in Hnd as (_ & Hd & [Hn2 _]%NoDup_cons).
  rewrite occ_app, occ_cons, decide_True by done.
  rewrite (occ_not_in _ l1), (occ_not_in _ l2); [lia| |].
  - intros Hx. apply Hn2, list_elem_of_filter. done.
  - intros Hx. eapply Hd; [|by left]. by apply list_elem_of_filter.
Qed.

Record ledger (p : BlockPool) (free own fresh : list loc) : Prop := {
  lg_pool : pool_inv p free [];
  lg_in : in_pool p own;
  lg_ref : ∀ i, (0 < i < nblocks p)%nat → refc p i = occ (Block i) own;
  lg_fresh : ∀ b, b ∈ fresh → ∃ i, b = Block i ∧ (0 < i < nblocks p)%nat ∧ refc p i = 1 ∧ hashc p i = None
}.

#[global] Instance ledger_perm p free : Proper ((≡ₚ) ==> (≡ₚ) ==> iff) (ledger p free).
Proof.
  intros o o' Ho f f' Hf. split; intros [H1 H2 H3 H4]; split; try done.
  - unfold in_pool. by rewrite <-Ho.
  - intros i Hi. rewrite <-Ho. by apply H3.
  - intros b. rewrite <-Hf. apply H4.
  - unfold in_pool. by rewrite Ho.
  - intros i Hi. rewrite Ho. by apply H3.
  - intros b. rewrite Hf. apply H4.
Qed.

(** What the pool operations leave alone. *)
Definition same_hashes (p p' : BlockPool) : Prop := ∀ i, hashc p' i = hashc p i.

Lemma ledger_weaken p free own fresh fresh' :
  (∀ b, b ∈ fresh' → b ∈ fresh) → ledger p free own fresh → ledger p free own fresh'.
Proof. intros Hs [H1 H2 H3 H4]. split; try done. intros b Hb. by apply H4, Hs. Qed.

Lemma in_pool_app p l l' : in_pool p (l ++ l') ↔ in_pool p l ∧ in_pool p l'.
Proof. apply Forall_app. Qed.
Lemma in_pool_nulls p free k : pool_inv p free [] → in_pool p (replicate k (Block 0)).
Proof.
  intros Hp. apply Forall_replicate. exists 0%nat. split; [done|].
  pose proof (pi_pos _ _ _ Hp). unfold nblocks. lia.
Qed.

(** References to the null block are not accounted for. *)
Lemma ledger_nulls p free own fresh k :
  ledger p free (replicate k (Block 0) ++ own) fresh ↔ ledger p free own fresh.
Proof.
  split; intros [H1 H2 H3 H4]; split; try done.
  - by apply in_pool_app in H2 as [_ ?].
  - intros i Hi. by rewrite H3, occ_app, occ_replicate_null by lia.
  - apply in_pool_app. split; [|done]. by eapply in_pool_nulls.
  - intros i Hi. by rewrite H3, occ_app, occ_replicate_null by lia.
Qed.

Lemma elem_of_in_pool p l b : in_pool p l → b ∈ l → ∃ i, b = Block i ∧ (i < nblocks p)%nat.
Proof. unfold in_pool. rewrite Forall_forall. auto. Qed.

(** A fresh block is held exactly once. *)
Lemma ledger_fresh_once p free own fresh b : ledger p free own fresh → b ∈ fresh → occ b own = 1.
Proof.
  intros Hl (i & -> & Hi & Hr & _)%(lg_fresh _ _ _ _ Hl). by rewrite <-(lg_ref _ _ _ _ Hl).
Qed.

Lemma ledger_free_disjoint p free own fresh b : ledger p free own fresh → b ∈ free → b ∉ own.
Proof.
  intros Hl Hb Ho. pose proof (pi_free _ _ _ (lg_pool _ _ _ _ Hl) b) as Hf. rewrite app_nil_r in Hf.
  apply Hf in Hb as (i & -> & Hi & Hr). rewrite (lg_ref _ _ _ _ Hl) in Hr by done.
  apply occ_pos in Ho. lia.
Qed.

Lemma ledger_free_in p free own fresh b :
  ledger p free own fresh → b ∈ free → ∃ i, b = Block i ∧ (0 < i < nblocks p)%nat ∧ refc p i = 0.
Proof.
  intros Hl Hb. pose proof (pi_free _ _ _ (lg_pool _ _ _ _ Hl) b) as Hf. rewrite app_nil_r in Hf. by apply Hf.
Qed.

Lemma ledger_num_free p free own fresh : ledger p free own fresh → get_num_free_blocks p = zlen free.
Proof. intros Hl. apply (qr_num _ _ (pi_queue _ _ _ (lg_pool _ _ _ _ Hl))). Qed.

(** *** Releasing references *)

Lemma ledger_free p free own fresh rm prepend :
  ledger p free (rm ++ own) fresh → NoDup (nonnull rm) →
  ∃ p', free_blocks rm prepend p = Ok (tt, p')
    ∧ ledger p' (if prepend then last_refs p rm ++ free else free ++ last_refs p rm) own
        (filter (λ b, b ∉ rm) fresh)
    ∧ same_config p p' ∧ same_hashes p p'.
Proof.
  intros Hl Hnd. pose proof (lg_pool _ _ _ _ Hl) as Hp.
  pose proof (lg_in _ _ _ _ Hl) as [Hrm Hown]%in_pool_app.
  destruct (free_blocks_spec p free rm prepend Hp) as (p' & E & Hp' & Hc & Hh).
  { split; [|done]. apply Forall_forall. intros b Hb.
    destruct (elem_of_in_pool _ _ _ Hrm Hb) as (i & -> & Hi). exists i. split; [done|]. split; [done|].
    intros Hi0. rewrite (lg_ref _ _ _ _ Hl), occ_app by lia. apply occ_pos in Hb.
    pose proof (occ_nonneg (Block i) own). lia. }
  pose proof (same_config_nblocks _ _ Hc) as Hn.
  exists p'. split; [done|]. split; [|split; [done|intros i; apply Hh]]. split; [done| | |].
  - by eapply in_pool_config.
  - intros i Hi. rewrite Hn in Hi. destruct (Hh i) as [-> _]; [|lia].
    rewrite (lg_ref _ _ _ _ Hl), occ_app by lia. rewrite (occ_nodup i rm) by (lia || done). lia.
  - intros b [Hbr Hb]%list_elem_of_filter. destruct (lg_fresh _ _ _ _ Hl b Hb) as (i & -> & Hi & Hr & Hhi).
    exists i. rewrite Hn. destruct (Hh i) as [-> ->]; [|lia]. rewrite decide_False by done.
    split_and!; [done|lia..|lia|done].
Qed.

(** Freeing what is nobody's fresh block. *)
Lemma ledger_free_keep p free own fresh rm prepend :
  ledger p free (rm ++ own) fresh → NoDup (nonnull rm) → (∀ b, b ∈ fresh → b ∈ own) →
  ∃ p', free_blocks rm prepend p = Ok (tt, p')
    ∧ ledger p' (if prepend then last_refs p rm ++ free else free ++ last_refs p rm) own fresh
    ∧ same_config p p' ∧ same_hashes p p'.
Proof.
  intros Hl Hnd Hf. destruct (ledger_free p free own fresh rm prepend Hl Hnd) as (p' & E & Hl' & Hc & Hh).
  exists p'. split; [done|]. split; [|done]. eapply ledger_weaken; [|exact Hl'].
  intros b Hb. apply list_elem_of_filter. split; [|done]. intros Hr.
  pose proof (ledger_fresh_once _ _ _ _ _ Hl Hb) as Ho. rewrite occ_app in Ho.
  pose proof (Hf b Hb) as Hb'%occ_pos. apply occ_pos in Hr. lia.
Qed.

(** *** Taking references *)

Lemma ledger_new p free own fresh n :
  ledger p free own fresh → 0 ≤ n ≤ zlen free →
  ∃ p', get_new_blocks n p = Ok (take (Z.to_nat n) free, p')
    ∧ ledger p' (drop (Z.to_nat n) free) (take (Z.to_nat n) free ++ own)
        ((if enable_caching p then take (Z.to_nat n) free else []) ++ fresh)
    ∧ same_config p p' ∧ NoDup (take (Z.to_nat n) free)
    ∧ ∀ i, Block i ∉ take (Z.to_nat n) free → hashc p' i = hashc p i.
Proof.
  intros Hl Hnz. pose proof (lg_pool _ _ _ _ Hl) as Hp.
  destruct (get_new_blocks_spec p free n Hp Hnz) as (p' & E & Hp' & Hc & Hh).
  set (new := take (Z.to_nat n) free) in *. pose proof (same_config_nblocks _ _ Hc) as Hn.
  assert (Hsub : ∀ b, b ∈ new → b ∈ free) by (intros b; apply elem_of_subseteq; apply subseteq_take).
  assert (NoDup new) as Hnd.
  { pose proof (pi_nodup _ _ _ Hp) as Hnd. rewrite app_nil_r, <-(take_drop (Z.to_nat n) free) in Hnd.
    by apply NoDup_app in Hnd as [? _]. }
  exists p'. split; [done|]. split; [|split; [done|split; [done|]]].
  2:{ intros i Hi. destruct (Hh i) as [_ ->]. by rewrite bool_decide_eq_false_2. }
  split; [done| | |].
  - apply in_pool_app. split; [|eapply in_pool_config; [done|apply (lg_in _ _ _ _ Hl)]].
    apply Forall_forall. intros b Hb%Hsub.
    destruct (ledger_free_in _ _ _ _ _ Hl Hb) as (i & -> & Hi & _). exists i. rewrite Hn. split; [done|lia].
  - intros i Hi. rewrite Hn in Hi. destruct (Hh i) as [-> _]. rewrite occ_app.
    rewrite (occ_nodup i new); [|lia|by apply NoDup_filter].
    destruct (decide (Block i ∈ new)) as [Hin|]; [rewrite bool_decide_eq_true_2 by done
      |rewrite bool_decide_eq_false_2 by done; rewrite (lg_ref _ _ _ _ Hl); lia].
    by rewrite (occ_not_in _ own) by (eapply ledger_free_disjoint; [done|by apply Hsub]).
  - intros b [Hb|Hb]%elem_of_app.
    + destruct (enable_caching p) eqn:He; [|by apply not_elem_of_nil in Hb].
      destruct (ledger_free_in _ _ _ _ _ Hl (Hsub _ Hb)) as (i & -> & Hi & _). exists i.
      rewrite Hn. destruct (Hh i) as [-> ->]. by rewrite bool_decide_eq_true_2.
    + destruct (lg_fresh _ _ _ _ Hl b Hb) as (i & -> & Hi & Hr & Hhi). exists i. rewrite Hn.
      destruct (Hh i) as [-> ->]. rewrite bool_decide_eq_false_2; [done|]. intros Hx%Hsub.
      destruct (ledger_free_in _ _ _ _ _ Hl Hx) as (j & [= <-] & _ & ?). lia.
Qed.

Lemma ledger_touch p free own fresh bs :
  ledger p free own fresh → in_pool p bs → (∀ b, b ∈ bs → b ∉ fresh) →
  ∃ p', touch bs p = Ok (tt, p')
    ∧ ledger p' (filter (λ b, b ∉ bs) free) (bs ++ own) fresh ∧ same_config p p' ∧ same_hashes p p'.
Proof.
  intros Hl Hin Hd. pose proof (lg_pool _ _ _ _ Hl) as Hp.
  destruct (touch_spec bs p free Hp Hin) as (p' & E & Hp' & Hc & Hh).
  pose proof (same_config_nblocks _ _ Hc) as Hn.
  exists p'. split; [done|]. split; [|split; [done|intros i; apply Hh]]. split; [done| | |].
  - apply in_pool_app. split; (eapply in_pool_config; [done|]); [done|apply (lg_in _ _ _ _ Hl)].
  - intros i Hi. rewrite Hn in Hi. destruct (Hh i) as [-> _]. rewrite (lg_ref _ _ _ _ Hl) by done.
    rewrite occ_app. lia.
  - intros b Hb. destruct (lg_fresh _ _ _ _ Hl b Hb) as (i & -> & Hi & Hr & Hhi). exists i. rewrite Hn.
    destruct (Hh i) as [-> ->]. rewrite occ_not_in by (intros Hx; by eapply Hd). split; [done|]. split; [done|]. split; [lia|done].
Qed.

(** A change of hashes and logs only. *)
Lemma ledger_rehash p free own fresh fresh' p' :
  ledger p free own fresh → pool_inv p' free [] → same_config p p' → (∀ i, refc p' i = refc p i) →
  (∀ b, b ∈ fresh' → b ∈ fresh) → (∀ i, Block i ∈ fresh' → hashc p' i = hashc p i) →
  ledger p' free own fresh'.
Proof.
  intros Hl Hp' Hc Hr Hs Hh. pose proof (same_config_nblocks _ _ Hc) as Hn. split; [done| | |].
  - eapply in_pool_config; [done|apply (lg_in _ _ _ _ Hl)].
  - intros i Hi. rewrite Hn in Hi. by rewrite Hr, (lg_ref _ _ _ _ Hl).
  - intros b Hb. destruct (lg_fresh _ _ _ _ Hl b (Hs _ Hb)) as (i & -> & Hi & Hr1 & Hh1).
    exists i. by rewrite Hn, Hr, Hh.
Qed.

(** With nothing held, every block but the null block is free. *)
Lemma ledger_nothing_held p free fresh :
  ledger p free [] fresh → get_num_free_blocks p = num_gpu_blocks p - 1.
Proof.
  intros Hl. pose proof (lg_pool _ _ _ _ Hl) as Hp. rewrite (ledger_num_free _ _ _ _ Hl).
  pose proof (pi_pos _ _ _ Hp).
  unfold zlen. assert (free ≡ₚ Block <$> seq 1 (nblocks p - 1)) as ->%Permutation_length.
  { apply NoDup_Permutation.
    - pose proof (pi_nodup _ _ _ Hp) as Hnd. by rewrite app_nil_r in Hnd.
    - apply (NoDup_fmap_2 Block), NoDup_seq.
    - intros b. pose proof (pi_free _ _ _ Hp b) as Hf. rewrite app_nil_r in Hf. rewrite Hf.
      rewrite list_elem_of_fmap. split.
      + intros (i & -> & Hi & _). exists i. rewrite elem_of_seq. split; [done|lia].
      + intros (i & -> & Hi%elem_of_seq). exists i. split; [done|]. split; [lia|].
        rewrite (lg_ref _ _ _ _ Hl) by lia. done. }
  rewrite length_fmap, length_seq. unfold nblocks. lia.
Qed.
