(* ===== verification/SingleType.v ===== *)
(** * Single-type KV-cache managers: definitions

    Models [vllm/v1/core/single_type_kv_cache_manager.py]. One record holds the
    state of a manager of any class; the methods that subclasses override
    dispatch on [mg_class], with [super()] calls written out. A manager runs
    together with the block pool it shares with the other managers.

    [req_to_blocks] is a [defaultdict]: reading it with [[ ]] creates the entry,
    which is kept here because [get_num_common_prefix_blocks] counts entries. *)

From Stdlib Require Import ZArith Lia.
From S2P Require Import Prelude MathUtils KVSpec FreeQueue Request BlockHash BlockPool.
Local Open Scope Z_scope.

Inductive ManagerClass :=
  | FullAttentionManager
  | SlidingWindowManager
  | ChunkedLocalAttentionManager
  | MambaManager
  | CrossAttentionManager
  | SinkFullAttentionManager.
#[global] Instance ManagerClass_eq_dec : EqDecision ManagerClass.
Proof. solve_decision. Defined.

(** [KVCacheSpecRegistry.get_manager_class] after [register_all_kvcache_specs]. *)
Definition get_manager_class (s : LayerSpec) : option ManagerClass :=
  match s with
  | FullAttentionSpec _ _ | TQFullAttentionSpec _ _ _ | MLAAttentionSpec _ _ _
  | HiddenStateCacheSpec _ _ _ => Some FullAttentionManager
  | SinkFullAttentionSpec _ _ _ => Some SinkFullAttentionManager
  | SlidingWindowSpec _ _ _ | SlidingWindowMLASpec _ _ _ _ => Some SlidingWindowManager
  | ChunkedLocalAttentionSpec _ _ => Some ChunkedLocalAttentionManager
  | MambaSpec _ => Some MambaManager
  | CrossAttentionSpec _ => Some CrossAttentionManager
  | EncoderOnlyAttentionSpec _ => None
  end.

Record Manager := mkManager {
  mg_class : ManagerClass;
  mg_spec : LayerSpec;
  mg_block_size : Z;
  mg_dcp_world_size : Z;
  mg_pcp_world_size : Z;
  mg_enable_caching : bool;
  mg_scheduler_block_size : Z;
  mg_max_admission_blocks_per_request : option Z;
  mg_kv_cache_group_id : Z;
  mg_null_block : loc;
  new_block_ids : list Z;
  req_to_blocks : gmap string (list loc);
  num_cached_block : gmap string Z;
  mg_use_eagle : bool;
  cached_blocks_this_step : gset bytes;
  last_state_block_idx : gmap string Z;
  _allocated_block_reqs : gset string;
  sink_blocks : list loc
}.

Definition mg_set_new_block_ids (v : list Z) (r : Manager) : Manager :=
  mkManager (mg_class r) (mg_spec r) (mg_block_size r) (mg_dcp_world_size r)
    (mg_pcp_world_size r) (mg_enable_caching r) (mg_scheduler_block_size r)
    (mg_max_admission_blocks_per_request r) (mg_kv_cache_group_id r) (mg_null_block r) v
    (req_to_blocks r) (num_cached_block r) (mg_use_eagle r) (cached_blocks_this_step r)
    (last_state_block_idx r) (_allocated_block_reqs r) (sink_blocks r).
Definition mg_set_req_to_blocks (v : gmap string (list loc)) (r : Manager) : Manager :=
  mkManager (mg_class r) (mg_spec r) (mg_block_size r) (mg_dcp_world_size r)
    (mg_pcp_world_size r) (mg_enable_caching r) (mg_scheduler_block_size r)
    (mg_max_admission_blocks_per_request r) (mg_kv_cache_group_id r) (mg_null_block r)
    (new_block_ids r) v (num_cached_block r) (mg_use_eagle r) (cached_blocks_this_step r)
    (last_state_block_idx r) (_allocated_block_reqs r) (sink_blocks r).
Definition mg_set_num_cached_block (v : gmap string Z) (r : Manager) : Manager :=
  mkManager (mg_class r) (mg_spec r) (mg_block_size r) (mg_dcp_world_size r)
    (mg_pcp_world_size r) (mg_enable_caching r) (mg_scheduler_block_size r)
    (mg_max_admission_blocks_per_request r) (mg_kv_cache_group_id r) (mg_null_block r)
    (new_block_ids r) (req_to_blocks r) v (mg_use_eagle r) (cached_blocks_this_step r)
    (last_state_block_idx r) (_allocated_block_reqs r) (sink_blocks r).
Definition mg_set_mg_use_eagle (v : bool) (r : Manager) : Manager :=
  mkManager (mg_class r) (mg_spec r) (mg_block_size r) (mg_dcp_world_size r)
    (mg_pcp_world_size r) (mg_enable_caching r) (mg_scheduler_block_size r)
    (mg_max_admission_blocks_per_request r) (mg_kv_cache_group_id r) (mg_null_block r)
    (new_block_ids r) (req_to_blocks r) (num_cached_block r) v (cached_blocks_this_step r)
    (last_state_block_idx r) (_allocated_block_reqs r) (sink_blocks r).
Definition mg_set_cached_blocks_this_step (v : gset bytes) (r : Manager) : Manager :=
  mkManager (mg_class r) (mg_spec r) (mg_block_size r) (mg_dcp_world_size r)
    (mg_pcp_world_size r) (mg_enable_caching r) (mg_scheduler_block_size r)
    (mg_max_admission_blocks_per_request r) (mg_kv_cache_group_id r) (mg_null_block r)
    (new_block_ids r) (req_to_blocks r) (num_cached_block r) (mg_use_eagle r) v
    (last_state_block_idx r) (_allocated_block_reqs r) (sink_blocks r).
Definition mg_set_last_state_block_idx (v : gmap string Z) (r : Manager) : Manager :=
  mkManager (mg_class r) (mg_spec r) (mg_block_size r) (mg_dcp_world_size r)
    (mg_pcp_world_size r) (mg_enable_caching r) (mg_scheduler_block_size r)
    (mg_max_admission_blocks_per_request r) (mg_kv_cache_group_id r) (mg_null_block r)
    (new_block_ids r) (req_to_blocks r) (num_cached_block r) (mg_use_eagle r)
    (cached_blocks_this_step r) v (_allocated_block_reqs r) (sink_blocks r).
Definition mg_set_allocated_block_reqs (v : gset string) (r : Manager) : Manager :=
  mkManager (mg_class r) (mg_spec r) (mg_block_size r) (mg_dcp_world_size r)
    (mg_pcp_world_size r) (mg_enable_caching r) (mg_scheduler_block_size r)
    (mg_max_admission_blocks_per_request r) (mg_kv_cache_group_id r) (mg_null_block r)
    (new_block_ids r) (req_to_blocks r) (num_cached_block r) (mg_use_eagle r)
    (cached_blocks_this_step r) (last_state_block_idx r) v (sink_blocks r).
Definition mg_set_sink_blocks (v : list loc) (r : Manager) : Manager :=
  mkManager (mg_class r) (mg_spec r) (mg_block_size r) (mg_dcp_world_size r)
    (mg_pcp_world_size r) (mg_enable_caching r) (mg_scheduler_block_size r)
    (mg_max_admission_blocks_per_request r) (mg_kv_cache_group_id r) (mg_null_block r)
    (new_block_ids r) (req_to_blocks r) (num_cached_block r) (mg_use_eagle r)
    (cached_blocks_this_step r) (last_state_block_idx r) (_allocated_block_reqs r) v.


(** A manager method, run with the shared pool. *)
Abbreviation G := (M (Manager * BlockPool)).

Definition onpool {A} (m : P A) : G A := zoom snd (λ p s, (fst s, p)) m.
Definition self : G Manager := gets fst.
Definition pool : G BlockPool := gets snd.
Definition modify_self (f : Manager → Manager) : G unit := modify (λ s, (f (fst s), snd s)).

(** [self.req_to_blocks[request_id]] *)
Definition req_blocks (request_id : string) : G (list loc) :=
  m ← self;
  match req_to_blocks m !! request_id with
  | Some bs => mret bs
  | None => _ ← modify_self (mg_set_req_to_blocks (<[request_id := []]> (req_to_blocks m))); mret []
  end.
Definition set_req_blocks (request_id : string) (bs : list loc) : G unit :=
  modify_self (λ m, mg_set_req_to_blocks (<[request_id := bs]> (req_to_blocks m)) m).

(** [__init__] of the base class; the pool is captured for its null block. *)
Definition new_manager (cls : ManagerClass) (spec : LayerSpec) (pool : BlockPool) (caching : bool)
    (group_id scheduler_block_size dcp pcp : Z) (max_admission : option Z) : Manager :=
  let block_size := layer_block_size spec * (if 1 <? dcp * pcp then dcp * pcp else 1) in
  mkManager cls spec block_size dcp pcp caching scheduler_block_size max_admission group_id
    (null_block pool) [] ∅ ∅ false ∅ ∅ ∅ [].

(** The spec fields read by the subclasses. *)
Definition align_mode (m : Manager) : bool :=
  match mamba_fields (mg_spec m) with
  | Some f => bool_decide (mamba_cache_mode f = "align"%string)
  | None => false
  end.
Definition spec_blocks (m : Manager) : Z :=
  match mamba_fields (mg_spec m) with Some f => num_speculative_blocks f | None => 0 end.

(** [get_num_skipped_tokens] of a manager class with a given spec. *)
Definition skipped_tokens (cls : ManagerClass) (spec : LayerSpec) (num_computed_tokens : Z) : Z :=
  match cls with
  | SlidingWindowManager => Z.max 0 (num_computed_tokens - default 0 (spec_sliding_window spec) + 1)
  | ChunkedLocalAttentionManager =>
      let attention_chunk_size := default 0 (spec_chunk_size spec) in
      num_computed_tokens / attention_chunk_size * attention_chunk_size
  | MambaManager => num_computed_tokens - 1
  | FullAttentionManager | SinkFullAttentionManager | CrossAttentionManager => 0
  end.
Definition get_num_skipped_tokens (m : Manager) (num_computed_tokens : Z) : Z :=
  skipped_tokens (mg_class m) (mg_spec m) num_computed_tokens.

Definition _get_num_evictable_blocks (h : heap) (blocks : list loc) : Z :=
  zlen (filter (λ b, ref_cnt (h b) = 0 ∧ is_null (h b) = false) blocks).

(** [len(self.req_to_blocks.get(request_id, ()))] *)
Definition num_req_blocks (m : Manager) (request_id : string) : Z :=
  zlen (default [] (req_to_blocks m !! request_id)).

(** [SingleTypeKVCacheManager.get_num_blocks_to_allocate] *)
Definition base_get_num_blocks_to_allocate (m : Manager) (h : heap) (request_id : string)
    (num_tokens : Z) (new_computed_blocks : list loc) (total_computed_tokens : Z)
    (apply_admission_cap : bool) : result Z :=
  let required := cdiv num_tokens (mg_block_size m) in
  let num_required_blocks :=
    match mg_max_admission_blocks_per_request m with
    | Some cap => if apply_admission_cap then Z.min required cap else required
    | None => required
    end in
  let nreq := num_req_blocks m request_id in
  if bool_decide (is_Some (num_cached_block m !! request_id)) then
    if bool_decide (new_computed_blocks = []) then Ok (Z.max (num_required_blocks - nreq) 0)
    else Err AssertionError
  else
    let num_skipped_tokens := get_num_skipped_tokens m total_computed_tokens in
    let num_local_computed_blocks := zlen new_computed_blocks + nreq in
    let num_skipped_blocks := num_skipped_tokens / mg_block_size m in
    let num_new_blocks :=
      Z.max (num_required_blocks - Z.max num_skipped_blocks num_local_computed_blocks) 0 in
    let num_skipped_new_computed_blocks := Z.max 0 (num_skipped_blocks - nreq) in
    Ok (num_new_blocks +
        _get_num_evictable_blocks h (py_from new_computed_blocks num_skipped_new_computed_blocks)).

Definition get_num_blocks_to_allocate (request_id : string) (num_tokens : Z)
    (new_computed_blocks : list loc) (total_computed_tokens num_tokens_main_model : Z)
    (apply_admission_cap : bool) : G Z :=
  m ← self; p ← pool;
  match mg_class m with
  | MambaManager =>
      if match last new_computed_blocks with
         | Some b => match _block_hash (pool_heap p b) with
                     | Some k => bool_decide (k ∈ cached_blocks_this_step m)
                     | None => false end
         | None => false end
      then mret (num_gpu_blocks p + 1)
      else if negb (align_mode m) then
        let num_tokens :=
          if 0 <? spec_blocks m then num_tokens + layer_block_size (mg_spec m) * spec_blocks m
          else num_tokens in
        lift_result (base_get_num_blocks_to_allocate m (pool_heap p) request_id num_tokens
                       new_computed_blocks total_computed_tokens apply_admission_cap)
      else
        let num_required_blocks := cdiv num_tokens_main_model (mg_block_size m) + spec_blocks m in
        bs ← req_blocks request_id;
        let num_new_blocks := num_required_blocks - zlen new_computed_blocks - zlen bs in
        let num_new_blocks :=
          if 0 <? num_new_blocks then
            if bool_decide (request_id ∈ _allocated_block_reqs m) then 1 else 1 + spec_blocks m
          else num_new_blocks in
        mret (num_new_blocks + _get_num_evictable_blocks (pool_heap p) new_computed_blocks)
  | _ =>
      lift_result (base_get_num_blocks_to_allocate m (pool_heap p) request_id num_tokens
                     new_computed_blocks total_computed_tokens apply_admission_cap)
  end.

(** [type(self.kv_cache_spec) in (FullAttentionSpec, TQFullAttentionSpec, MLAAttentionSpec)] *)
Definition records_new_block_ids (s : LayerSpec) : bool :=
  match s with
  | FullAttentionSpec _ _ | TQFullAttentionSpec _ _ _ | MLAAttentionSpec _ _ _ => true
  | _ => false
  end.

Definition record_new_block_ids (blocks : list loc) : G unit :=
  m ← self; p ← pool;
  if records_new_block_ids (mg_spec m)
  then modify_self (λ m, mg_set_new_block_ids
         (new_block_ids m ++ ((λ b, block_id (pool_heap p b)) <$> blocks)) m)
  else mret tt.

Definition base_allocate_new_computed_blocks (request_id : string) (new_computed_blocks : list loc)
    (num_local_computed_tokens num_external_computed_tokens : Z) : G unit :=
  m ← self;
  if bool_decide (is_Some (num_cached_block m !! request_id)) then
    py_assert (bool_decide (new_computed_blocks = []))
  else
    bs ← req_blocks request_id;
    _ ← py_assert (bool_decide (bs = []));
    let total := num_local_computed_tokens + num_external_computed_tokens in
    let num_skipped_tokens := get_num_skipped_tokens m total in
    let num_skipped_blocks := num_skipped_tokens / mg_block_size m in
    let skip := 0 <? num_skipped_blocks in
    let new_computed_blocks :=
      if skip then py_from new_computed_blocks num_skipped_blocks else new_computed_blocks in
    let num_external_computed_tokens :=
      if skip then Z.min (total - num_skipped_tokens) num_external_computed_tokens
      else num_external_computed_tokens in
    _ ← (if mg_enable_caching m then onpool (touch new_computed_blocks)
         else py_assert (bool_decide (new_computed_blocks = [])));
    let bs := replicate (Z.to_nat num_skipped_blocks) (mg_null_block m) ++ new_computed_blocks in
    _ ← set_req_blocks request_id bs;
    _ ← modify_self (λ m, mg_set_num_cached_block (<[request_id := zlen bs]> (num_cached_block m)) m);
    if 0 <? num_external_computed_tokens then
      allocated_blocks ← onpool (get_new_blocks (cdiv total (mg_block_size m) - zlen bs));
      _ ← set_req_blocks request_id (bs ++ allocated_blocks);
      record_new_block_ids allocated_blocks
    else mret tt.

Definition allocate_new_computed_blocks (request_id : string) (new_computed_blocks : list loc)
    (num_local_computed_tokens num_external_computed_tokens : Z) : G unit :=
  m ← self;
  match mg_class m with
  | CrossAttentionManager => py_assert (bool_decide (new_computed_blocks = []))
  | _ => base_allocate_new_computed_blocks request_id new_computed_blocks
           num_local_computed_tokens num_external_computed_tokens
  end.

Definition base_allocate_new_blocks (request_id : string) (num_tokens : Z) : G (list loc) :=
  m ← self;
  bs ← req_blocks request_id;
  let num_new_blocks := cdiv num_tokens (mg_block_size m) - zlen bs in
  if num_new_blocks <=? 0 then mret []
  else
    new_blocks ← onpool (get_new_blocks num_new_blocks);
    _ ← set_req_blocks request_id (bs ++ new_blocks);
    _ ← record_new_block_ids new_blocks;
    mret new_blocks.

(** The loop of [MambaManager.allocate_new_blocks] that moves the previous
    speculative blocks to the end, over [range(idx, idx + n)]. *)
Fixpoint reuse_speculative (n : nat) (idx num_skipped_blocks : Z) (null : loc) (bs : list loc)
    : result (list loc) :=
  match n with
  | O => Ok bs
  | S n =>
      if idx <? num_skipped_blocks then
        b ← py_index bs idx;
        let i := if idx <? 0 then idx + zlen bs + 1 else idx in
        reuse_speculative n (idx + 1) num_skipped_blocks null (<[Z.to_nat i := null]> (bs ++ [b]))
      else Ok bs
  end.

Definition mamba_align_allocate_new_blocks (request_id : string) (num_tokens : Z) : G (list loc) :=
  m ← self;
  bs ← req_blocks request_id;
  let num_required_blocks := cdiv num_tokens (mg_block_size m) + spec_blocks m in
  if num_required_blocks <=? zlen bs then mret []
  else
    let prev_block_len := zlen bs in
    let blocks_allocated := bool_decide (request_id ∈ _allocated_block_reqs m) in
    _ ← (if blocks_allocated then
           modify_self (λ m, mg_set_last_state_block_idx
             (<[request_id := prev_block_len - 1 - spec_blocks m]> (last_state_block_idx m)) m)
         else if 0 <? prev_block_len then
           modify_self (λ m, mg_set_last_state_block_idx
             (<[request_id := prev_block_len - 1]> (last_state_block_idx m)) m)
         else mret tt);
    let num_skipped_blocks := num_required_blocks - spec_blocks m - 1 in
    let bs1 :=
      if prev_block_len <? num_skipped_blocks
      then bs ++ replicate (Z.to_nat (num_skipped_blocks - prev_block_len)) (mg_null_block m)
      else bs in
    bs2 ← (if blocks_allocated then
             lift_result (reuse_speculative (Z.to_nat (spec_blocks m))
               (prev_block_len - spec_blocks m) num_skipped_blocks (mg_null_block m) bs1)
           else mret bs1);
    let num_new_blocks := num_required_blocks - zlen bs2 in
    _ ← py_assert (if blocks_allocated then num_new_blocks <=? 1
                   else num_new_blocks <=? spec_blocks m + 1);
    new_blocks ← onpool (get_new_blocks num_new_blocks);
    let bs3 := bs2 ++ new_blocks in
    _ ← set_req_blocks request_id bs3;
    _ ← modify_self (λ m, mg_set_allocated_block_reqs
          ({[request_id]} ∪ _allocated_block_reqs m) m);
    mret (py_from bs3 prev_block_len).

Definition allocate_new_blocks (request_id : string) (num_tokens num_tokens_main_model : Z)
    : G (list loc) :=
  m ← self;
  match mg_class m with
  | MambaManager =>
      if align_mode m then mamba_align_allocate_new_blocks request_id num_tokens_main_model
      else base_allocate_new_blocks request_id
             (if 0 <? spec_blocks m then num_tokens + mg_block_size m * spec_blocks m else num_tokens)
  | _ => base_allocate_new_blocks request_id num_tokens
  end.

Definition take_new_block_ids : G (list Z) :=
  m ← self; _ ← modify_self (mg_set_new_block_ids []); mret (new_block_ids m).

(** ** Caching blocks *)

(** [SlidingWindowManager._contiguous_blocks_for_hit] *)
Definition _contiguous_blocks_for_hit (window_size block_size : Z) (use_eagle : bool) : Z :=
  cdiv (window_size - 1) block_size + (if use_eagle then 1 else 0).

(** [SlidingWindowManager.reachable_block_mask] *)
Definition swa_reachable_block_mask (start_block end_block : Z) (alignment_tokens : option Z)
    (window block_size : Z) (use_eagle : bool) (retention_interval num_prompt_tokens : option Z)
    : result (option (list bool)) :=
  match alignment_tokens with
  | None => Ok None
  | Some alignment_tokens =>
      if negb (alignment_tokens mod block_size =? 0) then Err AssertionError
      else
        let need := _contiguous_blocks_for_hit window block_size use_eagle in
        let shift := if use_eagle then 1 else 0 in
        let segment_tokens :=
          match retention_interval with
          | None => Some alignment_tokens
          | Some r => if r =? 0 then None else Some r
          end in
        let all_reachable :=
          match segment_tokens with Some s => s / block_size <=? need | None => false end in
        if all_reachable then Ok None
        else
          let in_tail i :=
            match segment_tokens with
            | Some s =>
                let per_segment := s / block_size in
                (shift <=? i) && (per_segment - need <=? (i - shift) mod per_segment)
            | None => false
            end in
          let in_replay i :=
            match retention_interval, num_prompt_tokens with
            | Some _, Some n =>
                let latest := (n - 1) / alignment_tokens * alignment_tokens in
                let prompt_end_block := latest / block_size + shift in
                (Z.max start_block (prompt_end_block - need) <=? i)
                && (i <? Z.min end_block prompt_end_block)
            | _, _ => false
            end in
          Ok (Some ((λ i, in_tail i || in_replay i) <$> zrange start_block end_block))
  end.

Definition reachable_block_mask (m : Manager) (start_block end_block : Z)
    (retention_interval num_prompt_tokens : option Z) : result (option (list bool)) :=
  match mg_class m with
  | SlidingWindowManager =>
      swa_reachable_block_mask start_block end_block (Some (mg_scheduler_block_size m))
        (default 0 (spec_sliding_window (mg_spec m))) (layer_block_size (mg_spec m)) (mg_use_eagle m)
        retention_interval num_prompt_tokens
  | _ => Ok None
  end.

Section managers.
Context `{HashConfig}.

Definition base_cache_blocks (r : Request) (num_tokens : Z) (retention_interval : option Z) : G unit :=
  m ← self;
  let rid := request_id r in
  let num_cached_blocks := default 0 (num_cached_block m !! rid) in
  let num_full_blocks := num_tokens / mg_block_size m in
  if num_full_blocks <=? num_cached_blocks then mret tt
  else
    block_mask ← lift_result (reachable_block_mask m num_cached_blocks num_full_blocks
                                retention_interval (Some (num_prompt_tokens r)));
    bs ← req_blocks rid;
    _ ← onpool (cache_full_blocks r bs num_cached_blocks num_full_blocks (mg_block_size m)
                  (mg_kv_cache_group_id m) block_mask);
    modify_self (λ m, mg_set_num_cached_block (<[rid := num_full_blocks]> (num_cached_block m)) m).

(** The loop of [MambaManager.cache_blocks] over the newly cached blocks. *)
Fixpoint note_cached_this_step (h : heap) (blocks : list loc) : G unit :=
  match blocks with
  | [] => mret tt
  | b :: blocks =>
      if is_null (h b) then note_cached_this_step h blocks
      else match _block_hash (h b) with
           | None => raise AssertionError
           | Some k =>
               _ ← modify_self (λ m, mg_set_cached_blocks_this_step ({[k]} ∪ cached_blocks_this_step m) m);
               note_cached_this_step h blocks
           end
  end.

Definition cache_blocks (r : Request) (num_tokens : Z) (retention_interval : option Z) : G unit :=
  m ← self;
  match mg_class m with
  | CrossAttentionManager => raise ValueError
  | MambaManager =>
      let before := default 0 (num_cached_block m !! request_id r) in
      _ ← base_cache_blocks r num_tokens retention_interval;
      m ← self; p ← pool;
      let after := default 0 (num_cached_block m !! request_id r) in
      if before <? after then
        bs ← req_blocks (request_id r);
        note_cached_this_step (pool_heap p) (py_slice bs before after)
      else mret tt
  | _ => base_cache_blocks r num_tokens retention_interval
  end.
End managers.

(** ** Freeing *)

(** [self.req_to_blocks.pop(request_id, [])] *)
Definition pop_req_blocks (request_id : string) : G (list loc) :=
  m ← self;
  _ ← modify_self (mg_set_req_to_blocks (delete request_id (req_to_blocks m)));
  mret (default [] (req_to_blocks m !! request_id)).

Definition forget_cached (request_id : string) : G unit :=
  modify_self (λ m, mg_set_num_cached_block (delete request_id (num_cached_block m)) m).

Definition base_free (request_id : string) : G unit :=
  bs ← pop_req_blocks request_id;
  _ ← onpool (free_blocks (reverse bs) false);
  forget_cached request_id.

(** Blocks with and without a hash, in order. *)
Definition hashed (h : heap) (bs : list loc) : list loc := filter (λ b, _block_hash (h b) ≠ None) bs.
Definition unhashed (h : heap) (bs : list loc) : list loc := filter (λ b, _block_hash (h b) = None) bs.

Definition swa_free (request_id : string) : G unit :=
  bs ← pop_req_blocks request_id;
  p ← pool;
  _ ← (if bool_decide (bs = []) then mret tt
       else
         _ ← onpool (free_blocks (hashed (pool_heap p) (reverse bs)) false);
         onpool (free_blocks (unhashed (pool_heap p) (reverse bs)) true));
  forget_cached request_id.

Definition free (request_id : string) : G unit :=
  m ← self;
  match mg_class m with
  | SlidingWindowManager => swa_free request_id
  | MambaManager =>
      _ ← (if align_mode m then
             modify_self (λ m,
               mg_set_last_state_block_idx (delete request_id (last_state_block_idx m))
                 (mg_set_allocated_block_reqs (_allocated_block_reqs m ∖ {[request_id]}) m))
           else mret tt);
      base_free request_id
  | _ => base_free request_id
  end.

(** The loop of [remove_skipped_blocks] over [range(n - 1, -1, -1)]: the blocks
    removed, last one first, and the list with null blocks in their place. *)
Fixpoint skip_loop (null : loc) (n : nat) (bs : list loc) : list loc * list loc :=
  match n with
  | O => ([], bs)
  | S i =>
      match bs !! i with
      | None => ([], bs)
      | Some b =>
          if bool_decide (b = null) then ([], bs)
          else let '(removed, bs') := skip_loop null i (<[i := null]> bs) in (b :: removed, bs')
      end
  end.

Definition base_remove_skipped_blocks (request_id : string) (total_computed_tokens : Z) : G unit :=
  m ← self;
  let num_skipped_tokens := get_num_skipped_tokens m total_computed_tokens in
  if num_skipped_tokens <=? 0 then mret tt
  else
    bs ← req_blocks request_id;
    p ← pool;
    let num_skipped_blocks := Z.min (num_skipped_tokens / mg_block_size m) (zlen bs) in
    let '(removed, bs') := skip_loop (mg_null_block m) (Z.to_nat num_skipped_blocks) bs in
    _ ← set_req_blocks request_id bs';
    _ ← onpool (free_blocks (hashed (pool_heap p) removed) false);
    onpool (free_blocks (unhashed (pool_heap p) removed) true).

Definition mamba_remove_skipped_blocks (request_id : string) (num_computed_tokens : Z) : G unit :=
  m ← self;
  let num_computed_tokens := Z.max 0 (num_computed_tokens - spec_blocks m) in
  _ ← base_remove_skipped_blocks request_id num_computed_tokens;
  if negb (align_mode m) then mret tt
  else
    match last_state_block_idx m !! request_id with
    | None => mret tt
    | Some idx =>
        if idx <? cdiv num_computed_tokens (mg_block_size m) - 1 then
          bs ← req_blocks request_id;
          b ← lift_result (py_index bs idx);
          if bool_decide (b = mg_null_block m) then mret tt
          else
            _ ← onpool (free_blocks [b] false);
            set_req_blocks request_id
              (<[Z.to_nat (if idx <? 0 then idx + zlen bs else idx) := mg_null_block m]> bs)
        else mret tt
    end.

Definition remove_skipped_blocks (request_id : string) (total_computed_tokens : Z) : G unit :=
  m ← self;
  match mg_class m with
  | MambaManager => mamba_remove_skipped_blocks request_id total_computed_tokens
  | _ => base_remove_skipped_blocks request_id total_computed_tokens
  end.

Definition new_step_starts : G unit :=
  m ← self;
  match mg_class m with
  | MambaManager => modify_self (mg_set_cached_blocks_this_step ∅)
  | _ => mret tt
  end.

(** The leading blocks whose count is [n]. *)
Fixpoint common_prefix (h : heap) (n : Z) (blocks : list loc) : Z :=
  match blocks with
  | [] => 0
  | b :: blocks => if ref_cnt (h b) =? n then 1 + common_prefix h n blocks else 0
  end.

Definition get_num_common_prefix_blocks (running_request_id : string) : G Z :=
  m ← self;
  match mg_class m with
  | FullAttentionManager | SinkFullAttentionManager =>
      bs ← req_blocks running_request_id;
      m ← self; p ← pool;
      mret (common_prefix (pool_heap p) (Z.of_nat (base.size (req_to_blocks m))) bs)
  | _ => mret 0
  end.

(** ** Longest cache hits *)

(** [zip(rows, cs)] updating each row. *)
Fixpoint zip_rows (f : list loc → loc → list loc) (rows : list (list loc)) (cs : list loc)
    : list (list loc) :=
  match rows, cs with
  | row :: rows, c :: cs => f row c :: zip_rows f rows cs
  | rows, _ => rows
  end.

(** [if cached_block := block_pool.get_cached_block(...)] *)
Definition lookup_hit (p : BlockPool) (h : bytes) (gids : list Z) : result (option (list loc)) :=
  c ← get_cached_block p h gids;
  Ok (match c with Some [] | None => None | Some cs => Some cs end).

Fixpoint pop_rows (rows : list (list loc)) : result (list (list loc)) :=
  match rows with
  | [] => Ok []
  | [] :: _ => Err IndexError
  | row :: rows => rest ← pop_rows rows; Ok (removelast row :: rest)
  end.

(** [while block_size != alignment_tokens and
       len(computed_blocks[0]) * block_size % alignment_tokens != 0: pop] *)
Fixpoint align_rows (fuel : nat) (block_size alignment_tokens : Z) (rows : list (list loc))
    : result (list (list loc)) :=
  if block_size =? alignment_tokens then Ok rows
  else
    row ← py_index rows 0;
    if alignment_tokens =? 0 then Err ZeroDivisionError
    else if zlen row * block_size mod alignment_tokens =? 0 then Ok rows
    else match fuel with
         | O => Ok rows
         | S fuel => rows ← pop_rows rows; align_rows fuel block_size alignment_tokens rows
         end.

(** The first row's length bounds the number of pops. *)
Definition align_to (block_size alignment_tokens : Z) (rows : list (list loc)) : result (list (list loc)) :=
  align_rows (length (default [] (head rows))) block_size alignment_tokens rows.

(** [if drop_eagle_block and computed_blocks[0]: pop] *)
Definition drop_last (drop_eagle_block : bool) (rows : list (list loc)) : result (list (list loc)) :=
  if drop_eagle_block then
    row ← py_index rows 0;
    if bool_decide (row = []) then Ok rows else pop_rows rows
  else Ok rows.

(** The hashes visited by [itertools.islice(block_hashes, n)]. *)
Definition bh_islice (l : BlockHashList) (n : Z) : result (list bytes) :=
  if n <? 0 then Err ValueError
  else Ok (take (Z.to_nat n) (match l with HashList l => l | ScaledHashList l => bhl_iter l end)).

Fixpoint full_hit_loop (p : BlockPool) (gids : list Z) (hs : list bytes) (rows : list (list loc))
    : result (list (list loc)) :=
  match hs with
  | [] => Ok rows
  | h :: hs =>
      c ← lookup_hit p h gids;
      match c with
      | Some cs => full_hit_loop p gids hs (zip_rows (λ row x, row ++ [x]) rows cs)
      | None => Ok rows
      end
  end.

Definition full_find_longest_cache_hit (block_hashes : BlockHashList) (max_length : Z)
    (gids : list Z) (p : BlockPool) (spec : LayerSpec) (drop_eagle_block : bool)
    (alignment_tokens dcp pcp : Z) : result (list (list loc)) :=
  if negb (is_FullAttentionSpec spec || bool_decide (spec_chunk_size spec ≠ None))
  then Err AssertionError
  else
    let block_size := layer_block_size spec * (if 1 <? dcp * pcp then dcp * pcp else 1) in
    hs ← bh_islice block_hashes (max_length / block_size);
    rows ← full_hit_loop p gids hs (replicate (length gids) []);
    rows ← drop_last drop_eagle_block rows;
    align_to block_size alignment_tokens rows.

(** The right-to-left search of [SlidingWindowManager]: [i + 1] blocks are left to
    look at, [run] is [num_contiguous_blocks]. Returns the rows and the run, and
    whether a match was found. *)
Fixpoint swa_loop (p : BlockPool) (gids : list Z) (block_hashes : BlockHashList)
    (block_size alignment_tokens need : Z) (drop_eagle_block : bool) (n : nat)
    (run : Z) (rows : list (list loc)) : result (list (list loc) * Z * bool) :=
  match n with
  | O => Ok (rows, run, false)
  | S i =>
      h ← bh_index block_hashes (Z.of_nat i);
      c ← lookup_hit p h gids;
      match c with
      | None => swa_loop p gids block_hashes block_size alignment_tokens need drop_eagle_block i 0 rows
      | Some cs =>
          let post_pop_blocks := if drop_eagle_block then Z.of_nat i else Z.of_nat i + 1 in
          if (run =? 0) && negb (block_size =? alignment_tokens)
             && negb (post_pop_blocks * block_size mod alignment_tokens =? 0)
          then swa_loop p gids block_hashes block_size alignment_tokens need drop_eagle_block i run rows
          else
            let rows := zip_rows (λ row x, <[i := x]> row) rows cs in
            let run := run + 1 in
            if need <=? run
            then Ok ((λ row, take (i + Z.to_nat run) row) <$> rows, run, true)
            else swa_loop p gids block_hashes block_size alignment_tokens need drop_eagle_block i run rows
      end
  end.

Definition swa_find_longest_cache_hit (block_hashes : BlockHashList) (max_length : Z)
    (gids : list Z) (p : BlockPool) (spec : LayerSpec) (drop_eagle_block : bool)
    (alignment_tokens dcp pcp : Z) : result (list (list loc)) :=
  match spec_sliding_window spec with
  | None => Err AssertionError
  | Some window =>
      if negb ((dcp =? 1) && (pcp =? 1)) then Err AssertionError
      else
        let block_size := layer_block_size spec in
        let need := _contiguous_blocks_for_hit window block_size drop_eagle_block in
        let max_num_blocks := Z.to_nat (max_length / block_size) in
        '(rows, run, found) ← swa_loop p gids block_hashes block_size alignment_tokens need
            drop_eagle_block max_num_blocks 0
            (replicate (length gids) (replicate max_num_blocks (null_block p)));
        rows ← (if found : bool then Ok rows
                else align_to block_size alignment_tokens (take (Z.to_nat run) <$> rows));
        if drop_eagle_block then
          row ← py_index rows 0;
          if bool_decide (row = []) then Ok rows
          else rows ← pop_rows rows; align_to block_size alignment_tokens rows
        else Ok rows
  end.

Fixpoint chunked_loop (p : BlockPool) (gids : list Z) (block_hashes : BlockHashList)
    (idxs : list Z) (rows : list (list loc)) : result (list (list loc)) :=
  match idxs with
  | [] => Ok rows
  | i :: idxs =>
      h ← bh_index block_hashes i;
      c ← lookup_hit p h gids;
      match c with
      | Some cs => chunked_loop p gids block_hashes idxs (zip_rows (λ row x, row ++ [x]) rows cs)
      | None => Ok rows
      end
  end.

Definition chunked_find_longest_cache_hit (block_hashes : BlockHashList) (max_length : Z)
    (gids : list Z) (p : BlockPool) (spec : LayerSpec) (drop_eagle_block : bool)
    (alignment_tokens dcp pcp : Z) : result (list (list loc)) :=
  match spec_chunk_size spec with
  | None => Err AssertionError
  | Some chunk =>
      let block_size := layer_block_size spec in
      if drop_eagle_block || negb ((dcp =? 1) && (pcp =? 1) && (block_size =? alignment_tokens))
      then Err AssertionError
      else
        let max_num_blocks := max_length / block_size in
        let local_attention_start_idx := if 0 <? max_length then max_length / chunk * chunk else 0 in
        let start := local_attention_start_idx / block_size in
        chunked_loop p gids block_hashes (zrange start max_num_blocks)
          (replicate (length gids) (replicate (Z.to_nat start) (null_block p)))
  end.

(** The right-to-left search of [MambaManager]; [i + 1] blocks are left. *)
Fixpoint mamba_loop (p : BlockPool) (gids : list Z) (block_hashes : BlockHashList)
    (block_size alignment_tokens : Z) (n : nat) : result (list (list loc)) :=
  match n with
  | O => Ok (replicate (length gids) [])
  | S i =>
      h ← bh_index block_hashes (Z.of_nat i);
      c ← lookup_hit p h gids;
      match c with
      | None => mamba_loop p gids block_hashes block_size alignment_tokens i
      | Some cs =>
          if negb (block_size =? alignment_tokens)
             && negb ((Z.of_nat i + 1) * block_size mod alignment_tokens =? 0)
          then mamba_loop p gids block_hashes block_size alignment_tokens i
          else Ok (zip_rows (λ row x, row ++ replicate i (null_block p) ++ [x])
                     (replicate (length gids) []) cs)
      end
  end.

Definition mamba_find_longest_cache_hit (block_hashes : BlockHashList) (max_length : Z)
    (gids : list Z) (p : BlockPool) (spec : LayerSpec)
    (alignment_tokens dcp pcp : Z) : result (list (list loc)) :=
  match mamba_fields spec with
  | None => Err AssertionError
  | Some f =>
      if negb ((dcp =? 1) && (pcp =? 1)) then Err AssertionError
      else mamba_loop p gids block_hashes (m_block_size f) alignment_tokens
             (Z.to_nat (max_length / m_block_size f))
  end.

Definition find_longest_cache_hit (cls : ManagerClass) (block_hashes : BlockHashList) (max_length : Z)
    (gids : list Z) (p : BlockPool) (spec : LayerSpec) (drop_eagle_block : bool)
    (alignment_tokens dcp pcp : Z) : result (list (list loc)) :=
  match cls with
  | FullAttentionManager | SinkFullAttentionManager =>
      full_find_longest_cache_hit block_hashes max_length gids p spec drop_eagle_block alignment_tokens dcp pcp
  | SlidingWindowManager =>
      swa_find_longest_cache_hit block_hashes max_length gids p spec drop_eagle_block alignment_tokens dcp pcp
  | ChunkedLocalAttentionManager =>
      chunked_find_longest_cache_hit block_hashes max_length gids p spec drop_eagle_block alignment_tokens dcp pcp
  | MambaManager =>
      mamba_find_longest_cache_hit block_hashes max_length gids p spec alignment_tokens dcp pcp
  | CrossAttentionManager => Err NotImplementedError
  end.

(** ** Construction *)

(** [SinkFullAttentionManager.__init__] passes [dcp_world_size] and
    [pcp_world_size] on by position, into [scheduler_block_size] and
    [dcp_world_size] of the base class. *)
Definition new_sink_manager (spec : LayerSpec) (sink_len : option Z) (caching : bool)
    (group_id dcp pcp : Z) : P Manager :=
  p ← get;
  let m := new_manager SinkFullAttentionManager spec p caching group_id dcp pcp 1 None in
  match sink_len with
  | None => raise AssertionError
  | Some len =>
      _ ← py_assert ((0 <? len) && (len mod mg_block_size m =? 0));
      blocks ← onq (popleft_n (len / mg_block_size m));
      mret (mg_set_sink_blocks blocks m)
  end.

(** The keyword arguments [get_manager_for_kv_cache_spec] receives from the
    coordinator, and those [SinkFullAttentionManager.__init__] accepts. *)
Definition coordinator_kwargs : list string :=
  ["block_pool"; "enable_caching"; "kv_cache_group_id"; "dcp_world_size"; "pcp_world_size";
   "scheduler_block_size"]%string.
Definition sink_init_params : list string :=
  ["kv_cache_spec"; "block_pool"; "enable_caching"; "kv_cache_group_id"; "dcp_world_size";
   "pcp_world_size"]%string.

Definition get_manager_for_kv_cache_spec (s : KVCacheSpec) (max_batched max_len : Z) (caching : bool)
    (group_id scheduler_block_size dcp pcp : Z) : P Manager :=
  match s with
  | UniformTypeKVCacheSpecs _ _ => raise AssertionError
  | OneSpec spec =>
      match get_manager_class spec with
      | None => raise AssertionError
      | Some SinkFullAttentionManager =>
          if forallb (λ k, bool_decide (k ∈ sink_init_params)) coordinator_kwargs
          then new_sink_manager spec
                 (match spec with SinkFullAttentionSpec _ _ l => l | _ => None end)
                 caching group_id dcp pcp
          else raise TypeError
      | Some cls =>
          p ← get;
          mret (new_manager cls spec p caching group_id scheduler_block_size dcp pcp
                  (max_admission_blocks_per_request spec max_batched max_len))
      end
  end.
