(* ===== verification/ManagerSpec.v ===== *)
(** * Single-type managers: ownership

    The operations of [SingleType] against the ledger of [Ledger]: a manager holds
    the blocks of its requests and nothing else, and blocks past
    [num_cached_block] are fresh. Each operation runs without exception when
    enough blocks are free, and keeps the account balanced. The frame [R] and [F]
    stands for what the other managers and requests hold. *)

From Stdlib Require Import ZArith Lia.
From S2P Require Import Prelude MathUtils KVSpec FreeQueue Request BlockHash BlockPool Ledger SingleType.
Local Open Scope Z_scope.

(** The blocks of a request, and how many of them count as cached. *)
Definition blocks (m : Manager) (rid : string) : list loc := default [] (req_to_blocks m !! rid).
Definition ncached (m : Manager) (rid : string) : Z := default 0 (num_cached_block m !! rid).

(** The blocks of a request that are not cached yet. *)
Definition tail_blocks (caching : bool) (nc : Z) (bs : list loc) : list loc :=
  if caching then nonnull (drop (Z.to_nat nc) bs) else [].

Definition owned_map (mp : gmap string (list loc)) : list loc := concat (map_to_list mp).*2.
Definition owned (m : Manager) : list loc := owned_map (req_to_blocks m).
Definition fresh_map (m : Manager) (mp : gmap string (list loc)) : list loc :=
  concat ((λ x, tail_blocks (mg_enable_caching m) (ncached m x.1) x.2) <$> map_to_list mp).
Definition fresh_of (m : Manager) : list loc := fresh_map m (req_to_blocks m).

Definition others (m : Manager) (rid : string) : list loc := owned_map (delete rid (req_to_blocks m)).
Definition fresh_others (m : Manager) (rid : string) : list loc :=
  fresh_map m (delete rid (req_to_blocks m)).

Lemma owned_split m rid : owned m ≡ₚ blocks m rid ++ others m rid.
Proof.
  unfold owned, blocks, others, owned_map. destruct (req_to_blocks m !! rid) as [bs|] eqn:E; simpl.
  - by rewrite <-(map_to_list_delete _ _ _ E).
  - by rewrite delete_id.
Qed.
Lemma fresh_split m rid :
  fresh_of m ≡ₚ tail_blocks (mg_enable_caching m) (ncached m rid) (blocks m rid) ++ fresh_others m rid.
Proof.
  unfold fresh_of, blocks, fresh_others, fresh_map. destruct (req_to_blocks m !! rid) as [bs|] eqn:E; simpl.
  - by rewrite <-(map_to_list_delete _ _ _ E).
  - rewrite delete_id by done. unfold tail_blocks. rewrite drop_nil. by destruct (mg_enable_caching m).
Qed.

Lemma tail_blocks_subset caching nc bs b : b ∈ tail_blocks caching nc bs → b ∈ bs.
Proof.
  unfold tail_blocks. destruct caching; [|by intros ?%not_elem_of_nil].
  intros [_ Hb]%elem_of_nonnull. by eapply elem_of_list_drop || (eapply subseteq_drop; exact Hb).
Qed.
Lemma fresh_map_subset m mp b : b ∈ fresh_map m mp → b ∈ owned_map mp.
Proof.
  unfold fresh_map, owned_map. induction (map_to_list mp) as [|[r bs] l IH]; csimpl; [done|].
  rewrite !elem_of_app. intros [?%tail_blocks_subset|?]; [by left|right; by apply IH].
Qed.

(** What no operation changes of a manager. *)
Definition conf (m : Manager) :=
  (mg_class m, mg_spec m, mg_block_size m, mg_enable_caching m, mg_scheduler_block_size m,
   mg_kv_cache_group_id m, mg_null_block m, mg_use_eagle m, mg_max_admission_blocks_per_request m).

(** An operation on request [rid] leaves the other requests alone. *)
Record only (rid : string) (m m' : Manager) : Prop := {
  on_conf : conf m' = conf m;
  on_blocks : delete rid (req_to_blocks m') = delete rid (req_to_blocks m);
  on_cached : ∀ r, r ≠ rid → num_cached_block m' !! r = num_cached_block m !! r
}.
#[global] Instance only_preorder rid : PreOrder (only rid).
Proof.
  split; [by split|]. intros m1 m2 m3 [A1 B1 C1] [A2 B2 C2]. split; [congruence|congruence|].
  intros r Hr. by rewrite C2, C1.
Qed.

Lemma only_caching rid m m' : only rid m m' → mg_enable_caching m' = mg_enable_caching m.
Proof. intros [A _ _]. unfold conf in A. congruence. Qed.
Lemma only_size rid m m' : only rid m m' → mg_block_size m' = mg_block_size m.
Proof. intros [A _ _]. unfold conf in A. congruence. Qed.

Lemma only_others rid m m' : only rid m m' → others m' rid = others m rid ∧ fresh_others m' rid = fresh_others m rid.
Proof.
  intros [A B C]. unfold others, fresh_others, fresh_map. rewrite B. split; [done|]. f_equal.
  assert (mg_enable_caching m' = mg_enable_caching m) as -> by (unfold conf in A; congruence).
  apply list_fmap_ext. intros i [r bs] Hx. apply list_elem_of_lookup_2, elem_of_map_to_list in Hx.
  apply lookup_delete_Some in Hx as [Hr _]. simpl. unfold ncached. by rewrite C.
Qed.

Lemma only_blocks rid m m' r : only rid m m' → r ≠ rid → blocks m' r = blocks m r ∧ ncached m' r = ncached m r.
Proof.
  intros [A B C] Hr. unfold blocks, ncached. rewrite C by done. split; [|done]. f_equal.
  rewrite <-(lookup_delete_ne (req_to_blocks m') rid r), B by congruence.
  by rewrite lookup_delete_ne by congruence.
Qed.

(** A manager created over the pool [p]; what its class needs of its spec. *)
Record mgr_static (p : BlockPool) (m : Manager) : Prop := {
  ms_null : mg_null_block m = Block 0;
  ms_size : 0 < mg_block_size m;
  ms_hash_size : mg_enable_caching m = true → 0 < hash_block_size p ∧ mg_block_size m mod hash_block_size p = 0;
  ms_gid : 0 ≤ mg_kv_cache_group_id m < 256 ^ 4;
  ms_caching : mg_enable_caching m = enable_caching p;
  ms_plain : mg_class m = MambaManager → align_mode m = false ∧ 0 ≤ spec_blocks m
    ∧ layer_block_size (mg_spec m) = mg_block_size m;
  ms_window : mg_class m = SlidingWindowManager → ∃ w, spec_sliding_window (mg_spec m) = Some w ∧ 1 ≤ w
    ∧ layer_block_size (mg_spec m) = mg_block_size m ∧ mg_scheduler_block_size m mod mg_block_size m = 0;
  ms_chunk : mg_class m = ChunkedLocalAttentionManager → ∃ c, spec_chunk_size (mg_spec m) = Some c ∧ 0 < c
}.

Record mgr_inv (p : BlockPool) (free R F : list loc) (m : Manager) : Prop := {
  mi_static : mgr_static p m;
  mi_ledger : ledger p free (owned m ++ R) (fresh_of m ++ F);
  mi_frame : ∀ b, b ∈ F → b ∈ R;
  mi_nodup : ∀ rid, NoDup (nonnull (blocks m rid));
  mi_cached : ∀ rid, 0 ≤ ncached m rid ≤ zlen (blocks m rid)
}.

Lemma mgr_static_only p p' rid m m' : same_config p p' → only rid m m' → mgr_static p m → mgr_static p' m'.
Proof.
  intros (_ & He & Hh & _) [A _ _] [H1 H2 H3 H4 H5 H6 H7 H8]. unfold conf in A.
  injection A as Ec Es Eb Ee Esch Eg En Eu Em.
  split; unfold align_mode, spec_blocks; rewrite ?He, ?Hh, ?Ec, ?Es, ?Eb, ?Ee, ?Esch, ?Eg, ?En; done.
Qed.

(** *** One request at a time *)

Definition req_tail (m : Manager) (rid : string) : list loc :=
  tail_blocks (mg_enable_caching m) (ncached m rid) (blocks m rid).

Lemma mgr_open p free R F m rid :
  mgr_inv p free R F m →
  ledger p free (blocks m rid ++ others m rid ++ R) (req_tail m rid ++ fresh_others m rid ++ F)
  ∧ (∀ b, b ∈ fresh_others m rid ++ F → b ∈ others m rid ++ R).
Proof.
  intros [_ Hl Hf _ _]. rewrite (owned_split m rid), (fresh_split m rid), <-!(assoc_L (++)) in Hl.
  split; [done|]. intros b. rewrite !elem_of_app. intros [?%fresh_map_subset|?]; [by left|right; auto].
Qed.

Lemma mgr_close p free R F m p' free' m' rid :
  mgr_inv p free R F m → same_config p p' → only rid m m' →
  NoDup (nonnull (blocks m' rid)) → 0 ≤ ncached m' rid ≤ zlen (blocks m' rid) →
  ledger p' free' (blocks m' rid ++ others m rid ++ R) (req_tail m' rid ++ fresh_others m rid ++ F) →
  mgr_inv p' free' R F m'.
Proof.
  intros [Hs _ Hf Hn Hc] Hcf Ho Hn' Hc' Hl. destruct (only_others _ _ _ Ho) as [Eo Ef].
  split; [by eapply mgr_static_only| |done| |].
  - rewrite (owned_split m' rid), (fresh_split m' rid), <-!(assoc_L (++)), Eo, Ef. done.
  - intros r. destruct (decide (r = rid)) as [->|Hr]; [done|]. by rewrite (proj1 (only_blocks _ _ _ _ Ho Hr)).
  - intros r. destruct (decide (r = rid)) as [->|Hr]; [done|].
    destruct (only_blocks _ _ _ _ Ho Hr) as [-> ->]. done.
Qed.

Lemma onpool_ok {A} (f : P A) m p a p' : f p = Ok (a, p') → onpool f (m, p) = Ok (a, (m, p')).
Proof. unfold onpool, zoom. simpl. by intros ->. Qed.

(** Creating the empty entry of a [defaultdict]. *)
Definition with_entry (rid : string) (m : Manager) : Manager :=
  match req_to_blocks m !! rid with
  | Some _ => m
  | None => mg_set_req_to_blocks (<[rid := []]> (req_to_blocks m)) m
  end.

Lemma req_blocks_run rid m p : req_blocks rid (m, p) = Ok (blocks m rid, (with_entry rid m, p)).
Proof. unfold req_blocks, with_entry, blocks, self. munfold. by destruct (req_to_blocks m !! rid). Qed.

Lemma with_entry_only rid m : only rid m (with_entry rid m).
Proof.
  unfold with_entry. destruct (req_to_blocks m !! rid) eqn:E; [done|]. split; [done| |done].
  simpl. by rewrite delete_insert_eq.
Qed.
Lemma with_entry_blocks rid m : blocks (with_entry rid m) rid = blocks m rid.
Proof.
  unfold with_entry, blocks. destruct (req_to_blocks m !! rid) eqn:E; [by rewrite E|]. simpl.
  by rewrite lookup_insert_eq.
Qed.
Lemma with_entry_cached rid m : num_cached_block (with_entry rid m) = num_cached_block m.
Proof. unfold with_entry. by case_match. Qed.

Definition with_blocks (rid : string) (bs : list loc) (m : Manager) : Manager :=
  mg_set_req_to_blocks (<[rid := bs]> (req_to_blocks m)) m.
Lemma with_blocks_only rid bs m : only rid m (with_blocks rid bs m).
Proof. split; [done| |done]. simpl. by rewrite delete_insert_eq. Qed.
Lemma with_blocks_blocks rid bs m : blocks (with_blocks rid bs m) rid = bs.
Proof. unfold blocks, with_blocks. simpl. by rewrite lookup_insert_eq. Qed.
Lemma set_req_blocks_run rid bs m p : set_req_blocks rid bs (m, p) = Ok (tt, (with_blocks rid bs m, p)).
Proof. done. Qed.

Lemma mgr_with_entry p free R F m rid : mgr_inv p free R F m → mgr_inv p free R F (with_entry rid m).
Proof.
  intros Hm. pose proof (mi_nodup _ _ _ _ _ Hm rid). pose proof (mi_cached _ _ _ _ _ Hm rid).
  destruct (mgr_open _ _ _ _ _ rid Hm) as [Hl _].
  assert (ncached (with_entry rid m) rid = ncached m rid) as En by (unfold ncached; by rewrite with_entry_cached).
  assert (mg_enable_caching (with_entry rid m) = mg_enable_caching m) as Ee by (unfold with_entry; by case_match).
  eapply mgr_close; [done|done|apply with_entry_only|..]; unfold req_tail; rewrite ?with_entry_blocks, ?En, ?Ee; done.
Qed.

(** *** Freeing *)

(** [base_free]'s and [swa_free]'s effect on the free queue. *)
Definition free_order (m : Manager) (p : BlockPool) (bs free : list loc) : list loc :=
  match mg_class m with
  | SlidingWindowManager =>
      last_refs p (unhashed (pool_heap p) (reverse bs)) ++ free ++ last_refs p (hashed (pool_heap p) (reverse bs))
  | _ => free ++ last_refs p (reverse bs)
  end.

Lemma hashed_split h bs : bs ≡ₚ hashed h bs ++ unhashed h bs.
Proof.
  unfold hashed, unhashed. induction bs as [|b bs IH]; [done|]. rewrite !filter_cons.
  destruct (_block_hash (h b)) eqn:E; repeat case_decide; try done; rewrite IH at 1; [done|].
  by rewrite Permutation_middle.
Qed.

Lemma last_refs_same p p' bs :
  (∀ b, b ∈ bs → b ≠ Block 0 → ref_cnt (pool_heap p' b) = ref_cnt (pool_heap p b)) →
  last_refs p' bs = last_refs p bs.
Proof.
  intros Hr. unfold last_refs. apply list_filter_iff'. intros b Hb.
  split; intros [H1 H2]; (split; [done|]); [by rewrite <-Hr|by rewrite Hr].
Qed.

(** Two [free_blocks] calls on the parts of a list without repetition. *)
Lemma ledger_free_parts p free own fresh rm1 rm2 pre1 pre2 :
  ledger p free (rm1 ++ rm2 ++ own) fresh → NoDup (nonnull (rm1 ++ rm2)) → (∀ b, b ∈ fresh → b ∈ own) →
  ∃ p1 p2, free_blocks rm1 pre1 p = Ok (tt, p1) ∧ free_blocks rm2 pre2 p1 = Ok (tt, p2)
    ∧ (let free1 := if pre1 then last_refs p rm1 ++ free else free ++ last_refs p rm1 in
       ledger p2 (if pre2 then last_refs p rm2 ++ free1 else free1 ++ last_refs p rm2) own fresh)
    ∧ same_config p p2 ∧ same_hashes p p2.
Proof.
  intros Hl Hnd Hf. rewrite nonnull_app in Hnd. apply NoDup_app in Hnd as (Hn1 & Hd & Hn2).
  destruct (ledger_free_keep p free (rm2 ++ own) fresh rm1 pre1) as (p1 & E1 & Hl1 & Hc1 & Hh1);
    [done|done|intros b Hb; apply elem_of_app; right; by apply Hf|].
  destruct (ledger_free_keep p1 _ own fresh rm2 pre2 Hl1) as (p2 & E2 & Hl2 & Hc2 & Hh2); [done|done|].
  exists p1, p2. split; [done|]. split; [done|].
  rewrite (last_refs_same p p1 rm2) in Hl2.
  2:{ intros b Hb Hb0. pose proof (lg_in _ _ _ _ Hl) as Hin. apply in_pool_app in Hin as [_ [Hin _]%in_pool_app].
      destruct (elem_of_in_pool _ _ _ Hin Hb) as (i & -> & Hi).
      assert (i ≠ 0%nat) by congruence. pose proof (same_config_nblocks _ _ Hc1).
      change (refc p1 i = refc p i). rewrite (lg_ref _ _ _ _ Hl1), (lg_ref _ _ _ _ Hl) by lia.
      rewrite (occ_app _ rm1), (occ_not_in _ rm1); [lia|].
      intros Hx. eapply Hd; by apply elem_of_nonnull. }
  split; [done|]. split; [by etrans|]. intros i. by rewrite Hh2, Hh1.
Qed.

(** The manager after [free]. *)
Definition forgotten (rid : string) (m : Manager) : Manager :=
  mg_set_num_cached_block (delete rid (num_cached_block m))
    (mg_set_req_to_blocks (delete rid (req_to_blocks m)) m).

Lemma base_free_run rid m p p' :
  free_blocks (reverse (blocks m rid)) false p = Ok (tt, p') →
  base_free rid (m, p) = Ok (tt, (forgotten rid m, p')).
Proof.
  intros E. unfold base_free. rewrite (bind_ok _ _ (m, p) (blocks m rid) (mg_set_req_to_blocks (delete rid (req_to_blocks m)) m, p)) by done.
  by rewrite (bind_ok _ _ _ _ _ (onpool_ok _ _ _ _ _ E)).
Qed.

Lemma swa_free_run rid m p p1 p2 :
  free_blocks (hashed (pool_heap p) (reverse (blocks m rid))) false p = Ok (tt, p1) →
  free_blocks (unhashed (pool_heap p) (reverse (blocks m rid))) true p1 = Ok (tt, p2) →
  (blocks m rid = [] → p2 = p) →
  swa_free rid (m, p) = Ok (tt, (forgotten rid m, p2)).
Proof.
  intros E1 E2 Hnil. unfold swa_free.
  rewrite (bind_ok _ _ (m, p) (blocks m rid) (mg_set_req_to_blocks (delete rid (req_to_blocks m)) m, p)) by done.
  mstep. simpl. case_bool_decide as Hb.
  - rewrite (Hnil Hb). done.
  - rewrite (bind_ok _ _ _ tt (mg_set_req_to_blocks (delete rid (req_to_blocks m)) m, p2)); [done|].
    rewrite (bind_ok _ _ _ _ _ (onpool_ok _ _ _ _ _ E1)). by apply onpool_ok.
Qed.

Lemma forgotten_only rid m : only rid m (forgotten rid m).
Proof.
  split; [done| |].
  - simpl. by rewrite delete_delete_eq.
  - intros r Hr. simpl. by rewrite lookup_delete_ne by congruence.
Qed.
Lemma forgotten_blocks rid m : blocks (forgotten rid m) rid = [] ∧ ncached (forgotten rid m) rid = 0.
Proof. unfold blocks, ncached. simpl. by rewrite !lookup_delete_eq. Qed.

Lemma mgr_forgotten p free R F m p' free' m' rid :
  mgr_inv p free R F m → same_config p p' → only rid m m' → blocks m' rid = [] → ncached m' rid = 0 →
  ledger p' free' (others m rid ++ R) (fresh_others m rid ++ F) → mgr_inv p' free' R F m'.
Proof.
  intros Hm Hc Ho Hb Hn Hl. eapply mgr_close; [done|done|done|..]; unfold req_tail; rewrite ?Hb, ?Hn; try done.
  - constructor.
  - unfold tail_blocks. by destruct (mg_enable_caching m').
Qed.

Lemma free_blocks_nil p pre : free_blocks [] pre p = Ok (tt, p).
Proof. unfold free_blocks. munfold. destruct pre; simpl; by destruct p. Qed.

Lemma base_free_spec p free R F m rid :
  mgr_inv p free R F m →
  ∃ p', base_free rid (m, p) = Ok (tt, (forgotten rid m, p'))
    ∧ mgr_inv p' (free ++ last_refs p (reverse (blocks m rid))) R F (forgotten rid m)
    ∧ same_config p p' ∧ same_hashes p p'.
Proof.
  intros Hm. destruct (mgr_open _ _ _ _ _ rid Hm) as [Hl Hf].
  eapply ledger_weaken in Hl; [|intros b Hb; apply elem_of_app; right; exact Hb].
  rewrite <-(reverse_Permutation (blocks m rid)) in Hl.
  destruct (ledger_free_keep _ _ _ _ _ false Hl) as (p' & E & Hl' & Hc & Hh);
    [rewrite nonnull_reverse; apply (mi_nodup _ _ _ _ _ Hm)|done|].
  exists p'. split; [by apply base_free_run|]. split; [|done].
  destruct (forgotten_blocks rid m). by eapply mgr_forgotten; [..|exact Hl']; [|done|apply forgotten_only|..].
Qed.

Lemma swa_free_spec p free R F m rid :
  mgr_inv p free R F m →
  ∃ p', swa_free rid (m, p) = Ok (tt, (forgotten rid m, p'))
    ∧ mgr_inv p' (last_refs p (unhashed (pool_heap p) (reverse (blocks m rid))) ++ free
                  ++ last_refs p (hashed (pool_heap p) (reverse (blocks m rid)))) R F (forgotten rid m)
    ∧ same_config p p' ∧ same_hashes p p'.
Proof.
  intros Hm. destruct (mgr_open _ _ _ _ _ rid Hm) as [Hl Hf].
  eapply ledger_weaken in Hl; [|intros b Hb; apply elem_of_app; right; exact Hb].
  set (h := pool_heap p). set (bs := reverse (blocks m rid)).
  assert (Hperm : blocks m rid ≡ₚ hashed h bs ++ unhashed h bs).
  { unfold bs. rewrite <-(hashed_split h (reverse _)). by rewrite reverse_Permutation. }
  pose proof (mi_nodup _ _ _ _ _ Hm rid) as Hnd. rewrite Hperm in Hl, Hnd. rewrite <-(assoc_L (++)) in Hl.
  destruct (ledger_free_parts _ _ _ _ _ _ false true Hl Hnd) as (p1 & p2 & E1 & E2 & Hl2 & Hc & Hh); [done|].
  exists p2. split; [|split; [|done]].
  - eapply swa_free_run; [exact E1|exact E2|]. intros Hnil. unfold bs in E1, E2. rewrite Hnil in E1, E2.
    unfold hashed, unhashed in E1, E2. rewrite reverse_nil in E1, E2. simpl in E1, E2.
    rewrite free_blocks_nil in E1. simplify_eq. rewrite free_blocks_nil in E2. by simplify_eq.
  - destruct (forgotten_blocks rid m). by eapply mgr_forgotten; [..|exact Hl2]; [|done|apply forgotten_only|..].
Qed.

(** Freeing a request: the manager holds nothing for it any more, and the blocks
    that nobody else holds go back to the queue in [free_order]. *)
Lemma free_spec p free R F m rid :
  mgr_inv p free R F m →
  ∃ m' p', SingleType.free rid (m, p) = Ok (tt, (m', p'))
    ∧ mgr_inv p' (free_order m p (blocks m rid) free) R F m'
    ∧ same_config p p' ∧ same_hashes p p' ∧ only rid m m'
    ∧ req_to_blocks m' = delete rid (req_to_blocks m)
    ∧ num_cached_block m' = delete rid (num_cached_block m).
Proof.
  intros Hm. unfold SingleType.free, free_order. mstep. simpl.
  pose proof (ms_plain _ _ (mi_static _ _ _ _ _ Hm)) as Hpl.
  destruct (mg_class m) eqn:Ec; try (
    destruct (base_free_spec _ _ _ _ _ rid Hm) as (p' & E & Hm' & Hc & Hh);
    exists (forgotten rid m), p'; rewrite E; split_and!; [done|done|done|done|apply forgotten_only|done|done]).
  - destruct (swa_free_spec _ _ _ _ _ rid Hm) as (p' & E & Hm' & Hc & Hh).
    exists (forgotten rid m), p'. rewrite E. split_and!; [done|done|done|done|apply forgotten_only|done|done].
  - destruct (Hpl eq_refl) as [-> _]. mstep.
    destruct (base_free_spec _ _ _ _ _ rid Hm) as (p' & E & Hm' & Hc & Hh).
    exists (forgotten rid m), p'. rewrite E. split_and!; [done|done|done|done|apply forgotten_only|done|done].
Qed.

(** *** Removing skipped blocks *)

Lemma skip_loop_spec n bs :
  (n ≤ length bs)%nat →
  let '(removed, bs') := skip_loop (Block 0) n bs in
  removed ++ bs' ≡ₚ replicate (length removed) (Block 0) ++ bs
  ∧ length bs' = length bs ∧ (∀ i, (n ≤ i)%nat → bs' !! i = bs !! i)
  ∧ Forall (λ b, b ≠ Block 0) removed
  ∧ (∀ i b, bs' !! i = Some b → b = Block 0 ∨ bs !! i = Some b).
Proof.
  revert bs. induction n as [|n IH]; intros bs Hn; simpl.
  { split_and!; try done. auto. }
  destruct (lookup_lt_is_Some_2 bs n) as [b Hb]; [lia|]. rewrite Hb.
  case_bool_decide as Hb0; simpl.
  { split_and!; try done. auto. }
  specialize (IH (<[n := Block 0]> bs)). rewrite length_insert in IH. specialize (IH ltac:(lia)).
  destruct (skip_loop (Block 0) n (<[n:=Block 0]> bs)) as [removed bs'].
  destruct IH as (Hp & Hl & Hi & Hf & Hany). split_and!.
  - simpl. rewrite Hp, Permutation_middle. rewrite <-!Permutation_middle.
    apply list_elem_of_split_length in Hb as (l1 & l2 & -> & ->).
    rewrite insert_app_r_alt, Nat.sub_diag by done.
    simpl. solve_Permutation.
  - lia.
  - intros i Hle. rewrite Hi, list_lookup_insert_ne by lia. done.
  - by constructor.
  - intros i x Hx. destruct (Hany i x Hx) as [?|Hx']; [by left|].
    apply list_lookup_insert_Some in Hx' as [(-> & <- & _)|[_ ?]]; [by left|by right].
Qed.

Lemma tail_blocks_shrink caching nc bs bs' b :
  (∀ i x, bs' !! i = Some x → x = Block 0 ∨ bs !! i = Some x) →
  b ∈ tail_blocks caching nc bs' → b ∈ tail_blocks caching nc bs.
Proof.
  intros Hany. unfold tail_blocks. destruct caching; [|done]. rewrite !elem_of_nonnull.
  intros [Hb0 [i Hi]%list_elem_of_lookup_1]. split; [done|]. rewrite lookup_drop in Hi.
  destruct (Hany _ _ Hi) as [?|Hi']; [done|]. apply list_elem_of_lookup. exists i. by rewrite lookup_drop.
Qed.

(** The number of leading blocks of a request that attention has left behind. *)
Definition skipped_blocks (m : Manager) (n : Z) : Z := get_num_skipped_tokens m n / mg_block_size m.

(** What [remove_skipped_blocks] promises about the request's blocks. *)
Record skipped (rid : string) (m m' : Manager) (n : Z) : Prop := {
  sk_only : only rid m m';
  sk_cached : num_cached_block m' = num_cached_block m;
  sk_length : length (blocks m' rid) = length (blocks m rid);
  sk_keep : ∀ i, skipped_blocks m n ≤ Z.of_nat i → blocks m' rid !! i = blocks m rid !! i;
  sk_null : ∀ i b, blocks m' rid !! i = Some b → b = Block 0 ∨ blocks m rid !! i = Some b
}.

Lemma skipped_refl rid m n : skipped rid m m n.
Proof. split; [done|done|done|done|auto]. Qed.

Lemma base_remove_skipped_spec p free R F m rid n :
  mgr_inv p free R F m →
  ∃ m' p' free', base_remove_skipped_blocks rid n (m, p) = Ok (tt, (m', p'))
    ∧ mgr_inv p' free' R F m' ∧ same_config p p' ∧ same_hashes p p' ∧ skipped rid m m' n
    ∧ (∀ b, b ∈ free → b ∈ free').
Proof.
  intros Hm. unfold base_remove_skipped_blocks. mstep. simpl.
  destruct (Z.leb_spec (get_num_skipped_tokens m n) 0) as [|Hpos].
  { exists m, p, free. split_and!; try done; apply skipped_refl. }
  mstep by apply req_blocks_run. mstep.
  pose proof (ms_null _ _ (mi_static _ _ _ _ _ Hm)) as ->.
  pose proof (ms_size _ _ (mi_static _ _ _ _ _ Hm)) as Hbs.
  set (bs := blocks m rid). set (k := Z.min _ _).
  assert (Hk : 0 ≤ k ≤ zlen bs).
  { unfold k. pose proof (zlen_nonneg bs).
    pose proof (Z.div_pos (get_num_skipped_tokens m n) (mg_block_size m)). lia. }
  pose proof (skip_loop_spec (Z.to_nat k) bs) as Hsk. unfold zlen in Hk. specialize (Hsk ltac:(lia)).
  destruct (skip_loop (Block 0) (Z.to_nat k) bs) as [rm bs'].
  destruct Hsk as (Hperm & Hlen & Hkeep & Hrm & Hany).
  mstep by apply set_req_blocks_run. cbn [snd].
  assert (Hnn : nonnull (rm ++ bs') ≡ₚ nonnull bs).
  { rewrite Hperm, nonnull_app, nonnull_replicate. done. }
  pose proof (mi_nodup _ _ _ _ _ Hm rid) as Hnd. fold bs in Hnd. rewrite <-Hnn in Hnd.
  set (m1 := with_blocks rid bs' (with_entry rid m)).
  assert (Ho : only rid m m1) by (etrans; [apply with_entry_only|apply with_blocks_only]).
  assert (Hb1 : blocks m1 rid = bs') by apply with_blocks_blocks.
  assert (Hn1 : num_cached_block m1 = num_cached_block m) by apply with_entry_cached.
  destruct (mgr_open _ _ _ _ _ rid Hm) as [Hl Hf]. fold bs in Hl.
  assert (Hfresh : ∀ b, b ∈ tail_blocks (mg_enable_caching m) (ncached m rid) bs' ++ fresh_others m rid ++ F
    → b ∈ bs' ++ others m rid ++ R).
  { intros b [Hb|Hb]%elem_of_app; apply elem_of_app; [left; by eapply tail_blocks_subset|right; by apply Hf]. }
  eapply (ledger_weaken _ _ _ _ (tail_blocks (mg_enable_caching m) (ncached m rid) bs' ++ fresh_others m rid ++ F)) in Hl.
  2:{ intros b [Hb|Hb]%elem_of_app; apply elem_of_app; [left; by eapply tail_blocks_shrink|by right]. }
  rewrite <-(ledger_nulls _ _ _ _ (length rm)), (assoc_L (++)), <-Hperm in Hl.
  rewrite (hashed_split (pool_heap p) rm), <-!(assoc_L (++)) in Hl.
  destruct (ledger_free_parts _ _ _ _ _ _ false true Hl) as (p1 & p2 & E1 & E2 & Hl2 & Hc & Hh);
    [rewrite <-hashed_split; rewrite nonnull_app in Hnd; by apply NoDup_app in Hnd as [? _]|done|].
  rewrite (bind_ok _ _ _ _ _ (onpool_ok _ _ _ _ _ E1)).
  eexists m1, p2, _. split; [by apply onpool_ok|]. split; [|split; [done|split; [done|split]]].
  - eapply mgr_close; [done|done|done|..]; unfold req_tail; rewrite ?Hb1.
    + rewrite nonnull_app in Hnd. by apply NoDup_app in Hnd as (_ & _ & ?).
    + unfold ncached. rewrite Hn1. pose proof (mi_cached _ _ _ _ _ Hm rid) as Hx. unfold zlen in *.
      rewrite Hlen. done.
    + unfold ncached. rewrite Hn1, (only_caching _ _ _ Ho). exact Hl2.
  - split; [done|done|by rewrite Hb1| |by rewrite Hb1].
    intros i Hi. rewrite Hb1. apply Hkeep. unfold skipped_blocks in Hi. unfold k. lia.
  - intros b Hb. rewrite !elem_of_app. auto.
Qed.

(** Mamba keeps the blocks of speculative tokens. *)
Definition settled_tokens (m : Manager) (n : Z) : Z :=
  match mg_class m with MambaManager => Z.max 0 (n - spec_blocks m) | _ => n end.

Lemma remove_skipped_spec p free R F m rid n :
  mgr_inv p free R F m →
  ∃ m' p' free', remove_skipped_blocks rid n (m, p) = Ok (tt, (m', p'))
    ∧ mgr_inv p' free' R F m' ∧ same_config p p' ∧ same_hashes p p'
    ∧ skipped rid m m' (settled_tokens m n) ∧ (∀ b, b ∈ free → b ∈ free').
Proof.
  intros Hm. unfold remove_skipped_blocks, settled_tokens. mstep. simpl.
  pose proof (ms_plain _ _ (mi_static _ _ _ _ _ Hm)) as Hpl.
  destruct (mg_class m); try by apply base_remove_skipped_spec.
  unfold mamba_remove_skipped_blocks. mstep. simpl.
  destruct (base_remove_skipped_spec _ _ _ _ _ rid (Z.max 0 (n - spec_blocks m)) Hm) as (m' & p' & free' & E & Hrest).
  rewrite (bind_ok _ _ _ _ _ E). destruct (Hpl eq_refl) as [-> _]. by exists m', p', free'.
Qed.

(** *** Allocating *)

(** The manager after recording the ids of new blocks. *)
Lemma record_ids_run rid bs m p :
  ∃ m', record_new_block_ids bs (m, p) = Ok (tt, (m', p)) ∧ only rid m m'
    ∧ req_to_blocks m' = req_to_blocks m ∧ num_cached_block m' = num_cached_block m.
Proof.
  unfold record_new_block_ids, self, pool, modify_self. munfold.
  destruct (records_new_block_ids (mg_spec m)); (eexists; split; [done|]); by split.
Qed.

Lemma zlen_take_free {A} (l : list A) n : 0 ≤ n ≤ zlen l → zlen (take (Z.to_nat n) l) = n.
Proof. unfold zlen. rewrite length_take. lia. Qed.

Lemma tail_blocks_app caching nc bs new b :
  0 ≤ nc ≤ zlen bs → b ∈ tail_blocks caching nc (bs ++ new) →
  b ∈ (if caching then new else []) ++ tail_blocks caching nc bs.
Proof.
  intros Hnc. unfold tail_blocks. destruct caching; [|done].
  rewrite drop_app_le by (unfold zlen in *; lia). rewrite nonnull_app, !elem_of_app.
  intros [?|[_ ?]%elem_of_nonnull]; [by right|by left].
Qed.

(** Appending new blocks to a request's list. *)
Lemma mgr_append p free R F m m' rid n p' :
  mgr_inv p free R F m → only rid m m' → 0 ≤ n ≤ zlen free →
  blocks m' rid = blocks m rid ++ take (Z.to_nat n) free → num_cached_block m' = num_cached_block m →
  get_new_blocks n p = Ok (take (Z.to_nat n) free, p') →
  mgr_inv p' (drop (Z.to_nat n) free) R F m' ∧ same_config p p'
  ∧ (∀ i, Block i ∉ free → hashc p' i = hashc p i).
Proof.
  intros Hm Ho Hn Hb Hnc E. destruct (mgr_open _ _ _ _ _ rid Hm) as [Hl Hf].
  destruct (ledger_new _ _ _ _ n Hl Hn) as (p1 & E1 & Hl1 & Hc & Hnd & Hh). rewrite E in E1. simplify_eq.
  set (new := take (Z.to_nat n) free) in *.
  assert (Hsub : ∀ b, b ∈ new → b ∈ free) by (intros b; apply elem_of_subseteq; apply subseteq_take).
  split; [|split; [done|]].
  2:{ intros i Hi. apply Hh. intros ?%Hsub. done. }
  pose proof (mi_cached _ _ _ _ _ Hm rid) as Hcc.
  eapply mgr_close; [done|done|done|..]; unfold req_tail, ncached in *; rewrite ?Hb, ?Hnc.
  - rewrite nonnull_app. apply NoDup_app. split; [apply (mi_nodup _ _ _ _ _ Hm)|]. split.
    + intros b [_ Hb1]%elem_of_nonnull [_ Hb2]%elem_of_nonnull. eapply ledger_free_disjoint; [exact Hl|by apply Hsub|].
      apply elem_of_app. by left.
    + by apply NoDup_filter.
  - rewrite zlen_app. pose proof (zlen_nonneg new). lia.
  - rewrite (only_caching _ _ _ Ho). set (fr := tail_blocks _ _ _ ++ _).
    rewrite (Permutation_app_comm (blocks m rid)), <-(assoc_L (++)). unfold fr.
    eapply ledger_weaken; [|exact Hl1]. intros b.
    rewrite <-(ms_caching _ _ (mi_static _ _ _ _ _ Hm)).
    intros [Hx|Hx]%elem_of_app; [|by do 2 (apply elem_of_app; right)].
    apply tail_blocks_app in Hx; [|done]. rewrite (assoc_L (++)). apply elem_of_app. by left.
Qed.

(** How many blocks a request lacks to hold [tokens] tokens. *)
Definition lacking (m : Manager) (rid : string) (tokens : Z) : Z :=
  Z.max 0 (cdiv tokens (mg_block_size m) - zlen (blocks m rid)).

Lemma base_allocate_spec p free R F m rid tokens :
  mgr_inv p free R F m → lacking m rid tokens ≤ zlen free →
  ∃ m' p', base_allocate_new_blocks rid tokens (m, p) = Ok (take (Z.to_nat (lacking m rid tokens)) free, (m', p'))
    ∧ mgr_inv p' (drop (Z.to_nat (lacking m rid tokens)) free) R F m' ∧ same_config p p'
    ∧ only rid m m' ∧ num_cached_block m' = num_cached_block m
    ∧ blocks m' rid = blocks m rid ++ take (Z.to_nat (lacking m rid tokens)) free
    ∧ (∀ i, Block i ∉ free → hashc p' i = hashc p i).
Proof.
  intros Hm Hn. unfold base_allocate_new_blocks. mstep. mstep by apply req_blocks_run. simpl.
  unfold lacking in *. set (k := _ - _) in *. destruct (Z.leb_spec k 0) as [Hk|Hk].
  - rewrite Z.max_l by lia. simpl. rewrite drop_0, app_nil_r. exists (with_entry rid m), p.
    split_and!; [done|by apply mgr_with_entry|done|apply with_entry_only|apply with_entry_cached
      |apply with_entry_blocks|done].
  - rewrite Z.max_r in * by lia. pose proof (lg_pool _ _ _ _ (mi_ledger _ _ _ _ _ Hm)) as Hp.
    destruct (get_new_blocks_spec p free k Hp) as (p' & E & _); [lia|].
    rewrite (bind_ok _ _ _ _ _ (onpool_ok _ _ _ _ _ E)). mstep by apply set_req_blocks_run.
    set (m1 := with_blocks _ _ _). destruct (record_ids_run rid (take (Z.to_nat k) free) m1 p') as (m2 & E2 & Ho2 & Hb2 & Hc2).
    rewrite (bind_ok _ _ _ _ _ E2). exists m2, p'.
    assert (Ho : only rid m m2).
    { etrans; [apply with_entry_only|]. etrans; [apply with_blocks_only|exact Ho2]. }
    assert (Hb : blocks m2 rid = blocks m rid ++ take (Z.to_nat k) free).
    { unfold blocks at 1. rewrite Hb2. apply with_blocks_blocks. }
    assert (Hc : num_cached_block m2 = num_cached_block m) by (rewrite Hc2; apply with_entry_cached).
    destruct (mgr_append _ _ _ _ _ _ _ k p' Hm Ho) as (Hm' & Hcf & Hh); [lia|done|done|done|]. done.
Qed.

(** The tokens the blocks of a request have to hold: non-aligned Mamba keeps blocks
    for speculative tokens. *)
Definition slot_tokens (m : Manager) (tokens : Z) : Z :=
  match mg_class m with
  | MambaManager => if 0 <? spec_blocks m then tokens + mg_block_size m * spec_blocks m else tokens
  | _ => tokens
  end.

Lemma allocate_spec p free R F m rid tokens main :
  mgr_inv p free R F m → lacking m rid (slot_tokens m tokens) ≤ zlen free →
  let new := take (Z.to_nat (lacking m rid (slot_tokens m tokens))) free in
  ∃ m' p', allocate_new_blocks rid tokens main (m, p) = Ok (new, (m', p'))
    ∧ mgr_inv p' (drop (Z.to_nat (lacking m rid (slot_tokens m tokens))) free) R F m' ∧ same_config p p'
    ∧ only rid m m' ∧ num_cached_block m' = num_cached_block m
    ∧ blocks m' rid = blocks m rid ++ new
    ∧ (∀ i, Block i ∉ free → hashc p' i = hashc p i).
Proof.
  intros Hm Hn new. unfold new, allocate_new_blocks, slot_tokens in *. mstep. simpl.
  pose proof (ms_plain _ _ (mi_static _ _ _ _ _ Hm)) as Hpl.
  destruct (mg_class m); try by apply base_allocate_spec.
  destruct (Hpl eq_refl) as [-> _]. by apply base_allocate_spec.
Qed.

(** *** Blocks of a cache hit *)

(** The part of a hit that is kept: what attention has left behind is replaced by
    null blocks. *)
Definition kept_row (m : Manager) (row : list loc) (total : Z) : list loc :=
  if 0 <? skipped_blocks m total then py_from row (skipped_blocks m total) else row.
Definition hit_blocks (m : Manager) (row : list loc) (total : Z) : list loc :=
  replicate (Z.to_nat (skipped_blocks m total)) (Block 0) ++ kept_row m row total.
(** Blocks to allocate for tokens another engine has computed. *)
Definition external_blocks (m : Manager) (row : list loc) (total ext : Z) : Z :=
  let ext := if 0 <? skipped_blocks m total then Z.min (total - get_num_skipped_tokens m total) ext else ext in
  if 0 <? ext then cdiv total (mg_block_size m) - zlen (hit_blocks m row total) else 0.

(** A row of a cache hit, as [find_longest_cache_hit] returns it. *)
Record row_ok (p : BlockPool) (row : list loc) : Prop := {
  ro_in : in_pool p row;
  ro_nodup : NoDup (nonnull row);
  ro_hashed : ∀ i, (0 < i)%nat → Block i ∈ row → hashc p i ≠ None;
  ro_caching : enable_caching p = false → row = []
}.

Lemma evictable_count p free row :
  pool_inv p free [] → row_ok p row →
  zlen (filter (λ b, b ∉ row) free) = zlen free - _get_num_evictable_blocks (pool_heap p) row.
Proof.
  intros Hp [Hin Hnd _ _]. unfold _get_num_evictable_blocks.
  set (ev := filter (λ b, ref_cnt (pool_heap p b) = 0 ∧ is_null (pool_heap p b) = false) row).
  pose proof (pi_nodup _ _ _ Hp) as Hnf. rewrite app_nil_r in Hnf.
  assert (Hev : ∀ b, b ∈ ev ↔ b ∈ free ∧ b ∈ row).
  { intros b. unfold ev. rewrite list_elem_of_filter. pose proof (pi_free _ _ _ Hp b) as Hf.
    rewrite app_nil_r in Hf. rewrite Hf. split.
    - intros [[Hr Hnull] Hb]. split; [|done]. destruct (elem_of_in_pool _ _ _ Hin Hb) as (i & -> & Hi).
      exists i. split; [done|]. rewrite (pi_is_null _ _ _ Hp) in Hnull by done.
      apply bool_decide_eq_false in Hnull. split; [lia|done].
    - intros [(i & -> & Hi & Hr) Hb]. split; [|done]. split; [done|].
      rewrite (pi_is_null _ _ _ Hp) by lia. apply bool_decide_eq_false. lia. }
  assert (free ≡ₚ ev ++ filter (λ b, b ∉ row) free) as Hperm.
  { apply NoDup_Permutation; [done| |].
    - apply NoDup_app. split; [|split].
      + assert (ev = filter (λ b, ref_cnt (pool_heap p b) = 0 ∧ is_null (pool_heap p b) = false) (nonnull row)) as ->;
          [|by apply NoDup_filter].
        unfold ev, nonnull. rewrite list_filter_filter. apply list_filter_iff'. intros b Hb.
        split; [|tauto]. intros [? Hnull]. split; [done|]. intros ->.
        rewrite (pi_is_null _ _ _ Hp) in Hnull by (pose proof (pi_pos _ _ _ Hp); unfold nblocks; lia). done.
      + intros b [_ Hb]%Hev [Hn _]%list_elem_of_filter. done.
      + by apply NoDup_filter.
    - intros b. rewrite elem_of_app, Hev, list_elem_of_filter. destruct (decide (b ∈ row)); tauto. }
  unfold zlen. rewrite Hperm at 2. rewrite length_app. lia.
Qed.

Lemma skipped_tokens_le p m n : mgr_static p m → 0 ≤ n → get_num_skipped_tokens m n ≤ n.
Proof.
  intros Hs Hn. unfold get_num_skipped_tokens, skipped_tokens. destruct (mg_class m) eqn:Ec; try lia.
  - destruct (ms_window _ _ Hs Ec) as (w & -> & Hw & _). simpl. lia.
  - destruct (ms_chunk _ _ Hs Ec) as (c & -> & Hc). simpl.
    pose proof (Z.mul_div_le n c Hc). lia.
Qed.

Lemma skipped_blocks_le p m n : mgr_static p m → 0 ≤ n → skipped_blocks m n ≤ n / mg_block_size m.
Proof.
  intros Hs Hn. unfold skipped_blocks. apply Z.div_le_mono; [apply (ms_size _ _ Hs)|by eapply skipped_tokens_le].
Qed.

Lemma hit_blocks_length m row total :
  zlen (hit_blocks m row total) = Z.max (skipped_blocks m total) (zlen row).
Proof.
  unfold hit_blocks, kept_row. rewrite zlen_app. unfold zlen at 1. rewrite length_replicate.
  pose proof (zlen_nonneg row). destruct (Z.ltb_spec 0 (skipped_blocks m total)); [|lia].
  unfold py_from, zlen, clamp_index in *. rewrite length_drop.
  rewrite (proj2 (Z.ltb_ge _ 0)) by lia. lia.
Qed.

Lemma external_blocks_nonneg p m row total ext :
  mgr_static p m → 0 ≤ total → zlen row ≤ total / mg_block_size m → 0 ≤ external_blocks m row total ext.
Proof.
  intros Hs Ht Hr. unfold external_blocks. destruct (0 <? (if _ : bool then _ else _)); [|lia].
  rewrite hit_blocks_length. pose proof (skipped_blocks_le _ _ _ Hs Ht).
  pose proof (div_le_cdiv total (mg_block_size m) (ms_size _ _ Hs)). lia.
Qed.

(** The manager holding the blocks of a hit. *)
Definition with_hit (rid : string) (bs : list loc) (m : Manager) : Manager :=
  mg_set_num_cached_block (<[rid := zlen bs]> (num_cached_block m)) (with_blocks rid bs m).

Lemma with_hit_only rid bs m : only rid m (with_hit rid bs m).
Proof.
  split; [done| |].
  - simpl. by rewrite delete_insert_eq.
  - intros r Hr. simpl. by rewrite lookup_insert_ne by congruence.
Qed.
Lemma with_hit_blocks rid bs m : blocks (with_hit rid bs m) rid = bs ∧ ncached (with_hit rid bs m) rid = zlen bs.
Proof. unfold blocks, ncached. simpl. by rewrite !lookup_insert_eq. Qed.

(** Taking the references of a hit. *)
Lemma mgr_hit p free R F m rid row total :
  mgr_inv p free R F m → blocks m rid = [] → row_ok p (kept_row m row total) →
  ∃ p', touch (kept_row m row total) p = Ok (tt, p')
    ∧ mgr_inv p' (filter (λ b, b ∉ kept_row m row total) free) R F
        (with_hit rid (hit_blocks m row total) (with_entry rid m))
    ∧ same_config p p' ∧ same_hashes p p'.
Proof.
  intros Hm Hb Hr. destruct (mgr_open _ _ _ _ _ rid Hm) as [Hl Hf].
  rewrite Hb in Hl. set (kept := kept_row m row total) in *.
  destruct (ledger_touch _ _ _ _ kept Hl (ro_in _ _ Hr)) as (p' & E & Hl' & Hc & Hh).
  { intros b Hbk (i & -> & Hi & _ & Hhi)%(lg_fresh _ _ _ _ Hl). by destruct (ro_hashed _ _ Hr i (proj1 Hi) Hbk). }
  exists p'. split; [done|]. split; [|done].
  set (bs := hit_blocks m row total). destruct (with_hit_blocks rid bs (with_entry rid m)) as [Hb1 Hn1].
  eapply mgr_close; [done|done| |..]; unfold req_tail; rewrite ?Hb1, ?Hn1.
  - etrans; [apply with_entry_only|apply with_hit_only].
  - unfold bs, hit_blocks. rewrite nonnull_app, nonnull_replicate. apply (ro_nodup _ _ Hr).
  - pose proof (zlen_nonneg bs). lia.
  - unfold bs at 1, hit_blocks. rewrite <-(assoc_L (++)). apply ledger_nulls. fold kept.
    eapply ledger_weaken; [|exact Hl']. intros b [Hx|Hx]%elem_of_app; [|apply elem_of_app; by right].
    exfalso. revert Hx. unfold tail_blocks. rewrite drop_ge by (unfold zlen; lia).
    case_match; apply not_elem_of_nil.
Qed.

Lemma py_assert_nil {S} (s : S) (l : list loc) : l = [] → py_assert (bool_decide (l = [])) s = Ok (tt, s).
Proof. intros ->. by rewrite bool_decide_eq_true_2. Qed.

(** [allocate_new_computed_blocks] of a new request, up to the allocation for
    external tokens. *)
Lemma computed_run p m rid row local ext p1 :
  let total := local + ext in
  let bs := hit_blocks m row total in
  mgr_static p m → row_ok p (kept_row m row total) → mg_class m ≠ CrossAttentionManager →
  num_cached_block m !! rid = None → blocks m rid = [] →
  touch (kept_row m row total) p = Ok (tt, p1) →
  allocate_new_computed_blocks rid row local ext (m, p) =
    (if 0 <? (if 0 <? skipped_blocks m total then Z.min (total - get_num_skipped_tokens m total) ext else ext) then
       allocated_blocks ← onpool (get_new_blocks (cdiv total (mg_block_size m) - zlen bs));
       _ ← set_req_blocks rid (bs ++ allocated_blocks); record_new_block_ids allocated_blocks
     else mret tt) (with_hit rid bs (with_entry rid m), p1).
Proof.
  intros total bs Hs Hr Hcl Hnc Hb E1. unfold allocate_new_computed_blocks. mstep. simpl.
  transitivity (base_allocate_new_computed_blocks rid row local ext (m, p)); [by destruct (mg_class m)|].
  unfold base_allocate_new_computed_blocks. mstep. simpl.
  rewrite bool_decide_eq_false_2 by (rewrite Hnc; by intros [? ?]).
  mstep by apply req_blocks_run. rewrite Hb. mstep. fold total.
  change (get_num_skipped_tokens m total / mg_block_size m) with (skipped_blocks m total).
  change (if 0 <? skipped_blocks m total then py_from row (skipped_blocks m total) else row)
    with (kept_row m row total).
  rewrite (bind_ok _ _ _ tt (with_entry rid m, p1)).
  2:{ rewrite (ms_caching _ _ Hs). destruct (enable_caching p) eqn:He; [by apply onpool_ok|].
      rewrite (ro_caching _ _ Hr He) in E1 |- *. rewrite py_assert_nil by done. unfold touch in E1.
      simpl in E1. by injection E1 as ->. }
  rewrite (ms_null _ _ Hs). change (replicate _ (Block 0) ++ kept_row m row total) with bs.
  mstep by apply set_req_blocks_run. by mstep.
Qed.

Lemma computed_new_spec p free R F m rid row local ext :
  let total := local + ext in
  let kept := kept_row m row total in
  let k := external_blocks m row total ext in
  mgr_inv p free R F m → row_ok p kept → mg_class m ≠ CrossAttentionManager →
  num_cached_block m !! rid = None → blocks m rid = [] → 0 ≤ total → zlen row ≤ total / mg_block_size m →
  _get_num_evictable_blocks (pool_heap p) kept + k ≤ zlen free →
  ∃ m' p' free' new, allocate_new_computed_blocks rid row local ext (m, p) = Ok (tt, (m', p'))
    ∧ mgr_inv p' free' R F m' ∧ same_config p p' ∧ only rid m m'
    ∧ blocks m' rid = hit_blocks m row total ++ new
    ∧ num_cached_block m' !! rid = Some (zlen (hit_blocks m row total)) ∧ zlen new = k
    ∧ zlen free' = zlen free - _get_num_evictable_blocks (pool_heap p) kept - k
    ∧ (∀ b, b ∈ free' → b ∈ free)
    ∧ (k = 0 → same_hashes p p') ∧ (∀ i, Block i ∉ free → hashc p' i = hashc p i).
Proof.
  intros total kept k Hm Hr Hcl Hnc Hb Ht Hrow Hfree.
  pose proof (mi_static _ _ _ _ _ Hm) as Hs.
  destruct (mgr_hit _ _ _ _ _ rid row total Hm Hb Hr) as (p1 & E1 & Hm1 & Hc1 & Hh1). fold kept in E1, Hm1.
  set (bs := hit_blocks m row total) in *. set (m1 := with_hit rid bs (with_entry rid m)) in *.
  set (free1 := filter (λ b, b ∉ kept) free) in *.
  assert (Hsub1 : ∀ b, b ∈ free1 → b ∈ free) by (by intros b [_ ?]%list_elem_of_filter).
  assert (Hlen1 : zlen free1 = zlen free - _get_num_evictable_blocks (pool_heap p) kept).
  { apply evictable_count; [apply (lg_pool _ _ _ _ (mi_ledger _ _ _ _ _ Hm))|done]. }
  assert (0 ≤ k) as Hk by (by eapply external_blocks_nonneg).
  assert (Ho1 : only rid m m1) by (etrans; [apply with_entry_only|apply with_hit_only]).
  rewrite (computed_run p m rid row local ext p1 Hs Hr Hcl Hnc Hb E1). fold total bs m1. unfold external_blocks in k.
  destruct (0 <? (if 0 <? skipped_blocks m total then _ else ext)).
  2:{ exists m1, p1, free1, []. subst k. destruct (with_hit_blocks rid bs (with_entry rid m)) as [Hb1 _].
      rewrite app_nil_r, Z.sub_0_r. split_and!; try done.
      simpl. by rewrite lookup_insert_eq. }
  change (cdiv total (mg_block_size m) - zlen bs) with k.
  destruct (get_new_blocks_spec p1 free1 k (lg_pool _ _ _ _ (mi_ledger _ _ _ _ _ Hm1))) as (p2 & E2 & _); [lia|].
  rewrite (bind_ok _ _ _ _ _ (onpool_ok _ _ _ _ _ E2)). set (new := take (Z.to_nat k) free1) in *.
  mstep by apply set_req_blocks_run.
  set (m2 := with_blocks rid (bs ++ new) m1). destruct (record_ids_run rid new m2 p2) as (m3 & E3 & Ho3 & Hb3 & Hn3).
  assert (Ho2 : only rid m1 m3) by (etrans; [apply with_blocks_only|exact Ho3]).
  assert (Hbl : blocks m3 rid = bs ++ new).
  { unfold blocks. rewrite Hb3. apply (with_blocks_blocks rid (bs ++ new) m1). }
  destruct (with_hit_blocks rid bs (with_entry rid m)) as [Hb1 _]. fold m1 in Hb1.
  destruct (mgr_append _ _ _ _ _ m3 rid k p2 Hm1 Ho2) as (Hm3 & Hc2 & Hh2); [lia|by rewrite Hbl, Hb1|by rewrite Hn3|done|].
  exists m3, p2, (drop (Z.to_nat k) free1), new. rewrite E3.
  split; [done|]. split; [done|]. split; [by etrans|]. split; [by etrans|]. split; [done|]. split.
  { rewrite Hn3. simpl. by rewrite lookup_insert_eq. }
  split; [apply zlen_take_free; lia|]. split.
  { unfold zlen in *. rewrite length_drop. lia. }
  split; [intros b Hb'; apply Hsub1; eapply subseteq_drop; exact Hb'|]. split.
  - intros Hk0 i. destruct (decide (Block i ∈ new)) as [Hin|Hnin].
    + unfold new in Hin. rewrite Hk0 in Hin. simpl in Hin. by apply not_elem_of_nil in Hin.
    + destruct (get_new_blocks_spec p1 free1 k (lg_pool _ _ _ _ (mi_ledger _ _ _ _ _ Hm1))) as (p2' & E2' & _ & _ & Hx); [lia|].
      rewrite E2 in E2'. simplify_eq. destruct (Hx i) as [_ ->]. fold new.
      rewrite bool_decide_eq_false_2 by done. apply Hh1.
  - intros i Hi. rewrite Hh2, Hh1; [done|]. intros ?%Hsub1. done.
Qed.

(** *** Counting before allocating *)

Lemma py_from_0 {A} (l : list A) : py_from l 0 = l.
Proof. unfold py_from. by rewrite clamp_index_pos by lia. Qed.

Lemma kept_row_from m row total : kept_row m row total = py_from row (Z.max 0 (skipped_blocks m total)).
Proof.
  unfold kept_row. destruct (Z.ltb_spec 0 (skipped_blocks m total)); [by rewrite Z.max_r by lia|].
  by rewrite Z.max_l, py_from_0 by lia.
Qed.

Lemma evictable_nonneg h row : 0 ≤ _get_num_evictable_blocks h row.
Proof. apply zlen_nonneg. Qed.

(** The tokens of request [rid] for which the manager has to hold blocks:
    cross-attention counts encoder tokens. *)
Definition wanted_tokens (m : Manager) (tokens enc : Z) : Z :=
  match mg_class m with CrossAttentionManager => enc | _ => slot_tokens m tokens end.

(** The call made by the coordinator. *)
Definition count_call (rid : string) (m : Manager) (tokens enc : Z) (row : list loc) (total main : Z) (cap : bool)
    : G Z :=
  match mg_class m with
  | CrossAttentionManager => get_num_blocks_to_allocate rid enc [] 0 enc cap
  | _ => get_num_blocks_to_allocate rid tokens row total main cap
  end.

Definition count_row (m : Manager) (row : list loc) : list loc :=
  match mg_class m with CrossAttentionManager => [] | _ => row end.
Definition count_total (m : Manager) (total : Z) : Z :=
  match mg_class m with CrossAttentionManager => 0 | _ => total end.

(** Counting does not change anything; it gives the base class's number, or more
    than there are blocks (a Mamba state cached in this very step). *)
Lemma count_run p free R F m rid tokens enc row total main cap :
  mgr_inv p free R F m → (is_Some (num_cached_block m !! rid) → row = []) →
  ∃ n, count_call rid m tokens enc row total main cap (m, p) = Ok (n, (m, p))
    ∧ (mg_class m = MambaManager ∧ n = num_gpu_blocks p + 1
       ∨ base_get_num_blocks_to_allocate m (pool_heap p) rid (wanted_tokens m tokens enc)
             (count_row m row) (count_total m total) cap = Ok n).
Proof.
  intros Hm Hrow. pose proof (ms_plain _ _ (mi_static _ _ _ _ _ Hm)) as Hpl.
  assert (Hok : ∀ T r tot, (is_Some (num_cached_block m !! rid) → r = []) →
    ∃ n, base_get_num_blocks_to_allocate m (pool_heap p) rid T r tot cap = Ok n).
  { intros T r tot Hr. unfold base_get_num_blocks_to_allocate.
    case_bool_decide as Hc; [rewrite bool_decide_eq_true_2 by auto|]; by eexists. }
  unfold count_call, wanted_tokens, count_row, count_total, slot_tokens, get_num_blocks_to_allocate.
  destruct (mg_class m) eqn:Ec;
    try (mstep; mstep; simpl; rewrite Ec; unfold lift_result;
         match goal with |- context [base_get_num_blocks_to_allocate m _ rid ?T ?r ?t cap] =>
           destruct (Hok T r t) as [n En]; [by auto|] end;
         exists n; rewrite En; split; [reflexivity|by right]).
  destruct (Hpl eq_refl) as (Hal & Hsp & Hls). mstep. mstep. simpl. rewrite Ec.
  match goal with |- context [if ?b then mret _ else _] => destruct b end.
  { eexists. split; [done|by left]. }
  rewrite Hal, Hls. simpl. edestruct Hok as [n En]; [exact Hrow|]. exists n. unfold lift_result. rewrite En.
  split; [done|by right].
Qed.

(** A request that holds blocks for all its computed tokens. *)
Definition covers (m : Manager) (rid : string) (total : Z) : Prop :=
  mg_class m = CrossAttentionManager ∨ total ≤ mg_block_size m * zlen (blocks m rid).

Lemma count_running p m h rid tokens enc total n :
  mgr_static p m → covers m rid total → 0 ≤ total →
  base_get_num_blocks_to_allocate m h rid (wanted_tokens m tokens enc)
    (count_row m []) (count_total m total) false = Ok n →
  n = lacking m rid (wanted_tokens m tokens enc).
Proof.
  intros Hs Hcov Ht. pose proof (ms_size _ _ Hs) as Hbs.
  assert (count_row m [] = []) as -> by (unfold count_row; by case_match).
  assert (Hsk : skipped_blocks m (count_total m total) ≤ zlen (blocks m rid)).
  { etrans; [eapply skipped_blocks_le; [done|]; unfold count_total; case_match; lia|].
    unfold count_total. pose proof (zlen_nonneg (blocks m rid)). destruct Hcov as [->|Hcov]; [by rewrite Z.div_0_l by lia|].
    assert (total / mg_block_size m ≤ zlen (blocks m rid)) by (apply Z.div_le_upper_bound; lia).
    case_match; rewrite ?Z.div_0_l by lia; lia. }
  unfold base_get_num_blocks_to_allocate, lacking, num_req_blocks. fold (blocks m rid).
  replace (match mg_max_admission_blocks_per_request m with Some cap => _ | None => _ end)
    with (cdiv (wanted_tokens m tokens enc) (mg_block_size m)) by (by case_match).
  case_bool_decide; simpl; [intros [= <-]; lia|]. intros [= <-].
  fold (skipped_blocks m (count_total m total)).
  unfold py_from. rewrite drop_nil. unfold _get_num_evictable_blocks. simpl.
  unfold zlen in *. simpl in *. lia.
Qed.

Lemma count_new m h rid tokens enc row total n :
  mg_class m ≠ CrossAttentionManager → num_cached_block m !! rid = None → blocks m rid = [] →
  base_get_num_blocks_to_allocate m h rid (wanted_tokens m tokens enc)
    (count_row m row) (count_total m total) false = Ok n →
  n = _get_num_evictable_blocks h (kept_row m row total)
      + Z.max 0 (cdiv (wanted_tokens m tokens enc) (mg_block_size m) - zlen (hit_blocks m row total)).
Proof.
  intros Hcl Hc Hb.
  assert (count_row m row = row ∧ count_total m total = total) as [-> ->]
    by (unfold count_row, count_total; by destruct (mg_class m)).
  unfold base_get_num_blocks_to_allocate, num_req_blocks. fold (blocks m rid). rewrite Hb.
  rewrite bool_decide_eq_false_2 by (rewrite Hc; by intros [? ?]).
  replace (match mg_max_admission_blocks_per_request m with Some cap => _ | None => _ end)
    with (cdiv (wanted_tokens m tokens enc) (mg_block_size m)) by (by case_match).
  intros [= <-]. fold (skipped_blocks m total). rewrite kept_row_from, hit_blocks_length.
  change (zlen (@nil loc)) with 0. rewrite Z.sub_0_r, Z.add_0_r. lia.
Qed.

(** Allocating for external tokens takes no more than was counted. *)
Lemma external_blocks_within p m row total ext wanted :
  mgr_static p m → total ≤ wanted →
  external_blocks m row total ext
    ≤ Z.max 0 (cdiv wanted (mg_block_size m) - zlen (hit_blocks m row total)).
Proof.
  intros Hs Hw. unfold external_blocks. destruct (0 <? (if _ : bool then _ else _)); [|lia].
  pose proof (cdiv_mono total wanted (mg_block_size m) (ms_size _ _ Hs) Hw). lia.
Qed.

Lemma external_blocks_none m row total ext : ext ≤ 0 → external_blocks m row total ext = 0.
Proof.
  intros He. unfold external_blocks.
  rewrite (proj2 (Z.ltb_ge _ _)); [done|]. case_match; lia.
Qed.

Lemma slot_tokens_ge p m tokens : mgr_static p m → tokens ≤ slot_tokens m tokens.
Proof.
  intros Hs. unfold slot_tokens. destruct (mg_class m) eqn:Ec; try lia.
  destruct (ms_plain _ _ Hs Ec) as (_ & Hsp & _). pose proof (ms_size _ _ Hs). case_match; nia.
Qed.

(** Fewer free blocks, fewer evictable ones. *)
Lemma evictable_mono p p' free free' row :
  pool_inv p free [] → pool_inv p' free' [] → same_config p p' → (∀ b, b ∈ free' → b ∈ free) → in_pool p row →
  _get_num_evictable_blocks (pool_heap p') row ≤ _get_num_evictable_blocks (pool_heap p) row.
Proof.
  intros Hp Hp' Hc Hsub Hin. unfold _get_num_evictable_blocks, zlen. pose proof (same_config_nblocks _ _ Hc) as Hn.
  apply inj_le, sublist_length. induction Hin as [|b row (i & -> & Hi) Hin IH]; [done|].
  rewrite !filter_cons. destruct (decide (ref_cnt (pool_heap p' (Block i)) = 0 ∧ _)) as [[Hr Hnull]|].
  - rewrite decide_True; [by constructor|].
    rewrite (pi_is_null _ _ _ Hp') in Hnull by lia. rewrite (pi_is_null _ _ _ Hp) by done. split; [|done].
    apply bool_decide_eq_false in Hnull.
    pose proof (pi_free _ _ _ Hp' (Block i)) as Hf'. rewrite app_nil_r in Hf'.
    pose proof (pi_free _ _ _ Hp (Block i)) as Hf. rewrite app_nil_r in Hf.
    assert (Block i ∈ free') as (j & [= <-] & _ & ?)%Hsub%Hf; [|done].
    apply Hf'. exists i. split; [done|]. split; [lia|done].
  - case_decide; [by constructor|done].
Qed.

(** *** Caching *)

Lemma assigned_nonnull p free gid mask hs i bs b :
  pool_inv p free [] → in_pool p bs → b ∈ (assigned (pool_heap p) gid mask hs i bs).*1 → b ∈ nonnull bs.
Proof.
  intros Hp Hin. revert i. induction Hin as [|x bs (j & -> & Hj) Hin IH]; intros i; simpl; [done|].
  assert (Htail : b ∈ nonnull bs → b ∈ nonnull (Block j :: bs)).
  { unfold nonnull. rewrite filter_cons. case_decide; [by right|done]. }
  destruct (skip_block (pool_heap p) mask i (Block j)) eqn:Es; [intros ?%IH; by apply Htail|].
  unfold skip_block in Es. rewrite (pi_is_null _ _ _ Hp) in Es by done.
  apply orb_false_iff in Es as [Es%bool_decide_eq_false _].
  destruct (hs !! i); csimpl; [|intros ?%IH; by apply Htail].
  intros [->|?%IH]%elem_of_cons; [|by apply Htail].
  unfold nonnull. rewrite filter_cons, decide_True by congruence. left.
Qed.

Lemma assigned_nodup p free gid mask hs i bs :
  pool_inv p free [] → in_pool p bs → NoDup (nonnull bs) →
  NoDup (assigned (pool_heap p) gid mask hs i bs).*1.
Proof.
  intros Hp Hin. revert i. induction Hin as [|x bs Hx Hin IH]; intros i Hnd; simpl; [constructor|].
  assert (NoDup (nonnull bs)) as Hnd'.
  { unfold nonnull in Hnd. rewrite filter_cons in Hnd. case_decide; [by apply NoDup_cons in Hnd as [_ ?]|done]. }
  destruct (skip_block (pool_heap p) mask i x) eqn:Es; [by apply IH|]. case_match; [|by apply IH]. csimpl.
  constructor; [|by apply IH]. intros Hb%(assigned_nonnull _ _ _ _ _ _ _ _ Hp Hin).
  destruct Hx as (j & -> & Hj). unfold skip_block in Es. rewrite (pi_is_null _ _ _ Hp) in Es by done.
  apply orb_false_iff in Es as [Es%bool_decide_eq_false _].
  unfold nonnull in Hnd. rewrite filter_cons, decide_True in Hnd by congruence. by apply NoDup_cons in Hnd as [? _].
Qed.

(** Without a mask every block other than the null block gets a key. *)
Lemma assigned_all p free gid hs i bs b :
  pool_inv p free [] → in_pool p bs → (i + length bs ≤ length hs)%nat → b ∈ nonnull bs →
  b ∈ (assigned (pool_heap p) gid None hs i bs).*1.
Proof.
  intros Hp Hin. revert i. induction Hin as [|x bs (j & -> & Hj) Hin IH]; intros i Hl; simpl in *; [done|].
  unfold nonnull. rewrite filter_cons. unfold skip_block. rewrite (pi_is_null _ _ _ Hp) by done.
  rewrite orb_false_r. destruct (lookup_lt_is_Some_2 hs i) as [h Hh]; [lia|]. rewrite Hh.
  destruct (decide (j = 0%nat)) as [->|Hj0].
  - rewrite decide_False, bool_decide_eq_true_2 by auto. intros Hb. apply IH; [lia|done].
  - rewrite decide_True, bool_decide_eq_false_2 by congruence. csimpl.
    intros [->|Hb]%elem_of_cons; [by left|right]. apply IH; [lia|done].
Qed.

Lemma mask_run p m a b ret np :
  mgr_static p m → a ≤ b →
  ∃ mask, reachable_block_mask m a b ret np = Ok mask
    ∧ (match mask with Some l => length l = Z.to_nat (b - a) | None => True end)
    ∧ (mg_class m ≠ SlidingWindowManager → mask = None).
Proof.
  intros Hs Hab. unfold reachable_block_mask. destruct (mg_class m) eqn:Ec; try (by exists None).
  destruct (ms_window _ _ Hs Ec) as (w & -> & _ & -> & Hal). simpl. unfold swa_reachable_block_mask.
  rewrite Hal. simpl. match goal with |- context [if ?x then Ok None else _] => destruct x end; [by exists None|].
  eexists. split; [done|]. split; [|done]. rewrite length_fmap. unfold zrange. by rewrite length_seqZ.
Qed.

Lemma assign_other todo j old : Block j ∉ todo.*1 → assign todo j old = old.
Proof.
  intros Hn. unfold assign. by rewrite (proj2 (dict_del_fresh todo (Block j) Hn)).
Qed.

Lemma slice_drop {A} (l : list A) a b :
  0 ≤ a → a ≤ b → b ≤ zlen l → drop (Z.to_nat a) l = py_slice l a b ++ drop (Z.to_nat b) l.
Proof.
  intros Ha Hab Hb. rewrite py_slice_pos by (unfold zlen in *; lia).
  rewrite <-(take_drop (Z.to_nat (b - a)) (drop (Z.to_nat a) l)) at 1. rewrite drop_drop. repeat f_equal. lia.
Qed.

Definition with_cached (rid : string) (nf : Z) (m : Manager) : Manager :=
  mg_set_num_cached_block (<[rid := nf]> (num_cached_block m)) m.

(** The slice of a request's blocks to be cached next. *)
Lemma new_slice p free R F m rid nf :
  let new := py_slice (blocks m rid) (ncached m rid) nf in
  mgr_inv p free R F m → ncached m rid < nf → nf ≤ zlen (blocks m rid) →
  drop (Z.to_nat (ncached m rid)) (blocks m rid) = new ++ drop (Z.to_nat nf) (blocks m rid)
  ∧ in_pool p new ∧ NoDup (nonnull (new ++ drop (Z.to_nat nf) (blocks m rid))).
Proof.
  intros new Hm Hlt Hhave. pose proof (mi_cached _ _ _ _ _ Hm rid) as Hnc.
  pose proof (mi_nodup _ _ _ _ _ Hm rid) as Hnd.
  destruct (mgr_open _ _ _ _ _ rid Hm) as [Hl _]. pose proof (lg_in _ _ _ _ Hl) as [Hin _]%in_pool_app.
  assert (Hsplit : drop (Z.to_nat (ncached m rid)) (blocks m rid) = new ++ drop (Z.to_nat nf) (blocks m rid))
    by (apply slice_drop; lia).
  split; [done|]. split.
  - assert (in_pool p (drop (Z.to_nat (ncached m rid)) (blocks m rid))) as Hd by (by apply Forall_drop).
    rewrite Hsplit in Hd. by apply in_pool_app in Hd as [? _].
  - rewrite <-Hsplit. rewrite <-(take_drop (Z.to_nat (ncached m rid)) (blocks m rid)), nonnull_app in Hnd.
    by apply NoDup_app in Hnd as (_ & _ & ?).
Qed.

(** Giving keys to blocks of that slice. *)
Lemma mgr_cached p free R F m m' rid nf p' todo :
  let new := py_slice (blocks m rid) (ncached m rid) nf in
  mgr_inv p free R F m → mg_enable_caching m = true → ncached m rid < nf → nf ≤ zlen (blocks m rid) →
  pool_inv p' free [] → same_config p p' → only rid m m' → blocks m' rid = blocks m rid → ncached m' rid = nf →
  (∀ b, b ∈ todo.*1 → b ∈ nonnull new) →
  (∀ i, refc p' i = refc p i ∧ hashc p' i = assign todo i (hashc p i)) →
  mgr_inv p' free R F m'.
Proof.
  intros new Hm He Hlt Hhave Hp' Hc Ho Hb1 Hn1 Htodo Hh.
  destruct (new_slice _ _ _ _ _ _ _ Hm Hlt Hhave) as (Hsplit & Hnin & Hnnd). fold new in Hsplit, Hnin, Hnnd.
  destruct (mgr_open _ _ _ _ _ rid Hm) as [Hl Hf]. pose proof (mi_cached _ _ _ _ _ Hm rid).
  eapply mgr_close; [done|done|done|..]; unfold req_tail; rewrite ?Hb1, ?Hn1;
    [apply (mi_nodup _ _ _ _ _ Hm)|lia|].
  rewrite (only_caching _ _ _ Ho), He. eapply ledger_rehash; [exact Hl|done|done|apply Hh| |].
  - intros b [Hb|Hb]%elem_of_app; apply elem_of_app; [left|by right].
    unfold req_tail, tail_blocks. rewrite He, Hsplit, nonnull_app. apply elem_of_app. by right.
  - intros i Hi. destruct (Hh i) as [_ ->]. apply assign_other. intros Hx%Htodo.
    apply elem_of_app in Hi as [Hi|Hi].
    + rewrite nonnull_app in Hnnd. apply NoDup_app in Hnnd as (_ & Hd & _). by eapply Hd.
    + assert (Block i ∈ blocks m rid) as Hbi%occ_pos.
      { eapply subseteq_drop. rewrite Hsplit. apply elem_of_app. left. by apply elem_of_nonnull in Hx as [_ ?]. }
      assert (occ (Block i) (blocks m rid ++ others m rid ++ R) = 1) as Hone.
      { eapply ledger_fresh_once; [exact Hl|]. apply elem_of_app. by right. }
      apply Hf, occ_pos in Hi. rewrite occ_app in Hone. lia.
Qed.

Section caching.
Context `{HashConfig}.

(** What a request brings to be cached up to [nf] blocks. *)
Record cacheable (p : BlockPool) (m : Manager) (r : Request) (tokens : Z) : Prop := {
  ca_tokens : 0 ≤ tokens;
  ca_class : mg_class m ≠ CrossAttentionManager;
  ca_caching : mg_enable_caching m = true;
  ca_have : tokens / mg_block_size m ≤ zlen (blocks m (request_id r));
  ca_hashed : tokens / mg_block_size m
    ≤ zlen (hashes_at (hash_block_size p) (mg_block_size m) (block_hashes r));
  ca_request : mm_sorted (mm_features r) ∧ memo_ok r
}.

(** The request's blocks past the cached ones, opened for one call. *)
Lemma cache_pre_ok p free R F m r nf mask :
  let rid := request_id r in
  let bs := mg_block_size m in
  let new := py_slice (blocks m rid) (ncached m rid) nf in
  mgr_inv p free R F m → mg_enable_caching m = true → ncached m rid < nf → nf ≤ zlen (blocks m rid) →
  nf ≤ zlen (hashes_at (hash_block_size p) bs (block_hashes r)) →
  (match mask with Some l => length l = Z.to_nat (nf - ncached m rid) | None => True end) →
  mm_sorted (mm_features r) ∧ memo_ok r →
  cache_pre p r (blocks m rid) (ncached m rid) nf bs (mg_kv_cache_group_id m) mask
    (hashes_at (hash_block_size p) bs (block_hashes r)) new
    (assigned (pool_heap p) (mg_kv_cache_group_id m) mask
       (drop (Z.to_nat (ncached m rid)) (hashes_at (hash_block_size p) bs (block_hashes r))) 0 new).
Proof.
  intros rid bs new Hm He Hlt Hhave Hhash Hmask Hreq.
  pose proof (mi_static _ _ _ _ _ Hm) as Hs. pose proof (lg_pool _ _ _ _ (mi_ledger _ _ _ _ _ Hm)) as Hp.
  destruct (mgr_open _ _ _ _ _ rid Hm) as [Hl _]. pose proof (lg_in _ _ _ _ Hl) as [Hin _]%in_pool_app.
  pose proof (mi_cached _ _ _ _ _ Hm rid) as Hnc.
  destruct (new_slice _ _ _ _ _ _ _ Hm Hlt Hhave) as (Hsplit & Hnin & Hnnd). fold new in Hsplit, Hnin, Hnnd.
  rewrite nonnull_app in Hnnd. apply NoDup_app in Hnnd as [Hnnd _].
  destruct (ms_hash_size _ _ Hs He). split; try done.
  - lia.
  - split; [done|]. split; [apply (ms_size _ _ Hs)|done].
  - destruct mask as [l|]; [|done]. rewrite Hmask. unfold new.
    rewrite py_slice_pos, length_take, length_drop by (unfold zlen in *; lia). unfold zlen in *. lia.
  - apply (ms_gid _ _ Hs).
  - by eapply assigned_nodup.
  - intros b Hb%(assigned_nonnull _ _ _ _ _ _ _ _ Hp Hnin).
    destruct (lg_fresh _ _ _ _ Hl b) as (i & -> & _ & _ & Hh); [|done].
    apply elem_of_app. left. unfold req_tail, tail_blocks. rewrite He, Hsplit, nonnull_app.
    apply elem_of_app. by left.
Qed.

Lemma base_cache_spec p free R F m r tokens ret :
  let rid := request_id r in
  mgr_inv p free R F m → cacheable p m r tokens →
  ∃ m' p', base_cache_blocks r tokens ret (m, p) = Ok (tt, (m', p'))
    ∧ mgr_inv p' free R F m' ∧ same_config p p' ∧ only rid m m'
    ∧ (∀ i, refc p' i = refc p i) ∧ blocks m' rid = blocks m rid
    ∧ ncached m' rid = Z.max (ncached m rid) (tokens / mg_block_size m)
    ∧ (mg_class m ≠ SlidingWindowManager → ∀ i, Block i ∈ nonnull (py_slice (blocks m rid) (ncached m rid)
         (tokens / mg_block_size m)) → ncached m rid < tokens / mg_block_size m → hashc p' i ≠ None).
Proof.
  intros rid Hm [Ht Hcl He Hhave Hhash Hreq]. pose proof (mi_static _ _ _ _ _ Hm) as Hs.
  pose proof (lg_pool _ _ _ _ (mi_ledger _ _ _ _ _ Hm)) as Hp. fold rid in Hhave.
  pose proof (mi_cached _ _ _ _ _ Hm rid) as Hnc. pose proof (mi_nodup _ _ _ _ _ Hm rid) as Hnd.
  unfold base_cache_blocks. mstep. simpl. fold rid. fold (ncached m rid).
  set (nf := tokens / mg_block_size m) in *.
  destruct (Z.leb_spec nf (ncached m rid)) as [|Hlt].
  { exists m, p. rewrite Z.max_l by lia. split_and!; try done. lia. }
  destruct (mask_run p m (ncached m rid) nf ret (Some (num_prompt_tokens r)) Hs ltac:(lia)) as (mask & Em & Hmask & Hnone).
  rewrite Em. mstep. mstep by apply req_blocks_run.
  pose proof (cache_pre_ok p free R F m r nf mask Hm He Hlt Hhave Hhash Hmask Hreq) as Hpre. fold rid in Hpre.
  set (new := py_slice _ _ _) in *. set (todo := assigned _ _ _ _ _ _) in *. set (hs := hashes_at _ _ _) in *.
  destruct (cache_full_blocks_spec _ _ _ _ _ _ _ _ _ _ _ _ Hp Hpre) as (p' & E & Hp' & Hc & _ & Hh).
  rewrite (bind_ok _ _ _ _ _ (onpool_ok _ _ _ _ _ E)).
  set (m1 := with_cached rid nf (with_entry rid m)).
  exists m1, p'. split; [done|].
  assert (Ho : only rid m m1).
  { etrans; [apply with_entry_only|]. split; [done|done|]. intros q Hq. simpl. by rewrite lookup_insert_ne by congruence. }
  assert (Hb1 : blocks m1 rid = blocks m rid) by apply with_entry_blocks.
  assert (Hn1 : ncached m1 rid = nf) by (unfold ncached; simpl; by rewrite lookup_insert_eq).
  destruct (new_slice _ _ _ _ _ _ _ Hm Hlt Hhave) as (_ & Hnin & _). fold new in Hnin.
  assert (Htodo : ∀ b, b ∈ todo.*1 → b ∈ nonnull new) by (intros b; by eapply assigned_nonnull).
  split; [|split; [done|split; [done|split; [apply Hh|split; [done|split]]]]].
  - eapply mgr_cached; [done|done|exact Hlt|done|done|done|done|done|done|exact Htodo|exact Hh].
  - rewrite Hn1. lia.
  - intros Hsw i Hi _. destruct (Hh i) as [_ ->]. pose proof (Hnone Hsw). subst mask.
    assert (Block i ∈ todo.*1) as ([b key] & Hbk & Hin')%list_elem_of_fmap.
    { apply (assigned_all p free); [done|done| |done]. unfold new.
      rewrite py_slice_pos, length_take, !length_drop by (unfold zlen in *; lia). unfold zlen in *. lia. }
    simpl in Hbk. rewrite (assign_lookup _ _ _ i _ (cp_nodup _ _ _ _ _ _ _ _ _ _ _ Hpre) Hin'); done.
Qed.

Lemma note_cached_run p bs m rid :
  (∀ b, b ∈ bs → is_null (pool_heap p b) = true ∨ _block_hash (pool_heap p b) ≠ None) →
  ∃ m', note_cached_this_step (pool_heap p) bs (m, p) = Ok (tt, (m', p)) ∧ only rid m m'
    ∧ req_to_blocks m' = req_to_blocks m ∧ num_cached_block m' = num_cached_block m.
Proof.
  revert m. induction bs as [|b bs IH]; intros m Hb; simpl; [by exists m|].
  assert (Htl : ∀ x, x ∈ bs → is_null (pool_heap p x) = true ∨ _block_hash (pool_heap p x) ≠ None)
    by (intros x Hx; apply Hb; by right).
  destruct (is_null (pool_heap p b)) eqn:En; [by apply IH|].
  destruct (_block_hash (pool_heap p b)) as [k|] eqn:Eh.
  2:{ destruct (Hb b) as [?|?]; [left|congruence|done]. }
  mstep. set (m1 := mg_set_cached_blocks_this_step _ _). destruct (IH m1 Htl) as (m' & E & Ho & Hr & Hn).
  exists m'. rewrite <-E. split; [done|]. split; [etrans; [|exact Ho]; by split|]. by rewrite Hr, Hn.
Qed.

(** The manager's invariant does not see the state kept for one step. *)
Lemma mgr_inv_same p free R F m m' rid :
  mgr_inv p free R F m → only rid m m' → req_to_blocks m' = req_to_blocks m →
  num_cached_block m' = num_cached_block m → mgr_inv p free R F m'.
Proof.
  intros Hm Ho Hr Hn. assert (Hb : blocks m' rid = blocks m rid) by (unfold blocks; by rewrite Hr).
  assert (Hc : ncached m' rid = ncached m rid) by (unfold ncached; by rewrite Hn).
  destruct (mgr_open _ _ _ _ _ rid Hm) as [Hl _].
  eapply mgr_close; [done|done|done|..]; unfold req_tail; rewrite ?Hb, ?Hc, ?(only_caching _ _ _ Ho);
    [apply (mi_nodup _ _ _ _ _ Hm)|apply (mi_cached _ _ _ _ _ Hm)|exact Hl].
Qed.

(** What caching promises about the request. *)
Record cached_upto (rid : string) (m m' : Manager) (p p' : BlockPool) (tokens : Z) : Prop := {
  cu_config : same_config p p';
  cu_only : only rid m m';
  cu_refs : ∀ i, refc p' i = refc p i;
  cu_blocks : blocks m' rid = blocks m rid;
  cu_cached : ncached m' rid = Z.max (ncached m rid) (tokens / mg_block_size m)
}.

Lemma cache_spec p free R F m r tokens ret :
  mgr_inv p free R F m → cacheable p m r tokens →
  ∃ m' p', cache_blocks r tokens ret (m, p) = Ok (tt, (m', p'))
    ∧ mgr_inv p' free R F m' ∧ cached_upto (request_id r) m m' p p' tokens.
Proof.
  intros Hm Hca. set (rid := request_id r).
  destruct (base_cache_spec p free R F m r tokens ret Hm Hca) as (m1 & p1 & E & Hm1 & Hc & Ho & Hr & Hb & Hn & Hall).
  fold rid in Ho, Hb, Hn, Hall. unfold cache_blocks. mstep. simpl.
  destruct (mg_class m) eqn:Ec; try (exists m1, p1; split; [done|]; by split).
  2:{ destruct (ca_class _ _ _ _ Hca). done. }
  rewrite (bind_ok _ _ _ _ _ E). mstep. mstep. simpl. fold rid. fold (ncached m rid) (ncached m1 rid).
  destruct (Z.ltb_spec (ncached m rid) (ncached m1 rid)) as [Hlt|].
  2:{ exists m1, p1. split; [done|]. by split. }
  mstep by apply req_blocks_run. rewrite Hb.
  assert (ncached m1 rid = tokens / mg_block_size m) as Hn' by lia. rewrite Hn'.
  destruct (note_cached_run p1 (py_slice (blocks m rid) (ncached m rid) (tokens / mg_block_size m)) (with_entry rid m1) rid)
    as (m2 & E2 & Ho2 & Hr2 & Hn2).
  { intros b Hb'. pose proof (lg_pool _ _ _ _ (mi_ledger _ _ _ _ _ Hm1)) as Hp1.
    assert (b ∈ blocks m rid) as Hin.
    { unfold py_slice in Hb'. apply subseteq_take in Hb'. by apply subseteq_drop in Hb'. }
    destruct (mgr_open _ _ _ _ _ rid Hm) as [Hl _]. pose proof (lg_in _ _ _ _ Hl) as [Hinp _]%in_pool_app.
    destruct (elem_of_in_pool _ _ _ Hinp Hin) as (i & -> & Hi).
    rewrite (pi_is_null _ _ _ Hp1) by (rewrite (same_config_nblocks _ _ Hc); done).
    destruct (decide (i = 0%nat)) as [->|Hi0]; [left; by apply bool_decide_eq_true|right].
    apply Hall; [done| |lia]. apply elem_of_nonnull. split; [congruence|done]. }
  exists m2, p1. split; [done|].
  assert (Hm2 : mgr_inv p1 free R F m2) by (eapply mgr_inv_same; [by apply mgr_with_entry|done..]).
  split; [done|]. split; [done| |done| |].
  - etrans; [exact Ho|]. etrans; [apply with_entry_only|exact Ho2].
  - unfold blocks at 1. rewrite Hr2. fold (blocks (with_entry rid m1) rid). by rewrite with_entry_blocks.
  - unfold ncached at 1. rewrite Hn2, with_entry_cached. exact Hn.
Qed.
End caching.
