(* ===== verification/CacheHit.v ===== *)
(** * Longest cache hits of the managers

    Correctness of the [find_longest_cache_hit] class methods of
    [vllm/v1/core/single_type_kv_cache_manager.py]: the blocks they return carry
    the right keys, the hit is aligned and not longer than asked for, and no longer
    hit was available. *)

From Stdlib Require Import ZArith Lia.
From S2P Require Import Prelude MathUtils KVSpec FreeQueue Request BlockHash BlockPool SingleType.
Local Open Scope Z_scope.

(** ** Rows and columns

    The methods build one row of blocks per KV-cache group. All rows grow and
    shrink together, so they are the transpose of a list of columns, one per block
    index. *)

Definition row_of (cols : list (list loc)) (g : nat) : list loc :=
  (λ col : list loc, default FakeHead (col !! g)) <$> cols.
Definition rows_of (k : nat) (cols : list (list loc)) : list (list loc) := row_of cols <$> seq 0 k.

Lemma length_rows_of k cols : length (rows_of k cols) = k.
Proof. unfold rows_of. by rewrite length_fmap, length_seq. Qed.

Lemma rows_of_lookup k cols g row :
  rows_of k cols !! g = Some row ↔ (g < k)%nat ∧ row = row_of cols g.
Proof.
  unfold rows_of. rewrite list_lookup_fmap, fmap_Some. split.
  - intros (j & [-> ?]%lookup_seq & ->). done.
  - intros [Hg ->]. exists g. split; [|done]. by apply lookup_seq.
Qed.

Lemma length_row_of cols g : length (row_of cols g) = length cols.
Proof. apply length_fmap. Qed.

Lemma rows_of_Forall k cols (Q : list loc → Prop) :
  (∀ g, (g < k)%nat → Q (row_of cols g)) → Forall Q (rows_of k cols).
Proof. intros HQ. apply Forall_lookup_2. intros g row [Hg ->]%rows_of_lookup. by apply HQ. Qed.

Lemma rows_of_map k cols (f : list loc → list loc) (f' : list (list loc) → list (list loc)) :
  (∀ g, f (row_of cols g) = row_of (f' cols) g) → f <$> rows_of k cols = rows_of k (f' cols).
Proof.
  intros Hf. unfold rows_of. rewrite <-list_fmap_compose. apply list_fmap_ext.
  intros i g _. apply Hf.
Qed.

(** Combining rows with a column of blocks. *)
Lemma zip_rows_lookup f rows cs g :
  length cs = length rows →
  zip_rows f rows cs !! g = (rows !! g ≫= λ row, f row <$> cs !! g).
Proof.
  revert rows g. induction cs as [|c cs IH]; intros [|row rows] [|g] Hl; simplify_eq/=; try done.
  by apply IH.
Qed.

Lemma zip_rows_of k cols cs f f' :
  length cs = k →
  (∀ g c, cs !! g = Some c → f (row_of cols g) c = row_of (f' cols cs) g) →
  zip_rows f (rows_of k cols) cs = rows_of k (f' cols cs).
Proof.
  intros Hk Hf. apply list_eq. intros g.
  rewrite zip_rows_lookup by (by rewrite length_rows_of).
  unfold rows_of. rewrite !list_lookup_fmap.
  destruct (decide (g < k)%nat) as [Hg|Hg].
  - rewrite !lookup_seq_lt by done. simpl.
    destruct (lookup_lt_is_Some_2 cs g) as [c Hc]; [lia|]. rewrite Hc. simpl. f_equal. by apply Hf.
  - rewrite !lookup_seq_ge by lia. done.
Qed.

Lemma rows_of_append k cols cs :
  length cs = k → zip_rows (λ row x, row ++ [x]) (rows_of k cols) cs = rows_of k (cols ++ [cs]).
Proof.
  intros Hk. apply (zip_rows_of k cols cs _ (λ cols cs, cols ++ [cs]) Hk).
  intros g c Hc. unfold row_of. rewrite fmap_app. simpl. by rewrite Hc.
Qed.

Lemma rows_of_set k cols cs i :
  length cs = k → zip_rows (λ row x, <[i := x]> row) (rows_of k cols) cs = rows_of k (<[i := cs]> cols).
Proof.
  intros Hk. apply (zip_rows_of k cols cs _ (λ cols cs, <[i := cs]> cols) Hk).
  intros g c Hc. unfold row_of. rewrite list_fmap_insert. simpl. by rewrite Hc.
Qed.

Lemma rows_of_take k cols n : take n <$> rows_of k cols = rows_of k (take n cols).
Proof. apply (rows_of_map k cols _ (take n)). intros g. unfold row_of. by rewrite fmap_take. Qed.

Lemma rows_of_nil k : replicate k [] = rows_of k [].
Proof.
  unfold rows_of. apply list_eq. intros i. rewrite list_lookup_fmap.
  destruct (decide (i < k)%nat).
  - by rewrite lookup_replicate_2, lookup_seq_lt by done.
  - rewrite lookup_seq_ge by lia. rewrite lookup_ge_None_2; [done|]. rewrite length_replicate. lia.
Qed.

Lemma rows_of_null k n x : replicate k (replicate n x) = rows_of k (replicate n (replicate k x)).
Proof.
  unfold rows_of. apply list_eq. intros i. rewrite list_lookup_fmap.
  destruct (decide (i < k)%nat).
  - rewrite lookup_replicate_2, lookup_seq_lt by done. simpl. f_equal.
    unfold row_of. rewrite fmap_replicate, lookup_replicate_2 by done. done.
  - rewrite lookup_seq_ge by lia. rewrite lookup_ge_None_2; [done|]. rewrite length_replicate. lia.
Qed.

Lemma removelast_take {A} (l : list A) : removelast l = take (length l - 1) l.
Proof. rewrite removelast_firstn_len. f_equal. lia. Qed.

Lemma pop_rows_of k cols :
  cols ≠ [] → pop_rows (rows_of k cols) = Ok (rows_of k (take (length cols - 1) cols)).
Proof.
  intros Hc. rewrite <-rows_of_take.
  assert (Forall (λ row, length row = length cols) (rows_of k cols)) as Hl.
  { apply rows_of_Forall. intros g _. apply length_row_of. }
  assert (length cols ≠ 0%nat) as Hn by (by destruct cols).
  induction Hl as [|row rows Hrow _ IH]; [done|]. simpl.
  destruct row as [|x row]; [simpl in Hrow; lia|]. rewrite IH. munfold. f_equal. f_equal.
  change (match row with [] => [] | _ :: _ => x :: removelast row end) with (removelast (x :: row)).
  by rewrite removelast_take, <-Hrow.
Qed.

Lemma rows_of_head k cols : (0 < k)%nat → head (rows_of k cols) = Some (row_of cols 0).
Proof. unfold rows_of. destruct k; [lia|]. done. Qed.

Lemma py_index_head {A} (l : list A) x : head l = Some x → py_index l 0 = Ok x.
Proof. destruct l; [done|]. by intros [= ->]. Qed.

(** ** Lookups *)

(** The blocks found for a hash in every group, if all groups have it. *)
Definition hit (p : BlockPool) (gids : list Z) (h : bytes) : option (list loc) :=
  match lookup_hit p h gids with Ok c => c | Err _ => None end.

Definition gids_ok (gids : list Z) : Prop := gids ≠ [] ∧ Forall (λ g, 0 ≤ g < 256 ^ 4) gids.

(** [b] is a block of the pool that carries the key of hash [h] in group [g]. *)
Definition holds (p : BlockPool) (h : bytes) (g : Z) (b : loc) : Prop :=
  ∃ i, b = Block i ∧ (0 < i < nblocks p)%nat ∧ hashc p i = Some (h ++ be_bytes 4 g).

(** The hashes the methods index and iterate over. *)
Definition hash_list (l : BlockHashList) : list bytes :=
  match l with HashList l => l | ScaledHashList l => bhl_iter l end.

Lemma bh_index_hash_list l i h :
  hash_list l !! i = Some h → bh_index l (Z.of_nat i) = Ok h.
Proof.
  destruct l as [l|l]; simpl; [apply py_index_nat|].
  unfold bhl_iter. rewrite list_lookup_fmap. intros (z & Hz & ->)%fmap_Some.
  apply lookup_seqZ in Hz as [-> _]. by rewrite Z.add_0_l.
Qed.

Section hits.
Context (p : BlockPool) (free : list loc) (Hp : pool_inv p free []).
Context (gids : list Z) (Hg : gids_ok gids).

Local Abbreviation k := (length gids).

Lemma lookup_hit_run h : lookup_hit p h gids = Ok (hit p gids h).
Proof using Hp Hg.
  unfold hit, lookup_hit. destruct (get_cached_block_spec p free h gids Hp) as (res & -> & _); [apply Hg|].
  by destruct res as [[|]|].
Qed.

Lemma hit_spec h :
  match hit p gids h with
  | Some cs => Forall2 (holds p h) gids cs
  | None => Exists (λ g, ∀ b, ¬ holds p h g b) gids
  end.
Proof using Hp Hg.
  unfold hit, lookup_hit.
  destruct (get_cached_block_spec p free h gids Hp) as (res & -> & Hres); [apply Hg|].
  destruct res as [[|b bs]|]; munfold.
  - apply Forall2_nil_inv_r in Hres. by destruct Hg.
  - done.
  - eapply Exists_impl; [exact Hres|]. simpl. intros g Hn b (i & -> & Hi & Hh). apply (Hn i); [lia|done].
Qed.

Lemma hit_length h cs : hit p gids h = Some cs → length cs = k.
Proof using Hp Hg.
  intros E. pose proof (hit_spec h) as Hs. rewrite E in Hs. symmetry. by eapply Forall2_length.
Qed.

Lemma k_pos : (0 < k)%nat.
Proof using Hg. destruct Hg as [Hn _]. destruct gids; [done|]. simpl. lia. Qed.

(** A list of columns whose entries from [lo] on are the hits of the hashes. *)
Definition hits_from (hs : list bytes) (lo : nat) (cols : list (list loc)) : Prop :=
  ∀ i, (lo ≤ i < length cols)%nat → ∃ h cs, hs !! i = Some h ∧ hit p gids h = Some cs ∧ cols !! i = Some cs.

Lemma hits_from_take hs lo cols n : hits_from hs lo cols → hits_from hs lo (take n cols).
Proof.
  intros Hc i Hi. rewrite length_take in Hi. destruct (Hc i) as (h & cs & ? & ? & ?); [lia|].
  exists h, cs. split_and!; [done..|]. rewrite lookup_take_lt by lia. done.
Qed.

(** Every block in a row of such columns carries the key of its position. *)
Lemma hits_from_holds hs lo cols g gid row i b h :
  hits_from hs lo cols → rows_of k cols !! g = Some row → gids !! g = Some gid →
  (lo ≤ i)%nat → row !! i = Some b → hs !! i = Some h → holds p h gid b.
Proof using Hp Hg.
  intros Hc [Hgk ->]%rows_of_lookup Hgid Hlo Hb Hh.
  unfold row_of in Hb. rewrite list_lookup_fmap in Hb. apply fmap_Some in Hb as (col & Hcol & ->).
  destruct (Hc i) as (h' & cs & Hh' & Hhit & Hcs); [split; [done|by eapply lookup_lt_Some]|].
  simplify_eq. pose proof (hit_spec h) as Hs. rewrite Hhit in Hs.
  destruct (Forall2_lookup_l _ _ _ _ _ Hs Hgid) as (b & Hb & Hholds). by rewrite Hb.
Qed.

(** ** Popping to the alignment *)

(** The greatest [n' <= n] whose blocks end on an alignment boundary. *)
Definition aligned (bs al n : Z) : Prop := bs = al ∨ n * bs mod al = 0.
#[global] Instance aligned_dec bs al n : Decision (aligned bs al n).
Proof. unfold aligned. apply _. Defined.

Fixpoint align_down (bs al : Z) (n : nat) : nat :=
  if decide (aligned bs al (Z.of_nat n)) then n
  else match n with O => O | S n => align_down bs al n end.

Lemma align_down_spec bs al n :
  let n' := align_down bs al n in
  (n' ≤ n)%nat ∧ aligned bs al (Z.of_nat n')
  ∧ ∀ m, (m ≤ n)%nat → aligned bs al (Z.of_nat m) → (m ≤ n')%nat.
Proof.
  induction n as [|n IH]; cbn [align_down]; case_decide as Hd.
  - split_and!; [lia|done|intros m Hm _; lia].
  - exfalso. apply Hd. right. by rewrite Z.mul_0_l, Zmod_0_l.
  - split_and!; [lia|done|intros m Hm _; lia].
  - destruct IH as (H1 & H2 & H3). split_and!; [lia|done|]. intros m Hm Ha.
    destruct (decide (m = S n)) as [->|]; [done|]. apply H3; [lia|done].
Qed.

Lemma align_down_id bs al n : aligned bs al (Z.of_nat n) → align_down bs al n = n.
Proof.
  intros Ha. pose proof (align_down_spec bs al n) as (? & _ & Hm). specialize (Hm n ltac:(done) Ha). lia.
Qed.

Lemma align_rows_of fuel bs al cols :
  al ≠ 0 → (length cols ≤ fuel)%nat →
  align_rows fuel bs al (rows_of k cols)
    = Ok (rows_of k (take (align_down bs al (length cols)) cols)).
Proof using Hg.
  intros Hal. revert cols. induction fuel as [|fuel IH]; intros cols Hf.
  - assert (cols = []) as -> by (destruct cols; [done|simpl in Hf; lia]). rewrite take_nil.
    simpl. destruct (bs =? al); [done|].
    rewrite (py_index_head _ (row_of [] 0)) by (apply rows_of_head, k_pos). munfold.
    by rewrite (proj2 (Z.eqb_neq al 0)) by done.
  - cbn [align_rows]. destruct (Z.eqb_spec bs al) as [->|Hne].
    { rewrite align_down_id by (by left). by rewrite take_ge. }
    rewrite (py_index_head _ (row_of cols 0)) by (apply rows_of_head, k_pos). munfold.
    rewrite (proj2 (Z.eqb_neq al 0)) by done.
    unfold zlen. rewrite length_row_of.
    destruct (Z.eqb_spec ((Z.of_nat (length cols) * bs) mod al) 0) as [Hm|Hm].
    { rewrite align_down_id by (by right). by rewrite take_ge. }
    assert (cols ≠ []) as Hc by (intros ->; by rewrite Z.mul_0_l, Zmod_0_l in Hm).
    rewrite pop_rows_of by done. rewrite IH by (rewrite length_take; lia).
    rewrite length_take, take_take. f_equal. f_equal. f_equal.
    destruct (length cols) as [|n] eqn:El; [by destruct cols|].
    replace ((S n - 1) `min` S n)%nat with n by lia. cbn [align_down].
    rewrite (decide_False (P:=aligned bs al (Z.of_nat (S n)))) by (intros [?|?]; done).
    destruct (align_down_spec bs al n) as [? _]. lia.
Qed.

Lemma align_to_of bs al cols :
  al ≠ 0 →
  align_to bs al (rows_of k cols) = Ok (rows_of k (take (align_down bs al (length cols)) cols)).
Proof using Hg.
  intros Hal. unfold align_to. rewrite rows_of_head by apply k_pos. simpl.
  rewrite length_row_of. by apply align_rows_of.
Qed.

Lemma drop_last_of e cols :
  drop_last e (rows_of k cols) = Ok (rows_of k (take (length cols - if e then 1 else 0) cols)).
Proof using Hg.
  unfold drop_last. destruct e; [|by rewrite Nat.sub_0_r, take_ge].
  rewrite (py_index_head _ (row_of cols 0)) by (apply rows_of_head, k_pos). munfold.
  case_bool_decide as Hb.
  - assert (cols = []) as -> by (by destruct cols). done.
  - apply pop_rows_of. by intros ->.
Qed.

(** Every group holds a block for the hash. *)
Definition available (h : bytes) : Prop := Forall (λ g, ∃ b, holds p h g b) gids.

Lemma available_hit h : available h ↔ hit p gids h ≠ None.
Proof using Hp Hg.
  pose proof (hit_spec h) as Hs. unfold available. destruct (hit p gids h) as [cs|].
  - split; [done|]. intros _. clear -Hs. induction Hs; constructor; eauto.
  - split; [|done]. intros Hf. apply Exists_exists in Hs as (g & Hgin & Hno).
    rewrite Forall_forall in Hf. destruct (Hf g Hgin) as [b Hb]. by destruct (Hno b).
Qed.

(** ** Full attention: left to right *)

Fixpoint hit_prefix (hs : list bytes) : list (list loc) :=
  match hs with
  | [] => []
  | h :: hs => match hit p gids h with Some cs => cs :: hit_prefix hs | None => [] end
  end.

Lemma full_hit_loop_of hs cols :
  full_hit_loop p gids hs (rows_of k cols) = Ok (rows_of k (cols ++ hit_prefix hs)).
Proof using Hp Hg.
  revert cols. induction hs as [|h hs IH]; intros cols; simpl; [by rewrite app_nil_r|].
  rewrite lookup_hit_run. munfold. destruct (hit p gids h) as [cs|] eqn:Eh; [|by rewrite app_nil_r].
  rewrite rows_of_append by (by eapply hit_length). rewrite IH. by rewrite <-(assoc_L (++)).
Qed.

Lemma hit_prefix_hits hs : hits_from hs 0 (hit_prefix hs) ∧ (length (hit_prefix hs) ≤ length hs)%nat.
Proof.
  induction hs as [|h hs [IH IHl]]; simpl; [split; [intros i Hi; simpl in Hi; lia|lia]|].
  destruct (hit p gids h) as [cs|] eqn:Eh; simpl; [|split; [intros i Hi; simpl in Hi; lia|lia]].
  split; [|lia]. intros [|i] Hi; [by exists h, cs|]. simpl in *. apply IH. lia.
Qed.

Lemma hit_prefix_longest hs m :
  (∀ i, (i < m)%nat → ∃ h, hs !! i = Some h ∧ available h) → (m ≤ length (hit_prefix hs))%nat.
Proof using Hp Hg.
  revert m. induction hs as [|h hs IH]; intros m Hm; simpl.
  - destruct m; [lia|]. destruct (Hm 0%nat) as (? & ? & _); [lia|done].
  - destruct m as [|m]; [lia|]. destruct (Hm 0%nat) as (h' & [= <-] & Ha%available_hit); [lia|].
    destruct (hit p gids h); [|done]. simpl. apply le_n_S, IH. intros i Hi. apply (Hm (S i)). lia.
Qed.

(** What a returned hit of [n] blocks promises. *)
Record hit_result (rows : list (list loc)) (hs : list bytes) (lo n : nat) : Prop := {
  hr_groups : length rows = k;
  hr_lengths : Forall (λ row, length row = n) rows;
  hr_hashes : (n ≤ length hs)%nat;
  hr_holds : ∀ g gid row i b h, rows !! g = Some row → gids !! g = Some gid → (lo ≤ i)%nat →
    row !! i = Some b → hs !! i = Some h → holds p h gid b
}.

Lemma hit_result_of hs lo cols :
  hits_from hs lo cols → (length cols ≤ length hs)%nat →
  hit_result (rows_of k cols) hs lo (length cols).
Proof using Hp Hg.
  intros Hc Hl. split.
  - apply length_rows_of.
  - apply rows_of_Forall. intros g _. apply length_row_of.
  - done.
  - intros. by eapply hits_from_holds.
Qed.

Lemma full_find_spec l max_length spec (e : bool) al dcp pcp :
  let bs := layer_block_size spec * (if 1 <? dcp * pcp then dcp * pcp else 1) in
  let hs := take (Z.to_nat (max_length / bs)) (hash_list l) in
  is_FullAttentionSpec spec = true → 0 < bs → 0 < al → 0 ≤ max_length →
  let n := align_down bs al (length (hit_prefix hs) - if e then 1 else 0) in
  full_find_longest_cache_hit l max_length gids p spec e al dcp pcp
    = Ok (rows_of k (take n (hit_prefix hs))).
Proof using Hp Hg.
  intros bs hs Hspec Hbs Hal Hmax n. unfold full_find_longest_cache_hit. rewrite Hspec. simpl.
  fold bs. unfold bh_islice. rewrite (proj2 (Z.ltb_ge _ 0)) by (apply Z.div_pos; lia). munfold.
  change (match l with HashList l0 => l0 | ScaledHashList l0 => bhl_iter l0 end) with (hash_list l).
  fold hs. rewrite rows_of_nil, full_hit_loop_of. simpl. rewrite drop_last_of.
  rewrite align_to_of by lia. rewrite take_take, length_take.
  pose proof (align_down_spec bs al (length (hit_prefix hs) - if e then 1 else 0)) as [Hle _].
  fold n in Hle. replace ((length (hit_prefix hs) - (if e then 1 else 0)) `min` length (hit_prefix hs))%nat
    with (length (hit_prefix hs) - (if e then 1 else 0))%nat by lia.
  fold n. f_equal. f_equal. f_equal. lia.
Qed.

(** ** Sliding windows: right to left *)

Section window.
Context (l : BlockHashList) (bs al : Z) (need : nat) (e : bool).

Local Abbreviation hs := (hash_list l).
Local Abbreviation shift := (if e then 1 else 0).

(** A prefix of [m] blocks can be reused: it ends on a boundary (after the EAGLE
    drop) and the last [need] blocks of it are available. *)
Definition reusable (m : nat) : Prop :=
  aligned bs al (Z.of_nat m - shift) ∧
  ∀ i, (m - need ≤ i < m)%nat → ∃ h, hs !! i = Some h ∧ available h.

(** The state of the search: [run] consecutive hits found from [n] on. *)
Record swa_inv (M n run : nat) (cols : list (list loc)) : Prop := {
  sw_len : length cols = M;
  sw_run : (n + run ≤ M)%nat ∧ (run < need)%nat;
  sw_hits : hits_from hs n (take (n + run) cols);
  sw_aligned : run ≠ 0%nat → aligned bs al (Z.of_nat (n + run) - shift);
  sw_rest : ∀ m, (n + run < m ≤ M)%nat → ¬ reusable m
}.

Lemma swa_inv_miss M n run cols h :
  swa_inv M (S n) run cols → hs !! n = Some h → hit p gids h = None → swa_inv M n 0 cols.
Proof using Hp Hg.
  intros [H1 [H2 H2'] H3 H4 H5] Hh Hmiss. split; [done|lia| |done|].
  - rewrite Nat.add_0_r. intros i Hi. rewrite length_take in Hi. lia.
  - intros m Hm Hr. destruct (decide (S n + run < m)%nat) as [Hlt|Hle]; [apply (H5 m); [lia|done]|].
    destruct Hr as [_ Hr]. destruct (Hr n) as (h' & Hh' & Ha); [lia|]. simplify_eq.
    apply available_hit in Ha. done.
Qed.

Lemma swa_inv_skip M n cols h :
  swa_inv M (S n) 0 cols → hs !! n = Some h →
  ¬ aligned bs al (Z.of_nat (S n) - shift) → swa_inv M n 0 cols.
Proof.
  intros [H1 [H2 H2'] H3 H4 H5] Hh Hna. split; [done|lia| |done|].
  - rewrite Nat.add_0_r. intros i Hi. rewrite length_take in Hi. lia.
  - intros m Hm Hr. destruct (decide (S n < m)%nat) as [Hlt|Hle]; [apply (H5 m); [lia|done]|].
    assert (m = S n) as -> by lia. by destruct Hr.
Qed.

Lemma swa_hits_insert M n run cols cs h :
  length cols = M → (S n + run ≤ M)%nat → hits_from hs (S n) (take (S n + run) cols) →
  hs !! n = Some h → hit p gids h = Some cs →
  hits_from hs n (take (n + S run) (<[n := cs]> cols)).
Proof.
  intros Hl Hr Hhits Hh Hcs i Hi. rewrite length_take, length_insert in Hi.
  destruct (decide (i = n)) as [->|Hne].
  - exists h, cs. split_and!; [done..|]. rewrite lookup_take_lt by lia.
    apply list_lookup_insert_eq. lia.
  - destruct (Hhits i) as (h' & cs' & ? & ? & Hc); [rewrite length_take; lia|].
    exists h', cs'. split_and!; [done..|]. rewrite lookup_take_lt in Hc |- * by lia.
    by rewrite list_lookup_insert_ne by done.
Qed.

Lemma swa_inv_hit M n run cols cs h :
  swa_inv M (S n) run cols → hs !! n = Some h → hit p gids h = Some cs → (S run < need)%nat →
  (run = 0%nat → aligned bs al (Z.of_nat (S n) - shift)) →
  swa_inv M n (S run) (<[n := cs]> cols).
Proof.
  intros [H1 [H2 H2'] H3 H4 H5] Hh Hcs Hneed Ha. split.
  - by rewrite length_insert.
  - lia.
  - by eapply swa_hits_insert.
  - intros _. replace (n + S run)%nat with (S n + run)%nat by lia.
    destruct (decide (run = 0%nat)) as [->|]; [|by apply H4]. rewrite Nat.add_0_r. by apply Ha.
  - intros m Hm. apply H5. lia.
Qed.

(** The outcome of the search over [M] blocks. *)
Definition swa_outcome (M : nat) (cols : list (list loc)) (run : nat) (found : bool) : Prop :=
  (if found then (need ≤ length cols ≤ M)%nat ∧ hits_from hs (length cols - need) cols
                 ∧ aligned bs al (Z.of_nat (length cols) - shift)
                 ∧ ∀ m, (length cols < m ≤ M)%nat → ¬ reusable m
   else length cols = M ∧ (run ≤ M)%nat ∧ hits_from hs 0 (take run cols)
        ∧ (run ≠ 0%nat → aligned bs al (Z.of_nat run - shift))
        ∧ ∀ m, (run < m ≤ M)%nat → ¬ reusable m).

Lemma swa_loop_of M n run cols :
  (M ≤ length hs)%nat → (0 < need)%nat → swa_inv M n run cols →
  ∃ cols' run' found,
    swa_loop p gids l bs al (Z.of_nat need) e n (Z.of_nat run) (rows_of k cols)
      = Ok (rows_of k cols', Z.of_nat run', found) ∧ swa_outcome M cols' run' found.
Proof using Hp Hg.
  intros HM Hneed. revert run cols. induction n as [|n IH]; intros run cols Hinv.
  { exists cols, run, false. split; [done|]. destruct Hinv as [H1 [H2 _] H3 H4 H5].
    simpl in *. by split_and!. }
  pose proof (sw_run _ _ _ _ Hinv) as [Hr1 Hr2].
  destruct (lookup_lt_is_Some_2 hs n) as [h Hh]; [lia|].
  cbn [swa_loop]. rewrite (bh_index_hash_list _ _ _ Hh). munfold. rewrite lookup_hit_run.
  destruct (hit p gids h) as [cs|] eqn:Eh.
  2:{ apply (IH 0%nat). by eapply swa_inv_miss. }
  assert (Hal : ∀ b, b = (negb (bs =? al) && negb ((if e then Z.of_nat n else Z.of_nat n + 1) * bs mod al =? 0)) →
    b = negb (bool_decide (aligned bs al (Z.of_nat (S n) - shift)))).
  { intros b ->. rewrite <-negb_orb. f_equal. apply eq_bool_prop_intro.
    rewrite orb_True, bool_decide_spec. unfold aligned. rewrite !Is_true_true, !Z.eqb_eq.
    replace (Z.of_nat (S n) - shift) with (if e then Z.of_nat n else Z.of_nat n + 1) by (destruct e; lia). done. }
  rewrite <-andb_assoc. rewrite (Hal _ eq_refl). clear Hal.
  destruct (decide (run = 0%nat ∧ ¬ aligned bs al (Z.of_nat (S n) - shift))) as [[-> Hna]|Hok].
  { rewrite bool_decide_eq_false_2 by done. simpl. apply (IH 0%nat). by eapply swa_inv_skip. }
  assert ((Z.of_nat run =? 0) && negb (bool_decide (aligned bs al (Z.of_nat (S n) - shift))) = false) as ->.
  { apply andb_false_iff. destruct (decide (run = 0%nat)) as [->|].
    - right. apply negb_false_iff, bool_decide_eq_true. destruct (decide (aligned bs al (Z.of_nat (S n) - shift))); [done|].
      exfalso. by apply Hok.
    - left. apply Z.eqb_neq. lia. }
  rewrite rows_of_set by (by eapply hit_length).
  replace (Z.of_nat run + 1) with (Z.of_nat (S run)) by lia.
  assert (Ha : run = 0%nat → aligned bs al (Z.of_nat (S n) - shift)).
  { intros ->. destruct (decide (aligned bs al (Z.of_nat (S n) - shift))); [done|]. exfalso. by apply Hok. }
  destruct (Z.leb_spec (Z.of_nat need) (Z.of_nat (S run))) as [Hle|Hgt].
  - rewrite Nat2Z.id, rows_of_take.
    eexists _, (S run), true. split; [done|].
    destruct Hinv as [H1 _ H3 H4 H5]. unfold swa_outcome. rewrite length_take, length_insert.
    replace ((n + S run) `min` length cols)%nat with (n + S run)%nat by lia.
    split; [lia|]. split; [|split].
    + replace (n + S run - need)%nat with n by lia. by eapply swa_hits_insert.
    + replace (n + S run)%nat with (S n + run)%nat by lia.
      destruct (decide (run = 0%nat)) as [->|]; [rewrite Nat.add_0_r; by apply Ha|by apply H4].
    + intros m Hm. apply H5. lia.
  - apply IH. eapply swa_inv_hit; [done..|lia|done].
Qed.
End window.

(** Blocks before the end of a hit that a sliding window of [w] tokens needs. *)
Definition window_blocks (w bs : Z) : nat := Z.to_nat (cdiv (w - 1) bs).

Lemma window_blocks_need w bs e :
  0 < bs → 1 < w →
  _contiguous_blocks_for_hit w bs e = Z.of_nat (window_blocks w bs + if e then 1 else 0)
  ∧ (0 < window_blocks w bs)%nat.
Proof.
  intros Hb Hw. unfold _contiguous_blocks_for_hit, window_blocks.
  pose proof (cdiv_spec (w - 1) bs Hb). assert (0 < cdiv (w - 1) bs) by nia.
  destruct e; lia.
Qed.

Lemma aligned_0 bs al : aligned bs al 0.
Proof. right. by rewrite Z.mul_0_l, Zmod_0_l. Qed.

Lemma swa_find_spec l max_length spec w (e : bool) al :
  let bs := layer_block_size spec in
  let M := Z.to_nat (max_length / bs) in
  spec_sliding_window spec = Some w → 0 < bs → 0 < al → 1 < w → (M ≤ length (hash_list l))%nat →
  ∃ cols, swa_find_longest_cache_hit l max_length gids p spec e al 1 1 = Ok (rows_of k cols)
    ∧ (length cols ≤ M)%nat ∧ aligned bs al (Z.of_nat (length cols))
    ∧ hits_from (hash_list l) (length cols - window_blocks w bs) cols
    ∧ (e = true → cols ≠ [] → (length cols < M)%nat)
    ∧ (e = false → ∀ m, (length cols < m ≤ M)%nat → ¬ reusable l bs al (window_blocks w bs) false m).
Proof using Hp Hg.
  intros bs M Hw Hbs Hal Hw1 HM. unfold swa_find_longest_cache_hit. rewrite Hw. simpl. fold bs. fold M.
  destruct (window_blocks_need w bs e Hbs Hw1) as [-> Hwb].
  set (need := (window_blocks w bs + if e then 1 else 0)%nat).
  rewrite rows_of_null.
  destruct (swa_loop_of l bs al need e M M 0 (replicate M (replicate k (null_block p)))) as
    (cols & run & found & E & Ho); [done|unfold need; lia| |].
  { split; [by rewrite length_replicate|unfold need; lia| |done|intros m Hm; lia].
    intros i Hi. rewrite length_take, length_replicate in Hi. lia. }
  munfold. change 0 with (Z.of_nat 0). rewrite E. simpl.
  destruct found; simpl in Ho.
  - destruct Ho as (Hlen & Hhits & Ha & Hmax). destruct e.
    + rewrite (py_index_head _ (row_of cols 0)) by (apply rows_of_head, k_pos). munfold.
      assert (cols ≠ []) as Hne by (intros ->; simpl in Hlen; unfold need in Hlen; lia).
      rewrite bool_decide_eq_false_2 by (intros Hn; by destruct cols).
      rewrite pop_rows_of by done. rewrite align_to_of by lia.
      assert (length cols ≠ 0%nat) as Hl0 by (by destruct cols).
      rewrite length_take. replace ((length cols - 1) `min` length cols)%nat with (length cols - 1)%nat by lia.
      rewrite align_down_id by (replace (Z.of_nat (length cols - 1)) with (Z.of_nat (length cols) - 1) by lia; done).
      rewrite take_take, Nat.min_id. eexists. split; [done|]. rewrite length_take.
      replace ((length cols - 1) `min` length cols)%nat with (length cols - 1)%nat by lia.
      split; [lia|]. split; [replace (Z.of_nat (length cols - 1)) with (Z.of_nat (length cols) - 1) by lia; done|].
      split; [|split; [intros; lia|done]].
      replace (length cols - 1 - window_blocks w bs)%nat with (length cols - need)%nat by (unfold need; lia).
      by apply hits_from_take.
    + exists cols. unfold need in *. rewrite Nat.add_0_r in *. rewrite Z.sub_0_r in Ha.
      split_and!; try done; lia.
  - destruct Ho as (Hlen & Hrun & Hhits & Ha & Hmax). rewrite Nat2Z.id, rows_of_take, align_to_of by lia.
    rewrite length_take, Hlen. replace (run `min` M)%nat with run by lia.
    pose proof (align_down_spec bs al run) as (Hd1 & Hd2 & _).
    set (n1 := align_down bs al run) in *. rewrite take_take.
    replace (n1 `min` run)%nat with n1 by lia. simpl. destruct e.
    + rewrite (py_index_head _ (row_of (take n1 cols) 0)) by (apply rows_of_head, k_pos). munfold.
      assert (Hh : ∀ n, (n ≤ n1)%nat → hits_from (hash_list l) (n - window_blocks w bs) (take n cols)).
      { intros n Hn i Hi. rewrite length_take in Hi.
        destruct (Hhits i) as (h & cs & ? & ? & Hc); [rewrite length_take; lia|].
        exists h, cs. rewrite lookup_take_lt in Hc |- * by lia. done. }
      case_bool_decide as Hb.
      * exists (take n1 cols). split; [done|].
        assert (length (take n1 cols) = 0%nat) as Hz by (by rewrite <-(length_row_of _ 0), Hb).
        rewrite length_take in Hz. rewrite length_take. replace (n1 `min` length cols)%nat with n1 by lia.
        split; [lia|]. split; [done|]. split; [by apply Hh|]. split; [|done].
        intros _ Hne. destruct (take n1 cols) eqn:Et; [done|]. assert (n1 = 0%nat) as -> by lia. done.
      * rewrite pop_rows_of by (by intros Ht; rewrite Ht in Hb). rewrite align_to_of by lia.
        rewrite take_take, !length_take, take_take, Hlen.
        replace (n1 `min` M)%nat with n1 by lia. replace ((n1 - 1) `min` n1)%nat with (n1 - 1)%nat by lia.
        rewrite ?(Nat.min_l (n1 - 1) M) by lia.
        pose proof (align_down_spec bs al (n1 - 1)) as (Hd3 & Hd4 & _).
        set (n2 := align_down bs al (n1 - 1)) in *.
        assert (n1 ≠ 0%nat) as Hn1.
        { intros Hz. apply Hb. rewrite Hz. done. }
        exists (take n2 cols). split; [by replace ((n2 `min` (n1 - 1)) `min` n1)%nat with n2 by lia|].
        rewrite length_take, Hlen.
        replace (n2 `min` M)%nat with n2 by lia. split; [lia|]. split; [done|].
        split; [apply Hh; lia|]. split; [intros _ _; lia|done].
    + exists (take n1 cols). split; [done|]. rewrite length_take, Hlen.
      assert (n1 = run) as ->.
      { apply align_down_id. destruct (decide (run = 0%nat)) as [->|Hr0]; [apply aligned_0|].
        specialize (Ha Hr0). by rewrite Z.sub_0_r in Ha. }
      replace (run `min` M)%nat with run by lia. split; [lia|]. split; [done|]. split; [|split; [done|]].
      * intros i Hi. apply Hhits. lia.
      * intros _ m Hm. unfold need in Hmax. rewrite Nat.add_0_r in Hmax. by apply Hmax.
Qed.

(** ** Mamba: the last state only *)

Lemma mamba_loop_of l bs al n :
  (n ≤ length (hash_list l))%nat →
  ∃ cols, mamba_loop p gids l bs al n = Ok (rows_of k cols)
    ∧ (length cols ≤ n)%nat ∧ aligned bs al (Z.of_nat (length cols))
    ∧ hits_from (hash_list l) (length cols - 1) cols
    ∧ ∀ m, (length cols < m ≤ n)%nat → ¬ reusable l bs al 1 false m.
Proof using Hp Hg.
  induction n as [|n IH]; intros Hn.
  { exists []. split; [simpl; by rewrite rows_of_nil|]. split; [simpl; lia|]. split; [apply aligned_0|].
    split; [intros i Hi; simpl in Hi; lia|intros m Hm; simpl in Hm; lia]. }
  destruct (lookup_lt_is_Some_2 (hash_list l) n) as [h Hh]; [lia|].
  cbn [mamba_loop]. rewrite (bh_index_hash_list _ _ _ Hh). munfold. rewrite lookup_hit_run.
  assert (Hskip : (∀ m, m = S n → ¬ reusable l bs al 1 false m) →
    ∃ cols, mamba_loop p gids l bs al n = Ok (rows_of k cols)
    ∧ (length cols ≤ S n)%nat ∧ aligned bs al (Z.of_nat (length cols))
    ∧ hits_from (hash_list l) (length cols - 1) cols
    ∧ ∀ m, (length cols < m ≤ S n)%nat → ¬ reusable l bs al 1 false m).
  { intros Hno. destruct IH as (cols & E & H1 & H2 & H3 & H4); [lia|]. exists cols.
    split_and!; [done|lia|done|done|]. intros m Hm. destruct (decide (m = S n)); [by apply Hno|].
    apply H4. lia. }
  destruct (hit p gids h) as [cs|] eqn:Eh.
  2:{ apply Hskip. intros m -> [_ Hr]. destruct (Hr n) as (h' & ? & Ha%available_hit); [lia|]. by simplify_eq. }
  rewrite <-negb_orb. destruct ((bs =? al) || _) eqn:Eb; simpl.
  2:{ apply Hskip. intros m -> [Ha _]. apply orb_false_iff in Eb as [Eb1%Z.eqb_neq Eb2%Z.eqb_neq].
      rewrite Z.sub_0_r in Ha. replace (Z.of_nat (S n)) with (Z.of_nat n + 1) in Ha by lia.
      destruct Ha as [?|?]; done. }
  exists (replicate n (replicate k (null_block p)) ++ [cs]).
  rewrite length_app, length_replicate. simpl. split_and!.
  - f_equal. rewrite rows_of_nil. apply (zip_rows_of k [] cs _ (λ _ cs, replicate n (replicate k (null_block p)) ++ [cs]));
      [by eapply hit_length|].
    intros g c Hc. unfold row_of. simpl. rewrite fmap_app, fmap_replicate. simpl. rewrite Hc. simpl.
    rewrite lookup_replicate_2; [done|]. rewrite <-(hit_length _ _ Eh). by eapply lookup_lt_Some.
  - lia.
  - apply orb_true_iff in Eb as [Eb%Z.eqb_eq|Eb%Z.eqb_eq]; [by left|right].
    by replace (Z.of_nat (n + 1)) with (Z.of_nat n + 1) by lia.
  - intros i Hi. rewrite length_app, length_replicate in Hi. simpl in Hi. assert (i = n) as -> by lia.
    exists h, cs. split_and!; [done..|]. by rewrite lookup_app_r, length_replicate, Nat.sub_diag by (rewrite length_replicate; lia).
  - intros m Hm. lia.
Qed.

(** ** Chunked local attention *)

Lemma chunked_loop_of l M s cols :
  (M ≤ length (hash_list l))%nat → (s ≤ M)%nat → length cols = s →
  chunked_loop p gids l (zrange (Z.of_nat s) (Z.of_nat M)) (rows_of k cols)
    = Ok (rows_of k (cols ++ hit_prefix (take (M - s) (drop s (hash_list l))))).
Proof using Hp Hg.
  intros HM. remember (M - s)%nat as d eqn:Ed. revert s cols Ed.
  induction d as [|d IH]; intros s cols Ed Hs Hl; unfold zrange.
  { rewrite seqZ_nil by lia. rewrite take_0. simpl. by rewrite app_nil_r. }
  rewrite seqZ_cons by lia. destruct (lookup_lt_is_Some_2 (hash_list l) s) as [h Hh]; [lia|].
  cbn [chunked_loop]. rewrite (bh_index_hash_list _ _ _ Hh). munfold. rewrite lookup_hit_run.
  rewrite (drop_S _ _ _ Hh). simpl. destruct (hit p gids h) as [cs|] eqn:Eh; [|by rewrite app_nil_r].
  rewrite rows_of_append by (by eapply hit_length).
  specialize (IH (S s) (cols ++ [cs])). unfold zrange in IH.
  replace (Z.succ (Z.of_nat s)) with (Z.of_nat (S s)) by lia.
  replace (Z.pred (Z.of_nat M - Z.of_nat s)) with (Z.of_nat M - Z.of_nat (S s)) by lia.
  rewrite IH by (rewrite ?length_app; simpl; lia). by rewrite <-(assoc_L (++)).
Qed.

Lemma chunked_find_spec l max_length spec chunk al :
  let bs := layer_block_size spec in
  let M := Z.to_nat (max_length / bs) in
  let s := Z.to_nat (max_length / chunk * chunk / bs) in
  spec_chunk_size spec = Some chunk → 0 < bs → 0 < chunk → bs = al → 0 ≤ max_length →
  (M ≤ length (hash_list l))%nat →
  (s ≤ M)%nat ∧
  chunked_find_longest_cache_hit l max_length gids p spec false al 1 1
    = Ok (rows_of k (replicate s (replicate k (null_block p))
            ++ hit_prefix (take (M - s) (drop s (hash_list l))))).
Proof using Hp Hg.
  intros bs M s Hc Hbs Hch Hal Hmax HM. unfold chunked_find_longest_cache_hit. rewrite Hc. fold bs.
  rewrite (proj2 (Z.eqb_eq bs al)) by done. simpl.
  assert (Hcs : 0 ≤ max_length / chunk * chunk ≤ max_length).
  { pose proof (Z.div_mod max_length chunk ltac:(lia)). pose proof (Z.mod_pos_bound max_length chunk Hch).
    pose proof (Z.div_pos max_length chunk ltac:(lia) Hch). nia. }
  assert (0 ≤ max_length / chunk * chunk / bs ≤ max_length / bs) as Hs.
  { split; [apply Z.div_pos; lia|apply Z.div_le_mono; lia]. }
  replace (if 0 <? max_length then max_length / chunk * chunk else 0) with (max_length / chunk * chunk).
  2:{ destruct (Z.ltb_spec 0 max_length); [done|]. assert (max_length = 0) as -> by lia. by rewrite Z.div_0_l by lia. }
  split; [unfold s, M; lia|]. rewrite rows_of_null. fold s.
  replace (max_length / chunk * chunk / bs) with (Z.of_nat s) by (unfold s; lia).
  replace (max_length / bs) with (Z.of_nat M) by (unfold M; lia).
  apply chunked_loop_of; [done|unfold s, M; lia|by rewrite length_replicate].
Qed.

Lemma hits_from_app_null hs s (nulls : list (list loc)) n :
  length nulls = s →
  hits_from hs s (nulls ++ hit_prefix (take n (drop s hs))).
Proof.
  intros Hl i Hi. rewrite length_app in Hi.
  destruct (hit_prefix_hits (take n (drop s hs))) as [Hh Hle].
  destruct (Hh (i - s)%nat) as (h & cs & H1 & H2 & H3); [lia|].
  exists h, cs. rewrite length_take in Hle. rewrite lookup_take_lt, lookup_drop in H1 by lia.
  replace (s + (i - s))%nat with i in H1 by lia. split_and!; [done..|].
  rewrite lookup_app_r by lia. by rewrite Hl.
Qed.
End hits.

(** ** What every manager class promises to the coordinators *)

(** A lookup problem: a pool, the groups and the hashes, with enough hashes for the
    asked length. *)
Record lookup_pre (p : BlockPool) (free : list loc) (gids : list Z) (l : BlockHashList)
    (max_length : Z) (spec : LayerSpec) (al : Z) : Prop := {
  lp_pool : pool_inv p free [];
  lp_gids : gids_ok gids;
  lp_bs : 0 < layer_block_size spec;
  lp_al : 0 < al;
  lp_max : 0 ≤ max_length;
  lp_hashes : (Z.to_nat (max_length / layer_block_size spec) ≤ length (hash_list l))%nat
}.

(** The first block of an [n]-block prefix that attention at its end still reads. *)
Definition first_needed (cls : ManagerClass) (spec : LayerSpec) (n : nat) : nat :=
  Z.to_nat (skipped_tokens cls spec (Z.of_nat n * layer_block_size spec) / layer_block_size spec).

(** [rows] is a hit of [n] blocks: within the limit (with a block to spare when the
    last one was dropped for EAGLE), on the alignment, and every block that is
    still needed carries the key of its position and group. *)
Record cache_hit (cls : ManagerClass) (p : BlockPool) (gids : list Z) (l : BlockHashList)
    (max_length : Z) (spec : LayerSpec) (e : bool) (al : Z) (rows : list (list loc)) (n : nat) : Prop := {
  ch_result : hit_result p gids rows (hash_list l) (first_needed cls spec n) n;
  ch_max : Z.of_nat n * layer_block_size spec ≤ max_length;
  ch_aligned : aligned (layer_block_size spec) al (Z.of_nat n);
  ch_eagle : e = true → n = 0%nat ∨ (Z.of_nat n + 1) * layer_block_size spec ≤ max_length
}.

Class HitFinder (cls : ManagerClass) (ok : LayerSpec → bool → Z → Prop) := find_hit :
  ∀ p free gids l max_length spec e al,
    lookup_pre p free gids l max_length spec al → ok spec e al →
    ∃ rows n, find_longest_cache_hit cls l max_length gids p spec e al 1 1 = Ok rows
      ∧ cache_hit cls p gids l max_length spec e al rows n.

Lemma blocks_within n max_length bs :
  0 < bs → 0 ≤ max_length → (n ≤ Z.to_nat (max_length / bs))%nat → Z.of_nat n * bs ≤ max_length.
Proof.
  intros Hb Hm Hn. pose proof (Z.div_mod max_length bs ltac:(lia)).
  pose proof (Z.mod_pos_bound max_length bs Hb). pose proof (Z.div_pos max_length bs Hm Hb). nia.
Qed.

Definition full_ok (spec : LayerSpec) (e : bool) (al : Z) : Prop := is_FullAttentionSpec spec = true.
Definition swa_ok (spec : LayerSpec) (e : bool) (al : Z) : Prop :=
  ∃ w, spec_sliding_window spec = Some w ∧ 1 < w.
Definition mamba_ok (spec : LayerSpec) (e : bool) (al : Z) : Prop :=
  mamba_fields spec ≠ None ∧ e = false.
(** The chunk is made of whole blocks. *)
Definition chunked_ok (spec : LayerSpec) (e : bool) (al : Z) : Prop :=
  ∃ c, spec_chunk_size spec = Some c ∧ 0 < c ∧ c mod layer_block_size spec = 0
    ∧ layer_block_size spec = al ∧ e = false.

#[export] Instance full_finder : HitFinder FullAttentionManager full_ok.
Proof.
  intros p free gids l max_length spec e al [Hp Hg Hb Ha Hm Hh] Hok. unfold find_longest_cache_hit.
  set (bs := layer_block_size spec) in *.
  pose proof (full_find_spec p free Hp gids Hg l max_length spec e al 1 1) as Hf.
  simpl in Hf. rewrite Z.mul_1_r in Hf. fold bs in Hf. rewrite Hf by done. clear Hf.
  set (hs := take (Z.to_nat (max_length / bs)) (hash_list l)).
  destruct (hit_prefix_hits p gids hs) as [Hhits Hlen].
  destruct (align_down_spec bs al (length (hit_prefix p gids hs) - if e then 1 else 0)) as (Hn1 & Hn2 & _).
  set (n := align_down bs al _) in *.
  assert (Hhs : length hs = Z.to_nat (max_length / bs)) by (unfold hs; rewrite length_take; lia).
  assert (length (take n (hit_prefix p gids hs)) = n) as Hln by (rewrite length_take; lia).
  eexists _, n. split; [done|]. split; [| |done|].
  - pose proof (hit_result_of p free Hp gids Hg (hash_list l) 0 (take n (hit_prefix p gids hs))) as Hr.
    rewrite Hln in Hr. apply Hr; [|lia].
    intros i Hi. rewrite length_take in Hi. destruct (Hhits i) as (h & cs & H1 & H2 & H3); [lia|].
    exists h, cs. unfold hs in H1. rewrite lookup_take_lt in H1 by lia. split_and!; [done..|].
    by rewrite lookup_take_lt by lia.
  - apply blocks_within; [done|done|]. fold bs. lia.
  - intros ->. destruct (decide (n = 0%nat)) as [|Hn0]; [by left|right].
    replace (Z.of_nat n + 1) with (Z.of_nat (S n)) by lia. apply blocks_within; [done|done|]. fold bs. lia.
Qed.

Lemma swa_first_needed spec w n :
  spec_sliding_window spec = Some w → 0 < layer_block_size spec → 1 < w →
  (n - window_blocks w (layer_block_size spec) ≤ first_needed SlidingWindowManager spec n)%nat.
Proof.
  intros Hw Hb Hw1. unfold first_needed, window_blocks. simpl. rewrite Hw. simpl.
  set (bs := layer_block_size spec) in *. pose proof (cdiv_spec (w - 1) bs Hb).
  assert (Z.of_nat n - cdiv (w - 1) bs ≤ (Z.of_nat n * bs - w + 1) / bs).
  { apply Z.div_le_lower_bound; [done|]. nia. }
  assert ((Z.of_nat n * bs - w + 1) / bs ≤ Z.max 0 (Z.of_nat n * bs - w + 1) / bs).
  { apply Z.div_le_mono; lia. }
  lia.
Qed.

Lemma hits_from_weaken p gids hs lo lo' cols :
  (lo ≤ lo')%nat → hits_from p gids hs lo cols → hits_from p gids hs lo' cols.
Proof. intros Hl Hh i Hi. apply Hh. lia. Qed.

#[export] Instance swa_finder : HitFinder SlidingWindowManager swa_ok.
Proof.
  intros p free gids l max_length spec e al [Hp Hg Hb Ha Hm Hh] (w & Hw & Hw1). unfold find_longest_cache_hit.
  destruct (swa_find_spec p free Hp gids Hg l max_length spec w e al Hw Hb Ha Hw1 Hh)
    as (cols & -> & Hlen & Hal & Hhits & He & _).
  eexists _, (length cols). split; [done|]. split; [| |done|].
  - eapply hit_result_of; [done|done| |lia]. eapply hits_from_weaken; [|done].
    by apply swa_first_needed.
  - by apply blocks_within.
  - intros Het. destruct (decide (cols = [])) as [->|Hne]; [by left|right].
    replace (Z.of_nat (length cols) + 1) with (Z.of_nat (S (length cols))) by lia.
    apply blocks_within; [done|done|]. specialize (He Het Hne). lia.
Qed.

#[export] Instance mamba_finder : HitFinder MambaManager mamba_ok.
Proof.
  intros p free gids l max_length spec e al [Hp Hg Hb Ha Hm Hh] [Hok ->]. unfold find_longest_cache_hit.
  unfold mamba_find_longest_cache_hit. destruct spec as [| | | | | | | |m| |]; try done. simpl in *.
  destruct (mamba_loop_of p free Hp gids Hg l (m_block_size m) al (Z.to_nat (max_length / m_block_size m)) Hh)
    as (cols & -> & Hlen & Hal & Hhits & _).
  eexists _, (length cols). split; [done|]. split; [| |done|done].
  - eapply hit_result_of; [done|done| |lia]. eapply hits_from_weaken; [|done].
    unfold first_needed. simpl.
    assert (Z.of_nat (length cols) - 1 ≤ (Z.of_nat (length cols) * m_block_size m - 1) / m_block_size m).
    { apply Z.div_le_lower_bound; [done|]. nia. }
    lia.
  - by apply blocks_within.
Qed.

#[export] Instance chunked_finder : HitFinder ChunkedLocalAttentionManager chunked_ok.
Proof.
  intros p free gids l max_length spec e al [Hp Hg Hb Ha Hm Hh] (c & Hc & Hc0 & Hdiv & Hal & ->).
  unfold find_longest_cache_hit. set (bs := layer_block_size spec) in *.
  destruct (chunked_find_spec p free Hp gids Hg l max_length spec c al Hc Hb Hc0 Hal Hm Hh) as [Hs ->].
  fold bs. fold bs in Hs. set (M := Z.to_nat (max_length / bs)) in *.
  set (s := Z.to_nat (max_length / c * c / bs)) in *.
  set (cols := replicate s _ ++ _).
  assert (Hlen : (s ≤ length cols ≤ M)%nat).
  { unfold cols. rewrite length_app, length_replicate.
    destruct (hit_prefix_hits p gids (take (M - s) (drop s (hash_list l)))) as [_ Hle].
    rewrite length_take, length_drop in Hle. lia. }
  assert (Hbound : Z.of_nat (length cols) * bs ≤ max_length)
    by (apply blocks_within; [done|done|fold M; lia]).
  eexists _, (length cols). split; [done|]. split; [|done|by left|done].
  eapply hit_result_of; [done|done| |lia].
  eapply hits_from_weaken; [|apply (hits_from_app_null p gids (hash_list l) s); apply length_replicate].
  unfold first_needed. simpl. rewrite Hc. simpl. fold bs.
  apply Z.mod_divide in Hdiv as [q Hq]; [|lia].
  assert (Hsv : Z.of_nat s * bs = max_length / c * c).
  { unfold s. rewrite Z2Nat.id by (apply Z.div_pos; [pose proof (Z.div_pos max_length c); nia|lia]).
    rewrite Hq, Z.mul_assoc. rewrite Z.div_mul by lia. lia. }
  assert (max_length / c = Z.of_nat (length cols) * bs / c) as Hchunk.
  { apply Z.le_antisymm; [|apply Z.div_le_mono; lia].
    apply Z.div_le_lower_bound; [lia|]. rewrite (Z.mul_comm c), <-Hsv. nia. }
  rewrite <-Hchunk. unfold s. lia.
Qed.

#[export] Instance sink_finder : HitFinder SinkFullAttentionManager full_ok.
Proof.
  intros p free gids l max_length spec e al Hpre Hok.
  destruct (full_finder p free gids l max_length spec e al Hpre Hok) as (rows & n & E & [H1 H2 H3 H4]).
  exists rows, n. by split.
Qed.

(** The specs and options each class supports. *)
Definition finder_ok (cls : ManagerClass) : LayerSpec → bool → Z → Prop :=
  match cls with
  | FullAttentionManager | SinkFullAttentionManager => full_ok
  | SlidingWindowManager => swa_ok
  | ChunkedLocalAttentionManager => chunked_ok
  | MambaManager => mamba_ok
  | CrossAttentionManager => λ _ _ _, False
  end.

#[export] Instance any_finder cls : HitFinder cls (finder_ok cls).
Proof. destruct cls; try apply _. by intros ????????? []. Qed.

(** C13. Prefix-cache hits are sound for full and sink attention, for sliding windows of
    more than one token, for chunked local attention whose chunks are whole blocks (C16
    shows why) and whose hits end on a block, and for Mamba, without context parallelism;
    the groups of the last two are no EAGLE groups, and cross-attention has no search. The
    search returns one row per group, all of the same length, ending on the alignment and within
    the limit; and every block that attention at the end of the hit can still read
    (those not counted by [get_num_skipped_tokens]) is a block of the pool carrying
    exactly the key of its position's hash and its group. *)
Theorem cache_hits_cover_attention cls p free gids l max_length spec e al :
  lookup_pre p free gids l max_length spec al → finder_ok cls spec e al →
  ∃ rows n, find_longest_cache_hit cls l max_length gids p spec e al 1 1 = Ok rows
    ∧ length rows = length gids ∧ Forall (λ row, length row = n) rows
    ∧ Z.of_nat n * layer_block_size spec ≤ max_length
    ∧ aligned (layer_block_size spec) al (Z.of_nat n)
    ∧ ∀ g gid row i b h, rows !! g = Some row → gids !! g = Some gid →
        row !! i = Some b → hash_list l !! i = Some h →
        skipped_tokens cls spec (Z.of_nat n * layer_block_size spec)
          < (Z.of_nat i + 1) * layer_block_size spec →
        holds p h gid b.
Proof.
  intros Hpre Hok. destruct (find_hit p free gids l max_length spec e al Hpre Hok)
    as (rows & n & E & [[H1 H2 H3 H4] H5 H6 H7]).
  exists rows, n. split_and!; [done..|]. intros g gid row i b h Hg Hgid Hb Hh Hneed.
  apply (H4 g gid row i b h Hg Hgid); [|done|done]. unfold first_needed.
  pose proof (lp_bs _ _ _ _ _ _ _ Hpre) as Hbs.
  assert (skipped_tokens cls spec (Z.of_nat n * layer_block_size spec) / layer_block_size spec
    < Z.of_nat i + 1); [|lia].
  apply Z.div_lt_upper_bound; lia.
Qed.

(** C14. A full-attention hit is as long as possible: any aligned prefix of [m]
    blocks that fits in the limit and whose blocks (plus the one to be dropped when
    EAGLE is on) are all available in every group is not longer than the hit. *)
Theorem full_hit_is_longest p free gids l max_length spec (e : bool) al :
  lookup_pre p free gids l max_length spec al → is_FullAttentionSpec spec = true →
  ∃ rows n, find_longest_cache_hit FullAttentionManager l max_length gids p spec e al 1 1 = Ok rows
    ∧ Forall (λ row, length row = n) rows
    ∧ ∀ m, aligned (layer_block_size spec) al (Z.of_nat m) →
        (Z.of_nat m + if e then 1 else 0) * layer_block_size spec ≤ max_length →
        (∀ i, (i < m + if e then 1 else 0)%nat → ∃ h, hash_list l !! i = Some h ∧ available p gids h) →
        (m ≤ n)%nat.
Proof.
  intros [Hp Hg Hb Ha Hm Hh] Hspec. unfold find_longest_cache_hit. set (bs := layer_block_size spec) in *.
  pose proof (full_find_spec p free Hp gids Hg l max_length spec e al 1 1) as Hf.
  simpl in Hf. rewrite Z.mul_1_r in Hf. fold bs in Hf. rewrite Hf by done. clear Hf.
  set (hs := take (Z.to_nat (max_length / bs)) (hash_list l)).
  destruct (hit_prefix_hits p gids hs) as [Hhits Hlen].
  destruct (align_down_spec bs al (length (hit_prefix p gids hs) - if e then 1 else 0)) as (Hn1 & Hn2 & Hn3).
  set (n := align_down bs al _) in *. eexists _, n. split; [done|]. split.
  { apply rows_of_Forall. intros g _. rewrite length_row_of, length_take. lia. }
  intros m Hal Hmax Hav. apply Hn3; [|done].
  assert (m + (if e then 1 else 0) ≤ length (hit_prefix p gids hs))%nat; [|lia].
  apply (hit_prefix_longest p free Hp gids Hg). intros i Hi. destruct (Hav i Hi) as (h & Hhi & ?).
  exists h. split; [|done]. unfold hs. rewrite lookup_take_lt; [done|].
  assert (Z.of_nat i + 1 ≤ max_length / bs); [|lia].
  apply Z.div_le_lower_bound; [done|]. destruct e; nia.
Qed.

(** C15. A sliding-window hit (without EAGLE) and a Mamba hit are as long as
    possible: no longer prefix that ends on the alignment has its last blocks (the
    ones the window reads, or the last one for Mamba) available in every group. *)
Theorem window_hit_is_longest cls p free gids l max_length spec al need :
  lookup_pre p free gids l max_length spec al →
  (cls = SlidingWindowManager ∧ (∃ w, spec_sliding_window spec = Some w ∧ 1 < w
     ∧ need = window_blocks w (layer_block_size spec))) ∨
  (cls = MambaManager ∧ mamba_fields spec ≠ None ∧ need = 1%nat) →
  ∃ rows n, find_longest_cache_hit cls l max_length gids p spec false al 1 1 = Ok rows
    ∧ Forall (λ row, length row = n) rows
    ∧ ∀ m, Z.of_nat m * layer_block_size spec ≤ max_length →
        reusable p gids l (layer_block_size spec) al need false m → (m ≤ n)%nat.
Proof.
  intros [Hp Hg Hb Ha Hm Hh] Hcls. set (bs := layer_block_size spec) in *.
  assert (Hfits : ∀ m, Z.of_nat m * bs ≤ max_length → (m ≤ Z.to_nat (max_length / bs))%nat).
  { intros m Hmm. assert (Z.of_nat m ≤ max_length / bs); [apply Z.div_le_lower_bound; lia|lia]. }
  destruct Hcls as [(-> & w & Hw & Hw1 & ->)|(-> & Hmf & ->)].
  - destruct (swa_find_spec p free Hp gids Hg l max_length spec w false al Hw Hb Ha Hw1 Hh)
      as (cols & E & _ & _ & _ & _ & Hmax).
    eexists _, (length cols). split; [exact E|]. split.
    { apply rows_of_Forall. intros g _. apply length_row_of. }
    intros m Hmm Hr. destruct (decide (m ≤ length cols)%nat); [done|exfalso].
    apply (Hmax eq_refl m); [split; [lia|by apply Hfits]|done].
  - destruct spec as [| | | | | | | |mf| |]; try done. simpl in *.
    destruct (mamba_loop_of p free Hp gids Hg l (m_block_size mf) al _ Hh) as (cols & E & _ & _ & _ & Hmax).
    eexists _, (length cols). split; [exact E|]. split.
    { apply rows_of_Forall. intros g _. apply length_row_of. }
    intros m Hmm Hr. destruct (decide (m ≤ length cols)%nat); [done|exfalso].
    apply (Hmax m); [split; [lia|by apply Hfits]|done].
Qed.

(** C16. Chunked local attention with a chunk that is not a whole number of blocks:
    for a limit of exactly one chunk the search reports [c / bs] null blocks as a
    hit, without any lookup, although no token before the end of that hit is
    skipped: the next token attends to all of them. *)
Theorem chunked_hit_needs_whole_blocks p free gids l spec c al :
  lookup_pre p free gids l c spec al → spec_chunk_size spec = Some c →
  layer_block_size spec = al → al < c → c mod al ≠ 0 →
  find_longest_cache_hit ChunkedLocalAttentionManager l c gids p spec false al 1 1
    = Ok (replicate (length gids) (replicate (Z.to_nat (c / al)) (null_block p)))
  ∧ 0 < c / al
  ∧ skipped_tokens ChunkedLocalAttentionManager spec (c / al * al) = 0.
Proof.
  intros [Hp Hg Hb Ha Hm Hh] Hc Hbs Hlt Hnd. unfold find_longest_cache_hit.
  destruct (chunked_find_spec p free Hp gids Hg l c spec c al Hc Hb ltac:(lia) Hbs Hm Hh) as [_ ->].
  rewrite Hbs. rewrite (Z.div_same c), Z.mul_1_l, Nat.sub_diag by lia.
  rewrite take_0. simpl. rewrite app_nil_r, <-rows_of_null.
  assert (0 < c / al) by (apply Z.div_str_pos; lia).
  split; [done|]. split; [done|]. rewrite Hc. simpl.
  pose proof (Z.div_mod c al ltac:(lia)). pose proof (Z.mod_pos_bound c al Ha).
  rewrite Z.div_small; [lia|]. nia.
Qed.

(** ** Witnesses *)

Definition demo_attention (bs : Z) : AttentionSpec := mkAttentionSpec bs 1 64 (mkDtype "bfloat16" 2) QUANT_NONE None.
Definition demo_full (bs : Z) : LayerSpec := FullAttentionSpec (demo_attention bs) (mkFull 64 None None).
Definition demo_swa (bs w : Z) : LayerSpec := SlidingWindowSpec (demo_attention bs) w 64.
Definition demo_chunked (bs c : Z) : LayerSpec := ChunkedLocalAttentionSpec (demo_attention bs) c.

Lemma demo_lookup_pre n l max_length spec al :
  0 < n → 0 < layer_block_size spec → 0 < al → 0 ≤ max_length →
  (Z.to_nat (max_length / layer_block_size spec) ≤ length (hash_list l))%nat →
  ∃ p, new_block_pool n true 4 false false false = Ok p ∧
    lookup_pre p (Block <$> seq 1 (Z.to_nat n - 1)) [0] l max_length spec al.
Proof.
  intros Hn Hb Ha Hm Hh. destruct (new_block_pool_spec n true 4 false false false Hn) as (p & E & Hp & _).
  exists p. split; [done|]. split; try done. split; [done|]. by repeat constructor.
Qed.

Definition demo_hashes : BlockHashList := HashList [[x01]; [x02]; [x03]].

Lemma cache_hits_cover_attention_witness :
  ∃ p rows n, new_block_pool 8 true 4 false false false = Ok p
    ∧ find_longest_cache_hit SlidingWindowManager demo_hashes 12 [0] p (demo_swa 4 6) true 4 1 1 = Ok rows
    ∧ length rows = 1%nat ∧ Forall (λ row, length row = n) rows ∧ Z.of_nat n * 4 ≤ 12.
Proof.
  destruct (demo_lookup_pre 8 demo_hashes 12 (demo_swa 4 6) 4) as (p & E & Hpre);
    [done|done|done|done|vm_compute; lia|].
  destruct (cache_hits_cover_attention SlidingWindowManager p _ [0] demo_hashes 12 (demo_swa 4 6) true 4 Hpre)
    as (rows & n & H1 & H2 & H3 & H4 & _); [by exists 6|].
  by exists p, rows, n.
Defined.

Lemma full_hit_is_longest_witness :
  ∃ p rows n, new_block_pool 8 true 4 false false false = Ok p
    ∧ find_longest_cache_hit FullAttentionManager demo_hashes 12 [0] p (demo_full 4) false 8 1 1 = Ok rows
    ∧ Forall (λ row, length row = n) rows.
Proof.
  destruct (demo_lookup_pre 8 demo_hashes 12 (demo_full 4) 8) as (p & E & Hpre);
    [done|done|done|done|vm_compute; lia|].
  destruct (full_hit_is_longest p _ [0] demo_hashes 12 (demo_full 4) false 8 Hpre) as (rows & n & H1 & H2 & _);
    [by vm_compute|]. by exists p, rows, n.
Defined.

Lemma window_hit_is_longest_witness :
  ∃ p rows n, new_block_pool 8 true 4 false false false = Ok p
    ∧ find_longest_cache_hit SlidingWindowManager demo_hashes 12 [0] p (demo_swa 4 6) false 4 1 1 = Ok rows
    ∧ Forall (λ row, length row = n) rows.
Proof.
  destruct (demo_lookup_pre 8 demo_hashes 12 (demo_swa 4 6) 4) as (p & E & Hpre);
    [done|done|done|done|vm_compute; lia|].
  destruct (window_hit_is_longest SlidingWindowManager p _ [0] demo_hashes 12 (demo_swa 4 6) 4 2 Hpre)
    as (rows & n & H1 & H2 & _); [left; split; [done|]; by exists 6|]. by exists p, rows, n.
Defined.

Lemma chunked_hit_needs_whole_blocks_witness :
  ∃ p, new_block_pool 8 true 4 false false false = Ok p
    ∧ find_longest_cache_hit ChunkedLocalAttentionManager demo_hashes 6 [0] p (demo_chunked 4 6) false 4 1 1
      = Ok [[null_block p]]
    ∧ skipped_tokens ChunkedLocalAttentionManager (demo_chunked 4 6) 4 = 0.
Proof.
  destruct (demo_lookup_pre 8 demo_hashes 6 (demo_chunked 4 6) 4) as (p & E & Hpre);
    [done|done|done|done|vm_compute; lia|].
  destruct (chunked_hit_needs_whole_blocks p _ [0] demo_hashes (demo_chunked 4 6) 6 4 Hpre) as (H1 & _ & H2); try done.
  by exists p.
Defined.
