(* ===== verification/Coordinator.v ===== *)
(** * The KV-cache coordinator: definitions

    Models [vllm/v1/core/kv_cache_coordinator.py]: the coordinator of the managers
    of all KV-cache groups over one shared block pool, in its three classes
    (no prefix caching, one group, several groups). *)

From Stdlib Require Import ZArith Lia.
From S2P Require Import Prelude MathUtils KVSpec FreeQueue Request BlockHash BlockPool SingleType.
Local Open Scope Z_scope.

Inductive CoordinatorClass :=
  | KVCacheCoordinatorNoPrefixCache
  | UnitaryKVCacheCoordinator
  | HybridKVCacheCoordinator.
#[global] Instance CoordinatorClass_eq_dec : EqDecision CoordinatorClass.
Proof. solve_decision. Defined.

Record SpecGroup := mkSpecGroup {
  sg_spec : LayerSpec;
  sg_group_ids : list nat;
  sg_manager_cls : ManagerClass;
  sg_use_eagle : bool
}.

Record Coordinator := mkCoordinator {
  co_class : CoordinatorClass;
  co_kv_cache_groups : list KVCacheGroupSpec;
  co_max_model_len : Z;
  co_enable_caching : bool;
  co_scheduler_block_size : Z;
  co_block_pool : BlockPool;
  eagle_group_ids : gset nat;
  single_type_managers : list Manager;
  retention_interval : option Z;
  co_hash_block_size : Z;
  co_block_size : Z;
  co_dcp_world_size : Z;
  co_pcp_world_size : Z;
  attention_groups : list SpecGroup;
  num_uncached_common_prefix_tokens : Z
}.

Definition co_set_block_pool (v : BlockPool) (r : Coordinator) : Coordinator :=
  mkCoordinator (co_class r) (co_kv_cache_groups r) (co_max_model_len r) (co_enable_caching
    r) (co_scheduler_block_size r) v (eagle_group_ids r) (single_type_managers r)
    (retention_interval r) (co_hash_block_size r) (co_block_size r) (co_dcp_world_size r)
    (co_pcp_world_size r) (attention_groups r) (num_uncached_common_prefix_tokens r).
Definition co_set_single_type_managers (v : list Manager) (r : Coordinator) : Coordinator :=
  mkCoordinator (co_class r) (co_kv_cache_groups r) (co_max_model_len r) (co_enable_caching
    r) (co_scheduler_block_size r) (co_block_pool r) (eagle_group_ids r) v
    (retention_interval r) (co_hash_block_size r) (co_block_size r) (co_dcp_world_size r)
    (co_pcp_world_size r) (attention_groups r) (num_uncached_common_prefix_tokens r).
Definition co_set_attention_groups (v : list SpecGroup) (r : Coordinator) : Coordinator :=
  mkCoordinator (co_class r) (co_kv_cache_groups r) (co_max_model_len r) (co_enable_caching
    r) (co_scheduler_block_size r) (co_block_pool r) (eagle_group_ids r)
    (single_type_managers r) (retention_interval r) (co_hash_block_size r) (co_block_size r)
    (co_dcp_world_size r) (co_pcp_world_size r) v (num_uncached_common_prefix_tokens r).
Definition co_set_num_uncached_common_prefix_tokens (v : Z) (r : Coordinator) : Coordinator :=
  mkCoordinator (co_class r) (co_kv_cache_groups r) (co_max_model_len r) (co_enable_caching
    r) (co_scheduler_block_size r) (co_block_pool r) (eagle_group_ids r)
    (single_type_managers r) (retention_interval r) (co_hash_block_size r) (co_block_size r)
    (co_dcp_world_size r) (co_pcp_world_size r) (attention_groups r) v.


Abbreviation C := (M Coordinator).

(** Run a method of the [i]-th manager with the shared pool. *)
Definition on_manager {A} (i : nat) (f : G A) : C A := λ c,
  match single_type_managers c !! i with
  | None => Err IndexError
  | Some m =>
      match f (m, co_block_pool c) with
      | Err e => Err e
      | Ok (a, (m', p')) =>
          Ok (a, co_set_single_type_managers (<[i := m']> (single_type_managers c))
                   (co_set_block_pool p' c))
      end
  end.

(** [[f i for i in range(n, n + k)]] *)
Fixpoint mapM_from {St A} (f : nat → M St A) (n k : nat) : M St (list A) :=
  match k with
  | O => mret []
  | S k => x ← f n; xs ← mapM_from f (S n) k; mret (x :: xs)
  end.

(** The comprehension over [enumerate(self.single_type_managers)]. *)
Definition for_managers {A} (f : nat → C A) : C (list A) :=
  c ← get; mapM_from f 0 (length (single_type_managers c)).

Definition nth_blocks (new_computed_blocks : list (list loc)) (i : nat) : result (list loc) :=
  match new_computed_blocks !! i with Some bs => Ok bs | None => Err IndexError end.

Definition is_cross (c : Coordinator) (i : nat) : bool :=
  match single_type_managers c !! i with
  | Some m => bool_decide (mg_class m = CrossAttentionManager)
  | None => false
  end.

Definition co_get_num_blocks_to_allocate (request_id : string) (num_tokens : Z)
    (new_computed_blocks : list (list loc)) (num_encoder_tokens total_computed_tokens
    num_tokens_main_model : Z) (apply_admission_cap : bool) : C Z :=
  l ← for_managers (λ i,
    c ← get;
    if is_cross c i then
      on_manager i (get_num_blocks_to_allocate request_id num_encoder_tokens [] 0
                      num_encoder_tokens apply_admission_cap)
    else
      bs ← lift_result (nth_blocks new_computed_blocks i);
      on_manager i (get_num_blocks_to_allocate request_id num_tokens bs total_computed_tokens
                      num_tokens_main_model apply_admission_cap));
  mret (zsum l).

Definition co_allocate_new_computed_blocks (request_id : string)
    (new_computed_blocks : list (list loc))
    (num_local_computed_tokens num_external_computed_tokens : Z) : C unit :=
  _ ← for_managers (λ i,
    bs ← lift_result (nth_blocks new_computed_blocks i);
    on_manager i (allocate_new_computed_blocks request_id bs num_local_computed_tokens
                    num_external_computed_tokens));
  mret tt.

Definition co_allocate_new_blocks (request_id : string)
    (num_tokens num_tokens_main_model num_encoder_tokens : Z) : C (list (list loc)) :=
  for_managers (λ i,
    c ← get;
    on_manager i (allocate_new_blocks request_id
                    (if is_cross c i then num_encoder_tokens else num_tokens)
                    num_tokens_main_model)).

Definition co_free (request_id : string) : C unit :=
  _ ← for_managers (λ i, on_manager i (free request_id)); mret tt.

Definition co_get_num_common_prefix_blocks (running_request_id : string) : C (list Z) :=
  c ← get;
  match co_class c with
  | KVCacheCoordinatorNoPrefixCache => mret (replicate (length (single_type_managers c)) 0)
  | _ => for_managers (λ i, on_manager i (get_num_common_prefix_blocks running_request_id))
  end.

Definition co_remove_skipped_blocks (request_id : string) (total_computed_tokens : Z) : C unit :=
  _ ← for_managers (λ i, on_manager i (remove_skipped_blocks request_id total_computed_tokens)); mret tt.

(** [manager.req_to_blocks.get(request_id) or []] *)
Definition co_get_blocks (c : Coordinator) (request_id : string) : list (list loc) :=
  (λ m, default [] (req_to_blocks m !! request_id)) <$> single_type_managers c.

Definition co_new_step_starts : C unit :=
  _ ← for_managers (λ i, on_manager i new_step_starts); mret tt.

(** ** Construction *)

Definition _validate_prefix_cache_retention_interval (retention_interval : option Z)
    (scheduler_block_size : Z) (groups : list KVCacheGroupSpec) : result unit :=
  match retention_interval with
  | None => Ok tt
  | Some r =>
      if negb (existsb (λ g, match kv_cache_spec g with
                             | OneSpec s => is_SlidingWindowSpec s | _ => false end) groups)
      then Err ValueError
      else if (r <? 0) || negb (r mod scheduler_block_size =? 0) then Err ValueError
      else Ok tt
  end.

(** The managers of the groups, created in order over the shared pool. *)
Fixpoint new_managers (groups : list KVCacheGroupSpec) (i : Z) (max_batched max_len : Z)
    (caching : bool) (scheduler_block_size dcp pcp : Z) : P (list Manager) :=
  match groups with
  | [] => mret []
  | g :: groups =>
      m ← get_manager_for_kv_cache_spec (kv_cache_spec g) max_batched max_len caching i
            scheduler_block_size dcp pcp;
      ms ← new_managers groups (i + 1) max_batched max_len caching scheduler_block_size dcp pcp;
      mret (m :: ms)
  end.

Definition compute_eagle_group_ids (use_eagle : bool) (groups : list KVCacheGroupSpec) : gset nat :=
  let flagged : gset nat :=
    list_to_set (fst <$> filter (λ ig, is_eagle_group (snd ig) = true) (imap pair groups)) in
  if use_eagle && bool_decide (flagged = ∅) then list_to_set (seq 0 (length groups)) else flagged.

Definition new_base_coordinator (cls : CoordinatorClass) (cfg : KVCacheConfig)
    (max_model_len max_num_batched_tokens : Z) (use_eagle enable_caching events use_int metrics_on : bool)
    (dcp pcp scheduler_block_size hash_block_size : Z) (retention : option Z) : result Coordinator :=
  let groups := kv_cache_groups cfg in
  if negb ((scheduler_block_size mod hash_block_size =? 0)
           && forallb (λ g, scheduler_block_size mod spec_block_size (kv_cache_spec g) =? 0) groups)
  then Err AssertionError
  else
    p ← new_block_pool (num_blocks cfg) enable_caching hash_block_size events use_int metrics_on;
    '(ms, p) ← new_managers groups 0 max_num_batched_tokens max_model_len enable_caching
                 scheduler_block_size dcp pcp p;
    _ ← _validate_prefix_cache_retention_interval retention scheduler_block_size groups;
    Ok (mkCoordinator cls groups max_model_len enable_caching scheduler_block_size p
          (compute_eagle_group_ids use_eagle groups) ms retention hash_block_size 0 dcp pcp [] 0).

(** [verify_and_split_kv_cache_groups]: the loop over the groups from index [i]. *)
Fixpoint add_to_group (gs : list SpecGroup) (spec : LayerSpec) (i : nat) (cls : ManagerClass)
    (use_eagle : bool) : result (list SpecGroup) :=
  match gs with
  | [] => Ok [mkSpecGroup spec [i] cls use_eagle]
  | g :: gs =>
      if bool_decide (sg_spec g = spec) then
        if bool_decide (cls = sg_manager_cls g)
        then Ok (mkSpecGroup (sg_spec g) (sg_group_ids g ++ [i]) (sg_manager_cls g)
                   (sg_use_eagle g || use_eagle) :: gs)
        else Err AssertionError
      else gs ← add_to_group gs spec i cls use_eagle; Ok (g :: gs)
  end.

Fixpoint split_groups (eagle : gset nat) (ms : list Manager) (i : nat) (gs : list SpecGroup)
    : result (list SpecGroup) :=
  match ms with
  | [] => Ok gs
  | m :: ms =>
      gs ← add_to_group gs (mg_spec m) i (mg_class m) (bool_decide (i ∈ eagle));
      split_groups eagle ms (S i) gs
  end.

(** [sort(key=lambda g: not isinstance(g.spec, FullAttentionSpec))], which is stable. *)
Definition full_first (gs : list SpecGroup) : list SpecGroup :=
  filter (λ g, is_FullAttentionSpec (sg_spec g) = true) gs
  ++ filter (λ g, is_FullAttentionSpec (sg_spec g) = false) gs.

Definition propagate_eagle (gs : list SpecGroup) (ms : list Manager) : list Manager :=
  imap (λ i m, if existsb (λ g, sg_use_eagle g && bool_decide (i ∈ sg_group_ids g)) gs
               then mg_set_mg_use_eagle true m else m) ms.

Definition verify_and_split_kv_cache_groups (c : Coordinator) : result Coordinator :=
  gs ← split_groups (eagle_group_ids c) (single_type_managers c) 0 [];
  if negb (1 <? zlen gs) then Err AssertionError
  else
    let gs := full_first gs in
    Ok (co_set_single_type_managers (propagate_eagle gs (single_type_managers c))
          (co_set_attention_groups gs c)).

Definition unitary_block_size (spec : KVCacheSpec) (dcp pcp : Z) : Z :=
  spec_block_size spec * (if 1 <? dcp then dcp else 1) * (if 1 <? pcp then pcp else 1).

Definition get_kv_cache_coordinator (cfg : KVCacheConfig)
    (max_model_len max_num_batched_tokens : Z) (use_eagle enable_caching events use_int metrics_on : bool)
    (dcp pcp scheduler_block_size hash_block_size : Z) (retention : option Z) : result Coordinator :=
  let base cls caching :=
    new_base_coordinator cls cfg max_model_len max_num_batched_tokens use_eagle caching events use_int
      metrics_on dcp pcp scheduler_block_size hash_block_size retention in
  if negb enable_caching then base KVCacheCoordinatorNoPrefixCache false
  else
    match kv_cache_groups cfg with
    | [g] =>
        c ← base UnitaryKVCacheCoordinator enable_caching;
        let bs := unitary_block_size (kv_cache_spec g) dcp pcp in
        if negb (hash_block_size =? bs) then Err AssertionError
        else
          Ok (mkCoordinator (co_class c) (co_kv_cache_groups c) (co_max_model_len c)
                (co_enable_caching c) (co_scheduler_block_size c) (co_block_pool c) (eagle_group_ids c)
                (mg_set_mg_use_eagle (bool_decide (0%nat ∈ eagle_group_ids c)) <$> single_type_managers c)
                (retention_interval c) (co_hash_block_size c) bs dcp pcp [] 0)
    | groups =>
        c ← base HybridKVCacheCoordinator enable_caching;
        if negb (forallb (λ g, spec_block_size (kv_cache_spec g) mod hash_block_size =? 0) groups
                 && (dcp =? 1) && (pcp =? 1))
        then Err AssertionError
        else verify_and_split_kv_cache_groups c
    end.

(** ** Caching *)

Section caching.
Context `{HashConfig}.

(** The number of tokens a hybrid coordinator asks a manager to cache. *)
Definition hybrid_tokens_to_cache (scheduler_block_size num_computed_tokens : Z) (m : Manager) : Z :=
  let aligned := num_computed_tokens / scheduler_block_size * scheduler_block_size in
  if mg_use_eagle m && (0 <? aligned) then Z.min num_computed_tokens (aligned + mg_block_size m)
  else aligned.

Definition co_cache_blocks (r : Request) (num_computed_tokens : Z) : C unit :=
  _ ← for_managers (λ i,
    c ← get;
    on_manager i (
      m ← self;
      cache_blocks r
        (match co_class c with
         | HybridKVCacheCoordinator =>
             hybrid_tokens_to_cache (co_scheduler_block_size c) num_computed_tokens m
         | _ => num_computed_tokens
         end) (retention_interval c)));
  mret tt.
End caching.

(** ** Longest cache hits *)

(** [_get_block_hashes] *)
Definition _get_block_hashes (hash_block_size : Z) (block_hashes : list bytes) (spec : LayerSpec)
    : result BlockHashList :=
  if layer_block_size spec =? hash_block_size then Ok (HashList block_hashes)
  else l ← new_bhl block_hashes hash_block_size (layer_block_size spec); Ok (ScaledHashList l).

(** The variables of the fixed-point loop of the hybrid coordinator. *)
Record HitState := mkHit {
  curr_hit_length : Z;
  longest_hit_length : Z;
  hit_blocks_by_group : list (option (list loc));
  eagle_verified : gset nat
}.

(** [for group_id, blocks in zip(group_ids, hit_blocks): by_group[group_id] = blocks] *)
Fixpoint store_hits (gids : list nat) (rows : list (list loc)) (by_group : list (option (list loc)))
    : list (option (list loc)) :=
  match gids, rows with
  | g :: gids, row :: rows => store_hits gids rows (<[g := Some row]> by_group)
  | _, _ => by_group
  end.

Definition group_blocks (g : SpecGroup) (s : HitState) : result (option (list loc)) :=
  match sg_group_ids g with
  | [] => Err IndexError
  | gid :: _ => match hit_blocks_by_group s !! gid with Some b => Ok b | None => Err IndexError end
  end.

(** One iteration of the inner loop, for the attention group at [idx]. *)
Definition hit_step (c : Coordinator) (block_hashes : list bytes) (max_cache_hit_length : Z)
    (idx : nat) (g : SpecGroup) (s : HitState) : result HitState :=
  let spec := sg_spec g in
  let bs := layer_block_size spec in
  cached_blocks ← group_blocks g s;
  if is_FullAttentionSpec spec && bool_decide (cached_blocks ≠ None) then
    Ok (mkHit (curr_hit_length s / bs * bs) (longest_hit_length s) (hit_blocks_by_group s)
          (eagle_verified s))
  else
    let drop_eagle_block := sg_use_eagle g && negb (bool_decide (idx ∈ eagle_verified s)) in
    let _max_length :=
      if drop_eagle_block then Z.min (curr_hit_length s + bs) max_cache_hit_length
      else curr_hit_length s in
    hs ← _get_block_hashes (co_hash_block_size c) block_hashes spec;
    hit_blocks ← find_longest_cache_hit (sg_manager_cls g) hs _max_length
      (Z.of_nat <$> sg_group_ids g) (co_block_pool c) spec drop_eagle_block
      (co_scheduler_block_size c) 1 1;
    row ← py_index hit_blocks 0;
    let _new_hit_length := zlen row * bs in
    let verified :=
      if drop_eagle_block then {[idx]} ∪ eagle_verified s
      else if _new_hit_length <? curr_hit_length s then ∅ else eagle_verified s in
    Ok (mkHit _new_hit_length (Z.max (longest_hit_length s) _new_hit_length)
          (store_hits (sg_group_ids g) hit_blocks (hit_blocks_by_group s)) verified).

Fixpoint hit_pass (c : Coordinator) (block_hashes : list bytes) (max_cache_hit_length : Z)
    (idx : nat) (gs : list SpecGroup) (s : HitState) : result HitState :=
  match gs with
  | [] => Ok s
  | g :: gs =>
      s ← hit_step c block_hashes max_cache_hit_length idx g s;
      hit_pass c block_hashes max_cache_hit_length (S idx) gs s
  end.

Definition is_simple_hybrid (gs : list SpecGroup) : bool :=
  match gs with [g; _] => is_FullAttentionSpec (sg_spec g) | _ => false end.

(** [while True]; [None] when the fuel runs out. *)
Fixpoint hit_loop (fuel : nat) (c : Coordinator) (block_hashes : list bytes)
    (max_cache_hit_length hit_length : Z) (s : HitState) : result (option (Z * HitState)) :=
  match fuel with
  | O => Ok None
  | S fuel =>
      s ← hit_pass c block_hashes max_cache_hit_length 0 (attention_groups c)
            (mkHit hit_length (longest_hit_length s) (hit_blocks_by_group s) (eagle_verified s));
      if hit_length <=? curr_hit_length s then Ok (Some (hit_length, s))
      else if is_simple_hybrid (attention_groups c) then Ok (Some (curr_hit_length s, s))
      else hit_loop fuel c block_hashes max_cache_hit_length (curr_hit_length s) s
  end.

(** Truncate the blocks of the first group when it is full attention. *)
Definition truncate_full (gs : list SpecGroup) (hit_length : Z) (by_group : list (option (list loc)))
    : list (option (list loc)) :=
  match gs with
  | g :: _ =>
      if is_FullAttentionSpec (sg_spec g) then
        imap (λ i b, if bool_decide (i ∈ sg_group_ids g)
                     then take (Z.to_nat (hit_length / layer_block_size (sg_spec g))) <$> b else b) by_group
      else by_group
  | [] => by_group
  end.

Definition hybrid_find_longest_cache_hit (fuel : nat) (block_hashes : list bytes)
    (max_cache_hit_length : Z) : C (option (list (list loc) * Z)) :=
  c ← get;
  res ← lift_result (hit_loop fuel c block_hashes max_cache_hit_length max_cache_hit_length
          (mkHit max_cache_hit_length 0 (replicate (length (co_kv_cache_groups c)) None) ∅));
  match res with
  | None => mret None
  | Some (hit_length, s) =>
      let by_group := truncate_full (attention_groups c) hit_length (hit_blocks_by_group s) in
      _ ← modify (co_set_num_uncached_common_prefix_tokens (longest_hit_length s - hit_length));
      mret (Some (default [] <$> by_group, hit_length))
  end.

(** Fuel that suffices: the hit length shrinks by at least one per iteration. *)
Definition hit_fuel (max_cache_hit_length : Z) : nat := Z.to_nat max_cache_hit_length + 2.

Definition unitary_find_longest_cache_hit (c : Coordinator) (block_hashes : list bytes)
    (max_cache_hit_length : Z) : result (list (list loc) * Z) :=
  match single_type_managers c with
  | [] => Err IndexError
  | m :: _ =>
      hit_blocks ← find_longest_cache_hit (mg_class m) (HashList block_hashes) max_cache_hit_length [0]
        (co_block_pool c) (mg_spec m) (bool_decide (0%nat ∈ eagle_group_ids c)) (co_block_size c)
        (co_dcp_world_size c) (co_pcp_world_size c);
      row ← py_index hit_blocks 0;
      Ok (hit_blocks, zlen row * co_block_size c)
  end.

Definition co_find_longest_cache_hit (fuel : nat) (block_hashes : list bytes)
    (max_cache_hit_length : Z) : C (option (list (list loc) * Z)) :=
  c ← get;
  match co_class c with
  | KVCacheCoordinatorNoPrefixCache =>
      mret (Some (replicate (length (single_type_managers c)) [], 0))
  | UnitaryKVCacheCoordinator =>
      r ← lift_result (unitary_find_longest_cache_hit c block_hashes max_cache_hit_length);
      mret (Some r)
  | HybridKVCacheCoordinator => hybrid_find_longest_cache_hit fuel block_hashes max_cache_hit_length
  end.

(** [find_longest_cache_hit_per_group] *)
Fixpoint per_group_hits (c : Coordinator) (block_hashes : list bytes) (max_cache_hit_length : Z)
    (gs : list SpecGroup) (blocks : list (list loc)) (lengths : list Z)
    : result (list (list loc) * list Z) :=
  match gs with
  | [] => Ok (blocks, lengths)
  | g :: gs =>
      hs ← _get_block_hashes (co_hash_block_size c) block_hashes (sg_spec g);
      rows ← find_longest_cache_hit (sg_manager_cls g) hs max_cache_hit_length
        (Z.of_nat <$> sg_group_ids g) (co_block_pool c) (sg_spec g) (sg_use_eagle g)
        (co_scheduler_block_size c) 1 1;
      row ← py_index rows 0;
      let hit := zlen row * layer_block_size (sg_spec g) in
      per_group_hits c block_hashes max_cache_hit_length gs
        (foldl (λ acc gr, <[gr.1 := gr.2]> acc) blocks (zip (sg_group_ids g) rows))
        (foldl (λ acc gr, <[gr.1 := hit]> acc) lengths (zip (sg_group_ids g) rows))
  end.

Definition find_longest_cache_hit_per_group (c : Coordinator) (block_hashes : list bytes)
    (max_cache_hit_length : Z) : result (list (list loc) * list Z) :=
  let n := length (co_kv_cache_groups c) in
  per_group_hits c block_hashes max_cache_hit_length (attention_groups c)
    (replicate n []) (replicate n 0).
