(* ===== verification/CoordinatorSpec.v ===== *)
(** * The coordinator: ownership

    The loops of the coordinator over its managers, against the ledger: the
    managers together hold exactly the referenced blocks of the shared pool. *)

From Stdlib Require Import ZArith Lia.
From S2P Require Import Prelude MathUtils KVSpec FreeQueue Request BlockHash BlockPool Ledger SingleType ManagerSpec Coordinator.
Local Open Scope Z_scope.

Definition owned_all (ms : list Manager) : list loc := concat (owned <$> ms).
Definition fresh_all (ms : list Manager) : list loc := concat (fresh_of <$> ms).

#[global] Instance owned_all_perm : Proper ((≡ₚ) ==> (≡ₚ)) owned_all.
Proof. intros l l' Hl. unfold owned_all. by rewrite Hl. Qed.
#[global] Instance fresh_all_perm : Proper ((≡ₚ) ==> (≡ₚ)) fresh_all.
Proof. intros l l' Hl. unfold fresh_all. by rewrite Hl. Qed.

Lemma fresh_all_subset ms b : b ∈ fresh_all ms → b ∈ owned_all ms.
Proof.
  unfold fresh_all, owned_all. induction ms as [|m ms IH]; csimpl; [done|].
  rewrite !elem_of_app. intros [?%fresh_map_subset|?]; [by left|right; by apply IH].
Qed.

Record co_inv (c : Coordinator) (free : list loc) : Prop := {
  ci_ledger : ledger (co_block_pool c) free (owned_all (single_type_managers c))
                (fresh_all (single_type_managers c));
  ci_static : ∀ m, m ∈ single_type_managers c → mgr_static (co_block_pool c) m;
  ci_nodup : ∀ m rid, m ∈ single_type_managers c → NoDup (nonnull (blocks m rid));
  ci_cached : ∀ m rid, m ∈ single_type_managers c → 0 ≤ ncached m rid ≤ zlen (blocks m rid)
}.

(** The other managers. *)
Definition rest (c : Coordinator) (i : nat) : list Manager := delete i (single_type_managers c).

Lemma co_focus c free i m :
  co_inv c free → single_type_managers c !! i = Some m →
  mgr_inv (co_block_pool c) free (owned_all (rest c i)) (fresh_all (rest c i)) m.
Proof.
  intros [Hl Hs Hn Hc] Hi. assert (m ∈ single_type_managers c) by (by eapply list_elem_of_lookup_2).
  split; [by apply Hs| |apply fresh_all_subset|intros; by apply Hn|intros; by apply Hc].
  rewrite (delete_Permutation _ _ _ Hi) in Hl. done.
Qed.

(** The coordinator with manager [i] and the pool replaced. *)
Definition co_put (i : nat) (m : Manager) (p : BlockPool) (c : Coordinator) : Coordinator :=
  co_set_single_type_managers (<[i := m]> (single_type_managers c)) (co_set_block_pool p c).

Lemma on_manager_ok {A} i (f : G A) c m a m' p' :
  single_type_managers c !! i = Some m → f (m, co_block_pool c) = Ok (a, (m', p')) →
  on_manager i f c = Ok (a, co_put i m' p' c).
Proof. intros Hi E. unfold on_manager. by rewrite Hi, E. Qed.

Lemma co_put_same i m c : single_type_managers c !! i = Some m → co_put i m (co_block_pool c) c = c.
Proof. intros Hi. unfold co_put. destruct c. simpl in *. unfold co_set_single_type_managers. simpl. by rewrite list_insert_id. Qed.

Lemma insert_perm {A} (l : list A) i x y : l !! i = Some x → <[i := y]> l ≡ₚ y :: delete i l.
Proof.
  intros (l1 & l2 & -> & ->)%list_elem_of_split_length.
  rewrite insert_app_r_alt, Nat.sub_diag, delete_middle by done. simpl. by rewrite Permutation_middle.
Qed.

Lemma co_unfocus c free i m rid m' p' free' :
  co_inv c free → single_type_managers c !! i = Some m → same_config (co_block_pool c) p' → only rid m m' →
  mgr_inv p' free' (owned_all (rest c i)) (fresh_all (rest c i)) m' → co_inv (co_put i m' p' c) free'.
Proof.
  intros [Hl Hs Hn Hc] Hi Hcf Ho [Hs' Hl' _ Hn' Hc'].
  pose proof (insert_perm _ i m m' Hi) as Hperm. fold (rest c i) in Hperm.
  assert (Hmem : ∀ x, x ∈ <[i := m']> (single_type_managers c) → x = m' ∨ x ∈ single_type_managers c).
  { intros x. rewrite Hperm, (delete_Permutation _ _ _ Hi), !elem_of_cons. tauto. }
  split; simpl.
  - by rewrite Hperm.
  - intros x [->|Hx]%Hmem; [done|]. eapply (mgr_static_only _ _ rid); [done|done|by apply Hs].
  - intros x r [->|Hx]%Hmem; [done|by apply Hn].
  - intros x r [->|Hx]%Hmem; [done|by apply Hc].
Qed.

(** ** Loops over the managers *)

(** What a loop over the managers leaves alone. *)
Definition co_conf (c : Coordinator) :=
  (co_class c, co_kv_cache_groups c, co_max_model_len c, co_enable_caching c, co_scheduler_block_size c,
   eagle_group_ids c, retention_interval c, co_hash_block_size c, attention_groups c, co_block_size c,
   co_dcp_world_size c, co_pcp_world_size c).

(** [c] is [c0] after a loop has treated the managers before [i], with [Post]
    relating each manager to what it was. *)
Record upto (c0 : Coordinator) (Post : nat → Manager → Manager → Prop) (i : nat) (c : Coordinator) : Prop := {
  up_conf : co_conf c = co_conf c0;
  up_pool : same_config (co_block_pool c0) (co_block_pool c);
  up_length : length (single_type_managers c) = length (single_type_managers c0);
  up_done : ∀ j m0, (j < i)%nat → single_type_managers c0 !! j = Some m0 →
    ∃ m, single_type_managers c !! j = Some m ∧ Post j m0 m;
  up_todo : ∀ j, (i ≤ j)%nat → single_type_managers c !! j = single_type_managers c0 !! j
}.

Lemma upto_start c0 Post : upto c0 Post 0 c0.
Proof. split; [done|done|done|lia|done]. Qed.

Lemma upto_step c0 Post i c m m' p' :
  upto c0 Post i c → single_type_managers c0 !! i = Some m → Post i m m' →
  same_config (co_block_pool c) p' → upto c0 Post (S i) (co_put i m' p' c).
Proof.
  intros [H1 H2 H3 H4 H5] Hi HP Hc. split; simpl; [done|by etrans|by rewrite length_insert| |].
  - intros j m0 Hj Hm0. destruct (decide (j = i)) as [->|Hne].
    + assert (m0 = m) as -> by congruence. exists m'. split; [|done].
      apply list_lookup_insert_eq. rewrite H3. by eapply lookup_lt_Some.
    + rewrite list_lookup_insert_ne by done. apply H4; [lia|done].
  - intros j Hj. rewrite list_lookup_insert_ne by lia. apply H5. lia.
Qed.

(** The general rule: an invariant [I] of the loop, relating to the start what
    [Post] says of the managers already treated, and a result [Q] for each. *)
Lemma for_managers_ok {A} (f : nat → C A) (Post : nat → Manager → Manager → Prop) (Q : nat → A → Prop)
    (I : nat → Coordinator → Prop) c0 :
  I 0%nat c0 →
  (∀ i c m, single_type_managers c0 !! i = Some m → single_type_managers c !! i = Some m →
     upto c0 Post i c → I i c →
     ∃ a m' p', f i c = Ok (a, co_put i m' p' c) ∧ Q i a ∧ Post i m m' ∧ same_config (co_block_pool c) p'
       ∧ I (S i) (co_put i m' p' c)) →
  ∃ l c', for_managers f c0 = Ok (l, c') ∧ upto c0 Post (length (single_type_managers c0)) c'
    ∧ I (length (single_type_managers c0)) c' ∧ length l = length (single_type_managers c0)
    ∧ ∀ j a, l !! j = Some a → Q j a.
Proof.
  intros HI Hstep. unfold for_managers. mstep. set (N := length (single_type_managers c0)).
  assert (Hloop : ∀ k n c, (n + k)%nat = N → upto c0 Post n c → I n c →
    ∃ l c', mapM_from f n k c = Ok (l, c') ∧ upto c0 Post N c' ∧ I N c' ∧ length l = k
      ∧ ∀ j a, l !! j = Some a → Q (n + j)%nat a).
  { induction k as [|k IH]; intros n c Hnk Hup Hi.
    - exists [], c. rewrite Nat.add_0_r in Hnk. subst n. done.
    - destruct (lookup_lt_is_Some_2 (single_type_managers c0) n) as [m Hm]; [unfold N in *; lia|].
      destruct (Hstep n c m Hm) as (a & m' & p' & E & HQ & HP & Hc & HI'); [by rewrite (up_todo _ _ _ _ Hup)|done|done|].
      destruct (IH (S n) (co_put n m' p' c)) as (l & c' & E' & Hup' & HI'' & Hl & HQ');
        [lia|by eapply upto_step|done|].
      exists (a :: l), c'. cbn [mapM_from]. rewrite (bind_ok _ _ _ _ _ E), (bind_ok _ _ _ _ _ E').
      split; [done|]. split; [done|]. split; [done|]. split; [simpl; lia|].
      intros [|j] x Hx; simplify_eq/=; [by rewrite Nat.add_0_r|]. rewrite <-Nat.add_succ_comm. by apply HQ'. }
  destruct (Hloop N 0%nat c0) as (l & c' & E & Hup & HI' & Hl & HQ); [done|apply upto_start|done|].
  exists l, c'. done.
Qed.

(** ** Freeing and removing *)

Definition freed (rid : string) (_ : nat) (m m' : Manager) : Prop :=
  only rid m m' ∧ req_to_blocks m' = delete rid (req_to_blocks m)
  ∧ num_cached_block m' = delete rid (num_cached_block m).

Lemma co_free_spec c free rid :
  co_inv c free →
  ∃ c' free', co_free rid c = Ok (tt, c') ∧ co_inv c' free'
    ∧ upto c (freed rid) (length (single_type_managers c)) c' ∧ same_hashes (co_block_pool c) (co_block_pool c').
Proof.
  intros Hc. destruct (for_managers_ok (λ i, on_manager i (SingleType.free rid)) (freed rid) (λ _ _, True)
    (λ _ c', ∃ free', co_inv c' free' ∧ same_hashes (co_block_pool c) (co_block_pool c')) c)
    as (l & c' & E & Hup & (free' & Hc' & Hh) & _); [by exists free| |].
  - intros i c1 m Hm0 Hm _ (free1 & Hc1 & Hh1).
    destruct (free_spec _ _ _ _ _ rid (co_focus _ _ _ _ Hc1 Hm)) as (m' & p' & E & Hm' & Hcf & Hh & Ho & Hr & Hn).
    exists tt, m', p'. split; [by eapply on_manager_ok|]. split; [done|]. split; [done|]. split; [done|].
    eexists. split; [by eapply co_unfocus|]. intros j. simpl. by rewrite Hh, Hh1.
  - unfold co_free. rewrite (bind_ok _ _ _ _ _ E). by exists c', free'.
Qed.

Lemma co_remove_skipped_spec c free rid n :
  co_inv c free →
  ∃ c' free', co_remove_skipped_blocks rid n c = Ok (tt, c') ∧ co_inv c' free'
    ∧ upto c (λ _ m m', skipped rid m m' (settled_tokens m n)) (length (single_type_managers c)) c'
    ∧ same_hashes (co_block_pool c) (co_block_pool c').
Proof.
  intros Hc. destruct (for_managers_ok (λ i, on_manager i (remove_skipped_blocks rid n))
    (λ _ m m', skipped rid m m' (settled_tokens m n)) (λ _ _, True)
    (λ _ c', ∃ free', co_inv c' free' ∧ same_hashes (co_block_pool c) (co_block_pool c')) c)
    as (l & c' & E & Hup & (free' & Hc' & Hh) & _); [by exists free| |].
  - intros i c1 m Hm0 Hm _ (free1 & Hc1 & Hh1).
    destruct (remove_skipped_spec _ _ _ _ _ rid n (co_focus _ _ _ _ Hc1 Hm))
      as (m' & p' & free2 & E & Hm' & Hcf & Hh & Hsk & _).
    exists tt, m', p'. split; [by eapply on_manager_ok|]. split; [done|]. split; [done|]. split; [done|].
    eexists. split; [eapply co_unfocus; [done|done|done|apply (sk_only _ _ _ _ Hsk)|done]|].
    intros j. simpl. by rewrite Hh, Hh1.
  - unfold co_remove_skipped_blocks. rewrite (bind_ok _ _ _ _ _ E). by exists c', free'.
Qed.

(** ** Counting *)

Lemma zsum_lookup l i x : l !! i = Some x → zsum (drop i l) = x + zsum (drop (S i) l).
Proof. intros Hx. by rewrite (drop_S _ _ _ Hx). Qed.

Lemma base_count_nonneg m h rid T row total cap n :
  base_get_num_blocks_to_allocate m h rid T row total cap = Ok n → 0 ≤ n.
Proof.
  unfold base_get_num_blocks_to_allocate. case_bool_decide; [case_bool_decide; [|done]|]; intros [= <-]; [lia|].
  match goal with |- context [_get_num_evictable_blocks h ?r] => pose proof (evictable_nonneg h r) end. lia.
Qed.

(** The number counted for manager [m]. *)
Definition counted (c : Coordinator) (rid : string) (tokens enc total : Z) (cap : bool) (m : Manager)
    (row : list loc) (n : Z) : Prop :=
  base_get_num_blocks_to_allocate m (pool_heap (co_block_pool c)) rid (wanted_tokens m tokens enc)
    (count_row m row) (count_total m total) cap = Ok n.

Lemma co_count_spec c free rid tokens rows enc total main cap :
  co_inv c free → length rows = length (single_type_managers c) →
  (∀ i m row, single_type_managers c !! i = Some m → rows !! i = Some row →
     is_Some (num_cached_block m !! rid) → row = []) →
  ∃ l, co_get_num_blocks_to_allocate rid tokens rows enc total main cap c = Ok (zsum l, c)
    ∧ length l = length (single_type_managers c)
    ∧ ∀ i m row n, single_type_managers c !! i = Some m → rows !! i = Some row → l !! i = Some n →
        mg_class m = MambaManager ∧ n = num_gpu_blocks (co_block_pool c) + 1 ∨ counted c rid tokens enc total cap m row n.
Proof.
  intros Hc Hlen Hrows. unfold co_get_num_blocks_to_allocate.
  match goal with |- context [for_managers ?f] =>
    destruct (for_managers_ok f (λ _ m m', m' = m) (λ i n, ∀ m row, single_type_managers c !! i = Some m →
      rows !! i = Some row → mg_class m = MambaManager ∧ n = num_gpu_blocks (co_block_pool c) + 1 ∨ counted c rid tokens enc total cap m row n)
      (λ _ c', c' = c) c) as (l & c' & E & _ & -> & Hl & HQ) end; [done| |].
  - intros i c1 m Hm0 Hm _ ->.
    destruct (lookup_lt_is_Some_2 rows i) as [row Hrow]; [rewrite Hlen; by eapply lookup_lt_Some|].
    destruct (count_run _ _ _ _ _ rid tokens enc row total main cap (co_focus _ _ _ _ Hc Hm0))
      as (n & E & Hn); [by eapply Hrows|].
    exists n, m, (co_block_pool c). rewrite (co_put_same _ _ _ Hm0).
    split; [|split; [by intros m' row' ??; simplify_eq|done]].
    mstep. unfold is_cross. rewrite Hm. unfold count_call in E.
    rewrite <-(co_put_same _ _ _ Hm0) at 2.
    destruct (mg_class m) eqn:Ec; simpl; try (by eapply on_manager_ok);
      (unfold nth_blocks; rewrite Hrow; mstep; by eapply on_manager_ok).
  - rewrite (bind_ok _ _ _ _ _ E). exists l. split; [done|]. split; [done|].
    intros i m row n Hm Hrow Hn. by apply (HQ i n).
Qed.

(** ** Allocating *)

Definition wants (rid : string) (tokens enc : Z) (m : Manager) : Z := lacking m rid (wanted_tokens m tokens enc).

Lemma wants_nonneg rid tokens enc m : 0 ≤ wants rid tokens enc m.
Proof. unfold wants, lacking. lia. Qed.

(** What [allocate_new_blocks] promises: the request's blocks reach to the tokens
    asked for. *)
Definition grown (rid : string) (tokens enc : Z) (_ : nat) (m m' : Manager) : Prop :=
  only rid m m' ∧ num_cached_block m' = num_cached_block m
  ∧ (∃ new, blocks m' rid = blocks m rid ++ new ∧ zlen new = wants rid tokens enc m)
  ∧ wanted_tokens m tokens enc ≤ mg_block_size m * zlen (blocks m' rid).

Lemma wanted_cross m tokens enc : mg_class m = CrossAttentionManager → wanted_tokens m tokens enc = slot_tokens m enc.
Proof. unfold wanted_tokens, slot_tokens. by intros ->. Qed.
Lemma wanted_other m tokens enc : mg_class m ≠ CrossAttentionManager → wanted_tokens m tokens enc = slot_tokens m tokens.
Proof. unfold wanted_tokens. by destruct (mg_class m). Qed.

Lemma co_allocate_spec c free rid tokens main enc :
  co_inv c free → zsum (wants rid tokens enc <$> single_type_managers c) ≤ zlen free →
  ∃ l c' free', co_allocate_new_blocks rid tokens main enc c = Ok (l, c') ∧ co_inv c' free'
    ∧ upto c (grown rid tokens enc) (length (single_type_managers c)) c'
    ∧ length l = length (single_type_managers c)
    ∧ zlen free' = zlen free - zsum (wants rid tokens enc <$> single_type_managers c).
Proof.
  intros Hc Hsum. unfold co_allocate_new_blocks. set (W := wants rid tokens enc) in *.
  set (ms := single_type_managers c) in *.
  match goal with |- context [for_managers ?f] =>
    destruct (for_managers_ok f (grown rid tokens enc) (λ _ _, True)
      (λ i c', ∃ free', co_inv c' free' ∧ zlen free' - zsum (W <$> drop i ms) = zlen free - zsum (W <$> ms)) c)
      as (l & c' & E & Hup & (free' & Hc' & Hf) & Hl & _) end.
  - exists free. by rewrite drop_0.
  - intros i c1 m Hm0 Hm _ (free1 & Hc1 & Hf1).
    fold ms in Hm0. rewrite (drop_S _ _ _ Hm0) in Hf1. csimpl in Hf1.
    assert (0 ≤ zsum (W <$> drop (S i) ms)) as Hrest.
    { apply zsum_nonneg. intros x (y & -> & _)%list_elem_of_fmap. apply wants_nonneg. }
    assert (Hw : ∃ t, (if is_cross c1 i then enc else tokens) = t ∧ W m = lacking m rid (slot_tokens m t)
                      ∧ wanted_tokens m tokens enc = slot_tokens m t).
    { eexists. split; [done|]. unfold is_cross. rewrite Hm. unfold W, wants.
      destruct (decide (mg_class m = CrossAttentionManager)) as [Ec|Ec].
      - rewrite bool_decide_eq_true_2, wanted_cross by done. done.
      - rewrite bool_decide_eq_false_2, wanted_other by done. done. }
    destruct Hw as (t & Et & Hw & Hwt). pose proof (wants_nonneg rid tokens enc m) as Hw0. fold W in Hw0.
    destruct (allocate_spec _ _ _ _ _ rid t main (co_focus _ _ _ _ Hc1 Hm)) as (m' & p' & E & Hm' & Hcf & Ho & Hn & Hb & _);
      [rewrite <-Hw; lia|]. rewrite <-Hw in *.
    exists (take (Z.to_nat (W m)) free1), m', p'. split; [mstep; rewrite Et; by eapply on_manager_ok|].
    assert (zlen (take (Z.to_nat (W m)) free1) = W m) as Hnew by (apply zlen_take_free; lia).
    split; [done|]. split; [|split; [done|]].
    + split; [done|]. split; [done|]. split; [by eexists|]. rewrite Hb, zlen_app, Hnew.
      pose proof (ms_size _ _ (ci_static _ _ Hc1 m ltac:(by eapply list_elem_of_lookup_2))) as Hbs.
      apply cdiv_le_iff; [done|]. rewrite Hw, Hwt. unfold lacking. lia.
    + eexists. split; [by eapply co_unfocus|]. unfold zlen in *. rewrite length_drop. lia.
  - rewrite E. rewrite drop_ge in Hf by done. change (zsum (W <$> [])) with 0 in Hf.
    exists l, c', free'. split_and!; try done. lia.
Qed.

(** ** Blocks of a cache hit *)

(** A request the managers hold nothing for yet. *)
Definition new_request_in (m : Manager) (rid : string) : Prop :=
  num_cached_block m !! rid = None ∧ blocks m rid = [].

(** One row of a hit per manager, for [total] computed tokens. *)
Record hit_ok (c : Coordinator) (rid : string) (rows : list (list loc)) (total ext : Z) : Prop := {
  ho_length : length rows = length (single_type_managers c);
  ho_total : 0 ≤ total;
  ho_new : ∀ m, m ∈ single_type_managers c → new_request_in m rid;
  ho_rows : ∀ i m row, single_type_managers c !! i = Some m → rows !! i = Some row →
    row_ok (co_block_pool c) (kept_row m row total) ∧ zlen row ≤ total / mg_block_size m
    ∧ (mg_class m = CrossAttentionManager → row = []);
  (** external tokens are supported for a single group only *)
  ho_ext : ext ≤ 0 ∨ (length (single_type_managers c) ≤ 1)%nat
}.

(** What [allocate_new_computed_blocks] promises. *)
Definition hit_taken (rid : string) (rows : list (list loc)) (total ext : Z) (i : nat) (m m' : Manager) : Prop :=
  only rid m m' ∧
  (mg_class m = CrossAttentionManager ∧ m' = m ∨
   mg_class m ≠ CrossAttentionManager ∧ ∃ row new, rows !! i = Some row
     ∧ blocks m' rid = hit_blocks m row total ++ new ∧ zlen new = external_blocks m row total ext
     ∧ num_cached_block m' !! rid = Some (zlen (hit_blocks m row total))).

Lemma row_ok_same p p' row : same_config p p' → same_hashes p p' → row_ok p row → row_ok p' row.
Proof.
  intros Hc Hh [H1 H2 H3 H4]. split; [by eapply in_pool_config|done| |].
  - intros i Hi Hb. rewrite Hh. by apply H3.
  - destruct Hc as (_ & -> & _). done.
Qed.

Lemma only_wanted rid m m' tokens enc : only rid m m' → wanted_tokens m' tokens enc = wanted_tokens m tokens enc.
Proof.
  intros [A _ _]. unfold conf in A. injection A as Ec Es Eb _ _ _ _ _ _.
  unfold wanted_tokens, slot_tokens, spec_blocks. by rewrite Ec, Es, Eb.
Qed.

(** One manager's step of the loop: it stays within the number counted. *)
Lemma computed_step p0 free0 p free R F m rid row local ext tokens enc n :
  let total := local + ext in
  mgr_inv p free R F m → pool_inv p0 free0 [] → same_config p0 p → (∀ b, b ∈ free → b ∈ free0) →
  row_ok p0 (kept_row m row total) → same_hashes p0 p → mg_class m ≠ CrossAttentionManager → new_request_in m rid →
  0 ≤ total ≤ tokens → zlen row ≤ total / mg_block_size m →
  base_get_num_blocks_to_allocate m (pool_heap p0) rid (wanted_tokens m tokens enc)
    (count_row m row) (count_total m total) false = Ok n → n ≤ zlen free →
  ∃ m' p' free', allocate_new_computed_blocks rid row local ext (m, p) = Ok (tt, (m', p'))
    ∧ mgr_inv p' free' R F m' ∧ same_config p p'
    ∧ (only rid m m' ∧ ∃ new, blocks m' rid = hit_blocks m row total ++ new
        ∧ zlen new = external_blocks m row total ext
        ∧ num_cached_block m' !! rid = Some (zlen (hit_blocks m row total)))
    ∧ wants rid tokens enc m' + zlen free ≤ n + zlen free' ∧ (∀ b, b ∈ free' → b ∈ free)
    ∧ (ext ≤ 0 → same_hashes p p').
Proof.
  intros total Hm Hp0 Hcf Hsub Hr Hh Hcl [Hnc Hb] Ht Hrow Hn Hfree.
  pose proof (mi_static _ _ _ _ _ Hm) as Hs.
  apply count_new in Hn; [|done..].
  assert (row_ok p (kept_row m row total)) as Hr1 by (by eapply row_ok_same).
  pose proof (evictable_mono p0 p free0 free (kept_row m row total) Hp0
    (lg_pool _ _ _ _ (mi_ledger _ _ _ _ _ Hm)) Hcf Hsub (ro_in _ _ Hr)) as Hev.
  assert (tokens ≤ wanted_tokens m tokens enc) as Htw
    by (rewrite wanted_other by done; by eapply slot_tokens_ge).
  pose proof (external_blocks_within p m row total ext (wanted_tokens m tokens enc) Hs ltac:(lia)) as Hk.
  pose proof (external_blocks_nonneg p m row total ext Hs ltac:(lia) Hrow) as Hk0.
  destruct (computed_new_spec p free R F m rid row local ext Hm Hr1 Hcl Hnc Hb) as
    (m' & p' & free' & new & E & Hm' & Hcf' & Ho & Hb' & Hn' & Hnew & Hlen & Hsub' & Hsame & _);
    [fold total; lia|done|fold total; lia|].
  fold total in Hb', Hn', Hnew, Hlen, Hsame. exists m', p', free'. split_and!; try done; try (by eexists).
  - unfold wants, lacking. rewrite (only_wanted _ _ _ _ _ Ho), (only_size _ _ _ Ho), Hb', zlen_app, Hnew, Hlen. lia.
  - intros He. apply Hsame. by apply external_blocks_none.
Qed.

Lemma take_insert_step (f : Manager → Z) ms i m m' :
  ms !! i = Some m → zsum (f <$> take (S i) (<[i := m']> ms)) = zsum (f <$> take i ms) + f m'.
Proof.
  intros Hi. rewrite (take_S_r _ _ m') by (apply list_lookup_insert_eq; by eapply lookup_lt_Some).
  rewrite take_insert_ge by lia. rewrite fmap_app, zsum_app. simpl. lia.
Qed.

Lemma co_computed_spec c free rid rows local ext tokens enc l :
  co_inv c free → hit_ok c rid rows (local + ext) ext → local + ext ≤ tokens →
  length l = length (single_type_managers c) →
  (∀ i m row n, single_type_managers c !! i = Some m → rows !! i = Some row → l !! i = Some n →
     counted c rid tokens enc (local + ext) false m row n) →
  zsum l ≤ zlen free →
  ∃ c' free', co_allocate_new_computed_blocks rid rows local ext c = Ok (tt, c') ∧ co_inv c' free'
    ∧ upto c (hit_taken rid rows (local + ext) ext) (length (single_type_managers c)) c'
    ∧ zsum (wants rid tokens enc <$> single_type_managers c') + (zlen free - zsum l) ≤ zlen free'.
Proof.
  intros Hc [Hlr Ht Hnew Hrows Hext] Htok Hll Hcnt Hsum. set (total := local + ext) in *.
  unfold co_allocate_new_computed_blocks. set (W := wants rid tokens enc). set (p0 := co_block_pool c).
  assert (Hn0 : ∀ x, x ∈ l → 0 ≤ x).
  { intros x [i Hi]%list_elem_of_lookup_1. assert (i < length l)%nat by (by eapply lookup_lt_Some).
    destruct (lookup_lt_is_Some_2 (single_type_managers c) i) as [m Hm]; [lia|].
    destruct (lookup_lt_is_Some_2 rows i) as [row Hrow]; [lia|].
    eapply base_count_nonneg, (Hcnt i m row x); done. }
  match goal with |- context [for_managers ?f] =>
    destruct (for_managers_ok f (hit_taken rid rows total ext) (λ _ _, True)
      (λ i c', ∃ free', co_inv c' free' ∧ (∀ b, b ∈ free' → b ∈ free)
         ∧ zsum (W <$> take i (single_type_managers c')) + zsum (drop i l) + (zlen free - zsum l) ≤ zlen free'
         ∧ (i = 0%nat ∨ ext ≤ 0 → same_hashes p0 (co_block_pool c'))) c)
      as (l' & c' & E & Hup & (free' & Hc' & _ & Hf & _) & _) end.
  - exists free. rewrite drop_0. simpl. split_and!; try done. lia.
  - intros i c1 m Hm0 Hm Hup (free1 & Hc1 & Hsub1 & Hf1 & Hh1).
    assert (i < length (single_type_managers c))%nat as Hi by (by eapply lookup_lt_Some).
    destruct (lookup_lt_is_Some_2 rows i) as [row Hrow]; [lia|].
    destruct (lookup_lt_is_Some_2 l i) as [n Hn]; [lia|].
    destruct (Hrows i m row Hm0 Hrow) as (Hrok & Hrl & Hcr).
    pose proof (Hcnt i m row n Hm0 Hrow Hn) as Hcount. unfold counted in Hcount. fold p0 in Hcount.
    rewrite (zsum_lookup _ _ _ Hn) in Hf1.
    assert (0 ≤ zsum (W <$> take i (single_type_managers c1))) as HW.
    { apply zsum_nonneg. intros x (y & -> & _)%list_elem_of_fmap. apply wants_nonneg. }
    assert (0 ≤ zsum (drop (S i) l)) as Hd.
    { apply zsum_nonneg. intros x Hx. apply Hn0. eapply subseteq_drop. exact Hx. }
    assert (m ∈ single_type_managers c) as Hin by (by eapply list_elem_of_lookup_2).
    assert (same_hashes p0 (co_block_pool c1)) as Hh1' by (apply Hh1; destruct Hext; [by right|left; lia]).
    pose proof (co_focus _ _ _ _ Hc1 Hm) as Hfoc.
    unfold nth_blocks. rewrite Hrow. mstep. destruct (decide (mg_class m = CrossAttentionManager)) as [Ec|Ec].
    + exists tt, m, (co_block_pool c1). split; [eapply on_manager_ok; [done|]|].
      { unfold allocate_new_computed_blocks. mstep. simpl. rewrite Ec, (Hcr Ec). by rewrite py_assert_nil. }
      split; [done|]. split; [split; [done|by left]|]. split; [done|].
      rewrite (co_put_same _ _ _ Hm). exists free1. split_and!; [done|done| |by intros [?|?]].
      rewrite <-(list_insert_id _ _ _ Hm), (take_insert_step _ _ _ m) by done.
      rewrite (Hcr Ec) in Hcount. eapply count_running in Hcount; [|by apply (ci_static _ _ Hc)|by left|done].
      unfold W at 2, wants. lia.
    + destruct (computed_step p0 free (co_block_pool c1) free1 _ _ m rid row local ext tokens enc n Hfoc
        (lg_pool _ _ _ _ (ci_ledger _ _ Hc)) (up_pool _ _ _ _ Hup) Hsub1 Hrok Hh1' Ec (Hnew m Hin))
        as (m' & p' & free' & E & Hm' & Hcf & [Ho Hbl] & Hw & Hsub' & Hsame); [fold total; lia|done|done|lia|].
      exists tt, m', p'. split; [by eapply on_manager_ok|]. split; [done|].
      split; [split; [done|right; split; [done|]; destruct Hbl as (new & ? & ? & ?); by exists row, new]|].
      split; [done|]. exists free'. split; [by eapply co_unfocus|]. split; [auto|]. split.
      * simpl. rewrite (take_insert_step _ _ _ m) by done. unfold W at 2. lia.
      * simpl. intros [?|He]; [done|]. intros j. rewrite (Hsame He). apply Hh1'.
  - rewrite (bind_ok _ _ _ _ _ E). exists c', free'. split; [done|]. split; [done|]. split; [done|].
    rewrite drop_ge in Hf by lia. rewrite take_ge in Hf by (rewrite (up_length _ _ _ _ Hup); lia).
    change (zsum []) with 0 in Hf. lia.
Qed.

(** ** Caching *)

Section caching.
Context `{HashConfig}.

(** The number of tokens cached by a manager. *)
Definition to_cache (c : Coordinator) (tokens : Z) (m : Manager) : Z :=
  match co_class c with
  | HybridKVCacheCoordinator => hybrid_tokens_to_cache (co_scheduler_block_size c) tokens m
  | _ => tokens
  end.

Lemma to_cache_bounds c tokens m :
  0 ≤ tokens → 0 < co_scheduler_block_size c → 0 < mg_block_size m → 0 ≤ to_cache c tokens m ≤ tokens.
Proof.
  intros Ht Hs Hb. unfold to_cache, hybrid_tokens_to_cache. destruct (co_class c); try lia.
  pose proof (Z.mul_div_le tokens _ Hs). pose proof (Z.div_pos tokens _ Ht Hs).
  destruct (mg_use_eagle m && _) eqn:E; [apply andb_true_iff in E as [_ E%Z.ltb_lt]|]; nia.
Qed.

Definition now_cached (rid : string) (c : Coordinator) (tokens : Z) (_ : nat) (m m' : Manager) : Prop :=
  only rid m m' ∧ blocks m' rid = blocks m rid
  ∧ ncached m' rid = Z.max (ncached m rid) (to_cache c tokens m / mg_block_size m).

Lemma co_cache_spec c free r tokens :
  co_inv c free → (∀ m, m ∈ single_type_managers c → cacheable (co_block_pool c) m r (to_cache c tokens m)) →
  ∃ c', co_cache_blocks r tokens c = Ok (tt, c') ∧ co_inv c' free
    ∧ upto c (now_cached (request_id r) c tokens) (length (single_type_managers c)) c'.
Proof.
  intros Hc Hca. unfold co_cache_blocks.
  match goal with |- context [for_managers ?f] =>
    destruct (for_managers_ok f (now_cached (request_id r) c tokens) (λ _ _, True)
      (λ i c', co_inv c' free) c) as (l & c' & E & Hup & Hc' & _) end; [done| |].
  - intros i c1 m Hm0 Hm Hup Hc1.
    assert (m ∈ single_type_managers c) as Hin by (by eapply list_elem_of_lookup_2).
    pose proof (up_conf _ _ _ _ Hup) as Hcf. unfold co_conf in Hcf.
    assert (Htc : to_cache c1 tokens m = to_cache c tokens m).
    { unfold to_cache. injection Hcf as -> _ _ _ -> _ _ _ _. done. }
    destruct (cache_spec _ _ _ _ m r (to_cache c tokens m) (retention_interval c1) (co_focus _ _ _ _ Hc1 Hm))
      as (m' & p' & E & Hm' & [Hcf' Ho _ Hb Hn]).
    { destruct (Hca m Hin) as [H1 H2 H3 H4 H5 H6]. split; try done.
      destruct (up_pool _ _ _ _ Hup) as (_ & _ & -> & _). done. }
    exists tt, m', p'. split.
    { mstep. eapply on_manager_ok; [done|]. mstep. simpl. rewrite <-Htc in E. exact E. }
    split; [done|]. split; [done|]. split; [done|]. by eapply co_unfocus.
  - rewrite (bind_ok _ _ _ _ _ E). by exists c'.
Qed.
End caching.

(** With no blocks held, every block but the null block is free. *)
Lemma owned_nothing m : (∀ rid, blocks m rid = []) → owned m = [].
Proof.
  intros Hb. unfold owned, owned_map. apply concat_nil_Forall, Forall_fmap, Forall_forall.
  intros [rid l] Hin%elem_of_map_to_list. specialize (Hb rid). unfold blocks in Hb. rewrite Hin in Hb. simpl in *. by subst.
Qed.
Lemma co_idle c free :
  co_inv c free → (∀ m, m ∈ single_type_managers c → ∀ rid, blocks m rid = []) →
  get_num_free_blocks (co_block_pool c) = num_gpu_blocks (co_block_pool c) - 1.
Proof.
  intros [Hl _ _ _] Hms. assert (owned_all (single_type_managers c) = []) as Ho.
  { unfold owned_all. apply concat_nil_Forall, Forall_fmap, Forall_forall. intros m Hm. by apply owned_nothing, Hms. }
  rewrite Ho in Hl. by eapply ledger_nothing_held.
Qed.
