(* ===== verification/HybridHit.v ===== *)
(** * The hybrid coordinator's fixed-point search

    Correctness of [HybridKVCacheCoordinator.find_longest_cache_hit]
    ([vllm/v1/core/kv_cache_coordinator.py]) against the interface [HitFinder] of
    the managers: the search ends, and the groups agree on the length of the hit. *)

From Stdlib Require Import ZArith Lia.
From S2P Require Import Prelude MathUtils KVSpec FreeQueue Request BlockHash BlockPool SingleType CacheHit Coordinator.
Local Open Scope Z_scope.

Section hybrid.
Context (c : Coordinator) (free : list loc) (hashes : list bytes) (maxlen : Z).

Local Abbreviation p := (co_block_pool c).
Local Abbreviation N := (length (co_kv_cache_groups c)).
Local Abbreviation al := (co_scheduler_block_size c).
Local Abbreviation hbs := (co_hash_block_size c).
Local Abbreviation bs g := (layer_block_size (sg_spec g)).

(** What construction guarantees of an attention group, and that the request has
    hashed the blocks asked for. *)
Record group_ok (g : SpecGroup) : Prop := {
  go_ids : sg_group_ids g ≠ [] ∧ NoDup (sg_group_ids g)
    ∧ Forall (λ i, (i < N)%nat ∧ Z.of_nat i < 256 ^ 4) (sg_group_ids g);
  go_bs : 0 < bs g ∧ bs g mod hbs = 0 ∧ al mod bs g = 0;
  go_hashes : (Z.to_nat (maxlen / bs g) ≤ length (hashes_at hbs (bs g) hashes))%nat;
  go_finder : finder_ok (sg_manager_cls g) (sg_spec g) false al
    ∧ (sg_use_eagle g = true → finder_ok (sg_manager_cls g) (sg_spec g) true al)
}.

Context (Hp : pool_inv p free []) (Hal : 0 < al) (Hhbs : 0 < hbs) (Hmax : 0 ≤ maxlen).

(** The blocks stored for a group: [n] per member, those still needed carrying their
    keys. *)
Definition stored (g : SpecGroup) (by_group : list (option (list loc))) (n : nat) : Prop :=
  ∀ gid, gid ∈ sg_group_ids g → ∃ row, by_group !! gid = Some (Some row) ∧ length row = n ∧
    ∀ i b h, (first_needed (sg_manager_cls g) (sg_spec g) n ≤ i)%nat → row !! i = Some b →
      hashes_at hbs (bs g) hashes !! i = Some h → holds p h (Z.of_nat gid) b.

Lemma stored_frame g bg bg' n :
  (∀ gid, gid ∈ sg_group_ids g → bg' !! gid = bg !! gid) → stored g bg n → stored g bg' n.
Proof. intros Hf Hs gid Hin. destruct (Hs gid Hin) as (row & Hr & Hrest). exists row. by rewrite Hf. Qed.

Lemma store_hits_frame gids rows bg gid :
  gid ∉ gids → store_hits gids rows bg !! gid = bg !! gid.
Proof.
  revert rows bg. induction gids as [|g gids IH]; intros [|row rows] bg Hn; simpl; try done.
  apply not_elem_of_cons in Hn as [Hne Hn]. rewrite IH by done. by rewrite list_lookup_insert_ne.
Qed.

Lemma store_hits_length gids rows bg : length (store_hits gids rows bg) = length bg.
Proof.
  revert rows bg. induction gids as [|g gids IH]; intros [|row rows] bg; simpl; try done.
  by rewrite IH, length_insert.
Qed.

Lemma store_hits_lookup gids rows bg j gid row :
  NoDup gids → length rows = length gids → Forall (λ i, (i < length bg)%nat) gids →
  gids !! j = Some gid → rows !! j = Some row → store_hits gids rows bg !! gid = Some (Some row).
Proof.
  revert rows bg j. induction gids as [|g gids IH]; intros [|r rows] bg j Hnd Hl Hf Hg Hr; simplify_eq/=.
  apply NoDup_cons in Hnd as [Hng Hnd]. apply Forall_cons in Hf as [Hlt Hf].
  destruct j as [|j]; simplify_eq/=.
  - rewrite store_hits_frame by done. by apply list_lookup_insert_eq.
  - apply (IH rows _ j); try done. by rewrite length_insert.
Qed.

Lemma get_block_hashes_ok g :
  group_ok g → ∃ l, _get_block_hashes hbs hashes (sg_spec g) = Ok l
    ∧ hash_list l = hashes_at hbs (bs g) hashes.
Proof using Hhbs.
  intros [_ (Hb & Hmod & _) _ _]. unfold _get_block_hashes, hashes_at.
  destruct (bs g =? hbs); [by eexists|]. unfold new_bhl.
  rewrite (proj2 (Z.eqb_neq hbs 0)), Hmod by lia. munfold. by eexists.
Qed.

(** One step of the inner loop. *)
Lemma hit_step_spec idx g s :
  group_ok g → length (hit_blocks_by_group s) = N → 0 ≤ curr_hit_length s ≤ maxlen →
  (∃ s', hit_step c hashes maxlen idx g s = Ok s'
     ∧ is_FullAttentionSpec (sg_spec g) = true
     ∧ (∀ gid rest, sg_group_ids g = gid :: rest → hit_blocks_by_group s !! gid ≠ Some None)
     ∧ curr_hit_length s' = curr_hit_length s / bs g * bs g
     ∧ hit_blocks_by_group s' = hit_blocks_by_group s) ∨
  (∃ s' n, hit_step c hashes maxlen idx g s = Ok s'
     ∧ (is_FullAttentionSpec (sg_spec g) = true →
          ∀ gid rest, sg_group_ids g = gid :: rest → hit_blocks_by_group s !! gid = Some None)
     ∧ curr_hit_length s' = Z.of_nat n * bs g ∧ Z.of_nat n * bs g ≤ curr_hit_length s
     ∧ (Z.of_nat n * bs g) mod al = 0
     ∧ stored g (hit_blocks_by_group s') n ∧ length (hit_blocks_by_group s') = N
     ∧ ∀ gid, gid ∉ sg_group_ids g → hit_blocks_by_group s' !! gid = hit_blocks_by_group s !! gid).
Proof using Hp Hal Hhbs Hmax.
  intros Hg Hlen Hcur. unfold hit_step, group_blocks.
  destruct (go_ids g Hg) as (Hne & Hnd & Hids).
  destruct (sg_group_ids g) as [|gid0 rest] eqn:Eids; [done|]. rewrite <-Eids in *.
  assert (gid0 < N)%nat as Hg0 by (rewrite Eids in Hids; by apply Forall_cons in Hids as [[? _] _]).
  destruct (lookup_lt_is_Some_2 (hit_blocks_by_group s) gid0) as [ob Hob]; [lia|].
  rewrite Hob. munfold.
  destruct (is_FullAttentionSpec (sg_spec g) && bool_decide (ob ≠ None)) eqn:Ef.
  { left. apply andb_true_iff in Ef as [Ef Eb%bool_decide_eq_true]. eexists. split; [done|].
    split; [done|]. split; [|done]. intros gid r Hgr. rewrite Eids in Hgr. simplify_eq. congruence. }
  right. destruct (get_block_hashes_ok g Hg) as (l & -> & Hl).
  set (e := sg_use_eagle g && negb (bool_decide (idx ∈ eagle_verified s))).
  set (m := if e then Z.min (curr_hit_length s + bs g) maxlen else curr_hit_length s).
  destruct (go_bs g Hg) as (Hb & Hbm & Halb).
  assert (0 ≤ m ≤ maxlen) as Hm by (unfold m; destruct e; lia).
  assert (Hpre : lookup_pre p free (Z.of_nat <$> sg_group_ids g) l m (sg_spec g) al).
  { split; [done| |done|done|lia|].
    - split; [by rewrite Eids|]. apply Forall_fmap. eapply Forall_impl; [exact Hids|]. simpl. lia.
    - rewrite Hl. etrans; [|apply (go_hashes g Hg)].
      apply Z2Nat.inj_le; [apply Z.div_pos; lia|apply Z.div_pos; lia|]. apply Z.div_le_mono; lia. }
  assert (Hok : finder_ok (sg_manager_cls g) (sg_spec g) e al).
  { destruct (go_finder g Hg) as [H0 H1]. unfold e. destruct (sg_use_eagle g); simpl; [|done].
    destruct (negb _); [by apply H1|done]. }
  destruct (find_hit p free _ l m (sg_spec g) e al Hpre Hok) as (rows & n & E & [[R1 R2 R3 R4] M1 A1 E1]).
  rewrite E. rewrite length_fmap in R1.
  destruct rows as [|row rows]; [simpl in R1; rewrite Eids in R1; simpl in R1; lia|].
  rewrite (py_index_head _ row) by done. simpl.
  assert (zlen row = Z.of_nat n) as Hrow.
  { apply Forall_cons in R2 as [R2 _]. unfold zlen. by rewrite R2. }
  eexists _, n. split; [done|]. simpl. rewrite Hrow.
  split_and!.
  - intros Hfull gid r Hgr. rewrite Eids in Hgr. simplify_eq. rewrite Hfull in Ef. simpl in Ef.
    apply bool_decide_eq_false in Ef. destruct ob; [exfalso; by apply Ef|done].
  - done.
  - unfold m in M1, E1. destruct e; [|done]. destruct (E1 eq_refl) as [->|?]; lia.
  - destruct A1 as [A1|A1]; [|done]. rewrite A1, Z_mod_mult. done.
  - intros gid [j Hj]%list_elem_of_lookup_1.
    destruct (lookup_lt_is_Some_2 (row :: rows) j) as [rw Hrw]; [rewrite R1; by eapply lookup_lt_Some|].
    exists rw. split; [|split].
    + apply (store_hits_lookup _ _ _ j); [done|done| |done|done].
      eapply Forall_impl; [exact Hids|]. simpl. intros. lia.
    + rewrite Forall_forall in R2. apply R2. by eapply list_elem_of_lookup_2.
    + intros i b h Hi Hb' Hh. apply (R4 j (Z.of_nat gid) rw i b h); try done.
      * by rewrite list_lookup_fmap, Hj.
      * by rewrite Hl.
  - by rewrite store_hits_length.
  - intros gid Hn. by rewrite store_hits_frame.
Qed.

Local Abbreviation is_full g := (is_FullAttentionSpec (sg_spec g)).

(** A group as a pass leaves it: its blocks reach at least to the current length,
    and for groups other than full attention not beyond the length before. *)
Definition settled (hi lo : Z) (bg : list (option (list loc))) (g : SpecGroup) : Prop :=
  ∃ n, stored g bg n ∧ lo ≤ Z.of_nat n * bs g ∧ (is_full g = false → Z.of_nat n * bs g ≤ hi).

(** A full-attention group before a pass: not looked up yet, or its blocks reach to
    the current length. *)
Definition full_ready (cur : Z) (bg : list (option (list loc))) (g : SpecGroup) : Prop :=
  is_full g = true →
  (∀ gid, gid ∈ sg_group_ids g → bg !! gid = Some None) ∨ ∃ n, stored g bg n ∧ cur ≤ Z.of_nat n * bs g.

Definition disjoint_ids (gs : list SpecGroup) : Prop :=
  ∀ i j g g' x, gs !! i = Some g → gs !! j = Some g' → x ∈ sg_group_ids g → x ∈ sg_group_ids g' → i = j.

Lemma disjoint_ids_cons g gs :
  disjoint_ids (g :: gs) → disjoint_ids gs ∧ ∀ g' x, g' ∈ gs → x ∈ sg_group_ids g' → x ∉ sg_group_ids g.
Proof.
  intros Hd. split.
  - intros i j g1 g2 x H1 H2 Hx1 Hx2. assert (S i = S j); [|lia]. by eapply (Hd (S i) (S j)).
  - intros g' x [j Hj]%list_elem_of_lookup_1 Hx Hx'. assert (0%nat = S j); [|done].
    by eapply (Hd 0%nat (S j)).
Qed.

Lemma hit_pass_spec idx gs s :
  Forall group_ok gs → disjoint_ids gs → length (hit_blocks_by_group s) = N →
  0 ≤ curr_hit_length s ≤ maxlen →
  Forall (full_ready (curr_hit_length s) (hit_blocks_by_group s)) gs →
  ∃ s', hit_pass c hashes maxlen idx gs s = Ok s'
    ∧ 0 ≤ curr_hit_length s' ≤ curr_hit_length s ∧ length (hit_blocks_by_group s') = N
    ∧ Forall (settled (curr_hit_length s) (curr_hit_length s') (hit_blocks_by_group s')) gs
    ∧ (∀ gid, (∀ g, g ∈ gs → gid ∉ sg_group_ids g) →
         hit_blocks_by_group s' !! gid = hit_blocks_by_group s !! gid)
    ∧ (∀ g, last gs = Some g → is_full g = false →
         ∃ n, stored g (hit_blocks_by_group s') n ∧ curr_hit_length s' = Z.of_nat n * bs g
           ∧ curr_hit_length s' mod al = 0)
    ∧ (curr_hit_length s' = curr_hit_length s → ∀ g, g ∈ gs → curr_hit_length s mod bs g = 0).
Proof using Hp Hal Hhbs Hmax.
  revert idx s. induction gs as [|g gs IH]; intros idx s Hgs Hd Hlen Hcur Hready.
  { exists s. split; [done|]. split; [lia|]. split; [done|]. split; [done|]. split; [done|].
    split; [done|]. by intros _ g ?%not_elem_of_nil. }
  apply Forall_cons in Hgs as [Hg Hgs]. apply Forall_cons in Hready as [Hr Hready].
  destruct (disjoint_ids_cons _ _ Hd) as [Hd' Hdis]. destruct (go_bs g Hg) as (Hb & _ & _).
  destruct (go_ids g Hg) as (Hidne & _ & _).
  assert (∃ s1 n, hit_step c hashes maxlen idx g s = Ok s1
    ∧ 0 ≤ curr_hit_length s1 ≤ curr_hit_length s ∧ length (hit_blocks_by_group s1) = N
    ∧ stored g (hit_blocks_by_group s1) n ∧ curr_hit_length s1 ≤ Z.of_nat n * bs g
    ∧ (is_full g = false → Z.of_nat n * bs g ≤ curr_hit_length s ∧ curr_hit_length s1 = Z.of_nat n * bs g
         ∧ curr_hit_length s1 mod al = 0)
    ∧ (curr_hit_length s1 = curr_hit_length s → curr_hit_length s mod bs g = 0)
    ∧ ∀ gid, gid ∉ sg_group_ids g → hit_blocks_by_group s1 !! gid = hit_blocks_by_group s !! gid)
    as (s1 & n1 & E1 & Hc1 & Hl1 & Hst1 & Hlo1 & Hnf1 & Hm1 & Hfr1).
  { destruct (hit_step_spec idx g s Hg Hlen Hcur)
      as [(s1 & E & Hfull & Hsome & Hc & Hbg)|(s1 & n & E & Hnone & Hc & Hle & Hmod & Hst & Hl & Hfr)].
    - destruct (Hr Hfull) as [Hnone|(n & Hst & Hle)].
      { destruct (sg_group_ids g) as [|gid rest] eqn:Eg; [done|]. exfalso. eapply Hsome; [done|].
        apply Hnone. left. }
      pose proof (Z.div_mod (curr_hit_length s) (bs g) ltac:(lia)).
      pose proof (Z.mod_pos_bound (curr_hit_length s) (bs g) Hb).
      pose proof (Z.div_pos (curr_hit_length s) (bs g) ltac:(lia) Hb).
      exists s1, n. rewrite Hbg, Hc. split; [done|]. split; [nia|]. split; [done|]. split; [done|].
      split; [nia|]. split; [congruence|]. split; [nia|done].
    - exists s1, n. rewrite Hc. split; [done|]. split; [nia|]. split; [done|]. split; [done|]. split; [lia|].
      split; [done|]. split; [|done]. intros <-. apply Z_mod_mult. }
  destruct (IH (S idx) s1) as (s2 & E2 & Hc2 & Hl2 & Hset2 & Hfr2 & Hlast2 & Hmod2); [done|done|done|lia| |].
  { rewrite Forall_forall in Hready |- *. intros g' Hg' Hf'.
    destruct (Hready g' Hg' Hf') as [Hnone|(n & Hst & Hle)].
    - left. intros gid Hgid. rewrite Hfr1 by (by eapply Hdis). by apply Hnone.
    - right. exists n. split; [|lia]. eapply stored_frame; [|exact Hst].
      intros gid Hgid. apply Hfr1. by eapply Hdis. }
  assert (Hst2 : stored g (hit_blocks_by_group s2) n1).
  { eapply stored_frame; [|exact Hst1]. intros gid Hgid. apply Hfr2. intros g' Hg' Hx. by eapply Hdis. }
  exists s2. cbn [hit_pass]. rewrite E1. munfold. split; [done|]. split; [lia|]. split; [done|]. split; [|split; [|split]].
  - constructor.
    + exists n1. split; [done|]. split; [lia|]. intros Hnf. by apply Hnf1.
    + eapply Forall_impl; [exact Hset2|]. intros g' (n & ? & ? & Hnf). exists n.
      split; [done|]. split; [done|]. intros ?. etrans; [by apply Hnf|]. lia.
  - intros gid Hn. rewrite Hfr2, Hfr1; [done|apply Hn; left|]. intros g' Hg'. apply Hn. by right.
  - intros g' Hlast Hnf. destruct gs as [|g2 gs]; [|by apply Hlast2].
    simpl in Hlast. simplify_eq. simpl in E2. injection E2 as <-.
    exists n1. destruct (Hnf1 Hnf) as (_ & ? & ?). done.
  - intros Heq g' [->|Hg']%elem_of_cons; [apply Hm1; lia|].
    assert (curr_hit_length s1 = curr_hit_length s) as Heq1 by lia. rewrite <-Heq1. apply Hmod2; [lia|done].
Qed.

Context (Hgs : Forall group_ok (attention_groups c)) (Hdisj : disjoint_ids (attention_groups c)).
(** Only the first group may be full attention. *)
Context (Hone : ∀ g, g ∈ tail (attention_groups c) → is_full g = false).

(** The blocks of every group cover exactly [len] tokens, once full attention has
    been cut to it. *)
Definition agreed (len : Z) (bg : list (option (list loc))) : Prop :=
  Forall (λ g, len mod bs g = 0 ∧ ∃ n, stored g bg n ∧ len ≤ Z.of_nat n * bs g
                 ∧ (is_full g = false → Z.of_nat n * bs g = len)) (attention_groups c).

Lemma settled_ready hi lo bg :
  Forall (settled hi lo bg) (attention_groups c) → Forall (full_ready lo bg) (attention_groups c).
Proof.
  intros Hs. eapply Forall_impl; [exact Hs|]. intros g (n & Hst & Hlo & _) _. right. by exists n.
Qed.

Lemma simple_hybrid_last gs :
  is_simple_hybrid gs = true → ∃ g0 g1, gs = [g0; g1] ∧ is_full g0 = true.
Proof. destruct gs as [|g0 [|g1 [|]]]; simpl; try done. eauto. Qed.

Lemma hit_loop_spec fuel len s :
  (Z.to_nat len < fuel)%nat → 0 ≤ len ≤ maxlen → length (hit_blocks_by_group s) = N →
  Forall (full_ready len (hit_blocks_by_group s)) (attention_groups c) →
  ∃ len' s', hit_loop fuel c hashes maxlen len s = Ok (Some (len', s'))
    ∧ 0 ≤ len' ≤ len ∧ length (hit_blocks_by_group s') = N ∧ agreed len' (hit_blocks_by_group s').
Proof using Hp Hal Hhbs Hmax Hgs Hdisj Hone.
  revert len s. induction fuel as [|fuel IH]; intros len s Hfuel Hlen Hl Hready; [lia|].
  cbn [hit_loop]. set (s0 := mkHit len _ _ _).
  destruct (hit_pass_spec 0 (attention_groups c) s0 Hgs Hdisj) as
    (s1 & E1 & Hc1 & Hl1 & Hset & _ & Hlast & Hmod); [done..|]. simpl in Hc1, Hset, Hmod.
  rewrite E1. munfold. destruct (Z.leb_spec len (curr_hit_length s1)) as [Hge|Hlt].
  { assert (curr_hit_length s1 = len) as Heq by lia. rewrite Heq in Hset.
    exists len, s1. split; [done|]. split; [lia|]. split; [done|].
    unfold agreed. rewrite Forall_forall in Hset |- *. intros g Hin.
    destruct (Hset g Hin) as (n & Hst & Hlo & Hnf). split; [by apply Hmod|]. exists n.
    split_and!; [done|lia|]. intros Hf. specialize (Hnf Hf). lia. }
  destruct (is_simple_hybrid (attention_groups c)) eqn:Esimple.
  2:{ destruct (IH (curr_hit_length s1) s1) as (len' & s' & E & Hc & Hl' & Ha); [lia|lia|done|by eapply settled_ready|].
      exists len', s'. split; [done|]. split; [lia|done]. }
  exists (curr_hit_length s1), s1. split; [done|]. split; [lia|]. split; [done|].
  apply simple_hybrid_last in Esimple as (g0 & g1 & Eg & Hf0).
  assert (is_full g1 = false) as Hf1 by (apply Hone; rewrite Eg; left).
  destruct (Hlast g1) as (n1 & Hst1 & Hc1' & Hal1); [by rewrite Eg|done|].
  unfold agreed. rewrite Eg in Hset, Hgs |- *.
  apply Forall_cons in Hset as [(n0 & Hst0 & Hlo0 & _) _].
  apply Forall_cons in Hgs as [Hg0 [Hg1 _]%Forall_cons].
  assert (Hdiv : ∀ g, group_ok g → curr_hit_length s1 mod bs g = 0).
  { intros g Hg. destruct (go_bs g Hg) as (Hb & _ & Hab). apply Z.mod_divide; [lia|].
    etrans; [apply Z.mod_divide; [lia|exact Hab]|]. apply Z.mod_divide; [lia|done]. }
  constructor; [|constructor; [|done]].
  - split; [by apply Hdiv|]. exists n0. split_and!; [done|done|congruence].
  - split; [by apply Hdiv|]. exists n1. split_and!; [done|lia|done].
Qed.

Lemma full_needs_all g n :
  finder_ok (sg_manager_cls g) (sg_spec g) false al → is_full g = true →
  first_needed (sg_manager_cls g) (sg_spec g) n = 0%nat.
Proof.
  intros Hok Hf. unfold first_needed. destruct (sg_manager_cls g); simpl in *; try done;
    destruct (sg_spec g); simpl in *; try done; destruct Hok as [? Hok]; by try destruct Hok.
Qed.

Lemma truncate_full_lookup gs len bg gid :
  truncate_full gs len bg !! gid =
    match gs with
    | g :: _ => if is_full g && bool_decide (gid ∈ sg_group_ids g)
                then fmap (take (Z.to_nat (len / bs g))) <$> bg !! gid else bg !! gid
    | [] => bg !! gid
    end.
Proof.
  destruct gs as [|g gs]; [done|]. unfold truncate_full. destruct (is_full g); [|done]. simpl.
  rewrite list_lookup_imap. case_bool_decide; destruct (bg !! gid); done.
Qed.

(** The group's blocks in the final answer. *)
Lemma agreed_rows len bg g :
  agreed len bg → 0 ≤ len → g ∈ attention_groups c →
  ∀ gid, gid ∈ sg_group_ids g →
    ∃ row, truncate_full (attention_groups c) len bg !! gid = Some (Some row)
      ∧ zlen row * bs g = len
      ∧ ∀ i b h, (first_needed (sg_manager_cls g) (sg_spec g) (length row) ≤ i)%nat → row !! i = Some b →
          hashes_at hbs (bs g) hashes !! i = Some h → holds p h (Z.of_nat gid) b.
Proof using Hgs Hdisj Hone.
  intros Ha Hlen Hg gid Hgid. unfold agreed in Ha. rewrite Forall_forall in Ha.
  destruct (Ha g Hg) as (Hmod & n & Hst & Hge & Heq). destruct (Hst gid Hgid) as (row & Hrow & Hn & Hholds).
  rewrite Forall_forall in Hgs. pose proof (Hgs g Hg) as Hok. destruct (go_bs g Hok) as (Hb & _ & _).
  pose proof (Z.div_mod len (bs g) ltac:(lia)) as Hdm. rewrite Hmod in Hdm.
  rewrite truncate_full_lookup. destruct (attention_groups c) as [|g0 gs] eqn:Egs; [by apply not_elem_of_nil in Hg|].
  destruct (is_full g0 && bool_decide (gid ∈ sg_group_ids g0)) eqn:Et.
  - apply andb_true_iff in Et as [Hf0 Hin%bool_decide_eq_true].
    assert (g = g0) as ->.
    { apply list_elem_of_lookup_1 in Hg as [j Hj]. assert (0%nat = j) as <-; [|by injection Hj].
      by eapply (Hdisj 0%nat j g0 g gid). }
    rewrite Hrow. simpl. eexists. split; [done|].
    pose proof (Z.div_pos len (bs g0) Hlen Hb).
    assert (Hlr : length (take (Z.to_nat (len / bs g0)) row) = Z.to_nat (len / bs g0)).
    { rewrite length_take, Hn. nia. }
    split; [unfold zlen; rewrite Hlr; nia|].
    intros i b h _ Hib Hh. apply (Hholds i b h); [|by apply lookup_take_Some in Hib as [? _]|done].
    rewrite full_needs_all; [lia| |done]. apply (go_finder g0 Hok).
  - destruct (is_full g) eqn:Hfg.
    { exfalso. apply elem_of_cons in Hg as [->|Hg].
      - rewrite Hfg in Et. simpl in Et. by apply bool_decide_eq_false in Et.
      - by rewrite Hone in Hfg. }
    rewrite Hrow. eexists. split; [done|]. unfold zlen. rewrite Hn. split; [by apply Heq|done].
Qed.

Lemma hybrid_find_spec fuel :
  (hit_fuel maxlen ≤ fuel)%nat →
  ∃ rows len c', hybrid_find_longest_cache_hit fuel hashes maxlen c = Ok (Some (rows, len), c')
    ∧ c' = co_set_num_uncached_common_prefix_tokens (num_uncached_common_prefix_tokens c') c
    ∧ length rows = N ∧ 0 ≤ len ≤ maxlen
    ∧ ∀ g gid, g ∈ attention_groups c → gid ∈ sg_group_ids g →
        ∃ row, rows !! gid = Some row ∧ zlen row * bs g = len
          ∧ ∀ i b h, (first_needed (sg_manager_cls g) (sg_spec g) (length row) ≤ i)%nat →
              row !! i = Some b → hashes_at hbs (bs g) hashes !! i = Some h → holds p h (Z.of_nat gid) b.
Proof using Hp Hal Hhbs Hmax Hgs Hdisj Hone.
  intros Hfuel. unfold hit_fuel in Hfuel.
  destruct (hit_loop_spec fuel maxlen (mkHit maxlen 0 (replicate N None) ∅)) as (len & s & E & Hlen & Hl & Ha);
    [lia|lia|simpl; apply length_replicate| |].
  { rewrite Forall_forall in Hgs |- *. intros g Hg _. left. intros gid Hgid. simpl.
    pose proof (Hgs g Hg) as Hok. destruct (go_ids g Hok) as (_ & _ & Hids).
    rewrite Forall_forall in Hids. apply lookup_replicate_2. by apply Hids. }
  unfold hybrid_find_longest_cache_hit. munfold. rewrite E. simpl.
  eexists _, _, _. split; [done|]. split; [done|]. split; [|split; [lia|]].
  { rewrite length_fmap, <-Hl. unfold truncate_full. repeat case_match; by rewrite ?length_imap. }
  intros g gid Hg Hgid. destruct (agreed_rows len _ g Ha ltac:(lia) Hg gid Hgid) as (row & Hrow & Hz & Hh).
  exists row. rewrite list_lookup_fmap, Hrow. done.
Qed.
End hybrid.

(** ** The attention groups built at construction *)

Definition all_ids (gs : list SpecGroup) : list nat := concat (sg_group_ids <$> gs).

(** The groups after the managers [0 .. n - 1] have been sorted in. *)
Record groups_inv (eagle : gset nat) (ms : list Manager) (n : nat) (gs : list SpecGroup) : Prop := {
  gi_ids : all_ids gs ≡ₚ seq 0 n;
  gi_nonempty : Forall (λ g, sg_group_ids g ≠ []) gs;
  gi_specs : NoDup (sg_spec <$> gs);
  gi_members : ∀ g i, g ∈ gs → i ∈ sg_group_ids g → ∃ m, ms !! i = Some m ∧ mg_spec m = sg_spec g
    ∧ mg_class m = sg_manager_cls g;
  gi_eagle : ∀ g, g ∈ gs → sg_use_eagle g = true ↔ ∃ i, i ∈ sg_group_ids g ∧ i ∈ eagle
}.

Lemma all_ids_cons g gs : all_ids (g :: gs) = sg_group_ids g ++ all_ids gs.
Proof. done. Qed.

Lemma add_to_group_none gs spec i cls e :
  spec ∉ sg_spec <$> gs → add_to_group gs spec i cls e = Ok (gs ++ [mkSpecGroup spec [i] cls e]).
Proof.
  induction gs as [|g gs IH]; csimpl; [done|]. intros [Hne Hn]%not_elem_of_cons.
  rewrite bool_decide_eq_false_2 by congruence. rewrite IH by done. done.
Qed.

Lemma add_to_group_some gs1 g gs2 i cls e :
  sg_spec g ∉ sg_spec <$> gs1 → sg_manager_cls g = cls →
  add_to_group (gs1 ++ g :: gs2) (sg_spec g) i cls e
    = Ok (gs1 ++ mkSpecGroup (sg_spec g) (sg_group_ids g ++ [i]) (sg_manager_cls g) (sg_use_eagle g || e) :: gs2).
Proof.
  intros Hn <-. induction gs1 as [|g1 gs1 IH]; csimpl in *.
  - by rewrite !bool_decide_eq_true_2 by done.
  - apply not_elem_of_cons in Hn as [Hne Hn]. rewrite bool_decide_eq_false_2 by congruence.
    rewrite IH by done. done.
Qed.

(** Managers of one spec have one class. *)
Definition class_by_spec (ms : list Manager) : Prop :=
  ∀ i j m m', ms !! i = Some m → ms !! j = Some m' → mg_spec m = mg_spec m' → mg_class m = mg_class m'.

Lemma add_to_group_inv eagle ms n m gs :
  class_by_spec ms → ms !! n = Some m → groups_inv eagle ms n gs →
  ∃ gs', add_to_group gs (mg_spec m) n (mg_class m) (bool_decide (n ∈ eagle)) = Ok gs'
    ∧ groups_inv eagle ms (S n) gs'.
Proof.
  intros Hcls Hm [H1 H2 H3 H4 H5].
  assert (Hseq : seq 0 (S n) ≡ₚ seq 0 n ++ [n]) by (by rewrite seq_S).
  destruct (decide (mg_spec m ∈ sg_spec <$> gs)) as [Hin|Hnin].
  - apply list_elem_of_fmap in Hin as (g & Hspec & Hg). apply list_elem_of_split in Hg as (gs1 & gs2 & ->).
    assert (sg_manager_cls g = mg_class m) as Hc.
    { rewrite Forall_app, Forall_cons in H2. destruct H2 as (_ & Hne & _).
      destruct (sg_group_ids g) as [|i ids] eqn:Eids; [done|].
      destruct (H4 g i) as (m' & Hm' & Hs' & <-); [set_solver|rewrite Eids; left|].
      eapply Hcls; [done|done|congruence]. }
    rewrite fmap_app, fmap_cons in H3.
    assert (sg_spec g ∉ sg_spec <$> gs1) as Hn1.
    { apply NoDup_app in H3 as (_ & Hd & _). intros Hx. by eapply Hd; [|left]. }
    rewrite Hspec, add_to_group_some by done.
    set (g' := mkSpecGroup _ _ _ _). eexists. split; [done|].
    assert (Hids : all_ids (gs1 ++ g' :: gs2) ≡ₚ all_ids (gs1 ++ g :: gs2) ++ [n]).
    { unfold all_ids. rewrite !fmap_app, !fmap_cons, !concat_app. simpl. solve_Permutation. }
    split.
    + by rewrite Hids, H1, Hseq.
    + rewrite Forall_app, Forall_cons in H2 |- *. destruct H2 as (? & _ & ?). split; [done|]. split; [|done].
      simpl. by destruct (sg_group_ids g).
    + by rewrite fmap_app, fmap_cons.
    + intros x i Hx Hi. apply elem_of_app in Hx as [Hx|[->|Hx]%elem_of_cons].
      * apply (H4 x i); [set_solver|done].
      * simpl in *. apply elem_of_app in Hi as [Hi| ->%list_elem_of_singleton].
        -- apply (H4 g i); [set_solver|done].
        -- exists m. by rewrite Hc.
      * apply (H4 x i); [set_solver|done].
    + intros x Hx. apply elem_of_app in Hx as [Hx|[->|Hx]%elem_of_cons].
      * apply H5. set_solver.
      * simpl. rewrite orb_true_iff, bool_decide_eq_true, (H5 g) by set_solver. set_solver.
      * apply H5. set_solver.
  - rewrite add_to_group_none by done. set (g' := mkSpecGroup _ _ _ _). eexists. split; [done|]. split.
    + unfold all_ids. rewrite fmap_app, concat_app. simpl. by rewrite <-H1, seq_S || rewrite Hseq, <-H1.
    + apply Forall_app. by split; [|repeat constructor].
    + rewrite fmap_app. apply NoDup_app. split; [done|]. split; [set_solver|apply NoDup_singleton].
    + intros x i [Hx| ->%list_elem_of_singleton]%elem_of_app Hi; [by apply H4|].
      simpl in Hi. apply list_elem_of_singleton in Hi as ->. by exists m.
    + intros x [Hx| ->%list_elem_of_singleton]%elem_of_app; [by apply H5|].
      simpl. rewrite bool_decide_eq_true. set_solver.
Qed.

Lemma split_groups_inv eagle ms0 ms n gs :
  class_by_spec (ms0 ++ ms) → length ms0 = n → groups_inv eagle (ms0 ++ ms) n gs →
  ∃ gs', split_groups eagle ms n gs = Ok gs' ∧ groups_inv eagle (ms0 ++ ms) (length (ms0 ++ ms)) gs'.
Proof.
  revert ms0 n gs. induction ms as [|m ms IH]; intros ms0 n gs Hc Hn Hinv.
  { exists gs. split; [done|]. rewrite app_nil_r in *. by rewrite Hn. }
  destruct (add_to_group_inv eagle (ms0 ++ m :: ms) n m gs) as (gs1 & E1 & Hinv1); [done| |done|].
  { by rewrite lookup_app_r, Hn, Nat.sub_diag by lia. }
  cbn [split_groups]. rewrite E1. munfold.
  replace (ms0 ++ m :: ms) with ((ms0 ++ [m]) ++ ms) in * by (by rewrite <-(assoc_L (++))).
  apply IH; [done|rewrite length_app; simpl; lia|done].
Qed.

Lemma full_first_perm gs : full_first gs ≡ₚ gs.
Proof.
  unfold full_first. induction gs as [|g gs IH]; [done|]. rewrite !filter_cons.
  destruct (is_FullAttentionSpec (sg_spec g)); simpl.
  - by rewrite IH.
  - by rewrite <-Permutation_middle, IH.
Qed.

Lemma groups_inv_perm eagle ms n gs gs' : gs ≡ₚ gs' → groups_inv eagle ms n gs → groups_inv eagle ms n gs'.
Proof.
  intros Hp [H1 H2 H3 H4 H5]. split.
  - rewrite <-H1. unfold all_ids. by rewrite Hp.
  - by rewrite <-Hp.
  - by rewrite <-Hp.
  - intros g i Hg. apply H4. by rewrite Hp.
  - intros g Hg. apply H5. by rewrite Hp.
Qed.

Lemma groups_inv_disjoint eagle ms n gs : groups_inv eagle ms n gs → disjoint_ids gs.
Proof.
  intros Hinv. assert (NoDup (all_ids gs)) as Hnd.
  { rewrite (gi_ids _ _ _ _ Hinv). apply NoDup_seq. }
  clear Hinv. induction gs as [|g gs IH]; intros i j g1 g2 x Hi Hj Hx1 Hx2; [done|].
  rewrite all_ids_cons in Hnd. apply NoDup_app in Hnd as (_ & Hd & Hnd).
  assert (Hmem : ∀ k g', gs !! k = Some g' → x ∈ sg_group_ids g' → x ∈ all_ids gs).
  { intros k g' Hk Hx. unfold all_ids. apply list_elem_of_In, in_concat. exists (sg_group_ids g').
    split; apply list_elem_of_In; [|done]. apply list_elem_of_fmap. exists g'. split; [done|].
    by eapply list_elem_of_lookup_2. }
  destruct i as [|i], j as [|j]; simplify_eq/=; [done| | |].
  - exfalso. by eapply Hd; [|eapply Hmem].
  - exfalso. by eapply Hd; [|eapply Hmem].
  - f_equal. by eapply IH.
Qed.

(** The situation in which the hybrid search is called: a consistent pool, groups
    over it that their managers support, at most one of them (the first) of full
    attention, and hashes for all full blocks up to the limit. *)
Record hybrid_pre (c : Coordinator) (free : list loc) (hashes : list bytes) (maxlen : Z) : Prop := {
  hp_pool : pool_inv (co_block_pool c) free [];
  hp_sizes : 0 < co_scheduler_block_size c ∧ 0 < co_hash_block_size c ∧ 0 ≤ maxlen;
  hp_groups : Forall (group_ok c hashes maxlen) (attention_groups c);
  hp_disjoint : disjoint_ids (attention_groups c);
  hp_one_full : ∀ g, g ∈ tail (attention_groups c) → is_FullAttentionSpec (sg_spec g) = false
}.

(** C17. For a model with at most one full-attention spec, whose groups are of the kinds
    of C13 (so that no EAGLE group is one of Mamba or of chunked attention; [HybridCases]
    shows why), the fixed-point
    search of the hybrid coordinator ends (the fuel [hit_fuel], the limit plus two, is
    always enough) and returns a hit on which all groups agree: for every member of every attention group the returned blocks
    cover exactly the reported number of tokens, which is within the limit, and
    each block that the group's attention still reads at that point carries the key
    of its position and group. Nothing of the coordinator is changed but the statistic
    [num_uncached_common_prefix_tokens]. *)
Theorem hybrid_hit_groups_agree c free hashes maxlen fuel :
  hybrid_pre c free hashes maxlen → (hit_fuel maxlen ≤ fuel)%nat →
  ∃ rows len c', hybrid_find_longest_cache_hit fuel hashes maxlen c = Ok (Some (rows, len), c')
    ∧ c' = co_set_num_uncached_common_prefix_tokens (num_uncached_common_prefix_tokens c') c
    ∧ length rows = length (co_kv_cache_groups c) ∧ 0 ≤ len ≤ maxlen
    ∧ ∀ g gid, g ∈ attention_groups c → gid ∈ sg_group_ids g →
        ∃ row, rows !! gid = Some row ∧ zlen row * layer_block_size (sg_spec g) = len
          ∧ ∀ i b h, (first_needed (sg_manager_cls g) (sg_spec g) (length row) ≤ i)%nat →
              row !! i = Some b →
              hashes_at (co_hash_block_size c) (layer_block_size (sg_spec g)) hashes !! i = Some h →
              holds (co_block_pool c) h (Z.of_nat gid) b.
Proof.
  intros [Hp (H1 & H2 & H3) Hg Hd Ho] Hf.
  exact (hybrid_find_spec c free hashes maxlen Hp H1 H2 H3 Hg Hd Ho fuel Hf).
Qed.

Lemma split_groups_start eagle ms : groups_inv eagle ms 0 [].
Proof.
  split; [done|done|constructor| |].
  - intros g i Hg. by apply not_elem_of_nil in Hg.
  - intros g Hg. by apply not_elem_of_nil in Hg.
Qed.

(** C18. The attention groups of a hybrid coordinator partition its managers: each
    manager belongs to exactly one group, groups have distinct specs, members share
    their group's spec and class, a group drops the EAGLE block when one of its
    members does, full-attention groups come first, and exactly the managers of
    EAGLE groups get the EAGLE flag. *)
Theorem attention_groups_partition_managers c c' :
  class_by_spec (single_type_managers c) → verify_and_split_kv_cache_groups c = Ok c' →
  let gs := attention_groups c' in
  groups_inv (eagle_group_ids c) (single_type_managers c) (length (single_type_managers c)) gs
  ∧ (1 < length gs)%nat
  ∧ (∃ fulls others, gs = fulls ++ others
       ∧ Forall (λ g, is_FullAttentionSpec (sg_spec g) = true) fulls
       ∧ Forall (λ g, is_FullAttentionSpec (sg_spec g) = false) others)
  ∧ (∀ i m', single_type_managers c' !! i = Some m' → ∃ m, single_type_managers c !! i = Some m
       ∧ (mg_use_eagle m' = true ↔ mg_use_eagle m = true
            ∨ ∃ g, g ∈ gs ∧ i ∈ sg_group_ids g ∧ sg_use_eagle g = true)).
Proof.
  intros Hc Hrun. unfold verify_and_split_kv_cache_groups in Hrun.
  destruct (split_groups_inv (eagle_group_ids c) [] (single_type_managers c) 0 []) as (gs & E & Hinv);
    [done|done|apply split_groups_start|]. simpl in E, Hinv.
  rewrite E in Hrun. munfold. destruct (1 <? zlen gs) eqn:El; simplify_eq/=.
  apply Z.ltb_lt in El. split; [|split; [|split]].
  - eapply groups_inv_perm; [|done]. by rewrite full_first_perm.
  - rewrite (Permutation_length (full_first_perm gs)). unfold zlen in El. lia.
  - eexists _, _. split; [done|]. split; apply Forall_forall; intros g [? _]%list_elem_of_filter; done.
  - intros i m' Hm'. unfold propagate_eagle in Hm'. rewrite list_lookup_imap in Hm'.
    destruct (single_type_managers c !! i) as [m|] eqn:Em; [|done]. exists m. split; [done|].
    simpl in Hm'. destruct (existsb _ (full_first gs)) eqn:Ex; simplify_eq/=.
    + split; [|done]. intros _. right. apply existsb_exists in Ex as (g & Hg & Hb).
      apply andb_true_iff in Hb as [? ?%bool_decide_eq_true]. exists g. by rewrite list_elem_of_In.
    + split; [by left|]. intros [?|(g & Hg & Hi & He)]; [done|].
      assert (existsb (λ g, sg_use_eagle g && bool_decide (i ∈ sg_group_ids g)) (full_first gs) = true); [|congruence].
      apply existsb_exists. exists g. rewrite <-list_elem_of_In. split; [done|].
      by rewrite He, bool_decide_eq_true_2.
Qed.

(** ** Witnesses *)

(** A full-attention and a sliding-window group over an empty pool. *)
Definition demo_groups : list SpecGroup :=
  [mkSpecGroup (demo_full 4) [0%nat] FullAttentionManager true;
   mkSpecGroup (demo_swa 4 6) [1%nat] SlidingWindowManager true].
Definition demo_coordinator (p : BlockPool) : Coordinator :=
  mkCoordinator HybridKVCacheCoordinator
    [mkKVCacheGroupSpec ["a"%string] (OneSpec (demo_full 4)) false;
     mkKVCacheGroupSpec ["b"%string] (OneSpec (demo_swa 4 6)) false]
    100 true 4 p {[0%nat; 1%nat]}
    [new_manager FullAttentionManager (demo_full 4) p true 0 4 1 1 None;
     new_manager SlidingWindowManager (demo_swa 4 6) p true 1 4 1 1 None]
    None 4 4 1 1 demo_groups 0.

Lemma demo_hybrid_pre p free :
  pool_inv p free [] → hybrid_pre (demo_coordinator p) free [[x01]; [x02]; [x03]] 13.
Proof.
  intros Hp. split; [done|done| | |].
  - repeat apply Forall_cons_2; [| |done]; split; simpl; try done;
      try (split_and!; [done|apply NoDup_singleton|by repeat constructor]);
      try (by vm_compute); try lia.
    split; [by exists 6|]. intros _. by exists 6.
  - intros [|[|i]] [|[|j]] g g' x Hi Hj Hx Hx'; simplify_eq/=; set_solver.
  - intros g ->%list_elem_of_singleton. done.
Qed.

Lemma hybrid_hit_groups_agree_witness :
  ∃ p rows len c', new_block_pool 8 true 4 false false false = Ok p
    ∧ hybrid_find_longest_cache_hit 15 [[x01]; [x02]; [x03]] 13 (demo_coordinator p)
      = Ok (Some (rows, len), c') ∧ 0 ≤ len ≤ 13.
Proof.
  destruct (new_block_pool_spec 8 true 4 false false false eq_refl) as (p & E & Hp & _).
  destruct (hybrid_hit_groups_agree (demo_coordinator p) _ [[x01]; [x02]; [x03]] 13 15
              (demo_hybrid_pre p _ Hp) ltac:(by vm_compute))
    as (rows & len & c' & H1 & _ & _ & H2 & _).
  by exists p, rows, len, c'.
Defined.

Lemma attention_groups_partition_managers_witness :
  ∃ p c', new_block_pool 8 true 4 false false false = Ok p
    ∧ verify_and_split_kv_cache_groups (demo_coordinator p) = Ok c'
    ∧ all_ids (attention_groups c') ≡ₚ [0%nat; 1%nat].
Proof.
  destruct (new_block_pool_spec 8 true 4 false false false eq_refl) as (p & E & _).
  destruct (verify_and_split_kv_cache_groups (demo_coordinator p)) as [c'|] eqn:Ec; [|done].
  exists p, c'. split; [done|]. split; [done|].
  destruct (attention_groups_partition_managers (demo_coordinator p) c') as [[H1 _ _ _ _] _]; [|done|exact H1].
  intros [|[|i]] [|[|j]] m m' Hi Hj Hs; simplify_eq/=; done.
Defined.
