(* ===== verification/KVCacheManager.v ===== *)
(** * The KV-cache manager: definitions

    Models [vllm/v1/core/kv_cache_manager.py], the interface the scheduler uses.
    [KVCacheBlocks] distinguishes the manager's preallocated empty object from other
    objects, because [allocate_slots] tests for it by identity. *)

From Stdlib Require Import ZArith Lia QArith Qround.
From S2P Require Import Prelude MathUtils KVSpec FreeQueue Request BlockHash BlockPool SingleType Coordinator.
Local Open Scope Z_scope.

(** [vllm/v1/metrics/stats.py] *)
Record PrefixCacheStats := mkPrefixCacheStats {
  st_reset : bool;
  st_requests : Z;
  st_queries : Z;
  st_hits : Z;
  st_preempted_requests : Z;
  st_preempted_queries : Z;
  st_preempted_hits : Z
}.
Definition new_stats : PrefixCacheStats := mkPrefixCacheStats false 0 0 0 0 0 0.

Definition stats_record (num_tokens num_hits : Z) (preempted : bool) (s : PrefixCacheStats) : PrefixCacheStats :=
  if preempted then
    mkPrefixCacheStats (st_reset s) (st_requests s) (st_queries s) (st_hits s)
      (st_preempted_requests s + 1) (st_preempted_queries s + num_tokens) (st_preempted_hits s + num_hits)
  else
    mkPrefixCacheStats (st_reset s) (st_requests s + 1) (st_queries s + num_tokens) (st_hits s + num_hits)
      (st_preempted_requests s) (st_preempted_queries s) (st_preempted_hits s).

(** [TheEmpty] is [self.empty_kv_cache_blocks]. *)
Inductive KVCacheBlocks :=
  | TheEmpty
  | Blocks (bs : list (list loc)).
#[global] Instance KVCacheBlocks_eq_dec : EqDecision KVCacheBlocks.
Proof. solve_decision. Defined.

Record KVCacheManager := mkKVCacheManager {
  km_max_model_len : Z;
  km_enable_caching : bool;
  km_use_eagle : bool;
  log_stats : bool;
  prefix_cache_stats : option PrefixCacheStats;
  coordinator : Coordinator;
  num_kv_cache_groups : nat;
  watermark_blocks : Z;
  kv_cache_event_metadata : list (KVCacheSpecKind * option Z)
}.

Definition km_set_prefix_cache_stats (v : option PrefixCacheStats) (r : KVCacheManager) : KVCacheManager :=
  mkKVCacheManager (km_max_model_len r) (km_enable_caching r) (km_use_eagle r) (log_stats r)
    v (coordinator r) (num_kv_cache_groups r) (watermark_blocks r) (kv_cache_event_metadata
    r).
Definition km_set_coordinator (v : Coordinator) (r : KVCacheManager) : KVCacheManager :=
  mkKVCacheManager (km_max_model_len r) (km_enable_caching r) (km_use_eagle r) (log_stats r)
    (prefix_cache_stats r) v (num_kv_cache_groups r) (watermark_blocks r)
    (kv_cache_event_metadata r).


Abbreviation K := (M KVCacheManager).

Definition onco {A} (f : C A) : K A := zoom coordinator km_set_coordinator f.
Definition km_pool (k : KVCacheManager) : BlockPool := co_block_pool (coordinator k).
Definition onpool_k {A} (f : P A) : K A :=
  onco (zoom co_block_pool co_set_block_pool f).

(** [KVCacheBlocks.blocks] *)
Definition blocks_of (n : nat) (b : KVCacheBlocks) : list (list loc) :=
  match b with TheEmpty => replicate n [] | Blocks bs => bs end.

(** [KVCacheBlocks.__add__] *)
Definition blocks_add (n : nat) (a b : KVCacheBlocks) : KVCacheBlocks :=
  Blocks (zip_with app (blocks_of n a) (blocks_of n b)).

Definition get_block_ids (h : heap) (n : nat) (b : KVCacheBlocks) (allow_none : bool)
    : option (list (list Z)) :=
  if allow_none && forallb (λ g, bool_decide (g = [])) (blocks_of n b) then None
  else Some ((λ g : list loc, (λ x, block_id (h x)) <$> g) <$> blocks_of n b).

Definition get_unhashed_block_ids (h : heap) (n : nat) (b : KVCacheBlocks) : result (list Z) :=
  match blocks_of n b with
  | [g] => Ok ((λ x, block_id (h x)) <$> filter (λ x, _block_hash (h x) = None) g)
  | _ => Err AssertionError
  end.

Definition get_unhashed_block_ids_all_groups (h : heap) (n : nat) (b : KVCacheBlocks) : list (list Z) :=
  (λ g : list loc, (λ x, block_id (h x)) <$> filter (λ x, _block_hash (h x) = None ∧ is_null (h x) = false) g)
    <$> blocks_of n b.

Definition new_empty (n : nat) (b : KVCacheBlocks) : KVCacheBlocks :=
  Blocks (replicate (length (blocks_of n b)) []).

(** [__init__]; [int(watermark * num_blocks)] on exact numbers. *)
Definition new_kv_cache_manager (cfg : KVCacheConfig) (max_model_len scheduler_block_size hash_block_size : Z)
    (max_num_batched_tokens : option Z) (enable_caching use_eagle log_stats events use_int : bool)
    (dcp pcp : Z) (metrics_on : bool) (retention : option Z) (watermark : Q) : result KVCacheManager :=
  c ← get_kv_cache_coordinator cfg max_model_len (default max_model_len max_num_batched_tokens)
        use_eagle enable_caching events use_int metrics_on dcp pcp scheduler_block_size hash_block_size
        retention;
  if negb (Qle_bool 0 watermark) then Err AssertionError
  else
    Ok (mkKVCacheManager max_model_len enable_caching use_eagle log_stats
          (if log_stats then Some new_stats else None) c (length (kv_cache_groups cfg))
          (Qfloor (watermark * inject_Z (num_blocks cfg)))
          ((λ g, (get_kv_cache_spec_kind (kv_cache_spec g),
                  get_kv_cache_spec_sliding_window (kv_cache_spec g))) <$> kv_cache_groups cfg)).

Definition usage (k : KVCacheManager) : Q := get_usage (km_pool k).

Definition make_prefix_cache_stats : K (option PrefixCacheStats) :=
  k ← get;
  if negb (log_stats k) then mret None
  else _ ← put (km_set_prefix_cache_stats (Some new_stats) k); mret (prefix_cache_stats k).

(** [create_kv_cache_blocks]: [any(blocks)] is whether a group is non-empty. *)
Definition create_kv_cache_blocks (blocks : list (list loc)) : KVCacheBlocks :=
  if existsb (λ g, bool_decide (g ≠ [])) blocks then Blocks blocks else TheEmpty.

(** [None] only when the hybrid search runs out of fuel. *)
Definition get_computed_blocks (fuel : nat) (r : Request) : K (option (KVCacheBlocks * Z)) :=
  k ← get;
  if negb (km_enable_caching k) || skip_reading_prefix_cache r then mret (Some (TheEmpty, 0))
  else
    let max_cache_hit_length := num_tokens r - 1 in
    hit ← onco (co_find_longest_cache_hit fuel (block_hashes r) max_cache_hit_length);
    match hit with
    | None => mret None
    | Some (computed_blocks, num_new_computed_tokens) =>
        _ ← (if log_stats k then
               match prefix_cache_stats k with
               | None => raise AssertionError
               | Some s => modify (km_set_prefix_cache_stats
                   (Some (stats_record (num_tokens r) num_new_computed_tokens (0 <? num_preemptions r) s)))
               end
             else mret tt);
        mret (Some (create_kv_cache_blocks computed_blocks, num_new_computed_tokens))
    end.

Section manager.
Context `{HashConfig}.

Definition allocate_slots (r : Request) (num_new_tokens num_new_computed_tokens : Z)
    (new_computed_blocks : option KVCacheBlocks)
    (num_lookahead_tokens num_external_computed_tokens : Z) (delay_cache_blocks : bool)
    (num_encoder_tokens : Z) (full_sequence_must_fit : bool) (reserved_blocks : Z)
    (has_scheduled_reqs : bool) : K (option KVCacheBlocks) :=
  if (num_new_tokens =? 0) && (num_external_computed_tokens =? 0) then raise ValueError
  else
    k ← get;
    let rid := request_id r in
    let new_computed := default TheEmpty new_computed_blocks in
    let new_computed_block_list := blocks_of (num_kv_cache_groups k) new_computed in
    let num_local_computed_tokens := num_computed_tokens r + num_new_computed_tokens in
    let total_computed_tokens :=
      Z.min (num_local_computed_tokens + num_external_computed_tokens) (km_max_model_len k) in
    let watermark :=
      if has_scheduled_reqs && (bool_decide (status r = WAITING) || bool_decide (status r = PREEMPTED))
      then watermark_blocks k else 0 in
    fits ← (if full_sequence_must_fit then
              let full_num_tokens := Z.min (num_tokens r) (km_max_model_len k) in
              n ← onco (co_get_num_blocks_to_allocate rid full_num_tokens new_computed_block_list
                          num_encoder_tokens total_computed_tokens full_num_tokens true);
              k ← get;
              mret (negb (get_num_free_blocks (km_pool k) <? n + watermark))
            else mret true);
    if negb fits then mret None
    else
      let num_tokens_main_model := total_computed_tokens + num_new_tokens in
      let num_tokens_need_slot :=
        Z.min (num_tokens_main_model + num_lookahead_tokens) (km_max_model_len k) in
      _ ← onco (co_remove_skipped_blocks rid total_computed_tokens);
      num_blocks_to_allocate ← onco (co_get_num_blocks_to_allocate rid num_tokens_need_slot
        new_computed_block_list num_encoder_tokens
        (num_local_computed_tokens + num_external_computed_tokens) num_tokens_main_model false);
      k ← get;
      let available_blocks := get_num_free_blocks (km_pool k) - reserved_blocks in
      if available_blocks <? num_blocks_to_allocate + watermark then mret None
      else
        _ ← (if bool_decide (new_computed ≠ TheEmpty) || (0 <? num_external_computed_tokens)
             then onco (co_allocate_new_computed_blocks rid new_computed_block_list
                          num_local_computed_tokens num_external_computed_tokens)
             else mret tt);
        new_blocks ← onco (co_allocate_new_blocks rid num_tokens_need_slot num_tokens_main_model
                             num_encoder_tokens);
        if negb (km_enable_caching k) || delay_cache_blocks
        then mret (Some (create_kv_cache_blocks new_blocks))
        else
          let num_tokens_to_cache := Z.min (total_computed_tokens + num_new_tokens) (num_tokens r) in
          _ ← onco (co_cache_blocks r num_tokens_to_cache);
          mret (Some (create_kv_cache_blocks new_blocks)).

Definition km_cache_blocks (r : Request) (num_computed_tokens : Z) : K unit :=
  k ← get;
  if km_enable_caching k then onco (co_cache_blocks r num_computed_tokens) else mret tt.
End manager.

Definition km_free (r : Request) : K unit := onco (co_free (request_id r)).
Definition km_remove_skipped_blocks (rid : string) (total_computed_tokens : Z) : K unit :=
  onco (co_remove_skipped_blocks rid total_computed_tokens).
Definition km_evict_blocks (block_ids : list Z) : K unit := onpool_k (evict_blocks block_ids).

Definition km_reset_prefix_cache : K bool :=
  ok ← onpool_k reset_prefix_cache;
  if negb ok then mret false
  else
    k ← get;
    _ ← (if log_stats k then
           match prefix_cache_stats k with
           | None => raise AssertionError
           | Some s => put (km_set_prefix_cache_stats
               (Some (mkPrefixCacheStats true (st_requests s) (st_queries s) (st_hits s)
                        (st_preempted_requests s) (st_preempted_queries s) (st_preempted_hits s))) k)
           end
         else mret tt);
    mret true.

Definition km_get_num_common_prefix_blocks (rid : string) : K (list Z) :=
  onco (co_get_num_common_prefix_blocks rid).

(** Events with the annotation [(kind, sliding_window)] added here. *)
Definition km_take_events : K (list (KVCacheEvent * option (KVCacheSpecKind * option Z))) :=
  k ← get;
  events ← onpool_k pool_take_events;
  mret ((λ e, (e, match e with
                  | BlockStored _ _ _ _ _ _ _ group_idx =>
                      if (group_idx <? 0) || (zlen (kv_cache_event_metadata k) <=? group_idx) then None
                      else kv_cache_event_metadata k !! Z.to_nat group_idx
                  | _ => None
                  end)) <$> events).

Definition km_get_blocks (k : KVCacheManager) (rid : string) : KVCacheBlocks :=
  create_kv_cache_blocks (co_get_blocks (coordinator k) rid).
Definition km_get_block_ids (k : KVCacheManager) (rid : string) : option (list (list Z)) :=
  get_block_ids (pool_heap (km_pool k)) (num_kv_cache_groups k) (km_get_blocks k rid) false.

Definition km_take_new_block_ids : K (list Z) :=
  ids ← onco (for_managers (λ i, on_manager i take_new_block_ids)); mret (concat ids).

Definition km_new_step_starts : K unit := onco co_new_step_starts.
