(* ===== verification/AllocateSlots.v ===== *)
(** * Slot allocation

    The scheduler-facing operations of [KVCacheManager] against the ledger:
    allocating slots never fails half-way, never takes a block in use and always
    provides the slots it reports; freeing returns everything. *)

From Stdlib Require Import ZArith Lia QArith.
From S2P Require Import Prelude MathUtils KVSpec FreeQueue Request BlockHash BlockPool Ledger SingleType ManagerSpec CacheHit Coordinator CoordinatorSpec HybridHit KVCacheManager.
Local Open Scope Z_scope.

Lemma upto_trans c0 c1 c2 Post1 Post2 (Post : nat → Manager → Manager → Prop) n :
  upto c0 Post1 n c1 → upto c1 Post2 n c2 → n = length (single_type_managers c0) →
  (∀ i m0 m1 m2, single_type_managers c0 !! i = Some m0 → single_type_managers c1 !! i = Some m1 →
     Post1 i m0 m1 → Post2 i m1 m2 → Post i m0 m2) →
  upto c0 Post n c2.
Proof.
  intros [A1 A2 A3 A4 A5] [B1 B2 B3 B4 B5] Hn HP. split; [congruence|by etrans|congruence| |].
  - intros j m0 Hj Hm0. destruct (A4 j m0 Hj Hm0) as (m1 & Hm1 & HP1).
    destruct (B4 j m1 Hj Hm1) as (m2 & Hm2 & HP2). exists m2. eauto.
  - intros j Hj. by rewrite B5, A5.
Qed.

Lemma upto_mono c0 c1 (Post Post' : nat → Manager → Manager → Prop) n :
  (∀ i m m', single_type_managers c0 !! i = Some m → Post i m m' → Post' i m m') →
  upto c0 Post n c1 → upto c0 Post' n c1.
Proof.
  intros HP [A1 A2 A3 A4 A5]. split; try done. intros j m0 Hj Hm0.
  destruct (A4 j m0 Hj Hm0) as (m & ? & ?). eauto.
Qed.

(** A manager of the state after a loop, and the one it comes from. *)
Lemma upto_lookup c0 c1 Post i m1 :
  upto c0 Post (length (single_type_managers c0)) c1 → single_type_managers c1 !! i = Some m1 →
  ∃ m0, single_type_managers c0 !! i = Some m0 ∧ Post i m0 m1.
Proof.
  intros Hup Hm1. assert (i < length (single_type_managers c0))%nat as Hi.
  { rewrite <-(up_length _ _ _ _ Hup). by eapply lookup_lt_Some. }
  destruct (lookup_lt_is_Some_2 _ _ Hi) as [m0 Hm0]. exists m0. split; [done|].
  destruct (up_done _ _ _ _ Hup i m0 Hi Hm0) as (m & Hm & HP). by simplify_eq.
Qed.

Record km_inv (k : KVCacheManager) (free : list loc) : Prop := {
  ki_co : co_inv (coordinator k) free;
  ki_size : 0 < co_scheduler_block_size (coordinator k);
  ki_caching : km_enable_caching k = enable_caching (km_pool k);
  ki_groups : num_kv_cache_groups k = length (single_type_managers (coordinator k));
  ki_watermark : 0 ≤ watermark_blocks k;
  ki_stats : log_stats k = true → prefix_cache_stats k ≠ None
}.

(** The request's blocks after a successful allocation: attention's blocks are in
    place, and there are slots for all tokens. *)
Record served (rid : string) (rows : list (list loc)) (total tokens enc : Z) (i : nat) (m m' : Manager) : Prop := {
  sv_only : only rid m m';
  sv_slots : wanted_tokens m tokens enc ≤ mg_block_size m * zlen (blocks m' rid);
  sv_kept : ∀ j b, skipped_blocks m (settled_tokens m total) ≤ Z.of_nat j →
    blocks m rid !! j = Some b → blocks m' rid !! j = Some b;
  sv_hit : mg_class m ≠ CrossAttentionManager → ∀ row j b, rows !! i = Some row →
    skipped_blocks m total ≤ Z.of_nat j → row !! j = Some b → blocks m' rid !! j = Some b
}.

(** A refused request only loses blocks attention has left behind. *)
Definition refused (rid : string) (total : Z) (_ : nat) (m m' : Manager) : Prop :=
  skipped rid m m' (settled_tokens m total).

Lemma upto_refl c Post n : (∀ i m, single_type_managers c !! i = Some m → Post i m m) → upto c Post n c.
Proof. intros HP. split; try done. intros j m0 _ Hm. eauto. Qed.

(** How the scheduler calls [allocate_slots]: for a running request without a hit,
    whose blocks cover its computed tokens; or for a new request with the hit found
    for it. *)
Inductive call_mode (c : Coordinator) (rid : string) (rows : list (list loc)) (total ext : Z) (ncb : KVCacheBlocks) : Prop :=
  | Running : ncb = TheEmpty → ext = 0 →
      (∀ m, m ∈ single_type_managers c → covers m rid total) → call_mode c rid rows total ext ncb
  | New : (ncb ≠ TheEmpty ∨ 0 < ext) → hit_ok c rid rows total ext → call_mode c rid rows total ext ncb.

Lemma hit_blocks_lookup m row total j b :
  skipped_blocks m total ≤ Z.of_nat j → row !! j = Some b → hit_blocks m row total !! j = Some b.
Proof.
  intros Hj Hb. unfold hit_blocks, kept_row. rewrite lookup_app_r by (rewrite length_replicate; lia).
  rewrite length_replicate. destruct (Z.ltb_spec 0 (skipped_blocks m total)).
  - unfold py_from. rewrite lookup_drop. apply lookup_lt_Some in Hb as Hlt.
    rewrite clamp_index_pos by lia. rewrite <-Hb. f_equal. lia.
  - rewrite <-Hb. f_equal. lia.
Qed.

(** Skipping leaves what the other steps rely on. *)
Lemma skipped_new rid m m' n : skipped rid m m' n → new_request_in m rid → new_request_in m' rid.
Proof.
  intros [_ Hn Hl _ _] [H1 H2]. split; [by rewrite Hn|]. rewrite H2 in Hl.
  by destruct (blocks m' rid).
Qed.
Lemma only_class rid m m' : only rid m m' → mg_class m' = mg_class m.
Proof. intros [A _ _]. unfold conf in A. congruence. Qed.
Lemma only_skipped_blocks rid m m' n : only rid m m' → skipped_blocks m' n = skipped_blocks m n.
Proof.
  intros [A _ _]. unfold conf in A. injection A as Ec Es Eb _ _ _ _ _ _.
  unfold skipped_blocks, get_num_skipped_tokens. by rewrite Ec, Es, Eb.
Qed.
Lemma only_kept rid m m' row total : only rid m m' → kept_row m' row total = kept_row m row total.
Proof. intros Ho. unfold kept_row. by rewrite (only_skipped_blocks _ _ _ _ Ho). Qed.
Lemma skipped_covers rid m m' n total : skipped rid m m' n → covers m rid total → covers m' rid total.
Proof.
  intros [Ho _ Hl _ _]. unfold covers, zlen. by rewrite (only_class _ _ _ Ho), (only_size _ _ _ Ho), Hl.
Qed.

Lemma call_mode_skipped c c1 rid rows total ext ncb n :
  upto c (refused rid n) (length (single_type_managers c)) c1 →
  same_hashes (co_block_pool c) (co_block_pool c1) →
  call_mode c rid rows total ext ncb → call_mode c1 rid rows total ext ncb.
Proof.
  intros Hup Hh [He Hx Hcov|Hne [H1 H2 H3 H4 H5]].
  - apply Running; [done|done|]. intros m1 [i Hi]%list_elem_of_lookup_1.
    destruct (upto_lookup _ _ _ _ _ Hup Hi) as (m0 & Hm0 & Hsk).
    eapply skipped_covers; [exact Hsk|]. apply Hcov. by eapply list_elem_of_lookup_2.
  - apply New; [done|]. split; try done.
    + by rewrite (up_length _ _ _ _ Hup).
    + intros m1 [i Hi]%list_elem_of_lookup_1. destruct (upto_lookup _ _ _ _ _ Hup Hi) as (m0 & Hm0 & Hsk).
      eapply skipped_new; [exact Hsk|]. apply H3. by eapply list_elem_of_lookup_2.
    + intros i m1 row Hi Hrow. destruct (upto_lookup _ _ _ _ _ Hup Hi) as (m0 & Hm0 & Hsk).
      pose proof (sk_only _ _ _ _ Hsk) as Ho. destruct (H4 i m0 row Hm0 Hrow) as (Hr & Hl & Hcr).
      rewrite (only_size _ _ _ Ho), (only_class _ _ _ Ho). split; [|done].
      rewrite (only_kept _ _ _ _ _ Ho).
      eapply row_ok_same; [apply (up_pool _ _ _ _ Hup)|done|done].
    + by rewrite (up_length _ _ _ _ Hup).
Qed.

(** ** The two allocation steps *)

(** Counts that fit into the free blocks are real counts. *)
Lemma counts_fit c free rid tokens rows enc total l :
  co_inv c free → length rows = length (single_type_managers c) → length l = length (single_type_managers c) →
  (∀ i m row n, single_type_managers c !! i = Some m → rows !! i = Some row → l !! i = Some n →
     mg_class m = MambaManager ∧ n = num_gpu_blocks (co_block_pool c) + 1 ∨ counted c rid tokens enc total false m row n) →
  zsum l ≤ zlen free →
  ∀ i m row n, single_type_managers c !! i = Some m → rows !! i = Some row → l !! i = Some n →
    counted c rid tokens enc total false m row n.
Proof.
  intros Hc Hlr Hll Hcnt Hsum i m row n Hm Hrow Hn.
  destruct (Hcnt i m row n Hm Hrow Hn) as [[_ Hbig]|]; [exfalso|done].
  pose proof (lg_pool _ _ _ _ (ci_ledger _ _ Hc)) as Hp. pose proof (pi_pos _ _ _ Hp).
  assert (Hpos : ∀ x, x ∈ l → 0 ≤ x).
  { intros x [j Hj]%list_elem_of_lookup_1. assert (j < length l)%nat by (by eapply lookup_lt_Some).
    destruct (lookup_lt_is_Some_2 (single_type_managers c) j) as [m' Hm']; [lia|].
    destruct (lookup_lt_is_Some_2 rows j) as [row' Hrow']; [lia|].
    destruct (Hcnt j m' row' x Hm' Hrow' Hj) as [[_ ->]|Hx]; [lia|]. by eapply base_count_nonneg. }
  assert (n ≤ zsum l).
  { rewrite <-(take_drop i l), zsum_app, (zsum_lookup _ _ _ Hn).
    assert (0 ≤ zsum (take i l)) by (apply zsum_nonneg; intros x Hx; apply Hpos; eapply subseteq_take; exact Hx).
    assert (0 ≤ zsum (drop (S i) l)) by (apply zsum_nonneg; intros x Hx; apply Hpos; eapply subseteq_drop; exact Hx).
    lia. }
  pose proof (pool_conservation _ _ Hp) as Hcons.
  pose proof (ledger_num_free _ _ _ _ (ci_ledger _ _ Hc)). pose proof (zlen_nonneg (filter (λ i, refc (co_block_pool c) i ≠ 0) (seq 1 (nblocks (co_block_pool c) - 1)))).
  unfold num_referenced in *. lia.
Qed.

Record supplied (rid : string) (rows : list (list loc)) (total tokens enc : Z) (i : nat) (m m' : Manager) : Prop := {
  su_only : only rid m m';
  su_slots : wanted_tokens m tokens enc ≤ mg_block_size m * zlen (blocks m' rid);
  su_kept : ∀ j b, blocks m rid !! j = Some b → blocks m' rid !! j = Some b;
  su_hit : mg_class m ≠ CrossAttentionManager → ∀ row j b, rows !! i = Some row →
    skipped_blocks m total ≤ Z.of_nat j → row !! j = Some b → blocks m' rid !! j = Some b
}.

(** For a running request the counts are the blocks it lacks. *)
Lemma running_counts c free rid tokens enc total l :
  co_inv c free → length l = length (single_type_managers c) → 0 ≤ total →
  (∀ m, m ∈ single_type_managers c → covers m rid total) →
  (∀ i m x, single_type_managers c !! i = Some m → l !! i = Some x → counted c rid tokens enc total false m [] x) →
  l = wants rid tokens enc <$> single_type_managers c.
Proof.
  intros Hc Hl Ht Hcov Hcnt. apply list_eq_same_length with (length l); [by rewrite length_fmap|done|].
  intros i x y Hi Hx Hy. apply list_lookup_fmap_Some in Hy as (m & -> & Hm).
  assert (m ∈ single_type_managers c) by (by eapply list_elem_of_lookup_2).
  eapply count_running; [by apply (ci_static _ _ Hc)|by apply Hcov|exact Ht|exact (Hcnt i m x Hm Hx)].
Qed.

(** Taking the hit, when there is one. *)
Lemma take_hit_spec c free rid ncb local ext tokens enc l :
  let n := length (single_type_managers c) in
  let rows := blocks_of n ncb in
  co_inv c free → call_mode c rid rows (local + ext) ext ncb → 0 ≤ local + ext ≤ tokens → length l = n →
  (∀ i m row x, single_type_managers c !! i = Some m → rows !! i = Some row → l !! i = Some x →
     counted c rid tokens enc (local + ext) false m row x) →
  zsum l ≤ zlen free →
  ∃ c' free', (if bool_decide (ncb ≠ TheEmpty) || (0 <? ext)
               then co_allocate_new_computed_blocks rid rows local ext else mret tt) c = Ok (tt, c')
    ∧ co_inv c' free'
    ∧ zsum (wants rid tokens enc <$> single_type_managers c') + (zlen free - zsum l) ≤ zlen free'
    ∧ upto c (λ i m m', only rid m m' ∧ (∀ j b, blocks m rid !! j = Some b → blocks m' rid !! j = Some b)
        ∧ (mg_class m ≠ CrossAttentionManager → ∀ row j b, rows !! i = Some row →
             skipped_blocks m (local + ext) ≤ Z.of_nat j → row !! j = Some b → blocks m' rid !! j = Some b)) n c'.
Proof.
  intros n rows Hc Hmode Ht Hl Hcnt Hsum. destruct Hmode as [-> -> Hcov|Hne Hhit].
  - rewrite bool_decide_eq_false_2 by auto. simpl. exists c, free. split; [done|]. split; [done|]. split.
    + rewrite (running_counts c free rid tokens enc (local + 0) l) at 1; [lia|done|done|lia|by rewrite Z.add_0_r in *|].
      intros i m x Hm Hx. apply (Hcnt i m []); [done| |done]. apply lookup_replicate_2. by eapply lookup_lt_Some.
    + apply upto_refl. intros i m Hm. split; [done|]. split; [done|]. intros _ row j b Hrow _ Hb.
      apply lookup_replicate in Hrow as [-> _]. done.
  - replace (bool_decide (ncb ≠ TheEmpty) || (0 <? ext)) with true.
    2:{ symmetry. apply orb_true_iff. destruct Hne; [left; by apply bool_decide_eq_true|right; by apply Z.ltb_lt]. }
    destruct (co_computed_spec c free rid rows local ext tokens enc l) as (c' & free' & E & Hc' & Hup & Hw); [done|done|lia|done|done|done|].
    exists c', free'. split; [done|]. split; [done|]. split; [done|].
    eapply upto_mono; [|exact Hup]. intros i m m' Hm [Ho [[Ec ->]|(Ec & row & new & Hrow & Hb & _ & _)]].
    + split; [done|]. split; [done|]. by intros ?.
    + split; [done|].
      destruct (ho_new _ _ _ _ _ Hhit m) as [_ Hnil]; [by eapply list_elem_of_lookup_2|]. split.
      * intros j b Hj. by rewrite Hnil in Hj.
      * intros _ row' j b Hrow' Hj Hb'. simplify_eq. rewrite Hb. apply lookup_app_l_Some. by apply hit_blocks_lookup.
Qed.

Lemma supply_spec c free rid ncb local ext tokens main enc l :
  let n := length (single_type_managers c) in
  let rows := blocks_of n ncb in
  co_inv c free → call_mode c rid rows (local + ext) ext ncb → 0 ≤ local + ext ≤ tokens → length l = n →
  (∀ i m row x, single_type_managers c !! i = Some m → rows !! i = Some row → l !! i = Some x →
     counted c rid tokens enc (local + ext) false m row x) →
  zsum l ≤ zlen free →
  ∃ c1 c2 new free2, (if bool_decide (ncb ≠ TheEmpty) || (0 <? ext)
               then co_allocate_new_computed_blocks rid rows local ext else mret tt) c = Ok (tt, c1)
    ∧ co_allocate_new_blocks rid tokens main enc c1 = Ok (new, c2) ∧ co_inv c2 free2
    ∧ upto c (supplied rid rows (local + ext) tokens enc) n c2.
Proof.
  intros n rows Hc Hmode Ht Hl Hcnt Hsum.
  destruct (take_hit_spec c free rid ncb local ext tokens enc l) as (c1 & free1 & E1 & Hc1 & Hw & Hup1); [done..|].
  destruct (co_allocate_spec c1 free1 rid tokens main enc Hc1) as (new & c2 & free2 & E2 & Hc2 & Hup2 & _ & _); [lia|].
  exists c1, c2, new, free2. split; [done|]. split; [done|]. split; [done|].
  rewrite (up_length _ _ _ _ Hup1) in Hup2. eapply upto_trans; [exact Hup1|exact Hup2|done|].
  intros i m0 m1 m2 Hm0 Hm1 (Ho1 & Hk1 & Hh1) (Ho2 & _ & (fresh & Hb2 & _) & Hs2).
  split; [by etrans| | |].
  - rewrite <-(only_wanted _ _ _ _ _ Ho1), <-(only_size _ _ _ Ho1). done.
  - intros j b Hj. rewrite Hb2. apply lookup_app_l_Some. auto.
  - intros Hcl row j b Hrow Hj Hb. rewrite Hb2. apply lookup_app_l_Some. by eapply Hh1.
Qed.

(** ** Caching after allocation *)

Section slots.
Context `{HashConfig}.

(** What the request brings: its full blocks are hashed. *)
Record hashed_request (c : Coordinator) (r : Request) : Prop := {
  hr_class : ∀ m, m ∈ single_type_managers c → mg_class m ≠ CrossAttentionManager;
  hr_hashes : ∀ m, m ∈ single_type_managers c → num_tokens r / mg_block_size m
    ≤ zlen (hashes_at (hash_block_size (co_block_pool c)) (mg_block_size m) (block_hashes r));
  hr_request : mm_sorted (mm_features r) ∧ memo_ok r
}.

Lemma cacheable_ok c free r tokens m :
  co_inv c free → 0 < co_scheduler_block_size c → enable_caching (co_block_pool c) = true →
  hashed_request c r → 0 ≤ tokens ≤ num_tokens r → m ∈ single_type_managers c →
  tokens ≤ mg_block_size m * zlen (blocks m (request_id r)) →
  cacheable (co_block_pool c) m r (to_cache c tokens m).
Proof.
  intros Hc Hs He [H1 H2 H3] Ht Hm Hcov. pose proof (ci_static _ _ Hc m Hm) as Hst.
  pose proof (ms_size _ _ Hst) as Hb. destruct (to_cache_bounds c tokens m ltac:(lia) Hs Hb) as [Hlo Hhi].
  split; [done|by apply H1|by rewrite (ms_caching _ _ Hst)| | |done].
  - apply Z.div_le_upper_bound; lia.
  - etrans; [|by apply H2]. apply Z.div_le_mono; lia.
Qed.

Lemma onco_ok {A} (f : C A) k a c : f (coordinator k) = Ok (a, c) → onco f k = Ok (a, km_set_coordinator c k).
Proof. unfold onco, zoom. by intros ->. Qed.
Lemma km_set_same k : km_set_coordinator (coordinator k) k = k.
Proof. by destruct k. Qed.

(** The check that the whole sequence fits does not change anything. *)
Lemma fits_run k free rid rows enc total full watermark :
  km_inv k free → length rows = length (single_type_managers (coordinator k)) →
  (∀ i m row, single_type_managers (coordinator k) !! i = Some m → rows !! i = Some row →
     is_Some (num_cached_block m !! rid) → row = []) →
  ∃ n, (n ← onco (co_get_num_blocks_to_allocate rid full rows enc total full true);
        k ← get; mret (negb (get_num_free_blocks (km_pool k) <? n + watermark))) k
       = Ok (negb (get_num_free_blocks (km_pool k) <? n + watermark), k).
Proof.
  intros [Hc _ _ _ _ _] Hl Hrows.
  destruct (co_count_spec _ _ rid full rows enc total full true Hc Hl Hrows) as (l & E & _).
  exists (zsum l). rewrite (bind_ok _ _ _ _ _ (onco_ok _ _ _ _ E)), km_set_same. done.
Qed.

Lemma call_mode_rows c rid ncb total ext :
  let rows := blocks_of (length (single_type_managers c)) ncb in
  call_mode c rid rows total ext ncb →
  length rows = length (single_type_managers c)
  ∧ ∀ i m row, single_type_managers c !! i = Some m → rows !! i = Some row →
      is_Some (num_cached_block m !! rid) → row = [].
Proof.
  intros rows [-> _ _|_ [H1 _ H3 _ _]].
  - split; [apply length_replicate|]. by intros i m row _ [-> _]%lookup_replicate.
  - split; [done|]. intros i m row Hm _ [x Hx]. destruct (H3 m) as [Hn _]; [by eapply list_elem_of_lookup_2|].
    congruence.
Qed.

Lemma km_inv_set k free c free' Post :
  km_inv k free → co_inv c free' → upto (coordinator k) Post (length (single_type_managers (coordinator k))) c →
  km_inv (km_set_coordinator c k) free'.
Proof.
  intros [_ Hs Hca Hg Hw Hst] Hc Hup. pose proof (up_conf _ _ _ _ Hup) as Hcf. unfold co_conf in Hcf.
  injection Hcf as _ _ _ _ Hsz _ _ _ _. split; simpl; [done|congruence| |by rewrite (up_length _ _ _ _ Hup)|done|done].
  rewrite Hca. unfold km_pool. simpl. destruct (up_pool _ _ _ _ Hup) as (_ & -> & _). done.
Qed.

(** A call of [allocate_slots] by the scheduler. *)
Record slots_pre (k : KVCacheManager) (r : Request) (num_new num_new_computed : Z)
    (ncb : KVCacheBlocks) (lookahead ext reserved : Z) : Prop := {
  sp_new : 0 ≤ num_new ∧ 0 ≤ lookahead ∧ 0 ≤ ext ∧ (0 < num_new ∨ 0 < ext);
  sp_total : 0 ≤ num_computed_tokens r + num_new_computed + ext;
  sp_fits : num_computed_tokens r + num_new_computed + ext + num_new ≤ km_max_model_len k;
  sp_reserved : 0 ≤ reserved;
  sp_mode : call_mode (coordinator k) (request_id r)
    (blocks_of (length (single_type_managers (coordinator k))) ncb)
    (num_computed_tokens r + num_new_computed + ext) ext ncb;
  sp_hashed : km_enable_caching k = true → 0 ≤ num_tokens r ∧ hashed_request (coordinator k) r
}.

(** The last step: caching, when it is due. *)
Lemma slots_cache k free r tokens (new : list (list loc)) (delay : bool) :
  km_inv k free → (km_enable_caching k = true → 0 ≤ num_tokens r ∧ hashed_request (coordinator k) r) →
  0 ≤ tokens →
  (∀ m, m ∈ single_type_managers (coordinator k) → mg_class m ≠ CrossAttentionManager →
     tokens ≤ mg_block_size m * zlen (blocks m (request_id r))) →
  ∃ c', (if negb (km_enable_caching k) || delay then mret (Some (create_kv_cache_blocks new))
         else
           _ ← onco (co_cache_blocks r (Z.min tokens (num_tokens r)));
           mret (Some (create_kv_cache_blocks new))) k
        = Ok (Some (create_kv_cache_blocks new), km_set_coordinator c' k)
    ∧ co_inv c' free
    ∧ upto (coordinator k) (λ _ m m', only (request_id r) m m' ∧ blocks m' (request_id r) = blocks m (request_id r))
        (length (single_type_managers (coordinator k))) c'.
Proof.
  intros [Hc Hs Hca _ _ _] Hh Ht Hcov.
  destruct (negb (km_enable_caching k) || delay) eqn:Ed.
  { exists (coordinator k). rewrite km_set_same. split; [done|]. split; [done|]. by apply upto_refl. }
  apply orb_false_iff in Ed as [Ee%negb_false_iff _]. destruct (Hh Ee) as [Hn Hhr].
  destruct (co_cache_spec (coordinator k) free r (Z.min tokens (num_tokens r)) Hc) as (c' & E & Hc' & Hup).
  { intros m Hm. apply (cacheable_ok _ free); try done; [by unfold km_pool in Hca; rewrite <-Hca|lia|].
    specialize (Hcov m Hm (hr_class _ _ Hhr m Hm)). lia. }
  exists c'. rewrite (bind_ok _ _ _ _ _ (onco_ok _ _ _ _ E)). split; [done|]. split; [done|].
  eapply upto_mono; [|exact Hup]. intros i m m' _ (Ho & Hb & _). done.
Qed.

Lemma hashed_request_same c c' r Post :
  upto c Post (length (single_type_managers c)) c' → (∀ i m m', Post i m m' → only (request_id r) m m') →
  hashed_request c r → hashed_request c' r.
Proof.
  intros Hup HP [H1 H2 H3]. split; [| |done].
  - intros m [i Hi]%list_elem_of_lookup_1. destruct (upto_lookup _ _ _ _ _ Hup Hi) as (m0 & Hm0 & Hpost).
    rewrite (only_class _ _ _ (HP _ _ _ Hpost)). apply H1. by eapply list_elem_of_lookup_2.
  - intros m [i Hi]%list_elem_of_lookup_1. destruct (upto_lookup _ _ _ _ _ Hup Hi) as (m0 & Hm0 & Hpost).
    rewrite (only_size _ _ _ (HP _ _ _ Hpost)). destruct (up_pool _ _ _ _ Hup) as (_ & _ & -> & _).
    apply H2. by eapply list_elem_of_lookup_2.
Qed.

(** Not enough free blocks for what the request lacks. *)
Definition short (k : KVCacheManager) (rid : string) (need enc reserved watermark : Z) : Prop :=
  get_num_free_blocks (km_pool k) - reserved
    < zsum (wants rid need enc <$> single_type_managers (coordinator k)) + watermark.
Definition no_mamba (c : Coordinator) : Prop := ∀ m, m ∈ single_type_managers c → mg_class m ≠ MambaManager.

Lemma count_short k free rid ncb need enc total ext l reserved watermark :
  let N := length (single_type_managers (coordinator k)) in
  km_inv k free → call_mode (coordinator k) rid (blocks_of N ncb) total ext ncb → 0 ≤ total → length l = N →
  (∀ i m row n, single_type_managers (coordinator k) !! i = Some m → blocks_of N ncb !! i = Some row → l !! i = Some n →
     mg_class m = MambaManager ∧ n = num_gpu_blocks (km_pool k) + 1
     ∨ counted (coordinator k) rid need enc total false m row n) →
  ncb = TheEmpty → ext = 0 → no_mamba (coordinator k) →
  zlen free - reserved < zsum l + watermark ↔ short k rid need enc reserved watermark.
Proof.
  intros N Hk Hmode Ht Hl Hcnt Hnc Hex Hm. pose proof (ki_co _ _ Hk) as Hc. unfold short, km_pool.
  rewrite (ledger_num_free _ _ _ _ (ci_ledger _ _ Hc)).
  destruct Hmode as [_ _ Hcov|[?|?] _]; [|done|lia].
  rewrite <-(running_counts (coordinator k) free rid need enc total l); try done.
  intros i m x Hi Hx. destruct (Hcnt i m [] x Hi) as [[Hmm _]|?]; [|done| |done].
  - rewrite Hnc. apply lookup_replicate_2. by eapply lookup_lt_Some.
  - destruct (Hm m); [by eapply list_elem_of_lookup_2|done].
Qed.

(** After skipped blocks are gone: count, compare, take the hit, allocate, cache. *)
Lemma slots_after_skip k free r num_new num_new_computed ncb lookahead ext delay enc reserved watermark :
  let N := length (single_type_managers (coordinator k)) in
  let rid := request_id r in
  let rows := blocks_of N ncb in
  let local := num_computed_tokens r + num_new_computed in
  let main := local + ext + num_new in
  let need := Z.min (main + lookahead) (km_max_model_len k) in
  km_inv k free → slots_pre k r num_new num_new_computed ncb lookahead ext reserved → 0 ≤ watermark →
  ∃ res k' free',
    (num_blocks_to_allocate ← onco (co_get_num_blocks_to_allocate rid need rows enc (local + ext) main false);
     k ← get;
     if get_num_free_blocks (km_pool k) - reserved <? num_blocks_to_allocate + watermark then mret None
     else
       _ ← (if bool_decide (ncb ≠ TheEmpty) || (0 <? ext)
            then onco (co_allocate_new_computed_blocks rid rows local ext) else mret tt);
       new_blocks ← onco (co_allocate_new_blocks rid need main enc);
       if negb (km_enable_caching k) || delay then mret (Some (create_kv_cache_blocks new_blocks))
       else
         _ ← onco (co_cache_blocks r (Z.min main (num_tokens r)));
         mret (Some (create_kv_cache_blocks new_blocks))) k = Ok (res, k')
    ∧ km_inv k' free'
    ∧ match res with
      | None => k' = k ∧ (ncb = TheEmpty → ext = 0 → no_mamba (coordinator k) → short k rid need enc reserved watermark)
      | Some _ => upto (coordinator k) (supplied rid rows (local + ext) need enc) N (coordinator k')
          ∧ (ncb = TheEmpty → ext = 0 → no_mamba (coordinator k) → ¬ short k rid need enc reserved watermark)
      end.
Proof.
  intros N rid rows local main need Hk [(Hn & Hla & Hex & _) Ht Hfit Hres Hmode Hhash] Hwm.
  pose proof (ki_co _ _ Hk) as Hc. destruct (call_mode_rows _ _ _ _ _ Hmode) as [Hlr Hrows].
  destruct (co_count_spec _ _ rid need rows enc (local + ext) main false Hc Hlr Hrows) as (l & E & Hll & Hcnt).
  rewrite (bind_ok _ _ _ _ _ (onco_ok _ _ _ _ E)), km_set_same. mstep.
  assert (get_num_free_blocks (km_pool k) = zlen free) as -> by apply (ledger_num_free _ _ _ _ (ci_ledger _ _ Hc)).
  destruct (Z.ltb_spec (zlen free - reserved) (zsum l + watermark)) as [Hlt|Hle].
  { exists None, k, free. split; [done|]. split; [done|]. split; [done|]. intros Hnc He Hm. by eapply (count_short k free rid ncb need enc (local + ext) ext l). }
  pose proof (counts_fit _ _ _ _ _ _ _ _ Hc Hlr Hll Hcnt ltac:(lia)) as Hreal.
  destruct (supply_spec (coordinator k) free rid ncb local ext need main enc l Hc Hmode)
    as (c1 & c2 & new & free2 & E1 & E2 & Hc2 & Hup2); [unfold need, main, local; lia|done|done|lia|]. fold rows in E1.
  rewrite (bind_ok _ _ _ tt (km_set_coordinator c1 k)).
  2:{ destruct (bool_decide (ncb ≠ TheEmpty) || (0 <? ext)); [by apply onco_ok|].
      unfold mret, M_ret in E1. simplify_eq. by rewrite km_set_same. }
  rewrite (bind_ok _ _ _ new (km_set_coordinator c2 k)) by (unfold onco, zoom; simpl; by rewrite E2).
  set (k2 := km_set_coordinator c2 k).
  assert (Hk2 : km_inv k2 free2) by (by eapply km_inv_set).
  destruct (slots_cache k2 free2 r main new delay Hk2) as (c3 & E3 & Hc3 & Hup3).
  { intros He. destruct (Hhash He). split; [done|]. eapply hashed_request_same; [exact Hup2| |done].
    intros i m m' Hsu. apply (su_only _ _ _ _ _ _ _ _ Hsu). }
  { unfold main, local. lia. }
  { intros m2 [i Hi]%list_elem_of_lookup_1 Hcl. simpl in Hi. destruct (upto_lookup _ _ _ _ _ Hup2 Hi) as (m0 & Hm0 & Hsu).
    pose proof (su_only _ _ _ _ _ _ _ _ Hsu) as Ho. rewrite (only_class _ _ _ Ho) in Hcl.
    rewrite (only_size _ _ _ Ho). etrans; [|apply (su_slots _ _ _ _ _ _ _ _ Hsu)].
    rewrite wanted_other by done. etrans; [|eapply slot_tokens_ge, (ci_static _ _ Hc); by eapply list_elem_of_lookup_2].
    unfold need, main, local. lia. }
  change (km_enable_caching k2) with (km_enable_caching k) in E3. rewrite E3.
  exists (Some (create_kv_cache_blocks new)), (km_set_coordinator c3 k), free2. split; [done|].
  assert (Hup : upto (coordinator k) (supplied rid rows (local + ext) need enc) N c3).
  { simpl in Hup3. rewrite (up_length _ _ _ _ Hup2) in Hup3. eapply upto_trans; [exact Hup2|exact Hup3|done|].
    intros i m0 m1 m2 _ _ [H1 H2 H3 H4] [Ho Hb]. fold rid in Ho, Hb. split; rewrite ?Hb; try done. by etrans. }
  split; [by eapply km_inv_set|]. split; [done|]. intros Hnc He Hm Hsh.
  apply (count_short k free rid ncb need enc (local + ext) ext l) in Hsh; try done. lia.
Qed.

Lemma slots_pre_skipped k k1 r num_new num_new_computed ncb lookahead ext reserved n :
  upto (coordinator k) (refused (request_id r) n) (length (single_type_managers (coordinator k))) (coordinator k1) →
  same_hashes (km_pool k) (km_pool k1) → km_max_model_len k1 = km_max_model_len k →
  km_enable_caching k1 = km_enable_caching k →
  slots_pre k r num_new num_new_computed ncb lookahead ext reserved →
  slots_pre k1 r num_new num_new_computed ncb lookahead ext reserved.
Proof.
  intros Hup Hh Hml He [H1 H2 H3 H4 H5 H6]. split; try done; [by rewrite Hml| |].
  - rewrite (up_length _ _ _ _ Hup). by eapply call_mode_skipped.
  - rewrite He. intros Hc. destruct (H6 Hc). split; [done|]. eapply hashed_request_same; [exact Hup| |done].
    intros i m m' Hsk. apply (sk_only _ _ _ _ Hsk).
Qed.

Lemma served_compose rid rows total tokens enc i m m1 m2 :
  refused rid total i m m1 → supplied rid rows total tokens enc i m1 m2 →
  served rid rows total tokens enc i m m2.
Proof.
  intros [Ho _ Hl Hk _] [Ho2 Hs Hk2 Hh]. split; [by etrans| | |].
  - by rewrite <-(only_wanted _ _ _ _ _ Ho), <-(only_size _ _ _ Ho).
  - intros j b Hj Hb. apply Hk2. by rewrite Hk.
  - intros Hcl row j b Hrow Hj Hb. eapply Hh; [by rewrite (only_class _ _ _ Ho)|done| |done].
    by rewrite (only_skipped_blocks _ _ _ _ Ho).
Qed.

(** The blocks kept free beyond a request's own need. *)
Definition headroom (k : KVCacheManager) (r : Request) (has_scheduled_reqs : bool) : Z :=
  if has_scheduled_reqs && (bool_decide (status r = WAITING) || bool_decide (status r = PREEMPTED))
  then watermark_blocks k else 0.

Lemma allocate_slots_run k free r num_new num_new_computed ncbo lookahead ext delay enc must_fit reserved scheduled :
  let ncb := default TheEmpty ncbo in
  let N := length (single_type_managers (coordinator k)) in
  let rid := request_id r in
  let total := num_computed_tokens r + num_new_computed + ext in
  let need := Z.min (total + num_new + lookahead) (km_max_model_len k) in
  km_inv k free → slots_pre k r num_new num_new_computed ncb lookahead ext reserved →
  ∃ res k' free',
    allocate_slots r num_new num_new_computed ncbo lookahead ext delay enc must_fit reserved scheduled k = Ok (res, k')
    ∧ km_inv k' free'
    ∧ match res with
      | None => upto (coordinator k) (refused rid total) N (coordinator k')
          ∧ (must_fit = false → ncb = TheEmpty → ext = 0 → no_mamba (coordinator k') →
             short k' rid need enc reserved (headroom k r scheduled))
      | Some _ => upto (coordinator k) (served rid (blocks_of N ncb) total need enc) N (coordinator k')
          ∧ ∃ k1 free1, km_inv k1 free1 ∧ upto (coordinator k) (refused rid total) N (coordinator k1)
              ∧ num_gpu_blocks (km_pool k1) = num_gpu_blocks (km_pool k)
              ∧ (ncb = TheEmpty → ext = 0 → no_mamba (coordinator k1) → ¬ short k1 rid need enc reserved (headroom k r scheduled))
      end.
Proof.
  intros ncb N rid total need Hk Hpre. pose proof Hpre as [Hnew Ht Hfit Hres Hmode Hhash].
  unfold allocate_slots. rewrite (proj2 (andb_false_iff _ _)) by (destruct Hnew as (?&?&?&[?|?]); [left|right]; apply Z.eqb_neq; lia).
  mstep. fold rid ncb total. rewrite (ki_groups _ _ Hk). fold N.
  assert (Z.min total (km_max_model_len k) = total) as -> by (unfold total; lia).
  fold (headroom k r scheduled). set (wm := headroom k r scheduled).
  assert (0 ≤ wm) as Hwm by (pose proof (ki_watermark _ _ Hk); unfold wm, headroom; case_match; lia).
  destruct (call_mode_rows _ _ _ _ _ Hmode) as [Hlr Hrows].
  assert (∃ b, (if must_fit then
              n ← onco (co_get_num_blocks_to_allocate rid (Z.min (num_tokens r) (km_max_model_len k))
                          (blocks_of N ncb) enc total (Z.min (num_tokens r) (km_max_model_len k)) true);
              k ← get; mret (negb (get_num_free_blocks (km_pool k) <? n + wm))
            else mret true) k = Ok (b, k)) as [b Eb].
  { destruct must_fit; [|by eexists].
    destruct (fits_run k free rid (blocks_of N ncb) enc total (Z.min (num_tokens r) (km_max_model_len k)) wm Hk Hlr Hrows) as [n En].
    by eexists. }
  rewrite (bind_ok _ _ _ _ _ Eb). destruct b; simpl.
  2:{ exists None, k, free. split; [done|]. split; [done|]. split; [apply upto_refl; intros i m _; apply skipped_refl|].
      intros ->. unfold mret, M_ret in Eb. congruence. }
  destruct (co_remove_skipped_spec _ _ rid total (ki_co _ _ Hk)) as (c1 & free1 & E1 & Hc1 & Hup1 & Hh1).
  rewrite (bind_ok _ _ _ _ _ (onco_ok _ _ _ _ E1)). set (k1 := km_set_coordinator c1 k).
  assert (Hk1 : km_inv k1 free1) by (by eapply km_inv_set).
  assert (Hpre1 : slots_pre k1 r num_new num_new_computed ncb lookahead ext reserved)
    by (eapply slots_pre_skipped; [exact Hup1|done..]).
  destruct (slots_after_skip k1 free1 r num_new num_new_computed ncb lookahead ext delay enc reserved wm Hk1 Hpre1 Hwm)
    as (res & k' & free' & E & Hk' & Hres').
  simpl in E, Hres'. rewrite (up_length _ _ _ _ Hup1) in E, Hres'. fold rid total in E, Hres'.
  exists res, k', free'. split; [exact E|]. split; [done|]. destruct res.
  - destruct Hres' as [Hsup Hfit']. split.
    + eapply upto_trans; [exact Hup1|exact Hsup|done|]. intros i m0 m1 m2 _ _. apply served_compose.
    + exists k1, free1. split; [done|]. split; [exact Hup1|]. split; [|done]. destruct (up_pool _ _ _ _ Hup1) as (Hn & _). done.
  - destruct Hres' as [-> Hsh]. split; [exact Hup1|]. by intros _.
Qed.
End slots.
