(* ===== verification/ManagerTrace.v ===== *)
(** * The manager over its lifetime

    A new [KVCacheManager] is balanced, every operation keeps it balanced, and a
    manager without requests has all its blocks free again. *)

From Stdlib Require Import ZArith Lia QArith.
From S2P Require Import Prelude MathUtils KVSpec FreeQueue Request BlockHash BlockPool Ledger SingleType ManagerSpec CacheHit Coordinator CoordinatorSpec HybridHit KVCacheManager AllocateSlots.
Local Open Scope Z_scope.

(** ** Construction *)

(** The specs covered: every registered class but the sink class (whose constructor
    does not accept the coordinator's arguments) and aligned Mamba. *)
Definition spec_ok (s : LayerSpec) : Prop :=
  0 < layer_block_size s ∧
  match get_manager_class s with
  | Some SlidingWindowManager => ∃ w, spec_sliding_window s = Some w ∧ 1 ≤ w
  | Some ChunkedLocalAttentionManager => ∃ c, spec_chunk_size s = Some c ∧ 0 < c
  | Some MambaManager => ∃ f, mamba_fields s = Some f ∧ mamba_cache_mode f ≠ "align"%string
      ∧ 0 ≤ num_speculative_blocks f
  | Some FullAttentionManager | Some CrossAttentionManager => True
  | Some SinkFullAttentionManager | None => False
  end.

Definition group_spec_ok (sched hbs : Z) (caching : bool) (g : KVCacheGroupSpec) : Prop :=
  ∃ s, kv_cache_spec g = OneSpec s ∧ spec_ok s ∧ sched mod layer_block_size s = 0
    ∧ (caching = true → layer_block_size s mod hbs = 0).

(** A manager without requests. *)
Definition idle (m : Manager) : Prop := req_to_blocks m = ∅ ∧ num_cached_block m = ∅.

Lemma new_manager_ok s cls p sched gid adm :
  get_manager_class s = Some cls → spec_ok s → null_block p = Block 0 → 0 < hash_block_size p →
  (enable_caching p = true → layer_block_size s mod hash_block_size p = 0) → 0 ≤ gid < 256 ^ 4 →
  sched mod layer_block_size s = 0 →
  mgr_static p (new_manager cls s p (enable_caching p) gid sched 1 1 adm)
  ∧ idle (new_manager cls s p (enable_caching p) gid sched 1 1 adm).
Proof.
  intros Hcls [Hb Hok] Hnull Hh Hmod Hg Hs. rewrite Hcls in Hok.
  assert (mg_block_size (new_manager cls s p (enable_caching p) gid sched 1 1 adm) = layer_block_size s) as Hbs
    by (simpl; lia).
  split; [|done]. split; rewrite ?Hbs; try done.
  - intros He. split; [done|by apply Hmod].
  - simpl. intros ->. destruct Hok as (f & Hf & Hal & Hsp). unfold align_mode, spec_blocks. simpl. rewrite Hf.
    split; [by apply bool_decide_eq_false|]. done.
  - simpl. intros ->. destruct Hok as (w & ? & ?). by exists w.
  - simpl. intros ->. done.
Qed.

Lemma new_managers_ok groups i mb ml sched p :
  null_block p = Block 0 → 0 < hash_block_size p → 0 ≤ i → i + zlen groups ≤ 256 ^ 4 →
  Forall (group_spec_ok sched (hash_block_size p) (enable_caching p)) groups →
  ∃ ms, new_managers groups i mb ml (enable_caching p) sched 1 1 p = Ok (ms, p)
    ∧ Forall (λ m, mgr_static p m ∧ idle m) ms ∧ length ms = length groups.
Proof.
  intros Hnull Hh. revert i. induction groups as [|g groups IH]; intros i Hi Hlen Hg; [by exists []|].
  apply Forall_cons in Hg as [(s & Es & Hok & Hs & Hmod) Hg]. rewrite zlen_cons in Hlen.
  destruct (IH (i + 1)) as (ms & E & Hms & Hl); [lia|lia|done|]. pose proof (zlen_nonneg groups).
  cbn [new_managers]. unfold get_manager_for_kv_cache_spec. rewrite Es.
  pose proof Hok as [_ Hcl]. destruct (get_manager_class s) as [cls|] eqn:Ec; [|done].
  assert (Hnew := new_manager_ok s cls p sched i (max_admission_blocks_per_request s mb ml) Ec Hok Hnull Hh Hmod
    ltac:(lia) Hs).
  destruct cls; try done; mstep; rewrite (bind_ok _ _ _ _ _ E);
    (eexists; split; [done|]; split; [by constructor|by simpl; rewrite Hl]).
Qed.

Lemma idle_co_inv c p free :
  co_block_pool c = p → pool_inv p free [] → (∀ i, (0 < i < nblocks p)%nat → refc p i = 0) →
  (∀ m, m ∈ single_type_managers c → mgr_static p m ∧ idle m) → co_inv c free.
Proof.
  intros Hp Hpool Hr Hms.
  assert (Ho : owned_all (single_type_managers c) = [] ∧ fresh_all (single_type_managers c) = []).
  { clear Hp. revert Hms. unfold owned_all, fresh_all. induction (single_type_managers c) as [|m ms IH]; intros Hms; [done|].
    destruct IH as [E1 E2]; [intros x Hx; apply Hms; by right|]. csimpl. rewrite E1, E2.
    destruct (Hms m) as [_ [Hi _]]; [left|]. unfold owned, fresh_of, owned_map, fresh_map.
    by rewrite Hi, map_to_list_empty. }
  destruct Ho as [E1 E2]. split; rewrite ?Hp, ?E1, ?E2.
  - split; [done|constructor| |by intros b ?%not_elem_of_nil]. intros i Hi. by rewrite Hr.
  - intros m Hm. by apply Hms.
  - intros m rid Hm. destruct (Hms m Hm) as [_ [Hi _]]. unfold blocks. rewrite Hi, lookup_empty. constructor.
  - intros m rid Hm. destruct (Hms m Hm) as [_ [Hi Hn]]. unfold blocks, ncached. by rewrite Hi, Hn, !lookup_empty.
Qed.

(** A coordinator whose managers hold nothing. *)
Definition fresh_coordinator (c : Coordinator) (n : Z) (caching : bool) (sched : Z) (groups : list KVCacheGroupSpec) : Prop :=
  (∃ free, co_inv c free) ∧ co_scheduler_block_size c = sched ∧ enable_caching (co_block_pool c) = caching
  ∧ num_gpu_blocks (co_block_pool c) = n ∧ length (single_type_managers c) = length groups
  ∧ ∀ m, m ∈ single_type_managers c → idle m.

Definition specs_ok (groups : list KVCacheGroupSpec) : Prop :=
  Forall (λ g, ∃ s, kv_cache_spec g = OneSpec s ∧ spec_ok s) groups.

Lemma new_base_ok cls cfg ml mb eagle caching ev ui mo sched hbs ret c :
  new_base_coordinator cls cfg ml mb eagle caching ev ui mo 1 1 sched hbs ret = Ok c →
  0 < num_blocks cfg → 0 < hbs → zlen (kv_cache_groups cfg) ≤ 256 ^ 4 → specs_ok (kv_cache_groups cfg) →
  (caching = true → Forall (λ g, spec_block_size (kv_cache_spec g) mod hbs = 0) (kv_cache_groups cfg)) →
  fresh_coordinator c (num_blocks cfg) caching sched (kv_cache_groups cfg).
Proof.
  intros Hrun Hn Hh Hlen Hok Hmod. unfold new_base_coordinator in Hrun.
  destruct (negb _) eqn:Echk; [done|]. apply negb_false_iff, andb_true_iff in Echk as [_ Hsz].
  rewrite forallb_forall in Hsz.
  destruct (new_block_pool_spec (num_blocks cfg) caching hbs ev ui mo Hn) as (p & Ep & Hp & Hng & He & Hhb & Hz).
  rewrite Ep in Hrun. cbn [mbind result_bind] in Hrun.
  destruct (new_managers_ok (kv_cache_groups cfg) 0 mb ml sched p) as (ms & Em & Hms & Hl);
    [apply (pi_null _ _ _ Hp)|by rewrite Hhb|lia|lia| |].
  { rewrite He, Hhb. apply Forall_lookup. intros i g Hi.
    unfold specs_ok in Hok. rewrite Forall_lookup in Hok. destruct (Hok i g Hi) as (s & Es & Hs). exists s. split; [done|]. split; [done|].
    specialize (Hsz g). rewrite Es, <-list_elem_of_In in Hsz. simpl in Hsz.
    specialize (Hsz ltac:(by eapply list_elem_of_lookup_2)). apply Z.eqb_eq in Hsz. split; [done|]. intros Hc.
    specialize (Hmod Hc). rewrite Forall_lookup in Hmod. specialize (Hmod i g Hi). by rewrite Es in Hmod. }
  rewrite He in Em. rewrite Em in Hrun. simpl in Hrun.
  destruct (_validate_prefix_cache_retention_interval ret sched (kv_cache_groups cfg)); simpl in Hrun; [|done].
  injection Hrun as <-. rewrite Forall_forall in Hms. split_and!; try done.
  - eexists. eapply idle_co_inv; [done|exact Hp|intros i _; apply Hz|done].
  - intros m Hm. by apply Hms.
Qed.

(** Flags and attention groups do not touch the account. *)
Lemma fresh_reflag c c' n caching sched groups f :
  fresh_coordinator c n caching sched groups →
  co_block_pool c' = co_block_pool c → co_scheduler_block_size c' = co_scheduler_block_size c →
  single_type_managers c' = imap (λ i m, mg_set_mg_use_eagle (f i m) m) (single_type_managers c) →
  fresh_coordinator c' n caching sched groups.
Proof.
  intros ((free & Hc) & Hs & He & Hn & Hl & Hidle) Hp Hs' Hms.
  assert (Hmem : ∀ m', m' ∈ single_type_managers c' → ∃ i m, m ∈ single_type_managers c ∧ m' = mg_set_mg_use_eagle (f i m) m).
  { intros m' [i Hi]%list_elem_of_lookup_1. rewrite Hms, list_lookup_imap in Hi.
    destruct (single_type_managers c !! i) as [m|] eqn:Em; simplify_eq/=. exists i, m.
    split; [by eapply list_elem_of_lookup_2|done]. }
  split; [|rewrite Hs', Hp, Hms, length_imap; split_and!; try done].
  - exists free. pose proof (lg_pool _ _ _ _ (ci_ledger _ _ Hc)) as Hpool.
    assert (Ho : owned_all (single_type_managers c) = []).
    { clear -Hidle. revert Hidle. unfold owned_all. induction (single_type_managers c) as [|m ms IH]; intros Hidle; [done|].
      csimpl. rewrite IH by (intros x Hx; apply Hidle; by right). destruct (Hidle m) as [Hi _]; [left|].
      unfold owned, owned_map. by rewrite Hi, map_to_list_empty. }
    apply (idle_co_inv _ (co_block_pool c)); [done|done| |].
    + intros i Hi. rewrite (lg_ref _ _ _ _ (ci_ledger _ _ Hc)), Ho by done. done.
    + intros m' (i & m & Hm & ->)%Hmem. split; [|by destruct (Hidle m Hm)].
      destruct (ci_static _ _ Hc m Hm) as [A1 A2 A3 A4 A5 A6 A7 A8]. by split.
  - intros m' Hm'. rewrite <-Hms in Hm'. destruct (Hmem m' Hm') as (i & m & Hm & ->). by destruct (Hidle m Hm).
Qed.

Lemma fmap_imap {A B} (f : A → B) (l : list A) : f <$> l = imap (λ _, f) l.
Proof. induction l as [|x l IH]; [done|]. csimpl. by rewrite IH. Qed.
Lemma use_eagle_same m : mg_set_mg_use_eagle (mg_use_eagle m) m = m.
Proof. by destruct m. Qed.

Lemma get_coordinator_ok cfg ml mb eagle caching ev ui mo sched hbs ret c :
  get_kv_cache_coordinator cfg ml mb eagle caching ev ui mo 1 1 sched hbs ret = Ok c →
  0 < num_blocks cfg → 0 < hbs → zlen (kv_cache_groups cfg) ≤ 256 ^ 4 → specs_ok (kv_cache_groups cfg) →
  fresh_coordinator c (num_blocks cfg) caching sched (kv_cache_groups cfg).
Proof.
  intros Hrun Hn Hh Hlen Hok. unfold get_kv_cache_coordinator in Hrun.
  destruct caching; simpl in Hrun; [|by eapply new_base_ok].
  assert (Hunit : ∀ g c0, kv_cache_groups cfg = [g] →
    new_base_coordinator UnitaryKVCacheCoordinator cfg ml mb eagle true ev ui mo 1 1 sched hbs ret = Ok c0 →
    hbs = spec_block_size (kv_cache_spec g) →
    fresh_coordinator c0 (num_blocks cfg) true sched (kv_cache_groups cfg)).
  { intros g c0 Eg E0 Eh. eapply new_base_ok; [done..|]. intros _. rewrite Eg. constructor; [|done].
    rewrite <-Eh. apply Z.mod_same. lia. }
  assert (Hhyb : ∀ c0, new_base_coordinator HybridKVCacheCoordinator cfg ml mb eagle true ev ui mo 1 1 sched hbs ret = Ok c0 →
    (if negb (forallb (λ g, spec_block_size (kv_cache_spec g) mod hbs =? 0) (kv_cache_groups cfg) && (1 =? 1) && (1 =? 1))
     then Err AssertionError else verify_and_split_kv_cache_groups c0) = Ok c →
    fresh_coordinator c (num_blocks cfg) true sched (kv_cache_groups cfg)).
  { intros c0 E0 E1. destruct (negb _) eqn:Echk; [done|].
    apply negb_false_iff in Echk. rewrite !andb_true_r in Echk. rewrite forallb_forall in Echk.
    assert (Hf : fresh_coordinator c0 (num_blocks cfg) true sched (kv_cache_groups cfg)).
    { eapply new_base_ok; [done..|]. intros _. apply Forall_forall. intros g Hg. apply Z.eqb_eq, Echk.
      by rewrite <-list_elem_of_In. }
    unfold verify_and_split_kv_cache_groups in E1.
    destruct (split_groups _ _ _ _) as [gs|]; simpl in E1; [|done]. destruct (negb _); [done|]. injection E1 as <-.
    eapply (fresh_reflag c0 _ _ _ _ _ (λ i m, existsb (λ g, sg_use_eagle g && bool_decide (i ∈ sg_group_ids g)) (full_first gs) || mg_use_eagle m));
      [done|done|done|]. simpl. unfold propagate_eagle. apply imap_ext. intros i m _. simpl.
    destruct (existsb _ _); simpl; [done|by rewrite use_eagle_same]. }
  destruct (kv_cache_groups cfg) as [|g [|g' groups]] eqn:Eg.
  - destruct (new_base_coordinator HybridKVCacheCoordinator _ _ _ _ _ _ _ _ _ _ _ _ _) as [c0|] eqn:E0; [|done].
    by eapply Hhyb.
  - destruct (new_base_coordinator UnitaryKVCacheCoordinator _ _ _ _ _ _ _ _ _ _ _ _ _) as [c0|] eqn:E0; [|done].
    simpl in Hrun. destruct (negb (hbs =? _)) eqn:Eh; [done|]. injection Hrun as <-.
    apply negb_false_iff, Z.eqb_eq in Eh. unfold unitary_block_size in Eh. simpl in Eh.
    eapply (fresh_reflag c0 _ _ _ _ _ (λ _ _, bool_decide (0%nat ∈ eagle_group_ids c0)));
      [eapply Hunit; [done|done|lia]|done|done|]. simpl. apply fmap_imap.
  - destruct (new_base_coordinator HybridKVCacheCoordinator _ _ _ _ _ _ _ _ _ _ _ _ _) as [c0|] eqn:E0; [|done].
    by eapply Hhyb.
Qed.

Lemma new_km_ok cfg ml sched hbs mb caching eagle log ev ui mo ret wm k :
  new_kv_cache_manager cfg ml sched hbs mb caching eagle log ev ui 1 1 mo ret wm = Ok k →
  0 < num_blocks cfg → 0 < hbs → 0 < sched → zlen (kv_cache_groups cfg) ≤ 256 ^ 4 → specs_ok (kv_cache_groups cfg) →
  (∃ free, km_inv k free) ∧ num_gpu_blocks (km_pool k) = num_blocks cfg
  ∧ ∀ m, m ∈ single_type_managers (coordinator k) → idle m.
Proof.
  intros Hrun Hn Hh Hs Hlen Hok. unfold new_kv_cache_manager in Hrun.
  destruct (get_kv_cache_coordinator _ _ _ _ _ _ _ _ _ _ _ _ _) as [c|] eqn:Ec; simpl in Hrun; [|done].
  destruct (negb (Qle_bool 0 wm)) eqn:Ew; [done|]. injection Hrun as <-.
  apply negb_false_iff, Qle_bool_iff in Ew.
  destruct (get_coordinator_ok _ _ _ _ _ _ _ _ _ _ _ _ Ec Hn Hh Hlen Hok) as ((free & Hc) & Hsz & He & Hng & Hl & Hidle).
  split; [|done]. exists free. split; simpl; [done|lia|done|done| |by intros ->].
  unfold Qle in Ew. simpl in Ew. apply Z.div_pos; nia.
Qed.

(** ** Operations *)

Lemma co_pool_rehash c free p' :
  co_inv c free → pool_inv p' free [] → same_config (co_block_pool c) p' →
  (∀ i, refc p' i = refc (co_block_pool c) i) →
  (∀ i, (i < nblocks (co_block_pool c))%nat → hashc (co_block_pool c) i = None → hashc p' i = None) →
  co_inv (co_set_block_pool p' c) free.
Proof.
  intros [Hl Hs Hn Hc] Hp' Hcf Hr Hh. split; simpl; [|intros m Hm; eapply (mgr_static_only _ _ ""%string); [done|done|by apply Hs]|done|done].
  eapply ledger_rehash; [exact Hl|done|done|done|done|]. intros i Hi.
  destruct (lg_fresh _ _ _ _ Hl _ Hi) as (j & [= <-] & Hj & _ & Hhj). rewrite Hhj. apply Hh; [lia|done].
Qed.

Lemma km_inv_pool k free p' :
  km_inv k free → co_inv (co_set_block_pool p' (coordinator k)) free → same_config (km_pool k) p' →
  km_inv (km_set_coordinator (co_set_block_pool p' (coordinator k)) k) free.
Proof.
  intros [_ Hs Hca Hg Hw Hst] Hc Hcf. split; try done.
  destruct Hcf as (_ & He & _). unfold km_pool in *. simpl. congruence.
Qed.

Lemma onpool_k_ok {A} (f : P A) k a p' :
  f (km_pool k) = Ok (a, p') → onpool_k f k = Ok (a, km_set_coordinator (co_set_block_pool p' (coordinator k)) k).
Proof. intros E. unfold onpool_k. apply onco_ok. unfold zoom. fold (km_pool k). by rewrite E. Qed.

Lemma km_free_spec k free r :
  km_inv k free →
  ∃ k' free', km_free r k = Ok (tt, k') ∧ km_inv k' free'
    ∧ upto (coordinator k) (freed (request_id r)) (length (single_type_managers (coordinator k))) (coordinator k').
Proof.
  intros Hk. destruct (co_free_spec _ _ (request_id r) (ki_co _ _ Hk)) as (c' & free' & E & Hc' & Hup & _).
  exists (km_set_coordinator c' k), free'. split; [by apply onco_ok|]. split; [by eapply km_inv_set|done].
Qed.

Lemma km_remove_spec k free rid n :
  km_inv k free → ∃ k' free', km_remove_skipped_blocks rid n k = Ok (tt, k') ∧ km_inv k' free'.
Proof.
  intros Hk. destruct (co_remove_skipped_spec _ _ rid n (ki_co _ _ Hk)) as (c' & free' & E & Hc' & Hup & _).
  exists (km_set_coordinator c' k), free'. split; [by apply onco_ok|by eapply km_inv_set].
Qed.

Lemma km_evict_spec k free ids :
  km_inv k free → Forall (λ id, 0 ≤ id < num_gpu_blocks (km_pool k)) ids →
  ∃ k', km_evict_blocks ids k = Ok (tt, k') ∧ km_inv k' free.
Proof.
  intros Hk Hids. pose proof (lg_pool _ _ _ _ (ci_ledger _ _ (ki_co _ _ Hk))) as Hp.
  destruct (evict_blocks_spec ids _ _ Hp Hids) as (p' & E & Hp' & Hcf & Hh).
  eexists. split; [by apply onpool_k_ok|]. apply km_inv_pool; [done| |done].
  apply co_pool_rehash; [apply (ki_co _ _ Hk)|done|done|apply Hh|]. intros i _ Hi. destruct (Hh i) as [_ ->].
  by case_decide.
Qed.

Definition flags (k : KVCacheManager) := (km_enable_caching k, km_max_model_len k).

(** The reset succeeds when no block is in use, and changes the pool and the statistics only. *)
Lemma km_reset_spec k free : km_inv k free → ∃ p' k',
  km_reset_prefix_cache k = Ok (bool_decide (num_referenced (km_pool k) = 0), k') ∧ km_inv k' free
  ∧ same_config (km_pool k) p' ∧ coordinator k' = co_set_block_pool p' (coordinator k)
  ∧ km_enable_caching k' = km_enable_caching k ∧ km_max_model_len k' = km_max_model_len k.
Proof.
  intros Hk. pose proof (lg_pool _ _ _ _ (ci_ledger _ _ (ki_co _ _ Hk))) as Hp.
  destruct (reset_prefix_cache_spec _ _ Hp) as (p' & E & Hp' & Hcf & _ & Hh). exists p'.
  unfold km_reset_prefix_cache. rewrite (bind_ok _ _ _ _ _ (onpool_k_ok _ _ _ _ E)).
  set (k1 := km_set_coordinator _ k). fold (km_pool k).
  assert (Hk1 : km_inv k1 free).
  { apply km_inv_pool; [done| |done]. apply co_pool_rehash; [apply (ki_co _ _ Hk)|done|done|apply Hh|].
    intros i Hi Hn. destruct (Hh i) as [_ ->]; [|done]. by case_decide. }
  assert (Hd : ∀ k2, km_inv k2 free → coordinator k2 = coordinator k1 → flags k2 = flags k →
    km_inv k2 free ∧ same_config (km_pool k) p' ∧ coordinator k2 = co_set_block_pool p' (coordinator k)
    ∧ km_enable_caching k2 = km_enable_caching k ∧ km_max_model_len k2 = km_max_model_len k).
  { intros k2 H2 Hc [= F1 F2]. split_and!; [done|exact Hcf|exact Hc|done|done]. }
  destruct (bool_decide (num_referenced (km_pool k) = 0)); cbn [negb]; [|exists k1; split; [done|by apply Hd]]. mstep.
  destruct (log_stats k1) eqn:El; [|exists k1; split; [done|by apply Hd]].
  destruct (prefix_cache_stats k1) as [st|] eqn:Es; [|by destruct (ki_stats _ _ Hk1 El)].
  eexists. split; [reflexivity|]. apply Hd; [destruct Hk1 as [A1 A2 A3 A4 A5 A6]; by split|done|done].
Qed.

(** The same blocks and counts for every request. *)
Record unmoved (m m' : Manager) : Prop := {
  um_conf : conf m' = conf m;
  um_blocks rid : blocks m' rid = blocks m rid;
  um_cached : num_cached_block m' = num_cached_block m
}.

(** Loops that change the state kept for one step, or add an empty entry. *)
Lemma co_step_state {A} c free rid (f : G A) :
  co_inv c free →
  (∀ p free R F m, mgr_inv p free R F m →
     ∃ a m', f (m, p) = Ok (a, (m', p)) ∧ only rid m m' ∧ mgr_inv p free R F m' ∧ unmoved m m') →
  ∃ l c', for_managers (λ i, on_manager i f) c = Ok (l, c') ∧ co_inv c' free
    ∧ upto c (λ _ m m', unmoved m m') (length (single_type_managers c)) c'.
Proof.
  intros Hc Hf. destruct (for_managers_ok (λ i, on_manager i f) (λ _ m m', unmoved m m') (λ _ _, True)
    (λ _ c', co_inv c' free) c) as (l & c' & E & Hup & Hc' & _); [done| |by exists l, c'].
  intros i c1 m Hm0 Hm _ Hc1. destruct (Hf _ _ _ _ m (co_focus _ _ _ _ Hc1 Hm)) as (a & m' & E & Ho & Hm' & Hu).
  exists a, m', (co_block_pool c1). split; [by eapply on_manager_ok|]. split; [done|]. split; [done|]. split; [done|].
  by eapply co_unfocus.
Qed.

(** A manager that differs in the state kept for one step only. *)
Lemma step_state_same p free R F m m' :
  mgr_inv p free R F m → conf m' = conf m → req_to_blocks m' = req_to_blocks m → num_cached_block m' = num_cached_block m →
  only ""%string m m' ∧ mgr_inv p free R F m' ∧ unmoved m m'.
Proof.
  intros Hm Hcf Hr Hn. assert (only ""%string m m') as Ho by (split; [done|by rewrite Hr|by rewrite Hn]).
  split; [done|]. split; [by eapply mgr_inv_same|]. split; [done|intros rid; unfold blocks; by rewrite Hr|done].
Qed.

Lemma km_new_step_spec k free : km_inv k free →
  ∃ c', km_new_step_starts k = Ok (tt, km_set_coordinator c' k) ∧ km_inv (km_set_coordinator c' k) free
    ∧ upto (coordinator k) (λ _ m m', unmoved m m') (length (single_type_managers (coordinator k))) c'.
Proof.
  intros Hk. destruct (co_step_state _ _ ""%string new_step_starts (ki_co _ _ Hk)) as (l & c' & E & Hc' & Hup).
  { intros p fr R F m Hm. unfold new_step_starts. munfold.
    destruct (mg_class m); (eexists _, _; split; [done|]); by apply step_state_same. }
  exists c'. split; [|split; [by eapply km_inv_set|done]].
  apply onco_ok. unfold co_new_step_starts. by rewrite (bind_ok _ _ _ _ _ E).
Qed.

Lemma km_take_ids_spec k free : km_inv k free →
  ∃ ids c', km_take_new_block_ids k = Ok (ids, km_set_coordinator c' k) ∧ km_inv (km_set_coordinator c' k) free
    ∧ upto (coordinator k) (λ _ m m', unmoved m m') (length (single_type_managers (coordinator k))) c'.
Proof.
  intros Hk. destruct (co_step_state _ _ ""%string take_new_block_ids (ki_co _ _ Hk)) as (l & c' & E & Hc' & Hup).
  { intros p fr R F m Hm. eexists _, _. split; [done|]. by apply step_state_same. }
  exists (concat l), c'. split; [|split; [by eapply km_inv_set|done]].
  unfold km_take_new_block_ids. by rewrite (bind_ok _ _ _ _ _ (onco_ok _ _ _ _ E)).
Qed.

(** Counting the common prefix adds at most an empty entry (the source reads a
    [defaultdict]). *)
Lemma km_common_spec k free rid : km_inv k free →
  ∃ l c', km_get_num_common_prefix_blocks rid k = Ok (l, km_set_coordinator c' k)
    ∧ km_inv (km_set_coordinator c' k) free
    ∧ upto (coordinator k) (λ _ m m', unmoved m m') (length (single_type_managers (coordinator k))) c'.
Proof.
  intros Hk. destruct (co_step_state _ _ rid (get_num_common_prefix_blocks rid) (ki_co _ _ Hk)) as (l & c' & E & Hc' & Hup).
  { intros p fr R F m Hm. assert (Hu : unmoved m (with_entry rid m)).
    { split; [apply on_conf with rid, with_entry_only| |apply with_entry_cached]. intros r.
      destruct (decide (r = rid)) as [->|Hr]; [apply with_entry_blocks|].
      apply (only_blocks _ _ _ _ (with_entry_only rid m) Hr). }
    unfold get_num_common_prefix_blocks. mstep. simpl.
    destruct (mg_class m); try (by exists 0, m);
      (mstep by apply req_blocks_run; mstep; eexists _, _; (split; [reflexivity|]);
       split; [apply with_entry_only|split; [by apply mgr_with_entry|done]]). }
  assert (Hid : upto (coordinator k) (λ _ m m', unmoved m m') (length (single_type_managers (coordinator k))) (coordinator k))
    by (by apply upto_refl).
  unfold km_get_num_common_prefix_blocks, co_get_num_common_prefix_blocks.
  destruct (co_class (coordinator k)) eqn:Ec.
  all: try (exists l, c'; split; [apply onco_ok; mstep; by rewrite Ec|split; [by eapply km_inv_set|done]]).
  exists (replicate (length (single_type_managers (coordinator k))) 0), (coordinator k).
  split; [apply onco_ok; mstep; by rewrite Ec|]. by rewrite km_set_same.
Qed.

Lemma km_take_events_spec k free : km_inv k free →
  ∃ es p', let k' := km_set_coordinator (co_set_block_pool p' (coordinator k)) k in
    km_take_events k = Ok (es, k') ∧ km_inv k' free ∧ same_config (km_pool k) p'.
Proof.
  intros Hk. unfold km_take_events. mstep.
  pose proof (lg_pool _ _ _ _ (ci_ledger _ _ (ki_co _ _ Hk))) as Hp.
  assert (∃ es p', pool_take_events (km_pool k) = Ok (es, p') ∧ pool_inv p' free [] ∧ same_config (km_pool k) p'
    ∧ ∀ i, refc p' i = refc (km_pool k) i ∧ hashc p' i = hashc (km_pool k) i) as (es & p' & E & Hp' & Hcf & Hh).
  { unfold pool_take_events. munfold. destruct (enable_kv_cache_events (km_pool k)); simpl;
      eexists _, _; (split; [done|]); (split; [|by repeat split]); [|done].
    exact (proj1 (pool_inv_logs (km_pool k) free [] [] None Hp)). }
  rewrite (bind_ok _ _ _ _ _ (onpool_k_ok _ _ _ _ E)). eexists _, p'. split; [reflexivity|]. split; [|done].
  apply km_inv_pool; [done| |done]. apply co_pool_rehash; [apply (ki_co _ _ Hk)|done|done|apply Hh|].
  intros i _ Hi. by rewrite (proj2 (Hh i)).
Qed.

Lemma km_make_stats_spec k free : km_inv k free → ∃ s k', make_prefix_cache_stats k = Ok (s, k') ∧ km_inv k' free.
Proof.
  intros Hk. unfold make_prefix_cache_stats. mstep. destruct (log_stats k) eqn:El; simpl; [|by exists None, k].
  eexists _, _. split; [reflexivity|]. destruct Hk as [A1 A2 A3 A4 A5 A6]. by split.
Qed.

Module ManagerOps.
Section ops.
Context `{HashConfig}.

Inductive op :=
  | AllocateSlots (r : Request) (num_new num_new_computed : Z) (cached : option KVCacheBlocks) (lookahead ext : Z)
      (delay : bool) (enc : Z) (must_fit : bool) (reserved : Z) (scheduled : bool)
  | CacheBlocks (r : Request) (tokens : Z)
  | Free (r : Request)
  | RemoveSkipped (rid : string) (tokens : Z)
  | Evict (ids : list Z)
  | ResetPrefixCache
  | NewStep
  | TakeNewBlockIds
  | TakeEvents
  | MakeStats.

Definition run_op (o : op) : K unit :=
  match o with
  | AllocateSlots r n nc ncb la ext delay enc fit res sch =>
      _ ← allocate_slots r n nc ncb la ext delay enc fit res sch; mret tt
  | CacheBlocks r n => km_cache_blocks r n
  | Free r => km_free r
  | RemoveSkipped rid n => km_remove_skipped_blocks rid n
  | Evict ids => km_evict_blocks ids
  | ResetPrefixCache => _ ← km_reset_prefix_cache; mret tt
  | NewStep => km_new_step_starts
  | TakeNewBlockIds => _ ← km_take_new_block_ids; mret tt
  | TakeEvents => _ ← km_take_events; mret tt
  | MakeStats => _ ← make_prefix_cache_stats; mret tt
  end.

(** What the scheduler guarantees of a call. *)
Definition op_pre (k : KVCacheManager) (o : op) : Prop :=
  match o with
  | AllocateSlots r n nc ncb la ext _ _ _ res _ => slots_pre k r n nc (default TheEmpty ncb) la ext res
  | CacheBlocks r n => km_enable_caching k = true →
      ∀ m, m ∈ single_type_managers (coordinator k) → cacheable (km_pool k) m r (to_cache (coordinator k) n m)
  | Evict ids => Forall (λ id, 0 ≤ id < num_gpu_blocks (km_pool k)) ids
  | _ => True
  end.

Fixpoint run (os : list op) : K unit :=
  match os with [] => mret tt | o :: os => _ ← run_op o; run os end.

Fixpoint ops_pre (k : KVCacheManager) (os : list op) : Prop :=
  match os with
  | [] => True
  | o :: os => op_pre k o ∧ ∀ k', run_op o k = Ok (tt, k') → ops_pre k' os
  end.

Lemma manager_op_inv k free o : km_inv k free → op_pre k o → ∃ k' free', run_op o k = Ok (tt, k') ∧ km_inv k' free'.
Proof.
  intros Hk Hpre. destruct o as [r n nc ncb la ext delay enc fit res sch|r n|r|rid n|ids| | | | |]; simpl in *.
  - destruct (allocate_slots_run k free r n nc ncb la ext delay enc fit res sch Hk Hpre) as (x & k' & free' & E & Hk' & _).
    rewrite (bind_ok _ _ _ _ _ E). by exists k', free'.
  - unfold km_cache_blocks. mstep. destruct (km_enable_caching k) eqn:Ee; [|by exists k, free].
    destruct (co_cache_spec _ _ r n (ki_co _ _ Hk) (Hpre eq_refl)) as (c' & E & Hc' & Hup).
    exists (km_set_coordinator c' k), free. split; [by apply onco_ok|by eapply km_inv_set].
  - destruct (km_free_spec k free r Hk) as (k' & free' & E & Hk' & _). by exists k', free'.
  - by apply (km_remove_spec k free).
  - destruct (km_evict_spec k free ids Hk Hpre) as (k' & E & Hk'). by exists k', free.
  - destruct (km_reset_spec k free Hk) as (p' & k' & E & Hk' & _). rewrite (bind_ok _ _ _ _ _ E). by exists k', free.
  - destruct (km_new_step_spec k free Hk) as (c' & E & Hk' & _). eexists _, free. split; [exact E|done].
  - destruct (km_take_ids_spec k free Hk) as (b & c' & E & Hk' & _). rewrite (bind_ok _ _ _ _ _ E). by eexists _, free.
  - destruct (km_take_events_spec k free Hk) as (b & p' & E & Hk' & _). rewrite (bind_ok _ _ _ _ _ E). by eexists _, free.
  - destruct (km_make_stats_spec k free Hk) as (b & k' & E & Hk'). rewrite (bind_ok _ _ _ _ _ E). by exists k', free.
Qed.

Lemma manager_run_inv os k free : km_inv k free → ops_pre k os → ∃ k' free', run os k = Ok (tt, k') ∧ km_inv k' free'.
Proof.
  revert k free. induction os as [|o os IH]; intros k free Hk Hpre; [by exists k, free|].
  destruct Hpre as [Ho Hos]. destruct (manager_op_inv k free o Hk Ho) as (k1 & free1 & E1 & Hk1).
  destruct (IH k1 free1 Hk1 (Hos _ E1)) as (k2 & free2 & E2 & Hk2).
  exists k2, free2. simpl. by rewrite (bind_ok _ _ _ _ _ E1), E2.
Qed.
End ops.
End ManagerOps.

(** C22. A manager over its lifetime. Construct it for any supported configuration
    and run any sequence of its operations, with calls as the scheduler makes them:
    nothing raises, and at every point the account of the pool is balanced. The
    reference count of each block is the number of times it occurs in the block
    lists of all requests in all groups; a block is in the free queue exactly when
    no request holds it; and once no request holds blocks, all of them but the null
    block are free: no leak and no double free. *)
Theorem manager_trace_balanced `{HashConfig} cfg ml sched hbs mb caching eagle log ev ui mo ret wm k0 os :
  new_kv_cache_manager cfg ml sched hbs mb caching eagle log ev ui 1 1 mo ret wm = Ok k0 →
  0 < num_blocks cfg → 0 < hbs → 0 < sched → zlen (kv_cache_groups cfg) ≤ 256 ^ 4 → specs_ok (kv_cache_groups cfg) →
  ManagerOps.ops_pre k0 os →
  ∃ k free, ManagerOps.run os k0 = Ok (tt, k)
    ∧ let held := owned_all (single_type_managers (coordinator k)) in
      queue_repr (free_block_queue (km_pool k)) free
      ∧ (∀ i, (0 < i < nblocks (km_pool k))%nat → refc (km_pool k) i = occ (Block i) held
           ∧ (Block i ∈ free ↔ Block i ∉ held))
      ∧ (held = [] → get_num_free_blocks (km_pool k) = num_gpu_blocks (km_pool k) - 1).
Proof.
  intros Hrun Hn Hh Hs Hlen Hok Hpre. destruct (new_km_ok _ _ _ _ _ _ _ _ _ _ _ _ _ _ Hrun Hn Hh Hs Hlen Hok) as ([free0 Hk0] & _).
  destruct (ManagerOps.manager_run_inv os k0 free0 Hk0 Hpre) as (k & free & E & Hk).
  exists k, free. split; [done|]. pose proof (ci_ledger _ _ (ki_co _ _ Hk)) as Hl. fold (km_pool k) in Hl.
  split; [apply (pi_queue _ _ _ (lg_pool _ _ _ _ Hl))|]. split.
  - intros i Hi. split; [by apply (lg_ref _ _ _ _ Hl)|].
    pose proof (pi_free _ _ _ (lg_pool _ _ _ _ Hl) (Block i)) as Hf. rewrite app_nil_r in Hf. rewrite Hf. split.
    + intros (j & [= <-] & _ & Hr). rewrite (lg_ref _ _ _ _ Hl) in Hr by done. intros Hx%occ_pos. lia.
    + intros Hx. exists i. split; [done|]. split; [done|]. rewrite (lg_ref _ _ _ _ Hl) by done. by apply occ_not_in.
  - intros Hheld. rewrite Hheld in Hl. by eapply ledger_nothing_held.
Qed.

(** C23. Allocation for a running request succeeds exactly when memory is not short, in
    a model without Mamba groups (whose count of blocks includes speculative ones). On
    success every group's block list has a slot for each token up to the new and
    lookahead ones, the blocks attention still reads have not moved, and, once the blocks
    attention has left behind were given back ([k1]), the blocks the request lacked, with
    the headroom kept for requests being admitted, were there outside the reserve. On
    refusal nothing is allocated, and they exceed the free blocks outside the reserve. *)
Theorem running_request_served_or_short `{HashConfig} k free r num_new lookahead delay enc reserved scheduled :
  km_inv k free → slots_pre k r num_new 0 TheEmpty lookahead 0 reserved → no_mamba (coordinator k) →
  let N := length (single_type_managers (coordinator k)) in
  let total := num_computed_tokens r in
  let need := Z.min (total + num_new + lookahead) (km_max_model_len k) in
  ∃ res k' free',
    allocate_slots r num_new 0 None lookahead 0 delay enc false reserved scheduled k = Ok (res, k')
    ∧ km_inv k' free'
    ∧ match res with
      | Some _ => upto (coordinator k) (served (request_id r) (replicate N []) total need enc) N (coordinator k')
          ∧ ∃ k1 free1, km_inv k1 free1 ∧ upto (coordinator k) (refused (request_id r) total) N (coordinator k1)
              ∧ ¬ short k1 (request_id r) need enc reserved (headroom k r scheduled)
      | None => upto (coordinator k) (refused (request_id r) total) N (coordinator k')
          ∧ short k' (request_id r) need enc reserved (headroom k r scheduled)
      end.
Proof.
  intros Hk Hpre Hm N total need.
  destruct (allocate_slots_run k free r num_new 0 None lookahead 0 delay enc false reserved scheduled Hk Hpre)
    as (res & k' & free' & E & Hk' & Hres).
  rewrite !Z.add_0_r in Hres. exists res, k', free'. split; [done|]. split; [done|].
  assert (∀ c', upto (coordinator k) (refused (request_id r) total) N c' → no_mamba c') as Hnm.
  { intros c' Hup m [i Hi]%list_elem_of_lookup_1. destruct (upto_lookup _ _ _ _ _ Hup Hi) as (m0 & Hm0 & Hsk).
    rewrite (only_class _ _ _ (sk_only _ _ _ _ Hsk)). apply Hm. by eapply list_elem_of_lookup_2. }
  destruct res.
  - destruct Hres as (Hup & k1 & free1 & H1 & H2 & _ & H3). split; [done|]. exists k1, free1. split_and!; [done..|]. apply H3; auto.
  - destruct Hres as [Hup Hsh]. split; [done|]. apply Hsh; auto.
Qed.

(** ** Witnesses *)

(** A manager for one full-attention group, and a request of five tokens. *)
Definition demo_config : KVCacheConfig :=
  mkKVCacheConfig 8 [] [mkKVCacheGroupSpec ["layer"%string] (OneSpec (demo_full 2)) false].
Abbreviation demo_manager :=
  (new_kv_cache_manager demo_config 100 2 2 None true false true false false 1 1 false None 0%Q).
Definition demo_request : result Request := demo_new [] None None [1;2;3;4;5] 2.

Record demo_facts (k : KVCacheManager) (r : Request) (m : Manager) : Prop := {
  df_manager : demo_manager = Ok k;
  df_request : demo_request = Ok r;
  df_managers : single_type_managers (coordinator k) = [m];
  df_static : mg_class m = FullAttentionManager ∧ mg_spec m = demo_full 2 ∧ mg_block_size m = 2;
  df_idle : idle m;
  df_coordinator : co_class (coordinator k) = UnitaryKVCacheCoordinator ∧ co_block_size (coordinator k) = 2
    ∧ co_hash_block_size (coordinator k) = 2 ∧ co_dcp_world_size (coordinator k) = 1
    ∧ co_pcp_world_size (coordinator k) = 1;
  df_pool : hash_block_size (km_pool k) = 2 ∧ km_enable_caching k = true ∧ km_max_model_len k = 100;
  df_tokens : num_tokens r = 5 ∧ num_computed_tokens r = 0 ∧ skip_reading_prefix_cache r = false;
  df_hashes : length (block_hashes r) = 2%nat ∧ NoDup (block_hashes r);
  df_features : mm_features r = [] ∧ _prompt_embeds_per_block_hashes r = ∅
}.

Lemma demo_facts_hold : ∃ k r m, demo_facts k r m.
Proof.
  destruct demo_manager as [k|] eqn:Ek; [|by vm_compute in Ek].
  destruct demo_request as [r|] eqn:Er; [|by vm_compute in Er].
  set (view := λ x : result KVCacheManager, match x with
    | Ok k => Some ((λ m, (mg_class m, mg_spec m, mg_block_size m, req_to_blocks m, num_cached_block m))
                      <$> single_type_managers (coordinator k),
                    (co_class (coordinator k), co_block_size (coordinator k), co_hash_block_size (coordinator k),
                     co_dcp_world_size (coordinator k), co_pcp_world_size (coordinator k)),
                    (hash_block_size (km_pool k), km_enable_caching k, km_max_model_len k))
    | Err _ => None end).
  assert (Hv : view demo_manager = Some ([(FullAttentionManager, demo_full 2, 2, ∅, ∅)],
    (UnitaryKVCacheCoordinator, 2, 2, 1, 1), (2, true, 100))) by (by vm_compute).
  rewrite Ek in Hv. simpl in Hv. injection Hv as Hms H1 H2 H3 H4 H5 H6 H7 H8.
  destruct (single_type_managers (coordinator k)) as [|m [|]] eqn:Ems; try discriminate.
  injection Hms as G1 G2 G3 G4 G5. exists k, r, m.
  assert (Hr : (num_tokens r, num_computed_tokens r, skip_reading_prefix_cache r, length (block_hashes r),
    mm_features r, _prompt_embeds_per_block_hashes r) = (5, 0, false, 2%nat, [], ∅) ∧ NoDup (block_hashes r)).
  { vm_compute in Er. injection Er as <-. split; [by vm_compute|].
    apply (bool_decide_unpack _). by vm_compute. }
  destruct Hr as [[= E1 E2 E3 E4 E5 E6] Hnd].
  split; try done.
Qed.

Lemma demo_hashed `{HashConfig} k r m : demo_facts k r m → hashed_request (coordinator k) r.
Proof.
  intros [H1 H2 H3 (H4 & H5 & H6) H7 H8 (H9 & H10 & H11) (H12 & H13 & H14) (H15 & H16) (H17 & H18)].
  split; rewrite ?H3.
  - intros x ->%list_elem_of_singleton. by rewrite H4.
  - intros x ->%list_elem_of_singleton. fold (km_pool k). rewrite H9, H6, H12. unfold hashes_at. simpl.
    unfold zlen. rewrite H15. by vm_compute.
  - split; [rewrite H17; split; constructor|]. intros s e h Hx. by rewrite H18, lookup_empty in Hx.
Qed.

(** Allocating for the whole prompt of the request. *)
Lemma demo_slots `{HashConfig} k r m : demo_facts k r m → slots_pre k r 5 0 TheEmpty 0 0 0.
Proof.
  intros Hd. pose proof (demo_hashed k r m Hd) as Hh.
  destruct Hd as [H1 H2 H3 (H4 & H5 & H6) [H7 H7'] H8 (H9 & H10 & H11) (H12 & H13 & H14) (H15 & H16) (H17 & H18)].
  split; rewrite ?H13, ?H11, ?H12; try lia.
  - apply Running; [done|done|]. rewrite H3. intros x ->%list_elem_of_singleton. right.
    pose proof (zlen_nonneg (blocks m (request_id r))). lia.
  - intros _. split; [lia|done].
Qed.

Definition demo_ops (r : Request) : list ManagerOps.op :=
  [ManagerOps.AllocateSlots r 5 0 None 0 0 false 0 false 0 true; ManagerOps.Free r; ManagerOps.ResetPrefixCache].

Lemma manager_trace_balanced_witness :
  ∃ k0 r k free, demo_manager = Ok k0 ∧ demo_request = Ok r
    ∧ ManagerOps.run (H:=demo_hash) (demo_ops r) k0 = Ok (tt, k)
    ∧ queue_repr (free_block_queue (km_pool k)) free.
Proof.
  destruct demo_facts_hold as (k0 & r & m & Hd).
  destruct (@manager_trace_balanced demo_hash demo_config 100 2 2 None true false true false false false None 0%Q k0
    (demo_ops r)) as (k & free & E & Hq & _).
  - exact (df_manager _ _ _ Hd).
  - done.
  - done.
  - done.
  - done.
  - repeat constructor. exists (demo_full 2). done.
  - split; [exact (@demo_slots demo_hash k0 r m Hd)|]. by repeat split.
  - exists k0, r, k, free. split_and!; [apply (df_manager _ _ _ Hd)|apply (df_request _ _ _ Hd)|exact E|exact Hq].
Defined.

Lemma running_request_served_or_short_witness :
  ∃ k r res k', demo_manager = Ok k ∧ demo_request = Ok r
    ∧ allocate_slots (H:=demo_hash) r 5 0 None 0 0 false 0 false 0 true k = Ok (res, k').
Proof.
  destruct demo_facts_hold as (k & r & m & Hd).
  destruct (new_km_ok _ _ _ _ _ _ _ _ _ _ _ _ _ _ (df_manager _ _ _ Hd)) as ([free Hk] & _);
    [done|done|done|done|repeat constructor; by exists (demo_full 2)|].
  destruct (@running_request_served_or_short demo_hash k free r 5 0 false 0 0 true Hk (@demo_slots demo_hash _ _ _ Hd))
    as (res & k' & free' & E & _).
  { intros x Hx. rewrite (df_managers _ _ _ Hd) in Hx. apply list_elem_of_singleton in Hx as ->.
    destruct (df_static _ _ _ Hd) as [-> _]. done. }
  exists k, r, res, k'. split_and!; [apply (df_manager _ _ _ Hd)|apply (df_request _ _ _ Hd)|exact E].
Defined.
