(* ===== verification/NewRequest.v ===== *)
(** * Scheduling a new request: from the cache lookup to its slots

    [get_computed_blocks] followed by [allocate_slots], as the scheduler runs them
    for a waiting request: the hit that the lookup reports is one that the
    allocation accepts. *)

From Stdlib Require Import ZArith Lia QArith.
From S2P Require Import Prelude MathUtils KVSpec FreeQueue Request BlockHash BlockPool Ledger SingleType ManagerSpec CacheHit Coordinator CoordinatorSpec HybridHit KVCacheManager AllocateSlots ManagerTrace.
Local Open Scope Z_scope.

(** A hit of [len] tokens as both coordinators return it: one row per manager, each
    block that attention still needs carrying the key of its position. *)
Definition found (c : Coordinator) (hashes : list bytes) (rows : list (list loc)) (len : Z) : Prop :=
  length rows = length (single_type_managers c) ∧
  ∀ i m row, single_type_managers c !! i = Some m → rows !! i = Some row →
    zlen row * mg_block_size m = len ∧
    ∀ j b h, skipped_blocks m len ≤ Z.of_nat j → row !! j = Some b →
      hashes_at (co_hash_block_size c) (mg_block_size m) hashes !! j = Some h → holds (co_block_pool c) h (Z.of_nat i) b.

(** The hashes of a request reach to [len] tokens and do not collide. *)
Definition distinct_hashes (c : Coordinator) (hashes : list bytes) (len : Z) : Prop :=
  ∀ m, m ∈ single_type_managers c →
    let hs := hashes_at (co_hash_block_size c) (mg_block_size m) hashes in
    NoDup hs ∧ len / mg_block_size m ≤ zlen hs.

Lemma held_in_pool p h g b : holds p h g b → ∃ i, b = Block i ∧ (i < nblocks p)%nat.
Proof. intros (i & -> & Hi & _). exists i. split; [done|lia]. Qed.

Lemma held_inj p h h' g b : holds p h g b → holds p h' g b → h = h'.
Proof.
  intros (i & -> & _ & H1) (j & [= <-] & _ & H2). rewrite H1 in H2. injection H2 as H2.
  by apply app_inj_2 in H2 as [-> _].
Qed.

(** Blocks carrying the keys of distinct hashes are distinct. *)
Lemma held_row_ok p g hs lo row :
  enable_caching p = true → NoDup hs → (length row ≤ length hs)%nat →
  (∀ j b h, (lo ≤ j)%nat → row !! j = Some b → hs !! j = Some h → holds p h g b) → row_ok p (drop lo row).
Proof.
  intros He Hnd Hl Hh.
  assert (Hheld : ∀ j b, drop lo row !! j = Some b → ∃ h, hs !! (lo + j)%nat = Some h ∧ holds p h g b).
  { intros j b. rewrite lookup_drop. intros Hb. apply lookup_lt_Some in Hb as Hlt.
    destruct (lookup_lt_is_Some_2 hs (lo + j)) as [h Hhj]; [lia|]. exists h. split; [done|].
    eapply Hh; [|done|done]. lia. }
  split.
  - apply Forall_lookup. intros j b (h & _ & Hb)%Hheld. by eapply held_in_pool.
  - unfold nonnull. rewrite filter_all.
    + apply NoDup_alt. intros i j b Hi Hj. destruct (Hheld i b Hi) as (h & H1 & H2), (Hheld j b Hj) as (h' & H3 & H4).
      rewrite (held_inj _ _ _ _ _ H2 H4) in H1. pose proof (NoDup_lookup _ _ _ _ Hnd H1 H3). lia.
    + intros b [j (h & _ & i & -> & Hi & _)%Hheld]%list_elem_of_lookup_1 [= ->]. lia.
  - intros i Hi [j (h & _ & i' & [= <-] & _ & Hk)%Hheld]%list_elem_of_lookup_1. congruence.
  - congruence.
Qed.

Lemma found_hit_ok c free rid hashes rows len :
  co_inv c free → found c hashes rows len → distinct_hashes c hashes len →
  enable_caching (co_block_pool c) = true → 0 ≤ len →
  (∀ m, m ∈ single_type_managers c → new_request_in m rid) →
  (∀ m, m ∈ single_type_managers c → mg_class m ≠ CrossAttentionManager) →
  hit_ok c rid rows len 0.
Proof.
  intros Hc [Hlen Hrows] Hdist He Hl Hnew Hcl. split; [done|done|done| |by left].
  intros i m row Hm Hrow. assert (m ∈ single_type_managers c) as Hin by (by eapply list_elem_of_lookup_2).
  destruct (Hrows i m row Hm Hrow) as [Hz Hh]. destruct (Hdist m Hin) as [Hnd Hle].
  pose proof (ms_size _ _ (ci_static _ _ Hc m Hin)) as Hbs.
  assert (len / mg_block_size m = zlen row) as Hdiv by (rewrite <-Hz; apply Z.div_mul; lia).
  split; [|split; [lia|by intros ?%Hcl]].
  rewrite kept_row_from. unfold py_from.
  set (lo := Z.to_nat (clamp_index _ _)).
  eapply (held_row_ok _ (Z.of_nat i)); [done|exact Hnd|unfold zlen in *; lia|].
  intros j b h Hj Hb Hhj. eapply Hh; [|done|done]. apply lookup_lt_Some in Hb.
  unfold lo, clamp_index in Hj. rewrite (proj2 (Z.ltb_ge _ 0)) in Hj by lia. lia.
Qed.

(** ** The lookup *)

(** The attention groups of a hybrid coordinator are those of its managers. *)
Definition groups_match (c : Coordinator) : Prop :=
  length (co_kv_cache_groups c) = length (single_type_managers c) ∧
  ∀ i m, single_type_managers c !! i = Some m → mg_block_size m = layer_block_size (mg_spec m) ∧
    ∃ g, g ∈ attention_groups c ∧ i ∈ sg_group_ids g ∧ sg_spec g = mg_spec m ∧ sg_manager_cls g = mg_class m.

(** A unitary coordinator over one manager that supports the search. *)
Record unitary_pre (c : Coordinator) (free : list loc) (hashes : list bytes) (maxlen : Z) (m : Manager) : Prop := {
  un_manager : single_type_managers c = [m];
  un_world : co_dcp_world_size c = 1 ∧ co_pcp_world_size c = 1;
  un_size : mg_block_size m = layer_block_size (mg_spec m) ∧ co_block_size c = mg_block_size m
    ∧ co_hash_block_size c = mg_block_size m;
  un_lookup : lookup_pre (co_block_pool c) free [0] (HashList hashes) maxlen (mg_spec m) (co_block_size c);
  un_finder : finder_ok (mg_class m) (mg_spec m) (bool_decide (0%nat ∈ eagle_group_ids c)) (co_block_size c)
}.

Inductive lookup_ready (c : Coordinator) (free : list loc) (hashes : list bytes) (maxlen : Z) : Prop :=
  | unitary_ready m : co_class c = UnitaryKVCacheCoordinator → unitary_pre c free hashes maxlen m →
      lookup_ready c free hashes maxlen
  | hybrid_ready : co_class c = HybridKVCacheCoordinator → hybrid_pre c free hashes maxlen → groups_match c →
      lookup_ready c free hashes maxlen.

Lemma first_needed_skipped m len n :
  mg_block_size m = layer_block_size (mg_spec m) → Z.of_nat n * mg_block_size m = len →
  first_needed (mg_class m) (mg_spec m) n = Z.to_nat (skipped_blocks m len).
Proof. intros Hb <-. unfold first_needed, skipped_blocks, get_num_skipped_tokens. by rewrite Hb. Qed.

Lemma hybrid_found c free hashes maxlen fuel :
  hybrid_pre c free hashes maxlen → groups_match c → (hit_fuel maxlen ≤ fuel)%nat →
  ∃ rows len u, hybrid_find_longest_cache_hit fuel hashes maxlen c
      = Ok (Some (rows, len), co_set_num_uncached_common_prefix_tokens u c)
    ∧ 0 ≤ len ≤ maxlen ∧ found c hashes rows len.
Proof.
  intros [Hp (H1 & H2 & H3) Hg Hd Ho] [Hlen Hmatch] Hf.
  destruct (hybrid_find_spec c free hashes maxlen Hp H1 H2 H3 Hg Hd Ho fuel Hf)
    as (rows & len & c' & E & Ec & Hl & Hlen' & Hrows).
  exists rows, len, (num_uncached_common_prefix_tokens c'). rewrite <-Ec. split; [done|]. split; [done|].
  split; [congruence|]. intros i m row Hm Hrow. destruct (Hmatch i m Hm) as (Hb & g & Hgin & Hi & Es & Ecl).
  destruct (Hrows g i Hgin Hi) as (row' & Hrow' & Hz & Hh). simplify_eq. rewrite Es, Ecl, <-Hb in *.
  split; [done|]. intros j b h Hj. apply Hh.
  rewrite (first_needed_skipped m (zlen row * mg_block_size m)) by done. lia.
Qed.

Lemma unitary_found c free hashes maxlen m :
  unitary_pre c free hashes maxlen m →
  ∃ rows len, unitary_find_longest_cache_hit c hashes maxlen = Ok (rows, len)
    ∧ 0 ≤ len ≤ maxlen ∧ found c hashes rows len.
Proof.
  intros [Hms [Hd Hpc] (Hb & Hcb & Hhb) Hpre Hok].
  destruct (find_hit _ _ _ _ _ _ _ _ Hpre Hok) as (rows & n & E & [[R1 R2 R3 R4] M1 A1 E1]).
  unfold unitary_find_longest_cache_hit. rewrite Hms, Hd, Hpc, E. simpl.
  destruct rows as [|row [|]]; simpl in R1; try lia. munfold.
  apply Forall_cons in R2 as [Hn _]. pose proof (lp_bs _ _ _ _ _ _ _ Hpre) as Hbs.
  assert (zlen row * co_block_size c = Z.of_nat n * mg_block_size m) as Hlen by (unfold zlen; rewrite Hn, Hcb; done).
  exists [row], (zlen row * co_block_size c). split; [done|]. rewrite Hlen. rewrite Hb in *.
  split; [nia|]. split; [by rewrite Hms|]. rewrite Hms.
  intros [|i] m' row' Hm' Hrow'; simplify_eq/=. rewrite Hb. split; [unfold zlen; lia|].
  intros j b h Hj Hbj Hhj. apply (R4 0%nat 0 row' j b h); try done.
  - rewrite (first_needed_skipped m' (Z.of_nat (length row') * layer_block_size (mg_spec m'))) by (rewrite ?Hb; done). lia.
  - unfold hashes_at in Hhj. rewrite Hhb, Z.eqb_refl in Hhj. exact Hhj.
Qed.

(** A waiting request, at the moment the scheduler looks it up. *)
Record waiting_request (k : KVCacheManager) (free : list loc) (r : Request) : Prop := {
  wr_caching : km_enable_caching k = true;
  wr_managers : single_type_managers (coordinator k) ≠ [];
  wr_ready : lookup_ready (coordinator k) free (block_hashes r) (num_tokens r - 1);
  wr_distinct : distinct_hashes (coordinator k) (block_hashes r) (num_tokens r - 1);
  wr_new : ∀ m, m ∈ single_type_managers (coordinator k) → new_request_in m (request_id r);
  wr_class : ∀ m, m ∈ single_type_managers (coordinator k) → mg_class m ≠ CrossAttentionManager;
  wr_tokens : 0 < num_tokens r ∧ num_computed_tokens r = 0
}.

Lemma co_find_spec c free fuel hashes maxlen :
  lookup_ready c free hashes maxlen → (hit_fuel maxlen ≤ fuel)%nat →
  ∃ rows len u, co_find_longest_cache_hit fuel hashes maxlen c
      = Ok (Some (rows, len), co_set_num_uncached_common_prefix_tokens u c)
    ∧ 0 ≤ len ≤ maxlen ∧ found c hashes rows len.
Proof.
  intros [m Ec Hu|Ec Hh Hg] Hf; unfold co_find_longest_cache_hit; mstep; rewrite Ec.
  - destruct (unitary_found _ _ _ _ _ Hu) as (rows & len & E & Hl & Hfd). rewrite E.
    exists rows, len, (num_uncached_common_prefix_tokens c). split; [|done]. munfold. by destruct c.
  - by eapply hybrid_found.
Qed.

Lemma create_blocks_of n rows :
  length rows = n → blocks_of n (create_kv_cache_blocks rows) = rows.
Proof.
  intros Hn. unfold create_kv_cache_blocks. destruct (existsb _ rows) eqn:Ex; [done|]. simpl. subst n.
  symmetry. apply list_eq. intros i. destruct (rows !! i) as [row|] eqn:Hi.
  - destruct row as [|b row]; [symmetry; apply lookup_replicate_2; by eapply lookup_lt_Some|]. exfalso.
    assert (existsb (λ g, bool_decide (g ≠ [])) rows = true); [|congruence].
    apply existsb_exists. exists (b :: row). rewrite <-list_elem_of_In. split; [by eapply list_elem_of_lookup_2|].
    by apply bool_decide_eq_true.
  - symmetry. apply lookup_replicate_None. by apply lookup_ge_None.
Qed.

Lemma co_inv_uncached c free u : co_inv c free → co_inv (co_set_num_uncached_common_prefix_tokens u c) free.
Proof. intros [H1 H2 H3 H4]. by split. Qed.

(** The reported hit is one [allocate_slots] accepts. *)
Lemma hit_call_mode c free rid hashes rows len maxlen :
  co_inv c free → found c hashes rows len → distinct_hashes c hashes maxlen → 0 ≤ len ≤ maxlen →
  enable_caching (co_block_pool c) = true → single_type_managers c ≠ [] →
  (∀ m, m ∈ single_type_managers c → new_request_in m rid) →
  (∀ m, m ∈ single_type_managers c → mg_class m ≠ CrossAttentionManager) →
  call_mode c rid (blocks_of (length (single_type_managers c)) (create_kv_cache_blocks rows)) len 0
    (create_kv_cache_blocks rows).
Proof.
  intros Hc Hfd Hdist Hl He Hne Hnew Hcl. pose proof Hfd as [Hlen Hrows]. rewrite (create_blocks_of _ _ Hlen).
  destruct (create_kv_cache_blocks rows) eqn:Ecr.
  - apply Running; [done|done|]. intros m Hm. right. destruct (Hnew m Hm) as [_ ->].
    assert (len = 0) as ->; [|unfold zlen; simpl; lia].
    destruct (single_type_managers c) as [|m0 ms] eqn:Ems; [done|].
    destruct (lookup_lt_is_Some_2 rows 0) as [row Hrow]; [simpl in Hlen; lia|].
    destruct (Hrows 0%nat m0 row) as [<- _]; [done|done|].
    assert (blocks_of (length (m0 :: ms)) (create_kv_cache_blocks rows) = rows) as Heq by (by apply create_blocks_of).
    rewrite Ecr in Heq. simpl in Heq. rewrite <-Heq in Hrow. simplify_eq/=. done.
  - apply New; [by left|]. eapply found_hit_ok; try done; [|lia].
    intros m Hm. destruct (Hdist m Hm) as [? ?]. split; [done|].
    pose proof (ms_size _ _ (ci_static _ _ Hc m Hm)). etrans; [|done]. apply Z.div_le_mono; lia.
Qed.

Lemma get_computed_spec k free r fuel :
  km_inv k free → waiting_request k free r → (hit_fuel (num_tokens r - 1) ≤ fuel)%nat →
  skip_reading_prefix_cache r = false →
  ∃ rows hit k1 u, get_computed_blocks fuel r k = Ok (Some (create_kv_cache_blocks rows, hit), k1)
    ∧ coordinator k1 = co_set_num_uncached_common_prefix_tokens u (coordinator k)
    ∧ km_max_model_len k1 = km_max_model_len k ∧ km_enable_caching k1 = true
    ∧ km_inv k1 free ∧ 0 ≤ hit < num_tokens r
    ∧ found (coordinator k) (block_hashes r) rows hit.
Proof.
  intros Hk [He Hne Hrd Hdist Hnew Hcl [Hnt Hnc]] Hf Hskip.
  destruct (co_find_spec _ _ fuel _ _ Hrd Hf) as (rows & hit & u & E & Hhit & Hfd).
  unfold get_computed_blocks. mstep. rewrite He, Hskip. simpl.
  rewrite (bind_ok _ _ _ _ _ (onco_ok _ _ _ _ E)). cbv beta iota.
  set (c1 := co_set_num_uncached_common_prefix_tokens u (coordinator k)) in *.
  pose proof Hk as [Hc Hs Hca Hg Hw Hst].
  assert (Hk1 : km_inv (km_set_coordinator c1 k) free).
  { split; try done. by apply co_inv_uncached. }
  destruct (log_stats k) eqn:El.
  - destruct (prefix_cache_stats k) as [st|] eqn:Es; [|by destruct (Hst eq_refl)]. mstep.
    eexists rows, hit, _, u. split; [reflexivity|]. split; [done|]. split; [done|]. split; [done|]. split; [|split; [lia|done]].
    destruct Hk1 as [A1 A2 A3 A4 A5 A6]. by split.
  - mstep. eexists rows, hit, _, u. split; [reflexivity|]. split; [done|]. split; [done|]. split; [done|].
    split; [done|split; [lia|done]].
Qed.

(** C21. Scheduling a new request is safe end to end. The lookup of a waiting
    request reports a hit shorter than the request; allocating slots with that hit,
    for any number of new and lookahead tokens within the model length, raises no
    exception and keeps the pool's account balanced. When it succeeds, the request's
    block list of every group has a slot for each token asked for, and holds, at
    their positions, the hit's blocks that attention still reads; when it refuses,
    the request holds nothing it did not hold before. Other requests' blocks are
    untouched in both cases. *)
Theorem new_request_gets_slots `{HashConfig} k free r fuel :
  km_inv k free → waiting_request k free r → (hit_fuel (num_tokens r - 1) ≤ fuel)%nat →
  skip_reading_prefix_cache r = false → hashed_request (coordinator k) r →
  ∃ cached hit k1, get_computed_blocks fuel r k = Ok (Some (cached, hit), k1)
    ∧ 0 ≤ hit < num_tokens r ∧ km_inv k1 free ∧
    ∀ num_new lookahead delay enc must_fit reserved scheduled,
      0 < num_new → 0 ≤ lookahead → 0 ≤ reserved → hit + num_new ≤ km_max_model_len k →
      let N := length (single_type_managers (coordinator k1)) in
      let need := Z.min (hit + num_new + lookahead) (km_max_model_len k1) in
      ∃ res k2 free2,
        allocate_slots r num_new hit (Some cached) lookahead 0 delay enc must_fit reserved scheduled k1 = Ok (res, k2)
        ∧ km_inv k2 free2
        ∧ match res with
          | None => upto (coordinator k1) (refused (request_id r) hit) N (coordinator k2)
          | Some _ => upto (coordinator k1) (served (request_id r) (blocks_of N cached) hit need enc) N (coordinator k2)
          end.
Proof.
  intros Hk Hw Hf Hskip Hhr.
  destruct (get_computed_spec k free r fuel Hk Hw Hf Hskip) as (rows & hit & k1 & u & E & Ec & Eml & Ee & Hk1 & Hhit & Hfd).
  exists (create_kv_cache_blocks rows), hit, k1. split; [done|]. split; [done|]. split; [done|].
  intros num_new lookahead delay enc must_fit reserved scheduled Hn Hl Hr Hml N need.
  destruct Hw as [He Hne Hrd Hdist Hnew Hcl [Hnt Hnc]].
  assert (Hpre : slots_pre k1 r num_new hit (create_kv_cache_blocks rows) lookahead 0 reserved).
  { rewrite <-Eml in Hml. split; rewrite ?Hnc, ?Z.add_0_r, ?Z.add_0_l; try done; try lia.
    - rewrite Ec. eapply (hit_call_mode _ free _ (block_hashes r) rows hit (num_tokens r - 1)); try done; [|lia|].
      + rewrite <-Ec. apply (ki_co _ _ Hk1).
      + rewrite (ki_caching _ _ Hk) in He. exact He.
    - intros _. split; [lia|]. rewrite Ec. destruct Hhr as [A B D]. by split. }
  destruct (allocate_slots_run k1 free r num_new hit (Some (create_kv_cache_blocks rows)) lookahead 0 delay enc
    must_fit reserved scheduled Hk1 Hpre) as (res & k2 & free2 & E2 & Hk2 & Hres).
  rewrite Hnc, !Z.add_0_r, !Z.add_0_l in Hres. exists res, k2, free2. split; [done|]. split; [done|].
  by destruct res, Hres.
Qed.

(** ** Witness *)

Lemma demo_waiting k r m free : demo_facts k r m → km_inv k free → waiting_request k free r.
Proof.
  intros [H1 H2 H3 (H4 & H5 & H6) [H7 H7'] (C1 & C2 & C3 & C4 & C5) (H9 & H10 & H11) (H12 & H13 & H14)
    (H15 & H16) (H17 & H18)] Hk.
  assert (Hh : hashes_at (co_hash_block_size (coordinator k)) (mg_block_size m) (block_hashes r) = block_hashes r).
  { unfold hashes_at. by rewrite C3, H6. }
  split; rewrite ?H3, ?H12; try done.
  - apply (unitary_ready _ _ _ _ m C1). split; [done|done|by rewrite C2, C3, H6, H5| |].
    + rewrite C2, H5. split; [apply (lg_pool _ _ _ _ (ci_ledger _ _ (ki_co _ _ Hk)))| |done|done|done|].
      * split; [done|]. by repeat constructor.
      * simpl. rewrite H15. by vm_compute.
    + rewrite H4, H5. done.
  - intros x Hx. rewrite H3 in Hx. apply list_elem_of_singleton in Hx as ->. rewrite Hh, H6. split; [done|].
    unfold zlen. rewrite H15. by vm_compute.
  - intros x ->%list_elem_of_singleton. unfold new_request_in, blocks. by rewrite H7, H7', !lookup_empty.
  - intros x ->%list_elem_of_singleton. by rewrite H4.
Qed.

Lemma new_request_gets_slots_witness :
  ∃ k r cached hit k1, demo_manager = Ok k ∧ demo_request = Ok r
    ∧ get_computed_blocks 6 r k = Ok (Some (cached, hit), k1) ∧ 0 ≤ hit < num_tokens r
    ∧ ∃ res k2, allocate_slots (H:=demo_hash) r 1 hit (Some cached) 0 0 false 0 false 0 false k1 = Ok (res, k2).
Proof.
  destruct demo_facts_hold as (k & r & m & Hd).
  destruct (new_km_ok _ _ _ _ _ _ _ _ _ _ _ _ _ _ (df_manager _ _ _ Hd)) as ([free Hk] & _);
    [done|done|done|done|repeat constructor; by exists (demo_full 2)|].
  pose proof (df_tokens _ _ _ Hd) as (Ht & Hc & Hs). pose proof (df_pool _ _ _ Hd) as (_ & _ & Hml).
  destruct (@new_request_gets_slots demo_hash k free r 6 Hk (demo_waiting _ _ _ _ Hd Hk))
    as (cached & hit & k1 & E & Hhit & _ & Hall); [rewrite Ht; by vm_compute|done|by eapply (@demo_hashed demo_hash)|].
  destruct (Hall 1 0 false 0 false 0 false) as (res & k2 & free2 & E2 & _); [lia|lia|lia|lia|].
  exists k, r, cached, hit, k1. split_and!; [apply (df_manager _ _ _ Hd)|apply (df_request _ _ _ Hd)|done|lia|lia|].
  by exists res, k2.
Defined.
