(* ===== verification/HybridCases.v ===== *)
(** * Hybrid models: where the groups do not agree

    Two configurations outside the hypotheses of the agreement theorem of
    [HybridHit], run through the manager's own operations: construct the manager,
    allocate and cache a first request, free it, and look up a second request with
    the same prompt. *)

From Stdlib Require Import ZArith Lia QArith.
From S2P Require Import Prelude MathUtils KVSpec FreeQueue Request BlockHash BlockPool SingleType CacheHit Coordinator HybridHit KVCacheManager.
Local Open Scope Z_scope.

(** Group [0] is full attention, group [1] Mamba in align mode with one speculative
    block; no group is marked as the EAGLE group, so all of them are. *)
Definition mamba_spec (bs : Z) : LayerSpec :=
  MambaSpec (mkMamba bs [[8]] [mkDtype "float32" 4] None "mamba2" "align" 1).
Definition group (s : LayerSpec) : KVCacheGroupSpec := mkKVCacheGroupSpec ["layer"%string] (OneSpec s) false.

(** A cheap chained hash: the parent's bytes followed by the tokens. *)
Definition chain_hash : HashConfig := {|
  hash_function := λ x, x.1.1 ++ (byte_of_Z <$> x.1.2);
  NONE_HASH := [];
  sha256 := λ x, concat x
|}.

Definition case_request (prompt : list Z) (hash_block_size : Z) : result Request :=
  new_request "r" (Some prompt) (Some demo_sampling) None 0 None [] None None 0 false false
    (Some (request_block_hasher (H:=chain_hash) hash_block_size)).

(** Prefill a request on a new manager in the given chunks, free it, evict the
    blocks with the given ids, and look up the same prompt. Returns the number of
    tokens covered by the blocks of each group, and the reported hit length. *)
Definition replay (groups : list LayerSpec) (num_blocks hash_block_size scheduler_block_size : Z)
    (use_eagle : bool) (prompt : list Z) (chunks evict : list Z) : result (list Z * Z) :=
  k ← new_kv_cache_manager (mkKVCacheConfig num_blocks [] (group <$> groups)) 1000 scheduler_block_size
        hash_block_size None true use_eagle false false false 1 1 false None 0;
  r ← case_request prompt hash_block_size;
  '(r, k) ← foldl (λ (acc : result (Request * KVCacheManager)) n,
      '(r, k) ← acc;
      '(_, k) ← allocate_slots (H:=chain_hash) r n 0 None 0 0 false 0 false 0 true k;
      Ok (req_set_num_computed_tokens (num_computed_tokens r + n) r, k)) (Ok (r, k)) chunks;
  '(_, k) ← km_free r k;
  '(_, k) ← km_evict_blocks evict k;
  r2 ← case_request prompt hash_block_size;
  '(res, k) ← get_computed_blocks (hit_fuel (zlen prompt)) r2 k;
  match res with
  | Some (blocks, hit) =>
      Ok (zip_with (λ row s, zlen row * layer_block_size s) (blocks_of (length groups) blocks) groups, hit)
  | None => Err RuntimeError
  end.

(** EAGLE with a Mamba group: every group is treated as an EAGLE group, full
    attention drops its last matched block, but the Mamba search ignores the drop
    and returns a state one block further. The reported hit is the longer one: it
    counts six tokens as computed while the full-attention group holds blocks for
    four only. Without EAGLE the same replay is consistent. *)
Lemma eagle_mamba_hit_exceeds_full_attention :
  replay [demo_full 2; mamba_spec 2] 16 2 2 true [1;2;3;4;5;6;7] [6] [] = Ok ([4; 6], 6)
  ∧ replay [demo_full 2; mamba_spec 2] 16 2 2 false [1;2;3;4;5;6;7] [6] [] = Ok ([6; 6], 6).
Proof. split; by vm_compute. Qed.

(** Two full-attention groups with different specs: only the blocks of the
    first one are cut to the final hit. When a sliding-window block has been
    evicted, the second full-attention group returns blocks for twelve tokens while
    the hit is eight; with nothing evicted all groups agree. *)
Lemma second_full_group_not_truncated :
  replay [demo_full 2; demo_full 4; demo_swa 2 3] 32 2 4 false
    [1;2;3;4;5;6;7;8;9;10;11;12;13] [13] [17] = Ok ([8; 12; 8], 8)
  ∧ replay [demo_full 2; demo_full 4; demo_swa 2 3] 32 2 4 false
      [1;2;3;4;5;6;7;8;9;10;11;12;13] [13] [] = Ok ([12; 12; 12], 12).
Proof. split; by vm_compute. Qed.
