(* ===== verification/RequestQueue.v ===== *)
(** * Request queues

    Models [vllm/v1/core/sched/request_queue.py] with the part of Python's
    [heapq] it uses ([heappush], [heappop], [heapify], as CPython implements
    them), and [Request.__lt__].

    Queues hold references to request objects. Requests have no [__eq__], so
    [==], [in] and [list.remove] compare references; the order of the priority
    queue is an argument [lt] of the heap. *)

From Stdlib Require Import ZArith Lia.
From stdpp Require Import sorting pretty.
From S2P Require Import Prelude Request.
Local Open Scope nat_scope.

(** ** heapq *)

Module Heapq.
Section heapq.
Context {A : Type} (lt : A → A → bool).

(** [_siftdown(heap, startpos, pos)]; [newitem] is [heap[pos]]. The loop runs at
    most [pos] times. *)
Fixpoint siftdown_loop (fuel : nat) (heap : list A) (startpos pos : nat) (newitem : A) : list A :=
  match fuel with
  | 0 => <[pos := newitem]> heap
  | S fuel =>
      if startpos <? pos then
        let parentpos := (pos - 1) / 2 in
        match heap !! parentpos with
        | Some parent =>
            if lt newitem parent
            then siftdown_loop fuel (<[pos := parent]> heap) startpos parentpos newitem
            else <[pos := newitem]> heap
        | None => <[pos := newitem]> heap
        end
      else <[pos := newitem]> heap
  end.
Definition _siftdown (heap : list A) (startpos pos : nat) : list A :=
  match heap !! pos with
  | Some newitem => siftdown_loop pos heap startpos pos newitem
  | None => heap
  end.

(** The smaller child of [pos], if it has one ([childpos] after the test). *)
Definition smaller_child (heap : list A) (pos : nat) : option (nat * A) :=
  let childpos := 2 * pos + 1 in
  match heap !! childpos, heap !! (childpos + 1) with
  | Some l, Some r => Some (if lt l r then (childpos, l) else (childpos + 1, r))
  | Some l, None => Some (childpos, l)
  | None, _ => None
  end.

(** The first loop of [_siftup(heap, pos)]: move the smaller child up until a
    leaf is reached. *)
Fixpoint siftup_loop (fuel : nat) (heap : list A) (pos : nat) : list A * nat :=
  match fuel with
  | 0 => (heap, pos)
  | S fuel =>
      match smaller_child heap pos with
      | Some (childpos, child) => siftup_loop fuel (<[pos := child]> heap) childpos
      | None => (heap, pos)
      end
  end.
Definition _siftup (heap : list A) (pos : nat) : list A :=
  match heap !! pos with
  | Some newitem =>
      let '(heap, leaf) := siftup_loop (length heap) heap pos in
      _siftdown (<[leaf := newitem]> heap) pos leaf
  | None => heap
  end.

Definition heappush (heap : list A) (item : A) : list A :=
  _siftdown (heap ++ [item]) 0 (length heap).

Definition heappop (heap : list A) : result (A * list A) :=
  match last heap with
  | None => Err IndexError
  | Some lastelt =>
      match removelast heap with
      | [] => Ok (lastelt, [])
      | returnitem :: rest => Ok (returnitem, _siftup (lastelt :: rest) 0)
      end
  end.

(** [for i in reversed(range(n // 2)): _siftup(x, i)] *)
Definition heapify (heap : list A) : list A :=
  foldl _siftup heap (reverse (seq 0 (length heap / 2))).

(** Popping a copy of the heap until it is empty. *)
Fixpoint drain (fuel : nat) (heap : list A) : result (list A) :=
  match fuel with
  | 0 => Ok []
  | S fuel =>
      match heap with
      | [] => Ok []
      | _ => '(x, heap) ← heappop heap; xs ← drain fuel heap; Ok (x :: xs)
      end
  end.
End heapq.
End Heapq.

(** ** The order of requests *)

Definition string_ltb (a b : string) : bool :=
  match String.compare a b with Lt => true | _ => false end.

(** [Request.__lt__]: references [a] and [b] with their objects and their
    addresses ([id(...)]). *)
Definition request_lt {A} (obj : A → Request) (addr : A → Z) (a b : A) : bool :=
  if (priority (obj a) =? priority (obj b))%Z then
    if (arrival_time (obj a) =? arrival_time (obj b))%Z then
      if String.eqb (request_id (obj a)) (request_id (obj b)) then (addr a <? addr b)%Z
      else string_ltb (request_id (obj a)) (request_id (obj b))
    else (arrival_time (obj a) <? arrival_time (obj b))%Z
  else (priority (obj a) <? priority (obj b))%Z.

(** ** Queues *)

Inductive SchedulingPolicy := FCFS | PRIORITY.
#[global] Instance SchedulingPolicy_eq_dec : EqDecision SchedulingPolicy.
Proof. solve_decision. Defined.

(** [FCFSRequestQueue] is a [deque], [PriorityRequestQueue] wraps [_heap]. *)
Inductive RequestQueue (A : Type) :=
  | FCFSRequestQueue (deque : list A)
  | PriorityRequestQueue (_heap : list A).
Arguments FCFSRequestQueue {_} _.
Arguments PriorityRequestQueue {_} _.

Definition create_request_queue {A} (policy : SchedulingPolicy) : RequestQueue A :=
  match policy with
  | PRIORITY => PriorityRequestQueue []
  | FCFS => FCFSRequestQueue []
  end.

(** [list.remove(x)]: the first occurrence, [None] when there is none. *)
Fixpoint list_remove {A} `{EqDecision A} (l : list A) (x : A) : option (list A) :=
  match l with
  | [] => None
  | y :: l => if decide (y = x) then Some l else cons y <$> list_remove l x
  end.

Section queue.
Context {A : Type} `{EqDecision A} (lt : A → A → bool).

Definition add_request (x : A) (q : RequestQueue A) : RequestQueue A :=
  match q with
  | FCFSRequestQueue d => FCFSRequestQueue (d ++ [x])
  | PriorityRequestQueue h => PriorityRequestQueue (Heapq.heappush lt h x)
  end.

Definition pop_request (q : RequestQueue A) : result (A * RequestQueue A) :=
  match q with
  | FCFSRequestQueue [] => Err IndexError
  | FCFSRequestQueue (x :: d) => Ok (x, FCFSRequestQueue d)
  | PriorityRequestQueue [] => Err IndexError
  | PriorityRequestQueue h =>
      '(x, h) ← Heapq.heappop lt h; Ok (x, PriorityRequestQueue h)
  end.

Definition peek_request (q : RequestQueue A) : result A :=
  match q with
  | FCFSRequestQueue (x :: _) => Ok x
  | PriorityRequestQueue (x :: _) => Ok x
  | _ => Err IndexError
  end.

Definition prepend_request (x : A) (q : RequestQueue A) : RequestQueue A :=
  match q with
  | FCFSRequestQueue d => FCFSRequestQueue (x :: d)
  | PriorityRequestQueue _ => add_request x q
  end.

(** [__iter__] *)
Definition queue_iter (q : RequestQueue A) : result (list A) :=
  match q with
  | FCFSRequestQueue d => Ok d
  | PriorityRequestQueue h => Heapq.drain lt (length h) h
  end.

(** [extendleft] prepends one by one. *)
Definition prepend_requests (requests : RequestQueue A) (q : RequestQueue A) : result (RequestQueue A) :=
  xs ← queue_iter requests; Ok (foldl (flip prepend_request) q xs).

Definition remove_request (x : A) (q : RequestQueue A) : result (RequestQueue A) :=
  match q with
  | FCFSRequestQueue d =>
      match list_remove d x with Some d => Ok (FCFSRequestQueue d) | None => Err ValueError end
  | PriorityRequestQueue h =>
      match list_remove h x with
      | Some h => Ok (PriorityRequestQueue (Heapq.heapify lt h))
      | None => Err ValueError
      end
  end.

Definition remove_requests (xs : list A) (q : RequestQueue A) : RequestQueue A :=
  match q with
  | FCFSRequestQueue d => FCFSRequestQueue (filter (.∉ xs) d)
  | PriorityRequestQueue h => PriorityRequestQueue (Heapq.heapify lt (filter (.∉ xs) h))
  end.

Definition queue_len (q : RequestQueue A) : Z :=
  match q with FCFSRequestQueue d => zlen d | PriorityRequestQueue h => zlen h end.

Definition queue_bool (q : RequestQueue A) : bool := (0 <? queue_len q)%Z.
End queue.

(** ** Correctness of heapq *)

Definition child (i c : nat) : Prop := c = 2 * i + 1 ∨ c = 2 * i + 2.

(** [c] is a descendant of [s], or [s] itself. *)
Inductive under (s : nat) : nat → Prop :=
  | under_refl : under s s
  | under_child i c : under s i → child i c → under s c.

Lemma child_lt i c : child i c → i < c.
Proof. unfold child. lia. Qed.
Lemma under_le s c : under s c → s ≤ c.
Proof. induction 1 as [|i c _ IH Hc]; [done|]. apply child_lt in Hc. lia. Qed.
Lemma child_parent c : 0 < c → child ((c - 1) / 2) c.
Proof.
  intros Hc. unfold child. pose proof (Nat.div_mod_eq (c - 1) 2).
  pose proof (Nat.mod_upper_bound (c - 1) 2). lia.
Qed.
Lemma child_fun i j c : child i c → child j c → i = j.
Proof. unfold child. lia. Qed.
Lemma under_parent s c : under s c → s < c → under s ((c - 1) / 2) ∧ child ((c - 1) / 2) c.
Proof.
  intros [|i c' Hi Hc] Hlt; [lia|]. assert (Hp : child ((c' - 1) / 2) c') by (apply child_parent; lia).
  by rewrite <-(child_fun _ _ _ Hc Hp).
Qed.

Lemma removelast_snoc {A} (l : list A) x : removelast (l ++ [x]) = l.
Proof. induction l as [|y l IH]; [done|]. simpl. destruct l; simpl in *; [done|]. by rewrite IH. Qed.

Lemma insert_Permutation {A} (l : list A) i x : i < length l → <[i := x]> l ≡ₚ x :: delete i l.
Proof.
  intros Hi. rewrite (delete_Permutation (<[i := x]> l) i x) by (by apply list_lookup_insert_eq).
  f_equiv. cut (delete i (<[i := x]> l) = delete i l); [by intros ->|].
  revert i Hi. induction l as [|y l IH]; intros [|i] Hi; simpl in *; try done.
  f_equal. apply IH. lia.
Qed.

(** Exchanging two elements. *)
Lemma swap_Permutation {A} (l : list A) i j x y :
  i ≠ j → l !! i = Some x → l !! j = Some y → <[i := y]> (<[j := x]> l) ≡ₚ l.
Proof.
  intros Hij Hi Hj. assert (i < length l) by (by eapply lookup_lt_Some).
  assert (j < length l) by (by eapply lookup_lt_Some).
  rewrite insert_Permutation by (by rewrite length_insert).
  rewrite (delete_Permutation l j y Hj) at 2. f_equiv.
  apply (Permutation_cons_inv (a:=x)). rewrite <-(insert_Permutation l j x) by done.
  symmetry. apply delete_Permutation. by rewrite list_lookup_insert_ne.
Qed.

(** What the proofs need of the order: [lt] is the boolean of a strict order
    whose negation is transitive, as for any strict total order. *)
Class WeakOrder {A} (lt : A → A → bool) : Prop := {
  lt_irrefl x : lt x x = false;
  lt_trans x y z : lt x y = true → lt y z = true → lt x z = true;
  le_trans x y z : lt y x = false → lt z y = false → lt z x = false
}.
Class TotalOrder {A} (lt : A → A → bool) : Prop := {
  #[global] total_weak :: WeakOrder lt;
  lt_total x y : lt x y = false → lt y x = false → x = y
}.

Section heap_proofs.
Context {A : Type} (lt : A → A → bool) `{!WeakOrder lt}.
Local Abbreviation le x y := (lt y x = false).

Lemma lt_le x y : lt x y = true → le x y.
Proof. intros H. destruct (lt y x) eqn:E; [|done]. rewrite <-(lt_irrefl x). symmetry. by eapply lt_trans. Qed.

(** [l] is a heap from position [s] on. *)
Definition heap_from (s : nat) (l : list A) : Prop :=
  ∀ i c x y, s ≤ i → child i c → l !! i = Some x → l !! c = Some y → le x y.

(** The same but for the element at [pos], which may be smaller than its parent. *)
Definition almost_up (s pos : nat) (l : list A) : Prop :=
  (∀ i c x y, s ≤ i → child i c → c ≠ pos → l !! i = Some x → l !! c = Some y → le x y) ∧
  (∀ p c x y, s ≤ p → child p pos → child pos c → l !! p = Some x → l !! c = Some y → le x y).

Lemma siftdown_loop_spec fuel l s pos x :
  pos ≤ fuel → under s pos → pos < length l → almost_up s pos (<[pos := x]> l) →
  heap_from s (Heapq.siftdown_loop lt fuel l s pos x)
  ∧ Heapq.siftdown_loop lt fuel l s pos x ≡ₚ <[pos := x]> l.
Proof.
  revert l pos. induction fuel as [|fuel IH]; intros l pos Hf Hu Hlen [H1 H2];
    cbn [Heapq.siftdown_loop]; cbv zeta.
  { split; [|done]. intros i c a b Hi Hc. apply H1; [done..|]. apply under_le in Hu. apply child_lt in Hc. lia. }
  destruct (Nat.ltb_spec s pos) as [Hlt|Hge].
  2:{ split; [|done]. intros i c a b Hi Hc. apply H1; [done..|].
      apply under_le in Hu. apply child_lt in Hc. lia. }
  destruct (under_parent s pos Hu Hlt) as [Hup Hpc]. set (p := (pos - 1) / 2) in *.
  pose proof (child_lt _ _ Hpc) as Hpp. pose proof (under_le _ _ Hup) as Hsp.
  destruct (lookup_lt_is_Some_2 l p ltac:(lia)) as [y Hy]. rewrite Hy.
  destruct (lt x y) eqn:Exy.
  - assert (Hswap : <[p := x]> (<[pos := y]> l) ≡ₚ <[pos := x]> l).
    { rewrite <-(list_insert_insert_eq l pos y x). apply swap_Permutation with (i:=p) (j:=pos); [lia| |].
      - by rewrite list_lookup_insert_ne by lia.
      - by rewrite list_lookup_insert_eq. }
    destruct (IH (<[pos := y]> l) p) as [Hh Hperm]; [lia|done|rewrite length_insert; lia| |].
    2:{ split; [done|]. by rewrite Hperm. }
    assert (Hin : ∀ j v, <[p := x]> (<[pos := y]> l) !! j = Some v →
      (j = p ∧ v = x) ∨ (j = pos ∧ v = y) ∨ (j ≠ p ∧ j ≠ pos ∧ <[pos := x]> l !! j = Some v)).
    { intros j v Hv. destruct (decide (j = p)) as [->|].
      - rewrite list_lookup_insert_eq in Hv by (rewrite length_insert; lia). left. by simplify_eq.
      - rewrite list_lookup_insert_ne in Hv by done. destruct (decide (j = pos)) as [->|].
        + rewrite list_lookup_insert_eq in Hv by lia. right; left. by simplify_eq.
        + right; right. rewrite list_lookup_insert_ne in Hv |- * by done. done. }
    assert (Hpy : <[pos := x]> l !! p = Some y) by (by rewrite list_lookup_insert_ne by lia).
    split.
    + intros i c a b Hi Hc Hne Ha Hb.
      destruct (Hin _ _ Ha) as [[-> ->]|[[-> ->]|(Hi1 & Hi2 & Ha')]];
      destruct (Hin _ _ Hb) as [[-> ->]|[[-> ->]|(Hc1 & Hc2 & Hb')]]; try done; try lia.
      * by apply lt_le.
      * apply (le_trans x y b); [by apply lt_le|]. by apply (H1 p c).
      * by apply child_lt in Hc; lia.
      * apply (H2 p c); done.
      * destruct Hi1. by eapply child_fun.
      * by apply (H1 i c).
    + intros q c a b Hq Hqp Hpc' Ha Hb. pose proof (child_lt _ _ Hqp). pose proof (child_lt _ _ Hpc').
      destruct (Hin _ _ Ha) as [[-> ->]|[[-> ->]|(Hi1 & Hi2 & Ha')]]; [lia|lia|].
      assert (Hay : le a y) by (apply (H1 q p); done || lia).
      destruct (Hin _ _ Hb) as [[-> ->]|[[-> ->]|(Hc1 & Hc2 & Hb')]]; [lia|done|].
      apply (le_trans a y b); [done|]. by apply (H1 p c).
  - split; [|done]. intros i c a b Hi Hc Ha Hb. destruct (decide (c = pos)) as [->|]; [|by apply (H1 i c)].
    rewrite (child_fun _ _ _ Hc Hpc) in Ha. rewrite list_lookup_insert_ne in Ha by lia.
    rewrite list_lookup_insert_eq in Hb by done. by simplify_eq.
Qed.

Lemma siftdown_spec l s pos :
  under s pos → pos < length l → almost_up s pos l →
  heap_from s (Heapq._siftdown lt l s pos) ∧ Heapq._siftdown lt l s pos ≡ₚ l.
Proof.
  intros Hu Hlen Ha. unfold Heapq._siftdown. destruct (lookup_lt_is_Some_2 l pos Hlen) as [x Hx]. rewrite Hx.
  destruct (siftdown_loop_spec pos l s pos x) as [H1 H2]; rewrite ?(list_insert_id _ _ _ Hx) in *; done.
Qed.

Lemma smaller_child_spec l pos :
  match Heapq.smaller_child lt l pos with
  | Some (c, y) => child pos c ∧ l !! c = Some y ∧ ∀ c' z, child pos c' → l !! c' = Some z → le y z
  | None => ∀ c, child pos c → l !! c = None
  end.
Proof.
  unfold Heapq.smaller_child. destruct (l !! (2 * pos + 1)) as [a|] eqn:Ea.
  - destruct (l !! (2 * pos + 1 + 1)) as [b|] eqn:Eb.
    + destruct (lt a b) eqn:Eab; (split; [unfold child; lia|]); (split; [done|]).
      * intros c' z [->| ->] Hz; [rewrite Ea in Hz; simplify_eq; apply lt_irrefl|].
        replace (2 * pos + 2) with (2 * pos + 1 + 1) in Hz by lia. rewrite Eb in Hz. simplify_eq. by apply lt_le.
      * intros c' z [->| ->] Hz; [by rewrite Ea in Hz; simplify_eq|].
        replace (2 * pos + 2) with (2 * pos + 1 + 1) in Hz by lia. rewrite Eb in Hz. simplify_eq. apply lt_irrefl.
    + split; [unfold child; lia|]. split; [done|]. intros c' z [->| ->] Hz.
      * rewrite Ea in Hz; simplify_eq; apply lt_irrefl.
      * replace (2 * pos + 2) with (2 * pos + 1 + 1) in Hz by lia. congruence.
  - intros c [->| ->]; [done|]. apply lookup_ge_None in Ea. apply lookup_ge_None. lia.
Qed.

(** [l] is a heap from [s] on if position [pos] is ignored. *)
Definition almost_down (s pos : nat) (l : list A) : Prop :=
  (∀ i c x y, s ≤ i → child i c → i ≠ pos → c ≠ pos → l !! i = Some x → l !! c = Some y → le x y) ∧
  (∀ p c x y, s ≤ p → child p pos → child pos c → l !! p = Some x → l !! c = Some y → le x y).

Lemma siftup_loop_spec fuel l s pos x :
  length l ≤ pos + fuel → under s pos → pos < length l → almost_down s pos l →
  let '(l', leaf) := Heapq.siftup_loop lt fuel l pos in
  under s leaf ∧ leaf < length l' ∧ almost_down s leaf l' ∧ (∀ c, child leaf c → l' !! c = None)
  ∧ <[leaf := x]> l' ≡ₚ <[pos := x]> l.
Proof.
  revert l pos. induction fuel as [|fuel IH]; intros l pos Hf Hu Hlen [H1 H2]; simpl; [lia|].
  pose proof (smaller_child_spec l pos) as Hs.
  destruct (Heapq.smaller_child lt l pos) as [[c y]|]; [|done].
  destruct Hs as (Hc & Hy & Hmin). pose proof (child_lt _ _ Hc) as Hpc.
  assert (Hclen : c < length l) by (by eapply lookup_lt_Some).
  assert (Hperm : <[c := x]> (<[pos := y]> l) ≡ₚ <[pos := x]> l).
  { rewrite <-(list_insert_insert_eq l pos y x). apply swap_Permutation with (i:=c) (j:=pos); [lia| |].
    - by rewrite list_lookup_insert_ne by lia.
    - by rewrite list_lookup_insert_eq. }
  specialize (IH (<[pos := y]> l) c). rewrite length_insert in IH.
  destruct (Heapq.siftup_loop lt fuel (<[pos := y]> l) c) as [l' leaf].
  destruct IH as (I1 & I2 & I3 & I4 & I5).
  - lia.
  - by eapply under_child.
  - done.
  - split.
    + intros i c' a b Hi Hc' Hi1 Hc1 Ha Hb. destruct (decide (i = pos)) as [->|Hip].
      * rewrite list_lookup_insert_eq in Ha by done. simplify_eq.
        rewrite list_lookup_insert_ne in Hb by (apply child_lt in Hc'; lia). by eapply Hmin.
      * rewrite list_lookup_insert_ne in Ha by done. destruct (decide (c' = pos)) as [->|].
        -- rewrite list_lookup_insert_eq in Hb by done. simplify_eq. by eapply H2.
        -- rewrite list_lookup_insert_ne in Hb by done. by eapply H1.
    + intros p c' a b Hp Hpc' Hcc' Ha Hb. pose proof (child_lt _ _ Hcc').
      rewrite (child_fun _ _ _ Hpc' Hc) in Ha. rewrite list_lookup_insert_eq in Ha by done. simplify_eq.
      rewrite list_lookup_insert_ne in Hb by lia. eapply (H1 c c'); done || lia || apply under_le in Hu; lia.
  - split_and!; try done. by rewrite I5.
Qed.

Lemma siftup_spec l s :
  s < length l → heap_from (S s) l → heap_from s (Heapq._siftup lt l s) ∧ Heapq._siftup lt l s ≡ₚ l.
Proof.
  intros Hlen Hh. unfold Heapq._siftup. destruct (lookup_lt_is_Some_2 l s Hlen) as [x Hx]. rewrite Hx.
  pose proof (siftup_loop_spec (length l) l s s x ltac:(lia) (under_refl s) Hlen) as Hl.
  destruct (Heapq.siftup_loop lt (length l) l s) as [l' leaf].
  destruct Hl as (Hu & Hlt & [H1 H2] & Hleaf & Hperm).
  { split.
    - intros i c a b Hi Hc Hne _. eapply Hh; [lia|done].
    - intros p c a b Hp Hps. apply child_lt in Hps. lia. }
  destruct (siftdown_spec (<[leaf := x]> l') s leaf) as [Hh' Hp']; [done|by rewrite length_insert| |].
  - split.
    + intros i c a b Hi Hc Hne Ha Hb. rewrite list_lookup_insert_ne in Hb by done.
      destruct (decide (i = leaf)) as [->|]; [by rewrite Hleaf in Hb|].
      rewrite list_lookup_insert_ne in Ha by done. by eapply H1.
    + intros p c a b _ _ Hc _ Hb. rewrite list_lookup_insert_ne in Hb by (apply child_lt in Hc; lia).
      by rewrite Hleaf in Hb.
  - split; [done|]. by rewrite Hp', Hperm, (list_insert_id _ _ _ Hx).
Qed.

Lemma heap_from_ext s l l' : (∀ i, s ≤ i → l !! i = l' !! i) → heap_from s l → heap_from s l'.
Proof.
  intros He Hh i c x y Hi Hc Hx Hy. apply child_lt in Hc as Hlt.
  apply (Hh i c); [done|done|by rewrite He|by rewrite He by lia].
Qed.

Lemma heappush_spec l x : heap_from 0 l → heap_from 0 (Heapq.heappush lt l x) ∧ Heapq.heappush lt l x ≡ₚ x :: l.
Proof.
  intros Hh. unfold Heapq.heappush.
  destruct (siftdown_spec (l ++ [x]) 0 (length l)) as [H1 H2].
  - generalize (length l) as n. intros n. induction (lt_wf n) as [n _ IH].
    destruct (decide (n = 0)) as [->|]; [constructor|].
    assert (Hc : child ((n - 1) / 2) n) by (apply child_parent; lia).
    eapply under_child; [|done]. apply IH. by apply child_lt in Hc.
  - rewrite length_app. simpl. lia.
  - split.
    + intros i c a b Hi Hc Hne Ha Hb. assert (c < length l).
      { apply lookup_lt_Some in Hb. rewrite length_app in Hb. simpl in Hb. lia. }
      rewrite lookup_app_l in Ha by (apply child_lt in Hc; lia). rewrite lookup_app_l in Hb by done. by eapply Hh.
    + intros p c a b _ _ Hc _ Hb. apply lookup_lt_Some in Hb. apply child_lt in Hc.
      rewrite length_app in Hb. simpl in Hb. lia.
  - split; [done|]. by rewrite H2, <-Permutation_cons_append.
Qed.

(** The root of a heap is a least element. *)
Lemma heap_root l x y i : heap_from 0 l → l !! 0 = Some x → l !! i = Some y → le x y.
Proof.
  intros Hh Hx. revert y. induction (lt_wf i) as [i _ IH]. intros y Hy.
  destruct (decide (i = 0)) as [->|]; [simplify_eq; apply lt_irrefl|].
  assert (Hc : child ((i - 1) / 2) i) by (apply child_parent; lia). apply child_lt in Hc as Hlt.
  destruct (lookup_lt_is_Some_2 l ((i - 1) / 2)) as [z Hz]; [apply lookup_lt_Some in Hy; lia|].
  apply (le_trans x z y); [by eapply IH|]. by apply (Hh _ _ z y (Nat.le_0_l _) Hc).
Qed.

Lemma heappop_spec l : heap_from 0 l → l ≠ [] →
  ∃ x l', Heapq.heappop lt l = Ok (x, l') ∧ l !! 0 = Some x ∧ heap_from 0 l' ∧ l ≡ₚ x :: l'.
Proof.
  intros Hh Hl. destruct l as [|z l0 _] using rev_ind; [done|]. unfold Heapq.heappop.
  rewrite last_snoc, removelast_snoc. destruct l0 as [|x l0].
  - by exists z, []; split_and!.
  - destruct (siftup_spec (z :: l0) 0) as [H1 H2]; [simpl; lia| |].
    + apply (heap_from_ext 1 (x :: l0)); [intros [|i]; [lia|done]|].
      intros i c a b Hi Hc Ha Hb. apply (Hh i c a b); [lia|done| |];
        rewrite lookup_app_l; try done; by eapply lookup_lt_Some.
    + eexists _, _. split; [done|]. split; [done|]. split; [done|].
      rewrite H2. simpl. by rewrite <-Permutation_cons_append.
Qed.

Lemma heapify_spec l : heap_from 0 (Heapq.heapify lt l) ∧ Heapq.heapify lt l ≡ₚ l.
Proof.
  unfold Heapq.heapify.
  assert (Hgen : ∀ n l0, l0 ≡ₚ l → n ≤ length l → heap_from n l0 →
    heap_from 0 (foldl (Heapq._siftup lt) l0 (reverse (seq 0 n)))
    ∧ foldl (Heapq._siftup lt) l0 (reverse (seq 0 n)) ≡ₚ l).
  { induction n as [|n IH]; intros l0 Hp Hn Hh; [done|].
    rewrite seq_S, reverse_app. simpl.
    destruct (siftup_spec l0 n) as [H1 H2]; [rewrite Hp; lia|done|].
    apply IH; [by rewrite H2|lia|done]. }
  apply Hgen; [done|apply Nat.Div0.div_le_upper_bound; lia|].
  intros i c x y Hi Hc Hx Hy. apply lookup_lt_Some in Hy. exfalso.
  assert (length l / 2 * 2 ≤ i * 2) by lia. pose proof (Nat.div_mod_eq (length l) 2).
  pose proof (Nat.mod_upper_bound (length l) 2). unfold child in Hc. lia.
Qed.
End heap_proofs.

(** ** Queues as sequences

    The abstract queue is the sequence in which requests will be popped. *)

Module QueueSpec.
Section spec.
Context {A : Type} `{EqDecision A} (lt : A → A → bool).

Fixpoint insert_sorted (x : A) (s : list A) : list A :=
  match s with
  | [] => [x]
  | y :: s' => if lt x y then x :: s else y :: insert_sorted x s'
  end.

Definition add (policy : SchedulingPolicy) (x : A) (s : list A) : list A :=
  match policy with FCFS => s ++ [x] | PRIORITY => insert_sorted x s end.
Definition prepend (policy : SchedulingPolicy) (x : A) (s : list A) : list A :=
  match policy with FCFS => x :: s | PRIORITY => insert_sorted x s end.
Definition prepend_all (policy : SchedulingPolicy) (xs s : list A) : list A :=
  foldl (flip (prepend policy)) s xs.

(** [q] is popped in the order [s]. *)
Definition repr (policy : SchedulingPolicy) (q : RequestQueue A) (s : list A) : Prop :=
  match policy, q with
  | FCFS, FCFSRequestQueue d => d = s
  | PRIORITY, PriorityRequestQueue h =>
      heap_from lt 0 h ∧ h ≡ₚ s ∧ StronglySorted (λ x y, lt y x = false) s
  | _, _ => False
  end.
End spec.
End QueueSpec.

Section queue_proofs.
Context {A : Type} `{EqDecision A} (lt : A → A → bool) `{!TotalOrder lt}.
Implicit Types (q : RequestQueue A) (s : list A).
Local Abbreviation repr := (QueueSpec.repr lt).
Local Abbreviation sorted := (StronglySorted (λ x y, lt y x = false)).

#[local] Instance le_antisymm : AntiSymm (=) (λ x y, lt y x = false).
Proof. intros x y H1 H2. by apply lt_total. Qed.

Lemma insert_sorted_perm x s : QueueSpec.insert_sorted lt x s ≡ₚ x :: s.
Proof.
  induction s as [|y s IH]; [done|]. simpl. destruct (lt x y); [done|].
  rewrite IH. apply Permutation_swap.
Qed.

Lemma insert_sorted_sorted x s : sorted s → sorted (QueueSpec.insert_sorted lt x s).
Proof.
  induction 1 as [|y s Hs IH Hy]; simpl; [repeat constructor|].
  destruct (lt x y) eqn:E.
  - constructor; [by constructor|]. constructor; [by apply (lt_le lt)|].
    eapply Forall_impl; [done|]. intros z Hz. simpl in Hz. apply (le_trans x y z); [by apply (lt_le lt)|done].
  - constructor; [done|]. rewrite insert_sorted_perm. by constructor.
Qed.

Lemma create_repr policy : repr policy (create_request_queue policy) [].
Proof. destruct policy; simpl; [done|]. split; [done|]. split; [done|constructor]. Qed.

Lemma add_repr policy q s x : repr policy q s → repr policy (add_request lt x q) (QueueSpec.add lt policy x s).
Proof.
  destruct policy, q as [d|h]; simpl; try done; [by intros ->|]. intros (Hh & Hp & Hs).
  destruct (heappush_spec lt h x Hh) as [H1 H2].
  split; [done|]. split; [by rewrite H2, insert_sorted_perm, Hp|by apply insert_sorted_sorted].
Qed.

Lemma prepend_repr policy q s x :
  repr policy q s → repr policy (prepend_request lt x q) (QueueSpec.prepend lt policy x s).
Proof.
  intros Hq. destruct policy, q as [d|h]; try done; [simpl in *; by subst|]. apply (add_repr PRIORITY _ _ x Hq).
Qed.

Lemma prepend_list_repr policy q s xs :
  repr policy q s → repr policy (foldl (flip (prepend_request lt)) q xs) (QueueSpec.prepend_all lt policy xs s).
Proof.
  unfold QueueSpec.prepend_all. revert q s. induction xs as [|x xs IH]; intros q s Hq; [done|].
  simpl. apply IH. by apply prepend_repr.
Qed.

Lemma heap_pop_order h s : h ≠ [] → repr PRIORITY (PriorityRequestQueue h) s →
  ∃ x h' s', s = x :: s' ∧ h !! 0 = Some x ∧ Heapq.heappop lt h = Ok (x, h')
    ∧ repr PRIORITY (PriorityRequestQueue h') s'.
Proof.
  intros Hne (Hh & Hp & Hs). destruct (heappop_spec lt h Hh Hne) as (x & h' & Epop & H0 & Hh' & Hph).
  destruct s as [|y s']; [by apply Permutation_nil_r in Hp|].
  apply StronglySorted_inv in Hs as [Hs' Hy]. rewrite Forall_forall in Hy.
  assert (x = y) as <-.
  { assert (Hx : x ∈ y :: s') by (rewrite <-Hp; by apply list_elem_of_lookup_2 with 0).
    assert (Hyh : y ∈ h) by (rewrite Hp; left). apply list_elem_of_lookup in Hyh as [i Hi].
    apply lt_total; [|by eapply (heap_root lt h x y i)].
    apply elem_of_cons in Hx as [->|Hx]; [apply lt_irrefl|]. by apply Hy. }
  exists x, h', s'. split_and!; try done. split; [done|]. split; [|done].
  apply (Permutation_cons_inv (a:=x)). by rewrite <-Hph.
Qed.

Lemma pop_repr policy q s : repr policy q s →
  match s with
  | [] => pop_request lt q = Err IndexError
  | x :: s' => ∃ q', pop_request lt q = Ok (x, q') ∧ repr policy q' s'
  end.
Proof.
  destruct policy, q as [d|h]; try done.
  - simpl. intros ->. destruct s as [|x s]; [done|]. by exists (FCFSRequestQueue s).
  - intros Hq. destruct h as [|z h].
    + destruct Hq as (_ & Hp & _). apply Permutation_nil_l in Hp. by subst.
    + destruct (heap_pop_order (z :: h) s) as (x & h' & s' & -> & _ & E & Hq'); [done..|].
      exists (PriorityRequestQueue h'). split; [|done]. unfold pop_request. by rewrite E.
Qed.

Lemma peek_repr policy q s : repr policy q s →
  peek_request q = match s with [] => Err IndexError | x :: _ => Ok x end.
Proof.
  destruct policy, q as [d|h]; try done.
  - simpl. intros ->. by destruct s.
  - intros Hq. destruct h as [|z h].
    + destruct Hq as (_ & Hp & _). apply Permutation_nil_l in Hp. by subst.
    + destruct (heap_pop_order (z :: h) s) as (x & h' & s' & -> & H0 & _); [done..|]. simpl in *. congruence.
Qed.

Lemma iter_repr policy q s : repr policy q s → queue_iter lt q = Ok s.
Proof.
  destruct policy, q as [d|h]; try done; [simpl; by intros ->|]. simpl. intros Hq.
  destruct Hq as (Hh & Hp & Hs). rewrite (Permutation_length Hp).
  remember (length s) as n eqn:Hn. revert h s Hn Hh Hp Hs.
  induction n as [|n IH]; intros h s Hn Hh Hp Hs; [by destruct s|]. simpl.
  destruct h as [|z h]; [apply Permutation_nil_l in Hp; by subst|].
  destruct (heap_pop_order (z :: h) s) as (x & h' & s' & -> & _ & E & Hh' & Hp' & Hs'); [done..|].
  rewrite E. simpl in Hn. simpl. rewrite (IH h' s'); [done|lia|done..].
Qed.

Lemma prepend_all_repr policy q s q2 s2 : repr policy q s → repr policy q2 s2 →
  ∃ q', prepend_requests lt q2 q = Ok q' ∧ repr policy q' (QueueSpec.prepend_all lt policy s2 s).
Proof.
  intros Hq Hq2. unfold prepend_requests. rewrite (iter_repr _ _ _ Hq2).
  eexists. split; [done|]. by apply prepend_list_repr.
Qed.

Lemma sorted_sub s s' : sorted s → s' `sublist_of` s → sorted s'.
Proof.
  intros Hs. revert s'. induction Hs as [|x s Hs IH Hx]; intros s' Hsub.
  - apply sublist_nil_r in Hsub as ->. constructor.
  - apply sublist_cons_r in Hsub as [Hsub|(s2 & -> & Hsub)]; [by apply IH|].
    constructor; [by apply IH|]. rewrite Forall_forall in Hx |- *. intros y Hy. apply Hx.
    by eapply elem_of_sublist.
Qed.

Lemma list_remove_perm s x :
  match list_remove s x with
  | Some s' => s ≡ₚ x :: s' ∧ s' `sublist_of` s
  | None => x ∉ s
  end.
Proof.
  induction s as [|y s IH]; simpl; [by apply not_elem_of_nil|].
  destruct (decide (y = x)) as [->|Hne]; [split; [done|by constructor]|].
  destruct (list_remove s x) as [s'|]; simpl.
  - destruct IH as [H1 H2]. split; [rewrite H1; apply Permutation_swap|by constructor].
  - rewrite not_elem_of_cons. by split.
Qed.

Lemma remove_repr policy q s x : repr policy q s →
  match list_remove s x with
  | Some s' => ∃ q', remove_request lt x q = Ok q' ∧ repr policy q' s'
  | None => remove_request lt x q = Err ValueError
  end.
Proof.
  destruct policy, q as [d|h]; try done.
  - simpl. intros ->. destruct (list_remove s x) as [s'|]; [|done]. by exists (FCFSRequestQueue s').
  - intros (Hh & Hp & Hs). simpl. pose proof (list_remove_perm s x) as H1. pose proof (list_remove_perm h x) as H2.
    destruct (list_remove s x) as [s'|], (list_remove h x) as [h'|].
    + destruct (heapify_spec lt h') as [Hh' Hp']. eexists. split; [done|]. split; [done|].
      split; [|by eapply sorted_sub; [|apply H1]]. rewrite Hp'. apply (Permutation_cons_inv (a:=x)).
      rewrite <-(proj1 H1), <-(proj1 H2). done.
    + destruct H2. rewrite Hp, (proj1 H1). left.
    + destruct H1. rewrite <-Hp, (proj1 H2). left.
    + done.
Qed.

Lemma remove_all_repr policy q s xs : repr policy q s → repr policy (remove_requests lt xs q) (filter (.∉ xs) s).
Proof.
  destruct policy, q as [d|h]; try done; [by simpl; intros ->|]. intros (Hh & Hp & Hs). simpl.
  destruct (heapify_spec lt (filter (.∉ xs) h)) as [Hh' Hp'].
  split; [done|]. split; [by rewrite Hp', Hp|]. eapply sorted_sub; [done|]. apply sublist_filter.
Qed.

Lemma len_repr policy q s : repr policy q s → queue_len q = zlen s.
Proof.
  destruct policy, q as [d|h]; try done; [by simpl; intros ->|]. intros (_ & Hp & _). simpl.
  unfold zlen. by rewrite Hp.
Qed.
End queue_proofs.

(** ** [Request.__lt__] is a strict total order on live objects *)

Lemma string_ltb_irrefl a : string_ltb a a = false.
Proof.
  unfold string_ltb. pose proof (String.compare_antisym a a) as H. destruct (String.compare a a); done.
Qed.

Lemma string_ltb_trans a b c : string_ltb a b = true → string_ltb b c = true → string_ltb a c = true.
Proof.
  unfold string_ltb. revert b c. induction a as [|x a IH]; intros [|y b] [|z c]; simpl; try done.
  unfold Ascii.compare.
  destruct (N.compare_spec (Ascii.N_of_ascii x) (Ascii.N_of_ascii y)) as [Exy|Hxy|Hxy]; [| |done];
  destruct (N.compare_spec (Ascii.N_of_ascii y) (Ascii.N_of_ascii z)) as [Eyz|Hyz|Hyz]; try done; intros H1 H2;
  destruct (N.compare_spec (Ascii.N_of_ascii x) (Ascii.N_of_ascii z)) as [Exz|Hxz|Hxz]; try done; try lia.
  by apply (IH b c).
Qed.

Lemma string_ltb_total a b : string_ltb a b = false → string_ltb b a = false → a = b.
Proof.
  unfold string_ltb. rewrite (String.compare_antisym b a).
  destruct (String.compare a b) eqn:E; simpl; intros H1 H2; try done. by apply String.compare_eq_iff.
Qed.

(** Lexicographic composition of the comparison of a key with a finer order. *)
Definition lex_lt {A K} (key : A → K) (klt keq : K → K → bool) (lt : A → A → bool) (a b : A) : bool :=
  if keq (key a) (key b) then lt a b else klt (key a) (key b).

#[global] Instance lex_total {A K} (key : A → K) (klt keq : K → K → bool) (lt : A → A → bool) :
  (∀ x y, keq x y = true ↔ x = y) → TotalOrder klt → TotalOrder lt → TotalOrder (lex_lt key klt keq lt).
Proof.
  intros Heq Hk Hl. unfold lex_lt.
  assert (Hne : ∀ x y, keq x y = false ↔ x ≠ y).
  { intros x y. rewrite <-Heq. destruct (keq x y); naive_solver. }
  assert (Hcase : ∀ x y, (keq x y = true ∧ x = y) ∨ (keq x y = false ∧ x ≠ y)).
  { intros x y. destruct (keq x y) eqn:E; [left|right]; split; try done; [by apply Heq|by apply Hne]. }
  constructor; [constructor|].
  - intros x. rewrite (proj2 (Heq _ _) eq_refl). apply lt_irrefl.
  - intros x y z. destruct (Hcase (key x) (key y)) as [[-> Exy]|[-> Exy]], (Hcase (key y) (key z)) as [[-> Eyz]|[-> Eyz]].
    + rewrite Exy, Eyz, (proj2 (Heq _ _) eq_refl). apply lt_trans.
    + rewrite Exy, (proj2 (Hne _ _) Eyz). done.
    + rewrite <-Eyz, (proj2 (Hne _ _) Exy). done.
    + intros H1 H2. pose proof (lt_trans _ _ _ H1 H2) as H3.
      rewrite (proj2 (Hne (key x) (key z))); [done|]. intros E. rewrite E in H3. by rewrite lt_irrefl in H3.
  - intros x y z. destruct (Hcase (key y) (key x)) as [[-> Exy]|[-> Exy]], (Hcase (key z) (key y)) as [[-> Eyz]|[-> Eyz]].
    + rewrite Eyz, Exy, (proj2 (Heq _ _) eq_refl). apply le_trans.
    + rewrite <-Exy, (proj2 (Hne _ _) Eyz). done.
    + rewrite Eyz, (proj2 (Hne _ _) Exy). done.
    + intros H1 H2. pose proof (le_trans _ _ _ H1 H2) as H3.
      rewrite (proj2 (Hne (key z) (key x))); [done|]. intros E. apply Exy. rewrite <-E in H1 |- *.
      by apply lt_total.
  - intros x y. destruct (Hcase (key x) (key y)) as [[-> E]|[-> E]].
    + rewrite E, (proj2 (Heq _ _) eq_refl). apply lt_total.
    + rewrite (proj2 (Hne (key y) (key x))) by done. intros H1 H2. by destruct E; apply lt_total.
Qed.

#[global] Instance Z_ltb_total : TotalOrder Z.ltb.
Proof.
  constructor; [constructor|].
  - intros x. apply Z.ltb_irrefl.
  - intros x y z. rewrite !Z.ltb_lt. lia.
  - intros x y z. rewrite !Z.ltb_ge. lia.
  - intros x y. rewrite !Z.ltb_ge. lia.
Qed.
#[global] Instance string_ltb_order : TotalOrder string_ltb.
Proof.
  constructor; [constructor|].
  - apply string_ltb_irrefl.
  - apply string_ltb_trans.
  - intros x y z H1 H2. destruct (string_ltb z x) eqn:E; [|done].
    destruct (string_ltb x y) eqn:Exy.
    + rewrite <-H2. symmetry. by apply string_ltb_trans with x.
    + rewrite (string_ltb_total y x H1 Exy) in H2. congruence.
  - apply string_ltb_total.
Qed.

Lemma pullback_total {A} (addr : A → Z) `{!Inj (=) (=) addr} : TotalOrder (λ a b, (addr a <? addr b)%Z).
Proof.
  constructor; [constructor|].
  - intros x. apply lt_irrefl.
  - intros x y z. apply lt_trans.
  - intros x y z. apply le_trans.
  - intros x y H1 H2. apply (inj addr). by apply lt_total.
Qed.

Lemma request_lt_total {A} (obj : A → Request) (addr : A → Z) :
  Inj (=) (=) addr → TotalOrder (request_lt obj addr).
Proof.
  intros Hinj. apply (lex_total (λ a, priority (obj a)) Z.ltb Z.eqb); [apply Z.eqb_eq|apply _|].
  apply (lex_total (λ a, arrival_time (obj a)) Z.ltb Z.eqb); [apply Z.eqb_eq|apply _|].
  apply (lex_total (λ a, request_id (obj a)) string_ltb String.eqb); [apply String.eqb_eq|apply _|].
  by apply pullback_total.
Qed.

(** The same when references are told apart by the id of their request. *)
Lemma request_lt_total_ids {A} (obj : A → Request) :
  Inj (=) (=) (λ a, request_id (obj a)) → TotalOrder (request_lt obj (λ _, 0%Z)).
Proof.
  intros Hinj. apply (lex_total (λ a, priority (obj a)) Z.ltb Z.eqb); [apply Z.eqb_eq|apply _|].
  apply (lex_total (λ a, arrival_time (obj a)) Z.ltb Z.eqb); [apply Z.eqb_eq|apply _|].
  assert (Hs : TotalOrder (λ a b, string_ltb (request_id (obj a)) (request_id (obj b)))).
  { constructor; [constructor|].
    - intros x. apply lt_irrefl.
    - intros x y z. apply lt_trans.
    - intros x y z. apply le_trans.
    - intros x y H1 H2. apply Hinj. by apply lt_total. }
  assert (He : ∀ a b, (if String.eqb (request_id (obj a)) (request_id (obj b)) then (0 <? 0)%Z
    else string_ltb (request_id (obj a)) (request_id (obj b))) = string_ltb (request_id (obj a)) (request_id (obj b))).
  { intros a b. destruct (String.eqb_spec (request_id (obj a)) (request_id (obj b))) as [->|]; [|done].
    symmetry. apply string_ltb_irrefl. }
  destruct Hs as [[S1 S2 S3] S4]. constructor; [constructor|].
  - intros x. rewrite He. apply S1.
  - intros x y z. rewrite !He. apply S2.
  - intros x y z. rewrite !He. apply S3.
  - intros x y. rewrite !He. apply S4.
Qed.

(** Only the order of the queued references matters. *)
Lemma repr_ext {A} (lt lt' : A → A → bool) policy q s :
  (∀ a b, a ∈ s → b ∈ s → lt a b = lt' a b) → QueueSpec.repr lt policy q s → QueueSpec.repr lt' policy q s.
Proof.
  intros He. destruct policy, q as [d|h]; try done. intros (Hh & Hp & Hs). split; [|split; [done|]].
  - intros i c x y Hi Hc Hx Hy. rewrite <-He; [by eapply Hh|rewrite <-Hp; by eapply list_elem_of_lookup_2..].
  - clear Hp Hh. induction Hs as [|x s Hs IH Hx]; constructor.
    + apply IH. intros a b Ha Hb. apply He; by right.
    + rewrite Forall_forall in Hx |- *. intros y Hy. rewrite <-He; [by apply Hx|by right|left].
Qed.

(** ** Sequences of queue operations *)

Module QueueOps.
Section ops.
Context {A : Type} `{EqDecision A} (lt : A → A → bool).

Inductive op :=
  | Add (x : A) | Pop | Peek | Prepend (x : A)
  | PrependAll (xs : list A)  (** a queue to which [xs] were prepended, as [step_skipped_waiting] *)
  | Remove (x : A) | RemoveAll (xs : list A) | Iter | Len.

Inductive out := Done | Item (x : A) | Items (xs : list A) | Num (n : Z) | Raised (e : exn).

(** An operation that raises leaves the queue as it was. *)
Definition catch {B} (q : B) (r : result (out * B)) : out * B :=
  match r with Ok p => p | Err e => (Raised e, q) end.

Definition step (policy : SchedulingPolicy) (o : op) (q : RequestQueue A) : out * RequestQueue A :=
  match o with
  | Add x => (Done, add_request lt x q)
  | Pop => catch q ('(x, q') ← pop_request lt q; Ok (Item x, q'))
  | Peek => catch q (x ← peek_request q; Ok (Item x, q))
  | Prepend x => (Done, prepend_request lt x q)
  | PrependAll xs =>
      catch q (q' ← prepend_requests lt (foldl (flip (prepend_request lt)) (create_request_queue policy) xs) q;
               Ok (Done, q'))
  | Remove x => catch q (q' ← remove_request lt x q; Ok (Done, q'))
  | RemoveAll xs => (Done, remove_requests lt xs q)
  | Iter => catch q (xs ← queue_iter lt q; Ok (Items xs, q))
  | Len => (Num (queue_len q), q)
  end.

Definition spec_step (policy : SchedulingPolicy) (o : op) (s : list A) : out * list A :=
  match o with
  | Add x => (Done, QueueSpec.add lt policy x s)
  | Pop => match s with [] => (Raised IndexError, []) | x :: s => (Item x, s) end
  | Peek => (match s with [] => Raised IndexError | x :: _ => Item x end, s)
  | Prepend x => (Done, QueueSpec.prepend lt policy x s)
  | PrependAll xs => (Done, QueueSpec.prepend_all lt policy (QueueSpec.prepend_all lt policy xs []) s)
  | Remove x => match list_remove s x with Some s' => (Done, s') | None => (Raised ValueError, s) end
  | RemoveAll xs => (Done, filter (.∉ xs) s)
  | Iter => (Items s, s)
  | Len => (Num (zlen s), s)
  end.

Fixpoint run {Q} (f : op → Q → out * Q) (os : list op) (q : Q) : list out :=
  match os with [] => [] | o :: os => let '(x, q) := f o q in x :: run f os q end.

Lemma step_spec `{!TotalOrder lt} policy o q s : QueueSpec.repr lt policy q s →
  (step policy o q).1 = (spec_step policy o s).1 ∧
  QueueSpec.repr lt policy (step policy o q).2 (spec_step policy o s).2.
Proof.
  intros Hq. destruct o as [x| | |x|xs|x|xs| |]; simpl.
  - split; [done|]. by apply add_repr.
  - pose proof (pop_repr lt policy q s Hq) as Hp. destruct s as [|y s]; [by rewrite Hp|].
    destruct Hp as (q' & -> & Hq'). done.
  - rewrite (peek_repr lt policy q s Hq). by destruct s.
  - split; [done|]. by apply prepend_repr.
  - destruct (prepend_all_repr lt policy q s _ _ Hq
      (prepend_list_repr lt policy _ _ xs (create_repr lt policy))) as (q' & -> & Hq'). done.
  - pose proof (remove_repr lt policy q s x Hq) as Hr. destruct (list_remove s x) as [s'|]; [|by rewrite Hr].
    destruct Hr as (q' & -> & Hq'). done.
  - split; [done|]. by apply remove_all_repr.
  - by rewrite (iter_repr lt policy q s Hq).
  - split; [by rewrite (len_repr lt policy q s Hq)|done].
Qed.

Lemma queue_run_spec `{!TotalOrder lt} policy os q s : QueueSpec.repr lt policy q s →
  run (step policy) os q = run (spec_step policy) os s.
Proof.
  revert q s. induction os as [|o os IH]; intros q s Hq; simpl; [done|].
  destruct (step_spec policy o q s Hq) as [H1 H2].
  destruct (step policy o q) as [x q'], (spec_step policy o s) as [y s']. simpl in *. subst. f_equal. by apply IH.
Qed.
End ops.
Arguments op : clear implicits.
Arguments out : clear implicits.
End QueueOps.

(** C24. The request queues of both policies behave like ordered sequences. Under
    every sequence of operations, errors included, an FCFS queue is a plain
    sequence, and a priority queue (a binary heap kept by [heapq]) is a sequence
    kept sorted by priority, then arrival time, then request id: the results are
    the same, in particular what is popped and the order of iteration. *)
Theorem request_queue_refines_sequence {A} `{EqDecision A} (obj : A → Request) (addr : A → Z) policy (os : list (QueueOps.op A)) :
  Inj (=) (=) addr →
  QueueOps.run (QueueOps.step (request_lt obj addr) policy) os (create_request_queue policy)
  = QueueOps.run (QueueOps.spec_step (request_lt obj addr) policy) os [].
Proof.
  intros Hinj. pose proof (request_lt_total obj addr Hinj).
  apply QueueOps.queue_run_spec; [done|]. apply create_repr.
Qed.

(** Requests [0], [1] and [2] with priorities 1, 0, 0, arriving at 5, 7, 6. *)
Definition demo_queued (i : nat) : Request :=
  mkRequest (pretty i) (if decide (i = 0) then 1%Z else 0%Z)
    (match i with 0 => 5%Z | 1 => 7%Z | _ => 6%Z end) WAITING None None None None false 16%Z (Some [1%Z]) None ∅ 1%Z
    [] [1%Z] 0%Z [] 0%Z None [] false 0%Z [] false false [] 0%Z 0%Z 0%Z None None.

Definition demo_ops : list (QueueOps.op nat) :=
  [QueueOps.Pop; QueueOps.Add 0; QueueOps.Add 1; QueueOps.Add 2; QueueOps.Iter;
   QueueOps.Pop; QueueOps.Remove 2; QueueOps.PrependAll [2; 1]; QueueOps.RemoveAll [1]; QueueOps.Iter; QueueOps.Len].

Lemma request_queue_refines_sequence_witness :
  Inj (=) (=) Z.of_nat ∧
  QueueOps.run (QueueOps.step (request_lt demo_queued Z.of_nat) PRIORITY) demo_ops (create_request_queue PRIORITY)
  = [QueueOps.Raised IndexError; QueueOps.Done; QueueOps.Done; QueueOps.Done; QueueOps.Items [2; 1; 0];
     QueueOps.Item 2; QueueOps.Raised ValueError; QueueOps.Done; QueueOps.Done; QueueOps.Items [2; 0]; QueueOps.Num 2].
Proof.
  split; [apply _|]. rewrite (request_queue_refines_sequence demo_queued Z.of_nat PRIORITY demo_ops); [|apply _].
  by vm_compute.
Defined.
