(* ===== verification/EncoderCache.v ===== *)
(** * The encoder cache

    Models [vllm/v1/core/encoder_cache_manager.py]: [EncoderCacheManager] (outputs
    of multi-modal encoders shared between requests by content hash, with lazy
    eviction), [EncoderDecoderCacheManager] and [compute_mm_encoder_budget].

    The order in which Python iterates over a [set] is not specified: [iter_set]
    stands for it, and the theorems hold for every such order. *)

From Stdlib Require Import ZArith Lia.
From S2P Require Import Prelude Request.
Local Open Scope Z_scope.
Local Open Scope vllm_scope.

Class SetOrder := {
  iter_set : gset Z → list Z;
  iter_set_perm s : iter_set s ≡ₚ elements s
}.

(** ** State *)

Record EncoderCacheManager := mkEncoderCacheManager {
  ec_cache_size : Z;
  ec_num_free_slots : Z;
  num_freeable_slots : Z;
  ec_cached : gmap string (gset string);
  request_cached_ids : gmap string (gset Z);
  freeable : list (string * Z);
  freed : list string
}.

Definition set_ec_num_free_slots (v : Z) (r : EncoderCacheManager) : EncoderCacheManager :=
  mkEncoderCacheManager (ec_cache_size r) v (num_freeable_slots r) (ec_cached r)
    (request_cached_ids r) (freeable r) (freed r).
Definition set_num_freeable_slots (v : Z) (r : EncoderCacheManager) : EncoderCacheManager :=
  mkEncoderCacheManager (ec_cache_size r) (ec_num_free_slots r) v (ec_cached r)
    (request_cached_ids r) (freeable r) (freed r).
Definition set_ec_cached (v : gmap string (gset string)) (r : EncoderCacheManager) : EncoderCacheManager :=
  mkEncoderCacheManager (ec_cache_size r) (ec_num_free_slots r) (num_freeable_slots r) v
    (request_cached_ids r) (freeable r) (freed r).
Definition set_request_cached_ids (v : gmap string (gset Z)) (r : EncoderCacheManager) : EncoderCacheManager :=
  mkEncoderCacheManager (ec_cache_size r) (ec_num_free_slots r) (num_freeable_slots r)
    (ec_cached r) v (freeable r) (freed r).
Definition set_freeable (v : list (string * Z)) (r : EncoderCacheManager) : EncoderCacheManager :=
  mkEncoderCacheManager (ec_cache_size r) (ec_num_free_slots r) (num_freeable_slots r)
    (ec_cached r) (request_cached_ids r) v (freed r).
Definition set_freed (v : list string) (r : EncoderCacheManager) : EncoderCacheManager :=
  mkEncoderCacheManager (ec_cache_size r) (ec_num_free_slots r) (num_freeable_slots r)
    (ec_cached r) (request_cached_ids r) (freeable r) v.

Definition new_encoder_cache (cache_size : Z) : EncoderCacheManager :=
  mkEncoderCacheManager cache_size cache_size cache_size ∅ ∅ [] [].

(** ** Operations *)

Definition identifier_of (r : Request) (input_id : Z) : result string :=
  f ← py_index (mm_features r) input_id; Ok (mm_identifier f).

Definition ec_reset : M EncoderCacheManager unit :=
  modify (λ e, new_encoder_cache (ec_cache_size e)).

(** [self.request_cached_ids.setdefault(request_id, set()).add(input_id)] *)
Definition note_cached_id (request_id : string) (input_id : Z) (e : EncoderCacheManager) : EncoderCacheManager :=
  set_request_cached_ids
    (<[request_id := default ∅ (request_cached_ids e !! request_id) ∪ {[input_id]}]> (request_cached_ids e)) e.

Definition check_and_update_cache (r : Request) (input_id : Z) : M EncoderCacheManager bool :=
  mm_hash ← lift_result (identifier_of r input_id);
  e ← get;
  match ec_cached e !! mm_hash with
  | None => mret false
  | Some refs =>
      (if decide (refs = ∅) then
         match dict_get (freeable e) mm_hash with
         | None => raise KeyError
         | Some n =>
             modify (λ e, set_num_freeable_slots (num_freeable_slots e - n)
                            (set_freeable (dict_del (freeable e) mm_hash) e))
         end
       else mret tt) ≫= λ _,
      modify (λ e, set_ec_cached (<[mm_hash := refs ∪ {[request_id r]}]> (ec_cached e)) e) ≫= λ _,
      modify (note_cached_id (request_id r) input_id) ≫= λ _,
      mret true
  end.

(** The eviction loop of [can_allocate]; [pending] is [self.freeable]. *)
Fixpoint evict_until (num_embeds : Z) (pending : list (string * Z)) : M EncoderCacheManager unit :=
  free ← gets ec_num_free_slots;
  if num_embeds >? free then
    match pending with
    | [] => raise KeyError
    | (mm_hash, n) :: pending =>
        modify (set_freeable pending) ≫= λ _,
        cached ← gets ec_cached;
        (if decide (cached !! mm_hash = None) then raise KeyError else mret tt) ≫= λ _,
        modify (λ e, set_ec_num_free_slots (ec_num_free_slots e + n)
                       (set_freed (freed e ++ [mm_hash])
                         (set_ec_cached (delete mm_hash (ec_cached e)) e))) ≫= λ _,
        evict_until num_embeds pending
    end
  else mret tt.

Definition can_allocate (r : Request) (input_id encoder_compute_budget num_embeds_to_schedule : Z)
    : M EncoderCacheManager bool :=
  num_embeds ← lift_result (get_num_encoder_embeds r input_id);
  if num_embeds >? encoder_compute_budget then mret false
  else
    let num_embeds := num_embeds + num_embeds_to_schedule in
    e ← get;
    if num_embeds <=? ec_num_free_slots e then mret true
    else if num_embeds >? num_freeable_slots e then mret false
    else evict_until num_embeds (freeable e) ≫= λ _, mret true.

Definition ec_allocate (r : Request) (input_id : Z) : M EncoderCacheManager unit :=
  mm_hash ← lift_result (identifier_of r input_id);
  modify (λ e, match ec_cached e !! mm_hash with
               | None => set_ec_cached (<[mm_hash := ∅]> (ec_cached e)) e
               | Some _ => e
               end) ≫= λ _,
  num_encoder_embeds ← lift_result (get_num_encoder_embeds r input_id);
  e ← get;
  py_assert (num_encoder_embeds <=? ec_num_free_slots e) ≫= λ _,
  py_assert (num_encoder_embeds <=? num_freeable_slots e) ≫= λ _,
  modify (λ e, set_ec_cached (<[mm_hash := default ∅ (ec_cached e !! mm_hash) ∪ {[request_id r]}]> (ec_cached e)) e) ≫= λ _,
  modify (note_cached_id (request_id r) input_id) ≫= λ _,
  modify (λ e, set_ec_num_free_slots (ec_num_free_slots e - num_encoder_embeds) e) ≫= λ _,
  modify (λ e, set_num_freeable_slots (num_freeable_slots e - num_encoder_embeds) e).

Definition get_cached_input_ids (r : Request) (e : EncoderCacheManager) : gset Z :=
  default ∅ (request_cached_ids e !! request_id r).

Definition free_encoder_input (r : Request) (input_id : Z) : M EncoderCacheManager unit :=
  mm_hash ← lift_result (identifier_of r input_id);
  modify (λ e, match request_cached_ids e !! request_id r with
               | None => e
               | Some ids =>
                   let ids := ids ∖ {[input_id]} in
                   set_request_cached_ids
                     (if decide (ids = ∅) then delete (request_id r) (request_cached_ids e)
                      else <[request_id r := ids]> (request_cached_ids e)) e
               end) ≫= λ _,
  e ← get;
  match ec_cached e !! mm_hash with
  | None => mret tt
  | Some refs =>
      if decide (refs = ∅) then mret tt
      else
        let refs := refs ∖ {[request_id r]} in
        modify (λ e, set_ec_cached (<[mm_hash := refs]> (ec_cached e)) e) ≫= λ _,
        if decide (refs = ∅) then
          n ← lift_result (get_num_encoder_embeds r input_id);
          modify (λ e, set_num_freeable_slots (num_freeable_slots e + n)
                         (set_freeable (dict_set (freeable e) mm_hash n) e))
        else mret tt
  end.

Definition ec_free `{SetOrder} (r : Request) : M EncoderCacheManager unit :=
  ids ← gets (get_cached_input_ids r);
  forM (iter_set ids) (free_encoder_input r).

Definition get_freed_mm_hashes : M EncoderCacheManager (list string) :=
  fs ← gets freed; modify (set_freed []) ≫= λ _, mret fs.

(** ** [compute_mm_encoder_budget]

    [max_toks] are the values of [mm_max_toks_per_item]. *)
Record EncoderBudgetConfig := mkEncoderBudgetConfig {
  disable_chunked_mm_input : bool;
  cfg_max_num_batched_tokens : Z;
  cfg_max_num_encoder_input_tokens : Z;
  cfg_encoder_cache_size : Z
}.

Definition compute_mm_encoder_budget (cfg : EncoderBudgetConfig) (max_toks : list Z) : result (Z * Z) :=
  match max_toks with
  | [] => Ok (0, 0)
  | t :: ts =>
      let max_tokens_per_mm_item := foldl Z.max t ts in
      if disable_chunked_mm_input cfg && (max_tokens_per_mm_item >? cfg_max_num_batched_tokens cfg)
      then Err ValueError
      else Ok (Z.max (cfg_max_num_encoder_input_tokens cfg) max_tokens_per_mm_item,
               Z.max (cfg_encoder_cache_size cfg) max_tokens_per_mm_item)
  end.

(** ** [EncoderDecoderCacheManager] *)

Record EncoderDecoderCacheManager := mkEncoderDecoderCacheManager {
  ed_cache_size : Z;
  ed_num_free_slots : Z;
  ed_allocated : list string;
  ed_to_free : list string
}.

Definition set_ed_num_free_slots (v : Z) (r : EncoderDecoderCacheManager) : EncoderDecoderCacheManager :=
  mkEncoderDecoderCacheManager (ed_cache_size r) v (ed_allocated r) (ed_to_free r).
Definition set_ed_allocated (v : list string) (r : EncoderDecoderCacheManager) : EncoderDecoderCacheManager :=
  mkEncoderDecoderCacheManager (ed_cache_size r) (ed_num_free_slots r) v (ed_to_free r).
Definition set_ed_to_free (v : list string) (r : EncoderDecoderCacheManager) : EncoderDecoderCacheManager :=
  mkEncoderDecoderCacheManager (ed_cache_size r) (ed_num_free_slots r) (ed_allocated r) v.

Definition new_encoder_decoder_cache (cache_size : Z) : EncoderDecoderCacheManager :=
  mkEncoderDecoderCacheManager cache_size cache_size [] [].

Definition ed_reset : M EncoderDecoderCacheManager unit :=
  modify (λ e, new_encoder_decoder_cache (ed_cache_size e)).

Definition ed_can_allocate (r : Request) (input_id encoder_compute_budget num_embeds_to_schedule : Z)
    : M EncoderDecoderCacheManager bool :=
  n ← lift_result (get_num_encoder_embeds r input_id);
  if n >? encoder_compute_budget then mret false
  else gets (λ e, n + num_embeds_to_schedule <=? ed_num_free_slots e).

Definition ed_allocate (r : Request) (input_id : Z) : M EncoderDecoderCacheManager unit :=
  n ← lift_result (get_num_encoder_embeds r input_id);
  modify (λ e, set_ed_num_free_slots (ed_num_free_slots e - n) e) ≫= λ _,
  mm_hash ← lift_result (identifier_of r input_id);
  modify (λ e, set_ed_allocated (ed_allocated e ++ [mm_hash]) e).

Definition ed_free_encoder_input (r : Request) (input_id : Z) : M EncoderDecoderCacheManager unit :=
  n ← lift_result (get_num_encoder_embeds r input_id);
  modify (λ e, set_ed_num_free_slots (ed_num_free_slots e + n) e).

Definition ed_free (r : Request) : M EncoderDecoderCacheManager unit :=
  forM (zrange 0 (zlen (mm_features r))) (ed_free_encoder_input r).

Definition ed_get_cached_input_ids (r : Request) : gset Z :=
  list_to_set (zrange 0 (zlen (mm_features r))).

Definition ed_get_freed_mm_hashes : M EncoderDecoderCacheManager (list string) :=
  e ← get;
  modify (λ e, set_ed_to_free (ed_allocated e) e) ≫= λ _,
  modify (set_ed_allocated []) ≫= λ _,
  mret (ed_to_free e).

(** ** Invariant

    [feats] gives the multi-modal items of each request, [sz] the number of
    embeddings of the item with a given content hash. *)

Section sizes.
Context {V : Type} (sz : string → Z).

Definition total_size (m : gmap string V) : Z := zsum (sz <$> (map_to_list m).*1).

Lemma total_size_insert m h v : m !! h = None → total_size (<[h := v]> m) = sz h + total_size m.
Proof. intros Hm. unfold total_size. by rewrite map_to_list_insert by done. Qed.
Lemma total_size_delete m h v : m !! h = Some v → total_size m = sz h + total_size (delete h m).
Proof.
  intros Hm. rewrite <-(insert_delete_id m h v Hm) at 1. rewrite total_size_insert; [done|]. by rewrite lookup_delete_eq.
Qed.
Lemma total_size_update m h v v' : m !! h = Some v → total_size (<[h := v']> m) = total_size m.
Proof.
  intros Hm. rewrite (total_size_delete m h v Hm), <-insert_delete_eq, total_size_insert; [done|].
  by rewrite lookup_delete_eq.
Qed.
Lemma total_size_empty : total_size ∅ = 0.
Proof. unfold total_size. by rewrite map_to_list_empty. Qed.
End sizes.

Lemma added_nonempty `{Countable K} (s : gset K) x : s ∪ {[x]} ≠ ∅.
Proof. set_solver. Qed.

Section invariant.
Context (feats : string → list MultiModalFeatureSpec) (sz : string → Z).
Implicit Types (e : EncoderCacheManager) (r : Request) (h : string).

Class Sized : Prop := {
  sz_nonneg h : 0 ≤ sz h;
  sz_embeds rid f : f ∈ feats rid → get_num_embeds (mm_position f) = sz (mm_identifier f)
}.

Definition hash_of (rid : string) (i : Z) : option string :=
  if i <? 0 then None else mm_identifier <$> feats rid !! Z.to_nat i.

(** Request [r] is one of the known requests and [i] is its input with hash [h]. *)
Definition input r (i : Z) (h : string) : Prop :=
  mm_features r = feats (request_id r) ∧ hash_of (request_id r) i = Some h.

Definition ids_of (rid : string) e : gset Z := default ∅ (request_cached_ids e !! rid).

Record enc_inv e : Prop := {
  ei_nodup : NoDup (freeable e).*1;
  ei_freeable h : h ∈ (freeable e).*1 ↔ ec_cached e !! h = Some ∅;
  ei_sizes : Forall (λ p, p.2 = sz p.1) (freeable e);
  ei_free : ec_num_free_slots e = ec_cache_size e - total_size sz (ec_cached e);
  ei_nonneg : 0 ≤ ec_num_free_slots e;
  ei_slots : num_freeable_slots e = ec_num_free_slots e + zsum (freeable e).*2;
  ei_refs rid h refs : ec_cached e !! h = Some refs → rid ∈ refs →
    ∃ i, i ∈ ids_of rid e ∧ hash_of rid i = Some h;
  ei_ids rid i : i ∈ ids_of rid e → is_Some (hash_of rid i);
  ei_some rid : request_cached_ids e !! rid ≠ Some ∅
}.

Context `{!Sized}.

Lemma input_reads r i h : input r i h →
  identifier_of r i = Ok h ∧ get_num_encoder_embeds r i = Ok (sz h) ∧ 0 ≤ i.
Proof.
  unfold input, hash_of. intros [Hr Hh]. destruct (Z.ltb_spec i 0) as [|Hi]; [done|].
  apply fmap_Some in Hh as (f & Hf & ->). rewrite <-Hr in Hf.
  assert (Hidx : py_index (mm_features r) i = Ok f) by (by apply py_index_pos).
  unfold identifier_of, get_num_encoder_embeds. rewrite Hidx. split; [done|]. split; [|done].
  rewrite (proj2 (Z.ltb_lt _ _)); [|apply lookup_lt_Some in Hf; unfold zlen; lia].
  simpl. f_equal. apply (sz_embeds (request_id r)). rewrite <-Hr. by eapply list_elem_of_lookup_2.
Qed.

Lemma sizes_sum l : Forall (λ p : string * Z, p.2 = sz p.1) l → 0 ≤ zsum l.*2.
Proof. induction 1 as [|[h n] l Hn _ IH]; csimpl in *; [lia|]. pose proof (sz_nonneg h). lia. Qed.

Lemma freeable_nonneg e : enc_inv e → ec_num_free_slots e ≤ num_freeable_slots e.
Proof. intros He. rewrite (ei_slots _ He). pose proof (sizes_sum _ (ei_sizes _ He)). lia. Qed.

Lemma ids_of_note rid i rid' e :
  ids_of rid' (note_cached_id rid i e) = if decide (rid' = rid) then ids_of rid e ∪ {[i]} else ids_of rid' e.
Proof.
  unfold ids_of, note_cached_id. simpl. case_decide as Hd; [subst; by rewrite lookup_insert_eq|].
  by rewrite lookup_insert_ne by done.
Qed.

(** Adding a reference to a cached entry. *)
Lemma add_ref_inv e rid i h refs :
  enc_inv e → hash_of rid i = Some h → ec_cached e !! h = Some refs → refs ≠ ∅ →
  enc_inv (note_cached_id rid i (set_ec_cached (<[h := refs ∪ {[rid]}]> (ec_cached e)) e)).
Proof.
  intros He Hi Hh Hne.
  assert (Hids : ∀ rid', ids_of rid' (set_ec_cached (<[h := refs ∪ {[rid]}]> (ec_cached e)) e) = ids_of rid' e) by done.
  destruct He as [H1 H2 H3 H4 H5 H6 H7 H8 H9]. constructor; simpl; try done.
  - intros h'. rewrite H2. destruct (decide (h' = h)) as [->|]; [|by rewrite lookup_insert_ne].
    rewrite lookup_insert_eq, Hh. split; intros E%(inj Some); [done|]. by apply added_nonempty in E.
  - rewrite H4. by rewrite (total_size_update sz _ _ _ _ Hh).
  - intros rid' h' refs' Hr Hin. rewrite ids_of_note, Hids.
    destruct (decide (h' = h)) as [->|].
    + rewrite lookup_insert_eq in Hr. simplify_eq. apply elem_of_union in Hin as [Hin|Hin%elem_of_singleton].
      * destruct (H7 _ _ _ Hh Hin) as (j & Hj & Hjh). exists j. split; [|done]. case_decide; [subst; set_solver|done].
      * subst. exists i. rewrite decide_True by done. split; [set_solver|done].
    + rewrite lookup_insert_ne in Hr by done. destruct (H7 _ _ _ Hr Hin) as (j & Hj & Hjh).
      exists j. split; [|done]. case_decide; [subst; set_solver|done].
  - intros rid' j. rewrite ids_of_note, Hids. case_decide as Hd; [subst|by apply H8].
    intros [Hj|Hj%elem_of_singleton]%elem_of_union; [by apply H8|subst; eauto].
  - intros rid'. destruct (decide (rid' = rid)) as [->|].
    + rewrite lookup_insert_eq. intros E%(inj Some). by apply added_nonempty in E.
    + by rewrite lookup_insert_ne by done.
Qed.

(** Taking an unreferenced entry out of [freeable] to give it a first reference. *)
Lemma first_ref_inv e rid i h n :
  enc_inv e → hash_of rid i = Some h → ec_cached e !! h = Some ∅ → dict_get (freeable e) h = Some n →
  enc_inv (note_cached_id rid i (set_ec_cached (<[h := ∅ ∪ {[rid]}]> (ec_cached e))
    (set_num_freeable_slots (num_freeable_slots e - n) (set_freeable (dict_del (freeable e) h) e)))).
Proof.
  intros He Hi Hh Hn. destruct (dict_get_split _ _ _ Hn) as (d1 & d2 & Hd & ->).
  destruct He as [H1 H2 H3 H4 H5 H6 H7 H8 H9]. rewrite Hd in H1, H3, H6.
  rewrite fmap_app, fmap_cons in H1. rewrite fmap_app, fmap_cons, zsum_app in H6.
  apply NoDup_app in H1 as (N1 & N2 & N3). apply NoDup_cons in N3 as [N3 N4].
  constructor; simpl; try done.
  - rewrite fmap_app. apply NoDup_app. split_and!; [done|set_solver|done].
  - intros h'. destruct (decide (h' = h)) as [->|Hne].
    + rewrite lookup_insert_eq. split; [|intros E%(inj Some); by apply added_nonempty in E].
      rewrite fmap_app, elem_of_app. intros [Hx|Hx]; [|done]. destruct (N2 h Hx). left.
    + rewrite lookup_insert_ne by done. rewrite <-H2, Hd, !fmap_app, fmap_cons, !elem_of_app, elem_of_cons. naive_solver.
  - apply Forall_app in H3 as [? H3]. apply Forall_cons in H3 as [_ ?]. by apply Forall_app.
  - by rewrite (total_size_update sz _ _ _ _ Hh).
  - rewrite fmap_app, zsum_app. simpl in *. lia.
  - intros rid' h' refs Hr Hin. rewrite ids_of_note. destruct (decide (h' = h)) as [->|].
    + rewrite lookup_insert_eq in Hr. simplify_eq. apply elem_of_union in Hin as [Hin|Hin%elem_of_singleton]; [set_solver|].
      subst. exists i. rewrite decide_True by done. split; [set_solver|done].
    + rewrite lookup_insert_ne in Hr by done. destruct (H7 _ _ _ Hr Hin) as (j & Hj & Hjh). exists j.
      split; [|done]. unfold ids_of in *. simpl. case_decide; [subst; set_solver|done].
  - intros rid' j. rewrite ids_of_note. unfold ids_of. simpl. case_decide as Hd'; [subst|by apply H8].
    intros [Hj|Hj%elem_of_singleton]%elem_of_union; [by apply H8|subst; eauto].
  - intros rid'. destruct (decide (rid' = rid)) as [->|].
    + rewrite lookup_insert_eq. intros E%(inj Some). by apply added_nonempty in E.
    + by rewrite lookup_insert_ne by done.
Qed.

(** [check_and_update_cache]: tells whether the entry is there and, if so, adds a
    reference. *)
Lemma check_spec e r i h : enc_inv e → input r i h →
  ∃ e', check_and_update_cache r i e = Ok (bool_decide (is_Some (ec_cached e !! h)), e')
    ∧ enc_inv e' ∧ ec_cache_size e' = ec_cache_size e ∧ ec_num_free_slots e' = ec_num_free_slots e ∧ freed e' = freed e
    ∧ (ec_cached e !! h = None → e' = e)
    ∧ (∀ h', is_Some (ec_cached e' !! h') ↔ is_Some (ec_cached e !! h')).
Proof.
  intros He Hin. destruct (input_reads _ _ _ Hin) as (Hid & _ & _). destruct Hin as [_ Hih].
  unfold check_and_update_cache. mstep by (unfold lift_result; by rewrite Hid). mstep.
  destruct (ec_cached e !! h) as [refs|] eqn:Hh.
  2:{ exists e. rewrite bool_decide_false by (by intros []). split_and!; done. }
  assert (Hdom : ∀ refs' h', is_Some (<[h := refs']> (ec_cached e) !! h') ↔ is_Some (ec_cached e !! h')).
  { intros refs' h'. destruct (decide (h' = h)) as [->|]; [|by rewrite lookup_insert_ne].
    rewrite lookup_insert_eq, Hh. split; eauto. }
  rewrite bool_decide_true by eauto. destruct (decide (refs = ∅)) as [->|Hne].
  - destruct (dict_get (freeable e) h) as [n|] eqn:Hn.
    + mstep. mstep. mstep. eexists. split; [done|].
      split; [by apply (first_ref_inv e (request_id r) i h n)|]. by split_and!; [..|apply Hdom].
    + apply dict_get_None in Hn. destruct Hn. by apply (ei_freeable _ He).
  - mstep. mstep. mstep. eexists. split; [done|].
    split; [by apply (add_ref_inv e (request_id r) i h refs)|]. by split_and!; [..|apply Hdom].
Qed.

(** Evicting the oldest unreferenced entry. *)
Lemma evict_one_inv e h n fr :
  enc_inv e → freeable e = (h, n) :: fr →
  enc_inv (set_ec_num_free_slots (ec_num_free_slots e + n)
    (set_freed (freed e ++ [h]) (set_ec_cached (delete h (ec_cached e)) (set_freeable fr e))))
  ∧ ec_cached e !! h = Some ∅ ∧ n = sz h.
Proof.
  intros He Hd. destruct He as [H1 H2 H3 H4 H5 H6 H7 H8 H9]. rewrite Hd in H1, H3, H6. csimpl in *.
  apply NoDup_cons in H1 as [N1 N2]. apply Forall_cons in H3 as [Hn H3]. simpl in Hn.
  assert (Hh : ec_cached e !! h = Some ∅) by (apply H2; rewrite Hd; left).
  split; [|done]. pose proof (sz_nonneg h). constructor; simpl; try done.
  - intros h'. destruct (decide (h' = h)) as [->|Hne]; [by rewrite lookup_delete_eq|].
    rewrite lookup_delete_ne by done. rewrite <-H2, Hd, fmap_cons, elem_of_cons. naive_solver.
  - rewrite (total_size_delete sz _ _ _ Hh) in H4. lia.
  - lia.
  - lia.
  - intros rid' h' refs Hr. apply lookup_delete_Some in Hr as [_ Hr]. by eapply H7.
Qed.

(** The eviction loop takes the shortest prefix of [freeable] that makes room. *)
Lemma evict_spec num e : enc_inv e → num ≤ num_freeable_slots e →
  ∃ ev rest e', freeable e = ev ++ rest ∧ evict_until num (freeable e) e = Ok (tt, e') ∧ enc_inv e'
    ∧ freeable e' = rest ∧ freed e' = freed e ++ ev.*1 ∧ num ≤ ec_num_free_slots e'
    ∧ ec_num_free_slots e' = ec_num_free_slots e + zsum ev.*2
    ∧ (∀ ev1 x ev2, ev = ev1 ++ x :: ev2 → ec_num_free_slots e + zsum ev1.*2 < num)
    ∧ (∀ h, ec_cached e' !! h = if decide (h ∈ ev.*1) then None else ec_cached e !! h)
    ∧ request_cached_ids e' = request_cached_ids e ∧ ec_cache_size e' = ec_cache_size e
    ∧ num_freeable_slots e' = num_freeable_slots e.
Proof.
  remember (freeable e) as fr eqn:Hfr. revert e Hfr.
  induction fr as [|[h n] fr IH]; intros e Hfr He Hnum; simpl.
  - mstep. rewrite (ei_slots _ He), <-Hfr in Hnum. simpl in Hnum.
    destruct (Z.gtb_spec num (ec_num_free_slots e)); [lia|].
    exists [], [], e. split_and!; try done; try (simpl; lia); try (by intros []); by rewrite app_nil_r.
  - mstep. destruct (Z.gtb_spec num (ec_num_free_slots e)) as [Hgt|Hle].
    2:{ exists [], ((h, n) :: fr), e. split_and!; try done; try (simpl; lia); try (by intros []); by rewrite app_nil_r. }
    destruct (evict_one_inv e h n fr He (eq_sym Hfr)) as (He1 & Hh & Hn).
    mstep. mstep. rewrite decide_False by (simpl; congruence). mstep. mstep.
    destruct (IH (set_ec_num_free_slots (ec_num_free_slots e + n)
      (set_freed (freed e ++ [h]) (set_ec_cached (delete h (ec_cached e)) (set_freeable fr e)))) eq_refl He1) as (ev & rest & e' & -> & E & Hinv & I1 & I2 & I3 & I4 & I5 & I6 & I7 & I8 & I9).
    { done. }
    exists ((h, n) :: ev), rest, e'. csimpl in *. split_and!; try done.
    + by rewrite I2, <-(assoc_L (++)).
    + lia.
    + intros [|y ev1] x ev2 Hev; simplify_eq/=; [lia|]. pose proof (I5 ev1 x ev2 eq_refl) as H5. csimpl in *. lia.
    + intros h'. rewrite I6. destruct (decide (h' = h)) as [->|].
      * rewrite (decide_True (P := h ∈ h :: _)) by left. case_decide; [done|]. by rewrite lookup_delete_eq.
      * rewrite lookup_delete_ne by done. repeat case_decide; set_solver.
Qed.

(** [can_allocate] when it says yes: the entries it evicted were unreferenced, the
    oldest ones and no more than needed, and now there is room. *)
Definition made_room e (num : Z) e' : Prop :=
  ∃ ev rest, freeable e = ev ++ rest ∧ freeable e' = rest ∧ freed e' = freed e ++ ev.*1
    ∧ num ≤ ec_num_free_slots e' ∧ ec_num_free_slots e' = ec_num_free_slots e + zsum ev.*2
    ∧ (∀ ev1 x ev2, ev = ev1 ++ x :: ev2 → ec_num_free_slots e + zsum ev1.*2 < num)
    ∧ (∀ h, ec_cached e' !! h = if decide (h ∈ ev.*1) then None else ec_cached e !! h)
    ∧ request_cached_ids e' = request_cached_ids e ∧ ec_cache_size e' = ec_cache_size e
    ∧ num_freeable_slots e' = num_freeable_slots e.

Lemma can_allocate_spec e r i h budget sched : enc_inv e → input r i h →
  let yes := bool_decide (sz h ≤ budget ∧ sz h + sched ≤ num_freeable_slots e) in
  ∃ e', can_allocate r i budget sched e = Ok (yes, e') ∧ enc_inv e'
    ∧ if yes then made_room e (sz h + sched) e' else e' = e.
Proof.
  intros He Hin yes. destruct (input_reads _ _ _ Hin) as (_ & Hn & _).
  unfold can_allocate. mstep by (unfold lift_result; by rewrite Hn).
  pose proof (freeable_nonneg e He) as Hfe.
  destruct (Z.gtb_spec (sz h) budget) as [Hb|Hb].
  { unfold yes. rewrite bool_decide_false by lia. by exists e. }
  mstep. destruct (Z.leb_spec (sz h + sched) (ec_num_free_slots e)) as [Hle|Hgt].
  { unfold yes. rewrite bool_decide_true by lia. exists e. split; [done|]. split; [done|].
    exists [], (freeable e). simpl. split_and!; try done; try lia; [by rewrite app_nil_r|]. by intros []. }
  destruct (Z.gtb_spec (sz h + sched) (num_freeable_slots e)) as [Hf|Hf].
  { unfold yes. rewrite bool_decide_false by lia. by exists e. }
  unfold yes. rewrite bool_decide_true by lia.
  destruct (evict_spec _ _ He Hf) as (ev & rest & e' & Hev & E & Hinv & Hrest).
  mstep by (by rewrite E). exists e'. split; [done|]. split; [done|]. by exists ev, rest.
Qed.

Lemma ec_allocate_spec e r i h : enc_inv e → input r i h → ec_cached e !! h = None → sz h ≤ ec_num_free_slots e →
  ∃ e', ec_allocate r i e = Ok (tt, e') ∧ enc_inv e' ∧ freed e' = freed e ∧ ec_cache_size e' = ec_cache_size e
    ∧ ec_num_free_slots e' = ec_num_free_slots e - sz h ∧ ec_cached e' !! h = Some {[request_id r]}
    ∧ (∀ h', h' ≠ h → ec_cached e' !! h' = ec_cached e !! h').
Proof.
  intros He Hin Hh Hsz. destruct (input_reads _ _ _ Hin) as (Hid & Hn & _). destruct Hin as [_ Hih].
  unfold ec_allocate. mstep by (unfold lift_result; by rewrite Hid). mstep. rewrite Hh.
  mstep by (unfold lift_result; by rewrite Hn). mstep. simpl.
  pose proof (freeable_nonneg e He) as Hfe.
  rewrite (proj2 (Z.leb_le (sz h) (ec_num_free_slots e))) by lia. mstep.
  rewrite (proj2 (Z.leb_le (sz h) (num_freeable_slots e))) by lia. mstep.
  mstep. mstep. mstep. eexists. split; [done|]. simpl. rewrite lookup_insert_eq. simpl.
  rewrite insert_insert_eq. split; [|rewrite (left_id_L ∅ (∪)); split_and!; try done;
    [by rewrite lookup_insert_eq|intros h' Hne; by rewrite lookup_insert_ne]].
  destruct He as [H1 H2 H3 H4 H5 H6 H7 H8 H9]. constructor; simpl; try done; try lia.
  - intros h'. rewrite H2. destruct (decide (h' = h)) as [->|]; [|by rewrite lookup_insert_ne].
    rewrite lookup_insert_eq, Hh. split; [done|]. intros E%(inj Some). by apply added_nonempty in E.
  - rewrite total_size_insert by done. lia.
  - intros rid' h' refs Hr Hx. unfold ids_of. simpl. destruct (decide (h' = h)) as [->|].
    + rewrite lookup_insert_eq in Hr. simplify_eq. assert (rid' = request_id r) as -> by set_solver.
      exists i. rewrite lookup_insert_eq. split; [set_solver|done].
    + rewrite lookup_insert_ne in Hr by done. destruct (H7 _ _ _ Hr Hx) as (j & Hj & Hjh). exists j. split; [|done].
      destruct (decide (rid' = request_id r)) as [->|]; [rewrite lookup_insert_eq|by rewrite lookup_insert_ne].
      simpl. apply elem_of_union. left. exact Hj.
  - intros rid' j. unfold ids_of. simpl.
    destruct (decide (rid' = request_id r)) as [->|]; [rewrite lookup_insert_eq|rewrite lookup_insert_ne by done; apply H8].
    simpl. intros [Hj|Hj%elem_of_singleton]%elem_of_union; [by apply H8|subst; eauto].
  - intros rid'. destruct (decide (rid' = request_id r)) as [->|].
    + rewrite lookup_insert_eq. intros E%(inj Some). by apply added_nonempty in E.
    + by rewrite lookup_insert_ne by done.
Qed.

(** The first half of [free_encoder_input]: forgetting the input id. *)
Definition forget_id (rid : string) (i : Z) e : EncoderCacheManager :=
  match request_cached_ids e !! rid with
  | None => e
  | Some ids =>
      set_request_cached_ids
        (if decide (ids ∖ {[i]} = ∅) then delete rid (request_cached_ids e)
         else <[rid := ids ∖ {[i]}]> (request_cached_ids e)) e
  end.

Lemma forget_ids rid i rid' e :
  ids_of rid' (forget_id rid i e) = if decide (rid' = rid) then ids_of rid e ∖ {[i]} else ids_of rid' e.
Proof.
  unfold forget_id, ids_of. destruct (request_cached_ids e !! rid) as [ids|] eqn:E; simpl.
  - case_decide as Hd; case_decide as Hr; subst.
    + rewrite lookup_delete_eq. simpl. set_solver.
    + by rewrite lookup_delete_ne by done.
    + by rewrite lookup_insert_eq.
    + by rewrite lookup_insert_ne by done.
  - case_decide; [subst; rewrite E; simpl; set_solver|done].
Qed.
Lemma forget_none rid i e : (∀ rid', request_cached_ids e !! rid' ≠ Some ∅) →
  ∀ rid', request_cached_ids (forget_id rid i e) !! rid' ≠ Some ∅.
Proof.
  intros He rid'. unfold forget_id. destruct (request_cached_ids e !! rid) as [ids|] eqn:E; simpl; [|apply He].
  case_decide; (destruct (decide (rid' = rid)) as [->|];
    [rewrite ?lookup_delete_eq, ?lookup_insert_eq|rewrite ?lookup_delete_ne, ?lookup_insert_ne by done; apply He]); [done|].
  by intros E'%(inj Some).
Qed.
Lemma forget_same rid i e : ec_cached (forget_id rid i e) = ec_cached e ∧ freeable (forget_id rid i e) = freeable e
  ∧ freed (forget_id rid i e) = freed e ∧ ec_num_free_slots (forget_id rid i e) = ec_num_free_slots e
  ∧ num_freeable_slots (forget_id rid i e) = num_freeable_slots e ∧ ec_cache_size (forget_id rid i e) = ec_cache_size e.
Proof. unfold forget_id. destruct (request_cached_ids e !! rid); done. Qed.

Lemma forget_refs e rid i h (c : gmap string (gset string)) : enc_inv e → hash_of rid i = Some h →
  (∀ refs, c !! h = Some refs → (rid ∉ refs) ∧ ∃ refs0, ec_cached e !! h = Some refs0 ∧ refs ⊆ refs0) →
  (∀ h', h' ≠ h → c !! h' = ec_cached e !! h') →
  ∀ rid' h' refs, c !! h' = Some refs → rid' ∈ refs →
    ∃ j, j ∈ ids_of rid' (forget_id rid i e) ∧ hash_of rid' j = Some h'.
Proof.
  intros He Hi Hh Hother rid' h' refs Hr Hin. setoid_rewrite forget_ids.
  destruct (decide (h' = h)) as [->|Hne].
  - destruct (Hh _ Hr) as (Hnot & refs0 & H0 & Hsub).
    destruct (ei_refs _ He _ _ _ H0 (Hsub _ Hin)) as (j & Hj & Hjh). exists j. split; [|done].
    rewrite decide_False by (by intros ->). done.
  - rewrite Hother in Hr by done. destruct (ei_refs _ He _ _ _ Hr Hin) as (j & Hj & Hjh). exists j. split; [|done].
    case_decide; [subst|done]. assert (j ≠ i) by congruence. set_solver.
Qed.

(** Dropping the last reference makes the entry freeable. *)
Lemma unref_inv e rid i h refs : enc_inv e → hash_of rid i = Some h → ec_cached e !! h = Some refs → refs ≠ ∅ →
  let c := <[h := refs ∖ {[rid]}]> (ec_cached e) in
  let e1 := set_ec_cached c (forget_id rid i e) in
  enc_inv (if decide (refs ∖ {[rid]} = ∅)
           then set_num_freeable_slots (num_freeable_slots e + sz h)
                  (set_freeable (dict_set (freeable e) h (sz h)) e1)
           else e1).
Proof.
  intros He Hi Hh Hne c e1. pose proof (forget_same rid i e) as (F1 & F2 & F3 & F4 & F5 & F6).
  pose proof (forget_refs e rid i h c He Hi) as Hrefs.
  assert (Hnot : h ∉ (freeable e).*1) by (rewrite (ei_freeable _ He), Hh; by intros E%(inj Some)).
  assert (Hrefs' : ∀ rid' h' refs', c !! h' = Some refs' → rid' ∈ refs' →
    ∃ j, j ∈ ids_of rid' (forget_id rid i e) ∧ hash_of rid' j = Some h').
  { apply Hrefs; unfold c.
    - intros refs'. rewrite lookup_insert_eq. intros <-%(inj Some). split; [set_solver|]. exists refs. split; [done|set_solver].
    - intros h' Hh'. by rewrite lookup_insert_ne. }
  assert (Hids : ∀ rid' j, j ∈ ids_of rid' (forget_id rid i e) → is_Some (hash_of rid' j)).
  { intros rid' j. rewrite forget_ids. case_decide; [subst|by apply (ei_ids _ He)].
    intros [Hj _]%elem_of_difference. by apply (ei_ids _ He). }
  destruct He as [H1 H2 H3 H4 H5 H6 H7 H8 H9].
  destruct (decide (refs ∖ {[rid]} = ∅)) as [Hempty|Hfull]; constructor; unfold e1; simpl;
    rewrite ?F2, ?F4, ?F5, ?F6; try done; try (by apply forget_none).
  - rewrite dict_set_new by done. rewrite fmap_app. apply NoDup_app. split_and!; [done| |apply NoDup_singleton].
    intros x Hx ->%list_elem_of_singleton. done.
  - intros h'. rewrite dict_set_new by done. rewrite fmap_app, elem_of_app. simpl. rewrite list_elem_of_singleton.
    unfold c. destruct (decide (h' = h)) as [->|].
    + rewrite lookup_insert_eq, Hempty. naive_solver.
    + rewrite lookup_insert_ne by done. rewrite H2. naive_solver.
  - rewrite dict_set_new by done. apply Forall_app. split; [done|by constructor].
  - unfold c. by rewrite (total_size_update sz _ _ _ _ Hh).
  - rewrite dict_set_new by done. rewrite fmap_app, zsum_app. simpl. lia.
  - intros h'. unfold c. rewrite H2. destruct (decide (h' = h)) as [->|]; [|by rewrite lookup_insert_ne].
    rewrite lookup_insert_eq, Hh. split; by intros E%(inj Some).
  - unfold c. by rewrite (total_size_update sz _ _ _ _ Hh).
Qed.

Lemma free_input_spec e r i h : enc_inv e → input r i h →
  ∃ e', free_encoder_input r i e = Ok (tt, e') ∧ enc_inv e'
    ∧ (∀ rid, ids_of rid e' = if decide (rid = request_id r) then ids_of rid e ∖ {[i]} else ids_of rid e)
    ∧ ec_num_free_slots e' = ec_num_free_slots e ∧ freed e' = freed e ∧ ec_cache_size e' = ec_cache_size e
    ∧ (∀ h', is_Some (ec_cached e' !! h') ↔ is_Some (ec_cached e !! h')).
Proof.
  intros He Hin. destruct (input_reads _ _ _ Hin) as (Hid & Hn & _). destruct Hin as [_ Hih].
  set (rid := request_id r) in *. pose proof (forget_same rid i e) as (F1 & F2 & F3 & F4 & F5 & F6).
  assert (Hids : ∀ rid', ids_of rid' (forget_id rid i e) = if decide (rid' = rid) then ids_of rid' e ∖ {[i]} else ids_of rid' e).
  { intros rid'. rewrite forget_ids. by case_decide; subst. }
  unfold free_encoder_input. mstep by (unfold lift_result; by rewrite Hid). mstep.
  fold rid. fold (forget_id rid i e). mstep. rewrite F1.
  assert (Hskip : (∀ refs, ec_cached e !! h = Some refs → refs = ∅) → enc_inv (forget_id rid i e)).
  { intros Hsk. pose proof (forget_refs e rid i h (ec_cached e) He Hih) as Hrefs.
    pose proof He as [H1 H2 H3 H4 H5 H6 H7 H8 H9].
    constructor; rewrite ?F1, ?F2, ?F4, ?F5, ?F6; try done; [| |by apply forget_none].
    - apply Hrefs; [|done]. intros refs Hr. rewrite (Hsk _ Hr). split; [set_solver|]. by exists refs.
    - intros rid' j. rewrite forget_ids. case_decide; [subst|by apply H8]. intros [Hj _]%elem_of_difference. by apply H8. }
  destruct (ec_cached e !! h) as [refs|] eqn:Hh.
  2:{ exists (forget_id rid i e). rewrite F1, F3, F4, F6. split_and!; try done. by apply Hskip. }
  destruct (decide (refs = ∅)) as [->|Hne].
  { exists (forget_id rid i e). rewrite F1, F3, F4, F6. split_and!; try done. apply Hskip. by intros ? [= <-]. }
  pose proof (unref_inv e rid i h refs He Hih Hh Hne) as Hinv.
  assert (Hdom : ∀ h', is_Some (<[h := refs ∖ {[rid]}]> (ec_cached e) !! h') ↔ is_Some (ec_cached e !! h')).
  { intros h'. destruct (decide (h' = h)) as [->|]; [rewrite lookup_insert_eq, Hh; split; eauto|by rewrite lookup_insert_ne]. }
  mstep. destruct (decide (refs ∖ {[rid]} = ∅)) as [Hempty|Hfull].
  - mstep by (unfold lift_result; by rewrite Hn). eexists. split; [done|]. simpl. rewrite F1, F2, F5.
    split; [done|]. rewrite F3, F4, F6. by split_and!.
  - eexists. split; [done|]. rewrite F1. split; [done|]. simpl. rewrite F3, F4, F6. by split_and!.
Qed.

Lemma free_inputs_spec r l e : enc_inv e → mm_features r = feats (request_id r) →
  (∀ i, i ∈ l → is_Some (hash_of (request_id r) i)) →
  ∃ e', forM l (free_encoder_input r) e = Ok (tt, e') ∧ enc_inv e'
    ∧ (∀ rid, ids_of rid e' = if decide (rid = request_id r) then ids_of rid e ∖ list_to_set l else ids_of rid e)
    ∧ ec_num_free_slots e' = ec_num_free_slots e ∧ freed e' = freed e ∧ ec_cache_size e' = ec_cache_size e
    ∧ (∀ h', is_Some (ec_cached e' !! h') ↔ is_Some (ec_cached e !! h')).
Proof.
  intros He Hr. revert e He. induction l as [|i l IH]; intros e He Hl; simpl.
  - exists e. split_and!; try done. intros rid. case_decide; [set_solver|done].
  - destruct (Hl i) as [h Hh]; [left|].
    destruct (free_input_spec e r i h He) as (e1 & E1 & He1 & I1 & I2 & I3 & I4 & I5); [done|].
    mstep by (by rewrite E1).
    destruct (IH e1 He1) as (e2 & E2 & He2 & J1 & J2 & J3 & J4 & J5); [intros j Hj; apply Hl; by right|].
    exists e2. rewrite J2, J3, J4. split_and!; try done.
    + intros rid. rewrite J1, I1. case_decide; [set_solver|done].
    + intros h'. by rewrite J5.
Qed.

(** [free]: the request keeps no cached input and no reference to any entry. *)
Lemma free_request_spec `{SetOrder} e r : enc_inv e → mm_features r = feats (request_id r) →
  ∃ e', ec_free r e = Ok (tt, e') ∧ enc_inv e' ∧ ids_of (request_id r) e' = ∅
    ∧ (∀ rid, rid ≠ request_id r → ids_of rid e' = ids_of rid e)
    ∧ ec_num_free_slots e' = ec_num_free_slots e ∧ freed e' = freed e ∧ ec_cache_size e' = ec_cache_size e
    ∧ (∀ h', is_Some (ec_cached e' !! h') ↔ is_Some (ec_cached e !! h')).
Proof.
  intros He Hr. unfold ec_free. mstep. unfold get_cached_input_ids. fold (ids_of (request_id r) e).
  set (ids := ids_of (request_id r) e).
  assert (Hids : ∀ i, i ∈ iter_set ids ↔ i ∈ ids) by (intros i; rewrite iter_set_perm; apply elem_of_elements).
  destruct (free_inputs_spec r (iter_set ids) e He Hr) as (e' & E & He' & I1 & I2 & I3 & I4 & I5).
  { intros i Hi%Hids. by apply (ei_ids _ He). }
  exists e'. rewrite E. split_and!; try done.
  - rewrite I1, decide_True by done. fold ids. apply set_eq. intros i. rewrite elem_of_difference, elem_of_list_to_set, Hids.
    set_solver.
  - intros rid Hne. by rewrite I1, decide_False.
Qed.

Lemma no_ids_no_refs e rid h refs : enc_inv e → ids_of rid e = ∅ → ec_cached e !! h = Some refs → rid ∉ refs.
Proof. intros He Hids Hh Hin. destruct (ei_refs _ He _ _ _ Hh Hin) as (i & Hi & _). rewrite Hids in Hi. set_solver. Qed.

Lemma new_encoder_cache_inv cs : 0 ≤ cs → enc_inv (new_encoder_cache cs).
Proof.
  intros Hcs. constructor; simpl; try done; try (rewrite ?total_size_empty; lia).
  - apply NoDup_nil_2.
  - intros h. rewrite lookup_empty. split; [by intros ?%not_elem_of_nil|done].
Qed.

(** Capacity that is not held by referenced entries. *)
Lemma freeable_capacity e : enc_inv e →
  num_freeable_slots e = ec_cache_size e - total_size sz (filter (λ p, p.2 ≠ ∅) (ec_cached e)).
Proof.
  intros He. rewrite (ei_slots _ He), (ei_free _ He).
  assert (Hsplit : ∀ m : gmap string (gset string),
    total_size sz m = total_size sz (filter (λ p, p.2 ≠ ∅) m) + total_size sz (filter (λ p, p.2 = ∅) m)).
  { intros m. induction m as [|h v m Hh IH] using map_ind.
    - rewrite !map_filter_empty, total_size_empty. done.
    - rewrite total_size_insert by done. destruct (decide (v = ∅)) as [->|Hne].
      + rewrite map_filter_insert_False by (simpl; naive_solver). rewrite delete_id by done.
        rewrite map_filter_insert_True by done.
        rewrite (total_size_insert sz (filter _ m)); [lia|]. apply map_lookup_filter_None. by left.
      + rewrite map_filter_insert_True by done.
        rewrite (map_filter_insert_False (λ p : string * gset string, p.2 = ∅)) by done. rewrite delete_id by done.
        rewrite (total_size_insert sz (filter _ m)); [lia|]. apply map_lookup_filter_None. by left. }
  rewrite (Hsplit (ec_cached e)).
  cut (zsum (freeable e).*2 = total_size sz (filter (λ p, p.2 = ∅) (ec_cached e))); [lia|].
  transitivity (zsum (sz <$> (freeable e).*1)).
  - f_equal. rewrite <-list_fmap_compose. apply list_fmap_ext. intros i x Hx. simpl.
    by apply (Forall_lookup_1 _ _ _ _ (ei_sizes _ He) Hx).
  - unfold total_size. apply zsum_perm, fmap_Permutation, NoDup_Permutation.
    + apply (ei_nodup _ He).
    + apply NoDup_fst_map_to_list.
    + intros h. rewrite (ei_freeable _ He). rewrite list_elem_of_fmap. split.
      * intros Hh. exists (h, ∅). split; [done|]. apply elem_of_map_to_list, map_lookup_filter_Some. done.
      * intros ([h' v] & -> & Hv). apply elem_of_map_to_list, map_lookup_filter_Some in Hv as [Hv Hz].
        simpl in *. by subst.
Qed.
End invariant.

(** ** Sequences of operations *)

Module EncoderOps.
Section ops.
Context `{SetOrder} (feats : string → list MultiModalFeatureSpec) (sz : string → Z).

Inductive op :=
  | Check (r : Request) (i : Z)
  | CanAllocate (r : Request) (i budget scheduled : Z)
  | Allocate (r : Request) (i : Z)
  | FreeInput (r : Request) (i : Z)
  | Free (r : Request)
  | GetFreed
  | Reset.

Definition run_op (o : op) : M EncoderCacheManager unit :=
  match o with
  | Check r i => check_and_update_cache r i ≫= λ _, mret tt
  | CanAllocate r i b s => can_allocate r i b s ≫= λ _, mret tt
  | Allocate r i => ec_allocate r i
  | FreeInput r i => free_encoder_input r i
  | Free r => ec_free r
  | GetFreed => get_freed_mm_hashes ≫= λ _, mret tt
  | Reset => ec_reset
  end.

(** Calls are about known inputs; an input is allocated when it is not cached and
    there is room for it, as a [can_allocate] that said yes guarantees. *)
Definition op_pre (e : EncoderCacheManager) (o : op) : Prop :=
  match o with
  | Check r i | CanAllocate r i _ _ | FreeInput r i => ∃ h, input feats r i h
  | Allocate r i => ∃ h, input feats r i h ∧ ec_cached e !! h = None ∧ sz h ≤ ec_num_free_slots e
  | Free r => mm_features r = feats (request_id r)
  | GetFreed | Reset => True
  end.

Fixpoint run (os : list op) : M EncoderCacheManager unit :=
  match os with [] => mret tt | o :: os => run_op o ≫= λ _, run os end.
Fixpoint ops_pre (e : EncoderCacheManager) (os : list op) : Prop :=
  match os with
  | [] => True
  | o :: os => op_pre e o ∧ match run_op o e with Ok (_, e) => ops_pre e os | Err _ => True end
  end.

Context `{!Sized feats sz}.

Lemma encoder_op_inv o e : enc_inv feats sz e → op_pre e o →
  ∃ e', run_op o e = Ok (tt, e') ∧ enc_inv feats sz e' ∧ ec_cache_size e' = ec_cache_size e
    ∧ (∀ r, o = Free r → ids_of (request_id r) e' = ∅).
Proof.
  intros He. destruct o as [r i|r i b s|r i|r i|r| |]; simpl.
  - intros [h Hin]. destruct (check_spec feats sz e r i h He Hin) as (e' & E & He' & Hcs & _).
    mstep by (by rewrite E). exists e'. split_and!; done.
  - intros [h Hin]. destruct (can_allocate_spec feats sz e r i h b s He Hin) as (e' & E & He' & Hif).
    mstep by (by rewrite E). exists e'. split_and!; try done. case_bool_decide; [|by subst].
    by destruct Hif as (ev & rest & _ & _ & _ & _ & _ & _ & _ & _ & ? & _).
  - intros (h & Hin & Hh & Hsz). destruct (ec_allocate_spec feats sz e r i h He Hin Hh Hsz) as (e' & E & He' & _ & Hcs & _).
    exists e'. split_and!; done.
  - intros [h Hin]. destruct (free_input_spec feats sz e r i h He Hin) as (e' & E & He' & _ & _ & _ & Hcs & _).
    exists e'. split_and!; done.
  - intros Hr. destruct (free_request_spec feats sz e r He Hr) as (e' & E & He' & Hids & _ & _ & _ & Hcs & _).
    exists e'. split_and!; try done. by intros ? [= <-].
  - intros _. eexists. split; [done|]. split_and!; try done. by destruct He.
  - intros _. eexists. split; [done|]. split_and!; try done. apply new_encoder_cache_inv.
    destruct He as [H1 H2 H3 H4 H5 H6 H7 H8 H9]. clear -H4 H5 Sized0.
    assert (0 ≤ total_size sz (ec_cached e)); [|lia]. apply zsum_nonneg. intros x (h & -> & _)%list_elem_of_fmap. apply (sz_nonneg feats sz).
Qed.

Lemma encoder_run_inv os e : enc_inv feats sz e → ops_pre e os →
  ∃ e', run os e = Ok (tt, e') ∧ enc_inv feats sz e' ∧ ec_cache_size e' = ec_cache_size e
    ∧ (∀ r, last os = Some (Free r) → ids_of (request_id r) e' = ∅).
Proof.
  revert e. induction os as [|o os IH]; intros e He Hpre; [by exists e|].
  destruct Hpre as [Ho Hos]. destruct (encoder_op_inv o e He Ho) as (e1 & E1 & He1 & Hcs & Hl).
  rewrite E1 in Hos. destruct (IH e1 He1 Hos) as (e2 & E2 & He2 & Hcs2 & Hl2). exists e2. simpl.
  mstep by (by rewrite E1). rewrite E2, Hcs2, Hcs. split_and!; try done. intros r Hr.
  destruct os as [|o' os]; [|by apply Hl2]. simpl in *. unfold mret, M_ret in E2. simplify_eq. by apply Hl.
Qed.
End ops.
End EncoderOps.

(** C25. The encoder cache never loses or double-counts space. Under every sequence
    of its operations, with calls as the scheduler makes them, nothing raises, the
    cached entries and the free slots add up to the capacity, [num_freeable_slots] is
    the capacity not held by referenced entries, the entries queued for eviction are
    exactly the unreferenced ones, and a request that was freed references nothing. *)
Theorem encoder_cache_accounting `{SetOrder} feats sz cache_size os :
  Sized feats sz → 0 ≤ cache_size → EncoderOps.ops_pre feats sz (new_encoder_cache cache_size) os →
  ∃ e, EncoderOps.run os (new_encoder_cache cache_size) = Ok (tt, e)
    ∧ ec_num_free_slots e + total_size sz (ec_cached e) = cache_size ∧ 0 ≤ ec_num_free_slots e
    ∧ num_freeable_slots e + total_size sz (filter (λ p, p.2 ≠ ∅) (ec_cached e)) = cache_size
    ∧ (∀ h, h ∈ (freeable e).*1 ↔ ec_cached e !! h = Some ∅)
    ∧ (∀ r h refs, last os = Some (EncoderOps.Free r) → ec_cached e !! h = Some refs → request_id r ∉ refs).
Proof.
  intros Hsz Hcs Hpre.
  destruct (EncoderOps.encoder_run_inv feats sz os _ (new_encoder_cache_inv feats sz cache_size Hcs) Hpre)
    as (e & E & He & Hc & Hlast). simpl in Hc.
  exists e. split; [done|]. pose proof (ei_free _ _ _ He). pose proof (freeable_capacity feats sz e He).
  split; [lia|]. split; [apply (ei_nonneg _ _ _ He)|]. split; [lia|]. split; [apply (ei_freeable _ _ _ He)|].
  intros r h refs Hl Hh. apply (no_ids_no_refs feats sz e _ h); [done|by apply Hlast|done].
Qed.

(** Making room in the encoder cache. [can_allocate] says yes exactly when the
    item fits the compute budget and, with what is already scheduled, the space not
    held by references. Then it evicts the oldest unreferenced entries, no more than
    needed, reports their hashes, and there is room; otherwise nothing changes. *)
Theorem encoder_room_evicts_oldest feats sz e r i h budget scheduled :
  Sized feats sz → enc_inv feats sz e → input feats r i h →
  let yes := bool_decide (sz h ≤ budget ∧ sz h + scheduled ≤ num_freeable_slots e) in
  ∃ e', can_allocate r i budget scheduled e = Ok (yes, e') ∧ enc_inv feats sz e'
    ∧ if yes then made_room e (sz h + scheduled) e' else e' = e.
Proof. intros Hsz. by apply can_allocate_spec. Qed.

(** ** A concrete cache: two requests, the first with images [x] (4 embeddings) and
    [y] (3), the second with [z] (5). *)

Definition demo_item (h : string) (n : Z) : MultiModalFeatureSpec :=
  mkMultiModalFeatureSpec h (mkPlaceholderRange 0 n None).
Definition demo_feats (rid : string) : list MultiModalFeatureSpec :=
  if decide (rid = "a"%string) then [demo_item "x" 4; demo_item "y" 3]
  else if decide (rid = "b"%string) then [demo_item "z" 5] else [].
Definition demo_sz (h : string) : Z :=
  if decide (h = "x"%string) then 4 else if decide (h = "y"%string) then 3
  else if decide (h = "z"%string) then 5 else 0.
Definition demo_mm_request (rid : string) : Request :=
  mkRequest rid 0 0 WAITING None None None None false 16 (Some [1]) None ∅ 1 [] [1] 0 [] 0 None
    (demo_feats rid) false 0 [] false false [] 0 0 0 None None.

#[global] Instance demo_set_order : SetOrder := {| iter_set := elements; iter_set_perm s := Permutation_refl _ |}.

Lemma demo_sized : Sized demo_feats demo_sz.
Proof.
  split.
  - intros h. unfold demo_sz. repeat case_decide; lia.
  - intros rid f. unfold demo_feats. repeat case_decide; intros Hf;
      repeat (apply elem_of_cons in Hf as [->|Hf]; [done|]); by apply not_elem_of_nil in Hf.
Qed.

Definition demo_encoder_ops : list EncoderOps.op :=
  let a := demo_mm_request "a" in let b := demo_mm_request "b" in
  [EncoderOps.CanAllocate a 0 10 0; EncoderOps.Allocate a 0; EncoderOps.CanAllocate a 1 10 0; EncoderOps.Allocate a 1;
   EncoderOps.FreeInput a 0; EncoderOps.CanAllocate b 0 10 0; EncoderOps.Allocate b 0; EncoderOps.GetFreed; EncoderOps.Free a].

Lemma demo_encoder_pre : EncoderOps.ops_pre demo_feats demo_sz (new_encoder_cache 8) demo_encoder_ops.
Proof.
  vm_compute. repeat (split; [try (eexists; repeat split; try reflexivity; discriminate)|]); try done.
Qed.

Lemma encoder_cache_accounting_witness :
  EncoderOps.ops_pre demo_feats demo_sz (new_encoder_cache 8) demo_encoder_ops ∧
  ∃ e, EncoderOps.run demo_encoder_ops (new_encoder_cache 8) = Ok (tt, e)
    ∧ ec_num_free_slots e + total_size demo_sz (ec_cached e) = 8
    ∧ (∀ h, h ∈ (freeable e).*1 ↔ ec_cached e !! h = Some ∅).
Proof.
  split; [exact demo_encoder_pre|].
  destruct (encoder_cache_accounting demo_feats demo_sz 8 demo_encoder_ops demo_sized ltac:(lia) demo_encoder_pre)
    as (e & E & H1 & _ & _ & H2 & _).
  exists e. done.
Defined.

(** Request [a] still needs [y]; image [x] is unreferenced and makes room for [z]. *)
Lemma demo_encoder_half : ∃ e, enc_inv demo_feats demo_sz e ∧ freeable e = [("x"%string, 4)]
  ∧ num_freeable_slots e = 5 ∧ ec_num_free_slots e = 1.
Proof.
  pose proof demo_sized. set (os := take 5 demo_encoder_ops).
  destruct (EncoderOps.encoder_run_inv demo_feats demo_sz os (new_encoder_cache 8)) as (e & E & He & _).
  - by apply new_encoder_cache_inv.
  - vm_compute. repeat (split; [try (eexists; repeat split; try reflexivity; discriminate)|]); try done.
  - exists e. split; [done|]. vm_compute in E. by simplify_eq.
Qed.

Lemma encoder_room_evicts_oldest_witness :
  ∃ e e', freeable e = [("x"%string, 4)] ∧ can_allocate (demo_mm_request "b") 0 10 0 e = Ok (true, e')
    ∧ made_room e 5 e'.
Proof.
  destruct demo_encoder_half as (e & He & Hf & H5 & _).
  destruct (encoder_room_evicts_oldest demo_feats demo_sz e (demo_mm_request "b") 0 "z" 10 0 demo_sized He)
    as (e' & E & _ & Hroom); [by split|].
  rewrite bool_decide_true in E, Hroom by (rewrite H5; by vm_compute). by exists e, e'.
Defined.
