(* ===== verification/SchedUtils.v ===== *)
(** * Scheduler utilities

    Models [vllm/v1/core/sched/utils.py]: detection of repeated output
    ([check_sequence_repetition]), stop conditions ([check_stop]) and [remove_all]. *)

From Stdlib Require Import ZArith Lia.
From S2P Require Import Prelude Request RequestQueue.
Local Open Scope Z_scope.
Local Open Scope vllm_scope.

(** ** Repetition *)

(** The inner loop: [for m in range(1, repetition_min_count)]. *)
Fixpoint same_in_repeats (token_ids : list Z) (pattern_len n target_token : Z) (ms : list Z) : result bool :=
  match ms with
  | [] => Ok true
  | m :: ms =>
      t ← py_index token_ids (- (pattern_len * m + n));
      if t =? target_token then same_in_repeats token_ids pattern_len n target_token ms else Ok false
  end.

(** The outer loop: [for n in range(1, pattern_len + 1)]. *)
Fixpoint repeating_loop (token_ids : list Z) (pattern_len repetition_min_count : Z) (ns : list Z) : result bool :=
  match ns with
  | [] => Ok true
  | n :: ns =>
      target_token ← py_index token_ids (- n);
      same ← same_in_repeats token_ids pattern_len n target_token (zrange 1 repetition_min_count);
      if (same : bool) then repeating_loop token_ids pattern_len repetition_min_count ns else Ok false
  end.

Definition _has_repeating_pattern (token_ids : list Z) (pattern_len repetition_min_count : Z) : result bool :=
  repeating_loop token_ids pattern_len repetition_min_count (zrange 1 (pattern_len + 1)).

(** [for pattern_len in range(min_pattern_size, max_pattern_size + 1)] *)
Fixpoint pattern_loop (token_ids : list Z) (min_count : Z) (pattern_lens : list Z) : result bool :=
  match pattern_lens with
  | [] => Ok false
  | pattern_len :: pattern_lens =>
      if pattern_len * min_count >? zlen token_ids then Ok false
      else
        found ← _has_repeating_pattern token_ids pattern_len min_count;
        if (found : bool) then Ok true else pattern_loop token_ids min_count pattern_lens
  end.

Definition check_sequence_repetition (token_ids : list Z) (params : RepetitionDetectionParams) : result bool :=
  let min_pattern_size := if min_pattern_size params <=? 0 then 1 else min_pattern_size params in
  if (max_pattern_size params <=? 0) || (min_count params <? 2) || (min_pattern_size >? max_pattern_size params)
  then Ok false
  else pattern_loop token_ids (min_count params) (zrange min_pattern_size (max_pattern_size params + 1)).

(** ** [remove_all] *)

Definition remove_all {A} `{EqDecision A} (lst items_to_remove : list A) : list A :=
  match items_to_remove with
  | [] => lst
  | [item] => default lst (list_remove lst item)
  | _ => filter (.∉ items_to_remove) lst
  end.

(** ** Stop conditions *)

Definition check_stop (max_model_len : Z) : M Request bool :=
  r ← get;
  py_assert (bool_decide (pooling_params r = None)) ≫= λ _,
  match sampling_params r with
  | None => raise AssertionError
  | Some sp =>
      if num_output_tokens r <? sp_min_tokens sp then mret false
      else
        last_token_id ← lift_result (py_index (_output_token_ids r) (-1));
        if bool_decide (Some last_token_id = sp_eos_token_id sp) then
          modify (req_set_status FINISHED_STOPPED) ≫= λ _, mret true
        else if bool_decide (last_token_id ∈ sp_stop_token_ids sp) then
          modify (req_set_status FINISHED_STOPPED) ≫= λ _,
          modify (req_set_stop_reason (Some (StopToken last_token_id))) ≫= λ _, mret true
        else if (max_model_len <=? num_tokens r) || (max_tokens r <=? num_output_tokens r) then
          modify (req_set_status FINISHED_LENGTH_CAPPED) ≫= λ _, mret true
        else
          match sp_repetition_detection sp with
          | None => mret false
          | Some rd =>
              found ← lift_result (check_sequence_repetition (_output_token_ids r) rd);
              if (found : bool) then
                modify (req_set_status FINISHED_REPETITION) ≫= λ _,
                modify (req_set_stop_reason (Some (StopStr "repetition_detected"))) ≫= λ _, mret true
              else mret false
          end
  end.

(** ** Repetition detection against its definition *)

Lemma py_index_neg {A} (l : list A) (k : nat) x :
  (0 < k ≤ length l)%nat → l !! (length l - k)%nat = Some x → py_index l (- Z.of_nat k) = Ok x.
Proof.
  intros Hk Hx. unfold py_index. rewrite (proj2 (Z.ltb_lt (- Z.of_nat k) 0)) by lia.
  rewrite (proj2 (Z.ltb_ge (- Z.of_nat k + Z.of_nat (length l)) 0)) by lia.
  replace (Z.to_nat (- Z.of_nat k + Z.of_nat (length l))) with (length l - k)%nat by lia. by rewrite Hx.
Qed.

(** The token [k] places before the end of the sequence. *)
Definition from_end (l : list Z) (k : nat) : option Z := l !! (length l - k)%nat.

Lemma same_in_repeats_spec l (L n : nat) t ms :
  (∀ m, m ∈ ms → (0 < L * m + n ≤ length l)%nat) →
  same_in_repeats l (Z.of_nat L) (Z.of_nat n) t (Z.of_nat <$> ms)
  = Ok (bool_decide (Forall (λ m, from_end l (L * m + n) = Some t) ms)).
Proof.
  induction ms as [|m ms IH]; intros Hms; [done|]. csimpl.
  destruct (lookup_lt_is_Some_2 l (length l - (L * m + n))%nat) as [x Hx]; [specialize (Hms m ltac:(left)); lia|].
  replace (- (Z.of_nat L * Z.of_nat m + Z.of_nat n)) with (- Z.of_nat (L * m + n)) by lia.
  rewrite (py_index_neg l _ x) by (done || (apply Hms; left)). simpl.
  destruct (Z.eqb_spec x t) as [->|Hne].
  - rewrite IH by (intros m' Hm'; apply Hms; by right). f_equal. apply bool_decide_ext.
    rewrite Forall_cons. unfold from_end at 2. naive_solver.
  - rewrite bool_decide_false; [done|]. rewrite Forall_cons. unfold from_end. rewrite Hx. naive_solver.
Qed.

Lemma zrange_nat (a b : nat) : (a ≤ b)%nat → zrange (Z.of_nat a) (Z.of_nat b) = Z.of_nat <$> seq a (b - a).
Proof.
  intros Hab. unfold zrange, seqZ. replace (Z.to_nat (Z.of_nat b - Z.of_nat a)) with (b - a)%nat by lia.
  apply list_eq. intros i. rewrite !list_lookup_fmap. destruct (decide (i < b - a)%nat) as [Hi|Hi].
  - rewrite !lookup_seq_lt by done. simpl. f_equal. lia.
  - rewrite !lookup_seq_ge by lia. done.
Qed.

Lemma zrange_1 (b : nat) : (1 ≤ b)%nat → zrange 1 (Z.of_nat b) = Z.of_nat <$> seq 1 (b - 1).
Proof. apply (zrange_nat 1 b). Qed.

(** The last [c] stretches of [L] tokens are equal. *)
Definition repeats (l : list Z) (L c : nat) : Prop :=
  ∀ n m, (1 ≤ n ≤ L)%nat → (1 ≤ m < c)%nat → from_end l (L * m + n) = from_end l n.

Lemma has_repeating_pattern_spec l (L c : nat) :
  (1 ≤ L)%nat → (1 ≤ c)%nat → (L * c ≤ length l)%nat →
  ∃ b, _has_repeating_pattern l (Z.of_nat L) (Z.of_nat c) = Ok b ∧ (b = true ↔ repeats l L c).
Proof.
  intros HL Hc Hlen. unfold _has_repeating_pattern.
  replace (Z.of_nat L + 1) with (Z.of_nat (S L)) by lia. rewrite zrange_1 by lia.
  assert (Hgen : ∀ ns, (∀ n, n ∈ ns → (1 ≤ n ≤ L)%nat) →
    ∃ b, repeating_loop l (Z.of_nat L) (Z.of_nat c) (Z.of_nat <$> ns) = Ok b
      ∧ (b = true ↔ ∀ n m, n ∈ ns → (1 ≤ m < c)%nat → from_end l (L * m + n) = from_end l n)).
  { induction ns as [|n ns IH]; intros Hns.
    { exists true. split; [done|]. split; [|done]. intros _ n m Hn. by apply not_elem_of_nil in Hn. }
    csimpl. pose proof (Hns n ltac:(left)) as Hn.
    destruct (lookup_lt_is_Some_2 l (length l - n)%nat) as [t Ht]; [nia|].
    rewrite (py_index_neg l n t) by (done || nia). simpl. rewrite zrange_1 by lia.
    rewrite same_in_repeats_spec.
    2:{ intros m Hm%elem_of_seq. nia. }
    assert (Hseq : Forall (λ m, from_end l (L * m + n) = Some t) (seq 1 (c - 1)) ↔
      ∀ m, (1 ≤ m < c)%nat → from_end l (L * m + n) = from_end l n).
    { assert (Hfe : from_end l n = Some t) by done. rewrite Forall_forall. setoid_rewrite Hfe.
      setoid_rewrite elem_of_seq. split; intros H m Hm; apply H; lia. }
    simpl. case_bool_decide as Hb.
    - destruct (IH ltac:(intros n' Hn'; apply Hns; by right)) as (b & -> & Hiff). exists b. split; [done|].
      rewrite Hiff. rewrite Hseq in Hb. split; intros H n' m; [|intros Hn'; apply H; by right].
      intros [->|Hn']%elem_of_cons; [by apply Hb|by apply H].
    - exists false. split; [done|]. rewrite Hseq in Hb. split; [done|]. intros H. destruct Hb. intros m. apply H. left. }
  destruct (Hgen (seq 1 (S L - 1))) as (b & Hb & Hiff); [intros n Hn%elem_of_seq; lia|].
  exists b. split; [done|]. rewrite Hiff. unfold repeats. setoid_rewrite elem_of_seq.
  split; intros H n m Hn; apply H; lia.
Qed.

Lemma lookup_concat_replicate {A} (p : list A) c k j :
  (k < c)%nat → (j < length p)%nat → concat (replicate c p) !! (k * length p + j)%nat = p !! j.
Proof.
  revert k. induction c as [|c IH]; intros k Hk Hj; [lia|]. simpl. destruct k as [|k].
  - by rewrite lookup_app_l by lia.
  - rewrite lookup_app_r by (simpl; lia). replace (S k * length p + j - length p)%nat with (k * length p + j)%nat by lia.
    apply IH; lia.
Qed.
Lemma length_concat_replicate {A} (p : list A) c : length (concat (replicate c p)) = (c * length p)%nat.
Proof. induction c as [|c IH]; [done|]. simpl. rewrite length_app, IH. lia. Qed.

Lemma repeats_iff l (L c : nat) : (1 ≤ L)%nat → (1 ≤ c)%nat → (L * c ≤ length l)%nat →
  repeats l L c ↔ ∃ pre p, length p = L ∧ l = pre ++ concat (replicate c p).
Proof.
  intros HL Hc Hlen. unfold repeats, from_end. split.
  - intros Hrep. exists (take (length l - L * c) l), (drop (length l - L) l).
    assert (Hp : length (drop (length l - L) l) = L) by (rewrite length_drop; nia). split; [done|].
    rewrite <-(take_drop (length l - L * c) l) at 1. f_equal. apply list_eq. intros q.
    destruct (decide (q < L * c)%nat) as [Hq|Hq].
    2:{ rewrite !lookup_ge_None_2; [done|rewrite length_concat_replicate; nia|rewrite length_drop; lia]. }
    assert (Hdm : q = (q / L * L + q mod L)%nat) by (rewrite (Nat.mul_comm _ L); apply Nat.div_mod_eq).
    pose proof (Nat.mod_upper_bound q L ltac:(lia)) as Hj. set (k := (q / L)%nat) in *. set (j := (q mod L)%nat) in *.
    assert (Hk : (k < c)%nat) by nia.
    rewrite lookup_drop. rewrite Hdm at 2. rewrite <-Hp at 2.
    rewrite lookup_concat_replicate by lia. rewrite lookup_drop.
    destruct (decide (k = c - 1)%nat) as [Ek|Ek].
    { f_equal. nia. }
    specialize (Hrep (L - j)%nat (c - 1 - k)%nat ltac:(lia) ltac:(lia)).
    replace (length l - L + j)%nat with (length l - (L - j))%nat by nia. rewrite <-Hrep. f_equal. nia.
  - intros (pre & p & Hp & ->) n m Hn Hm. rewrite length_app, length_concat_replicate, Hp in *.
    rewrite !lookup_app_r by nia.
    replace (length pre + c * L - (L * m + n) - length pre)%nat with ((c - 1 - m) * length p + (L - n))%nat by nia.
    replace (length pre + c * L - n - length pre)%nat with ((c - 1) * length p + (L - n))%nat by nia.
    rewrite !lookup_concat_replicate by lia. done.
Qed.

(** [l] ends in [c] copies of a pattern whose length is in [lo..hi]. *)
Definition ends_in_copies (l : list Z) (lo hi c : Z) : Prop :=
  2 ≤ c ∧ ∃ pre p, lo ≤ zlen p ≤ hi ∧ l = pre ++ concat (replicate (Z.to_nat c) p).

Lemma pattern_loop_spec l (c hi : Z) (a k : nat) :
  2 ≤ c → (1 ≤ a)%nat → Z.of_nat (a + k) = hi + 1 →
  ∃ b, pattern_loop l c (Z.of_nat <$> seq a k) = Ok b ∧ (b = true ↔ ends_in_copies l (Z.of_nat a) hi c).
Proof.
  intros Hc. revert a. induction k as [|k IH]; intros a Ha Hend; simpl.
  { exists false. split; [done|]. split; [done|]. intros (_ & pre & p & Hp & _). lia. }
  destruct (Z.gtb_spec (Z.of_nat a * c) (zlen l)) as [Hlen|Hlen].
  { exists false. split; [done|]. split; [done|]. intros (_ & pre & p & Hp & ->).
    rewrite zlen_app in Hlen. unfold zlen in *. rewrite length_concat_replicate in Hlen. nia. }
  destruct (has_repeating_pattern_spec l a (Z.to_nat c)) as (b & Ehas & Hb); [done|lia|unfold zlen in Hlen; nia|].
  rewrite Z2Nat.id in Ehas by lia. rewrite Ehas.
  rewrite repeats_iff in Hb by (unfold zlen in Hlen; nia). simpl. destruct b.
  - exists true. split; [done|]. split; [|done]. intros _. split; [done|].
    destruct Hb as [Hb _]. destruct (Hb eq_refl) as (pre & p & Hp & Hl). exists pre, p. unfold zlen. split; [lia|done].
  - destruct (IH (S a)) as (b & Eb & Hiff); [lia|lia|]. exists b. split; [done|]. rewrite Hiff.
    assert (Hno : ∀ pre p, length p = a → l ≠ pre ++ concat (replicate (Z.to_nat c) p)).
    { intros pre p Hp Hl. assert (false = true); [|done]. apply Hb. eauto. }
    split; intros (H2 & pre & p & Hp & Hl); (split; [done|]); exists pre, p; (split; [|done]); [lia|].
    destruct (decide (length p = a)) as [E|E]; [by destruct (Hno pre p E Hl)|]. unfold zlen in *. lia.
Qed.

Lemma check_repetition_spec l params :
  ∃ b, check_sequence_repetition l params = Ok b
    ∧ (b = true ↔ ends_in_copies l (Z.max 1 (min_pattern_size params)) (max_pattern_size params) (min_count params)).
Proof.
  unfold check_sequence_repetition.
  replace (if min_pattern_size params <=? 0 then 1 else min_pattern_size params)
    with (Z.max 1 (min_pattern_size params)) by (destruct (Z.leb_spec (min_pattern_size params) 0); lia).
  set (lo := Z.max 1 (min_pattern_size params)). assert (Hlo : 1 ≤ lo) by (unfold lo; lia). clearbody lo.
  destruct params as [hi mn c]. simpl.
  destruct (Z.leb_spec hi 0) as [Hhi|Hhi]; simpl.
  { exists false. split; [done|]. split; [done|]. intros (_ & pre & p & Hp & _). lia. }
  destruct (Z.ltb_spec c 2) as [Hc|Hc]; simpl.
  { exists false. split; [done|]. split; [done|]. intros [? _]. lia. }
  destruct (Z.gtb_spec lo hi) as [Hh|Hh]; simpl.
  { exists false. split; [done|]. split; [done|]. intros (_ & pre & p & Hp & _). lia. }
  replace lo with (Z.of_nat (Z.to_nat lo)) by lia. replace (hi + 1) with (Z.of_nat (Z.to_nat (hi + 1))) by lia.
  rewrite zrange_nat by lia. apply pattern_loop_spec; lia.
Qed.

(** C27. Repetition detection is exact: on every sequence and parameters the check
    returns without an exception, and it answers yes exactly when the sequence ends
    in [min_count >= 2] consecutive copies of one pattern whose length lies between
    [max(1, min_pattern_size)] and [max_pattern_size]. *)
Theorem repetition_check_exact token_ids params :
  ∃ b, check_sequence_repetition token_ids params = Ok b
    ∧ (b = true ↔ 2 ≤ min_count params ∧ ∃ pre p,
         Z.max 1 (min_pattern_size params) ≤ zlen p ≤ max_pattern_size params
         ∧ token_ids = pre ++ concat (replicate (Z.to_nat (min_count params)) p)).
Proof. apply check_repetition_spec. Qed.

(** ** Stop conditions *)

(** The reasons to stop, apart from [min_tokens]. *)
Definition hit_eos (r : Request) (sp : SamplingParams) : Prop :=
  ∃ t, last (_output_token_ids r) = Some t ∧ sp_eos_token_id sp = Some t.
Definition hit_stop_token (r : Request) (sp : SamplingParams) : Prop :=
  ∃ t, last (_output_token_ids r) = Some t ∧ t ∈ sp_stop_token_ids sp.
Definition hit_length (max_model_len : Z) (r : Request) : Prop :=
  max_model_len ≤ num_tokens r ∨ max_tokens r ≤ num_output_tokens r.
Definition hit_repetition (r : Request) (sp : SamplingParams) : Prop :=
  ∃ rd, sp_repetition_detection sp = Some rd ∧
    ends_in_copies (_output_token_ids r) (Z.max 1 (min_pattern_size rd)) (max_pattern_size rd) (min_count rd).

(** The status and stop reason [check_stop] leaves, as a relation: the first reason
    in the order end of sequence, stop token, length, repetition decides. *)
Inductive stop_outcome (max_model_len : Z) (r : Request) (sp : SamplingParams) : bool → Request → Prop :=
  | goes_on_min_tokens : num_output_tokens r < sp_min_tokens sp → stop_outcome max_model_len r sp false r
  | stops_eos : sp_min_tokens sp ≤ num_output_tokens r → hit_eos r sp →
      stop_outcome max_model_len r sp true (req_set_status FINISHED_STOPPED r)
  | stops_token t : sp_min_tokens sp ≤ num_output_tokens r → ¬ hit_eos r sp →
      last (_output_token_ids r) = Some t → hit_stop_token r sp →
      stop_outcome max_model_len r sp true
        (req_set_stop_reason (Some (StopToken t)) (req_set_status FINISHED_STOPPED r))
  | stops_length : sp_min_tokens sp ≤ num_output_tokens r → ¬ hit_eos r sp → ¬ hit_stop_token r sp →
      hit_length max_model_len r →
      stop_outcome max_model_len r sp true (req_set_status FINISHED_LENGTH_CAPPED r)
  | stops_repetition : sp_min_tokens sp ≤ num_output_tokens r → ¬ hit_eos r sp → ¬ hit_stop_token r sp →
      ¬ hit_length max_model_len r → hit_repetition r sp →
      stop_outcome max_model_len r sp true
        (req_set_stop_reason (Some (StopStr "repetition_detected")) (req_set_status FINISHED_REPETITION r))
  | goes_on : sp_min_tokens sp ≤ num_output_tokens r → ¬ hit_eos r sp → ¬ hit_stop_token r sp →
      ¬ hit_length max_model_len r → ¬ hit_repetition r sp → stop_outcome max_model_len r sp false r.

Lemma check_stop_outcome max_model_len r sp :
  pooling_params r = None → sampling_params r = Some sp → _output_token_ids r ≠ [] →
  ∃ b r', check_stop max_model_len r = Ok (b, r') ∧ stop_outcome max_model_len r sp b r'.
Proof.
  intros Hp Hs Hout. unfold check_stop. mstep. rewrite bool_decide_true by done. mstep. rewrite Hs.
  destruct (Z.ltb_spec (num_output_tokens r) (sp_min_tokens sp)) as [Hmin|Hmin].
  { eexists _, _. split; [done|]. by constructor. }
  destruct (last (_output_token_ids r)) as [t|] eqn:Hlast; [|by apply last_None in Hlast].
  mstep by (unfold lift_result; by rewrite (py_index_last _ _ Hlast)).
  case_bool_decide as Heos.
  { eexists _, _. split; [done|]. apply stops_eos; [done|]. by exists t. }
  assert (¬ hit_eos r sp) by (intros (t' & ? & ?); congruence).
  case_bool_decide as Htok.
  { eexists _, _. split; [done|]. apply stops_token; try done. by exists t. }
  assert (¬ hit_stop_token r sp) by (intros (t' & ? & ?); congruence).
  destruct ((max_model_len <=? num_tokens r) || (max_tokens r <=? num_output_tokens r)) eqn:Elen.
  { eexists _, _. split; [done|]. apply stops_length; try done. unfold hit_length.
    apply orb_true_iff in Elen as [E|E]; apply Z.leb_le in E; lia. }
  assert (¬ hit_length max_model_len r).
  { apply orb_false_iff in Elen as [E1 E2]. rewrite Z.leb_gt in E1, E2. unfold hit_length. lia. }
  destruct (sp_repetition_detection sp) as [rd|] eqn:Erd.
  - destruct (check_repetition_spec (_output_token_ids r) rd) as (b & Eb & Hb).
    mstep by (unfold lift_result; by rewrite Eb). destruct b.
    + eexists _, _. split; [done|]. apply stops_repetition; try done. exists rd. split; [done|]. by apply Hb.
    + eexists _, _. split; [done|]. apply goes_on; try done. intros (rd' & E & Hrd). simplify_eq. by apply Hb in Hrd.
  - eexists _, _. split; [done|]. apply goes_on; try done. intros (rd' & E & _). simplify_eq.
Qed.

(** C28. [check_stop] on a generating request: no exception; only the status and the
    stop reason can change; the request stops exactly when it has produced
    [min_tokens] and hit the end token, a stop token, a length limit or a repetition;
    then, and only then, its status is a finished one, and the reason reported to the
    client is the first of these that applies. In particular neither
    [max_model_len] nor [max_tokens] stops a request that is below [min_tokens]. *)
Theorem check_stop_decides max_model_len r sp :
  pooling_params r = None → sampling_params r = Some sp → _output_token_ids r ≠ [] → is_finished r = false →
  ∃ b r', check_stop max_model_len r = Ok (b, r')
    ∧ r' = req_set_stop_reason (stop_reason r') (req_set_status (status r') r)
    ∧ (b = true ↔ sp_min_tokens sp ≤ num_output_tokens r ∧
         (hit_eos r sp ∨ hit_stop_token r sp ∨ hit_length max_model_len r ∨ hit_repetition r sp))
    ∧ is_finished r' = b
    ∧ (b = true → ∃ reason, get_finished_reason (status r') = Some reason
         ∧ (reason = STOP ↔ hit_eos r sp ∨ hit_stop_token r sp)
         ∧ (reason = LENGTH → hit_length max_model_len r)
         ∧ (reason = REPETITION → hit_repetition r sp ∧ ¬ hit_length max_model_len r)).
Proof.
  intros Hp Hs Hout Hf. destruct (check_stop_outcome max_model_len r sp Hp Hs Hout) as (b & r' & E & Ho).
  exists b, r'. split; [done|].
  destruct Ho; (split; [by destruct r|]); (split; [first [split; [done|lia]|split; [done|tauto]|split; [|done]; tauto]|]);
    (split; [done|]); intros Hb; try done; eexists; (split; [reflexivity|]); split_and!; naive_solver.
Qed.

(** A request that has produced tokens 5 and 2, with 2 the end of sequence. *)
Definition demo_sampling : SamplingParams := mkSamplingParams (Some 16) 1 (Some 2) [] None None.
Definition demo_generating : Request :=
  mkRequest "r" 0 0 RUNNING None (Some demo_sampling) None None false 16 (Some [7; 8]) None ∅ 2
    [5; 2] [7; 8; 5; 2] 0 [] 3 None [] false 0 [] false false [] 0 0 0 None None.

Lemma check_stop_decides_witness :
  ∃ r', check_stop 100 demo_generating = Ok (true, r') ∧ is_finished r' = true.
Proof.
  destruct (check_stop_decides 100 demo_generating demo_sampling eq_refl eq_refl ltac:(done) eq_refl)
    as (b & r' & E & _ & Hb & Hf & _).
  assert (b = true) as ->; [|by exists r'].
  apply Hb. split; [by vm_compute|]. left. by exists 2.
Defined.
