(* ===== verification/Scheduler.v ===== *)
(** * The scheduler: state, request lifecycle and helpers

    Models [vllm/v1/core/sched/scheduler.py] ([Scheduler]) and
    [async_scheduler.py] ([AsyncScheduler], when [async_scheduling] is set), in a
    configuration without KV-transfer and encoder-cache connectors
    ([self.connector] and [self.ec_connector] are [None]).

    Requests are shared mutable objects: [requests] is the store of objects by id
    (the dict [self.requests], in insertion order), and the queues, [running] and
    [_inflight_prefills] hold references, which are request ids. What other
    components decide is a parameter: [grammar_ready], [should_advance] and
    [accept_tokens] stand for the structured-output manager, [iter_set] for
    the order in which a Python set is iterated. Timestamps and logging are not
    modelled. *)

From Stdlib Require Import ZArith Lia.
From S2P Require Import Prelude MathUtils KVSpec FreeQueue Request BlockHash BlockPool SingleType Coordinator KVCacheManager RequestQueue EncoderCache SchedUtils.
Local Open Scope Z_scope.

Inductive PauseState := UNPAUSED | PAUSED_NEW | PAUSED_ALL.
#[global] Instance PauseState_eq_dec : EqDecision PauseState.
Proof. solve_decision. Defined.

(** [need_mamba_block_aligned_split] is [has_mamba_layers and mamba_align];
    [max_loras] is [None] without a LoRA configuration. *)
Record SchedulerConfig := mkSchedulerConfig {
  policy : SchedulingPolicy;
  max_num_running_reqs : Z;
  max_num_scheduled_tokens : Z;
  sc_max_model_len : Z;
  num_sampled_tokens_per_step : Z;
  long_prefill_token_threshold : Z;
  enable_chunked_prefill : bool;
  sc_disable_chunked_mm_input : bool;
  is_encoder_decoder : bool;
  sc_use_eagle : bool;
  num_spec_tokens : Z;
  num_lookahead_tokens : Z;
  cache_block_size : Z;
  sc_has_mamba_layers : bool;
  mamba_align : bool;
  sc_needs_kv_cache_zeroing : bool;
  max_loras : option Z;
  scheduler_reserve_full_isl : bool;
  use_pp : bool;
  pp_size : Z;
  async_scheduling : bool;
  use_v2_model_runner : bool;
  sc_log_stats : bool;
  max_num_encoder_input_tokens : Z;
  num_groups : nat
}.

Definition need_mamba_block_aligned_split (c : SchedulerConfig) : bool := sc_has_mamba_layers c && mamba_align c.

(** The encoder cache is one of two classes. *)
Inductive EncoderCaches :=
  | SharedCache (e : EncoderCacheManager)
  | EncDecCache (e : EncoderDecoderCacheManager).

Record Scheduler := mkScheduler {
  config : SchedulerConfig;
  requests : list (string * Request);
  waiting : RequestQueue string;
  skipped_waiting : RequestQueue string;
  running : list string;
  finished_req_ids : gset string;
  finished_req_ids_dict : option (list (Z * gset string));
  num_waiting_for_streaming_input : Z;
  prev_step_scheduled_req_ids : gset string;
  kv_cache_manager : KVCacheManager;
  encoder_cache_manager : EncoderCaches;
  current_step : Z;
  _inflight_prefills : gset string;
  _pause_state : PauseState
}.

Definition s_set_requests (v : list (string * Request)) (r : Scheduler) : Scheduler :=
  mkScheduler (config r) v (waiting r) (skipped_waiting r) (running r) (finished_req_ids r)
    (finished_req_ids_dict r) (num_waiting_for_streaming_input r)
    (prev_step_scheduled_req_ids r) (kv_cache_manager r) (encoder_cache_manager r)
    (current_step r) (_inflight_prefills r) (_pause_state r).
Definition s_set_waiting (v : RequestQueue string) (r : Scheduler) : Scheduler :=
  mkScheduler (config r) (requests r) v (skipped_waiting r) (running r) (finished_req_ids r)
    (finished_req_ids_dict r) (num_waiting_for_streaming_input r)
    (prev_step_scheduled_req_ids r) (kv_cache_manager r) (encoder_cache_manager r)
    (current_step r) (_inflight_prefills r) (_pause_state r).
Definition s_set_skipped_waiting (v : RequestQueue string) (r : Scheduler) : Scheduler :=
  mkScheduler (config r) (requests r) (waiting r) v (running r) (finished_req_ids r)
    (finished_req_ids_dict r) (num_waiting_for_streaming_input r)
    (prev_step_scheduled_req_ids r) (kv_cache_manager r) (encoder_cache_manager r)
    (current_step r) (_inflight_prefills r) (_pause_state r).
Definition s_set_running (v : list string) (r : Scheduler) : Scheduler :=
  mkScheduler (config r) (requests r) (waiting r) (skipped_waiting r) v (finished_req_ids r)
    (finished_req_ids_dict r) (num_waiting_for_streaming_input r)
    (prev_step_scheduled_req_ids r) (kv_cache_manager r) (encoder_cache_manager r)
    (current_step r) (_inflight_prefills r) (_pause_state r).
Definition s_set_finished_req_ids (v : gset string) (r : Scheduler) : Scheduler :=
  mkScheduler (config r) (requests r) (waiting r) (skipped_waiting r) (running r) v
    (finished_req_ids_dict r) (num_waiting_for_streaming_input r)
    (prev_step_scheduled_req_ids r) (kv_cache_manager r) (encoder_cache_manager r)
    (current_step r) (_inflight_prefills r) (_pause_state r).
Definition s_set_finished_req_ids_dict (v : option (list (Z * gset string))) (r : Scheduler) : Scheduler :=
  mkScheduler (config r) (requests r) (waiting r) (skipped_waiting r) (running r)
    (finished_req_ids r) v (num_waiting_for_streaming_input r) (prev_step_scheduled_req_ids
    r) (kv_cache_manager r) (encoder_cache_manager r) (current_step r) (_inflight_prefills
    r) (_pause_state r).
Definition s_set_num_waiting_for_streaming_input (v : Z) (r : Scheduler) : Scheduler :=
  mkScheduler (config r) (requests r) (waiting r) (skipped_waiting r) (running r)
    (finished_req_ids r) (finished_req_ids_dict r) v (prev_step_scheduled_req_ids r)
    (kv_cache_manager r) (encoder_cache_manager r) (current_step r) (_inflight_prefills r)
    (_pause_state r).
Definition s_set_prev_step_scheduled_req_ids (v : gset string) (r : Scheduler) : Scheduler :=
  mkScheduler (config r) (requests r) (waiting r) (skipped_waiting r) (running r)
    (finished_req_ids r) (finished_req_ids_dict r) (num_waiting_for_streaming_input r) v
    (kv_cache_manager r) (encoder_cache_manager r) (current_step r) (_inflight_prefills r)
    (_pause_state r).
Definition s_set_kv_cache_manager (v : KVCacheManager) (r : Scheduler) : Scheduler :=
  mkScheduler (config r) (requests r) (waiting r) (skipped_waiting r) (running r)
    (finished_req_ids r) (finished_req_ids_dict r) (num_waiting_for_streaming_input r)
    (prev_step_scheduled_req_ids r) v (encoder_cache_manager r) (current_step r)
    (_inflight_prefills r) (_pause_state r).
Definition s_set_encoder_cache_manager (v : EncoderCaches) (r : Scheduler) : Scheduler :=
  mkScheduler (config r) (requests r) (waiting r) (skipped_waiting r) (running r)
    (finished_req_ids r) (finished_req_ids_dict r) (num_waiting_for_streaming_input r)
    (prev_step_scheduled_req_ids r) (kv_cache_manager r) v (current_step r)
    (_inflight_prefills r) (_pause_state r).
Definition s_set_current_step (v : Z) (r : Scheduler) : Scheduler :=
  mkScheduler (config r) (requests r) (waiting r) (skipped_waiting r) (running r)
    (finished_req_ids r) (finished_req_ids_dict r) (num_waiting_for_streaming_input r)
    (prev_step_scheduled_req_ids r) (kv_cache_manager r) (encoder_cache_manager r) v
    (_inflight_prefills r) (_pause_state r).
Definition s_set_inflight_prefills (v : gset string) (r : Scheduler) : Scheduler :=
  mkScheduler (config r) (requests r) (waiting r) (skipped_waiting r) (running r)
    (finished_req_ids r) (finished_req_ids_dict r) (num_waiting_for_streaming_input r)
    (prev_step_scheduled_req_ids r) (kv_cache_manager r) (encoder_cache_manager r)
    (current_step r) v (_pause_state r).
Definition s_set_pause_state (v : PauseState) (r : Scheduler) : Scheduler :=
  mkScheduler (config r) (requests r) (waiting r) (skipped_waiting r) (running r)
    (finished_req_ids r) (finished_req_ids_dict r) (num_waiting_for_streaming_input r)
    (prev_step_scheduled_req_ids r) (kv_cache_manager r) (encoder_cache_manager r)
    (current_step r) (_inflight_prefills r) v.

(** ** Construction *)

(** What the speculative configuration answers to [use_eagle()], [uses_draft_model()]
    and [use_dflash()]. *)
Record SpeculativeConfig := mkSpeculativeConfig { spec_eagle : bool; spec_draft_model : bool; spec_dflash : bool }.

(** [use_eagle] and [num_lookahead_tokens] *)
Definition speculation (spec : option SpeculativeConfig) (num_spec_tokens : Z) : bool * Z :=
  match spec with
  | None => (false, 0)
  | Some c =>
      let n := if spec_eagle c then num_spec_tokens else 0 in
      let n := if spec_draft_model c then num_spec_tokens else n in
      let n := if spec_dflash c then num_spec_tokens + 1 else n in
      (spec_eagle c, n)
  end.

(** The mutable attributes set by [__init__]; [c] holds the others. *)
Definition new_scheduler (c : SchedulerConfig) (kv : KVCacheManager) (encoder_cache_size : Z) (include_finished_set : bool)
    : Scheduler :=
  mkScheduler c [] (create_request_queue (policy c)) (create_request_queue (policy c)) [] ∅
    (if include_finished_set then Some [] else None) 0 ∅ kv
    (if is_encoder_decoder c then EncDecCache (new_encoder_decoder_cache encoder_cache_size)
     else SharedCache (new_encoder_cache encoder_cache_size))
    0 ∅ UNPAUSED.

(** What the structured-output manager answers. *)
Class StructuredOutput := {
  grammar_ready : Request → bool;
  should_advance : Request → bool;
  accept_tokens : Request → list Z → bool
}.

Abbreviation SM := (M Scheduler).

(** ** The object store *)

(** Dereferencing; ids without an object do not occur. *)
Definition obj (s : Scheduler) (rid : string) : result Request :=
  match dict_get (requests s) rid with Some r => Ok r | None => Err KeyError end.
Definition deref (rid : string) : SM Request := s ← get; lift_result (obj s rid).
Definition set_obj (rid : string) (r : Request) : SM unit :=
  modify (λ s, s_set_requests (dict_set (requests s) rid r) s).
Definition mutate (rid : string) (f : Request → Request) : SM unit := r ← deref rid; set_obj rid (f r).

(** The order the priority queues see: the objects as they are now. Distinct
    references have distinct ids, so addresses never decide. *)
Definition blank (rid : string) : Request :=
  mkRequest rid 0 0 WAITING None None None None false 0 None None ∅ 0 [] [] 0 [] 0 None [] false 0 [] false false [] 0 0 0 None None.
Definition obj_of (s : Scheduler) (rid : string) : Request := default (blank rid) (dict_get (requests s) rid).
Definition req_order (s : Scheduler) : string → string → bool := request_lt (obj_of s) (λ _, 0).

Definition on_kv {A} (f : K A) : SM A := zoom kv_cache_manager s_set_kv_cache_manager f.

(** ** Encoder-cache dispatch *)

Definition on_encoder {A} (f : M EncoderCacheManager A) (g : M EncoderDecoderCacheManager A) : SM A := λ s,
  match encoder_cache_manager s with
  | SharedCache e => match f e with Ok (a, e) => Ok (a, s_set_encoder_cache_manager (SharedCache e) s) | Err x => Err x end
  | EncDecCache e => match g e with Ok (a, e) => Ok (a, s_set_encoder_cache_manager (EncDecCache e) s) | Err x => Err x end
  end.
Definition encoder_check (r : Request) (i : Z) : SM bool :=
  on_encoder (check_and_update_cache r i) (mret false).
Definition encoder_can_allocate (r : Request) (i budget scheduled : Z) : SM bool :=
  on_encoder (can_allocate r i budget scheduled) (ed_can_allocate r i budget scheduled).
Definition encoder_allocate (r : Request) (i : Z) : SM unit := on_encoder (ec_allocate r i) (ed_allocate r i).
Definition encoder_free_input (r : Request) (i : Z) : SM unit :=
  on_encoder (free_encoder_input r i) (ed_free_encoder_input r i).
Definition encoder_free `{SetOrder} (r : Request) : SM unit := on_encoder (ec_free r) (ed_free r).
Definition encoder_cached_ids (r : Request) : SM (gset Z) :=
  on_encoder (gets (get_cached_input_ids r)) (mret (ed_get_cached_input_ids r)).
Definition encoder_freed_hashes : SM (list string) := on_encoder get_freed_mm_hashes ed_get_freed_mm_hashes.

(** ** Multi-modal windows *)

(** [bisect.bisect_left(a, x, key=key)]; the loop halves [hi - lo]. *)
Fixpoint bisect_loop {A} (a : list A) (x : Z) (key : A → Z) (fuel lo hi : nat) : nat :=
  match fuel with
  | O => lo
  | S fuel =>
      if (lo <? hi)%nat then
        let mid := ((lo + hi) / 2)%nat in
        match a !! mid with
        | Some y => if key y <? x then bisect_loop a x key fuel (mid + 1) hi else bisect_loop a x key fuel lo mid
        | None => lo
        end
      else lo
  end.
Definition bisect_left {A} (a : list A) (x : Z) (key : A → Z) : nat := bisect_loop a x key (length a) 0 (length a).

Definition get_mm_features_in_window (mm_features : list MultiModalFeatureSpec) (start end_ : Z) : nat * nat :=
  (bisect_left mm_features (start + 1) (λ f, pr_offset (mm_position f) + pr_length (mm_position f)),
   bisect_left mm_features end_ (λ f, pr_offset (mm_position f))).

Definition get_embeds_indices_in_range (p : PlaceholderRange) (start_idx end_idx : Z) : result (Z * Z) :=
  match embeds_cumsum p with
  | None => Ok (start_idx, end_idx)
  | Some c =>
      a ← (if 0 <? start_idx then py_index c (start_idx - 1) else Ok 0);
      b ← (if 0 <? end_idx then py_index c (end_idx - 1) else Ok 0);
      Ok (a, b)
  end.

(** ** Scheduling encoder inputs *)

(** The variables of the loop in [_try_schedule_encoder_inputs]. *)
Record EncoderPlan := mkEncoderPlan {
  encoder_inputs_to_schedule : list Z;
  ep_num_new_tokens : Z;
  ep_budget : Z;
  mm_hashes_to_schedule : gset string;
  num_embeds_to_schedule : Z
}.

(** The body of the loop for input [i]; the boolean tells to [break]. *)
Definition try_encoder_input (r : Request) (num_computed_tokens shift_computed_tokens : Z) (i : Z) (p : EncoderPlan)
    : SM (EncoderPlan * bool) :=
  s ← get;
  let c := config s in
  mm_feature ← lift_result (py_index (mm_features r) i);
  let start_pos := pr_offset (mm_position mm_feature) in
  let num_encoder_tokens := pr_length (mm_position mm_feature) in
  let num_encoder_embeds := get_num_embeds (mm_position mm_feature) in
  let item_identifier := mm_identifier mm_feature in
  let num_new_tokens := ep_num_new_tokens p in
  if is_encoder_decoder c && (0 <? num_computed_tokens) then
    _ ← py_assert (start_pos =? 0); mret (p, false)
  else
  if negb (is_encoder_decoder c) && bool_decide (item_identifier ∈ mm_hashes_to_schedule p) then mret (p, false)
  else
  cached ← (if is_encoder_decoder c then mret false else encoder_check r i);
  if (cached : bool) then mret (p, false)
  else
  if sc_disable_chunked_mm_input c && (num_computed_tokens <? start_pos)
     && (num_computed_tokens + num_new_tokens <? start_pos + num_encoder_tokens) then
    mret (mkEncoderPlan (encoder_inputs_to_schedule p)
            (Z.max 0 (start_pos - (num_computed_tokens + shift_computed_tokens)))
            (ep_budget p) (mm_hashes_to_schedule p) (num_embeds_to_schedule p), true)
  else
  ok ← encoder_can_allocate r i (ep_budget p) (num_embeds_to_schedule p);
  if negb ok then
    mret (mkEncoderPlan (encoder_inputs_to_schedule p)
            (if num_computed_tokens + shift_computed_tokens <? start_pos
             then start_pos - (num_computed_tokens + shift_computed_tokens) else 0)
            (ep_budget p) (mm_hashes_to_schedule p) (num_embeds_to_schedule p), true)
  else
  let start_idx_rel := Z.max 0 (num_computed_tokens - start_pos) in
  let end_idx_rel := Z.min num_encoder_tokens (num_computed_tokens + num_new_tokens - start_pos) in
  idx ← lift_result (get_embeds_indices_in_range (mm_position mm_feature) start_idx_rel end_idx_rel);
  if (snd idx - fst idx =? 0)%Z then mret (p, false)
  else
    mret (mkEncoderPlan (encoder_inputs_to_schedule p ++ [i]) num_new_tokens
            (ep_budget p - num_encoder_embeds) (mm_hashes_to_schedule p ∪ {[item_identifier]})
            (num_embeds_to_schedule p + num_encoder_embeds), false).

Fixpoint encoder_loop (r : Request) (num_computed_tokens shift_computed_tokens : Z) (is_ : list Z) (p : EncoderPlan)
    : SM EncoderPlan :=
  match is_ with
  | [] => mret p
  | i :: is_ =>
      pb ← try_encoder_input r num_computed_tokens shift_computed_tokens i p;
      if (snd pb : bool) then mret (fst pb) else encoder_loop r num_computed_tokens shift_computed_tokens is_ (fst pb)
  end.

(** Returns the inputs to schedule, the number of new tokens and the budget left. *)
Definition _try_schedule_encoder_inputs (r : Request) (num_computed_tokens num_new_tokens encoder_compute_budget
    shift_computed_tokens : Z) : SM (list Z * Z * Z) :=
  if (num_new_tokens =? 0) || negb (has_encoder_inputs r) then mret ([], num_new_tokens, encoder_compute_budget)
  else
    s ← get;
    let '(lo, hi) := get_mm_features_in_window (mm_features r) num_computed_tokens
                       (num_computed_tokens + num_new_tokens + shift_computed_tokens) in
    let lo := if is_encoder_decoder (config s) then O else lo in
    p ← encoder_loop r num_computed_tokens shift_computed_tokens (zrange (Z.of_nat lo) (Z.of_nat hi))
          (mkEncoderPlan [] num_new_tokens encoder_compute_budget ∅ 0);
    mret (encoder_inputs_to_schedule p, ep_num_new_tokens p, ep_budget p).

(** ** Block-aligned prefill chunks *)

Definition _mamba_block_aligned_split (c : SchedulerConfig) (r : Request) (num_new_tokens num_new_local_computed_tokens
    num_external_computed_tokens num_uncached_common_prefix_tokens : Z) : Z :=
  let num_computed := num_computed_tokens r + num_new_local_computed_tokens + num_external_computed_tokens in
  if num_computed <? Z.max (num_prompt_tokens r) (num_tokens r - 1) then
    let block_size := cache_block_size c in
    let last_cache_position := num_tokens r - num_tokens r mod block_size in
    let last_cache_position :=
      if sc_use_eagle c then Z.max (last_cache_position - block_size) 0 else last_cache_position in
    let after := num_computed + num_new_tokens in
    let num_new_tokens :=
      if after <? last_cache_position then num_new_tokens / block_size * block_size
      else if (num_computed <? last_cache_position) && (last_cache_position <? after)
           then last_cache_position - num_computed
           else num_new_tokens in
    if (block_size <=? num_uncached_common_prefix_tokens) && (num_uncached_common_prefix_tokens <? num_new_tokens)
    then num_uncached_common_prefix_tokens / block_size * block_size
    else num_new_tokens
  else num_new_tokens.

Section scheduler.
Context `{HashConfig} `{SetOrder} `{StructuredOutput}.
(** The hasher every request was created with. *)
Context (block_hasher : option (Request → result (list bytes * Request))).

(** ** Queues *)

Definition _is_blocked_waiting_status (st : RequestStatus) : bool :=
  bool_decide (st ∈ [WAITING_FOR_STRUCTURED_OUTPUT_GRAMMAR; WAITING_FOR_REMOTE_KVS; WAITING_FOR_STREAMING_REQ]).

Definition _enqueue_waiting_request (rid : string) : SM unit :=
  r ← deref rid;
  if _is_blocked_waiting_status (status r)
  then modify (λ s, s_set_skipped_waiting (add_request (req_order s) rid (skipped_waiting s)) s)
  else modify (λ s, s_set_waiting (add_request (req_order s) rid (waiting s)) s).

(** A reference to one of the two waiting queues. *)
Inductive WhichQueue := InWaiting | InSkipped.
Definition the_queue (w : WhichQueue) (s : Scheduler) : RequestQueue string :=
  match w with InWaiting => waiting s | InSkipped => skipped_waiting s end.
Definition set_queue (w : WhichQueue) (q : RequestQueue string) (s : Scheduler) : Scheduler :=
  match w with InWaiting => s_set_waiting q s | InSkipped => s_set_skipped_waiting q s end.
Definition queue_pop (w : WhichQueue) : SM string :=
  s ← get;
  xq ← lift_result (pop_request (req_order s) (the_queue w s));
  _ ← modify (set_queue w (snd xq));
  mret (fst xq).

Definition _select_waiting_queue_for_scheduling : SM (option WhichQueue) :=
  s ← get;
  let w := queue_bool (waiting s) in
  let k := queue_bool (skipped_waiting s) in
  if bool_decide (policy (config s) = FCFS) then
    mret (if k then Some InSkipped else if w then Some InWaiting else None)
  else if w && k then
    waiting_req ← lift_result (peek_request (waiting s));
    skipped_req ← lift_result (peek_request (skipped_waiting s));
    mret (Some (if req_order s waiting_req skipped_req then InWaiting else InSkipped))
  else mret (if w then Some InWaiting else if k then Some InSkipped else None).

(** Without a connector no transfer ever finishes, so a request waiting for remote
    KVs is never promoted. *)
Definition _try_promote_blocked_waiting_request (rid : string) : SM bool :=
  r ← deref rid;
  match status r with
  | WAITING_FOR_REMOTE_KVS => mret false
  | WAITING_FOR_STRUCTURED_OUTPUT_GRAMMAR =>
      if negb (grammar_ready r) then mret false
      else _ ← mutate rid (req_set_status WAITING); mret true
  | WAITING_FOR_STREAMING_REQ =>
      _ ← py_assert (bool_decide (default [] (streaming_queue r) = [])); mret false
  | _ => raise AssertionError
  end.

(** ** Preemption *)

Definition _preempt_request (rid : string) : SM unit :=
  r ← deref rid;
  _ ← py_assert (bool_decide (status r = RUNNING));
  _ ← on_kv (km_free r);
  _ ← encoder_free r;
  _ ← modify (λ s, s_set_inflight_prefills (_inflight_prefills s ∖ {[rid]}) s);
  s ← get;
  _ ← mutate rid (λ r,
        let r := req_set_status PREEMPTED r in
        let r := req_set_num_computed_tokens 0 r in
        let r := req_set_spec_token_ids [] r in
        let r := req_set_num_preemptions (num_preemptions r + 1) r in
        if sc_log_stats (config s) then record_event PREEMPTED_EVENT r else r);
  modify (λ s, s_set_waiting (prepend_request (req_order s) rid (waiting s)) s).

(** ** Streaming sessions *)

(** The request half of [_update_request_as_session]. *)
Definition session_update (log : bool) (u : StreamingUpdate) (r : Request) : result Request :=
  let num_computed := num_computed_tokens r in
  let kept_output_tokens := py_slice (_all_token_ids r) (num_prompt_tokens r) num_computed in
  let r := req_set_all_token_ids (py_slice (_all_token_ids r) 0 num_computed) r in
  let r := req_set_output_token_ids [] r in
  match prompt_token_ids r with
  | None => Err AssertionError
  | Some toks =>
      let toks := toks ++ kept_output_tokens in
      let base := num_tokens r in
      let shifted := (λ f, mkMultiModalFeatureSpec (mm_identifier f)
                        (mkPlaceholderRange (pr_offset (mm_position f) + base) (pr_length (mm_position f))
                           (pr_is_embed (mm_position f)))) <$> su_mm_features u in
      let r := req_set_mm_features (mm_features r ++ shifted) r in
      let new := default [] (su_prompt_token_ids u) in
      let r := req_set_all_token_ids (_all_token_ids r ++ new) r in
      let toks := toks ++ new in
      let r := req_set_prompt_token_ids (Some toks) r in
      r ← update_block_hashes block_hasher r;
      let r := req_set_num_prompt_tokens (zlen toks) r in
      let r := req_set_arrival_time (su_arrival_time u) r in
      let r := req_set_sampling_params (su_sampling_params u) r in
      let r := req_set_status WAITING r in
      Ok (if log then record_event QUEUED r else r)
  end.

Definition _update_request_as_session (rid : string) (u : StreamingUpdate) : SM unit :=
  r ← deref rid;
  s ← get;
  r' ← lift_result (session_update (sc_log_stats (config s)) u r);
  _ ← (if bool_decide (status r = WAITING_FOR_STREAMING_REQ)
       then modify (λ s, s_set_num_waiting_for_streaming_input (num_waiting_for_streaming_input s - 1) s)
       else mret tt);
  set_obj rid r'.

(** Whether the request is really finished. *)
Definition _handle_stopped_request (rid : string) : SM bool :=
  r ← deref rid;
  if negb (resumable r) then mret true
  else
    match default [] (streaming_queue r) with
    | None :: rest => _ ← mutate rid (req_set_streaming_queue (Some rest)); mret true
    | Some update :: rest =>
        _ ← mutate rid (req_set_streaming_queue (Some rest));
        _ ← _update_request_as_session rid update;
        _ ← _enqueue_waiting_request rid;
        mret false
    | [] =>
        _ ← mutate rid (req_set_status WAITING_FOR_STREAMING_REQ);
        _ ← modify (λ s, s_set_num_waiting_for_streaming_input (num_waiting_for_streaming_input s + 1) s);
        _ ← _enqueue_waiting_request rid;
        mret false
    end.

(** ** Finishing requests *)

Definition _free_blocks (rid : string) : SM unit :=
  r ← deref rid;
  _ ← py_assert (is_finished r);
  _ ← on_kv (km_free r);
  modify (λ s, s_set_requests (dict_del (requests s) rid) s).

Definition _free_request (rid : string) (delay_free_blocks : bool) : SM unit :=
  r ← deref rid;
  _ ← py_assert (is_finished r);
  _ ← modify (λ s, s_set_inflight_prefills (_inflight_prefills s ∖ {[rid]}) s);
  _ ← encoder_free r;
  _ ← modify (λ s, s_set_finished_req_ids (finished_req_ids s ∪ {[rid]}) s);
  _ ← modify (λ s, match finished_req_ids_dict s with
                   | None => s
                   | Some d =>
                       let ids := default ∅ (dict_get d (client_index r)) ∪ {[rid]} in
                       s_set_finished_req_ids_dict (Some (dict_set d (client_index r) ids)) s
                   end);
  if delay_free_blocks then mret tt else _free_blocks rid.

(** The first pass of [finish_requests] over the ids: the valid requests, those in
    [running] and the others. *)
Fixpoint collect_requests (ids valid run wait : list string) : SM (list string * list string * list string) :=
  match ids with
  | [] => mret (valid, run, wait)
  | rid :: ids =>
      s ← get;
      match dict_get (requests s) rid with
      | None => collect_requests ids valid run wait
      | Some r =>
          if is_finished r then collect_requests ids valid run wait
          else if bool_decide (status r = RUNNING) then collect_requests ids (valid ++ [rid]) (run ++ [rid]) wait
          else
            _ ← (if bool_decide (status r = WAITING_FOR_STREAMING_REQ)
                 then modify (λ s, s_set_num_waiting_for_streaming_input (num_waiting_for_streaming_input s - 1) s)
                 else mret tt);
            collect_requests ids (valid ++ [rid]) run (wait ++ [rid])
      end
  end.

(** [request_ids] is the iterated sequence, without repetition; [None] means all. *)
Definition finish_requests (request_ids : option (list string)) (finished_status : RequestStatus) : SM (list (string * Z)) :=
  _ ← py_assert (status_is_finished finished_status);
  s ← get;
  collected ← collect_requests (default (fst <$> requests s) request_ids) [] [] [];
  let '(valid, run, wait) := collected in
  _ ← modify (λ s, s_set_running (remove_all (running s) run) s);
  _ ← (if bool_decide (wait = []) then mret tt
       else
         _ ← modify (λ s, s_set_waiting (remove_requests (req_order s) wait (waiting s)) s);
         modify (λ s, s_set_skipped_waiting (remove_requests (req_order s) wait (skipped_waiting s)) s));
  s ← get;
  aborted ← lift_result (foldr (λ rid acc, r ← obj s rid; xs ← acc; Ok ((rid, client_index r) :: xs)) (Ok []) valid);
  _ ← forM valid (λ rid,
        r ← deref rid;
        let delay_free_blocks := bool_decide (status r = WAITING_FOR_REMOTE_KVS) in
        _ ← mutate rid (req_set_status finished_status);
        _free_request rid delay_free_blocks);
  mret aborted.

(** ** New requests *)

Definition add_request_to_scheduler (r : Request) : SM unit :=
  let rid := request_id r in
  s ← get;
  match dict_get (requests s) rid with
  | Some existing =>
      let update := update_from_request r in
      if negb (bool_decide (status existing = WAITING_FOR_STREAMING_REQ)) then
        match streaming_queue existing with
        | None => raise AssertionError
        | Some q => set_obj rid (req_set_streaming_queue (Some (q ++ [update])) existing)
        end
      else
        match update with
        | Some u => _update_request_as_session rid u
        | None => _ ← finish_requests (Some [rid]) FINISHED_ABORTED; mret tt
        end
  | None =>
      let r := if resumable r then req_set_streaming_queue (Some []) r else r in
      _ ← set_obj rid r;
      _ ← _enqueue_waiting_request rid;
      if sc_log_stats (config s) then mutate rid (record_event QUEUED) else mret tt
  end.

(** ** Output tokens *)

(** [Scheduler._update_request_with_output]: append one token at a time and stop at
    the first stop condition; returns the tokens kept. *)
Fixpoint append_until_stop (max_model_len : Z) (new_token_ids : list Z) (kept : list Z) (r : Request)
    : result (list Z * bool * Request) :=
  match new_token_ids with
  | [] => Ok (kept, false, r)
  | t :: ts =>
      r ← append_output_token_ids block_hasher [t] r;
      '(stopped, r) ← check_stop max_model_len r;
      if (stopped : bool) then Ok (kept ++ [t], true, r) else append_until_stop max_model_len ts (kept ++ [t]) r
  end.

Definition base_update_request_with_output (rid : string) (new_token_ids : list Z) : SM (list Z * bool) :=
  s ← get;
  r ← deref rid;
  res ← lift_result (append_until_stop (sc_max_model_len (config s)) new_token_ids [] r);
  let '(kept, stopped, r) := res in
  _ ← set_obj rid r;
  mret (kept, stopped).

(** [AsyncScheduler._update_request_with_output] *)
Definition async_update_request_with_output (rid : string) (new_token_ids : list Z) : SM (list Z * bool) :=
  r ← deref rid;
  if 0 <? async_tokens_to_discard r then
    _ ← mutate rid (λ r, req_set_async_tokens_to_discard (async_tokens_to_discard r - 1) r);
    mret ([], false)
  else
    let status_before_update := status r in
    kept ← base_update_request_with_output rid new_token_ids;
    _ ← mutate rid (λ r, req_set_num_output_placeholders (num_output_placeholders r - zlen (fst kept)) r);
    r ← deref rid;
    _ ← py_assert (0 <=? num_output_placeholders r);
    _ ← (if bool_decide (status_before_update = RUNNING)
         then on_kv (km_cache_blocks r (num_computed_tokens r - num_output_placeholders r))
         else mret tt);
    mret kept.

Definition _update_request_with_output (rid : string) (new_token_ids : list Z) : SM (list Z * bool) :=
  s ← get;
  if async_scheduling (config s) then async_update_request_with_output rid new_token_ids
  else base_update_request_with_output rid new_token_ids.

Definition _free_encoder_inputs (rid : string) : SM unit :=
  r ← deref rid;
  s ← get;
  ids ← encoder_cached_ids r;
  forM (iter_set ids) (λ input_id,
    mm_feature ← lift_result (py_index (mm_features r) input_id);
    let start_pos := pr_offset (mm_position mm_feature) in
    let n := pr_length (mm_position mm_feature) in
    if is_encoder_decoder (config s) && (0 <? num_computed_tokens r) then encoder_free_input r input_id
    else if start_pos + n <=? num_computed_tokens r - num_output_placeholders r then encoder_free_input r input_id
    else mret tt).

(** ** Bookkeeping *)

Definition set_pause_state (p : PauseState) : SM unit := modify (s_set_pause_state p).

Definition get_request_counts (s : Scheduler) : Z * Z :=
  (zlen (running s), queue_len (waiting s) + queue_len (skipped_waiting s)).

Definition get_num_unfinished_requests (s : Scheduler) : Z :=
  match _pause_state s with
  | PAUSED_ALL => 0
  | PAUSED_NEW => zlen (running s)
  | UNPAUSED =>
      queue_len (waiting s) + queue_len (skipped_waiting s) - num_waiting_for_streaming_input s + zlen (running s)
  end.

Definition has_finished_requests (s : Scheduler) : bool := bool_decide (finished_req_ids s ≠ ∅).
Definition has_requests (s : Scheduler) : bool := (0 <? get_num_unfinished_requests s) || has_finished_requests s.

(** The loop [while self.running] of [reset_prefix_cache]; [running] shrinks. *)
Fixpoint preempt_all (fuel : nat) : SM unit :=
  s ← get;
  match fuel, last (running s) with
  | S fuel, Some rid =>
      _ ← modify (λ s, s_set_running (removelast (running s)) s);
      _ ← _preempt_request rid;
      _ ← mutate rid (λ r, req_set_num_output_placeholders 0
                             (req_set_async_tokens_to_discard (num_output_placeholders r) r));
      preempt_all fuel
  | _, _ => mret tt
  end.

Definition scheduler_reset_prefix_cache (reset_running_requests reset_connector : bool) : SM bool :=
  _ ← (if reset_running_requests then
         s ← get;
         _ ← preempt_all (length (running s));
         modify (s_set_prev_step_scheduled_req_ids ∅)
       else mret tt);
  reset_successful ← on_kv km_reset_prefix_cache;
  if reset_running_requests && negb reset_successful then raise RuntimeError
  else mret reset_successful.

Definition reset_encoder_cache : SM unit := on_encoder ec_reset ed_reset.

(** [update_draft_token_ids]; [validate] is the grammar's [validate_tokens]. *)
Definition update_draft_token_ids (validate : Request → list Z → list Z) (drafts : list (string * list Z)) : SM unit :=
  forM drafts (λ '(rid, spec_token_ids),
    s ← get;
    match dict_get (requests s) rid with
    | None => mret tt
    | Some r =>
        if is_finished r then mret tt
        else if is_prefill_chunk r then set_obj rid (req_set_spec_token_ids [] r)
        else set_obj rid (req_set_spec_token_ids
               (if should_advance r then validate r spec_token_ids else spec_token_ids) r)
    end).
End scheduler.
