(* ===== verification/Schedule.v ===== *)
(** * One scheduling step

    Models [Scheduler.schedule] and [_update_after_schedule] (with the override of
    [AsyncScheduler]) in [vllm/v1/core/sched/scheduler.py] and [async_scheduler.py],
    and the output records of [output.py]. The local variables of [schedule] are the
    record [Step]; its two loops become bounded recursions whose bounds (the number
    of running and of waiting requests, plus one) are proved sufficient. *)

From Stdlib Require Import ZArith Lia.
From S2P Require Import Prelude MathUtils KVSpec FreeQueue Request BlockHash BlockPool SingleType Coordinator KVCacheManager RequestQueue EncoderCache SchedUtils Scheduler.
Local Open Scope Z_scope.

(** ** Outputs *)

Record NewRequestData := mkNewRequestData {
  nr_req_id : string;
  nr_prompt_token_ids : option (list Z);
  nr_mm_features : list MultiModalFeatureSpec;
  nr_sampling_params : option SamplingParams;
  nr_pooling_params : option PoolingParams;
  nr_block_ids : option (list (list Z));
  nr_num_computed_tokens : Z;
  nr_lora_request : option LoRARequest;
  nr_prompt_embeds : option (list bytes);
  nr_prefill_token_ids : option (list Z)
}.

Definition new_request_data (r : Request) (block_ids : option (list (list Z))) (prefill : option (list Z)) : NewRequestData :=
  mkNewRequestData (request_id r) (prompt_token_ids r) (mm_features r) (sampling_params r) (pooling_params r)
    block_ids (num_computed_tokens r) (lora_request r) (prompt_embeds r) prefill.

Record CachedRequestData := mkCachedRequestData {
  cr_req_ids : list string;
  cr_resumed_req_ids : gset string;
  cr_new_token_ids : list (list Z);
  cr_all_token_ids : list (string * list Z);
  cr_new_block_ids : list (option (list (list Z)));
  cr_num_computed_tokens : list Z;
  cr_num_output_tokens : list Z
}.

Record SchedulerOutput := mkSchedulerOutput {
  so_new_reqs : list NewRequestData;
  so_cached_reqs : CachedRequestData;
  so_num_scheduled_tokens : list (string * Z);
  so_total_num_scheduled_tokens : Z;
  so_scheduled_spec_decode_tokens : list (string * list Z);
  so_scheduled_encoder_inputs : list (string * list Z);
  so_num_common_prefix_blocks : list Z;
  so_preempted_req_ids : gset string;
  so_finished_req_ids : gset string;
  so_free_encoder_mm_hashes : list string;
  so_new_block_ids_to_zero : option (list Z);
  so_has_structured_output_requests : bool;
  so_pending_structured_output_tokens : bool
}.

(** ** Local variables *)

Record Step := mkStep {
  scheduled_new_reqs : list string;
  scheduled_resumed_reqs : list string;
  scheduled_running_reqs : list string;
  preempted_reqs : list string;
  req_to_new_blocks : list (string * KVCacheBlocks);
  num_scheduled_tokens : list (string * Z);
  token_budget : Z;
  scheduled_encoder_inputs : list (string * list Z);
  encoder_compute_budget : Z;
  scheduled_spec_decode_tokens : list (string * list Z);
  req_index : Z;
  scheduled_loras : gset Z;
  step_skipped_waiting : RequestQueue string
}.

Definition t_set_scheduled_new_reqs (v : list string) (r : Step) : Step :=
  mkStep v (scheduled_resumed_reqs r) (scheduled_running_reqs r) (preempted_reqs r)
    (req_to_new_blocks r) (num_scheduled_tokens r) (token_budget r)
    (scheduled_encoder_inputs r) (encoder_compute_budget r) (scheduled_spec_decode_tokens r)
    (req_index r) (scheduled_loras r) (step_skipped_waiting r).
Definition t_set_scheduled_resumed_reqs (v : list string) (r : Step) : Step :=
  mkStep (scheduled_new_reqs r) v (scheduled_running_reqs r) (preempted_reqs r)
    (req_to_new_blocks r) (num_scheduled_tokens r) (token_budget r)
    (scheduled_encoder_inputs r) (encoder_compute_budget r) (scheduled_spec_decode_tokens r)
    (req_index r) (scheduled_loras r) (step_skipped_waiting r).
Definition t_set_scheduled_running_reqs (v : list string) (r : Step) : Step :=
  mkStep (scheduled_new_reqs r) (scheduled_resumed_reqs r) v (preempted_reqs r)
    (req_to_new_blocks r) (num_scheduled_tokens r) (token_budget r)
    (scheduled_encoder_inputs r) (encoder_compute_budget r) (scheduled_spec_decode_tokens r)
    (req_index r) (scheduled_loras r) (step_skipped_waiting r).
Definition t_set_preempted_reqs (v : list string) (r : Step) : Step :=
  mkStep (scheduled_new_reqs r) (scheduled_resumed_reqs r) (scheduled_running_reqs r) v
    (req_to_new_blocks r) (num_scheduled_tokens r) (token_budget r)
    (scheduled_encoder_inputs r) (encoder_compute_budget r) (scheduled_spec_decode_tokens r)
    (req_index r) (scheduled_loras r) (step_skipped_waiting r).
Definition t_set_req_to_new_blocks (v : list (string * KVCacheBlocks)) (r : Step) : Step :=
  mkStep (scheduled_new_reqs r) (scheduled_resumed_reqs r) (scheduled_running_reqs r)
    (preempted_reqs r) v (num_scheduled_tokens r) (token_budget r) (scheduled_encoder_inputs
    r) (encoder_compute_budget r) (scheduled_spec_decode_tokens r) (req_index r)
    (scheduled_loras r) (step_skipped_waiting r).
Definition t_set_num_scheduled_tokens (v : list (string * Z)) (r : Step) : Step :=
  mkStep (scheduled_new_reqs r) (scheduled_resumed_reqs r) (scheduled_running_reqs r)
    (preempted_reqs r) (req_to_new_blocks r) v (token_budget r) (scheduled_encoder_inputs r)
    (encoder_compute_budget r) (scheduled_spec_decode_tokens r) (req_index r)
    (scheduled_loras r) (step_skipped_waiting r).
Definition t_set_token_budget (v : Z) (r : Step) : Step :=
  mkStep (scheduled_new_reqs r) (scheduled_resumed_reqs r) (scheduled_running_reqs r)
    (preempted_reqs r) (req_to_new_blocks r) (num_scheduled_tokens r) v
    (scheduled_encoder_inputs r) (encoder_compute_budget r) (scheduled_spec_decode_tokens r)
    (req_index r) (scheduled_loras r) (step_skipped_waiting r).
Definition t_set_scheduled_encoder_inputs (v : list (string * list Z)) (r : Step) : Step :=
  mkStep (scheduled_new_reqs r) (scheduled_resumed_reqs r) (scheduled_running_reqs r)
    (preempted_reqs r) (req_to_new_blocks r) (num_scheduled_tokens r) (token_budget r) v
    (encoder_compute_budget r) (scheduled_spec_decode_tokens r) (req_index r)
    (scheduled_loras r) (step_skipped_waiting r).
Definition t_set_encoder_compute_budget (v : Z) (r : Step) : Step :=
  mkStep (scheduled_new_reqs r) (scheduled_resumed_reqs r) (scheduled_running_reqs r)
    (preempted_reqs r) (req_to_new_blocks r) (num_scheduled_tokens r) (token_budget r)
    (scheduled_encoder_inputs r) v (scheduled_spec_decode_tokens r) (req_index r)
    (scheduled_loras r) (step_skipped_waiting r).
Definition t_set_scheduled_spec_decode_tokens (v : list (string * list Z)) (r : Step) : Step :=
  mkStep (scheduled_new_reqs r) (scheduled_resumed_reqs r) (scheduled_running_reqs r)
    (preempted_reqs r) (req_to_new_blocks r) (num_scheduled_tokens r) (token_budget r)
    (scheduled_encoder_inputs r) (encoder_compute_budget r) v (req_index r) (scheduled_loras
    r) (step_skipped_waiting r).
Definition t_set_req_index (v : Z) (r : Step) : Step :=
  mkStep (scheduled_new_reqs r) (scheduled_resumed_reqs r) (scheduled_running_reqs r)
    (preempted_reqs r) (req_to_new_blocks r) (num_scheduled_tokens r) (token_budget r)
    (scheduled_encoder_inputs r) (encoder_compute_budget r) (scheduled_spec_decode_tokens r)
    v (scheduled_loras r) (step_skipped_waiting r).
Definition t_set_scheduled_loras (v : gset Z) (r : Step) : Step :=
  mkStep (scheduled_new_reqs r) (scheduled_resumed_reqs r) (scheduled_running_reqs r)
    (preempted_reqs r) (req_to_new_blocks r) (num_scheduled_tokens r) (token_budget r)
    (scheduled_encoder_inputs r) (encoder_compute_budget r) (scheduled_spec_decode_tokens r)
    (req_index r) v (step_skipped_waiting r).
Definition t_set_step_skipped_waiting (v : RequestQueue string) (r : Step) : Step :=
  mkStep (scheduled_new_reqs r) (scheduled_resumed_reqs r) (scheduled_running_reqs r)
    (preempted_reqs r) (req_to_new_blocks r) (num_scheduled_tokens r) (token_budget r)
    (scheduled_encoder_inputs r) (encoder_compute_budget r) (scheduled_spec_decode_tokens r)
    (req_index r) (scheduled_loras r) v.

Definition new_step (c : SchedulerConfig) (p : PauseState) : Step :=
  mkStep [] [] [] [] [] [] (if bool_decide (p = PAUSED_ALL) then 0 else max_num_scheduled_tokens c) []
    (max_num_encoder_input_tokens c) [] 0 ∅ (create_request_queue (policy c)).

Abbreviation TM := (M (Scheduler * Step)).
Definition sch {A} (f : SM A) : TM A := zoom fst (λ s p, (s, snd p)) f.
Definition getS : TM Scheduler := gets fst.
Definition getT : TM Step := gets snd.
Definition modT (f : Step → Step) : TM unit := modify (λ p, (fst p, f (snd p))).

Section schedule.
Context `{HashConfig} `{SetOrder} `{StructuredOutput}.

(** ** Running requests *)

(** [max(self.running, key=lambda r: (r.priority, r.arrival_time))]: the first of the
    largest. *)
Fixpoint lowest_priority (s : Scheduler) (best : string) (l : list string) : string :=
  match l with
  | [] => best
  | rid :: l =>
      let a := obj_of s best in
      let b := obj_of s rid in
      let larger := (priority a <? priority b) ||
                    ((priority a =? priority b) && (arrival_time a <? arrival_time b)) in
      lowest_priority s (if larger then rid else best) l
  end.

(** The step without request [rid], of [n] tokens and [restored] encoder tokens. *)
Definition undone (rid : string) (rest : list string) (n restored : Z) (t : Step) : Step :=
  let t := t_set_scheduled_running_reqs rest t in
  let t := t_set_token_budget (token_budget t + n) t in
  let t := t_set_num_scheduled_tokens (dict_del (num_scheduled_tokens t) rid) t in
  let t := t_set_req_to_new_blocks (dict_del (req_to_new_blocks t) rid) t in
  let t := t_set_scheduled_spec_decode_tokens (dict_del (scheduled_spec_decode_tokens t) rid) t in
  let t := t_set_scheduled_encoder_inputs (dict_del (scheduled_encoder_inputs t) rid) t in
  let t := t_set_encoder_compute_budget (encoder_compute_budget t + restored) t in
  t_set_req_index (req_index t - 1) t.

(** Undo what this step had scheduled for a preempted request. *)
Definition unschedule (rid : string) : TM unit :=
  t ← getT;
  s ← getS;
  match list_remove (scheduled_running_reqs t) rid, dict_get (num_scheduled_tokens t) rid,
        dict_get (req_to_new_blocks t) rid with
  | Some rest, Some n, Some _ =>
      restored ← lift_result (foldr (λ i acc, r ← obj s rid; n ← get_num_encoder_embeds r i; m ← acc; Ok (n + m)) (Ok 0)
                   (default [] (dict_get (scheduled_encoder_inputs t) rid)));
      modT (undone rid rest n restored)
  | None, _, _ => mret tt
  | _, _, _ => raise KeyError
  end.

(** Choose the request to preempt and take it out of [running]. *)
Definition take_victim : TM string :=
  s ← getS;
  match running s with
  | [] => raise IndexError
  | first :: others =>
      if bool_decide (policy (config s) = PRIORITY) then
        let victim := lowest_priority s first others in
        _ ← sch (modify (λ s, s_set_running (default (running s) (list_remove (running s) victim)) s));
        _ ← unschedule victim;
        mret victim
      else
        _ ← sch (modify (λ s, s_set_running (removelast (running s)) s));
        mret (default first (last (running s)))
  end.

(** The [while True] loop around [allocate_slots]: preempt until the request fits or
    is itself the victim. Every round shortens [running]. *)
Fixpoint allocate_or_preempt (fuel : nat) (rid : string) (num_new_tokens : Z) : TM (option KVCacheBlocks) :=
  match fuel with
  | O => raise RuntimeError
  | S fuel =>
      s ← getS;
      r ← sch (deref rid);
      new_blocks ← sch (on_kv (allocate_slots r num_new_tokens 0 None (num_lookahead_tokens (config s)) 0 false 0 false 0 true));
      match new_blocks with
      | Some b => mret (Some b)
      | None =>
          victim ← take_victim;
          _ ← sch (_preempt_request victim);
          _ ← modT (λ t, t_set_preempted_reqs (preempted_reqs t ++ [victim]) t);
          if bool_decide (victim = rid) then mret None else allocate_or_preempt fuel rid num_new_tokens
      end
  end.

(** How many tokens of a running request to compute, before encoder inputs. *)
Definition running_num_new_tokens (c : SchedulerConfig) (token_budget : Z) (r : Request) : Z :=
  let n := num_tokens_with_spec r + num_output_placeholders r - num_computed_tokens r in
  let n := if (0 <? long_prefill_token_threshold c) && (long_prefill_token_threshold c <? n)
           then long_prefill_token_threshold c else n in
  let n := Z.min n token_budget in
  Z.min n (sc_max_model_len c - num_computed_tokens r - num_sampled_tokens_per_step c).

(** Requests that have surely reached their token limit, or are not yet eligible. *)
Definition skip_running (s : Scheduler) (r : Request) : bool :=
  ((0 <? num_output_placeholders r) &&
   (num_prompt_tokens r + max_tokens r <=? num_computed_tokens r + 2 - num_output_placeholders r))
  || (current_step s <? next_decode_eligible_step r).

(** Speculative tokens of the request that are part of this step. *)
Definition note_spec_tokens (rid : string) (num_new_tokens : Z) : TM unit :=
  r ← sch (deref rid);
  match spec_token_ids r with
  | [] => mret tt
  | spec =>
      let n := num_new_tokens + num_computed_tokens r - num_tokens r - num_output_placeholders r in
      _ ← (if 0 <? n then
             modT (λ t, t_set_scheduled_spec_decode_tokens
                          (dict_set (scheduled_spec_decode_tokens t) rid
                             (if n <? zlen spec then py_slice spec 0 n else spec)) t)
           else mret tt);
      sch (mutate rid (req_set_spec_token_ids []))
  end.

(** Allocate the encoder cache for the inputs of this step. *)
Definition note_encoder_inputs (rid : string) (inputs : list Z) (new_budget : Z) : TM unit :=
  match inputs with
  | [] => mret tt
  | _ =>
      r ← sch (deref rid);
      _ ← modT (λ t, t_set_scheduled_encoder_inputs (dict_set (scheduled_encoder_inputs t) rid inputs) t);
      _ ← forM inputs (λ i, sch (encoder_allocate r i));
      modT (t_set_encoder_compute_budget new_budget)
  end.

(** The step with the running request [rid]. *)
Definition note_running (rid : string) (b : KVCacheBlocks) (num_new_tokens : Z) (t : Step) : Step :=
  let t := t_set_scheduled_running_reqs (scheduled_running_reqs t ++ [rid]) t in
  let t := t_set_req_to_new_blocks (dict_set (req_to_new_blocks t) rid b) t in
  let t := t_set_num_scheduled_tokens (dict_set (num_scheduled_tokens t) rid num_new_tokens) t in
  let t := t_set_token_budget (token_budget t - num_new_tokens) t in
  t_set_req_index (req_index t + 1) t.

(** The body of the first loop; [false] means [break]. *)
Definition schedule_running (rid : string) : TM bool :=
  s ← getS;
  t ← getT;
  r ← sch (deref rid);
  let c := config s in
  if skip_running s r then _ ← modT (λ t, t_set_req_index (req_index t + 1) t); mret true
  else
    let num_new_tokens := running_num_new_tokens c (token_budget t) r in
    plan ← (if has_encoder_inputs r
            then sch (_try_schedule_encoder_inputs r (num_computed_tokens r) num_new_tokens (encoder_compute_budget t)
                        (if sc_use_eagle c then 1 else 0))
            else mret ([], num_new_tokens, encoder_compute_budget t));
    let '(inputs, num_new_tokens, new_budget) := plan in
    let num_new_tokens :=
      if need_mamba_block_aligned_split c then _mamba_block_aligned_split c r num_new_tokens 0 0 0
      else num_new_tokens in
    if num_new_tokens =? 0 then _ ← modT (λ t, t_set_req_index (req_index t + 1) t); mret true
    else
      s ← getS;
      new_blocks ← allocate_or_preempt (S (length (running s))) rid num_new_tokens;
      match new_blocks with
      | None => mret false
      | Some b =>
          _ ← modT (note_running rid b num_new_tokens);
          _ ← note_spec_tokens rid num_new_tokens;
          _ ← note_encoder_inputs rid inputs new_budget;
          mret true
      end.

Fixpoint running_loop (fuel : nat) : TM unit :=
  s ← getS;
  t ← getT;
  if (req_index t <? zlen (running s)) && (0 <? token_budget t) then
    match fuel with
    | O => raise RuntimeError
    | S fuel =>
        rid ← lift_result (py_index (running s) (req_index t));
        go_on ← schedule_running rid;
        if (go_on : bool) then running_loop fuel else mret tt
    end
  else mret tt.

(** [set(req.lora_request.lora_int_id for req in scheduled_running_reqs if ...)] *)
Definition running_loras (s : Scheduler) (l : list string) : gset Z :=
  list_to_set (omap (λ rid, match lora_request (obj_of s rid) with
                            | Some lr => if 0 <? lora_int_id lr then Some (lora_int_id lr) else None
                            | None => None
                            end) l).

(** ** Waiting requests *)

(** Put the request at the head of queue [w] aside for this step. *)
Definition skip_waiting (w : WhichQueue) (rid : string) : TM unit :=
  _ ← sch (queue_pop w);
  s ← getS;
  modT (λ t, t_set_step_skipped_waiting (prepend_request (req_order s) rid (step_skipped_waiting t)) t).

Definition lora_blocked (c : SchedulerConfig) (loras : gset Z) (r : Request) : bool :=
  match max_loras c, lora_request r with
  | Some m, Some lr => (Z.of_nat (base.size loras) =? m) && negb (bool_decide (lora_int_id lr ∈ loras))
  | _, _ => false
  end.

(** Cached tokens of a waiting request: blocks, locally cached tokens, the hint of
    the hybrid coordinator, and all computed tokens. *)
Definition lookup_computed (rid : string) : TM (KVCacheBlocks * Z * Z * Z) :=
  r ← sch (deref rid);
  if num_computed_tokens r =? 0 then
    hit ← sch (on_kv (get_computed_blocks (hit_fuel (num_tokens r - 1)) r));
    match hit with
    | None => raise RuntimeError
    | Some (new_computed_blocks, num_local) =>
        s ← getS;
        let hint := if sc_has_mamba_layers (config s)
                    then num_uncached_common_prefix_tokens (coordinator (kv_cache_manager s)) else 0 in
        _ ← py_assert (num_local <=? num_tokens r);
        _ ← match prefill_stats r with
            | None => mret tt
            | Some _ =>
                _ ← py_assert (num_local <=? num_prompt_tokens r);
                stats ← lift_result (prefill_stats_set (num_prompt_tokens r) num_local 0);
                sch (mutate rid (req_set_prefill_stats (Some stats)))
            end;
        mret (new_computed_blocks, num_local, hint, num_local)
    end
  else mret (TheEmpty, 0, 0, num_computed_tokens r).

(** The blocks and tokens of an admitted request. *)
Definition note_admitted (rid : string) (b : KVCacheBlocks) (num_new_tokens : Z) (t : Step) : Step :=
  let t := t_set_req_to_new_blocks (dict_set (req_to_new_blocks t) rid b) t in
  let t := t_set_num_scheduled_tokens (dict_set (num_scheduled_tokens t) rid num_new_tokens) t in
  t_set_token_budget (token_budget t - num_new_tokens) t.

(** The part of the body from the allocated blocks on. *)
Definition admit_waiting (w : WhichQueue) (rid : string) (num_computed num_new_tokens : Z) (inputs : list Z)
    (new_budget : Z) : TM unit :=
  rid ← sch (queue_pop w);
  r ← sch (deref rid);
  _ ← sch (modify (λ s, s_set_running (running s ++ [rid]) s));
  s ← getS;
  _ ← (if sc_log_stats (config s) then sch (mutate rid (record_event SCHEDULED)) else mret tt);
  _ ← match status r with
      | WAITING => modT (λ t, t_set_scheduled_new_reqs (scheduled_new_reqs t ++ [rid]) t)
      | PREEMPTED => modT (λ t, t_set_scheduled_resumed_reqs (scheduled_resumed_reqs t ++ [rid]) t)
      | _ => raise RuntimeError
      end;
  _ ← match max_loras (config s), lora_request r with
      | Some _, Some lr => modT (λ t, t_set_scheduled_loras (scheduled_loras t ∪ {[lora_int_id lr]}) t)
      | _, _ => mret tt
      end;
  _ ← modT (note_admitted rid (km_get_blocks (kv_cache_manager s) rid) num_new_tokens);
  _ ← sch (mutate rid (λ r, req_set_num_computed_tokens num_computed (req_set_status RUNNING r)));
  _ ← (if num_computed + num_new_tokens <? num_tokens r
       then sch (modify (λ s, s_set_inflight_prefills (_inflight_prefills s ∪ {[rid]}) s)) else mret tt);
  note_encoder_inputs rid inputs new_budget.

(** The body of the second loop; [false] means [break]. *)
Definition schedule_waiting : TM bool :=
  which ← sch _select_waiting_queue_for_scheduling;
  match which with
  | None => raise AssertionError
  | Some w =>
      s ← getS;
      rid ← lift_result (peek_request (the_queue w s));
      r ← sch (deref rid);
      blocked ← (if _is_blocked_waiting_status (status r)
                 then promoted ← sch (_try_promote_blocked_waiting_request rid); mret (negb promoted)
                 else mret false);
      t ← getT;
      let c := config s in
      if (blocked : bool) || lora_blocked c (scheduled_loras t) r then _ ← skip_waiting w rid; mret true
      else
        computed ← lookup_computed rid;
        let '(new_computed_blocks, num_local, hint, num_computed) := computed in
        r ← sch (deref rid);
        let num_new_tokens := num_tokens r - num_computed in
        let num_new_tokens :=
          if (0 <? long_prefill_token_threshold c) && (long_prefill_token_threshold c <? num_new_tokens)
          then long_prefill_token_threshold c else num_new_tokens in
        if negb (enable_chunked_prefill c) && (token_budget t <? num_new_tokens) then mret false
        else
        let num_new_tokens := Z.min num_new_tokens (token_budget t) in
        _ ← py_assert (0 <? num_new_tokens);
        plan ← (if has_encoder_inputs r
                then sch (_try_schedule_encoder_inputs r num_computed num_new_tokens (encoder_compute_budget t)
                            (if sc_use_eagle c then 1 else 0))
                else mret ([], num_new_tokens, encoder_compute_budget t));
        let '(inputs, num_new_tokens, new_budget) := plan in
        if has_encoder_inputs r && (num_new_tokens =? 0) then mret false
        else
        let num_new_tokens :=
          if need_mamba_block_aligned_split c then _mamba_block_aligned_split c r num_new_tokens num_local 0 hint
          else num_new_tokens in
        if need_mamba_block_aligned_split c && (num_new_tokens =? 0) then mret false
        else
        num_encoder_tokens ←
          (if is_encoder_decoder c && has_encoder_inputs r
           then lift_result (foldr (λ i acc, n ← get_num_encoder_embeds r i; m ← acc; Ok (n + m)) (Ok 0) inputs)
           else mret 0);
        s ← getS;
        new_blocks ← sch (on_kv (allocate_slots r num_new_tokens num_local (Some new_computed_blocks)
                           (num_lookahead_tokens c) 0 false num_encoder_tokens (scheduler_reserve_full_isl c) 0
                           (bool_decide (running s ≠ []))));
        match new_blocks with
        | None => _ ← (if has_encoder_inputs r then sch (encoder_free r) else mret tt); mret false
        | Some _ => _ ← admit_waiting w rid num_computed num_new_tokens inputs new_budget; mret true
        end
  end.

Fixpoint waiting_loop (fuel : nat) : TM unit :=
  s ← getS;
  t ← getT;
  if (queue_bool (waiting s) || queue_bool (skipped_waiting s)) && (0 <? token_budget t) then
    if zlen (running s) =? max_num_running_reqs (config s) then mret tt
    else
      match fuel with
      | O => raise RuntimeError
      | S fuel => go_on ← schedule_waiting; if (go_on : bool) then waiting_loop fuel else mret tt
      end
  else mret tt.

(** ** The output *)

Definition blocks_ids (s : Scheduler) (b : KVCacheBlocks) (allow_none : bool) : option (list (list Z)) :=
  get_block_ids (pool_heap (km_pool (kv_cache_manager s))) (num_kv_cache_groups (kv_cache_manager s)) b allow_none.

Definition dict_at {V} (d : list (string * V)) (k : string) : result V :=
  match dict_get d k with Some v => Ok v | None => Err KeyError end.

(** One iteration of [_make_cached_request_data]; [resumed] is [idx >= num_running_reqs]. *)
Definition cached_request_row (s : Scheduler) (t : Step) (resumed : bool) (rid : string)
    (d : CachedRequestData) : result CachedRequestData :=
  r ← obj s rid;
  new_tokens ← (if use_pp (config s) && negb (async_scheduling (config s)) then
                  n ← dict_at (num_scheduled_tokens t) rid;
                  let n := n - zlen (default [] (dict_get (scheduled_spec_decode_tokens t) rid)) in
                  Ok (cr_new_token_ids d ++ [py_slice (_all_token_ids r) (num_computed_tokens r) (num_computed_tokens r + n)])
                else Ok (cr_new_token_ids d));
  let scheduled_in_prev_step := bool_decide (rid ∈ prev_step_scheduled_req_ids s) in
  _ ← (if resumed && scheduled_in_prev_step then Err AssertionError else Ok tt);
  b ← dict_at (req_to_new_blocks t) rid;
  Ok (mkCachedRequestData (cr_req_ids d ++ [rid])
        (if resumed then cr_resumed_req_ids d ∪ {[rid]} else cr_resumed_req_ids d)
        new_tokens
        (if scheduled_in_prev_step then cr_all_token_ids d else dict_set (cr_all_token_ids d) rid (_all_token_ids r))
        (cr_new_block_ids d ++ [blocks_ids s b true])
        (cr_num_computed_tokens d ++ [num_computed_tokens r])
        (cr_num_output_tokens d ++ [num_output_tokens r + num_output_placeholders r])).

Definition _make_cached_request_data (s : Scheduler) (t : Step) (running_reqs resumed_reqs : list string) : result CachedRequestData :=
  foldl (λ acc '(resumed, rid), d ← acc; cached_request_row s t resumed rid d)
    (Ok (mkCachedRequestData [] ∅ [] [] [] [] []))
    ((pair false <$> running_reqs) ++ (pair true <$> resumed_reqs)).

Definition new_reqs_data (s : Scheduler) (t : Step) (reqs : list string) (with_tokens : bool) : result (list NewRequestData) :=
  result_map (λ rid, r ← obj s rid; b ← dict_at (req_to_new_blocks t) rid;
    Ok (new_request_data r (blocks_ids s b false) (if with_tokens then Some (_all_token_ids r) else None))) reqs.

(** [Scheduler._update_after_schedule] *)
Definition advance_computed (rid : string) (n : Z) (structured : bool) : SM bool :=
  r ← deref rid;
  let r := req_set_num_computed_tokens (num_computed_tokens r + n) r in
  let chunk := num_computed_tokens r <? num_tokens r + num_output_placeholders r in
  let r := req_set_is_prefill_chunk chunk r in
  _ ← set_obj rid r;
  _ ← (if chunk then mret tt else modify (λ s, s_set_inflight_prefills (_inflight_prefills s ∖ {[rid]}) s));
  mret (structured || (use_structured_output r && negb chunk)).

Fixpoint advance_all (l : list (string * Z)) (structured : bool) : SM bool :=
  match l with
  | [] => mret structured
  | (rid, n) :: l => b ← advance_computed rid n structured; advance_all l b
  end.

(** [AsyncScheduler._update_after_schedule], after the base class. *)
Definition add_placeholders (spec : list (string * list Z)) (rid : string) (pending : bool) : SM bool :=
  r ← deref rid;
  s ← get;
  if is_prefill_chunk r then mret pending
  else
    let pending := pending || (use_structured_output r && (0 <? num_output_placeholders r)) in
    let n := zlen (default [] (dict_get spec rid)) in
    let r := req_set_num_output_placeholders
               (num_output_placeholders r + (num_sampled_tokens_per_step (config s) + n)) r in
    let r := req_set_spec_token_ids (replicate (Z.to_nat (num_spec_tokens (config s))) (-1)) r in
    let r := if use_v2_model_runner (config s)
             then req_set_next_decode_eligible_step (current_step s + pp_size (config s)) r else r in
    _ ← set_obj rid r;
    mret pending.

Fixpoint placeholders_all (spec : list (string * list Z)) (l : list (string * Z)) (pending : bool) : SM bool :=
  match l with
  | [] => mret pending
  | (rid, _) :: l => b ← add_placeholders spec rid pending; placeholders_all spec l b
  end.

Definition _update_after_schedule (o : SchedulerOutput) : SM SchedulerOutput :=
  structured ← advance_all (so_num_scheduled_tokens o) (so_has_structured_output_requests o);
  _ ← modify (s_set_finished_req_ids ∅);
  s ← get;
  pending ← (if async_scheduling (config s)
             then placeholders_all (so_scheduled_spec_decode_tokens o) (so_num_scheduled_tokens o)
                    (so_pending_structured_output_tokens o)
             else mret (so_pending_structured_output_tokens o));
  mret (mkSchedulerOutput (so_new_reqs o) (so_cached_reqs o) (so_num_scheduled_tokens o)
          (so_total_num_scheduled_tokens o) (so_scheduled_spec_decode_tokens o) (so_scheduled_encoder_inputs o)
          (so_num_common_prefix_blocks o) (so_preempted_req_ids o) (so_finished_req_ids o)
          (so_free_encoder_mm_hashes o) (so_new_block_ids_to_zero o) structured pending).

(** The two scheduling passes. *)
Definition schedule_requests : TM unit :=
  s ← getS;
  _ ← running_loop (S (length (running s)));
  s ← getS;
  t ← getT;
  _ ← match max_loras (config s) with
      | None => mret tt
      | Some m =>
          let loras := running_loras s (scheduled_running_reqs t) in
          _ ← modT (t_set_scheduled_loras loras);
          py_assert (Z.of_nat (base.size loras) <=? m)
      end;
  if bool_decide (preempted_reqs t = []) && bool_decide (_pause_state s = UNPAUSED) then
    _ ← waiting_loop (S (Z.to_nat (queue_len (waiting s) + queue_len (skipped_waiting s))));
    s ← getS;
    t ← getT;
    if queue_bool (step_skipped_waiting t) then
      q ← lift_result (prepend_requests (req_order s) (step_skipped_waiting t) (skipped_waiting s));
      sch (modify (s_set_skipped_waiting q))
    else mret tt
  else mret tt.

Definition total_scheduled (t : Step) : Z := zsum (num_scheduled_tokens t).*2.

(** The assertions on the result of the two passes. *)
Definition check_constraints (s : Scheduler) (t : Step) : bool :=
  (total_scheduled t <=? max_num_scheduled_tokens (config s)) && (0 <=? token_budget t)
  && (zlen (running s) <=? max_num_running_reqs (config s))
  && (zlen (scheduled_new_reqs t) + zlen (scheduled_resumed_reqs t) + zlen (scheduled_running_reqs t) <=? zlen (running s)).

(** Everything after the two passes, up to [_update_after_schedule]. *)
Definition build_output (t : Step) : SM SchedulerOutput :=
  s ← get;
  _ ← py_assert (check_constraints s t);
  common ← match running s with
           | [] => mret (replicate (num_groups (config s)) 0)
           | rid :: _ => on_kv (km_get_num_common_prefix_blocks rid)
           end;
  s ← get;
  let v2 := use_v2_model_runner (config s) in
  let new_reqs := if v2 then scheduled_new_reqs t ++ scheduled_resumed_reqs t else scheduled_new_reqs t in
  let resumed := if v2 then [] else scheduled_resumed_reqs t in
  new_data ← lift_result (new_reqs_data s t new_reqs v2);
  cached ← lift_result (_make_cached_request_data s t (scheduled_running_reqs t) resumed);
  _ ← modify (s_set_prev_step_scheduled_req_ids (list_to_set (num_scheduled_tokens t).*1));
  zero ← (if sc_needs_kv_cache_zeroing (config s)
          then ids ← on_kv km_take_new_block_ids; mret (if bool_decide (ids = []) then None else Some ids)
          else mret None);
  hashes ← encoder_freed_hashes;
  s ← get;
  mret (mkSchedulerOutput new_data cached (num_scheduled_tokens t) (total_scheduled t)
          (scheduled_spec_decode_tokens t) (scheduled_encoder_inputs t) common
          (list_to_set (preempted_reqs t)) (finished_req_ids s) hashes zero false false).

Definition schedule : SM SchedulerOutput :=
  _ ← modify (λ s, s_set_current_step (current_step s + 1) s);
  _ ← on_kv km_new_step_starts;
  s ← get;
  match schedule_requests (s, new_step (config s) (_pause_state s)) with
  | Err e => raise e
  | Ok (_, (s, t)) =>
      _ ← put s;
      o ← build_output t;
      _update_after_schedule o
  end.
End schedule.
