(* ===== verification/UpdateOutput.v ===== *)
(** * Processing the model's output

    Models [Scheduler.update_from_output] in [vllm/v1/core/sched/scheduler.py] for a
    scheduler without connectors, routed experts and statistics: rejected draft
    tokens, freeing encoder inputs, new tokens and stop conditions, grammar
    rejections, finished requests and the outputs per client.

    Of the log-probabilities only which requests have them for their prompt is modelled,
    since that is asserted of; their values, those of the sampled tokens and the counts
    of NaNs are handed on to the outputs and left out. *)

From Stdlib Require Import ZArith Lia.
From S2P Require Import Prelude MathUtils KVSpec FreeQueue Request BlockHash BlockPool SingleType Coordinator KVCacheManager RequestQueue EncoderCache SchedUtils Scheduler Schedule.
Local Open Scope Z_scope.

(** The part of the runner's output that is read; [mo_pooler_output] tells for each
    request whether it has a pooling result, [mo_prompt_logprobs] the requests with
    log-probabilities of their prompt. *)
Record ModelRunnerOutput := mkModelRunnerOutput {
  mo_req_id_to_index : list (string * Z);
  mo_sampled_token_ids : list (list Z);
  mo_pooler_output : list bool;
  mo_prompt_logprobs : list string
}.

Record EngineCoreOutput := mkEngineCoreOutput {
  eo_request_id : string;
  eo_new_token_ids : list Z;
  eo_pooling_output : bool;
  eo_prompt_logprobs : bool;
  eo_finish_reason : option FinishReason;
  eo_stop_reason : option StopReason;
  eo_events : option (list EngineCoreEvent);
  eo_prefill_stats : option PrefillStats
}.

(** The local variables of the loop: outputs per client and the stopped requests. *)
Record UpdateStep := mkUpdateStep {
  up_outputs : list (Z * list EngineCoreOutput);
  stopped_running_reqs : list string;
  stopped_preempted_reqs : list string
}.

Section update.
Context `{HashConfig} `{SetOrder} `{StructuredOutput}.
Context (block_hasher : option (Request → result (list bytes * Request))).

(** Draft tokens that were not accepted are not computed. *)
Definition reject_drafts (rid : string) (num_draft_tokens num_generated : Z) : SM unit :=
  s ← get;
  let num_accepted := Z.max (num_generated - num_sampled_tokens_per_step (config s)) 0 in
  let num_rejected := num_draft_tokens - num_accepted in
  mutate rid (λ r,
    let r := if 0 <? num_computed_tokens r then req_set_num_computed_tokens (num_computed_tokens r - num_rejected) r else r in
    if 0 <? num_output_placeholders r
    then req_set_num_output_placeholders (num_output_placeholders r - num_rejected) r else r).

(** New tokens, or a pooling result, or a grammar rejection: the tokens kept and
    whether the request stops. *)
Definition take_tokens (rid : string) (generated : list Z) (pooled : bool) : SM (list Z * bool) :=
  r ← deref rid;
  res ← match generated with
        | _ :: _ => _update_request_with_output block_hasher rid generated
        | [] =>
            if bool_decide (pooling_params r ≠ None) && pooled
            then _ ← mutate rid (req_set_status FINISHED_STOPPED); mret ([], true)
            else mret ([], false)
        end;
  r ← deref rid;
  if bool_decide (fst res ≠ []) && should_advance r then
    _ ← py_assert (structured_output_request r);
    _ ← py_assert (grammar_ready r);
    if accept_tokens r (fst res) then mret res
    else
      _ ← mutate rid (λ r, req_set_resumable false (req_set_status FINISHED_ERROR r));
      mret (fst res, true)
  else mret res.

Definition add_output (client : Z) (o : EngineCoreOutput) (u : UpdateStep) : UpdateStep :=
  mkUpdateStep (dict_set (up_outputs u) client (default [] (dict_get (up_outputs u) client) ++ [o]))
    (stopped_running_reqs u) (stopped_preempted_reqs u).

(** What is left of a stopped request: it is freed, or a streaming session goes on. *)
Definition settle_stopped (rid : string) (status_before_stop : RequestStatus) (u : UpdateStep)
    : SM (option FinishReason * Request * UpdateStep) :=
  r ← deref rid;
  let finish_reason := get_finished_reason (status r) in
  finished ← _handle_stopped_request block_hasher rid;
  r ← deref rid;
  _ ← (if (finished : bool) then _free_request rid false else mret tt);
  mret (finish_reason, r,
        if bool_decide (status_before_stop = RUNNING)
        then mkUpdateStep (up_outputs u) (stopped_running_reqs u ++ [rid]) (stopped_preempted_reqs u)
        else mkUpdateStep (up_outputs u) (stopped_running_reqs u) (stopped_preempted_reqs u ++ [rid])).

(** The body of the loop over [num_scheduled_tokens]. *)
Definition update_one (o : SchedulerOutput) (mo : ModelRunnerOutput) (rid : string) (num_tokens_scheduled : Z)
    (u : UpdateStep) : SM UpdateStep :=
  _ ← py_assert (0 <? num_tokens_scheduled);
  s ← get;
  match dict_get (requests s) rid with
  | None => mret u
  | Some r =>
      if is_finished r then mret u
      else
        idx ← lift_result (dict_at (mo_req_id_to_index mo) rid);
        generated ← (match mo_sampled_token_ids mo with [] => mret [] | l => lift_result (py_index l idx) end);
        let drafts := default [] (dict_get (so_scheduled_spec_decode_tokens o) rid) in
        _ ← (if bool_decide (drafts ≠ [])
                && (bool_decide (generated ≠ []) || (num_sampled_tokens_per_step (config s) =? 0))
             then reject_drafts rid (zlen drafts) (zlen generated) else mret tt);
        _ ← (if has_encoder_inputs r then _free_encoder_inputs rid else mret tt);
        pooled ← (match mo_pooler_output mo with [] => mret false | l => lift_result (py_index l idx) end);
        res ← take_tokens rid generated pooled;
        let '(new_token_ids, stopped) := res in
        settled ← (if (stopped : bool) then settle_stopped rid (status r) u
                   else r ← deref rid; mret (None, r, u));
        let '(finish_reason, r, u) := settled in
        let prompt_logprobs := bool_decide (rid ∈ mo_prompt_logprobs mo) in
        if bool_decide (new_token_ids ≠ []) || pooled || stopped then
          let '(events, r) := take_events r in
          let '(stats, r) := take_prefill_stats r in
          s ← get;
          _ ← (if bool_decide (dict_get (requests s) rid = None) then mret tt else set_obj rid r);
          mret (add_output (client_index r)
                  (mkEngineCoreOutput rid new_token_ids pooled prompt_logprobs finish_reason (stop_reason r) events stats) u)
        else _ ← py_assert (negb prompt_logprobs); mret u
  end.

Fixpoint update_loop (o : SchedulerOutput) (mo : ModelRunnerOutput) (l : list (string * Z)) (u : UpdateStep) : SM UpdateStep :=
  match l with
  | [] => mret u
  | (rid, n) :: l => u ← update_one o mo rid n u; update_loop o mo l u
  end.

(** The outputs of each client and the requests it has to forget. *)
Definition EngineCoreOutputs : Type := list EngineCoreOutput * option (gset string).

Definition update_from_output (o : SchedulerOutput) (mo : ModelRunnerOutput) : SM (list (Z * EngineCoreOutputs)) :=
  u ← update_loop o mo (so_num_scheduled_tokens o) (mkUpdateStep [] [] []);
  _ ← modify (λ s, s_set_running (remove_all (running s) (stopped_running_reqs u)) s);
  _ ← (match stopped_preempted_reqs u with
       | [] => mret tt
       | l => modify (λ s, s_set_waiting (remove_requests (req_order s) l (waiting s)) s)
       end);
  _ ← on_kv km_take_events;
  s ← get;
  let outs := (λ '(c, os), (c, (os, None))) <$> up_outputs u in
  match finished_req_ids_dict s with
  | None => mret outs
  | Some d =>
      _ ← modify (s_set_finished_req_ids_dict (Some []));
      mret (foldl (λ outs '(c, ids), dict_set outs c (fst (default ([], None) (dict_get outs c)), Some ids)) outs d)
  end.
End update.
