(* ===== verification/SchedulerSpec.v ===== *)
(** * The scheduler's invariant

    What the scheduler relies on of the KV-cache manager, as the interface
    [KVContract]; the invariant of the scheduler between steps and inside the two
    loops of [schedule]; and the lemmas on the object store, the queues and
    preemption. The requests considered are text requests (no encoder inputs), and
    LoRA limits are not configured. *)

From Stdlib Require Import ZArith Lia.
From S2P Require Import Prelude MathUtils KVSpec FreeQueue Request BlockHash BlockPool SingleType Coordinator KVCacheManager RequestQueue EncoderCache SchedUtils Scheduler Schedule.
Local Open Scope Z_scope.

(** Run a statement that reads the local variables. *)
Ltac tstep := mstep; cbn [fst snd].

(** ** What scheduling leaves alone

    A request without the fields that [schedule] changes. *)

Definition content (r : Request) : Request :=
  req_set_status WAITING (req_set_spec_token_ids [] (req_set_num_computed_tokens 0 (req_set_num_preemptions 0
    (req_set_events [] (req_set_prefill_stats ((λ _, new_prefill_stats) <$> prefill_stats r)
    (req_set_is_prefill_chunk false (req_set_num_output_placeholders 0
    (req_set_next_decode_eligible_step 0 r)))))))).

Lemma content_idem r : content (content r) = content r.
Proof. destruct r as [? ? ? ? ? ? ? ? ? ? ? ? ? ? ? ? ? ? ? ? ? ? ? ? ? ? ? ? ? ? o ?]. vm_compute. by destruct o. Qed.
Lemma content_id r r' : content r = content r' → request_id r = request_id r'.
Proof. intros Hc. exact (f_equal request_id Hc). Qed.
Lemma content_tokens r r' : content r = content r' → num_tokens r = num_tokens r'.
Proof. intros Hc. exact (f_equal num_tokens Hc). Qed.

(** ** The interface of the KV-cache manager *)

(** How a manager is seen: that it is in order, that a request's blocks have slots for
    its first [n] tokens, that a request holds nothing, that a request can be cached
    and looked up, and that a hit was found for it. [kv_hasher] hashes the blocks of the
    requests. *)
Class KVView := {
  kv_hasher : option (Request → result (list bytes * Request));
  kv_ok : KVCacheManager → Prop;
  kv_slots : KVCacheManager → string → Z → Prop;
  kv_vacant : KVCacheManager → string → Prop;
  kv_ready : Request → Prop;
  kv_hit : KVCacheManager → Request → KVCacheBlocks → Z → Prop
}.

(** What is known of the requests in [P] stays true. *)
Definition kv_keeps `{KVView} (P : string → Prop) (k k' : KVCacheManager) : Prop :=
  ∀ rid, P rid → (∀ n, kv_slots k rid n → kv_slots k' rid n) ∧ (kv_vacant k rid → kv_vacant k' rid).

Class KVContract `{HashConfig} `{KVView} (max_len : Z) : Prop := {
  kc_content r r' : content r = content r' → kv_ready r → kv_ready r';
  kc_stats r : kv_ready r → kv_ready (req_set_prefill_stats None r);
  kc_append x r : kv_ready r →
    ∃ r', append_output_token_ids kv_hasher [x] r = Ok r' ∧ kv_ready r' ∧ appended [x] r r';
  kc_events k : kv_ok k →
    ∃ es k', km_take_events k = Ok (es, k') ∧ kv_ok k' ∧ kv_keeps (λ _, True) k k';
  kc_reset k : kv_ok k → (∀ rid, kv_vacant k rid) →
    ∃ k', km_reset_prefix_cache k = Ok (true, k') ∧ kv_ok k' ∧ kv_keeps (λ _, True) k k';
  kc_fewer k rid m n : kv_slots k rid n → m ≤ n → kv_slots k rid m;
  kc_new_step k : kv_ok k →
    ∃ k', km_new_step_starts k = Ok (tt, k') ∧ kv_ok k' ∧ kv_keeps (λ _, True) k k';
  kc_take_ids k : kv_ok k →
    ∃ ids k', km_take_new_block_ids k = Ok (ids, k') ∧ kv_ok k' ∧ kv_keeps (λ _, True) k k';
  kc_common k rid : kv_ok k →
    ∃ l k', km_get_num_common_prefix_blocks rid k = Ok (l, k') ∧ kv_ok k' ∧ kv_keeps (λ _, True) k k';
  kc_free k r : kv_ok k →
    ∃ k', km_free r k = Ok (tt, k') ∧ kv_ok k' ∧ kv_keeps (λ x, x ≠ request_id r) k k' ∧ kv_vacant k' (request_id r);
  kc_running k r n ncb ahead must sched : default TheEmpty ncb = TheEmpty →
    kv_ok k → kv_ready r → kv_slots k (request_id r) (num_computed_tokens r) →
    0 ≤ num_computed_tokens r → 0 < n → 0 ≤ ahead → num_computed_tokens r + n ≤ max_len →
    ∃ res k', allocate_slots r n 0 ncb ahead 0 false 0 must 0 sched k = Ok (res, k')
      ∧ kv_ok k' ∧ kv_keeps (λ x, x ≠ request_id r) k k'
      ∧ kv_slots k' (request_id r) (num_computed_tokens r + match res with Some _ => n | None => 0 end);
  kc_lookup k r : kv_ok k → kv_ready r → kv_vacant k (request_id r) → num_computed_tokens r = 0 → 0 < num_tokens r →
    ∃ cached hit k', get_computed_blocks (hit_fuel (num_tokens r - 1)) r k = Ok (Some (cached, hit), k')
      ∧ kv_ok k' ∧ kv_keeps (λ _, True) k k' ∧ 0 ≤ hit < num_tokens r ∧ kv_hit k' r cached hit;
  kc_admit k r r' n cached hit ahead must sched :
    kv_ok k → kv_hit k r cached hit → content r = content r' → num_computed_tokens r' = 0 →
    0 < n → 0 ≤ ahead → hit + n ≤ max_len →
    ∃ res k', allocate_slots r' n hit (Some cached) ahead 0 false 0 must 0 sched k = Ok (res, k')
      ∧ kv_ok k' ∧ kv_keeps (λ x, x ≠ request_id r') k k'
      ∧ match res with
        | Some _ => kv_slots k' (request_id r') (hit + n)
        | None => kv_vacant k' (request_id r')
        end
}.

Lemma keeps_trans `{KVView} P k1 k2 k3 : kv_keeps P k1 k2 → kv_keeps P k2 k3 → kv_keeps P k1 k3.
Proof. intros H1 H2 rid Hp. destruct (H1 rid Hp), (H2 rid Hp). split; auto. Qed.
Lemma keeps_weaken `{KVView} (P Q : string → Prop) k k' : (∀ x, Q x → P x) → kv_keeps P k k' → kv_keeps Q k k'.
Proof. intros Hpq Hk rid Hq. apply Hk. by apply Hpq. Qed.

(** ** The object store *)

Abbreviation stored s rid r := (dict_get (requests s) rid = Some r).

Record store_ok (s : Scheduler) : Prop := {
  so_nodup : NoDup (requests s).*1;
  so_id rid r : stored s rid r → request_id r = rid
}.

Lemma store_ok_same s s' : requests s' = requests s → store_ok s → store_ok s'.
Proof. intros E [H1 H2]. split; by rewrite E. Qed.

Definition put_req (rid : string) (r : Request) (s : Scheduler) : Scheduler :=
  s_set_requests (dict_set (requests s) rid r) s.

Lemma deref_ok s rid r : stored s rid r → deref rid s = Ok (r, s).
Proof. intros Hr. unfold deref, obj. munfold. by rewrite Hr. Qed.
Lemma mutate_ok s rid r f : stored s rid r → mutate rid f s = Ok (tt, put_req rid (f r) s).
Proof. intros Hr. unfold mutate. by rewrite (bind_ok _ _ _ _ _ (deref_ok _ _ _ Hr)). Qed.
Lemma stored_put s rid r rid' :
  dict_get (requests (put_req rid r s)) rid' = if decide (rid' = rid) then Some r else dict_get (requests s) rid'.
Proof. unfold put_req. simpl. apply dict_get_set. Qed.
Lemma put_req_keys s rid r r0 : stored s rid r0 → (requests (put_req rid r s)).*1 = (requests s).*1.
Proof.
  intros Hr. unfold put_req. simpl. rewrite dict_set_keys, decide_True; [done|].
  apply dict_get_is_Some. by eexists.
Qed.
Lemma put_req_store s rid r r0 : store_ok s → stored s rid r0 → request_id r = rid → store_ok (put_req rid r s).
Proof.
  intros [H1 H2] Hr Hid. split; [by rewrite (put_req_keys _ _ _ _ Hr)|].
  intros x r'. rewrite stored_put. case_decide as Hx; [intros [= <-]; by subst|apply H2].
Qed.

(** ** The order of the queues *)

Lemma obj_of_id s rid : store_ok s → request_id (obj_of s rid) = rid.
Proof. intros [_ Hid]. unfold obj_of. destruct (dict_get (requests s) rid) eqn:E; [by apply Hid in E|done]. Qed.

Lemma order_total s : store_ok s → TotalOrder (req_order s).
Proof. intros Hs. apply request_lt_total_ids. intros a b. by rewrite !obj_of_id. Qed.

(** Stores with the same contents order references alike. *)
Definition same_contents (s s' : Scheduler) : Prop :=
  ∀ rid, content <$> dict_get (requests s) rid = content <$> dict_get (requests s') rid.

#[global] Instance same_contents_equiv : Equivalence same_contents.
Proof.
  split; [by intros s rid|intros s s' Hs rid; symmetry; apply Hs|]. intros s1 s2 s3 H1 H2 rid. by rewrite (H1 rid).
Qed.

Lemma same_contents_stored s s' rid r : same_contents s s' → stored s rid r →
  ∃ r', stored s' rid r' ∧ content r = content r'.
Proof.
  intros Hs Hr. specialize (Hs rid). rewrite Hr in Hs. destruct (dict_get (requests s') rid) as [r'|]; [|done].
  exists r'. split; [done|]. by apply (inj Some) in Hs.
Qed.

Lemma put_req_contents s rid r r0 : stored s rid r0 → content r = content r0 → same_contents s (put_req rid r s).
Proof. intros Hr Hc x. rewrite stored_put. case_decide as Hx; [|done]. subst. rewrite Hr. simpl. by rewrite Hc. Qed.

(** The order reads the contents of the two requests only. *)
Lemma order_at s s' a b :
  content (obj_of s a) = content (obj_of s' a) → content (obj_of s b) = content (obj_of s' b) →
  req_order s a b = req_order s' a b.
Proof.
  intros Ha Hb. unfold req_order, request_lt.
  change (priority (obj_of s a)) with (priority (content (obj_of s a))).
  change (priority (obj_of s b)) with (priority (content (obj_of s b))).
  change (arrival_time (obj_of s a)) with (arrival_time (content (obj_of s a))).
  change (arrival_time (obj_of s b)) with (arrival_time (content (obj_of s b))).
  change (request_id (obj_of s a)) with (request_id (content (obj_of s a))).
  change (request_id (obj_of s b)) with (request_id (content (obj_of s b))).
  by rewrite Ha, Hb.
Qed.

Lemma content_obj s s' x :
  content <$> dict_get (requests s) x = content <$> dict_get (requests s') x → content (obj_of s x) = content (obj_of s' x).
Proof.
  unfold obj_of. destruct (dict_get (requests s) x), (dict_get (requests s') x); try done; simpl. by intros ?%(inj Some).
Qed.

(** [q] is popped in the order [l], by the scheduler's policy. *)
Definition queued (s : Scheduler) (q : RequestQueue string) (l : list string) : Prop :=
  QueueSpec.repr (req_order s) (policy (config s)) q l.

(** A queue depends on the requests in it only. *)
Lemma queued_at s s' q l :
  (∀ x, x ∈ l → content <$> dict_get (requests s) x = content <$> dict_get (requests s') x) →
  config s' = config s → queued s q l → queued s' q l.
Proof.
  intros Hs Hc. unfold queued. rewrite Hc. apply repr_ext. intros a b Ha Hb.
  apply order_at; apply content_obj; by apply Hs.
Qed.
Lemma queued_contents s s' q l :
  same_contents s s' → config s' = config s → queued s q l → queued s' q l.
Proof. intros Hs. apply queued_at. intros x _. apply Hs. Qed.

Lemma queue_bool_queued s q l : queued s q l → queue_bool q = bool_decide (l ≠ []).
Proof.
  intros Hq. unfold queue_bool. rewrite (len_repr _ _ _ _ Hq). destruct l; [done|].
  rewrite zlen_cons, bool_decide_eq_true_2 by done. apply Z.ltb_lt. pose proof (zlen_nonneg l). lia.
Qed.

(** ** The invariant *)

Section invariant.
Context `{HC : HashConfig} `{SO : SetOrder} `{ST : StructuredOutput} `{KV : KVView} (max_len : Z) `{CT : !KVContract max_len}.
Implicit Types (c : SchedulerConfig) (k : KVCacheManager) (r : Request) (s : Scheduler) (t : Step).

Record config_ok c : Prop := {
  cf_len : sc_max_model_len c = max_len;
  cf_sampled : 0 ≤ num_sampled_tokens_per_step c;
  cf_ahead : 0 ≤ num_lookahead_tokens c;
  cf_budget : 0 ≤ max_num_scheduled_tokens c;
  cf_lora : max_loras c = None;
  cf_block : 0 < cache_block_size c
}.

(** A text request that leaves room for the tokens it will sample. *)
Record fits c r : Prop := {
  ft_tokens : 0 < num_tokens r;
  ft_room : num_tokens r + num_sampled_tokens_per_step c ≤ max_len;
  ft_text : mm_features r = [];
  ft_ready : kv_ready r;
  ft_stats : prefill_stats r ≠ None → num_tokens r ≤ num_prompt_tokens r
}.

Lemma fits_content c r r' : content r = content r' → fits c r → fits c r'.
Proof.
  intros Hc [H1 H2 H3 H4 H5].
  assert (num_tokens r' = num_tokens r) as Hn by (symmetry; by apply content_tokens).
  assert (mm_features r' = mm_features r) as Hm by (symmetry; exact (f_equal mm_features Hc)).
  assert (num_prompt_tokens r' = num_prompt_tokens r) as Hp by (symmetry; exact (f_equal num_prompt_tokens Hc)).
  assert ((λ _, new_prefill_stats) <$> prefill_stats r' = (λ _, new_prefill_stats) <$> prefill_stats r) as Hs
    by (symmetry; exact (f_equal prefill_stats Hc)).
  split; rewrite ?Hn, ?Hm, ?Hp; try done.
  - by eapply kc_content.
  - intros Hs'. apply H5. intros Hnone. rewrite Hnone in Hs. by destruct (prefill_stats r').
Qed.

(** Placeholders stand for tokens not known yet; only asynchronous scheduling has them. *)
Definition placeholders_ok c r : Prop :=
  0 ≤ num_output_placeholders r ∧ (async_scheduling c = false → num_output_placeholders r = 0).

(** The requests, token counts and draft tokens of this step. *)
Definition keys t : list string := (num_scheduled_tokens t).*1.
Definition due t rid : Z := default 0 (dict_get (num_scheduled_tokens t) rid).
Definition drafts (d : list (string * list Z)) rid : Z := zlen (default [] (dict_get d rid)).

(** A running request: its blocks have slots for its computed tokens and for those of
    this step. *)
Record run_ok c k t r : Prop := {
  rn_status : status r = RUNNING;
  rn_fits : fits c r;
  rn_computed : 0 ≤ num_computed_tokens r;
  rn_placeholders : placeholders_ok c r;
  rn_lag : num_computed_tokens r ≤ num_tokens r + num_output_placeholders r;
  rn_drafts : num_computed_tokens r + due t (request_id r)
    ≤ num_tokens r + num_output_placeholders r + drafts (scheduled_spec_decode_tokens t) (request_id r);
  rn_room : num_computed_tokens r + due t (request_id r) + num_sampled_tokens_per_step c ≤ max_len;
  rn_slots : kv_slots k (request_id r) (num_computed_tokens r + due t (request_id r))
}.

(** A waiting request holds nothing and starts over, or is a session that goes on.
    [P] holds of the requests that were preempted. *)
Record wait_ok c k (P : string → Prop) r : Prop := {
  wk_status : status r ∈ [WAITING; PREEMPTED; WAITING_FOR_STRUCTURED_OUTPUT_GRAMMAR; WAITING_FOR_STREAMING_REQ];
  wk_session : status r = WAITING_FOR_STREAMING_REQ → default [] (streaming_queue r) = [];
  wk_ready : status r ∈ [WAITING; PREEMPTED; WAITING_FOR_STRUCTURED_OUTPUT_GRAMMAR] → fits c r ∧ placeholders_ok c r ∧
    (num_computed_tokens r = 0 ∧ kv_vacant k (request_id r) ∨
     0 < num_computed_tokens r < num_tokens r ∧ kv_slots k (request_id r) (num_computed_tokens r));
  wk_prev : status r = PREEMPTED → P (request_id r)
}.

(** No encoder output is held, since no request has encoder inputs. *)
Definition encoder_idle s : Prop :=
  match encoder_cache_manager s with SharedCache e => request_cached_ids e = ∅ | EncDecCache _ => True end.

(** The invariant of the two loops of [schedule]. [ws], [ks] and [ss] are the contents
    of [waiting], [skipped_waiting] and [step_skipped_waiting]; [ids] and [budget] are
    the request store and the token budget at the start. *)
Record loop_inv c (prev : gset string) (ids : list (string * Request)) (budget : Z) s t (ws ks ss : list string) : Prop := {
  li_config : config s = c;
  li_prev : prev_step_scheduled_req_ids s = prev;
  li_store : store_ok s;
  li_kv : kv_ok (kv_cache_manager s);
  li_enc : encoder_idle s;
  li_waiting : queued s (waiting s) ws;
  li_skipped : queued s (skipped_waiting s) ks;
  li_aside : queued s (step_skipped_waiting t) ss;
  li_ids : (requests s).*1 = ids.*1;
  li_perm : running s ++ ws ++ ks ++ ss ≡ₚ ids.*1;
  li_run rid : rid ∈ running s → ∃ r, stored s rid r ∧ run_ok c (kv_cache_manager s) t r;
  li_wait rid : rid ∈ ws ++ ks ++ ss → ∃ r, stored s rid r ∧
    wait_ok c (kv_cache_manager s) (λ x, x ∉ prev ∨ x ∈ preempted_reqs t) r;
  li_nodup : NoDup (keys t);
  li_keys : keys t ≡ₚ scheduled_running_reqs t ++ scheduled_new_reqs t ++ scheduled_resumed_reqs t;
  li_sched rid : rid ∈ keys t → rid ∈ running s ∧ is_Some (dict_get (req_to_new_blocks t) rid);
  li_pos rid n : (rid, n) ∈ num_scheduled_tokens t → 0 < n;
  li_budget : token_budget t + zsum (num_scheduled_tokens t).*2 = budget;
  li_left : 0 ≤ token_budget t;
  li_limit : zlen (running s) ≤ max_num_running_reqs c;
  li_resumed rid : rid ∈ scheduled_resumed_reqs t → rid ∉ prev;
  li_inputs : scheduled_encoder_inputs t = [];
  li_preempted rid : rid ∈ preempted_reqs t → rid ∈ ws ++ ks ++ ss;
  li_same rid : content <$> dict_get (requests s) rid = content <$> dict_get ids rid;
  li_outside rid : rid ∉ ids.*1 → kv_vacant (kv_cache_manager s) rid;
  li_drafts rid : drafts (scheduled_spec_decode_tokens t) rid ≤ due t rid;
  li_spec : NoDup (scheduled_spec_decode_tokens t).*1
}.

(** ** Moving facts between states *)

Lemma run_ok_frame c k k' t t' r :
  run_ok c k t r → kv_keeps (λ x, x = request_id r) k k' →
  dict_get (num_scheduled_tokens t') (request_id r) = dict_get (num_scheduled_tokens t) (request_id r) →
  dict_get (scheduled_spec_decode_tokens t') (request_id r) = dict_get (scheduled_spec_decode_tokens t) (request_id r) →
  run_ok c k' t' r.
Proof.
  intros [H1 H2 H3 H4 H5 H6 H7 H8] Hk Hd Hsp. destruct (Hk (request_id r) eq_refl) as [Hs _].
  assert (due t' (request_id r) = due t (request_id r)) as Hdue by (unfold due; by rewrite Hd).
  split; unfold drafts; rewrite ?Hdue, ?Hsp; try done. by apply Hs.
Qed.

Lemma wait_ok_frame c k k' (P P' : string → Prop) r :
  wait_ok c k P r → kv_keeps (λ x, x = request_id r) k k' → (P (request_id r) → P' (request_id r)) → wait_ok c k' P' r.
Proof.
  intros [H1 H2 H3 H4] Hk HP. destruct (Hk (request_id r) eq_refl) as [Hs Hv]. split; [done|done| |auto].
  intros Hst. destruct (H3 Hst) as (Hf & Hp & [[? ?]|[? ?]]); (split; [done|]; split; [done|]); auto.
Qed.

Lemma loop_nodup c prev ids budget s t ws ks ss :
  loop_inv c prev ids budget s t ws ks ss → NoDup (running s ++ ws ++ ks ++ ss).
Proof. intros Hl. rewrite (li_perm _ _ _ _ _ _ _ _ _ Hl), <-(li_ids _ _ _ _ _ _ _ _ _ Hl). apply (li_store _ _ _ _ _ _ _ _ _ Hl). Qed.

Lemma loop_member c prev ids budget s t ws ks ss x :
  loop_inv c prev ids budget s t ws ks ss → x ∈ running s ++ ws ++ ks ++ ss → x ∈ ids.*1.
Proof. intros Hl. by rewrite (li_perm _ _ _ _ _ _ _ _ _ Hl). Qed.

Lemma on_kv_ok {A} (f : K A) s a k' :
  f (kv_cache_manager s) = Ok (a, k') → on_kv f s = Ok (a, s_set_kv_cache_manager k' s).
Proof. unfold on_kv, zoom. by intros ->. Qed.

Lemma set_encoder_same s : s_set_encoder_cache_manager (encoder_cache_manager s) s = s.
Proof. by destruct s. Qed.

Lemma encoder_free_idle s r : encoder_idle s → mm_features r = [] → encoder_free r s = Ok (tt, s).
Proof.
  unfold encoder_idle, encoder_free, on_encoder. intros He Hm. pose proof (set_encoder_same s) as Hset.
  destruct (encoder_cache_manager s) as [e|e].
  - assert (ec_free r e = Ok (tt, e)) as ->; [|by rewrite Hset].
    unfold ec_free. mstep. unfold get_cached_input_ids. rewrite He, lookup_empty. simpl.
    assert (iter_set ∅ = []) as ->; [|done]. apply Permutation_nil_r. rewrite iter_set_perm. by rewrite elements_empty.
  - unfold ed_free. rewrite Hm. simpl. by rewrite Hset.
Qed.

Lemma prepend_perm lt policy (x : string) l : QueueSpec.prepend lt policy x l ≡ₚ x :: l.
Proof. destruct policy; [done|]. apply insert_sorted_perm. Qed.

(** ** Preemption *)

Definition preempted_request (log : bool) r : Request :=
  let r := req_set_status PREEMPTED r in
  let r := req_set_num_computed_tokens 0 r in
  let r := req_set_spec_token_ids [] r in
  let r := req_set_num_preemptions (num_preemptions r + 1) r in
  if log then record_event PREEMPTED_EVENT r else r.

Lemma preempted_content log r : content (preempted_request log r) = content r.
Proof. by destruct log. Qed.

Lemma preempt_ok c prev ids budget s t ws ks ss victim run' :
  loop_inv c prev ids budget s t ws ks ss → running s ≡ₚ victim :: run' → victim ∉ keys t →
  ∃ s' ws', _preempt_request victim (s_set_running run' s) = Ok (tt, s')
    ∧ loop_inv c prev ids budget s' (t_set_preempted_reqs (preempted_reqs t ++ [victim]) t) ws' ks ss
    ∧ running s' = run' ∧ (∀ x, x ≠ victim → dict_get (requests s') x = dict_get (requests s) x).
Proof.
  intros Hl Hrun Hk. pose proof (loop_nodup _ _ _ _ _ _ _ _ _ Hl) as Hnd.
  assert (Hin : victim ∈ running s) by (rewrite Hrun; left).
  destruct (li_run _ _ _ _ _ _ _ _ _ Hl victim Hin) as (r & Hr & Hok).
  pose proof (so_id _ (li_store _ _ _ _ _ _ _ _ _ Hl) _ _ Hr) as Hid.
  destruct (kc_free (kv_cache_manager s) r (li_kv _ _ _ _ _ _ _ _ _ Hl)) as (k' & Ek & Hk' & Hkeep & Hvac).
  set (log := sc_log_stats (config s)).
  set (s3 := s_set_inflight_prefills (_inflight_prefills s ∖ {[victim]}) (s_set_kv_cache_manager k' (s_set_running run' s))).
  set (s4 := put_req victim (preempted_request log r) s3).
  assert (Hc4 : same_contents s s4) by (apply (put_req_contents s3 victim _ r); [done|apply preempted_content]).
  assert (Hst4 : store_ok s4).
  { apply (put_req_store s3 victim _ r); [|done|].
    - by apply (store_ok_same s), (li_store _ _ _ _ _ _ _ _ _ Hl).
    - rewrite <-Hid. apply content_id, preempted_content. }
  pose proof (order_total _ Hst4) as Hot.
  set (s' := s_set_waiting (prepend_request (req_order s4) victim (waiting s4)) s4).
  assert (Hq : ∀ q l, queued s q l → queued s4 q l) by (intros q l; by apply queued_contents).
  exists s', (QueueSpec.prepend (req_order s4) (policy (config s)) victim ws).
  split.
  { unfold _preempt_request. rewrite (bind_ok _ _ _ _ _ (deref_ok (s_set_running run' s) _ _ Hr)).
    rewrite (rn_status _ _ _ _ Hok). mstep. rewrite (bind_ok _ _ _ _ _ (on_kv_ok (km_free r) (s_set_running run' s) tt k' Ek)).
    rewrite (bind_ok _ _ _ _ _ (encoder_free_idle (s_set_kv_cache_manager k' (s_set_running run' s)) r
      (li_enc _ _ _ _ _ _ _ _ _ Hl) (ft_text _ _ (rn_fits _ _ _ _ Hok)))).
    mstep. mstep. rewrite (bind_ok _ _ _ _ _ (mutate_ok s3 _ _ _ Hr)). done. }
  destruct Hl as [L1 L2 L3 L4 L5 L6 L7 L8 L9 L10 L11 L12 L13 L14 L15 L16 L17 L18 L19 L20 L21 L22 L23 L24 L25 L26].
  assert (Hother : ∀ x, x ≠ victim → dict_get (requests s') x = dict_get (requests s) x).
  { intros x Hx. simpl. rewrite dict_get_set. by rewrite decide_False. }
  split; [|split; [done|done]].
  assert (Hkr : ∀ x, x ≠ victim → kv_keeps (λ y, y = x) (kv_cache_manager s) k').
  { intros x Hx. eapply keeps_weaken; [|exact Hkeep]. intros y ->. congruence. }
  assert (Hrun' : ∀ x, x ∈ run' → x ≠ victim ∧ x ∈ running s).
  { intros x Hx. split; [|rewrite Hrun; by right]. intros ->. apply NoDup_app in Hnd as [Hnd _].
    rewrite Hrun in Hnd. by apply NoDup_cons in Hnd as [? _]. }
  split; try done.
  - by apply (store_ok_same s4).
  - apply (Hq (waiting s) ws) in L6. by apply (prepend_repr (req_order s4) (policy (config s4))).
  - by apply (Hq _ _ L7).
  - by apply (Hq _ _ L8).
  - etrans; [apply (put_req_keys s3 victim (preempted_request log r) r Hr)|done].
  - simpl. rewrite prepend_perm. rewrite <-L10, Hrun. simpl. symmetry. apply Permutation_middle.
  - intros x Hx. destruct (Hrun' x Hx) as [Hne Hxs]. destruct (L11 x Hxs) as (rx & Hrx & Hokx).
    pose proof (so_id _ L3 _ _ Hrx) as Hidx. exists rx. rewrite Hother by done. split; [done|].
    eapply run_ok_frame; [done| |done|done]. rewrite Hidx. by apply Hkr.
  - intros x Hx. rewrite prepend_perm in Hx. simpl in Hx. apply elem_of_cons in Hx as [->|Hx].
    + exists (preempted_request log r). split; [simpl; rewrite dict_get_set; by rewrite decide_True|].
      pose proof (fits_content c _ _ (eq_sym (preempted_content log r)) (rn_fits _ _ _ _ Hok)) as Hf.
      split.
      * unfold preempted_request. destruct log; simpl; right; left.
      * unfold preempted_request. by destruct log.
      * intros _. split; [done|]. split; [by destruct log; apply (rn_placeholders _ _ _ _ Hok)|]. left. split; [by destruct log|].
        by rewrite (content_id _ _ (preempted_content log r)).
      * intros _. right. rewrite (content_id _ _ (preempted_content log r)), Hid. apply elem_of_app. right. left.
    + destruct (L12 x Hx) as (rx & Hrx & Hokx).
      pose proof (so_id _ L3 _ _ Hrx) as Hidx.
      assert (x ≠ victim) as Hne.
      { intros ->. apply NoDup_app in Hnd as (_ & Hd & _). by apply (Hd victim). }
      exists rx. rewrite Hother by done. split; [done|]. eapply wait_ok_frame; [done| |].
      * rewrite Hidx. by apply Hkr.
      * intros [?|?]; [by left|]. right. apply elem_of_app. by left.
  - intros x Hx. destruct (L15 x Hx) as [Hxr Hb]. split; [|done]. simpl. rewrite Hrun in Hxr.
    apply elem_of_cons in Hxr as [->|]; [done|done].
  - etrans; [|done]. unfold zlen. simpl. rewrite Hrun. simpl. lia.
  - intros x. rewrite prepend_perm. simpl. intros [Hx|Hx]%elem_of_app; [right; by apply L22|].
    apply list_elem_of_singleton in Hx as ->. left.
  - intros x. rewrite <-(L23 x). symmetry. apply Hc4.
  - intros x Hx. assert (x ≠ request_id r) as Hne.
    { rewrite Hid. intros ->. apply Hx. rewrite <-L10. apply elem_of_app. by left. }
    apply (Hkeep x Hne). by apply L24.
Qed.

(** ** Victims *)

Lemma dict_get_del_ne {V} (d : list (string * V)) (x y : string) : y ≠ x → dict_get (dict_del d x) y = dict_get d y.
Proof. intros Hne. induction d as [|[z v] d IH]; simpl; [done|]. repeat (case_decide; simpl); congruence || done. Qed.
Lemma dict_del_keys {V} (d : list (string * V)) rid : NoDup d.*1 →
  ∀ x, x ∈ (dict_del d rid).*1 ↔ x ∈ d.*1 ∧ x ≠ rid.
Proof.
  intros Hnd x. rewrite <-!dict_get_is_Some, dict_get_del by done. case_decide; naive_solver.
Qed.

Lemma undone_inv c prev ids budget s t ws ks ss rid rest n :
  loop_inv c prev ids budget s t ws ks ss → scheduled_new_reqs t = [] → scheduled_resumed_reqs t = [] →
  scheduled_running_reqs t ≡ₚ rid :: rest → dict_get (num_scheduled_tokens t) rid = Some n →
  loop_inv c prev ids budget s (undone rid rest n 0 t) ws ks ss.
Proof.
  intros [L1 L2 L3 L4 L5 L6 L7 L8 L9 L10 L11 L12 L13 L14 L15 L16 L17 L18 L19 L20 L21 L22 L23 L24 L25 L26] Hn Hr Hrest Hd.
  pose proof (dict_del_keys (num_scheduled_tokens t) rid L13) as Hkeys.
  destruct (dict_get_split _ _ _ Hd) as (d1 & d2 & Ed & Edel).
  assert (Hpos : 0 < n) by (apply (L16 rid); by apply dict_get_in).
  split; simpl; rewrite ?Hn, ?Hr in *; try done.
  - intros x Hx. destruct (L11 x Hx) as (r & Hst & Hok). exists r. split; [done|].
    pose proof (so_id _ L3 _ _ Hst) as Hid. destruct (decide (x = rid)) as [->|Hne].
    + destruct Hok as [H1 H2 H3 Hph H4 H5 H6 H7]. rewrite Hid in *.
      assert (due (undone rid rest n 0 t) rid = 0) as Hdue.
      { unfold due, undone. simpl. by rewrite dict_get_del, decide_True. }
      assert (due t rid = n) as Hdue' by (unfold due; by rewrite Hd).
      split; rewrite ?Hid, ?Hdue; try done; [|lia|by eapply kc_fewer; [done|lia]].
      unfold drafts at 1. pose proof (zlen_nonneg (default [] (dict_get (scheduled_spec_decode_tokens (undone rid rest n 0 t)) rid))). lia.
    + rewrite <-Hid in Hne. eapply run_ok_frame; [done|by intros y _|by apply dict_get_del_ne..].
  - unfold keys. simpl. rewrite Edel. rewrite fmap_app. unfold keys in L13. rewrite Ed, fmap_app in L13. csimpl in *.
    apply NoDup_app in L13 as (? & ? & [? ?]%NoDup_cons). apply NoDup_app. set_solver.
  - unfold keys. simpl. rewrite Edel. unfold keys in L14. rewrite Ed in L14. rewrite fmap_app in *. csimpl in *. rewrite Hrest in L14.
    rewrite <-Permutation_middle in L14. by apply Permutation_cons_inv in L14.
  - intros x [Hx Hne]%Hkeys. destruct (L15 x Hx) as [? ?]. split; [done|]. by rewrite dict_get_del_ne.
  - intros x m Hx. apply (L16 x). rewrite Ed. rewrite Edel in Hx. set_solver.
  - rewrite Edel, <-L17, Ed, !fmap_app, !zsum_app. csimpl. simpl. lia.
  - lia.
  - by rewrite L21.
  - intros x. destruct (decide (x = rid)) as [->|Hne].
    + assert (due (undone rid rest n 0 t) rid = 0) as -> by (unfold due, undone; simpl; by rewrite dict_get_del, decide_True).
      unfold drafts. simpl. by rewrite dict_get_del, decide_True.
    + unfold drafts, due, undone. simpl. rewrite !dict_get_del_ne by done. apply L25.
  - by apply dict_del_nodup.
Qed.

Lemma list_remove_split (l : list string) v :
  v ∈ l → ∃ l1 l2, l = l1 ++ v :: l2 ∧ list_remove l v = Some (l1 ++ l2).
Proof.
  induction l as [|x l IH]; [by intros ?%not_elem_of_nil|]. intros Hv. simpl.
  destruct (decide (x = v)) as [->|Hne]; [by exists [], l|].
  apply elem_of_cons in Hv as [->|Hv]; [done|]. destruct (IH Hv) as (l1 & l2 & -> & ->). by exists (x :: l1), l2.
Qed.

Lemma take_skip (l1 l2 : list string) v x i :
  x ∈ take i (l1 ++ v :: l2) → x ≠ v → x ∈ take i (l1 ++ l2) ∧ ((length l1 < i)%nat → x ∈ take (i - 1) (l1 ++ l2)).
Proof.
  intros Hx Hne. assert (Hlast : (length l1 < i)%nat → x ∈ take (i - 1) (l1 ++ l2)).
  { intros Hi. rewrite take_app_ge in Hx by lia. rewrite take_app_ge by lia.
    replace (i - length l1)%nat with (S (i - 1 - length l1)) in Hx by lia. simpl in Hx.
    apply elem_of_app. apply elem_of_app in Hx as [Hx|[->|Hx]%elem_of_cons]; [by left|done|by right]. }
  split; [|done]. destruct (decide (length l1 < i)%nat) as [Hi|Hi].
  - specialize (Hlast Hi). destruct i as [|i]; [lia|]. simpl in Hlast. rewrite Nat.sub_0_r in Hlast.
    apply elem_of_take in Hlast as (j & Hj & Hlt). apply elem_of_take. exists j. split; [done|lia].
  - rewrite take_app_le in Hx by lia. rewrite take_app_le by lia. done.
Qed.

Lemma lowest_priority_in s best l : lowest_priority s best l ∈ best :: l.
Proof.
  revert best. induction l as [|x l IH]; intros best; simpl; [left|].
  specialize (IH (if (priority (obj_of s best) <? priority (obj_of s x)) ||
    ((priority (obj_of s best) =? priority (obj_of s x)) && (arrival_time (obj_of s best) <? arrival_time (obj_of s x)))
    then x else best)). apply elem_of_cons in IH as [->|IH]; [|by do 2 right]. case_match; [right; left|left].
Qed.

(** Inside the first loop: what was scheduled stands before [req_index]. *)
Record placed (run : list string) t : Prop := {
  pl_new : scheduled_new_reqs t = [];
  pl_resumed : scheduled_resumed_reqs t = [];
  pl_index : 0 ≤ req_index t;
  pl_before x : x ∈ scheduled_running_reqs t → x ∈ take (Z.to_nat (req_index t)) run
}.

Lemma unschedule_ok c prev ids budget s s1 t ws ks ss v l1 l2 :
  loop_inv c prev ids budget s t ws ks ss → placed (running s) t → running s = l1 ++ v :: l2 →
  ∃ t', unschedule v (s1, t) = Ok (tt, (s1, t')) ∧ loop_inv c prev ids budget s t' ws ks ss ∧ placed (l1 ++ l2) t'
    ∧ v ∉ keys t' ∧ (∀ x, x ∉ keys t → x ∉ keys t') ∧ preempted_reqs t' = preempted_reqs t
    ∧ token_budget t ≤ token_budget t' ∧ zlen (l1 ++ l2) - req_index t' ≤ zlen (running s) - req_index t
    ∧ (∀ x, x ≠ v → x ∈ take (S (Z.to_nat (req_index t))) (running s) → x ∈ take (S (Z.to_nat (req_index t'))) (l1 ++ l2)).
Proof.
  intros Hl [P1 P2 P3 P4] Hrun. unfold unschedule. mstep. mstep. simpl.
  pose proof (li_keys _ _ _ _ _ _ _ _ _ Hl) as Hkeys. rewrite P1, P2, !app_nil_r in Hkeys.
  pose proof (li_nodup _ _ _ _ _ _ _ _ _ Hl) as Hnd.
  pose proof (list_remove_perm (scheduled_running_reqs t) v) as Hrem.
  destruct (list_remove (scheduled_running_reqs t) v) as [rest|] eqn:Erest.
  - destruct Hrem as [Hrest Hsub]. assert (Hvk : v ∈ keys t) by (rewrite Hkeys, Hrest; left).
    destruct (li_sched _ _ _ _ _ _ _ _ _ Hl v Hvk) as [_ [b Hb]].
    destruct (proj2 (dict_get_is_Some (num_scheduled_tokens t) v) Hvk) as [n Hn]. rewrite Hb, Hn.
    rewrite (li_inputs _ _ _ _ _ _ _ _ _ Hl). simpl. mstep.
    pose proof (undone_inv _ _ _ _ _ _ _ _ _ v rest n Hl P1 P2 Hrest Hn) as Hl'.
    pose proof (dict_del_keys (num_scheduled_tokens t) v Hnd) as Hdk.
    pose proof (loop_nodup _ _ _ _ _ _ _ _ _ Hl) as Hall. rewrite Hrun in Hall. apply NoDup_app in Hall as [Hall _].
    assert (Hvn : v ∉ rest) by (rewrite Hkeys, Hrest in Hnd; by apply NoDup_cons in Hnd as [? _]).
    assert (Hlen : (length l1 < Z.to_nat (req_index t))%nat).
    { specialize (P4 v). rewrite Hrun in P4. destruct (decide (length l1 < Z.to_nat (req_index t))%nat) as [|Hge]; [done|].
      rewrite take_app_le in P4 by lia. apply NoDup_app in Hall as (_ & Hd & _). exfalso.
      apply (Hd v); [|left]. eapply elem_of_sublist; [apply P4; rewrite Hrest; left|apply sublist_take]. }
    exists (undone v rest n 0 t). split; [done|]. split; [done|]. split.
    { split; simpl; [done|done|lia|]. intros x Hx. assert (x ≠ v) by (by intros ->).
      destruct (take_skip l1 l2 v x (Z.to_nat (req_index t))) as [_ H1]; [|done|].
      - rewrite <-Hrun. apply P4. rewrite Hrest. by right.
      - rewrite Z2Nat.inj_sub by lia. by apply H1. }
    split; [intros [_ ?]%Hdk; done|]. split; [intros x Hx [? _]%Hdk; done|]. split; [done|].
    split; [simpl; pose proof (li_pos _ _ _ _ _ _ _ _ _ Hl v n (dict_get_in _ _ _ Hn)); lia|].
    split; [simpl; rewrite Hrun, !zlen_app, zlen_cons; lia|].
    intros x Hx. rewrite Hrun. intros Hin. destruct (take_skip _ _ _ _ _ Hin Hx) as [_ H1].
    change (req_index (undone v rest n 0 t)) with (req_index t - 1).
    replace (S (Z.to_nat (req_index t - 1))) with (S (Z.to_nat (req_index t)) - 1)%nat by lia. apply H1. lia.
  - exists t. split; [done|]. split; [done|]. split.
    { split; [done|done|done|]. intros x Hx. apply (take_skip l1 l2 v); [rewrite <-Hrun; by apply P4|]. by intros ->. }
    split; [by rewrite Hkeys|]. split; [done|]. split; [done|]. split; [lia|].
    split; [rewrite Hrun, !zlen_app, zlen_cons; lia|].
    intros x Hx. rewrite Hrun. intros Hin. by apply (take_skip _ _ _ _ _ Hin Hx).
Qed.

Lemma sch_ok {A} (f : SM A) s s' t a : f s = Ok (a, s') → sch f (s, t) = Ok (a, (s', t)).
Proof. unfold sch, zoom. simpl. by intros ->. Qed.

(** The request being scheduled stands at [req_index], or before it when a request
    to its left was preempted. *)
Definition current c (run : list string) t rid : Prop :=
  rid ∈ take (S (Z.to_nat (req_index t))) run ∧ rid ∉ keys t
  ∧ (policy c = FCFS → run !! Z.to_nat (req_index t) = Some rid).

Lemma current_in c run t rid : current c run t rid → rid ∈ run.
Proof. intros [Hin _]. eapply elem_of_sublist; [done|apply sublist_take]. Qed.

Lemma take_victim_ok c prev ids budget s t ws ks ss rid :
  loop_inv c prev ids budget s t ws ks ss → placed (running s) t → current c (running s) t rid →
  ∃ v run' t', take_victim (s, t) = Ok (v, (s_set_running run' s, t')) ∧ running s ≡ₚ v :: run'
    ∧ loop_inv c prev ids budget s t' ws ks ss ∧ placed run' t' ∧ v ∉ keys t'
    ∧ (v ≠ rid → current c run' t' rid) ∧ preempted_reqs t' = preempted_reqs t
    ∧ token_budget t ≤ token_budget t' ∧ zlen run' - req_index t' ≤ zlen (running s) - req_index t.
Proof.
  intros Hl Hpl Hcur. pose proof (current_in _ _ _ _ Hcur) as Hrid. destruct Hcur as (Htk & Hnk & Hfc).
  unfold take_victim. tstep.
  destruct (running s) as [|first others] eqn:Erun; [by apply not_elem_of_nil in Hrid|].
  rewrite (li_config _ _ _ _ _ _ _ _ _ Hl). case_bool_decide as Hpol.
  - set (v := lowest_priority s first others).
    destruct (list_remove_split (first :: others) v (lowest_priority_in s first others)) as (l1 & l2 & Esp & Erem).
    mstep by (apply (sch_ok _ s (s_set_running (l1 ++ l2) s) t tt); unfold modify; rewrite Erun; fold v; rewrite Erem; done).
    destruct (unschedule_ok _ _ _ _ s (s_set_running (l1 ++ l2) s) _ _ _ _ v l1 l2 Hl) as
      (t' & E & Hl' & Hpl' & Hv & Hk & Hpre & Hb & Hlen & Htake); [by rewrite Erun|congruence|].
    rewrite (bind_ok _ _ _ _ _ E). exists v, (l1 ++ l2), t'. split; [done|].
    split; [rewrite Esp; symmetry; apply Permutation_middle|]. rewrite Erun in Hlen.
    split_and!; try done. intros Hne. split; [|split; [by apply Hk|by rewrite Hpol]].
    rewrite Erun in Htake. by apply Htake.
  - destruct (exists_last (l:=first :: others)) as (run' & v & Esp); [done|]. rewrite Esp in *.
    assert (Hpol' : policy c = FCFS) by (by destruct (policy c)).
    mstep by (apply (sch_ok _ s (s_set_running run' s) t tt); unfold modify; rewrite Erun, removelast_snoc; done).
    rewrite last_snoc. simpl. destruct Hpl as [P1 P2 P3 P4].
    assert (Hidx : (Z.to_nat (req_index t) ≤ length run')%nat).
    { specialize (Hfc Hpol'). apply lookup_lt_Some in Hfc. rewrite length_app in Hfc. simpl in Hfc. lia. }
    assert (Hpl' : placed run' t).
    { split; [done..|]. intros x Hx. apply P4 in Hx. by rewrite take_app_le in Hx by done. }
    pose proof (loop_nodup _ _ _ _ _ _ _ _ _ Hl) as Hnd. rewrite Erun in Hnd. apply NoDup_app in Hnd as [Hnd _].
    pose proof (li_keys _ _ _ _ _ _ _ _ _ Hl) as Hkeys. rewrite P1, P2, !app_nil_r in Hkeys.
    exists v, run', t. split; [done|]. split; [rewrite Permutation_app_comm; done|]. split; [done|]. split; [done|].
    split.
    { rewrite Hkeys. intros Hv. apply (pl_before _ _ Hpl') in Hv. apply NoDup_app in Hnd as (_ & Hd & _).
      apply (Hd v); [|left]. eapply elem_of_sublist; [done|apply sublist_take]. }
    split; [|split; [done|]; rewrite zlen_app; unfold zlen; simpl; lia].
    intros Hne. specialize (Hfc Hpol').
    assert (Hat : run' !! Z.to_nat (req_index t) = Some rid).
    { destruct (decide (Z.to_nat (req_index t) < length run')%nat); [by rewrite lookup_app_l in Hfc by done|].
      rewrite lookup_app_r in Hfc by lia. apply list_lookup_singleton_Some in Hfc as [_ ?]. congruence. }
    split; [|by split]. apply elem_of_take. exists (Z.to_nat (req_index t)). split; [done|lia].
Qed.

(** ** Allocation, with preemption *)

Lemma loop_kv c prev ids budget s t ws ks ss k' rid :
  loop_inv c prev ids budget s t ws ks ss → rid ∈ ids.*1 → kv_ok k' → kv_keeps (λ x, x ≠ rid) (kv_cache_manager s) k' →
  (∀ r, stored s rid r → rid ∈ running s → run_ok c k' t r) →
  (∀ r, stored s rid r → rid ∈ ws ++ ks ++ ss → wait_ok c k' (λ x, x ∉ prev ∨ x ∈ preempted_reqs t) r) →
  loop_inv c prev ids budget (s_set_kv_cache_manager k' s) t ws ks ss.
Proof.
  intros [L1 L2 L3 L4 L5 L6 L7 L8 L9 L10 L11 L12 L13 L14 L15 L16 L17 L18 L19 L20 L21 L22 L23 L24 L25 L26] Hin Hk Hkeep Hrun Hwait.
  split; try done.
  - by apply (store_ok_same s).
  - intros x Hx. destruct (L11 x Hx) as (r & Hr & Hok). exists r. split; [done|].
    destruct (decide (x = rid)) as [->|Hne]; [by apply Hrun|]. eapply run_ok_frame; [done| |done|done].
    eapply keeps_weaken; [|done]. intros y ->. by rewrite (so_id _ L3 _ _ Hr).
  - intros x Hx. destruct (L12 x Hx) as (r & Hr & Hok). exists r. split; [done|].
    destruct (decide (x = rid)) as [->|Hne]; [by apply Hwait|]. eapply wait_ok_frame; [done| |done].
    eapply keeps_weaken; [|done]. intros y ->. by rewrite (so_id _ L3 _ _ Hr).
  - intros x Hx. apply (Hkeep x); [|by apply L24]. intros ->. by apply Hx.
Qed.

Lemma running_kv c prev ids budget s t ws ks ss k' rid r n :
  loop_inv c prev ids budget s t ws ks ss → rid ∈ running s → rid ∉ keys t → stored s rid r →
  kv_ok k' → kv_keeps (λ x, x ≠ rid) (kv_cache_manager s) k' → kv_slots k' rid (num_computed_tokens r + n) → 0 ≤ n →
  loop_inv c prev ids budget (s_set_kv_cache_manager k' s) t ws ks ss.
Proof.
  intros Hl Hin Hnk Hr Hk Hkeep Hsl Hn. eapply loop_kv; [done|by eapply loop_member, elem_of_app; [|left]|done..| |].
  - intros r' Hr' _. simplify_eq. destruct (li_run _ _ _ _ _ _ _ _ _ Hl rid Hin) as (r' & Hr' & [H1 H2 H3 Hph H4 H5 H6 H7]).
    simplify_eq. split; try done. rewrite (so_id _ (li_store _ _ _ _ _ _ _ _ _ Hl) _ _ Hr).
    eapply kc_fewer; [done|]. unfold due. rewrite (proj2 (dict_get_None _ _) Hnk). simpl. lia.
  - intros r' _ Hw. pose proof (loop_nodup _ _ _ _ _ _ _ _ _ Hl) as Hnd. apply NoDup_app in Hnd as (_ & Hd & _).
    by destruct (Hd rid Hin).
Qed.

Lemma allocate_or_preempt_ok c prev ids budget rid r n : config_ok c → 0 < n →
  num_computed_tokens r + n + num_sampled_tokens_per_step c ≤ max_len →
  ∀ fuel s t ws ks ss, loop_inv c prev ids budget s t ws ks ss → placed (running s) t →
  current c (running s) t rid → stored s rid r → (length (running s) ≤ fuel)%nat →
  ∃ res s' t' ws', allocate_or_preempt fuel rid n (s, t) = Ok (res, (s', t'))
    ∧ loop_inv c prev ids budget s' t' ws' ks ss ∧ token_budget t ≤ token_budget t'
    ∧ zlen (running s') - req_index t' ≤ zlen (running s) - req_index t
    ∧ match res with
      | Some _ => placed (running s') t' ∧ current c (running s') t' rid ∧ stored s' rid r
          ∧ kv_slots (kv_cache_manager s') rid (num_computed_tokens r + n)
      | None => preempted_reqs t' ≠ []
      end.
Proof.
  intros Hcfg Hn Hroom fuel. induction fuel as [|fuel IH]; intros s t ws ks ss Hl Hpl Hcur Hr Hfuel.
  { apply current_in in Hcur. destruct (running s); [by apply not_elem_of_nil in Hcur|simpl in Hfuel; lia]. }
  pose proof Hcur as (_ & Hnk & _). pose proof (current_in _ _ _ _ Hcur) as Hin.
  destruct (li_run _ _ _ _ _ _ _ _ _ Hl rid Hin) as (r' & Hr' & Hok). assert (r' = r) as -> by congruence. clear Hr'.
  pose proof (so_id _ (li_store _ _ _ _ _ _ _ _ _ Hl) _ _ Hr) as Hid.
  pose proof Hok as [Hst Hfit Hcomp Hph Hlag Hpln Hrm Hsl].
  assert (Hdue : due t (request_id r) = 0) by (unfold due; rewrite Hid; by rewrite (proj2 (dict_get_None _ _) Hnk)).
  destruct (kc_running (kv_cache_manager s) r n None (num_lookahead_tokens c) false true) as (res & k' & Ek & Hk' & Hkeep & Hsl');
    [done|by apply (li_kv _ _ _ _ _ _ _ _ _ Hl)|apply Hfit|by rewrite Hdue, Z.add_0_r in Hsl|done|done|apply Hcfg|
     pose proof (cf_sampled _ Hcfg); lia|].
  rewrite Hid in *. cbn [allocate_or_preempt]. tstep. rewrite (bind_ok _ _ _ _ _ (sch_ok _ _ _ t _ (deref_ok _ _ _ Hr))).
  rewrite (li_config _ _ _ _ _ _ _ _ _ Hl).
  rewrite (bind_ok _ _ _ _ _ (sch_ok _ _ _ t _ (on_kv_ok _ _ _ _ Ek))).
  assert (Hl1 : loop_inv c prev ids budget (s_set_kv_cache_manager k' s) t ws ks ss)
    by (eapply running_kv; [exact Hl|done|done|done|done|done|exact Hsl'|case_match; lia]).
  set (s1 := s_set_kv_cache_manager k' s) in *. destruct res as [b|].
  { exists (Some b), s1, t, ws. split_and!; done || lia. }
  destruct (take_victim_ok _ _ _ _ s1 t _ _ _ rid Hl1 Hpl Hcur) as (v & run' & t' & E & Hperm & Hl2 & Hpl2 & Hv & Hcur2 & Hpre & Hb & Hlen).
  rewrite (bind_ok _ _ _ _ _ E).
  destruct (preempt_ok _ _ _ _ s1 t' _ _ _ v run' Hl2 Hperm Hv) as (s2 & ws2 & E2 & Hl3 & Hrun2 & Hoth).
  rewrite (bind_ok _ _ _ _ _ (sch_ok _ _ _ t' _ E2)). mstep. cbn [fst snd].
  set (t2 := t_set_preempted_reqs (preempted_reqs t' ++ [v]) t') in *.
  case_bool_decide as Hvr.
  - exists None, s2, t2, ws2. rewrite Hrun2. split_and!; try done. simpl. by destruct (preempted_reqs t').
  - destruct (IH s2 t2 ws2 ks ss Hl3) as (res & s3 & t3 & ws3 & E3 & Hl4 & Hb3 & Hlen3 & Hres).
    + rewrite Hrun2. by destruct Hpl2; split.
    + rewrite Hrun2. by apply Hcur2.
    + by rewrite Hoth.
    + rewrite Hrun2. apply Permutation_length in Hperm. simpl in Hperm, Hfuel. lia.
    + exists res, s3, t3, ws3. rewrite Hrun2 in Hlen3. simpl in Hb3, Hlen3, Hlen. split_and!; try done; lia.
Qed.

End invariant.
