(* ===== verification/KVInstance.v ===== *)
(** * The KV-cache manager as the scheduler's interface

    [KVCacheManager] implements [KVContract], the interface against which the
    scheduler is verified: a refinement of what the scheduler relies on by the block
    pool, the managers and their coordinator. *)

From Stdlib Require Import ZArith Lia QArith.
From S2P Require Import Prelude MathUtils KVSpec FreeQueue Request BlockHash BlockPool Ledger SingleType ManagerSpec CacheHit Coordinator CoordinatorSpec HybridHit KVCacheManager AllocateSlots ManagerTrace NewRequest SchedUtils Scheduler Schedule SchedulerSpec.
Local Open Scope Z_scope.

(** ** The parts of a manager that no operation changes *)

Definition shape (k : KVCacheManager) :=
  (co_conf (coordinator k), conf <$> single_type_managers (coordinator k), hash_block_size (km_pool k),
   km_enable_caching k, km_max_model_len k).

Lemma upto_confs c c' Post :
  upto c Post (length (single_type_managers c)) c' → (∀ i m m', Post i m m' → conf m' = conf m) →
  conf <$> single_type_managers c' = conf <$> single_type_managers c.
Proof.
  intros Hup HP. apply list_eq. intros i. rewrite !list_lookup_fmap.
  destruct (single_type_managers c' !! i) as [m'|] eqn:Hm'.
  - destruct (upto_lookup _ _ _ _ _ Hup Hm') as (m & -> & Hp). simpl. by rewrite (HP _ _ _ Hp).
  - apply lookup_ge_None in Hm'. rewrite (up_length _ _ _ _ Hup) in Hm'.
    by rewrite (proj2 (lookup_ge_None (single_type_managers c) i)).
Qed.

Lemma upto_shape k k' Post :
  upto (coordinator k) Post (length (single_type_managers (coordinator k))) (coordinator k') →
  (∀ i m m', Post i m m' → conf m' = conf m) →
  km_enable_caching k' = km_enable_caching k → km_max_model_len k' = km_max_model_len k → shape k' = shape k.
Proof.
  intros Hup HP He Hl. unfold shape, km_pool.
  rewrite (up_conf _ _ _ _ Hup), (upto_confs _ _ _ Hup HP), He, Hl.
  by destruct (up_pool _ _ _ _ Hup) as (_ & _ & -> & _).
Qed.

(** Operations that replace at most the coordinator's state. *)
Definition keeps_flags {A} (f : K A) : Prop := ∀ k a k', f k = Ok (a, k') → flags k' = flags k.

Lemma flags_bind {A B} (f : K A) (g : A → K B) :
  keeps_flags f → (∀ a, keeps_flags (g a)) → keeps_flags (a ← f; g a).
Proof.
  intros Hf Hg k b k2 E. unfold mbind, M_bind in E. destruct (f k) as [[a k1]|] eqn:Ef; [|done].
  rewrite (Hg a _ _ _ E). by eapply Hf.
Qed.
Lemma flags_onco {A} (f : C A) : keeps_flags (onco f).
Proof. intros k a k' E. unfold onco, zoom in E. destruct (f (coordinator k)) as [[x c]|]; [|done]. by injection E as <- <-. Qed.
Lemma flags_ret {A} (a : A) : keeps_flags (mret a).
Proof. by intros k x k' [= <- <-]. Qed.
Lemma flags_get : keeps_flags get.
Proof. by intros k x k' [= <- <-]. Qed.
Lemma flags_raise {A} e : keeps_flags (raise e : K A).
Proof. by intros k x k' E. Qed.

Create HintDb flags.
#[export] Hint Resolve flags_onco flags_ret flags_get flags_raise : flags.

Ltac flags_step :=
  lazymatch goal with
  | |- ∀ _, _ => intros ?
  | |- keeps_flags (if ?b then _ else _) => destruct b
  | |- keeps_flags (mbind _ _) => apply flags_bind
  | |- keeps_flags _ => solve [auto with flags]
  end.

Lemma allocate_slots_flags `{HashConfig} r n nc ncb la ext delay enc fit res sch :
  keeps_flags (allocate_slots r n nc ncb la ext delay enc fit res sch).
Proof. unfold allocate_slots. cbv zeta. repeat flags_step. Qed.

(** ** What holds of a request's blocks *)

Definition all_managers (k : KVCacheManager) (Q : Manager → Prop) : Prop :=
  ∀ m, m ∈ single_type_managers (coordinator k) → Q m.

(** A property of each manager after a loop over the managers. *)
Lemma upto_all k k' Post (P Q : Manager → Prop) :
  upto (coordinator k) Post (length (single_type_managers (coordinator k))) (coordinator k') →
  (∀ i m m', m ∈ single_type_managers (coordinator k) → Post i m m' → P m → Q m') →
  all_managers k P → all_managers k' Q.
Proof.
  intros Hup HPQ HP m' [i Hi]%list_elem_of_lookup_1. destruct (upto_lookup _ _ _ _ _ Hup Hi) as (m & Hm & Hp).
  apply list_elem_of_lookup_2 in Hm. eauto.
Qed.

(** The same blocks and count for request [x]. *)
Definition same_entry (x : string) (m m' : Manager) : Prop :=
  conf m' = conf m ∧ blocks m' x = blocks m x ∧ num_cached_block m' !! x = num_cached_block m !! x.

Lemma only_entry rid x m m' : only rid m m' → x ≠ rid → same_entry x m m'.
Proof. intros Ho Hx. split; [apply Ho|]. split; [by apply (only_blocks _ _ _ _ Ho Hx)|by apply (on_cached _ _ _ Ho)]. Qed.
Lemma unmoved_entry x m m' : unmoved m m' → same_entry x m m'.
Proof. intros [H1 H2 H3]. unfold same_entry. by rewrite H1, H2, H3. Qed.

Lemma same_entry_covers x m m' n : same_entry x m m' → covers m x n → covers m' x n.
Proof.
  intros (Hc & Hb & _). unfold covers. rewrite Hb. unfold conf in Hc. injection Hc as E1 _ E2 _ _ _ _ _ _.
  by rewrite E1, E2.
Qed.
Lemma same_entry_new x m m' : same_entry x m m' → new_request_in m x → new_request_in m' x.
Proof. intros (_ & Hb & Hn). unfold new_request_in. by rewrite Hb, Hn. Qed.

(** With no request holding blocks, all blocks but the null block are free. *)
Lemma vacant_free k free :
  km_inv k free → (∀ rid, all_managers k (λ m, new_request_in m rid)) →
  get_num_free_blocks (km_pool k) = num_gpu_blocks (km_pool k) - 1.
Proof.
  intros Hk Hv. apply (co_idle _ _ (ki_co _ _ Hk)). intros m Hm rid. by apply (Hv rid).
Qed.
Lemma vacant_unused k free :
  km_inv k free → (∀ rid, all_managers k (λ m, new_request_in m rid)) → num_referenced (km_pool k) = 0.
Proof.
  intros Hk Hv. pose proof (vacant_free k free Hk Hv).
  pose proof (pool_conservation _ _ (lg_pool _ _ _ _ (ci_ledger _ _ (ki_co _ _ Hk)))) as Hc. fold (km_pool k) in Hc. lia.
Qed.

(** ** The hashes of a request *)

Section hashes.
Context `{HashConfig}.

(** Hashes for all full blocks of the request, at the granularity of any group. *)
Lemma hashes_at_full hbs mbs r :
  0 < hbs → 0 < mbs → mbs mod hbs = 0 → hash_inv hbs r →
  zlen (hashes_at hbs mbs (block_hashes r)) = num_tokens r / mbs.
Proof.
  intros Hh Hm Hmod [-> _ _ _]. unfold hashes_at. destruct (Z.eqb_spec mbs hbs) as [->|Hne]; [by apply ref_hashes_length|].
  apply Z.mod_divide in Hmod as [q Hq]; [|lia]. assert (0 < q) by nia.
  assert (mbs / hbs = q) as Hd by (rewrite Hq; apply Z.div_mul; lia).
  assert (bhl_len (mkBHL (ref_hashes hbs r) (mbs / hbs)) = num_tokens r / mbs) as Hb.
  { unfold bhl_len. simpl. rewrite ref_hashes_length, Hd, Z.div_div, Hq by lia. f_equal. lia. }
  rewrite zlen_bhl_iter, Hb; [done|]. rewrite Hb. apply Z.div_pos; [apply zlen_nonneg|lia].
Qed.

(** Each hash of the chain has its predecessor as parent. *)
Lemma ref_chain_parent bs r n prev start i h :
  ref_chain bs r n prev start !! i = Some h →
  ∃ t e, h = hash_block_tokens (match i with O => prev | S j => ref_chain bs r n prev start !! j end) t e.
Proof.
  revert prev start i. induction n as [|n IH]; intros prev start [|i] Hi; simplify_eq/=; [by do 2 eexists|].
  destruct (IH _ _ _ Hi) as (t & e & ->). exists t, e. by destruct i.
Qed.

(** A hash function without collisions, whose values differ from the seed. *)
Record collision_free : Prop := {
  cr_inj : Inj (=) (=) hash_function;
  cr_nonempty x : hash_function x ≠ [];
  cr_seed x : hash_function x ≠ NONE_HASH
}.

Lemma hash_parent_inj p q t e t' e' :
  collision_free → (∀ x, p = Some x → ∃ y, x = hash_function y) → (∀ x, q = Some x → ∃ y, x = hash_function y) →
  hash_block_tokens p t e = hash_block_tokens q t' e' → p = q.
Proof.
  intros [Hinj Hne Hseed] Hp Hq E. unfold hash_block_tokens in E. apply (inj _) in E as E'. injection E' as E' _ _.
  destruct p as [x|], q as [y|]; [|..|done].
  - destruct (Hp x eq_refl) as [x' ->], (Hq y eq_refl) as [y' ->]. pose proof (Hne x'). pose proof (Hne y').
    repeat case_match; congruence.
  - destruct (Hp x eq_refl) as [x' ->]. pose proof (Hne x'). pose proof (Hseed x'). repeat case_match; congruence.
  - destruct (Hq y eq_refl) as [y' ->]. pose proof (Hne y'). pose proof (Hseed y'). repeat case_match; congruence.
Qed.

Lemma ref_hashes_distinct bs r : collision_free → NoDup (ref_hashes bs r).
Proof.
  intros Hcf. unfold ref_hashes. set (n := Z.to_nat _). set (l := ref_chain bs r n None 0).
  assert (Hpar : ∀ i x, match i with O => None | S j => l !! j end = Some x → ∃ y, x = hash_function y).
  { intros [|j] x Hx; [done|]. destruct (ref_chain_parent _ _ _ _ _ _ _ Hx) as (t & e & ->). by eexists. }
  apply NoDup_alt. induction i as [|i IH]; intros j h Hi Hj;
    destruct (ref_chain_parent _ _ _ _ _ _ _ Hi) as (t & e & E), (ref_chain_parent _ _ _ _ _ _ _ Hj) as (t' & e' & E');
    fold l in E, E'; rewrite E in E'; apply hash_parent_inj in E'; try done; try apply Hpar;
    destruct j as [|j]; try done.
  - destruct (lookup_lt_is_Some_2 l j) as [x Hx]; [apply lookup_lt_Some in Hj; lia|]. congruence.
  - destruct (lookup_lt_is_Some_2 l i) as [x Hx]; [apply lookup_lt_Some in Hi; lia|]. congruence.
  - destruct (lookup_lt_is_Some_2 l i) as [x Hx]; [apply lookup_lt_Some in Hi; lia|]. f_equal. apply (IH j x Hx). congruence.
  - exact (Hpar (S i)).
  - exact (Hpar (S i)).
Qed.
End hashes.

(** ** The instance *)

(** What is asked of the configuration when prefix caching is on, for managers made
    like [k0] whose requests are hashed in blocks of [bs] tokens: the lookup supports
    the groups, and the hashes of a request are distinct (see [ref_hashes_distinct]). *)
Record searchable `{HashConfig} (k0 : KVCacheManager) (bs : Z) : Prop := {
  sr_size : 0 < bs;
  sr_conf k free : km_inv k free → shape k = shape k0 → km_enable_caching k = true →
    hash_block_size (km_pool k) = bs ∧ co_hash_block_size (coordinator k) = bs
    ∧ single_type_managers (coordinator k) ≠ [] ∧ all_managers k (λ m, mg_class m ≠ CrossAttentionManager);
  sr_lookup k free hashes maxlen : km_inv k free → shape k = shape k0 → km_enable_caching k = true → 0 ≤ maxlen →
    all_managers k (λ m, maxlen / mg_block_size m ≤ zlen (hashes_at bs (mg_block_size m) hashes)) →
    lookup_ready (coordinator k) free hashes maxlen;
  sr_distinct r : hash_inv bs r → all_managers k0 (λ m, NoDup (hashes_at bs (mg_block_size m) (block_hashes r)))
}.

Section instance.
Context `{HC : HashConfig} (k0 : KVCacheManager) (bs : Z).

(** What caching needs of a request. *)
Definition ready (r : Request) : Prop := km_enable_caching k0 = true → hash_inv bs r.

#[local] Instance manager_view : KVView := {
  kv_hasher := if km_enable_caching k0 then Some (request_block_hasher bs) else None;
  kv_ok k := shape k = shape k0 ∧ ∃ free, km_inv k free;
  kv_slots k rid n := all_managers k (λ m, covers m rid n);
  kv_vacant k rid := all_managers k (λ m, new_request_in m rid);
  kv_ready r := ready (content r);
  kv_hit k r cached hit := all_managers k (λ m, new_request_in m (request_id r)) ∧ ready (content r) ∧ 0 ≤ hit ∧
    call_mode (coordinator k) (request_id r) (blocks_of (length (single_type_managers (coordinator k))) cached) hit 0 cached
}.

Lemma hash_inv_content r r' : content r = content r' → hash_inv bs r → hash_inv bs r'.
Proof.
  intros Hc [H1 H2 H3 H4].
  assert (Hb : block_hashes r' = block_hashes r) by (symmetry; exact (f_equal block_hashes Hc)).
  assert (Hm : mm_features r' = mm_features r) by (symmetry; exact (f_equal mm_features Hc)).
  assert (Ht : _all_token_ids r' = _all_token_ids r) by (symmetry; exact (f_equal _all_token_ids Hc)).
  assert (Hk : ∀ s e, ref_extra_keys r' s e = ref_extra_keys r s e).
  { intros s e. symmetry. exact (f_equal (λ x, ref_extra_keys x s e) Hc). }
  split; rewrite ?Hb, ?Hm; [by rewrite (ref_hashes_fields bs r r' Hk Ht)|done| |done].
  exact (eq_ind (content r) (λ x, memo_ok x) H3 _ Hc).
Qed.

Lemma ready_content r : ready (content r) → ready r.
Proof. intros Hr He. apply (hash_inv_content (content r)); [apply content_idem|by apply Hr]. Qed.
Lemma content_ready r : ready r → ready (content r).
Proof. intros Hr He. apply (hash_inv_content r); [symmetry; apply content_idem|by apply Hr]. Qed.

Context (Hsr : km_enable_caching k0 = true → searchable k0 bs).

Lemma shape_caching k : shape k = shape k0 → km_enable_caching k = km_enable_caching k0.
Proof. unfold shape. congruence. Qed.

(** A manager of [k] has a counterpart in [k0]. *)
Lemma shape_size k m : shape k = shape k0 → m ∈ single_type_managers (coordinator k) →
  ∃ m0, m0 ∈ single_type_managers (coordinator k0) ∧ mg_block_size m0 = mg_block_size m.
Proof.
  intros Hs [i Hi]%list_elem_of_lookup_1. pose proof (f_equal (λ x, x.1.1.1.2) Hs) as Hms. simpl in Hms.
  assert (Hl : (conf <$> single_type_managers (coordinator k0)) !! i = Some (conf m)) by (by rewrite <-Hms, list_lookup_fmap, Hi).
  apply list_lookup_fmap_Some in Hl as (m0 & Hc & Hm0). exists m0. split; [by eapply list_elem_of_lookup_2|].
  unfold conf in Hc. congruence.
Qed.

Lemma ready_hashed k free r : km_inv k free → shape k = shape k0 → km_enable_caching k = true → ready r →
  hashed_request (coordinator k) r ∧ single_type_managers (coordinator k) ≠ [] ∧
  (0 < num_tokens r → lookup_ready (coordinator k) free (block_hashes r) (num_tokens r - 1)
     ∧ distinct_hashes (coordinator k) (block_hashes r) (num_tokens r - 1)).
Proof.
  intros Hk Hs He Hr. rewrite (shape_caching _ Hs) in He. specialize (Hr He). pose proof (Hsr He) as Hse.
  rewrite <-(shape_caching _ Hs) in He.
  destruct (sr_conf _ _ Hse k free Hk Hs He) as (Hp & Hco & Hne & Hcl).
  assert (Hlen : all_managers k (λ m, 0 < mg_block_size m ∧
    zlen (hashes_at bs (mg_block_size m) (block_hashes r)) = num_tokens r / mg_block_size m)).
  { intros m Hm. pose proof (ci_static _ _ (ki_co _ _ Hk) m Hm) as Hst. pose proof (ms_size _ _ Hst) as Hsz. split; [done|].
    destruct (ms_hash_size _ _ Hst) as [H1 H2]; [rewrite (ms_caching _ _ Hst); fold (km_pool k); by rewrite <-(ki_caching _ _ Hk)|].
    fold (km_pool k) in H1, H2. rewrite Hp in H1, H2. by apply hashes_at_full. }
  assert (Hpos : ∀ m, m ∈ single_type_managers (coordinator k) →
    (num_tokens r - 1) / mg_block_size m ≤ num_tokens r / mg_block_size m).
  { intros m Hm. apply Z.div_le_mono; [by apply Hlen|lia]. }
  split; [|split; [done|]].
  - split; [done| |split; [apply (hi_sorted _ _ Hr)|apply (hi_memo _ _ Hr)]]. intros m Hm. fold (km_pool k). rewrite Hp.
    destruct (Hlen m Hm) as [_ ->]. done.
  - intros Ht. split.
    + apply (sr_lookup _ _ Hse); try done; [lia|]. intros m Hm. destruct (Hlen m Hm) as [_ ->]. by apply Hpos.
    + intros m Hm. rewrite Hco. cbv zeta. destruct (Hlen m Hm) as [_ ->]. split; [|by apply Hpos].
      destruct (shape_size k m Hs Hm) as (m0 & Hm0 & <-). by apply (sr_distinct _ _ Hse).
Qed.

(** Frames and order from what a loop promises. *)
Lemma upto_keeps k k' Post (P : string → Prop) :
  upto (coordinator k) Post (length (single_type_managers (coordinator k))) (coordinator k') →
  (∀ i m m' x, Post i m m' → P x → same_entry x m m') → kv_keeps P k k'.
Proof.
  intros Hup HP rid Hr. split.
  - intros n. apply (upto_all _ _ _ _ _ Hup). intros i m m' _ Hp. by eapply same_entry_covers, HP.
  - apply (upto_all _ _ _ _ _ Hup). intros i m m' _ Hp. by eapply same_entry_new, HP.
Qed.

Lemma unmoved_ok k c' free :
  shape k = shape k0 → km_inv (km_set_coordinator c' k) free →
  upto (coordinator k) (λ _ m m', unmoved m m') (length (single_type_managers (coordinator k))) c' →
  kv_ok (km_set_coordinator c' k) ∧ kv_keeps (λ _, True) k (km_set_coordinator c' k).
Proof.
  intros Hs Hk Hup. split.
  - split; [|by exists free]. rewrite <-Hs. eapply upto_shape; [exact Hup| |done|done]. intros i m m'. apply um_conf.
  - eapply upto_keeps; [exact Hup|]. intros i m m' x Hu _. by apply unmoved_entry.
Qed.

(** A call of [allocate_slots] by the scheduler, seen through the interface. *)
Lemma allocate_ok k free r n nc ncbo ahead must sched :
  let ncb := default TheEmpty ncbo in
  let total := num_computed_tokens r + nc in
  shape k = shape k0 → km_inv k free → ready (content r) → 0 < n → 0 ≤ ahead → 0 ≤ total →
  total + n ≤ km_max_model_len k0 →
  call_mode (coordinator k) (request_id r) (blocks_of (length (single_type_managers (coordinator k))) ncb) total 0 ncb →
  ∃ res k', allocate_slots r n nc ncbo ahead 0 false 0 must 0 sched k = Ok (res, k')
    ∧ kv_ok k' ∧ kv_keeps (λ x, x ≠ request_id r) k k'
    ∧ match res with
      | Some _ => kv_slots k' (request_id r) (total + n)
      | None => upto (coordinator k) (refused (request_id r) total)
                  (length (single_type_managers (coordinator k))) (coordinator k')
      end.
Proof.
  intros ncb total Hs Hk Hr Hn Ha Ht Hfit Hmode.
  assert (Hlen : km_max_model_len k = km_max_model_len k0) by (unfold shape in Hs; congruence).
  assert (Hpre : slots_pre k r n nc ncb ahead 0 0).
  { split; rewrite ?Z.add_0_r; fold total; try lia; [done|]. intros He. split; [apply zlen_nonneg|].
    by apply (ready_hashed k free r Hk Hs He), ready_content. }
  destruct (allocate_slots_run k free r n nc ncbo ahead 0 false 0 must 0 sched Hk Hpre)
    as (res & k' & free' & E & Hk' & Hres).
  rewrite Z.add_0_r in Hres. fold total ncb in Hres. pose proof (allocate_slots_flags _ _ _ _ _ _ _ _ _ _ _ _ _ _ E) as Hfl.
  unfold flags in Hfl. injection Hfl as Hf1 Hf2.
  assert (Hup : upto (coordinator k) (λ _ m m', only (request_id r) m m') (length (single_type_managers (coordinator k))) (coordinator k')).
  { destruct res; destruct Hres as [Hres _]; eapply upto_mono; try exact Hres; intros i m m' _ Hp;
      [apply (sv_only _ _ _ _ _ _ _ _ Hp)|apply (sk_only _ _ _ _ Hp)]. }
  exists res, k'. split; [done|]. split; [|split].
  - split; [|by exists free']. rewrite <-Hs. eapply upto_shape; [exact Hup| |done|done]. intros i m m'. apply on_conf.
  - eapply upto_keeps; [exact Hup|]. intros i m m' x Ho Hx. by apply (only_entry (request_id r)).
  - destruct res; destruct Hres as [Hres _]; [|done].
    assert (all_managers k (λ _, True)) as Htriv by done. revert Htriv. apply (upto_all _ _ _ _ _ Hres).
    intros i m m' Hm Hp _. pose proof (sv_only _ _ _ _ _ _ _ _ Hp) as Ho. unfold covers.
    rewrite (only_class _ _ _ Ho), (only_size _ _ _ Ho).
    destruct (decide (mg_class m = CrossAttentionManager)) as [Hcl|Hcl]; [by left|right].
    etrans; [|apply (sv_slots _ _ _ _ _ _ _ _ Hp)]. rewrite wanted_other by done.
    etrans; [|eapply slot_tokens_ge, (ci_static _ _ (ki_co _ _ Hk)); exact Hm]. lia.
Qed.

Lemma manager_lookup_ok k r : kv_ok k → kv_ready r → kv_vacant k (request_id r) → num_computed_tokens r = 0 → 0 < num_tokens r →
  ∃ cached hit k', get_computed_blocks (hit_fuel (num_tokens r - 1)) r k = Ok (Some (cached, hit), k')
    ∧ kv_ok k' ∧ kv_keeps (λ _, True) k k' ∧ 0 ≤ hit < num_tokens r ∧ kv_hit k' r cached hit.
Proof.
  intros [Hs [free Hk]] Hr Hv Hc Ht.
  assert (Hrefl : kv_keeps (λ _, True) k k) by (by intros x _).
  destruct (negb (km_enable_caching k) || skip_reading_prefix_cache r) eqn:Eskip.
  { exists TheEmpty, 0, k. split; [unfold get_computed_blocks; mstep; by rewrite Eskip|].
    split; [split; [done|by exists free]|]. split; [done|]. split; [lia|]. split; [done|]. split; [done|]. split; [lia|].
    apply Running; [done|done|]. intros m Hm. right. destruct (Hv m Hm) as [_ ->]. unfold zlen. simpl. lia. }
  apply orb_false_iff in Eskip as [He%negb_false_iff Hskip].
  destruct (ready_hashed k free r Hk Hs He (ready_content _ Hr)) as (Hh & Hne & Hlook). destruct (Hlook Ht) as [Hrd Hdist].
  assert (Hw : waiting_request k free r) by (split; try done; apply (hr_class _ _ Hh)).
  destruct (get_computed_spec k free r _ Hk Hw (le_n _) Hskip) as (rows & hit & k1 & u & E & Ec & Eml & Ee & Hk1 & Hhit & Hfd).
  exists (create_kv_cache_blocks rows), hit, k1. split; [done|]. split; [|split; [|split; [done|]]].
  - split; [|by exists free]. rewrite <-Hs. unfold shape, km_pool. by rewrite Ec, Eml, Ee, He.
  - intros x _. unfold kv_slots, kv_vacant, manager_view, all_managers. by rewrite Ec.
  - unfold kv_hit, manager_view, all_managers. rewrite Ec. split; [done|]. split; [done|]. split; [lia|].
    eapply (hit_call_mode _ free _ (block_hashes r) rows hit (num_tokens r - 1)); try done; [|lia| |apply (hr_class _ _ Hh)].
    + rewrite <-Ec. apply (ki_co _ _ Hk1).
    + rewrite (ki_caching _ _ Hk) in He. exact He.
Qed.

#[local] Instance manager_contract : KVContract (km_max_model_len k0).
Proof.
  split.
  - intros r r' Hc. unfold kv_ready, manager_view. by rewrite Hc.
  - intros r Hr. apply content_ready. intros He. pose proof (ready_content _ Hr He) as [H1 H2 H3 H4]. split; try done.
    etrans; [exact H1|]. symmetry. by apply ref_hashes_fields.
  - intros x r Hr. unfold kv_hasher, kv_ready, manager_view in *. destruct (km_enable_caching k0) eqn:He.
    + destruct (append_keeps_hash_inv bs [x] r (sr_size _ _ (Hsr eq_refl)) (ready_content _ Hr He)) as (r' & E & Hi & Ha).
      exists r'. split; [done|]. split; [|done]. apply content_ready; by intros _.
    + eexists. split; [done|]. split; [intros ?; congruence|]. by destruct r.
  - intros k [Hs [free Hk]]. destruct (km_take_events_spec k free Hk) as (es & p' & E & Hk' & Hcf).
    eexists es, _. split; [exact E|]. split; [|by intros x _]. split; [|by exists free]. rewrite <-Hs.
    unfold shape, km_pool. simpl. by destruct Hcf as (_ & _ & -> & _).
  - intros k [Hs [free Hk]] Hv. destruct (km_reset_spec k free Hk) as (p' & k' & E & Hk' & Hcf & Hco & He & Hml).
    exists k'. rewrite bool_decide_eq_true_2 in E by (by eapply vacant_unused). split; [exact E|]. split.
    + split; [|by exists free]. rewrite <-Hs. unfold shape, km_pool. rewrite Hco, He, Hml. simpl.
      by destruct Hcf as (_ & _ & -> & _).
    + intros x _. unfold kv_slots, kv_vacant, manager_view, all_managers. by rewrite Hco.
  - intros k rid m n Hs Hle x Hx. destruct (Hs x Hx) as [?|?]; [by left|right; lia].
  - intros k [Hs [free Hk]]. destruct (km_new_step_spec k free Hk) as (c' & E & Hk' & Hup).
    eexists. split; [exact E|]. by eapply unmoved_ok.
  - intros k [Hs [free Hk]]. destruct (km_take_ids_spec k free Hk) as (ids & c' & E & Hk' & Hup).
    eexists _, _. split; [exact E|]. by eapply unmoved_ok.
  - intros k rid [Hs [free Hk]]. destruct (km_common_spec k free rid Hk) as (l & c' & E & Hk' & Hup).
    eexists _, _. split; [exact E|]. by eapply unmoved_ok.
  - intros k r [Hs [free Hk]]. destruct (km_free_spec k free r Hk) as (k' & free' & E & Hk' & Hup).
    pose proof (flags_onco _ _ _ _ E) as Hfl. unfold flags in Hfl. injection Hfl as Hf1 Hf2.
    exists k'. split; [exact E|]. split; [|split].
    + split; [|by eexists]. rewrite <-Hs. eapply upto_shape; [exact Hup| |done|done]. intros i m m' [Ho _]. apply Ho.
    + eapply upto_keeps; [exact Hup|]. intros i m m' x [Ho _] Hx. by apply (only_entry (request_id r)).
    + assert (all_managers k (λ _, True)) as Htriv by done. revert Htriv. apply (upto_all _ _ _ _ _ Hup).
      intros i m m' _ (_ & Hr & Hn) _. unfold new_request_in, blocks. by rewrite Hr, Hn, !lookup_delete_eq.
  - intros k r n ncb ahead must sched Hncb [Hs [free Hk]] Hr Hsl H0 Hn Ha Hfit.
    destruct (allocate_ok k free r n 0 ncb ahead must sched) as (res & k' & E & Hok & Hkp & Hres); rewrite ?Hncb, ?Z.add_0_r; try done.
    { by apply Running. }
    exists res, k'. rewrite Z.add_0_r in Hres. split_and!; try done. destruct res; [done|]. rewrite Z.add_0_r.
    revert Hsl. apply (upto_all _ _ _ _ _ Hres). intros i m m' _. apply skipped_covers.
  - intros k r. apply manager_lookup_ok.
  - intros k r r' n cached hit ahead must sched [Hs [free Hk]] (Hv & Hr & Hh & Hmode) Hc H0 Hn Ha Hfit.
    rewrite (content_id _ _ Hc) in Hv, Hmode. rewrite Hc in Hr.
    destruct (allocate_ok k free r' n hit (Some cached) ahead must sched) as (res & k' & E & Hok & Hkp & Hres);
      rewrite ?H0, ?Z.add_0_l in *; try done.
    exists res, k'. split_and!; try done. destruct res; [done|].
    revert Hv. apply (upto_all _ _ _ _ _ Hres). intros i m m' _. apply skipped_new.
Qed.
End instance.
