(* ===== verification/RunningPass.v ===== *)
(** * The first pass of [schedule]: running requests

    The loop over [running] keeps the invariant of [SchedulerSpec] and ends: every
    round moves [req_index] towards the end of the list or shortens the list. *)

From Stdlib Require Import ZArith Lia.
From S2P Require Import Prelude MathUtils KVSpec FreeQueue Request BlockHash BlockPool SingleType Coordinator KVCacheManager RequestQueue EncoderCache SchedUtils Scheduler Schedule SchedulerSpec.
Local Open Scope Z_scope.

(** ** Block-aligned chunks *)

Lemma aligned_split_bounds c r n local ext hint :
  0 < cache_block_size c → 0 ≤ n → 0 ≤ _mamba_block_aligned_split c r n local ext hint ≤ n.
Proof.
  intros Hb Hn. unfold _mamba_block_aligned_split.
  set (bs := cache_block_size c) in *.
  assert (Hfl : ∀ m, 0 ≤ m → 0 ≤ m / bs * bs ≤ m).
  { intros m Hm. pose proof (Z.mul_div_le m bs Hb). pose proof (Z.div_pos m bs Hm Hb). lia. }
  case_match; [|lia].
  set (last := if sc_use_eagle c then _ else _). set (n' := if _ <? last then _ else _).
  assert (0 ≤ n' ≤ n) as Hn'.
  { unfold n'. case_match; [by apply Hfl|]. case_match eqn:E; [|lia].
    apply andb_true_iff in E as [E1%Z.ltb_lt E2%Z.ltb_lt]. lia. }
  case_match eqn:E; [|done]. apply andb_true_iff in E as [E1%Z.leb_le E2%Z.ltb_lt]. pose proof (Hfl hint). lia.
Qed.

Section running_pass.
Context `{HC : HashConfig} `{SO : SetOrder} `{ST : StructuredOutput} `{KV : KVView} (max_len : Z) `{CT : !KVContract max_len}.
Context (c : SchedulerConfig) (Hcfg : config_ok max_len c) (prev : gset string) (ids : list (string * Request)) (budget : Z).
Implicit Types (r : Request) (s : Scheduler) (t : Step).
Local Abbreviation loop_inv := (loop_inv max_len c prev ids budget).
Local Abbreviation run_ok := (run_ok max_len c).

Lemma text_no_inputs r : mm_features r = [] → has_encoder_inputs r = false.
Proof. intros Hm. unfold has_encoder_inputs, num_encoder_inputs. by rewrite Hm. Qed.

Lemma not_due t rid : rid ∉ keys t → due t rid = 0.
Proof. intros Hk. unfold due. by rewrite (proj2 (dict_get_None _ _) Hk). Qed.

Lemma running_tokens_bounds k t r b :
  run_ok k t r → request_id r ∉ keys t → 0 ≤ b →
  let n := running_num_new_tokens c b r in
  0 ≤ n ≤ b ∧ num_computed_tokens r + n + num_sampled_tokens_per_step c ≤ max_len
  ∧ num_computed_tokens r + n ≤ num_tokens_with_spec r + num_output_placeholders r.
Proof.
  intros [H1 H2 H3 Hph H4 H5 H6 H7] Hk Hb n. rewrite (not_due _ _ Hk), ?Z.add_0_r in *.
  unfold n, running_num_new_tokens. rewrite (cf_len _ _ Hcfg).
  pose proof (zlen_nonneg (spec_token_ids r)). unfold num_tokens, num_tokens_with_spec in *.
  destruct ((0 <? long_prefill_token_threshold c) && _) eqn:E; [|lia].
  apply andb_true_iff in E as [E1%Z.ltb_lt E2%Z.ltb_lt]. lia.
Qed.

Lemma dict_set_same {V} (d : list (string * V)) x v : dict_get d x = Some v → dict_set d x v = d.
Proof.
  induction d as [|[y w] d IH]; simpl; [done|]. case_decide; [congruence|]. intros Hd. by rewrite IH.
Qed.
Lemma put_req_same s rid r : stored s rid r → put_req rid r s = s.
Proof. intros Hr. unfold put_req. rewrite (dict_set_same _ _ _ Hr). by destruct s. Qed.

(** ** Recording a running request *)

Lemma note_running_inv s t ws ks ss rid r r2 b n d :
  loop_inv s t ws ks ss → placed (running s) t → current c (running s) t rid → stored s rid r →
  kv_slots (kv_cache_manager s) rid (num_computed_tokens r + n) → 0 < n ≤ token_budget t →
  num_computed_tokens r + n + num_sampled_tokens_per_step c ≤ max_len →
  content r2 = content r → status r2 = RUNNING → num_computed_tokens r2 = num_computed_tokens r →
  num_output_placeholders r2 = num_output_placeholders r →
  (∀ x, x ≠ rid → dict_get d x = dict_get (scheduled_spec_decode_tokens t) x) → NoDup d.*1 → drafts d rid ≤ n →
  num_computed_tokens r + n ≤ num_tokens r + num_output_placeholders r + drafts d rid →
  let s' := put_req rid r2 s in
  let t' := t_set_scheduled_spec_decode_tokens d (note_running rid b n t) in
  loop_inv s' t' ws ks ss ∧ placed (running s') t'.
Proof.
  intros Hl Hpl Hcur Hr Hsl Hn Hroom Hc2 Hst2 Hcm2 Hph2 Hd Hdn Hdl Hpl' s' t'.
  pose proof (current_in _ _ _ _ Hcur) as Hin. destruct Hcur as (Htk & Hnk & _). destruct Hpl as [P1 P2 P3 P4].
  pose proof (loop_nodup _ _ _ _ _ _ _ _ _ _ Hl) as Hnd. apply NoDup_app in Hnd as (_ & Hdis & _).
  destruct Hl as [L1 L2 L3 L4 L5 L6 L7 L8 L9 L10 L11 L12 L13 L14 L15 L16 L17 L18 L19 L20 L21 L22 L23 L24 L25 L26].
  pose proof (so_id _ L3 _ _ Hr) as Hid.
  assert (Hks : keys t' = keys t ++ [rid]).
  { unfold keys, t'. cbn. rewrite dict_set_keys, decide_False by done. done. }
  assert (Hsc : same_contents s s') by (by apply (put_req_contents s rid r2 r)).
  assert (Hq : ∀ q l, queued s q l → queued s' q l) by (intros q l; by apply queued_contents).
  assert (Hg : ∀ x, dict_get (num_scheduled_tokens t') x = if decide (x = rid) then Some n else dict_get (num_scheduled_tokens t) x)
    by (intros x; apply dict_get_set).
  assert (Hids : request_id r2 = rid) by (rewrite <-Hid; by apply content_id).
  split.
  - split; try done.
    + by apply (put_req_store s rid r2 r).
    + by apply (Hq _ _ L6).
    + by apply (Hq _ _ L7).
    + by apply (Hq _ _ L8).
    + etrans; [apply (put_req_keys s rid r2 r Hr)|done].
    + intros x Hx. unfold s'. rewrite stored_put. destruct (decide (x = rid)) as [->|Hne].
      * exists r2. split; [done|]. destruct (L11 rid Hin) as (r' & Hr' & [H1 H2 H3 Hph H4 H5 H6 H7]).
        assert (r' = r) as -> by congruence.
        assert (due t' (request_id r2) = n) as Hdue by (unfold due; rewrite Hids, Hg; by rewrite decide_True).
        split; unfold placeholders_ok; rewrite ?Hdue, ?Hids, ?Hcm2, ?Hph2, ?(content_tokens _ _ Hc2); try done.
        by eapply (fits_content _ _ r).
      * destruct (L11 x Hx) as (r' & Hr' & Hok). exists r'. split; [done|].
        pose proof (so_id _ L3 _ _ Hr') as Hidx. eapply run_ok_frame; [done|by intros y _| |].
        -- rewrite Hg, Hidx. by rewrite decide_False.
        -- rewrite Hidx. by apply Hd.
    + intros x Hx. unfold s'. rewrite stored_put. assert (x ≠ rid) by (intros ->; by destruct (Hdis rid)).
      rewrite decide_False by done. by apply L12.
    + rewrite Hks. apply NoDup_app. split; [done|]. split; [|apply NoDup_singleton].
      intros x Hx ->%list_elem_of_singleton. done.
    + rewrite Hks, L14. unfold t'. cbn. rewrite P1, P2, !app_nil_r. done.
    + intros x. rewrite Hks. unfold t'. cbn. intros Hx. rewrite dict_get_set.
      apply elem_of_app in Hx as [Hx| ->%list_elem_of_singleton]; [|by rewrite decide_True].
      destruct (L15 x Hx) as [? ?]. split; [done|]. by case_decide.
    + intros x m Hx. unfold t' in Hx. cbn in Hx. rewrite dict_set_new in Hx by done.
      apply elem_of_app in Hx as [Hx|Hx]; [by eapply L16|]. apply list_elem_of_singleton in Hx as [= -> ->]. lia.
    + unfold t'. cbn. rewrite dict_set_new by done. rewrite fmap_app, zsum_app. cbn. lia.
    + unfold t'. cbn. lia.
    + intros x. rewrite <-(L23 x). symmetry. apply Hsc.
    + intros x. unfold due. rewrite Hg. case_decide as Hx; [by subst|]. unfold drafts, t'. cbn. rewrite (Hd x Hx). apply L25.
  - split; [done|done|unfold t'; cbn; lia|]. intros x. unfold t'. cbn.
    replace (Z.to_nat (req_index t + 1)) with (S (Z.to_nat (req_index t))) by lia.
    intros [Hx| ->%list_elem_of_singleton]%elem_of_app; [|done]. apply P4 in Hx.
    apply elem_of_take in Hx as (i & ? & ?). apply elem_of_take. exists i. split; [done|lia].
Qed.
Lemma set_spec_same t : t_set_scheduled_spec_decode_tokens (scheduled_spec_decode_tokens t) t = t.
Proof. by destruct t. Qed.

Lemma note_spec_ok s t rid r n :
  stored s rid r → status r = RUNNING → NoDup (scheduled_spec_decode_tokens t).*1 →
  drafts (scheduled_spec_decode_tokens t) rid ≤ 0 → 0 ≤ n → num_computed_tokens r ≤ num_tokens r + num_output_placeholders r →
  num_computed_tokens r + n ≤ num_tokens_with_spec r + num_output_placeholders r →
  ∃ r2 d, note_spec_tokens rid n (s, t) = Ok (tt, (put_req rid r2 s, t_set_scheduled_spec_decode_tokens d t))
    ∧ content r2 = content r ∧ status r2 = RUNNING ∧ num_computed_tokens r2 = num_computed_tokens r
    ∧ num_output_placeholders r2 = num_output_placeholders r
    ∧ (∀ x, x ≠ rid → dict_get d x = dict_get (scheduled_spec_decode_tokens t) x)
    ∧ NoDup d.*1 ∧ drafts d rid ≤ n
    ∧ num_computed_tokens r + n ≤ num_tokens r + num_output_placeholders r + drafts d rid.
Proof.
  intros Hr Hst Hnd Hd0 Hn0 Hlag Hn. unfold note_spec_tokens. rewrite (bind_ok _ _ _ _ _ (sch_ok _ _ _ t _ (deref_ok _ _ _ Hr))).
  destruct (spec_token_ids r) as [|x l] eqn:Esp.
  - exists r, (scheduled_spec_decode_tokens t). rewrite (put_req_same _ _ _ Hr), set_spec_same. split_and!; try done; [lia|]. unfold drafts.
    pose proof (zlen_nonneg (default [] (dict_get (scheduled_spec_decode_tokens t) rid))).
    unfold num_tokens_with_spec in Hn. rewrite Esp in Hn. unfold num_tokens, zlen in *. simpl in Hn. lia.
  - destruct (Z.ltb_spec 0 (n + num_computed_tokens r - num_tokens r - num_output_placeholders r)) as [Hp|Hp]; mstep.
    + set (k := n + num_computed_tokens r - num_tokens r - num_output_placeholders r) in *.
      set (l' := if k <? zlen (x :: l) then py_slice (x :: l) 0 k else x :: l).
      assert (zlen l' = k) as Hlen.
      { unfold num_tokens_with_spec in Hn. rewrite Esp in Hn. fold (num_tokens r) in Hn. unfold l'.
        destruct (Z.ltb_spec k (zlen (x :: l))) as [Hlt|Hge]; [|lia].
        rewrite py_slice_pos by (unfold zlen in Hlt; lia). unfold zlen at 1. rewrite length_take, length_drop. unfold zlen in Hlt. lia. }
      exists (req_set_spec_token_ids [] r), (dict_set (scheduled_spec_decode_tokens t) rid l').
      split; [apply (sch_ok _ _ _ _ _ (mutate_ok s rid r _ Hr))|].
      unfold drafts. rewrite dict_get_set, decide_True by done. simpl. rewrite Hlen.
      split_and!; try done; try lia; [|by apply dict_set_nodup].
      intros y Hy. rewrite dict_get_set. by rewrite decide_False.
    + exists (req_set_spec_token_ids [] r), (scheduled_spec_decode_tokens t). rewrite set_spec_same.
      split; [apply (sch_ok _ _ _ _ _ (mutate_ok s rid r _ Hr))|]. split_and!; try done; [lia|].
      pose proof (zlen_nonneg (default [] (dict_get (scheduled_spec_decode_tokens t) rid))). unfold drafts. lia.
Qed.

(** ** One round *)

Lemma schedule_running_ok s t ws ks ss rid :
  loop_inv s t ws ks ss → placed (running s) t → 0 < token_budget t →
  running s !! Z.to_nat (req_index t) = Some rid →
  ∃ go s' t' ws', schedule_running rid (s, t) = Ok (go, (s', t')) ∧ loop_inv s' t' ws' ks ss
    ∧ if go : bool then placed (running s') t' ∧ zlen (running s') - req_index t' < zlen (running s) - req_index t
      else preempted_reqs t' ≠ [].
Proof.
  intros Hl Hpl Hb Hat. pose proof Hpl as [P1 P2 P3 P4].
  pose proof (list_elem_of_lookup_2 _ _ _ Hat) as Hin.
  destruct (li_run _ _ _ _ _ _ _ _ _ _ Hl rid Hin) as (r & Hr & Hok).
  pose proof (so_id _ (li_store _ _ _ _ _ _ _ _ _ _ Hl) _ _ Hr) as Hid.
  assert (Hnk : rid ∉ keys t).
  { rewrite (li_keys _ _ _ _ _ _ _ _ _ _ Hl), P1, P2, !app_nil_r. intros Hx%P4.
    apply elem_of_take in Hx as (i & Hi & Hlt). pose proof (loop_nodup _ _ _ _ _ _ _ _ _ _ Hl) as Hnd.
    apply NoDup_app in Hnd as [Hnd _]. pose proof (NoDup_lookup _ _ _ _ Hnd Hi Hat). lia. }
  assert (Hcur : current c (running s) t rid).
  { split; [|by split]. apply elem_of_take. exists (Z.to_nat (req_index t)). split; [done|lia]. }
  assert (Hskip : placed (running s) (t_set_req_index (req_index t + 1) t)).
  { split; [done|done|simpl; lia|]. intros x Hx%P4. simpl. apply elem_of_take in Hx as (i & ? & ?).
    apply elem_of_take. exists i. split; [done|lia]. }
  assert (Hl1 : loop_inv s (t_set_req_index (req_index t + 1) t) ws ks ss)
    by (destruct Hl as [L1 L2 L3 L4 L5 L6 L7 L8 L9 L10 L11 L12 L13 L14 L15 L16 L17 L18 L19 L20 L21 L22 L23 L24 L25 L26]; split; try done;
        intros x Hx; destruct (L11 x Hx) as (r' & Hr' & Hok'); exists r'; split; [done|]; by eapply run_ok_frame; [|by intros y _|..]).
  unfold schedule_running. tstep. tstep. rewrite (bind_ok _ _ _ _ _ (sch_ok _ _ _ t _ (deref_ok _ _ _ Hr))).
  destruct (skip_running s r).
  { mstep. exists true, s, (t_set_req_index (req_index t + 1) t), ws. split; [done|]. split; [done|]. split; [done|]. simpl. lia. }
  rewrite (text_no_inputs r) by apply (rn_fits _ _ _ _ _ Hok). mstep. rewrite (li_config _ _ _ _ _ _ _ _ _ _ Hl).
  destruct (running_tokens_bounds _ _ _ (token_budget t) Hok) as (Hn & Hroom & Hmax); [by rewrite Hid|lia|].
  set (n0 := running_num_new_tokens c (token_budget t) r) in *.
  set (n := if need_mamba_block_aligned_split c then _mamba_block_aligned_split c r n0 0 0 0 else n0).
  assert (0 ≤ n ≤ n0) as Hnn.
  { unfold n. destruct (need_mamba_block_aligned_split c); [|lia]. apply aligned_split_bounds; [apply Hcfg|lia]. }
  clearbody n. destruct (Z.eqb_spec n 0) as [Hz|Hz].
  { mstep. exists true, s, (t_set_req_index (req_index t + 1) t), ws. split; [done|]. split; [done|]. split; [done|]. simpl. lia. }
  tstep. destruct (allocate_or_preempt_ok max_len c prev ids budget rid r n Hcfg ltac:(lia) ltac:(lia)
    (S (length (running s))) s t ws ks ss Hl Hpl Hcur Hr) as (res & s1 & t1 & ws1 & E & Hl2 & Hb2 & Hlen & Hres); [lia|].
  rewrite (bind_ok _ _ _ _ _ E). destruct res as [b|].
  2:{ exists false, s1, t1, ws1. by split_and!. }
  destruct Hres as (Hpl2 & Hcur2 & Hr2 & Hsl2). mstep. cbn [fst snd].
  destruct (note_spec_ok s1 (note_running rid b n t1) rid r n Hr2) as (r2 & d & E2 & C1 & C2 & C3 & C4 & C5 & C6 & C7 & C8);
    [apply (rn_status _ _ _ _ _ Hok)|apply Hl2| |lia|apply (rn_lag _ _ _ _ _ Hok)|lia|].
  { pose proof (li_drafts _ _ _ _ _ _ _ _ _ _ Hl2 rid) as Hdr. rewrite not_due in Hdr; [done|apply Hcur2]. }
  rewrite (bind_ok _ _ _ _ _ E2). mstep.
  destruct (note_running_inv s1 t1 ws1 ks ss rid r r2 b n d Hl2 Hpl2 Hcur2 Hr2 Hsl2) as [Hl3 Hpl3]; try done; try lia.
  eexists true, _, _, ws1. split; [reflexivity|]. split; [exact Hl3|]. split; [exact Hpl3|]. simpl. lia.
Qed.

(** ** The loop *)

Lemma running_loop_ok fuel : ∀ s t ws ks ss, loop_inv s t ws ks ss → placed (running s) t →
  zlen (running s) - req_index t ≤ Z.of_nat fuel →
  ∃ s' t' ws', running_loop fuel (s, t) = Ok (tt, (s', t')) ∧ loop_inv s' t' ws' ks ss
    ∧ (preempted_reqs t' = [] → scheduled_new_reqs t' = [] ∧ scheduled_resumed_reqs t' = []).
Proof.
  induction fuel as [|fuel IH]; intros s t ws ks ss Hl Hpl Hf; cbn [running_loop]; tstep; tstep.
  - rewrite (proj2 (Z.ltb_ge (req_index t) (zlen (running s)))) by lia. simpl.
    exists s, t, ws. split; [done|]. split; [done|]. intros _. by destruct Hpl.
  - destruct (Z.ltb_spec (req_index t) (zlen (running s))) as [Hi|Hi]; simpl.
    2:{ exists s, t, ws. split; [done|]. split; [done|]. intros _. by destruct Hpl. }
    destruct (Z.ltb_spec 0 (token_budget t)) as [Hb|Hb].
    2:{ exists s, t, ws. split; [done|]. split; [done|]. intros _. by destruct Hpl. }
    pose proof (pl_index _ _ Hpl) as Hidx.
    destruct (lookup_lt_is_Some_2 (running s) (Z.to_nat (req_index t))) as [rid Hat]; [unfold zlen in Hi; lia|].
    rewrite (py_index_pos _ _ _ Hidx Hat). mstep.
    destruct (schedule_running_ok s t ws ks ss rid Hl Hpl Hb Hat) as (go & s1 & t1 & ws1 & E & Hl1 & Hgo).
    rewrite (bind_ok _ _ _ _ _ E). destruct go.
    + destruct Hgo as [Hpl1 Hlt]. apply (IH s1 t1 ws1); [done|done|lia].
    + exists s1, t1, ws1. split; [done|]. split; [done|]. intros ?. done.
Qed.
End running_pass.
