(* ===== verification/WaitingPass.v ===== *)
(** * The second pass of [schedule]: waiting requests

    The loop over the two waiting queues keeps the invariant of [SchedulerSpec] and
    ends: every round takes a request out of a queue or stops the loop. *)

From Stdlib Require Import ZArith Lia.
From S2P Require Import Prelude MathUtils KVSpec FreeQueue Request BlockHash BlockPool SingleType Coordinator KVCacheManager RequestQueue EncoderCache SchedUtils Scheduler Schedule SchedulerSpec RunningPass.
Local Open Scope Z_scope.

(** The head [rid] of one of the queues, and what follows it. *)
Definition popped (w : WhichQueue) (rid : string) (ws ks ws1 ks1 : list string) : Prop :=
  match w with InWaiting => ws = rid :: ws1 ∧ ks1 = ks | InSkipped => ks = rid :: ks1 ∧ ws1 = ws end.

Lemma popped_perm w rid ws ks ws1 ks1 ss : popped w rid ws ks ws1 ks1 → ws ++ ks ++ ss ≡ₚ rid :: ws1 ++ ks1 ++ ss.
Proof. destruct w; intros [-> ->]; [done|]. symmetry. apply Permutation_middle. Qed.

Lemma blocked_status st : _is_blocked_waiting_status st =
  match st with
  | WAITING_FOR_STRUCTURED_OUTPUT_GRAMMAR | WAITING_FOR_REMOTE_KVS | WAITING_FOR_STREAMING_REQ => true
  | _ => false
  end.
Proof. by destruct st. Qed.

Lemma elem_bool (st : RequestStatus) (l : list RequestStatus) : bool_decide (st ∈ l) = true → st ∈ l.
Proof. apply bool_decide_eq_true. Qed.
Lemma not_elem_bool (st : RequestStatus) (l : list RequestStatus) : bool_decide (st ∈ l) = false → st ∈ l → False.
Proof. by rewrite bool_decide_eq_false. Qed.
Ltac status_in := apply elem_bool; reflexivity.
Ltac status_out H := exfalso; revert H; apply not_elem_bool; reflexivity.

Section waiting_pass.
Context `{HC : HashConfig} `{SO : SetOrder} `{ST : StructuredOutput} `{KV : KVView} (max_len : Z) `{CT : !KVContract max_len}.
Context (c : SchedulerConfig) (Hcfg : config_ok max_len c) (prev : gset string) (ids : list (string * Request)) (budget : Z).
Implicit Types (r : Request) (s : Scheduler) (t : Step).
Local Abbreviation loop_inv := (loop_inv max_len c prev ids budget).
Local Abbreviation wait_ok := (wait_ok max_len c).

(** ** Queues *)

Lemma select_ok s t ws ks ss : loop_inv s t ws ks ss → ws ≠ [] ∨ ks ≠ [] →
  ∃ w rid ws1 ks1, _select_waiting_queue_for_scheduling s = Ok (Some w, s) ∧ popped w rid ws ks ws1 ks1
    ∧ peek_request (the_queue w s) = Ok rid.
Proof.
  intros Hl Hne. pose proof (li_waiting _ _ _ _ _ _ _ _ _ _ Hl) as Hw. pose proof (li_skipped _ _ _ _ _ _ _ _ _ _ Hl) as Hk.
  pose proof (order_total _ (li_store _ _ _ _ _ _ _ _ _ _ Hl)) as Hot.
  unfold _select_waiting_queue_for_scheduling. mstep. rewrite (queue_bool_queued _ _ _ Hw), (queue_bool_queued _ _ _ Hk).
  pose proof (peek_repr _ _ _ _ Hw) as Pw. pose proof (peek_repr _ _ _ _ Hk) as Pk.
  destruct ws as [|x ws1], ks as [|y ks1]; [naive_solver|..]; rewrite ?bool_decide_eq_true_2, ?bool_decide_eq_false_2 by naive_solver.
  - exists InSkipped, y, [], ks1. split; [by case_bool_decide|]. by split.
  - exists InWaiting, x, ws1, []. split; [by case_bool_decide|]. by split.
  - case_bool_decide.
    + exists InSkipped, y, (x :: ws1), ks1. by split_and!.
    + simpl. rewrite Pw, Pk. mstep. mstep. destruct (req_order s x y).
      * exists InWaiting, x, ws1, (y :: ks1). by split_and!.
      * exists InSkipped, y, (x :: ws1), ks1. by split_and!.
Qed.

Lemma pop_ok s ws ks w rid ws1 ks1 :
  store_ok s → queued s (waiting s) ws → queued s (skipped_waiting s) ks → popped w rid ws ks ws1 ks1 →
  ∃ q, queue_pop w s = Ok (rid, set_queue w q s)
    ∧ queued s (waiting (set_queue w q s)) ws1 ∧ queued s (skipped_waiting (set_queue w q s)) ks1.
Proof.
  intros Hst Hw Hk Hp. pose proof (order_total _ Hst) as Hot. unfold queue_pop. mstep. destruct w; destruct Hp as [-> ->].
  - destruct (pop_repr _ _ _ _ Hw) as (q & E & Hq). simpl. rewrite E. mstep. mstep. by exists q.
  - destruct (pop_repr _ _ _ _ Hk) as (q & E & Hq). simpl. rewrite E. mstep. mstep. by exists q.
Qed.

Lemma set_queue_fields w q s : let s' := set_queue w q s in
  requests s' = requests s ∧ config s' = config s ∧ running s' = running s ∧ kv_cache_manager s' = kv_cache_manager s
  ∧ encoder_cache_manager s' = encoder_cache_manager s ∧ prev_step_scheduled_req_ids s' = prev_step_scheduled_req_ids s.
Proof. by destruct w. Qed.

(** The order depends on the objects only. *)
Lemma queued_same s s' q l : requests s' = requests s → config s' = config s → queued s q l → queued s' q l.
Proof. intros E1 E2. apply queued_contents; [|done]. intros x. by rewrite E1. Qed.

Lemma skip_waiting_ok s t ws ks ss w rid ws1 ks1 : loop_inv s t ws ks ss → popped w rid ws ks ws1 ks1 →
  ∃ s' t' ss', skip_waiting w rid (s, t) = Ok (tt, (s', t')) ∧ loop_inv s' t' ws1 ks1 ss'
    ∧ preempted_reqs t' = preempted_reqs t.
Proof.
  intros Hl Hp. destruct (pop_ok _ _ _ _ _ _ _ (li_store _ _ _ _ _ _ _ _ _ _ Hl) (li_waiting _ _ _ _ _ _ _ _ _ _ Hl)
    (li_skipped _ _ _ _ _ _ _ _ _ _ Hl) Hp) as (q & E & Hq1 & Hq2).
  destruct (set_queue_fields w q s) as (F1 & F2 & F3 & F4 & F5 & F6). set (s' := set_queue w q s) in *.
  unfold skip_waiting. rewrite (bind_ok _ _ _ _ _ (sch_ok _ _ _ t _ E)). tstep.
  pose proof (popped_perm _ _ _ _ _ _ ss Hp) as Hperm.
  destruct Hl as [L1 L2 L3 L4 L5 L6 L7 L8 L9 L10 L11 L12 L13 L14 L15 L16 L17 L18 L19 L20 L21 L22 L23 L24 L25 L26].
  assert (Hst : store_ok s') by (by apply (store_ok_same s)). pose proof (order_total _ Hst) as Hot.
  eexists s', _, (QueueSpec.prepend (req_order s') (policy (config s)) rid ss). split; [reflexivity|]. split; [|done].
  assert (Hall : ws1 ++ ks1 ++ QueueSpec.prepend (req_order s') (policy (config s)) rid ss ≡ₚ ws ++ ks ++ ss).
  { rewrite prepend_perm, Hperm, <-!Permutation_middle. done. }
  split; try done; rewrite ?F1, ?F2, ?F3, ?F4, ?F6; try done.
  - unfold encoder_idle. by rewrite F5.
  - by apply (queued_same s).
  - by apply (queued_same s).
  - rewrite <-F2. apply (prepend_repr (req_order s')). by apply (queued_same s).
  - rewrite <-L10. by apply Permutation_app_head.
  - intros x Hx. destruct (L11 x Hx) as (r & Hr & Hok). exists r. split; [done|]. by eapply run_ok_frame; [|by intros y _|..].
  - intros x. rewrite Hall. apply L12.
  - intros x. rewrite Hall. apply L22.
Qed.

(** ** Changing a waiting request *)

Lemma waiting_not_running s t ws ks ss rid : loop_inv s t ws ks ss → rid ∈ ws ++ ks ++ ss → rid ∉ running s.
Proof.
  intros Hl Hw Hr. pose proof (loop_nodup _ _ _ _ _ _ _ _ _ _ Hl) as Hnd. apply NoDup_app in Hnd as (_ & Hd & _).
  by apply (Hd rid).
Qed.

Lemma waiting_put s t ws ks ss rid r r2 : loop_inv s t ws ks ss → rid ∈ ws ++ ks ++ ss → stored s rid r →
  content r2 = content r → wait_ok (kv_cache_manager s) (λ x, x ∉ prev ∨ x ∈ preempted_reqs t) r2 →
  loop_inv (put_req rid r2 s) t ws ks ss.
Proof.
  intros Hl Hin Hr Hc2 Hok. pose proof (waiting_not_running _ _ _ _ _ _ Hl Hin) as Hnr.
  assert (Hsc : same_contents s (put_req rid r2 s)) by (by apply (put_req_contents s rid r2 r)).
  assert (Hq : ∀ q l, queued s q l → queued (put_req rid r2 s) q l) by (intros q l; by apply queued_contents).
  destruct Hl as [L1 L2 L3 L4 L5 L6 L7 L8 L9 L10 L11 L12 L13 L14 L15 L16 L17 L18 L19 L20 L21 L22 L23 L24 L25 L26].
  split; try done.
  - apply (put_req_store s rid r2 r); [done..|]. rewrite <-(so_id _ L3 _ _ Hr). by apply content_id.
  - by apply (Hq _ _ L6).
  - by apply (Hq _ _ L7).
  - by apply (Hq _ _ L8).
  - etrans; [apply (put_req_keys s rid r2 r Hr)|done].
  - intros x Hx. rewrite stored_put, decide_False by (by intros ->). by apply L11.
  - intros x Hx. rewrite stored_put. case_decide; [by exists r2|by apply L12].
  - intros x. rewrite <-(L23 x). symmetry. apply Hsc.
Qed.

Lemma waiting_kv s t ws ks ss rid r k' : loop_inv s t ws ks ss → rid ∈ ws ++ ks ++ ss → stored s rid r →
  kv_ok k' → kv_keeps (λ x, x ≠ rid) (kv_cache_manager s) k' →
  (num_computed_tokens r = 0 ∧ kv_vacant k' rid ∨
   0 < num_computed_tokens r < num_tokens r ∧ kv_slots k' rid (num_computed_tokens r)) →
  loop_inv (s_set_kv_cache_manager k' s) t ws ks ss.
Proof.
  intros Hl Hin Hr Hk Hkeep Hw. pose proof (waiting_not_running _ _ _ _ _ _ Hl Hin) as Hnr.
  eapply (loop_kv _ _ _ _ _ _ _ _ _ _ _ rid); [done|eapply loop_member, elem_of_app; [done|by right]|done..|].
  intros r' Hr' _. assert (r' = r) as -> by congruence.
  destruct (li_wait _ _ _ _ _ _ _ _ _ _ Hl rid Hin) as (r' & Hr'' & [W1 W2 W3 W4]). assert (r' = r) as -> by congruence.
  rewrite (so_id _ (li_store _ _ _ _ _ _ _ _ _ _ Hl) _ _ Hr) in *. split; [done|done| |by rewrite (so_id _ (li_store _ _ _ _ _ _ _ _ _ _ Hl) _ _ Hr)].
  intros Hst. rewrite (so_id _ (li_store _ _ _ _ _ _ _ _ _ _ Hl) _ _ Hr). split; [by apply W3|split; [by apply W3|done]].
Qed.
(** ** Blocked requests *)

Lemma blocked_ok s t ws ks ss rid r : loop_inv s t ws ks ss → rid ∈ ws ++ ks ++ ss → stored s rid r →
  ∃ b s', (if _is_blocked_waiting_status (status r)
           then promoted ← sch (_try_promote_blocked_waiting_request rid); mret (negb promoted)
           else mret false) (s, t) = Ok (b, (s', t))
    ∧ running s' = running s ∧ loop_inv s' t ws ks ss
    ∧ (b = false → ∃ r', stored s' rid r' ∧ (status r' = WAITING ∨ status r' = PREEMPTED)).
Proof.
  intros Hl Hin Hr. destruct (li_wait _ _ _ _ _ _ _ _ _ _ Hl rid Hin) as (r' & Hr' & Hok). assert (r' = r) as -> by congruence.
  pose proof Hok as [W1 W2 W3 W4]. clear Hr'.
  assert (Hrun : ∀ b s', _try_promote_blocked_waiting_request rid s = Ok (b, s') →
    (promoted ← sch (_try_promote_blocked_waiting_request rid); mret (negb promoted)) (s, t) = Ok (negb b, (s', t))).
  { intros b s' E. by rewrite (bind_ok _ _ _ _ _ (sch_ok _ _ _ t _ E)). }
  rewrite blocked_status. destruct (status r) eqn:Est; try (status_out W1).
  - exists false, s. split; [done|]. split; [done|]. split; [done|]. intros _. exists r. auto.
  - destruct (grammar_ready r) eqn:Eg.
    + exists false, (put_req rid (req_set_status WAITING r) s). split; [|split; [done|split]].
      * apply (Hrun true). unfold _try_promote_blocked_waiting_request. rewrite (bind_ok _ _ _ _ _ (deref_ok _ _ _ Hr)), Est, Eg. simpl.
        by rewrite (bind_ok _ _ _ _ _ (mutate_ok s rid r _ Hr)).
      * eapply waiting_put; [done..|]. split; simpl; [status_in|done| |done].
        intros _. destruct W3 as (Hf & Hph & Hk); [status_in|]. split; [by eapply (fits_content _ _ r)|done].
      * intros _. eexists. split; [rewrite stored_put; by rewrite decide_True|by left].
    + exists true, s. split; [|done]. apply (Hrun false). unfold _try_promote_blocked_waiting_request.
      by rewrite (bind_ok _ _ _ _ _ (deref_ok _ _ _ Hr)), Est, Eg.
  - exists true, s. split; [|done]. apply (Hrun false). unfold _try_promote_blocked_waiting_request.
    rewrite (bind_ok _ _ _ _ _ (deref_ok _ _ _ Hr)), Est, W2 by done. done.
  - exists false, s. split; [done|]. split; [done|]. split; [done|]. intros _. exists r. auto.
Qed.

(** ** The cache lookup *)

(** Allocating the tokens after the first [nc] is safe. *)
Definition admissible k r (cached : KVCacheBlocks) (local nc : Z) : Prop :=
  ∀ n ahead must sched, 0 < n → 0 ≤ ahead → nc + n ≤ max_len →
  ∃ res k', allocate_slots r n local (Some cached) ahead 0 false 0 must 0 sched k = Ok (res, k')
    ∧ kv_ok k' ∧ kv_keeps (λ x, x ≠ request_id r) k k'
    ∧ match res with
      | Some _ => kv_slots k' (request_id r) (nc + n)
      | None => num_computed_tokens r = 0 ∧ kv_vacant k' (request_id r) ∨
                0 < num_computed_tokens r < num_tokens r ∧ kv_slots k' (request_id r) (num_computed_tokens r)
      end.

Lemma lookup_ok s t ws ks ss rid r : loop_inv s t ws ks ss → rid ∈ ws ++ ks ++ ss → stored s rid r →
  status r = WAITING ∨ status r = PREEMPTED →
  ∃ cached local hint nc s' r', lookup_computed rid (s, t) = Ok ((cached, local, hint, nc), (s', t))
    ∧ running s' = running s ∧ loop_inv s' t ws ks ss ∧ stored s' rid r' ∧ content r' = content r ∧ status r' = status r
    ∧ 0 ≤ nc < num_tokens r' ∧ admissible (kv_cache_manager s') r' cached local nc.
Proof.
  intros Hl Hin Hr Hst. destruct (li_wait _ _ _ _ _ _ _ _ _ _ Hl rid Hin) as (r0 & Hr0 & Hok).
  assert (r0 = r) as -> by congruence. clear Hr0. pose proof (so_id _ (li_store _ _ _ _ _ _ _ _ _ _ Hl) _ _ Hr) as Hid.
  destruct (wk_ready _ _ _ _ _ Hok) as (Hfit & Hph & Hkv); [destruct Hst as [-> | ->]; status_in|].
  unfold lookup_computed. rewrite (bind_ok _ _ _ _ _ (sch_ok _ _ _ t _ (deref_ok _ _ _ Hr))).
  pose proof (li_kv _ _ _ _ _ _ _ _ _ _ Hl) as Hk.
  destruct Hkv as [[Hc0 Hvac]|[Hc0 Hsl]].
  - rewrite Hc0. simpl (0 =? 0). cbv iota.
    destruct (kc_lookup (kv_cache_manager s) r Hk (ft_ready _ _ _ Hfit) Hvac Hc0 (ft_tokens _ _ _ Hfit))
      as (cached & hit & k' & E & Hk' & Hkeep & Hhit & Hkh).
    rewrite (bind_ok _ _ _ _ _ (sch_ok _ _ _ t _ (on_kv_ok _ _ _ _ E))).
    set (s1 := s_set_kv_cache_manager k' s).
    assert (Hl1 : loop_inv s1 t ws ks ss).
    { eapply (waiting_kv s t ws ks ss rid r k'); [done..| |left; split; [done|]; rewrite <-Hid; by apply (Hkeep (request_id r))].
      eapply keeps_weaken; [|exact Hkeep]. done. }
    tstep. rewrite (proj2 (Z.leb_le hit (num_tokens r))) by lia. mstep.
    assert (Hadm : ∀ r', content r' = content r → num_computed_tokens r' = 0 → admissible k' r' cached hit hit).
    { intros r' Hc' Hz n ahead must sched Hn Ha Hm.
      destruct (kc_admit k' r r' n cached hit ahead must sched) as (res & k2 & E2 & Hk2 & Hkp & Hres); try done.
      exists res, k2. split_and!; try done. destruct res; [done|]. by left. }
    destruct (prefill_stats r) as [st|] eqn:Eps.
    + pose proof (ft_stats _ _ _ Hfit) as Hps. rewrite Eps in Hps. specialize (Hps ltac:(done)).
      assert (Hset : ∃ st', prefill_stats_set (num_prompt_tokens r) hit 0 = Ok st').
      { unfold prefill_stats_set. rewrite (proj2 (Z.leb_le (hit + 0) (num_prompt_tokens r))) by lia. by eexists. }
      destruct Hset as [st' Est]. set (r2 := req_set_prefill_stats (Some st') r).
      assert (Hc2 : content r2 = content r) by (unfold content, r2; simpl; by rewrite Eps).
      eexists cached, hit, _, hit, (put_req rid r2 s1), r2. split.
      { mstep by (rewrite (proj2 (Z.leb_le hit (num_prompt_tokens r))) by lia; mstep; rewrite Est; mstep;
          exact (sch_ok _ _ _ t _ (mutate_ok s1 rid r _ Hr))). reflexivity. }
      split; [done|]. split.
      { eapply (waiting_put s1 t ws ks ss rid r r2 Hl1 Hin Hr Hc2).
        destruct (li_wait _ _ _ _ _ _ _ _ _ _ Hl1 rid Hin) as (r0 & Hr0 & [W1 W2 W3 W4]).
        change (stored s rid r0) in Hr0. assert (r0 = r) as -> by congruence. split; [done|done| |done]. intros Hs. destruct (W3 Hs) as [_ ?].
        split; [by eapply (fits_content _ _ r)|done]. }
      rewrite stored_put, decide_True by done. split_and!; try done; [exact (proj1 Hhit)|exact (proj2 Hhit)|by apply Hadm].
    + eexists cached, hit, _, hit, s1, r. split; [mstep; reflexivity|]. split_and!; try done; [exact (proj1 Hhit)|exact (proj2 Hhit)|by apply Hadm].
  - rewrite (proj2 (Z.eqb_neq (num_computed_tokens r) 0)) by lia.
    eexists TheEmpty, 0, 0, (num_computed_tokens r), s, r. split; [reflexivity|]. split_and!; try done; try lia.
    intros n ahead must sched Hn Ha Hm.
    destruct (kc_running (kv_cache_manager s) r n (Some TheEmpty) ahead must sched) as (res & k2 & E2 & Hk2 & Hkp & Hres);
      try done; [apply Hfit|lia|].
    exists res, k2. split_and!; try done. destruct res; [done|]. rewrite Z.add_0_r in Hres. by right.
Qed.
(** ** Admission *)

Definition admitted_request (log : bool) (nc : Z) r : Request :=
  req_set_num_computed_tokens nc (req_set_status RUNNING (if log then record_event SCHEDULED r else r)).

Lemma admitted_content log nc r : content (admitted_request log nc r) = content r.
Proof. by destruct log. Qed.

(** The request joins the list of new or of resumed requests. *)
Definition note_origin rid r t : Step :=
  match status r with
  | WAITING => t_set_scheduled_new_reqs (scheduled_new_reqs t ++ [rid]) t
  | _ => t_set_scheduled_resumed_reqs (scheduled_resumed_reqs t ++ [rid]) t
  end.

Lemma note_origin_fields rid r t : let t' := note_origin rid r t in
  num_scheduled_tokens t' = num_scheduled_tokens t ∧ token_budget t' = token_budget t
  ∧ req_to_new_blocks t' = req_to_new_blocks t ∧ preempted_reqs t' = preempted_reqs t
  ∧ step_skipped_waiting t' = step_skipped_waiting t ∧ scheduled_encoder_inputs t' = scheduled_encoder_inputs t
  ∧ scheduled_spec_decode_tokens t' = scheduled_spec_decode_tokens t
  ∧ scheduled_running_reqs t' ++ scheduled_new_reqs t' ++ scheduled_resumed_reqs t'
    ≡ₚ (scheduled_running_reqs t ++ scheduled_new_reqs t ++ scheduled_resumed_reqs t) ++ [rid]
  ∧ (∀ x, x ∈ scheduled_resumed_reqs t' → x ∈ scheduled_resumed_reqs t ∨ x = rid ∧ status r ≠ WAITING).
Proof.
  unfold note_origin. destruct (status r); simpl; (split_and!; [done..| |set_solver]); rewrite <-!app_assoc; try done.
  by rewrite (Permutation_app_comm [rid]).
Qed.

Lemma admitted_inv s s' t ws ks ss w rid ws1 ks1 r k' b nc n log :
  loop_inv s t ws ks ss → preempted_reqs t = [] → popped w rid ws ks ws1 ks1 → stored s rid r →
  status r = WAITING ∨ status r = PREEMPTED → zlen (running s) < max_num_running_reqs c →
  0 < n ≤ token_budget t → 0 ≤ nc → nc + n ≤ num_tokens r →
  kv_ok k' → kv_keeps (λ x, x ≠ rid) (kv_cache_manager s) k' → kv_slots k' rid (nc + n) →
  requests s' = dict_set (requests s) rid (admitted_request log nc r) → config s' = config s →
  prev_step_scheduled_req_ids s' = prev_step_scheduled_req_ids s → kv_cache_manager s' = k' →
  encoder_cache_manager s' = encoder_cache_manager s → running s' = running s ++ [rid] →
  queued s (waiting s') ws1 → queued s (skipped_waiting s') ks1 →
  loop_inv s' (note_admitted rid b n (note_origin rid r t)) ws1 ks1 ss.
Proof.
  intros Hl Hnp Hp Hr Hst Hlim Hn Hnc Htok Hk' Hkeep Hsl F1 F2 F3 F4 F5 F6 Hq1 Hq2.
  pose proof (popped_perm _ _ _ _ _ _ ss Hp) as Hperm.
  assert (Hin : rid ∈ ws ++ ks ++ ss) by (rewrite Hperm; left).
  pose proof (waiting_not_running _ _ _ _ _ _ Hl Hin) as Hnr.
  pose proof (loop_nodup _ _ _ _ _ _ _ _ _ _ Hl) as Hnd.
  destruct (li_wait _ _ _ _ _ _ _ _ _ _ Hl rid Hin) as (r0 & Hr0 & [W1 W2 W3 W4]). assert (r0 = r) as -> by congruence.
  destruct W3 as (Hfit & [Hph Hsync] & _); [destruct Hst as [-> | ->]; status_in|].
  destruct (note_origin_fields rid r t) as (T1 & T2 & T3 & T4 & T5 & T6 & T7 & T8 & T9).
  set (t1 := note_origin rid r t) in *. set (t' := note_admitted rid b n t1).
  set (r2 := admitted_request log nc r) in *.
  pose proof (admitted_content log nc r : content r2 = content r) as Hc2.
  destruct Hl as [L1 L2 L3 L4 L5 L6 L7 L8 L9 L10 L11 L12 L13 L14 L15 L16 L17 L18 L19 L20 L21 L22 L23 L24 L25 L26].
  pose proof (so_id _ L3 _ _ Hr) as Hid. pose proof (content_id _ _ Hc2) as Hid2. rewrite Hid in Hid2.
  assert (Hnk : rid ∉ keys t) by (intros Hx%L15; by destruct Hx).
  assert (Hg' : ∀ x, dict_get (requests s') x = if decide (x = rid) then Some r2 else dict_get (requests s) x)
    by (intros x; rewrite F1; apply dict_get_set).
  assert (Hsc : same_contents s s').
  { intros x. rewrite Hg'. case_decide as Hx; [|done]. subst x. rewrite Hr. simpl. by rewrite Hc2. }
  assert (Hq : ∀ q l, queued s q l → queued s' q l) by (intros q l; by apply queued_contents).
  assert (Hks : keys t' = keys t ++ [rid]).
  { unfold keys, t'. cbn. rewrite T1, dict_set_keys, decide_False by done. done. }
  assert (Hg : ∀ x, dict_get (num_scheduled_tokens t') x = if decide (x = rid) then Some n else dict_get (num_scheduled_tokens t) x)
    by (intros x; unfold t'; cbn; rewrite T1; apply dict_get_set).
  assert (Hstore : store_ok s').
  { split; [rewrite F1, dict_set_keys, decide_True; [apply L3|apply dict_get_is_Some; by eexists]|].
    intros x y. rewrite Hg'. case_decide as Hx; [intros [= <-]; by subst|apply (so_id _ L3)]. }
  split; try done; rewrite ?F4; try done.
  - by rewrite F2.
  - by rewrite F3.
  - unfold encoder_idle. by rewrite F5.
  - by apply Hq.
  - by apply Hq.
  - apply Hq. unfold t'. cbn. by rewrite T5.
  - rewrite F1, dict_set_keys, decide_True; [done|]. apply dict_get_is_Some. by eexists.
  - rewrite F6, <-L10, Hperm, <-app_assoc. done.
  - intros x. rewrite F6, Hg'. intros Hx. destruct (decide (x = rid)) as [->|Hne].
    + exists r2. split; [done|].
      assert (due t' rid = n) as Hdue by (unfold due; rewrite Hg; by rewrite decide_True).
      assert (num_output_placeholders r2 = num_output_placeholders r) as Hp2 by (unfold r2; by destruct log).
      assert (num_computed_tokens r2 = nc) as Hc by done. pose proof (ft_room _ _ _ Hfit).
      split; unfold placeholders_ok; rewrite ?Hid2, ?Hdue, ?Hp2, ?Hc, ?(content_tokens _ _ Hc2); try done; try lia;
        [by eapply (fits_content _ _ r)|].
      unfold drafts. pose proof (zlen_nonneg (default [] (dict_get (scheduled_spec_decode_tokens t') rid))). lia.
    + apply elem_of_app in Hx as [Hx|Hx]; [|by apply list_elem_of_singleton in Hx].
      destruct (L11 x Hx) as (rx & Hrx & Hokx). exists rx. split; [done|]. pose proof (so_id _ L3 _ _ Hrx) as Hidx.
      eapply run_ok_frame; [done| | |].
      * eapply keeps_weaken; [|done]. intros y ->. by rewrite Hidx.
      * rewrite Hg, Hidx. by rewrite decide_False.
      * unfold t'. cbn. by rewrite T7.
  - intros x Hx. assert (x ≠ rid) as Hne.
    { intros ->. rewrite Hperm in Hnd. apply NoDup_app in Hnd as (_ & _ & [? _]%NoDup_cons). done. }
    destruct (L12 x) as (rx & Hrx & Hokx); [rewrite Hperm; by right|].
    exists rx. rewrite Hg', decide_False by done. split; [done|]. pose proof (so_id _ L3 _ _ Hrx) as Hidx.
    eapply wait_ok_frame; [done| |].
    + eapply keeps_weaken; [|done]. intros y ->. by rewrite Hidx.
    + unfold t'. cbn. by rewrite T4.
  - rewrite Hks. apply NoDup_app. split; [done|]. split; [|apply NoDup_singleton].
    intros x Hx ->%list_elem_of_singleton. done.
  - rewrite Hks. unfold t'. cbn. by rewrite T8, L14.
  - intros x. rewrite Hks, F6. unfold t'. cbn. rewrite T3. intros Hx. rewrite dict_get_set.
    apply elem_of_app in Hx as [Hx| ->%list_elem_of_singleton].
    + destruct (L15 x Hx) as [? ?]. split; [apply elem_of_app; by left|]. by case_decide.
    + split; [apply elem_of_app; right; left|]. by rewrite decide_True.
  - intros x m Hx. unfold t' in Hx. cbn in Hx. rewrite T1, dict_set_new in Hx by done.
    apply elem_of_app in Hx as [Hx|Hx]; [by eapply L16|]. apply list_elem_of_singleton in Hx as [= -> ->]. lia.
  - unfold t'. cbn. rewrite T1, T2, dict_set_new by done. rewrite fmap_app, zsum_app. cbn. lia.
  - unfold t'. cbn. rewrite T2. lia.
  - rewrite F6, zlen_app. unfold zlen at 2. simpl. lia.
  - intros x Hx. destruct (T9 x Hx) as [?|[-> Hnw]]; [by apply L20|]. destruct Hst as [?|Hpre]; [done|].
    destruct (W4 Hpre) as [Hpv|Hpv]; [by rewrite Hid in Hpv|]. rewrite Hnp in Hpv. by apply not_elem_of_nil in Hpv.
  - unfold t'. cbn. by rewrite T6.
  - intros x. unfold t'. cbn. rewrite T4, Hnp. by intros ?%not_elem_of_nil.
  - intros x. rewrite <-(L23 x). symmetry. apply Hsc.
  - intros x Hx. apply (Hkeep x); [|by apply L24]. intros ->. apply Hx. rewrite <-L10. apply elem_of_app. right. rewrite Hperm. left.
  - intros x. unfold due. rewrite Hg. unfold t', drafts. cbn. rewrite T7. specialize (L25 x). unfold drafts in L25.
    case_decide as Hx; [|done]. subst x. rewrite not_due in L25 by done. simpl. lia.
  - unfold t'. cbn. by rewrite T7.
Qed.
Lemma dict_set_twice {V} (d : list (string * V)) x v v' : dict_set (dict_set d x v) x v' = dict_set d x v'.
Proof.
  induction d as [|[y u] d IH]; simpl; [by rewrite decide_True|].
  destruct (decide (y = x)) as [->|Hne]; simpl; [by rewrite decide_True|]. rewrite decide_False by done. by rewrite IH.
Qed.

Lemma admit_ok s t ws ks ss w rid ws1 ks1 r k' nc n new_budget :
  loop_inv s t ws ks ss → preempted_reqs t = [] → popped w rid ws ks ws1 ks1 → stored s rid r →
  status r = WAITING ∨ status r = PREEMPTED → zlen (running s) < max_num_running_reqs c →
  0 < n ≤ token_budget t → 0 ≤ nc → nc + n ≤ num_tokens r →
  kv_ok k' → kv_keeps (λ x, x ≠ rid) (kv_cache_manager s) k' → kv_slots k' rid (nc + n) →
  ∃ s' t', admit_waiting w rid nc n [] new_budget (s_set_kv_cache_manager k' s, t) = Ok (tt, (s', t'))
    ∧ loop_inv s' t' ws1 ks1 ss ∧ preempted_reqs t' = [].
Proof.
  intros Hl Hnp Hp Hr Hst Hlim Hn Hnc Htok Hk' Hkeep Hsl. set (s0 := s_set_kv_cache_manager k' s).
  destruct (pop_ok s0 ws ks w rid ws1 ks1) as (q & E & Hq1 & Hq2); [|by apply (queued_same s), Hl..|done|].
  { by apply (store_ok_same s), Hl. }
  set (s1 := set_queue w q s0) in *.
  assert (G : requests s1 = requests s ∧ config s1 = config s ∧ running s1 = running s ∧ kv_cache_manager s1 = k'
    ∧ encoder_cache_manager s1 = encoder_cache_manager s ∧ prev_step_scheduled_req_ids s1 = prev_step_scheduled_req_ids s)
    by (unfold s1; by destruct w).
  destruct G as (G1 & G2 & G3 & G4 & G5 & G6). assert (Hr1 : stored s1 rid r) by (by rewrite G1).
  set (log := sc_log_stats c). set (s2 := s_set_running (running s1 ++ [rid]) s1).
  set (re := if log then record_event SCHEDULED r else r). set (s3 := put_req rid re s2).
  set (t1 := note_admitted rid (km_get_blocks (kv_cache_manager s2) rid) n (note_origin rid r t)).
  set (s4 := put_req rid (admitted_request log nc r) s3).
  set (s5 := if nc + n <? num_tokens r then s_set_inflight_prefills (_inflight_prefills s4 ∪ {[rid]}) s4 else s4).
  exists s5, t1. split.
  { unfold admit_waiting. rewrite (bind_ok _ _ _ _ _ (sch_ok _ _ _ t _ E)).
    rewrite (bind_ok _ _ _ _ _ (sch_ok _ _ _ t _ (deref_ok _ _ _ Hr1))). mstep. tstep.
    fold s2. replace (config s2) with c by (etrans; [symmetry; apply Hl|symmetry; exact G2]). fold log.
    assert (E3 : (if log then sch (mutate rid (record_event SCHEDULED)) else mret tt) (s2, t) = Ok (tt, (s3, t))).
    { unfold s3, re. destruct log; [by apply sch_ok, (mutate_ok s2 rid r)|]. by rewrite put_req_same. }
    rewrite (bind_ok _ _ _ _ _ E3).
    assert (E4 : (match status r with
      | WAITING => modT (λ t, t_set_scheduled_new_reqs (scheduled_new_reqs t ++ [rid]) t)
      | PREEMPTED => modT (λ t, t_set_scheduled_resumed_reqs (scheduled_resumed_reqs t ++ [rid]) t)
      | _ => raise RuntimeError
      end) (s3, t) = Ok (tt, (s3, note_origin rid r t))) by (unfold note_origin; by destruct Hst as [-> | ->]).
    rewrite (bind_ok _ _ _ _ _ E4), (cf_lora _ _ Hcfg). mstep. mstep. cbn [fst snd].
    assert (Hr3 : stored s3 rid re) by (unfold s3; rewrite stored_put; by rewrite decide_True).
    rewrite (bind_ok _ _ _ _ _ (sch_ok _ _ _ t1 _ (mutate_ok s3 rid re _ Hr3))).
    change (req_set_num_computed_tokens nc (req_set_status RUNNING re)) with (admitted_request log nc r).
    fold s4. unfold s5. by destruct (nc + n <? num_tokens r). }
  assert (F : requests s5 = requests s4 ∧ config s5 = config s4 ∧ running s5 = running s4
    ∧ kv_cache_manager s5 = kv_cache_manager s4 ∧ encoder_cache_manager s5 = encoder_cache_manager s4
    ∧ prev_step_scheduled_req_ids s5 = prev_step_scheduled_req_ids s4 ∧ waiting s5 = waiting s1
    ∧ skipped_waiting s5 = skipped_waiting s1) by (unfold s5; by destruct (nc + n <? num_tokens r)).
  destruct F as (F1 & F2 & F3 & F4 & F5 & F6 & F7 & F8). clearbody s5.
  destruct (note_origin_fields rid r t) as (_ & _ & _ & T4 & _). split; [|unfold t1; cbn; by rewrite T4].
  eapply (admitted_inv s s5 t ws ks ss w rid ws1 ks1 r k' _ nc n log); try done.
  - rewrite F1. simpl. rewrite G1. apply dict_set_twice.
  - by rewrite F2.
  - by rewrite F6.
  - by rewrite F4.
  - by rewrite F5.
  - rewrite F3. simpl. by rewrite G3.
  - rewrite F7. by apply (queued_same s0).
  - rewrite F8. by apply (queued_same s0).
Qed.

(** ** One round *)

(** Tokens of a waiting request, before alignment. *)
Lemma waiting_tokens_bounds (b n : Z) : 0 < b → 0 < n →
  let n1 := if (0 <? long_prefill_token_threshold c) && (long_prefill_token_threshold c <? n)
            then long_prefill_token_threshold c else n in
  0 < Z.min n1 b ∧ Z.min n1 b ≤ n.
Proof.
  intros Hb Hn. destruct ((0 <? long_prefill_token_threshold c) && _) eqn:E; simpl; [|lia].
  apply andb_true_iff in E as [E1%Z.ltb_lt E2%Z.ltb_lt]. lia.
Qed.

Lemma schedule_waiting_ok s t ws ks ss :
  loop_inv s t ws ks ss → preempted_reqs t = [] → ws ≠ [] ∨ ks ≠ [] → 0 < token_budget t →
  zlen (running s) < max_num_running_reqs c →
  ∃ go s' t' ws' ks' ss', schedule_waiting (s, t) = Ok (go, (s', t')) ∧ loop_inv s' t' ws' ks' ss'
    ∧ preempted_reqs t' = [] ∧ (go = true → length (ws' ++ ks') < length (ws ++ ks))%nat.
Proof.
  intros Hl Hnp Hne Hb Hlim. destruct (select_ok _ _ _ _ _ Hl Hne) as (w & rid & ws1 & ks1 & Esel & Hp & Hpeek).
  pose proof (popped_perm _ _ _ _ _ _ ss Hp) as Hperm. assert (Hin : rid ∈ ws ++ ks ++ ss) by (rewrite Hperm; left).
  assert (Hlen : (length (ws1 ++ ks1) < length (ws ++ ks))%nat).
  { pose proof (popped_perm _ _ _ _ _ _ [] Hp) as Hpn. rewrite !app_nil_r in Hpn. rewrite Hpn. simpl. lia. }
  destruct (li_wait _ _ _ _ _ _ _ _ _ _ Hl rid Hin) as (r & Hr & _).
  unfold schedule_waiting. rewrite (bind_ok _ _ _ _ _ (sch_ok _ _ _ t _ Esel)). tstep. rewrite Hpeek. mstep.
  rewrite (bind_ok _ _ _ _ _ (sch_ok _ _ _ t _ (deref_ok _ _ _ Hr))). rewrite (li_config _ _ _ _ _ _ _ _ _ _ Hl).
  destruct (blocked_ok s t ws ks ss rid r Hl Hin Hr) as (b & s1 & E1 & Hrun1 & Hl1 & Hb1).
  rewrite (bind_ok _ _ _ _ _ E1). tstep.
  assert (lora_blocked c (scheduled_loras t) r = false) as -> by (unfold lora_blocked; by rewrite (cf_lora _ _ Hcfg)).
  rewrite orb_false_r. destruct b.
  { destruct (skip_waiting_ok s1 t ws ks ss w rid ws1 ks1 Hl1 Hp) as (s2 & t2 & ss2 & E2 & Hl2 & Hnp2).
    rewrite (bind_ok _ _ _ _ _ E2). exists true, s2, t2, ws1, ks1, ss2. split_and!; try done. congruence. }
  destruct (Hb1 eq_refl) as (r1 & Hr1 & Hst1). clear Hb1.
  destruct (lookup_ok s1 t ws ks ss rid r1 Hl1 Hin Hr1 Hst1) as
    (cached & local & hint & nc & s2 & r2 & E2 & Hrun2 & Hl2 & Hr2 & Hc2 & Hs2 & Hnc & Hadm).
  rewrite (bind_ok _ _ _ _ _ E2). cbv beta iota.
  rewrite (bind_ok _ _ _ _ _ (sch_ok _ _ _ t _ (deref_ok _ _ _ Hr2))).
  rewrite <-Hs2 in Hst1. pose proof (so_id _ (li_store _ _ _ _ _ _ _ _ _ _ Hl2) _ _ Hr2) as Hid.
  destruct (li_wait _ _ _ _ _ _ _ _ _ _ Hl2 rid Hin) as (r3 & Hr3 & Hok). assert (r3 = r2) as -> by congruence. clear Hr3.
  destruct (wk_ready _ _ _ _ _ Hok) as (Hfit & _ & _); [destruct Hst1 as [-> | ->]; status_in|].
  destruct (waiting_tokens_bounds (token_budget t) (num_tokens r2 - nc) Hb ltac:(lia)) as [Hn1 Hn2].
  set (n0 := if (0 <? long_prefill_token_threshold c) && _ then _ else _) in *.
  assert (Hstop : loop_inv s2 t ws ks ss ∧ preempted_reqs t = [] ∧
    (false = true → length (ws ++ ks) < length (ws ++ ks))%nat) by (by split).
  destruct (negb (enable_chunked_prefill c) && _); [by exists false, s2, t, ws, ks, ss|].
  rewrite (proj2 (Z.ltb_lt 0 (Z.min n0 (token_budget t)))) by lia. mstep.
  rewrite (text_no_inputs r2) by apply (ft_text _ _ _ Hfit). mstep. cbv beta iota.
  set (n1 := Z.min n0 (token_budget t)) in *. cbn [andb].
  set (n := if need_mamba_block_aligned_split c then _mamba_block_aligned_split c r2 n1 local 0 hint else n1).
  assert (0 ≤ n ≤ n1) as Hn.
  { unfold n. destruct (need_mamba_block_aligned_split c); [|lia]. apply aligned_split_bounds; [apply Hcfg|lia]. }
  assert (Hz : need_mamba_block_aligned_split c && (n =? 0) = false → 0 < n).
  { unfold n in *. destruct (need_mamba_block_aligned_split c); [|lia]. simpl. intros ?%Z.eqb_neq. lia. }
  clearbody n. destruct (need_mamba_block_aligned_split c && (n =? 0)); [by exists false, s2, t, ws, ks, ss|].
  specialize (Hz eq_refl). rewrite andb_false_r. mstep. tstep.
  destruct (Hadm n (num_lookahead_tokens c) (scheduler_reserve_full_isl c) (bool_decide (running s2 ≠ [])) Hz
    (cf_ahead _ _ Hcfg)) as (res & k' & Ek & Hk' & Hkeep & Hres).
  { pose proof (ft_room _ _ _ Hfit). pose proof (cf_sampled _ _ Hcfg). lia. }
  rewrite (bind_ok _ _ _ _ _ (sch_ok _ _ _ t _ (on_kv_ok _ _ _ _ Ek))). rewrite Hid in *. destruct res as [nb|].
  - destruct (admit_ok s2 t ws ks ss w rid ws1 ks1 r2 k' nc n (encoder_compute_budget t) Hl2 Hnp Hp Hr2 Hst1)
      as (s3 & t3 & E3 & Hl3 & Hnp3); try done; try lia.
    { by rewrite Hrun2, Hrun1. }
    rewrite (bind_ok _ _ _ _ _ E3). by exists true, s3, t3, ws1, ks1, ss.
  - mstep. eexists false, _, t, ws, ks, ss. split; [reflexivity|]. split; [|done].
    by apply (waiting_kv s2 t ws ks ss rid r2 k').
Qed.
(** ** The loop *)

Lemma waiting_loop_ok fuel : ∀ s t ws ks ss, loop_inv s t ws ks ss → preempted_reqs t = [] →
  (length (ws ++ ks) ≤ fuel)%nat →
  ∃ s' t' ws' ks' ss', waiting_loop fuel (s, t) = Ok (tt, (s', t')) ∧ loop_inv s' t' ws' ks' ss'.
Proof.
  induction fuel as [|fuel IH]; intros s t ws ks ss Hl Hnp Hf; cbn [waiting_loop]; tstep; tstep;
    rewrite (queue_bool_queued _ _ _ (li_waiting _ _ _ _ _ _ _ _ _ _ Hl)),
      (queue_bool_queued _ _ _ (li_skipped _ _ _ _ _ _ _ _ _ _ Hl)).
  - destruct ws, ks; simpl in Hf; try lia. simpl. by exists s, t, [], [], ss.
  - destruct (bool_decide (ws ≠ []) || bool_decide (ks ≠ [])) eqn:Ene; simpl; [|by exists s, t, ws, ks, ss].
    destruct (Z.ltb_spec 0 (token_budget t)) as [Hb|Hb]; [|by exists s, t, ws, ks, ss].
    rewrite (li_config _ _ _ _ _ _ _ _ _ _ Hl).
    destruct (Z.eqb_spec (zlen (running s)) (max_num_running_reqs c)) as [Hlim|Hlim]; [by exists s, t, ws, ks, ss|].
    destruct (schedule_waiting_ok s t ws ks ss Hl Hnp) as (go & s1 & t1 & ws1 & ks1 & ss1 & E & Hl1 & Hnp1 & Hgo); [|done| |].
    + apply orb_true_iff in Ene as [?%bool_decide_eq_true|?%bool_decide_eq_true]; auto.
    + pose proof (li_limit _ _ _ _ _ _ _ _ _ _ Hl). lia.
    + rewrite (bind_ok _ _ _ _ _ E). destruct go; [|by exists s1, t1, ws1, ks1, ss1].
      apply (IH s1 t1 ws1 ks1 ss1); [done|done|]. specialize (Hgo eq_refl). lia.
Qed.
End waiting_pass.
