(* ===== verification/ScheduleSafe.v ===== *)
(** * A whole scheduling step

    The two passes, the construction of the output and the bookkeeping after it: the
    invariant of the scheduler holds again after [schedule], which never raises. *)

From Stdlib Require Import ZArith Lia.
From S2P Require Import Prelude MathUtils KVSpec FreeQueue Request BlockHash BlockPool SingleType Coordinator KVCacheManager RequestQueue EncoderCache SchedUtils Scheduler Schedule SchedulerSpec RunningPass WaitingPass.
Local Open Scope Z_scope.

(** ** Requests moved forward *)

(** [s'] is [s] with [d rid] more tokens of request [rid] computed. *)
Record moved (d : string → Z) (s s' : Scheduler) : Prop := {
  mv_config : config s' = config s;
  mv_running : running s' = running s;
  mv_waiting : waiting s' = waiting s ∧ skipped_waiting s' = skipped_waiting s;
  mv_kv : kv_cache_manager s' = kv_cache_manager s;
  mv_enc : encoder_cache_manager s' = encoder_cache_manager s;
  mv_prev : prev_step_scheduled_req_ids s' = prev_step_scheduled_req_ids s;
  mv_keys : (requests s').*1 = (requests s).*1;
  mv_req rid r : stored s rid r → ∃ r', stored s' rid r' ∧ content r' = content r ∧ status r' = status r
    ∧ num_computed_tokens r' = num_computed_tokens r + d rid ∧ num_output_placeholders r ≤ num_output_placeholders r'
    ∧ (async_scheduling (config s) = false → num_output_placeholders r' = num_output_placeholders r)
}.

Lemma moved_refl s : moved (λ _, 0) s s.
Proof. split; try done. intros rid r Hr. exists r. split_and!; try done; lia. Qed.

Lemma moved_trans d1 d2 s1 s2 s3 : moved d1 s1 s2 → moved d2 s2 s3 → moved (λ x, d1 x + d2 x) s1 s3.
Proof.
  intros [A1 A2 [A3 A3'] A4 A5 A6 A7 A8] [B1 B2 [B3 B3'] B4 B5 B6 B7 B8]. split; try congruence.
  - split; congruence.
  - intros rid r Hr. destruct (A8 rid r Hr) as (r1 & Hr1 & C1 & C2 & C3 & C4 & C5).
    destruct (B8 rid r1 Hr1) as (r2 & Hr2 & D1 & D2 & D3 & D4 & D5). exists r2.
    split_and!; try done; try congruence; [lia|lia|]. intros Ha. rewrite D5, C5; congruence.
Qed.

Lemma moved_ext d d' s s' : (∀ x, x ∈ (requests s).*1 → d x = d' x) → moved d s s' → moved d' s s'.
Proof.
  intros He [A1 A2 A3 A4 A5 A6 A7 A8]. split; try done. intros rid r Hr.
  assert (rid ∈ (requests s).*1) as Hin by (apply dict_get_is_Some; by eexists).
  rewrite <-(He _ Hin). by apply A8.
Qed.

Lemma moved_put s rid r r' n :
  stored s rid r → content r' = content r → status r' = status r →
  num_computed_tokens r' = num_computed_tokens r + n → num_output_placeholders r ≤ num_output_placeholders r' →
  (async_scheduling (config s) = false → num_output_placeholders r' = num_output_placeholders r) →
  moved (λ x, if decide (x = rid) then n else 0) s (put_req rid r' s).
Proof.
  intros Hr C1 C2 C3 C4 C5. split; try done; [by apply (put_req_keys s rid r' r)|].
  intros x y Hy. rewrite stored_put. destruct (decide (x = rid)) as [->|Hne].
  - assert (y = r) as -> by congruence. exists r'. by split_and!.
  - exists y. split_and!; try done; lia.
Qed.

(** Tokens counted for a request in a list of counts. *)
Fixpoint tally (l : list (string * Z)) (x : string) : Z :=
  match l with [] => 0 | (y, n) :: l => (if decide (x = y) then n else 0) + tally l x end.

Lemma tally_nodup l x : NoDup l.*1 → tally l x = default 0 (dict_get l x).
Proof.
  induction l as [|[y n] l IH]; csimpl; [done|]. intros [Hy Hl]%NoDup_cons. rewrite (IH Hl).
  destruct (decide (x = y)) as [->|Hne].
  - rewrite decide_True by done. rewrite (proj2 (dict_get_None _ _) Hy). simpl. lia.
  - by rewrite decide_False by done.
Qed.

(** Setting [_inflight_prefills] or [finished_req_ids] moves nothing. *)
Lemma moved_inflight d s s' v : moved d s s' → moved d s (s_set_inflight_prefills v s').
Proof. intros [A1 A2 A3 A4 A5 A6 A7 A8]. by split. Qed.
Lemma moved_finished d s s' v : moved d s s' → moved d s (s_set_finished_req_ids v s').
Proof. intros [A1 A2 A3 A4 A5 A6 A7 A8]. by split. Qed.

Lemma advance_one_ok s rid r n b : stored s rid r →
  ∃ b' s', advance_computed rid n b s = Ok (b', s') ∧ moved (λ x, if decide (x = rid) then n else 0) s s'
    ∧ (∀ r', stored s' rid r' → num_output_placeholders r' = num_output_placeholders r ∧
         (is_prefill_chunk r' = true → num_computed_tokens r' < num_tokens r' + num_output_placeholders r'))
    ∧ (∀ x, x ≠ rid → dict_get (requests s') x = dict_get (requests s) x).
Proof.
  intros Hr. unfold advance_computed. rewrite (bind_ok _ _ _ _ _ (deref_ok _ _ _ Hr)).
  set (r1 := req_set_num_computed_tokens (num_computed_tokens r + n) r). simpl num_computed_tokens.
  set (chunk := _ <? _). set (r2 := req_set_is_prefill_chunk chunk r1).
  assert (E : set_obj rid r2 s = Ok (tt, put_req rid r2 s)) by done. rewrite (bind_ok _ _ _ _ _ E).
  assert (Hm : moved (λ x, if decide (x = rid) then n else 0) s (put_req rid r2 s)) by (by apply (moved_put s rid r)).
  set (s2 := if chunk then put_req rid r2 s
             else s_set_inflight_prefills (_inflight_prefills s ∖ {[rid]}) (put_req rid r2 s)).
  exists (b || (use_structured_output r2 && negb chunk)), s2. split; [unfold s2; by destruct chunk|].
  assert (Hreq : requests s2 = requests (put_req rid r2 s)) by (unfold s2; by destruct chunk).
  split; [unfold s2; destruct chunk; [done|by apply moved_inflight]|]. split.
  - intros r'. rewrite Hreq, stored_put, decide_True by done. intros [= <-]. split; [done|].
    intros Hc. by apply Z.ltb_lt in Hc.
  - intros x Hx. by rewrite Hreq, stored_put, decide_False.
Qed.

(** What the requests of [l] look like after [advance_all]. *)
Definition chunk_flags (l : list (string * Z)) (s s' : Scheduler) : Prop :=
  ∀ rid r r', stored s rid r → stored s' rid r' → num_output_placeholders r' = num_output_placeholders r ∧
    (rid ∈ l.*1 → is_prefill_chunk r' = true → num_computed_tokens r' < num_tokens r' + num_output_placeholders r').

Lemma advance_all_ok l : ∀ s b, NoDup l.*1 → (∀ x, x ∈ l.*1 → is_Some (dict_get (requests s) x)) →
  ∃ b' s', advance_all l b s = Ok (b', s') ∧ moved (tally l) s s' ∧ chunk_flags l s s'
    ∧ (∀ x, x ∉ l.*1 → dict_get (requests s') x = dict_get (requests s) x).
Proof.
  induction l as [|[rid n] l IH]; intros s b Hnd Hs; csimpl in *.
  { exists b, s. split; [done|]. split; [apply moved_refl|]. split; [|done].
    intros rid r r' H1 H2. assert (r' = r) as -> by congruence. split; [done|]. by intros ?%not_elem_of_nil. }
  apply NoDup_cons in Hnd as [Hni Hnd]. destruct (Hs rid) as [r Hr]; [left|].
  destruct (advance_one_ok s rid r n b Hr) as (b1 & s1 & E1 & Hm1 & Hc1 & Ho1). rewrite (bind_ok _ _ _ _ _ E1).
  destruct (IH s1 b1 Hnd) as (b2 & s2 & E2 & Hm2 & Hc2 & Ho2).
  { intros x Hx. destruct (decide (x = rid)) as [->|Hne]; [done|]. rewrite Ho1 by done. apply Hs. by right. }
  exists b2, s2. split; [done|]. split; [by eapply moved_trans|]. split.
  - intros x y y' Hy Hy'. destruct (mv_req _ _ _ Hm1 x y Hy) as (y1 & Hy1 & _).
    destruct (Hc2 x y1 y' Hy1 Hy') as [P2 F2]. destruct (decide (x = rid)) as [->|Hne].
    + assert (y = r) as -> by congruence. destruct (Hc1 y1 Hy1) as [P1 F1]. split; [congruence|]. intros _.
      rewrite Ho2 in Hy' by done. assert (y' = y1) as -> by congruence. done.
    + rewrite Ho1 in Hy1 by done. assert (y1 = y) as -> by congruence. split; [done|].
      intros [?|Hx]%elem_of_cons; [done|by apply F2].
  - intros x [? ?]%not_elem_of_cons. by rewrite Ho2, Ho1.
Qed.

(** ** Placeholders of asynchronous scheduling *)

Lemma placeholders_one_ok spec s rid r b : stored s rid r → 0 ≤ num_sampled_tokens_per_step (config s) →
  async_scheduling (config s) = true →
  ∃ b' s', add_placeholders spec rid b s = Ok (b', s') ∧ moved (λ _, 0) s s'
    ∧ (∀ r', stored s' rid r' → is_prefill_chunk r = false →
         num_output_placeholders r + zlen (default [] (dict_get spec rid)) ≤ num_output_placeholders r')
    ∧ (∀ x, x ≠ rid → dict_get (requests s') x = dict_get (requests s) x).
Proof.
  intros Hr Hn Ha. unfold add_placeholders. rewrite (bind_ok _ _ _ _ _ (deref_ok _ _ _ Hr)). mstep.
  destruct (is_prefill_chunk r) eqn:Ec.
  { exists b, s. split; [done|]. split; [apply moved_refl|]. split; [|done]. congruence. }
  set (r1 := if use_v2_model_runner (config s) then _ else _).
  assert (F : content r1 = content r ∧ status r1 = status r ∧ num_computed_tokens r1 = num_computed_tokens r
    ∧ num_output_placeholders r1 = num_output_placeholders r
        + (num_sampled_tokens_per_step (config s) + zlen (default [] (dict_get spec rid))))
    by (unfold r1; by destruct (use_v2_model_runner (config s))).
  clearbody r1. destruct F as (F1 & F2 & F3 & F4). pose proof (zlen_nonneg (default [] (dict_get spec rid))).
  eexists _, (put_req rid r1 s). split; [reflexivity|]. split; [|split].
  - eapply moved_ext; [|apply (moved_put s rid r r1 0); try done; [lia|lia|congruence]]. intros x _. simpl. by case_decide.
  - intros r'. rewrite stored_put, decide_True by done. intros [= <-] _. lia.
  - intros x Hx. by rewrite stored_put, decide_False.
Qed.

Lemma placeholders_all_ok spec l : ∀ s b, NoDup l.*1 → (∀ x, x ∈ l.*1 → is_Some (dict_get (requests s) x)) →
  0 ≤ num_sampled_tokens_per_step (config s) →
  async_scheduling (config s) = true →
  ∃ b' s', placeholders_all spec l b s = Ok (b', s') ∧ moved (λ _, 0) s s'
    ∧ (∀ rid r r', rid ∈ l.*1 → stored s rid r → stored s' rid r' → is_prefill_chunk r = false →
         num_output_placeholders r + zlen (default [] (dict_get spec rid)) ≤ num_output_placeholders r')
    ∧ (∀ x, x ∉ l.*1 → dict_get (requests s') x = dict_get (requests s) x).
Proof.
  induction l as [|[rid n] l IH]; intros s b Hnd Hs Hn Hasync; csimpl in *.
  { exists b, s. split; [done|]. split; [apply moved_refl|]. split; [|done]. by intros ? ? ? ?%not_elem_of_nil. }
  apply NoDup_cons in Hnd as [Hni Hnd]. destruct (Hs rid) as [r Hr]; [left|].
  destruct (placeholders_one_ok spec s rid r b Hr Hn Hasync) as (b1 & s1 & E1 & Hm1 & Hc1 & Ho1). rewrite (bind_ok _ _ _ _ _ E1).
  destruct (IH s1 b1 Hnd) as (b2 & s2 & E2 & Hm2 & Hc2 & Ho2).
  { intros x Hx. destruct (decide (x = rid)) as [->|Hne]; [done|]. rewrite Ho1 by done. apply Hs. by right. }
  { by rewrite (mv_config _ _ _ Hm1). }
  { by rewrite (mv_config _ _ _ Hm1). }
  exists b2, s2. split; [done|]. split; [eapply moved_ext; [|by eapply moved_trans]; done|]. split.
  - intros x y y' [->|Hx]%elem_of_cons Hy Hy' Hck.
    + assert (y = r) as -> by congruence. rewrite Ho2 in Hy' by done. by apply Hc1.
    + assert (x ≠ rid) by (by intros ->). apply (Hc2 x y y' Hx); [by rewrite Ho1|done|done].
  - intros x [? ?]%not_elem_of_cons. by rewrite Ho2, Ho1.
Qed.

(** ** The invariant between steps *)

Section step.
Context `{HC : HashConfig} `{SO : SetOrder} `{ST : StructuredOutput} `{KV : KVView} (max_len : Z) `{CT : !KVContract max_len}.
Implicit Types (c : SchedulerConfig) (r : Request) (s : Scheduler) (t : Step).

(** A running request between steps. *)
Record running_ok c (k : KVCacheManager) r : Prop := {
  rg_status : status r = RUNNING;
  rg_fits : fits max_len c r;
  rg_computed : 0 ≤ num_computed_tokens r;
  rg_placeholders : placeholders_ok c r;
  rg_room : num_computed_tokens r + num_sampled_tokens_per_step c ≤ max_len;
  rg_slots : kv_slots k (request_id r) (num_computed_tokens r)
}.

(** Every request of the store is in exactly one place, running requests have slots
    for their computed tokens and waiting requests are ready to be scheduled. *)
Record sched_inv s : Prop := {
  sv_config : config_ok max_len (config s);
  sv_store : store_ok s;
  sv_kv : kv_ok (kv_cache_manager s);
  sv_enc : encoder_idle s;
  sv_limit : zlen (running s) ≤ max_num_running_reqs (config s);
  sv_running rid : rid ∈ running s → ∃ r, stored s rid r ∧ running_ok (config s) (kv_cache_manager s) r;
  sv_queues : ∃ ws ks, queued s (waiting s) ws ∧ queued s (skipped_waiting s) ks
    ∧ running s ++ ws ++ ks ≡ₚ (requests s).*1
    ∧ ∀ rid, rid ∈ ws ++ ks → ∃ r, stored s rid r ∧
        wait_ok max_len (config s) (kv_cache_manager s) (λ x, x ∉ prev_step_scheduled_req_ids s) r;
  sv_outside rid : rid ∉ (requests s).*1 → kv_vacant (kv_cache_manager s) rid
}.

(** No running request is ahead of its tokens: drafts were verified. *)
Definition caught_up s : Prop :=
  ∀ rid r, rid ∈ running s → stored s rid r → num_computed_tokens r ≤ num_tokens r + num_output_placeholders r.

Definition step_budget c (p : PauseState) : Z := if bool_decide (p = PAUSED_ALL) then 0 else max_num_scheduled_tokens c.

Lemma start_inv s : sched_inv s → caught_up s →
  let c := config s in
  ∃ s0 ws ks, on_kv km_new_step_starts (s_set_current_step (current_step s + 1) s) = Ok (tt, s0)
    ∧ requests s0 = requests s ∧ config s0 = c ∧ _pause_state s0 = _pause_state s
    ∧ placed (running s0) (new_step c (_pause_state s))
    ∧ loop_inv max_len c (prev_step_scheduled_req_ids s) (requests s) (step_budget c (_pause_state s)) s0
        (new_step c (_pause_state s)) ws ks [].
Proof.
  intros [S1 S2 S3 S4 S5 S6 (ws & ks & Q1 & Q2 & Q3 & Q4) S8] Hcu c.
  destruct (kc_new_step _ S3) as (k' & E & Hk' & Hkeep).
  set (s1 := s_set_current_step (current_step s + 1) s). exists (s_set_kv_cache_manager k' s1), ws, ks.
  split; [by apply (on_kv_ok _ s1)|]. split; [done|]. split; [done|]. split; [done|].
  split; [split; [done|done|done|by intros x ?%not_elem_of_nil]|].
  assert (Hk : ∀ r, kv_keeps (λ x, x = request_id r) (kv_cache_manager s) k')
    by (intros r; eapply keeps_weaken; [|exact Hkeep]; done).
  split; try done; try (by intros ? ?%not_elem_of_nil).
  - by apply (store_ok_same s).
  - apply (create_repr _ (policy (config s))).
  - by rewrite app_nil_r.
  - intros rid Hr. destruct (S6 rid Hr) as (r & Hst & [R1 R2 R3 R4 R5 R6]). exists r. split; [done|].
    specialize (Hcu rid r Hr Hst). assert (due (new_step c (_pause_state s)) (request_id r) = 0) as Hd by done.
    split; rewrite ?Hd, ?Z.add_0_r; try done; [by apply (Hk r)]. 
  - intros rid Hr. rewrite app_nil_r in Hr. destruct (Q4 rid Hr) as (r & Hst & Hok). exists r. split; [done|].
    eapply wait_ok_frame; [done|by apply Hk|]. by left.
  - apply NoDup_nil_2.
  - by intros ? ? ?%not_elem_of_nil.
  - unfold step_budget. simpl. lia.
  - simpl. pose proof (cf_budget _ _ S1) as Hbud. fold c in Hbud. case_bool_decide; lia.
  - intros x Hx. apply (Hkeep x I). by apply S8.
  - apply NoDup_nil_2.
Qed.

(** ** The two passes *)

Lemma zlen_to_nat {A} (l : list A) : Z.to_nat (zlen l) = length l.
Proof. unfold zlen. lia. Qed.

Lemma prepend_all_perm lt p (xs l : list string) : QueueSpec.prepend_all lt p xs l ≡ₚ xs ++ l.
Proof.
  unfold QueueSpec.prepend_all. revert l. induction xs as [|x xs IH]; intros l; [done|]. simpl.
  rewrite IH, prepend_perm. symmetry. apply Permutation_middle.
Qed.

Lemma set_aside_inv c prev ids budget s t ws ks :
  loop_inv max_len c prev ids budget s t ws ks [] →
  loop_inv max_len c prev ids budget s (t_set_step_skipped_waiting (create_request_queue (policy c)) t) ws ks [].
Proof.
  intros [L1 L2 L3 L4 L5 L6 L7 L8 L9 L10 L11 L12 L13 L14 L15 L16 L17 L18 L19 L20 L21 L22 L23 L24 L25 L26]. split; try done.
  - rewrite <-L1. apply (create_repr _ (policy (config s))).
  - intros x Hx. destruct (L11 x Hx) as (r & Hr & Hok). exists r. split; [done|]. by eapply run_ok_frame; [|by intros y _|..].
Qed.

Lemma requeue_ok c prev ids budget s t ws ks ss :
  loop_inv max_len c prev ids budget s t ws ks ss →
  ∃ s' ks', (if queue_bool (step_skipped_waiting t) then
      q ← lift_result (prepend_requests (req_order s) (step_skipped_waiting t) (skipped_waiting s));
      sch (modify (s_set_skipped_waiting q))
    else mret tt) (s, t) = Ok (tt, (s', t))
    ∧ loop_inv max_len c prev ids budget s' (t_set_step_skipped_waiting (create_request_queue (policy c)) t) ws ks' [].
Proof.
  intros Hl. pose proof (order_total _ (li_store _ _ _ _ _ _ _ _ _ _ Hl)) as Hot.
  rewrite (queue_bool_queued _ _ _ (li_aside _ _ _ _ _ _ _ _ _ _ Hl)). case_bool_decide as Hss.
  2:{ assert (ss = []) as -> by (by destruct ss). exists s, ks. split; [done|]. by apply set_aside_inv. }
  destruct (prepend_all_repr _ _ _ _ _ _ (li_skipped _ _ _ _ _ _ _ _ _ _ Hl) (li_aside _ _ _ _ _ _ _ _ _ _ Hl)) as (q & Eq & Hq).
  set (ks' := QueueSpec.prepend_all (req_order s) (policy (config s)) ss ks) in *.
  assert (Hp : ks' ++ [] ≡ₚ ks ++ ss).
  { unfold ks'. rewrite app_nil_r, prepend_all_perm. apply Permutation_app_comm. }
  exists (s_set_skipped_waiting q s), ks'. split.
  { rewrite Eq. mstep. done. }
  destruct Hl as [L1 L2 L3 L4 L5 L6 L7 L8 L9 L10 L11 L12 L13 L14 L15 L16 L17 L18 L19 L20 L21 L22 L23 L24 L25 L26]. split; try done.
  - by apply (store_ok_same s).
  - simpl. rewrite <-L1. apply (create_repr _ (policy (config s))).
  - simpl. by rewrite Hp.
  - intros x Hx. destruct (L11 x Hx) as (r & Hr & Hok). exists r. split; [done|]. by eapply run_ok_frame; [|by intros y _|..].
  - intros x. rewrite Hp. apply L12.
  - intros x. rewrite Hp. apply L22.
Qed.

Lemma schedule_requests_ok c prev ids budget s t ws ks : config_ok max_len c →
  loop_inv max_len c prev ids budget s t ws ks [] → placed (running s) t → req_index t = 0 →
  ∃ s' t' ws' ks', schedule_requests (s, t) = Ok (tt, (s', t'))
    ∧ loop_inv max_len c prev ids budget s' (t_set_step_skipped_waiting (create_request_queue (policy c)) t') ws' ks' [].
Proof.
  intros Hcfg Hl Hpl Hi. unfold schedule_requests. tstep.
  destruct (running_loop_ok max_len c Hcfg prev ids budget (S (length (running s))) s t ws ks [] Hl Hpl)
    as (s1 & t1 & ws1 & E1 & Hl1 & _); [unfold zlen; lia|].
  rewrite (bind_ok _ _ _ _ _ E1). tstep. tstep. rewrite (li_config _ _ _ _ _ _ _ _ _ _ Hl1), (cf_lora _ _ Hcfg). mstep.
  destruct (bool_decide (preempted_reqs t1 = [])) eqn:Ep; simpl.
  2:{ exists s1, t1, ws1, ks. split; [done|]. by apply set_aside_inv. }
  apply bool_decide_eq_true in Ep. destruct (bool_decide (_pause_state s1 = UNPAUSED)).
  2:{ exists s1, t1, ws1, ks. split; [done|]. by apply set_aside_inv. }
  destruct (waiting_loop_ok max_len c Hcfg prev ids budget
    (S (Z.to_nat (queue_len (waiting s1) + queue_len (skipped_waiting s1)))) s1 t1 ws1 ks [] Hl1 Ep)
    as (s2 & t2 & ws2 & ks2 & ss2 & E2 & Hl2).
  { rewrite (len_repr _ _ _ _ (li_waiting _ _ _ _ _ _ _ _ _ _ Hl1)), (len_repr _ _ _ _ (li_skipped _ _ _ _ _ _ _ _ _ _ Hl1)).
    rewrite length_app. unfold zlen. lia. }
  rewrite (bind_ok _ _ _ _ _ E2). tstep. tstep.
  destruct (requeue_ok _ _ _ _ _ _ _ _ _ Hl2) as (s3 & ks3 & E3 & Hl3). rewrite E3. by exists s3, t2, ws2, ks3.
Qed.
(** ** The output *)

Lemma dict_at_ok {V} (d : list (string * V)) rid : is_Some (dict_get d rid) → ∃ v, dict_at d rid = Ok v.
Proof. intros [v Hv]. exists v. unfold dict_at. by rewrite Hv. Qed.

Lemma cached_row_ok s t resumed rid d r :
  stored s rid r → is_Some (dict_get (num_scheduled_tokens t) rid) → is_Some (dict_get (req_to_new_blocks t) rid) →
  (resumed = true → rid ∉ prev_step_scheduled_req_ids s) → ∃ d', cached_request_row s t resumed rid d = Ok d'.
Proof.
  intros Hr Hn Hb Hp. unfold cached_request_row, obj. rewrite Hr. simpl.
  destruct (dict_at_ok _ _ Hn) as [n En], (dict_at_ok _ _ Hb) as [b Eb].
  assert (resumed && bool_decide (rid ∈ prev_step_scheduled_req_ids s) = false) as ->.
  { destruct resumed; [|done]. simpl. apply bool_decide_eq_false. by apply Hp. }
  destruct (use_pp (config s) && negb (async_scheduling (config s))); rewrite ?En, Eb; by eexists.
Qed.

Lemma make_cached_ok s t running_reqs resumed_reqs :
  (∀ rid, rid ∈ running_reqs ++ resumed_reqs → (∃ r, stored s rid r) ∧ is_Some (dict_get (num_scheduled_tokens t) rid)
     ∧ is_Some (dict_get (req_to_new_blocks t) rid)) →
  (∀ rid, rid ∈ resumed_reqs → rid ∉ prev_step_scheduled_req_ids s) →
  ∃ d, _make_cached_request_data s t running_reqs resumed_reqs = Ok d.
Proof.
  intros Hall Hres. unfold _make_cached_request_data.
  assert (Hl : ∀ b rid, (b, rid) ∈ (pair false <$> running_reqs) ++ (pair true <$> resumed_reqs) →
    rid ∈ running_reqs ++ resumed_reqs ∧ (b = true → rid ∈ resumed_reqs)).
  { intros b rid [(x & [= -> ->] & Hx)%list_elem_of_fmap|(x & [= -> ->] & Hx)%list_elem_of_fmap]%elem_of_app.
    - split; [|done]. apply elem_of_app. by left.
    - split; [|done]. apply elem_of_app. by right. }
  generalize (mkCachedRequestData [] ∅ [] [] [] [] []). revert Hl.
  induction ((pair false <$> running_reqs) ++ (pair true <$> resumed_reqs)) as [|[b rid] l IH]; intros Hl d; [by eexists|].
  destruct (Hl b rid) as [Hin Hb]; [left|]. destruct (Hall rid Hin) as ([r Hr] & Hn & Hbl).
  destruct (cached_row_ok s t b rid d r Hr Hn Hbl) as [d' Ed]; [intros E; by apply Hres, Hb|].
  simpl. rewrite Ed. apply IH. intros b' x Hx. apply Hl. by right.
Qed.

Lemma new_data_ok s t reqs tokens :
  (∀ rid, rid ∈ reqs → (∃ r, stored s rid r) ∧ is_Some (dict_get (req_to_new_blocks t) rid)) →
  ∃ l, new_reqs_data s t reqs tokens = Ok l.
Proof.
  intros Hall. apply result_map_ok. intros rid Hin. destruct (Hall rid Hin) as [[r Hr] Hb].
  unfold obj. rewrite Hr. simpl. destruct (dict_at_ok _ _ Hb) as [b ->]. by eexists.
Qed.

Lemma constraints_hold c prev ids budget s t ws ks ss :
  loop_inv max_len c prev ids budget s t ws ks ss → budget ≤ max_num_scheduled_tokens c → check_constraints s t = true.
Proof.
  intros [L1 L2 L3 L4 L5 L6 L7 L8 L9 L10 L11 L12 L13 L14 L15 L16 L17 L18 L19 L20 L21 L22 L23 L24 L25 L26] Hb. unfold check_constraints, total_scheduled.
  rewrite L1. rewrite !andb_true_iff, !Z.leb_le. split_and!; [lia|done|done|].
  assert (Hsub : keys t ⊆+ running s) by (apply NoDup_submseteq; [done|]; intros x Hx; by apply L15).
  apply submseteq_length in Hsub. rewrite L14, !length_app in Hsub. unfold zlen. lia.
Qed.

(** What [build_output] changes. *)
Record built t s s' (o : SchedulerOutput) : Prop := {
  bt_requests : requests s' = requests s;
  bt_config : config s' = config s;
  bt_running : running s' = running s;
  bt_waiting : waiting s' = waiting s ∧ skipped_waiting s' = skipped_waiting s;
  bt_kv : kv_ok (kv_cache_manager s') ∧ kv_keeps (λ _, True) (kv_cache_manager s) (kv_cache_manager s');
  bt_enc : encoder_idle s';
  bt_prev : prev_step_scheduled_req_ids s' = list_to_set (keys t);
  bt_tokens : so_num_scheduled_tokens o = num_scheduled_tokens t;
  bt_total : so_total_num_scheduled_tokens o = zsum (num_scheduled_tokens t).*2;
  bt_spec : so_scheduled_spec_decode_tokens o = scheduled_spec_decode_tokens t;
  bt_preempted : so_preempted_req_ids o = list_to_set (preempted_reqs t)
}.

Lemma freed_hashes_ok s : encoder_idle s →
  ∃ hs e, encoder_freed_hashes s = Ok (hs, s_set_encoder_cache_manager e s) ∧ encoder_idle (s_set_encoder_cache_manager e s).
Proof.
  unfold encoder_idle, encoder_freed_hashes, on_encoder. intros He. destruct (encoder_cache_manager s) as [e|e].
  - eexists _, _. split; [reflexivity|]. done.
  - eexists _, _. split; [reflexivity|]. done.
Qed.

Lemma build_output_ok c prev ids budget s t ws ks q :
  config_ok max_len c → loop_inv max_len c prev ids budget s (t_set_step_skipped_waiting q t) ws ks [] →
  budget ≤ max_num_scheduled_tokens c → ∃ o s', build_output t s = Ok (o, s') ∧ built t s s' o.
Proof.
  intros Hcfg Hl Hb. unfold build_output. mstep.
  pose proof (constraints_hold _ _ _ _ _ _ _ _ _ Hl Hb) as Hcc.
  change (check_constraints s (t_set_step_skipped_waiting q t)) with (check_constraints s t) in Hcc. rewrite Hcc. mstep.
  assert (Ecom : ∃ l k1, (match running s with
      | [] => mret (replicate (num_groups (config s)) 0)
      | rid :: _ => on_kv (km_get_num_common_prefix_blocks rid) end) s = Ok (l, s_set_kv_cache_manager k1 s)
      ∧ kv_ok k1 ∧ kv_keeps (λ _, True) (kv_cache_manager s) k1).
  { pose proof (li_kv _ _ _ _ _ _ _ _ _ _ Hl) as Hk. destruct (running s) as [|rid l].
    - eexists _, (kv_cache_manager s). split; [unfold mret, M_ret; f_equal; f_equal; by destruct s|]. split; [done|]. by intros rid _.
    - destruct (kc_common _ rid Hk) as (l' & k1 & E & Hk1 & Hkeep). exists l', k1. split; [by apply on_kv_ok|done]. }
  destruct Ecom as (l & k1 & E1 & Hk1 & Hkeep1). rewrite (bind_ok _ _ _ _ _ E1). mstep.
  set (s1 := s_set_kv_cache_manager k1 s). simpl config.
  destruct Hl as [L1 L2 L3 L4 L5 L6 L7 L8 L9 L10 L11 L12 L13 L14 L15 L16 L17 L18 L19 L20 L21 L22 L23 L24 L25 L26].
  simpl scheduled_running_reqs in L14. simpl scheduled_new_reqs in L14. simpl scheduled_resumed_reqs in L14, L20.
  assert (Hfacts : ∀ rid, rid ∈ scheduled_running_reqs t ++ scheduled_new_reqs t ++ scheduled_resumed_reqs t →
    (∃ r, stored s1 rid r) ∧ is_Some (dict_get (num_scheduled_tokens t) rid) ∧ is_Some (dict_get (req_to_new_blocks t) rid)).
  { intros rid Hin. rewrite <-L14 in Hin. destruct (L15 rid Hin) as [Hrun Hbl].
    destruct (L11 rid Hrun) as (r & Hr & _). split; [by exists r|]. split; [|done]. by apply dict_get_is_Some. }
  set (v2 := use_v2_model_runner (config s)).
  destruct (new_data_ok s1 t (if v2 then scheduled_new_reqs t ++ scheduled_resumed_reqs t else scheduled_new_reqs t) v2) as [nd End].
  { intros rid Hin. destruct (Hfacts rid) as (? & _ & ?); [|done]. apply elem_of_app. right.
    destruct v2; [done|]. apply elem_of_app. by left. }
  rewrite End. mstep.
  destruct (make_cached_ok s1 t (scheduled_running_reqs t) (if v2 then [] else scheduled_resumed_reqs t)) as [cd Ecd].
  { intros rid [Hin|Hin]%elem_of_app; apply Hfacts; [apply elem_of_app; by left|]. destruct v2; [by apply not_elem_of_nil in Hin|].
    apply elem_of_app. right. apply elem_of_app. by right. }
  { intros rid Hin. destruct v2; [by apply not_elem_of_nil in Hin|]. change (prev_step_scheduled_req_ids s1) with (prev_step_scheduled_req_ids s).
    rewrite L2. by apply L20. }
  rewrite Ecd. mstep. mstep.
  set (s2 := s_set_prev_step_scheduled_req_ids (list_to_set (num_scheduled_tokens t).*1) s1).
  assert (Ez : ∃ z k2, (if sc_needs_kv_cache_zeroing (config s)
      then ids ← on_kv km_take_new_block_ids; mret (if bool_decide (ids = []) then None else Some ids)
      else mret None) s2 = Ok (z, s_set_kv_cache_manager k2 s2) ∧ kv_ok k2 ∧ kv_keeps (λ _, True) k1 k2).
  { destruct (sc_needs_kv_cache_zeroing (config s)).
    - destruct (kc_take_ids k1 Hk1) as (zs & k2 & E & Hk2 & Hkeep). eexists _, k2.
      rewrite (bind_ok _ _ _ _ _ (on_kv_ok _ s2 _ _ E)). split; [reflexivity|done].
    - exists None, k1. split; [done|]. split; [done|]. by intros rid _. }
  destruct Ez as (z & k2 & E2 & Hk2 & Hkeep2). rewrite (bind_ok _ _ _ _ _ E2).
  destruct (freed_hashes_ok (s_set_kv_cache_manager k2 s2) L5) as (hs & e & E3 & He). rewrite (bind_ok _ _ _ _ _ E3). mstep.
  eexists _, _. split; [reflexivity|]. split; try done. split; [done|]. simpl. eapply keeps_trans; [exact Hkeep1|done].
Qed.
(** ** After the output *)

Lemma after_ok c prev ids budget s t ws ks q s1 o :
  config_ok max_len c → loop_inv max_len c prev ids budget s (t_set_step_skipped_waiting q t) ws ks [] → built t s s1 o →
  ∃ o' s', _update_after_schedule o s1 = Ok (o', s') ∧ moved (due t) s1 s'
    ∧ so_num_scheduled_tokens o' = so_num_scheduled_tokens o
    ∧ so_total_num_scheduled_tokens o' = so_total_num_scheduled_tokens o
    ∧ so_scheduled_spec_decode_tokens o' = so_scheduled_spec_decode_tokens o
    ∧ so_preempted_req_ids o' = so_preempted_req_ids o
    ∧ (∀ rid r', rid ∈ running s' → stored s' rid r' → num_computed_tokens r'
         ≤ num_tokens r' + num_output_placeholders r' + drafts (so_scheduled_spec_decode_tokens o) rid)
    ∧ (async_scheduling c = true → caught_up s').
Proof.
  intros Hcfg Hl [B1 B2 B3 B4 B5 B6 B7 B8 B9 B10 B11].
  destruct Hl as [L1 L2 L3 L4 L5 L6 L7 L8 L9 L10 L11 L12 L13 L14 L15 L16 L17 L18 L19 L20 L21 L22 L23 L24 L25 L26].
  change (keys (t_set_step_skipped_waiting q t)) with (keys t) in *.
  assert (Hst : ∀ x, x ∈ (num_scheduled_tokens t).*1 → is_Some (dict_get (requests s1) x)).
  { intros x Hx. destruct (L15 x Hx) as [Hr _]. destruct (L11 x Hr) as (r & Hs & _). rewrite B1. by exists r. }
  unfold _update_after_schedule. rewrite B8.
  destruct (advance_all_ok (num_scheduled_tokens t) s1 (so_has_structured_output_requests o) L13 Hst) as (b1 & s2 & E1 & Hm1 & Hf1 & Ho1).
  rewrite (bind_ok _ _ _ _ _ E1). mstep. mstep. set (s3 := s_set_finished_req_ids ∅ s2).
  assert (Hm3 : moved (due t) s1 s3).
  { apply moved_finished. eapply moved_ext; [|exact Hm1]. intros x _. by apply tally_nodup. }
  assert (Hahead : ∀ s', moved (due t) s1 s' → ∀ rid r', rid ∈ running s' → stored s' rid r' → num_computed_tokens r'
    ≤ num_tokens r' + num_output_placeholders r' + drafts (so_scheduled_spec_decode_tokens o) rid).
  { intros s' Hm rid r' Hrun Hr'. rewrite (mv_running _ _ _ Hm), B3 in Hrun.
    destruct (L11 rid Hrun) as (r & Hr & Hok). pose proof (so_id _ L3 _ _ Hr) as Hid. pose proof Hr as Hr1. rewrite <-B1 in Hr1.
    destruct (mv_req _ _ _ Hm rid r Hr1) as (r2 & Hr2 & C1 & C2 & C3 & C4 & _). assert (r2 = r') as -> by congruence.
    pose proof (content_tokens _ _ C1). pose proof (rn_drafts _ _ _ _ _ Hok) as Hdr. rewrite Hid in Hdr.
    change (due (t_set_step_skipped_waiting q t) rid) with (due t rid) in Hdr. simpl in Hdr. rewrite <-B10 in Hdr. lia. }
  change (config s3) with (config s2). rewrite (mv_config _ _ _ Hm1), B2, L1.
  destruct (async_scheduling c) eqn:Ea.
  - destruct (placeholders_all_ok (so_scheduled_spec_decode_tokens o) (num_scheduled_tokens t) s3 (so_pending_structured_output_tokens o) L13)
      as (b2 & s4 & E2 & Hm4 & Hp4 & Ho4).
    { intros x Hx. destruct (Hst x Hx) as [r Hr]. destruct (mv_req _ _ _ Hm1 x r Hr) as (r' & Hr' & _). by exists r'. }
    { change (config s3) with (config s2). rewrite (mv_config _ _ _ Hm1), B2, L1. apply Hcfg. }
    { change (config s3) with (config s2). by rewrite (mv_config _ _ _ Hm1), B2, L1. }
    rewrite (bind_ok _ _ _ _ _ E2). eexists _, s4. split; [reflexivity|].
    assert (Hm5 : moved (due t) s1 s4) by (eapply moved_ext; [|by eapply moved_trans]; intros x _; simpl; lia).
    split; [done|]. split_and!; try done; [by apply Hahead|]. intros _ rid r4 Hrun Hr4.
    rewrite (mv_running _ _ _ Hm5), B3 in Hrun. destruct (L11 rid Hrun) as (r & Hr & Hok).
    pose proof (so_id _ L3 _ _ Hr) as Hid. pose proof Hr as Hr1. rewrite <-B1 in Hr1.
    destruct (mv_req _ _ _ Hm1 rid r Hr1) as (r2 & Hr2 & C1 & C2 & C3 & C4 & _).
    destruct (mv_req _ _ _ Hm4 rid r2 Hr2) as (r4' & Hr4' & D1 & D2 & D3 & D4 & _). assert (r4' = r4) as -> by congruence.
    destruct (Hf1 rid r r2 Hr1 Hr2) as [P2 F2]. pose proof (content_tokens _ _ C1). pose proof (content_tokens _ _ D1).
    pose proof (rn_lag _ _ _ _ _ Hok) as Hlag. pose proof (rn_drafts _ _ _ _ _ Hok) as Hdr. rewrite Hid in Hdr.
    change (due (t_set_step_skipped_waiting q t) rid) with (due t rid) in Hdr. simpl in Hdr. unfold drafts in Hdr.
    rewrite (tally_nodup _ _ L13) in C3. fold (due t rid) in C3.
    destruct (decide (rid ∈ keys t)) as [Hk|Hk]; [|rewrite (not_due t rid Hk) in C3; lia].
    destruct (is_prefill_chunk r2) eqn:Ec; [specialize (F2 Hk eq_refl); lia|].
    specialize (Hp4 rid r2 r4 Hk Hr2 Hr4 Ec). rewrite B10 in Hp4. lia.
  - mstep. eexists _, s3. split; [reflexivity|]. split; [done|]. split_and!; try done. by apply Hahead.
Qed.

(** The invariant after the step. *)
Lemma finish_inv c prev ids budget s t ws ks q s1 o s' :
  config_ok max_len c → loop_inv max_len c prev ids budget s (t_set_step_skipped_waiting q t) ws ks [] → built t s s1 o →
  moved (due t) s1 s' → sched_inv s' ∧ same_contents s s' ∧ (requests s').*1 = (requests s).*1 ∧ running s' = running s
    ∧ ∀ rid r, rid ∈ running s → stored s rid r → ∃ r', stored s' rid r'
        ∧ num_computed_tokens r' = num_computed_tokens r + due t rid ∧ kv_slots (kv_cache_manager s') rid (num_computed_tokens r').
Proof.
  intros Hcfg Hl [B1 B2 B3 [B4 B4'] [B5 B5'] B6 B7 B8 B9 B10 B11] [M1 M2 [M3 M3'] M4 M5 M6 M7 M8].
  pose proof (loop_nodup _ _ _ _ _ _ _ _ _ _ Hl) as Hnd.
  destruct Hl as [L1 L2 L3 L4 L5 L6 L7 L8 L9 L10 L11 L12 L13 L14 L15 L16 L17 L18 L19 L20 L21 L22 L23 L24 L25 L26].
  change (keys (t_set_step_skipped_waiting q t)) with (keys t) in *. rewrite app_nil_r in *.
  assert (Hreq : ∀ rid r, stored s rid r → ∃ r', stored s' rid r' ∧ content r' = content r ∧ status r' = status r
    ∧ num_computed_tokens r' = num_computed_tokens r + due t rid ∧ (placeholders_ok c r → placeholders_ok c r')).
  { intros rid r Hr. destruct (M8 rid r) as (r' & Hr' & C1 & C2 & C3 & C4 & C5); [by rewrite B1|].
    exists r'. split_and!; try done. intros [P1 P2]. split; [lia|]. intros Ha. rewrite C5; [by apply P2|]. by rewrite B2, L1. }
  assert (Hkeys : (requests s').*1 = (requests s).*1) by congruence.
  assert (Hsc : same_contents s s').
  { intros rid. destruct (dict_get (requests s) rid) as [r|] eqn:Er; simpl.
    - destruct (Hreq rid r Er) as (r' & -> & Hc & _). simpl. by rewrite Hc.
    - assert (dict_get (requests s') rid = None) as ->; [|done]. apply dict_get_None. rewrite Hkeys. by apply dict_get_None. }
  assert (Hrq : ∀ rid, rid ∈ running s → ∃ r r', stored s rid r ∧ stored s' rid r' ∧ content r' = content r ∧ status r' = status r
    ∧ num_computed_tokens r' = num_computed_tokens r + due t rid ∧ (placeholders_ok c r → placeholders_ok c r')
    ∧ run_ok max_len c (kv_cache_manager s) (t_set_step_skipped_waiting q t) r
    ∧ kv_slots (kv_cache_manager s') rid (num_computed_tokens r')).
  { intros rid Hr. destruct (L11 rid Hr) as (r & Hs & Hok). destruct (Hreq rid r Hs) as (r' & Hs' & C1 & C2 & C3 & C4).
    exists r, r'. split_and!; try done. rewrite M4, C3. apply (B5' rid); [done|].
    pose proof (rn_slots _ _ _ _ _ Hok) as Hsl. by rewrite (so_id _ L3 _ _ Hs) in Hsl. }
  assert (Hpos : ∀ rid, 0 ≤ due t rid).
  { intros rid. unfold due. destruct (dict_get (num_scheduled_tokens t) rid) as [n|] eqn:En; simpl; [|lia].
    pose proof (L16 _ _ (dict_get_in _ _ _ En)). lia. }
  split.
  2:{ split; [done|]. split; [done|]. split; [congruence|]. intros rid r Hr Hs.
      destruct (Hrq rid Hr) as (r0 & r' & Hs0 & Hs' & _ & _ & C3 & _ & _ & Hsl). assert (r0 = r) as -> by congruence.
      by exists r'. }
  assert (Hstore : store_ok s').
  { split; [rewrite Hkeys; apply L3|]. intros rid r' Hr'.
    destruct (same_contents_stored s' s rid r') as (r & Hr & Hc); [by symmetry|done|].
    rewrite (content_id _ _ Hc). by apply (so_id _ L3). }
  assert (Hcs : config s' = c) by congruence.
  split; rewrite ?Hcs; try done.
  - by rewrite M4.
  - unfold encoder_idle. rewrite M5. exact B6.
  - by rewrite M2, B3.
  - intros rid. rewrite M2, B3. intros Hr. destruct (Hrq rid Hr) as (r & r' & Hs & Hs' & C1 & C2 & C3 & C4 & Hok & Hsl).
    exists r'. split; [done|]. pose proof (so_id _ Hstore _ _ Hs') as Hid'. pose proof (so_id _ L3 _ _ Hs) as Hid.
    pose proof (Hpos rid) as Hp. destruct Hok as [K1 K2 K3 K4 K5 K6 K7 K8]. rewrite Hid in *.
    change (due (t_set_step_skipped_waiting q t) rid) with (due t rid) in *.
    split; rewrite ?Hid'; try done; try lia; [congruence| |by apply C4]. by eapply (fits_content _ _ r).
  - exists ws, ks. split; [rewrite M3, B4; by apply (queued_contents s); [|congruence|]|].
    split; [rewrite M3', B4'; by apply (queued_contents s); [|congruence|]|].
    split; [rewrite M2, B3, Hkeys, L9; done|].
    intros rid Hw. destruct (L12 rid Hw) as (r & Hs & [W1 W2 W3 W4]). pose proof (so_id _ L3 _ _ Hs) as Hid.
    destruct (Hreq rid r Hs) as (r' & Hs' & C1 & C2 & C3 & C4). exists r'. split; [done|].
    assert (Hnk : rid ∉ keys t).
    { intros Hk. destruct (L15 rid Hk) as [Hr _]. apply NoDup_app in Hnd as (_ & Hd & _). by apply (Hd rid). }
    rewrite (not_due t rid Hnk), Z.add_0_r in C3. pose proof (content_id _ _ C1) as Hid'. rewrite Hid in *.
    split; rewrite ?C2, ?Hid'; try done.
    + intros Hss. pose proof (f_equal streaming_queue C1 : streaming_queue r' = streaming_queue r) as ->. by apply W2.
    + intros Hss. destruct (W3 Hss) as (Hf & Hph & Hkv). split; [by eapply (fits_content _ _ r)|]. split; [by apply C4|].
      rewrite C3, M4, (content_tokens _ _ C1). destruct (B5' rid I) as [Hsl Hvac]. destruct Hkv as [[? ?]|[? ?]]; auto.
    + intros _. rewrite M6, B7. by intros ?%elem_of_list_to_set.
  - intros rid. rewrite Hkeys, L9, M4. intros Hx. apply (B5' rid I). by apply L24.
Qed.

(** What a step does: the scheduler is in order afterwards, with the same requests; the
    token counts stay within the budget; each scheduled request is running, was not
    preempted, and its blocks have slots for all tokens it will have computed; only
    scheduled drafts put a request ahead of its tokens. *)
Record stepped s (o : SchedulerOutput) s' : Prop := {
  se_inv : sched_inv s';
  se_same : same_contents s s';
  se_keys : (requests s').*1 = (requests s).*1;
  se_config : config s' = config s;
  se_total : so_total_num_scheduled_tokens o = zsum (so_num_scheduled_tokens o).*2;
  se_budget : so_total_num_scheduled_tokens o ≤ step_budget (config s) (_pause_state s);
  se_nodup : NoDup (so_num_scheduled_tokens o).*1;
  se_scheduled rid n : (rid, n) ∈ so_num_scheduled_tokens o →
    0 < n ∧ rid ∈ running s' ∧ rid ∉ so_preempted_req_ids o
    ∧ ∃ r', stored s' rid r' ∧ n ≤ num_computed_tokens r' ∧ kv_slots (kv_cache_manager s') rid (num_computed_tokens r');
  se_drafts rid : drafts (so_scheduled_spec_decode_tokens o) rid ≤ default 0 (dict_get (so_num_scheduled_tokens o) rid);
  se_ahead rid r' : rid ∈ running s' → stored s' rid r' → num_computed_tokens r'
    ≤ num_tokens r' + num_output_placeholders r' + drafts (so_scheduled_spec_decode_tokens o) rid;
  se_async : async_scheduling (config s) = true → caught_up s'
}.

Lemma schedule_ok s : sched_inv s → caught_up s → ∃ o s', schedule s = Ok (o, s') ∧ stepped s o s'.
Proof.
  intros Hs Hcu. pose proof (sv_config _ Hs) as Hcfg. set (c := config s) in *.
  destruct (start_inv s Hs Hcu) as (s0 & ws & ks & E0 & R0 & C0 & P0 & Hpl & Hl0). fold c in C0, Hpl, Hl0.
  unfold schedule. mstep. rewrite (bind_ok _ _ _ _ _ E0). mstep. rewrite C0, P0.
  destruct (schedule_requests_ok c _ _ _ s0 _ ws ks Hcfg Hl0 Hpl eq_refl) as (s1 & t & ws1 & ks1 & E1 & Hl1).
  rewrite E1. mstep.
  destruct (build_output_ok c _ _ _ s1 t ws1 ks1 _ Hcfg Hl1) as (o & s2 & E2 & Hbt).
  { unfold step_budget. pose proof (cf_budget _ _ Hcfg). case_bool_decide; lia. }
  rewrite (bind_ok _ _ _ _ _ E2).
  destruct (after_ok c _ _ _ s1 t ws1 ks1 _ s2 o Hcfg Hl1 Hbt) as (o' & s' & E3 & Hm & O1 & O2 & O3 & O4 & Hahead & Hcu').
  destruct (finish_inv c _ _ _ s1 t ws1 ks1 _ s2 o s' Hcfg Hl1 Hbt Hm) as (Hinv & Hsc & Hkeys & Hrun & Hslots).
  exists o', s'. split; [exact E3|].
  assert (Hsc1 : same_contents s s1).
  { intros x. symmetry. apply (li_same _ _ _ _ _ _ _ _ _ _ Hl1). }
  assert (Hcf : config s' = config s).
  { rewrite (mv_config _ _ _ Hm), (bt_config _ _ _ _ Hbt). apply (li_config _ _ _ _ _ _ _ _ _ _ Hl1). }
  split; rewrite ?O1, ?O2, ?O3, ?O4, ?(bt_tokens _ _ _ _ Hbt), ?(bt_total _ _ _ _ Hbt), ?(bt_preempted _ _ _ _ Hbt);
    [done|by etrans|rewrite Hkeys; apply (li_ids _ _ _ _ _ _ _ _ _ _ Hl1)|done|done| |
     apply (li_nodup _ _ _ _ _ _ _ _ _ _ Hl1)| |rewrite (bt_spec _ _ _ _ Hbt); apply (li_drafts _ _ _ _ _ _ _ _ _ _ Hl1)|done|done].
  { pose proof (li_budget _ _ _ _ _ _ _ _ _ _ Hl1) as Hb. pose proof (li_left _ _ _ _ _ _ _ _ _ _ Hl1) as Hle.
    simpl in Hb, Hle. fold c. lia. }
  intros rid n Hin. pose proof (li_pos _ _ _ _ _ _ _ _ _ _ Hl1 rid n Hin) as Hn.
  assert (Hk : rid ∈ keys t) by (by apply (list_elem_of_fmap_2 fst) in Hin).
  destruct (li_sched _ _ _ _ _ _ _ _ _ _ Hl1 rid Hk) as [Hr _]. split; [done|]. split; [by rewrite Hrun|]. split.
  - rewrite elem_of_list_to_set. intros Hp%(li_preempted _ _ _ _ _ _ _ _ _ _ Hl1).
    pose proof (loop_nodup _ _ _ _ _ _ _ _ _ _ Hl1) as Hnd. apply NoDup_app in Hnd as (_ & Hd & _). by apply (Hd rid).
  - destruct (li_run _ _ _ _ _ _ _ _ _ _ Hl1 rid Hr) as (r & Hst & Hok). destruct (Hslots rid r Hr Hst) as (r' & Hst' & Hc & Hsl).
    exists r'. split; [done|]. split; [|done]. rewrite Hc.
    assert (due t rid = n) as ->.
    { unfold due. rewrite (dict_in_get _ _ _ (li_nodup _ _ _ _ _ _ _ _ _ _ Hl1) Hin). done. }
    pose proof (rn_computed _ _ _ _ _ Hok). lia.
Qed.
End step.
