(* ===== verification/Lifecycle.v ===== *)
(** * Requests entering and leaving the scheduler

    Construction, [add_request], [finish_requests] and [_free_request] keep the
    scheduler in order. While requests are being removed, [live_inv] keeps account of
    those that are in the store but in no list any more. *)

From Stdlib Require Import ZArith Lia.
From S2P Require Import Prelude MathUtils KVSpec FreeQueue Request BlockHash BlockPool SingleType Coordinator KVCacheManager RequestQueue EncoderCache SchedUtils Scheduler Schedule SchedulerSpec RunningPass WaitingPass ScheduleSafe.
Local Open Scope Z_scope.

(** ** Lists *)

Lemma filter_ext_in {A} (P Q : A → Prop) `{!∀ x, Decision (P x), !∀ x, Decision (Q x)} (l : list A) :
  (∀ x, x ∈ l → P x ↔ Q x) → filter P l = filter Q l.
Proof.
  induction l as [|x l IH]; intros Hl; [done|]. rewrite !filter_cons, IH by (intros y Hy; apply Hl; by right).
  destruct (Hl x ltac:(left)) as [H1 H2]. repeat case_decide; tauto.
Qed.

Lemma list_remove_filter (l : list string) x : NoDup l → default l (list_remove l x) = filter (.∉ [x]) l.
Proof.
  induction l as [|y l IH]; [done|]. intros [Hy Hl]%NoDup_cons. simpl. rewrite filter_cons.
  destruct (decide (y = x)) as [->|Hne].
  - rewrite (decide_False (P := x ∉ [x])) by (intros Hx; apply Hx; left). simpl.
    symmetry. apply filter_all. intros z Hz ->%list_elem_of_singleton. done.
  - rewrite (decide_True (P := y ∉ [x])) by (by intros ->%list_elem_of_singleton). specialize (IH Hl).
    destruct (list_remove l x); simpl in *; by rewrite <-IH.
Qed.

Lemma remove_all_filter (l xs : list string) : NoDup l → remove_all l xs = filter (.∉ xs) l.
Proof.
  intros Hl. destruct xs as [|x [|y xs]]; [|by apply list_remove_filter|done]. simpl. symmetry.
  apply filter_all. by intros z _ ?%not_elem_of_nil.
Qed.

(** Taking out of a list the elements of another. *)
Lemma filter_out_perm {A} `{EqDecision A} (l ids v : list A) :
  NoDup l → NoDup v → (∀ x, x ∈ v ↔ x ∈ ids ∧ x ∈ l) → filter (.∉ ids) l ++ v ≡ₚ l.
Proof.
  intros Hl Hv Hiff. apply NoDup_Permutation; [|done|].
  - apply NoDup_app. split; [by apply NoDup_filter|]. split; [|done].
    intros x [Hx _]%list_elem_of_filter [? _]%Hiff. done.
  - intros x. rewrite elem_of_app, list_elem_of_filter, Hiff. destruct (decide (x ∈ ids)); naive_solver.
Qed.

Lemma dict_del_perm {V} (d : list (string * V)) x v : dict_get d x = Some v → d.*1 ≡ₚ x :: (dict_del d x).*1.
Proof.
  intros (d1 & d2 & -> & ->)%dict_get_split. rewrite !fmap_app. csimpl. symmetry. apply Permutation_middle.
Qed.

Section lifecycle.
Context `{HC : HashConfig} `{SO : SetOrder} `{ST : StructuredOutput} `{KV : KVView} (max_len : Z) `{CT : !KVContract max_len}.
Implicit Types (c : SchedulerConfig) (r : Request) (s : Scheduler).
Local Abbreviation running_ok := (running_ok max_len).
Local Abbreviation wait_ok := (wait_ok max_len).
Local Abbreviation sched_inv := (sched_inv max_len).

(** A text request that is not a streaming session: its tokens are its prompt and its
    output, and [min_tokens] can be reached. *)
Record plain r : Prop := {
  pn_text : mm_features r = [];
  pn_session : resumable r = false;
  pn_tokens : num_tokens r = num_prompt_tokens r + num_output_tokens r;
  pn_params : pooling_params r = None →
    ∃ sp, sampling_params r = Some sp ∧ num_prompt_tokens r + sp_min_tokens sp ≤ max_len
}.

Lemma plain_content r r' : content r = content r' → plain r → plain r'.
Proof.
  intros Hc [H1 H2 H3 H4].
  assert (mm_features r' = mm_features r) as E1 by (symmetry; exact (f_equal mm_features Hc)).
  assert (resumable r' = resumable r) as E2 by (symmetry; exact (f_equal resumable Hc)).
  assert (num_tokens r' = num_tokens r) as E3 by (symmetry; by apply content_tokens).
  assert (num_prompt_tokens r' = num_prompt_tokens r) as E4 by (symmetry; exact (f_equal num_prompt_tokens Hc)).
  assert (num_output_tokens r' = num_output_tokens r) as E5 by (symmetry; exact (f_equal num_output_tokens Hc)).
  assert (pooling_params r' = pooling_params r) as E6 by (symmetry; exact (f_equal pooling_params Hc)).
  assert (sampling_params r' = sampling_params r) as E7 by (symmetry; exact (f_equal sampling_params Hc)).
  split; rewrite ?E1, ?E2, ?E3, ?E4, ?E5, ?E6, ?E7; done.
Qed.

Definition all_plain s : Prop := ∀ rid r, stored s rid r → plain r.

Lemma all_plain_contents s s' : same_contents s s' → all_plain s → all_plain s'.
Proof.
  intros Hs Hp rid r' Hr'. destruct (same_contents_stored s' s rid r') as (r & Hr & Hc); [by symmetry|done|].
  eapply plain_content; [symmetry; exact Hc|by eapply Hp].
Qed.

(** [run], [ws] and [ks] are the requests running and in the two queues; those in
    [gone] are about to leave the store. *)
Record live_inv s (run ws ks gone : list string) : Prop := {
  lv_config : config_ok max_len (config s);
  lv_store : store_ok s;
  lv_kv : kv_ok (kv_cache_manager s);
  lv_enc : encoder_idle s;
  lv_plain : all_plain s;
  lv_waiting : queued s (waiting s) ws;
  lv_skipped : queued s (skipped_waiting s) ks;
  lv_perm : run ++ ws ++ ks ++ gone ≡ₚ (requests s).*1;
  lv_run rid : rid ∈ run → ∃ r, stored s rid r ∧ running_ok (config s) (kv_cache_manager s) r;
  lv_wait rid : rid ∈ ws ++ ks → ∃ r, stored s rid r ∧
    wait_ok (config s) (kv_cache_manager s) (λ x, x ∉ prev_step_scheduled_req_ids s) r;
  lv_gone rid r : rid ∈ gone → stored s rid r → status r ≠ WAITING_FOR_REMOTE_KVS;
  lv_outside rid : rid ∉ (requests s).*1 → kv_vacant (kv_cache_manager s) rid
}.

Lemma sched_live s : sched_inv s → all_plain s → ∃ ws ks, live_inv s (running s) ws ks [].
Proof.
  intros [S1 S2 S3 S4 S5 S6 (ws & ks & Q1 & Q2 & Q3 & Q4) S8] Hp. exists ws, ks.
  split; try done; [by rewrite app_nil_r|by intros ? ? ?%not_elem_of_nil].
Qed.

Lemma live_sched s ws ks : live_inv s (running s) ws ks [] → zlen (running s) ≤ max_num_running_reqs (config s) → sched_inv s.
Proof.
  intros [L1 L2 L3 L4 L5 L6 L7 L8 L9 L10 L11 L12] Hlim. split; try done. exists ws, ks. by rewrite app_nil_r in L8.
Qed.

Lemma live_nodup s run ws ks gone : live_inv s run ws ks gone → NoDup (run ++ ws ++ ks ++ gone).
Proof. intros Hl. rewrite (lv_perm _ _ _ _ _ Hl). apply (lv_store _ _ _ _ _ Hl). Qed.

Lemma live_perm s run ws ks gone run' ws' ks' gone' :
  live_inv s run ws ks gone → run' ≡ₚ run → ws' = ws → ks' = ks → gone' ≡ₚ gone → live_inv s run' ws' ks' gone'.
Proof.
  intros [L1 L2 L3 L4 L5 L6 L7 L8 L9 L10 L11 L12] Hr -> -> Hg. split; try done.
  - by rewrite Hr, Hg.
  - intros rid. rewrite Hr. apply L9.
  - intros rid r. rewrite Hg. apply L11.
Qed.

(** Frames for one request. *)
Lemma running_ok_frame c k k' r :
  running_ok c k r → kv_keeps (λ x, x = request_id r) k k' → running_ok c k' r.
Proof. intros [H1 H2 H3 H4 H5 H6] Hk. split; try done. by apply (Hk (request_id r)). Qed.

(** ** Freeing a request *)

(** The scheduler after a request has left; only it and its blocks are gone. *)
Record removed (rid : string) s s' : Prop := {
  rm_requests : requests s' = dict_del (requests s) rid;
  rm_config : config s' = config s;
  rm_running : running s' = running s;
  rm_queues : waiting s' = waiting s ∧ skipped_waiting s' = skipped_waiting s;
  rm_prev : prev_step_scheduled_req_ids s' = prev_step_scheduled_req_ids s;
  rm_enc : encoder_cache_manager s' = encoder_cache_manager s;
  rm_kv : kv_ok (kv_cache_manager s') ∧ kv_keeps (λ x, x ≠ rid) (kv_cache_manager s) (kv_cache_manager s')
    ∧ kv_vacant (kv_cache_manager s') rid
}.

Lemma removed_live rid s s' run ws ks gone :
  removed rid s s' → live_inv s run ws ks (rid :: gone) → live_inv s' run ws ks gone.
Proof.
  intros [R1 R2 R3 [R4 R4'] R5 R6 (K1 & K2 & K3)] Hl. pose proof (live_nodup _ _ _ _ _ Hl) as Hnd.
  destruct Hl as [L1 L2 L3 L4 L5 L6 L7 L8 L9 L10 L11 L12].
  assert (Hrid : rid ∈ (requests s).*1) by (rewrite <-L8; do 3 (apply elem_of_app; right); left).
  assert (Hother : ∀ x, x ≠ rid → dict_get (requests s') x = dict_get (requests s) x).
  { intros x Hx. rewrite R1. by apply dict_get_del_ne. }
  assert (Hgone : dict_get (requests s') rid = None) by (rewrite R1, dict_get_del, decide_True; [done|done|apply L2]).
  assert (Hsome : ∀ x r, stored s' x r → x ≠ rid ∧ stored s x r).
  { intros x r Hx. assert (x ≠ rid) by congruence. split; [done|]. by rewrite <-Hother. }
  assert (Hp : (requests s).*1 ≡ₚ rid :: (requests s').*1).
  { apply dict_get_is_Some in Hrid as [v Hv]. rewrite R1. by eapply dict_del_perm. }
  assert (Hperm : run ++ ws ++ ks ++ gone ≡ₚ (requests s').*1).
  { rewrite Hp in L8. apply (Permutation_cons_inv (a := rid)). rewrite <-L8. clear.
    rewrite !(assoc_L (++)). rewrite <-Permutation_middle. done. }
  assert (Hnotin : ∀ x, x ∈ run ++ ws ++ ks → x ≠ rid).
  { intros x Hx ->. rewrite !(assoc_L (++)) in Hnd. apply NoDup_app in Hnd as (_ & Hd & _).
    apply (Hd rid); [by rewrite <-!(assoc_L (++))|left]. }
  assert (Hk : ∀ x, x ≠ rid → kv_keeps (λ y, y = x) (kv_cache_manager s) (kv_cache_manager s')).
  { intros x Hx. eapply keeps_weaken; [|exact K2]. by intros y ->. }
  assert (Hstore : store_ok s').
  { split; [rewrite R1; by apply dict_del_nodup, L2|]. intros x r [_ Hx]%Hsome. by apply (so_id _ L2). }
  assert (Hq : ∀ q l, (∀ x, x ∈ l → x ∈ run ++ ws ++ ks) → queued s q l → queued s' q l).
  { intros q l Hl. apply queued_at; [|done]. intros x Hx. by rewrite Hother by (by apply Hnotin, Hl). }
  split; rewrite ?R2; try done.
  - unfold encoder_idle. by rewrite R6.
  - intros x r [_ Hx]%Hsome. by eapply L5.
  - rewrite R4. apply Hq; [|done]. intros x Hx. apply elem_of_app. right. apply elem_of_app. by left.
  - rewrite R4'. apply Hq; [|done]. intros x Hx. apply elem_of_app. right. apply elem_of_app. by right.
  - intros x Hx. destruct (L9 x Hx) as (r & Hr & Hok). assert (x ≠ rid) as Hne by (apply Hnotin, elem_of_app; by left).
    exists r. rewrite Hother by done. split; [done|]. eapply running_ok_frame; [done|]. rewrite (so_id _ L2 _ _ Hr). by apply Hk.
  - intros x Hx. destruct (L10 x Hx) as (r & Hr & Hok). assert (x ≠ rid) as Hne by (apply Hnotin, elem_of_app; by right).
    exists r. rewrite Hother by done. split; [done|]. eapply wait_ok_frame; [done| |by rewrite R5].
    rewrite (so_id _ L2 _ _ Hr). by apply Hk.
  - intros x r Hx [_ Hr]%Hsome. eapply L11; [by right|done].
  - intros x Hx. destruct (decide (x = rid)) as [->|Hne]; [done|]. apply (K2 x Hne), L12. rewrite Hp.
    by intros [?|?]%elem_of_cons.
Qed.

Lemma free_request_ok rid s r :
  kv_ok (kv_cache_manager s) → encoder_idle s → stored s rid r → request_id r = rid → mm_features r = [] →
  is_finished r = true → ∃ s', _free_request rid false s = Ok (tt, s') ∧ removed rid s s'.
Proof.
  intros Hk He Hr Hid Hm Hf. unfold _free_request. rewrite (bind_ok _ _ _ _ _ (deref_ok _ _ _ Hr)), Hf. mstep. mstep.
  set (s1 := s_set_inflight_prefills _ s).
  rewrite (bind_ok _ _ _ _ _ (encoder_free_idle s1 r He Hm)). mstep.
  set (s2 := s_set_finished_req_ids _ s1). mstep.
  set (s3 := match finished_req_ids_dict s2 with Some _ => _ | None => s2 end).
  assert (F : requests s3 = requests s ∧ config s3 = config s ∧ running s3 = running s ∧ waiting s3 = waiting s
    ∧ skipped_waiting s3 = skipped_waiting s ∧ prev_step_scheduled_req_ids s3 = prev_step_scheduled_req_ids s
    ∧ encoder_cache_manager s3 = encoder_cache_manager s ∧ kv_cache_manager s3 = kv_cache_manager s)
    by (unfold s3; destruct (finished_req_ids_dict s2); done).
  destruct F as (F1 & F2 & F3 & F4 & F5 & F6 & F7 & F8). clearbody s3.
  assert (Hr3 : stored s3 rid r) by (by rewrite F1).
  unfold _free_blocks. rewrite (bind_ok _ _ _ _ _ (deref_ok _ _ _ Hr3)), Hf. mstep.
  destruct (kc_free (kv_cache_manager s) r Hk) as (k' & Ek & Hk' & Hkeep & Hvac). rewrite <-F8 in Ek.
  rewrite (bind_ok _ _ _ _ _ (on_kv_ok (km_free r) s3 tt k' Ek)). eexists. split; [reflexivity|].
  rewrite Hid in *. split; simpl; try done. by rewrite F1.
Qed.
(** ** [finish_requests] *)

(** Marking a request that is about to leave. *)
Lemma mark_gone s run ws ks gone rid r st :
  live_inv s run ws ks gone → rid ∈ gone → stored s rid r → st ≠ WAITING_FOR_REMOTE_KVS →
  live_inv (put_req rid (req_set_status st r) s) run ws ks gone.
Proof.
  intros Hl Hg Hr Hst. pose proof (live_nodup _ _ _ _ _ Hl) as Hnd.
  set (s' := put_req rid (req_set_status st r) s).
  assert (Hsc : same_contents s s') by (by apply (put_req_contents s rid _ r)).
  destruct Hl as [L1 L2 L3 L4 L5 L6 L7 L8 L9 L10 L11 L12].
  assert (Hne : ∀ x, x ∈ run ++ ws ++ ks → x ≠ rid).
  { intros x Hx ->. rewrite !(assoc_L (++)) in Hnd. apply NoDup_app in Hnd as (_ & Hd & _).
    apply (Hd rid); [by rewrite <-!(assoc_L (++))|done]. }
  assert (Hkeys : (requests s').*1 = (requests s).*1) by (by apply (put_req_keys s rid _ r)).
  split; try done.
  - apply (put_req_store s rid _ r); [done|done|]. exact (so_id _ L2 _ _ Hr).
  - by apply (all_plain_contents s).
  - by apply (queued_contents s).
  - by apply (queued_contents s).
  - by rewrite Hkeys.
  - intros x Hx. unfold s'. rewrite stored_put, decide_False by (apply Hne, elem_of_app; by left). by apply L9.
  - intros x Hx. unfold s'. rewrite stored_put, decide_False by (apply Hne, elem_of_app; by right). by apply L10.
  - intros x r' Hx. unfold s'. rewrite stored_put. case_decide; [by intros [= <-]|by apply L11].
  - intros x. rewrite Hkeys. apply L12.
Qed.

(** The last loop of [finish_requests]. *)
Lemma finish_loop_ok st run ws ks : status_is_finished st = true → ∀ valid s, live_inv s run ws ks valid →
  ∃ s', forM valid (λ rid,
      r ← deref rid;
      let delay_free_blocks := bool_decide (status r = WAITING_FOR_REMOTE_KVS) in
      _ ← mutate rid (req_set_status st);
      _free_request rid delay_free_blocks) s = Ok (tt, s')
    ∧ live_inv s' run ws ks [] ∧ config s' = config s ∧ running s' = running s
    ∧ prev_step_scheduled_req_ids s' = prev_step_scheduled_req_ids s
    ∧ (∀ x, x ∉ valid → dict_get (requests s') x = dict_get (requests s) x)
    ∧ (∀ x, x ∈ valid → dict_get (requests s') x = None).
Proof.
  intros Hfin. induction valid as [|rid valid IH]; intros s Hl.
  { exists s. split_and!; try done. by intros x ?%not_elem_of_nil. }
  assert (Hin : rid ∈ (requests s).*1).
  { rewrite <-(lv_perm _ _ _ _ _ Hl). do 3 (apply elem_of_app; right). left. }
  apply dict_get_is_Some in Hin as [r Hr]. pose proof (so_id _ (lv_store _ _ _ _ _ Hl) _ _ Hr) as Hid.
  cbn [forM]. pose proof (lv_gone _ _ _ _ _ Hl rid r ltac:(left) Hr) as Hrem.
  set (r1 := req_set_status st r). set (s1 := put_req rid r1 s).
  assert (Hl1 : live_inv s1 run ws ks (rid :: valid)) by (eapply mark_gone; try done; [left|by intros ->]).
  destruct (free_request_ok rid s1 r1) as (s2 & E2 & Hrm); try done; try apply Hl1.
  { unfold s1. rewrite stored_put. by rewrite decide_True. }
  { apply (pn_text _ (lv_plain _ _ _ _ _ Hl _ _ Hr)). }
  pose proof (removed_live _ _ _ _ _ _ _ Hrm Hl1) as Hl2. destruct (IH s2 Hl2) as (s' & E & Hl' & G1 & G2 & G3 & G4 & G5).
  exists s'. split.
  { assert (E1 : (r ← deref rid;
      let delay_free_blocks := bool_decide (status r = WAITING_FOR_REMOTE_KVS) in
      _ ← mutate rid (req_set_status st); _free_request rid delay_free_blocks) s = Ok (tt, s2)).
    { rewrite (bind_ok _ _ _ _ _ (deref_ok _ _ _ Hr)). rewrite bool_decide_eq_false_2 by done. cbv zeta.
      rewrite (bind_ok _ _ _ _ _ (mutate_ok s rid r _ Hr)). exact E2. }
    by rewrite (bind_ok _ _ _ _ _ E1). }
  pose proof (live_nodup _ _ _ _ _ Hl) as Hnd. assert (Hni : rid ∉ valid).
  { rewrite !(assoc_L (++)) in Hnd. apply NoDup_app in Hnd as (_ & _ & [? _]%NoDup_cons). done. }
  destruct Hrm as [R1 R2 R3 R4 R5 R6 R7].
  assert (Hget : ∀ x, dict_get (requests s2) x = if decide (x = rid) then None else dict_get (requests s) x).
  { intros x. rewrite R1, dict_get_del by apply (lv_store _ _ _ _ _ Hl1). case_decide; [done|].
    unfold s1. by rewrite stored_put, decide_False. }
  split_and!; try done; [by rewrite G1, R2|by rewrite G2, R3|by rewrite G3, R5| |].
  - intros x [Hx1 Hx2]%not_elem_of_cons. by rewrite G4, Hget, decide_False.
  - intros x [->|Hx]%elem_of_cons; [by rewrite G4, Hget, decide_True|by apply G5].
Qed.

(** The first pass sorts the ids by where their requests are. *)
Definition sifts (P : string → Prop) (ids l : list string) : Prop := ∀ x, x ∈ l ↔ x ∈ ids ∧ P x.

Lemma sifts_nil P : sifts P [] [].
Proof. intros x. rewrite elem_of_nil. tauto. Qed.
Lemma sifts_out P rid ids l : ¬ P rid → sifts P ids l → sifts P (rid :: ids) l.
Proof. intros Hp Hs x. rewrite (Hs x), elem_of_cons. split; [tauto|]. intros [[->|?] ?]; [done|tauto]. Qed.
Lemma sifts_in P rid ids l : P rid → sifts P ids l → sifts P (rid :: ids) (rid :: l).
Proof. intros Hp Hs x. rewrite !elem_of_cons, (Hs x). split; [intros [->|[? ?]]; tauto|tauto]. Qed.

Definition in_status s (P : RequestStatus → Prop) (x : string) : Prop := ∃ r, stored s x r ∧ P (status r).

Lemma in_status_at s P x r : stored s x r → in_status s P x ↔ P (status r).
Proof. intros Hr. split; [|by exists r]. intros (r' & Hr' & Hp). by assert (r' = r) as -> by congruence. Qed.

Lemma collect_ok ids : ∀ s valid run wait,
  (∀ x r, stored s x r → is_finished r = false) → NoDup ids →
  ∃ v u w n, collect_requests ids valid run wait s
      = Ok (valid ++ v, run ++ u, wait ++ w, s_set_num_waiting_for_streaming_input n s)
    ∧ NoDup v ∧ sifts (in_status s (λ _, True)) ids v
    ∧ sifts (in_status s (.= RUNNING)) ids u ∧ sifts (in_status s (.≠ RUNNING)) ids w.
Proof.
  induction ids as [|rid ids IH]; intros s valid run wait Hf Hnd; cbn [collect_requests].
  { exists [], [], [], (num_waiting_for_streaming_input s). rewrite !app_nil_r.
    split; [by destruct s|]. split; [constructor|]. split_and!; apply sifts_nil. }
  apply NoDup_cons in Hnd as [Hni Hnd]. mstep.
  assert (Hcons : ∀ v, NoDup v → sifts (in_status s (λ _, True)) ids v → NoDup (rid :: v)).
  { intros v Hv Hs. apply NoDup_cons. split; [|done]. by intros [? _]%Hs. }
  destruct (dict_get (requests s) rid) as [r|] eqn:Er.
  2:{ destruct (IH s valid run wait Hf Hnd) as (v & u & w & n & E & H1 & H2 & H3 & H4).
      assert (Hno : ∀ P, ¬ in_status s P rid) by (intros P (r & ? & _); congruence).
      exists v, u, w, n. split_and!; try done; by apply sifts_out. }
  rewrite (Hf _ _ Er). case_bool_decide as Est.
  - destruct (IH s (valid ++ [rid]) (run ++ [rid]) wait Hf Hnd) as (v & u & w & n & E & H1 & H2 & H3 & H4).
    exists (rid :: v), (rid :: u), w, n. split; [rewrite E; by rewrite <-!(assoc_L (++))|].
    split; [by apply Hcons|]. split; [apply sifts_in; [by exists r|done]|].
    split; [apply sifts_in; [by exists r|done]|]. apply sifts_out; [|done].
    rewrite (in_status_at _ _ _ _ Er). intros Hn. by apply Hn.
  - set (n1 := if bool_decide (status r = WAITING_FOR_STREAMING_REQ) then num_waiting_for_streaming_input s - 1
               else num_waiting_for_streaming_input s).
    rewrite (bind_ok _ _ _ tt (s_set_num_waiting_for_streaming_input n1 s))
      by (unfold n1; case_bool_decide; [done|by destruct s]).
    destruct (IH (s_set_num_waiting_for_streaming_input n1 s) (valid ++ [rid]) run (wait ++ [rid]) Hf Hnd)
      as (v & u & w & n & E & H1 & H2 & H3 & H4).
    exists (rid :: v), u, (rid :: w), n. split; [rewrite E; by rewrite <-!(assoc_L (++))|].
    split; [by apply Hcons|]. split; [apply sifts_in; [by exists r|done]|].
    split; [apply sifts_out; [by rewrite (in_status_at _ _ _ _ Er)|done]|]. apply sifts_in; [by exists r|done].
Qed.

Lemma aborted_ok s valid : (∀ x, x ∈ valid → x ∈ (requests s).*1) →
  ∃ l, foldr (λ rid acc, r ← obj s rid; xs ← acc; Ok ((rid, client_index r) :: xs)) (Ok []) valid = Ok l.
Proof.
  induction valid as [|rid valid IH]; intros Hv; [by eexists|].
  destruct (IH (λ x Hx, Hv x (list_elem_of_further _ _ _ Hx))) as [l Hl].
  destruct (proj2 (dict_get_is_Some (requests s) rid) (Hv rid (list_elem_of_here _ _))) as [r Hr].
  exists ((rid, client_index r) :: l). cbn [foldr].
  assert (obj s rid = Ok r) as -> by (unfold obj; by rewrite Hr). by rewrite Hl.
Qed.
(** After the lists have been updated, the collected requests are in no list. *)
Lemma collected_live s ws ks u w v ids n qw qk :
  live_inv s (running s) ws ks [] → NoDup v → sifts (in_status s (λ _, True)) ids v →
  sifts (in_status s (.= RUNNING)) ids u → sifts (in_status s (.≠ RUNNING)) ids w →
  let s1 := s_set_num_waiting_for_streaming_input n s in
  queued s qw (filter (.∉ w) ws) → queued s qk (filter (.∉ w) ks) →
  live_inv (s_set_skipped_waiting qk (s_set_waiting qw (s_set_running (filter (.∉ u) (running s)) s1)))
    (filter (.∉ u) (running s)) (filter (.∉ w) ws) (filter (.∉ w) ks) v.
Proof.
  intros Hl Hnv Hv Hu Hw s1 Hqw Hqk. pose proof (live_nodup _ _ _ _ _ Hl) as Hnd.
  destruct Hl as [L1 L2 L3 L4 L5 L6 L7 L8 L9 L10 L11 L12]. rewrite app_nil_r in *.
  assert (Hsub : ∀ (l xs : list string) x, x ∈ filter (.∉ xs) l → x ∈ l) by (intros l xs x [_ ?]%list_elem_of_filter; done).
  split; try done.
  - by apply (store_ok_same s).
  - simpl.
    assert (filter (.∉ u) (running s) = filter (.∉ ids) (running s)) as ->.
    { apply filter_ext_in. intros x Hx. rewrite (Hu x). destruct (L9 x Hx) as (r & Hr & Hok).
      rewrite (in_status_at _ _ _ _ Hr), (rg_status _ _ _ _ Hok). tauto. }
    assert (Hww : ∀ l : list string, (∀ x, x ∈ l → x ∈ ws ++ ks) → filter (.∉ w) l = filter (.∉ ids) l).
    { intros l Hsubl. apply filter_ext_in. intros x Hx%Hsubl. rewrite (Hw x). destruct (L10 x Hx) as (r & Hr & Hok).
      assert (status r ≠ RUNNING) by (intros E; pose proof (wk_status _ _ _ _ _ Hok) as Hst; rewrite E in Hst; status_out Hst).
      rewrite (in_status_at _ _ _ _ Hr). tauto. }
    rewrite (Hww ws), (Hww ks) by (intros x Hx; apply elem_of_app; tauto).
    rewrite !(assoc_L (++)), <-!filter_app, <-L8. rewrite <-(assoc_L (++)). apply filter_out_perm; [done|done|].
    intros x. rewrite (Hv x), L8, <-dict_get_is_Some. unfold in_status, is_Some. split; [intros [? (r & ? & _)]|intros [? [r ?]]]; eauto.
  - intros x Hx%Hsub. by apply L9.
  - intros x Hx. apply L10. apply elem_of_app in Hx as [?%Hsub|?%Hsub]; apply elem_of_app; tauto.
  - intros x r Hx Hr E. change (stored s x r) in Hr. assert (Hin : x ∈ (requests s).*1) by (apply dict_get_is_Some; by exists r).
    rewrite <-L8 in Hin. apply elem_of_app in Hin as [Hin|Hin].
    + destruct (L9 x Hin) as (r' & Hr' & Hok). assert (r' = r) as -> by congruence. pose proof (rg_status _ _ _ _ Hok). congruence.
    + destruct (L10 x Hin) as (r' & Hr' & Hok). assert (r' = r) as -> by congruence.
      pose proof (wk_status _ _ _ _ _ Hok) as Hst. rewrite E in Hst. status_out Hst.
Qed.

Lemma sched_unfinished s : sched_inv s → ∀ x r, stored s x r → is_finished r = false.
Proof.
  intros [S1 S2 S3 S4 S5 S6 (ws & ks & Q1 & Q2 & Q3 & Q4) S8] x r Hr. unfold is_finished.
  assert (Hin : x ∈ (requests s).*1) by (apply dict_get_is_Some; by exists r).
  rewrite <-Q3 in Hin. apply elem_of_app in Hin as [Hin|Hin].
  - destruct (S6 x Hin) as (r' & Hr' & Hok). assert (r' = r) as -> by congruence. by rewrite (rg_status _ _ _ _ Hok).
  - destruct (Q4 x Hin) as (r' & Hr' & Hok). assert (r' = r) as -> by congruence. pose proof (wk_status _ _ _ _ _ Hok) as Hst.
    destruct (status r); try done; status_out Hst.
Qed.

(** What is left after requests have finished. *)
Record finished (ids : list string) s s' : Prop := {
  fd_inv : sched_inv s';
  fd_plain : all_plain s';
  fd_config : config s' = config s;
  fd_prev : prev_step_scheduled_req_ids s' = prev_step_scheduled_req_ids s;
  fd_running x : x ∈ running s' ↔ x ∈ running s ∧ x ∉ ids;
  fd_stored x : dict_get (requests s') x = if decide (x ∈ ids) then None else dict_get (requests s) x
}.

Lemma finish_requests_ok s request_ids st :
  let ids := default (requests s).*1 request_ids in
  sched_inv s → all_plain s → NoDup ids → status_is_finished st = true →
  ∃ l s', finish_requests request_ids st s = Ok (l, s') ∧ finished ids s s'.
Proof.
  intros ids Hs Hp Hnd Hst. destruct (sched_live s Hs Hp) as (ws & ks & Hl).
  destruct (collect_ok ids s [] [] [] (sched_unfinished s Hs) Hnd) as (v & u & w & n & E & Hnv & Hv & Hu & Hw).
  unfold finish_requests. rewrite Hst. mstep. mstep. change (fst <$> requests s) with (requests s).*1. fold ids.
  rewrite (bind_ok _ _ _ _ _ E). cbv beta iota. rewrite !app_nil_l. mstep.
  set (s1 := s_set_num_waiting_for_streaming_input n s). pose proof (live_nodup _ _ _ _ _ Hl) as Hnodup.
  change (running s1) with (running s). rewrite remove_all_filter by (by apply NoDup_app in Hnodup as [? _]).
  set (s2 := s_set_running _ s1). pose proof (order_total _ (lv_store _ _ _ _ _ Hl)) as Hot.
  set (qw := if bool_decide (w = []) then waiting s else remove_requests (req_order s) w (waiting s)).
  set (qk := if bool_decide (w = []) then skipped_waiting s else remove_requests (req_order s) w (skipped_waiting s)).
  set (s3 := s_set_skipped_waiting qk (s_set_waiting qw s2)).
  assert (E3 : (if bool_decide (w = []) then mret tt
       else
         _ ← modify (λ s, s_set_waiting (remove_requests (req_order s) w (waiting s)) s);
         modify (λ s, s_set_skipped_waiting (remove_requests (req_order s) w (skipped_waiting s)) s)) s2 = Ok (tt, s3)).
  { unfold s3, qw, qk. by case_bool_decide. }
  rewrite (bind_ok _ _ _ _ _ E3).
  assert (Hfil : ∀ l : list string, w = [] → filter (.∉ w) l = l).
  { intros l ->. apply filter_all. by intros z _ ?%not_elem_of_nil. }
  assert (Hqs : queued s qw (filter (.∉ w) ws) ∧ queued s qk (filter (.∉ w) ks)).
  { unfold qw, qk. case_bool_decide as Ew; [rewrite !Hfil by done; split; apply Hl|].
    split; (apply remove_all_repr; [exact Hot|apply Hl]). }
  pose proof (collected_live s ws ks u w v ids n qw qk Hl Hnv Hv Hu Hw (proj1 Hqs) (proj2 Hqs)) as Hl3. fold s1 s2 s3 in Hl3.
  mstep. destruct (aborted_ok s3 v) as [l El].
  { intros x (_ & r & Hr & _)%Hv. apply dict_get_is_Some. by exists r. }
  rewrite El. mstep. destruct (finish_loop_ok st _ _ _ Hst v s3 Hl3) as (s' & E4 & Hl' & G1 & G2 & G3 & G4 & G5).
  rewrite (bind_ok _ _ _ _ _ E4). exists l, s'. split; [done|].
  assert (Hrun : running s' = filter (.∉ u) (running s)) by (by rewrite G2).
  assert (Hmem : ∀ x, x ∈ running s' ↔ x ∈ running s ∧ x ∉ ids).
  { intros x. rewrite Hrun, list_elem_of_filter, (Hu x). split; [|tauto]. intros [Hx Hin]. split; [done|].
    intros Hid. apply Hx. split; [done|]. destruct (lv_run _ _ _ _ _ Hl x Hin) as (r & Hr & Hok). exists r.
    split; [done|apply Hok]. }
  rewrite <-Hrun in Hl'. split; try done.
  - apply (live_sched s' _ _ Hl'). rewrite G1. etrans; [|apply (sv_limit _ _ Hs)]. rewrite Hrun. unfold zlen.
    pose proof (length_filter (.∉ u) (running s)). lia.
  - apply Hl'.
  - intros x. case_decide as Hx.
    + destruct (decide (x ∈ v)) as [Hxv|Hxv]; [by apply G5|]. rewrite G4 by done.
      destruct (dict_get (requests s3) x) as [r|] eqn:Er; [|done]. destruct Hxv. apply Hv. split; [done|]. by exists r.
    + rewrite G4; [done|]. by intros [? _]%Hv.
Qed.
(** ** Construction and new requests *)

Lemma new_scheduler_inv c kv size inc :
  config_ok max_len c → 0 ≤ max_num_running_reqs c → kv_ok kv → (∀ rid, kv_vacant kv rid) →
  sched_inv (new_scheduler c kv size inc) ∧ caught_up (new_scheduler c kv size inc) ∧ all_plain (new_scheduler c kv size inc).
Proof.
  intros Hc Hm Hk Hv. split; [|split; [by intros ? ? ?%not_elem_of_nil|done]]. split; try done.
  - split; [constructor|done].
  - unfold encoder_idle. simpl. by destruct (is_encoder_decoder c).
  - by intros ? ?%not_elem_of_nil.
  - exists [], []. split; [apply (create_repr _ (policy c))|]. split; [apply (create_repr _ (policy c))|]. split; [done|].
    by intros ? ?%not_elem_of_nil.
Qed.

(** A request as the engine hands it over. *)
Record fresh_request c r : Prop := {
  fr_plain : plain r;
  fr_fits : fits max_len c r;
  fr_status : status r = WAITING ∨ status r = WAITING_FOR_STRUCTURED_OUTPUT_GRAMMAR;
  fr_computed : num_computed_tokens r = 0;
  fr_placeholders : num_output_placeholders r = 0
}.

Lemma fresh_wait c k P r : fresh_request c r → kv_vacant k (request_id r) → wait_ok c k P r.
Proof.
  intros [F1 F2 F3 F4 F5] Hv. split.
  - destruct F3 as [-> | ->]; status_in.
  - destruct F3 as [-> | ->]; done.
  - intros _. split; [done|]. split; [|by left]. unfold placeholders_ok. rewrite F5. lia.
  - destruct F3 as [-> | ->]; done.
Qed.

Record joined r s s' : Prop := {
  jn_config : config s' = config s;
  jn_running : running s' = running s;
  jn_kv : kv_cache_manager s' = kv_cache_manager s;
  jn_enc : encoder_cache_manager s' = encoder_cache_manager s;
  jn_prev : prev_step_scheduled_req_ids s' = prev_step_scheduled_req_ids s;
  jn_stored x : x ≠ request_id r → dict_get (requests s') x = dict_get (requests s) x;
  jn_new : ∃ r', stored s' (request_id r) r' ∧ content r' = content r ∧ status r' = status r
    ∧ num_computed_tokens r' = num_computed_tokens r ∧ num_output_placeholders r' = num_output_placeholders r;
  jn_keys : (requests s').*1 = (requests s).*1 ++ [request_id r]
}.

Lemma joined_inv r s s' ws ks ws' ks' :
  live_inv s (running s) ws ks [] → zlen (running s) ≤ max_num_running_reqs (config s) → fresh_request (config s) r →
  request_id r ∉ (requests s).*1 → joined r s s' → ws' ++ ks' ≡ₚ request_id r :: ws ++ ks →
  queued s' (waiting s') ws' → queued s' (skipped_waiting s') ks' → sched_inv s' ∧ all_plain s'.
Proof.
  intros [L1 L2 L3 L4 L5 L6 L7 L8 L9 L10 L11 L12] Hlim Hf Hni [J1 J2 J3 J4 J5 J6 (r' & Hr' & C1 & C2 & C3 & C4) J8] Hperm Hqw Hqk.
  rewrite app_nil_r in L8. set (rid := request_id r) in *.
  assert (Hne : ∀ x y, stored s x y → x ≠ rid).
  { intros x y Hx ->. apply Hni, dict_get_is_Some. by exists y. }
  assert (Hsome : ∀ x y, stored s' x y → x = rid ∧ y = r' ∨ stored s x y).
  { intros x y Hx. destruct (decide (x = rid)) as [->|Hxr]; [left; split; congruence|right; by rewrite <-J6]. }
  assert (Hplain : all_plain s').
  { intros x y [[-> ->]|Hx]%Hsome; [|by eapply L5]. eapply plain_content; [symmetry; exact C1|apply Hf]. }
  assert (Hfr : fresh_request (config s) r').
  { destruct Hf as [F1 F2 F3 F4 F5]. split; rewrite ?C2, ?C3, ?C4; try done; [by eapply plain_content|].
    by eapply (fits_content _ _ r). }
  assert (Hid : request_id r' = rid) by (by rewrite (content_id _ _ C1)).
  split; [|done]. split; rewrite ?J1, ?J2, ?J3; try done.
  - split.
    + rewrite J8. apply NoDup_app. split; [apply L2|]. split; [|apply NoDup_singleton]. by intros x Hx ->%list_elem_of_singleton.
    + intros x y [[-> ->]|Hx]%Hsome; [done|by apply (so_id _ L2)].
  - unfold encoder_idle. by rewrite J4.
  - intros x Hx. destruct (L9 x Hx) as (y & Hy & Hok). exists y. rewrite J6 by (by eapply Hne). done.
  - exists ws', ks'. split; [done|]. split; [done|]. split.
    + rewrite J8, <-L8, Hperm. rewrite (Permutation_app_comm _ [rid]). simpl. symmetry. apply Permutation_middle.
    + intros x. rewrite Hperm, J5. intros [->|Hx]%elem_of_cons.
      * exists r'. split; [done|]. apply fresh_wait; [done|]. rewrite Hid. by apply L12.
      * destruct (L10 x Hx) as (y & Hy & Hok). exists y. by rewrite J6 by (by eapply Hne).
  - intros x. rewrite J8. intros [Hx _]%not_elem_of_app. by apply L12.
Qed.

Lemma add_perm lt p (x : string) l : QueueSpec.add lt p x l ≡ₚ x :: l.
Proof. destruct p; simpl; [by rewrite Permutation_app_comm|apply insert_sorted_perm]. Qed.

Lemma add_request_ok s r :
  sched_inv s → all_plain s → fresh_request (config s) r → request_id r ∉ (requests s).*1 →
  ∃ s', add_request_to_scheduler kv_hasher r s = Ok (tt, s') ∧ sched_inv s' ∧ all_plain s' ∧ joined r s s'.
Proof.
  intros Hs Hp Hf Hni. destruct (sched_live s Hs Hp) as (ws & ks & Hl). set (rid := request_id r) in *.
  unfold add_request_to_scheduler. mstep. fold rid. rewrite (proj2 (dict_get_None _ _) Hni).
  rewrite (pn_session _ (fr_plain _ _ Hf)). set (s1 := put_req rid r s).
  assert (E1 : set_obj rid r s = Ok (tt, s1)) by done. rewrite (bind_ok _ _ _ _ _ E1).
  assert (Hr1 : stored s1 rid r) by (unfold s1; rewrite stored_put; by rewrite decide_True).
  assert (Hst1 : store_ok s1).
  { split; [unfold s1, put_req; simpl; apply dict_set_nodup, (lv_store _ _ _ _ _ Hl)|]. intros x y. unfold s1. rewrite stored_put.
    case_decide as Hx; [intros [= <-]; by subst|apply (so_id _ (lv_store _ _ _ _ _ Hl))]. }
  pose proof (order_total _ Hst1) as Hot.
  assert (Hq1 : ∀ q l, (∀ x, x ∈ l → x ∈ ws ++ ks) → queued s q l → queued s1 q l).
  { intros q l Hsub. apply queued_at; [|done]. intros x Hx%Hsub. unfold s1. rewrite stored_put, decide_False; [done|].
    intros ->. apply Hni. rewrite <-(lv_perm _ _ _ _ _ Hl), app_nil_r. apply elem_of_app. by right. }
  pose proof (Hq1 _ _ (λ x Hx, proj2 (elem_of_app _ _ _) (or_introl Hx)) (lv_waiting _ _ _ _ _ Hl)) as Hqw.
  pose proof (Hq1 _ _ (λ x Hx, proj2 (elem_of_app _ _ _) (or_intror Hx)) (lv_skipped _ _ _ _ _ Hl)) as Hqk.
  set (blk := _is_blocked_waiting_status (status r)).
  set (s2 := if blk then s_set_skipped_waiting (add_request (req_order s1) rid (skipped_waiting s1)) s1
             else s_set_waiting (add_request (req_order s1) rid (waiting s1)) s1).
  assert (E2 : _enqueue_waiting_request rid s1 = Ok (tt, s2)).
  { unfold _enqueue_waiting_request. rewrite (bind_ok _ _ _ _ _ (deref_ok _ _ _ Hr1)). fold blk. unfold s2. by destruct blk. }
  rewrite (bind_ok _ _ _ _ _ E2).
  set (p := policy (config s)).
  set (ws' := if blk then ws else QueueSpec.add (req_order s1) p rid ws).
  set (ks' := if blk then QueueSpec.add (req_order s1) p rid ks else ks).
  assert (Hperm : ws' ++ ks' ≡ₚ rid :: ws ++ ks).
  { unfold ws', ks'. destruct blk; rewrite add_perm; [symmetry; apply Permutation_middle|done]. }
  assert (Hq2 : queued s1 (waiting s2) ws' ∧ queued s1 (skipped_waiting s2) ks').
  { unfold s2, ws', ks'. destruct blk; (split; [try done|try done]); apply (add_repr (req_order s1) (policy (config s1))); done. }
  assert (F : requests s2 = requests s1 ∧ config s2 = config s ∧ running s2 = running s
    ∧ kv_cache_manager s2 = kv_cache_manager s ∧ encoder_cache_manager s2 = encoder_cache_manager s
    ∧ prev_step_scheduled_req_ids s2 = prev_step_scheduled_req_ids s) by (unfold s2; by destruct blk).
  destruct F as (F1 & F2 & F3 & F4 & F5 & F6). assert (Hr2 : stored s2 rid r) by (by rewrite F1).
  set (r' := if sc_log_stats (config s) then record_event QUEUED r else r).
  set (s3 := put_req rid r' s2).
  assert (E3 : (if sc_log_stats (config s) then mutate rid (record_event QUEUED) else mret tt) s2 = Ok (tt, s3)).
  { unfold s3, r'. destruct (sc_log_stats (config s)); [by apply mutate_ok|]. by rewrite put_req_same. }
  rewrite E3. exists s3. split; [done|].
  assert (Hc : content r' = content r ∧ status r' = status r ∧ num_computed_tokens r' = num_computed_tokens r
    ∧ num_output_placeholders r' = num_output_placeholders r) by (unfold r'; by destruct (sc_log_stats (config s))).
  assert (Hj : joined r s s3).
  { split; try done.
    - intros x Hx. unfold s3. rewrite stored_put, F1, decide_False by done. unfold s1. by rewrite stored_put, decide_False.
    - exists r'. split; [unfold s3; rewrite stored_put; by rewrite decide_True|done].
    - unfold s3. rewrite (put_req_keys s2 rid r' r Hr2), F1. unfold s1, put_req. simpl. rewrite dict_set_keys. by rewrite decide_False. }
  assert (Hsc : same_contents s1 s3).
  { intros x. unfold s3. rewrite stored_put, F1. case_decide as Hx; [|done]. subst x. rewrite Hr1. simpl. by destruct Hc as [-> _]. }
  destruct (joined_inv r s s3 ws ks ws' ks' Hl (sv_limit _ _ Hs) Hf Hni Hj Hperm) as [H1 H2]; [..|done].
  - by apply (queued_contents s1); [| |apply Hq2].
  - by apply (queued_contents s1); [| |apply Hq2].
Qed.

Lemma joined_caught_up r s s' : request_id r ∉ (requests s).*1 → sched_inv s → joined r s s' → caught_up s → caught_up s'.
Proof.
  intros Hni Hs Hj Hcu rid y. rewrite (jn_running _ _ _ Hj). intros Hin Hy. apply (Hcu rid y Hin).
  destruct (sv_running _ _ Hs rid Hin) as (r0 & Hr0 & _). rewrite <-(jn_stored _ _ _ Hj); [done|].
  intros ->. apply Hni, dict_get_is_Some. by exists r0.
Qed.
End lifecycle.
