(* ===== verification/UpdateSafe.v ===== *)
(** * Processing the model's output

    [update_from_output] of the synchronous scheduler: rejected drafts are taken back,
    new tokens are appended up to the first stop condition, finished requests leave with
    their blocks, and the scheduler is in order and caught up again. *)

From Stdlib Require Import ZArith Lia.
From S2P Require Import Prelude MathUtils KVSpec FreeQueue Request BlockHash BlockPool SingleType Coordinator KVCacheManager RequestQueue EncoderCache SchedUtils Scheduler Schedule UpdateOutput SchedulerSpec RunningPass WaitingPass ScheduleSafe Lifecycle.
Local Open Scope Z_scope.

(** ** Appending tokens *)

(** [r'] is [r] with [n] more tokens, which may have stopped it. *)
Record advanced (n : Z) (r r' : Request) : Prop := {
  av_id : request_id r' = request_id r;
  av_text : mm_features r' = mm_features r;
  av_session : resumable r' = resumable r;
  av_pooling : pooling_params r' = pooling_params r;
  av_sampling : sampling_params r' = sampling_params r;
  av_prompt : num_prompt_tokens r' = num_prompt_tokens r;
  av_computed : num_computed_tokens r' = num_computed_tokens r;
  av_placeholders : num_output_placeholders r' = num_output_placeholders r;
  av_stats : prefill_stats r' = prefill_stats r;
  av_tokens : num_tokens r' = num_tokens r + n;
  av_output : num_output_tokens r' = num_output_tokens r + n
}.

Lemma advanced_refl r : advanced 0 r r.
Proof. split; try done; lia. Qed.
Lemma advanced_trans n m r1 r2 r3 : advanced n r1 r2 → advanced m r2 r3 → advanced (n + m) r1 r3.
Proof.
  intros [A1 A2 A3 A4 A5 A6 A7 A8 A9 A10 A11] [B1 B2 B3 B4 B5 B6 B7 B8 B9 B10 B11]. split; congruence || lia.
Qed.

Lemma appended_advanced x r r' : appended [x] r r' → advanced 1 r r' ∧ status r' = status r ∧ _output_token_ids r' ≠ [].
Proof.
  intros ->. split; [|split; [done|]].
  - split; try done; unfold num_tokens, num_output_tokens; simpl; rewrite zlen_app; done.
  - simpl. by destruct (_output_token_ids r).
Qed.

Lemma stop_advanced ml r sp b r' : stop_outcome ml r sp b r' → advanced 0 r r'.
Proof. intros []; try apply advanced_refl; (split; try done; unfold num_tokens, num_output_tokens; simpl; lia). Qed.

Section update.
Context `{HC : HashConfig} `{SO : SetOrder} `{ST : StructuredOutput} `{KV : KVView} (max_len : Z) `{CT : !KVContract max_len}.
Implicit Types (c : SchedulerConfig) (r : Request) (s : Scheduler) (o : SchedulerOutput) (mo : ModelRunnerOutput).
Local Abbreviation plain := (plain max_len).

Lemma advanced_plain n r r' : advanced n r r' → plain r → plain r'.
Proof.
  intros [A1 A2 A3 A4 A5 A6 A7 A8 A9 A10 A11] [H1 H2 H3 H4]. split; rewrite ?A2, ?A3, ?A4, ?A5, ?A6; try done. lia.
Qed.

(** A stop condition not met leaves room for one more token. *)
Lemma goes_on_room r sp r' :
  plain r → sampling_params r = Some sp → pooling_params r = None → stop_outcome max_len r sp false r' →
  r' = r ∧ num_tokens r < max_len.
Proof.
  intros [_ _ Ht Hp] Hsp Hpool Ho. destruct (Hp Hpool) as (sp' & Hsp' & Hmin). assert (sp' = sp) as -> by congruence.
  inversion Ho; subst; (split; [done|]); [lia|]. unfold hit_length in *. lia.
Qed.

Lemma stop_status ml r sp b r' : stop_outcome ml r sp b r' → status r = RUNNING →
  if b then is_finished r' = true else status r' = RUNNING.
Proof. by intros [] Hst. Qed.

Lemma append_loop_ok ts : ∀ kept r, plain r → kv_ready r → status r = RUNNING → pooling_params r = None →
  ∃ new stopped r', append_until_stop kv_hasher max_len ts kept r = Ok (kept ++ new, stopped, r')
    ∧ advanced (zlen new) r r' ∧ (ts ≠ [] → new ≠ [])
    ∧ (if stopped : bool then is_finished r' = true
       else kv_ready r' ∧ status r' = RUNNING ∧ zlen new = zlen ts ∧ (ts ≠ [] → num_tokens r' < max_len)).
Proof.
  induction ts as [|x ts IH]; intros kept r Hp Hk Hst Hpool; cbn [append_until_stop].
  { exists [], false, r. rewrite app_nil_r. split; [done|]. split; [apply advanced_refl|]. done. }
  destruct (kc_append x r Hk) as (r1 & E1 & Hk1 & Ha). rewrite E1. cbn [mbind result_bind].
  destruct (appended_advanced _ _ _ Ha) as (Hadv & Hst1 & Hout). pose proof (advanced_plain _ _ _ Hadv Hp) as Hp1.
  assert (Hpool1 : pooling_params r1 = None) by (by rewrite (av_pooling _ _ _ Hadv)).
  destruct (pn_params _ _ Hp1 Hpool1) as (sp & Hsp & Hmin).
  destruct (check_stop_outcome max_len r1 sp Hpool1 Hsp Hout) as (b & r2 & E2 & Ho). rewrite E2. cbn [mbind result_bind].
  pose proof (advanced_trans _ _ _ _ _ Hadv (stop_advanced _ _ _ _ _ Ho)) as Hadv2.
  pose proof (stop_status _ _ _ _ _ Ho ltac:(by rewrite Hst1)) as Hs2. destruct b.
  - exists [x], true, r2. done.
  - destruct (goes_on_room r1 sp r2 Hp1 Hsp Hpool1 Ho) as [-> Hroom].
    destruct (IH (kept ++ [x]) r1 Hp1 Hk1 Hs2 Hpool1) as (new & stopped & r' & E & Hadv' & _ & Hres).
    exists (x :: new), stopped, r'. split; [rewrite E; by rewrite <-(assoc_L (++))|].
    split; [rewrite zlen_cons, Z.add_comm; by eapply advanced_trans|]. split; [done|].
    destruct stopped; [done|]. destruct Hres as (H0 & H1 & H2 & H3). split; [done|]. split; [done|]. split; [rewrite !zlen_cons; lia|].
    intros _. destruct ts as [|y ts]; [|by apply H3].
    assert (zlen new = 0) as Hz by (rewrite H2; done). rewrite (av_tokens _ _ _ Hadv'), Hz. lia.
Qed.
(** ** Rejected drafts *)

Lemma put_req_twice s rid r1 r2 : put_req rid r2 (put_req rid r1 s) = put_req rid r2 s.
Proof. unfold put_req. simpl. rewrite dict_set_twice. by destruct s. Qed.
Lemma stored_put_eq s rid r : stored (put_req rid r s) rid r.
Proof. rewrite stored_put. by rewrite decide_True. Qed.

Lemma reject_ok s rid r (spec g : list Z) :
  let k := num_sampled_tokens_per_step (config s) in
  stored s rid r → 0 ≤ k → num_output_placeholders r = 0 →
  num_computed_tokens r ≤ num_tokens r + zlen spec → zlen spec ≤ num_computed_tokens r →
  zlen g ≤ k + zlen spec → (spec ≠ [] → g ≠ [] ∨ k = 0) →
  ∃ n, let r1 := req_set_num_computed_tokens n r in
    (if bool_decide (spec ≠ []) && (bool_decide (g ≠ []) || (k =? 0))
     then reject_drafts rid (zlen spec) (zlen g) else mret tt) s = Ok (tt, put_req rid r1 s)
    ∧ 0 ≤ n ≤ num_computed_tokens r ∧ n ≤ num_tokens r + zlen g.
Proof.
  intros k Hr Hk Hph Hnc Hd Hg Hne. pose proof (zlen_nonneg g). pose proof (zlen_nonneg spec).
  assert (Hid : put_req rid (req_set_num_computed_tokens (num_computed_tokens r) r) s = s).
  { replace (req_set_num_computed_tokens (num_computed_tokens r) r) with r by (by destruct r). by apply put_req_same. }
  destruct (bool_decide (spec ≠ []) && _) eqn:E.
  2:{ exists (num_computed_tokens r). cbv zeta. rewrite Hid. split; [done|]. split; [lia|].
      destruct spec as [|x spec]; [unfold zlen in *; simpl in *; lia|]. exfalso.
      rewrite bool_decide_eq_true_2 in E by done. simpl in E. apply orb_false_iff in E as [E1%bool_decide_eq_false E2%Z.eqb_neq].
      destruct (Hne ltac:(done)); tauto. }
  apply andb_true_iff in E as [Hsp%bool_decide_eq_true _].
  assert (0 < zlen spec) by (destruct spec; [done|rewrite zlen_cons; pose proof (zlen_nonneg spec); lia]).
  exists (num_computed_tokens r - (zlen spec - Z.max (zlen g - k) 0)). split; [|lia].
  unfold reject_drafts. mstep. rewrite (mutate_ok s rid r _ Hr). cbv zeta. fold k.
  rewrite (proj2 (Z.ltb_lt 0 (num_computed_tokens r))) by lia. simpl. by rewrite Hph.
Qed.

(** ** New tokens *)

(** What is asked of the structured-output manager: it advances a grammar only when
    there is one. *)
Definition grammar_sound : Prop := ∀ r, should_advance r = true → structured_output_request r = true ∧ grammar_ready r = true.

Lemma take_tokens_ok s rid r g (pooled : bool) :
  grammar_sound → async_scheduling (config s) = false → sc_max_model_len (config s) = max_len →
  stored s rid r → plain r → kv_ready r → status r = RUNNING → (pooling_params r ≠ None → g = []) →
  ∃ new stopped r', take_tokens kv_hasher rid g pooled s = Ok ((new, stopped), put_req rid r' s)
    ∧ advanced (zlen new) r r' ∧ (g ≠ [] → new ≠ [])
    ∧ (if stopped : bool then is_finished r' = true
       else kv_ready r' ∧ status r' = RUNNING ∧ zlen new = zlen g ∧ (g ≠ [] → num_tokens r' < max_len)).
Proof.
  intros Hgr Hsync Hml Hr Hp Hk Hst Hpool. unfold take_tokens. rewrite (bind_ok _ _ _ _ _ (deref_ok _ _ _ Hr)).
  assert (Htake : ∃ new stopped r', (match g with
      | _ :: _ => _update_request_with_output kv_hasher rid g
      | [] => if bool_decide (pooling_params r ≠ None) && pooled
              then _ ← mutate rid (req_set_status FINISHED_STOPPED); mret ([], true) else mret ([], false)
      end) s = Ok ((new, stopped), put_req rid r' s) ∧ advanced (zlen new) r r' ∧ (g ≠ [] → new ≠ [])
    ∧ (if stopped : bool then is_finished r' = true
       else kv_ready r' ∧ status r' = RUNNING ∧ zlen new = zlen g ∧ (g ≠ [] → num_tokens r' < max_len))).
  { destruct g as [|x g].
    - destruct (bool_decide (pooling_params r ≠ None) && pooled).
      + rewrite (bind_ok _ _ _ _ _ (mutate_ok s rid r _ Hr)). eexists [], true, _. split; [reflexivity|].
        split; [|done]. split; try done; unfold num_tokens, num_output_tokens, zlen; simpl; lia.
      + exists [], false, r. rewrite put_req_same by done. split; [done|]. split; [apply advanced_refl|]. done.
    - assert (Hpn : pooling_params r = None).
      { destruct (pooling_params r) as [pp|]; [|done]. by specialize (Hpool ltac:(done)). }
      unfold _update_request_with_output. mstep. rewrite Hsync. unfold base_update_request_with_output. mstep.
      rewrite (bind_ok _ _ _ _ _ (deref_ok _ _ _ Hr)), Hml.
      destruct (append_loop_ok (x :: g) [] r Hp Hk Hst Hpn) as (new & stopped & r' & E & Hadv & Hne & Hres).
      rewrite E. mstep. rewrite app_nil_l. exists new, stopped, r'. done. }
  destruct Htake as (new & stopped & r1 & E & Hadv & Hne & Hres). rewrite (bind_ok _ _ _ _ _ E).
  rewrite (bind_ok _ _ _ _ _ (deref_ok _ _ _ (stored_put_eq s rid r1))). cbn [fst snd].
  destruct (bool_decide (new ≠ []) && should_advance r1) eqn:Ead; [|by exists new, stopped, r1].
  apply andb_true_iff in Ead as [_ Had]. destruct (Hgr r1 Had) as [Hso Hrd]. rewrite Hso, Hrd. mstep. mstep.
  destruct (accept_tokens r1 new); [by exists new, stopped, r1|].
  rewrite (bind_ok _ _ _ _ _ (mutate_ok _ rid r1 _ (stored_put_eq s rid r1))), put_req_twice.
  eexists new, true, _. split; [reflexivity|]. split; [|done].
  destruct Hadv as [A1 A2 A3 A4 A5 A6 A7 A8 A9 A10 A11]. split; try done. by rewrite (pn_session _ _ Hp).
Qed.

(** ** Requests that go on and requests that stop *)

Local Abbreviation live_inv := (live_inv max_len).

(** Replace a running request. *)
Lemma live_put s run ws ks rid r r' :
  live_inv s run ws ks [] → rid ∈ run → stored s rid r → request_id r' = rid → plain r' →
  running_ok max_len (config s) (kv_cache_manager s) r' → live_inv (put_req rid r' s) run ws ks [].
Proof.
  intros Hl Hin Hr Hid Hp Hok. pose proof (live_nodup _ _ _ _ _ _ Hl) as Hnd.
  destruct Hl as [L1 L2 L3 L4 L5 L6 L7 L8 L9 L10 L11 L12]. set (s' := put_req rid r' s).
  assert (Hkeys : (requests s').*1 = (requests s).*1) by (by apply (put_req_keys s rid r' r)).
  assert (Hne : ∀ x, x ∈ ws ++ ks → x ≠ rid).
  { intros x Hx ->. rewrite app_nil_r in Hnd. apply NoDup_app in Hnd as (_ & Hd & _). by apply (Hd rid). }
  assert (Hget : ∀ x, dict_get (requests s') x = if decide (x = rid) then Some r' else dict_get (requests s) x)
    by (intros x; apply stored_put).
  assert (Hq : ∀ q l, (∀ x, x ∈ l → x ∈ ws ++ ks) → queued s q l → queued s' q l).
  { intros q l Hsub. apply queued_at; [|done]. intros x Hx%Hsub. rewrite Hget, decide_False; [done|by apply Hne]. }
  split; try done.
  - by apply (put_req_store s rid r' r).
  - intros x y. rewrite Hget. case_decide; [by intros [= <-]|by apply L5].
  - apply (Hq (waiting s)); [|done]. intros x Hx. apply elem_of_app. by left.
  - apply (Hq (skipped_waiting s)); [|done]. intros x Hx. apply elem_of_app. by right.
  - by rewrite Hkeys.
  - intros x Hx. rewrite Hget. case_decide; [by exists r'|by apply L9].
  - intros x Hx. rewrite Hget, decide_False by (by apply Hne). by apply L10.
  - by intros x y ?%not_elem_of_nil.
  - intros x. rewrite Hkeys. apply L12.
Qed.

(** A running request that has stopped leaves the lists. *)
Lemma live_retire s run run' ws ks rid r r' :
  live_inv s run ws ks [] → run ≡ₚ rid :: run' → stored s rid r → request_id r' = rid → plain r' → is_finished r' = true →
  live_inv (put_req rid r' s) run' ws ks [rid].
Proof.
  intros Hl Hrun Hr Hid Hp Hfin. pose proof (live_nodup _ _ _ _ _ _ Hl) as Hnd.
  destruct Hl as [L1 L2 L3 L4 L5 L6 L7 L8 L9 L10 L11 L12]. set (s' := put_req rid r' s). rewrite app_nil_r, Hrun in *.
  assert (Hkeys : (requests s').*1 = (requests s).*1) by (by apply (put_req_keys s rid r' r)).
  assert (Hne : ∀ x, x ∈ run' ++ ws ++ ks → x ≠ rid) by (intros x Hx ->; by apply NoDup_cons in Hnd as [? _]).
  assert (Hget : ∀ x, dict_get (requests s') x = if decide (x = rid) then Some r' else dict_get (requests s) x)
    by (intros x; apply stored_put).
  assert (Hq : ∀ q l, (∀ x, x ∈ l → x ∈ ws ++ ks) → queued s q l → queued s' q l).
  { intros q l Hsub. apply queued_at; [|done]. intros x Hx%Hsub. rewrite Hget, decide_False; [done|].
    apply Hne, elem_of_app. by right. }
  split; try done.
  - by apply (put_req_store s rid r' r).
  - intros x y. rewrite Hget. case_decide; [by intros [= <-]|by apply L5].
  - apply (Hq (waiting s)); [|done]. intros x Hx. apply elem_of_app. by left.
  - apply (Hq (skipped_waiting s)); [|done]. intros x Hx. apply elem_of_app. by right.
  - rewrite Hkeys, <-L8. rewrite !(assoc_L (++)), (Permutation_app_comm _ [rid]). simpl. by rewrite <-(assoc_L (++)).
  - intros x Hx. rewrite Hget, decide_False by (apply Hne, elem_of_app; by left). apply L9. rewrite Hrun. by right.
  - intros x Hx. rewrite Hget, decide_False by (apply Hne, elem_of_app; by right). by apply L10.
  - intros x y ->%list_elem_of_singleton. rewrite Hget, decide_True by done. intros [= <-] E. unfold is_finished in Hfin. by rewrite E in Hfin.
  - intros x. rewrite Hkeys. apply L12.
Qed.
(** ** One request *)

(** What the runner reports for a request: sampled tokens and a pooling result, and
    log-probabilities of the prompt only with one of these. *)
Definition sampled_for mo (rid : string) (g : list Z) (pooled : bool) : Prop :=
  ∃ idx, dict_get (mo_req_id_to_index mo) rid = Some idx
    ∧ match mo_sampled_token_ids mo with [] => g = [] | l => py_index l idx = Ok g end
    ∧ match mo_pooler_output mo with [] => pooled = false | l => py_index l idx = Ok pooled end
    ∧ (rid ∈ mo_prompt_logprobs mo → g ≠ [] ∨ pooled = true).

(** The runner verifies drafts: it samples at least one token and accepts at most the
    drafts; it samples nothing for pooling requests. *)
Record verified o s mo (rid : string) (g : list Z) : Prop := {
  vf_length : zlen g ≤ num_sampled_tokens_per_step (config s) + drafts (so_scheduled_spec_decode_tokens o) rid;
  vf_some : 0 < drafts (so_scheduled_spec_decode_tokens o) rid → g ≠ [] ∨ num_sampled_tokens_per_step (config s) = 0;
  vf_pooling r : stored s rid r → pooling_params r ≠ None → g = []
}.

Definition runner_ok o s mo : Prop := ∀ rid n, (rid, n) ∈ so_num_scheduled_tokens o →
  ∃ g pooled, sampled_for mo rid g pooled ∧ verified o s mo rid g.

(** The loop over the scheduled requests, started in [s0]: those in [todo] are as they
    were, those in [stopped] have left the store. *)
Record upd_inv o s0 s (ws ks : list string) (todo : list (string * Z)) (stopped : list string) : Prop := {
  ui_live : live_inv s (filter (.∉ stopped) (running s0)) ws ks [];
  ui_config : config s = config s0;
  ui_running : running s = running s0;
  ui_nodup : NoDup (running s0);
  ui_todo x : x ∈ todo.*1 → dict_get (requests s) x = dict_get (requests s0) x;
  ui_place x : x ∈ todo.*1 → x ∈ (requests s).*1 → x ∈ running s0 ∧ x ∉ stopped;
  ui_ahead x r : x ∈ running s0 → x ∉ stopped → stored s x r → num_computed_tokens r
    ≤ num_tokens r + (if decide (x ∈ todo.*1) then drafts (so_scheduled_spec_decode_tokens o) x else 0);
  ui_drafts x r : x ∈ todo.*1 → stored s x r → drafts (so_scheduled_spec_decode_tokens o) x ≤ num_computed_tokens r
}.

Lemma filter_snoc (l stopped : list string) x : NoDup l → x ∈ l → x ∉ stopped →
  filter (.∉ stopped) l ≡ₚ x :: filter (.∉ stopped ++ [x]) l.
Proof.
  intros Hnd Hx Hs. apply NoDup_Permutation.
  - by apply NoDup_filter.
  - apply NoDup_cons. split; [|by apply NoDup_filter]. intros [Hn _]%list_elem_of_filter. apply Hn, elem_of_app. right. left.
  - intros y. rewrite elem_of_cons, !list_elem_of_filter, elem_of_app, list_elem_of_singleton.
    destruct (decide (y = x)) as [->|]; tauto.
Qed.

(** A request that goes on. *)
Lemma upd_goes_on o s0 s ws ks rid n todo stopped r r' :
  upd_inv o s0 s ws ks ((rid, n) :: todo) stopped → rid ∉ todo.*1 → stored s rid r → request_id r' = rid → plain r' →
  running_ok max_len (config s) (kv_cache_manager s) r' → num_computed_tokens r' ≤ num_tokens r' →
  upd_inv o s0 (put_req rid r' s) ws ks todo stopped.
Proof.
  intros [U1 U2 U3 U4 U5 U6 U7 U8] Hni Hr Hid Hp Hok Hle. csimpl in *.
  assert (Hin : rid ∈ (requests s).*1) by (apply dict_get_is_Some; by exists r).
  destruct (U6 rid ltac:(left) Hin) as [Hrun Hst].
  assert (Hkeys : (requests (put_req rid r' s)).*1 = (requests s).*1) by (by apply (put_req_keys s rid r' r)).
  split; try done.
  - eapply live_put; try done. by apply list_elem_of_filter.
  - intros x Hx. rewrite stored_put, decide_False by (by intros ->). apply U5. by right.
  - intros x Hx. rewrite Hkeys. apply U6. by right.
  - intros x y Hxr Hxs. rewrite stored_put. destruct (decide (x = rid)) as [->|Hne].
    + intros [= <-]. rewrite decide_False by done. lia.
    + intros Hy. specialize (U7 x y Hxr Hxs Hy). destruct (decide (x ∈ todo.*1)) as [Hx|Hx].
      * by rewrite decide_True in U7 by (by right).
      * rewrite decide_False in U7; [done|]. by intros [?|?]%elem_of_cons.
  - intros x y Hx. rewrite stored_put, decide_False by (by intros ->). apply U8. by right.
Qed.

(** A request that stops. *)
Lemma upd_stops o s0 s ws ks rid n todo stopped r r' :
  upd_inv o s0 s ws ks ((rid, n) :: todo) stopped → rid ∉ todo.*1 → stored s rid r → request_id r' = rid → plain r' →
  is_finished r' = true →
  ∃ s', _free_request rid false (put_req rid r' s) = Ok (tt, s') ∧ upd_inv o s0 s' ws ks todo (stopped ++ [rid])
    ∧ dict_get (requests s') rid = None.
Proof.
  intros [U1 U2 U3 U4 U5 U6 U7 U8] Hni Hr Hid Hp Hfin. csimpl in *.
  assert (Hin : rid ∈ (requests s).*1) by (apply dict_get_is_Some; by exists r).
  destruct (U6 rid ltac:(left) Hin) as [Hrun Hst].
  pose proof (live_retire s _ _ ws ks rid r r' U1 (filter_snoc _ _ _ U4 Hrun Hst) Hr Hid Hp Hfin) as Hl1.
  set (s1 := put_req rid r' s) in *.
  destruct (free_request_ok max_len rid s1 r') as (s' & E & Hrm); try done; [apply Hl1..|apply stored_put_eq|apply Hp|].
  pose proof (removed_live _ _ _ _ _ _ _ _ Hrm Hl1) as Hl'. pose proof Hrm as [R1 R2 R3 R4 R5 R6 R7].
  assert (Hget : ∀ x, dict_get (requests s') x = if decide (x = rid) then None else dict_get (requests s) x).
  { intros x. rewrite R1, dict_get_del by apply (lv_store _ _ _ _ _ _ Hl1). case_decide; [done|].
    unfold s1. by rewrite stored_put, decide_False. }
  assert (Hsome : ∀ x y, stored s' x y → x ≠ rid ∧ stored s x y).
  { intros x y. rewrite Hget. by case_decide. }
  exists s'. split; [done|]. split; [|by rewrite Hget, decide_True]. split; try done.
  - by rewrite R2.
  - by rewrite R3.
  - intros x Hx. rewrite Hget, decide_False by (by intros ->). apply U5. by right.
  - intros x Hx [y [Hne Hy]%Hsome]%dict_get_is_Some. destruct (U6 x) as [H1 H2]; [by right|apply dict_get_is_Some; by exists y|].
    split; [done|]. by intros [?|?%list_elem_of_singleton]%elem_of_app.
  - intros x y Hx [Hxs _]%not_elem_of_app [Hne Hy]%Hsome. specialize (U7 x y Hx Hxs Hy).
    destruct (decide (x ∈ todo.*1)) as [Ht|Ht].
    + by rewrite decide_True in U7 by (by right).
    + rewrite decide_False in U7; [done|]. by intros [?|?]%elem_of_cons.
  - intros x y Hx [_ Hy]%Hsome. apply U8; [by right|done].
Qed.

Lemma upd_skip o s0 s ws ks rid n todo stopped :
  upd_inv o s0 s ws ks ((rid, n) :: todo) stopped → dict_get (requests s) rid = None → upd_inv o s0 s ws ks todo stopped.
Proof.
  intros [U1 U2 U3 U4 U5 U6 U7 U8] Hr. csimpl in *. split; try done.
  - intros x Hx. apply U5. by right.
  - intros x Hx. apply U6. by right.
  - intros x y Hx Hs Hy. specialize (U7 x y Hx Hs Hy). assert (x ≠ rid) by congruence.
    destruct (decide (x ∈ todo.*1)) as [Ht|Ht]; [by rewrite decide_True in U7 by (by right)|].
    rewrite decide_False in U7; [done|]. by intros [?|?]%elem_of_cons.
  - intros x y Hx. apply U8. by right.
Qed.
(** The output clears what it reports. *)
Definition reported r : Request := snd (take_prefill_stats (snd (take_events r))).

Lemma reported_fields r : let r' := reported r in
  request_id r' = request_id r ∧ mm_features r' = mm_features r ∧ resumable r' = resumable r
  ∧ pooling_params r' = pooling_params r ∧ sampling_params r' = sampling_params r
  ∧ num_prompt_tokens r' = num_prompt_tokens r ∧ num_computed_tokens r' = num_computed_tokens r
  ∧ num_output_placeholders r' = num_output_placeholders r ∧ num_tokens r' = num_tokens r
  ∧ num_output_tokens r' = num_output_tokens r ∧ status r' = status r ∧ prefill_stats r' = None.
Proof.
  unfold reported, take_events, take_prefill_stats. destruct (events r), (prefill_stats r) eqn:E; simpl; rewrite ?E; by split_and!.
Qed.

Lemma reported_ready r : kv_ready r → kv_ready (reported r).
Proof.
  intros Hr. assert (Hev : kv_ready (req_set_events [] r)) by (by eapply kc_content; [|exact Hr]).
  unfold reported, take_events, take_prefill_stats. destruct (events r); simpl;
    (destruct (prefill_stats r) eqn:E; simpl; [by apply kc_stats|done]).
Qed.

Lemma reported_plain r : plain r → plain (reported r).
Proof.
  intros [H1 H2 H3 H4]. destruct (reported_fields r) as (F1 & F2 & F3 & F4 & F5 & F6 & F7 & F8 & F9 & F10 & _).
  split; rewrite ?F2, ?F3, ?F4, ?F5, ?F6, ?F9, ?F10; done.
Qed.

(** The request in the store after its tokens were taken: it can go on running. *)
Lemma going_on c k r m (g new : list Z) r2 (rep : bool) :
  running_ok max_len c k r → num_sampled_tokens_per_step c ≤ 1 →
  0 ≤ m ≤ num_computed_tokens r → m ≤ num_tokens r + zlen g → (g ≠ [] → new ≠ []) →
  advanced (zlen new) (req_set_num_computed_tokens m r) r2 → kv_ready r2 → status r2 = RUNNING → zlen new = zlen g →
  (g ≠ [] → num_tokens r2 < max_len) → (new ≠ [] → rep = true) →
  let r3 := if rep then reported r2 else r2 in
  running_ok max_len c k r3 ∧ num_computed_tokens r3 ≤ num_tokens r3.
Proof.
  intros [R1 [T1 T2 T3 T4 T5] R3 [R4 R4'] R5 R6] Hk Hm Hlag Hne [A1 A2 A3 A4 A5 A6 A7 A8 A9 A10 A11] Hready Hst Hlen Hroom Hrep r3.
  simpl in A1, A2, A6, A7, A8, A9, A10. change (num_tokens (req_set_num_computed_tokens m r)) with (num_tokens r) in A10.
  pose proof (zlen_nonneg new) as Hn0.
  assert (F : request_id r3 = request_id r ∧ mm_features r3 = mm_features r ∧ num_computed_tokens r3 = m
    ∧ num_output_placeholders r3 = num_output_placeholders r ∧ num_tokens r3 = num_tokens r + zlen new
    ∧ num_prompt_tokens r3 = num_prompt_tokens r ∧ status r3 = RUNNING
    ∧ kv_ready r3 ∧ (prefill_stats r3 ≠ None → prefill_stats r ≠ None ∧ new = [])).
  { unfold r3. destruct rep.
    - destruct (reported_fields r2) as (F1 & F2 & F3 & F4 & F5 & F6 & F7 & F8 & F9 & F10 & F11 & F12).
      split_and!; [congruence..|by apply reported_ready|by rewrite F12].
    - split_and!; try congruence. rewrite A9. intros Hs. split; [done|]. destruct new; [done|]. by specialize (Hrep ltac:(done)). }
  destruct F as (F1 & F2 & F3 & F4 & F5 & F6 & F7 & F8 & F9). clearbody r3.
  assert (Hroom' : num_tokens r3 + num_sampled_tokens_per_step c ≤ max_len).
  { destruct g as [|x g]; [rewrite F5; unfold zlen in *; simpl in *; lia|]. specialize (Hroom ltac:(done)). lia. }
  split; [|lia]. split; rewrite ?F1, ?F3; try done; try lia.
  - split; try done; [lia|congruence|]. intros [Hs ->]%F9. rewrite F5, F6. unfold zlen. simpl. specialize (T5 Hs). lia.
  - unfold placeholders_ok. by rewrite F4.
  - eapply kc_fewer; [exact R6|lia].
Qed.

Lemma dict_at_some {V} (d : list (string * V)) x v : dict_get d x = Some v → dict_at d x = Ok v.
Proof. intros Hd. unfold dict_at. by rewrite Hd. Qed.

Lemma update_one_ok o s0 s mo ws ks rid n todo u g (pooled : bool) :
  grammar_sound → async_scheduling (config s) = false → num_sampled_tokens_per_step (config s) ≤ 1 → 0 < n →
  upd_inv o s0 s ws ks ((rid, n) :: todo) (stopped_running_reqs u) → rid ∉ todo.*1 →
  sampled_for mo rid g pooled → verified o s0 mo rid g →
  ∃ u' s', update_one kv_hasher o mo rid n u s = Ok (u', s')
    ∧ upd_inv o s0 s' ws ks todo (stopped_running_reqs u') ∧ stopped_preempted_reqs u' = stopped_preempted_reqs u.
Proof.
  intros Hgr Hsync Hk1 Hn Hu Hni (idx & Eidx & Eg & Ep & Elp) [V1 V2 V3]. pose proof Hu as [U1 U2 U3 U4 U5 U6 U7 U8].
  unfold update_one. rewrite (proj2 (Z.ltb_lt 0 n)) by done. mstep. mstep.
  destruct (dict_get (requests s) rid) as [r|] eqn:Er; [|exists u, s; split_and!; [done|by eapply upd_skip|done]].
  csimpl in U5. csimpl in U6. csimpl in U7. csimpl in U8.
  assert (Hin : rid ∈ (requests s).*1) by (apply dict_get_is_Some; by exists r).
  destruct (U6 rid ltac:(left) Hin) as [Hrun Hns].
  destruct (lv_run _ _ _ _ _ _ U1 rid) as (r0 & Hr0 & Hok); [by apply list_elem_of_filter|]. assert (r0 = r) as -> by congruence.
  pose proof (lv_plain _ _ _ _ _ _ U1 _ _ Er) as Hp. pose proof (so_id _ (lv_store _ _ _ _ _ _ U1) _ _ Er) as Hid.
  pose proof (lv_config _ _ _ _ _ _ U1) as Hcfg.
  assert (is_finished r = false) as Hnf by (unfold is_finished; by rewrite (rg_status _ _ _ _ Hok)). rewrite Hnf.
  rewrite (dict_at_some _ _ _ Eidx). mstep.
  rewrite (bind_ok _ _ _ g s) by (destruct (mo_sampled_token_ids mo); [by rewrite Eg|unfold lift_result; by rewrite Eg]).
  set (spec := default [] (dict_get (so_scheduled_spec_decode_tokens o) rid)).
  change (drafts (so_scheduled_spec_decode_tokens o) rid) with (zlen spec) in *. rewrite <-U2 in V1, V2.
  destruct (reject_ok s rid r spec g Er) as (m & Erej & Hm & Hlag); try done; [apply Hcfg| | | | |].
  { apply (rg_placeholders _ _ _ _ Hok). done. }
  { specialize (U7 rid r Hrun Hns Er). rewrite decide_True in U7 by left. done. }
  { apply (U8 rid r); [left|done]. }
  { intros Hs. apply V2. destruct spec; [done|]. rewrite zlen_cons. pose proof (zlen_nonneg spec). lia. }
  rewrite (bind_ok _ _ _ _ _ Erej). set (r1 := req_set_num_computed_tokens m r). set (s1 := put_req rid r1 s).
  rewrite (text_no_inputs r) by apply Hp. mstep.
  rewrite (bind_ok _ _ _ pooled s1) by (destruct (mo_pooler_output mo); [by rewrite Ep|unfold lift_result; by rewrite Ep]).
  assert (Hp1 : plain r1) by (by eapply plain_content; [|exact Hp]).
  destruct (take_tokens_ok s1 rid r1 g pooled Hgr Hsync (cf_len _ _ Hcfg) (stored_put_eq s rid r1) Hp1)
    as (new & stopped & r2 & Et & Hadv & Hne & Hres).
  { by eapply kc_content; [|apply (ft_ready _ _ _ (rg_fits _ _ _ _ Hok))]. }
  { apply (rg_status _ _ _ _ Hok). }
  { intros Hpl. apply (V3 r); [|exact Hpl]. rewrite <-U5; [done|left]. }
  rewrite (bind_ok _ _ _ _ _ Et). cbv beta iota. unfold s1. rewrite put_req_twice.
  pose proof (advanced_plain _ _ _ Hadv Hp1) as Hp2. assert (Hid2 : request_id r2 = rid) by (by rewrite (av_id _ _ _ Hadv)).
  pose proof (stored_put_eq s rid r2) as Hr2. destruct stopped.
  - destruct (upd_stops o s0 s ws ks rid n todo _ r r2 Hu Hni Er Hid2 Hp2 Hres) as (s' & Ef & Hu' & Hgone).
    assert (Eset : settle_stopped kv_hasher rid (status r) u (put_req rid r2 s)
      = Ok (get_finished_reason (status r2), r2,
          mkUpdateStep (up_outputs u) (stopped_running_reqs u ++ [rid]) (stopped_preempted_reqs u), s')).
    { unfold settle_stopped. rewrite (bind_ok _ _ _ _ _ (deref_ok _ _ _ Hr2)).
      unfold _handle_stopped_request. rewrite (bind_ok _ _ _ true (put_req rid r2 s))
        by (rewrite (bind_ok _ _ _ _ _ (deref_ok _ _ _ Hr2)), (pn_session _ _ Hp2); done).
      rewrite (bind_ok _ _ _ _ _ (deref_ok _ _ _ Hr2)), (bind_ok _ _ _ _ _ Ef), (rg_status _ _ _ _ Hok). done. }
    rewrite (bind_ok _ _ _ _ _ Eset). cbv beta iota. rewrite !orb_true_r.
    destruct (take_events r2) as [ev r3] eqn:Eev. destruct (take_prefill_stats r3) as [st r4] eqn:Estt. mstep.
    rewrite Hgone. mstep. eexists _, s'. split; [reflexivity|]. done.
  - destruct Hres as (Hready & Hst2 & Hlen & Hroom).
    rewrite (bind_ok _ _ _ (None, r2, u) (put_req rid r2 s)) by (by rewrite (bind_ok _ _ _ _ _ (deref_ok _ _ _ Hr2))).
    cbv beta iota. rewrite orb_false_r. set (rep := bool_decide (new ≠ []) || pooled).
    destruct (going_on (config s) (kv_cache_manager s) r m g new r2 rep Hok Hk1 Hm Hlag Hne Hadv Hready Hst2 Hlen Hroom)
      as [Hok3 Hle3]; [intros ?; unfold rep; by rewrite bool_decide_eq_true_2|].
    set (r3 := if rep then reported r2 else r2) in *.
    assert (Hf3 : request_id r3 = rid ∧ plain r3).
    { unfold r3. destruct rep; [|done]. destruct (reported_fields r2) as [-> _]. split; [done|by apply reported_plain]. }
    destruct Hf3 as [Hid3 Hp3].
    pose proof (upd_goes_on o s0 s ws ks rid n todo _ r r3 Hu Hni Er Hid3 Hp3 Hok3 Hle3) as Hu'.
    assert (rep = false → negb (bool_decide (rid ∈ mo_prompt_logprobs mo)) = true) as Hlp.
    { intros [Hnew%bool_decide_eq_false Hpl]%orb_false_iff. apply negb_true_iff, bool_decide_eq_false. intros [Hg|Hg]%Elp; [tauto|congruence]. }
    unfold r3, reported in Hu'. clearbody rep. destruct rep.
    2:{ rewrite Hlp by done. mstep. by exists u, (put_req rid r2 s). }
    destruct (take_events r2) as [ev r4] eqn:Eev. destruct (take_prefill_stats r4) as [st r5] eqn:Estt. mstep.
    rewrite Hr2. rewrite (bool_decide_eq_false_2 (Some r2 = None)) by done.
    assert (Eo : set_obj rid r5 (put_req rid r2 s) = Ok (tt, put_req rid r5 s)) by (by rewrite <-(put_req_twice s rid r2 r5)).
    rewrite (bind_ok _ _ _ _ _ Eo). eexists _, _. split; [reflexivity|]. split; [|done].
    cbn [snd] in Hu'. rewrite Estt in Hu'. done.
Qed.
(** ** The whole update *)

(** Between [schedule] and the update of its output: scheduled requests that are still
    there are running, and only drafts put a request ahead of its tokens. *)
Record mid_step o s : Prop := {
  md_inv : sched_inv max_len s;
  md_plain : all_plain max_len s;
  md_nodup : NoDup (so_num_scheduled_tokens o).*1;
  md_pos rid n : (rid, n) ∈ so_num_scheduled_tokens o → 0 < n;
  md_place rid : rid ∈ (so_num_scheduled_tokens o).*1 → rid ∈ (requests s).*1 → rid ∈ running s;
  md_unscheduled rid : rid ∉ (so_num_scheduled_tokens o).*1 → drafts (so_scheduled_spec_decode_tokens o) rid = 0;
  md_ahead rid r : rid ∈ running s → stored s rid r → num_computed_tokens r
    ≤ num_tokens r + drafts (so_scheduled_spec_decode_tokens o) rid;
  md_drafts rid r : rid ∈ (so_num_scheduled_tokens o).*1 → stored s rid r →
    drafts (so_scheduled_spec_decode_tokens o) rid ≤ num_computed_tokens r
}.

Lemma stepped_mid s o s' :
  async_scheduling (config s) = false → all_plain max_len s → stepped max_len s o s' → mid_step o s'.
Proof.
  intros Hsync Hp [E1 E2 E3 E4 E5 E6 E7 E8 E9 E10 E11].
  split; try done.
  - by apply (all_plain_contents _ s).
  - intros rid n Hin. by apply E8 in Hin as [? _].
  - intros rid ([x n] & -> & Hin)%list_elem_of_fmap _. by apply E8 in Hin as (_ & ? & _).
  - intros rid Hni. specialize (E9 rid). rewrite (proj2 (dict_get_None _ _) Hni) in E9. simpl in E9. unfold drafts in *.
    pose proof (zlen_nonneg (default [] (dict_get (so_scheduled_spec_decode_tokens o) rid))). lia.
  - intros rid r Hin Hr. specialize (E10 rid r Hin Hr). destruct (sv_running _ _ E1 rid Hin) as (r' & Hr' & Hok).
    assert (r' = r) as -> by congruence. destruct (rg_placeholders _ _ _ _ Hok) as [_ Hph]. rewrite E4 in Hph. specialize (Hph Hsync). lia.
  - intros rid r ([x n] & -> & Hin)%list_elem_of_fmap Hr. simpl in *. specialize (E9 x).
    rewrite (dict_in_get _ _ _ E7 Hin) in E9. simpl in E9. apply E8 in Hin as (_ & _ & _ & r' & Hr' & Hle & _).
    assert (r' = r) as -> by congruence. lia.
Qed.

(** Requests aborted in the meantime do not matter. *)
Lemma finished_mid o ids s s' : mid_step o s → finished max_len ids s s' → mid_step o s'.
Proof.
  intros [M1 M2 M3 M4 M5 M6 M7 M8] [F1 F2 F3 F4 F5 F6].
  assert (Hsome : ∀ x r, stored s' x r → x ∉ ids ∧ stored s x r) by (intros x r; rewrite F6; by case_decide).
  split; try done.
  - intros rid Hin [r [Hni Hr]%Hsome]%dict_get_is_Some. apply F5. split; [|done]. apply M5; [done|].
    apply dict_get_is_Some. by exists r.
  - intros rid r [Hin _]%F5 [_ Hr]%Hsome. by apply M7.
  - intros rid r Hin [_ Hr]%Hsome. by apply M8.
Qed.

Lemma update_loop_ok o s0 mo ws ks :
  grammar_sound → async_scheduling (config s0) = false → num_sampled_tokens_per_step (config s0) ≤ 1 → runner_ok o s0 mo →
  ∀ l u s, upd_inv o s0 s ws ks l (stopped_running_reqs u) → NoDup l.*1 →
  (∀ x, x ∈ l → x ∈ so_num_scheduled_tokens o ∧ 0 < x.2) →
  ∃ u' s', update_loop kv_hasher o mo l u s = Ok (u', s') ∧ upd_inv o s0 s' ws ks [] (stopped_running_reqs u')
    ∧ stopped_preempted_reqs u' = stopped_preempted_reqs u.
Proof.
  intros Hgr Hsync Hk Hrun. induction l as [|[rid n] l IH]; intros u s Hu Hnd Hl; [by exists u, s|].
  csimpl in Hnd. apply NoDup_cons in Hnd as [Hni Hnd]. destruct (Hl (rid, n) ltac:(left)) as [Hin Hn]. simpl in Hn.
  destruct (Hrun rid n Hin) as (g & pooled & Hs & Hv). pose proof (ui_config _ _ _ _ _ _ _ Hu) as Hc.
  destruct (update_one_ok o s0 s mo ws ks rid n l u g pooled Hgr) as (u1 & s1 & E1 & Hu1 & Hp1); try done; [by rewrite Hc..|].
  destruct (IH u1 s1 Hu1 Hnd) as (u2 & s2 & E2 & Hu2 & Hp2); [intros x Hx; apply Hl; by right|].
  exists u2, s2. cbn [update_loop]. rewrite (bind_ok _ _ _ _ _ E1). split_and!; [done|done|congruence].
Qed.

Lemma live_kv s run ws ks gone k' :
  live_inv s run ws ks gone → kv_ok k' → kv_keeps (λ _, True) (kv_cache_manager s) k' →
  live_inv (s_set_kv_cache_manager k' s) run ws ks gone.
Proof.
  intros [L1 L2 L3 L4 L5 L6 L7 L8 L9 L10 L11 L12] Hk Hkeep.
  assert (Hx : ∀ x, kv_keeps (λ y, y = x) (kv_cache_manager s) k') by (intros x; eapply keeps_weaken; [|exact Hkeep]; done).
  split; try done.
  - by apply (store_ok_same s).
  - intros x Hin. destruct (L9 x Hin) as (r & Hr & Hok). exists r. split; [done|]. by eapply running_ok_frame.
  - intros x Hin. destruct (L10 x Hin) as (r & Hr & Hok). exists r. split; [done|]. by eapply wait_ok_frame.
  - intros x Hx'. apply (Hkeep x I). by apply L12.
Qed.

(** The scheduler after the update: in order, caught up, and without new requests. *)
Record updated s s' : Prop := {
  ud_inv : sched_inv max_len s';
  ud_plain : all_plain max_len s';
  ud_caught_up : caught_up s';
  ud_config : config s' = config s
}.

Lemma update_ok o s mo :
  grammar_sound → async_scheduling (config s) = false → num_sampled_tokens_per_step (config s) ≤ 1 →
  mid_step o s → runner_ok o s mo →
  ∃ outs s', update_from_output kv_hasher o mo s = Ok (outs, s') ∧ updated s s'.
Proof.
  intros Hgr Hsync Hk [M1 M2 M3 M4 M5 M6 M7 M8] Hrun.
  destruct (sched_live _ s M1 M2) as (ws & ks & Hl). pose proof (live_nodup _ _ _ _ _ _ Hl) as Hnd.
  assert (Hnil : ∀ l : list string, filter (.∉ []) l = l) by (intros l; apply filter_all; by intros z _ ?%not_elem_of_nil).
  assert (Hu0 : upd_inv o s s ws ks (so_num_scheduled_tokens o) []).
  { split; try done; [by rewrite Hnil|by apply NoDup_app in Hnd as [? _]| |].
    - intros x Hx Hin. split; [by apply M5|]. apply not_elem_of_nil.
    - intros x r Hx _ Hr. specialize (M7 x r Hx Hr). case_decide as Hin; [done|]. rewrite (M6 x Hin) in M7. lia. }
  destruct (update_loop_ok o s mo ws ks Hgr Hsync Hk Hrun (so_num_scheduled_tokens o) (mkUpdateStep [] [] []) s Hu0 M3)
    as (u & s1 & E1 & Hu1 & Hpre); [intros [x n] Hx; split; [done|by eapply M4]|].
  unfold update_from_output. rewrite (bind_ok _ _ _ _ _ E1). mstep.
  destruct Hu1 as [U1 U2 U3 U4 U5 U6 U7 U8]. rewrite U3, remove_all_filter by done.
  set (stopped := stopped_running_reqs u) in *. set (run := filter (.∉ stopped) (running s)) in *.
  set (s2 := s_set_running run s1). rewrite Hpre. mstep.
  assert (Hl2 : live_inv s2 (running s2) ws ks []).
  { destruct U1 as [L1 L2 L3 L4 L5 L6 L7 L8 L9 L10 L11 L12]. split; try done. by apply (store_ok_same s1). }
  destruct (kc_events (kv_cache_manager s1) (lv_kv _ _ _ _ _ _ U1)) as (es & k' & Ek & Hk' & Hkeep).
  rewrite (bind_ok _ _ _ _ _ (on_kv_ok _ s2 _ _ Ek)). mstep. set (s3 := s_set_kv_cache_manager k' s2).
  assert (Hl3 : live_inv s3 (running s3) ws ks []) by (by apply live_kv).
  assert (Hlim : zlen run ≤ max_num_running_reqs (config s1)).
  { rewrite U2. etrans; [|apply (sv_limit _ _ M1)]. unfold run, zlen. pose proof (length_filter (.∉ stopped) (running s)). lia. }
  assert (Hcu : ∀ rid r, rid ∈ run → stored s1 rid r → num_computed_tokens r ≤ num_tokens r + num_output_placeholders r).
  { intros rid r Hin Hr. destruct (lv_run _ _ _ _ _ _ U1 rid Hin) as (r' & Hr' & Hok). assert (r' = r) as -> by congruence.
    destruct (rg_placeholders _ _ _ _ Hok) as [Hph _]. apply list_elem_of_filter in Hin as [Hns Hin].
    specialize (U7 rid r Hin Hns Hr). simpl in U7. lia. }
  assert (Hfin : ∀ s4, requests s4 = requests s3 → running s4 = running s3 → config s4 = config s3 →
    live_inv s4 (running s4) ws ks [] → updated s s4).
  { intros s4 Q1 Q2 Q3 Hl4. split.
    - apply (live_sched _ s4 ws ks Hl4). by rewrite Q2, Q3.
    - apply Hl4.
    - intros rid r. rewrite Q1, Q2. apply Hcu.
    - by rewrite Q3. }
  destruct (finished_req_ids_dict s3) as [d|] eqn:Ed.
  - mstep. eexists _, _. split; [reflexivity|]. apply Hfin; try done.
    destruct Hl3 as [L1 L2 L3 L4 L5 L6 L7 L8 L9 L10 L11 L12]. split; try done. by apply (store_ok_same s3).
  - eexists _, s3. split; [reflexivity|]. by apply Hfin.
Qed.

(** ** Draft tokens *)

Lemma moved_inv s s' : moved (λ _, 0) s s' → sched_inv max_len s → all_plain max_len s → caught_up s → updated s s'.
Proof.
  intros [M1 M2 [M3 M3'] M4 M5 M6 M7 M8] [S1 S2 S3 S4 S5 S6 (ws & ks & Q1 & Q2 & Q3 & Q4) S8] Hp Hcu.
  assert (Hsc : same_contents s s').
  { intros x. destruct (dict_get (requests s) x) as [r|] eqn:Er.
    - destruct (M8 x r Er) as (r' & -> & Hc & _). simpl. by rewrite Hc.
    - apply dict_get_None in Er. rewrite <-M7 in Er. apply dict_get_None in Er. by rewrite Er. }
  assert (Hback : ∀ x r', stored s' x r' → ∃ r, stored s x r ∧ content r' = content r ∧ status r' = status r
    ∧ num_computed_tokens r' = num_computed_tokens r ∧ num_output_placeholders r ≤ num_output_placeholders r'
    ∧ (placeholders_ok (config s) r → placeholders_ok (config s) r')).
  { intros x r' Hr'. assert (x ∈ (requests s).*1) as Hin by (rewrite <-M7; apply dict_get_is_Some; by exists r').
    apply dict_get_is_Some in Hin as [r Hr]. destruct (M8 x r Hr) as (r2 & Hr2 & C1 & C2 & C3 & C4 & C5).
    assert (r2 = r') as -> by congruence. exists r. split_and!; try done; [lia|].
    intros [P1 P2]. split; [lia|]. intros Ha. rewrite C5 by done. by apply P2. }
  split.
  - split; rewrite ?M1, ?M2, ?M4; try done.
    + split; [rewrite M7; apply S2|]. intros x r' Hr'. destruct (Hback x r' Hr') as (r & Hr & Hc & _).
      rewrite (content_id _ _ Hc). by apply (so_id _ S2).
    + unfold encoder_idle. by rewrite M5.
    + intros x Hx. destruct (S6 x Hx) as (r & Hr & [R1 R2 R3 R4 R5 R6]). destruct (M8 x r Hr) as (r' & Hr' & C1 & C2 & C3 & _).
      destruct (Hback x r' Hr') as (r2 & Hr2 & _ & _ & _ & _ & Hph). assert (r2 = r) as -> by congruence.
      exists r'. split; [done|]. rewrite Z.add_0_r in C3. pose proof (content_id _ _ C1) as Hid.
      split; rewrite ?C2, ?C3, ?Hid; try done; [by eapply (fits_content _ _ r)|by apply Hph].
    + exists ws, ks. rewrite M3, M3', M6, M7. split; [by apply (queued_contents s)|]. split; [by apply (queued_contents s)|].
      split; [done|]. intros x Hx. destruct (Q4 x Hx) as (r & Hr & [W1 W2 W3 W4]). destruct (M8 x r Hr) as (r' & Hr' & C1 & C2 & C3 & _).
      destruct (Hback x r' Hr') as (r2 & Hr2 & _ & _ & _ & _ & Hph). assert (r2 = r) as -> by congruence.
      exists r'. split; [done|]. rewrite Z.add_0_r in C3. pose proof (content_id _ _ C1) as Hid.
      split; rewrite ?C2, ?Hid; try done.
      * intros Hs. pose proof (f_equal streaming_queue C1 : streaming_queue r' = streaming_queue r) as ->. by apply W2.
      * intros Hs. destruct (W3 Hs) as (Hf & Hpo & Hkv). split; [by eapply (fits_content _ _ r)|]. split; [by apply Hph|].
        rewrite C3, (content_tokens _ _ C1). done.
    + intros x. rewrite M7. apply S8.
  - by apply (all_plain_contents _ s).
  - intros x r'. rewrite M2. intros Hx Hr'. destruct (Hback x r' Hr') as (r & Hr & C1 & _ & C3 & C4 & _).
    specialize (Hcu x r Hx Hr). rewrite C3, (content_tokens _ _ C1). lia.
  - done.
Qed.

Lemma draft_tokens_ok validate l : ∀ s, ∃ s', update_draft_token_ids validate l s = Ok (tt, s') ∧ moved (λ _, 0) s s'.
Proof.
  unfold update_draft_token_ids. induction l as [|[rid spec] l IH]; intros s; cbn [forM]; [exists s; split; [done|apply moved_refl]|].
  assert (Hstep : ∃ s1, (s ← get; match dict_get (requests s) rid with
    | None => mret tt
    | Some r =>
        if is_finished r then mret tt
        else if is_prefill_chunk r then set_obj rid (req_set_spec_token_ids [] r)
        else set_obj rid (req_set_spec_token_ids (if should_advance r then validate r spec else spec) r)
    end) s = Ok (tt, s1) ∧ moved (λ _, 0) s s1).
  { mstep. destruct (dict_get (requests s) rid) as [r|] eqn:Er; [|exists s; split; [done|apply moved_refl]].
    destruct (is_finished r); [exists s; split; [done|apply moved_refl]|].
    assert (Hm : ∀ v, moved (λ _, 0) s (put_req rid (req_set_spec_token_ids v r) s)).
    { intros v. eapply moved_ext; [|apply (moved_put s rid r _ 0); try done; simpl; lia]. intros x _. simpl. by case_decide. }
    destruct (is_prefill_chunk r); (eexists; split; [reflexivity|apply Hm]). }
  destruct Hstep as (s1 & E1 & Hm1). destruct (IH s1) as (s2 & E2 & Hm2). exists s2. split.
  - rewrite (bind_ok _ _ _ _ _ E1). done.
  - eapply moved_ext; [|by eapply moved_trans]. done.
Qed.
End update.
