(* ===== verification/EngineCore.v ===== *)
(** * The engine core

    [EngineCore] of [v1/engine/core.py]: requests are added and aborted, and [step]
    schedules a batch, executes it, aborts the requests whose clients left in the
    meantime and processes the output. The model executor is not part of the model: a
    step is given what the executor returns for the scheduled batch. *)

From Stdlib Require Import ZArith Lia.
From S2P Require Import Prelude MathUtils KVSpec FreeQueue Request BlockHash BlockPool SingleType Coordinator KVCacheManager RequestQueue EncoderCache SchedUtils Scheduler Schedule UpdateOutput SchedulerSpec RunningPass WaitingPass ScheduleSafe Lifecycle UpdateSafe.
Local Open Scope Z_scope.

(** The order in which Python iterates over a set of request ids. *)
Class IdOrder := {
  iter_ids : gset string → list string;
  iter_ids_perm X : iter_ids X ≡ₚ elements X
}.

(** ** State *)

Record EngineCore := mkEngineCore {
  scheduler : Scheduler;
  aborts_queue : list (list string);
  check_for_draft_tokens : bool
}.
Definition set_scheduler (s : Scheduler) (e : EngineCore) : EngineCore :=
  mkEngineCore s (aborts_queue e) (check_for_draft_tokens e).
Definition set_aborts_queue (q : list (list string)) (e : EngineCore) : EngineCore :=
  mkEngineCore (scheduler e) q (check_for_draft_tokens e).

Abbreviation EM := (M EngineCore).
Definition on_scheduler {A} (f : SM A) : EM A := zoom scheduler set_scheduler f.

(** The bitmask of the structured-output manager, for the requests and drafts. *)
Record GrammarOutput B := mkGrammarOutput { structured_output_request_ids : list string; grammar_bitmask : B }.
Arguments mkGrammarOutput {_}.

Inductive PauseMode := PauseAbort | PauseKeep | PauseWait.

(** ** Operations *)

Section engine.
Context `{HashConfig} `{SetOrder} `{IdOrder} `{StructuredOutput}.
Context (hasher : option (Request → result (list bytes * Request))).
Context {B : Type} (bitmask : list (string * Request) → list string → list (string * list Z) → B).

Definition get_grammar_bitmask (o : SchedulerOutput) (s : Scheduler) : option (GrammarOutput B) :=
  if negb (so_has_structured_output_requests o) then None
  else
    let ids := List.filter (λ rid, match dict_get (requests s) rid with
                                   | Some req => use_structured_output req && negb (is_prefill_chunk req)
                                   | None => false
                                   end) (so_num_scheduled_tokens o).*1 in
    match ids with
    | [] => None
    | _ => Some (mkGrammarOutput ids (bitmask (requests s) ids (so_scheduled_spec_decode_tokens o)))
    end.

(** [finish_requests] removes duplicates of the ids. *)
Definition abort_requests (request_ids : list string) : EM unit :=
  _ ← on_scheduler (finish_requests (Some (iter_ids (list_to_set request_ids))) FINISHED_ABORTED); mret tt.

(** [EngineCore.add_request]; [supported_pooling_tasks] are the pooling tasks among those
    the executor supports, [abort_immediately] is the request's flag of this name. *)
Definition task_supported (supported_pooling_tasks : list string) (r : Request) : bool :=
  match pooling_params r with
  | Some pp => match pp_task pp with Some t => bool_decide (t ∈ supported_pooling_tasks) | None => false end
  | None => true
  end.
Definition engine_add_request (supported_pooling_tasks : list string) (abort_immediately : bool) (r : Request) : EM unit :=
  if negb (task_supported supported_pooling_tasks r) then raise ValueError
  else
  _ ← on_scheduler (add_request_to_scheduler hasher r);
  if abort_immediately then abort_requests [request_id r] else mret tt.

Definition _process_aborts_queue : EM unit :=
  e ← get;
  match aborts_queue e with
  | [] => mret tt
  | q => _ ← modify (set_aborts_queue []); abort_requests (concat q)
  end.

(** [execute] is what the executor returns for the batch and the grammar's bitmask;
    [arrived] are the aborts that come in while it runs. *)
Definition step (execute : SchedulerOutput → option (GrammarOutput B) → ModelRunnerOutput) (arrived : list (list string)) :
    EM (list (Z * EngineCoreOutputs) * bool) :=
  e ← get;
  if negb (has_requests (scheduler e)) then mret ([], false)
  else
    scheduler_output ← on_scheduler schedule;
    e ← get;
    let grammar_output := get_grammar_bitmask scheduler_output (scheduler e) in
    let model_output := execute scheduler_output grammar_output in
    _ ← modify (λ e, set_aborts_queue (aborts_queue e ++ arrived) e);
    _ ← _process_aborts_queue;
    outputs ← on_scheduler (update_from_output hasher scheduler_output model_output);
    mret (outputs, 0 <? so_total_num_scheduled_tokens scheduler_output).

(** [take_draft_token_ids] of the executor gives [drafts]. *)
Definition post_step (validate : Request → list Z → list Z) (drafts : option (list (string * list Z)))
    (model_executed : bool) : EM unit :=
  e ← get;
  if check_for_draft_tokens e && negb (async_scheduling (config (scheduler e))) && model_executed then
    match drafts with
    | Some d => on_scheduler (update_draft_token_ids validate d)
    | None => mret tt
    end
  else mret tt.

(** [_process_engine_step] without the output queue. *)
Definition _process_engine_step execute arrived validate drafts : EM bool :=
  x ← step execute arrived;
  _ ← post_step validate drafts (snd x);
  mret (snd x).

(** The caches of the scheduler; that of processed inputs is not part of the model. *)
Definition _reset_caches (reset_running_requests reset_connector : bool) : EM unit :=
  _ ← on_scheduler (scheduler_reset_prefix_cache reset_running_requests reset_connector);
  on_scheduler reset_encoder_cache.

Definition pause_scheduler (mode : PauseMode) (clear_cache : bool) : EM unit :=
  match mode with
  | PauseWait => raise ValueError
  | _ =>
      _ ← (match mode with
           | PauseAbort => _ ← on_scheduler (finish_requests None FINISHED_ABORTED); mret tt
           | _ => mret tt
           end);
      _ ← on_scheduler (set_pause_state (match mode with PauseKeep => PAUSED_ALL | _ => PAUSED_NEW end));
      if clear_cache then _reset_caches true true else mret tt
  end.

Definition resume_scheduler : EM unit := on_scheduler (set_pause_state UNPAUSED).
Definition is_scheduler_paused (e : EngineCore) : bool := bool_decide (_pause_state (scheduler e) ≠ UNPAUSED).
End engine.

(** ** The engine keeps its scheduler in order *)

Section invariant.
Context `{HC : HashConfig} `{SO : SetOrder} `{IO : IdOrder} `{ST : StructuredOutput} `{KV : KVView} (max_len : Z) `{CT : !KVContract max_len}.
Context {B : Type} (bitmask : list (string * Request) → list string → list (string * list Z) → B).
Context (validate : Request → list Z → list Z) (grammar : grammar_sound).
Implicit Types (e : EngineCore) (s : Scheduler) (o : SchedulerOutput).
Abbreviation sched_inv := (sched_inv max_len).
Abbreviation all_plain := (all_plain max_len).

(** Synchronous scheduling, with at most one token sampled in addition to the drafts. *)
Record engine_inv e : Prop := {
  en_inv : sched_inv (scheduler e);
  en_plain : all_plain (scheduler e);
  en_caught_up : caught_up (scheduler e);
  en_sync : async_scheduling (config (scheduler e)) = false;
  en_sampled : num_sampled_tokens_per_step (config (scheduler e)) ≤ 1
}.

Lemma on_scheduler_ok {A} (f : SM A) e a s' : f (scheduler e) = Ok (a, s') → on_scheduler f e = Ok (a, set_scheduler s' e).
Proof. intros E. unfold on_scheduler, zoom. by rewrite E. Qed.

Lemma updated_engine e s' : updated max_len (scheduler e) s' →
  async_scheduling (config (scheduler e)) = false → num_sampled_tokens_per_step (config (scheduler e)) ≤ 1 →
  engine_inv (set_scheduler s' e).
Proof. intros [U1 U2 U3 U4] Hs Hk. split; simpl; rewrite ?U4; done. Qed.

Lemma finished_caught_up ids s s' : finished max_len ids s s' → caught_up s → caught_up s'.
Proof.
  intros [F1 F2 F3 F4 F5 F6] Hc rid r [Hin Hni]%F5. rewrite F6, decide_False by done. by apply Hc.
Qed.

Lemma iter_ids_nodup X : NoDup (iter_ids X).
Proof. rewrite iter_ids_perm. apply NoDup_elements. Qed.

Lemma abort_ok ids e : sched_inv (scheduler e) → all_plain (scheduler e) →
  ∃ s', abort_requests ids e = Ok (tt, set_scheduler s' e)
    ∧ finished max_len (iter_ids (list_to_set ids)) (scheduler e) s'.
Proof.
  intros Hs Hp. destruct (finish_requests_ok max_len (scheduler e) (Some (iter_ids (list_to_set ids))) FINISHED_ABORTED)
    as (l & s' & E & Hf); [done|done|apply iter_ids_nodup|done|].
  exists s'. unfold abort_requests. by rewrite (bind_ok _ _ _ _ _ (on_scheduler_ok _ _ _ _ E)).
Qed.

Lemma process_aborts_ok e : sched_inv (scheduler e) → all_plain (scheduler e) →
  ∃ s' ids, _process_aborts_queue e = Ok (tt, set_aborts_queue [] (set_scheduler s' e))
    ∧ finished max_len ids (scheduler e) s'.
Proof.
  intros Hs Hp. unfold _process_aborts_queue. mstep. destruct (aborts_queue e) as [|x q] eqn:Eq.
  - exists (scheduler e), []. split; [destruct e; simpl in *; by subst|]. split; try done.
    + intros y. split; [|by intros [? _]]. intros ?. split; [done|apply not_elem_of_nil].
  - mstep. destruct (abort_ok (concat (x :: q)) (set_aborts_queue [] e) Hs Hp) as (s' & E & Hf).
    eexists s', _. by rewrite E.
Qed.

Lemma add_ok tasks (now : bool) r e : engine_inv e → fresh_request max_len (config (scheduler e)) r →
  request_id r ∉ (requests (scheduler e)).*1 → task_supported tasks r = true →
  ∃ e', engine_add_request kv_hasher tasks now r e = Ok (tt, e') ∧ engine_inv e'.
Proof.
  intros [I1 I2 I3 I4 I5] Hf Hni Htask. destruct (add_request_ok max_len (scheduler e) r I1 I2 Hf Hni) as (s1 & E1 & Hs1 & Hp1 & Hj).
  pose proof (joined_caught_up max_len _ _ _ Hni I1 Hj I3) as Hc1. pose proof (jn_config _ _ _ Hj) as Hcf.
  unfold engine_add_request. rewrite Htask. cbn [negb]. rewrite (bind_ok _ _ _ _ _ (on_scheduler_ok _ _ _ _ E1)). destruct now.
  - destruct (abort_ok [request_id r] (set_scheduler s1 e) Hs1 Hp1) as (s2 & E2 & Hfd). rewrite E2.
    eexists. split; [reflexivity|]. pose proof (fd_config _ _ _ _ Hfd) as Hcf2. simpl in Hcf2.
    split; simpl; rewrite ?Hcf2, ?Hcf; try done; [apply Hfd|apply Hfd|by eapply finished_caught_up].
  - eexists. split; [reflexivity|]. split; simpl; rewrite ?Hcf; done.
Qed.

Lemma runner_finished o ids s s' mo : finished max_len ids s s' → runner_ok o s mo → runner_ok o s' mo.
Proof.
  intros [_ _ Hc _ _ Hst] Hr rid n Hin. destruct (Hr rid n Hin) as (g & pooled & Hs & [V1 V2 V3]).
  exists g, pooled. split; [done|]. split; rewrite ?Hc; try done. intros r. rewrite Hst. case_decide; [done|apply V3].
Qed.

(** The executor's answer to the batch is well-formed. *)
Definition executor_ok (execute : SchedulerOutput → option (GrammarOutput B) → ModelRunnerOutput) s : Prop :=
  ∀ o s1, schedule s = Ok (o, s1) → runner_ok o s1 (execute o (get_grammar_bitmask bitmask o s1)).

Lemma step_ok execute arrived e : engine_inv e → executor_ok execute (scheduler e) →
  ∃ x e', step kv_hasher bitmask execute arrived e = Ok (x, e') ∧ engine_inv e'.
Proof.
  intros Hi Hx. pose proof Hi as [I1 I2 I3 I4 I5]. unfold step. mstep.
  destruct (has_requests (scheduler e)); cbn [negb]; [|by eexists _, e].
  destruct (schedule_ok max_len (scheduler e) I1 I3) as (o & s1 & E1 & Hst).
  pose proof (stepped_mid max_len _ _ _ I4 I2 Hst) as Hmid. pose proof (se_config _ _ _ _ Hst) as Hcf.
  rewrite (bind_ok _ _ _ _ _ (on_scheduler_ok _ _ _ _ E1)). mstep. mstep. cbn [scheduler set_scheduler].
  set (e1 := set_aborts_queue _ _).
  destruct (process_aborts_ok e1 (md_inv _ _ _ Hmid) (md_plain _ _ _ Hmid)) as (s2 & ids & E2 & Hfd).
  rewrite (bind_ok _ _ _ _ _ E2). change (scheduler e1) with s1 in Hfd.
  pose proof (finished_mid _ _ _ _ _ Hmid Hfd) as Hmid2.
  pose proof (runner_finished _ _ _ _ _ Hfd (Hx _ _ E1)) as Hrun. pose proof (fd_config _ _ _ _ Hfd) as Hcf2.
  destruct (update_ok max_len o s2 _ grammar ltac:(by rewrite Hcf2, Hcf) ltac:(by rewrite Hcf2, Hcf) Hmid2 Hrun)
    as (outs & s3 & E3 & Hud).
  set (e2 := set_aborts_queue [] (set_scheduler s2 e1)). change s2 with (scheduler e2) in E3.
  rewrite (bind_ok _ _ _ _ _ (on_scheduler_ok _ e2 _ _ E3)). eexists _, _. split; [reflexivity|].
  apply updated_engine; simpl; [done|by rewrite Hcf2, Hcf..].
Qed.

Lemma post_step_ok drafts b e : engine_inv e → ∃ e', post_step validate drafts b e = Ok (tt, e') ∧ engine_inv e'.
Proof.
  intros Hi. pose proof Hi as [I1 I2 I3 I4 I5]. unfold post_step. mstep.
  destruct (_ && _ && _); [|by exists e]. destruct drafts as [d|]; [|by exists e].
  destruct (draft_tokens_ok validate d (scheduler e)) as (s' & E & Hm). exists (set_scheduler s' e).
  split; [by apply on_scheduler_ok|]. apply updated_engine; [by apply moved_inv|done|done].
Qed.

Lemma set_pause_inv p s : sched_inv s → sched_inv (s_set_pause_state p s).
Proof.
  intros [S1 S2 S3 S4 S5 S6 (ws & ks & Q) S8]. split; try done; [by apply (store_ok_same s)|by exists ws, ks].
Qed.

(** With an empty store nothing is held, and the caches can be cleared. *)
Lemma reset_ok e : engine_inv e → requests (scheduler e) = [] → running (scheduler e) = [] →
  ∃ e', _reset_caches true true e = Ok (tt, e') ∧ engine_inv e'.
Proof.
  intros [I1 I2 I3 I4 I5] Hnil Hrun. set (s := scheduler e) in *.
  assert (Hv : ∀ x, kv_vacant (kv_cache_manager s) x).
  { intros x. apply (sv_outside _ _ I1). rewrite Hnil. apply not_elem_of_nil. }
  destruct (kc_reset (kv_cache_manager s) (sv_kv _ _ I1) Hv) as (k' & Ek & Hk' & Hkeep).
  set (s1 := s_set_prev_step_scheduled_req_ids ∅ s). set (s2 := s_set_kv_cache_manager k' s1).
  assert (E1 : scheduler_reset_prefix_cache true true s = Ok (true, s2)).
  { assert (Ep : (s ← get; _ ← preempt_all (length (running s)); modify (s_set_prev_step_scheduled_req_ids ∅)) s = Ok (tt, s1)).
    { mstep. rewrite Hrun. cbn [length preempt_all]. done. }
    unfold scheduler_reset_prefix_cache. cbv iota. rewrite (bind_ok _ _ _ _ _ Ep).
    by rewrite (bind_ok _ _ _ _ _ (on_kv_ok _ s1 _ _ Ek)). }
  assert (Hq : ∃ s3, reset_encoder_cache s2 = Ok (tt, s3) ∧ requests s3 = [] ∧ running s3 = [] ∧ config s3 = config s
    ∧ kv_cache_manager s3 = k' ∧ waiting s3 = waiting s ∧ skipped_waiting s3 = skipped_waiting s ∧ encoder_idle s3).
  { unfold reset_encoder_cache, on_encoder. destruct (encoder_cache_manager s2) eqn:Ee; (eexists; split; [reflexivity|]);
      split_and!; try done. }
  destruct Hq as (s3 & E3 & Q1 & Q2 & Q3 & Q4 & Q5 & Q6 & Q7). unfold _reset_caches.
  rewrite (bind_ok _ _ _ _ _ (on_scheduler_ok _ e _ _ E1)), (on_scheduler_ok _ (set_scheduler s2 e) _ _ E3).
  eexists. split; [reflexivity|]. destruct I1 as [S1 S2 S3 S4 S5 S6 (ws & ks & P1 & P2 & P3 & P4) S8].
  rewrite Hnil, Hrun in P3. simpl in P3. symmetry in P3. apply Permutation_nil, app_eq_nil in P3 as [-> ->].
  split; simpl; rewrite ?Q3; try done.
  - split; rewrite ?Q1, ?Q2, ?Q3, ?Q4; try done.
    + split; [rewrite Q1; constructor|]. intros x r. by rewrite Q1.
    + rewrite <-Hrun. done.
    + by intros x ?%not_elem_of_nil.
    + exists [], []. rewrite Q5, Q6. unfold queued in *. rewrite Q3. split_and!; try done.
      * eapply repr_ext; [|exact P1]. by intros a b ?%not_elem_of_nil.
      * eapply repr_ext; [|exact P2]. by intros a b ?%not_elem_of_nil.
      * by intros x ?%not_elem_of_nil.
    + intros x _. by apply (Hkeep x I).
  - intros x r. by rewrite Q1.
  - intros x r Hin. rewrite Q2 in Hin. by apply not_elem_of_nil in Hin.
Qed.

Lemma finished_all ids s s' : finished max_len ids s s' → (∀ x, x ∈ (requests s).*1 → x ∈ ids) → sched_inv s →
  requests s' = [] ∧ running s' = [].
Proof.
  intros [F1 F2 F3 F4 F5 F6] Hall Hs.
  assert (Hnone : ∀ x, dict_get (requests s') x = None).
  { intros x. rewrite F6. case_decide as Hx; [done|]. apply dict_get_None. by intros ?%Hall. }
  split.
  - destruct (requests s') as [|[x r] d]; [done|]. specialize (Hnone x). simpl in Hnone. by rewrite decide_True in Hnone.
  - destruct (running s') as [|x l] eqn:Er; [done|]. destruct (sv_running _ _ F1 x) as (r & Hr & _); [rewrite Er; left|].
    by rewrite Hnone in Hr.
Qed.

Lemma pause_ok mode clear e : engine_inv e → mode ≠ PauseWait → (mode = PauseAbort ∨ clear = false) →
  ∃ e', pause_scheduler mode clear e = Ok (tt, e') ∧ engine_inv e'.
Proof.
  intros Hi Hw Hcl. pose proof Hi as [I1 I2 I3 I4 I5].
  assert (Hp : ∀ p s, engine_inv (set_scheduler s e) → engine_inv (set_scheduler (s_set_pause_state p s) e)).
  { intros p s [J1 J2 J3 J4 J5]. split; try done. by apply set_pause_inv. }
  destruct mode; [| |done]; unfold pause_scheduler.
  - destruct (finish_requests_ok max_len (scheduler e) None FINISHED_ABORTED I1 I2) as (l & s1 & E1 & Hf);
      [apply (sv_store _ _ I1)|done|]. simpl in Hf.
    destruct (finished_all _ _ _ Hf (λ x Hx, Hx) I1) as [Hnil Hrun]. pose proof (fd_config _ _ _ _ Hf) as Hcf.
    assert (Ef : (_ ← on_scheduler (finish_requests None FINISHED_ABORTED); mret tt) e = Ok (tt, set_scheduler s1 e))
      by (by rewrite (bind_ok _ _ _ _ _ (on_scheduler_ok _ _ _ _ E1))).
    rewrite (bind_ok _ _ _ _ _ Ef). mstep.
    assert (H1 : engine_inv (set_scheduler (s_set_pause_state PAUSED_NEW s1) e)).
    { apply Hp. split; simpl; rewrite ?Hcf; try done; [apply Hf|apply Hf|by eapply finished_caught_up]. }
    destruct clear; [|by eexists]. by apply (reset_ok _ H1).
  - destruct Hcl as [?| ->]; [done|]. mstep. mstep. eexists. split; [reflexivity|]. apply Hp. by destruct e.
Qed.

Lemma resume_ok e : engine_inv e → ∃ e', resume_scheduler e = Ok (tt, e') ∧ engine_inv e'.
Proof.
  intros [I1 I2 I3 I4 I5]. eexists. split; [reflexivity|]. split; try done. by apply set_pause_inv.
Qed.

(** ** Sequences of calls *)

Inductive engine_op :=
  | AddRequest (supported_pooling_tasks : list string) (abort_immediately : bool) (r : Request)
  | AbortRequests (ids : list string)
  | EngineStep (execute : SchedulerOutput → option (GrammarOutput B) → ModelRunnerOutput)
      (arrived : list (list string)) (drafts : option (list (string * list Z)))
  | Pause (mode : PauseMode) (clear_cache : bool)
  | Resume.

Definition run_engine_op (op : engine_op) : EM unit :=
  match op with
  | AddRequest tasks now r => engine_add_request kv_hasher tasks now r
  | AbortRequests ids => abort_requests ids
  | EngineStep execute arrived drafts => _ ← _process_engine_step kv_hasher bitmask execute arrived validate drafts; mret tt
  | Pause mode clear => pause_scheduler mode clear
  | Resume => resume_scheduler
  end.

(** New requests are text requests with a new id that fit the model's length and, if
    they are pooled, for a task that is supported; the
    executor answers as documented; pausing keeps the caches unless it aborts. *)
Definition engine_op_pre (op : engine_op) e : Prop :=
  match op with
  | AddRequest tasks _ r => fresh_request max_len (config (scheduler e)) r ∧ request_id r ∉ (requests (scheduler e)).*1
      ∧ task_supported tasks r = true
  | EngineStep execute _ _ => executor_ok execute (scheduler e)
  | Pause mode clear => mode ≠ PauseWait ∧ (mode = PauseAbort ∨ clear = false)
  | _ => True
  end.

Fixpoint run_engine (ops : list engine_op) : EM unit :=
  match ops with [] => mret tt | op :: ops => _ ← run_engine_op op; run_engine ops end.

Fixpoint engine_ops_pre (ops : list engine_op) e : Prop :=
  match ops with
  | [] => True
  | op :: ops => engine_op_pre op e ∧ ∀ e', run_engine_op op e = Ok (tt, e') → engine_ops_pre ops e'
  end.

Lemma engine_op_ok op e : engine_inv e → engine_op_pre op e → ∃ e', run_engine_op op e = Ok (tt, e') ∧ engine_inv e'.
Proof.
  intros Hi Hpre. destruct op as [tasks now r|ids|execute arrived drafts|mode clear|]; simpl in *.
  - destruct Hpre as (? & ? & ?). by apply add_ok.
  - destruct (abort_ok ids e (en_inv _ Hi) (en_plain _ Hi)) as (s' & E & Hf). eexists. split; [exact E|].
    destruct Hi as [I1 I2 I3 I4 I5]. pose proof (fd_config _ _ _ _ Hf) as Hcf.
    split; simpl; rewrite ?Hcf; try done; [apply Hf|apply Hf|by eapply finished_caught_up].
  - destruct (step_ok execute arrived e Hi Hpre) as (x & e1 & E1 & H1).
    destruct (post_step_ok drafts (snd x) e1 H1) as (e2 & E2 & H2). exists e2. split; [|done].
    assert (E : _process_engine_step kv_hasher bitmask execute arrived validate drafts e = Ok (snd x, e2)).
    { unfold _process_engine_step. rewrite (bind_ok _ _ _ _ _ E1). by rewrite (bind_ok _ _ _ _ _ E2). }
    by rewrite (bind_ok _ _ _ _ _ E).
  - destruct Hpre. by apply pause_ok.
  - by apply resume_ok.
Qed.

Lemma engine_run_ok ops : ∀ e, engine_inv e → engine_ops_pre ops e →
  ∃ e', run_engine ops e = Ok (tt, e') ∧ engine_inv e'.
Proof.
  induction ops as [|op ops IH]; intros e Hi Hpre; [by exists e|]. destruct Hpre as [Hop Hops].
  destruct (engine_op_ok op e Hi Hop) as (e1 & E1 & H1). destruct (IH e1 H1 (Hops e1 E1)) as (e2 & E2 & H2).
  exists e2. split; [|done]. simpl. by rewrite (bind_ok _ _ _ _ _ E1).
Qed.
End invariant.
