(* ===== verification/EngineTrace.v ===== *)
(** * The engine over its lifetime

    The scheduler and the engine core, verified against the interface [KVContract],
    with the KV-cache manager of the code as its implementation: a step of the
    scheduler, the manager as an implementation of the interface, and any sequence of
    calls of a newly built engine. *)

From Stdlib Require Import ZArith Lia QArith.
From S2P Require Import Prelude MathUtils KVSpec FreeQueue Request BlockHash BlockPool Ledger SingleType ManagerSpec CacheHit Coordinator CoordinatorSpec HybridHit KVCacheManager AllocateSlots ManagerTrace NewRequest RequestQueue EncoderCache SchedUtils Scheduler Schedule UpdateOutput SchedulerSpec KVInstance RunningPass WaitingPass ScheduleSafe Lifecycle UpdateSafe EngineCore.
Local Open Scope Z_scope.

(** ** Configurations with one attention group *)

(** A manager for one group, whose blocks are the unit of hashing. *)
Record one_group (k0 : KVCacheManager) (bs : Z) (m : Manager) : Prop := {
  og_managers : single_type_managers (coordinator k0) = [m];
  og_class : co_class (coordinator k0) = UnitaryKVCacheCoordinator ∧ mg_class m ≠ CrossAttentionManager;
  og_world : co_dcp_world_size (coordinator k0) = 1 ∧ co_pcp_world_size (coordinator k0) = 1;
  og_sizes : mg_block_size m = bs ∧ layer_block_size (mg_spec m) = bs ∧ co_block_size (coordinator k0) = bs
    ∧ co_hash_block_size (coordinator k0) = bs ∧ hash_block_size (km_pool k0) = bs;
  og_finder : finder_ok (mg_class m) (mg_spec m) (bool_decide (0%nat ∈ eagle_group_ids (coordinator k0))) bs
}.

Lemma one_group_searchable `{HashConfig} k0 bs m : 0 < bs → collision_free → one_group k0 bs m → searchable k0 bs.
Proof.
  intros Hbs Hcf [G1 [G2 G2'] [G3 G3'] (G4 & G5 & G6 & G7 & G8) G9].
  assert (Hat : ∀ hs, hashes_at bs bs hs = hs) by (intros hs; unfold hashes_at; by rewrite Z.eqb_refl).
  assert (Hsame : ∀ k, shape k = shape k0 → ∃ m', single_type_managers (coordinator k) = [m'] ∧ conf m' = conf m
    ∧ co_conf (coordinator k) = co_conf (coordinator k0) ∧ hash_block_size (km_pool k) = bs).
  { intros k Hs. unfold shape in Hs. rewrite G1 in Hs.
    pose proof (f_equal (λ x, x.1.1.1.1) Hs) as S1. pose proof (f_equal (λ x, x.1.1.1.2) Hs) as S2.
    pose proof (f_equal (λ x, x.1.1.2) Hs) as S3. simpl in S1, S2, S3.
    destruct (single_type_managers (coordinator k)) as [|m' [|]] eqn:Em; try discriminate.
    csimpl in S2. assert (conf m' = conf m) by congruence. exists m'. split_and!; congruence. }
  split; [done| | |].
  - intros k free Hk Hs _. destruct (Hsame k Hs) as (m' & E & Hc & Hco & Hh). unfold conf in Hc. unfold co_conf in Hco.
    split; [done|]. split; [congruence|]. split; [by rewrite E|]. intros x Hx. rewrite E in Hx.
    apply list_elem_of_singleton in Hx as ->. congruence.
  - intros k free hs len Hk Hs _ Hlen Hall. destruct (Hsame k Hs) as (m' & E & Hc & Hco & Hh). unfold conf in Hc. unfold co_conf in Hco.
    assert (mg_class m' = mg_class m ∧ mg_spec m' = mg_spec m ∧ mg_block_size m' = bs) as (E1 & E2 & E3) by (split_and!; congruence).
    assert (co_class (coordinator k) = UnitaryKVCacheCoordinator ∧ co_block_size (coordinator k) = bs
      ∧ co_hash_block_size (coordinator k) = bs ∧ eagle_group_ids (coordinator k) = eagle_group_ids (coordinator k0)
      ∧ co_dcp_world_size (coordinator k) = 1 ∧ co_pcp_world_size (coordinator k) = 1) as (C1 & C2 & C3 & C4 & C5 & C6)
      by (split_and!; congruence).
    specialize (Hall m'). rewrite E, E3, Hat in Hall. specialize (Hall ltac:(left)).
    apply (unitary_ready _ _ _ _ m' C1). split; rewrite ?E1, ?E2, ?E3, ?C2, ?C3, ?C4, ?G5; try done.
    split; rewrite ?G5; try done.
    + apply (lg_pool _ _ _ _ (ci_ledger _ _ (ki_co _ _ Hk))).
    + split; [done|]. by repeat constructor.
    + simpl. unfold zlen in Hall. apply Nat2Z.inj_le. rewrite Z2Nat.id; [done|by apply Z.div_pos].
  - intros r Hr x Hx. rewrite G1 in Hx. apply list_elem_of_singleton in Hx as ->. rewrite G4, Hat, (hi_hashes _ _ Hr).
    by apply ref_hashes_distinct.
Qed.

(** ** An executor *)

(** Samples the token [tok] for every scheduled request. *)
Definition one_token_executor {B} (tok : Z) (o : SchedulerOutput) (g : option (GrammarOutput B)) : ModelRunnerOutput :=
  let ids := (so_num_scheduled_tokens o).*1 in
  mkModelRunnerOutput (imap (λ i rid, (rid, Z.of_nat i)) ids) (replicate (length ids) [tok]) [] [].

Lemma dict_get_imap (l : list string) : ∀ (f : nat → Z) x, x ∈ l →
  ∃ i, (i < length l)%nat ∧ dict_get (imap (λ i rid, (rid, f i)) l) x = Some (f i).
Proof.
  induction l as [|y l IH]; intros f x Hx; [by apply not_elem_of_nil in Hx|]. simpl. case_decide as Hxy; [exists 0%nat; split; [lia|done]|].
  apply elem_of_cons in Hx as [->|Hx]; [done|]. destruct (IH (f ∘ S) x Hx) as (i & Hi & E). exists (S i). split; [lia|done].
Qed.

Section engine.
Context `{HC : HashConfig} `{SO : SetOrder} `{IO : IdOrder} `{ST : StructuredOutput} (k0 : KVCacheManager) (bs : Z).
Context (Hsr : km_enable_caching k0 = true → searchable k0 bs).
#[local] Instance view : KVView := manager_view k0 bs.
#[local] Instance contract : KVContract (km_max_model_len k0) := manager_contract k0 bs Hsr.
Abbreviation max_len := (km_max_model_len k0).

Lemma one_token_ok {B} (bitmask : list (string * Request) → list string → list (string * list Z) → B) tok s :
  sched_inv max_len s → caught_up s → 1 ≤ num_sampled_tokens_per_step (config s) →
  (∀ rid r, stored s rid r → pooling_params r = None) → executor_ok bitmask (one_token_executor tok) s.
Proof.
  intros Hs Hc Hn Hp o s1 E rid n Hin. destruct (schedule_ok max_len s Hs Hc) as (o' & s' & E' & Hst).
  rewrite E' in E. injection E as -> ->. set (ids := (so_num_scheduled_tokens o).*1).
  destruct (dict_get_imap ids Z.of_nat rid) as (i & Hi & Ei); [by apply (list_elem_of_fmap_2 fst) in Hin|].
  exists [tok], false. split.
  - exists (Z.of_nat i). split; [exact Ei|]. split; [|split; [done|intros _; by left]]. simpl. fold ids.
    assert (py_index (replicate (length ids) [tok]) (Z.of_nat i) = Ok [tok]) as Hpy.
    { unfold py_index. rewrite (proj2 (Z.ltb_ge (Z.of_nat i) 0)) by lia. rewrite (proj2 (Z.ltb_ge (Z.of_nat i) 0)) by lia.
      by rewrite Nat2Z.id, lookup_replicate_2. }
    destruct (replicate (length ids) [tok]) eqn:Er; [|done]. destruct ids; [simpl in Hi; lia|done].
  - rewrite <-(se_config _ _ _ _ Hst) in Hn. split.
    + unfold drafts. pose proof (zlen_nonneg (default [] (dict_get (so_scheduled_spec_decode_tokens o) rid))).
      unfold zlen at 1. simpl. lia.
    + intros _. by left.
    + intros r Hr Hpp. destruct (same_contents_stored s1 s rid r) as (r0 & Hr0 & Hc0); [symmetry; apply Hst|done|].
      destruct Hpp. rewrite <-(Hp rid r0 Hr0). exact (f_equal pooling_params Hc0).
Qed.
End engine.

(** ** Theorems *)

(** C29. The KV-cache manager implements what the scheduler relies on. For every manager
    whose configuration the prefix-cache lookup supports, and with any hash function
    without collisions among the blocks of one request, the operations the scheduler
    calls never raise in the states it calls them in; allocation either gives the
    request blocks for all its tokens or changes no other request and reports the
    shortage; a lookup returns a hit that can be turned into an allocation; freeing
    empties the request's block tables; and no operation touches the blocks of a request
    it is not called for. *)
Theorem manager_implements_contract `{HashConfig} k0 bs :
  (km_enable_caching k0 = true → searchable k0 bs) → @KVContract _ (manager_view k0 bs) (km_max_model_len k0).
Proof. exact (manager_contract k0 bs). Qed.

(** C30. A step of the scheduler. In every state between steps that satisfies the
    invariant, with drafts verified, [schedule] returns (no assertion, index or key
    error, and the loops end), the scheduler satisfies the invariant afterwards with
    the same requests, the scheduled tokens add up to the total and stay within the
    token budget (nothing is scheduled when paused), and every scheduled request is
    running, was not preempted in this step, has a positive number of new tokens and
    block tables with slots for all tokens it will have computed, in every group. *)
Theorem schedule_step_safe `{HashConfig} `{SetOrder} `{StructuredOutput} k0 bs s :
  (km_enable_caching k0 = true → searchable k0 bs) →
  sched_inv (KV:=manager_view k0 bs) (km_max_model_len k0) s → caught_up s →
  ∃ o s', schedule s = Ok (o, s')
    ∧ sched_inv (KV:=manager_view k0 bs) (km_max_model_len k0) s' ∧ (requests s').*1 = (requests s).*1
    ∧ so_total_num_scheduled_tokens o = zsum (so_num_scheduled_tokens o).*2
    ∧ so_total_num_scheduled_tokens o ≤ step_budget (config s) (_pause_state s)
    ∧ NoDup (so_num_scheduled_tokens o).*1
    ∧ ∀ rid n, (rid, n) ∈ so_num_scheduled_tokens o →
        0 < n ∧ rid ∈ running s' ∧ rid ∉ so_preempted_req_ids o
        ∧ ∃ r', dict_get (requests s') rid = Some r' ∧ n ≤ num_computed_tokens r'
          ∧ ∀ m, m ∈ single_type_managers (coordinator (kv_cache_manager s')) → covers m rid (num_computed_tokens r').
Proof.
  intros Hsr Hs Hc. destruct (schedule_ok (CT:=manager_contract k0 bs Hsr) (km_max_model_len k0) s Hs Hc)
    as (o & s' & E & [E1 E2 E3 E4 E5 E6 E7 E8 E9 E10 E11]).
  exists o, s'. split_and!; try done.
Qed.

(** C31. The engine over its lifetime. Build it with an empty scheduler and a new
    KV-cache manager for any supported configuration, and make any sequence of calls:
    requests are added (and possibly aborted at once), clients abort requests between
    and during steps, steps run the model and may bring draft tokens, and the engine is
    paused and resumed. Under synchronous scheduling, with text requests of new ids that
    fit the model's length (pooled ones for a supported task) and an executor that
    answers for every scheduled request, nothing raises; the scheduler's invariant holds at every point; at most
    [max_num_running_reqs] requests run, each with block tables covering its computed
    tokens; a request that has left holds no block; and when no request is left, all
    blocks but the null block are free. *)
Theorem engine_trace_safe `{HashConfig} `{SetOrder} `{IdOrder} `{StructuredOutput} {B}
    (bitmask : list (string * Request) → list string → list (string * list Z) → B) validate
    cfg ml sched hbs mb caching eagle log ev ui mo ret wm k0 bs c size inc check ops :
  new_kv_cache_manager cfg ml sched hbs mb caching eagle log ev ui 1 1 mo ret wm = Ok k0 →
  0 < num_blocks cfg → 0 < hbs → 0 < sched → zlen (kv_cache_groups cfg) ≤ 256 ^ 4 → specs_ok (kv_cache_groups cfg) →
  (km_enable_caching k0 = true → searchable k0 bs) → grammar_sound →
  config_ok (km_max_model_len k0) c → 0 ≤ max_num_running_reqs c →
  async_scheduling c = false → num_sampled_tokens_per_step c ≤ 1 →
  let e0 := mkEngineCore (new_scheduler c k0 size inc) [] check in
  engine_ops_pre (KV:=manager_view k0 bs) (km_max_model_len k0) bitmask validate ops e0 →
  ∃ e, run_engine (KV:=manager_view k0 bs) bitmask validate ops e0 = Ok (tt, e)
    ∧ let s := scheduler e in let ms := single_type_managers (coordinator (kv_cache_manager s)) in
      sched_inv (KV:=manager_view k0 bs) (km_max_model_len k0) s ∧ zlen (running s) ≤ max_num_running_reqs (config s)
      ∧ (∀ rid, rid ∈ running s → ∃ r, dict_get (requests s) rid = Some r ∧ status r = RUNNING
           ∧ ∀ m, m ∈ ms → covers m rid (num_computed_tokens r))
      ∧ (∀ rid, rid ∉ (requests s).*1 → ∀ m, m ∈ ms → blocks m rid = [])
      ∧ (requests s = [] → get_num_free_blocks (km_pool (kv_cache_manager s)) = num_gpu_blocks (km_pool (kv_cache_manager s)) - 1).
Proof.
  intros Hnew Hn Hh Hsb Hg Hsp Hsr Hgr Hc Hmax Hsync Hk e0 Hpre.
  destruct (new_km_ok _ _ _ _ _ _ _ _ _ _ _ _ _ _ Hnew Hn Hh Hsb Hg Hsp) as (Hk0 & _ & Hidle).
  destruct (new_scheduler_inv (KV:=manager_view k0 bs) (km_max_model_len k0) c k0 size inc Hc Hmax) as (I1 & I2 & I3).
  { by split. }
  { intros rid m Hm. destruct (Hidle m Hm) as [E1 E2]. unfold new_request_in, blocks. by rewrite E1, E2, !lookup_empty. }
  destruct (engine_run_ok (CT:=manager_contract k0 bs Hsr) (km_max_model_len k0) bitmask validate Hgr ops e0) as (e & E & Hi);
    [by split|done|].
  exists e. split; [done|]. pose proof (en_inv _ _ Hi) as Hs. split_and!; [done|apply (sv_limit _ _ Hs)| | |].
  - intros rid Hin. destruct (sv_running _ _ Hs rid Hin) as (r & Hr & Hok). exists r.
    split; [done|]. split; [apply Hok|]. rewrite <-(so_id _ (sv_store _ _ Hs) rid r Hr). exact (rg_slots _ _ _ _ Hok).
  - intros rid Hni m Hm. apply (sv_outside _ _ Hs rid Hni m Hm).
  - intros Hnil. destruct (sv_kv _ _ Hs) as [_ [free Hfree]]. apply (vacant_free _ free Hfree).
    intros rid. apply (sv_outside _ _ Hs). rewrite Hnil. apply not_elem_of_nil.
Qed.

(** ** Witnesses *)

#[local] Instance demo_ids : IdOrder := {| iter_ids := elements; iter_ids_perm X := Permutation_refl _ |}.
#[local] Instance demo_grammar : StructuredOutput :=
  {| grammar_ready _ := true; should_advance _ := false; accept_tokens _ _ := true |}.
#[local] Existing Instance demo_hash.

Definition demo_sched_config : SchedulerConfig :=
  mkSchedulerConfig FCFS 4 16 100 1 0 true false false false 0 0 2 false false false None false false 1 false false true 0 1.

Lemma demo_collision_free : collision_free.
Proof.
  split.
  - intros x y Hxy. cbn [hash_function demo_hash] in Hxy. by do 2 apply (inj _) in Hxy.
  - intros x. cbn [hash_function demo_hash]. by destruct (encode x).
  - intros x. cbn [hash_function NONE_HASH demo_hash]. by destruct (encode x).
Qed.

Lemma demo_searchable k r m : demo_facts k r m → km_enable_caching k = true → searchable k 2.
Proof.
  intros [H1 H2 H3 (H4 & H5 & H6) H7 (C1 & C2 & C3 & C4 & C5) (H9 & H10 & H11) H12 H15 H17] _.
  apply (one_group_searchable k 2 m); [lia|apply demo_collision_free|]. split; rewrite ?H4, ?H5; try done.
Qed.

Lemma demo_config_ok k r m : demo_facts k r m → config_ok (km_max_model_len k) demo_sched_config.
Proof. intros Hd. destruct (df_pool _ _ _ Hd) as (_ & _ & ->). by split. Qed.

Lemma demo_fresh k r m : demo_facts k r m → fresh_request (KV:=manager_view k 2) (km_max_model_len k) demo_sched_config r.
Proof.
  intros Hd. destruct (df_pool _ _ _ Hd) as (_ & _ & Hml). destruct (df_tokens _ _ _ Hd) as (Ht & Hc & _).
  destruct (df_features _ _ _ Hd) as [Hm _].
  assert (Hr : (resumable r, pooling_params r, sampling_params r, num_prompt_tokens r, num_output_tokens r, status r,
    num_output_placeholders r) = (false, None, Some BlockHash.demo_sampling, 5, 0, WAITING, 0)).
  { pose proof (df_request _ _ _ Hd) as Er. vm_compute in Er. injection Er as <-. by vm_compute. }
  injection Hr as R1 R2 R3 R4 R5 R6 R7.
  split; [| |by left|done|done].
  - split; rewrite ?R2, ?R3, ?R4, ?R5, ?Ht; try done. intros _. eexists. split; [done|]. rewrite Hml. by vm_compute.
  - split; rewrite ?Hml, ?Ht, ?R4; try done. apply content_ready. intros _.
    destruct (new_request_hash_inv "r" (Some [1;2;3;4;5]) (Some BlockHash.demo_sampling) None 0 None [] None None 0 false false 2 r)
      as [Hh _]; [lia|split; constructor|exact (df_request _ _ _ Hd)|constructor|right; constructor|done].
Qed.

Lemma manager_implements_contract_witness :
  ∃ k, demo_manager = Ok k ∧ km_enable_caching k = true ∧ @KVContract _ (manager_view k 2) (km_max_model_len k).
Proof.
  destruct demo_facts_hold as (k & r & m & Hd). exists k. split; [apply (df_manager _ _ _ Hd)|].
  split; [apply (df_pool _ _ _ Hd)|]. exact (manager_implements_contract k 2 (demo_searchable k r m Hd)).
Defined.

Lemma demo_started k r m : demo_facts k r m →
  sched_inv (KV:=manager_view k 2) (km_max_model_len k) (new_scheduler demo_sched_config k 0 false)
  ∧ all_plain (km_max_model_len k) (new_scheduler demo_sched_config k 0 false).
Proof.
  intros Hd. destruct (new_km_ok _ _ _ _ _ _ _ _ _ _ _ _ _ _ (df_manager _ _ _ Hd)) as (Hk & _ & Hidle);
    [done|done|done|done|repeat constructor; by exists (demo_full 2)|].
  destruct (new_scheduler_inv (KV:=manager_view k 2) (km_max_model_len k) demo_sched_config k 0 false) as (I1 & _ & I3);
    [by eapply demo_config_ok|done|by split| |done].
  intros rid x Hx. destruct (Hidle x Hx) as [E1 E2]. unfold new_request_in, blocks. by rewrite E1, E2, !lookup_empty.
Qed.

Lemma schedule_step_safe_witness :
  ∃ k r s o s', demo_manager = Ok k ∧ demo_request = Ok r
    ∧ add_request_to_scheduler (kv_hasher (KVView:=manager_view k 2)) r (new_scheduler demo_sched_config k 0 false) = Ok (tt, s)
    ∧ schedule s = Ok (o, s') ∧ so_total_num_scheduled_tokens o ≤ 16.
Proof.
  destruct demo_facts_hold as (k & r & m & Hd). pose proof (demo_searchable k r m Hd) as Hsr.
  destruct (demo_started k r m Hd) as [I1 I3].
  destruct (add_request_ok (CT:=manager_contract k 2 Hsr) (km_max_model_len k) _ r I1 I3 (demo_fresh k r m Hd))
    as (s & E & Hs & _ & Hj); [apply not_elem_of_nil|].
  assert (Hcu : caught_up s).
  { intros x y. rewrite (jn_running _ _ _ Hj). by intros ?%not_elem_of_nil. }
  destruct (schedule_step_safe k 2 s Hsr Hs Hcu) as (o & s' & E' & _ & _ & _ & Hb & _).
  exists k, r, s, o, s'. split_and!; [apply (df_manager _ _ _ Hd)|apply (df_request _ _ _ Hd)|done|done|].
  etrans; [exact Hb|]. unfold step_budget. rewrite (jn_config _ _ _ Hj). by case_bool_decide.
Defined.

(** Add a request, run a step that computes its prompt and samples a token, abort it. *)
Definition demo_engine_ops (r : Request) : list engine_op :=
  [AddRequest [] false r; EngineStep (B:=unit) (one_token_executor 7) [] None; AbortRequests ["r"%string]].
Definition demo_engine (k : KVCacheManager) : EngineCore := mkEngineCore (new_scheduler demo_sched_config k 0 false) [] false.

Lemma engine_trace_safe_witness :
  ∃ k r e, demo_manager = Ok k ∧ demo_request = Ok r
    ∧ run_engine (KV:=manager_view k 2) (λ _ _ _, tt) (λ _ l, l) (demo_engine_ops r) (demo_engine k) = Ok (tt, e).
Proof.
  destruct demo_facts_hold as (k & r & m & Hd). pose proof (demo_searchable k r m Hd) as Hsr.
  destruct (engine_trace_safe (λ _ _ _, tt) (λ _ l, l) demo_config 100 2 2 None true false true false false false None 0%Q k 2
    demo_sched_config 0 false false (demo_engine_ops r)) as (e & E & _);
    [apply (df_manager _ _ _ Hd)|done|done|done|done|repeat constructor; by exists (demo_full 2)|done|done|
     by eapply demo_config_ok|done|done|done| |].
  - assert (pooling_params r = None) as Hpp by (pose proof (df_request _ _ _ Hd) as Er; vm_compute in Er; by injection Er as <-).
    assert (task_supported [] r = true) as Htask by (unfold task_supported; by rewrite Hpp).
    split; [split_and!; [by eapply demo_fresh|apply not_elem_of_nil|done]|]. intros e1 E1. split; [|done].
    destruct (demo_started k r m Hd) as [I1 I3].
    destruct (add_request_ok (CT:=manager_contract k 2 Hsr) (km_max_model_len k) _ r I1 I3 (demo_fresh k r m Hd))
      as (s & Es & Hs & _ & Hj); [apply not_elem_of_nil|].
    unfold engine_op_pre. assert (scheduler e1 = s) as ->.
    { simpl in E1. unfold engine_add_request in E1. rewrite Htask in E1. cbn [negb] in E1. rewrite (bind_ok _ _ _ _ _ (on_scheduler_ok _ (demo_engine k) _ _ Es)) in E1.
      by injection E1 as <-. }
    apply (one_token_ok k 2 Hsr); [done| |by rewrite (jn_config _ _ _ Hj)|].
    + intros x y. rewrite (jn_running _ _ _ Hj). by intros ?%not_elem_of_nil.
    + intros x y Hy. destruct (jn_new _ _ _ Hj) as (r' & Hr' & Hc & _).
      destruct (decide (x = request_id r)) as [->|Hx]; [|by rewrite (jn_stored _ _ _ Hj x Hx) in Hy].
      assert (y = r') as -> by congruence. transitivity (pooling_params r); [exact (f_equal pooling_params Hc)|done].
  - exists k, r, e. split_and!; [apply (df_manager _ _ _ Hd)|apply (df_request _ _ _ Hd)|exact E].
Defined.
