(* ===== verification/NgramProposer.v ===== *)
(** * The n-gram proposer

    [v1/spec_decode/ngram_proposer.py]: drafts for speculative decoding are the tokens
    that followed the longest recent n-gram at an earlier place of the request. The
    search is the failure function of Knuth, Morris and Pratt on the reversed tokens,
    stored for the first [max_ngram] prefixes only. It is compiled without bounds
    checks: an access out of range is an error value here, and does not happen. *)

From Stdlib Require Import ZArith Lia.
From S2P Require Import Prelude.
Local Open Scope Z_scope.

(** ** The search *)

(** Accesses to arrays. *)
Definition array_get {A} (l : list A) (i : nat) : result A := match l !! i with Some x => Ok x | None => Err IndexError end.
Definition array_set {A} (l : list A) (i : nat) (x : A) : result (list A) :=
  if decide (i < length l)%nat then Ok (<[i := x]> l) else Err IndexError.

Record NgramState := mkNgramState {
  lps : list nat;
  longest_ngram : nat;
  position : nat;
  prev_lps : nat;
  ng_i : nat
}.

(** One iteration of the [while] loop. *)
Definition match_token (tokens : list Z) (max_ngram : nat) (st : NgramState) : result NgramState :=
  let i := ng_i st in
  a ← array_get tokens (prev_lps st);
  b ← array_get tokens i;
  if decide (a = b) then
    let prev := S (prev_lps st) in
    let longer := bool_decide (longest_ngram st ≤ prev)%nat in
    lps' ← (if decide (i < max_ngram)%nat then array_set (lps st) i prev else Ok (lps st));
    prev' ← (if decide (prev = max_ngram) then array_get lps' (max_ngram - 1) else Ok prev);
    Ok (mkNgramState lps' (if longer then prev else longest_ngram st) (if longer then i else position st) prev' (S i))
  else if decide (prev_lps st ≠ 0%nat) then
    prev' ← array_get (lps st) (prev_lps st - 1);
    Ok (mkNgramState (lps st) (longest_ngram st) (position st) prev' i)
  else Ok (mkNgramState (lps st) (longest_ngram st) (position st) (prev_lps st) (S i)).

Fixpoint match_loop (fuel : nat) (tokens : list Z) (max_ngram : nat) (st : NgramState) : result (option NgramState) :=
  if decide (ng_i st < length tokens)%nat then
    match fuel with
    | O => Ok None
    | S fuel => st ← match_token tokens max_ngram st; match_loop fuel tokens max_ngram st
    end
  else Ok (Some st).

Definition _find_longest_matched_ngram_and_propose_tokens (fuel : nat) (origin_tokens : list Z) (min_ngram max_ngram : nat)
    (max_model_len k : Z) : result (option (list Z)) :=
  let total_token := zlen origin_tokens in
  if decide (total_token < Z.of_nat min_ngram) then Ok (Some [])
  else
    let k := Z.min k (max_model_len - total_token) in
    if decide (k ≤ 0) then Ok (Some [])
    else
      st ← match_loop fuel (reverse origin_tokens) max_ngram (mkNgramState (replicate max_ngram 0%nat) 0 0 0 1);
      match st with
      | None => Ok None
      | Some st =>
          if decide (longest_ngram st < min_ngram)%nat then Ok (Some [])
          else
            let start_position := total_token - 1 - Z.of_nat (position st) + Z.of_nat (longest_ngram st) in
            let k := Z.min k (total_token - start_position) in
            Ok (Some (py_slice origin_tokens start_position (start_position + k)))
      end.
Arguments _find_longest_matched_ngram_and_propose_tokens : simpl never.

(** ** The proposer *)

(** The two buffers are allocated once and reused for every batch. *)
Record NgramProposer := mkNgramProposer {
  min_n : nat;
  max_n : nat;
  ng_k : Z;
  ng_max_model_len : Z;
  valid_ngram_draft : list (list Z);
  valid_ngram_num_drafts : list nat
}.
Definition set_drafts (d : list (list Z)) (n : list nat) (p : NgramProposer) : NgramProposer :=
  mkNgramProposer (min_n p) (max_n p) (ng_k p) (ng_max_model_len p) d n.

Definition new_ngram_proposer (mn mx : nat) (k len : Z) (max_num_seqs : nat) : NgramProposer :=
  mkNgramProposer mn mx k len (replicate max_num_seqs (replicate (Z.to_nat k) 0)) (replicate max_num_seqs 0%nat).

(** Twice the number of tokens is enough for the search. *)
Definition ngram_fuel (tokens : list Z) : nat := 2 * length tokens.
Arguments ngram_fuel : simpl never.

(** The body of the loop of [batch_propose_numba]; the iterations write different rows. *)
Definition propose_row (num_tokens_no_spec : list nat) (token_ids_cpu : list (list Z)) (idx : nat) (p : NgramProposer) :
    result NgramProposer :=
  num_tokens ← array_get num_tokens_no_spec idx;
  row ← array_get token_ids_cpu idx;
  let context_token_ids := take num_tokens row in
  out ← _find_longest_matched_ngram_and_propose_tokens (ngram_fuel context_token_ids) context_token_ids
          (min_n p) (max_n p) (ng_max_model_len p) (ng_k p);
  match out with
  | None => Err RuntimeError
  | Some drafter_output =>
      num ← array_set (valid_ngram_num_drafts p) idx (length drafter_output);
      match drafter_output with
      | [] => Ok (set_drafts (valid_ngram_draft p) num p)
      | _ =>
          old ← array_get (valid_ngram_draft p) idx;
          if decide (length drafter_output ≤ length old)%nat
          then Ok (set_drafts (<[idx := drafter_output ++ drop (length drafter_output) old]> (valid_ngram_draft p)) num p)
          else Err ValueError
      end
  end.

Fixpoint batch_propose_numba (num_tokens_no_spec : list nat) (token_ids_cpu : list (list Z)) (valid : list nat)
    (p : NgramProposer) : result NgramProposer :=
  match valid with
  | [] => Ok p
  | idx :: valid =>
      p ← propose_row num_tokens_no_spec token_ids_cpu idx p;
      batch_propose_numba num_tokens_no_spec token_ids_cpu valid p
  end.

(** The drafts of row [i]. *)
Definition read_drafts (p : NgramProposer) (valid : list nat) (i : nat) : result (list Z) :=
  if decide (i ∈ valid) then
    n ← array_get (valid_ngram_num_drafts p) i;
    if decide (0 < n)%nat then row ← array_get (valid_ngram_draft p) i; Ok (take n row) else Ok []
  else Ok [].

Fixpoint read_all (p : NgramProposer) (valid : list nat) (rows : list nat) : result (list (list Z)) :=
  match rows with
  | [] => Ok []
  | i :: rows => d ← read_drafts p valid i; ds ← read_all p valid rows; Ok (d :: ds)
  end.

Definition batch_propose (num_requests : nat) (valid_ngram_requests : list nat) (num_tokens_no_spec : list nat)
    (token_ids_cpu : list (list Z)) (p : NgramProposer) : result (list (list Z) * NgramProposer) :=
  p ← batch_propose_numba num_tokens_no_spec token_ids_cpu valid_ngram_requests p;
  ds ← read_all p valid_ngram_requests (seq 0 num_requests);
  Ok (ds, p).

(** The loop of [propose] that selects the requests, from index [i] on. *)
Fixpoint select_requests (max_model_len : Z) (num_tokens_no_spec : list nat) (sampled_token_ids : list (list Z)) (i : nat) :
    result (list nat) :=
  match sampled_token_ids with
  | [] => Ok []
  | sampled_ids :: rest =>
      match sampled_ids with
      | [] => select_requests max_model_len num_tokens_no_spec rest (S i)
      | _ =>
          num_tokens ← array_get num_tokens_no_spec i;
          if decide (max_model_len ≤ Z.of_nat num_tokens) then select_requests max_model_len num_tokens_no_spec rest (S i)
          else valid ← select_requests max_model_len num_tokens_no_spec rest (S i); Ok (i :: valid)
      end
  end.

Definition propose (sampled_token_ids : list (list Z)) (num_tokens_no_spec : list nat) (token_ids_cpu : list (list Z))
    (p : NgramProposer) : result (list (list Z) * NgramProposer) :=
  valid ← select_requests (ng_max_model_len p) num_tokens_no_spec sampled_token_ids 0;
  batch_propose (length sampled_token_ids) valid num_tokens_no_spec token_ids_cpu p.

(** ** Borders

    [border v j]: the first [v] tokens are also the last [v] of the first [j], and
    fewer than [j]. *)

Section search.
Context (tokens : list Z) (mx : nat).
Implicit Types (v w i j n : nat).
Local Open Scope nat_scope.

Definition border v j : Prop := v < j ∧ ∀ x, x < v → tokens !! x = tokens !! (j - v + x).

Lemma border_0 j : 0 < j → border 0 j.
Proof. intros Hj. split; [done|lia]. Qed.
Lemma border_extend v j : border v j → tokens !! v = tokens !! j → border (S v) (S j).
Proof.
  intros [Hv Hb] E. split; [lia|]. intros x Hx. replace (S j - S v + x) with (j - v + x) by lia.
  destruct (decide (x = v)) as [->|]; [replace (j - v + v) with j by lia; done|apply Hb; lia].
Qed.
Lemma border_shrink v j : border (S v) (S j) → border v j ∧ tokens !! v = tokens !! j.
Proof.
  intros [Hv Hb]. split.
  - split; [lia|]. intros x Hx. specialize (Hb x ltac:(lia)). by replace (S j - S v + x) with (j - v + x) in Hb by lia.
  - specialize (Hb v ltac:(lia)). by replace (S j - S v + v) with j in Hb by lia.
Qed.
Lemma border_trans w v j : border v j → border w v → border w j.
Proof.
  intros [Hv Hb] [Hw Hc]. split; [lia|]. intros x Hx. rewrite Hc, Hb by lia. f_equal. lia.
Qed.
Lemma border_between w v j : border v j → border w j → w < v → border w v.
Proof.
  intros [Hv Hb] [Hw Hc] Hlt. split; [done|]. intros x Hx. rewrite (Hc x Hx), (Hb (v - w + x)) by lia. f_equal. lia.
Qed.

(** The longest border of the first [j] tokens. *)
Definition failure j v : Prop := border v j ∧ ∀ w, border w j → w ≤ v.

(** The search has compared all borders of the first [i] tokens that are longer than
    [prev_lps]; [longest_ngram] is the longest border so far, up to [mx], and its last
    occurrence ends at [position]. *)
Record search_inv (st : NgramState) : Prop := {
  sn_i : 1 ≤ ng_i st;
  sn_prev : border (prev_lps st) (ng_i st) ∧ prev_lps st < mx;
  sn_next v : border v (ng_i st) → v < mx → tokens !! v = tokens !! ng_i st → v ≤ prev_lps st;
  sn_length : length (lps st) = mx;
  sn_lps j : j < mx → j < ng_i st → ∃ v, lps st !! j = Some v ∧ failure (S j) v;
  sn_zero j : j < mx → ng_i st ≤ j → lps st !! j = Some 0;
  sn_best v j : j ≤ ng_i st → border v j → v ≤ mx → v ≤ longest_ngram st;
  sn_place : longest_ngram st = 0 ∨
    (border (longest_ngram st) (S (position st)) ∧ longest_ngram st ≤ mx ∧ S (position st) ≤ ng_i st
     ∧ ∀ j, j ≤ ng_i st → border (longest_ngram st) j → j ≤ S (position st))
}.

Lemma failure_bound j v : failure j v → v < j.
Proof. by intros [[? _] _]. Qed.

(** The state before the loop. *)
Lemma search_start : 0 < mx → search_inv (mkNgramState (replicate mx 0) 0 0 0 1).
Proof.
  intros Hm. split; simpl; try lia.
  - split; [apply border_0; lia|done].
  - intros v [Hv _]. lia.
  - by rewrite length_replicate.
  - intros j Hj Hj1. exists 0. rewrite lookup_replicate_2 by done. split; [done|]. split; [apply border_0; lia|].
    intros w [Hw _]. lia.
  - intros j Hj _. by apply lookup_replicate_2.
  - intros v j Hj [Hv _]. lia.
Qed.

(** A longest border [p] (up to [mx]) of the first [i + 1] tokens updates the best match. *)
Lemma best_update st p : let i := ng_i st in
  search_inv st → border p (S i) → p ≤ mx → (∀ w, border w (S i) → w ≤ mx → w ≤ p) → 0 < p →
  let longer := bool_decide (longest_ngram st ≤ p) in
  let l := if longer then p else longest_ngram st in let pos := if longer then i else position st in
  (∀ v j, j ≤ S i → border v j → v ≤ mx → v ≤ l)
  ∧ (l = 0 ∨ (border l (S pos) ∧ l ≤ mx ∧ S pos ≤ S i ∧ ∀ j, j ≤ S i → border l j → j ≤ S pos)).
Proof.
  intros i Hi Hb Hp Hmax H0 longer l pos.
  assert (Hl : ∀ v j, j ≤ S i → border v j → v ≤ mx → v ≤ l).
  { intros v j Hj Hv Hvm. unfold l, longer. case_bool_decide.
    - destruct (decide (j = S i)) as [->|]; [by apply Hmax|]. etrans; [apply (sn_best _ Hi v j); [unfold i in *; lia|done|done]|done].
    - destruct (decide (j = S i)) as [->|]; [pose proof (Hmax v Hv Hvm); lia|]. apply (sn_best _ Hi v j); [unfold i in *; lia|done|done]. }
  split; [exact Hl|]. right. unfold l, pos, longer in *. case_bool_decide as Hlp.
  - split_and!; [done|done|lia|]. intros j Hj _. lia.
  - destruct (sn_place _ Hi) as [?|(P1 & P2 & P3 & P4)]; [lia|]. fold i in P3, P4. split_and!; [done|done|lia|].
    intros j Hj Hbj. destruct (decide (j = S i)) as [->|]; [|apply P4; [lia|done]]. pose proof (Hmax _ Hbj P2). lia.
Qed.

(** The failure function decides the next candidate. *)
Lemma fall_back i p q : border p i → failure p q → ∀ v, border v i → v < p → v ≤ q.
Proof. intros Hp [_ Hq] v Hv Hlt. apply Hq. by eapply border_between. Qed.

Lemma step_match st x : let i := ng_i st in
  search_inv st → tokens !! prev_lps st = Some x → tokens !! i = Some x →
  ∃ st', match_token tokens mx st = Ok st' ∧ search_inv st' ∧ ng_i st' = S i ∧ prev_lps st' ≤ S (prev_lps st).
Proof.
  intros i Hi Ex Ei. pose proof Hi as [I1 [I2 I2'] I3 I4 I5 I6 I7 I8]. fold i in I1, I2, I3, I5, I6, I7, I8.
  unfold match_token, array_get. fold i. rewrite Ex, Ei. cbn. rewrite decide_True by done.
  set (p := S (prev_lps st)). set (longer := bool_decide _). assert (Hp : p ≤ mx) by (unfold p; lia).
  assert (Hb : border p (S i)) by (apply border_extend; [done|congruence]).
  assert (Hmax : ∀ w, border w (S i) → w ≤ mx → w ≤ p).
  { intros [|w] Hw Hwm; [lia|]. apply border_shrink in Hw as [Hw E]. unfold p. apply le_n_S, I3; [done|lia|done]. }
  assert (Hfail : i < mx → failure (S i) p).
  { intros Hm. split; [done|]. intros w Hw. apply Hmax; [done|]. destruct Hw as [Hw _]. lia. }
  assert (Hlps : ∃ l', (if decide (i < mx) then array_set (lps st) i p else Ok (lps st)) = Ok l' ∧ length l' = mx
    ∧ (∀ j, j < mx → j < S i → ∃ v, l' !! j = Some v ∧ failure (S j) v) ∧ ∀ j, j < mx → S i ≤ j → l' !! j = Some 0).
  { case_decide as Hm.
    - unfold array_set. rewrite decide_True by lia. eexists. split; [done|]. rewrite length_insert. split; [done|]. split.
      + intros j Hj Hji. destruct (decide (j = i)) as [->|].
        * exists p. rewrite list_lookup_insert_eq by lia. auto.
        * rewrite list_lookup_insert_ne by done. apply I5; lia.
      + intros j Hj Hji. rewrite list_lookup_insert_ne by lia. apply I6; lia.
    - eexists. split; [done|]. split; [done|]. split; intros j Hj Hji; [apply I5; lia|lia]. }
  destruct Hlps as (l' & -> & L1 & L2 & L3). cbn.
  destruct (best_update st p Hi Hb Hp Hmax ltac:(unfold p; lia)) as [B1 B2]. fold i longer in B1, B2.
  assert (Hnew : ∃ q, (if decide (p = mx) then match l' !! (mx - 1) with Some x => Ok x | None => Err IndexError end else Ok p) = Ok q
    ∧ border q (S i) ∧ q < mx ∧ q ≤ p ∧ ∀ v, border v (S i) → v < mx → v ≤ q).
  { case_decide as Hpm.
    - assert (mx ≤ i) by (destruct Hb as [Hb _]; lia). destruct (L2 (mx - 1)) as (q & -> & Hq); [lia|lia|].
      replace (S (mx - 1)) with mx in Hq by lia. rewrite Hpm in Hb. exists q. split; [done|].
      split; [eapply border_trans; [exact Hb|apply Hq]|]. pose proof (failure_bound _ _ Hq). split; [done|]. split; [lia|].
      by apply (fall_back (S i) mx).
    - exists p. split; [done|]. split; [done|]. split; [lia|]. split; [done|]. intros v Hv Hvm. apply Hmax; [done|lia]. }
  destruct Hnew as (q & -> & Q1 & Q2 & Q3 & Q4). cbn. eexists. split; [reflexivity|]. split; [|by split].
  split; cbn [ng_i lps longest_ngram position prev_lps]; try done; try lia.
  intros v Hv Hvm _. by apply Q4.
Qed.

Lemma step_mismatch st x y : let i := ng_i st in
  search_inv st → tokens !! prev_lps st = Some x → tokens !! i = Some y → x ≠ y →
  ∃ st', match_token tokens mx st = Ok st' ∧ search_inv st'
    ∧ (ng_i st' = i ∧ prev_lps st' < prev_lps st ∨ ng_i st' = S i ∧ prev_lps st' ≤ prev_lps st).
Proof.
  intros i Hi Ex Ey Hne. pose proof Hi as [I1 [I2 I2'] I3 I4 I5 I6 I7 I8]. fold i in I1, I2, I3, I5, I6, I7, I8.
  unfold match_token, array_get. fold i. rewrite Ex, Ey. cbn. rewrite decide_False by done.
  case_decide as Hp.
  - destruct (I5 (prev_lps st - 1)) as (q & -> & Hq); [lia|destruct I2; lia|]. cbn.
    replace (S (prev_lps st - 1)) with (prev_lps st) in Hq by lia. pose proof (failure_bound _ _ Hq).
    eexists. split; [reflexivity|]. split; [|left; cbn; split; [done|lia]].
    split; cbn [ng_i lps longest_ngram position prev_lps]; try done; [split; [eapply border_trans; [exact I2|apply Hq]|lia]|].
    intros v Hv Hvm E. apply (fall_back i (prev_lps st)); [done|done|done|]. fold i in E. pose proof (I3 v Hv Hvm E).
    destruct (decide (v = prev_lps st)) as [->|]; [congruence|lia].
  - assert (prev_lps st = 0) as Hz by (destruct (prev_lps st); [done|by destruct Hp]).
    assert (Hnone : ∀ v, border v (S i) → v ≤ mx → v = 0).
    { intros [|v] Hv Hvm; [done|]. apply border_shrink in Hv as [Hv E]. pose proof (I3 v Hv ltac:(lia) E).
      assert (v = prev_lps st) as -> by lia. congruence. }
    eexists. split; [reflexivity|]. split; [|right; cbn; split; [done|lia]].
    split; cbn [ng_i lps longest_ngram position prev_lps]; try done; try lia.
    + rewrite Hz. split; [apply border_0; lia|lia].
    + intros v Hv Hvm _. rewrite (Hnone v Hv); lia.
    + intros j Hj Hji. destruct (decide (j = i)) as [->|]; [|apply I5; lia]. exists 0. split; [by apply I6|].
      split; [apply border_0; lia|]. intros w Hw. rewrite (Hnone w Hw); [done|]. destruct Hw. lia.
    + intros j Hj Hji. apply I6; lia.
    + intros v j Hj Hv Hvm. destruct (decide (j = S i)) as [->|]; [rewrite (Hnone v Hv Hvm); lia|]. apply (I7 v j); [lia|done|done].
    + destruct I8 as [?|(P1 & P2 & P3 & P4)]; [by left|]. destruct (decide (longest_ngram st = 0)) as [|Hl]; [by left|]. right.
      split_and!; [done|done|lia|]. intros j Hj Hbj. destruct (decide (j = S i)) as [->|]; [|apply P4; [lia|done]].
      destruct Hl. by apply Hnone.
Qed.

(** The loop ends after at most twice as many iterations as there are tokens. *)
Lemma match_loop_ok fuel : ∀ st, search_inv st → ng_i st ≤ length tokens →
  2 * (length tokens - ng_i st) + prev_lps st ≤ fuel →
  ∃ st', match_loop fuel tokens mx st = Ok (Some st') ∧ search_inv st' ∧ ng_i st' = length tokens.
Proof.
  induction fuel as [|fuel IH]; intros st Hi Hle Hf; simpl; (case_decide as Hlt; [|exists st; split_and!; [done|done|lia]]); [lia|].
  destruct (lookup_lt_is_Some_2 tokens (ng_i st) Hlt) as [y Ey].
  destruct (lookup_lt_is_Some_2 tokens (prev_lps st)) as [x Ex].
  { destruct (sn_prev _ Hi) as [[? _] _]. lia. }
  destruct (decide (x = y)) as [<-|Hne].
  - destruct (step_match st x Hi Ex Ey) as (st' & -> & Hi' & E1 & E2). cbn. apply IH; [done|lia|lia].
  - destruct (step_mismatch st x y Hi Ex Ey Hne) as (st' & -> & Hi' & E). cbn. apply IH; [done|lia|lia].
Qed.
End search.

(** ** What is proposed *)

(** The last [n] tokens also occur at the earlier position [p]. *)
Definition earlier (toks : list Z) (n p : nat) : Prop :=
  (p + n < length toks)%nat ∧ take n (drop p toks) = drop (length toks - n) toks.

#[global] Instance earlier_dec toks n p : Decision (earlier toks n p).
Proof. unfold earlier. apply _. Defined.

Lemma earlier_lookup toks n p : (p + n < length toks)%nat →
  earlier toks n p ↔ ∀ x, (x < n)%nat → toks !! (p + x)%nat = toks !! (length toks - n + x)%nat.
Proof.
  intros Hn. unfold earlier. split.
  - intros [_ E] x Hx. rewrite <-!lookup_drop, <-E, lookup_take. by rewrite decide_True.
  - intros Hx. split; [done|]. apply list_eq. intros x. rewrite lookup_take, !lookup_drop. case_decide; [by apply Hx|].
    symmetry. apply lookup_ge_None. lia.
Qed.

Lemma lookup_reverse_at (toks : list Z) x : (x < length toks)%nat → reverse toks !! x = toks !! (length toks - 1 - x)%nat.
Proof.
  intros Hx. rewrite reverse_lookup by done. f_equal. lia.
Qed.

(** Borders of the reversed tokens are earlier occurrences of the last tokens. *)
Lemma border_earlier toks n j : (j ≤ length toks)%nat → border (reverse toks) n j ↔ (n < j)%nat ∧ earlier toks n (length toks - j).
Proof.
  intros Hj. unfold border. split.
  - intros [Hn Hb]. split; [done|]. apply earlier_lookup; [lia|]. intros x Hx.
    specialize (Hb (n - 1 - x)%nat ltac:(lia)). rewrite !lookup_reverse_at in Hb by lia.
    replace (length toks - 1 - (n - 1 - x))%nat with (length toks - n + x)%nat in Hb by lia.
    by replace (length toks - 1 - (j - n + (n - 1 - x)))%nat with (length toks - j + x)%nat in Hb by lia.
  - intros [Hn He]. split; [done|]. intros x Hx. rewrite !lookup_reverse_at by lia.
    pose proof (proj1 (earlier_lookup toks n (length toks - j) ltac:(lia)) He (n - 1 - x)%nat ltac:(lia)) as E.
    replace (length toks - n + (n - 1 - x))%nat with (length toks - 1 - x)%nat in E by lia.
    by replace (length toks - j + (n - 1 - x))%nat with (length toks - 1 - (j - n + x))%nat in E by lia.
Qed.

(** What the search should give: the tokens after the first occurrence of the longest
    n-gram, at most [room] of them; nothing when there is no room or no match. *)
Inductive draft_spec (toks : list Z) (mn mx : nat) (room : Z) : list Z → Prop :=
  | no_room : room ≤ 0 → draft_spec toks mn mx room []
  | no_match : (∀ n p, (mn ≤ n ≤ mx)%nat → ¬ earlier toks n p) → draft_spec toks mn mx room []
  | matched n p : 0 < room → (mn ≤ n ≤ mx)%nat → earlier toks n p →
      (∀ n' p', (mn ≤ n' ≤ mx)%nat → earlier toks n' p' → (n' ≤ n)%nat) →
      (∀ p', earlier toks n p' → (p ≤ p')%nat) →
      draft_spec toks mn mx room (take (Z.to_nat room) (drop (p + n) toks)).

Lemma find_ok toks mn mx len k : (0 < mn ≤ mx)%nat →
  ∃ drafts, _find_longest_matched_ngram_and_propose_tokens (ngram_fuel toks) toks mn mx len k = Ok (Some drafts)
    ∧ draft_spec toks mn mx (Z.min k (len - zlen toks)) drafts.
Proof.
  intros Hm. unfold _find_longest_matched_ngram_and_propose_tokens. set (room := Z.min k (len - zlen toks)).
  case_decide as Ht.
  { exists []. split; [done|]. apply no_match. intros n p Hn [He _]. unfold zlen in Ht. lia. }
  case_decide as Hr; [exists []; split; [done|by apply no_room]|].
  assert (HT : (1 ≤ length toks)%nat) by (unfold zlen in Ht; lia). set (T := length toks) in *.
  destruct (match_loop_ok (reverse toks) mx (ngram_fuel toks) (mkNgramState (replicate mx 0%nat) 0 0 0 1))
    as (st & E & Hi & Ei); [apply search_start; lia|rewrite length_reverse; simpl; lia|rewrite length_reverse; simpl; unfold ngram_fuel; fold T; lia|].
  rewrite E. cbn. rewrite length_reverse in Ei. fold T in Ei. destruct Hi as [_ _ _ _ _ _ I7 I8]. rewrite Ei in I7, I8.
  assert (Hbest : ∀ n p, (mn ≤ n ≤ mx)%nat → earlier toks n p → (n ≤ longest_ngram st)%nat).
  { intros n p Hn He. pose proof He as [Hlt _]. fold T in Hlt. apply (I7 n (T - p)%nat); [lia| |lia].
    apply border_earlier; [fold T; lia|]. fold T. split; [lia|]. by replace (T - (T - p))%nat with p by lia. }
  case_decide as Hl.
  { exists []. split; [done|]. apply no_match. intros n p Hn He. pose proof (Hbest n p Hn He). lia. }
  destruct I8 as [?|(P1 & P2 & P3 & P4)]; [lia|]. set (n := longest_ngram st) in *. set (j := S (position st)) in *.
  apply border_earlier in P1 as [Hnj He]; [|done]. fold T in He.
  eexists. split; [reflexivity|]. set (start := zlen toks - 1 - Z.of_nat (position st) + Z.of_nat n).
  assert (Hstart : start = Z.of_nat (T - j + n)) by (unfold start, zlen; fold T; unfold j in *; lia).
  pose proof He as [Hlt _]. fold T in Hlt.
  assert (py_slice toks start (start + Z.min room (zlen toks - start)) = take (Z.to_nat room) (drop (T - j + n) toks)) as ->.
  { rewrite py_slice_pos by (rewrite Hstart; unfold zlen; fold T; lia). rewrite Hstart, Nat2Z.id.
    replace (Z.to_nat (Z.of_nat (T - j + n) + Z.min room (zlen toks - Z.of_nat (T - j + n)) - Z.of_nat (T - j + n)))
      with (Nat.min (Z.to_nat room) (T - (T - j + n))) by (unfold zlen; fold T; lia).
    destruct (Nat.min_spec (Z.to_nat room) (T - (T - j + n))) as [[_ ->]|[Hle ->]]; [done|].
    rewrite !take_ge; [done|rewrite length_drop; fold T; lia|rewrite length_drop; fold T; lia]. }
  apply matched; [lia|lia|done|done|]. intros p' He'. pose proof He' as [Hlt' _]. fold T in Hlt'.
  assert (T - p' ≤ j)%nat; [|lia]. apply P4; [lia|]. apply border_earlier; [fold T; lia|]. fold T.
  split; [lia|]. by replace (T - (T - p'))%nat with p' by lia.
Qed.

Lemma draft_length toks mn mx room d : draft_spec toks mn mx room d → Z.of_nat (length d) ≤ Z.max 0 room.
Proof. intros []; simpl; [lia|lia|]. rewrite length_take. lia. Qed.

(** ** The buffers *)

Definition parameters (p : NgramProposer) := (min_n p, max_n p, ng_k p, ng_max_model_len p).

(** One row per sequence, with a column for each draft token. *)
Record buffers_ok (rows : nat) (p : NgramProposer) : Prop := {
  bu_ngram : (0 < min_n p ≤ max_n p)%nat;
  bu_drafts : length (valid_ngram_draft p) = rows;
  bu_columns i row : valid_ngram_draft p !! i = Some row → length row = Z.to_nat (ng_k p);
  bu_counts : length (valid_ngram_num_drafts p) = rows
}.

(** Row [i] of the buffers holds [d]. *)
Definition holds_drafts (p : NgramProposer) (i : nat) (d : list Z) : Prop :=
  valid_ngram_num_drafts p !! i = Some (length d) ∧
  ∃ row, valid_ngram_draft p !! i = Some row ∧ take (length d) row = d.

Definition same_row (i : nat) (p p' : NgramProposer) : Prop :=
  valid_ngram_num_drafts p' !! i = valid_ngram_num_drafts p !! i ∧ valid_ngram_draft p' !! i = valid_ngram_draft p !! i.

(** What is expected for a request with the tokens [toks]. *)
Definition wanted (p : NgramProposer) (toks d : list Z) : Prop :=
  draft_spec toks (min_n p) (max_n p) (Z.min (ng_k p) (ng_max_model_len p - zlen toks)) d.

Lemma wanted_parameters p p' toks d : parameters p' = parameters p → wanted p' toks d → wanted p toks d.
Proof. intros [= E1 E2 E3 E4]. unfold wanted. by rewrite E1, E2, E3, E4. Qed.

Lemma propose_row_ok rows nums cpu idx n row p :
  buffers_ok rows p → (idx < rows)%nat → nums !! idx = Some n → cpu !! idx = Some row →
  ∃ p' d, propose_row nums cpu idx p = Ok p' ∧ buffers_ok rows p' ∧ parameters p' = parameters p
    ∧ wanted p (take n row) d ∧ holds_drafts p' idx d ∧ ∀ j, j ≠ idx → same_row j p p'.
Proof.
  intros [B1 B2 B3 B4] Hidx En Er. unfold propose_row, array_get. rewrite En, Er. cbn.
  destruct (find_ok (take n row) (min_n p) (max_n p) (ng_max_model_len p) (ng_k p) B1) as (d & -> & Hd). cbn.
  unfold array_set. rewrite decide_True by lia. cbn.
  destruct (lookup_lt_is_Some_2 (valid_ngram_draft p) idx) as [old Eo]; [lia|]. pose proof (B3 _ _ Eo) as Hold.
  pose proof (draft_length _ _ _ _ _ Hd) as Hlen.
  destruct (decide (d = [])) as [->|Hne].
  - eexists _, []. split; [done|].
    split; [split; simpl; rewrite ?length_insert; done|]. split; [done|]. split; [done|]. split.
    + split; simpl; [by rewrite list_lookup_insert_eq by lia|]. by exists old.
    + intros j Hj. split; simpl; [by rewrite list_lookup_insert_ne|done].
  - assert (length d ≤ length old)%nat as Hle by lia.
    exists (set_drafts (<[idx:=d ++ drop (length d) old]> (valid_ngram_draft p))
      (<[idx:=length d]> (valid_ngram_num_drafts p)) p), d.
    split; [destruct d; [done|]; rewrite Eo; cbn -[decide]; by rewrite decide_True|].
    split; [|split; [done|split; [done|split]]].
    + split; simpl; rewrite ?length_insert; try done. intros j r. destruct (decide (j = idx)) as [->|Hj].
      * rewrite list_lookup_insert_eq by lia. intros [= <-]. rewrite length_app, length_drop. lia.
      * rewrite list_lookup_insert_ne by done. apply B3.
    + split; simpl; [by rewrite list_lookup_insert_eq by lia|]. eexists. rewrite list_lookup_insert_eq by lia.
      split; [done|]. by rewrite take_app_length.
    + intros j Hj. split; simpl; by rewrite list_lookup_insert_ne.
Qed.

Lemma batch_ok rows nums cpu valid : ∀ p, buffers_ok rows p → NoDup valid →
  (∀ i, i ∈ valid → (i < rows)%nat ∧ is_Some (nums !! i) ∧ is_Some (cpu !! i)) →
  ∃ p', batch_propose_numba nums cpu valid p = Ok p' ∧ buffers_ok rows p' ∧ parameters p' = parameters p
    ∧ (∀ i n row, i ∈ valid → nums !! i = Some n → cpu !! i = Some row → ∃ d, wanted p (take n row) d ∧ holds_drafts p' i d)
    ∧ ∀ j, j ∉ valid → same_row j p p'.
Proof.
  induction valid as [|idx valid IH]; intros p Hp Hnd Hin.
  { exists p. split_and!; try done. intros i n row Hi. by apply not_elem_of_nil in Hi. }
  apply NoDup_cons in Hnd as [Hni Hnd]. destruct (Hin idx) as (Hlt & [n En] & [row Er]); [left|].
  destruct (propose_row_ok rows nums cpu idx n row p Hp Hlt En Er) as (p1 & d & E1 & Hp1 & Hpar & Hd & Hh & Hs).
  destruct (IH p1 Hp1 Hnd) as (p2 & E2 & Hp2 & Hpar2 & Hw & Hs2); [intros i Hi; apply Hin; by right|].
  exists p2. cbn. rewrite E1. cbn. split; [done|]. split; [done|]. split; [congruence|]. split.
  - intros i n' row' [->|Hi]%elem_of_cons En' Er'.
    + assert (n' = n) as -> by congruence. assert (row' = row) as -> by congruence. exists d. split; [done|].
      destruct (Hs2 idx Hni) as [S1 S2]. unfold holds_drafts. by rewrite S1, S2.
    + destruct (Hw i n' row' Hi En' Er') as (d' & Hd' & Hh'). exists d'. split; [by eapply wanted_parameters|done].
  - intros j [Hj Hjv]%not_elem_of_cons. destruct (Hs j Hj) as [S1 S2], (Hs2 j Hjv) as [S3 S4]. split; congruence.
Qed.

(** The requests for which drafts are sought. *)
Definition eligible (len : Z) (nums : list nat) (sampled : list (list Z)) (i : nat) : Prop :=
  ∃ s n, sampled !! i = Some s ∧ s ≠ [] ∧ nums !! i = Some n ∧ Z.of_nat n < len.

Lemma select_requests_ok len nums sampled : ∀ i, (i + length sampled ≤ length nums)%nat →
  ∃ valid, select_requests len nums sampled i = Ok valid ∧ NoDup valid
    ∧ ∀ j, j ∈ valid ↔ (i ≤ j)%nat ∧ ∃ s n, sampled !! (j - i)%nat = Some s ∧ s ≠ [] ∧ nums !! j = Some n ∧ Z.of_nat n < len.
Proof.
  induction sampled as [|s sampled IH]; intros i Hlen; simpl in *.
  { exists []. split; [done|]. split; [constructor|]. intros j. split; [by intros ?%not_elem_of_nil|]. by intros (_ & ? & ? & ? & _). }
  destruct (IH (S i) ltac:(lia)) as (valid & E & Hnd & Hv).
  assert (Hrest : ∀ j, j ∈ valid ↔ (i < j)%nat ∧ ∃ s' n, (s :: sampled) !! (j - i)%nat = Some s' ∧ s' ≠ [] ∧ nums !! j = Some n ∧ Z.of_nat n < len).
  { intros j. rewrite Hv. split.
    - intros [Hj (s' & n & Es & Q)]. split; [lia|]. exists s', n. by replace (j - i)%nat with (S (j - S i)) by lia.
    - intros [Hj (s' & n & Es & Q)]. split; [lia|]. exists s', n. by replace (j - i)%nat with (S (j - S i)) in Es by lia. }
  assert (Hskip : (s = [] ∨ ∃ n, nums !! i = Some n ∧ len ≤ Z.of_nat n) → ∀ j, j ∈ valid ↔ (i ≤ j)%nat ∧
    ∃ s' n, (s :: sampled) !! (j - i)%nat = Some s' ∧ s' ≠ [] ∧ nums !! j = Some n ∧ Z.of_nat n < len).
  { intros Hs j. rewrite Hrest. split; [intros [? ?]; split; [lia|done]|]. intros [Hj (s' & n & Es & Hne & En & Hn)].
    destruct (decide (j = i)) as [->|]; [|split; [lia|by exists s', n]]. rewrite Nat.sub_diag in Es. simpl in Es.
    injection Es as <-. destruct Hs as [?|(n' & En' & Hn')]; [done|]. assert (n' = n) as -> by congruence. lia. }
  destruct s as [|x s].
  { exists valid. split; [done|]. split; [done|]. apply Hskip. by left. }
  destruct (lookup_lt_is_Some_2 nums i) as [n En]; [lia|]. unfold array_get. rewrite En. cbn. case_decide as Hn.
  { exists valid. split; [done|]. split; [done|]. apply Hskip. right. by exists n. }
  rewrite E. cbn. exists (i :: valid). split; [done|]. split.
  - apply NoDup_cons. split; [|done]. intros [? _]%Hv. lia.
  - intros j. rewrite elem_of_cons, Hrest. split.
    + intros [->|[Hj Hx]]; [|split; [lia|done]]. split; [lia|]. exists (x :: s), n. rewrite Nat.sub_diag. split_and!; [done|done|done|lia].
    + intros [Hj Hx]. destruct (decide (j = i)); [by left|]. right. split; [lia|done].
Qed.

Lemma read_all_ok rows p valid l : buffers_ok rows p → (∀ i, i ∈ valid → (i < rows)%nat) →
  ∃ ds, read_all p valid l = Ok ds ∧ length ds = length l
    ∧ ∀ x i, l !! x = Some i → ∃ d, ds !! x = Some d ∧ (i ∉ valid → d = []) ∧ (∀ d', i ∈ valid → holds_drafts p i d' → d = d').
Proof.
  intros Hp Hv. induction l as [|i l (ds & E & Hlen & Hds)]; [by exists []|].
  assert (Hrow : ∃ d, read_drafts p valid i = Ok d ∧ (i ∉ valid → d = []) ∧ ∀ d', i ∈ valid → holds_drafts p i d' → d = d').
  { unfold read_drafts. case_decide as Hi; [|by exists []]. specialize (Hv i Hi).
    destruct (lookup_lt_is_Some_2 (valid_ngram_num_drafts p) i) as [n En]; [rewrite (bu_counts _ _ Hp); done|].
    destruct (lookup_lt_is_Some_2 (valid_ngram_draft p) i) as [row Er]; [rewrite (bu_drafts _ _ Hp); done|].
    unfold array_get. rewrite En, Er. cbn. case_decide as Hn.
    - exists (take n row). split; [done|]. split; [done|]. intros d' _ (E1 & row' & E2 & E3). simplify_eq. done.
    - exists []. split; [done|]. split; [done|]. intros d' _ (E1 & _). destruct d'; [done|]. simplify_eq/=. lia. }
  destruct Hrow as (d & Ed & Hd1 & Hd2). exists (d :: ds). cbn. rewrite Ed. cbn. rewrite E. cbn.
  split; [done|]. split; [simpl; lia|]. intros [|x] j Hx; simpl in Hx; [|by apply Hds]. injection Hx as <-. by exists d.
Qed.

(** ** Theorems *)

(** C32. The n-gram search finds what its documentation says. For n-gram lengths
    [0 < min_ngram ≤ max_ngram], it ends within twice as many iterations as there are
    tokens and reads and writes its arrays in range only; it returns nothing when the
    model has no room left or no n-gram of an allowed length that ends the tokens occurs
    earlier; and otherwise it returns the tokens that follow the first occurrence of the
    longest such n-gram, at least one and at most as many as asked for and as the
    model's length allows. *)
Theorem ngram_longest_match tokens min_ngram max_ngram max_model_len k :
  (0 < min_ngram ≤ max_ngram)%nat →
  ∃ drafts, _find_longest_matched_ngram_and_propose_tokens (2 * length tokens) tokens min_ngram max_ngram max_model_len k
      = Ok (Some drafts)
    ∧ let room := Z.min k (max_model_len - zlen tokens) in
      (drafts = [] ↔ room ≤ 0 ∨ ∀ n p, (min_ngram ≤ n ≤ max_ngram)%nat → ¬ earlier tokens n p)
      ∧ (drafts ≠ [] → ∃ n p, (min_ngram ≤ n ≤ max_ngram)%nat ∧ earlier tokens n p
           ∧ (∀ n' p', (min_ngram ≤ n' ≤ max_ngram)%nat → earlier tokens n' p' → (n' ≤ n)%nat)
           ∧ (∀ p', earlier tokens n p' → (p ≤ p')%nat)
           ∧ drafts = take (Z.to_nat room) (drop (p + n) tokens)).
Proof.
  intros Hm. destruct (find_ok tokens min_ngram max_ngram max_model_len k Hm) as (d & E & Hd).
  exists d. split; [exact E|]. intros room. fold room in Hd. destruct Hd as [Hr|Hn|n p Hr Hn He Hmax Hmin].
  - split; [|done]. split; [by left|done].
  - split; [|done]. split; [by right|done].
  - pose proof He as [Hlt _]. split; [|intros _; by exists n, p]. split.
    + intros Hnil%(f_equal length). rewrite length_take, length_drop in Hnil. simpl in Hnil. lia.
    + intros [?|Hno]; [lia|]. by destruct (Hno n p Hn).
Qed.

(** C33. Proposing for a batch. With one row of the buffers per sequence, [propose]
    returns one list of drafts per request: nothing for a request that sampled no token
    or has reached the model's length, and otherwise the drafts of its own tokens,
    whatever the buffers held from earlier batches; the buffers stay usable for the next
    batch. *)
Theorem propose_reads_fresh_rows rows sampled_token_ids num_tokens_no_spec token_ids_cpu p :
  buffers_ok rows p → (length sampled_token_ids ≤ rows)%nat →
  (length sampled_token_ids ≤ length num_tokens_no_spec)%nat → (length sampled_token_ids ≤ length token_ids_cpu)%nat →
  ∃ ds p', propose sampled_token_ids num_tokens_no_spec token_ids_cpu p = Ok (ds, p')
    ∧ buffers_ok rows p' ∧ parameters p' = parameters p ∧ length ds = length sampled_token_ids
    ∧ ∀ i sampled n row, sampled_token_ids !! i = Some sampled → num_tokens_no_spec !! i = Some n → token_ids_cpu !! i = Some row →
        ∃ d, ds !! i = Some d
          ∧ (if decide (sampled = [] ∨ ng_max_model_len p ≤ Z.of_nat n) then d = []
             else draft_spec (take n row) (min_n p) (max_n p) (Z.min (ng_k p) (ng_max_model_len p - zlen (take n row))) d).
Proof.
  intros Hp Hrows Hnum Hcpu. unfold propose.
  destruct (select_requests_ok (ng_max_model_len p) num_tokens_no_spec sampled_token_ids 0 Hnum) as (valid & -> & Hnd & Hv).
  assert (Hin : ∀ i, i ∈ valid → (i < length sampled_token_ids)%nat).
  { intros i [_ (s & n & Es & _)]%Hv. rewrite Nat.sub_0_r in Es. by eapply lookup_lt_Some. }
  destruct (batch_ok rows num_tokens_no_spec token_ids_cpu valid p Hp Hnd) as (p' & E & Hp' & Hpar & Hw & _).
  { intros i Hi%Hin. split_and!; [lia|apply lookup_lt_is_Some; lia|apply lookup_lt_is_Some; lia]. }
  destruct (read_all_ok rows p' valid (seq 0 (length sampled_token_ids)) Hp') as (ds & E' & Hlen & Hds); [intros i Hi%Hin; lia|].
  exists ds, p'. unfold batch_propose. cbn. rewrite E. cbn. rewrite E'. rewrite length_seq in Hlen. split_and!; try done.
  intros i s n row Es En Er. pose proof (lookup_lt_Some _ _ _ Es) as Hi.
  destruct (Hds i i) as (d & Ed & Hd1 & Hd2); [by apply lookup_seq_lt|]. exists d. split; [done|]. case_decide as Hc.
  - apply Hd1. intros [_ (s' & n' & Es' & Hne & En' & Hn')]%Hv. rewrite Nat.sub_0_r in Es'. simplify_eq.
    destruct Hc as [?|?]; [done|lia].
  - assert (Hiv : i ∈ valid).
    { apply Hv. split; [lia|]. exists s, n. rewrite Nat.sub_0_r. split_and!; [done|tauto|done|]. apply Z.nle_gt. tauto. }
    destruct (Hw i n row Hiv En Er) as (d' & Hd' & Hh). by rewrite (Hd2 d' Hiv Hh).
Qed.

(** ** Witnesses *)

Example ngram_drafts :
  _find_longest_matched_ngram_and_propose_tokens 18 [1;2;3;9;2;3;8;2;3] 1 3 100 2 = Ok (Some [9;2]).
Proof. reflexivity. Qed.

Lemma ngram_longest_match_witness : ∃ drafts,
  _find_longest_matched_ngram_and_propose_tokens 18 [1;2;3;9;2;3;8;2;3] 1 3 100 2 = Ok (Some drafts) ∧ drafts ≠ [].
Proof.
  destruct (ngram_longest_match [1;2;3;9;2;3;8;2;3] 1 3 100 2) as (d & E & [Hnil _] & _); [lia|]. exists d. split; [exact E|]. clear E.
  intros Hd. destruct (Hnil Hd) as [Hr|Hno]; [by vm_compute in Hr|].
  apply (Hno 2%nat 1%nat); [lia|]. split; [simpl; lia|reflexivity].
Defined.

Lemma propose_reads_fresh_rows_witness : ∃ ds p',
  propose [[3]; []; [5]] [9; 4; 3]%nat [[1;2;3;9;2;3;8;2;3]; [1;1;1;1]; [4;5;5]] (new_ngram_proposer 1 3 2 100 4) = Ok (ds, p')
  ∧ ds = [[9;2]; []; [5]].
Proof.
  destruct (propose_reads_fresh_rows 4 [[3]; []; [5]] [9; 4; 3]%nat [[1;2;3;9;2;3;8;2;3]; [1;1;1;1]; [4;5;5]]
    (new_ngram_proposer 1 3 2 100 4)) as (ds & p' & E & _); [|simpl; lia|simpl; lia|simpl; lia|].
  - split; simpl; [lia|done| |done].
    intros [|[|[|[|i]]]] row Hr; simpl in Hr; simplify_eq; done.
  - exists ds, p'. split; [exact E|]. vm_compute in E. by injection E as <- _.
Defined.
