(* ===== verification/OffloadPolicy.v ===== *)
(** * Replacement policies of the CPU offloading cache

    [v1/kv_offload/cpu/policies]: which blocks of KV data are kept in CPU memory. Both
    policies, LRU and ARC, implement the class [CachePolicy]; what the offloading manager
    relies on is stated once, as [PolicyLaws], and proved of both. *)

From Stdlib Require Import ZArith Lia QArith.
From S2P Require Import Prelude.
Local Open Scope Z_scope.

(** ** Blocks *)

(** Assignment to a signed C field of the given width. *)
Definition wrap (bits n : Z) : Z := (n + 2 ^ (bits - 1)) mod 2 ^ bits - 2 ^ (bits - 1).

Lemma wrap_small bits n : 0 < bits → - 2 ^ (bits - 1) ≤ n < 2 ^ (bits - 1) → wrap bits n = n.
Proof.
  intros Hb Hn. unfold wrap. assert (2 ^ bits = 2 * 2 ^ (bits - 1)) as E by (rewrite <-Z.pow_succ_r by lia; f_equal; lia).
  rewrite Z.mod_small by lia. lia.
Qed.

(** A [ctypes] structure of an [int32] and an [int64]; the reference count is [-1] while
    the block is being written. *)
Record BlockStatus := mkBlockStatus { ref_cnt : Z; block_id : Z }.
Definition new_block_status (block_id : Z) : BlockStatus := mkBlockStatus (-1) (wrap 64 block_id).
Definition set_ref_cnt (n : Z) (b : BlockStatus) : BlockStatus := mkBlockStatus (wrap 32 n) (block_id b).
Definition is_ready (b : BlockStatus) : bool := 0 <=? ref_cnt b.

(** ** The interface *)

(** [pol_update] is an assignment to fields of the block object stored for a key. *)
Class CachePolicy (P : Type) := {
  pol_new : Z → P;
  pol_get : bytes → P → option BlockStatus;
  pol_insert : bytes → BlockStatus → P → P;
  pol_remove : bytes → P → result P;
  pol_touch : list bytes → P → P;
  pol_evict : Z → list bytes → P → result (option (list (bytes * BlockStatus)) * P);
  pol_clear : P → P;
  pol_update : bytes → (BlockStatus → BlockStatus) → P → P
}.

(** What a policy promises: [items] are the cached blocks. Eviction is all or nothing,
    and takes blocks that are not in use and not protected. *)
Class PolicyLaws (P : Type) `{CachePolicy P} := {
  pol_ok : Z → P → Prop;
  items : P → list (bytes * BlockStatus);
  pl_new n : 0 ≤ n → pol_ok n (pol_new n) ∧ items (pol_new n) = [];
  pl_nodup n p : pol_ok n p → NoDup (items p).*1;
  pl_get n p k b : pol_ok n p → pol_get k p = Some b ↔ (k, b) ∈ items p;
  pl_insert n p k b : pol_ok n p → pol_get k p = None →
    pol_ok n (pol_insert k b p) ∧ items (pol_insert k b p) ≡ₚ (k, b) :: items p;
  pl_remove n p k b : pol_ok n p → pol_get k p = Some b →
    ∃ p', pol_remove k p = Ok p' ∧ pol_ok n p' ∧ items p ≡ₚ (k, b) :: items p';
  pl_touch n p ks : pol_ok n p → pol_ok n (pol_touch ks p) ∧ items (pol_touch ks p) ≡ₚ items p;
  pl_evict n p m prot : pol_ok n p → 0 < m →
    ∃ res p', pol_evict m prot p = Ok (res, p') ∧ pol_ok n p'
      ∧ match res with
        | None => p' = p
        | Some l => zlen l = m ∧ items p ≡ₚ l ++ items p'
            ∧ ∀ k b, (k, b) ∈ l → ref_cnt b = 0 ∧ k ∉ prot
        end;
  pl_clear n p : pol_ok n p → pol_ok n (pol_clear p) ∧ items (pol_clear p) = [];
  pl_update n p k b f : pol_ok n p → pol_get k p = Some b →
    pol_ok n (pol_update k f p) ∧ ∃ rest, items p ≡ₚ (k, b) :: rest ∧ items (pol_update k f p) ≡ₚ (k, f b) :: rest
}.

(** ** Ordered dictionaries *)

(** [d.move_to_end(k)] *)
Definition move_to_end {V} (d : list (bytes * V)) (k : bytes) : list (bytes * V) :=
  match dict_get d k with Some v => dict_del d k ++ [(k, v)] | None => d end.

Lemma del_perm {V} (d : list (bytes * V)) k v : dict_get d k = Some v → d ≡ₚ (k, v) :: dict_del d k.
Proof. intros (d1 & d2 & -> & ->)%dict_get_split. symmetry. apply Permutation_middle. Qed.
Lemma move_perm {V} (d : list (bytes * V)) k : move_to_end d k ≡ₚ d.
Proof.
  unfold move_to_end. destruct (dict_get d k) as [v|] eqn:E; [|done]. rewrite (Permutation_app_comm _ [(k, v)]).
  symmetry. by apply del_perm.
Qed.
Lemma keys_perm {V} (d d' : list (bytes * V)) : d ≡ₚ d' → NoDup d.*1 → NoDup d'.*1.
Proof. by intros ->. Qed.
Lemma get_in {V} (d : list (bytes * V)) k v : NoDup d.*1 → dict_get d k = Some v ↔ (k, v) ∈ d.
Proof. split; [apply dict_get_in|by apply dict_in_get]. Qed.
Lemma set_present {V} (d : list (bytes * V)) k v v' : dict_get d k = Some v →
  ∃ rest, d ≡ₚ (k, v) :: rest ∧ dict_set d k v' ≡ₚ (k, v') :: rest.
Proof.
  induction d as [|[k1 v1] d IH]; simpl; [done|]. case_decide as Hk.
  - intros [= ->]. subst. by exists d.
  - intros (rest & H1 & H2)%IH. exists ((k1, v1) :: rest).
    split; [rewrite H1|rewrite H2]; apply Permutation_swap.
Qed.

(** Deleting a list of entries. *)
Lemma del_all {V} (l : list (bytes * V)) : ∀ d, NoDup d.*1 → NoDup l.*1 → (∀ x, x ∈ l → x ∈ d) →
  d ≡ₚ l ++ foldl dict_del d l.*1.
Proof.
  induction l as [|[k v] l IH]; intros d Hd Hl Hin; [done|]. csimpl in Hl. apply NoDup_cons in Hl as [Hni Hl]. csimpl.
  assert (Hg : dict_get d k = Some v) by (apply get_in; [done|apply Hin; left]). pose proof (del_perm d k v Hg) as Hp.
  etrans; [exact Hp|]. apply perm_skip. apply IH; [|done|].
  - apply (keys_perm _ _ Hp) in Hd. csimpl in Hd. by apply NoDup_cons in Hd as [_ ?].
  - intros [k' v'] Hx. pose proof (Hin (k', v') (list_elem_of_further _ _ _ Hx)) as Hd'. rewrite Hp in Hd'.
    apply elem_of_cons in Hd' as [[= -> ->]|?]; [|done]. destruct Hni. apply list_elem_of_fmap. by exists (k, v).
Qed.

(** ** LRU *)

Record LRUCachePolicy := mkLRU { lru_blocks : list (bytes * BlockStatus) }.

Definition lru_touch (keys : list bytes) (p : LRUCachePolicy) : LRUCachePolicy :=
  foldl (λ p key, mkLRU (move_to_end (lru_blocks p) key)) p (reverse keys).

Definition evictable (protected selected : list bytes) (x : bytes * BlockStatus) : bool :=
  bool_decide (ref_cnt x.2 = 0) && bool_decide (x.1 ∉ protected) && bool_decide (x.1 ∉ selected).

(** The loop over [self.blocks.items()], which stops at [n] candidates. *)
Fixpoint lru_candidates (n : Z) (protected : list bytes) (candidates blocks : list (bytes * BlockStatus)) :
    list (bytes * BlockStatus) :=
  match blocks with
  | [] => candidates
  | x :: blocks =>
      if evictable protected [] x then
        if zlen (candidates ++ [x]) =? n then candidates ++ [x] else lru_candidates n protected (candidates ++ [x]) blocks
      else lru_candidates n protected candidates blocks
  end.

Definition lru_evict (n : Z) (protected : list bytes) (p : LRUCachePolicy) :
    result (option (list (bytes * BlockStatus)) * LRUCachePolicy) :=
  if n =? 0 then Ok (Some [], p)
  else
    let candidates := lru_candidates n protected [] (lru_blocks p) in
    if zlen candidates <? n then Ok (None, p)
    else Ok (Some candidates, mkLRU (foldl dict_del (lru_blocks p) candidates.*1)).

#[global] Instance LRU_policy : CachePolicy LRUCachePolicy := {
  pol_new _ := mkLRU [];
  pol_get key p := dict_get (lru_blocks p) key;
  pol_insert key block p := mkLRU (dict_set (lru_blocks p) key block);
  pol_remove key p := match dict_get (lru_blocks p) key with
                      | Some _ => Ok (mkLRU (dict_del (lru_blocks p) key))
                      | None => Err KeyError
                      end;
  pol_touch := lru_touch;
  pol_evict := lru_evict;
  pol_clear p := mkLRU [];
  pol_update key f p := match dict_get (lru_blocks p) key with
                        | Some b => mkLRU (dict_set (lru_blocks p) key (f b))
                        | None => p
                        end
}.

Lemma lru_candidates_spec n prot blocks : ∀ acc, zlen acc < n →
  ∃ l, lru_candidates n prot acc blocks = acc ++ l ∧ l `sublist_of` blocks ∧ zlen (acc ++ l) ≤ n
    ∧ ∀ x, x ∈ l → evictable prot [] x = true.
Proof.
  induction blocks as [|x blocks IH]; intros acc Hn; simpl.
  { exists []. rewrite app_nil_r. split_and!; [done|done|lia|]. by intros x ?%not_elem_of_nil. }
  destruct (evictable prot [] x) eqn:Ex.
  - destruct (Z.eqb_spec (zlen (acc ++ [x])) n) as [E|E].
    + exists [x]. split_and!; [done|apply sublist_skip, sublist_nil_l|lia|]. by intros y ->%list_elem_of_singleton.
    + destruct (IH (acc ++ [x])) as (l & -> & Hs & Hl & Hx); [rewrite zlen_app in *; unfold zlen in *; simpl in *; lia|].
      exists (x :: l). rewrite <-(assoc_L (++)) in *. split_and!; [done|by apply sublist_skip|done|].
      intros y [->|Hy]%elem_of_cons; [done|by apply Hx].
  - destruct (IH acc Hn) as (l & -> & Hs & Hl & Hx). exists l. split_and!; [done|by apply sublist_cons|done|done].
Qed.

Lemma evictable_spec prot sel k b : evictable prot sel (k, b) = true → ref_cnt b = 0 ∧ k ∉ prot ∧ k ∉ sel.
Proof. unfold evictable. rewrite !andb_true_iff, !bool_decide_eq_true. simpl. tauto. Qed.

Lemma lru_touch_perm ks p : lru_blocks (lru_touch ks p) ≡ₚ lru_blocks p.
Proof.
  unfold lru_touch. generalize (reverse ks). clear ks. intros ks. revert p.
  induction ks as [|k ks IH]; intros p; simpl; [done|]. rewrite IH. apply move_perm.
Qed.

#[global] Program Instance LRU_laws : PolicyLaws LRUCachePolicy := {
  pol_ok _ p := NoDup (lru_blocks p).*1;
  items := lru_blocks
}.
Next Obligation. intros n _. split; [constructor|done]. Qed.
Next Obligation. done. Qed.
Next Obligation. intros n p k b Hp. by apply get_in. Qed.
Next Obligation.
  intros n p k b Hp Hg. cbn in *. apply dict_get_None in Hg.
  assert (dict_set (lru_blocks p) k b ≡ₚ (k, b) :: lru_blocks p) as E.
  { rewrite dict_set_new by done. apply (Permutation_app_comm _ [(k, b)]). }
  split; [|done]. symmetry in E. apply (keys_perm _ _ E). csimpl. by apply NoDup_cons.
Qed.
Next Obligation.
  intros n p k b Hp Hg. cbn in *. rewrite Hg. eexists. split; [done|]. pose proof (del_perm _ _ _ Hg) as E. split; [|done].
  apply (keys_perm _ _ E) in Hp. csimpl in Hp. by apply NoDup_cons in Hp as [_ ?].
Qed.
Next Obligation.
  intros n p ks Hp. split; [|apply lru_touch_perm]. cbn. eapply keys_perm; [symmetry; apply lru_touch_perm|done].
Qed.
Next Obligation.
  intros n p m prot Hp Hm. cbn in *. unfold lru_evict. destruct (Z.eqb_spec m 0) as [?|_]; [lia|].
  destruct (lru_candidates_spec m prot (lru_blocks p) []) as (l & -> & Hs & Hl & Hx); [done|]. simpl in *.
  destruct (Z.ltb_spec (zlen l) m); [by eexists _, p|]. eexists _, _. split; [done|].
  assert (E : lru_blocks p ≡ₚ l ++ foldl dict_del (lru_blocks p) l.*1).
  { apply del_all; [done| |]; [|intros x Hxl; by eapply elem_of_sublist].
    eapply sublist_NoDup; [exact Hp|by apply fmap_sublist]. }
  split; [|split; [lia|split; [done|]]].
  - apply (keys_perm _ _ E) in Hp. rewrite fmap_app in Hp. by apply NoDup_app in Hp as (_ & _ & ?).
  - intros k b Hk%Hx. apply evictable_spec in Hk as (? & ? & _). done.
Qed.
Next Obligation. intros n p Hp. split; [constructor|done]. Qed.
Next Obligation.
  intros n p k b f Hp Hg. cbn in *. rewrite Hg. destruct (set_present _ _ _ (f b) Hg) as (rest & H1 & H2). split; [|by exists rest].
  cbn. symmetry in H2. apply (keys_perm _ _ H2). apply (keys_perm _ _ H1) in Hp. done.
Qed.

(** ** ARC *)

(** Floating-point arithmetic on [target_t1_size]: [float + float], [int / int], [int(x)]
    and so on. [f_range n x]: [x] is a number between 0 and [n]. *)
Class FloatArith := {
  flt : Type;
  f_int : Z → flt;
  f_add : flt → flt → flt;
  f_sub : flt → flt → flt;
  f_max : flt → flt → flt;
  f_min : flt → flt → flt;
  f_div : Z → Z → flt;
  f_trunc : flt → result Z;
  f_range : Z → flt → Prop;
  f_zero n : 0 ≤ n → f_range n (f_int 0);
  f_grow n x a b : 0 ≤ n → f_range n x → 0 ≤ a → 0 < b →
    f_range n (f_min (f_add x (f_max (f_int 1) (f_div a b))) (f_int n));
  f_shrink n x a b : 0 ≤ n → f_range n x → 0 ≤ a → 0 < b →
    f_range n (f_max (f_sub x (f_max (f_int 1) (f_div a b))) (f_int 0));
  f_truncated n x : f_range n x → ∃ z, f_trunc x = Ok z ∧ 0 ≤ z ≤ n
}.

Section arc.
Context `{FloatArith}.

(** The ghost lists only have keys. *)
Record ARCCachePolicy := mkARC {
  cache_capacity : Z;
  target_t1_size : flt;
  t1 : list (bytes * BlockStatus);
  t2 : list (bytes * BlockStatus);
  b1 : list bytes;
  b2 : list bytes
}.

Definition drop_key (key : bytes) (ghost : list bytes) : list bytes := filter (λ k, k ≠ key) ghost.
Definition fresh_key (key : bytes) (ghost : list bytes) : list bytes := drop_key key ghost ++ [key].
Definition add_key (ghost : list bytes) (key : bytes) : list bytes := if decide (key ∈ ghost) then ghost else ghost ++ [key].

Definition arc_get (key : bytes) (p : ARCCachePolicy) : option BlockStatus :=
  match dict_get (t1 p) key with Some b => Some b | None => dict_get (t2 p) key end.

Definition arc_insert (key : bytes) (block : BlockStatus) (p : ARCCachePolicy) : ARCCachePolicy :=
  mkARC (cache_capacity p) (target_t1_size p) (dict_set (t1 p) key block) (t2 p) (drop_key key (b1 p)) (drop_key key (b2 p)).

Definition arc_remove (key : bytes) (p : ARCCachePolicy) : ARCCachePolicy :=
  match dict_get (t1 p) key with
  | Some _ => mkARC (cache_capacity p) (target_t1_size p) (dict_del (t1 p) key) (t2 p) (b1 p) (b2 p)
  | None => mkARC (cache_capacity p) (target_t1_size p) (t1 p) (dict_del (t2 p) key) (b1 p) (b2 p)
  end.

Definition arc_touch_one (p : ARCCachePolicy) (key : bytes) : ARCCachePolicy :=
  match dict_get (t1 p) key with
  | Some block =>
      let rest := dict_del (t1 p) key in
      if negb (is_ready block)
      then mkARC (cache_capacity p) (target_t1_size p) (dict_set rest key block) (t2 p) (b1 p) (b2 p)
      else mkARC (cache_capacity p) (target_t1_size p) rest (dict_set (t2 p) key block) (b1 p) (b2 p)
  | None =>
      match dict_get (t2 p) key with
      | Some _ => mkARC (cache_capacity p) (target_t1_size p) (t1 p) (move_to_end (t2 p) key) (b1 p) (b2 p)
      | None =>
          if decide (key ∈ b1 p) then
            let delta := f_max (f_int 1) (f_div (zlen (b2 p)) (zlen (b1 p))) in
            mkARC (cache_capacity p) (f_min (f_add (target_t1_size p) delta) (f_int (cache_capacity p)))
              (t1 p) (t2 p) (fresh_key key (b1 p)) (b2 p)
          else if decide (key ∈ b2 p) then
            let delta := f_max (f_int 1) (f_div (zlen (b1 p)) (zlen (b2 p))) in
            mkARC (cache_capacity p) (f_max (f_sub (target_t1_size p) delta) (f_int 0))
              (t1 p) (t2 p) (b1 p) (fresh_key key (b2 p))
          else p
      end
  end.

Definition arc_touch (keys : list bytes) (p : ARCCachePolicy) : ARCCachePolicy := foldl arc_touch_one p (reverse keys).

(** The next candidate, with whether it is from [t1]. *)
Definition arc_candidate (p : ARCCachePolicy) (target : Z) (protected selected : list bytes) (virtual_t1_size : Z) :
    option (bytes * BlockStatus * bool) :=
  let from_t1 := if target <=? virtual_t1_size then List.find (evictable protected selected) (t1 p) else None in
  match from_t1 with
  | Some x => Some (x, true)
  | None => (λ x, (x, false)) <$> List.find (evictable protected selected) (t2 p)
  end.

(** The loop [for _ in range(n)]. *)
Fixpoint arc_candidates (n : nat) (p : ARCCachePolicy) (target : Z) (protected selected : list bytes) (virtual_t1_size : Z) :
    option (list (bytes * BlockStatus * bool)) :=
  match n with
  | O => Some []
  | S n =>
      match arc_candidate p target protected selected virtual_t1_size with
      | None => None
      | Some (x, from_t1) =>
          cons (x, from_t1) <$> arc_candidates n p target protected (x.1 :: selected)
            (if from_t1 then virtual_t1_size - 1 else virtual_t1_size)
      end
  end.

Definition arc_apply (p : ARCCachePolicy) (c : bytes * BlockStatus * bool) : ARCCachePolicy :=
  let key := c.1.1 in
  if c.2 then mkARC (cache_capacity p) (target_t1_size p) (dict_del (t1 p) key) (t2 p) (add_key (b1 p) key) (b2 p)
  else mkARC (cache_capacity p) (target_t1_size p) (t1 p) (dict_del (t2 p) key) (b1 p) (add_key (b2 p) key).

(** [popitem(last=False)] until at most [cache_capacity] keys are left. *)
Definition trim (capacity : Z) (ghost : list bytes) : list bytes := drop (Z.to_nat (zlen ghost - capacity)) ghost.

Definition arc_evict (n : Z) (protected : list bytes) (p : ARCCachePolicy) :
    result (option (list (bytes * BlockStatus)) * ARCCachePolicy) :=
  if n =? 0 then Ok (Some [], p)
  else
    target ← f_trunc (target_t1_size p);
    match arc_candidates (Z.to_nat n) p target protected [] (zlen (t1 p)) with
    | None => Ok (None, p)
    | Some candidates =>
        let p := foldl arc_apply p candidates in
        Ok (Some candidates.*1,
            mkARC (cache_capacity p) (target_t1_size p) (t1 p) (t2 p) (trim (cache_capacity p) (b1 p)) (trim (cache_capacity p) (b2 p)))
    end.

#[global] Instance ARC_policy : CachePolicy ARCCachePolicy := {
  pol_new n := mkARC n (f_int 0) [] [] [] [];
  pol_get := arc_get;
  pol_insert := arc_insert;
  pol_remove key p := Ok (arc_remove key p);
  pol_touch := arc_touch;
  pol_evict := arc_evict;
  pol_clear p := mkARC (cache_capacity p) (f_int 0) [] [] [] [];
  pol_update key f p :=
    match dict_get (t1 p) key with
    | Some b => mkARC (cache_capacity p) (target_t1_size p) (dict_set (t1 p) key (f b)) (t2 p) (b1 p) (b2 p)
    | None =>
        match dict_get (t2 p) key with
        | Some b => mkARC (cache_capacity p) (target_t1_size p) (t1 p) (dict_set (t2 p) key (f b)) (b1 p) (b2 p)
        | None => p
        end
    end
}.

(** ** ARC keeps its lists apart *)

(** Every key the policy knows is in exactly one of the four lists; the ghost lists
    have at most [cache_capacity] keys and the target is within the capacity. *)
Definition all_keys (p : ARCCachePolicy) : list bytes := (t1 p).*1 ++ (t2 p).*1 ++ b1 p ++ b2 p.

Record arc_ok (n : Z) (p : ARCCachePolicy) : Prop := {
  ak_capacity : cache_capacity p = n ∧ 0 ≤ n;
  ak_target : f_range n (target_t1_size p);
  ak_keys : NoDup (all_keys p);
  ak_ghosts : zlen (b1 p) ≤ n ∧ zlen (b2 p) ≤ n
}.
Definition arc_items (p : ARCCachePolicy) : list (bytes * BlockStatus) := t1 p ++ t2 p.

Lemma items_nodup p : NoDup (all_keys p) → NoDup (arc_items p).*1 ∧ NoDup (t1 p).*1 ∧ NoDup (t2 p).*1.
Proof.
  unfold all_keys, arc_items. rewrite (assoc_L (++)), <-fmap_app. intros (Hd & _ & _)%NoDup_app. split; [done|].
  rewrite fmap_app in Hd. by apply NoDup_app in Hd as (? & _ & ?).
Qed.
Lemma arc_get_in p k b : NoDup (all_keys p) → arc_get k p = Some b ↔ (k, b) ∈ arc_items p.
Proof.
  intros (Hd & H1 & H2)%items_nodup. unfold arc_get, arc_items. rewrite elem_of_app, <-!get_in by done.
  destruct (dict_get (t1 p) k) as [b'|] eqn:E; [|by split; [right|intros [?|?]]].
  split; [by left|]. intros [?|Hb]; [done|]. exfalso. unfold arc_items in Hd. rewrite fmap_app in Hd.
  apply NoDup_app in Hd as (_ & Hx & _). apply (Hx k); apply dict_get_is_Some; eauto.
Qed.

Lemma drop_key_elem k x g : x ∈ drop_key k g ↔ x ≠ k ∧ x ∈ g.
Proof. unfold drop_key. by rewrite list_elem_of_filter. Qed.
Lemma drop_key_zlen k g : zlen (drop_key k g) ≤ zlen g.
Proof. unfold drop_key, zlen. pose proof (length_filter (λ x, x ≠ k) g). lia. Qed.
Lemma fresh_key_perm k g : NoDup g → k ∈ g → fresh_key k g ≡ₚ g.
Proof.
  intros Hg Hk. unfold fresh_key. apply NoDup_Permutation; [|done|].
  - apply NoDup_app. split; [by apply NoDup_filter|]. split; [|apply NoDup_singleton].
    intros x [? _]%drop_key_elem ?%list_elem_of_singleton. done.
  - intros x. rewrite elem_of_app, drop_key_elem, list_elem_of_singleton. destruct (decide (x = k)) as [->|]; tauto.
Qed.
Lemma get_keys {V} (d d' : list (bytes * V)) : d ≡ₚ d' → d.*1 ≡ₚ d'.*1.
Proof. by intros ->. Qed.

Lemma arc_ok_same n p p' : arc_ok n p → cache_capacity p' = cache_capacity p → f_range n (target_t1_size p') →
  all_keys p' ≡ₚ all_keys p → zlen (b1 p') ≤ n → zlen (b2 p') ≤ n → arc_ok n p'.
Proof. intros [[K1 K1'] K2 K3 [K4 K5]] E1 E2 E3 E4 E5. split; [by rewrite E1|done|by rewrite E3|done]. Qed.

Lemma arc_insert_ok n p k b : arc_ok n p → arc_get k p = None →
  arc_ok n (arc_insert k b p) ∧ arc_items (arc_insert k b p) ≡ₚ (k, b) :: arc_items p.
Proof.
  intros [K1 K2 K3 [K4 K5]] Hg. unfold arc_get in Hg. destruct (dict_get (t1 p) k) eqn:E1; [done|].
  apply dict_get_None in E1, Hg.
  assert (Ht : dict_set (t1 p) k b ≡ₚ (k, b) :: t1 p).
  { rewrite dict_set_new by done. apply (Permutation_app_comm _ [(k, b)]). }
  split; [|unfold arc_items; simpl; by rewrite Ht]. split; [done|done| |].
  - unfold all_keys in *. simpl. rewrite (get_keys _ _ Ht). csimpl. apply NoDup_cons. split.
    + rewrite !elem_of_app, !drop_key_elem. tauto.
    + rewrite !(assoc_L (++)) in *. rewrite <-(assoc_L (++)) in *. apply NoDup_app in K3 as (N1 & N2 & N3). apply NoDup_app.
      split; [done|]. split.
      * intros x Hx. specialize (N2 x Hx). rewrite elem_of_app in *. rewrite !drop_key_elem. tauto.
      * apply NoDup_app in N3 as (M1 & M2 & M3). apply NoDup_app. split; [by apply NoDup_filter|]. split; [|by apply NoDup_filter].
        intros x [_ Hx]%drop_key_elem [_ Hy]%drop_key_elem. by apply (M2 x).
  - simpl. pose proof (drop_key_zlen k (b1 p)). pose proof (drop_key_zlen k (b2 p)). lia.
Qed.

Lemma arc_remove_ok n p k b : arc_ok n p → arc_get k p = Some b →
  arc_ok n (arc_remove k p) ∧ arc_items p ≡ₚ (k, b) :: arc_items (arc_remove k p).
Proof.
  intros [K1 K2 K3 K4] Hg. unfold arc_get in Hg. unfold arc_remove.
  assert (Hsub : ∀ p', arc_items p ≡ₚ (k, b) :: arc_items p' → cache_capacity p' = cache_capacity p →
    target_t1_size p' = target_t1_size p → b1 p' = b1 p → b2 p' = b2 p → arc_ok n p').
  { intros p' Hp E1 E2 E3 E4. split; rewrite ?E1, ?E2, ?E3, ?E4; try done. unfold all_keys in *.
    rewrite (assoc_L (++)), <-fmap_app in K3 |- *. fold (arc_items p) in K3. fold (arc_items p').
    rewrite (get_keys _ _ Hp) in K3. csimpl in K3. rewrite E3, E4. by apply NoDup_cons in K3 as [_ ?]. }
  assert (Hp : ∀ d d', d ≡ₚ (k, b) :: d' → ∀ x, (d ++ x) ≡ₚ (k, b) :: (d' ++ x)) by (intros d d' Hd x; by rewrite Hd).
  destruct (dict_get (t1 p) k) as [b'|] eqn:E1.
  - injection Hg as ->. pose proof (Hp _ _ (del_perm _ _ _ E1) (t2 p)) as Hi. split; [by apply Hsub|exact Hi].
  - assert (Hi : arc_items p ≡ₚ (k, b) :: (t1 p ++ dict_del (t2 p) k)).
    { unfold arc_items. etrans; [apply Permutation_app_head, (del_perm _ _ _ Hg)|]. symmetry. apply Permutation_middle. }
    split; [by apply Hsub|exact Hi].
Qed.

Lemma zlen_perm {A} (l l' : list A) : l ≡ₚ l' → zlen l = zlen l'.
Proof. intros E. unfold zlen. by rewrite E. Qed.

Lemma arc_touch_one_ok n p k : arc_ok n p → arc_ok n (arc_touch_one p k) ∧ arc_items (arc_touch_one p k) ≡ₚ arc_items p.
Proof.
  intros Hok. pose proof Hok as [[K1 K1'] K2 K3 [K4 K5]]. unfold arc_touch_one.
  assert (Hfin : ∀ p', cache_capacity p' = cache_capacity p → f_range n (target_t1_size p') → arc_items p' ≡ₚ arc_items p →
    b1 p' ≡ₚ b1 p → b2 p' ≡ₚ b2 p → arc_ok n p' ∧ arc_items p' ≡ₚ arc_items p).
  { intros p' E1 E2 E3 E4 E5. split; [|done]. apply (arc_ok_same n p); try done.
    - unfold all_keys. rewrite E4, E5, !(assoc_L (++)), <-!fmap_app. f_equiv. f_equiv. by apply get_keys.
    - by rewrite (zlen_perm _ _ E4).
    - by rewrite (zlen_perm _ _ E5). }
  destruct (items_nodup p K3) as (N0 & N1 & N2).
  assert (Hg : NoDup (b1 p) ∧ NoDup (b2 p)).
  { unfold all_keys in K3. apply NoDup_app in K3 as (_ & _ & K3). apply NoDup_app in K3 as (_ & _ & K3).
    by apply NoDup_app in K3 as (? & _ & ?). }
  destruct (dict_get (t1 p) k) as [b|] eqn:E1.
  - pose proof (del_perm _ _ _ E1) as Hd.
    assert (k ∉ (dict_del (t1 p) k).*1) as Hn1.
    { rewrite (get_keys _ _ Hd) in N1. csimpl in N1. by apply NoDup_cons in N1 as [? _]. }
    assert (k ∉ (t2 p).*1) as Hn2.
    { unfold arc_items in N0. rewrite fmap_app in N0. apply NoDup_app in N0 as (_ & N0 & _). apply N0, dict_get_is_Some. by exists b. }
    destruct (is_ready b); simpl; (apply Hfin; simpl; [done|done| |done|done]); unfold arc_items; simpl;
      rewrite dict_set_new by done; (etrans; [|symmetry; apply Permutation_app_tail; exact Hd]).
    + rewrite (Permutation_app_comm (t2 p)), (assoc_L (++)), (Permutation_app_comm _ [(k, b)]). done.
    + rewrite (Permutation_app_comm _ [(k, b)]). done.
  - destruct (dict_get (t2 p) k) as [b|] eqn:E2.
    + apply Hfin; simpl; try done. unfold arc_items. simpl. by rewrite move_perm.
    + assert (Hpos : ∀ g : list bytes, k ∈ g → 0 < zlen g) by (intros [|y g] Hk; [by apply not_elem_of_nil in Hk|unfold zlen; simpl; lia]).
      pose proof (zlen_nonneg (b1 p)) as Z1. pose proof (zlen_nonneg (b2 p)) as Z2.
      case_decide as Hb1; [|case_decide as Hb2; [|done]].
      * apply Hfin; simpl; try done; [rewrite K1; apply f_grow; auto|apply fresh_key_perm; [apply Hg|done]].
      * apply Hfin; simpl; try done; [apply f_shrink; auto|apply fresh_key_perm; [apply Hg|done]].
Qed.

Lemma arc_touch_ok n ks p : arc_ok n p → arc_ok n (arc_touch ks p) ∧ arc_items (arc_touch ks p) ≡ₚ arc_items p.
Proof.
  unfold arc_touch. generalize (reverse ks). clear ks. intros ks. revert p. induction ks as [|k ks IH]; intros p Hp; [done|].
  simpl. destruct (arc_touch_one_ok n p k Hp) as [H1 H2]. destruct (IH _ H1) as [H3 H4]. split; [done|]. by rewrite H4.
Qed.

(** ** Eviction *)

Definition from (p : ARCCachePolicy) (c : bytes * BlockStatus * bool) : Prop := c.1 ∈ (if c.2 then t1 p else t2 p).

Lemma arc_candidate_spec p target prot sel v c : arc_candidate p target prot sel v = Some c →
  evictable prot sel c.1 = true ∧ from p c.
Proof.
  unfold arc_candidate, from. assert (Hf : ∀ f (l : list (bytes * BlockStatus)) x, List.find f l = Some x → f x = true ∧ x ∈ l).
  { intros f l x Hx. apply List.find_some in Hx as [Hx ?]. split; [done|]. by apply list_elem_of_In. }
  destruct (if target <=? v then _ else _) as [x|] eqn:E.
  - intros [= <-]. simpl. destruct (target <=? v); [|done]. by apply Hf.
  - destruct (List.find _ (t2 p)) as [x|] eqn:E2; simpl; [|done]. intros [= <-]. simpl. by apply Hf.
Qed.

Lemma arc_candidates_spec p target prot n : ∀ sel v l, arc_candidates n p target prot sel v = Some l →
  length l = n ∧ NoDup l.*1.*1 ∧ ∀ c, c ∈ l → from p c ∧ ref_cnt c.1.2 = 0 ∧ c.1.1 ∉ prot ∧ c.1.1 ∉ sel.
Proof.
  induction n as [|n IH]; intros sel v l; simpl.
  { intros [= <-]. split_and!; [done|constructor|]. by intros c ?%not_elem_of_nil. }
  destruct (arc_candidate p target prot sel v) as [[x f]|] eqn:E; [|done].
  destruct (arc_candidates n p target prot _ _) as [l'|] eqn:E'; [|done]. intros [= <-].
  destruct (IH _ _ _ E') as (H1 & H2 & H3). apply arc_candidate_spec in E as [Hx Hfrom]. simpl in Hx.
  destruct x as [k b]. apply evictable_spec in Hx as (X1 & X2 & X3). split; [simpl; lia|]. split.
  - csimpl. apply NoDup_cons. split; [|done]. rewrite list_elem_of_fmap. intros ([k' b'] & Ek & Hin). simpl in Ek. subst k'.
    apply list_elem_of_fmap in Hin as (c & Ec & Hc). destruct (H3 c Hc) as (_ & _ & _ & Hn). apply Hn. rewrite <-Ec. simpl. left.
  - intros c [->|Hc]%elem_of_cons; [done|]. destruct (H3 c Hc) as (? & ? & ? & Hn). split_and!; try done.
    intros Hs. apply Hn. by right.
Qed.

Lemma arc_apply_spec p k b (f : bool) : NoDup (all_keys p) → from p (k, b, f) →
  let p' := arc_apply p (k, b, f) in
  cache_capacity p' = cache_capacity p ∧ target_t1_size p' = target_t1_size p ∧ all_keys p' ≡ₚ all_keys p
  ∧ arc_items p ≡ₚ (k, b) :: arc_items p' ∧ ∀ c, from p c → c.1.1 ≠ k → from p' c.
Proof.
  intros Hnd Hin p'. destruct (items_nodup p Hnd) as (N0 & N1 & N2). unfold from in Hin. simpl in Hin.
  assert (Hk : k ∈ (arc_items p).*1).
  { unfold arc_items. rewrite fmap_app, elem_of_app. destruct f; [left|right]; apply list_elem_of_fmap; by exists (k, b). }
  assert (Hg : k ∉ b1 p ∧ k ∉ b2 p).
  { unfold all_keys in Hnd. rewrite (assoc_L (++)), <-fmap_app in Hnd. apply NoDup_app in Hnd as (_ & Hd & _).
    specialize (Hd k Hk). by apply not_elem_of_app in Hd. }
  assert (Hkeep : ∀ (d : list (bytes * BlockStatus)) x, dict_get d k = Some b → x ∈ d → x.1 ≠ k → x ∈ dict_del d k).
  { intros d x Hd Hx Hne. rewrite (del_perm _ _ _ Hd) in Hx. apply elem_of_cons in Hx as [->|?]; done. }
  unfold p', arc_apply. destruct f; simpl in *.
  - apply get_in in Hin; [|done]. pose proof (del_perm _ _ _ Hin) as Hd. split_and!; try done.
    + unfold all_keys. simpl. unfold add_key. rewrite decide_False by tauto.
      rewrite (get_keys _ _ Hd). csimpl. rewrite <-!(assoc_L (++)). rewrite (Permutation_app_comm (b1 p)), <-(assoc_L (++)).
      simpl. rewrite <-!Permutation_middle. f_equiv. f_equiv. f_equiv. apply Permutation_app_comm.
    + unfold arc_items. simpl. by rewrite Hd at 1.
    + intros [[k' b'] [|]] Hc Hne; unfold from in *; simpl in *; [by apply Hkeep|done].
  - apply get_in in Hin; [|done]. pose proof (del_perm _ _ _ Hin) as Hd. split_and!; try done.
    + unfold all_keys. simpl. unfold add_key. rewrite decide_False by tauto.
      rewrite (get_keys _ _ Hd). csimpl. rewrite (Permutation_app_comm (b2 p)). simpl. by rewrite <-!Permutation_middle.
    + unfold arc_items. simpl. etrans; [apply Permutation_app_head, Hd|]. symmetry. apply Permutation_middle.
    + intros [[k' b'] [|]] Hc Hne; unfold from in *; simpl in *; [done|by apply Hkeep].
Qed.

Lemma arc_apply_all l : ∀ p, NoDup (all_keys p) → NoDup l.*1.*1 → (∀ c, c ∈ l → from p c) →
  let p' := foldl arc_apply p l in
  cache_capacity p' = cache_capacity p ∧ target_t1_size p' = target_t1_size p ∧ all_keys p' ≡ₚ all_keys p
  ∧ arc_items p ≡ₚ l.*1 ++ arc_items p'.
Proof.
  induction l as [|[[k b] f] l IH]; intros p Hp Hl Hin; [done|]. csimpl in Hl. apply NoDup_cons in Hl as [Hni Hl].
  destruct (arc_apply_spec p k b f Hp (Hin (k, b, f) ltac:(left))) as (A1 & A2 & A3 & A4 & A5).
  destruct (IH (arc_apply p (k, b, f))) as (B1 & B2 & B3 & B4).
  - by rewrite A3.
  - done.
  - intros c Hc. apply A5; [apply Hin; by right|]. intros Ek. apply Hni. rewrite <-Ek. apply list_elem_of_fmap.
    exists c.1. split; [done|]. apply list_elem_of_fmap. by exists c.
  - csimpl. split_and!; [congruence|congruence|by rewrite B3|]. rewrite A4. by apply perm_skip.
Qed.

Lemma trim_spec n g : 0 ≤ n → zlen (trim n g) ≤ n ∧ trim n g `sublist_of` g.
Proof.
  intros Hn. unfold trim. split; [unfold zlen; rewrite length_drop; lia|apply sublist_drop].
Qed.

Lemma arc_evict_ok n p m prot : arc_ok n p → 0 < m →
  ∃ res p', arc_evict m prot p = Ok (res, p') ∧ arc_ok n p'
    ∧ match res with
      | None => p' = p
      | Some l => zlen l = m ∧ arc_items p ≡ₚ l ++ arc_items p' ∧ ∀ k b, (k, b) ∈ l → ref_cnt b = 0 ∧ k ∉ prot
      end.
Proof.
  intros Hok Hm. pose proof Hok as [[K1 K1'] K2 K3 [K4 K5]]. unfold arc_evict. destruct (Z.eqb_spec m 0) as [?|_]; [lia|].
  destruct (f_truncated n (target_t1_size p) K2) as (z & -> & Hz). cbn.
  destruct (arc_candidates (Z.to_nat m) p z prot [] (zlen (t1 p))) as [l|] eqn:E; [|by eexists _, p].
  destruct (arc_candidates_spec _ _ _ _ _ _ _ E) as (L1 & L2 & L3).
  destruct (arc_apply_all l p K3 L2) as (A1 & A2 & A3 & A4); [intros c Hc; by apply L3|].
  set (q := foldl arc_apply p l) in *. eexists _, _. split; [reflexivity|]. rewrite A1, K1.
  destruct (trim_spec n (b1 q) K1') as [T1 S1]. destruct (trim_spec n (b2 q) K1') as [T2 S2]. split.
  - split; simpl; [done|by rewrite A2| |done]. unfold all_keys. simpl.
    eapply sublist_NoDup; [rewrite <-A3 in K3; exact K3|]. unfold all_keys.
    repeat apply sublist_app; done.
  - split; [unfold zlen; rewrite length_fmap, L1; lia|]. split; [exact A4|].
    intros k b ([[k' b'] f] & Ek & Hc)%list_elem_of_fmap. simpl in Ek. injection Ek as -> ->.
    destruct (L3 _ Hc) as (_ & ? & ? & _). done.
Qed.

#[global] Program Instance ARC_laws : PolicyLaws ARCCachePolicy := { pol_ok := arc_ok; items := arc_items }.
Next Obligation.
  intros n Hn. split; [|done]. split; simpl; [done|by apply f_zero|constructor|done].
Qed.
Next Obligation. intros n p [_ _ K3 _]. by apply items_nodup. Qed.
Next Obligation. intros n p k b [_ _ K3 _]. by apply arc_get_in. Qed.
Next Obligation. intros n p k b. apply arc_insert_ok. Qed.
Next Obligation. intros n p k b Hp Hg. eexists. split; [done|]. by apply arc_remove_ok. Qed.
Next Obligation. intros n p ks. apply arc_touch_ok. Qed.
Next Obligation. intros n p m prot. apply arc_evict_ok. Qed.
Next Obligation.
  intros n p [[K1 K1'] _ _ _]. split; [|done]. split; simpl; [done|by apply f_zero|constructor|done].
Qed.
Next Obligation.
  intros n p k b f Hok Hg. pose proof Hok as [[K1 K1'] K2 K3 [K4 K5]]. cbn in *. unfold arc_get in Hg.
  assert (Hfin : ∀ (d : list (bytes * BlockStatus)) b0, dict_get d k = Some b0 → (dict_set d k (f b0)).*1 = d.*1).
  { intros d b0 Hd. rewrite dict_set_keys, decide_True; [done|]. apply dict_get_is_Some. by eexists. }
  destruct (dict_get (t1 p) k) as [b'|] eqn:E1.
  - injection Hg as ->. destruct (set_present _ _ _ (f b) E1) as (rest & R1 & R2). split.
    + apply (arc_ok_same n p); try done. unfold all_keys. simpl. by rewrite (Hfin _ b).
    + exists (rest ++ t2 p). unfold arc_items. simpl. split; [by rewrite R1|by rewrite R2].
  - rewrite Hg. destruct (set_present _ _ _ (f b) Hg) as (rest & R1 & R2). split.
    + apply (arc_ok_same n p); try done. unfold all_keys. simpl. by rewrite (Hfin _ b).
    + exists (t1 p ++ rest). unfold arc_items. simpl.
      split; (etrans; [apply Permutation_app_head; eassumption|symmetry; apply Permutation_middle]).
Qed.
End arc.

(** ** Exact arithmetic

    Rational numbers satisfy what is asked of floating-point arithmetic. *)

Definition max_Q (a b : Q) : Q := if Qle_bool a b then b else a.
Definition max_one (y : Q) : Q := max_Q (inject_Z 1) y.
Lemma max_one_pos y : (0 <= max_one y)%Q.
Proof.
  unfold max_one, max_Q. destruct (Qle_bool _ _) eqn:E; [|done]. apply Qle_bool_iff in E. eapply Qle_trans; [|exact E]. done.
Qed.

#[global] Program Instance exact_arith : FloatArith := {
  flt := Q;
  f_int := inject_Z;
  f_add := Qplus;
  f_sub := Qminus;
  f_max := max_Q;
  f_min a b := if Qle_bool a b then a else b;
  f_div a b := (inject_Z a / inject_Z b)%Q;
  f_trunc x := Ok (Z.quot (Qnum x) (Zpos (Qden x)));
  f_range n x := (0 <= x)%Q ∧ (x <= inject_Z n)%Q
}.
Next Obligation. intros n Hn. split; [apply Qle_refl|by rewrite <-Zle_Qle]. Qed.
Next Obligation.
  intros n x a b Hn [Hx1 Hx2] Ha Hb. fold (max_one (inject_Z a / inject_Z b)). pose proof (max_one_pos (inject_Z a / inject_Z b)) as Hd.
  set (d := max_one (inject_Z a / inject_Z b)) in *.
  destruct (Qle_bool (x + d) (inject_Z n)) eqn:E.
  - apply Qle_bool_iff in E. split; [|done]. rewrite <-(Qplus_0_l 0). by apply Qplus_le_compat.
  - split; [by rewrite <-(Zle_Qle 0)|apply Qle_refl].
Qed.
Next Obligation.
  intros n x a b Hn [Hx1 Hx2] Ha Hb. fold (max_one (inject_Z a / inject_Z b)). pose proof (max_one_pos (inject_Z a / inject_Z b)) as Hd.
  set (d := max_one (inject_Z a / inject_Z b)) in *.
  unfold max_Q. destruct (Qle_bool (x - d) (inject_Z 0)) eqn:E.
  - split; [apply Qle_refl|by rewrite <-Zle_Qle].
  - assert (~ (x - d <= 0)%Q) as Hn' by (intros Hc; apply Qle_bool_iff in Hc; unfold inject_Z in E; congruence).
    split; [by apply Qlt_le_weak, Qnot_le_lt|]. apply (Qle_trans _ x); [|done].
    unfold Qminus. rewrite <-(Qplus_0_r x) at 2. apply Qplus_le_compat; [apply Qle_refl|]. by apply (Qopp_le_compat 0 d).
Qed.
Next Obligation.
  intros n [p q] [H1 H2]. eexists. split; [done|]. unfold Qle, inject_Z in *. simpl in *.
  split; [apply Z.quot_pos; lia|]. rewrite Z.quot_div_nonneg by lia. apply Z.div_le_upper_bound; lia.
Qed.
