(* ===== verification/OffloadManager.v ===== *)
(** * The CPU offloading manager

    [CPUOffloadingManager] of [v1/kv_offload/cpu/manager.py]: blocks of KV data kept in
    CPU memory under the hash of their content. A block is written between
    [prepare_store] and [complete_store], and read by any number of transfers, each
    between [prepare_load] and [complete_load]; eviction must not touch either. The
    manager is verified against the interface [PolicyLaws] of its replacement policy. *)

From Stdlib Require Import ZArith Lia.
From S2P Require Import Prelude OffloadPolicy.
Local Open Scope Z_scope.

(** ** State *)

Record OffloadingEvent := mkOffloadingEvent { ev_keys : list bytes; ev_removed : bool }.
Record PrepareStoreOutput := mkPrepareStoreOutput {
  keys_to_store : list bytes;
  store_spec : list Z;
  evicted_keys : list bytes
}.

Record CPUOffloadingManager (P : Type) := mkOffload {
  _num_blocks : Z;
  _num_allocated_blocks : Z;
  _free_list : list Z;
  off_events : option (list OffloadingEvent);
  _policy : P;
  store_threshold : Z;
  max_tracker_size : Z;
  stores_skipped_in_current_batch : Z;
  counts : option (list (bytes * Z))
}.
Arguments mkOffload {_}.
Arguments _num_blocks {_}. Arguments _num_allocated_blocks {_}. Arguments _free_list {_}. Arguments off_events {_}.
Arguments _policy {_}. Arguments store_threshold {_}. Arguments max_tracker_size {_}.
Arguments stores_skipped_in_current_batch {_}. Arguments counts {_}.

Section manager.
Context {P : Type} `{PL : PolicyLaws P}.
Abbreviation Mgr := (CPUOffloadingManager P).
Abbreviation OM := (M Mgr).

Definition o_set_allocated (n : Z) (m : Mgr) : Mgr := mkOffload (_num_blocks m) n (_free_list m) (off_events m) (_policy m)
  (store_threshold m) (max_tracker_size m) (stores_skipped_in_current_batch m) (counts m).
Definition o_set_free (l : list Z) (m : Mgr) : Mgr := mkOffload (_num_blocks m) (_num_allocated_blocks m) l (off_events m) (_policy m)
  (store_threshold m) (max_tracker_size m) (stores_skipped_in_current_batch m) (counts m).
Definition o_set_events (e : option (list OffloadingEvent)) (m : Mgr) : Mgr := mkOffload (_num_blocks m) (_num_allocated_blocks m)
  (_free_list m) e (_policy m) (store_threshold m) (max_tracker_size m) (stores_skipped_in_current_batch m) (counts m).
Definition o_set_policy (p : P) (m : Mgr) : Mgr := mkOffload (_num_blocks m) (_num_allocated_blocks m) (_free_list m) (off_events m) p
  (store_threshold m) (max_tracker_size m) (stores_skipped_in_current_batch m) (counts m).
Definition o_set_skipped (n : Z) (m : Mgr) : Mgr := mkOffload (_num_blocks m) (_num_allocated_blocks m) (_free_list m) (off_events m)
  (_policy m) (store_threshold m) (max_tracker_size m) n (counts m).
Definition o_set_counts (c : option (list (bytes * Z))) (m : Mgr) : Mgr := mkOffload (_num_blocks m) (_num_allocated_blocks m)
  (_free_list m) (off_events m) (_policy m) (store_threshold m) (max_tracker_size m) (stores_skipped_in_current_batch m) c.

Definition new_offloading_manager (num_blocks : Z) (enable_events : bool) (threshold tracker : Z) : Mgr :=
  mkOffload num_blocks 0 [] (if enable_events then Some [] else None) (pol_new num_blocks) threshold tracker 0
    (if 2 <=? threshold then Some [] else None).

(** ** The block pool *)

Definition _get_num_free_blocks (m : Mgr) : Z := zlen (_free_list m) + _num_blocks m - _num_allocated_blocks m.

Fixpoint fresh_blocks (n : nat) : OM (list BlockStatus) :=
  match n with
  | O => mret []
  | S n =>
      m ← get;
      _ ← put (o_set_allocated (_num_allocated_blocks m + 1) m);
      bs ← fresh_blocks n;
      mret (new_block_status (_num_allocated_blocks m) :: bs)
  end.

Fixpoint reused_blocks (n : nat) : OM (list BlockStatus) :=
  match n with
  | O => mret []
  | S n =>
      m ← get;
      match last (_free_list m) with
      | None => raise IndexError
      | Some id =>
          _ ← put (o_set_free (removelast (_free_list m)) m);
          bs ← reused_blocks n;
          mret (new_block_status id :: bs)
      end
  end.

Definition _allocate_blocks (keys : list bytes) : OM (list BlockStatus) :=
  m ← get;
  let num_fresh := Z.min (zlen keys) (_num_blocks m - _num_allocated_blocks m) in
  let num_reused := zlen keys - num_fresh in
  _ ← py_assert (num_reused <=? zlen (_free_list m));
  fresh ← fresh_blocks (Z.to_nat num_fresh);
  reused ← reused_blocks (Z.to_nat num_reused);
  mret (fresh ++ reused).

Definition _free_block (block : BlockStatus) : OM unit := modify (λ m, o_set_free (_free_list m ++ [block_id block]) m).

Definition on_policy (f : P → P) : OM unit := modify (λ m, o_set_policy (f (_policy m)) m).

(** ** Lookup and loads *)

(** The tracker of recent keys. *)
Definition count_key (key : bytes) : OM unit :=
  m ← get;
  match counts m with
  | None => mret tt
  | Some c =>
      match dict_get c key with
      | Some n => put (o_set_counts (Some (dict_set (move_to_end c key) key (n + 1))) m)
      | None =>
          if max_tracker_size m <=? zlen c then
            match c with
            | [] => raise KeyError
            | _ :: c => put (o_set_counts (Some (dict_set c key 1)) m)
            end
          else put (o_set_counts (Some (dict_set c key 1)) m)
      end
  end.

(** [None] is a block that is still being written. *)
Definition off_lookup (key : bytes) : OM (option bool) :=
  _ ← count_key key;
  m ← get;
  match pol_get key (_policy m) with
  | None => mret (Some false)
  | Some block => mret (if negb (is_ready block) then None else Some true)
  end.

Fixpoint load_blocks (keys : list bytes) : OM (list BlockStatus) :=
  match keys with
  | [] => mret []
  | key :: keys =>
      m ← get;
      match pol_get key (_policy m) with
      | None => raise AssertionError
      | Some block =>
          _ ← py_assert (is_ready block);
          _ ← on_policy (pol_update key (set_ref_cnt (ref_cnt block + 1)));
          bs ← load_blocks keys;
          mret (block :: bs)
      end
  end.

Definition prepare_load (keys : list bytes) : OM (list Z) := bs ← load_blocks keys; mret (block_id <$> bs).

Definition off_touch (keys : list bytes) : OM unit := on_policy (pol_touch keys).

(** The bodies of the loops of [complete_load] and of a failed [complete_store]. *)
Definition complete_one (key : bytes) : OM unit :=
  m ← get;
  match pol_get key (_policy m) with
  | None => raise AssertionError
  | Some block =>
      _ ← py_assert (0 <? ref_cnt block);
      on_policy (pol_update key (set_ref_cnt (ref_cnt block - 1)))
  end.
Definition complete_load (keys : list bytes) : OM unit := forM keys complete_one.

(** ** Stores *)

Definition add_event (keys : list bytes) (removed : bool) : OM unit :=
  m ← get;
  match keys, off_events m with
  | _ :: _, Some es => put (o_set_events (Some (es ++ [mkOffloadingEvent keys removed])) m)
  | _, _ => mret tt
  end.

Fixpoint insert_all (l : list (bytes * BlockStatus)) : OM unit :=
  match l with
  | [] => mret tt
  | (key, block) :: l => _ ← on_policy (pol_insert key block); insert_all l
  end.

(** The keys that were looked up often enough. *)
Definition frequent_keys (keys : list bytes) : OM (list bytes) :=
  m ← get;
  match counts m with
  | None => mret keys
  | Some c =>
      let keys' := List.filter (λ k, store_threshold m <=? default 0 (dict_get c k)) keys in
      _ ← put (o_set_skipped (stores_skipped_in_current_batch m + (zlen keys - zlen keys')) m);
      mret keys'
  end.

Definition make_room (n : Z) (protected : list bytes) : OM (option (list bytes)) :=
  m ← get;
  res ← lift_result (pol_evict n protected (_policy m));
  let '(evicted, p) := res in
  _ ← put (o_set_policy p m);
  match evicted with
  | None => mret None
  | Some l => _ ← forM l (λ x, _free_block x.2); mret (Some l.*1)
  end.

Definition prepare_store (keys : list bytes) : OM (option PrepareStoreOutput) :=
  keys ← frequent_keys keys;
  m ← get;
  let keys_to_store := List.filter (λ k, bool_decide (pol_get k (_policy m) = None)) keys in
  match keys_to_store with
  | [] => mret (Some (mkPrepareStoreOutput [] [] []))
  | _ =>
      let num_blocks_to_evict := zlen keys_to_store - _get_num_free_blocks m in
      evicted ← (if 0 <? num_blocks_to_evict then make_room num_blocks_to_evict keys else mret (Some []));
      match evicted with
      | None => mret None
      | Some to_evict =>
          _ ← add_event to_evict true;
          blocks ← _allocate_blocks keys_to_store;
          _ ← py_assert (zlen blocks =? zlen keys_to_store);
          _ ← insert_all (zip keys_to_store blocks);
          mret (Some (mkPrepareStoreOutput keys_to_store (block_id <$> blocks) to_evict))
      end
  end.

Fixpoint mark_stored (keys : list bytes) : OM (list bytes) :=
  match keys with
  | [] => mret []
  | key :: keys =>
      m ← get;
      match pol_get key (_policy m) with
      | Some block =>
          if negb (is_ready block) then
            _ ← on_policy (pol_update key (set_ref_cnt 0));
            stored ← mark_stored keys;
            mret (key :: stored)
          else mark_stored keys
      | None => mark_stored keys
      end
  end.

Definition drop_store (key : bytes) : OM unit :=
  m ← get;
  match pol_get key (_policy m) with
  | Some block =>
      if negb (is_ready block) then
        p ← lift_result (pol_remove key (_policy m));
        _ ← put (o_set_policy p m);
        _free_block block
      else mret tt
  | None => mret tt
  end.

Definition complete_store (keys : list bytes) (success : bool) : OM unit :=
  if success then stored ← mark_stored keys; add_event stored false
  else forM keys drop_store.

Definition reset_cache : OM unit :=
  _ ← on_policy pol_clear;
  _ ← modify (o_set_free []);
  modify (o_set_allocated 0).

Definition off_take_events : OM (list OffloadingEvent) :=
  m ← get;
  match off_events m with
  | Some es => _ ← put (o_set_events (Some []) m); mret es
  | None => mret []
  end.

(** The number of skipped stores, when they are counted. *)
Definition get_stats : OM (option Z) :=
  m ← get;
  if store_threshold m <? 2 then mret None
  else _ ← put (o_set_skipped 0 m); mret (Some (stores_skipped_in_current_batch m)).

(** ** The invariant *)

Definition load_count (key : bytes) (loads : list bytes) : Z := zlen (filter (λ k, k = key) loads).

Lemma load_count_cons key k loads : load_count key (k :: loads) = (if decide (k = key) then 1 else 0) + load_count key loads.
Proof.
  unfold load_count. rewrite filter_cons. case_decide; [|done]. unfold zlen. simpl. lia.
Qed.
Lemma load_count_pos key loads : key ∈ loads ↔ 0 < load_count key loads.
Proof.
  induction loads as [|k loads IH]; [split; [by intros ?%not_elem_of_nil|done]|]. rewrite load_count_cons, elem_of_cons, IH.
  assert (0 ≤ load_count key loads) by apply zlen_nonneg.
  case_decide as Hk; [subst; split; [lia|by left]|]. rewrite Z.add_0_l. split; [by intros [->|?]|by right].
Qed.
Lemma load_count_bound key loads : 0 ≤ load_count key loads ≤ zlen loads.
Proof. unfold load_count, zlen. pose proof (length_filter (λ k, k = key) loads). lia. Qed.

Definition ids (m : Mgr) : list Z := block_id <$> (items (_policy m)).*2.

(** [loads] are the keys of the loads in progress, one entry for each. The ids of the
    cached blocks and the free ones are the ids handed out so far, each once; a
    reference count is the number of loads of the block, or [-1] while it is written. *)
Record off_inv (loads : list bytes) (m : Mgr) : Prop := {
  oi_policy : pol_ok (_num_blocks m) (_policy m);
  oi_bound : 0 ≤ _num_allocated_blocks m ≤ _num_blocks m ∧ _num_blocks m < 2 ^ 63;
  oi_ids : ids m ++ _free_list m ≡ₚ seqZ 0 (_num_allocated_blocks m);
  oi_refs k b : (k, b) ∈ items (_policy m) → ref_cnt b = -1 ∧ k ∉ loads ∨ ref_cnt b = load_count k loads;
  oi_loads k : k ∈ loads → k ∈ (items (_policy m)).*1;
  oi_few : zlen loads < 2 ^ 31;
  oi_counts c : counts m = Some c → zlen c ≤ max_tracker_size m;
  oi_tracker : 0 < max_tracker_size m
}.

Lemma get_Some loads m k b : off_inv loads m → pol_get k (_policy m) = Some b ↔ (k, b) ∈ items (_policy m).
Proof. intros Hi. apply (pl_get _ _ _ _ (oi_policy _ _ Hi)). Qed.
Lemma get_None loads m k : off_inv loads m → pol_get k (_policy m) = None ↔ k ∉ (items (_policy m)).*1.
Proof.
  intros Hi. rewrite eq_None_not_Some. apply not_iff_compat. rewrite list_elem_of_fmap. split.
  - intros [b Hb%(get_Some _ _ _ _ Hi)]. by exists (k, b).
  - intros ([k' b] & -> & Hb). exists b. by apply (get_Some _ _ _ _ Hi).
Qed.

Lemma off_inv_perm loads loads' m : loads ≡ₚ loads' → off_inv loads m → off_inv loads' m.
Proof.
  intros E [H1 H2 H3 H4 H5 H6 H7 H8]. split; try done.
  - intros k b. unfold load_count, zlen. rewrite <-E. apply H4.
  - intros k. rewrite <-E. apply H5.
  - unfold zlen in *. by rewrite <-E.
Qed.

(** Operations on statistics and events do not matter. *)
Lemma off_inv_same loads m m' : _policy m' = _policy m → _num_blocks m' = _num_blocks m →
  _num_allocated_blocks m' = _num_allocated_blocks m → _free_list m' = _free_list m → counts m' = counts m →
  max_tracker_size m' = max_tracker_size m → off_inv loads m → off_inv loads m'.
Proof.
  intros E1 E2 E3 E4 E5 E6 [H1 H2 H3 H4 H5 H6 H7 H8].
  split; unfold ids in *; rewrite ?E1, ?E2, ?E3, ?E4, ?E5, ?E6; done.
Qed.

(** The blocks of the policy rearranged, or a block with a new reference count. *)
Lemma off_inv_items loads loads' m p : off_inv loads m → pol_ok (_num_blocks m) p →
  block_id <$> (items p).*2 ≡ₚ ids m → (items p).*1 ≡ₚ (items (_policy m)).*1 →
  (∀ k b, (k, b) ∈ items p → ref_cnt b = -1 ∧ k ∉ loads' ∨ ref_cnt b = load_count k loads') →
  (∀ k, k ∈ loads' → k ∈ (items (_policy m)).*1) → zlen loads' < 2 ^ 31 → off_inv loads' (o_set_policy p m).
Proof.
  intros [H1 H2 H3 H4 H5 H6 H7 H8] Hp Hids Hkeys Hrefs Hloads Hfew. split; simpl; try done.
  - unfold ids. simpl. by rewrite Hids.
  - intros k Hk. rewrite Hkeys. by apply Hloads.
Qed.

Lemma update_ref loads loads' m k b n : off_inv loads m → pol_get k (_policy m) = Some b →
  - 2 ^ 31 ≤ n < 2 ^ 31 → (n = -1 ∧ k ∉ loads' ∨ n = load_count k loads') →
  (∀ x, x ≠ k → load_count x loads' = load_count x loads) → zlen loads' < 2 ^ 31 →
  off_inv loads' (o_set_policy (pol_update k (set_ref_cnt n) (_policy m)) m).
Proof.
  intros Hi Hg Hn Hk Hothers Hfew. pose proof Hi as [H1 H2 H3 H4 H5 H6 H7 H8].
  destruct (pl_update _ _ k b (set_ref_cnt n) H1 Hg) as (Hok & rest & R1 & R2).
  assert (Hin : ∀ x, x ≠ k → x ∈ loads' ↔ x ∈ loads) by (intros x Hx; by rewrite !load_count_pos, Hothers).
  pose proof (pl_nodup _ _ H1) as Hnd. rewrite R1 in Hnd. csimpl in Hnd. apply NoDup_cons in Hnd as [Hni _].
  apply (off_inv_items loads); try done.
  - rewrite R2. unfold ids. by rewrite R1.
  - by rewrite R2, R1.
  - intros x c. rewrite R2. intros [[= -> ->]|Hx]%elem_of_cons; [cbn; by rewrite wrap_small by lia|].
    assert (x ≠ k) by (intros ->; apply Hni, list_elem_of_fmap; by exists (k, c)).
    rewrite Hin, Hothers by done. apply H4. rewrite R1. by right.
  - intros x Hx. destruct (decide (x = k)) as [->|Hne]; [|by apply H5, Hin].
    rewrite R1. csimpl. left.
Qed.

Lemma get_same n n' p p' k : pol_ok n p → pol_ok n' p' → (∀ b, (k, b) ∈ items p' ↔ (k, b) ∈ items p) → pol_get k p' = pol_get k p.
Proof. intros Hp Hp' E. apply option_eq. intros b. by rewrite (pl_get _ _ _ _ Hp), (pl_get _ _ _ _ Hp'). Qed.

Lemma get_updated n p k b f x : pol_ok n p → pol_get k p = Some b →
  pol_get x (pol_update k f p) = if decide (x = k) then Some (f b) else pol_get x p.
Proof.
  intros Hp Hg. destruct (pl_update _ _ k b f Hp Hg) as (Hok & rest & R1 & R2). case_decide as Hx.
  - subst. apply (pl_get _ _ _ _ Hok). rewrite R2. left.
  - apply (get_same n n); [done|done|]. intros c. rewrite R1, R2, !elem_of_cons. split; (intros [[= ? _]|?]; [done|by right]).
Qed.

(** The id of the block cached for a key. *)
Definition id_of (k : bytes) (m : Mgr) : option Z := block_id <$> pol_get k (_policy m).
Definition keeps (ks : list bytes) (m m' : Mgr) : Prop := ∀ k, k ∈ ks → id_of k m' = id_of k m.

Lemma off_keeps_trans ks m1 m2 m3 : keeps ks m1 m2 → keeps ks m2 m3 → keeps ks m1 m3.
Proof. intros H1 H2 k Hk. by rewrite H2, H1. Qed.

Lemma set_ref_id m k b n x : pol_ok (_num_blocks m) (_policy m) → pol_get k (_policy m) = Some b →
  id_of x (o_set_policy (pol_update k (set_ref_cnt n) (_policy m)) m) = id_of x m.
Proof.
  intros Hok Hg. unfold id_of. simpl. rewrite (get_updated _ _ _ _ _ _ Hok Hg). case_decide; [|done]. subst. by rewrite Hg.
Qed.

(** ** Loads *)

(** A load of a key that is cached and written. *)
Definition loadable (m : Mgr) (k : bytes) : Prop := ∃ b, pol_get k (_policy m) = Some b ∧ is_ready b = true.

Lemma load_blocks_ok ks : ∀ loads m, off_inv loads m → (∀ k, k ∈ ks → loadable m k) → zlen (ks ++ loads) < 2 ^ 31 →
  ∃ bs m', load_blocks ks m = Ok (bs, m') ∧ off_inv (ks ++ loads) m' ∧ Some <$> (block_id <$> bs) = (λ k, id_of k m) <$> ks
    ∧ ∀ k, id_of k m' = id_of k m.
Proof.
  induction ks as [|k ks IH]; intros loads m Hi Hk Hlen; [by exists [], m|].
  destruct (Hk k ltac:(left)) as (b & Hg & Hr). pose proof (oi_policy _ _ Hi) as Hok.
  set (m1 := o_set_policy (pol_update k (set_ref_cnt (ref_cnt b + 1)) (_policy m)) m).
  assert (Hrb : ref_cnt b = load_count k loads).
  { destruct (oi_refs _ _ Hi k b) as [[E _]|?]; [by apply (get_Some _ _ _ _ Hi)| |done]. unfold is_ready in Hr. rewrite E in Hr. done. }
  pose proof (load_count_bound k loads) as Hc. rewrite zlen_app, zlen_cons in Hlen. pose proof (zlen_nonneg ks).
  assert (Hi1 : off_inv (k :: loads) m1).
  { apply (update_ref loads _ m k b); try done; [lia| | |rewrite zlen_cons; lia].
    - right. rewrite load_count_cons, decide_True by done. lia.
    - intros x Hx. by rewrite load_count_cons, decide_False by done. }
  destruct (IH (k :: loads) m1 Hi1) as (bs & m' & E & Hi' & Hids & Hsame).
  - intros x Hx. destruct (Hk x ltac:(by right)) as (c & Hc' & Hrc). unfold loadable, m1. simpl. rewrite (get_updated _ _ _ _ _ _ Hok Hg).
    case_decide; [|by exists c]. eexists. split; [done|]. unfold is_ready. simpl. rewrite wrap_small by lia. apply Z.leb_le. lia.
  - rewrite zlen_app, zlen_cons. lia.
  - exists (b :: bs), m'. split_and!.
    + cbn [load_blocks]. mstep. rewrite Hg, Hr. mstep. mstep. fold m1. by rewrite (bind_ok _ _ _ _ _ E).
    + eapply off_inv_perm; [|exact Hi']. symmetry. apply Permutation_middle.
    + csimpl. rewrite Hids. f_equal; [unfold id_of; by rewrite Hg|]. apply list_fmap_ext. intros _ x _. by apply (set_ref_id m k b).
    + intros x. rewrite Hsame. by apply (set_ref_id m k b).
Qed.

Lemma complete_load_ok ks : ∀ loads m, off_inv (ks ++ loads) m →
  ∃ m', complete_load ks m = Ok (tt, m') ∧ off_inv loads m' ∧ ∀ k, id_of k m' = id_of k m.
Proof.
  unfold complete_load. induction ks as [|k ks IH]; intros loads m Hi; [by exists m|]. pose proof (oi_policy _ _ Hi) as Hok.
  assert (Hin : k ∈ (k :: ks) ++ loads) by left. pose proof (oi_loads _ _ Hi k Hin) as Hkey.
  destruct (pol_get k (_policy m)) as [b|] eqn:Hg; [|by apply (get_None _ _ _ Hi) in Hg].
  assert (Hrb : ref_cnt b = load_count k ((k :: ks) ++ loads)).
  { destruct (oi_refs _ _ Hi k b) as [[_ ?]|?]; [by apply (get_Some _ _ _ _ Hi)|done|done]. }
  pose proof (load_count_bound k ((k :: ks) ++ loads)) as Hc. pose proof (oi_few _ _ Hi) as Hfew. pose proof (proj1 (load_count_pos _ _) Hin).
  set (m1 := o_set_policy (pol_update k (set_ref_cnt (ref_cnt b - 1)) (_policy m)) m).
  assert (Hi1 : off_inv (ks ++ loads) m1).
  { simpl in *. rewrite load_count_cons, decide_True in Hrb by done. rewrite zlen_cons in Hfew.
    pose proof (load_count_bound k (ks ++ loads)). apply (update_ref (k :: ks ++ loads) _ m k b); try done; [lia|right; lia| |].
    - intros x Hx. by rewrite load_count_cons, decide_False by done.
    - lia. }
  destruct (IH loads m1 Hi1) as (m' & E & Hi' & Hsame). exists m'. split_and!; [|done|].
  - assert (E1 : complete_one k m = Ok (tt, m1)).
    { unfold complete_one. mstep. rewrite Hg, (proj2 (Z.ltb_lt 0 (ref_cnt b))) by lia. done. }
    cbn [forM]. by rewrite (bind_ok _ _ _ _ _ E1).
  - intros x. rewrite Hsame. by apply (set_ref_id m k b).
Qed.

(** ** Allocation *)

Definition unwritten (bs : list BlockStatus) : Prop := ∀ b, b ∈ bs → ref_cnt b = -1.

Lemma fresh_blocks_ok n : ∀ m : Mgr, 0 ≤ _num_allocated_blocks m → _num_allocated_blocks m + Z.of_nat n < 2 ^ 63 →
  ∃ bs, fresh_blocks n m = Ok (bs, o_set_allocated (_num_allocated_blocks m + Z.of_nat n) m) ∧ unwritten bs
    ∧ block_id <$> bs = seqZ (_num_allocated_blocks m) (Z.of_nat n).
Proof.
  induction n as [|n IH]; intros m H0 Hn.
  { exists []. split; [simpl; rewrite Z.add_0_r; by destruct m|]. split; [by intros b ?%not_elem_of_nil|done]. }
  set (a := _num_allocated_blocks m) in *. destruct (IH (o_set_allocated (a + 1) m)) as (bs & E & Hb & Hids); [simpl; lia|simpl; lia|].
  exists (new_block_status a :: bs). cbn [fresh_blocks]. mstep. mstep. fold a. rewrite (bind_ok _ _ _ _ _ E).
  replace (a + Z.of_nat (S n)) with (a + 1 + Z.of_nat n) by lia. split; [done|]. simpl in Hids. split.
  - intros b [->|?]%elem_of_cons; [done|by apply Hb].
  - csimpl. rewrite Hids, (seqZ_cons a) by lia. simpl. rewrite wrap_small by lia. f_equal. f_equal; lia.
Qed.

Lemma removelast_perm (l : list Z) x : last l = Some x → x :: removelast l ≡ₚ l ∧ length l = S (length (removelast l)).
Proof.
  intros (l' & ->)%last_Some. rewrite removelast_last. split; [by rewrite Permutation_app_comm|]. rewrite length_app. simpl. lia.
Qed.

Lemma reused_blocks_ok n : ∀ m : Mgr, (n ≤ length (_free_list m))%nat → (∀ id, id ∈ _free_list m → 0 ≤ id < 2 ^ 63) →
  ∃ bs free', reused_blocks n m = Ok (bs, o_set_free free' m) ∧ length bs = n ∧ unwritten bs
    ∧ (block_id <$> bs) ++ free' ≡ₚ _free_list m.
Proof.
  induction n as [|n IH]; intros m Hn Hf.
  { exists [], (_free_list m). split; [by destruct m|]. split; [done|]. split; [by intros b ?%not_elem_of_nil|done]. }
  destruct (last (_free_list m)) as [x|] eqn:El; [|apply last_None in El; rewrite El in Hn; simpl in Hn; lia].
  destruct (removelast_perm _ _ El) as [Hp Hl].
  destruct (IH (o_set_free (removelast (_free_list m)) m)) as (bs & free' & E & Hlen & Hb & Hids).
  - simpl. lia.
  - intros id Hid. apply Hf. rewrite <-Hp. by right.
  - exists (new_block_status x :: bs), free'. cbn [reused_blocks]. mstep. rewrite El. mstep. rewrite (bind_ok _ _ _ _ _ E).
    split; [done|]. split; [simpl; lia|]. split; [intros b [->|?]%elem_of_cons; [done|by apply Hb]|].
    assert (Hx : x ∈ _free_list m) by (rewrite <-Hp; left). specialize (Hf x Hx).
    csimpl. simpl in Hids. rewrite Hids. simpl. by rewrite wrap_small by lia.
Qed.

(** New blocks for [keys]: their ids were free, or not handed out before. *)
Lemma allocate_blocks_ok loads m keys : off_inv loads m → zlen keys ≤ _get_num_free_blocks m →
  ∃ bs a free', _allocate_blocks keys m = Ok (bs, o_set_free free' (o_set_allocated a m)) ∧ zlen bs = zlen keys ∧ unwritten bs
    ∧ _num_allocated_blocks m ≤ a ≤ _num_blocks m ∧ ids m ++ (block_id <$> bs) ++ free' ≡ₚ seqZ 0 a.
Proof.
  intros [H1 [H2 H2'] H3 H4 H5 H6 H7 H8] Hk. unfold _get_num_free_blocks in Hk. unfold _allocate_blocks. mstep.
  set (nf := Z.min _ _). assert (Hnf : 0 ≤ nf ≤ zlen keys ∧ nf ≤ _num_blocks m - _num_allocated_blocks m) by (pose proof (zlen_nonneg keys); unfold nf; lia).
  assert (Hr : zlen keys - nf ≤ zlen (_free_list m)) by (pose proof (zlen_nonneg (_free_list m)); unfold nf; lia). rewrite (proj2 (Z.leb_le _ _) Hr). mstep.
  destruct (fresh_blocks_ok (Z.to_nat nf) m) as (fb & E1 & F1 & F2); [lia|lia|]. rewrite (bind_ok _ _ _ _ _ E1). rewrite Z2Nat.id in F2 by lia.
  set (a := _num_allocated_blocks m + Z.of_nat (Z.to_nat nf)) in *. assert (Ha : a = _num_allocated_blocks m + nf) by lia.
  destruct (reused_blocks_ok (Z.to_nat (zlen keys - nf)) (o_set_allocated a m)) as (rb & free' & E2 & L2 & R1 & R2).
  - simpl. unfold zlen in *. lia.
  - simpl. intros id Hid. assert (id ∈ seqZ 0 (_num_allocated_blocks m)) as Hin by (rewrite <-H3; apply elem_of_app; by right).
    apply elem_of_seqZ in Hin. lia.
  - rewrite (bind_ok _ _ _ _ _ E2). exists (fb ++ rb), a, free'. split; [done|].
    assert (Lf : zlen fb = nf) by (unfold zlen; rewrite <-(length_fmap block_id), F2, length_seqZ; lia).
    split; [rewrite zlen_app, Lf; unfold zlen in *; lia|]. split; [|split; [lia|]].
    + intros b [?|?]%elem_of_app; auto.
    + simpl in R2. rewrite fmap_app, F2, <-(assoc_L (++)), R2. rewrite (Permutation_app_comm (seqZ _ _)), (assoc_L (++)), H3.
      rewrite Ha, seqZ_app by lia. done.
Qed.

Lemma insert_all_ok n l : ∀ m : Mgr, pol_ok n (_policy m) → NoDup l.*1 → (∀ k, k ∈ l.*1 → pol_get k (_policy m) = None) →
  ∃ p, insert_all l m = Ok (tt, o_set_policy p m) ∧ pol_ok n p ∧ items p ≡ₚ l ++ items (_policy m).
Proof.
  induction l as [|[k b] l IH]; intros m Hok Hnd Hk.
  { exists (_policy m). split; [by destruct m|done]. }
  csimpl in Hnd. apply NoDup_cons in Hnd as [Hni Hnd]. specialize (Hk k ltac:(left)) as Hg.
  destruct (pl_insert _ _ k b Hok Hg) as [Hok1 Hp1]. set (m1 := o_set_policy (pol_insert k b (_policy m)) m).
  destruct (IH m1 Hok1 Hnd) as (p & E & Hokp & Hp).
  - intros x Hx. unfold m1. simpl. rewrite <-(Hk x ltac:(by right)). apply (get_same n n); [done|done|].
    intros c. rewrite Hp1, elem_of_cons. split; [|by right]. intros [[= -> _]|?]; done.
  - exists p. split; [|split; [done|]].
    + cbn [insert_all]. mstep. exact E.
    + rewrite Hp. unfold m1. simpl. rewrite Hp1. symmetry. apply Permutation_middle.
Qed.

(** ** Stores *)

Lemma free_all_ok (l : list (bytes * BlockStatus)) : ∀ m : Mgr,
  forM l (λ x, _free_block x.2) m = Ok (tt, o_set_free (_free_list m ++ (block_id <$> l.*2)) m).
Proof.
  induction l as [|x l IH]; intros m; simpl; [rewrite app_nil_r; by destruct m|].
  assert (E : _free_block x.2 m = Ok (tt, o_set_free (_free_list m ++ [block_id x.2]) m)) by done.
  rewrite (bind_ok _ _ _ _ _ E), IH. simpl. by rewrite <-(assoc_L (++)).
Qed.

(** Blocks [l] leave the policy and their ids become free. *)
Lemma off_inv_remove loads m p l : off_inv loads m → pol_ok (_num_blocks m) p → items (_policy m) ≡ₚ l ++ items p →
  (∀ k b, (k, b) ∈ l → k ∉ loads) → off_inv loads (o_set_free (_free_list m ++ (block_id <$> l.*2)) (o_set_policy p m)).
Proof.
  intros [H1 H2 H3 H4 H5 H6 H7 H8] Hp Hi Hl. split; simpl; try done.
  - unfold ids in *. simpl. rewrite Hi, !fmap_app in H3. rewrite <-H3. rewrite (assoc_L (++)), Permutation_app_comm.
    by rewrite <-(assoc_L (++)).
  - intros k b Hk. apply H4. rewrite Hi. apply elem_of_app. by right.
  - intros k Hk. specialize (H5 k Hk). rewrite Hi, fmap_app in H5. apply elem_of_app in H5 as [Hx|?]; [|done].
    apply list_elem_of_fmap in Hx as ([k' b] & -> & Hx). by destruct (Hl k' b Hx).
Qed.

Lemma make_room_ok loads m n prot : off_inv loads m → 0 < n →
  ∃ res m', make_room n prot m = Ok (res, m') ∧ off_inv loads m' ∧ off_events m' = off_events m
    ∧ match res with
      | None => m' = m
      | Some ks => _get_num_free_blocks m' = _get_num_free_blocks m + n
          ∧ ∃ l, ks = l.*1 ∧ items (_policy m) ≡ₚ l ++ items (_policy m') ∧ ∀ k b, (k, b) ∈ l → ref_cnt b = 0 ∧ k ∉ prot
      end.
Proof.
  intros Hi Hn. unfold make_room. mstep. destruct (pl_evict _ _ n prot (oi_policy _ _ Hi) Hn) as (res & p & E & Hok & Hres).
  rewrite E. mstep. cbv beta iota. mstep. destruct res as [l|].
  - destruct Hres as (Hlen & Hp & Hl). rewrite (bind_ok _ _ _ _ _ (free_all_ok l _)). eexists (Some l.*1), _. split; [reflexivity|].
    split; [apply (off_inv_remove loads m p l Hi Hok Hp)|].
    + intros k b Hkb Hk. destruct (Hl k b Hkb) as [Hr _]. apply load_count_pos in Hk.
      destruct (oi_refs _ _ Hi k b) as [[? _]|?]; [rewrite Hp; apply elem_of_app; by left|lia|lia].
    + split; [done|]. simpl. split; [|by exists l]. unfold _get_num_free_blocks. simpl. rewrite zlen_app. unfold zlen in *.
      rewrite !length_fmap. lia.
  - subst p. eexists None, _. split; [reflexivity|]. split; [by apply (off_inv_same loads m)|]. split; [done|]. by destruct m.
Qed.

Definition frequent (m : Mgr) (keys : list bytes) : list bytes :=
  match counts m with
  | None => keys
  | Some c => List.filter (λ k, store_threshold m <=? default 0 (dict_get c k)) keys
  end.
Definition missing (m : Mgr) (keys : list bytes) : list bytes :=
  List.filter (λ k, bool_decide (pol_get k (_policy m) = None)) keys.

(** The manager that has counted the keys it was not asked for often enough. *)
Definition skips_counted (m : Mgr) (keys : list bytes) : Mgr :=
  o_set_skipped (stores_skipped_in_current_batch m + (zlen keys - zlen (frequent m keys))) m.

Lemma frequent_keys_ok loads m keys : off_inv loads m →
  ∃ m', frequent_keys keys m = Ok (frequent m keys, m') ∧ off_inv loads m' ∧ _policy m' = _policy m ∧ m' = skips_counted m keys.
Proof.
  intros Hi. unfold frequent_keys, skips_counted, frequent. mstep. destruct (counts m) as [c|] eqn:Ec.
  - mstep. eexists. split; [reflexivity|]. split; [by apply (off_inv_same loads m)|done].
  - exists m. split_and!; try done. rewrite Z.sub_diag, Z.add_0_r. by destruct m.
Qed.

Lemma add_event_ok loads m keys removed : off_inv loads m →
  ∃ m', add_event keys removed m = Ok (tt, m') ∧ off_inv loads m' ∧ _policy m' = _policy m
    ∧ _get_num_free_blocks m' = _get_num_free_blocks m.
Proof.
  intros Hi. unfold add_event. mstep. destruct keys as [|k ks]; [by exists m|]. destruct (off_events m); [|by exists m].
  eexists. split; [reflexivity|]. split; [by apply (off_inv_same loads m)|done].
Qed.

Lemma filter_nodup {A} (f : A → bool) (l : list A) : NoDup l → NoDup (List.filter f l) ∧ ∀ x, x ∈ List.filter f l ↔ x ∈ l ∧ f x = true.
Proof.
  intros Hl. split.
  - apply NoDup_ListNoDup, List.NoDup_filter, NoDup_ListNoDup, Hl.
  - intros x. rewrite !list_elem_of_In. apply List.filter_In.
Qed.

(** The outcome of [prepare_store]: refused, with the cache unchanged, or [evicted]
    gave way to new blocks for the keys that were missing. *)
Definition stored_as (m m' : Mgr) (keys : list bytes) (out : option PrepareStoreOutput) : Prop :=
  match out with
  | None => m' = skips_counted m keys
  | Some o =>
      ∃ evicted kept blocks, keys_to_store o = missing m (frequent m keys) ∧ evicted_keys o = evicted.*1
        ∧ store_spec o = block_id <$> blocks ∧ length blocks = length (keys_to_store o) ∧ unwritten blocks
        ∧ items (_policy m) ≡ₚ evicted ++ kept ∧ items (_policy m') ≡ₚ zip (keys_to_store o) blocks ++ kept
        ∧ ∀ k b, (k, b) ∈ evicted → ref_cnt b = 0 ∧ k ∉ frequent m keys
  end.

(** Storing into free blocks. *)
Lemma store_new_ok loads m keys : off_inv loads m → NoDup keys → (∀ k, k ∈ keys → pol_get k (_policy m) = None) →
  zlen keys ≤ _get_num_free_blocks m →
  ∃ bs m1 m2, _allocate_blocks keys m = Ok (bs, m1) ∧ zlen bs = zlen keys ∧ unwritten bs
    ∧ insert_all (zip keys bs) m1 = Ok (tt, m2) ∧ off_inv loads m2 ∧ items (_policy m2) ≡ₚ zip keys bs ++ items (_policy m).
Proof.
  intros Hi Hnd Hk Hz. destruct (allocate_blocks_ok loads m keys Hi Hz) as (bs & a & free' & E & Hlen & Hu & Ha & Hids).
  set (m1 := o_set_free free' (o_set_allocated a m)) in *. pose proof Hi as [H1 [H2 H2'] H3 H4 H5 H6 H7 H8].
  assert (Hl : length keys = length bs) by (unfold zlen in Hlen; lia).
  assert (Hfst : (zip keys bs).*1 = keys) by (apply fst_zip; lia). assert (Hsnd : (zip keys bs).*2 = bs) by (apply snd_zip; lia).
  destruct (insert_all_ok (_num_blocks m) (zip keys bs) m1) as (p & E2 & Hok & Hp); [done|by rewrite Hfst|rewrite Hfst; exact Hk|].
  exists bs, m1, (o_set_policy p m1). split_and!; try done. simpl in Hp. split; simpl; try done.
  - split; [lia|done].
  - unfold ids in *. simpl. rewrite Hp, !fmap_app, Hsnd, <-(assoc_L (++)), Permutation_app_comm, <-(assoc_L (++)).
    rewrite (Permutation_app_comm free'). exact Hids.
  - intros k b. rewrite Hp. intros [Hkb|Hkb]%elem_of_app; [|by apply H4]. left. split.
    + apply Hu. rewrite <-Hsnd. apply list_elem_of_fmap. by exists (k, b).
    + intros Hx%H5. assert (Hin : k ∈ keys) by (rewrite <-Hfst; apply list_elem_of_fmap; by exists (k, b)).
      by apply (get_None _ _ _ Hi) in Hx; [|apply Hk].
  - intros k Hx%H5. rewrite Hp, fmap_app, elem_of_app. by right.
Qed.

Lemma prepare_store_ok loads m keys : off_inv loads m → NoDup keys →
  ∃ out m', prepare_store keys m = Ok (out, m') ∧ off_inv loads m' ∧ stored_as m m' keys out.
Proof.
  intros Hi Hnd. destruct (frequent_keys_ok loads m keys Hi) as (m1 & E1 & Hi1 & Ep1 & Em1).
  unfold prepare_store. rewrite (bind_ok _ _ _ _ _ E1). mstep. set (fk := frequent m keys).
  assert (Hfk : NoDup fk).
  { unfold fk, frequent. destruct (counts m); [|done]. by apply filter_nodup. }
  destruct (filter_nodup (λ k, bool_decide (pol_get k (_policy m) = None)) fk Hfk) as [Hns Hin].
  rewrite Ep1. fold (missing m fk) in *. set (ks := missing m fk) in *.
  assert (Hmiss : ∀ k, k ∈ ks → k ∈ fk ∧ pol_get k (_policy m) = None) by (intros k Hk; apply Hin in Hk as [? ?%bool_decide_eq_true]; done).
  destruct (decide (ks = [])) as [Enil|Hne].
  { rewrite Enil. eexists _, m1. split; [reflexivity|]. split; [done|]. exists [], (items (_policy m)), [].
    simpl. fold fk ks. rewrite Ep1, Enil. split_and!; try done; [by intros b ?%not_elem_of_nil|by intros k b ?%not_elem_of_nil]. }
  assert (Hgo : ∀ to_evict evicted m2, off_inv loads m2 → to_evict = evicted.*1 → items (_policy m) ≡ₚ evicted ++ items (_policy m2) →
    (∀ k b, (k, b) ∈ evicted → ref_cnt b = 0 ∧ k ∉ fk) → zlen ks ≤ _get_num_free_blocks m2 →
    ∃ out m', (_ ← add_event to_evict true; blocks ← _allocate_blocks ks; _ ← py_assert (zlen blocks =? zlen ks);
      _ ← insert_all (zip ks blocks); mret (Some (mkPrepareStoreOutput ks (block_id <$> blocks) to_evict))) m2 = Ok (out, m')
      ∧ off_inv loads m' ∧ stored_as m m' keys out).
  { intros to_evict evicted m2 Hi2 -> Hp Hev Hz. destruct (add_event_ok loads m2 evicted.*1 true Hi2) as (m3 & E3 & Hi3 & Ep3 & Hf3).
    rewrite (bind_ok _ _ _ _ _ E3).
    destruct (store_new_ok loads m3 ks Hi3 Hns) as (bs & m4 & m5 & E4 & Hlen & Hu & E5 & Hi5 & Hp5); [|by rewrite Hf3|].
    - intros k [_ Hk]%Hmiss. apply (get_None _ _ _ Hi3). rewrite Ep3. apply (get_None _ _ _ Hi) in Hk. rewrite Hp, fmap_app in Hk.
      intros Hx. apply Hk, elem_of_app. by right.
    - rewrite (bind_ok _ _ _ _ _ E4), Hlen, Z.eqb_refl. mstep. rewrite (bind_ok _ _ _ _ _ E5).
      eexists _, m5. split; [reflexivity|]. split; [done|]. exists evicted, (items (_policy m2)), bs.
      simpl. fold fk ks. rewrite Ep3 in Hp5. unfold zlen in Hlen. split_and!; try done. lia. }
  destruct ks as [|k0 ks'] eqn:Eks; [done|]. rewrite <-Eks in *. destruct (Z.ltb_spec 0 (zlen ks - _get_num_free_blocks m1)) as [Hz|Hz].
  - destruct (make_room_ok loads m1 _ fk Hi1 Hz) as (res & m2 & E2 & Hi2 & _ & Hres). rewrite (bind_ok _ _ _ _ _ E2).
    destruct res as [te|].
    + destruct Hres as (Hfree & l & -> & Hp & Hl). apply (Hgo _ l m2); try done; [by rewrite <-Ep1|lia].
    + eexists None, m2. split; [reflexivity|]. split; [done|]. simpl. congruence.
  - mstep. apply (Hgo [] [] m1); try done; [by rewrite Ep1|by intros k b ?%not_elem_of_nil|lia].
Qed.

(** A block that is not ready is being written, and nobody loads it. *)
Lemma not_ready loads m k b : off_inv loads m → pol_get k (_policy m) = Some b → is_ready b = false → ref_cnt b = -1 ∧ k ∉ loads.
Proof.
  intros Hi Hg Hr. unfold is_ready in Hr. apply Z.leb_gt in Hr. pose proof (load_count_bound k loads).
  destruct (oi_refs _ _ Hi k b) as [?|?]; [by apply (get_Some _ _ _ _ Hi)|done|lia].
Qed.

Lemma mark_stored_ok loads ks : ∀ m, off_inv loads m →
  ∃ stored m', mark_stored ks m = Ok (stored, m') ∧ off_inv loads m' ∧ ∀ k, id_of k m' = id_of k m.
Proof.
  induction ks as [|k ks IH]; intros m Hi; [by exists [], m|]. cbn [mark_stored]. mstep.
  destruct (pol_get k (_policy m)) as [b|] eqn:Hg; [|by apply IH]. destruct (is_ready b) eqn:Hr; cbn [negb]; [by apply IH|].
  destruct (not_ready _ _ _ _ Hi Hg Hr) as [Hb Hn]. mstep. set (m1 := o_set_policy _ m).
  assert (Hi1 : off_inv loads m1).
  { apply (update_ref loads loads m k b); try done; [right|apply (oi_few _ _ Hi)]. pose proof (load_count_bound k loads).
    rewrite load_count_pos in Hn. lia. }
  destruct (IH m1 Hi1) as (stored & m' & E & Hi' & Hs). rewrite (bind_ok _ _ _ _ _ E). eexists _, m'. split; [reflexivity|].
  split; [done|]. intros x. rewrite Hs. apply (set_ref_id m k b); [apply (oi_policy _ _ Hi)|done].
Qed.

Lemma drop_store_ok loads k m : off_inv loads m → ∃ m', drop_store k m = Ok (tt, m') ∧ off_inv loads m' ∧ keeps loads m m'.
Proof.
  intros Hi. unfold drop_store. mstep. destruct (pol_get k (_policy m)) as [b|] eqn:Hg; [|by exists m].
  destruct (is_ready b) eqn:Hr; cbn [negb]; [by exists m|]. destruct (not_ready _ _ _ _ Hi Hg Hr) as [Hb Hn].
  pose proof (oi_policy _ _ Hi) as Hok. destruct (pl_remove _ _ k b Hok Hg) as (p & E & Hokp & Hp). rewrite E. mstep. mstep.
  eexists. split; [reflexivity|]. split.
  - apply (off_inv_remove loads m p [(k, b)] Hi Hokp Hp). by intros x c [= -> ->]%list_elem_of_singleton.
  - intros x Hx. unfold id_of. simpl. f_equal. apply (get_same (_num_blocks m) (_num_blocks m)); [done|done|].
    intros c. rewrite Hp, elem_of_cons. split; [by right|]. intros [[= -> _]|?]; done.
Qed.

Lemma drop_all_ok loads ks : ∀ m, off_inv loads m → ∃ m', forM ks drop_store m = Ok (tt, m') ∧ off_inv loads m' ∧ keeps loads m m'.
Proof.
  induction ks as [|k ks IH]; intros m Hi; [by exists m|]. destruct (drop_store_ok loads k m Hi) as (m1 & E1 & H1 & K1).
  destruct (IH m1 H1) as (m2 & E2 & H2 & K2). exists m2. cbn [forM]. rewrite (bind_ok _ _ _ _ _ E1). split; [done|].
  split; [done|]. by eapply off_keeps_trans.
Qed.

Lemma complete_store_ok loads m ks (ok : bool) : off_inv loads m →
  ∃ m', complete_store ks ok m = Ok (tt, m') ∧ off_inv loads m' ∧ keeps loads m m'.
Proof.
  intros Hi. unfold complete_store. destruct ok; [|by apply drop_all_ok].
  destruct (mark_stored_ok loads ks m Hi) as (st & m1 & E1 & H1 & K1). rewrite (bind_ok _ _ _ _ _ E1).
  destruct (add_event_ok loads m1 st false H1) as (m2 & E2 & H2 & Ep & _). exists m2. split; [done|]. split; [done|].
  intros k _. unfold id_of in *. rewrite Ep. apply K1.
Qed.

(** ** Lookup *)

Lemma dict_set_zlen {V} (c : list (bytes * V)) k v : zlen (dict_set c k v) ≤ zlen c + 1.
Proof. induction c as [|[k' v'] c IH]; simpl; [done|]. case_decide; rewrite !zlen_cons; lia. Qed.
Lemma dict_set_zlen_present {V} (c : list (bytes * V)) k v : is_Some (dict_get c k) → zlen (dict_set c k v) = zlen c.
Proof.
  intros Hk%dict_get_is_Some. unfold zlen. rewrite <-!(length_fmap fst), dict_set_keys, decide_True by done. done.
Qed.

Lemma count_key_ok loads m k : off_inv loads m → ∃ m', count_key k m = Ok (tt, m') ∧ off_inv loads m' ∧ _policy m' = _policy m.
Proof.
  intros Hi. pose proof Hi as [H1 H2 H3 H4 H5 H6 H7 H8]. unfold count_key. mstep. destruct (counts m) as [c|] eqn:Ec; [|by exists m].
  assert (Hset : ∀ c', zlen c' ≤ max_tracker_size m → ∃ m', put (o_set_counts (Some c') m) m = Ok (tt, m') ∧ off_inv loads m' ∧ _policy m' = _policy m).
  { intros c' Hc'. eexists. split; [reflexivity|]. split; [|done]. split; simpl; try done. by intros ? [= <-]. }
  specialize (H7 c eq_refl). destruct (dict_get c k) as [n|] eqn:Ek.
  - apply Hset. rewrite dict_set_zlen_present; [unfold zlen in *; by rewrite move_perm|]. apply dict_get_is_Some. rewrite move_perm.
    apply dict_get_is_Some. by exists n.
  - destruct (Z.leb_spec (max_tracker_size m) (zlen c)) as [Hz|Hz].
    + destruct c as [|x c]; [unfold zlen in Hz; simpl in Hz; lia|]. apply Hset. rewrite zlen_cons in *. pose proof (dict_set_zlen c k 1). lia.
    + apply Hset. pose proof (dict_set_zlen c k 1). lia.
Qed.

(** [lookup] answers whether the block is cached and written. *)
Lemma off_lookup_ok loads m k : off_inv loads m → ∃ m', off_lookup k m =
    Ok (match pol_get k (_policy m) with None => Some false | Some b => if is_ready b then Some true else None end, m')
  ∧ off_inv loads m' ∧ _policy m' = _policy m.
Proof.
  intros Hi. unfold off_lookup. destruct (count_key_ok loads m k Hi) as (m1 & E & H1 & Ep). rewrite (bind_ok _ _ _ _ _ E). mstep.
  rewrite Ep. exists m1. split; [|done]. destruct (pol_get k (_policy m)) as [b|]; [|done]. by destruct (is_ready b).
Qed.

Lemma off_touch_ok loads m ks : off_inv loads m → ∃ m', off_touch ks m = Ok (tt, m') ∧ off_inv loads m' ∧ keeps loads m m'.
Proof.
  intros Hi. destruct (pl_touch _ _ ks (oi_policy _ _ Hi)) as [Hok Hp]. eexists. split; [reflexivity|]. split.
  - apply (off_inv_items loads); try done; [unfold ids; by rewrite Hp|by rewrite Hp| |apply (oi_loads _ _ Hi)|apply (oi_few _ _ Hi)].
    intros k b. rewrite Hp. apply (oi_refs _ _ Hi).
  - intros k _. unfold id_of. simpl. f_equal. apply (get_same (_num_blocks m) (_num_blocks m)); [apply (oi_policy _ _ Hi)|done|].
    intros b. by rewrite Hp.
Qed.

Lemma reset_cache_ok loads m : off_inv loads m → ∃ m', reset_cache m = Ok (tt, m') ∧ off_inv [] m'.
Proof.
  intros [H1 H2 H3 H4 H5 H6 H7 H8]. destruct (pl_clear _ _ H1) as [Hok Hnil]. eexists. split; [reflexivity|].
  split; simpl; try done; [lia|unfold ids; simpl; by rewrite Hnil| |by intros k ?%not_elem_of_nil].
  intros k b. rewrite Hnil. by intros ?%not_elem_of_nil.
Qed.

(** Keys in use survive a store. *)
Lemma stored_keeps loads m m' keys out : off_inv loads m → off_inv loads m' → stored_as m m' keys out → keeps loads m m'.
Proof.
  intros Hi Hi' Hs k Hk. unfold id_of. destruct out as [o|]; simpl in Hs; [|by rewrite Hs].
  destruct Hs as (ev & kept & bs & E1 & E2 & E3 & E4 & E5 & E6 & E7 & E8). f_equal.
  pose proof (oi_loads _ _ Hi k Hk) as Hkey. rewrite list_elem_of_fmap in Hkey. destruct Hkey as ([k' b] & -> & Hb). simpl in *.
  assert (Hkept : (k', b) ∈ kept).
  { pose proof Hb as Hb'. rewrite E6 in Hb. apply elem_of_app in Hb as [Hb|?]; [|done]. destruct (E8 k' b Hb) as [Hr _].
    apply load_count_pos in Hk. destruct (oi_refs _ _ Hi k' b Hb') as [[? _]|?]; lia. }
  rewrite (proj2 (get_Some _ _ _ _ Hi) Hb). apply (get_Some _ _ _ _ Hi'). rewrite E7. apply elem_of_app. by right.
Qed.

(** ** Sequences of calls *)

Inductive off_op :=
  | OffLookup (key : bytes)
  | PrepareLoad (keys : list bytes)
  | CompleteLoad (keys : list bytes)
  | OffTouch (keys : list bytes)
  | PrepareStore (keys : list bytes)
  | CompleteStore (keys : list bytes) (success : bool)
  | ResetCache
  | TakeEvents
  | GetStats.

Definition run_off_op (op : off_op) : OM unit :=
  match op with
  | OffLookup key => _ ← off_lookup key; mret tt
  | PrepareLoad keys => _ ← prepare_load keys; mret tt
  | CompleteLoad keys => complete_load keys
  | OffTouch keys => off_touch keys
  | PrepareStore keys => _ ← prepare_store keys; mret tt
  | CompleteStore keys success => complete_store keys success
  | ResetCache => reset_cache
  | TakeEvents => _ ← off_take_events; mret tt
  | GetStats => _ ← get_stats; mret tt
  end.

(** The loads in progress before and after a call. After a reset, calls for earlier
    transfers are not made. *)
Inductive transfers (loads : list bytes) : off_op → list bytes → Prop :=
  | begin_load keys : transfers loads (PrepareLoad keys) (keys ++ loads)
  | end_load keys loads' : loads ≡ₚ keys ++ loads' → transfers loads (CompleteLoad keys) loads'
  | forget_loads : transfers loads ResetCache []
  | no_load op : (∀ keys, op ≠ PrepareLoad keys ∧ op ≠ CompleteLoad keys) → op ≠ ResetCache → transfers loads op loads.

(** Calls as the offloading connector makes them: loads are of blocks that a lookup has
    found, and stores name each key once. *)
Definition off_op_pre (m : Mgr) (op : off_op) : Prop :=
  match op with
  | PrepareLoad keys => ∀ k, k ∈ keys → loadable m k
  | PrepareStore keys => NoDup keys
  | _ => True
  end.

Inductive reachable (m0 : Mgr) : list bytes → Mgr → Prop :=
  | at_start : reachable m0 [] m0
  | after_call loads m op loads' m' : reachable m0 loads m → off_op_pre m op → transfers loads op loads' →
      zlen loads' < 2 ^ 31 → run_off_op op m = Ok (tt, m') → reachable m0 loads' m'.

Lemma off_op_ok loads m op loads' : off_inv loads m → off_op_pre m op → transfers loads op loads' → zlen loads' < 2 ^ 31 →
  ∃ m', run_off_op op m = Ok (tt, m') ∧ off_inv loads' m' ∧ (op ≠ ResetCache → keeps loads m m').
Proof.
  intros Hi Hpre Ht Hlen. destruct Ht as [keys|keys loads' Hp| |op Hop Hr].
  - destruct (load_blocks_ok keys loads m Hi Hpre Hlen) as (bs & m' & E & Hi' & _ & Hs). exists m'.
    simpl. unfold prepare_load. split; [|split; [done|intros _ k _; apply Hs]].
    assert (E' : (bs ← load_blocks keys; mret (block_id <$> bs)) m = Ok (block_id <$> bs, m')) by (by rewrite (bind_ok _ _ _ _ _ E)).
    by rewrite (bind_ok _ _ _ _ _ E').
  - destruct (complete_load_ok keys loads' m) as (m' & E & Hi' & Hs); [by eapply off_inv_perm|]. exists m'.
    split; [done|]. split; [done|]. intros _ k _. apply Hs.
  - destruct (reset_cache_ok loads m Hi) as (m' & E & Hi'). by exists m'.
  - destruct op as [k|ks|ks|ks|ks|ks ok| | |]; try (by destruct (Hop ks)); try done; simpl.
    + destruct (off_lookup_ok loads m k Hi) as (m' & E & Hi' & Ep). rewrite (bind_ok _ _ _ _ _ E). exists m'.
      split; [done|]. split; [done|]. intros _ x _. unfold id_of. by rewrite Ep.
    + destruct (off_touch_ok loads m ks Hi) as (m' & E & Hi' & Hk). by exists m'.
    + destruct (prepare_store_ok loads m ks Hi Hpre) as (out & m' & E & Hi' & Hs). rewrite (bind_ok _ _ _ _ _ E).
      exists m'. split; [done|]. split; [done|]. intros _. by eapply stored_keeps.
    + destruct (complete_store_ok loads m ks ok Hi) as (m' & E & Hi' & Hk). by exists m'.
    + unfold off_take_events. destruct (off_events m) eqn:Ee.
      * eexists. split; [unfold mbind, M_bind, get, put; rewrite Ee; reflexivity|]. split; [by apply (off_inv_same loads m)|done].
      * exists m. split; [unfold mbind, M_bind, get; by rewrite Ee|done].
    + unfold get_stats. destruct (store_threshold m <? 2) eqn:Ee.
      * exists m. split; [unfold mbind, M_bind, get; by rewrite Ee|done].
      * eexists. split; [unfold mbind, M_bind, get, put; rewrite Ee; reflexivity|]. split; [by apply (off_inv_same loads m)|done].
Qed.

Lemma new_off_inv n ev threshold tracker : 0 ≤ n < 2 ^ 63 → 0 < tracker → off_inv [] (new_offloading_manager n ev threshold tracker).
Proof.
  intros Hn Ht. destruct (pl_new n) as [Hok Hnil]; [lia|].
  split; simpl; try done; [lia|unfold ids; simpl; by rewrite Hnil|intros k b; rewrite Hnil; by intros ?%not_elem_of_nil|
    by intros k ?%not_elem_of_nil|]. intros c Hc. destruct (2 <=? threshold); [|done]. injection Hc as <-. unfold zlen. simpl. lia.
Qed.

Lemma reachable_inv m0 loads m : off_inv [] m0 → reachable m0 loads m → off_inv loads m.
Proof.
  intros H0. induction 1 as [|loads m op loads' m' _ IH Hpre Ht Hlen E]; [done|].
  destruct (off_op_ok loads m op loads' IH Hpre Ht Hlen) as (m'' & E' & Hi & _). rewrite E in E'. by injection E' as <-.
Qed.
End manager.

(** ** Theorems *)

(** C34. The offloading cache never mixes up its blocks, for every replacement policy
    that satisfies the interface (LRU and ARC do). In every state reachable by calls as
    the connector makes them, the ids of the cached blocks and the free ids are the ids
    handed out so far, each exactly once, and fit the buffer; each key being loaded is
    cached, written, and counted once per load. Every further call returns without
    raising, and none but a reset changes which block a key that is being loaded has, so
    no transfer reads a block that is evicted or reused. *)
Theorem offload_loads_are_stable {P} `{PolicyLaws P} n ev threshold tracker loads (m : CPUOffloadingManager P) :
  0 ≤ n < 2 ^ 63 → 0 < tracker → reachable (new_offloading_manager n ev threshold tracker) loads m →
  (∃ a, 0 ≤ a ≤ _num_blocks m ∧ (block_id <$> (items (_policy m)).*2) ++ _free_list m ≡ₚ seqZ 0 a)
  ∧ (∀ k, k ∈ loads → ∃ b, pol_get k (_policy m) = Some b ∧ ref_cnt b = load_count k loads ∧ 0 < ref_cnt b)
  ∧ ∀ op loads', off_op_pre m op → transfers loads op loads' → zlen loads' < 2 ^ 31 →
      ∃ m', run_off_op op m = Ok (tt, m')
        ∧ (op ≠ ResetCache → ∀ k, k ∈ loads → block_id <$> pol_get k (_policy m') = block_id <$> pol_get k (_policy m)).
Proof.
  intros Hn Ht Hr. pose proof (reachable_inv _ _ _ (new_off_inv n ev threshold tracker Hn Ht) Hr) as Hi. split_and!.
  - exists (_num_allocated_blocks m). split; [apply (oi_bound _ _ Hi)|apply (oi_ids _ _ Hi)].
  - intros k Hk. pose proof (oi_loads _ _ Hi k Hk) as Hkey. destruct (pol_get k (_policy m)) as [b|] eqn:Hg;
      [|by apply (get_None _ _ _ Hi) in Hg]. exists b. split; [done|]. pose proof Hk as Hc. apply load_count_pos in Hc.
    destruct (oi_refs _ _ Hi k b) as [[_ ?]|E]; [by apply (get_Some _ _ _ _ Hi)|done|]. rewrite E. done.
  - intros op loads' Hpre Htr Hlen. destruct (off_op_ok loads m op loads' Hi Hpre Htr Hlen) as (m' & E & _ & Hk). by exists m'.
Qed.

(** C35. A store, in every reachable state and for every policy: it either is refused,
    and then nothing changes but the count of the keys that were not looked up often
    enough, or succeeds for exactly the keys that are not cached yet (and were looked up
    often enough, when that is counted). Then each of them has a new block of its own that
    is not readable before the store completes, the evicted blocks were not being read or
    written, and all other blocks stay as they were. An evicted block is not a key of the
    call, unless a store threshold is set and the key was looked up less often than that
    (see [store_evicts_its_own_key]). *)
Theorem prepare_store_outcome {P} `{PolicyLaws P} n ev threshold tracker loads (m : CPUOffloadingManager P) keys :
  0 ≤ n < 2 ^ 63 → 0 < tracker → reachable (new_offloading_manager n ev threshold tracker) loads m → NoDup keys →
  ∃ out m', prepare_store keys m = Ok (out, m')
    ∧ match out with
      | None => m' = skips_counted m keys
      | Some o =>
          (∀ k, k ∈ keys_to_store o ↔ k ∈ keys ∧ pol_get k (_policy m) = None
             ∧ ∀ c, counts m = Some c → store_threshold m ≤ default 0 (dict_get c k))
          ∧ ∃ evicted kept blocks, evicted_keys o = evicted.*1 ∧ store_spec o = block_id <$> blocks
              ∧ length blocks = length (keys_to_store o) ∧ (∀ b, b ∈ blocks → is_ready b = false)
              ∧ items (_policy m) ≡ₚ evicted ++ kept ∧ items (_policy m') ≡ₚ zip (keys_to_store o) blocks ++ kept
              ∧ NoDup (block_id <$> (items (_policy m')).*2)
              ∧ ∀ k b, (k, b) ∈ evicted → ref_cnt b = 0
                  ∧ (k ∈ keys → ∃ c, counts m = Some c ∧ default 0 (dict_get c k) < store_threshold m)
      end.
Proof.
  intros Hn Ht Hr Hnd. pose proof (reachable_inv _ _ _ (new_off_inv n ev threshold tracker Hn Ht) Hr) as Hi.
  destruct (prepare_store_ok loads m keys Hi Hnd) as (out & m' & E & Hi' & Hs). exists out, m'. split; [done|].
  destruct out as [o|]; [|done]. destruct Hs as (ev' & kept & bs & E1 & E2 & E3 & E4 & E5 & E6 & E7 & E8).
  assert (Hfk : NoDup (frequent m keys) ∧ ∀ k, k ∈ frequent m keys ↔ k ∈ keys ∧ ∀ c, counts m = Some c → store_threshold m ≤ default 0 (dict_get c k)).
  { unfold frequent. destruct (counts m) as [c|] eqn:Ec; [|split; [done|]; intros k; split; [done|tauto]].
    destruct (filter_nodup (λ k, store_threshold m <=? default 0 (dict_get c k)) keys Hnd) as [F1 F2]. split; [done|].
    intros k. rewrite F2, Z.leb_le. split; [intros [? ?]; split; [done|by intros ? [= <-]]|]. intros [? Hc]. by split; [|apply Hc]. }
  destruct Hfk as [Hfk Hin]. destruct (filter_nodup (λ k, bool_decide (pol_get k (_policy m) = None)) _ Hfk) as [_ Hm]. split.
  - intros k. rewrite E1. unfold missing. rewrite Hm, Hin, bool_decide_eq_true. tauto.
  - exists ev', kept, bs. split_and!; try done.
    + intros b Hb%E5. unfold is_ready. by rewrite Hb.
    + pose proof (oi_ids _ _ Hi') as Hids. assert (NoDup (ids m' ++ _free_list m')) as Hd by (rewrite Hids; apply NoDup_seqZ).
      by apply NoDup_app in Hd as [? _].
    + intros k b Hk. destruct (E8 k b Hk) as [? Hf]. split; [done|]. rewrite Hin in Hf. intros Hx.
      destruct (counts m) as [c|] eqn:Ec; [exists c; split; [done|]|destruct Hf; by split].
      apply Z.nle_gt. intros Hc. apply Hf. split; [done|]. by intros ? [= <-].
Qed.

(** ** A refusal of ARC

    [CachePolicy.evict] is documented to return [None] when the evictions cannot be
    satisfied. ARC looks for a candidate in T1 only while T1 is at least as long as its
    target, and gives up when T2 has none, although T1 has blocks that could be evicted:
    here two keys that were evicted are looked up again, which raises the target to 2,
    and the store of a further key is refused while the unused block [k3] is in T1. *)
Definition k1 : bytes := [x01].
Definition k2 : bytes := [x02].
Definition k3 : bytes := [x03].
Definition k4 : bytes := [x04].

Fixpoint run_off_ops {P} `{CachePolicy P} (ops : list off_op) : M (CPUOffloadingManager P) unit :=
  match ops with [] => mret tt | op :: ops => _ ← run_off_op op; run_off_ops ops end.

Definition arc_history : list off_op :=
  [PrepareStore [k1; k2]; CompleteStore [k1; k2] true; PrepareStore [k3]; CompleteStore [k3] true;
   OffTouch [k1]; OffTouch [k1]; OffTouch [k2]; PrepareLoad [k2]].

Theorem arc_refuses_with_evictable_block :
  match run_off_ops arc_history (new_offloading_manager (P:=ARCCachePolicy) 2 false 1 64) with
  | Ok (_, m) =>
      match prepare_store [k4] m with
      | Ok (None, m') => ref_cnt <$> dict_get (t1 (_policy m')) k3 = Some 0
      | _ => False
      end
  | Err _ => False
  end.
Proof. vm_compute. reflexivity. Qed.

(** ** A store that evicts a key of its own call

    The blocks of the call are meant to be excluded from eviction, but the keys below the
    store threshold have been filtered out by then. Here [k1] is stored, its count leaves
    the tracker (of size 1) when [k2] is looked up, and the store of both evicts [k1]. *)
Lemma store_evicts_its_own_key :
  match run_off_ops [OffLookup k1; OffLookup k1; PrepareStore [k1]; CompleteStore [k1] true; OffLookup k2; OffLookup k2]
          (new_offloading_manager (P:=LRUCachePolicy) 1 false 2 1) with
  | Ok (_, m) =>
      match prepare_store [k1; k2] m with
      | Ok (Some o, m') => evicted_keys o = [k1] ∧ keys_to_store o = [k2] ∧ pol_get k1 (_policy m') = None
      | _ => False
      end
  | Err _ => False
  end.
Proof. vm_compute. split_and!; reflexivity. Qed.

(** ** Witnesses *)

Abbreviation demo_offload := (new_offloading_manager (P:=LRUCachePolicy) 2 true 1 64).

Lemma demo_loading : ∃ m, reachable demo_offload [k1] m ∧ zlen (items (_policy m)) = 2.
Proof.
  assert (∃ m, reachable demo_offload [] m ∧ m = match run_off_ops [PrepareStore [k1; k2]; CompleteStore [k1; k2] true] demo_offload with
    | Ok (_, m) => m | Err _ => demo_offload end) as (m & Hr & Em).
  { eexists. split; [|reflexivity]. eapply (after_call _ [] _ (CompleteStore [k1; k2] true) []);
      [eapply (after_call _ [] _ (PrepareStore [k1; k2]) []);
        [apply at_start|apply (bool_decide_unpack _); by vm_compute|by apply no_load|done|reflexivity]
      |done|by apply no_load|done|reflexivity]. }
  vm_compute in Em. subst m. eexists. split.
  { eapply (after_call _ [] _ (PrepareLoad [k1]) [k1]); [exact Hr| |apply (begin_load [] [k1])|done|reflexivity].
    intros k ->%list_elem_of_singleton. eexists. split; reflexivity. }
  reflexivity.
Qed.

Lemma offload_loads_are_stable_witness : ∃ m, reachable demo_offload [k1] m ∧ ∃ b, pol_get k1 (_policy m) = Some b ∧ 0 < ref_cnt b.
Proof.
  destruct demo_loading as (m & Hr & _). exists m. split; [done|].
  destruct (offload_loads_are_stable 2 true 1 64 [k1] m ltac:(lia) ltac:(lia) Hr) as (_ & Hl & _).
  destruct (Hl k1 ltac:(left)) as (b & Hb & _ & Hc). by exists b.
Defined.

Lemma prepare_store_outcome_witness : ∃ m out m', reachable demo_offload [k1] m ∧ prepare_store [k3] m = Ok (out, m').
Proof.
  destruct demo_loading as (m & Hr & _).
  destruct (prepare_store_outcome 2 true 1 64 [k1] m [k3] ltac:(lia) ltac:(lia) Hr) as (out & m' & E & _); [apply NoDup_singleton|].
  by exists m, out, m'.
Defined.
