(* ===== verification/KVGroups.v ===== *)
(** * KV-cache groups

    Models the grouping half of the start-up planning in [vllm/v1/core/kv_cache_utils.py]:
    how the layers of a model are split into groups that share a block table
    ([get_kv_cache_groups] and everything it calls), and the block sizes the scheduler
    derives from the groups ([resolve_kv_cache_block_sizes]). A [dict[str, KVCacheSpec]]
    is an association list in insertion order with distinct keys; every layer has its
    own spec object, so the in-place padding of a spec is an update of its entry. *)

From Stdlib Require Import ZArith Lia.
From S2P Require Import Prelude MathUtils KVSpec.
Local Open Scope Z_scope.

(** The fields of [VllmConfig] the planning reads, beside those the specs read. *)
Record PlanConfig := mkPlanConfig {
  plan_vllm : VllmConfig;
  original_max_model_len : Z;
  num_gpu_blocks_override : option Z;
  disable_hybrid_kv_cache_manager : bool;
  spec_use_eagle : bool;
  cache_block_size : Z;
  cache_hash_block_size : option Z;
  cache_enable_prefix_caching : bool;
  kv_transfer_enabled : bool
}.

Abbreviation LayerDict := (list (string * LayerSpec)).

(** ** Python arithmetic that may raise *)

Definition py_floordiv (a b : Z) : result Z := if b =? 0 then Err ZeroDivisionError else Ok (a / b).
Definition py_mod (a b : Z) : result Z := if b =? 0 then Err ZeroDivisionError else Ok (a mod b).
Definition assert_that (b : bool) : result unit := if b then Ok tt else Err AssertionError.

(** [max] and [min] of an iterable of integers. *)
Definition py_max (l : list Z) : result Z :=
  match l with [] => Err ValueError | x :: l => Ok (foldr Z.max x l) end.
Definition py_min (l : list Z) : result Z :=
  match l with [] => Err ValueError | x :: l => Ok (foldr Z.min x l) end.

(** [d[k].append(v)] on a [defaultdict(list)] *)
Definition dict_append {K V} `{EqDecision K} (d : list (K * list V)) (k : K) (v : V) : list (K * list V) :=
  dict_set d k (default [] (dict_get d k) ++ [v]).

(** [for x in l: d[key(x)].append(val(x))] on such a dict; elements without a key
    are passed over. *)
Definition group_by {A K V} `{EqDecision K} (key : A → option K) (val : A → V) (l : list A) : list (K * list V) :=
  foldl (λ d x, match key x with Some k => dict_append d k (val x) | None => d end) [] l.

(** [l[skip::step]] *)
Fixpoint stride_slice {A} (step skip : nat) (l : list A) : list A :=
  match l with
  | [] => []
  | x :: l => match skip with
              | O => x :: stride_slice step (step - 1) l
              | S skip => stride_slice step skip l
              end
  end.

Definition stride_slices {A} (num_groups : Z) (l : list A) : list (list A) :=
  (λ i, stride_slice (Z.to_nat num_groups) (Z.to_nat i) l) <$> zrange 0 num_groups.

(** [list(zip( *ls))] *)
Definition py_zip {A} (ls : list (list A)) : list (list A) :=
  match ls with
  | [] => []
  | l0 :: _ => (λ i, omap (λ l : list A, l !! i) ls) <$> seq 0 (foldr Nat.min (length l0) (length <$> ls))
  end.

Definition layer_spec (specs : LayerDict) (name : string) : result LayerSpec :=
  match dict_get specs name with Some s => Ok s | None => Err KeyError end.

(** ** Block sizes of the scheduler *)

Definition any_mamba_differs (block_size : Z) (groups : list KVCacheGroupSpec) : bool :=
  existsb (λ g, is_mamba_group g && negb (spec_block_size (kv_cache_spec g) =? block_size)) groups.

Fixpoint any_not_divisible (h : Z) (sizes : list Z) : result bool :=
  match sizes with
  | [] => Ok false
  | b :: sizes => r ← py_mod b h; if negb (r =? 0) then Ok true else any_not_divisible h sizes
  end.

Definition resolve_kv_cache_block_sizes (c : KVCacheConfig) (cfg : PlanConfig) : result (Z * Z) :=
  let dcp := decode_context_parallel_size (plan_vllm cfg) in
  let pcp := prefill_context_parallel_size (plan_vllm cfg) in
  let groups := kv_cache_groups c in
  if zlen groups <=? 1 then
    let bs := cache_block_size cfg * dcp * pcp in Ok (bs, bs)
  else if negb (dcp =? 1) || negb (pcp =? 1) then Err ValueError
  else
    let group_block_sizes := (λ g, spec_block_size (kv_cache_spec g)) <$> groups in
    let scheduler_block_size := foldr Z.lcm 1 group_block_sizes in
    if negb (cache_enable_prefix_caching cfg || kv_transfer_enabled cfg)
    then Ok (scheduler_block_size, scheduler_block_size)
    else if any_mamba_differs (cache_block_size cfg) groups
    then Ok (scheduler_block_size, scheduler_block_size)
    else
      let hash_block_size := default (foldr Z.gcd 0 group_block_sizes) (cache_hash_block_size cfg) in
      bad ← any_not_divisible hash_block_size group_block_sizes;
      if (bad : bool) then Err ValueError else Ok (scheduler_block_size, hash_block_size).

(** ** Building groups *)

Definition create_kv_cache_group_specs (specs : LayerDict) (grouped_layer_names : list (list string))
    : result (list KVCacheGroupSpec) :=
  result_map (λ names,
    layer_specs ← result_map (layer_spec specs) names;
    merged ← merge layer_specs;
    Ok (mkKVCacheGroupSpec names (OneSpec merged) false)) grouped_layer_names.

Definition is_kv_cache_spec_uniform (specs : LayerDict) : result bool :=
  match specs with
  | [] => Ok true
  | _ => match merge specs.*2 with
         | Ok _ => Ok true
         | Err AssertionError => Ok false
         | Err e => Err e
         end
  end.

Definition get_uniform_page_size (specs : list KVCacheSpec) : result Z :=
  page_sizes ← result_map page_size_bytes specs;
  match remove_dups page_sizes with [p] => Ok p | _ => Err AssertionError end.

Definition is_kv_cache_page_size_uniform (specs : LayerDict) : result bool :=
  page_sizes ← get_page_sizes specs; Ok (zlen page_sizes =? 1).

Definition _get_kv_cache_groups_uniform_spec (specs : LayerDict) : result (list KVCacheGroupSpec) :=
  create_kv_cache_group_specs specs [specs.*1].

(** [spec.kv_cache_specs] of a [UniformTypeKVCacheSpecs] *)
Definition uniform_specs (s : KVCacheSpec) : result LayerDict :=
  match s with UniformTypeKVCacheSpecs _ d => Ok d | OneSpec _ => Err AttributeError end.
Definition is_uniform_type_spec (s : KVCacheSpec) : bool :=
  match s with UniformTypeKVCacheSpecs _ _ => true | OneSpec _ => false end.

Definition _get_kv_cache_groups_uniform_type (spec : KVCacheSpec) : result (list KVCacheGroupSpec) :=
  d ← uniform_specs spec; Ok [mkKVCacheGroupSpec d.*1 spec false].

Definition is_kv_cache_type_attention_free (specs : LayerDict) : bool := bool_decide (specs = []).

(** ** Unifying the page sizes *)

Definition set_a_block_size (b : Z) (a : AttentionSpec) : AttentionSpec :=
  mkAttentionSpec b (num_kv_heads a) (head_size a) (a_dtype a) (kv_quant_mode a) (a_page_size_padded a).
Definition set_a_page_size_padded (p : Z) (a : AttentionSpec) : AttentionSpec :=
  mkAttentionSpec (a_block_size a) (num_kv_heads a) (head_size a) (a_dtype a) (kv_quant_mode a) (Some p).

(** [__post_init__] of [MLAAttentionSpec] and of [SlidingWindowMLASpec] on the
    attention fields. *)
Definition mla_post_init (a : AttentionSpec) (m : MLAFields) : AttentionSpec :=
  _apply_alignment_padding a m (mla_real_page_size_bytes a m).
Definition swa_mla_post_init (a : AttentionSpec) (m : MLAFields) : result AttentionSpec :=
  match alignment m with
  | None => Ok a
  | Some _ => real ← swa_mla_real_page_size_bytes a m; Ok (_apply_alignment_padding a m real)
  end.

(** [dataclasses.replace(spec, ...)] where [upd] updates the attention fields and
    [b] is the block size of a [MambaSpec]: the constructor runs [__post_init__]. *)
Definition replace_spec (upd : AttentionSpec → AttentionSpec) (b : Z) (s : LayerSpec) : result LayerSpec :=
  match s with
  | FullAttentionSpec a f => Ok (FullAttentionSpec (upd a) f)
  | TQFullAttentionSpec a f t => Ok (TQFullAttentionSpec (upd a) f t)
  | MLAAttentionSpec a f m => Ok (MLAAttentionSpec (mla_post_init (upd a) m) f m)
  | HiddenStateCacheSpec a f m => Ok (HiddenStateCacheSpec (mla_post_init (upd a) m) f m)
  | SinkFullAttentionSpec a f l => Ok (SinkFullAttentionSpec (upd a) f l)
  | ChunkedLocalAttentionSpec a c => Ok (ChunkedLocalAttentionSpec (upd a) c)
  | SlidingWindowSpec a w v => Ok (SlidingWindowSpec (upd a) w v)
  | SlidingWindowMLASpec a w v m =>
      a' ← swa_mla_post_init (upd a) m; Ok (SlidingWindowMLASpec a' w v m)
  | MambaSpec m =>
      Ok (MambaSpec (mkMamba b (shapes m) (m_dtypes m) (m_page_size_padded m)
                       (mamba_type m) (mamba_cache_mode m) (num_speculative_blocks m)))
  | EncoderOnlyAttentionSpec a => Ok (EncoderOnlyAttentionSpec (upd a))
  | CrossAttentionSpec a => Ok (CrossAttentionSpec (upd a))
  end.
Definition replace_block_size (b : Z) : LayerSpec → result LayerSpec := replace_spec (set_a_block_size b) b.

Definition unify_layer (max_page_size : Z) (s : LayerSpec) : result LayerSpec :=
  layer_page_size ← layer_page_size_bytes s;
  if layer_page_size =? max_page_size then Ok s
  else
    r ← py_mod max_page_size layer_page_size;
    if negb (r =? 0) then Err NotImplementedError
    else
      ratio ← py_floordiv max_page_size layer_page_size;
      new_spec ← replace_block_size (layer_block_size s * ratio) s;
      new_page_size ← layer_page_size_bytes new_spec;
      _ ← assert_that (new_page_size =? max_page_size);
      Ok new_spec.

Definition unify_kv_cache_spec_page_size (specs : LayerDict) : result LayerDict :=
  page_sizes ← get_page_sizes specs;
  if zlen page_sizes <=? 1 then Ok specs
  else
    max_page_size ← py_max page_sizes;
    result_map (λ ns, s ← unify_layer max_page_size ns.2; Ok (ns.1, s)) specs.

(** ** Groups of equal size for layers of one page size *)

Definition same_type_layers (specs : LayerDict) : list (LayerSpec * list string) :=
  group_by (λ ns, Some ns.2) fst specs.

(** [max_num_layers < min_num_layers * 1.5] compares exactly representable numbers. *)
Definition layers_group_size (lens : list Z) : result Z :=
  min_num_layers ← py_min lens;
  max_num_layers ← py_max lens;
  Ok (if 2 * max_num_layers <? 3 * min_num_layers then max_num_layers else min_num_layers).

Definition split_layers (group_size : Z) (layers : list string) : list (list string) :=
  stride_slices (cdiv (zlen layers) group_size) layers.

Definition _get_kv_cache_groups_uniform_page_size (specs : LayerDict) : result (list KVCacheGroupSpec) :=
  let by_type := same_type_layers specs in
  group_size ← layers_group_size ((λ kl, zlen kl.2) <$> by_type);
  create_kv_cache_group_specs specs (concat ((λ kl, split_layers group_size kl.2) <$> by_type)).

(** ** Converting to one type when the hybrid manager is disabled *)

(** The branches of the conversion loop. [MLAAttentionSpec(...)] and
    [FullAttentionSpec(...)] take the defaults of the fields they are not given:
    no quantisation mode for the MLA and the chunked layers. *)
Definition to_full_attention (uniform_block_size : option Z) (s : LayerSpec) : LayerSpec :=
  match s with
  | SlidingWindowMLASpec a w _ m =>
      let a' := mkAttentionSpec (default (a_block_size a) uniform_block_size) (num_kv_heads a) (head_size a)
                  (a_dtype a) QUANT_NONE (a_page_size_padded a) in
      MLAAttentionSpec (mla_post_init a' m) (mkFull (head_size a) None None) m
  | SlidingWindowSpec a w v =>
      FullAttentionSpec a (mkFull v (Some w) None)
  | ChunkedLocalAttentionSpec a c =>
      FullAttentionSpec (mkAttentionSpec (a_block_size a) (num_kv_heads a) (head_size a) (a_dtype a)
                           QUANT_NONE (a_page_size_padded a))
        (mkFull (head_size a) None (Some c))
  | _ => s
  end.

Definition is_ChunkedLocalAttentionSpec (s : LayerSpec) : bool := bool_decide (spec_chunk_size s ≠ None).

(** [is_kv_cache_spec_uniform(d) or UniformTypeKVCacheSpecs.is_uniform_type(d)] *)
Definition uniform_spec_or_type (specs : LayerDict) : result bool :=
  u ← is_kv_cache_spec_uniform specs;
  if (u : bool) then Ok true else is_uniform_type specs.

(** The dict after the in-place conversion. *)
Definition unify_hybrid_kv_cache_specs (specs : LayerDict) : result LayerDict :=
  u ← uniform_spec_or_type specs;
  if (u : bool) then Ok specs
  else
    let has p := existsb (λ ns : string * LayerSpec, p ns.2) specs in
    let has_full_attention := has is_FullAttentionSpec in
    let has_sliding_window := has is_SlidingWindowSpec in
    let has_chunked_local_attention := has is_ChunkedLocalAttentionSpec in
    let has_swa_mla := has is_SlidingWindowMLASpec in
    _ ← assert_that (negb has_swa_mla || has_full_attention);
    let uniform_block_size :=
      if has_swa_mla
      then (λ ns, layer_block_size ns.2) <$> List.find (λ ns, is_FullAttentionSpec ns.2) specs
      else None in
    let specs' :=
      if has_full_attention && (has_sliding_window || has_chunked_local_attention)
      then (λ ns, (ns.1, to_full_attention uniform_block_size ns.2)) <$> specs
      else specs in
    u' ← uniform_spec_or_type specs';
    if (u' : bool) then Ok specs' else Err ValueError.

(** ** Groups of layer tuples (DeepseekV4) *)

Definition some_or_assert {A} (o : option A) : result A :=
  match o with Some a => Ok a | None => Err AssertionError end.

Definition swa_key (s : LayerSpec) : option (Z * Z) :=
  match s with SlidingWindowMLASpec a w _ _ => Some (a_block_size a, w) | _ => None end.
Definition grouped_swa_mla_specs (specs : LayerDict) : list ((Z * Z) * LayerDict) :=
  group_by (λ ns, swa_key ns.2) id specs.
Definition mla_specs (specs : LayerDict) : LayerDict := filter (λ ns, is_MLAAttentionSpec ns.2) specs.

Definition group_and_unify_kv_cache_specs (specs : LayerDict) : result (option (list KVCacheSpec)) :=
  if negb (existsb (λ ns, is_SlidingWindowMLASpec ns.2) specs) then Ok None
  else
    _ ← assert_that (0 <? zlen (mla_specs specs));
    mla ← from_specs (mla_specs specs);
    mla_uniform_spec ← some_or_assert mla;
    swa_uniform_specs ← result_map (λ kd, u ← from_specs kd.2; some_or_assert u) (grouped_swa_mla_specs specs);
    Ok (Some (mla_uniform_spec :: swa_uniform_specs)).

(** One iteration of the search loop, on [(best_d, best_pad)]. *)
Definition gcd_step (values : list Z) (best : Z * option Z) (d : Z) : Z * option Z :=
  let pad := zsum ((λ x, (d - x mod d) mod d) <$> values) in
  match best with
  | (best_d, None) => (d, Some pad)
  | (best_d, Some best_pad) =>
      if (pad <? best_pad) || ((pad =? best_pad) && (best_d <? d)) then (d, Some pad) else best
  end.

Definition _approximate_gcd (values : list Z) (lower_bound : option Z) : result Z :=
  if bool_decide (values = []) then Err ValueError
  else if existsb (λ x, x <=? 0) values then Err ValueError
  else
    let min_d := Z.max 1 (default 1 lower_bound) in
    max_d ← py_max values;
    if max_d <? min_d then Ok min_d
    else Ok (foldl (gcd_step values) (min_d, None) (zrange min_d (max_d + 1))).1.

Definition count_in (l : list Z) (x : Z) : Z := zlen (filter (λ y, y = x) l).

(** [UniformTypeKVCacheSpecs.get_num_layer_tuples] *)
Definition get_num_layer_tuples (d : LayerDict) : result Z :=
  sizes ← result_map (λ ns, layer_page_size_bytes ns.2) d;
  match sizes with [] => Err IndexError | _ => py_max (count_in sizes <$> sizes) end.

(** [object.__setattr__(layer_spec, "page_size_padded", candidate)] on a
    [SlidingWindowMLASpec]. *)
Definition set_page_size_padded (p : Z) (s : LayerSpec) : LayerSpec :=
  match s with SlidingWindowMLASpec a w v m => SlidingWindowMLASpec (set_a_page_size_padded p a) w v m | _ => s end.

Definition size_to_candidate (all_page_sizes sm_page_sizes : list Z) : result (list (Z * Z)) :=
  result_map (λ ps, c ← py_min (filter (λ x, ps ≤ x) all_page_sizes); Ok (ps, c)) sm_page_sizes.

(** The padded entry of one layer, under its candidate page size. *)
Definition pad_layer (candidates : list (Z * Z)) (ns : string * LayerSpec) : result (Z * (string * LayerSpec)) :=
  current_size ← layer_page_size_bytes ns.2;
  match dict_get candidates current_size with
  | None => Err KeyError
  | Some c => Ok (c, (ns.1, if current_size <? c then set_page_size_padded c ns.2 else ns.2))
  end.

Definition layers_per_size (padded : list (Z * (string * LayerSpec))) : list (Z * list string) :=
  group_by (λ p, Some p.1) (λ p, p.2.1) padded.

Definition tuple_group (specs : LayerDict) (tuples : list (list string)) : result KVCacheGroupSpec :=
  let group_layer_names := concat tuples in
  group_layer_specs ← result_map (λ name, s ← layer_spec specs name; Ok (name, s)) group_layer_names;
  u ← from_specs group_layer_specs;
  sub_sm_spec ← some_or_assert u;
  Ok (mkKVCacheGroupSpec group_layer_names sub_sm_spec false).

(** The body of the loop over the sliding-window groups. *)
Definition swa_mla_group (all_page_sizes : list Z) (num_layer_tuples : Z) (sm : LayerDict) : result (list KVCacheGroupSpec) :=
  sm_page_sizes ← get_page_sizes sm;
  max_sm ← py_max sm_page_sizes;
  max_all ← py_max all_page_sizes;
  _ ← assert_that (max_sm <=? max_all);
  candidates ← size_to_candidate all_page_sizes sm_page_sizes;
  padded ← result_map (pad_layer candidates) sm;
  let per_size := (layers_per_size padded).*2 in
  match remove_dups (length <$> per_size) with
  | [num_layers_per_size] =>
      num_tuple_groups ← (if num_layer_tuples =? 0 then Err ZeroDivisionError
                          else Ok (cdiv (Z.of_nat num_layers_per_size) num_layer_tuples));
      result_map (tuple_group padded.*2) (stride_slices num_tuple_groups (py_zip per_size))
  | _ => Err AssertionError
  end.

Definition _get_kv_cache_groups_uniform_groups (grouped_specs : list KVCacheSpec) : result (list KVCacheGroupSpec) :=
  _ ← assert_that ((0 <? zlen grouped_specs) && forallb is_uniform_type_spec grouped_specs);
  dicts ← result_map uniform_specs grouped_specs;
  match grouped_specs, dicts with
  | full_mla_spec :: _, full :: swa =>
      _ ← assert_that (forallb (λ ns, is_MLAAttentionSpec ns.2) full);
      tuples ← result_map get_num_layer_tuples dicts;
      num_layer_tuples ← _approximate_gcd tuples (head tuples);
      _ ← assert_that (forallb (λ d, forallb (λ ns, is_SlidingWindowMLASpec ns.2) d) swa);
      all_page_sizes ← get_page_sizes full;
      swa_mla_groups ← result_map (swa_mla_group all_page_sizes num_layer_tuples) swa;
      Ok (mkKVCacheGroupSpec full.*1 full_mla_spec false :: concat swa_mla_groups)
  | _, _ => Err AssertionError
  end.

Definition set_is_eagle_group (b : bool) (g : KVCacheGroupSpec) : KVCacheGroupSpec :=
  mkKVCacheGroupSpec (layer_names g) (kv_cache_spec g) b.
(** Flag the first group that holds the layer. *)
Fixpoint flag_group (layer : string) (groups : list KVCacheGroupSpec) : list KVCacheGroupSpec :=
  match groups with
  | [] => []
  | g :: groups => if bool_decide (layer ∈ layer_names g) then set_is_eagle_group true g :: groups
                   else g :: flag_group layer groups
  end.

Definition _annotate_eagle_groups_deepseek_v4 (cfg : PlanConfig) (specs : LayerDict)
    (groups : list KVCacheGroupSpec) : result (list KVCacheGroupSpec) :=
  if negb (spec_use_eagle cfg) then Ok groups
  else if negb (existsb (λ ns, bool_decide ((mla_part ns.2 ≫= model_version) = Some "deepseek_v4"%string)) specs)
  then Ok groups
  else match last specs with
       | None => Err StopIteration
       | Some (last_layer, _) => Ok (flag_group last_layer groups)
       end.

(** ** All branches *)

Definition is_HiddenStateCacheSpec (s : LayerSpec) : bool :=
  match s with HiddenStateCacheSpec _ _ _ => true | _ => false end.

(** A hidden-state layer with its page aligned to the common page. *)
Definition hidden_group (common_page : Z) (ns : string * LayerSpec) : result KVCacheGroupSpec :=
  match attention_spec ns.2 with
  | None => Err AttributeError
  | Some a =>
      let per_token := num_kv_heads a * head_size a * get_dtype_size (a_dtype a) in
      q ← py_floordiv common_page per_token;
      let new_bs := Z.max q 1 in
      aligned ← replace_spec (λ a, set_a_page_size_padded common_page (set_a_block_size new_bs a)) new_bs ns.2;
      Ok (mkKVCacheGroupSpec [ns.1] (OneSpec aligned) false)
  end.

(** The general multi-group path. *)
Definition general_groups (specs : LayerDict) : result (list KVCacheGroupSpec) :=
  let hidden_specs : LayerDict := filter (λ ns, is_HiddenStateCacheSpec ns.2) specs in
  let filtered_spec : LayerDict := filter (λ ns, negb (is_HiddenStateCacheSpec ns.2)) specs in
  unified ← unify_kv_cache_spec_page_size filtered_spec;
  groups ← _get_kv_cache_groups_uniform_page_size unified;
  if bool_decide (hidden_specs = []) then Ok groups
  else
    common_page ← get_uniform_page_size (kv_cache_spec <$> groups);
    hidden ← result_map (hidden_group common_page) hidden_specs;
    Ok (groups ++ hidden).

Definition get_kv_cache_groups (cfg : PlanConfig) (specs0 : LayerDict) : result (list KVCacheGroupSpec) :=
  specs ← (if disable_hybrid_kv_cache_manager cfg then unify_hybrid_kv_cache_specs specs0 else Ok specs0);
  if is_kv_cache_type_attention_free specs then Ok []
  else
    uniform ← is_kv_cache_spec_uniform specs;
    if (uniform : bool) then _get_kv_cache_groups_uniform_spec specs
    else
      uniform_spec ← from_specs specs;
      match uniform_spec with
      | Some u => _get_kv_cache_groups_uniform_type u
      | None =>
          grouped ← group_and_unify_kv_cache_specs specs;
          match grouped with
          | Some grouped_specs =>
              groups ← _get_kv_cache_groups_uniform_groups grouped_specs;
              _annotate_eagle_groups_deepseek_v4 cfg specs groups
          | None => general_groups specs
          end
      end.

(** With several groups, every block size divides the scheduler's, and the hash block
    size divides every block size unless finer hashing is off. *)
Lemma any_not_divisible_ok h sizes : any_not_divisible h sizes = Ok false → ∀ b, b ∈ sizes → (h | b).
Proof.
  induction sizes as [|b sizes IH]; simpl; [by intros _ b H%not_elem_of_nil|]. unfold mbind, result_bind, py_mod.
  destruct (Z.eqb_spec h 0); [done|]. destruct (Z.eqb_spec (b mod h) 0); [|done]. simpl.
  intros Hs b' [->|Hb]%elem_of_cons; [by apply Z.mod_divide|by apply IH].
Qed.
Lemma lcm_divides sizes b : b ∈ sizes → (b | foldr Z.lcm 1 sizes).
Proof.
  induction sizes as [|c sizes IH]; [by intros H%not_elem_of_nil|]. simpl.
  intros [->|Hb]%elem_of_cons; [apply Z.divide_lcm_l|]. etrans; [by apply IH|apply Z.divide_lcm_r].
Qed.
Lemma resolve_divides c cfg s h g : resolve_kv_cache_block_sizes c cfg = Ok (s, h) → 1 < zlen (kv_cache_groups c) →
  g ∈ kv_cache_groups c → (spec_block_size (kv_cache_spec g) | s) ∧ (h = s ∨ (h | spec_block_size (kv_cache_spec g))).
Proof.
  intros H Hlen Hg. unfold resolve_kv_cache_block_sizes in H. rewrite (proj2 (Z.leb_gt _ _)) in H by done.
  apply (list_elem_of_fmap_2 (λ g, spec_block_size (kv_cache_spec g))) in Hg. destruct (_ || _) in H; [done|].
  destruct (negb _) in H; [injection H as <- <-; split; [by apply lcm_divides|by left]|].
  destruct (any_mamba_differs _ _) in H; [injection H as <- <-; split; [by apply lcm_divides|by left]|].
  unfold mbind, result_bind in H. destruct (any_not_divisible _ _) as [[]|] eqn:Hd; [done| |done]. injection H as <- <-.
  split; [by apply lcm_divides|]. right. by apply (any_not_divisible_ok _ _ Hd).
Qed.

(** * Grouping is a partition *)

(** ** Dicts of lists *)

Lemma filter_none {A} (P : A → Prop) `{∀ x, Decision (P x)} (l : list A) : (∀ x, x ∈ l → ¬ P x) → filter P l = [].
Proof.
  induction l as [|x l IH]; [done|]. intros Hl. rewrite filter_cons_False by (apply Hl; left).
  apply IH. intros y Hy. apply Hl. by right.
Qed.

Section GroupBy.
Context {A K V : Type} `{EqDecision K} (key : A → option K) (val : A → V).

(** The state of the loop after the elements [l]. *)
Definition grouped (l : list A) (d : list (K * list V)) : Prop :=
  NoDup d.*1 ∧
  (∀ k vs, (k, vs) ∈ d → vs ≠ [] ∧ vs = val <$> filter (λ x, key x = Some k) l) ∧
  (∀ x k, x ∈ l → key x = Some k → k ∈ d.*1) ∧
  concat d.*2 ≡ₚ val <$> filter (λ x, is_Some (key x)) l.

Lemma dict_append_concat (d : list (K * list V)) k v :
  NoDup d.*1 → concat (dict_append d k v).*2 ≡ₚ concat d.*2 ++ [v].
Proof.
  intros Hd. unfold dict_append. destruct (dict_get d k) as [vs|] eqn:Hk; simpl.
  - clear Hd. induction d as [|[k' vs'] d IH]; [done|]. simpl in *. case_decide.
    + simplify_eq. csimpl. rewrite <-!(assoc_L (++)). f_equiv. apply Permutation_app_comm.
    + csimpl. rewrite IH by done. by rewrite (assoc_L (++)).
  - rewrite dict_set_new by (by apply dict_get_None). rewrite fmap_app, concat_app. done.
Qed.

Lemma grouped_step l d x : grouped l d →
  grouped (l ++ [x]) (match key x with Some k => dict_append d k (val x) | None => d end).
Proof.
  intros (Hd & Hvs & Hin & Hall). unfold grouped. rewrite !filter_app. destruct (key x) as [k|] eqn:Hx.
  - rewrite (filter_cons_True _ x) by (by rewrite Hx). csimpl. split_and!.
    + unfold dict_append. rewrite dict_set_keys. case_decide; [done|].
      apply NoDup_app. split_and!; [done|set_solver|apply NoDup_singleton].
    + intros k' vs Hk'. rewrite filter_app, fmap_app. apply dict_in_get in Hk'.
      2:{ unfold dict_append. rewrite dict_set_keys. case_decide; [done|].
          apply NoDup_app. split_and!; [done|set_solver|apply NoDup_singleton]. }
      unfold dict_append in Hk'. rewrite dict_get_set in Hk'. case_decide as Hkk.
      * subst k'. injection Hk' as <-. split; [by destruct (default [] (dict_get d k))|].
        rewrite (filter_cons_True _ x) by done. f_equal.
        destruct (dict_get d k) as [vs|] eqn:Hget; simpl; [by apply dict_get_in, Hvs in Hget as [_ ->]|].
        apply dict_get_None in Hget. rewrite filter_none; [done|].
        intros y Hy Hky. by destruct Hget; apply (Hin y).
      * rewrite (filter_cons_False _ x) by (by rewrite Hx; intros [= ->]). rewrite app_nil_r.
        by apply Hvs, dict_get_in.
    + intros y k' [Hy| ->%list_elem_of_singleton]%elem_of_app Hk'; unfold dict_append; rewrite dict_set_keys;
        case_decide; set_solver.
    + rewrite fmap_app, dict_append_concat by done. by rewrite Hall.
  - rewrite (filter_cons_False _ x) by (rewrite Hx; by intros (? & ?)). rewrite app_nil_r. split_and!; [done| | |done].
    + intros k vs Hk. destruct (Hvs k vs Hk) as [? ->]. split; [done|].
      rewrite filter_app, (filter_cons_False _ x) by (by rewrite Hx). by rewrite app_nil_r.
    + intros y k [Hy| ->%list_elem_of_singleton]%elem_of_app Hk; [by apply (Hin y)|congruence].
Qed.

Lemma group_by_spec l : grouped l (group_by key val l).
Proof.
  unfold group_by. induction l as [|x l IH] using rev_ind.
  - split_and!; [apply NoDup_nil_2|set_solver|set_solver|done].
  - rewrite foldl_app. simpl. by apply grouped_step.
Qed.
End GroupBy.

(** ** Slices with a stride *)

Lemma stride_slices_cons {A} (n : nat) (x : A) l : (0 < n)%nat →
  concat ((λ i, stride_slice n i (x :: l)) <$> seq 0 n) ≡ₚ
  x :: concat ((λ i, stride_slice n i l) <$> seq 0 n).
Proof.
  intros Hn. destruct n as [|n]; [lia|]. rewrite (seq_S n 0) at 2. rewrite fmap_app, concat_app.
  rewrite <-cons_seq, <-fmap_S_seq. csimpl. rewrite Nat.sub_0_r, app_nil_r. f_equiv.
  rewrite <-list_fmap_compose, Permutation_app_comm. done.
Qed.

Lemma stride_slices_perm {A} (num_groups : Z) (l : list A) :
  0 < num_groups → concat (stride_slices num_groups l) ≡ₚ l.
Proof.
  intros Hn. unfold stride_slices, zrange. rewrite Z.sub_0_r.
  replace (seqZ 0 num_groups) with (Z.of_nat <$> seq 0 (Z.to_nat num_groups)) by (unfold seqZ; apply list_fmap_ext; intros; lia).
  rewrite <-list_fmap_compose.
  rewrite (list_fmap_ext _ (λ i, stride_slice (Z.to_nat num_groups) i l)) by (intros; simpl; by rewrite Nat2Z.id).
  induction l as [|x l IH].
  - clear. induction (seq 0 (Z.to_nat num_groups)); [done|]. csimpl. done.
  - rewrite stride_slices_cons by lia. by f_equiv.
Qed.

(** Every part of a split is not empty and no longer than the group size. *)
Lemma stride_slice_length {A} (n : nat) (l : list A) i : (0 < n)%nat → (i < n)%nat →
  length (stride_slice n i l) = ((length l + n - 1 - i) / n)%nat.
Proof.
  intros Hn. revert i. induction l as [|x l IH]; intros i Hi; simpl.
  - symmetry. apply Nat.div_small. lia.
  - destruct i as [|i].
    + simpl. rewrite IH by lia. transitivity ((length l + 1 * n) / n)%nat; [|f_equal; lia].
      rewrite Nat.div_add by lia. replace (length l + n - 1 - (n - 1))%nat with (length l) by lia. lia.
    + rewrite IH by lia. f_equal. lia.
Qed.

Lemma split_layers_perm group_size layers : 0 < group_size → layers ≠ [] →
  concat (split_layers group_size layers) ≡ₚ layers.
Proof.
  intros Hg Hl. apply stride_slices_perm. destruct layers as [|x l]; [done|].
  destruct (cdiv_spec (zlen (x :: l)) group_size Hg) as [_ H]. rewrite zlen_cons in *. pose proof (zlen_nonneg l). nia.
Qed.

Lemma split_layers_bounds group_size layers part : 0 < group_size →
  part ∈ split_layers group_size layers → part ≠ [] ∧ zlen part ≤ group_size.
Proof.
  intros Hg (i & -> & Hi)%list_elem_of_fmap. unfold zrange in Hi. apply elem_of_seqZ in Hi.
  destruct (cdiv_spec (zlen layers) group_size Hg) as [H1 H2]. set (n := cdiv _ _) in *.
  assert (Hlen : zlen (stride_slice (Z.to_nat n) (Z.to_nat i) layers) = (zlen layers + n - 1 - i) / n).
  { unfold zlen. rewrite stride_slice_length by lia. rewrite Nat2Z.inj_div. unfold zlen in *. f_equal; lia. }
  assert (1 ≤ zlen (stride_slice (Z.to_nat n) (Z.to_nat i) layers) ≤ group_size).
  { rewrite Hlen. assert (n ≤ zlen layers) by nia. split; [apply Z.div_le_lower_bound|apply Z.lt_succ_r, Z.div_lt_upper_bound]; nia. }
  split; [|lia]. intros E. rewrite E in *. unfold zlen in *. simpl in *. lia.
Qed.

(** ** Minima, maxima and group sizes *)

Lemma foldr_max_spec x l : foldr Z.max x l ∈ x :: l ∧ ∀ y, y ∈ x :: l → y ≤ foldr Z.max x l.
Proof.
  induction l as [|z l [IH1 IH2]]; simpl.
  - split; [left|]. intros y [->|H%not_elem_of_nil]%elem_of_cons; [lia|done].
  - split; [destruct (Z.max_spec z (foldr Z.max x l)) as [[_ ->]|[_ ->]]; set_solver|].
    intros y Hy. assert (y = z ∨ y ∈ x :: l) as [->|Hy'] by set_solver; [lia|]. specialize (IH2 y Hy'). lia.
Qed.
Lemma foldr_min_spec x l : foldr Z.min x l ∈ x :: l ∧ ∀ y, y ∈ x :: l → foldr Z.min x l ≤ y.
Proof.
  induction l as [|z l [IH1 IH2]]; simpl.
  - split; [left|]. intros y [->|H%not_elem_of_nil]%elem_of_cons; [lia|done].
  - split; [destruct (Z.min_spec z (foldr Z.min x l)) as [[_ ->]|[_ ->]]; set_solver|].
    intros y Hy. assert (y = z ∨ y ∈ x :: l) as [->|Hy'] by set_solver; [lia|]. specialize (IH2 y Hy'). lia.
Qed.
Lemma py_max_spec l m : py_max l = Ok m → m ∈ l ∧ ∀ y, y ∈ l → y ≤ m.
Proof. destruct l as [|x l]; [done|]. intros [= <-]. apply foldr_max_spec. Qed.
Lemma py_min_spec l m : py_min l = Ok m → m ∈ l ∧ ∀ y, y ∈ l → m ≤ y.
Proof. destruct l as [|x l]; [done|]. intros [= <-]. apply foldr_min_spec. Qed.

Lemma layers_group_size_in lens g : layers_group_size lens = Ok g → g ∈ lens.
Proof.
  unfold layers_group_size, mbind, result_bind. destruct (py_min lens) as [mn|] eqn:Hmn; [|done].
  destruct (py_max lens) as [mx|] eqn:Hmx; [|done]. intros [= <-].
  apply py_max_spec in Hmx as [? _]. apply py_min_spec in Hmn as [? _]. by case_match.
Qed.

(** ** What layers of one group have in common *)

(** Layers of one class need the same token slots: the same blocks of a request are
    kept for each of them. *)
Inductive AttnClass :=
  | ClsFull | ClsSliding (window : Z) | ClsChunked (chunk : Z) | ClsMamba (speculative_blocks : Z)
  | ClsCross | ClsEncoder.
Definition attention_class (s : LayerSpec) : AttnClass :=
  match s with
  | FullAttentionSpec _ _ | TQFullAttentionSpec _ _ _ | MLAAttentionSpec _ _ _ | HiddenStateCacheSpec _ _ _
  | SinkFullAttentionSpec _ _ _ => ClsFull
  | ChunkedLocalAttentionSpec _ c => ClsChunked c
  | SlidingWindowSpec _ w _ | SlidingWindowMLASpec _ w _ _ => ClsSliding w
  | MambaSpec m => ClsMamba (num_speculative_blocks m)
  | EncoderOnlyAttentionSpec _ => ClsEncoder
  | CrossAttentionSpec _ => ClsCross
  end.

Lemma full_class s : is_FullAttentionSpec s = true → attention_class s = ClsFull.
Proof. by destruct s. Qed.
Lemma mla_class s : is_MLAAttentionSpec s = true → attention_class s = ClsFull.
Proof. by destruct s. Qed.
Lemma sliding_class s w : spec_sliding_window s = Some w → attention_class s = ClsSliding w.
Proof. by destruct s; intros [= ->]. Qed.

Lemma forallb_elem {A} (f : A → bool) l x : forallb f l = true → x ∈ l → f x = true.
Proof. rewrite forallb_forall. intros Hl Hx. by apply Hl, list_elem_of_In. Qed.

Lemma merge_full_ok build a0 f0 specs s : merge_full build a0 f0 specs = Ok s →
  forallb is_FullAttentionSpec specs = true ∧ ∃ w c, s = build a0 (mkFull (f_head_size_v f0) w c).
Proof.
  unfold merge_full, mbind, result_bind. intros H. repeat case_match; simplify_eq; eauto.
  split; [by apply negb_false_iff|eauto].
Qed.

Lemma merge_ok specs s : merge specs = Ok s → ∃ s0 rest, specs = s0 :: rest ∧
  (∀ s1, s1 ∈ specs → attention_class s1 = attention_class s) ∧
  (is_SlidingWindowMLASpec s0 = false → layer_page_size_bytes s = layer_page_size_bytes s0) ∧
  is_SlidingWindowMLASpec s = is_SlidingWindowMLASpec s0.
Proof.
  intros H. destruct specs as [|s0 rest]; [done|]. exists s0, rest. split; [done|].
  unfold merge in H. destruct s0 as [a f|a f t|a f m|a f m|a f sl|a c|a w v|a w v m|m|a|a].
  1,5: apply merge_full_ok in H as (Hall & w & c & ->); split_and!; [|done|done];
    intros s1 Hs1; by apply full_class, (forallb_elem _ _ _ Hall).
  4-5,7-9: destruct (forallb _ _) eqn:Hall; [|done]; injection H as <-; split_and!; [|done|done];
    intros s1 Hs1; by apply (forallb_elem _ _ _ Hall), bool_decide_eq_true in Hs1 as ->.
  - unfold mbind, result_bind in H. destruct (merge_full _ _ _ _) as [mg|] eqn:Hm; [|done].
    apply merge_full_ok in Hm as (Hall & w & c & ->). repeat case_match; simplify_eq.
    split_and!; [|done|done]. intros s1 Hs1. by apply full_class, (forallb_elem _ _ _ Hall).
  - destruct (negb (forallb _ _)) eqn:Hall in H; [done|]. apply negb_false_iff in Hall. destruct (negb (same_mla _ _)); [done|]. injection H as <-.
    split_and!; [|done|done]. intros s1 Hs1. by apply mla_class, (forallb_elem _ _ _ Hall).
  - destruct (negb (forallb _ _)) eqn:Hall in H; [done|]. apply negb_false_iff in Hall. destruct (negb (same_mla _ _)); [done|]. injection H as <-.
    split_and!; [|done|done]. intros s1 Hs1. by apply mla_class, (forallb_elem _ _ _ Hall).
  - destruct (negb (forallb _ _)) in H; [done|]. destruct (negb (_ && _)) eqn:Hall in H; [done|]. injection H as <-.
    apply negb_false_iff, andb_true_iff in Hall as [_ Hall]. split_and!; [|done|done].
    intros s1 Hs1. by apply (forallb_elem _ _ _ Hall), bool_decide_eq_true, sliding_class in Hs1.
Qed.

Lemma uniform_type_class specs : is_uniform_type specs = Ok true →
  ∃ c, ∀ ns, ns ∈ specs → attention_class ns.2 = c.
Proof.
  unfold is_uniform_type. destruct (1 <? _); [done|]. destruct specs as [|ns0 rest]; [done|].
  unfold is_uniform_with_collection. intros H. exists (attention_class ns0.2). intros ns Hns.
  generalize dependent (ns0 :: rest). intros l H Hns. destruct ns0.2 as [a f|a f t|a f m|a f m|a f sl|a c|a w v|a w v m|m|a|a]; simplify_eq;
    pose proof (forallb_elem _ _ _ H Hns) as Hc; cbv beta in Hc.
  1-5: by apply full_class.
  - destruct ns.2; try done. apply bool_decide_eq_true in Hc. by injection Hc as ->.
  - apply bool_decide_eq_true in Hc. by apply sliding_class.
  - apply andb_true_iff in Hc as [_ Hc%bool_decide_eq_true]. by apply sliding_class.
  - destruct ns.2; try done. simpl in Hc. apply Z.eqb_eq in Hc. simpl. by rewrite Hc.
  - by destruct ns.2.
Qed.

Lemma from_specs_ok specs u : from_specs specs = Ok (Some u) →
  (∃ b, u = UniformTypeKVCacheSpecs b specs) ∧ specs ≠ [] ∧ ∃ c, ∀ ns, ns ∈ specs → attention_class ns.2 = c.
Proof.
  unfold from_specs, mbind, result_bind. destruct (is_uniform_type specs) as [[]|] eqn:Hu; [|done|done].
  apply uniform_type_class in Hu. destruct specs as [|ns rest]; [done|]. intros [= <-]. split_and!; [by eexists|done|done].
Qed.

Lemma replace_spec_class upd b s s' : replace_spec upd b s = Ok s' →
  attention_class s' = attention_class s ∧ is_SlidingWindowMLASpec s' = is_SlidingWindowMLASpec s ∧
  is_HiddenStateCacheSpec s' = is_HiddenStateCacheSpec s.
Proof.
  destruct s; simpl; try by intros [= <-]. unfold mbind, result_bind.
  destruct (swa_mla_post_init _ _); [|done]. by intros [= <-].
Qed.

(** ** Unified page sizes *)

Lemma get_page_sizes_elem specs sizes : get_page_sizes specs = Ok sizes →
  NoDup sizes ∧ ∀ ns, ns ∈ specs → ∃ p, layer_page_size_bytes ns.2 = Ok p ∧ p ∈ sizes.
Proof.
  unfold get_page_sizes, mbind, result_bind at 1. destruct (foldr _ _ _) as [l|] eqn:Hl; [|done]. intros [= <-].
  split; [apply NoDup_remove_dups|]. intros ns Hns. setoid_rewrite elem_of_remove_dups.
  revert l Hl. induction specs as [|ns0 specs IH]; [by apply not_elem_of_nil in Hns|]. simpl. intros l.
  unfold result_bind at 1. destruct (layer_page_size_bytes ns0.2) as [p|] eqn:Hp; [|done].
  unfold result_bind at 1. destruct (foldr _ _ _) as [l'|]; [|done]. intros [= <-].
  apply elem_of_cons in Hns as [->|Hns]; [exists p; split; [done|left]|].
  destruct (IH Hns l' eq_refl) as (q & ? & ?). exists q. split; [done|by right].
Qed.

(** [unify_layer] keeps the class and gives the layer the wanted page size. *)
Lemma unify_layer_ok p s s' : unify_layer p s = Ok s' →
  layer_page_size_bytes s' = Ok p ∧ attention_class s' = attention_class s ∧
  is_SlidingWindowMLASpec s' = is_SlidingWindowMLASpec s.
Proof.
  unfold unify_layer, mbind, result_bind. destruct (layer_page_size_bytes s) as [q|] eqn:Hq; [|done].
  destruct (Z.eqb_spec q p) as [->|_]; [by intros [= <-]|].
  destruct (py_mod _ _) as [r|]; [|done]. destruct (negb _); [done|].
  destruct (py_floordiv _ _) as [ratio|]; [|done]. destruct (replace_block_size _ _) as [s1|] eqn:Hs1; [|done].
  destruct (layer_page_size_bytes s1) as [q1|] eqn:Hq1; [|done]. unfold assert_that.
  destruct (Z.eqb_spec q1 p) as [->|]; [|done]. intros [= <-].
  apply replace_spec_class in Hs1 as (? & ? & ?). done.
Qed.

Lemma unify_page_size_ok specs specs' : unify_kv_cache_spec_page_size specs = Ok specs' →
  specs'.*1 = specs.*1 ∧
  (∃ p, ∀ ns, ns ∈ specs' → layer_page_size_bytes ns.2 = Ok p) ∧
  Forall2 (λ ns ns', ns'.1 = ns.1 ∧ attention_class ns'.2 = attention_class ns.2 ∧
                     is_SlidingWindowMLASpec ns'.2 = is_SlidingWindowMLASpec ns.2) specs specs'.
Proof.
  unfold unify_kv_cache_spec_page_size, mbind, result_bind at 1.
  destruct (get_page_sizes specs) as [sizes|] eqn:Hsizes; [|done].
  apply get_page_sizes_elem in Hsizes as [Hnd Hsizes]. case_match eqn:Hlen.
  - intros [= <-]. split_and!; [done| |by apply Forall_Forall2_diag, Forall_forall].
    destruct sizes as [|p [|q sizes]]; [| |by rewrite !zlen_cons in Hlen; pose proof (zlen_nonneg sizes); lia].
    + exists 0. intros ns Hns. destruct (Hsizes ns Hns) as (? & _ & H%not_elem_of_nil). done.
    + exists p. intros ns Hns. destruct (Hsizes ns Hns) as (q & ? & ->%list_elem_of_singleton). done.
  - unfold result_bind at 1. destruct (py_max sizes) as [p|]; [|done].
    intros Hall. apply result_map_Forall2 in Hall.
    assert (Forall2 (λ ns ns', ns'.1 = ns.1 ∧ unify_layer p ns.2 = Ok ns'.2) specs specs') as H.
    { eapply Forall2_impl; [done|]. intros ns ns' Hu. simpl in Hu. unfold result_bind in Hu.
      destruct (unify_layer p ns.2); [|done]. by injection Hu as <-. }
    split_and!.
    + clear -H. induction H as [|ns ns' ? ? [Hn _] ? IH]; [done|]. csimpl. by rewrite Hn, IH.
    + exists p. intros ns' (i & Hi)%list_elem_of_lookup. destruct (Forall2_lookup_r _ _ _ _ _ H Hi) as (ns & _ & _ & Hu).
      by apply unify_layer_ok in Hu as [? _].
    + eapply Forall2_impl; [done|]. intros ns ns' [? Hu]. by apply unify_layer_ok in Hu as (_ & ? & ?).
Qed.

(** ** The groups of each branch *)

Definition group_layers (groups : list KVCacheGroupSpec) : list string := concat (layer_names <$> groups).

(** The layers of the group are of one class. *)
Definition one_class (specs : LayerDict) (g : KVCacheGroupSpec) : Prop :=
  ∃ c, ∀ n s, n ∈ layer_names g → (n, s) ∈ specs → attention_class s = c.
(** A group with the specs of its layers, in the order of their names. *)
Definition uniform_group (g : KVCacheGroupSpec) : Prop :=
  ∃ b d, kv_cache_spec g = UniformTypeKVCacheSpecs b d ∧ d.*1 = layer_names g.
(** A group with one spec, whose page size is [p] if it has one. *)
Definition paged_group (p : Z) (g : KVCacheGroupSpec) : Prop :=
  ∃ s, kv_cache_spec g = OneSpec s ∧ ∀ q, layer_page_size_bytes s = Ok q → q = p.

Lemma group_layers_app gs1 gs2 : group_layers (gs1 ++ gs2) = group_layers gs1 ++ group_layers gs2.
Proof. unfold group_layers. by rewrite fmap_app, concat_app. Qed.

Lemma layer_spec_in specs n s : layer_spec specs n = Ok s → (n, s) ∈ specs.
Proof. unfold layer_spec. destruct (dict_get specs n) eqn:E; [|done]. intros [= <-]. by apply dict_get_in. Qed.

Lemma dict_unique {V} (d : list (string * V)) n v1 v2 : NoDup d.*1 → (n, v1) ∈ d → (n, v2) ∈ d → v1 = v2.
Proof. intros Hd H1 H2. apply dict_in_get in H1, H2; [|done..]. congruence. Qed.

Lemma result_map_fmap {A B C} (f : A → result B) (g : B → C) (h : A → C) l ys :
  result_map f l = Ok ys → (∀ x y, f x = Ok y → g y = h x) → g <$> ys = h <$> l.
Proof. intros H%result_map_Forall2 Hf. induction H as [|x y l ys Hx _ IH]; [done|]. csimpl. by rewrite (Hf _ _ Hx), IH. Qed.

Lemma result_map_elem {A B} (f : A → result B) l ys y : result_map f l = Ok ys → y ∈ ys → ∃ x, x ∈ l ∧ f x = Ok y.
Proof.
  intros H%result_map_Forall2 (i & Hi)%list_elem_of_lookup. destruct (Forall2_lookup_r _ _ _ _ _ H Hi) as (x & Hx & ?).
  exists x. split; [by eapply list_elem_of_lookup_2|done].
Qed.
Lemma result_map_elem_l {A B} (f : A → result B) l ys x : result_map f l = Ok ys → x ∈ l → ∃ y, y ∈ ys ∧ f x = Ok y.
Proof.
  intros H%result_map_Forall2 (i & Hi)%list_elem_of_lookup. destruct (Forall2_lookup_l _ _ _ _ _ H Hi) as (y & Hy & ?).
  exists y. split; [by eapply list_elem_of_lookup_2|done].
Qed.

(** A group made by merging the specs of its layers. *)
Definition merged_group (specs : LayerDict) (g : KVCacheGroupSpec) : Prop :=
  layer_names g ≠ [] ∧ ∃ s, kv_cache_spec g = OneSpec s ∧
  (∀ n s', n ∈ layer_names g → (n, s') ∈ specs → attention_class s' = attention_class s) ∧
  (∀ p, (∀ ns, ns ∈ specs → is_SlidingWindowMLASpec ns.2 = false ∧ layer_page_size_bytes ns.2 = Ok p) →
        layer_page_size_bytes s = Ok p).

Lemma create_groups_ok specs names groups : NoDup specs.*1 →
  create_kv_cache_group_specs specs names = Ok groups →
  layer_names <$> groups = names ∧ Forall (merged_group specs) groups.
Proof.
  intros Hnd H. split.
  - rewrite <-(list_fmap_id names). eapply result_map_fmap; [done|]. intros x y Hx. simpl in Hx.
    unfold mbind, result_bind in Hx. repeat case_match; by simplify_eq.
  - apply Forall_forall. intros g Hg. destruct (result_map_elem _ _ _ _ H Hg) as (ns & _ & Hx).
    unfold mbind, result_bind in Hx. destruct (result_map (layer_spec specs) ns) as [ls|] eqn:Hls; [|done].
    destruct (merge ls) as [s|] eqn:Hm; [|done]. injection Hx as <-. simpl.
    apply merge_ok in Hm as (s0 & rest & -> & Hcls & Hpage & _).
    destruct ns as [|n0 ns]; [done|]. split; [done|]. exists s. split_and!; [done| |].
    + intros n s' Hn Hs'. destruct (result_map_elem_l _ _ _ _ Hls Hn) as (s1 & Hs1 & E%layer_spec_in).
      rewrite (dict_unique _ _ _ _ Hnd Hs' E). by apply Hcls.
    + intros p Hp. destruct (result_map_elem _ _ _ s0 Hls ltac:(left)) as (n & _ & E%layer_spec_in).
      destruct (Hp _ E) as [Hsw Hpg]. by rewrite Hpage.
Qed.

Lemma uniform_page_size_groups_ok specs groups : NoDup specs.*1 →
  _get_kv_cache_groups_uniform_page_size specs = Ok groups →
  group_layers groups ≡ₚ specs.*1 ∧ Forall (merged_group specs) groups.
Proof.
  intros Hnd. unfold _get_kv_cache_groups_uniform_page_size, mbind, result_bind at 1.
  destruct (layers_group_size _) as [gsz|] eqn:Hg; [|done]. intros H.
  apply create_groups_ok in H as [Hnames Hall]; [|done]. split; [|done].
  unfold group_layers. rewrite Hnames. unfold same_type_layers in *.
  destruct (group_by_spec (λ ns : string * LayerSpec, Some ns.2) fst specs) as (_ & Hvs & _ & Hperm).
  set (d := group_by _ _ _) in *. rewrite (filter_all _ specs) in Hperm by (intros; by eexists).
  rewrite <-Hperm. assert (Hne : ∀ kvs, kvs ∈ d → kvs.2 ≠ []) by (intros [k vs] Hk; by destruct (Hvs k vs Hk)).
  clear -Hg Hne. apply layers_group_size_in in Hg.
  assert (0 < gsz) as Hpos.
  { apply list_elem_of_fmap in Hg as ([k vs] & -> & Hk%Hne). destruct vs; [done|].
    simpl. rewrite zlen_cons. pose proof (zlen_nonneg vs). lia. }
  clear Hg. induction d as [|[k vs] d IH]; [done|]. csimpl. rewrite concat_app. f_equiv.
  - apply split_layers_perm; [done|]. apply (Hne (k, vs)). left.
  - apply IH. intros kvs Hin. apply Hne. by right.
Qed.

Lemma names_perm (P : string * LayerSpec → Prop) `{∀ x, Decision (P x)} (specs : LayerDict) :
  (filter (λ x, ¬ P x) specs).*1 ++ (filter P specs).*1 ≡ₚ specs.*1.
Proof.
  induction specs as [|x l IH]; [done|]. destruct (decide (P x)) as [Hx|Hx].
  - rewrite filter_cons_False, filter_cons_True by naive_solver. csimpl. by rewrite <-Permutation_middle, IH.
  - rewrite filter_cons_True, filter_cons_False by naive_solver. csimpl. by f_equiv.
Qed.

Lemma hidden_group_ok p ns g : hidden_group p ns = Ok g →
  (∀ a f m, ns.2 = HiddenStateCacheSpec a f m → alignment m = None) → is_HiddenStateCacheSpec ns.2 = true →
  layer_names g = [ns.1] ∧ paged_group p g.
Proof.
  unfold hidden_group, mbind, result_bind. destruct ns as [n s]. simpl. intros H Hal Hh.
  destruct s as [| | |a f m| | | | | | |]; try done. simpl in H. unfold mbind, result_bind in H.
  destruct (py_floordiv _ _) as [q|]; [|done]. injection H as <-. split; [done|].
  eexists. split; [done|]. intros q'. specialize (Hal a f m eq_refl).
  unfold mla_post_init, _apply_alignment_padding. rewrite Hal. simpl. unfold mbind, result_bind, attn_page_size_bytes, padded_page_size.
  simpl. case_match; [|done]. by intros [= <-].
Qed.

Lemma hidden_group_names p ns g : hidden_group p ns = Ok g → layer_names g = [ns.1].
Proof. unfold hidden_group, mbind, result_bind. intros H. repeat case_match; by simplify_eq. Qed.

Lemma merged_paged specs p g : merged_group specs g →
  (∀ ns, ns ∈ specs → is_SlidingWindowMLASpec ns.2 = false ∧ layer_page_size_bytes ns.2 = Ok p) → paged_group p g.
Proof. intros (_ & s & Hs & _ & Hp) H. exists s. split; [done|]. rewrite (Hp p H). by intros q [= <-]. Qed.

Definition hidden_unaligned (specs : LayerDict) : Prop :=
  ∀ n a f m, (n, HiddenStateCacheSpec a f m) ∈ specs → alignment m = None.

Lemma single_one_class specs n s b : NoDup specs.*1 → one_class specs (mkKVCacheGroupSpec [n] s b).
Proof.
  intros Hnd. destruct (dict_get specs n) as [s0|] eqn:Hn.
  - exists (attention_class s0). simpl. intros n' s' ->%list_elem_of_singleton Hs'.
    by rewrite (dict_unique _ _ _ _ Hnd Hs' (dict_get_in _ _ _ Hn)).
  - exists ClsFull. simpl. intros n' s' ->%list_elem_of_singleton Hs'. apply dict_get_None in Hn.
    destruct Hn. by apply (list_elem_of_fmap_2 fst) in Hs'.
Qed.

(** Unifying keeps the classes, seen by name. *)
Lemma one_class_unified specs specs' g : NoDup specs.*1 →
  Forall2 (λ ns ns', ns'.1 = ns.1 ∧ attention_class ns'.2 = attention_class ns.2 ∧
                     is_SlidingWindowMLASpec ns'.2 = is_SlidingWindowMLASpec ns.2) specs specs' →
  merged_group specs' g → one_class specs g.
Proof.
  intros Hnd H (_ & s & _ & Hcls & _). exists (attention_class s). intros n s1 Hn (i & Hi)%list_elem_of_lookup.
  destruct (Forall2_lookup_l _ _ _ _ _ H Hi) as ([n' s1'] & Hi' & Hname & Hc & _). simpl in *. subst n'.
  rewrite <-Hc. apply (Hcls n); [done|]. by eapply list_elem_of_lookup_2.
Qed.

Lemma one_class_weaken specs (specs' : LayerDict) g : NoDup specs.*1 → specs' ⊆ specs →
  (∀ n, n ∈ layer_names g → n ∈ specs'.*1) → one_class specs' g → one_class specs g.
Proof.
  intros Hnd Hsub Hn [c Hc]. exists c. intros n s Hin Hs.
  apply Hn in Hin as Hk. apply list_elem_of_fmap in Hk as ([n' s'] & -> & Hs'). simpl in *.
  rewrite (dict_unique _ _ _ _ Hnd Hs (Hsub _ Hs')). by apply (Hc n').
Qed.

Lemma elem_of_concat {A} (x : A) ls : x ∈ concat ls ↔ ∃ l, l ∈ ls ∧ x ∈ l.
Proof. rewrite list_elem_of_In, in_concat. by setoid_rewrite <-list_elem_of_In. Qed.

Lemma group_layers_elem groups g n : g ∈ groups → n ∈ layer_names g → n ∈ group_layers groups.
Proof.
  intros Hg Hn. unfold group_layers. apply elem_of_concat. exists (layer_names g).
  split; [by apply list_elem_of_fmap_2|done].
Qed.

Lemma filter_subseteq {A} (P : A → Prop) `{∀ x, Decision (P x)} (l : list A) : filter P l ⊆ l.
Proof. intros x Hx. by apply list_elem_of_filter in Hx as [_ ?]. Qed.
Lemma filter_names_nodup (P : string * LayerSpec → Prop) `{∀ x, Decision (P x)} (l : LayerDict) :
  NoDup l.*1 → NoDup (filter P l).*1.
Proof. intros Hl. eapply sublist_NoDup; [done|]. apply fmap_sublist, sublist_filter. Qed.

Lemma general_groups_ok specs groups : NoDup specs.*1 → hidden_unaligned specs →
  (∀ ns, ns ∈ specs → is_SlidingWindowMLASpec ns.2 = false) → general_groups specs = Ok groups →
  group_layers groups ≡ₚ specs.*1 ∧ (∃ p, Forall (paged_group p) groups) ∧ Forall (one_class specs) groups ∧
  Forall (λ g, layer_names g ≠ []) groups.
Proof.
  intros Hnd Hal Hsw. unfold general_groups.
  set (hidden := filter (λ ns, is_HiddenStateCacheSpec ns.2) specs).
  set (plain := filter (λ ns, negb (is_HiddenStateCacheSpec ns.2)) specs).
  assert (Hnames : plain.*1 ++ hidden.*1 ≡ₚ specs.*1).
  { rewrite <-(names_perm (λ ns, is_HiddenStateCacheSpec ns.2) specs). f_equiv; [|done]. unfold plain.
    erewrite list_filter_iff'; [done|]. intros ns _. simpl. destruct (is_HiddenStateCacheSpec ns.2); simpl; naive_solver. }
  assert (Hplain : NoDup plain.*1) by (by apply filter_names_nodup).
  unfold mbind, result_bind at 1. destruct (unify_kv_cache_spec_page_size plain) as [uni|] eqn:Hu; [|done].
  apply unify_page_size_ok in Hu as (Hkeys & [p Hp] & Hf2).
  unfold result_bind at 1. destruct (_get_kv_cache_groups_uniform_page_size uni) as [gs|] eqn:Hg; [|done].
  apply uniform_page_size_groups_ok in Hg as [Hperm Hmg]; [|by rewrite Hkeys]. rewrite Hkeys in Hperm.
  assert (Hpages : Forall (paged_group p) gs).
  { eapply Forall_impl; [done|]. intros g Hg. eapply merged_paged; [done|]. intros ns Hns. split; [|by apply Hp].
    apply list_elem_of_lookup in Hns as (i & Hi). destruct (Forall2_lookup_r _ _ _ _ _ Hf2 Hi) as (ns0 & Hi0 & _ & _ & ->).
    apply Hsw. apply list_elem_of_lookup_2, list_elem_of_filter in Hi0. by destruct Hi0. }
  assert (Hcls : Forall (one_class specs) gs).
  { apply Forall_forall. intros g Hg. apply (one_class_weaken specs plain); [done|apply filter_subseteq| |].
    - intros n Hn. rewrite <-Hperm. by eapply group_layers_elem.
    - eapply one_class_unified; [done..|]. by eapply Forall_forall in Hmg. }
  assert (Hne : Forall (λ g, layer_names g ≠ []) gs) by (eapply Forall_impl; [exact Hmg|]; by intros g [? _]).
  case_bool_decide as Hh.
  - intros [= <-]. rewrite Hh in Hnames. csimpl in Hnames. rewrite app_nil_r in Hnames. rewrite <-Hnames.
    split_and!; [done|by exists p|done|done].
  - unfold result_bind at 1. destruct (get_uniform_page_size _) as [cp|] eqn:Hcp; [|done].
    unfold result_bind at 1. destruct (result_map _ _) as [hs|] eqn:Hhs; [|done]. intros [= <-].
    assert (Hall : Forall (λ g, ∃ ns, ns ∈ hidden ∧ layer_names g = [ns.1] ∧ paged_group cp g) hs).
    { apply Forall_forall. intros g Hg. destruct (result_map_elem _ _ _ _ Hhs Hg) as (ns & Hns & E).
      apply list_elem_of_filter in Hns as [Hhid Hns]. apply hidden_group_ok in E as [? ?]; [|intros a f m Ens; apply (Hal ns.1 a f m); by destruct ns; simplify_eq/=|by apply Is_true_true].
      exists ns. split; [by apply list_elem_of_filter|done]. }
    assert (cp = p) as ->.
    { clear -Hcp Hpages. unfold get_uniform_page_size, mbind, result_bind in Hcp.
      destruct (result_map page_size_bytes _) as [ps|] eqn:Hps; [|done].
      destruct (remove_dups ps) as [|q [|]] eqn:Hr; [done| |done]. injection Hcp as ->.
      assert (cp ∈ ps) as Hin by (apply elem_of_remove_dups; rewrite Hr; left).
      destruct (result_map_elem _ _ _ _ Hps Hin) as (sp & (g & -> & Hg)%list_elem_of_fmap & E).
      eapply Forall_forall in Hpages as (s & Es & Hq); [|done]. rewrite Es in E. by apply Hq. }
    rewrite group_layers_app. split_and!.
    + rewrite <-Hnames, Hperm. f_equiv. unfold group_layers.
      rewrite (result_map_fmap _ layer_names (λ ns, [ns.1]) _ _ Hhs) by (intros; by eapply hidden_group_names).
      clear. induction hidden; [done|]. csimpl. by f_equiv.
    + exists p. apply Forall_app. split; [done|]. eapply Forall_impl; [exact Hall|]. by intros g (? & _ & _ & ?).
    + apply Forall_app. split; [done|]. eapply Forall_impl; [exact Hall|]. intros g (ns & _ & Hg & _).
      destruct g as [nm sp eg]. simpl in Hg. subst nm. by apply single_one_class.
    + apply Forall_app. split; [done|]. eapply Forall_impl; [exact Hall|]. by intros g (ns & _ & -> & _).
Qed.

(** ** Layer tuples *)

(** The padding of the chunk size [d]. *)
Definition padding (values : list Z) (d : Z) : Z := zsum ((λ x, (d - x mod d) mod d) <$> values).

(** [d] is at least as good as [d']: less padding, or the same with a larger chunk. *)
Definition better (values : list Z) (d d' : Z) : Prop :=
  padding values d < padding values d' ∨ (padding values d = padding values d' ∧ d' ≤ d).

Lemma gcd_fold values best ds d0 : (∀ d, d ∈ ds → d0 ≤ d) →
  best = (d0, None) ∨ (∃ b, best = (b, Some (padding values b)) ∧ d0 ≤ b) → ds ≠ [] ∨ best.2 ≠ None →
  ∃ b, foldl (gcd_step values) best ds = (b, Some (padding values b)) ∧ d0 ≤ b ∧
    (b ∈ ds ∨ best.1 = b ∧ best.2 ≠ None) ∧
    (∀ d, d ∈ ds → better values b d) ∧ (best.2 ≠ None → better values b best.1).
Proof.
  revert best. induction ds as [|d ds IH]; intros best Hds Hbest Hne; simpl.
  - destruct Hne as [?|Hne]; [done|]. destruct Hbest as [->|(b & -> & Hb)]; [done|].
    exists b. split_and!; [done|done|by right|by intros d H%not_elem_of_nil|]. intros _. right. simpl. lia.
  - assert (Hstep : ∃ b, gcd_step values best d = (b, Some (padding values b)) ∧ (b = d ∨ best.1 = b ∧ best.2 ≠ None) ∧
                    better values b d ∧ (best.2 ≠ None → better values b best.1)).
    { destruct Hbest as [->|(b & -> & Hb)]; simpl.
      - exists d. split_and!; [done|by left| |done]. right. lia.
      - fold (padding values d). destruct (_ || _) eqn:E.
        + exists d. split_and!; [done|by left|right; lia|]. intros _. unfold better. lia.
        + exists b. split_and!; [done|by right| |intros _; right; lia]. unfold better. lia. }
    destruct Hstep as (b & -> & Hb & Hbd & Hbb).
    destruct (IH (b, Some (padding values b))) as (b' & -> & Hle & Hb' & Hall & Hbest').
    + intros d' Hd'. apply Hds. by right.
    + right. exists b. split; [done|]. destruct Hb as [->|[Hb1 Hb2]]; [apply Hds; left|].
      destruct Hbest as [->|(b1 & -> & ?)]; simpl in *; [done|lia].
    + by right.
    + simpl in *. specialize (Hbest' ltac:(done)). exists b'. split_and!; [done|done| | |].
      * destruct Hb' as [?|[<- _]]; [left; by right|]. destruct Hb as [->|?]; [left; left|by right].
      * intros d' [->|Hd']%elem_of_cons; [|by apply Hall]. unfold better in *. lia.
      * intros Hn. specialize (Hbb Hn). unfold better in *. lia.
Qed.

(** The chunk size found has the least padding in its range, the largest of those. *)
Lemma approximate_gcd_best values lb d : _approximate_gcd values lb = Ok d →
  1 ≤ d ∧ default 1 lb ≤ d ∧
  ∀ d', Z.max 1 (default 1 lb) ≤ d' → (∃ x, x ∈ values ∧ d' ≤ x) → better values d d'.
Proof.
  unfold _approximate_gcd. case_bool_decide; [done|]. case_match; [done|]. unfold mbind, result_bind.
  destruct (py_max values) as [mx|] eqn:Hmx; [|done]. apply py_max_spec in Hmx as [_ Hmx].
  destruct (Z.ltb_spec mx (Z.max 1 (default 1 lb))) as [Hlt|Hge].
  - intros [= <-]. split_and!; [lia..|]. intros d' Hd' (x & Hx & ?). specialize (Hmx x Hx). lia.
  - intros [= <-]. unfold zrange.
    destruct (gcd_fold values (Z.max 1 (default 1 lb), None) (seqZ (Z.max 1 (default 1 lb)) (mx + 1 - Z.max 1 (default 1 lb)))
      (Z.max 1 (default 1 lb))) as (b & -> & Hb & _ & Hall & _).
    + intros d Hd%elem_of_seqZ. lia.
    + by left.
    + left. intros E. assert (mx ∈ seqZ (Z.max 1 (default 1 lb)) (mx + 1 - Z.max 1 (default 1 lb))) as Hin by (apply elem_of_seqZ; lia).
      rewrite E in Hin. by apply not_elem_of_nil in Hin.
    + simpl. split_and!; [lia..|]. intros d' Hd' (x & Hx & ?). apply Hall, elem_of_seqZ. specialize (Hmx x Hx). lia.
Qed.

Lemma column_list {A} (l : list A) n : (length l ≤ n)%nat →
  concat ((λ i, option_list (l !! i)) <$> seq 0 n) = l.
Proof.
  revert n. induction l as [|x l IH]; intros n Hn.
  - clear. generalize 0%nat. induction n as [|n IH]; intros i; [done|]. csimpl. by rewrite IH.
  - destruct n as [|n]; [simpl in Hn; lia|]. rewrite <-cons_seq, <-fmap_S_seq. csimpl. rewrite <-list_fmap_compose. f_equal.
    apply IH. simpl in Hn. lia.
Qed.

(** The rows of columns that are not longer than [n]. *)
Lemma columns_perm {A} (ls : list (list A)) (n : nat) : (∀ l, l ∈ ls → (length l ≤ n)%nat) →
  concat ((λ i, omap (λ l : list A, l !! i) ls) <$> seq 0 n) ≡ₚ concat ls.
Proof.
  induction ls as [|l ls IH]; intros Hls.
  - clear. induction (seq 0 n); [done|]. csimpl. done.
  - change (concat (l :: ls)) with (l ++ concat ls).
    rewrite <-(IH ltac:(intros l' Hl'; apply Hls; by right)). clear IH. simpl.
    rewrite <-(column_list l n) at 1 by (apply Hls; left). clear Hls.
    induction (seq 0 n) as [|i idx IH]; [done|]. csimpl. rewrite IH.
    destruct (l !! i); csimpl; [f_equiv|]; rewrite !(assoc_L (++)); f_equiv; apply Permutation_app_comm.
Qed.

Lemma foldr_min_same n l : (∀ x, x ∈ l → x = n) → foldr Nat.min n l = n.
Proof.
  induction l as [|x l IH]; [done|]. intros Hl. simpl. rewrite IH by (intros y Hy; apply Hl; by right).
  rewrite (Hl x) by left. lia.
Qed.

Lemma py_zip_perm {A} (ls : list (list A)) n : (∀ l, l ∈ ls → length l = n) → concat (py_zip ls) ≡ₚ concat ls.
Proof.
  intros Hls. destruct ls as [|l0 ls]; [done|]. unfold py_zip.
  rewrite (Hls l0) by left. rewrite foldr_min_same; [apply columns_perm; intros l Hl; by rewrite (Hls l Hl)|].
  intros x (l & -> & Hl)%list_elem_of_fmap. by apply Hls.
Qed.

Lemma tuple_group_ok specs tuples g : NoDup specs.*1 → tuple_group specs tuples = Ok g →
  layer_names g = concat tuples ∧ uniform_group g ∧ layer_names g ≠ [] ∧ one_class specs g.
Proof.
  intros Hnd. unfold tuple_group, mbind, result_bind at 1. destruct (result_map _ _) as [gls|] eqn:Hg; [|done].
  unfold result_bind at 1. destruct (from_specs gls) as [[u|]|] eqn:Hu; [|done..]. intros [= <-]. simpl.
  apply from_specs_ok in Hu as ((b & ->) & Hne & c & Hc).
  assert (Hk : gls.*1 = concat tuples).
  { rewrite <-(list_fmap_id (concat tuples)). eapply result_map_fmap; [done|]. intros n ns. unfold mbind, result_bind.
    destruct (layer_spec specs n); [|done]. by intros [= <-]. }
  split_and!; [done|by exists b, gls|intros E; rewrite E in Hk; by apply fmap_nil_inv in Hk|].
  exists c. simpl. intros n s Hn Hs. destruct (result_map_elem_l _ _ _ _ Hg Hn) as (ns & Hns & E).
  unfold mbind, result_bind in E. destruct (layer_spec specs n) as [s'|] eqn:Hs'; [|done]. injection E as <-.
  apply layer_spec_in in Hs'. rewrite (dict_unique _ _ _ _ Hnd Hs Hs'). apply (Hc _ Hns).
Qed.

Lemma set_padded_class p s : attention_class (set_page_size_padded p s) = attention_class s.
Proof. by destruct s. Qed.

Lemma pad_layer_ok cands ns p : pad_layer cands ns = Ok p →
  p.2.1 = ns.1 ∧ attention_class p.2.2 = attention_class ns.2.
Proof.
  unfold pad_layer, mbind, result_bind. destruct (layer_page_size_bytes ns.2); [|done].
  destruct (dict_get cands _); [|done]. intros [= <-]. simpl. split; [done|].
  case_match; [apply set_padded_class|done].
Qed.

Lemma swa_mla_group_ok sizes num_layer_tuples sm groups : NoDup sm.*1 → 0 < num_layer_tuples →
  swa_mla_group sizes num_layer_tuples sm = Ok groups →
  group_layers groups ≡ₚ sm.*1 ∧ Forall uniform_group groups ∧ Forall (one_class sm) groups ∧
  Forall (λ g, layer_names g ≠ []) groups.
Proof.
  intros Hnd Hnt. unfold swa_mla_group, mbind, result_bind, assert_that.
  destruct (get_page_sizes sm) as [sms|]; [|done]. destruct (py_max sms); [|done]. destruct (py_max sizes); [|done].
  destruct (_ <=? _); [|done]. destruct (size_to_candidate _ _) as [cands|]; [|done].
  destruct (result_map (pad_layer cands) sm) as [padded|] eqn:Hpad; [|done].
  destruct (remove_dups _) as [|L [|]] eqn:HL; [done| |done]. rewrite (proj2 (Z.eqb_neq _ _)) by lia. intros Hgs.
  assert (Hnames : padded.*2.*1 = sm.*1).
  { rewrite <-list_fmap_compose. eapply result_map_fmap; [done|]. intros ns p Hp. by apply pad_layer_ok in Hp as [? _]. }
  unfold layers_per_size in *.
  destruct (group_by_spec (λ p : Z * (string * LayerSpec), Some p.1) (λ p, p.2.1) padded) as (_ & Hvs & _ & Hperm).
  set (d := group_by _ _ _) in *. rewrite (filter_all _ padded) in Hperm by (intros; by eexists).
  assert (Hlen : ∀ l, l ∈ d.*2 → length l = L ∧ l ≠ []).
  { intros l Hl. split.
    - assert (length l ∈ remove_dups (length <$> d.*2)) as Hin by (apply elem_of_remove_dups; by apply list_elem_of_fmap_2).
      rewrite HL in Hin. by apply list_elem_of_singleton in Hin.
    - apply list_elem_of_fmap in Hl as ([k vs] & -> & Hk). by destruct (Hvs k vs Hk). }
  assert (0 < cdiv (Z.of_nat L) num_layer_tuples) as Hpos.
  { assert (L ∈ length <$> d.*2) as (l & -> & Hl)%list_elem_of_fmap by (apply elem_of_remove_dups; rewrite HL; left).
    destruct (Hlen l Hl) as [_ ?]. destruct l; [done|]. destruct (cdiv_spec (Z.of_nat (length (s :: l))) num_layer_tuples Hnt) as [_ ?].
    simpl length in *. nia. }
  assert (Hall : ∀ g, g ∈ groups → uniform_group g ∧ layer_names g ≠ [] ∧ one_class padded.*2 g).
  { intros g Hg. destruct (result_map_elem _ _ _ _ Hgs Hg) as (t & _ & Ht).
    apply tuple_group_ok in Ht as (_ & ? & ? & ?); [done|by rewrite Hnames]. }
  split_and!.
  - unfold group_layers. rewrite (result_map_fmap _ layer_names (@concat string) _ _ Hgs)
      by (intros ? ? E; by apply tuple_group_ok in E as [? _]; [|rewrite Hnames]).
    rewrite <-Hnames, <-list_fmap_compose. change (fst ∘ snd) with (λ p : Z * (string * LayerSpec), p.2.1).
    rewrite <-Hperm, <-(py_zip_perm d.*2 L) by (intros l Hl; by apply Hlen).
    rewrite <-(stride_slices_perm _ (py_zip d.*2) Hpos) at 2. generalize (stride_slices (cdiv (Z.of_nat L) num_layer_tuples) (py_zip d.*2)).
    clear. intros ls. induction ls as [|l ls IH]; [done|]. csimpl. by rewrite concat_app, IH.
  - apply Forall_forall. intros g Hg. by destruct (Hall g Hg).
  - apply Forall_forall. intros g Hg. destruct (Hall g Hg) as (_ & _ & c & Hc). exists c. intros n s Hn Hs.
    destruct (result_map_elem_l _ _ _ _ Hpad Hs) as (p & Hp & E). apply pad_layer_ok in E as [E1 E2]. simpl in *.
    rewrite <-E2. apply (Hc n); [done|]. rewrite <-E1. apply list_elem_of_fmap. exists p. by destruct p as [? []].
  - apply Forall_forall. intros g Hg. by destruct (Hall g Hg) as (_ & ? & _).
Qed.

Lemma group_and_unify_ok specs gs : group_and_unify_kv_cache_specs specs = Ok (Some gs) →
  existsb (λ ns, is_SlidingWindowMLASpec ns.2) specs = true ∧
  ∃ b us, gs = UniformTypeKVCacheSpecs b (mla_specs specs) :: us ∧ mla_specs specs ≠ [] ∧
    Forall2 (λ kd u, ∃ b, u = UniformTypeKVCacheSpecs b kd.2) (grouped_swa_mla_specs specs) us.
Proof.
  unfold group_and_unify_kv_cache_specs. destruct (existsb _ _); [|done]. simpl. intros H. split; [done|].
  unfold mbind, result_bind, assert_that in H. destruct (0 <? _); [|done].
  destruct (from_specs (mla_specs specs)) as [[u|]|] eqn:Hu; [|done..]. simpl in H.
  destruct (result_map _ _) as [us|] eqn:Hus; [|done]. injection H as <-.
  apply from_specs_ok in Hu as ((b & ->) & Hne & _). exists b, us. split_and!; [done|done|].
  apply result_map_Forall2 in Hus. eapply Forall2_impl; [done|]. intros kd u Hu. simpl in Hu.
  destruct (from_specs kd.2) as [[u'|]|] eqn:Hu'; [|done..]. simpl in Hu. injection Hu as <-.
  by apply from_specs_ok in Hu' as (? & _).
Qed.

Lemma concat_fmap_names (ds : list LayerDict) : concat ((λ d : LayerDict, d.*1) <$> ds) = (concat ds).*1.
Proof. induction ds as [|d ds IH]; [done|]. csimpl. by rewrite fmap_app, IH. Qed.

Lemma one_class_mla specs (d : LayerDict) s b : NoDup specs.*1 → d ⊆ specs →
  (∀ ns, ns ∈ d → is_MLAAttentionSpec ns.2 = true) → one_class specs (mkKVCacheGroupSpec d.*1 s b).
Proof.
  intros Hnd Hsub Hd. exists ClsFull. simpl. intros n s' ([n' s1] & -> & Hin)%list_elem_of_fmap Hs'. simpl in *.
  rewrite (dict_unique _ _ _ _ Hnd Hs' (Hsub _ Hin)). apply mla_class. by apply (Hd _ Hin).
Qed.

Lemma uniform_groups_ok specs gs groups : NoDup specs.*1 →
  group_and_unify_kv_cache_specs specs = Ok (Some gs) → _get_kv_cache_groups_uniform_groups gs = Ok groups →
  group_layers groups ≡ₚ (mla_specs specs).*1 ++ (filter (λ ns, is_Some (swa_key ns.2)) specs).*1 ∧
  Forall uniform_group groups ∧ Forall (one_class specs) groups ∧ Forall (λ g, layer_names g ≠ []) groups.
Proof.
  intros Hnd (_ & b & us & -> & Hne & Hus)%group_and_unify_ok. unfold _get_kv_cache_groups_uniform_groups.
  assert (Hd : result_map uniform_specs us = Ok (grouped_swa_mla_specs specs).*2).
  { apply result_map_Forall2. induction Hus as [|kd u ? ? [b' ->]]; csimpl; by constructor. }
  unfold mbind, result_bind at 1. unfold assert_that at 1. destruct (_ && _); [|done].
  unfold result_bind at 1. change (result_map uniform_specs (?u :: ?us)) with (y ← uniform_specs u; ys ← result_map uniform_specs us; Ok (y :: ys)).
  rewrite Hd. unfold mbind, result_bind, uniform_specs, assert_that. clear Hd.
  destruct (forallb _ (mla_specs specs)) eqn:Hmla; [|done]. destruct (result_map get_num_layer_tuples _) as [tuples|]; [|done].
  destruct (_approximate_gcd _ _) as [nt|] eqn:Hnt; [|done]. apply approximate_gcd_best in Hnt as (Hnt & _).
  destruct (forallb _ _.*2); [|done]. destruct (get_page_sizes _) as [aps|]; [|done].
  destruct (result_map (swa_mla_group aps nt) _) as [sgs|] eqn:Hs; [|done]. intros [= <-].
  destruct (group_by_spec (λ ns : string * LayerSpec, swa_key ns.2) id specs) as (_ & Hvs & _ & Hperm).
  fold (grouped_swa_mla_specs specs) in *. rewrite list_fmap_id in Hperm.
  assert (Hdict : ∀ d, d ∈ (grouped_swa_mla_specs specs).*2 → NoDup d.*1 ∧ d ⊆ specs).
  { intros d ([k vs] & -> & Hk)%list_elem_of_fmap. destruct (Hvs k vs Hk) as [_ ->]. rewrite list_fmap_id.
    split; [by apply filter_names_nodup|apply filter_subseteq]. }
  assert (Hall : ∀ g, g ∈ concat sgs → uniform_group g ∧ one_class specs g ∧ layer_names g ≠ []).
  { intros g (gl & Hgl & Hg)%elem_of_concat. destruct (result_map_elem _ _ _ _ Hs Hgl) as (d & Hdin & E).
    destruct (Hdict d Hdin) as [Hdn Hsub]. apply swa_mla_group_ok in E as (Hp & Hu & Hc & Hn); [|done|lia].
    split_and!; [by eapply Forall_forall in Hu| |by eapply (Forall_forall _ gl) in Hn].
    apply (one_class_weaken specs d); [done|done| |by eapply Forall_forall in Hc].
    intros n Hin. rewrite <-Hp. by eapply group_layers_elem. }
  split_and!.
  - change (group_layers (?g :: concat sgs)) with (layer_names g ++ group_layers (concat sgs)). simpl. f_equiv.
    rewrite <-Hperm, <-concat_fmap_names. clear -Hs Hdict Hnt. unfold group_layers.
    apply result_map_Forall2 in Hs. induction Hs as [|d gl ds sgs E _ IH]; [done|]. csimpl.
    rewrite fmap_app, concat_app, IH by (intros; apply Hdict; by right). f_equiv.
    apply swa_mla_group_ok in E as [? _]; [done| |lia]. apply Hdict. left.
  - constructor; [by exists b, (mla_specs specs)|]. apply Forall_forall. intros g Hg. by destruct (Hall g Hg).
  - constructor; [|apply Forall_forall; intros g Hg; by destruct (Hall g Hg) as (_ & ? & _)].
    apply one_class_mla; [done|apply filter_subseteq|]. intros ns Hns. by apply (forallb_elem _ _ _ Hmla).
  - constructor; [simpl; intros E; by apply fmap_nil_inv in E|]. apply Forall_forall. intros g Hg.
    by destruct (Hall g Hg) as (_ & _ & ?).
Qed.

Lemma flag_group_spec layer groups : Forall2 (λ g g', layer_names g' = layer_names g ∧ kv_cache_spec g' = kv_cache_spec g)
  groups (flag_group layer groups).
Proof.
  induction groups as [|g gs IH]; simpl; [constructor|]. case_bool_decide; constructor; try done.
  by apply Forall_Forall2_diag, Forall_forall.
Qed.

Lemma annotate_ok cfg specs gs gs' : _annotate_eagle_groups_deepseek_v4 cfg specs gs = Ok gs' →
  Forall2 (λ g g', layer_names g' = layer_names g ∧ kv_cache_spec g' = kv_cache_spec g) gs gs'.
Proof.
  assert (Hid : Forall2 (λ g g', layer_names g' = layer_names g ∧ kv_cache_spec g' = kv_cache_spec g) gs gs)
    by (by apply Forall_Forall2_diag, Forall_forall).
  unfold _annotate_eagle_groups_deepseek_v4. intros H. repeat case_match; simplify_eq; try done. apply flag_group_spec.
Qed.

Lemma same_groups gs gs' : Forall2 (λ g g', layer_names g' = layer_names g ∧ kv_cache_spec g' = kv_cache_spec g) gs gs' →
  group_layers gs' = group_layers gs ∧
  (Forall uniform_group gs → Forall uniform_group gs') ∧
  (∀ specs, Forall (one_class specs) gs → Forall (one_class specs) gs') ∧
  (Forall (λ g, layer_names g ≠ []) gs → Forall (λ g, layer_names g ≠ []) gs').
Proof.
  intros H. assert (Hn : layer_names <$> gs' = layer_names <$> gs)
    by (induction H as [|g g' ? ? [E _] ? IH]; [done|]; csimpl; by rewrite E, IH).
  split_and!; [unfold group_layers; by rewrite Hn| | |]; [|intros specs|]; intros Hall; apply Forall_forall; intros g' (i & Hi)%list_elem_of_lookup;
    destruct (Forall2_lookup_r _ _ _ _ _ H Hi) as (g & Hg & En & Es); pose proof (Forall_lookup_1 _ _ _ _ Hall Hg) as Hg0; clear Hall; rename Hg0 into Hall; cbv beta in Hall.
  - destruct Hall as (b & d & ? & ?). exists b, d. by rewrite En, Es.
  - destruct Hall as [c Hc]. exists c. by rewrite En.
  - by rewrite En.
Qed.

Lemma unify_hybrid_keys specs specs' : unify_hybrid_kv_cache_specs specs = Ok specs' →
  specs'.*1 = specs.*1 ∧ (hidden_unaligned specs → hidden_unaligned specs').
Proof.
  unfold unify_hybrid_kv_cache_specs, mbind, result_bind. destruct (uniform_spec_or_type specs) as [[]|]; [by intros [= <-]| |done].
  destruct (assert_that _); [|done]. destruct (uniform_spec_or_type _) as [[]|]; [|done..]. intros [= <-].
  case_match; [|done]. split.
  - rewrite <-list_fmap_compose. done.
  - intros Hal n al f m ([n' s] & E & Hin)%list_elem_of_fmap. destruct s; simplify_eq/=; by eapply Hal.
Qed.

(** The groups are of one of the three forms the memory planning knows. *)
Definition laid_out (groups : list KVCacheGroupSpec) : Prop :=
  Forall uniform_group groups ∨ ∃ p, Forall (paged_group p) groups.

(** What [get_kv_cache_groups] promises about the layers [specs]. *)
Definition grouping (specs : LayerDict) (groups : list KVCacheGroupSpec) : Prop :=
  group_layers groups ⊆+ specs.*1 ∧
  ((∀ ns, ns ∈ specs → is_SlidingWindowMLASpec ns.2 = false) ∨
   (∀ ns, ns ∈ specs → is_MLAAttentionSpec ns.2 || is_SlidingWindowMLASpec ns.2 = true) →
   group_layers groups ≡ₚ specs.*1) ∧
  laid_out groups ∧ Forall (one_class specs) groups ∧ Forall (λ g, layer_names g ≠ []) groups.

Lemma grouping_all specs groups : group_layers groups ≡ₚ specs.*1 → laid_out groups →
  Forall (one_class specs) groups → Forall (λ g, layer_names g ≠ []) groups → grouping specs groups.
Proof. intros Hp ???. unfold grouping. split_and!; [by rewrite Hp|done..]. Qed.

Lemma mla_not_swa specs : NoDup specs.*1 →
  (mla_specs specs).*1 ++ (filter (λ ns, is_Some (swa_key ns.2)) specs).*1 ⊆+ specs.*1 ∧
  ((∀ ns, ns ∈ specs → is_MLAAttentionSpec ns.2 || is_SlidingWindowMLASpec ns.2 = true) →
   (mla_specs specs).*1 ++ (filter (λ ns, is_Some (swa_key ns.2)) specs).*1 ≡ₚ specs.*1).
Proof.
  intros Hnd. split.
  - apply NoDup_submseteq.
    + apply NoDup_app. split_and!; [by apply filter_names_nodup| |by apply filter_names_nodup].
      intros n ([n1 s1] & -> & [H1 H1']%list_elem_of_filter)%list_elem_of_fmap
        ([n2 s2] & E & [H2 H2']%list_elem_of_filter)%list_elem_of_fmap. simpl in *. subst n2.
      rewrite (dict_unique _ _ _ _ Hnd H1' H2') in *. destruct s2; by (destruct H2 || destruct H1).
    + intros n [Hn|Hn]%elem_of_app; apply list_elem_of_fmap in Hn as (ns & -> & Hn%filter_subseteq);
        by apply list_elem_of_fmap_2.
  - intros Hall. rewrite Permutation_app_comm. rewrite <-(names_perm (λ ns, is_MLAAttentionSpec ns.2) specs). f_equiv; [|done].
    erewrite list_filter_iff'; [done|]. intros ns Hns. specialize (Hall ns Hns). simpl.
    destruct ns.2; simpl in *; try done; split; naive_solver.
Qed.

Lemma groups_ok cfg specs0 specs groups : NoDup specs0.*1 → hidden_unaligned specs0 →
  (if disable_hybrid_kv_cache_manager cfg then unify_hybrid_kv_cache_specs specs0 else Ok specs0) = Ok specs →
  get_kv_cache_groups cfg specs0 = Ok groups → specs.*1 = specs0.*1 ∧ grouping specs groups.
Proof.
  intros Hnd0 Hal0 Hspecs. unfold get_kv_cache_groups. rewrite Hspecs. unfold mbind, result_bind at 1.
  assert (specs.*1 = specs0.*1 ∧ hidden_unaligned specs) as [Hkeys Hal].
  { destruct (disable_hybrid_kv_cache_manager cfg); [|by injection Hspecs as ->].
    apply unify_hybrid_keys in Hspecs as [? ?]. auto. }
  assert (Hnd : NoDup specs.*1) by (by rewrite Hkeys). clear Hspecs Hnd0 Hal0. intros H. split; [done|].
  unfold is_kv_cache_type_attention_free in H. case_bool_decide as Hempty.
  { injection H as <-. subst specs. apply grouping_all; [done|by left; constructor|constructor..]. }
  unfold result_bind at 1 in H. destruct (is_kv_cache_spec_uniform specs) as [[]|] eqn:Huni; [| |done].
  { apply create_groups_ok in H as [Hn Hm]; [|done]. destruct groups as [|g [|]]; try done.
    apply Forall_cons in Hm as [(Hne & s & Hs & Hc & _) _]. injection Hn as Hn. apply grouping_all.
    - unfold group_layers. simpl. by rewrite app_nil_r, Hn.
    - right. exists (match layer_page_size_bytes s with Ok p => p | Err _ => 0 end). constructor; [|constructor].
      exists s. split; [done|]. by intros q ->.
    - constructor; [|constructor]. by exists (attention_class s).
    - by constructor. }
  unfold result_bind at 1 in H. destruct (from_specs specs) as [[u|]|] eqn:Hu; [| |done].
  { apply from_specs_ok in Hu as ((b & ->) & Hne & c & Hc). simpl in H. injection H as <-. apply grouping_all.
    - unfold group_layers. simpl. by rewrite app_nil_r.
    - left. constructor; [|constructor]. by exists b, specs.
    - constructor; [|constructor]. exists c. intros n s _ Hs. apply (Hc _ Hs).
    - constructor; [|constructor]. simpl. intros E. by apply fmap_nil_inv in E. }
  unfold result_bind at 1 in H. destruct (group_and_unify_kv_cache_specs specs) as [[gs|]|] eqn:Hgu; [| |done].
  - unfold result_bind at 1 in H. destruct (_get_kv_cache_groups_uniform_groups gs) as [gr|] eqn:Hgr; [|done].
    apply annotate_ok, same_groups in H as (Hl & Hu' & Hc' & Hn'). pose proof Hgu as [Hsw _]%group_and_unify_ok.
    destruct (uniform_groups_ok _ _ _ Hnd Hgu Hgr) as (Hp & Hgu' & Hgc & Hgn).
    destruct (mla_not_swa specs Hnd) as [Hsub Hfull]. unfold grouping. rewrite Hl, Hp.
    split_and!; [done| |left; by apply Hu'|by apply Hc'|by apply Hn']. intros [Hno|?]; [|by apply Hfull].
    apply existsb_exists in Hsw as (ns & Hns & E). rewrite Hno in E; [done|by apply list_elem_of_In].
  - assert (Hno : ∀ ns, ns ∈ specs → is_SlidingWindowMLASpec ns.2 = false).
    { unfold group_and_unify_kv_cache_specs in Hgu. destruct (existsb _ _) eqn:Hex; simpl in Hgu.
      - unfold mbind, result_bind in Hgu. repeat case_match; simplify_eq.
      - intros ns Hns. destruct (is_SlidingWindowMLASpec ns.2) eqn:E; [|done].
        assert (existsb (λ ns, is_SlidingWindowMLASpec ns.2) specs = true)
          by (apply existsb_exists; exists ns; split; [by apply list_elem_of_In|done]). congruence. }
    destruct (general_groups_ok specs groups Hnd Hal Hno H) as (Hp & Hpg & Hc & Hn). apply grouping_all; try done. by right.
Qed.
