(* ===== verification/KVPlan.v ===== *)
(** * KV-cache memory planning

    Models the second half of the start-up planning in
    [vllm/v1/core/kv_cache_utils.py]: from the groups and the profiled memory of the
    workers to the number of blocks and the tensors of every worker
    ([get_kv_cache_configs] and everything it calls), the estimate of the longest
    context that fits, and the scheduler's configuration.

    [estimate_max_model_len] sets [max_model_len] while it searches and restores it in a
    [finally] clause; nothing reads it in between, so the probes are evaluations of the
    memory formula at other lengths. The concurrency figures are logged only, and are
    exact rationals here. *)

From Stdlib Require Import ZArith Lia QArith.
From S2P Require Import Prelude MathUtils KVSpec KVGroups.
Local Open Scope Z_scope.

Definition set_max_model_len (n : Z) (v : VllmConfig) : VllmConfig :=
  mkVllmConfig n (max_num_batched_tokens v) (max_num_encoder_input_tokens v)
    (decode_context_parallel_size v) (prefill_context_parallel_size v) (cfg_mamba_cache_mode v).
Definition plan_set_max_model_len (n : Z) (c : PlanConfig) : PlanConfig :=
  mkPlanConfig (set_max_model_len n (plan_vllm c)) (original_max_model_len c) (num_gpu_blocks_override c)
    (disable_hybrid_kv_cache_manager c) (spec_use_eagle c) (cache_block_size c) (cache_hash_block_size c)
    (cache_enable_prefix_caching c) (kv_transfer_enabled c).

(** ** The longest context that fits *)

Definition max_memory_usage_bytes_of (v : VllmConfig) (specs : list KVCacheSpec) : result Z :=
  sum_results (max_memory_usage_bytes v) specs.

(** The [while left <= right] loop; the fuel bounds the number of halvings. *)
Fixpoint search_loop (fuel : nat) (fits : Z → result bool) (left right result : Z) : Prelude.result Z :=
  match fuel with
  | O => Err RuntimeError
  | S fuel =>
      if left <=? right then
        let mid := (left + right) / 2 in
        ok ← fits mid;
        if (ok : bool) then search_loop fuel fits (mid + 1) right mid
        else search_loop fuel fits left (mid - 1) result
      else Ok result
  end.

Definition search_fuel (n : Z) : nat := S (S (Z.to_nat (Z.log2 n))).

(** The search shared by the two estimates. *)
Definition largest_fitting (fits : Z → result bool) (original_max : Z) : result Z :=
  ok ← fits 1;
  if (ok : bool) then search_loop (search_fuel original_max) fits 1 original_max 1 else Ok 0.

Definition estimate_max_model_len (v : VllmConfig) (specs : LayerDict) (available_memory : Z) : result Z :=
  largest_fitting (λ model_len,
    memory_needed ← max_memory_usage_bytes_of (set_max_model_len model_len v) (OneSpec <$> specs.*2);
    Ok (memory_needed <=? available_memory)) (max_model_len v).

(** [_check_enough_kv_cache_memory]; the estimate is only used in the message, but
    it is computed and may itself raise. *)
Definition _check_enough_kv_cache_memory (available_memory : Z) (get_needed_memory : result Z)
    (estimate : Z → result Z) : result unit :=
  if available_memory <=? 0 then Err ValueError
  else
    needed_memory ← get_needed_memory;
    if available_memory <? needed_memory then _ ← estimate available_memory; Err ValueError
    else Ok tt.

Definition check_enough_kv_cache_memory (v : VllmConfig) (specs : LayerDict) (available_memory : Z) : result unit :=
  if bool_decide (specs = []) then Ok tt
  else _check_enough_kv_cache_memory available_memory
         (max_memory_usage_bytes_of v (OneSpec <$> specs.*2)) (estimate_max_model_len v specs).

(** ** Blocks and tensors of one worker *)

Definition may_override_num_blocks (cfg : PlanConfig) (num_blocks : Z) : Z :=
  default num_blocks (num_gpu_blocks_override cfg).

Definition get_num_blocks (cfg : PlanConfig) (num_layers available_memory page_size : Z) : result Z :=
  a ← py_floordiv available_memory page_size;
  n ← py_floordiv a num_layers;
  Ok (may_override_num_blocks cfg (Z.max n 0)).

Definition group_sizes (groups : list KVCacheGroupSpec) : list Z := (λ g, zlen (layer_names g)) <$> groups.
Definition group_specs (groups : list KVCacheGroupSpec) : list KVCacheSpec := kv_cache_spec <$> groups.
Definition all_uniform_type (groups : list KVCacheGroupSpec) : bool :=
  forallb (λ g, is_uniform_type_spec (kv_cache_spec g)) groups.

(** The page size of a layer inside its group. *)
Definition page_of (spec : KVCacheSpec) (layer_name : string) : result Z :=
  match spec with
  | UniformTypeKVCacheSpecs _ d => s ← layer_spec d layer_name; layer_page_size_bytes s
  | OneSpec s => layer_page_size_bytes s
  end.

(** One layer: [(buckets, slot_count)] after it. *)
Definition bucket_layer (spec : KVCacheSpec) (buckets : list (Z * list (list string))) (slot_count : list (Z * Z))
    (layer_name : string) : result (list (Z * list (list string)) * list (Z * Z)) :=
  ps ← page_of spec layer_name;
  let slot_idx := default 0 (dict_get slot_count ps) in
  let slots := default [] (dict_get buckets ps) in
  let slots := if slot_idx =? zlen slots then slots ++ [[]] else slots in
  slot ← py_index slots slot_idx;
  Ok (dict_set buckets ps (<[Z.to_nat slot_idx := slot ++ [layer_name]]> slots), dict_set slot_count ps (slot_idx + 1)).

Definition bucket_group (buckets : list (Z * list (list string))) (g : KVCacheGroupSpec)
    : result (list (Z * list (list string))) :=
  st ← foldl (λ acc layer_name, '(b, c) ← acc; bucket_layer (kv_cache_spec g) b c layer_name)
         (Ok (buckets, [])) (layer_names g);
  Ok st.1.

Definition _bucket_layers_by_page_size (groups : list KVCacheGroupSpec) : result (list (Z * list (list string))) :=
  foldl (λ acc g, b ← acc; bucket_group b g) (Ok []) groups.

Definition bucket_bytes (buckets : list (Z * list (list string))) : Z :=
  zsum ((λ b, b.1 * zlen b.2) <$> buckets).

(** [len(groups) == 1 and isinstance(groups[0].kv_cache_spec, UniformTypeKVCacheSpecs)],
    with the names and the specs of the layers of that group. *)
Definition single_uniform (groups : list KVCacheGroupSpec) : option (list string * LayerDict) :=
  match groups with
  | [g] => match kv_cache_spec g with UniformTypeKVCacheSpecs _ d => Some (layer_names g, d) | _ => None end
  | _ => None
  end.

(** [page_size_bytes] of a [UniformTypeKVCacheSpecs] *)
Definition uniform_page_size (d : LayerDict) : result Z := sum_results (λ ns, layer_page_size_bytes ns.2) d.

Definition _pool_bytes_per_block (groups : list KVCacheGroupSpec) : result Z :=
  match single_uniform groups with
  | Some (_, d) => uniform_page_size d
  | None =>
      if all_uniform_type groups then
        buckets ← _bucket_layers_by_page_size groups; Ok (bucket_bytes buckets)
      else
        group_size ← py_max (group_sizes groups);
        page_size ← get_uniform_page_size (group_specs groups);
        Ok (page_size * group_size)
  end.

Definition bucket_tensors (num_blocks : Z) (buckets : list (Z * list (list string))) : list KVCacheTensor :=
  concat ((λ b : Z * list (list string), (λ slot, mkKVCacheTensor (b.1 * num_blocks) slot) <$> b.2) <$> buckets).

Definition _get_kv_cache_config_deepseek_v4 (cfg : PlanConfig) (groups : list KVCacheGroupSpec) (available_memory : Z)
    : result (Z * list KVCacheTensor) :=
  buckets ← _bucket_layers_by_page_size groups;
  n ← py_floordiv available_memory (bucket_bytes buckets);
  let num_blocks := may_override_num_blocks cfg n in
  Ok (num_blocks, bucket_tensors num_blocks buckets).

(** The layers that share the [i]-th tensor. *)
Definition shared_layers (groups : list KVCacheGroupSpec) (i : nat) : list string :=
  omap (λ g, layer_names g !! i) groups.

(** One tensor per layer of the single group. *)
Definition per_layer_config (cfg : PlanConfig) (groups : list KVCacheGroupSpec) (names : list string)
    (d : LayerDict) (available_memory : Z) : result KVCacheConfig :=
  page ← uniform_page_size d;
  n ← py_floordiv available_memory page;
  let num_blocks := may_override_num_blocks cfg n in
  tensors ← result_map (λ name, s ← layer_spec d name; p ← layer_page_size_bytes s;
                          Ok (mkKVCacheTensor (p * num_blocks) [name])) names;
  Ok (mkKVCacheConfig num_blocks tensors groups).

(** The general case: tensors shared by one layer of each group. *)
Definition pool_config (cfg : PlanConfig) (groups : list KVCacheGroupSpec) (available_memory : Z) : result KVCacheConfig :=
  group_size ← py_max (group_sizes groups);
  page_size ← get_uniform_page_size (group_specs groups);
  _ ← assert_that (0 <? group_size);
  num_blocks ← get_num_blocks cfg group_size available_memory page_size;
  Ok (mkKVCacheConfig num_blocks
        ((λ i, mkKVCacheTensor (page_size * num_blocks) (shared_layers groups i)) <$> seq 0 (Z.to_nat group_size))
        groups).

Definition get_kv_cache_config_from_groups (cfg : PlanConfig) (groups : list KVCacheGroupSpec) (available_memory : Z)
    : result KVCacheConfig :=
  if bool_decide (groups = []) then Ok (mkKVCacheConfig 1 [] groups)
  else
    match single_uniform groups with
    | Some (names, d) => per_layer_config cfg groups names d available_memory
    | None =>
        if all_uniform_type groups then
          '(num_blocks, tensors) ← _get_kv_cache_config_deepseek_v4 cfg groups available_memory;
          Ok (mkKVCacheConfig num_blocks tensors groups)
        else pool_config cfg groups available_memory
    end.

(** ** Memory of one request *)

(** [group_spec.max_memory_usage_pages(cfg)] of a [UniformTypeKVCacheSpecs] *)
Definition group_pages (v : VllmConfig) (g : KVCacheGroupSpec) : result Z :=
  d ← uniform_specs (kv_cache_spec g); max_memory_usage_pages v d.

(** All groups [UniformTypeKVCacheSpecs]: every group reserves the tuples of the
    largest one. *)
Definition tuple_usage (v : VllmConfig) (groups : list KVCacheGroupSpec) : result Z :=
  match groups with
  | [] => Err IndexError
  | g0 :: _ =>
      full ← uniform_specs (kv_cache_spec g0);
      sizes ← get_page_sizes full;
      tuples ← result_map (λ g, d ← uniform_specs (kv_cache_spec g); get_num_layer_tuples d) groups;
      num_layer_tuples ← py_max tuples;
      sum_results (λ g, pages ← group_pages v g; Ok (num_layer_tuples * pages * zsum sizes)) groups
  end.

(** The blocks one request needs, over all groups. *)
Definition blocks_needed (v : VllmConfig) (page_size : Z) (groups : list KVCacheGroupSpec) : result Z :=
  sum_results (λ g, m ← max_memory_usage_bytes v (kv_cache_spec g);
                    if page_size =? 0 then Err ZeroDivisionError else Ok (cdiv m page_size)) groups.

(** The general case. *)
Definition pool_usage (v : VllmConfig) (groups : list KVCacheGroupSpec) : result Z :=
  group_size ← py_max (group_sizes groups);
  page_size ← get_uniform_page_size (group_specs groups);
  needed ← blocks_needed v page_size groups;
  Ok (group_size * page_size * needed).

Definition _max_memory_usage_bytes_from_groups (v : VllmConfig) (groups : list KVCacheGroupSpec) : result Z :=
  if bool_decide (groups = []) then Ok 0
  else
    match single_uniform groups with
    | Some (_, d) => sum_results (λ ns, layer_max_memory_usage_bytes v ns.2) d
    | None => if all_uniform_type groups then tuple_usage v groups else pool_usage v groups
    end.

Definition fits_from_groups (v : VllmConfig) (groups : list KVCacheGroupSpec) (available_memory model_len : Z) : result bool :=
  m ← _max_memory_usage_bytes_from_groups (set_max_model_len model_len v) groups;
  Ok (m <=? available_memory).

Definition _estimate_max_model_len_from_groups (v : VllmConfig) (groups : list KVCacheGroupSpec) (available_memory : Z) : result Z :=
  largest_fitting (fits_from_groups v groups available_memory) (max_model_len v).

(** The loop over the workers: the smallest estimate. *)
Fixpoint auto_fit_loop (v : VllmConfig) (workers : list (list KVCacheGroupSpec * Z)) (auto_fit_max : Z) : result Z :=
  match workers with
  | [] => Ok auto_fit_max
  | (groups, avail_mem) :: workers =>
      if bool_decide (groups = []) then auto_fit_loop v workers auto_fit_max
      else
        worker_max ← _estimate_max_model_len_from_groups v groups avail_mem;
        auto_fit_loop v workers (if worker_max <? auto_fit_max then worker_max else auto_fit_max)
  end.

Definition _auto_fit_max_model_len (cfg : PlanConfig) (projected : list (list KVCacheGroupSpec)) (available_memory : list Z)
    : result PlanConfig :=
  let original_max := max_model_len (plan_vllm cfg) in
  if forallb (λ groups, bool_decide (groups = [])) projected then Ok cfg
  else
    _ ← py_index available_memory 0;
    auto_fit_max ← auto_fit_loop (plan_vllm cfg) (zip projected available_memory) original_max;
    if auto_fit_max <=? 0 then Err ValueError
    else if original_max <=? auto_fit_max then Ok cfg
    else Ok (plan_set_max_model_len auto_fit_max cfg).

(** ** All workers *)

(** [UniformTypeKVCacheSpecs(...)] restricted to the worker's layers. *)
Definition project_spec (names : list string) (s : KVCacheSpec) : result KVCacheSpec :=
  match s with
  | UniformTypeKVCacheSpecs b d =>
      if bool_decide (names = []) then Ok s
      else d' ← result_map (λ n, x ← layer_spec d n; Ok (n, x)) names; Ok (UniformTypeKVCacheSpecs b d')
  | OneSpec _ => Ok s
  end.
Definition worker_layers (worker_spec : LayerDict) (names : list string) : list string :=
  filter (λ n, n ∈ worker_spec.*1) names.
Definition _project_kv_cache_groups_to_worker (groups : list KVCacheGroupSpec) (worker_spec : LayerDict)
    : result (list KVCacheGroupSpec) :=
  result_map (λ g,
    let names := worker_layers worker_spec (layer_names g) in
    s ← project_spec names (kv_cache_spec g);
    Ok (mkKVCacheGroupSpec names s (is_eagle_group g && bool_decide (names ≠ [])))) groups.

Definition merge_layer (acc : result LayerDict) (ns : string * LayerSpec) : result LayerDict :=
  d ← acc;
  match dict_get d ns.1 with
  | None => Ok (dict_set d ns.1 ns.2)
  | Some s => _ ← assert_that (bool_decide (s = ns.2)); Ok d
  end.
Definition merged_kv_cache_specs (kv_cache_specs : list LayerDict) : result LayerDict :=
  foldl merge_layer (Ok []) (concat kv_cache_specs).

(** [KVCacheSpecRegistry.check_kv_cache_spec_registry] with the built-in
    registrations: only the encoder-only spec has no registered base class. *)
Definition check_kv_cache_spec_registry (specs : LayerDict) : result unit :=
  if existsb (λ ns, match ns.2 with EncoderOnlyAttentionSpec _ => true | _ => false end) specs
  then Err ValueError else Ok tt.

(** The memory a worker plans with when the number of blocks is overridden. *)
Definition adjust_memory (override : Z) (groups : list KVCacheGroupSpec) (avail_mem : Z) : result Z :=
  if bool_decide (groups = []) then Ok avail_mem
  else
    bytes_per_block ← _pool_bytes_per_block groups;
    _ ← py_floordiv avail_mem bytes_per_block;
    Ok (override * bytes_per_block).
Definition effective_memory (cfg : PlanConfig) (projected : list (list KVCacheGroupSpec)) (available_memory : list Z)
    : result (list Z) :=
  match num_gpu_blocks_override cfg with
  | None => Ok available_memory
  | Some override => result_map (λ ga, adjust_memory override ga.1 ga.2) (zip projected available_memory)
  end.

Definition check_worker (v : VllmConfig) (ga : list KVCacheGroupSpec * Z) : result unit :=
  if bool_decide (ga.1 = []) then Ok tt
  else _check_enough_kv_cache_memory ga.2 (_max_memory_usage_bytes_from_groups v ga.1)
         (_estimate_max_model_len_from_groups v ga.1).

(** The config of one worker, before the workers agree on a number of blocks. *)
Definition worker_config (cfg : PlanConfig) (w : list KVCacheGroupSpec * LayerDict * Z) : result KVCacheConfig :=
  let '(groups, worker_spec, avail_mem) := w in
  _ ← assert_that (zsum (group_sizes groups) =? zlen worker_spec);
  get_kv_cache_config_from_groups cfg groups avail_mem.

(** ** Capacity, for the log *)

Definition get_max_concurrency_for_kv_cache_config (v : VllmConfig) (c : KVCacheConfig) : result Q :=
  num_layer_per_group ← py_max (group_sizes (kv_cache_groups c));
  m ← max_memory_usage_bytes_of v (group_specs (kv_cache_groups c));
  match kv_cache_groups c with
  | [] => Err IndexError
  | g :: _ =>
      page ← page_size_bytes (kv_cache_spec g);
      if page * num_layer_per_group =? 0 then Err ZeroDivisionError
      else
        let num_block_per_request := cdiv (num_layer_per_group * m) (page * num_layer_per_group) in
        if num_block_per_request =? 0 then Err ZeroDivisionError
        else Ok (inject_Z (num_blocks c) / inject_Z num_block_per_request)%Q
  end.

(** [int(max_concurrency * max_model_len)], which truncates towards zero. *)
Definition get_kv_cache_capacity (v : VllmConfig) (c : KVCacheConfig) : result (Z * Q) :=
  max_concurrency ← get_max_concurrency_for_kv_cache_config v c;
  let tokens := (max_concurrency * inject_Z (max_model_len v))%Q in
  Ok (Z.quot (Qnum tokens) (Zpos (Qden tokens)), max_concurrency).

Definition shrink_tensor (num_blocks_old min_num_blocks : Z) (t : KVCacheTensor) : result KVCacheTensor :=
  r ← py_mod (size t) num_blocks_old;
  _ ← assert_that (r =? 0);
  Ok (mkKVCacheTensor (size t / num_blocks_old * min_num_blocks) (shared_by t)).
Definition shrink_config (v : VllmConfig) (min_num_blocks : Z) (c : KVCacheConfig) : result KVCacheConfig :=
  tensors ← result_map (shrink_tensor (num_blocks c) min_num_blocks) (kv_cache_tensors c);
  let c' := mkKVCacheConfig min_num_blocks tensors (kv_cache_groups c) in
  _ ← (if 0 <? zlen (kv_cache_groups c) then _ ← get_kv_cache_capacity v c'; Ok tt else Ok tt);
  Ok c'.

Fixpoint for_each {A} (f : A → result unit) (l : list A) : result unit :=
  match l with [] => Ok tt | x :: l => _ ← f x; for_each f l end.

(** The configs of the workers, and the config object with the length it ends with. *)
Definition get_kv_cache_configs (cfg0 : PlanConfig) (kv_cache_specs : list LayerDict) (available_memory0 : list Z)
    : result (list KVCacheConfig * PlanConfig) :=
  merged ← merged_kv_cache_specs kv_cache_specs;
  _ ← check_kv_cache_spec_registry merged;
  global_kv_cache_groups ← get_kv_cache_groups cfg0 merged;
  projected ← result_map (_project_kv_cache_groups_to_worker global_kv_cache_groups) kv_cache_specs;
  available_memory ← effective_memory cfg0 projected available_memory0;
  cfg ← (if original_max_model_len cfg0 =? -1
         then _auto_fit_max_model_len cfg0 projected available_memory else Ok cfg0);
  _ ← for_each (check_worker (plan_vllm cfg)) (zip projected available_memory);
  configs ← result_map (worker_config cfg) (zip (zip projected kv_cache_specs) available_memory);
  min_num_blocks ← py_min (num_blocks <$> configs);
  configs' ← result_map (shrink_config (plan_vllm cfg) min_num_blocks) configs;
  Ok (configs', cfg).

(** ** The scheduler's view *)

Definition scheduler_group (g : KVCacheGroupSpec) : result KVCacheGroupSpec :=
  match kv_cache_spec g with
  | OneSpec _ => Ok g
  | UniformTypeKVCacheSpecs _ [] => Err StopIteration
  | UniformTypeKVCacheSpecs _ (ns :: _) => Ok (mkKVCacheGroupSpec (layer_names g) (OneSpec ns.2) (is_eagle_group g))
  end.
Definition generate_scheduler_kv_cache_config (configs : list KVCacheConfig) : result KVCacheConfig :=
  match configs with
  | [] => Err IndexError
  | c0 :: _ =>
      _ ← assert_that (forallb (λ c, num_blocks c =? num_blocks c0) configs);
      groups ← result_map scheduler_group (kv_cache_groups c0);
      Ok (mkKVCacheConfig (num_blocks c0) (kv_cache_tensors c0) groups)
  end.

(** * The search finds the longest context *)

Section Search.
Context (fits : Z → result bool) (P : Z → bool) (N : Z).
Hypothesis Hfits : ∀ m, 1 ≤ m ≤ N → fits m = Ok (P m).
Hypothesis Hmono : ∀ m m', 1 ≤ m' ≤ m → m ≤ N → P m = true → P m' = true.

(** [r] is the largest length that fits. *)
Definition largest (r : Z) : Prop := 1 ≤ r ≤ N ∧ P r = true ∧ ∀ m, r < m ≤ N → P m = false.

Lemma search_loop_S f left right result : search_loop (S f) fits left right result =
  if left <=? right then
    ok ← fits ((left + right) / 2);
    if (ok : bool) then search_loop f fits ((left + right) / 2 + 1) right ((left + right) / 2)
    else search_loop f fits left ((left + right) / 2 - 1) result
  else Ok result.
Proof. done. Qed.

Lemma search_loop_ok (f : nat) left right result : right - left + 1 < 2 ^ Z.of_nat f →
  1 ≤ left → right ≤ N → 1 ≤ result ≤ N → P result = true →
  left = result + 1 ∨ (left = 1 ∧ result = 1) → (∀ m, right < m ≤ N → P m = false) →
  ∃ r, search_loop (S f) fits left right result = Ok r ∧ largest r.
Proof.
  revert left right result. induction f as [|f IH]; intros left right result Hsz Hl Hr Hres Hp Hinv Hno; rewrite search_loop_S.
  - rewrite (proj2 (Z.leb_gt left right)) by (simpl in Hsz; lia). exists result. split; [done|]. split_and!; [lia..|done|].
    intros m Hm. apply Hno. simpl in Hsz. lia.
  - destruct (Z.leb_spec left right) as [Hle|Hgt].
    + rewrite Nat2Z.inj_succ, Z.pow_succ_r in Hsz by lia.
      assert (left ≤ (left + right) / 2 ≤ right) as Hmid
        by (split; [apply Z.div_le_lower_bound|apply Z.div_le_upper_bound]; lia).
      assert (Hdiv := Z.div_mod (left + right) 2 ltac:(lia)). assert (Hm2 := Z.mod_pos_bound (left + right) 2 ltac:(lia)).
      rewrite Hfits by lia. unfold mbind, result_bind. destruct (P ((left + right) / 2)) eqn:Hpm.
      * apply IH; try lia; try done.
      * apply IH; try lia; try done. intros m Hm.
        destruct (P m) eqn:Hpm'; [|done]. rewrite (Hmono m ((left + right) / 2)) in Hpm; [done|lia..|done].
    + exists result. split; [done|]. split_and!; [lia..|done|]. intros m Hm. apply Hno. lia.
Qed.

Lemma largest_fitting_ok : 1 ≤ N →
  ∃ r, largest_fitting fits N = Ok r ∧ (if P 1 then largest r else r = 0).
Proof.
  intros HN. unfold largest_fitting, mbind, result_bind. rewrite Hfits by lia. destruct (P 1) eqn:H1; [|by exists 0].
  apply search_loop_ok; try lia; try done.
  rewrite Nat2Z.inj_succ, Z2Nat.id by apply Z.log2_nonneg. destruct (Z.log2_spec N) as [_ ?]; lia.
Qed.
End Search.

(** * Memory grows with the context length *)

(** The same error, or a value at most the other. *)
Definition res_le (r r' : result Z) : Prop :=
  match r, r' with Ok a, Ok b => a ≤ b | Err e, Err e' => e = e' | _, _ => False end.

#[global] Instance res_le_refl : Reflexive res_le.
Proof. intros []; simpl; [lia|done]. Qed.

Lemma res_le_bind r r' (f f' : Z → result Z) : res_le r r' →
  (∀ a b, r = Ok a → r' = Ok b → a ≤ b → res_le (f a) (f' b)) → res_le (r ≫= f) (r' ≫= f').
Proof. destruct r, r'; simpl; intros H Hf; [by apply Hf|done|done|by subst]. Qed.

Lemma res_le_same {A} (r : result A) (f f' : A → result Z) :
  (∀ a, r = Ok a → res_le (f a) (f' a)) → res_le (r ≫= f) (r ≫= f').
Proof. destruct r as [a|]; simpl; [auto|done]. Qed.

Lemma sum_results_le {A} (f f' : A → result Z) l : (∀ x, x ∈ l → res_le (f x) (f' x)) →
  res_le (sum_results f l) (sum_results f' l).
Proof.
  induction l as [|x l IH]; intros Hl; [done|]. simpl. apply res_le_bind; [apply Hl; left|]. intros a b _ _ Hab.
  apply res_le_bind; [apply IH; intros y Hy; apply Hl; by right|]. intros c d _ _ Hcd. simpl. lia.
Qed.
Lemma max_results_le {A} (f f' : A → result Z) l : (∀ x, x ∈ l → res_le (f x) (f' x)) →
  res_le (max_results f l) (max_results f' l).
Proof.
  induction l as [|x l IH]; intros Hl; [done|].
  assert (Hx : res_le (f x) (f' x)) by (apply Hl; left). destruct l as [|y l]; [done|].
  change (res_le (v ← f x; rest ← max_results f (y :: l); Ok (Z.max v rest))
                 (v ← f' x; rest ← max_results f' (y :: l); Ok (Z.max v rest))).
  apply res_le_bind; [done|]. intros a b _ _ Hab.
  apply res_le_bind; [apply IH; intros z Hz; apply Hl; by right|]. intros c d _ _ Hcd. simpl. lia.
Qed.

(** Positive block and page sizes. *)
Definition sane_layer (s : LayerSpec) : Prop :=
  0 < layer_block_size s ∧ ∀ p, layer_page_size_bytes s = Ok p → 0 < p.
Definition sane_spec (s : KVCacheSpec) : Prop :=
  match s with OneSpec s => sane_layer s | UniformTypeKVCacheSpecs _ d => ∀ ns, ns ∈ d → sane_layer ns.2 end.

Lemma layer_usage_mono v s n m : sane_layer s → n ≤ m →
  res_le (layer_max_memory_usage_bytes (set_max_model_len n v) s) (layer_max_memory_usage_bytes (set_max_model_len m v) s).
Proof.
  intros [Hb Hp] Hnm. destruct s as [a f|a f t|a f ml|a f ml|a f sl|a c|a w hv|a w hv ml|mb|a|a];
    unfold layer_max_memory_usage_bytes; simpl in Hb; try done.
  1-5: apply res_le_same; intros p Hpp; specialize (Hp p Hpp); simpl;
    unfold full_max_memory_usage_bytes; simpl; apply Z.mul_le_mono_nonneg_r; [lia|]; apply cdiv_mono; [done|];
    destruct (Z.ltb_spec 1 (decode_context_parallel_size v * prefill_context_parallel_size v)); [apply cdiv_mono; lia|done].
  - apply res_le_same; intros p Hpp; specialize (Hp p Hpp); simpl.
    apply Z.mul_le_mono_nonneg_r; [lia|]. apply cdiv_mono; [done|]. lia.
  - simpl. case_match; [|done]. apply res_le_same; intros p Hpp; specialize (Hp p Hpp); simpl.
    apply Z.mul_le_mono_nonneg_r; [lia|]. apply Z.add_le_mono_r, cdiv_mono; [done|]. lia.
  - simpl. case_match; [|done]. apply res_le_same; intros p Hpp; specialize (Hp p Hpp); simpl.
    apply Z.mul_le_mono_nonneg_r; [lia|]. apply Z.add_le_mono_r, cdiv_mono; [done|]. lia.
  - apply res_le_same; intros p Hpp; specialize (Hp p Hpp); simpl.
    unfold mamba_max_memory_usage_bytes. simpl. repeat case_bool_decide; try lia.
    apply Z.mul_le_mono_nonneg_r; [lia|]. apply Z.add_le_mono_r, cdiv_mono; [done|]. lia.
Qed.

Lemma layer_pages_mono v s n m : sane_layer s → n ≤ m →
  res_le (layer_max_pages (set_max_model_len n v) s) (layer_max_pages (set_max_model_len m v) s).
Proof.
  intros Hs Hnm. unfold layer_max_pages. apply res_le_bind; [by apply layer_usage_mono|]. intros a b _ _ Hab.
  apply res_le_same. intros p Hpp. destruct Hs as [_ Hp]. specialize (Hp p Hpp).
  case_match; [done|]. simpl. by apply cdiv_mono.
Qed.

Lemma sum_results_pos {A} (f : A → result Z) l t : (∀ x p, x ∈ l → f x = Ok p → 0 < p) → sum_results f l = Ok t → 0 ≤ t.
Proof.
  revert t. induction l as [|x l IH]; intros t Hl; simpl; [intros [= <-]; lia|]. unfold mbind, result_bind.
  destruct (f x) as [p|] eqn:Hx; [|done]. destruct (sum_results f l) as [q|]; [|done]. intros [= <-].
  assert (0 < p) by (by apply (Hl x); [left|]). assert (0 ≤ q) by (apply IH; [intros y r Hy; apply Hl; by right|done]). lia.
Qed.

Lemma spec_page_nonneg s p : sane_spec s → page_size_bytes s = Ok p → 0 ≤ p.
Proof.
  destruct s as [s|b d]; simpl.
  - intros [_ Hp] E. specialize (Hp _ E). lia.
  - intros Hs. apply sum_results_pos. intros ns q Hns. by apply Hs.
Qed.

Lemma usage_mono v s n m : sane_spec s → n ≤ m →
  res_le (max_memory_usage_bytes (set_max_model_len n v) s) (max_memory_usage_bytes (set_max_model_len m v) s).
Proof.
  intros Hs Hnm. destruct s as [s|b d]; simpl; [by apply layer_usage_mono|].
  apply res_le_bind; [apply max_results_le; intros ns Hns; apply layer_pages_mono; [by apply Hs|done]|].
  intros a c _ _ Hac. apply res_le_same. intros p Hp. simpl.
  apply Z.mul_le_mono_nonneg_r; [|done]. by apply (spec_page_nonneg (UniformTypeKVCacheSpecs b d)).
Qed.

Definition sane_groups (groups : list KVCacheGroupSpec) : Prop := ∀ g, g ∈ groups → sane_spec (kv_cache_spec g).

Lemma uniform_page_in specs p : get_uniform_page_size specs = Ok p →
  specs ≠ [] ∧ ∀ s, s ∈ specs → page_size_bytes s = Ok p.
Proof.
  unfold get_uniform_page_size, mbind, result_bind. destruct (result_map page_size_bytes specs) as [ps|] eqn:Hps; [|done].
  destruct (remove_dups ps) as [|q [|]] eqn:Hr; [done| |done]. intros [= ->]. split.
  - intros ->. injection Hps as <-. done.
  - intros s Hs. destruct (result_map_elem_l _ _ _ _ Hps Hs) as (q & Hq & E).
    assert (q ∈ remove_dups ps) as Hin by (by apply elem_of_remove_dups). rewrite Hr in Hin.
    apply list_elem_of_singleton in Hin as ->. done.
Qed.

Lemma group_size_nonneg groups n : py_max (group_sizes groups) = Ok n → 0 ≤ n.
Proof. intros [(g & -> & _)%list_elem_of_fmap _]%py_max_spec. apply zlen_nonneg. Qed.
Lemma num_tuples_nonneg d n : get_num_layer_tuples d = Ok n → 0 ≤ n.
Proof.
  unfold get_num_layer_tuples, mbind, result_bind. destruct (result_map _ _) as [sz|]; [|done].
  destruct sz as [|s sz]; [done|]. intros [(x & -> & _)%list_elem_of_fmap _]%py_max_spec. apply zlen_nonneg.
Qed.

Lemma get_page_sizes_from specs sizes : get_page_sizes specs = Ok sizes →
  ∀ p, p ∈ sizes → ∃ ns, ns ∈ specs ∧ layer_page_size_bytes ns.2 = Ok p.
Proof.
  unfold get_page_sizes, mbind, result_bind at 1. destruct (foldr _ _ _) as [l|] eqn:Hl; [|done]. intros [= <-] p.
  rewrite elem_of_remove_dups. revert l Hl. induction specs as [|ns0 specs IH]; simpl; intros l.
  - intros [= <-] H%not_elem_of_nil. done.
  - unfold result_bind at 1. destruct (layer_page_size_bytes ns0.2) as [q|] eqn:Hq; [|done].
    unfold result_bind at 1. destruct (foldr _ _ _) as [l'|]; [|done]. intros [= <-] [->|Hp]%elem_of_cons.
    + exists ns0. split; [left|done].
    + destruct (IH l' eq_refl Hp) as (ns & ? & ?). exists ns. split; [by right|done].
Qed.

Lemma group_pages_mono v g n m : sane_spec (kv_cache_spec g) → n ≤ m →
  res_le (group_pages (set_max_model_len n v) g) (group_pages (set_max_model_len m v) g).
Proof.
  intros Hs Hnm. unfold group_pages. destruct (kv_cache_spec g) as [s|b d]; [done|]. simpl.
  apply max_results_le. intros ns Hns. apply layer_pages_mono; [by apply Hs|done].
Qed.

Lemma groups_usage_mono v groups n m : sane_groups groups → n ≤ m →
  res_le (_max_memory_usage_bytes_from_groups (set_max_model_len n v) groups)
         (_max_memory_usage_bytes_from_groups (set_max_model_len m v) groups).
Proof.
  intros Hs Hnm. unfold _max_memory_usage_bytes_from_groups. case_bool_decide as Hne; [done|].
  destruct (single_uniform groups) as [[names d]|] eqn:Hd.
  { apply sum_results_le. intros ns Hns. apply layer_usage_mono; [|done].
    destruct groups as [|g [|]]; try done. simpl in Hd. specialize (Hs g ltac:(left)).
    destruct (kv_cache_spec g); [done|]. injection Hd as _ ->. by apply Hs. }
  destruct (all_uniform_type groups).
  - unfold tuple_usage. destruct groups as [|g0 rest]; [done|]. apply res_le_same. intros full Hfull.
    apply res_le_same. intros sizes Hsizes. apply res_le_same. intros tuples Ht. apply res_le_same. intros nt Hnt.
    assert (0 ≤ nt) as Hnt0.
    { apply py_max_spec in Hnt as [Hin _]. destruct (result_map_elem _ _ _ _ Ht Hin) as (g & _ & E).
      unfold mbind, result_bind in E. destruct (uniform_specs (kv_cache_spec g)); [|done]. by apply num_tuples_nonneg in E. }
    assert (0 ≤ zsum sizes) as Hz.
    { apply zsum_nonneg. intros p Hp. destruct (get_page_sizes_from _ _ Hsizes p Hp) as (ns & Hns & E).
      specialize (Hs g0 ltac:(left)). destruct (kv_cache_spec g0) as [|b d]; [done|]. injection Hfull as ->.
      destruct (Hs ns Hns) as [_ Hp']. specialize (Hp' p E). lia. }
    apply sum_results_le. intros g Hg. apply res_le_bind; [by apply group_pages_mono; [apply Hs|]|].
    intros a b _ _ Hab. simpl. apply Z.mul_le_mono_nonneg_r; [done|]. by apply Z.mul_le_mono_nonneg_l.
  - unfold pool_usage. apply res_le_same. intros gs Hgs. apply res_le_same. intros p Hp.
    assert (0 ≤ p) as Hp0.
    { apply uniform_page_in in Hp as [_ Hp]. destruct groups as [|g rest]; [done|].
      eapply spec_page_nonneg; [apply (Hs g); left|]. apply Hp. left. }
    apply group_size_nonneg in Hgs. apply res_le_bind.
    + apply sum_results_le. intros g Hg. apply res_le_bind; [by apply usage_mono; [apply Hs|]|]. intros a b _ _ Hab.
      destruct (Z.eqb_spec p 0); [done|]. simpl. apply cdiv_mono; lia.
    + intros a b _ _ Hab. simpl. apply Z.mul_le_mono_nonneg_l; [nia|done].
Qed.

Definition worker_fits (v : VllmConfig) (len : Z) (w : list KVCacheGroupSpec * Z) : Prop :=
  w.1 = [] ∨ ∃ used, _max_memory_usage_bytes_from_groups (set_max_model_len len v) w.1 = Ok used ∧ used ≤ w.2.

(** The memory formula applies to the groups of the worker. *)
Definition plannable (v : VllmConfig) (w : list KVCacheGroupSpec * Z) : Prop :=
  sane_groups w.1 ∧ ∃ m, _max_memory_usage_bytes_from_groups v w.1 = Ok m.

Lemma set_same_len v : set_max_model_len (max_model_len v) v = v.
Proof. by destruct v. Qed.
Lemma set_len_twice n m v : set_max_model_len n (set_max_model_len m v) = set_max_model_len n v.
Proof. done. Qed.

Lemma usage_total v groups n : plannable v (groups, 0) → n ≤ max_model_len v →
  ∃ m, _max_memory_usage_bytes_from_groups (set_max_model_len n v) groups = Ok m.
Proof.
  intros (Hs & m & Hm) Hn. pose proof (groups_usage_mono v groups n (max_model_len v) Hs Hn) as H.
  rewrite set_same_len in H. simpl in Hm. rewrite Hm in H.
  destruct (_max_memory_usage_bytes_from_groups (set_max_model_len n v) groups) as [x|]; [by exists x|done].
Qed.

Lemma estimate_ok v groups avail : groups ≠ [] → plannable v (groups, avail) → 1 ≤ max_model_len v →
  ∃ r, _estimate_max_model_len_from_groups v groups avail = Ok r ∧ 0 ≤ r ≤ max_model_len v ∧
    ∀ len, 1 ≤ len ≤ max_model_len v → worker_fits v len (groups, avail) ↔ len ≤ r.
Proof.
  intros Hne Hp HN. pose proof Hp as [Hs _]. simpl in Hs.
  set (use := λ n, match _max_memory_usage_bytes_from_groups (set_max_model_len n v) groups with Ok m => m | Err _ => 0 end).
  assert (Huse : ∀ n, n ≤ max_model_len v → _max_memory_usage_bytes_from_groups (set_max_model_len n v) groups = Ok (use n)).
  { intros n Hn. unfold use. by destruct (usage_total v groups n Hp Hn) as [m ->]. }
  assert (Hfit : ∀ len, len ≤ max_model_len v → worker_fits v len (groups, avail) ↔ (use len <=? avail) = true).
  { intros len Hlen. unfold worker_fits. simpl. rewrite Huse, Z.leb_le by done. split; [|by right; eexists].
    intros [?|(u & [= <-] & ?)]; done. }
  assert (Hmono : ∀ m m', 1 ≤ m' ≤ m → m ≤ max_model_len v → (use m <=? avail) = true → (use m' <=? avail) = true).
  { intros m m' Hm Hmax. pose proof (groups_usage_mono v groups m' m Hs ltac:(lia)) as H.
    rewrite !Huse in H by lia. simpl in H. lia. }
  destruct (largest_fitting_ok (fits_from_groups v groups avail) (λ n, use n <=? avail) (max_model_len v)) as (r & Hr & Hl).
  - intros m Hm. unfold fits_from_groups. by rewrite Huse by lia.
  - done.
  - done.
  - exists r. split; [done|]. destruct (use 1 <=? avail) eqn:H1.
    + destruct Hl as (Hr1 & Hr2 & Hr3). split; [lia|]. intros len Hlen. rewrite Hfit by lia. split.
      * intros Hf. destruct (Z.le_gt_cases len r) as [|Hgt]; [done|]. rewrite Hr3 in Hf by lia. done.
      * intros Hle. apply (Hmono r); [lia..|done].
    + subst r. split; [lia|]. intros len Hlen. rewrite Hfit by lia. split; [|lia]. intros Hf.
      rewrite (Hmono len 1) in H1; [done|lia..|done].
Qed.

Lemma auto_fit_loop_ok v workers acc : (∀ w, w ∈ workers → plannable v w) → 1 ≤ max_model_len v →
  0 ≤ acc ≤ max_model_len v →
  ∃ r, auto_fit_loop v workers acc = Ok r ∧ 0 ≤ r ≤ acc ∧
    ∀ len, 1 ≤ len ≤ acc → (∀ w, w ∈ workers → worker_fits v len w) ↔ len ≤ r.
Proof.
  revert acc. induction workers as [|[groups avail] workers IH]; intros acc Hw HN Hacc; simpl.
  - exists acc. split; [done|]. split; [lia|]. intros len Hlen. split; [lia|]. by intros _ w H%not_elem_of_nil.
  - assert (Hw' : ∀ w, w ∈ workers → plannable v w) by (intros w Hin; apply Hw; by right).
    case_bool_decide as Hg.
    + destruct (IH acc Hw' HN Hacc) as (r & -> & Hr & Hiff). exists r. split; [done|]. split; [done|].
      intros len Hlen. rewrite <-Hiff by done. split; [intros H w Hin; apply H; by right|].
      intros H w [->|Hin]%elem_of_cons; [by left|by apply H].
    + destruct (estimate_ok v groups avail) as (e & He & Hbd & Hfit); [done|apply Hw; left|done|].
      unfold mbind, result_bind. rewrite He.
      destruct (IH (if e <? acc then e else acc) Hw' HN) as (r & -> & Hr & Hiff); [case_match; lia|].
      exists r. split; [done|]. destruct (Z.ltb_spec e acc); (split; [lia|]); intros len Hlen.
      * destruct (Z.le_gt_cases len e).
        -- rewrite <-Hiff by lia. split; [intros H' w Hin; apply H'; by right|].
           intros H' w [->|Hin]%elem_of_cons; [by apply Hfit; lia|by apply H'].
        -- split; [|lia]. intros H'. assert (worker_fits v len (groups, avail)) as Hf by (apply H'; left).
           apply Hfit in Hf; lia.
      * rewrite <-Hiff by lia. split; [intros H' w Hin; apply H'; by right|].
        intros H' w [->|Hin]%elem_of_cons; [by apply Hfit; lia|by apply H'].
Qed.

Lemma auto_fit_ok cfg projected avail : length projected = length avail → (∃ w, w ∈ projected ∧ w ≠ []) →
  (∀ w, w ∈ zip projected avail → plannable (plan_vllm cfg) w) → 1 ≤ max_model_len (plan_vllm cfg) →
  (∃ n, 1 ≤ n ≤ max_model_len (plan_vllm cfg) ∧
     _auto_fit_max_model_len cfg projected avail = Ok (plan_set_max_model_len n cfg) ∧
     ∀ len, 1 ≤ len ≤ max_model_len (plan_vllm cfg) →
       (∀ w, w ∈ zip projected avail → worker_fits (plan_vllm cfg) len w) ↔ len ≤ n)
  ∨ (_auto_fit_max_model_len cfg projected avail = Err ValueError ∧
     ∀ len, 1 ≤ len ≤ max_model_len (plan_vllm cfg) → ¬ (∀ w, w ∈ zip projected avail → worker_fits (plan_vllm cfg) len w)).
Proof.
  intros Hlen (w0 & Hw0 & Hne) Hw HN. unfold _auto_fit_max_model_len.
  destruct (forallb _ projected) eqn:Hall.
  { pose proof (forallb_elem _ _ _ Hall Hw0) as E. by apply bool_decide_eq_true in E. }
  assert (∃ a, py_index avail 0 = Ok a) as [a ->].
  { destruct avail as [|a rest]; [by destruct projected; [apply not_elem_of_nil in Hw0|]|]. by exists a. }
  unfold mbind, result_bind.
  destruct (auto_fit_loop_ok (plan_vllm cfg) (zip projected avail) (max_model_len (plan_vllm cfg)) Hw HN) as (r & -> & Hr & Hiff); [lia|].
  destruct (Z.leb_spec r 0).
  - right. split; [done|]. intros len Hl H'. apply Hiff in H'; lia.
  - left. exists r. split; [lia|]. split; [|done]. destruct (Z.leb_spec (max_model_len (plan_vllm cfg)) r); [|done].
    assert (r = max_model_len (plan_vllm cfg)) as -> by lia. f_equal. destruct cfg as [v]. unfold plan_set_max_model_len. simpl.
    by rewrite set_same_len.
Qed.

(** * Buckets of layers by page size *)

Definition bucket_names (buckets : list (Z * list (list string))) : list string := concat (@concat string <$> buckets.*2).

(** The [i]-th slot of the bucket [ps] holds the layer. *)
Definition at_slot (buckets : list (Z * list (list string))) (ps : Z) (i : nat) (n : string) : Prop :=
  ∃ slots slot, (ps, slots) ∈ buckets ∧ slots !! i = Some slot ∧ n ∈ slot.

(** The layers of [placed], with their page sizes, are in the buckets. *)
Definition buckets_hold (buckets : list (Z * list (list string))) (placed : list (string * Z)) : Prop :=
  NoDup buckets.*1 ∧ bucket_names buckets ≡ₚ placed.*1 ∧ (∀ ps i n, at_slot buckets ps i n → (n, ps) ∈ placed) ∧
  ∀ ps, ps ∈ buckets.*1 → ∃ n, (n, ps) ∈ placed.

(** No slot holds two of the names. *)
Definition apart (buckets : list (Z * list (list string))) (names : list string) : Prop :=
  ∀ ps i n m, at_slot buckets ps i n → at_slot buckets ps i m → n ∈ names → m ∈ names → n = m.

(** No group has used more slots than there are. *)
Definition counts_within (slot_count : list (Z * Z)) (buckets : list (Z * list (list string))) : Prop :=
  ∀ ps, 0 ≤ default 0 (dict_get slot_count ps) ≤ zlen (default [] (dict_get buckets ps)).

Lemma dict_set_concat {K} `{EqDecision K} (d : list (K * list (list string))) k v v' extra :
  NoDup d.*1 → default [] (dict_get d k) = v → concat v' ≡ₚ concat v ++ extra →
  concat (@concat string <$> (dict_set d k v').*2) ≡ₚ concat (@concat string <$> d.*2) ++ extra.
Proof.
  intros Hd Hv Hp. destruct (dict_get d k) as [w|] eqn:Hk; simpl in Hv; subst v.
  - induction d as [|[k' u] d IH]; [done|]. simpl in *. apply NoDup_cons in Hd as [? Hd]. case_decide.
    + injection Hk as ->. csimpl. rewrite Hp, <-!(assoc_L (++)). f_equiv. apply Permutation_app_comm.
    + csimpl. rewrite IH by done. by rewrite (assoc_L (++)).
  - rewrite dict_set_new by (by apply dict_get_None). rewrite !fmap_app, concat_app. csimpl.
    rewrite app_nil_r. simpl in Hp. by rewrite Hp.
Qed.

Lemma concat_insert (slots : list (list string)) i slot x : slots !! i = Some slot →
  concat (<[i:=slot ++ [x]]> slots) ≡ₚ concat slots ++ [x].
Proof.
  revert i. induction slots as [|s slots IH]; intros [|i] Hi; simplify_eq/=.
  - rewrite <-!(assoc_L (++)). f_equiv. apply Permutation_app_comm.
  - rewrite IH by done. by rewrite (assoc_L (++)).
Qed.

Lemma bucket_layer_ok spec buckets slot_count placed n ps : page_of spec n = Ok ps →
  buckets_hold buckets placed → counts_within slot_count buckets →
  ∃ buckets' slot_count', bucket_layer spec buckets slot_count n = Ok (buckets', slot_count') ∧
    buckets_hold buckets' (placed ++ [(n, ps)]) ∧ counts_within slot_count' buckets' ∧
    slot_count' = dict_set slot_count ps (default 0 (dict_get slot_count ps) + 1) ∧
    (∀ ps' i m, at_slot buckets' ps' i m → at_slot buckets ps' i m ∨
       (m = n ∧ ps' = ps ∧ i = Z.to_nat (default 0 (dict_get slot_count ps)))).
Proof.
  intros Hps (Hnd & Hperm & Hin & Hkeys) Hc. unfold bucket_layer. rewrite Hps. unfold mbind, result_bind.
  specialize (Hc ps) as Hcps. set (idx := default 0 (dict_get slot_count ps)) in *.
  set (old := default [] (dict_get buckets ps)) in *.
  set (slots := if idx =? zlen old then old ++ [[]] else old).
  assert (Hlt : 0 ≤ idx < zlen slots) by (unfold slots; destruct (Z.eqb_spec idx (zlen old)); [rewrite zlen_app; unfold zlen at 2; simpl|]; lia).
  assert (Hconc : concat slots = concat old) by (unfold slots; case_match; [by rewrite concat_app, app_nil_r|done]).
  assert (is_Some (slots !! Z.to_nat idx)) as [slot Hslot] by (apply lookup_lt_is_Some; unfold zlen in *; lia).
  rewrite (py_index_pos _ _ _ (proj1 Hlt) Hslot). do 2 eexists. split; [done|].
  assert (Hnd' : NoDup (dict_set buckets ps (<[Z.to_nat idx:=slot ++ [n]]> slots)).*1).
  { rewrite dict_set_keys. case_decide; [done|]. apply NoDup_app. split_and!; [done|set_solver|apply NoDup_singleton]. }
  assert (Hold : ∀ i sl m, slots !! i = Some sl → m ∈ sl → at_slot buckets ps i m).
  { intros i sl m Hi Hm. assert (old !! i = Some sl) as Hi'.
    { unfold slots in Hi. case_match; [|done]. apply lookup_app_Some in Hi as [?|[_ Hi]]; [done|].
      apply list_lookup_singleton_Some in Hi as [_ <-]. by apply not_elem_of_nil in Hm. }
    unfold old in Hi'. destruct (dict_get buckets ps) as [o|] eqn:Ho; [|done].
    exists o, sl. split; [by apply dict_get_in|done]. }
  assert (Hat : ∀ ps' i m, at_slot (dict_set buckets ps (<[Z.to_nat idx:=slot ++ [n]]> slots)) ps' i m →
                  at_slot buckets ps' i m ∨ (m = n ∧ ps' = ps ∧ i = Z.to_nat idx)).
  { intros ps' i m (sl' & sl & Hb & Hi & Hm). apply dict_in_get in Hb; [|done].
    rewrite dict_get_set in Hb. case_decide as Hk.
    - injection Hb as <-. subst ps'. destruct (decide (i = Z.to_nat idx)) as [->|Hne].
      + rewrite list_lookup_insert_eq in Hi by (unfold zlen in *; lia). injection Hi as <-.
        apply elem_of_app in Hm as [Hm| ->%list_elem_of_singleton]; [left; by eapply Hold|by right].
      + rewrite list_lookup_insert_ne in Hi by done. left. by eapply Hold.
    - left. exists sl', sl. split; [by apply dict_get_in|done]. }
  split; [split_and!|split_and!]; [done| | | | |done|exact Hat].
  - unfold bucket_names. rewrite (dict_set_concat buckets ps old _ [n]); [|done|done|by rewrite concat_insert, Hconc].
    rewrite fmap_app. by f_equiv.
  - intros ps' i m [Hm|(-> & -> & _)]%Hat; apply elem_of_app; [left; by eapply Hin|right; left].
  - intros ps' Hin'. setoid_rewrite elem_of_app. rewrite dict_set_keys in Hin'.
    assert (ps' ∈ buckets.*1 ∨ ps' = ps) as [H'| ->] by (case_decide; set_solver); [|exists n; right; left].
    destruct (Hkeys ps' H') as [m ?]. exists m. by left.
  - intros ps'. rewrite !dict_get_set. case_decide as Hk; [|apply Hc]. simpl. unfold zlen at 1. rewrite length_insert.
    fold (zlen slots). lia.
Qed.

(** The loop over the layers of a group that starts with the names [done_names]. *)
Lemma bucket_names_ok spec names buckets slot_count placed done_names : (∀ n, n ∈ names → ∃ p, page_of spec n = Ok p) →
  NoDup (done_names ++ names) → (∀ n, n ∈ names → n ∉ placed.*1) →
  buckets_hold buckets placed → counts_within slot_count buckets → apart buckets done_names →
  (∀ ps i n, at_slot buckets ps i n → n ∈ done_names → Z.of_nat i < default 0 (dict_get slot_count ps)) →
  ∃ st pages, foldl (λ acc layer_name, '(b, c) ← acc; bucket_layer spec b c layer_name) (Ok (buckets, slot_count)) names = Ok st ∧
    buckets_hold st.1 (placed ++ pages) ∧ pages.*1 = names ∧ (∀ n p, (n, p) ∈ pages → page_of spec n = Ok p) ∧
    apart st.1 (done_names ++ names) ∧ (∀ ps i n, at_slot st.1 ps i n → at_slot buckets ps i n ∨ n ∈ names).
Proof.
  revert buckets slot_count placed done_names.
  induction names as [|n names IH]; intros buckets slot_count placed dn Hp Hnd Hfresh Hb Hc Ha Hcnt.
  - exists (buckets, slot_count), []. rewrite !app_nil_r. split_and!; [done..| |done|].
    + by intros n p H%not_elem_of_nil.
    + intros ps i n H. by left.
  - destruct (Hp n ltac:(left)) as [ps Hps].
    destruct (bucket_layer_ok _ _ _ _ _ _ Hps Hb Hc) as (b' & c' & E & Hb' & Hc' & Ec & Hat). simpl. rewrite E.
    assert (Hnew : ∀ ps' i, at_slot buckets ps' i n → False).
    { intros ps' i H. apply (Hfresh n ltac:(left)). destruct Hb as (_ & _ & Hb & _). apply (list_elem_of_fmap_2 fst _ (n, ps')).
      by eapply Hb. }
    assert (Hdn : n ∉ dn) by (apply NoDup_app in Hnd as (_ & Hd & _); intros Hn; apply (Hd n Hn); left).
    destruct (IH b' c' (placed ++ [(n, ps)]) (dn ++ [n])) as (st & pages & Es & Hst & Hn & Hpg & Hap & Hfrom); clear IH.
    + intros m Hm. apply Hp. by right.
    + by rewrite <-(assoc_L (++)).
    + intros m Hm. rewrite fmap_app. csimpl. intros [H|H%list_elem_of_singleton]%elem_of_app; [by apply (Hfresh m); [right|]|].
      subst m. apply NoDup_app in Hnd as (_ & _ & [? _]%NoDup_cons). done.
    + done.
    + done.
    + intros ps' i m1 m2 [H1|(-> & -> & ->)]%Hat [H2|(-> & Hps' & Hi')]%Hat Hm1 Hm2; try done.
      * apply elem_of_app in Hm1 as [Hm1|Hm1%list_elem_of_singleton]; [|subst m1; by destruct (Hnew ps' i)].
        apply elem_of_app in Hm2 as [Hm2|Hm2%list_elem_of_singleton]; [|subst m2; by destruct (Hnew ps' i)]. by eapply Ha.
      * subst ps' i. apply elem_of_app in Hm1 as [Hm1|Hm1%list_elem_of_singleton]; [|done].
        specialize (Hcnt _ _ _ H1 Hm1). specialize (Hc ps). lia.
      * apply elem_of_app in Hm2 as [Hm2|Hm2%list_elem_of_singleton]; [|done].
        specialize (Hcnt _ _ _ H2 Hm2). specialize (Hc ps). lia.
    + intros ps' i m Hm Hin. subst c'. rewrite dict_get_set. specialize (Hc ps) as Hcps. apply Hat in Hm as [Hm|(-> & -> & ->)].
      * apply elem_of_app in Hin as [Hin|Hin%list_elem_of_singleton]; [|subst m; by destruct (Hnew ps' i)].
        specialize (Hcnt _ _ _ Hm Hin). case_decide; [subst; simpl; lia|done].
      * rewrite decide_True by done. simpl. lia.
    + exists st, ((n, ps) :: pages). rewrite <-(assoc_L (++)) in Hst. rewrite <-(assoc_L (++)) in Hap. csimpl. split_and!; [done|done|by rewrite Hn| |done|].
      * intros m p [[= -> ->]|Hm]%elem_of_cons; [done|by apply Hpg].
      * intros ps' i m [[?|(-> & _)]%Hat|?]%Hfrom; [by left|right; left|right; by right].
Qed.

(** The page sizes of the layers of the groups. *)
Definition pages_of (groups : list KVCacheGroupSpec) (pages : list (string * Z)) : Prop :=
  pages.*1 = group_layers groups ∧
  ∀ n p, (n, p) ∈ pages → ∃ g, g ∈ groups ∧ n ∈ layer_names g ∧ page_of (kv_cache_spec g) n = Ok p.

Lemma buckets_ok groups : (∀ g n, g ∈ groups → n ∈ layer_names g → ∃ p, page_of (kv_cache_spec g) n = Ok p) →
  NoDup (group_layers groups) →
  ∃ buckets pages, _bucket_layers_by_page_size groups = Ok buckets ∧ buckets_hold buckets pages ∧ pages_of groups pages ∧
    ∀ g, g ∈ groups → apart buckets (layer_names g).
Proof.
  intros Hp Hnd. unfold _bucket_layers_by_page_size.
  enough (H : ∀ b0 placed, buckets_hold b0 placed → NoDup (placed.*1 ++ group_layers groups) → ∃ buckets pages,
    foldl (λ acc g, b ← acc; bucket_group b g) (Ok b0) groups = Ok buckets ∧ buckets_hold buckets (placed ++ pages) ∧
    pages_of groups pages ∧ (∀ g, g ∈ groups → apart buckets (layer_names g)) ∧
    (∀ ps i n, at_slot buckets ps i n → at_slot b0 ps i n ∨ n ∈ group_layers groups)).
  { destruct (H [] []) as (buckets & pages & ? & ? & ? & ? & _); [|done|by exists buckets, pages].
    split_and!; [apply NoDup_nil_2|done| |set_solver]. by intros ps i n (? & ? & H'%not_elem_of_nil & _). }
  clear Hnd. induction groups as [|g groups IH]; intros b0 placed Hb0 Hnd.
  - exists b0, []. rewrite app_nil_r. split_and!; [done..| |set_solver|by left]. split; [done|set_solver].
  - change (group_layers (g :: groups)) with (layer_names g ++ group_layers groups) in Hnd.
    pose proof Hnd as (Hnd1 & Hdis & Hnd2)%NoDup_app. apply NoDup_app in Hnd2 as (Hndg & Hdis2 & Hndr).
    destruct (bucket_names_ok (kv_cache_spec g) (layer_names g) b0 [] placed []) as (st & pg & E & Hst & Hn & Hpg & Hap & Hfrom).
    + intros n Hn. apply (Hp g); [left|done].
    + done.
    + intros n Hn Hin. apply (Hdis n Hin). apply elem_of_app. by left.
    + done.
    + intros ps. simpl. pose proof (zlen_nonneg (default [] (dict_get b0 ps))). lia.
    + by intros ps i n m _ _ H%not_elem_of_nil.
    + by intros ps i n _ H%not_elem_of_nil.
    + destruct (IH ltac:(intros g' n Hg'; apply Hp; by right) st.1 _ Hst) as (buckets & pages & Eb & Hb & (Hk & Hin) & Hgs & Hfr).
      { rewrite fmap_app, Hn, <-(assoc_L (++)). done. }
      exists buckets, (pg ++ pages). simpl. unfold bucket_group at 2. rewrite E. simpl. rewrite (assoc_L (++)).
      split_and!; [done|done| | |].
      * split; [by rewrite fmap_app, Hn, Hk|]. intros n p [H|H]%elem_of_app.
        -- exists g. split_and!; [left| |by apply Hpg]. rewrite <-Hn. by apply (list_elem_of_fmap_2 fst) in H.
        -- destruct (Hin n p H) as (g' & ? & ? & ?). exists g'. split_and!; [by right|done|done].
      * intros g' [->|Hg']%elem_of_cons; [|by apply Hgs]. intros ps i n m [Hn1|Hn1]%Hfr [Hm1|Hm1]%Hfr Hn2 Hm2.
        -- by eapply Hap.
        -- by destruct (Hdis2 m Hm2).
        -- by destruct (Hdis2 n Hn2).
        -- by destruct (Hdis2 n Hn2).
      * intros ps i n [[?|?]%Hfrom|?]%Hfr; [by left|right|right]; unfold group_layers; csimpl; apply elem_of_app; auto.
Qed.

(** * The plan of one worker *)

(** What the planning reads of a group has a positive page size. *)
Definition paged_spec (s : KVCacheSpec) : Prop :=
  match s with
  | OneSpec s => ∃ p, layer_page_size_bytes s = Ok p ∧ 0 < p
  | UniformTypeKVCacheSpecs _ d => d ≠ [] ∧ ∀ ns, ns ∈ d → ∃ p, layer_page_size_bytes ns.2 = Ok p ∧ 0 < p
  end.

(** A [UniformTypeKVCacheSpecs] group on one worker: the worker's layers, or none of them. *)
Definition uniform_part (g : KVCacheGroupSpec) : Prop :=
  ∃ b d, kv_cache_spec g = UniformTypeKVCacheSpecs b d ∧ (layer_names g = [] ∨ d.*1 = layer_names g).

Definition worker_layout (groups : list KVCacheGroupSpec) : Prop :=
  Forall uniform_part groups ∨ ∃ p, Forall (paged_group p) groups.

(** Groups a worker can plan with: laid out, with page sizes, and with layers of its own. *)
Record worker_ready (groups : list KVCacheGroupSpec) : Prop := {
  wr_layout : worker_layout groups;
  wr_paged : ∀ g, g ∈ groups → paged_spec (kv_cache_spec g);
  wr_nodup : NoDup (group_layers groups);
  wr_some : group_layers groups ≠ []
}.

(** Every layer is in exactly one tensor, whose size is its page size times the
    number of blocks; layers of one group, which use the same block ids, are in
    different tensors; the tensors together stay within [b] bytes per block. *)
Record config_covers (groups : list KVCacheGroupSpec) (b : Z) (c : KVCacheConfig) : Prop := {
  cc_groups : kv_cache_groups c = groups;
  cc_layers : concat (shared_by <$> kv_cache_tensors c) ≡ₚ group_layers groups;
  cc_sizes : ∀ t n, t ∈ kv_cache_tensors c → n ∈ shared_by t →
    ∃ g p, g ∈ groups ∧ n ∈ layer_names g ∧ page_of (kv_cache_spec g) n = Ok p ∧ size t = p * num_blocks c;
  cc_shared : ∀ t g n m, t ∈ kv_cache_tensors c → g ∈ groups →
    n ∈ shared_by t → m ∈ shared_by t → n ∈ layer_names g → m ∈ layer_names g → n = m;
  cc_multiple : ∀ t, t ∈ kv_cache_tensors c → ∃ p, size t = p * num_blocks c;
  cc_total : 0 ≤ num_blocks c → zsum (size <$> kv_cache_tensors c) ≤ b * num_blocks c
}.

Lemma zsum_scale {A} (f : A → Z) k l : zsum ((λ x, f x * k) <$> l) = zsum (f <$> l) * k.
Proof. induction l as [|x l IH]; csimpl; [done|]. rewrite IH. lia. Qed.

Lemma sum_results_fmap {A} (f : A → result Z) (h : A → Z) l : (∀ x, x ∈ l → f x = Ok (h x)) →
  sum_results f l = Ok (zsum (h <$> l)).
Proof.
  induction l as [|x l IH]; intros Hl; [done|]. simpl. rewrite (Hl x) by left.
  rewrite IH by (intros y Hy; apply Hl; by right). done.
Qed.

Lemma zsum_pos {A} (h : A → Z) l : l ≠ [] → (∀ x, x ∈ l → 0 < h x) → 0 < zsum (h <$> l).
Proof.
  destruct l as [|x l]; [done|]. intros _ Hl. csimpl. assert (0 < h x) by (apply Hl; left).
  assert (0 ≤ zsum (h <$> l)); [|lia]. apply zsum_nonneg. intros y (z & -> & Hz)%list_elem_of_fmap.
  assert (0 < h z) by (apply Hl; by right). lia.
Qed.

Lemma nodup_concat_same {A} (ls : list (list A)) l1 l2 x : NoDup (concat ls) → l1 ∈ ls → l2 ∈ ls → x ∈ l1 → x ∈ l2 → l1 = l2.
Proof.
  induction ls as [|l ls IH]; [by intros _ H%not_elem_of_nil|]. intros (_ & Hd & Hr)%NoDup_app H1 H2 Hx1 Hx2.
  apply elem_of_cons in H1 as [->|H1], H2 as [->|H2]; [done| | |by apply IH].
  - destruct (Hd x Hx1). apply elem_of_concat. by exists l2.
  - destruct (Hd x Hx2). apply elem_of_concat. by exists l1.
Qed.

Lemma remove_dups_same {A} `{EqDecision A} (l : list A) x : l ≠ [] → (∀ y, y ∈ l → y = x) → remove_dups l = [x].
Proof.
  intros Hne Hall. pose proof (NoDup_remove_dups l) as Hnd.
  assert (Hin : ∀ y, y ∈ remove_dups l → y = x) by (intros y Hy; by apply Hall, elem_of_remove_dups).
  assert (Hx : x ∈ remove_dups l).
  { apply elem_of_remove_dups. destruct l as [|y l]; [done|]. rewrite <-(Hall y) by left. left. }
  destruct (remove_dups l) as [|a [|b r]]; [by apply not_elem_of_nil in Hx|by rewrite (Hin a) by left|].
  rewrite (Hin a), (Hin b) in Hnd by set_solver. apply NoDup_cons in Hnd as [Hnd _]. destruct Hnd. left.
Qed.

(** The page size of a layer, where it has one. *)
Definition page_or_0 (s : LayerSpec) : Z := match layer_page_size_bytes s with Ok p => p | Err _ => 0 end.

Section OneWorker.
Context (cfg : PlanConfig) (groups : list KVCacheGroupSpec) (avail : Z).
Hypothesis Hready : worker_ready groups.
Hypothesis Havail : 0 ≤ avail.

Lemma layer_in_group : ∃ g n, g ∈ groups ∧ n ∈ layer_names g.
Proof.
  pose proof (wr_some _ Hready) as Hs. destruct (group_layers groups) as [|n l] eqn:E; [done|].
  assert (n ∈ group_layers groups) as (l' & (g & -> & Hg)%list_elem_of_fmap & Hn)%elem_of_concat by (rewrite E; left).
  by exists g, n.
Qed.

(** A name belongs to one group. *)
Lemma name_in_one_group g g' n : g ∈ groups → g' ∈ groups → n ∈ layer_names g → n ∈ layer_names g' → layer_names g = layer_names g'.
Proof.
  pose proof (wr_nodup _ Hready) as Hnd. intros Hg Hg' Hn Hn'. apply (list_elem_of_fmap_2 layer_names) in Hg, Hg'.
  unfold group_layers in Hnd. by eapply nodup_concat_same.
Qed.

Lemma per_layer_ok names d : single_uniform groups = Some (names, d) →
  ∃ b c, _pool_bytes_per_block groups = Ok b ∧ 0 < b ∧ get_kv_cache_config_from_groups cfg groups avail = Ok c ∧
    num_blocks c = may_override_num_blocks cfg (avail / b) ∧ config_covers groups b c.
Proof.
  intros Hs. pose proof Hready as [Hlay Hpg Hnd Hsome]. destruct groups as [|g [|]] eqn:Hg; try done.
  specialize (Hpg g ltac:(left)). simpl in Hs. destruct (kv_cache_spec g) as [|b0 d0] eqn:Hspec; [done|]. injection Hs as <- ->.
  destruct Hpg as [Hne Hpages].
  assert (Hpage : ∀ ns, ns ∈ d → layer_page_size_bytes ns.2 = Ok (page_or_0 ns.2) ∧ 0 < page_or_0 ns.2).
  { intros ns Hns. destruct (Hpages ns Hns) as (p & Hp & ?). unfold page_or_0. by rewrite Hp. }
  assert (Hnames : d.*1 = layer_names g).
  { destruct Hlay as [Hlay|[p Hlay]]; apply Forall_cons in Hlay as [Hlay _].
    - destruct Hlay as (b' & d' & E & [Hno|?]); rewrite Hspec in E; injection E as <- <-; [|done].
      unfold group_layers in Hsome. csimpl in Hsome. by rewrite Hno in Hsome.
    - destruct Hlay as (s & E & _). congruence. }
  unfold group_layers in Hnd. csimpl in Hnd. rewrite app_nil_r, <-Hnames in Hnd.
  set (b := zsum ((λ ns : string * LayerSpec, page_or_0 ns.2) <$> d)).
  assert (Hb : uniform_page_size d = Ok b) by (apply sum_results_fmap; intros ns Hns; by apply Hpage).
  assert (0 < b) as Hpos by (apply zsum_pos; [done|]; intros ns Hns; by apply Hpage).
  set (nb := may_override_num_blocks cfg (avail / b)).
  set (ts := (λ ns : string * LayerSpec, mkKVCacheTensor (page_or_0 ns.2 * nb) [ns.1]) <$> d).
  assert (Hts : result_map (λ name, s ← layer_spec d name; p ← layer_page_size_bytes s;
                   Ok (mkKVCacheTensor (p * nb) [name])) (layer_names g) = Ok ts).
  { apply result_map_Forall2. rewrite <-Hnames. unfold ts. rewrite Forall2_fmap. apply Forall_Forall2_diag, Forall_forall.
    intros [n s] Hns. simpl. unfold layer_spec. rewrite (dict_in_get _ _ _ Hnd Hns). simpl.
    destruct (Hpage _ Hns) as [Hp _]. simpl in Hp. by rewrite Hp. }
  exists b, (mkKVCacheConfig nb ts [g]). split_and!; [|done| |done|].
  - unfold _pool_bytes_per_block. simpl. by rewrite Hspec.
  - unfold get_kv_cache_config_from_groups. rewrite bool_decide_false by done. simpl. rewrite Hspec.
    unfold per_layer_config. rewrite Hb. unfold mbind, result_bind, py_floordiv.
    rewrite (proj2 (Z.eqb_neq b 0)) by lia. fold nb. unfold mbind, result_bind in Hts. by rewrite Hts.
  - split; simpl.
    + done.
    + unfold group_layers. csimpl. rewrite app_nil_r, <-Hnames. unfold ts. rewrite <-list_fmap_compose. simpl. clear.
      induction d as [|ns d IH]; [done|]. csimpl. by f_equiv.
    + intros t n ([n' s] & -> & Hns)%list_elem_of_fmap. simpl. intros ->%list_elem_of_singleton.
      exists g, (page_or_0 s). split_and!; [left| | |done].
      * rewrite <-Hnames. by apply (list_elem_of_fmap_2 fst) in Hns.
      * rewrite Hspec. simpl. unfold layer_spec. rewrite (dict_in_get _ _ _ Hnd Hns). by apply (Hpage _ Hns).
    + intros t g' n m ([n' s] & -> & Hns)%list_elem_of_fmap _. simpl. by intros ->%list_elem_of_singleton ->%list_elem_of_singleton.
    + intros t (ns & -> & _)%list_elem_of_fmap. by eexists.
    + intros _. unfold ts. rewrite <-list_fmap_compose. unfold compose. simpl. rewrite zsum_scale. done.
Qed.
Lemma tensor_at_slot buckets nb t n : t ∈ bucket_tensors nb buckets → n ∈ shared_by t →
  ∃ ps i, size t = ps * nb ∧ at_slot buckets ps i n ∧ ∀ m, m ∈ shared_by t → at_slot buckets ps i m.
Proof.
  intros (l & ([ps slots] & -> & Hb)%list_elem_of_fmap & (slot & -> & Hslot)%list_elem_of_fmap)%elem_of_concat. simpl.
  intros Hn. apply list_elem_of_lookup in Hslot as (i & Hi). exists ps, i. split; [done|].
  split; [by exists slots, slot|]. intros m Hm. by exists slots, slot.
Qed.

Lemma bucket_tensors_names nb buckets : concat (shared_by <$> bucket_tensors nb buckets) = bucket_names buckets.
Proof.
  unfold bucket_tensors, bucket_names. induction buckets as [|[ps slots] bs IH]; [done|]. csimpl.
  rewrite fmap_app, concat_app, IH. f_equal. rewrite <-list_fmap_compose. unfold compose. simpl. by rewrite list_fmap_id.
Qed.
Lemma bucket_tensors_sizes nb buckets : zsum (size <$> bucket_tensors nb buckets) = bucket_bytes buckets * nb.
Proof.
  unfold bucket_tensors, bucket_bytes. induction buckets as [|[ps slots] bs IH]; [done|]. csimpl.
  rewrite fmap_app, zsum_app, IH, <-list_fmap_compose. unfold compose. simpl.
  assert (zsum ((λ _ : list string, ps * nb) <$> slots) = ps * nb * zlen slots) as ->; [|lia].
  induction slots as [|x slots IHs]; csimpl; [unfold zlen; simpl; lia|]. rewrite IHs, zlen_cons. lia.
Qed.

Lemma page_of_uniform g n : uniform_part g → paged_spec (kv_cache_spec g) → n ∈ layer_names g →
  ∃ p, page_of (kv_cache_spec g) n = Ok p ∧ 0 < p.
Proof.
  intros (b & d & -> & Hd) [_ Hp] Hn. destruct Hd as [Hd|Hd]; [rewrite Hd in Hn; by apply not_elem_of_nil in Hn|].
  rewrite <-Hd in Hn. apply dict_get_is_Some in Hn as [s Hs]. simpl. unfold layer_spec. rewrite Hs.
  apply (Hp _ (dict_get_in _ _ _ Hs)).
Qed.

Lemma bucket_bytes_pos buckets pages : buckets_hold buckets pages → pages ≠ [] → (∀ n p, (n, p) ∈ pages → 0 < p) →
  0 < bucket_bytes buckets.
Proof.
  intros (_ & Hperm & _ & Hkeys) Hne Hpos.
  assert (Hps : ∀ b, b ∈ buckets → 0 < b.1).
  { intros b Hb. destruct (Hkeys b.1) as [n Hn]; [by apply list_elem_of_fmap_2|by eapply Hpos]. }
  assert (bucket_names buckets ≠ []) as Hn.
  { intros E. rewrite E in Hperm. apply Permutation_nil, fmap_nil_inv in Hperm. done. }
  clear -Hps Hn. unfold bucket_bytes, bucket_names in *. induction buckets as [|[ps slots] bs IH]; [done|]. csimpl in *.
  assert (0 < ps) by (apply (Hps (ps, slots)); left). assert (∀ b, b ∈ bs → 0 < b.1) as Hbs by (intros b Hb; apply Hps; by right).
  assert (0 ≤ zsum ((λ b : Z * list (list string), b.1 * zlen b.2) <$> bs)).
  { apply zsum_nonneg. intros x (b & -> & Hb)%list_elem_of_fmap. specialize (Hbs b Hb). pose proof (zlen_nonneg b.2). nia. }
  destruct slots as [|sl slots].
  - specialize (IH Hbs Hn). change (zlen []) with 0. lia.
  - rewrite zlen_cons. pose proof (zlen_nonneg slots). nia.
Qed.

Lemma tuples_ok : single_uniform groups = None → all_uniform_type groups = true →
  ∃ b c, _pool_bytes_per_block groups = Ok b ∧ 0 < b ∧ get_kv_cache_config_from_groups cfg groups avail = Ok c ∧
    num_blocks c = may_override_num_blocks cfg (avail / b) ∧ config_covers groups b c.
Proof.
  intros Hs Hu. pose proof Hready as [Hlay Hpg Hnd Hsome]. destruct layer_in_group as (g0 & n0 & Hg0 & Hn0).
  assert (Hpart : ∀ g, g ∈ groups → uniform_part g).
  { intros g Hg. destruct Hlay as [Hlay|[p Hlay]]; eapply Forall_forall in Hlay; try done.
    destruct Hlay as (s & E & _). pose proof (forallb_elem _ _ _ Hu Hg) as H. simpl in H. by rewrite E in H. }
  destruct (buckets_ok groups) as (buckets & pages & Eb & Hb & (Hk & Hpages) & Hap); [|done|].
  { intros g n Hg Hn. destruct (page_of_uniform g n (Hpart g Hg) (Hpg g Hg) Hn) as (p & ? & _). by exists p. }
  assert (0 < bucket_bytes buckets) as Hpos.
  { eapply bucket_bytes_pos; [done| |].
    - intros ->. simpl in Hk. by rewrite <-Hk in Hsome.
    - intros n p H. destruct (Hpages n p H) as (g & Hg & Hn & E).
      destruct (page_of_uniform g n (Hpart g Hg) (Hpg g Hg) Hn) as (p' & E' & ?). congruence. }
  exists (bucket_bytes buckets), (mkKVCacheConfig (may_override_num_blocks cfg (avail / bucket_bytes buckets))
    (bucket_tensors (may_override_num_blocks cfg (avail / bucket_bytes buckets)) buckets) groups).
  split_and!; [|done| |done|].
  - unfold _pool_bytes_per_block. by rewrite Hs, Hu, Eb.
  - unfold get_kv_cache_config_from_groups. rewrite bool_decide_false by (intros ->; by apply not_elem_of_nil in Hg0).
    rewrite Hs, Hu. unfold _get_kv_cache_config_deepseek_v4. rewrite Eb. unfold mbind, result_bind, py_floordiv.
    by rewrite (proj2 (Z.eqb_neq _ 0)) by lia.
  - destruct Hb as (Hb1 & Hb2 & Hb3 & Hb4). split; simpl.
    + done.
    + by rewrite bucket_tensors_names, Hb2, Hk.
    + intros t n Ht Hn. destruct (tensor_at_slot _ _ _ _ Ht Hn) as (ps & i & Hsz & Hat & _).
      apply Hb3 in Hat. destruct (Hpages _ _ Hat) as (g & ? & ? & ?). by exists g, ps.
    + intros t g n m Ht Hg Hn Hm. destruct (tensor_at_slot _ _ _ _ Ht Hn) as (ps & i & _ & Hat & Hall).
      by apply (Hap g Hg ps i); [|apply Hall].
    + intros t (l & ([ps slots] & -> & _)%list_elem_of_fmap & (slot & -> & _)%list_elem_of_fmap)%elem_of_concat. by exists ps.
    + intros _. rewrite bucket_tensors_sizes. done.
Qed.

Lemma pool_ok : single_uniform groups = None → all_uniform_type groups = false →
  ∃ b c, _pool_bytes_per_block groups = Ok b ∧ 0 < b ∧ get_kv_cache_config_from_groups cfg groups avail = Ok c ∧
    num_blocks c = may_override_num_blocks cfg (avail / b) ∧ config_covers groups b c.
Proof.
  intros Hs Hu. pose proof Hready as [Hlay Hpg Hnd Hsome]. destruct layer_in_group as (g0 & n0 & Hg0 & Hn0).
  assert (∃ p, 0 < p ∧ ∀ g, g ∈ groups → page_size_bytes (kv_cache_spec g) = Ok p ∧ ∀ n, page_of (kv_cache_spec g) n = Ok p) as (p & Hp & Hpage).
  { destruct Hlay as [Hlay|[p Hlay]].
    - assert (all_uniform_type groups = true); [|congruence]. apply forallb_forall. intros g Hg%list_elem_of_In.
      eapply Forall_forall in Hlay as (b & d & -> & _); done.
    - exists p. assert (Hall : ∀ g, g ∈ groups → page_size_bytes (kv_cache_spec g) = Ok p ∧ (∀ n, page_of (kv_cache_spec g) n = Ok p) ∧ 0 < p).
      { intros g Hg. pose proof Hlay as Hl. eapply Forall_forall in Hl as (s & E & Hq); [|done].
        specialize (Hpg g Hg). rewrite E in Hpg |- *. destruct Hpg as (q & Eq & Hq0). assert (q = p) as -> by auto. simpl. split_and!; auto. }
      split; [by apply (Hall g0)|]. intros g Hg. by destruct (Hall g Hg) as (? & ? & _). }
  assert (Huni : get_uniform_page_size (group_specs groups) = Ok p).
  { unfold get_uniform_page_size. assert (result_map page_size_bytes (group_specs groups) = Ok (const p <$> groups)) as ->.
    { apply result_map_Forall2. unfold group_specs. rewrite Forall2_fmap. apply Forall_Forall2_diag, Forall_forall.
      intros g Hg. by apply Hpage. }
    simpl. rewrite (remove_dups_same (const p <$> groups) p); [done| |].
    - intros E%fmap_nil_inv. rewrite E in Hg0. by apply not_elem_of_nil in Hg0.
    - by intros x (g & -> & _)%list_elem_of_fmap. }
  assert (∃ gs, py_max (group_sizes groups) = Ok gs ∧ 0 < gs ∧ ∀ g, g ∈ groups → zlen (layer_names g) ≤ gs) as (gs & Hgs & Hgpos & Hgle).
  { destruct (py_max (group_sizes groups)) as [gs|] eqn:E.
    - exists gs. apply py_max_spec in E as [_ E]. assert (∀ g, g ∈ groups → zlen (layer_names g) ≤ gs) as Hle.
      { intros g Hg. apply E. unfold group_sizes. by apply (list_elem_of_fmap_2 (λ g, zlen (layer_names g))). }
      split_and!; [done| |done]. specialize (Hle g0 Hg0). destruct (layer_names g0); [by apply not_elem_of_nil in Hn0|].
      rewrite zlen_cons in Hle. pose proof (zlen_nonneg l). lia.
    - destruct groups; [by apply not_elem_of_nil in Hg0|done]. }
  set (nb := may_override_num_blocks cfg (avail / (p * gs))).
  exists (p * gs), (mkKVCacheConfig nb ((λ i, mkKVCacheTensor (p * nb) (shared_layers groups i)) <$> seq 0 (Z.to_nat gs)) groups).
  split_and!; [|nia| |done|].
  - unfold _pool_bytes_per_block. rewrite Hs, Hu, Hgs. simpl. by rewrite Huni.
  - unfold get_kv_cache_config_from_groups. rewrite bool_decide_false by (intros ->; by apply not_elem_of_nil in Hg0).
    rewrite Hs, Hu. unfold pool_config. rewrite Hgs. simpl. rewrite Huni. simpl. unfold assert_that, get_num_blocks, py_floordiv.
    rewrite (proj2 (Z.ltb_lt 0 gs)), (proj2 (Z.eqb_neq p 0)), (proj2 (Z.eqb_neq gs 0)) by lia. simpl.
    rewrite Z.div_div by lia. rewrite Z.max_l by (apply Z.div_pos; nia). done.
  - split; simpl.
    + done.
    + rewrite <-list_fmap_compose. unfold compose, shared_layers, group_layers. simpl.
      rewrite <-(columns_perm (layer_names <$> groups) (Z.to_nat gs)).
      2:{ intros l (g & -> & Hg)%list_elem_of_fmap. specialize (Hgle g Hg). unfold zlen in Hgle. lia. }
      erewrite list_fmap_ext; [done|]. intros _ i _. cbv beta. clear. induction groups as [|g l IH]; [done|]. csimpl. by rewrite IH.
    + intros t n (i & -> & _)%list_elem_of_fmap. simpl. intros (g & Hg & Hi)%list_elem_of_omap.
      exists g, p. split_and!; [done|by eapply list_elem_of_lookup_2|by apply Hpage|done].
    + intros t g n m (i & -> & _)%list_elem_of_fmap Hg. simpl.
      intros (g1 & Hg1 & Hi1)%list_elem_of_omap (g2 & Hg2 & Hi2)%list_elem_of_omap Hn Hm.
      rewrite <-(name_in_one_group g1 g n) in Hm; [|done..|by eapply list_elem_of_lookup_2|done].
      assert (layer_names g2 = layer_names g1) as E by (by apply (name_in_one_group g2 g1 m); [..|by eapply list_elem_of_lookup_2|]).
      rewrite E in Hi2. congruence.
    + intros t (i & -> & _)%list_elem_of_fmap. by exists p.
    + intros _. rewrite <-list_fmap_compose. unfold compose. simpl.
      assert (∀ l : list nat, zsum ((λ _, p * nb) <$> l) = p * nb * zlen l) as ->.
      { intros l. induction l as [|x l IH]; csimpl; [unfold zlen; simpl; lia|]. rewrite IH, zlen_cons. lia. }
      unfold zlen. rewrite length_seq, Z2Nat.id by lia. lia.
Qed.
End OneWorker.

Lemma worker_plan_ok cfg groups avail : worker_ready groups → 0 ≤ avail →
  ∃ b c, _pool_bytes_per_block groups = Ok b ∧ 0 < b ∧ get_kv_cache_config_from_groups cfg groups avail = Ok c ∧
    num_blocks c = may_override_num_blocks cfg (avail / b) ∧ config_covers groups b c.
Proof.
  intros Hr Ha. destruct (single_uniform groups) as [[names d]|] eqn:Hs; [by eapply per_layer_ok|].
  destruct (all_uniform_type groups) eqn:Hu; [by apply tuples_ok|by apply pool_ok].
Qed.

(** * The plans of all workers *)

Lemma project_spec_ok names s s' : (∀ b d, s = UniformTypeKVCacheSpecs b d → NoDup d.*1) → paged_spec s → project_spec names s = Ok s' →
  paged_spec s' ∧ (∀ x, s = OneSpec x → s' = OneSpec x) ∧
  (∀ b d, s = UniformTypeKVCacheSpecs b d → ∃ d', s' = UniformTypeKVCacheSpecs b d' ∧ (names = [] ∨ d'.*1 = names)).
Proof.
  intros Hnd Hp. destruct s as [x|b d]; simpl.
  - intros [= <-]. split_and!; [done|by intros y [= <-]|done].
  - case_bool_decide as Hn; [intros [= <-]; split_and!; [done|done|]; intros b' d' [= <- <-]; exists d; by eauto|].
    unfold mbind, result_bind. destruct (result_map _ names) as [d'|] eqn:Hd'; [|done]. intros [= <-].
    assert (Hk : d'.*1 = names).
    { rewrite <-(list_fmap_id names). eapply result_map_fmap; [done|]. intros n ns E. unfold mbind, result_bind in E.
      destruct (layer_spec d n); [|done]. by injection E as <-. }
    split_and!; [|done|intros b' d0 [= <- <-]; by exists d'; eauto]. destruct Hp as [_ Hp]. split; [intros ->; by apply Hn|].
    intros ns Hns. destruct (result_map_elem _ _ _ _ Hd' Hns) as (n & _ & E). unfold mbind, result_bind in E.
    destruct (layer_spec d n) as [s|] eqn:Hs; [|done]. injection E as <-. by apply (Hp (n, s)), layer_spec_in.
Qed.

Lemma project_ok groups w pg : NoDup (group_layers groups) → laid_out groups → (∀ g, g ∈ groups → paged_spec (kv_cache_spec g)) →
  _project_kv_cache_groups_to_worker groups w = Ok pg →
  worker_layout pg ∧ (∀ g, g ∈ pg → paged_spec (kv_cache_spec g)) ∧
  group_layers pg = filter (λ n, n ∈ w.*1) (group_layers groups) ∧
  Forall2 (λ g g', ∀ s, kv_cache_spec g = OneSpec s → kv_cache_spec g' = OneSpec s) groups pg.
Proof.
  intros Hnd Hlay Hp H%result_map_Forall2.
  assert (Hone : ∀ g g', g ∈ groups → (λ g g', (λ g, let names := worker_layers w (layer_names g) in
      s ← project_spec names (kv_cache_spec g);
      Ok (mkKVCacheGroupSpec names s (is_eagle_group g && bool_decide (names ≠ [])))) g = Ok g') g g' →
    layer_names g' = worker_layers w (layer_names g) ∧ paged_spec (kv_cache_spec g') ∧
    (∀ x, kv_cache_spec g = OneSpec x → kv_cache_spec g' = OneSpec x) ∧ (uniform_group g → uniform_part g')).
  { intros g g' Hg E. simpl in E. unfold mbind, result_bind in E.
    destruct (project_spec _ _) as [s'|] eqn:Es; [|done]. injection E as <-. simpl.
    destruct Hlay as [Hlay|[p Hlay]]; eapply Forall_forall in Hlay; try done.
    - destruct Hlay as (b & d & Ed & Hk). apply project_spec_ok in Es as (? & ? & Hu); [|intros b' d' E'; rewrite Ed in E'; injection E' as <- <-|by apply Hp].
      + split_and!; [done..|]. intros _. destruct (Hu b d Ed) as (d' & ? & ?). by exists b, d'.
      + rewrite Hk. unfold group_layers in Hnd. apply (list_elem_of_fmap_2 layer_names) in Hg. clear -Hnd Hg.
        induction (layer_names <$> groups) as [|l ls IH]; [by apply not_elem_of_nil in Hg|].
        apply NoDup_app in Hnd as (? & _ & ?). apply elem_of_cons in Hg as [->|?]; auto.
    - destruct Hlay as (x & Ex & _). apply project_spec_ok in Es as (? & ? & _); [|congruence|by apply Hp].
      split_and!; [done..|]. intros (b & d & E' & _). congruence. }
  assert (Hall : Forall2 (λ g g', layer_names g' = worker_layers w (layer_names g) ∧ paged_spec (kv_cache_spec g') ∧
    (∀ x, kv_cache_spec g = OneSpec x → kv_cache_spec g' = OneSpec x) ∧ (uniform_group g → uniform_part g')) groups pg).
  { apply Forall2_same_length_lookup. split; [by eapply Forall2_length|]. intros i g g' Hg Hg'.
    apply Hone; [by eapply list_elem_of_lookup_2|]. by eapply Forall2_lookup_lr in H. }
  clear H Hone. split_and!.
  - destruct Hlay as [Hlay|[p Hlay]]; [left|right; exists p]; apply Forall_forall; intros g' (i & Hi)%list_elem_of_lookup;
      destruct (Forall2_lookup_r _ _ _ _ _ Hall Hi) as (g & Hg & _ & _ & Hs & Hu); pose proof (Forall_lookup_1 _ _ _ _ Hlay Hg) as Hl.
    + by apply Hu.
    + destruct Hl as (s & Es & Hq). exists s. split; [by apply Hs|done].
  - intros g' (i & Hi)%list_elem_of_lookup. by destruct (Forall2_lookup_r _ _ _ _ _ Hall Hi) as (g & Hg & _ & ? & _).
  - unfold group_layers. clear -Hall. induction Hall as [|g g' gs gs' [E _] _ IH]; [done|]. csimpl. by rewrite E, IH, filter_app.
  - eapply Forall2_impl; [done|]. by intros g g' (_ & _ & ? & _).
Qed.

Lemma merged_nodup specs merged : merged_kv_cache_specs specs = Ok merged → NoDup merged.*1.
Proof.
  unfold merged_kv_cache_specs. enough (H : ∀ l d, NoDup d.*1 → foldl merge_layer (Ok d) l = Ok merged → NoDup merged.*1)
    by (apply H; apply NoDup_nil_2).
  intros l. induction l as [|ns l IH]; intros d Hd; cbn [foldl]; [by intros [= <-]|].
  destruct (merge_layer (Ok d) ns) as [d'|e] eqn:E.
  - apply IH. unfold merge_layer, mbind, result_bind, assert_that in E. repeat case_match; simplify_eq; [done|].
    rewrite dict_set_keys. case_decide; [done|]. apply NoDup_app. split_and!; [done|set_solver|apply NoDup_singleton].
  - assert (Herr : ∀ l, foldl merge_layer (Err e) l = Err e) by (intros l'; by induction l'). by rewrite Herr.
Qed.

Lemma group_sizes_sum groups : zsum (group_sizes groups) = zlen (group_layers groups).
Proof.
  unfold group_sizes, group_layers. induction groups as [|g gs IH]; [done|]. csimpl. by rewrite IH, zlen_app.
Qed.

(** The assertion that every layer is in a group. *)
Lemma all_layers_grouped groups pg (w : LayerDict) : NoDup (group_layers groups) → NoDup w.*1 →
  group_layers pg = filter (λ n, n ∈ w.*1) (group_layers groups) → zsum (group_sizes pg) = zlen w →
  NoDup (group_layers pg) ∧ group_layers pg ≡ₚ w.*1.
Proof.
  intros Hnd Hw Hpg Hsum. rewrite group_sizes_sum in Hsum.
  assert (Hn : NoDup (group_layers pg)) by (rewrite Hpg; by apply NoDup_filter). split; [done|].
  apply submseteq_length_Permutation.
  - apply NoDup_submseteq; [done|]. intros n. rewrite Hpg. by intros [? _]%list_elem_of_filter.
  - rewrite length_fmap. unfold zlen in Hsum. lia.
Qed.

Lemma shrink_ok v groups b c m c' : config_covers groups b c → 0 < b → 0 ≤ num_blocks c → 0 ≤ m → shrink_config v m c = Ok c' →
  config_covers groups b c' ∧ num_blocks c' = m.
Proof.
  intros [Hg Hl Hs Ha Hmul Ht] Hb Hold Hm. unfold shrink_config, mbind, result_bind.
  destruct (result_map _ _) as [ts|] eqn:Hts; [|done]. intros H.
  assert (c' = mkKVCacheConfig m ts (kv_cache_groups c)) as -> by (repeat case_match; by simplify_eq). clear H. split; [|done].
  assert (Hone : ∀ t t', t ∈ kv_cache_tensors c → shrink_tensor (num_blocks c) m t = Ok t' →
    shared_by t' = shared_by t ∧ ∃ p, size t = p * num_blocks c ∧ size t' = p * m ∧ num_blocks c ≠ 0).
  { intros t t' Hin E. unfold shrink_tensor, mbind, result_bind, py_mod, assert_that in E.
    destruct (Z.eqb_spec (num_blocks c) 0) as [|Hn0]; [done|]. destruct (_ =? 0); [|done]. injection E as <-. simpl.
    split; [done|]. destruct (Hmul t Hin) as [p Hp]. exists p. split_and!; [done| |done]. by rewrite Hp, Z.div_mul. }
  assert (Hf : Forall2 (λ t t', t ∈ kv_cache_tensors c ∧ shared_by t' = shared_by t ∧
                 ∃ p, size t = p * num_blocks c ∧ size t' = p * m ∧ num_blocks c ≠ 0) (kv_cache_tensors c) ts).
  { apply result_map_Forall2 in Hts. apply Forall2_same_length_lookup. split; [by eapply Forall2_length|].
    intros i t t' Hi Hi'. assert (t ∈ kv_cache_tensors c) by (by eapply list_elem_of_lookup_2). split; [done|].
    apply Hone; [done|]. by eapply Forall2_lookup_lr in Hts. }
  assert (Hfrom : ∀ t', t' ∈ ts → ∃ t, t ∈ kv_cache_tensors c ∧ shared_by t' = shared_by t ∧
                 ∃ p, size t = p * num_blocks c ∧ size t' = p * m ∧ num_blocks c ≠ 0).
  { intros t' (i & Hi)%list_elem_of_lookup. destruct (Forall2_lookup_r _ _ _ _ _ Hf Hi) as (t & _ & ?). by exists t. }
  split; simpl.
  - done.
  - assert (shared_by <$> ts = shared_by <$> kv_cache_tensors c) as ->; [|done]. clear -Hf.
    induction Hf as [|t t' l l' (_ & E & _) _ IH]; [done|]. csimpl. by rewrite E, IH.
  - intros t' n Ht' Hn. destruct (Hfrom t' Ht') as (t & Hin & E & p & Hp & Hp' & Hn0). rewrite E in Hn.
    destruct (Hs t n Hin Hn) as (g & q & ? & ? & ? & Hq). exists g, q. split_and!; [done..|].
    assert (p = q) as -> by nia. done.
  - intros t' g n k Ht' Hgin Hn Hk. destruct (Hfrom t' Ht') as (t & Hin & E & _). rewrite E in Hn, Hk. by eapply Ha.
  - intros t' Ht'. destruct (Hfrom t' Ht') as (t & _ & _ & p & _ & Hp' & _). by exists p.
  - intros _. assert (∃ P, zsum (size <$> kv_cache_tensors c) = P * num_blocks c ∧ zsum (size <$> ts) = P * m ∧ (P = 0 ∨ num_blocks c ≠ 0))
      as (P & HP & -> & HP0).
    { clear -Hf. induction Hf as [|t t' l l' (_ & _ & p & Hp & Hp' & Hn) _ (P & HP & HP' & _)]; [by exists 0; auto|].
      exists (p + P). csimpl. rewrite HP, HP', Hp, Hp'. split_and!; [lia..|by right]. }
    specialize (Ht Hold). rewrite HP in Ht. destruct HP0 as [->|?]; nia.
Qed.

Lemma same_specs_page pg groups : group_specs pg = group_specs groups →
  (∀ v p, blocks_needed v p pg = blocks_needed v p groups) ∧ all_uniform_type pg = all_uniform_type groups.
Proof.
  intros E. assert (Hs : ∀ {X} (f : KVCacheSpec → X) gs, (λ g, f (kv_cache_spec g)) <$> gs = f <$> group_specs gs)
    by (intros; unfold group_specs; by rewrite <-list_fmap_compose).
  split.
  - intros v p. unfold blocks_needed.
    assert (∀ gs, sum_results (λ g, m ← max_memory_usage_bytes v (kv_cache_spec g);
               if p =? 0 then Err ZeroDivisionError else Ok (cdiv m p)) gs =
             sum_results (λ s, m ← max_memory_usage_bytes v s;
               if p =? 0 then Err ZeroDivisionError else Ok (cdiv m p)) (group_specs gs)) as Hg.
    { intros gs. induction gs as [|g gs IH]; [done|]. simpl. by rewrite IH. }
    by rewrite !Hg, E.
  - unfold all_uniform_type. assert (∀ gs, forallb (λ g, is_uniform_type_spec (kv_cache_spec g)) gs = forallb is_uniform_type_spec (group_specs gs)) as Hg.
    { intros gs. induction gs as [|g gs IH]; [done|]. simpl. by rewrite IH. }
    by rewrite !Hg, E.
Qed.

(** A worker that passed the check has the blocks one request needs. *)
Lemma worker_capacity v pg e b n p : check_worker v (pg, e) = Ok tt → all_uniform_type pg = false → pg ≠ [] →
  _pool_bytes_per_block pg = Ok b → 0 < b → get_uniform_page_size (group_specs pg) = Ok p → blocks_needed v p pg = Ok n →
  0 < e ∧ n ≤ e / b.
Proof.
  intros Hc Hu Hne Hb Hpos Hp Hn. unfold check_worker in Hc. simpl in Hc. rewrite bool_decide_false in Hc by done.
  unfold _check_enough_kv_cache_memory in Hc. destruct (Z.leb_spec e 0); [done|]. split; [done|].
  assert (single_uniform pg = None) as Hsu.
  { destruct pg as [|g [|]]; try done. simpl in *. unfold all_uniform_type in Hu. simpl in Hu. by destruct (kv_cache_spec g). }
  unfold _pool_bytes_per_block in Hb. unfold _max_memory_usage_bytes_from_groups, pool_usage in Hc.
  rewrite bool_decide_false in Hc by done. rewrite Hsu, Hu in Hb, Hc.
  destruct (py_max (group_sizes pg)) as [gs|] eqn:Hgs; [|done]. simpl in Hb, Hc. rewrite Hp in Hb, Hc. simpl in Hb, Hc.
  rewrite Hn in Hc. simpl in Hc. injection Hb as <-. destruct (Z.ltb_spec e (gs * p * n)) as [|Hle].
  - destruct (_estimate_max_model_len_from_groups v pg e); done.
  - apply Z.div_le_lower_bound; nia.
Qed.
