(* ===== verification/KVPlanSafe.v ===== *)
(** * What the start-up planning guarantees

    The properties of [KVGroups] and [KVPlan]: the layers are partitioned into groups,
    a worker's tensors hold every layer and stay within its memory, the length found by
    the automatic fit is the largest, the workers agree on a number of blocks that is
    enough for one request; and the block the pool reserves for itself is not counted. *)

From Stdlib Require Import ZArith Lia QArith.
From S2P Require Import Prelude MathUtils KVSpec FreeQueue Request BlockHash BlockPool Ledger SingleType ManagerSpec CacheHit Coordinator CoordinatorSpec HybridHit KVCacheManager AllocateSlots ManagerTrace HybridCases KVGroups KVPlan.
Local Open Scope Z_scope.

Lemma for_each_all {A} (f : A → result unit) l x : for_each f l = Ok tt → x ∈ l → f x = Ok tt.
Proof.
  induction l as [|y l IH]; [by intros _ H%not_elem_of_nil|]. simpl. unfold mbind, result_bind.
  destruct (f y) as [[]|] eqn:E; [|done]. intros Hl [->|Hx]%elem_of_cons; [done|by apply IH].
Qed.

Lemma auto_fit_keeps cfg projected avail cfg' : _auto_fit_max_model_len cfg projected avail = Ok cfg' →
  num_gpu_blocks_override cfg' = num_gpu_blocks_override cfg.
Proof. unfold _auto_fit_max_model_len, mbind, result_bind. intros H. repeat case_match; by simplify_eq. Qed.

Lemma project_spec_uniform names b d s : project_spec names (UniformTypeKVCacheSpecs b d) = Ok s →
  ∃ b' d', s = UniformTypeKVCacheSpecs b' d'.
Proof.
  simpl. case_bool_decide; [intros [= <-]; by eauto|]. destruct (result_map _ _); [|done]. intros [= <-]. by eauto.
Qed.

Lemma submseteq_nodup {A} (l k : list A) : NoDup k → l ⊆+ k → NoDup l.
Proof. intros Hk (k' & E)%submseteq_Permutation. rewrite E in Hk. by apply NoDup_app in Hk as [? _]. Qed.

(** The memory worker [i] plans with. *)
Lemma effective_at cfg projected avail eff i pg e b : effective_memory cfg projected avail = Ok eff →
  projected !! i = Some pg → eff !! i = Some e → pg ≠ [] → _pool_bytes_per_block pg = Ok b → 0 < b →
  ∃ a, avail !! i = Some a ∧ e = match num_gpu_blocks_override cfg with None => a | Some o => o * b end ∧
       may_override_num_blocks cfg (e / b) = e / b.
Proof.
  unfold effective_memory, may_override_num_blocks. intros Heff Hpg He Hne Hb Hpos.
  destruct (num_gpu_blocks_override cfg) as [o|]; [|injection Heff as <-; by exists e].
  apply result_map_Forall2 in Heff. destruct (Forall2_lookup_r _ _ _ _ _ Heff He) as ([pg' a] & Hz & E).
  apply lookup_zip_Some in Hz as [Hz1 Hz2]. simplify_eq. exists a. split; [done|].
  unfold adjust_memory in E. simpl in E. rewrite bool_decide_false in E by done. rewrite Hb in E. simpl in E.
  destruct (py_floordiv a b); [|done]. injection E as <-. simpl. by rewrite Z.div_mul by lia.
Qed.

(** What a worker with the layers [w] and the memory [a] gets. *)
Record worker_plan (cfg : PlanConfig) (v : VllmConfig) (nb : Z) (w : LayerDict) (a : Z) (c : KVCacheConfig) : Prop := {
  wp_blocks : num_blocks c = nb;
  wp_layers : group_layers (kv_cache_groups c) ≡ₚ w.*1;
  wp_memory : ∃ b, _pool_bytes_per_block (kv_cache_groups c) = Ok b ∧ config_covers (kv_cache_groups c) b c ∧
    b * nb ≤ match num_gpu_blocks_override cfg with None => a | Some o => o * b end;
  wp_capacity : ∀ p n, all_uniform_type (kv_cache_groups c) = false →
    get_uniform_page_size (group_specs (kv_cache_groups c)) = Ok p →
    blocks_needed v p (kv_cache_groups c) = Ok n → n ≤ nb
}.

Section Plans.
Context (cfg0 cfg : PlanConfig) (groups : list KVCacheGroupSpec) (projected : list (list KVCacheGroupSpec)).
Context (specs : list LayerDict) (avail eff : list Z).
Hypothesis Hworkers : ∀ w, w ∈ specs → NoDup w.*1 ∧ w ≠ [].
Hypothesis Hnodup : NoDup (group_layers groups).
Hypothesis Hlaid : laid_out groups.
Hypothesis Hpaged : ∀ g, g ∈ groups → paged_spec (kv_cache_spec g).
Hypothesis Hproj : result_map (_project_kv_cache_groups_to_worker groups) specs = Ok projected.
Hypothesis Heff : effective_memory cfg0 projected avail = Ok eff.
Hypothesis Hover : num_gpu_blocks_override cfg = num_gpu_blocks_override cfg0.
Hypothesis Hcheck : for_each (check_worker (plan_vllm cfg)) (zip projected eff) = Ok tt.

Lemma override_same n : may_override_num_blocks cfg n = may_override_num_blocks cfg0 n.
Proof. unfold may_override_num_blocks. by rewrite Hover. Qed.

(** Worker [i] before the workers agree. *)
Lemma worker_config_ok i pg w e c : projected !! i = Some pg → specs !! i = Some w → eff !! i = Some e →
  worker_config cfg (pg, w, e) = Ok c →
  ∃ a b, avail !! i = Some a ∧ _pool_bytes_per_block pg = Ok b ∧ 0 < b ∧ config_covers pg b c ∧ num_blocks c = e / b ∧
    e = match num_gpu_blocks_override cfg0 with None => a | Some o => o * b end ∧ 0 < e ∧ pg ≠ [] ∧
    group_layers pg ≡ₚ w.*1 ∧ (all_uniform_type pg = false → group_specs pg = group_specs groups) ∧
    all_uniform_type pg = all_uniform_type groups.
Proof.
  intros Hpg Hw He Hc. destruct (Hworkers w) as [Hwn Hwe]; [by eapply list_elem_of_lookup_2|].
  assert (Hp : _project_kv_cache_groups_to_worker groups w = Ok pg)
    by (apply result_map_Forall2 in Hproj; by eapply Forall2_lookup_lr in Hproj).
  destruct (project_ok groups w pg Hnodup Hlaid Hpaged Hp) as (Hlay & Hpgd & Hnames & Hspecs).
  unfold worker_config, mbind, result_bind, assert_that in Hc. destruct (Z.eqb_spec (zsum (group_sizes pg)) (zlen w)) as [Hsum|]; [|done].
  destruct (all_layers_grouped _ _ _ Hnodup Hwn Hnames Hsum) as [Hpn Hperm].
  assert (Hsome : group_layers pg ≠ []).
  { intros E. rewrite E in Hperm. apply Permutation_nil, fmap_nil_inv in Hperm. done. }
  assert (pg ≠ []) as Hne by (intros ->; done).
  assert (0 < e) as Hepos.
  { assert ((pg, e) ∈ zip projected eff) as Hin by (apply (list_elem_of_lookup_2 _ i), lookup_zip_Some; done).
    pose proof (for_each_all _ _ _ Hcheck Hin) as E. unfold check_worker in E. simpl in E. rewrite bool_decide_false in E by done.
    unfold _check_enough_kv_cache_memory in E. destruct (Z.leb_spec e 0); [done|lia]. }
  destruct (worker_plan_ok cfg pg e) as (b & c' & Hb & Hbpos & Ec & Hnb & Hcov); [by split|lia|].
  rewrite Hc in Ec. injection Ec as <-.
  destruct (effective_at _ _ _ _ _ _ _ _ Heff Hpg He Hne Hb Hbpos) as (a & Ha & Hea & Hov).
  assert (Hall : all_uniform_type pg = all_uniform_type groups ∧ (all_uniform_type pg = false → group_specs pg = group_specs groups)).
  { destruct Hlaid as [Hu|[p Hu]].
    - assert (∀ gs, (∀ g, g ∈ gs → ∃ b d, kv_cache_spec g = UniformTypeKVCacheSpecs b d) → all_uniform_type gs = true) as Htrue.
      { intros gs Hgs. apply forallb_forall. intros g Hg%list_elem_of_In. by destruct (Hgs g Hg) as (? & ? & ->). }
      rewrite (Htrue groups) by (intros g Hg; eapply Forall_forall in Hu as (b' & d' & ? & _); [by eauto|done]).
      assert (all_uniform_type pg = true) as ->; [|done]. apply Htrue. intros g Hg.
      destruct Hlay as [Hl|[p Hl]]; [eapply Forall_forall in Hl as (b' & d' & ? & _); [by eauto|done]|].
      apply list_elem_of_lookup in Hg as (j & Hj). apply result_map_Forall2 in Hp.
      destruct (Forall2_lookup_r _ _ _ _ _ Hp Hj) as (g0 & Hg0 & E). simpl in E.
      pose proof (Forall_lookup_1 _ _ _ _ Hu Hg0) as (b0 & d0 & Hs0 & _). rewrite Hs0 in E.
      destruct (project_spec _ _) as [s'|] eqn:Hps; [|done]. injection E as <-. simpl.
      by eapply project_spec_uniform.
    - assert (group_specs pg = group_specs groups) as E; [|by destruct (same_specs_page pg groups E)].
      clear -Hspecs Hu. unfold group_specs. induction Hspecs as [|g g' gs gs' Hg _ IH]; [done|].
      apply Forall_cons in Hu as [(s & Es & _) Hu]. csimpl. by rewrite IH, (Hg s Es), Es. }
  exists a, b. destruct Hall as [Hall1 Hall2]. split_and!; try done. rewrite Hnb, override_same. done.
Qed.
End Plans.

Lemma zip3_at {A B C} (l1 : list A) (l2 : list B) (l3 : list C) i x y z :
  zip (zip l1 l2) l3 !! i = Some (x, y, z) ↔ l1 !! i = Some x ∧ l2 !! i = Some y ∧ l3 !! i = Some z.
Proof. rewrite lookup_zip_Some, lookup_zip_Some. naive_solver. Qed.

(** The workers after they agreed on the smallest number of blocks. *)
Lemma shrunk_plans cfg0 cfg groups projected specs avail eff cs nb cs' :
  (∀ w, w ∈ specs → NoDup w.*1 ∧ w ≠ []) → length avail = length specs →
  NoDup (group_layers groups) → laid_out groups → (∀ g, g ∈ groups → paged_spec (kv_cache_spec g)) →
  result_map (_project_kv_cache_groups_to_worker groups) specs = Ok projected →
  effective_memory cfg0 projected avail = Ok eff → num_gpu_blocks_override cfg = num_gpu_blocks_override cfg0 →
  for_each (check_worker (plan_vllm cfg)) (zip projected eff) = Ok tt →
  result_map (worker_config cfg) (zip (zip projected specs) eff) = Ok cs → py_min (num_blocks <$> cs) = Ok nb →
  result_map (shrink_config (plan_vllm cfg) nb) cs = Ok cs' →
  length cs' = length specs ∧
  ∃ nb, ∀ i w a c, specs !! i = Some w → avail !! i = Some a → cs' !! i = Some c → worker_plan cfg0 (plan_vllm cfg) nb w a c.
Proof.
  intros Hw Hlen Hgn Hlaid Hp Hproj Heff Hov Hcheck Hcs Hmin Hsh.
  assert (Hl1 : length projected = length specs) by (apply result_map_Forall2, Forall2_length in Hproj; done).
  assert (Hl2 : length eff = length specs).
  { unfold effective_memory in Heff. destruct (num_gpu_blocks_override cfg0); [|by injection Heff as <-].
    apply result_map_Forall2, Forall2_length in Heff. rewrite <-Heff, length_zip_with. lia. }
  pose proof (proj1 (result_map_Forall2 _ _ _) Hcs) as Hf. pose proof (proj1 (result_map_Forall2 _ _ _) Hsh) as Hf'.
  assert (Hl3 : length cs = length specs) by (rewrite <-(Forall2_length _ _ _ Hf), !length_zip_with; lia).
  split; [by rewrite <-(Forall2_length _ _ _ Hf')|]. exists nb. apply py_min_spec in Hmin as [Hin Hle].
  (* every worker before the shrinking *)
  assert (Hat : ∀ i c0, cs !! i = Some c0 → ∃ pg w e, projected !! i = Some pg ∧ specs !! i = Some w ∧ eff !! i = Some e ∧
             worker_config cfg (pg, w, e) = Ok c0).
  { intros i c0 Hi. destruct (Forall2_lookup_r _ _ _ _ _ Hf Hi) as ([[pg w] e] & Hz & E). apply zip3_at in Hz as (? & ? & ?).
    by exists pg, w, e. }
  pose proof (worker_config_ok cfg0 cfg groups projected specs avail eff Hw Hgn Hlaid Hp Hproj Heff Hov Hcheck) as Hok.
  assert (Hnn : ∀ i c0, cs !! i = Some c0 → 0 ≤ num_blocks c0).
  { intros i c0 Hi. destruct (Hat i c0 Hi) as (pg & w & e & H1 & H2 & H3 & H4).
    destruct (Hok i pg w e c0 H1 H2 H3 H4) as (a & b & _ & _ & Hb & _ & -> & _ & He & _). apply Z.div_pos; lia. }
  apply list_elem_of_fmap in Hin as (cmin & Hnb & (j & Hj)%list_elem_of_lookup).
  intros i w a c Hwi Hai Hci. destruct (Forall2_lookup_r _ _ _ _ _ Hf' Hci) as (c0 & Hc0 & Es).
  destruct (Hat i c0 Hc0) as (pg & w' & e & H1 & H2 & H3 & H4). rewrite Hwi in H2. injection H2 as <-.
  destruct (Hok i pg w e c0 H1 Hwi H3 H4) as (a' & b & Ha & Hb & Hbpos & Hcov & Hn & He & Hepos & Hne & Hperm & Hspecs & Hu).
  rewrite Hai in Ha. injection Ha as <-.
  assert (Hnb0 : 0 ≤ nb) by (rewrite Hnb; by eapply Hnn).
  destruct (shrink_ok _ pg b c0 nb c Hcov Hbpos (Hnn i c0 Hc0) Hnb0 Es) as [Hcov' Hblocks].
  assert (nb ≤ num_blocks c0) as Hsmall by (apply Hle, list_elem_of_fmap_2; by eapply list_elem_of_lookup_2).
  pose proof (cc_groups _ _ _ Hcov') as Hgr. split.
  - done.
  - by rewrite Hgr.
  - exists b. rewrite Hgr. split_and!; [done|done|]. rewrite <-He. pose proof (Z.mul_div_le e b Hbpos). nia.
  - rewrite Hgr. intros p n Hau Hpage Hneed. destruct (Hat j cmin Hj) as (pgj & wj & ej & J1 & J2 & J3 & J4).
    destruct (Hok j pgj wj ej cmin J1 J2 J3 J4) as (aj & bj & _ & Hbj & Hbjpos & _ & Hnj & _ & _ & Hnej & _ & Hspecsj & Huj).
    assert (group_specs pgj = group_specs pg) as Esp by (rewrite Hspecs, Hspecsj; congruence).
    destruct (same_specs_page _ _ Esp) as [Hneed' Hu'].
    rewrite Hnb, Hnj. eapply (worker_capacity (plan_vllm cfg) pgj ej bj n p); try done.
    + apply (for_each_all _ _ _ Hcheck). apply (list_elem_of_lookup_2 _ j), lookup_zip_Some. done.
    + congruence.
    + by rewrite Esp.
    + by rewrite Hneed'.
Qed.


(** C37. The plan of one worker always exists: [get_kv_cache_config_from_groups] returns
    a configuration in which every layer of the worker has exactly one tensor, of the
    page size of its group's spec times the number of blocks, no tensor is shared by two
    layers of one group; the number of blocks is the largest the memory holds with
    [_pool_bytes_per_block] bytes each, the size of all tensors, or the override. *)
Theorem worker_plan_covers_layers cfg groups avail :
  worker_ready groups → 0 ≤ avail →
  ∃ b c, _pool_bytes_per_block groups = Ok b ∧ get_kv_cache_config_from_groups cfg groups avail = Ok c ∧
    config_covers groups b c ∧
    match num_gpu_blocks_override cfg with
    | None => b * num_blocks c ≤ avail < b * (num_blocks c + 1) ∧ zsum (size <$> kv_cache_tensors c) ≤ avail
    | Some o => num_blocks c = o
    end.
Proof.
  intros Hr Ha. destruct (worker_plan_ok cfg groups avail Hr Ha) as (b & c & Hb & Hpos & Hc & Hn & Hcov).
  exists b, c. split_and!; [done..|]. unfold may_override_num_blocks in Hn. destruct (num_gpu_blocks_override cfg); [done|].
  simpl in Hn. pose proof (Z.mul_div_le avail b Hpos). pose proof (Z.mul_succ_div_gt avail b Hpos).
  pose proof (Z.div_pos avail b Ha Hpos). rewrite Hn. split; [lia|]. pose proof (cc_total _ _ _ Hcov ltac:(lia)). lia.
Qed.

(** C38. The automatic fit ends and finds the longest context: every length up to the
    one it sets fits in the memory of every worker and no longer length (within the
    model's) does; it raises [ValueError] exactly when no length fits. *)
Theorem auto_fit_is_longest cfg projected avail :
  length projected = length avail → (∃ w, w ∈ projected ∧ w ≠ []) →
  (∀ w, w ∈ zip projected avail → plannable (plan_vllm cfg) w) → 1 ≤ max_model_len (plan_vllm cfg) →
  (∃ n, 1 ≤ n ≤ max_model_len (plan_vllm cfg) ∧
     _auto_fit_max_model_len cfg projected avail = Ok (plan_set_max_model_len n cfg) ∧
     ∀ len, 1 ≤ len ≤ max_model_len (plan_vllm cfg) →
       (∀ w, w ∈ zip projected avail → worker_fits (plan_vllm cfg) len w) ↔ len ≤ n)
  ∨ (_auto_fit_max_model_len cfg projected avail = Err ValueError ∧
     ∀ len, 1 ≤ len ≤ max_model_len (plan_vllm cfg) → ¬ (∀ w, w ∈ zip projected avail → worker_fits (plan_vllm cfg) len w)).
Proof. apply auto_fit_ok. Qed.

(** C39. When [get_kv_cache_configs] returns, all workers have the same number of
    blocks; every worker has each of its layers in one tensor of the page size of its
    group's spec times that number (which need not be the layer's own, see
    [merge_ignores_head_size_v]), all within its memory or, when the number of blocks is
    overridden, the memory of that number; and unless the groups are of uniform type the
    blocks, the pool's null block among them (see C40), are at least those that one
    request of [max_model_len] tokens needs over all groups. *)
Theorem workers_agree_on_blocks cfg0 specs avail merged groups configs cfg :
  (∀ w, w ∈ specs → NoDup w.*1 ∧ w ≠ []) → length avail = length specs →
  merged_kv_cache_specs specs = Ok merged → hidden_unaligned merged →
  get_kv_cache_groups cfg0 merged = Ok groups → (∀ g, g ∈ groups → paged_spec (kv_cache_spec g)) →
  get_kv_cache_configs cfg0 specs avail = Ok (configs, cfg) →
  length configs = length specs ∧
  ∃ nb, ∀ i w a c, specs !! i = Some w → avail !! i = Some a → configs !! i = Some c →
    worker_plan cfg0 (plan_vllm cfg) nb w a c.
Proof.
  intros Hw Hlen Hm Hal Hg Hp H. pose proof (merged_nodup _ _ Hm) as Hmn.
  unfold get_kv_cache_configs in H. rewrite Hm in H. unfold mbind, result_bind in H.
  destruct (check_kv_cache_spec_registry merged); [|done]. rewrite Hg in H.
  assert (∃ sp, (if disable_hybrid_kv_cache_manager cfg0 then unify_hybrid_kv_cache_specs merged else Ok merged) = Ok sp) as [sp Hsp].
  { unfold get_kv_cache_groups, mbind, result_bind in Hg. destruct (disable_hybrid_kv_cache_manager cfg0); [|by exists merged].
    destruct (unify_hybrid_kv_cache_specs merged) as [sp|]; [by exists sp|done]. }
  destruct (groups_ok _ _ _ _ Hmn Hal Hsp Hg) as [Hk (Hsub & _ & Hlaid & _)]. rewrite Hk in Hsub.
  assert (Hgn : NoDup (group_layers groups)) by (by eapply submseteq_nodup). clear Hk Hsub Hsp Hg Hm.
  destruct (result_map _ specs) as [projected|] eqn:Hproj; [|done].
  destruct (effective_memory cfg0 projected avail) as [eff|] eqn:Heff; [|done].
  destruct (if original_max_model_len cfg0 =? -1 then _auto_fit_max_model_len cfg0 projected eff else Ok cfg0) as [cfg1|] eqn:Hfit; [|done].
  assert (num_gpu_blocks_override cfg1 = num_gpu_blocks_override cfg0) as Hov.
  { destruct (original_max_model_len cfg0 =? -1); [by eapply auto_fit_keeps|by injection Hfit as ->]. }
  destruct (for_each _ _) as [[]|] eqn:Hcheck; [|done]. destruct (result_map (worker_config cfg1) _) as [cs|] eqn:Hcs; [|done].
  destruct (py_min _) as [mb|] eqn:Hmin; [|done]. destruct (result_map (shrink_config _ _) _) as [cs'|] eqn:Hsh; [|done].
  injection H as <- <-. eapply shrunk_plans; eassumption || done.
Qed.

(** * The reserved block *)

(** The manager built for one full-attention group holds nothing. *)
Lemma new_full_manager c ml bs mb caching eagle log ev ui mo ret wm k names a f eg :
  kv_cache_groups c = [mkKVCacheGroupSpec names (OneSpec (FullAttentionSpec a f)) eg] → 0 < a_block_size a →
  new_kv_cache_manager c ml bs bs mb caching eagle log ev ui 1 1 mo ret wm = Ok k →
  km_max_model_len k = ml ∧ km_enable_caching k = caching ∧
  ∃ m, single_type_managers (coordinator k) = [m] ∧ mg_class m = FullAttentionManager ∧ mg_block_size m = a_block_size a.
Proof.
  intros Hg Hbs Hk. unfold new_kv_cache_manager, get_kv_cache_coordinator, new_base_coordinator in Hk. rewrite Hg in Hk.
  unfold mbind, result_bind in Hk.
  destruct caching; simpl in Hk; repeat (case_match; simpl in *; simplify_eq; try done);
    (split; [done|]; split; [done|]); eexists; (split; [done|]); simpl; (split; [done|lia]).
Qed.

(** The plan of one worker with one full-attention group and memory for exactly the
    blocks of one request of the maximal length. *)
Lemma one_group_plan cfg names a f eg p :
  let g := mkKVCacheGroupSpec names (OneSpec (FullAttentionSpec a f)) eg in
  let n := cdiv (max_model_len (plan_vllm cfg)) (a_block_size a) in
  names ≠ [] → layer_page_size_bytes (FullAttentionSpec a f) = Ok p → 0 < p → 0 < a_block_size a →
  0 < max_model_len (plan_vllm cfg) → num_gpu_blocks_override cfg = None →
  decode_context_parallel_size (plan_vllm cfg) = 1 → prefill_context_parallel_size (plan_vllm cfg) = 1 →
  0 < n ∧ check_worker (plan_vllm cfg) ([g], zlen names * p * n) = Ok tt ∧
  ∃ c, get_kv_cache_config_from_groups cfg [g] (zlen names * p * n) = Ok c ∧ num_blocks c = n ∧ kv_cache_groups c = [g].
Proof.
  intros g n Hne Hp Hpos Hbs Hlen Hov Hd Hpc. set (v := plan_vllm cfg) in *.
  assert (0 < zlen names) as Hz by (unfold zlen; destruct names; [done|simpl; lia]).
  assert (0 < n) as Hn by (pose proof (cdiv_spec (max_model_len v) _ Hbs); unfold n; nia).
  assert (get_uniform_page_size (group_specs [g]) = Ok p) as Hpage.
  { unfold get_uniform_page_size, group_specs, g, page_size_bytes. cbn -[layer_page_size_bytes]. by rewrite Hp. }
  assert (_max_memory_usage_bytes_from_groups v [g] = Ok (zlen names * p * n)) as Huse.
  { unfold _max_memory_usage_bytes_from_groups, pool_usage. rewrite bool_decide_false by done.
    change (single_uniform [g]) with (@None (list string * LayerDict)). change (all_uniform_type [g]) with false.
    cbn iota. rewrite Hpage. unfold blocks_needed, max_memory_usage_bytes, layer_max_memory_usage_bytes.
    cbn -[layer_page_size_bytes Z.mul cdiv full_max_memory_usage_bytes]. rewrite Hp.
    cbn -[Z.mul cdiv full_max_memory_usage_bytes]. rewrite (proj2 (Z.eqb_neq p 0)) by lia.
    unfold full_max_memory_usage_bytes. rewrite Hd, Hpc. cbn -[Z.mul cdiv]. fold n. by rewrite cdiv_mul, Z.add_0_r. }
  split; [done|]. split.
  - unfold check_worker, _check_enough_kv_cache_memory. rewrite bool_decide_false by done. cbn [fst snd]. rewrite Huse.
    rewrite (proj2 (Z.leb_gt _ _)) by nia. simpl. by rewrite Z.ltb_irrefl.
  - unfold get_kv_cache_config_from_groups, pool_config. rewrite bool_decide_false by done.
    change (single_uniform [g]) with (@None (list string * LayerDict)). change (all_uniform_type [g]) with false.
    cbn iota. rewrite Hpage. cbn -[Z.mul Z.ltb get_num_blocks seq]. rewrite (proj2 (Z.ltb_lt 0 _)) by done.
    unfold get_num_blocks, py_floordiv, may_override_num_blocks. rewrite Hov, (proj2 (Z.eqb_neq p 0)) by lia.
    cbn -[Z.mul Z.div Z.eqb seq]. rewrite (proj2 (Z.eqb_neq (zlen names) 0)) by lia.
    eexists. split; [done|]. split; [|done]. simpl. replace (zlen names * p * n) with (n * zlen names * p) by lia.
    rewrite !Z.div_mul by lia. lia.
Qed.

(** Allocation for a request that holds nothing and needs as many blocks as the pool has. *)
Lemma whole_pool_refused `{HashConfig} k free r num_new ncbo lookahead delay enc must_fit reserved scheduled m :
  km_inv k free → slots_pre k r num_new 0 TheEmpty lookahead 0 reserved → default TheEmpty ncbo = TheEmpty →
  single_type_managers (coordinator k) = [m] → mg_class m = FullAttentionManager → blocks m (request_id r) = [] →
  num_computed_tokens r + num_new ≤ km_max_model_len k →
  (num_gpu_blocks (km_pool k) - 1) * mg_block_size m < num_computed_tokens r + num_new →
  ∃ k', allocate_slots r num_new 0 ncbo lookahead 0 delay enc must_fit reserved scheduled k = Ok (None, k').
Proof.
  intros Hk Hpre Hncb Hms Hcls Hrow Hfit Hmany. pose proof Hpre as Hpre'. rewrite <-Hncb in Hpre'.
  destruct (allocate_slots_run k free r num_new 0 ncbo lookahead 0 delay enc must_fit reserved scheduled Hk Hpre')
    as ([res|] & k' & free' & E & _ & Hres); [|by exists k'].
  exfalso. destruct Hres as (_ & k1 & free1 & Hk1 & Hup & Hnum & Hshort). rewrite !Z.add_0_r in *.
  rewrite Hms in Hup. destruct (up_done _ _ _ _ Hup 0%nat m) as (m1 & Hm1 & Hsk); [simpl; lia|by rewrite Hms|].
  pose proof (up_length _ _ _ _ Hup) as Hl. rewrite Hms in Hl.
  destruct (single_type_managers (coordinator k1)) as [|x [|]] eqn:Ems; [done| |done]. injection Hm1 as ->.
  pose proof (only_class _ _ _ (sk_only _ _ _ _ Hsk)) as Hcls1. rewrite Hcls in Hcls1.
  apply Hshort; [done|done|by intros y; rewrite Ems; intros ->%list_elem_of_singleton; rewrite Hcls1|].
  unfold short. rewrite Ems. cbn -[Z.sub Z.add Z.min]. unfold wants, lacking, wanted_tokens, slot_tokens. rewrite Hcls1.
  assert (zlen (blocks m1 (request_id r)) = 0) as -> by (unfold zlen; by rewrite (sk_length _ _ _ _ Hsk), Hrow).
  rewrite (only_size _ _ _ (sk_only _ _ _ _ Hsk)). pose proof (ki_co _ _ Hk1) as Hc1.
  pose proof (pool_conservation _ _ (lg_pool _ _ _ _ (ci_ledger _ _ Hc1))) as Hfree. fold (km_pool k1) in Hfree.
  pose proof (zlen_nonneg (filter (λ i, refc (km_pool k1) i ≠ 0) (seq 1 (nblocks (km_pool k1) - 1)))) as Href.
  unfold num_referenced in Hfree. destruct Hpre as [(_ & Hla & _) _ _ Hres _ _].
  assert (0 ≤ headroom k r scheduled) by (pose proof (ki_watermark _ _ Hk); unfold headroom; case_match; lia).
  assert (0 < mg_block_size m) as Hbs.
  { eapply (ms_size (co_block_pool (coordinator k))), (ci_static _ _ (ki_co _ _ Hk)). rewrite Hms. left. }
  pose proof (cdiv_spec (Z.min (num_computed_tokens r + num_new + lookahead) (km_max_model_len k)) _ Hbs). nia.
Qed.

(** C40. The memory check promises that one request of the maximal length can be
    served, but the block pool keeps one of the planned blocks as its null block. For a
    model with one full-attention group and memory for exactly the blocks that a request
    of the maximal length needs, the check accepts and the plan has exactly these
    blocks; yet in the manager built from the plan a first request that needs all of
    them, so any prompt longer than all but one of the blocks, gets no slots for its
    tokens although nothing else runs and its length is within the limit. *)
Theorem null_block_not_planned `{HashConfig} cfg names a f eg p :
  let g := mkKVCacheGroupSpec names (OneSpec (FullAttentionSpec a f)) eg in
  let bs := a_block_size a in
  let max_len := max_model_len (plan_vllm cfg) in
  let avail := zlen names * p * cdiv max_len bs in
  names ≠ [] → layer_page_size_bytes (FullAttentionSpec a f) = Ok p → 0 < p → 0 < bs → 0 < max_len →
  num_gpu_blocks_override cfg = None →
  decode_context_parallel_size (plan_vllm cfg) = 1 → prefill_context_parallel_size (plan_vllm cfg) = 1 →
  check_worker (plan_vllm cfg) ([g], avail) = Ok tt ∧
  ∃ c, get_kv_cache_config_from_groups cfg [g] avail = Ok c ∧ num_blocks c = cdiv max_len bs ∧
  ∀ mb caching eagle log ev ui mo ret wm k r ncbo lookahead delay enc must_fit reserved scheduled,
    new_kv_cache_manager c max_len bs bs mb caching eagle log ev ui 1 1 mo ret wm = Ok k →
    num_computed_tokens r = 0 → (cdiv max_len bs - 1) * bs < num_tokens r ≤ max_len → 0 < num_tokens r →
    (caching = true → hashed_request (coordinator k) r) → default TheEmpty ncbo = TheEmpty → 0 ≤ lookahead → 0 ≤ reserved →
    ∃ k', allocate_slots r (num_tokens r) 0 ncbo lookahead 0 delay enc must_fit reserved scheduled k = Ok (None, k').
Proof.
  intros g bs max_len avail Hne Hp Hpos Hbs Hlen Hov Hd Hpc.
  destruct (one_group_plan cfg names a f eg p Hne Hp Hpos Hbs Hlen Hov Hd Hpc) as (Hn & Hck & c & Hc & Hnb & Hg).
  fold max_len bs in Hn, Hnb. split; [exact Hck|]. exists c. split; [exact Hc|]. split; [done|].
  intros mb caching eagle log ev ui mo ret wm k r ncbo la delay enc mf res sched Hk Hr0 Hr Hr1 Hh Hncb Hla Hres.
  destruct (new_full_manager _ _ _ _ _ _ _ _ _ _ _ _ _ _ _ _ _ Hg Hbs Hk) as (Hml & Hca & m & Hms & Hcls & Hmb).
  destruct (new_km_ok _ _ _ _ _ _ _ _ _ _ _ _ _ _ Hk) as ([free Hinv] & Hng & Hidle);
    [lia|done|done|by rewrite Hg|rewrite Hg; repeat constructor; eexists; split; [done|]; split; done|].
  assert (blocks m (request_id r) = []) as Hrow.
  { destruct (Hidle m) as [Hi _]; [rewrite Hms; left|]. unfold blocks. by rewrite Hi, lookup_empty. }
  eapply (whole_pool_refused k free r _ _ _ _ _ _ _ _ m); try done.
  - split; rewrite ?Hr0, ?Hml, ?Hca; try lia.
    + apply Running; [done|done|]. rewrite Hms. intros x ->%list_elem_of_singleton. right.
      rewrite Hrow. unfold zlen. simpl. lia.
    + intros Hc1. split; [lia|by apply Hh].
  - rewrite Hml. lia.
  - rewrite Hng, Hnb, Hmb. lia.
Qed.

(** A model with one full-attention layer, blocks of two tokens (512 bytes). *)
Definition demo_plan (max_len : Z) : PlanConfig :=
  mkPlanConfig (mkVllmConfig max_len 8 0 1 1 "none") max_len None false false 2 None true false.

(** Plan with the given memory, build the manager as the engine does, and allocate the
    slots of a first request. Returns the planned and the free blocks, and whether the
    allocation succeeded. *)
Definition first_request (max_len avail : Z) (prompt : list Z) : result (Z * Z * bool) :=
  '(configs, cfg) ← get_kv_cache_configs (demo_plan max_len) [[("layer"%string, demo_full 2)]] [avail];
  c ← generate_scheduler_kv_cache_config configs;
  '(scheduler_block_size, hash_block_size) ← resolve_kv_cache_block_sizes c cfg;
  k ← new_kv_cache_manager c (max_model_len (plan_vllm cfg)) scheduler_block_size hash_block_size None true false
        false false false 1 1 false None 0;
  r ← case_request prompt hash_block_size;
  '(res, _) ← allocate_slots (H:=chain_hash) r (zlen prompt) 0 None 0 0 false 0 false 0 true k;
  Ok (num_blocks c, get_num_free_blocks (km_pool k), bool_decide (res ≠ None)).

(** The same through all the planning: with memory for exactly the two blocks a request
    of four tokens needs, a prompt of three tokens gets no slots; with a byte less the
    plan is refused, with one more block the request is served. *)
Lemma null_block_example :
  first_request 4 1023 [1;2;3] = Err ValueError
  ∧ first_request 4 1024 [1;2;3] = Ok (2, 1, false)
  ∧ first_request 4 1536 [1;2;3] = Ok (3, 2, true).
Proof. split_and!; by vm_compute. Qed.

(** * Layers whose specs are merged although their pages differ *)

(** [FullAttentionSpec.merge] compares the fields of [AttentionSpec] only: layers that
    differ in [head_size_v] are one group, and the second layer's tensor has the first
    one's size, less than its own page size times the number of blocks. *)
Definition wide_v (v : Z) : LayerSpec := FullAttentionSpec (demo_attention 2) (mkFull v None None).
Lemma merge_ignores_head_size_v :
  layer_page_size_bytes (wide_v 64) = Ok 512 ∧ layer_page_size_bytes (wide_v 128) = Ok 768
  ∧ match get_kv_cache_configs (demo_plan 4) [[("a", wide_v 64); ("b", wide_v 128)]]%string [10240] with
    | Ok ([c], _) => num_blocks c = 10 ∧ kv_cache_tensors c = [mkKVCacheTensor 5120 ["a"]; mkKVCacheTensor 5120 ["b"]]%string
    | _ => False
    end.
Proof. split_and!; by vm_compute. Qed.

(** Disabling the hybrid manager rebuilds a chunked layer without its quantisation
    mode: the scales of a per-token-head cache are no longer part of its page. *)
Definition chunked_quant : LayerSpec :=
  ChunkedLocalAttentionSpec (mkAttentionSpec 2 1 64 (mkDtype "int8" 1) INT8_PER_TOKEN_HEAD None) 4.
Lemma conversion_drops_quant_mode :
  layer_page_size_bytes chunked_quant = Ok 272 ∧ layer_page_size_bytes (to_full_attention None chunked_quant) = Ok 256.
Proof. split; by vm_compute. Qed.

(** Layers with two window sizes, all converted to full attention, make the uniformity
    test raise instead of answering [False], although they are of one type. *)
Lemma two_windows_raise :
  let specs := [("f", demo_full 2); ("s", demo_swa 2 3); ("t", demo_swa 2 5)]%string in
  unify_hybrid_kv_cache_specs specs = Err ValueError
  ∧ is_uniform_type ((λ ns, (ns.1, to_full_attention None ns.2)) <$> specs) = Ok true.
Proof. split; by vm_compute. Qed.

(** * Witnesses *)

(** Two pipeline stages of a model with one full-attention and two sliding-window
    layers per stage. *)
Definition demo_stages : list LayerDict :=
  [[("f0", demo_full 2); ("s0", demo_swa 2 3); ("s1", demo_swa 2 3)];
   [("f1", demo_full 2); ("s2", demo_swa 2 3); ("s3", demo_swa 2 3)]]%string.
Definition plan_groups : list KVCacheGroupSpec :=
  [mkKVCacheGroupSpec ["f0"; "f1"] (OneSpec (demo_full 2)) false;
   mkKVCacheGroupSpec ["s0"; "s2"] (OneSpec (demo_swa 2 3)) false;
   mkKVCacheGroupSpec ["s1"; "s3"] (OneSpec (demo_swa 2 3)) false]%string.

Lemma plan_groups_paged g : g ∈ plan_groups → paged_spec (kv_cache_spec g).
Proof. intros Hg. repeat (apply elem_of_cons in Hg as [->|Hg]; [by exists 512|]). by apply not_elem_of_nil in Hg. Qed.
Lemma demo_unaligned : hidden_unaligned (concat demo_stages).
Proof. intros n a f m H. simpl in H. repeat (apply elem_of_cons in H as [[=]|H]). by apply not_elem_of_nil in H. Qed.
Lemma demo_get_groups : get_kv_cache_groups (demo_plan 9) (concat demo_stages) = Ok plan_groups.
Proof. by vm_compute. Qed.


Lemma demo_ready : worker_ready plan_groups.
Proof.
  split.
  - right. exists 512. repeat constructor; eexists; (split; [reflexivity|]); vm_compute; congruence.
  - apply plan_groups_paged.
  - apply (bool_decide_unpack _). by vm_compute.
  - done.
Qed.

Lemma worker_plan_covers_layers_witness :
  ∃ b c, get_kv_cache_config_from_groups (demo_plan 9) plan_groups 10000 = Ok c ∧ config_covers plan_groups b c ∧
    b * num_blocks c ≤ 10000 < b * (num_blocks c + 1).
Proof.
  destruct (worker_plan_covers_layers (demo_plan 9) plan_groups 10000 demo_ready ltac:(lia)) as (b & c & _ & Hc & Hcov & Hn & _).
  exists b, c. split; [exact Hc|split; [exact Hcov|exact Hn]].
Defined.

Lemma demo_plannable a : plannable (mkVllmConfig 9 8 0 1 1 "none") (plan_groups, a).
Proof.
  split; [|eexists; vm_compute; reflexivity]. intros g Hg. simpl in Hg.
  repeat (apply elem_of_cons in Hg as [->|Hg]; [split; [done|]; vm_compute; intros p [= <-]; done|]). by apply not_elem_of_nil in Hg.
Qed.

Lemma auto_fit_is_longest_witness :
  ∃ n, 1 ≤ n ≤ 9 ∧ _auto_fit_max_model_len (demo_plan 9) [plan_groups] [10240] = Ok (plan_set_max_model_len n (demo_plan 9)).
Proof.
  destruct (auto_fit_is_longest (demo_plan 9) [plan_groups] [10240]) as [(n & Hn & Hfit & _)|[He _]].
  - reflexivity.
  - exists plan_groups. split; [apply list_elem_of_singleton; reflexivity|discriminate].
  - intros w Hw. apply list_elem_of_singleton in Hw as ->. apply demo_plannable.
  - simpl. lia.
  - exists n. split; [exact Hn|exact Hfit].
  - vm_compute in He. discriminate He.
Defined.

Lemma workers_agree_on_blocks_witness :
  ∃ configs cfg, get_kv_cache_configs (demo_plan 9) demo_stages [9216; 8704] = Ok (configs, cfg) ∧ length configs = 2%nat ∧
    num_blocks <$> configs = [17; 17].
Proof.
  destruct (get_kv_cache_configs (demo_plan 9) demo_stages [9216; 8704]) as [[configs cfg]|] eqn:E; [|by vm_compute in E].
  exists configs, cfg. split; [reflexivity|].
  destruct (workers_agree_on_blocks (demo_plan 9) demo_stages [9216; 8704] (concat demo_stages) plan_groups configs cfg) as [Hlen _].
  - intros w Hw. unfold demo_stages in Hw. apply elem_of_cons in Hw as [->|Hw]; [|apply list_elem_of_singleton in Hw as ->];
      (split; [apply (bool_decide_unpack _); vm_compute; exact I|discriminate]).
  - reflexivity.
  - vm_compute. reflexivity.
  - apply demo_unaligned.
  - apply demo_get_groups.
  - apply plan_groups_paged.
  - exact E.
  - split; [exact Hlen|]. vm_compute in E. injection E as <- <-. vm_compute. reflexivity.
Defined.

Lemma null_block_not_planned_witness :
  ∃ c k r k', get_kv_cache_config_from_groups (demo_plan 4) [group (demo_full 2)] 1024 = Ok c ∧ num_blocks c = 2
    ∧ new_kv_cache_manager c 4 2 2 None true false false false false 1 1 false None 0 = Ok k
    ∧ case_request [1;2;3] 2 = Ok r
    ∧ allocate_slots (H:=chain_hash) r 3 0 None 0 0 false 0 false 0 true k = Ok (None, k').
Proof.
  destruct (@null_block_not_planned chain_hash (demo_plan 4) ["layer"%string] (demo_attention 2) (mkFull 64 None None) false 512)
    as (_ & c & Hc & Hn & Hrun); [discriminate|reflexivity|lia|simpl; lia|simpl; lia|reflexivity|reflexivity|reflexivity|].
  destruct (case_request [1;2;3] 2) as [r|] eqn:Er; [|by vm_compute in Er].
  destruct (new_kv_cache_manager c 4 2 2 None true false false false false 1 1 false None 0) as [k|] eqn:Ek.
  2:{ vm_compute in Hc. injection Hc as <-. by vm_compute in Ek. }
  assert (Hr : (num_tokens r, num_computed_tokens r, length (block_hashes r), mm_features r, _prompt_embeds_per_block_hashes r)
    = (3, 0, 1%nat, [], ∅)) by (vm_compute in Er; injection Er as <-; by vm_compute).
  injection Hr as E1 E2 E3 E4 E5.
  assert (Hkm : hash_block_size (km_pool k) = 2).
  { vm_compute in Hc. injection Hc as <-. vm_compute in Ek. injection Ek as <-. by vm_compute. }
  assert (kv_cache_groups c = [group (demo_full 2)]) as Hg by (vm_compute in Hc; injection Hc as <-; reflexivity).
  destruct (new_full_manager c 4 2 None true false false false false false None 0 k ["layer"%string] (demo_attention 2)
    (mkFull 64 None None) false Hg) as (_ & _ & m & Hms & Hcls & Hbs); [simpl; lia|exact Ek|].
  destruct (Hrun None true false false false false false None 0%Q k r None 0 false 0 false 0 true) as [k' E].
  - exact Ek.
  - exact E2.
  - rewrite E1. vm_compute. split; reflexivity || discriminate.
  - rewrite E1. lia.
  - intros _. split; rewrite ?Hms.
    + intros x ->%list_elem_of_singleton. by rewrite Hcls.
    + intros x ->%list_elem_of_singleton. fold (km_pool k). rewrite Hkm, Hbs, E1. unfold hashes_at. simpl.
      unfold zlen. rewrite E3. by vm_compute.
    + split; [rewrite E4; split; constructor|]. intros s e h Hx. by rewrite E5, lookup_empty in Hx.
  - reflexivity.
  - lia.
  - lia.
  - exists c, k, r, k'. rewrite E1 in E. split_and!; [exact Hc|exact Hn|exact Ek|reflexivity|exact E].
Defined.
