(* ===== verification/SlotMapping.v ===== *)
(** * The slot mapping of a step: the kernel of [v1/worker/block_table.py]

    What [compute_slot_mapping] stores, in whatever order the programs of the launch
    run, and why no two tokens of a step share a slot. *)

From Stdlib Require Import ZArith Lia.
From stdpp Require Import list numbers.
From S2P Require Import Prelude MathUtils BlockTable.
Local Open Scope Z_scope.

(** ** Specification *)

(** The first token of each request in the batch: the running sums that the runner
    stores in [query_start_loc]. *)
Fixpoint starts_from (a : Z) (batch : list (list Z)) : list Z :=
  match batch with [] => [a] | ps :: batch => a :: starts_from (a + zlen ps) batch end.

(** The slot of position [p] of a request with the blocks [row], on rank [k] of [w]. *)
Definition slot_spec (bs w k il : Z) (row : list Z) (p : Z) : Z :=
  let v := p mod (bs * w) in
  if (v / il) mod w =? k
  then (row !!! Z.to_nat (p / (bs * w))) * bs + (v / (w * il) * il + v mod il)
  else PAD_SLOT_ID.

(** The slots of a batch, the positions of each request listed with its row. *)
Definition slots_spec (bs w k il max : Z) (rows batch : list (list Z)) : list Z :=
  mjoin (zip_with (λ row ps, slot_spec bs w k il row <$> ps) rows batch) ++
  replicate (Z.to_nat (max - zlen (mjoin batch))) PAD_SLOT_ID.

(** ** Stores of consecutive lanes *)

Lemma lanes_seqZ B i : lanes B i = seqZ i B.
Proof. unfold lanes, zrange. rewrite Z.sub_0_r, fmap_add_seqZ. f_equal. lia. Qed.

Lemma range_step_cons a b s : 0 < s → a < b → range_step a b s = a :: range_step (a + s) b s.
Proof.
  intros Hs Hab. unfold range_step, zrange. rewrite !Z.sub_0_r.
  replace (cdiv (b - a) s) with (cdiv (b - (a + s)) s + 1) by (rewrite <-cdiv_add by done; f_equal; lia).
  assert (0 ≤ cdiv (b - (a + s)) s) as Hc.
  { pose proof (cdiv_spec (b - (a + s)) s Hs). nia. }
  rewrite seqZ_cons by lia. simpl. f_equal; [lia|]. replace (Z.succ 0) with (1 + 0) by lia.
  rewrite <-fmap_add_seqZ, <-list_fmap_compose.
  replace (Z.pred (cdiv (b - (a + s)) s + 1)) with (cdiv (b - (a + s)) s) by lia.
  apply list_fmap_ext. intros ? x _. simpl. lia.
Qed.
Lemma range_step_nil a b s : 0 < s → b ≤ a → range_step a b s = [].
Proof.
  intros Hs Hab. unfold range_step, zrange. rewrite seqZ_nil; [done|].
  pose proof (proj2 (cdiv_le_iff (b - a) s 0 Hs)). lia.
Qed.

(** Memory in which the cells from [lo] to [hi] hold [f]. *)
Definition holds (mem : list Z) (f : Z → Z) (lo hi : Z) : Prop :=
  ∀ t, lo ≤ t < hi → mem !! Z.to_nat t = Some (f t).
(** [mem'] is [mem] after stores of [f] only. *)
Definition grows (f : Z → Z) (mem mem' : list Z) : Prop :=
  length mem' = length mem ∧ ∀ t, mem' !! t = mem !! t ∨ mem' !! t = Some (f (Z.of_nat t)).

Lemma grows_refl f mem : grows f mem mem.
Proof. split; auto. Qed.
Lemma grows_trans f m1 m2 m3 : grows f m1 m2 → grows f m2 m3 → grows f m1 m3.
Proof. intros [L1 G1] [L2 G2]. split; [lia|]. intros t. destruct (G2 t) as [->| ->]; auto. Qed.
Lemma grows_holds f m1 m2 lo hi : 0 ≤ lo → grows f m1 m2 → holds m1 f lo hi → holds m2 f lo hi.
Proof.
  intros Hlo [_ G] H t Ht. destruct (G (Z.to_nat t)) as [->| ->]; [by apply H|]. by rewrite Z2Nat.id by lia.
Qed.

Lemma tl_store_ok mem i f : 0 ≤ i < zlen mem →
  ∃ mem', tl_store mem i (f i) = Ok mem' ∧ grows f mem mem' ∧ holds mem' f i (i + 1).
Proof.
  intros Hi. unfold tl_store. rewrite (proj2 (Z.ltb_ge i 0)), (proj2 (Z.leb_gt (zlen mem) i)) by lia. simpl.
  eexists. split; [done|]. unfold zlen in Hi. split.
  - split; [by rewrite length_insert|]. intros t. destruct (decide (t = Z.to_nat i)) as [->|].
    + right. rewrite list_lookup_insert_eq by lia. by rewrite Z2Nat.id by lia.
    + left. by rewrite list_lookup_insert_ne.
  - intros t Ht. replace t with i by lia. by rewrite list_lookup_insert_eq by lia.
Qed.

Lemma tl_stores_ok f hi offs vals mem : Forall2 (λ o v, o < hi → v = f o) offs vals →
  (∀ o, o ∈ offs → 0 ≤ o) → hi ≤ zlen mem →
  ∃ mem', tl_stores mem offs vals (λ o, o <? hi) = Ok mem' ∧ grows f mem mem' ∧
    ∀ o, o ∈ offs → o < hi → mem' !! Z.to_nat o = Some (f o).
Proof.
  intros Hv. revert mem. induction Hv as [|o v offs vals Ho Hv IH]; intros mem Hpos Hhi.
  { exists mem. split; [done|]. split; [apply grows_refl|]. set_solver. }
  assert (∃ m1, (if o <? hi then tl_store mem o v else Ok mem) = Ok m1 ∧ grows f mem m1 ∧
    (o < hi → holds m1 f o (o + 1))) as (m1 & E1 & G1 & H1).
  { destruct (Z.ltb_spec o hi) as [Hlt|]; [|exists mem; split; [done|split; [apply grows_refl|lia]]].
    rewrite (Ho Hlt). assert (0 ≤ o) by (apply Hpos; left).
    destruct (tl_store_ok mem o f) as (m1 & ? & ? & ?); [lia|]. by exists m1. }
  destruct (IH m1) as (m2 & E2 & G2 & H2).
  { intros x Hx. apply Hpos. by right. } { destruct G1 as [L _]. unfold zlen in *. lia. }
  exists m2. simpl. rewrite E1. split; [done|]. split; [by eapply grows_trans|].
  intros x Hx Hlt. apply elem_of_cons in Hx as [->|Hx]; [|by apply H2].
  assert (0 ≤ o) by (apply Hpos; left). apply (grows_holds f m1 m2 o (o + 1)); [done|done|by apply H1|lia].
Qed.

(** ** One program *)

Section programs.
Context (num_tokens max_num_tokens : Z) (query_start_loc positions block_table : list Z).
Context (stride bs w k il B n : Z).
Context (f : Z → Z).
Hypothesis HB : 0 < B.

Local Abbreviation lane := (slot_lane positions block_table bs w k il PAD_SLOT_ID).
Local Abbreviation program :=
  (_compute_slot_mapping_kernel num_tokens max_num_tokens query_start_loc positions block_table stride bs w k il
     PAD_SLOT_ID B n).

(** A program does its work: it stores [f] on its range of tokens and nothing else. *)
Definition fills (p lo hi : Z) : Prop :=
  ∀ mem, zlen mem = max_num_tokens → ∃ mem', program p mem = Ok mem' ∧ grows f mem mem' ∧ holds mem' f lo hi.

(** The lanes of one iteration. *)
Lemma chunk_ok i hi vals mem : 0 ≤ i → hi ≤ zlen mem →
  Forall2 (λ o v, o < hi → v = f o) (seqZ i B) vals →
  ∃ mem', tl_stores mem (lanes B i) vals (λ o, o <? hi) = Ok mem' ∧ grows f mem mem' ∧
    holds mem' f i (Z.min (i + B) hi).
Proof.
  intros Hi Hhi Hv. rewrite lanes_seqZ.
  destruct (tl_stores_ok f hi (seqZ i B) vals mem) as (mem' & E & G & H); [done| |done|].
  { intros o Ho%elem_of_seqZ. lia. }
  exists mem'. split; [done|]. split; [done|]. intros t Ht. apply H; [apply elem_of_seqZ; lia|lia].
Qed.

Lemma holds_app mem lo mid hi : holds mem f lo mid → (mid < hi → holds mem f mid hi) → holds mem f lo hi.
Proof. intros H1 H2 t Ht. destruct (Z_lt_dec t mid); [apply H1; lia|]. apply H2; lia. Qed.

Lemma pad_loop_ok lo mem : 0 ≤ lo → zlen mem = max_num_tokens → (∀ t, lo ≤ t < max_num_tokens → f t = PAD_SLOT_ID) →
  ∃ mem', pad_loop max_num_tokens PAD_SLOT_ID B (range_step lo max_num_tokens B) mem = Ok mem' ∧
    grows f mem mem' ∧ holds mem' f lo max_num_tokens.
Proof.
  remember (Z.to_nat (max_num_tokens - lo)) as fuel eqn:Hf. revert lo mem Hf.
  induction (lt_wf fuel) as [fuel _ IH]. intros lo mem -> Hlo Hm Hpad.
  destruct (Z_lt_le_dec lo max_num_tokens) as [Hlt|Hge].
  2: { rewrite range_step_nil by done. exists mem. split; [done|]. split; [apply grows_refl|]. intros t; lia. }
  rewrite range_step_cons by done. simpl.
  destruct (chunk_ok lo max_num_tokens (const PAD_SLOT_ID <$> lanes B lo) mem) as (m1 & E1 & G1 & H1); [done|lia| |].
  { rewrite lanes_seqZ. apply Forall2_fmap_r, Forall2_same_length_lookup. split; [done|]. intros i o o' Ho Ho' Hoh.
    simplify_eq. simpl. symmetry. apply Hpad. apply lookup_seqZ in Ho. lia. }
  rewrite E1. simpl. assert (zlen m1 = max_num_tokens) by (destruct G1; unfold zlen in *; lia).
  edestruct (IH (Z.to_nat (max_num_tokens - (lo + B))) ltac:(lia) (lo + B) m1 eq_refl ltac:(lia) ltac:(done))
    as (m2 & E2 & G2 & H2). { intros t Ht. apply Hpad. lia. }
  exists m2. split; [done|]. split; [by eapply grows_trans|].
  eapply holds_app; [eapply grows_holds; [done|exact G2|exact H1]|]. intros Hlt'.
  rewrite Z.min_l by lia. done.
Qed.

Lemma slot_loop_ok row_offset lo hi mem : 0 ≤ lo → hi ≤ max_num_tokens → zlen mem = max_num_tokens →
  (∀ o, lo ≤ o < hi → lane row_offset hi o = Ok (f o)) →
  (lo < hi → ∀ o, hi ≤ o → ∃ x, lane row_offset hi o = Ok x) →
  ∃ mem', slot_loop positions block_table bs w k il PAD_SLOT_ID B row_offset hi (range_step lo hi B) mem = Ok mem' ∧
    grows f mem mem' ∧ holds mem' f lo hi.
Proof.
  remember (Z.to_nat (hi - lo)) as fuel eqn:Hf. revert lo mem Hf.
  induction (lt_wf fuel) as [fuel _ IH]. intros lo mem -> Hlo Hhi Hm Hlane Hmask.
  destruct (Z_lt_le_dec lo hi) as [Hlt|Hge].
  2: { rewrite range_step_nil by done. exists mem. split; [done|]. split; [apply grows_refl|]. intros t; lia. }
  rewrite range_step_cons by done. simpl.
  destruct (result_map_ok (lane row_offset hi) (lanes B lo)) as [vals Hvals].
  { intros o. rewrite lanes_seqZ. intros Ho%elem_of_seqZ. destruct (Z_lt_le_dec o hi); [|by apply Hmask].
    exists (f o). apply Hlane. lia. }
  rewrite Hvals. simpl. apply result_map_Forall2 in Hvals. rewrite lanes_seqZ in Hvals.
  destruct (chunk_ok lo hi vals mem) as (m1 & E1 & G1 & H1); [done|lia| |].
  { apply Forall2_same_length_lookup. split; [by eapply Forall2_length|]. intros i o v Ho Hv Hoh.
    pose proof (Forall2_lookup_lr _ _ _ _ _ _ Hvals Ho Hv) as Ev. cbv beta in Ev. apply lookup_seqZ in Ho.
    rewrite Hlane in Ev by lia. by injection Ev. }
  rewrite E1. simpl. assert (zlen m1 = max_num_tokens) by (destruct G1; unfold zlen in *; lia).
  edestruct (IH (Z.to_nat (hi - (lo + B))) ltac:(lia) (lo + B) m1 eq_refl ltac:(lia) ltac:(done) ltac:(done))
    as (m2 & E2 & G2 & H2). { intros o Ho. apply Hlane. lia. } { intros _ o Ho. by apply Hmask. }
  exists m2. split; [done|]. split; [by eapply grows_trans|].
  eapply holds_app; [eapply grows_holds; [done|exact G2|exact H1]|]. intros Hlt'.
  rewrite Z.min_l by lia. done.
Qed.

(** ** The launch *)

(** Whatever the order, the stores of all the programs are there at the end. *)
Lemma launch_fills ps ranges mem :
  zlen mem = max_num_tokens → Forall2 (λ p r, 0 ≤ r.1 ∧ fills p r.1 r.2) ps ranges →
  ∃ mem', launch num_tokens max_num_tokens query_start_loc positions block_table stride bs w k il PAD_SLOT_ID B n
    ps mem = Ok mem' ∧ grows f mem mem' ∧ Forall (λ r, holds mem' f r.1 r.2) ranges.
Proof.
  intros Hm Hps. revert mem Hm. induction Hps as [|p [lo hi] ps ranges [Hlo Hp] Hps IH]; intros mem Hm.
  { exists mem. split; [done|]. split; [apply grows_refl|constructor]. }
  destruct (Hp mem Hm) as (m1 & E1 & G1 & H1).
  destruct (IH m1) as (m2 & E2 & G2 & H2). { destruct G1. unfold zlen in *. lia. }
  exists m2. simpl. rewrite E1. split; [done|]. split; [by eapply grows_trans|].
  constructor; [|done]. simpl in *. by eapply grows_holds.
Qed.
End programs.

(** ** A batch *)

Lemma zlen_mjoin_cons {A} (l : list A) ls : zlen (mjoin (l :: ls)) = zlen l + zlen (mjoin ls).
Proof. simpl. by rewrite zlen_app. Qed.

Lemma starts_last a batch : ∀ r ps, batch !! r = Some ps →
  starts_from a batch !! r = Some (a + zlen (mjoin (take r batch))) ∧
  starts_from a batch !! S r = Some (a + zlen (mjoin (take r batch)) + zlen ps).
Proof.
  revert a. induction batch as [|qs batch IH]; intros a r ps Hps; [done|]. destruct r as [|r].
  - injection Hps as ->. simpl. split; [f_equal; unfold zlen; simpl; lia|]. destruct batch; simpl; do 2 f_equal; unfold zlen; simpl; lia.
  - simpl in Hps. destruct (IH (a + zlen qs) r ps Hps) as [E1 E2]. simpl take. rewrite zlen_mjoin_cons.
    change (starts_from a (qs :: batch)) with (a :: starts_from (a + zlen qs) batch).
    change (starts_from (a + zlen qs) batch !! r = Some (a + (zlen qs + zlen (mjoin (take r batch)))) ∧
      starts_from (a + zlen qs) batch !! S r = Some (a + (zlen qs + zlen (mjoin (take r batch))) + zlen ps)).
    rewrite E1, E2. split; f_equal; lia.
Qed.

(** Every token belongs to a request. *)
Lemma token_request {A} (batch : list (list A)) : ∀ t, 0 ≤ t < zlen (mjoin batch) →
  ∃ r ps, batch !! r = Some ps ∧ 0 ≤ t - zlen (mjoin (take r batch)) < zlen ps.
Proof.
  induction batch as [|ps batch IH]; intros t Ht; [unfold zlen in Ht; simpl in Ht; lia|].
  rewrite zlen_mjoin_cons in Ht. destruct (Z_lt_le_dec t (zlen ps)).
  - exists 0%nat, ps. split; [done|]. unfold zlen in *. simpl. lia.
  - destruct (IH (t - zlen ps)) as (r & qs & Hq & Hr); [lia|]. exists (S r), qs. split; [done|].
    simpl take. rewrite zlen_mjoin_cons. lia.
Qed.

(** Reading a concatenation. *)
Lemma mjoin_lookup {A} (ls : list (list A)) r l i x : ls !! r = Some l → l !! i = Some x →
  mjoin ls !! (length (mjoin (take r ls)) + i)%nat = Some x.
Proof.
  intros Hl Hx. assert (mjoin ls = mjoin (take r ls) ++ l ++ mjoin (drop (S r) ls)) as ->.
  { transitivity (mjoin (take r ls ++ l :: drop (S r) ls)); [by rewrite take_drop_middle|]. by rewrite join_app. }
  rewrite lookup_app_r by lia.
  replace (length (mjoin (take r ls)) + i - length (mjoin (take r ls)))%nat with i by lia.
  by apply lookup_app_l_Some.
Qed.
Lemma length_mjoin_uniform {A} (ls : list (list A)) w : Forall (λ l, zlen l = w) ls → zlen (mjoin ls) = w * zlen ls.
Proof.
  induction 1 as [|l ls Hl Hls IH]; [unfold zlen; simpl; lia|]. rewrite zlen_mjoin_cons, IH, zlen_cons. lia.
Qed.
Lemma length_zip_slots (F : list Z → Z → Z) rows batch : (length batch ≤ length rows)%nat →
  zlen (mjoin (zip_with (λ row ps, F row <$> ps) rows batch)) = zlen (mjoin batch).
Proof.
  revert rows. induction batch as [|ps batch IH]; intros [|row rows] Hl; simpl in Hl; try done; try lia.
  simpl zip_with. rewrite !zlen_mjoin_cons, IH by lia. unfold zlen. by rewrite length_fmap.
Qed.

Section batch.
Context (gpu rows batch : list (list Z)) (stride bs w k il max B : Z).
Hypothesis HB : 0 < B.
Hypothesis Hbs : 0 < bs.
Hypothesis Hw : 0 < w.
Hypothesis Hil : 0 < il.
Hypothesis Hgpu : Forall (λ arr, zlen arr = stride) gpu.
Hypothesis Hrows : ∀ r ps, batch !! r = Some ps → ∃ row arr, rows !! r = Some row ∧ gpu !! r = Some arr ∧
  row `prefix_of` arr ∧ ∀ p, p ∈ ps → 0 ≤ p < zlen row * (bs * w).
Hypothesis Hmax : zlen (mjoin batch) ≤ max.

Local Abbreviation F := (slot_spec bs w k il).
Local Abbreviation slots := (slots_spec bs w k il max rows batch).
Local Abbreviation lane := (slot_lane (mjoin batch) (mjoin gpu) bs w k il PAD_SLOT_ID).
Local Abbreviation expected := (λ t : Z, slots !!! Z.to_nat t).

Lemma batch_rows : (length batch ≤ length rows)%nat.
Proof.
  destruct (decide (length batch = 0)%nat); [lia|]. destruct (lookup_lt_is_Some_2 batch (length batch - 1)) as [ps Hps]; [lia|].
  destruct (Hrows _ _ Hps) as (row & _ & Hr & _). apply lookup_lt_Some in Hr. lia.
Qed.

Lemma zlen_slots : zlen slots = max.
Proof.
  unfold slots_spec. rewrite zlen_app, (length_zip_slots F) by apply batch_rows.
  unfold zlen at 2. rewrite length_replicate. pose proof (zlen_nonneg (mjoin batch)). lia.
Qed.

(** The device memory of a row. *)
Lemma flat_row r arr i x : gpu !! r = Some arr → arr !! i = Some x →
  tl_load (mjoin gpu) (Z.of_nat r * stride + Z.of_nat i) = Ok x.
Proof.
  intros Hr Hx. unfold tl_load. assert (zlen arr = stride) as Ha by (by eapply Forall_lookup_1 in Hgpu).
  pose proof (zlen_nonneg arr). rewrite (proj2 (Z.ltb_ge _ 0)) by lia.
  pose proof (mjoin_lookup gpu r arr i x Hr Hx) as Hj.
  assert (zlen (mjoin (take r gpu)) = stride * Z.of_nat r) as Hl.
  { rewrite (length_mjoin_uniform _ stride) by (by apply Forall_take). unfold zlen. rewrite length_take.
    apply lookup_lt_Some in Hr. f_equal. lia. }
  unfold zlen in Hl. replace (Z.to_nat _) with (length (mjoin (take r gpu)) + i)%nat by lia. by rewrite Hj.
Qed.

Lemma slot_lane_spec row_offset hi o p x : o < hi → tl_load (mjoin batch) o = Ok p → 0 ≤ p →
  tl_load (mjoin gpu) (row_offset + p / (bs * w)) = Ok x →
  ∀ row, row !! Z.to_nat (p / (bs * w)) = Some x → lane row_offset hi o = Ok (F row p).
Proof.
  intros Ho Hp Hpos Hx row Hrow. unfold slot_lane. rewrite (proj2 (Z.ltb_lt o hi)) by done. rewrite Hp.
  cbn [mbind result_bind]. assert (0 < bs * w) by lia. rewrite Z.quot_div_nonneg by lia. rewrite Hx. cbn [mbind result_bind].
  assert (virtual_offset (bs * w) p = p mod (bs * w)) as ->.
  { unfold virtual_offset. rewrite Z.quot_div_nonneg, Z.mod_eq by lia. lia. }
  pose proof (Z.mod_pos_bound p (bs * w) ltac:(lia)). unfold is_local, local_offset, slot_spec.
  rewrite !Z.quot_div_nonneg by lia. assert (0 ≤ p mod (bs * w) / il) by (apply Z.div_pos; lia).
  rewrite !Z.rem_mod_nonneg by lia. by rewrite (list_lookup_total_correct _ _ _ Hrow).
Qed.

(** Where the specification has the slots of request [r]. *)
Lemma slots_lookup r ps row j p : batch !! r = Some ps → rows !! r = Some row → ps !! j = Some p →
  mjoin (zip_with (λ row ps, F row <$> ps) rows batch) !! (length (mjoin (take r batch)) + j)%nat = Some (F row p).
Proof.
  intros Hps Hrow Hp. pose proof (length_zip_slots F (take r rows) (take r batch)) as Hl.
  rewrite <-zip_with_take in Hl. rewrite !length_take in Hl. pose proof batch_rows. specialize (Hl ltac:(lia)).
  unfold zlen in Hl. apply Nat2Z.inj in Hl. rewrite <-Hl.
  apply (mjoin_lookup _ r (F row <$> ps)); [|by rewrite list_lookup_fmap, Hp].
  by rewrite lookup_zip_with, Hrow, Hps.
Qed.

(** The lanes of request [r]. *)
Lemma request_lanes r ps : batch !! r = Some ps → let lo := zlen (mjoin (take r batch)) in
  let hi := lo + zlen ps in
  (∀ o, lo ≤ o < hi → lane (Z.of_nat r * stride) hi o = Ok (expected o)) ∧
  (lo < hi → ∀ o, hi ≤ o → ∃ x, lane (Z.of_nat r * stride) hi o = Ok x) ∧ 0 ≤ lo ∧ hi ≤ max.
Proof.
  intros Hps lo hi. destruct (Hrows r ps Hps) as (row & arr & Hrow & Harr & [rest ->] & Hpos).
  assert (∀ p, p ∈ ps → ∃ x, row !! Z.to_nat (p / (bs * w)) = Some x ∧ 0 ≤ p ∧
    tl_load (mjoin gpu) (Z.of_nat r * stride + p / (bs * w)) = Ok x) as Hload.
  { intros p Hp. destruct (Hpos p Hp) as [Hp0 Hp1]. assert (0 ≤ p / (bs * w) < zlen row) as Hd.
    { split; [apply Z.div_pos; lia|]. apply Z.div_lt_upper_bound; lia. }
    destruct (lookup_lt_is_Some_2 row (Z.to_nat (p / (bs * w)))) as [x Hx]; [unfold zlen in Hd; lia|].
    exists x. split; [done|]. split; [done|]. rewrite <-(Z2Nat.id (p / (bs * w))) by lia.
    eapply flat_row; [done|]. by apply lookup_app_l_Some. }
  split_and!.
  - intros o Ho. destruct (lookup_lt_is_Some_2 ps (Z.to_nat (o - lo))) as [p Hp]; [unfold zlen in *; lia|].
    destruct (Hload p) as (x & Hx & Hp0 & Hl); [by eapply list_elem_of_lookup_2|].
    assert (Z.to_nat o = length (mjoin (take r batch)) + Z.to_nat (o - lo))%nat as Hoz by (unfold lo, zlen in *; lia).
    rewrite (slot_lane_spec _ _ _ p x) with (row := row); [|lia| |done|done|done].
    + f_equal. symmetry. apply list_lookup_total_correct. unfold slots_spec. apply lookup_app_l_Some.
      rewrite Hoz. by apply (slots_lookup r ps).
    + unfold tl_load. rewrite (proj2 (Z.ltb_ge o 0)) by (unfold lo, zlen in Ho; lia). rewrite Hoz.
      by rewrite (mjoin_lookup batch r ps _ p Hps Hp).
  - intros Hlt o Ho. unfold slot_lane. rewrite (proj2 (Z.ltb_ge o hi)) by done. cbn [mbind result_bind].
    destruct ps as [|p ps]; [unfold hi, zlen in Hlt; simpl in Hlt; lia|]. specialize (Hpos p ltac:(left)).
    destruct row as [|x row]; [unfold zlen in Hpos; simpl in Hpos; lia|].
    rewrite Z.quot_0_l by lia. pose proof (flat_row r ((x :: row) ++ rest) 0 x Harr eq_refl) as Hl.
    change (Z.of_nat 0) with 0 in Hl. rewrite Hl. by eexists.
  - unfold lo, zlen. lia.
  - pose proof (take_drop_middle batch r ps Hps) as Hb. apply (f_equal (λ l, zlen (mjoin l))) in Hb.
    rewrite join_app, zlen_app, zlen_mjoin_cons in Hb. pose proof (zlen_nonneg (mjoin (drop (S r) batch))). unfold hi, lo. lia.
Qed.

(** The range of tokens of program [p]. *)
Definition program_range (p : Z) : Z * Z :=
  if p =? zlen batch then (zlen (mjoin batch), max)
  else let lo := zlen (mjoin (take (Z.to_nat p) batch)) in (lo, lo + zlen (batch !!! Z.to_nat p)).

Lemma program_fills p : 0 ≤ p ≤ zlen batch →
  0 ≤ (program_range p).1 ∧
  fills (zlen (mjoin batch)) max (starts_from 0 batch) (mjoin batch) (mjoin gpu) stride bs w k il B (zlen batch + 1)
    expected p (program_range p).1 (program_range p).2.
Proof.
  intros Hp. unfold program_range, fills, _compute_slot_mapping_kernel. rewrite Z.add_simpl_r.
  destruct (Z.eqb_spec p (zlen batch)) as [->|Hne]; simpl.
  - split; [apply zlen_nonneg|]. intros mem Hm. apply pad_loop_ok; [done|apply zlen_nonneg|done|].
    intros t Ht. apply list_lookup_total_correct. unfold slots_spec.
    pose proof (length_zip_slots F rows batch batch_rows) as Hl. pose proof (zlen_nonneg (mjoin batch)).
    unfold zlen in *. rewrite lookup_app_r by lia. apply lookup_replicate. split; [done|lia].
  - destruct (lookup_lt_is_Some_2 batch (Z.to_nat p)) as [ps Hps]; [unfold zlen in *; lia|].
    rewrite (list_lookup_total_correct _ _ _ Hps).
    destruct (request_lanes (Z.to_nat p) ps Hps) as (H1 & H2 & H3 & H4). rewrite Z2Nat.id in * by lia.
    split; [done|]. intros mem Hm. destruct (starts_last 0 batch (Z.to_nat p) ps Hps) as [E1 E2].
    unfold tl_load at 1 2. rewrite (proj2 (Z.ltb_ge p 0)), (proj2 (Z.ltb_ge (p + 1) 0)) by lia.
    replace (Z.to_nat (p + 1)) with (S (Z.to_nat p)) by lia. rewrite E1, E2. simpl.
    by apply (slot_loop_ok max).
Qed.

(** The launch, its programs in any order. *)
Lemma launch_ok programs mem : programs ≡ₚ zrange 0 (zlen batch + 1) → zlen mem = max →
  launch (zlen (mjoin batch)) max (starts_from 0 batch) (mjoin batch) (mjoin gpu) stride bs w k il
    PAD_SLOT_ID B (zlen batch + 1) programs mem = Ok slots.
Proof.
  intros Hps Hm. assert (∀ p, p ∈ programs ↔ 0 ≤ p ≤ zlen batch) as Hin.
  { intros p. rewrite Hps. unfold zrange. rewrite elem_of_seqZ. lia. }
  destruct (launch_fills (zlen (mjoin batch)) max (starts_from 0 batch) (mjoin batch) (mjoin gpu) stride bs w k il B
    (zlen batch + 1) expected programs (program_range <$> programs) mem Hm) as (mem' & E & [Hl _] & H).
  { apply Forall2_fmap_r, Forall2_same_length_lookup. split; [done|]. intros i p p' Hp Hp'. simplify_eq.
    apply program_fills, Hin. by eapply list_elem_of_lookup_2. }
  rewrite E. f_equal. apply Forall_fmap in H. rewrite Forall_forall in H.
  assert (∀ t, 0 ≤ t < max → ∃ p, p ∈ programs ∧ (program_range p).1 ≤ t < (program_range p).2) as Hcov.
  { intros t Ht. destruct (Z_lt_le_dec t (zlen (mjoin batch))) as [Hlt|].
    - destruct (token_request batch t) as (r & ps & Hps' & Hr); [lia|]. exists (Z.of_nat r).
      pose proof (lookup_lt_Some _ _ _ Hps'). rewrite Hin. unfold program_range, zlen in *.
      destruct (Z.eqb_spec (Z.of_nat r) (Z.of_nat (length batch))); [lia|]. simpl.
      rewrite Nat2Z.id, (list_lookup_total_correct _ _ _ Hps'). lia.
    - exists (zlen batch). rewrite Hin. unfold program_range. rewrite Z.eqb_refl. simpl. pose proof (zlen_nonneg batch). lia. }
  apply list_eq_same_length with (n := length mem'); [|done|].
  { pose proof zlen_slots. unfold zlen in *. lia. }
  intros i x y Hi Hx Hy. unfold zlen in *. destruct (Hcov (Z.of_nat i)) as (p & Hp & Hr); [lia|].
  specialize (H p Hp (Z.of_nat i) Hr). cbv beta in H. rewrite !Nat2Z.id, (list_lookup_total_correct _ _ _ Hy) in H. congruence.
Qed.
End batch.

(** ** Slots are private *)

Section offsets.
Context (bs w il : Z).
Hypothesis Hw : 0 < w.
Hypothesis Hil : 0 < il.
Hypothesis Hbs : 0 < bs.
Hypothesis Hdiv : (il | bs).

Definition offset (v : Z) : Z := v / (w * il) * il + v mod il.

(** An offset on a rank gives back the position in the block. *)
Lemma offset_position v : 0 ≤ v → v = (v / (w * il) * w + (v / il) mod w) * il + v mod il.
Proof.
  intros Hv. rewrite (Z.mul_comm w il), <-Z.div_div by lia.
  pose proof (Z.div_mod v il ltac:(lia)). pose proof (Z.div_mod (v / il) w ltac:(lia)). nia.
Qed.
Lemma offset_bound v : 0 ≤ v < bs * w → 0 ≤ offset v < bs.
Proof.
  intros Hv. destruct Hdiv as [m Hm]. unfold offset. pose proof (Z.mod_pos_bound v il Hil).
  assert (0 ≤ v / (w * il)) by (apply Z.div_pos; lia).
  assert (v / (w * il) < m) by (apply Z.div_lt_upper_bound; nia). nia.
Qed.
Lemma offset_inj v v' : 0 ≤ v → 0 ≤ v' → (v / il) mod w = (v' / il) mod w → offset v = offset v' → v = v'.
Proof.
  intros Hv Hv' Hr Ho. rewrite (offset_position v), (offset_position v') by done. rewrite Hr.
  pose proof (Z.mod_pos_bound v il Hil). pose proof (Z.mod_pos_bound v' il Hil). unfold offset in Ho.
  assert (v / (w * il) = v' / (w * il) ∧ v mod il = v' mod il) as [-> ->]; [|done].
  apply (Z.div_mod_unique il); [lia..|]. nia.
Qed.

(** Equal slots are the same place of the same block. *)
Lemma slot_spec_inj k row row' p p' : 0 ≤ p → 0 ≤ p' →
  slot_spec bs w k il row p = slot_spec bs w k il row' p' →
  (p mod (bs * w) / il) mod w = k → (p' mod (bs * w) / il) mod w = k →
  row !!! Z.to_nat (p / (bs * w)) = row' !!! Z.to_nat (p' / (bs * w)) ∧ p mod (bs * w) = p' mod (bs * w).
Proof.
  intros Hp Hp' E Hk Hk'. unfold slot_spec in E. rewrite Hk, Hk', Z.eqb_refl in E.
  pose proof (Z.mod_pos_bound p (bs * w) ltac:(lia)) as Hm. pose proof (Z.mod_pos_bound p' (bs * w) ltac:(lia)) as Hm'.
  pose proof (offset_bound _ Hm) as Hb. pose proof (offset_bound _ Hm') as Hb'.
  set (a := row !!! _) in *. set (b := row' !!! _) in *.
  change (a * bs + offset (p mod (bs * w)) = b * bs + offset (p' mod (bs * w))) in E.
  destruct (Z.div_mod_unique bs a b (offset (p mod (bs * w))) (offset (p' mod (bs * w)))) as [-> Ho]; [lia..|nia|].
  split; [done|]. eapply offset_inj; [lia|lia|congruence|done].
Qed.
End offsets.

(** Position [p] is kept on rank [k]. *)
Definition on_rank (bs w k il p : Z) : Prop := (p mod (bs * w) / il) mod w = k.
(** Block and offset of a position. *)
Definition place (bs w : Z) (row : list Z) (p : Z) : Z * Z :=
  (row !!! Z.to_nat (p / (bs * w)), p mod (bs * w)).

(** The positions of request [r] fit in its row. *)
Definition batch_fits (bs w : Z) (rows batch : list (list Z)) : Prop :=
  ∀ r ps, batch !! r = Some ps → ∃ row, rows !! r = Some row ∧ ∀ p, p ∈ ps → 0 ≤ p < zlen row * (bs * w).

(** Each token is stored on one rank, in its block, and at a slot no other place has. *)
Definition slots_private (bs w k il : Z) (rows batch : list (list Z)) : Prop :=
  ∀ r ps row p, batch !! r = Some ps → rows !! r = Some row → p ∈ ps →
    (∃ k', 0 ≤ k' < w ∧ ∀ j, on_rank bs w j il p ↔ j = k') ∧
    (on_rank bs w k il p → let b := (place bs w row p).1 in b * bs ≤ slot_spec bs w k il row p < (b + 1) * bs) ∧
    ∀ r' ps' row' p', batch !! r' = Some ps' → rows !! r' = Some row' → p' ∈ ps' →
      on_rank bs w k il p → on_rank bs w k il p' →
      slot_spec bs w k il row p = slot_spec bs w k il row' p' → place bs w row p = place bs w row' p'.

Lemma slots_private_ok bs w k il rows batch : 0 < bs → 0 < w → 0 < il → (il | bs) → batch_fits bs w rows batch →
  slots_private bs w k il rows batch.
Proof.
  intros Hbs Hw Hil Hdiv Hfit r ps row p Hps Hrow Hp. destruct (Hfit r ps Hps) as (? & ? & Hpos). simplify_eq.
  pose proof (Hpos p Hp) as Hp0. pose proof (Z.mod_pos_bound p (bs * w) ltac:(lia)) as Hm. split_and!.
  - exists ((p mod (bs * w) / il) mod w). split; [by apply Z.mod_pos_bound|]. intros j. unfold on_rank. split; congruence.
  - intros Hk. unfold slot_spec, place. rewrite Hk, Z.eqb_refl. simpl.
    pose proof (offset_bound bs w il Hw Hil Hbs Hdiv _ Hm) as Hb. unfold offset in Hb. nia.
  - intros r' ps' row' p' Hps' Hrow' Hp' Hk Hk' E. destruct (Hfit r' ps' Hps') as (? & ? & Hpos'). simplify_eq.
    pose proof (Hpos' p' Hp'). unfold place.
    destruct (slot_spec_inj bs w il Hw Hil Hbs Hdiv k row row' p p') as [-> ->]; [lia|lia|done..].
Qed.

Lemma commit_then_map t g batch : table_ok t g → 0 < bt_block_size t → 0 < total_cp_world_size t →
  0 < cp_kv_cache_interleave_size t → zlen (mjoin batch) ≤ bt_max_num_batched_tokens t →
  batch_fits (bt_block_size t) (total_cp_world_size t) (g_rows g) batch →
  ∃ t1, commit_block_table (zlen batch) t = Ok (tt, t1) ∧
    ∀ programs, programs ≡ₚ zrange 0 (zlen batch + 1) →
      launch_slot_mapping t1 (zlen batch) (starts_from 0 batch) (mjoin batch) programs =
      Ok (slots_spec (bt_block_size t) (total_cp_world_size t) (total_cp_rank t) (cp_kv_cache_interleave_size t)
            (bt_max_num_batched_tokens t) (g_rows g) batch).
Proof.
  intros Ht Hbs Hw Hil Hmax Hfit. assert (length batch ≤ length (g_rows g))%nat as Hn.
  { destruct (decide (length batch = 0)%nat); [lia|].
    destruct (lookup_lt_is_Some_2 batch (length batch - 1)) as [ps Hps]; [lia|].
    destruct (Hfit _ _ Hps) as (row & Hr & _). apply lookup_lt_Some in Hr. lia. }
  destruct (commit_ok t g (length batch) Ht Hn) as (t1 & E & Ht1 & Hg & Hnp). exists t1. split; [done|].
  intros programs Hps. pose proof (ok_slots _ _ Ht) as Hs. pose proof (ok_width _ _ Ht) as Hwd.
  destruct (ok_gpu _ _ Ht1) as [_ Hgw]. injection E as E. subst t1. apply (launch_ok _ (g_rows g)); simpl; try done.
  - by rewrite Hwd.
  - intros r ps Hr. destruct (Hfit r ps Hr) as (row & Hrow & Hp).
    destruct (table_row t g r Ht (lookup_lt_Some _ _ _ Hrow)) as (arr & Ha & _ & _ & Hpre & Hl & _).
    rewrite (list_lookup_total_correct _ _ _ Hrow) in Hpre. exists row, arr. split_and!; try done.
    simpl in Hg. rewrite Hg. apply lookup_lt_Some in Hr. rewrite lookup_app_l by (rewrite length_take; lia).
    by rewrite lookup_take_lt.
Qed.

(** C11. Storing the tokens of a step. In every state the row operations lead to, for a
    batch whose positions fit in the rows of their requests, a commit and
    [compute_slot_mapping] succeed; all accesses of the kernel are in bounds; and in
    whatever order the programs of the launch run, the slots are the specified ones, the
    rest being padding. If the interleave size divides the block size of the kernel, each
    token is stored on exactly one rank, in its own block, and two tokens have the same
    slot only if they are the same position of the same block. *)
Theorem slots_never_collide n len tokens bss kbss mb il pcp dcp ts ops ts' i t g batch :
  new_multi_group n len tokens bss kbss mb il pcp dcp = Ok ts →
  (∀ t, t ∈ ts → bt_max_num_blocks_per_req t < 2 ^ 31) →
  ops_fit ops (blank n <$> ts) = true → run_ops ops ts = Ok (tt, ts') →
  ts' !! i = Some t → groups_run ops (blank n <$> ts) !! i = Some g →
  let bs := bt_block_size t in let w := total_cp_world_size t in let k := total_cp_rank t in
  let il := cp_kv_cache_interleave_size t in
  0 < bs → 0 < w → 0 < il → zlen (mjoin batch) ≤ bt_max_num_batched_tokens t →
  batch_fits bs w (g_rows g) batch →
  (∃ t1 t2, commit_block_table (zlen batch) t = Ok (tt, t1) ∧
     compute_slot_mapping (zlen batch) (starts_from 0 batch) (mjoin batch) t1 = Ok (tt, t2) ∧
     slot_mapping t2 = slots_spec bs w k il (bt_max_num_batched_tokens t) (g_rows g) batch ∧
     ∀ programs, programs ≡ₚ zrange 0 (zlen batch + 1) →
       launch_slot_mapping t1 (zlen batch) (starts_from 0 batch) (mjoin batch) programs = Ok (slot_mapping t2)) ∧
  ((il | bs) → slots_private bs w k il (g_rows g) batch).
Proof.
  intros E Hwd Hfit Er Ht Hg bs w k il' Hbs Hw Hil Hmax Hb. split; [|intros Hdiv; by apply slots_private_ok].
  destruct (run_ops_ok ops ts _ (new_multi_group_ok _ _ _ _ _ _ _ _ _ _ E Hwd) Hfit) as (ts2 & Er' & Hok).
  rewrite Er in Er'. injection Er' as <-. pose proof (Forall2_lookup_lr _ _ _ _ _ _ Hok Ht Hg) as Htg.
  destruct (commit_then_map t g batch Htg) as (t1 & E1 & Hl); [done..|]. exists t1. eexists. split; [done|].
  unfold compute_slot_mapping. rewrite (Hl (zrange 0 (zlen batch + 1))) by done. split; [done|]. split; [done|].
  exact Hl.
Qed.

(** Two ranks and an interleave size of 8: a request at position 31 and one that
    computes its first 3 tokens. *)
Definition two_ranks : MultiGroupBlockTable :=
  Eval vm_compute in match new_multi_group 2 64 8 [16] [16] None 8 None (Some (2, 0)) with Ok ts => ts | Err _ => [] end.
Definition two_rows : list row_op := [OAdd [[4; 7]] 0; OAdd [[5]] 1].
Definition two_requests : MultiGroupBlockTable :=
  Eval vm_compute in match run_ops two_rows two_ranks with Ok (_, ts) => ts | Err _ => [] end.

Lemma slots_never_collide_witness : ∃ t t1 t2, two_requests = [t] ∧
  commit_block_table 2 t = Ok (tt, t1) ∧
  compute_slot_mapping 2 [0; 2; 5] [31; 32; 0; 1; 8] t1 = Ok (tt, t2) ∧
  slot_mapping t2 = [-1; 112; 80; 81; -1; -1; -1; -1] ∧
  slots_private 16 2 0 8 [[4; 7]; [5]] [[31; 32]; [0; 1; 8]].
Proof.
  destruct two_requests as [|t [|? ?]] eqn:Et; [discriminate Et| |discriminate Et]. injection Et as Et.
  destruct (slots_never_collide 2 64 8 [16] [16] None 8 None (Some (2, 0)) two_ranks two_rows [t] 0 t
    (Group 1 8 [[4; 7]; [5]]) [[31; 32]; [0; 1; 8]]) as [(t1 & t2 & E1 & E2 & E3 & _) Hp]; subst t.
  - vm_compute. reflexivity.
  - apply Forall_forall. repeat constructor; vm_compute; reflexivity.
  - vm_compute. reflexivity.
  - vm_compute. reflexivity.
  - reflexivity.
  - vm_compute. reflexivity.
  - reflexivity.
  - reflexivity.
  - reflexivity.
  - vm_compute. discriminate.
  - intros [|[|r]] ps Hps; simplify_eq/=; eexists; (split; [reflexivity|]);
      intros p Hp; rewrite ?elem_of_cons, ?elem_of_nil in Hp; vm_compute; intuition subst; done.
  - do 3 eexists. split; [reflexivity|]. split; [exact E1|]. split; [exact E2|].
    split; [rewrite E3; vm_compute; reflexivity|]. apply Hp. exists 2. reflexivity.
Defined.

(** The interleave size has to divide the block size of the kernel. It is checked against
    the block size of the manager: with blocks of 32 tokens split for a 16-token kernel
    and an interleave size of 32, positions 16 and 32 of one request, both kept on rank 0,
    get the same slot. *)
Lemma split_blocks_collide : ∃ t t', new_block_table 32 1 2 8 16 32 None (Some (2, 0)) = Ok t ∧
  32 mod cp_kv_cache_interleave_size t = 0 ∧ on_rank 16 2 0 32 16 ∧ on_rank 16 2 0 32 32 ∧
  (add_row [0; 1] 0;; commit_block_table 1;; compute_slot_mapping 1 [0; 2] [16; 32]) t = Ok (tt, t') ∧
  take 2 (slot_mapping t') = [16; 16].
Proof. do 2 eexists. split; [reflexivity|]. do 3 (split; [reflexivity|]). split; [vm_compute; reflexivity|reflexivity]. Qed.
