(* ===== verification/BatchUpdate.v ===== *)
(** * Changes of the persistent batch:
    [v1/sample/logits_processor/state.py], [interface.py] and
    [process_dict_updates] of [builtin.py]

    While a step changes the persistent batch, a [BatchUpdateBuilder] records the indices
    that were emptied, the requests that were added and the moves between indices. At the
    end of the step it hands them to the logits processors as a [BatchUpdate]; a sparse
    processor applies it to its own map from batch indices to states with
    [process_dict_updates].

    The payload [A] of an added request stands for its sampling parameters, its prompt
    and the reference to its output tokens. *)

From Stdlib Require Import ZArith Lia.
From stdpp Require Import list numbers gmap sorting.
From S2P Require Import Prelude.
Local Open Scope Z_scope.

Inductive MoveDirectionality := UNIDIRECTIONAL | SWAP.
#[global] Instance MoveDirectionality_eq_dec : EqDecision MoveDirectionality.
Proof. solve_decision. Defined.

Record BatchUpdateBuilder (A : Type) := {
  _removed : list Z;
  _is_removed_sorted : bool;
  added : list (Z * A);
  moved : list (Z * Z * MoveDirectionality);
  batch_changed : bool;
}.
Arguments Build_BatchUpdateBuilder {_} _ _ _ _ _.
Arguments _removed {_} _.
Arguments _is_removed_sorted {_} _.
Arguments added {_} _.
Arguments moved {_} _.
Arguments batch_changed {_} _.

Record BatchUpdate (A : Type) := {
  u_batch_size : Z;
  u_removed : list Z;
  u_added : list (Z * A);
  u_moved : list (Z * Z * MoveDirectionality);
}.
Arguments Build_BatchUpdate {_} _ _ _ _.
Arguments u_batch_size {_} _.
Arguments u_removed {_} _.
Arguments u_added {_} _.
Arguments u_moved {_} _.

Section builder.
Context {A : Type}.
Local Abbreviation builder := (BatchUpdateBuilder A).

Definition new_builder : builder := Build_BatchUpdateBuilder [] false [] [] false.

Definition set_removed (l : list Z) (sorted : bool) (b : builder) : builder :=
  Build_BatchUpdateBuilder l sorted (added b) (moved b) (batch_changed b).
Definition set_changed (b : builder) : builder :=
  Build_BatchUpdateBuilder (_removed b) (_is_removed_sorted b) (added b) (moved b) true.
Definition add_added (x : Z * A) (b : builder) : builder :=
  Build_BatchUpdateBuilder (_removed b) (_is_removed_sorted b) (added b ++ [x]) (moved b) (batch_changed b).
Definition add_moved (x : Z * Z * MoveDirectionality) (b : builder) : builder :=
  Build_BatchUpdateBuilder (_removed b) (_is_removed_sorted b) (added b) (moved b ++ [x]) (batch_changed b).

(** [sort(reverse=True)] *)
Definition descending (x y : Z) : Prop := y ≤ x.
#[local] Instance descending_dec x y : Decision (descending x y).
Proof. unfold descending. apply _. Defined.
Definition _ensure_removed_sorted (b : builder) : builder :=
  if _is_removed_sorted b then b else set_removed (merge_sort descending (_removed b)) true b.

(** The property [removed]: reading it sorts. *)
Definition removed : M builder (list Z) := λ b,
  let b := _ensure_removed_sorted b in Ok (_removed b, b).

Definition removed_append (index : Z) : M builder unit := λ b,
  if _is_removed_sorted b then Err RuntimeError
  else Ok (tt, set_changed (set_removed (_removed b ++ [index]) false b)).

Definition has_removed (b : builder) : bool := match _removed b with [] => false | _ => true end.

Definition peek_removed : M builder (option Z) := λ b,
  if has_removed b then let b := _ensure_removed_sorted b in Ok (last (_removed b), b) else Ok (None, b).

Definition pop_removed : M builder (option Z) := λ b,
  if has_removed b then
    let b := _ensure_removed_sorted b in
    Ok (last (_removed b), set_removed (take (length (_removed b) - 1) (_removed b)) true b)
  else Ok (None, b).

Definition reset : M builder bool := λ b, Ok (batch_changed b, new_builder).

(** [None] when nothing happened. *)
Definition get_and_reset (batch_size : Z) : M builder (option (BatchUpdate A)) := λ b,
  match _removed b, moved b, added b with
  | [], [], [] => Ok (None, new_builder)
  | _, _, _ => Ok (Some (Build_BatchUpdate batch_size (_removed b) (added b) (moved b)), new_builder)
  end.
End builder.
Arguments new_builder {_}.

(** ** A sparse logits processor *)

Section processor.
Context {A T : Type} (truthy : T → bool) (new_state : A → option T).

Definition process_added (acc : gmap Z T * bool) (x : Z * A) : gmap Z T * bool :=
  let '(d, updated) := acc in
  match new_state x.2 with
  | Some st => (<[x.1 := st]> d, true)
  | None => (delete x.1 d, updated || bool_decide (is_Some (d !! x.1)))
  end.

Definition process_removed (acc : gmap Z T * bool) (index : Z) : gmap Z T * bool :=
  let '(d, updated) := acc in
  (delete index d, updated || match d !! index with Some st => truthy st | None => false end).

Definition process_moved (acc : gmap Z T * bool) (x : Z * Z * MoveDirectionality) : gmap Z T * bool :=
  let '(d, updated) := acc in
  let '(a_index, b_index, direct) := x in
  let a_entry := d !! a_index in
  let d := delete a_index d in
  let b_entry := d !! b_index in
  let d := delete b_index d in
  let '(d, updated) := match a_entry with Some a => (<[b_index := a]> d, true) | None => (d, updated) end in
  match b_entry with
  | Some b => (if bool_decide (direct = SWAP) then <[a_index := b]> d else d, true)
  | None => (d, updated)
  end.

Definition process_dict_updates (req_entries : gmap Z T) (batch_update : option (BatchUpdate A)) : gmap Z T * bool :=
  match batch_update with
  | None => (req_entries, false)
  | Some u =>
      let acc := foldl process_added (req_entries, false) (u_added u) in
      match map_to_list acc.1 with
      | [] => acc
      | _ => foldl process_moved (foldl process_removed acc (u_removed u)) (u_moved u)
      end
  end.
End processor.
