(* ===== verification/InputBatch.v ===== *)
(** * The persistent batch of a worker: [v1/worker/gpu_input_batch.py]

    The worker keeps the requests it is running in a batch of fixed capacity and changes
    it from step to step: finished requests leave holes, new requests fill the lowest
    holes, [condense] closes the rest by moving the last requests down, and
    [swap_states] reorders. All that belongs to a request moves with it: its row of
    token ids, its row of every block table, its sampling parameters, its generator and
    its LoRA adapter.

    The arrays of the class have one entry per index of the batch, and the dictionaries
    [req_prompt_embeds], [generators] and [bad_words_token_ids] are keyed by it. A [Slot]
    holds the entries of one index, an absent key being [None]; the rows of
    [allowed_token_ids_mask_cpu_tensor] are part of it too, all false until the tensor is
    allocated. [_req_ids], [req_output_token_ids] and [spec_token_ids] are Python lists of
    varying length. An output list is a reference, [out_ref], shared with the request.

    Floating-point values are stored as [f32] of the given ones and compared with zero
    and one; a [Float] says how. *)

From Stdlib Require Import ZArith Lia.
From stdpp Require Import list numbers gmap strings.
From S2P Require Import Prelude MathUtils BlockTable BatchUpdate.
Local Open Scope Z_scope.
Local Open Scope vllm_scope.

(** Floating-point numbers, with the rounding of a store to a 32-bit array. *)
Class Float := {
  F : Type;
  f_zero : F;
  f_one : F;
  f_ltb : F → F → bool;
  f_eqb : F → F → bool;
  f32 : F → F;
}.

(** ** Requests *)

Inductive SamplingType := GREEDY | RANDOM | RANDOM_SEED.
#[global] Instance SamplingType_eq_dec : EqDecision SamplingType.
Proof. solve_decision. Defined.

Record PoolingParams := { requires_token_ids : bool; pooling_rest : Z }.
Record LoRARequest := { lora_int_id : Z; lora_path : string }.

Section requests.
Context `{Float}.

Record SamplingParams := {
  sampling_type : SamplingType;
  seed : option Z;
  temperature : F;
  top_p : F;
  top_k : Z;
  frequency_penalty : F;
  presence_penalty : F;
  repetition_penalty : F;
  logprobs : option Z;
  prompt_logprobs : option Z;
  sp_logprob_token_ids : option (list Z);
  allowed_token_ids : option (list Z);
  sp_bad_words_token_ids : option (list (list Z));
}.

(** [output_token_ids] is the content of the list [out_ref] refers to. *)
Record CachedRequestState := {
  req_id : string;
  prompt_token_ids : option (list Z);
  prompt_embeds : option (list (list F));
  prompt_is_token_ids : option (list bool);
  sampling_params : option SamplingParams;
  pooling_params : option PoolingParams;
  pooling_states : option Z;
  generator : option Z;
  block_ids : list (list Z);
  num_computed_tokens : Z;
  output_token_ids : list Z;
  out_ref : Z;
  lora_request : option LoRARequest;
}.

Definition length_from_prompt_token_ids_or_embeds (ids : option (list Z)) (embeds : option (list (list F))) : result Z :=
  match ids, embeds with
  | None, None => Err ValueError
  | None, Some e => Ok (zlen e)
  | Some l, None => Ok (zlen l)
  | Some l, Some e => if zlen e =? zlen l then Ok (zlen l) else Err ValueError
  end.

Definition num_prompt_tokens (r : CachedRequestState) : result Z :=
  length_from_prompt_token_ids_or_embeds (prompt_token_ids r) (prompt_embeds r).
Definition num_tokens (r : CachedRequestState) : result Z :=
  n ← num_prompt_tokens r; Ok (n + zlen (output_token_ids r)).

Definition get_token_id (r : CachedRequestState) (idx : Z) : result Z :=
  n ← num_prompt_tokens r;
  if idx <? n then match prompt_token_ids r with None => Err ValueError | Some l => py_index l idx end
  else if idx - n <? zlen (output_token_ids r) then py_index (output_token_ids r) (idx - n)
  else Ok (-1).

(** ** State *)

(** The entries of one index. *)
Record Slot := {
  s_token_ids : list Z;
  s_is_token_ids : list bool;
  s_prompt_embeds : option (list (list F));
  s_num_tokens_no_spec : Z;
  s_num_prompt_tokens : Z;
  s_num_computed_tokens : Z;
  s_temperature : F;
  s_top_p : F;
  s_top_k : Z;
  s_frequency_penalty : F;
  s_presence_penalty : F;
  s_repetition_penalty : F;
  s_num_accepted_tokens : Z;
  s_lora : Z;
  s_generator : option Z;
  s_mask : list bool;
  s_bad_words : option (list (list Z));
  s_needs_token_ids : bool;
}.

(** The sets and dictionaries keyed by request id. *)
Record Marks := {
  greedy_reqs : gset string;
  random_reqs : gset string;
  top_p_reqs : gset string;
  top_k_reqs : gset string;
  frequency_penalties_reqs : gset string;
  presence_penalties_reqs : gset string;
  repetition_penalties_reqs : gset string;
  has_allowed_token_ids : gset string;
  thinking_token_budget_reqs : gset string;
  num_logprobs : list (string * Z);
  logprob_token_ids : list (string * list Z);
}.

(** What the builder records of an added request. *)
Definition added_info : Type := SamplingParams * option (list Z) * Z.

Record InputBatch := {
  is_pooling_model : bool;
  max_num_reqs : Z;
  vocab_size : Z;
  _req_ids : list (option string);
  req_output_token_ids : list (option Z);
  spec_token_ids : list (list Z);
  req_id_to_index : list (string * Z);
  slots : list Slot;
  block_table : MultiGroupBlockTable;
  marks : Marks;
  lora_id_to_request_ids : list (Z * gset string);
  lora_id_to_lora_request : list (Z * LoRARequest);
  ib_pooling_params : list (string * PoolingParams);
  ib_pooling_states : list (string * Z);
  has_mask : bool;
  prev_req_id_to_index : option (list (string * Z));
  batch_update_builder : BatchUpdateBuilder added_info;
}.

(** Setters. *)
Definition set_ids (b : InputBatch) (ids : list (option string)) (outs : list (option Z)) (specs : list (list Z))
    (index : list (string * Z)) : InputBatch :=
  Build_InputBatch (is_pooling_model b) (max_num_reqs b) (vocab_size b) ids outs specs index (slots b) (block_table b)
    (marks b) (lora_id_to_request_ids b) (lora_id_to_lora_request b) (ib_pooling_params b) (ib_pooling_states b)
    (has_mask b) (prev_req_id_to_index b) (batch_update_builder b).
Definition set_slots (b : InputBatch) (l : list Slot) (m : bool) : InputBatch :=
  Build_InputBatch (is_pooling_model b) (max_num_reqs b) (vocab_size b) (_req_ids b) (req_output_token_ids b)
    (spec_token_ids b) (req_id_to_index b) l (block_table b)
    (marks b) (lora_id_to_request_ids b) (lora_id_to_lora_request b) (ib_pooling_params b) (ib_pooling_states b)
    m (prev_req_id_to_index b) (batch_update_builder b).
Definition set_table (b : InputBatch) (t : MultiGroupBlockTable) : InputBatch :=
  Build_InputBatch (is_pooling_model b) (max_num_reqs b) (vocab_size b) (_req_ids b) (req_output_token_ids b)
    (spec_token_ids b) (req_id_to_index b) (slots b) t
    (marks b) (lora_id_to_request_ids b) (lora_id_to_lora_request b) (ib_pooling_params b) (ib_pooling_states b)
    (has_mask b) (prev_req_id_to_index b) (batch_update_builder b).
Definition set_marks (b : InputBatch) (m : Marks) (prev : option (list (string * Z))) : InputBatch :=
  Build_InputBatch (is_pooling_model b) (max_num_reqs b) (vocab_size b) (_req_ids b) (req_output_token_ids b)
    (spec_token_ids b) (req_id_to_index b) (slots b) (block_table b)
    m (lora_id_to_request_ids b) (lora_id_to_lora_request b) (ib_pooling_params b) (ib_pooling_states b)
    (has_mask b) prev (batch_update_builder b).
Definition set_lora (b : InputBatch) (ids : list (Z * gset string)) (reqs : list (Z * LoRARequest)) : InputBatch :=
  Build_InputBatch (is_pooling_model b) (max_num_reqs b) (vocab_size b) (_req_ids b) (req_output_token_ids b)
    (spec_token_ids b) (req_id_to_index b) (slots b) (block_table b)
    (marks b) ids reqs (ib_pooling_params b) (ib_pooling_states b)
    (has_mask b) (prev_req_id_to_index b) (batch_update_builder b).
Definition set_pooling (b : InputBatch) (ps : list (string * PoolingParams)) (ss : list (string * Z)) : InputBatch :=
  Build_InputBatch (is_pooling_model b) (max_num_reqs b) (vocab_size b) (_req_ids b) (req_output_token_ids b)
    (spec_token_ids b) (req_id_to_index b) (slots b) (block_table b)
    (marks b) (lora_id_to_request_ids b) (lora_id_to_lora_request b) ps ss
    (has_mask b) (prev_req_id_to_index b) (batch_update_builder b).
Definition set_builder (u : BatchUpdateBuilder added_info) (b : InputBatch) : InputBatch :=
  Build_InputBatch (is_pooling_model b) (max_num_reqs b) (vocab_size b) (_req_ids b) (req_output_token_ids b)
    (spec_token_ids b) (req_id_to_index b) (slots b) (block_table b)
    (marks b) (lora_id_to_request_ids b) (lora_id_to_lora_request b) (ib_pooling_params b) (ib_pooling_states b)
    (has_mask b) (prev_req_id_to_index b) u.

Definition on_builder {X} (m : M (BatchUpdateBuilder added_info) X) : M InputBatch X :=
  zoom batch_update_builder set_builder m.
Definition on_table (m : M MultiGroupBlockTable unit) : M InputBatch unit :=
  zoom block_table (λ t b, set_table b t) m.
(** Change the entries of an index. *)
Definition on_slot (i : Z) (f : Slot → result Slot) : M InputBatch unit := λ b,
  s ← py_index (slots b) i; s ← f s; l ← np_set (slots b) i s; Ok (tt, set_slots b l (has_mask b)).

Definition num_reqs (b : InputBatch) : Z := zlen (req_id_to_index b).

(** ** Construction *)

(** The entries of an index before its first request; [f0] and [k0] are what memory that
    is not initialised holds. *)
Definition new_slot (max_model_len vocab : Z) (f0 : F) (k0 : Z) : Slot :=
  {| s_token_ids := replicate (Z.to_nat max_model_len) 0; s_is_token_ids := replicate (Z.to_nat max_model_len) false;
     s_prompt_embeds := None; s_num_tokens_no_spec := 0; s_num_prompt_tokens := 0; s_num_computed_tokens := 0;
     s_temperature := f0; s_top_p := f0; s_top_k := k0; s_frequency_penalty := f0; s_presence_penalty := f0;
     s_repetition_penalty := f0; s_num_accepted_tokens := 1; s_lora := 0; s_generator := None;
     s_mask := replicate (Z.to_nat vocab) false; s_bad_words := None; s_needs_token_ids := false |}.
Definition no_marks : Marks := Build_Marks ∅ ∅ ∅ ∅ ∅ ∅ ∅ ∅ ∅ [] [].

Definition new_input_batch (max_num_reqs max_model_len max_num_batched_tokens vocab : Z)
    (block_sizes kernel_block_sizes : list Z) (max_num_blocks_per_req : option (list Z)) (is_pooling : bool)
    (cp_kv_cache_interleave_size : Z) (pcp dcp : option (Z * Z)) (f0 : F) (k0 : Z) : result InputBatch :=
  tables ← new_multi_group max_num_reqs max_model_len max_num_batched_tokens block_sizes kernel_block_sizes
             max_num_blocks_per_req cp_kv_cache_interleave_size pcp dcp;
  Ok {| is_pooling_model := is_pooling; max_num_reqs := max_num_reqs; vocab_size := vocab; _req_ids := [];
        req_output_token_ids := []; spec_token_ids := replicate (Z.to_nat max_num_reqs) []; req_id_to_index := [];
        slots := replicate (Z.to_nat max_num_reqs) (new_slot max_model_len vocab f0 k0); block_table := tables;
        marks := no_marks; lora_id_to_request_ids := []; lora_id_to_lora_request := []; ib_pooling_params := [];
        ib_pooling_states := []; has_mask := false; prev_req_id_to_index := None; batch_update_builder := new_builder |}.

(** ** [add_request] *)

Definition _register_add_request (r : CachedRequestState) : M InputBatch Z :=
  popped ← on_builder pop_removed;
  b ← get;
  let new_req_index := default (num_reqs b) popped in
  py_assert (new_req_index <? max_num_reqs b);;
  on_builder (modify set_changed);;
  match sampling_params r with
  | Some sp => on_builder (modify (add_added (new_req_index, (sp, prompt_token_ids r, out_ref r))))
  | None => mret tt
  end;;
  mret new_req_index.

(** The id, the output reference and an empty list of drafts at an index, at the end of
    the lists or in a hole. *)
Definition enter_ids (r : CachedRequestState) (i : Z) : M InputBatch unit := λ b,
  '(ids, outs, specs) ←
    (if i =? zlen (_req_ids b) then
       Ok (_req_ids b ++ [Some (req_id r)], req_output_token_ids b ++ [Some (out_ref r)], spec_token_ids b ++ [[]])
     else
       ids ← np_set (_req_ids b) i (Some (req_id r));
       outs ← np_set (req_output_token_ids b) i (Some (out_ref r));
       specs ← np_set (spec_token_ids b) i [];
       Ok (ids, outs, specs));
  Ok (tt, set_ids b ids outs specs (dict_set (req_id_to_index b) (req_id r) i)).

(** The token ids of the prompt and of the output, and the lengths. *)
Definition write_tokens (r : CachedRequestState) (s : Slot) : result Slot :=
  n ← num_prompt_tokens r;
  let start_idx := n in
  let end_idx := start_idx + zlen (output_token_ids r) in
  toks ← match prompt_token_ids r with Some l => np_assign (s_token_ids s) 0 n (NpList l) | None => Ok (s_token_ids s) end;
  flags ← match prompt_token_ids r with
          | Some _ => np_put (s_is_token_ids s) 0 n (default [true] (prompt_is_token_ids r))
          | None => np_put (s_is_token_ids s) 0 n [false]
          end;
  toks ← np_assign toks start_idx end_idx (NpList (output_token_ids r));
  flags ← np_put flags start_idx end_idx [true];
  total ← num_tokens r;
  Ok {| s_token_ids := toks; s_is_token_ids := flags;
        s_prompt_embeds := match prompt_embeds r with Some e => Some e | None => s_prompt_embeds s end;
        s_num_tokens_no_spec := total; s_num_prompt_tokens := n; s_num_computed_tokens := num_computed_tokens r;
        s_temperature := s_temperature s; s_top_p := s_top_p s; s_top_k := s_top_k s;
        s_frequency_penalty := s_frequency_penalty s; s_presence_penalty := s_presence_penalty s;
        s_repetition_penalty := s_repetition_penalty s; s_num_accepted_tokens := s_num_accepted_tokens s;
        s_lora := s_lora s; s_generator := s_generator s; s_mask := s_mask s; s_bad_words := s_bad_words s;
        s_needs_token_ids := s_needs_token_ids s |}.

(** [mask[ids] = False] *)
Fixpoint clear_all (row : list bool) (ids : list Z) : result (list bool) :=
  match ids with [] => Ok row | i :: ids => row ← np_set row i false; clear_all row ids end.

(** The mask of the allowed tokens, when there are any. *)
Definition allowed_mask (vocab : Z) (sp : SamplingParams) (row : list bool) : result (list bool) :=
  match allowed_token_ids sp with
  | Some (t :: ts) => clear_all (replicate (Z.to_nat vocab) true) (t :: ts)
  | _ => Ok row
  end.
Definition uses_mask (sp : SamplingParams) : bool := match allowed_token_ids sp with Some (_ :: _) => true | _ => false end.

Definition top_k_in_use (vocab : Z) (sp : SamplingParams) : bool := (0 <? top_k sp) && (top_k sp <? vocab).

Definition write_sampling (vocab : Z) (r : CachedRequestState) (sp : SamplingParams) (s : Slot) : result Slot :=
  mask ← allowed_mask vocab sp (s_mask s);
  Ok {| s_token_ids := s_token_ids s; s_is_token_ids := s_is_token_ids s; s_prompt_embeds := s_prompt_embeds s;
        s_num_tokens_no_spec := s_num_tokens_no_spec s; s_num_prompt_tokens := s_num_prompt_tokens s;
        s_num_computed_tokens := s_num_computed_tokens s;
        s_temperature := if bool_decide (sampling_type sp = GREEDY) then f32 f_zero else f32 (temperature sp);
        s_top_p := f32 (top_p sp);
        s_top_k := if top_k_in_use vocab sp then top_k sp else vocab;
        s_frequency_penalty := f32 (frequency_penalty sp);
        s_presence_penalty := f32 (presence_penalty sp);
        s_repetition_penalty := f32 (repetition_penalty sp);
        s_num_accepted_tokens := s_num_accepted_tokens s; s_lora := s_lora s;
        s_generator := match generator r with Some g => Some g | None => s_generator s end;
        s_mask := mask;
        s_bad_words := match sp_bad_words_token_ids sp with Some (w :: ws) => Some (w :: ws) | _ => s_bad_words s end;
        s_needs_token_ids := s_needs_token_ids s |}.

Definition add_if (c : bool) (id : string) (X : gset string) : gset string := if c then {[id]} ∪ X else X.

Definition mark_sampling (vocab : Z) (id : string) (sp : SamplingParams) (m : Marks) : Marks :=
  {| greedy_reqs := add_if (bool_decide (sampling_type sp = GREEDY)) id (greedy_reqs m);
     random_reqs := add_if (negb (bool_decide (sampling_type sp = GREEDY))) id (random_reqs m);
     top_p_reqs := add_if (f_ltb (top_p sp) f_one) id (top_p_reqs m);
     top_k_reqs := add_if (top_k_in_use vocab sp) id (top_k_reqs m);
     frequency_penalties_reqs := add_if (negb (f_eqb (frequency_penalty sp) f_zero)) id (frequency_penalties_reqs m);
     presence_penalties_reqs := add_if (negb (f_eqb (presence_penalty sp) f_zero)) id (presence_penalties_reqs m);
     repetition_penalties_reqs := add_if (negb (f_eqb (repetition_penalty sp) f_one)) id (repetition_penalties_reqs m);
     has_allowed_token_ids := add_if (uses_mask sp) id (has_allowed_token_ids m);
     thinking_token_budget_reqs := thinking_token_budget_reqs m;
     num_logprobs := match logprobs sp with
                     | Some n => dict_set (num_logprobs m) id (if n =? -1 then vocab else n)
                     | None => num_logprobs m
                     end;
     logprob_token_ids := match sp_logprob_token_ids sp with
                          | Some l => dict_set (logprob_token_ids m) id l
                          | None => logprob_token_ids m
                          end |}.

Definition set_needs (x : bool) (s : Slot) : Slot :=
  {| s_token_ids := s_token_ids s; s_is_token_ids := s_is_token_ids s; s_prompt_embeds := s_prompt_embeds s;
     s_num_tokens_no_spec := s_num_tokens_no_spec s; s_num_prompt_tokens := s_num_prompt_tokens s;
     s_num_computed_tokens := s_num_computed_tokens s; s_temperature := s_temperature s; s_top_p := s_top_p s;
     s_top_k := s_top_k s; s_frequency_penalty := s_frequency_penalty s; s_presence_penalty := s_presence_penalty s;
     s_repetition_penalty := s_repetition_penalty s; s_num_accepted_tokens := s_num_accepted_tokens s;
     s_lora := s_lora s; s_generator := s_generator s; s_mask := s_mask s; s_bad_words := s_bad_words s;
     s_needs_token_ids := x |}.
Definition set_accepted_lora (n lora : Z) (s : Slot) : Slot :=
  {| s_token_ids := s_token_ids s; s_is_token_ids := s_is_token_ids s; s_prompt_embeds := s_prompt_embeds s;
     s_num_tokens_no_spec := s_num_tokens_no_spec s; s_num_prompt_tokens := s_num_prompt_tokens s;
     s_num_computed_tokens := s_num_computed_tokens s; s_temperature := s_temperature s; s_top_p := s_top_p s;
     s_top_k := s_top_k s; s_frequency_penalty := s_frequency_penalty s; s_presence_penalty := s_presence_penalty s;
     s_repetition_penalty := s_repetition_penalty s; s_num_accepted_tokens := n;
     s_lora := lora; s_generator := s_generator s; s_mask := s_mask s; s_bad_words := s_bad_words s;
     s_needs_token_ids := s_needs_token_ids s |}.

(** The parameters, by the kind of the request. *)
Definition enter_params (r : CachedRequestState) (i : Z) : M InputBatch unit :=
  b ← get;
  match sampling_params r, pooling_params r with
  | Some sp, _ =>
      on_slot i (write_sampling (vocab_size b) r sp);;
      modify (λ b, set_slots (set_marks b (mark_sampling (vocab_size b) (req_id r) sp (marks b)) (prev_req_id_to_index b))
                     (slots b) (has_mask b || uses_mask sp))
  | None, Some pp =>
      match pooling_states r with
      | None => raise AssertionError
      | Some st =>
          modify (λ b, set_pooling b (dict_set (ib_pooling_params b) (req_id r) pp) (dict_set (ib_pooling_states b) (req_id r) st));;
          on_slot i (λ s, Ok (set_needs (requires_token_ids pp) s))
      end
  | None, None => raise NotImplementedError
  end.

(** One accepted token by default, and the LoRA adapter. *)
Definition enter_lora (r : CachedRequestState) (i : Z) : M InputBatch unit :=
  on_slot i (λ s, Ok (set_accepted_lora 1 (match lora_request r with Some l => lora_int_id l | None => 0 end) s));;
  match lora_request r with
  | None => mret tt
  | Some l =>
      modify (λ b,
        let ids := default ∅ (dict_get (lora_id_to_request_ids b) (lora_int_id l)) in
        set_lora b (dict_set (lora_id_to_request_ids b) (lora_int_id l) ({[req_id r]} ∪ ids))
          (dict_set (lora_id_to_lora_request b) (lora_int_id l) l))
  end.

Definition add_request (r : CachedRequestState) : M InputBatch Z :=
  req_index ← _register_add_request r;
  enter_ids r req_index;;
  on_slot req_index (write_tokens r);;
  on_table (multi_add_row (block_ids r) req_index);;
  enter_params r req_index;;
  enter_lora r req_index;;
  mret req_index.

(** ** [update_req_spec_token_ids]: the drafts scheduled for a request *)

Definition write_drafts (drafts : list Z) (s : Slot) : result Slot :=
  let start_index := s_num_tokens_no_spec s in
  let end_token_index := start_index + zlen drafts in
  toks ← np_assign (s_token_ids s) start_index end_token_index (NpList drafts);
  flags ← np_put (s_is_token_ids s) start_index end_token_index [true];
  Ok {| s_token_ids := toks; s_is_token_ids := flags; s_prompt_embeds := s_prompt_embeds s;
        s_num_tokens_no_spec := s_num_tokens_no_spec s; s_num_prompt_tokens := s_num_prompt_tokens s;
        s_num_computed_tokens := s_num_computed_tokens s; s_temperature := s_temperature s; s_top_p := s_top_p s;
        s_top_k := s_top_k s; s_frequency_penalty := s_frequency_penalty s;
        s_presence_penalty := s_presence_penalty s; s_repetition_penalty := s_repetition_penalty s;
        s_num_accepted_tokens := s_num_accepted_tokens s; s_lora := s_lora s; s_generator := s_generator s;
        s_mask := s_mask s; s_bad_words := s_bad_words s; s_needs_token_ids := s_needs_token_ids s |}.

Definition set_drafts (i : Z) (drafts : list Z) : M InputBatch unit := λ b,
  specs ← np_set (spec_token_ids b) i drafts;
  Ok (tt, set_ids b (_req_ids b) (req_output_token_ids b) specs (req_id_to_index b)).

(** Returns the number of drafts, which the caller keeps as [prev_num_draft_len]. *)
Definition update_req_spec_token_ids (id : string) (scheduled_spec_tokens : list (string * list Z)) : M InputBatch Z :=
  b ← get;
  i ← match dict_get (req_id_to_index b) id with Some i => mret i | None => raise KeyError end;
  let drafts := default [] (dict_get scheduled_spec_tokens id) in
  set_drafts i [];;
  match drafts with
  | [] => mret 0
  | _ => on_slot i (write_drafts drafts);; set_drafts i drafts;; mret (zlen drafts)
  end.

(** ** [remove_request] *)

(** [d.pop(k, None)] on a dictionary or a set. *)
Definition unmark (id : string) (m : Marks) : Marks :=
  {| greedy_reqs := greedy_reqs m ∖ {[id]};
     random_reqs := random_reqs m ∖ {[id]};
     top_p_reqs := top_p_reqs m ∖ {[id]};
     top_k_reqs := top_k_reqs m ∖ {[id]};
     frequency_penalties_reqs := frequency_penalties_reqs m ∖ {[id]};
     presence_penalties_reqs := presence_penalties_reqs m ∖ {[id]};
     repetition_penalties_reqs := repetition_penalties_reqs m ∖ {[id]};
     has_allowed_token_ids := has_allowed_token_ids m ∖ {[id]};
     thinking_token_budget_reqs := thinking_token_budget_reqs m ∖ {[id]};
     num_logprobs := dict_del (num_logprobs m) id;
     logprob_token_ids := dict_del (logprob_token_ids m) id |}.

Definition leave_ids (id : string) (i : Z) : M InputBatch unit := λ b,
  ids ← np_set (_req_ids b) i None;
  outs ← np_set (req_output_token_ids b) i None;
  specs ← np_set (spec_token_ids b) i [];
  Ok (tt, set_ids b ids outs specs (req_id_to_index b)).

Definition set_slot_lora (lora : Z) (s : Slot) : Slot := set_accepted_lora (s_num_accepted_tokens s) lora s.

Definition leave_lora (id : string) (i : Z) : M InputBatch unit := λ b,
  s ← py_index (slots b) i;
  let lora_id := s_lora s in
  if lora_id =? 0 then Ok (tt, b) else
  match dict_get (lora_id_to_request_ids b) lora_id with
  | None => Err KeyError
  | Some ids =>
      let ids := ids ∖ {[id]} in
      b ← (if bool_decide (ids = ∅) then
             match dict_get (lora_id_to_lora_request b) lora_id with
             | None => Err KeyError
             | Some _ => Ok (set_lora b (dict_del (lora_id_to_request_ids b) lora_id)
                               (dict_del (lora_id_to_lora_request b) lora_id))
             end
           else Ok (set_lora b (dict_set (lora_id_to_request_ids b) lora_id ids) (lora_id_to_lora_request b)));
      on_slot i (λ s, Ok (set_slot_lora 0 s)) b
  end.

(** The entries that are popped or cleared at the index. *)
Definition leave_slot (masked : bool) (s : Slot) : Slot :=
  {| s_token_ids := s_token_ids s; s_is_token_ids := s_is_token_ids s; s_prompt_embeds := s_prompt_embeds s;
     s_num_tokens_no_spec := s_num_tokens_no_spec s; s_num_prompt_tokens := s_num_prompt_tokens s;
     s_num_computed_tokens := s_num_computed_tokens s; s_temperature := s_temperature s; s_top_p := s_top_p s;
     s_top_k := s_top_k s; s_frequency_penalty := s_frequency_penalty s; s_presence_penalty := s_presence_penalty s;
     s_repetition_penalty := s_repetition_penalty s; s_num_accepted_tokens := s_num_accepted_tokens s;
     s_lora := s_lora s; s_generator := None;
     s_mask := if masked then replicate (length (s_mask s)) false else s_mask s;
     s_bad_words := None; s_needs_token_ids := s_needs_token_ids s |}.

Definition remove_request (id : string) : M InputBatch (option Z) :=
  b ← get;
  match dict_get (req_id_to_index b) id with
  | None => mret None
  | Some i =>
      modify (λ b, set_ids b (_req_ids b) (req_output_token_ids b) (spec_token_ids b) (dict_del (req_id_to_index b) id));;
      on_builder (removed_append i);;
      leave_ids id i;;
      on_table (multi_clear_row i);;
      leave_lora id i;;
      (if is_pooling_model b then
         modify (λ b, set_pooling b (dict_del (ib_pooling_params b) id) (dict_del (ib_pooling_states b) id))
       else
         modify (λ b, set_marks b (unmark id (marks b)) ((λ d, dict_del d id) <$> prev_req_id_to_index b));;
         on_slot i (λ s, Ok (leave_slot (has_mask b) s)));;
      mret (Some i)
  end.

(** ** [swap_states] *)

Definition _get_active_token_count (b : InputBatch) (i : Z) : result Z :=
  s ← py_index (slots b) i; l ← py_index (spec_token_ids b) i; Ok (s_num_tokens_no_spec s + zlen l).

(** What index [i1] has after the exchange: [s1] was there, [s2] comes. The token rows
    are exchanged up to [m]. The last two assignments to the rows of the mask read views
    of them: the first one overwrites what the second one reads. *)
Definition swapped (pooling masked : bool) (m : Z) (first : bool) (s1 s2 : Slot) : result Slot :=
  toks ← np_put (s_token_ids s1) 0 m (py_slice (s_token_ids s2) 0 m);
  flags ← np_put (s_is_token_ids s1) 0 m (py_slice (s_is_token_ids s2) 0 m);
  let pick {X} (f : Slot → X) : X := if pooling then f s1 else f s2 in
  Ok {| s_token_ids := toks; s_is_token_ids := flags; s_prompt_embeds := s_prompt_embeds s2;
        s_num_tokens_no_spec := s_num_tokens_no_spec s2; s_num_prompt_tokens := s_num_prompt_tokens s2;
        s_num_computed_tokens := s_num_computed_tokens s2;
        s_temperature := pick s_temperature; s_top_p := pick s_top_p; s_top_k := pick s_top_k;
        s_frequency_penalty := pick s_frequency_penalty; s_presence_penalty := pick s_presence_penalty;
        s_repetition_penalty := pick s_repetition_penalty; s_num_accepted_tokens := pick s_num_accepted_tokens;
        s_lora := s_lora s2; s_generator := pick s_generator;
        s_mask := if first && masked && negb pooling then s_mask s2 else s_mask s1;
        s_bad_words := pick s_bad_words; s_needs_token_ids := s_needs_token_ids s1 |}.

Definition swap_slots (m i1 i2 : Z) : M InputBatch unit := λ b,
  s1 ← py_index (slots b) i1;
  s2 ← py_index (slots b) i2;
  s1' ← swapped (is_pooling_model b) (has_mask b) m true s1 s2;
  s2' ← swapped (is_pooling_model b) (has_mask b) m false s2 s1;
  l ← np_set (slots b) i1 s1';
  l ← np_set l i2 s2';
  Ok (tt, set_slots b l (has_mask b)).

Definition swap_ids (i1 i2 : Z) : M InputBatch unit := λ b,
  old_id_i1 ← py_index (_req_ids b) i1;
  old_id_i2 ← py_index (_req_ids b) i2;
  ids ← np_swap (_req_ids b) i1 i2;
  outs ← np_swap (req_output_token_ids b) i1 i2;
  specs ← np_swap (spec_token_ids b) i1 i2;
  match old_id_i1, old_id_i2 with
  | Some id1, Some id2 =>
      match dict_get (req_id_to_index b) id1, dict_get (req_id_to_index b) id2 with
      | Some x1, Some x2 =>
          Ok (tt, set_ids b ids outs specs (dict_set (dict_set (req_id_to_index b) id1 x2) id2 x1))
      | _, _ => Err KeyError
      end
  | _, _ => Err AssertionError
  end.

Definition swap_states (i1 i2 : Z) : M InputBatch unit :=
  b ← get;
  n1 ← lift_result (_get_active_token_count b i1);
  n2 ← lift_result (_get_active_token_count b i2);
  swap_ids i1 i2;;
  swap_slots (Z.max n1 n2) i1 i2;;
  on_table (multi_swap_row i1 i2);;
  if is_pooling_model b then mret tt else on_builder (modify (add_moved (i1, i2, SWAP))).

(** ** [condense] *)

(** What the empty index gets: [s] was there, [from] moves in. *)
Definition moved_in (pooling masked : bool) (n : Z) (s from : Slot) : result Slot :=
  toks ← np_put (s_token_ids s) 0 n (py_slice (s_token_ids from) 0 n);
  flags ← np_put (s_is_token_ids s) 0 n (py_slice (s_is_token_ids from) 0 n);
  let pick {X} (f : Slot → X) : X := if pooling then f s else f from in
  let pick_opt {X} (f : Slot → option X) : option X :=
    if pooling then f s else match f from with Some x => Some x | None => f s end in
  Ok {| s_token_ids := toks; s_is_token_ids := flags;
        s_prompt_embeds := match s_prompt_embeds from with Some e => Some e | None => s_prompt_embeds s end;
        s_num_tokens_no_spec := s_num_tokens_no_spec from; s_num_prompt_tokens := s_num_prompt_tokens from;
        s_num_computed_tokens := s_num_computed_tokens from;
        s_temperature := pick s_temperature; s_top_p := pick s_top_p; s_top_k := pick s_top_k;
        s_frequency_penalty := pick s_frequency_penalty; s_presence_penalty := pick s_presence_penalty;
        s_repetition_penalty := pick s_repetition_penalty; s_num_accepted_tokens := pick s_num_accepted_tokens;
        s_lora := s_lora from; s_generator := pick_opt s_generator;
        s_mask := if masked && negb pooling then s_mask from else s_mask s;
        s_bad_words := pick_opt s_bad_words; s_needs_token_ids := s_needs_token_ids s |}.

(** What is left at the last index: what was popped is gone. *)
Definition moved_out (pooling : bool) (s : Slot) : Slot :=
  {| s_token_ids := s_token_ids s; s_is_token_ids := s_is_token_ids s; s_prompt_embeds := None;
     s_num_tokens_no_spec := s_num_tokens_no_spec s; s_num_prompt_tokens := s_num_prompt_tokens s;
     s_num_computed_tokens := s_num_computed_tokens s; s_temperature := s_temperature s; s_top_p := s_top_p s;
     s_top_k := s_top_k s; s_frequency_penalty := s_frequency_penalty s; s_presence_penalty := s_presence_penalty s;
     s_repetition_penalty := s_repetition_penalty s; s_num_accepted_tokens := s_num_accepted_tokens s;
     s_lora := s_lora s; s_generator := if pooling then s_generator s else None; s_mask := s_mask s;
     s_bad_words := if pooling then s_bad_words s else None; s_needs_token_ids := s_needs_token_ids s |}.

Definition move_slot (n last_req_index empty_index : Z) : M InputBatch unit := λ b,
  from ← py_index (slots b) last_req_index;
  s ← py_index (slots b) empty_index;
  s ← moved_in (is_pooling_model b) (has_mask b) n s from;
  l ← np_set (slots b) last_req_index (moved_out (is_pooling_model b) from);
  l ← np_set l empty_index s;
  Ok (tt, set_slots b l (has_mask b)).

Definition move_ids (last_req_index empty_index : Z) : M InputBatch unit := λ b,
  id ← py_index (_req_ids b) last_req_index;
  out ← py_index (req_output_token_ids b) last_req_index;
  match id with
  | None => Err AssertionError
  | Some id =>
      ids ← np_set (_req_ids b) empty_index (Some id);
      ids ← np_set ids last_req_index None;
      outs ← np_set (req_output_token_ids b) empty_index out;
      outs ← np_set outs last_req_index None;
      specs ← np_swap (spec_token_ids b) last_req_index empty_index;
      specs ← np_set specs last_req_index [];
      Ok (tt, set_ids b ids outs specs (dict_set (req_id_to_index b) id empty_index))
  end.

(** The largest index that is not empty. *)
Fixpoint skip_empty (fuel : nat) (empty : list Z) (last_req_index : Z) : Z :=
  match fuel with
  | O => last_req_index
  | S fuel => if bool_decide (last_req_index ∈ empty) then skip_empty fuel empty (last_req_index - 1) else last_req_index
  end.

(** Move the last request down into an empty index. *)
Definition move_down (last_req_index empty_index : Z) : M InputBatch unit :=
  on_builder pop_removed;;
  b ← get;
  num_tokens ← lift_result (_get_active_token_count b last_req_index);
  move_ids last_req_index empty_index;;
  move_slot num_tokens last_req_index empty_index;;
  on_table (multi_move_row last_req_index empty_index);;
  if is_pooling_model b then mret tt
  else on_builder (modify (add_moved (last_req_index, empty_index, UNIDIRECTIONAL))).

(** The loop: at most one round for each empty index. *)
Fixpoint condense_loop (fuel : nat) (last_req_index : Z) : M InputBatch unit :=
  b ← get;
  let empty_req_indices := _removed (batch_update_builder b) in
  match fuel, empty_req_indices with
  | O, _ | _, [] => mret tt
  | S fuel, _ =>
      let last_req_index := skip_empty (length empty_req_indices) empty_req_indices last_req_index in
      empty_index ← on_builder peek_removed;
      match empty_index with
      | None => raise AssertionError
      | Some empty_index =>
          if last_req_index <=? empty_index then mret tt
          else move_down last_req_index empty_index;; condense_loop fuel (last_req_index - 1)
      end
  end.

Definition trim (n : Z) : M InputBatch unit := modify (λ b,
  set_ids b (take (Z.to_nat n) (_req_ids b)) (take (Z.to_nat n) (req_output_token_ids b))
    (take (Z.to_nat n) (spec_token_ids b)) (req_id_to_index b)).

Definition condense : M InputBatch unit :=
  b ← get;
  let n := num_reqs b in
  empty_req_indices ← on_builder removed;
  match empty_req_indices with
  | [] => mret tt
  | _ =>
      if n =? 0 then trim 0
      else condense_loop (length empty_req_indices) (n + zlen empty_req_indices - 1);; trim n
  end.

(** ** [refresh_metadata]: the update for the logits processors *)

Definition refresh_builder : M InputBatch (option (BatchUpdate added_info)) :=
  b ← get;
  if is_pooling_model b then on_builder reset;; mret None
  else on_builder (get_and_reset (num_reqs b)).
End requests.
