(* ===== verification/InputBatchSafe.v ===== *)
(** * The persistent batch keeps its requests apart: proofs about [InputBatch.v]

    The batch is read through its cells: the request at an index with all that belongs to
    it. Each operation is described by what it does to the cells, and the batch as a
    whole by a map from request ids to their data. *)

From Stdlib Require Import ZArith Lia.
From stdpp Require Import list numbers gmap strings sorting.
From S2P Require Import Prelude MathUtils BlockTable BatchUpdate InputBatch.
Local Open Scope Z_scope.

Section safe.
Context `{Float}.

(** ** What belongs to a request *)

(** The entries keyed by its id. *)
Record Tags := {
  t_sets : list bool;
  t_num_logprobs : option Z;
  t_logprob_token_ids : option (list Z);
  t_pooling_params : option PoolingParams;
  t_pooling_states : option Z;
}.
Definition no_tags : Tags := Build_Tags (replicate 8 false) None None None None.

Definition tags (b : InputBatch) (id : string) : Tags :=
  let m := marks b in
  {| t_sets := (λ X : gset string, bool_decide (id ∈ X)) <$>
       [greedy_reqs m; random_reqs m; top_p_reqs m; top_k_reqs m; frequency_penalties_reqs m;
        presence_penalties_reqs m; repetition_penalties_reqs m; has_allowed_token_ids m];
     t_num_logprobs := dict_get (num_logprobs m) id;
     t_logprob_token_ids := dict_get (logprob_token_ids m) id;
     t_pooling_params := dict_get (ib_pooling_params b) id;
     t_pooling_states := dict_get (ib_pooling_states b) id |}.

(** Its sampling parameters; pooling models have none. The row of the mask of allowed
    tokens and the flag that token ids are needed are not among them: [swap_states] and
    [condense] leave these at the wrong index, see [swap_states_duplicates_mask]. *)
Record Sampling := {
  g_temperature : F; g_top_p : F; g_top_k : Z; g_frequency : F; g_presence : F; g_repetition : F;
  g_num_accepted : Z; g_generator : option Z; g_bad_words : option (list (list Z));
}.
Definition slot_sampling (s : Slot) : Sampling :=
  Build_Sampling (s_temperature s) (s_top_p s) (s_top_k s) (s_frequency_penalty s) (s_presence_penalty s)
    (s_repetition_penalty s) (s_num_accepted_tokens s) (s_generator s) (s_bad_words s).

(** The tokens it has, with its drafts; where the prompt is given by embeddings there is
    no token, and the embeddings count. *)
Definition known_tokens (toks : list Z) (flags : list bool) : list (option Z) :=
  zip_with (λ t (f : bool), if f then Some t else None) toks flags.

Record View := {
  v_tokens : list (option Z);
  v_embeds : option (list (list F));
  v_drafts : list Z;
  v_out : option Z;
  v_num_tokens : Z;
  v_num_prompt : Z;
  v_num_computed : Z;
  v_lora : Z;
  v_blocks : list (list Z);
  v_sampling : option Sampling;
  v_tags : Tags;
}.

Definition active (s : Slot) (drafts : list Z) : nat := Z.to_nat (s_num_tokens_no_spec s + zlen drafts).

(** Whether each of its positions, drafts apart, has a token. *)
Definition all_known (s : Slot) : bool := forallb id (take (Z.to_nat (s_num_tokens_no_spec s)) (s_is_token_ids s)).

Definition view (pooling : bool) (s : Slot) (drafts : list Z) (out : option Z) (blocks : list (list Z)) (t : Tags) : View :=
  {| v_tokens := known_tokens (take (active s drafts) (s_token_ids s)) (take (active s drafts) (s_is_token_ids s));
     v_embeds := if all_known s then None else s_prompt_embeds s;
     v_drafts := drafts; v_out := out; v_num_tokens := s_num_tokens_no_spec s; v_num_prompt := s_num_prompt_tokens s;
     v_num_computed := s_num_computed_tokens s; v_lora := s_lora s; v_blocks := blocks;
     v_sampling := if pooling then None else Some (slot_sampling s); v_tags := t |}.

(** The blocks of an index in every group. *)
Definition blocks_at (gs : list group) (i : nat) : list (list Z) := (λ g, g_rows g !!! i) <$> gs.

Definition cell (b : InputBatch) (gs : list group) (i : nat) : option (string * View) :=
  id ← mjoin (_req_ids b !! i);
  s ← slots b !! i; drafts ← spec_token_ids b !! i; out ← req_output_token_ids b !! i;
  Some (id, view (is_pooling_model b) s drafts out (blocks_at gs i) (tags b id)).

Definition upd {A} (f : nat → option A) (j : nat) (x : option A) : nat → option A :=
  λ i, if decide (i = j) then x else f i.

Definition live (b : InputBatch) (i : nat) (id : string) : Prop := _req_ids b !! i = Some (Some id).

(** ** The invariant *)

(** The entries of an index: rows of the model length, tokens that fit, and embeddings
    where a token is missing. *)
Definition slot_ok (w : nat) (s : Slot) : Prop := length (s_token_ids s) = w ∧ length (s_is_token_ids s) = w.
Definition slot_active (w : nat) (s : Slot) (drafts : list Z) : Prop :=
  0 ≤ s_num_tokens_no_spec s ∧ (Z.to_nat (s_num_tokens_no_spec s) ≤ w)%nat ∧
  (all_known s = false → is_Some (s_prompt_embeds s)).
(** Nothing is left that the next request would not overwrite. *)
Definition slot_free (s : Slot) : Prop := s_generator s = None ∧ s_bad_words s = None.

(** A pooling model has no sampling entries, and the others no pooling entries. *)
Definition kind_tags (pooling : bool) (t : Tags) : Prop :=
  if pooling then t_sets t = replicate 8 false ∧ t_num_logprobs t = None ∧ t_logprob_token_ids t = None
  else t_pooling_params t = None ∧ t_pooling_states t = None.

Record batch_ok (w : nat) (b : InputBatch) (gs : list group) : Prop := {
  bo_slots : length (slots b) = Z.to_nat (max_num_reqs b);
  bo_rows : Forall (slot_ok w) (slots b);
  bo_cap : (length (_req_ids b) ≤ length (slots b))%nat;
  bo_outs : length (req_output_token_ids b) = length (_req_ids b);
  bo_specs : (length (_req_ids b) ≤ length (spec_token_ids b))%nat;
  bo_tables : Forall2 table_ok (block_table b) gs;
  bo_groups : Forall (λ g, length (g_rows g) = length (slots b)) gs;
  bo_active : ∀ i id s drafts, live b i id → slots b !! i = Some s → spec_token_ids b !! i = Some drafts → slot_active w s drafts;
  bo_no_drafts : ∀ i drafts, (∀ id, ¬ live b i id) → spec_token_ids b !! i = Some drafts → drafts = [];
  bo_free : ∀ i s, (∀ id, ¬ live b i id) → slots b !! i = Some s → slot_free s;
  bo_keys : NoDup (req_id_to_index b).*1;
  bo_index : ∀ id z, dict_get (req_id_to_index b) id = Some z ↔ ∃ i, z = Z.of_nat i ∧ live b i id;
  bo_tags : ∀ id, (∀ i, ¬ live b i id) → tags b id = no_tags;
  bo_dicts : NoDup (num_logprobs (marks b)).*1 ∧ NoDup (logprob_token_ids (marks b)).*1 ∧
    NoDup (ib_pooling_params b).*1 ∧ NoDup (ib_pooling_states b).*1;
  bo_pooling : is_pooling_model b = true → Forall slot_free (slots b);
  bo_kind : ∀ id, kind_tags (is_pooling_model b) (tags b id);
}.

(** ** Writing the tokens of a request *)

(** The part of a request that goes into its token row. *)
Definition prompt_flags (r : CachedRequestState) (n : nat) : list bool :=
  match prompt_token_ids r with
  | Some _ => default (replicate n true) (prompt_is_token_ids r)
  | None => replicate n false
  end.
Definition request_known (r : CachedRequestState) (n : nat) : list (option Z) :=
  match prompt_token_ids r with
  | Some l => known_tokens l (prompt_flags r n)
  | None => replicate n None
  end ++ (Some <$> output_token_ids r).

Record tokens_fit (w : nat) (r : CachedRequestState) (n : nat) : Prop := {
  tf_len : num_prompt_tokens r = Ok (Z.of_nat n);
  tf_prompt : match prompt_token_ids r with
              | Some l => length l = n ∧ forallb in_int32 l = true ∧
                  match prompt_is_token_ids r with Some f => length f = n | None => True end
              | None => True
              end;
  tf_out : forallb in_int32 (output_token_ids r) = true;
  tf_fits : (n + length (output_token_ids r) ≤ w)%nat;
}.

Lemma known_tokens_app l1 l2 f1 f2 : length l1 = length f1 →
  known_tokens (l1 ++ l2) (f1 ++ f2) = known_tokens l1 f1 ++ known_tokens l2 f2.
Proof. intros Hl. unfold known_tokens. by apply zip_with_app. Qed.
Lemma known_tokens_true l n : length l = n → known_tokens l (replicate n true) = Some <$> l.
Proof. revert n. induction l as [|x l IH]; intros [|n] Hl; simpl in *; try done. f_equal. apply IH. lia. Qed.
Lemma known_tokens_false l n : length l = n → known_tokens l (replicate n false) = replicate n None.
Proof. revert n. induction l as [|x l IH]; intros [|n] Hl; simpl in *; try done. f_equal. apply IH. lia. Qed.

Lemma forallb_replicate_true n : forallb id (replicate n true) = true.
Proof. by induction n. Qed.

Lemma length_prompt_flags w r n : tokens_fit w r n → length (prompt_flags r n) = n.
Proof.
  intros [_ Hp _ _]. unfold prompt_flags. destruct (prompt_token_ids r); [|by rewrite length_replicate].
  destruct (prompt_is_token_ids r); simpl; [tauto|by rewrite length_replicate].
Qed.

(** The rows after the assignments: what is written, then what was there. *)
Lemma put_two {A} (row p o : list A) (n : nat) : length p = n → (n + length o ≤ length row)%nat →
  np_put (p ++ drop n row) (Z.of_nat n) (Z.of_nat n + zlen o) o = Ok (p ++ o ++ drop (n + length o) row).
Proof.
  intros Hp Ho. rewrite np_put_fits; [|lia|unfold zlen; rewrite length_app, length_drop; lia].
  rewrite Nat2Z.id, <-Hp, take_app_length, drop_app_ge by lia. do 3 f_equal. rewrite drop_drop. f_equal. lia.
Qed.

Lemma write_flags w r n (flags : list bool) : tokens_fit w r n → length flags = w →
  (match prompt_token_ids r with
   | Some _ => np_put flags 0 (Z.of_nat n) (default [true] (prompt_is_token_ids r))
   | None => np_put flags 0 (Z.of_nat n) [false]
   end) = Ok (prompt_flags r n ++ drop n flags).
Proof.
  intros [_ Hp _ Hf] Hl. unfold prompt_flags. assert (∀ x, np_put flags 0 (Z.of_nat n) [x] = Ok (replicate n x ++ drop n flags)) as Hx.
  { intros x. rewrite np_put_fill by (unfold zlen; lia). by rewrite Z.sub_0_r, !Nat2Z.id. }
  destruct (prompt_token_ids r); [|by apply Hx]. destruct (prompt_is_token_ids r) as [f|]; simpl; [|by apply Hx].
  destruct Hp as (_ & _ & Hlf). replace (Z.of_nat n) with (0 + zlen f) by (unfold zlen; lia).
  rewrite np_put_fits by (unfold zlen; lia). by rewrite Hlf.
Qed.

Lemma write_tokens_ok w r n s : slot_ok w s → tokens_fit w r n → ∃ s', write_tokens r s = Ok s' ∧ slot_ok w s' ∧
  known_tokens (take (n + length (output_token_ids r)) (s_token_ids s')) (take (n + length (output_token_ids r)) (s_is_token_ids s')) = request_known r n ∧
  take (n + length (output_token_ids r)) (s_is_token_ids s') = prompt_flags r n ++ replicate (length (output_token_ids r)) true ∧
  s_prompt_embeds s' = match prompt_embeds r with Some e => Some e | None => s_prompt_embeds s end ∧
  s_num_tokens_no_spec s' = Z.of_nat n + zlen (output_token_ids r) ∧ s_num_prompt_tokens s' = Z.of_nat n ∧
  s_num_computed_tokens s' = num_computed_tokens r ∧ s_generator s' = s_generator s ∧ s_bad_words s' = s_bad_words s ∧
  s_mask s' = s_mask s.
Proof.
  intros [Ht Hfl] Hr. pose proof Hr as [Hn Hp Ho Hf]. pose proof (length_prompt_flags _ _ _ Hr) as Hpf.
  unfold write_tokens, num_tokens. rewrite Hn. cbn [mbind result_bind].
  assert (∃ p, length p = n ∧ match prompt_token_ids r with Some l => np_assign (s_token_ids s) 0 (Z.of_nat n) (NpList l) | None => Ok (s_token_ids s) end
    = Ok (p ++ drop n (s_token_ids s)) ∧ known_tokens p (prompt_flags r n) ++ (Some <$> output_token_ids r) = request_known r n) as (p & Hpl & Ep & Hk).
  { unfold request_known. destruct (prompt_token_ids r) as [l|] eqn:El.
    - destruct Hp as (Hl & Hi & _). exists l. split; [done|]. split; [|done].
      replace (Z.of_nat n) with (0 + zlen l) by (unfold zlen; lia).
      rewrite (np_assign_fits _ _ _ l) by ((by apply (np_cast_id (NpList l))) || (unfold zlen; lia)). by rewrite Hl.
    - exists (take n (s_token_ids s)). split; [rewrite length_take; lia|]. rewrite take_drop. split; [done|].
      unfold prompt_flags. rewrite El. rewrite known_tokens_false; [done|]. rewrite length_take. lia. }
  rewrite Ep. cbn [mbind result_bind]. rewrite (write_flags w) by done. cbn [mbind result_bind].
  unfold np_assign. rewrite (np_cast_id (NpList (output_token_ids r))) by done. cbn [mbind result_bind].
  rewrite put_two by lia. cbn [mbind result_bind].
  rewrite np_put_fill; [|unfold zlen; lia|unfold zlen; rewrite length_app, length_drop; lia]. cbn [mbind result_bind].
  replace (Z.to_nat (Z.of_nat n + zlen (output_token_ids r))) with (n + length (output_token_ids r))%nat by (unfold zlen; lia).
  replace (Z.to_nat (Z.of_nat n + zlen (output_token_ids r) - Z.of_nat n)) with (length (output_token_ids r)) by (unfold zlen; lia).
  rewrite Nat2Z.id, (take_app_length' (prompt_flags r n)) by done.
  eexists. split; [reflexivity|]. cbn. set (m := length (output_token_ids r)) in *.
  assert (take (n + m) (prompt_flags r n ++ replicate m true ++ drop (n + m) (prompt_flags r n ++ drop n (s_is_token_ids s)))
    = prompt_flags r n ++ replicate m true) as Hflags.
  { rewrite app_assoc, take_app_le, take_ge; [done|rewrite length_app, length_replicate; lia..]. }
  assert (take (n + m) (p ++ output_token_ids r ++ drop (n + m) (s_token_ids s)) = p ++ output_token_ids r) as Htoks.
  { rewrite app_assoc, take_app_le, take_ge; [done|rewrite length_app; lia..]. }
  split_and!; try done.
  - split; cbn; rewrite ?length_app, ?length_drop, ?length_app, ?length_drop, ?length_replicate; lia.
  - rewrite Hflags, Htoks, known_tokens_app, known_tokens_true by lia || done. exact Hk.
Qed.

(** ** Holes *)

Fixpoint holes_from (k : nat) (ids : list (option string)) : list Z :=
  match ids with
  | [] => []
  | None :: ids => Z.of_nat k :: holes_from (S k) ids
  | Some _ :: ids => holes_from (S k) ids
  end.

Lemma elem_of_holes_from k ids z : z ∈ holes_from k ids ↔ ∃ i, z = Z.of_nat (k + i) ∧ ids !! i = Some None.
Proof.
  revert k. induction ids as [|o ids IH]; intros k; simpl; [set_solver|].
  assert (z ∈ holes_from (S k) ids ↔ ∃ i, z = Z.of_nat (k + S i) ∧ (o :: ids) !! S i = Some None) as IH'.
  { rewrite IH. split; intros (i & -> & Hi); exists i; (split; [lia|done]). }
  destruct o as [id|].
  - rewrite IH'. split; [intros (i & Hi); eauto|]. intros ([|i] & Hz & Hi); [done|eauto].
  - rewrite elem_of_cons, IH'. split.
    + intros [->|(i & Hi)]; [exists 0%nat; split; [lia|done]|eauto].
    + intros ([|i] & Hz & Hi); [left; lia|eauto].
Qed.
Lemma NoDup_holes_from k ids : NoDup (holes_from k ids).
Proof.
  revert k. induction ids as [|[id|] ids IH]; intros k; simpl; [constructor|done|].
  constructor; [|done]. rewrite elem_of_holes_from. intros (i & Hi & _). lia.
Qed.
Lemma length_holes_from k ids : (length (holes_from k ids) + length (omap id ids) = length ids)%nat.
Proof. revert k. induction ids as [|[id'|] ids IH]; intros k; simpl; [done|..]; specialize (IH (S k)); unfold omap in IH; lia. Qed.

Definition bu (b : InputBatch) := batch_update_builder b.

(** The builder knows the holes. *)
Record holes_ok (b : InputBatch) : Prop := {
  ho_nodup : NoDup (_removed (bu b));
  ho_holes : ∀ z, z ∈ _removed (bu b) ↔ ∃ i, z = Z.of_nat i ∧ _req_ids b !! i = Some None;
  ho_sorted : _is_removed_sorted (bu b) = true → StronglySorted descending (_removed (bu b));
}.

Lemma holes_perm b : holes_ok b → _removed (bu b) ≡ₚ holes_from 0 (_req_ids b).
Proof.
  intros [Hn Hh _]. apply NoDup_Permutation; [done|apply NoDup_holes_from|].
  intros z. by rewrite Hh, elem_of_holes_from.
Qed.

Lemma live_inj w b gs i j id : batch_ok w b gs → live b i id → live b j id → i = j.
Proof.
  intros Hb Hi Hj. assert (dict_get (req_id_to_index b) id = Some (Z.of_nat i)) by (apply (bo_index _ _ _ Hb); eauto).
  assert (dict_get (req_id_to_index b) id = Some (Z.of_nat j)) by (apply (bo_index _ _ _ Hb); eauto). simplify_eq. lia.
Qed.

Lemma omap_id_nodup (ids : list (option string)) :
  (∀ i j id, ids !! i = Some (Some id) → ids !! j = Some (Some id) → i = j) → NoDup (omap id ids).
Proof.
  induction ids as [|[x|] ids IH]; intros Hu; simpl.
  - constructor.
  - constructor; [|apply IH; intros i j y Hi Hj; specialize (Hu (S i) (S j) y Hi Hj); lia].
    intros (o & Ho & Hx)%list_elem_of_omap. simpl in Hx. subst o. apply list_elem_of_lookup in Ho as [j Hj].
    specialize (Hu 0%nat (S j) x eq_refl Hj). done.
  - apply IH; intros i j y Hi Hj; specialize (Hu (S i) (S j) y Hi Hj); lia.
Qed.

(** The requests of the batch, each counted once. *)
Lemma batch_keys_perm w b gs : batch_ok w b gs → (req_id_to_index b).*1 ≡ₚ omap id (_req_ids b).
Proof.
  intros Hb. apply NoDup_Permutation; [apply (bo_keys _ _ _ Hb)| |].
  { apply omap_id_nodup. intros i j id. by eapply live_inj. }
  intros id. rewrite <-dict_get_is_Some, list_elem_of_omap. split.
  - intros [z Hz]. apply (bo_index _ _ _ Hb) in Hz as (i & _ & Hi). exists (Some id). split; [|done].
    by eapply list_elem_of_lookup_2.
  - intros (o & Ho & Hx). simpl in Hx. subst o. apply list_elem_of_lookup in Ho as [i Hi].
    exists (Z.of_nat i). apply (bo_index _ _ _ Hb). eauto.
Qed.
Lemma num_reqs_holes w b gs : batch_ok w b gs → holes_ok b →
  num_reqs b + zlen (_removed (bu b)) = zlen (_req_ids b).
Proof.
  intros Hb Hh. pose proof (length_holes_from 0 (_req_ids b)) as Hl. rewrite <-(holes_perm b Hh) in Hl.
  rewrite <-(batch_keys_perm w b gs Hb), length_fmap in Hl. unfold num_reqs, zlen. lia.
Qed.

(** ** The builder *)

#[local] Instance descending_trans : Transitive descending.
Proof. unfold descending. intros ? ? ? ? ?. lia. Qed.
#[local] Instance descending_total : Total descending.
Proof. unfold descending. intros ? ?. lia. Qed.

Lemma ensure_sorted {A} (u : BatchUpdateBuilder A) :
  (_is_removed_sorted u = true → StronglySorted descending (_removed u)) →
  ∃ l, _ensure_removed_sorted u = set_removed l true u ∧ l ≡ₚ _removed u ∧ StronglySorted descending l.
Proof.
  intros Hs. unfold _ensure_removed_sorted. destruct (_is_removed_sorted u) eqn:E.
  - exists (_removed u). split; [|auto]. destruct u. simpl in *. by subst.
  - eexists. split; [done|]. split; [apply merge_sort_Permutation|]. apply StronglySorted_merge_sort; apply _.
Qed.

Lemma sorted_last (l : list Z) : l ≠ [] → StronglySorted descending l →
  ∃ z l', l = l' ++ [z] ∧ StronglySorted descending l' ∧ ∀ y, y ∈ l' → z ≤ y.
Proof.
  intros Hl Hs. destruct (exists_last Hl) as (l' & z & ->). exists z, l'. split; [done|].
  apply StronglySorted_app in Hs as (H1 & H2 & _). split; [done|]. intros y Hy. apply H1; [done|]. by left.
Qed.

Lemma pop_removed_ok {A} (u : BatchUpdateBuilder A) : _removed u ≠ [] →
  (_is_removed_sorted u = true → StronglySorted descending (_removed u)) →
  ∃ z l, pop_removed u = Ok (Some z, set_removed l true u) ∧ peek_removed u = Ok (Some z, set_removed (l ++ [z]) true u) ∧
    l ++ [z] ≡ₚ _removed u ∧ StronglySorted descending l ∧ StronglySorted descending (l ++ [z]) ∧ ∀ y, y ∈ l → z ≤ y.
Proof.
  intros Hne Hs. destruct (ensure_sorted u Hs) as (l0 & E & Hp & Hs0).
  destruct (sorted_last l0) as (z & l & -> & Hl & Hz); [|done|].
  { intros ->. by apply Permutation_nil_l in Hp. }
  exists z, l. unfold pop_removed, peek_removed, has_removed. rewrite E. destruct (_removed u) as [|x xs] eqn:Hu; [done|].
  simpl. rewrite last_snoc, length_app, Nat.add_sub, take_app_length. done.
Qed.

(** ** Adding a request *)

Definition kind_ok (b : InputBatch) (r : CachedRequestState) : Prop :=
  if is_pooling_model b
  then sampling_params r = None ∧ is_Some (pooling_params r) ∧ is_Some (pooling_states r)
  else ∃ sp, sampling_params r = Some sp ∧ ∀ row, ∃ row', allowed_mask (vocab_size b) sp row = Ok row'.

Record request_ok (w : nat) (b : InputBatch) (gs : list group) (r : CachedRequestState) (n : nat) : Prop := {
  ro_tokens : tokens_fit w r n;
  ro_embeds : forallb id (prompt_flags r n) = false → is_Some (prompt_embeds r);
  ro_blocks : ∀ i g, gs !! i = Some g → (i < length (block_ids r))%nat ∧ ids_fit g [] (block_ids r !!! i) = true;
  ro_kind : kind_ok b r;
}.

(** What the batch has to hold for a request. *)
Definition request_tags (pooling : bool) (vocab : Z) (r : CachedRequestState) : Tags :=
  match sampling_params r with
  | Some sp =>
      {| t_sets := [bool_decide (sampling_type sp = GREEDY); negb (bool_decide (sampling_type sp = GREEDY));
           f_ltb (top_p sp) f_one; top_k_in_use vocab sp; negb (f_eqb (frequency_penalty sp) f_zero);
           negb (f_eqb (presence_penalty sp) f_zero); negb (f_eqb (repetition_penalty sp) f_one); uses_mask sp];
         t_num_logprobs := (λ n, if n =? -1 then vocab else n) <$> logprobs sp;
         t_logprob_token_ids := sp_logprob_token_ids sp; t_pooling_params := None; t_pooling_states := None |}
  | None => Build_Tags (replicate 8 false) None None (pooling_params r) (pooling_states r)
  end.
Definition request_sampling (vocab : Z) (r : CachedRequestState) : option Sampling :=
  (λ sp, Build_Sampling (if bool_decide (sampling_type sp = GREEDY) then f32 f_zero else f32 (temperature sp))
     (f32 (top_p sp)) (if top_k_in_use vocab sp then top_k sp else vocab) (f32 (frequency_penalty sp))
     (f32 (presence_penalty sp)) (f32 (repetition_penalty sp)) 1 (generator r)
     (match sp_bad_words_token_ids sp with Some (w :: ws) => Some (w :: ws) | _ => None end)) <$> sampling_params r.

Definition request_view (pooling : bool) (vocab : Z) (pers : list Z) (r : CachedRequestState) (n : nat) : View :=
  {| v_tokens := request_known r n;
     v_embeds := if forallb id (prompt_flags r n) then None else prompt_embeds r;
     v_drafts := []; v_out := Some (out_ref r);
     v_num_tokens := Z.of_nat n + zlen (output_token_ids r); v_num_prompt := Z.of_nat n;
     v_num_computed := num_computed_tokens r;
     v_lora := match lora_request r with Some l => lora_int_id l | None => 0 end;
     v_blocks := imap (λ i per, expand per (block_ids r !!! i)) pers;
     v_sampling := request_sampling vocab r;
     v_tags := request_tags pooling vocab r |}.

(** Write at an index of a list or at its end. *)
Definition put_at {A} (l : list A) (j : nat) (x : A) : list A := if decide (j = length l) then l ++ [x] else <[j := x]> l.
Lemma lookup_put_at {A} (l : list A) j x i : (j ≤ length l)%nat →
  put_at l j x !! i = if decide (i = j) then Some x else l !! i.
Proof.
  intros Hj. unfold put_at. destruct (decide (j = length l)) as [->|Hne].
  - destruct (decide (i = length l)) as [->|Hi]; [by rewrite lookup_app_r, Nat.sub_diag by lia|].
    destruct (decide (i < length l)%nat); [by rewrite lookup_app_l|].
    rewrite lookup_app_r by lia. rewrite (lookup_ge_None_2 l) by lia. destruct (i - length l)%nat eqn:E; [lia|done].
  - destruct (decide (i = j)) as [->|Hi]; [apply list_lookup_insert_eq; lia|]. by rewrite list_lookup_insert_ne.
Qed.
Lemma length_put_at {A} (l : list A) j x : (j ≤ length l)%nat → length (put_at l j x) = Nat.max (length l) (S j).
Proof. intros Hj. unfold put_at. destruct (decide _); [rewrite length_app; simpl; lia|rewrite length_insert; lia]. Qed.

(** The index of a new request: the lowest hole, or the end. *)
Lemma register_ok w b gs r : batch_ok w b gs → holes_ok b → num_reqs b < max_num_reqs b →
  ∃ j u, _register_add_request r b = Ok (Z.of_nat j, set_builder u b) ∧ (j ≤ length (_req_ids b))%nat ∧
    (j < length (slots b))%nat ∧ (∀ id, ¬ live b j id) ∧
    (_removed u ++ (if decide (j = length (_req_ids b)) then [] else [Z.of_nat j]) ≡ₚ _removed (bu b)) ∧
    (_is_removed_sorted u = true → StronglySorted descending (_removed u)) ∧ moved u = moved (bu b) ∧
    added u = added (bu b) ++ match sampling_params r with Some sp => [(Z.of_nat j, (sp, prompt_token_ids r, out_ref r))] | None => [] end.
Proof.
  intros Hb Hh Hcap. pose proof (num_reqs_holes w b gs Hb Hh) as Hn. pose proof (bo_slots _ _ _ Hb) as Hs.
  pose proof (bo_cap _ _ _ Hb) as Hc. unfold _register_add_request.
  assert (∃ j o u, on_builder pop_removed b = Ok (o, set_builder u b) ∧ default (num_reqs b) o = Z.of_nat j ∧
    (j ≤ length (_req_ids b))%nat ∧ (j < length (slots b))%nat ∧ (∀ id, ¬ live b j id) ∧
    (_removed u ++ (if decide (j = length (_req_ids b)) then [] else [Z.of_nat j]) ≡ₚ _removed (bu b)) ∧
    (_is_removed_sorted u = true → StronglySorted descending (_removed u)) ∧ moved u = moved (bu b) ∧ added u = added (bu b))
    as (j & o & u & E & Ho & H1 & H2 & H3 & H4 & H5 & H6 & H7).
  { unfold on_builder, zoom. destruct (_removed (bu b)) as [|x xs] eqn:Hr.
    - exists (length (_req_ids b)), None, (bu b). unfold pop_removed, has_removed, bu in *. rewrite Hr. split_and!; try done.
      + simpl. unfold zlen in Hn. simpl in Hn. lia.
      + unfold zlen in Hn. simpl in Hn. lia.
      + intros id Hl. apply lookup_lt_Some in Hl. lia.
      + by rewrite decide_True.
      + intros _. constructor.
    - destruct (pop_removed_ok (bu b)) as (z & l & E & _ & Hp & Hl & _ & _); [by rewrite Hr|apply (ho_sorted _ Hh)|].
      assert (z ∈ _removed (bu b)) as Hz by (rewrite <-Hp; set_solver).
      apply (ho_holes _ Hh) in Hz as (j & -> & Hj). pose proof (lookup_lt_Some _ _ _ Hj).
      exists j, (Some (Z.of_nat j)), (set_removed l true (bu b)). unfold bu in *. rewrite E. split_and!; try done; try lia.
      + intros id Hl'. unfold live in Hl'. congruence.
      + rewrite decide_False by lia. simpl. by rewrite <-Hr. }
  rewrite (bind_ok _ _ _ _ _ E). unfold get at 1, mbind at 1, M_bind. cbn [num_reqs req_id_to_index set_builder].
  change (num_reqs (set_builder u b)) with (num_reqs b). rewrite Ho.
  unfold py_assert. change (max_num_reqs (set_builder u b)) with (max_num_reqs b). rewrite (proj2 (Z.ltb_lt _ _)) by lia.
  exists j. destruct (sampling_params r) as [sp|]; eexists; (split; [reflexivity|]); cbn; rewrite H7; split_and!; try done.
  by rewrite app_nil_r.
Qed.

Definition drafts_put (b : InputBatch) (j : nat) : list (list Z) :=
  if decide (j = length (_req_ids b)) then spec_token_ids b ++ [[]] else <[j := []]> (spec_token_ids b).

Lemma enter_ids_ok w b gs r j : batch_ok w b gs → (j ≤ length (_req_ids b))%nat →
  enter_ids r (Z.of_nat j) b = Ok (tt, set_ids b (put_at (_req_ids b) j (Some (req_id r)))
    (put_at (req_output_token_ids b) j (Some (out_ref r))) (drafts_put b j)
    (dict_set (req_id_to_index b) (req_id r) (Z.of_nat j))).
Proof.
  intros Hb Hj. pose proof (bo_outs _ _ _ Hb) as Ho. pose proof (bo_specs _ _ _ Hb) as Hs.
  unfold enter_ids, put_at, drafts_put. rewrite Ho.
  destruct (decide (j = length (_req_ids b))) as [->|Hne].
  - unfold zlen. rewrite Z.eqb_refl. done.
  - destruct (Z.eqb_spec (Z.of_nat j) (zlen (_req_ids b))) as [He|_]; [unfold zlen in He; lia|].
    rewrite !np_set_nat by lia. done.
Qed.

Lemma on_slot_ok (f : Slot → result Slot) j b s s' : slots b !! j = Some s → f s = Ok s' →
  on_slot (Z.of_nat j) f b = Ok (tt, set_slots b (<[j := s']> (slots b)) (has_mask b)).
Proof.
  intros Hs Hf. unfold on_slot. rewrite (py_index_nat _ _ _ Hs). cbn [mbind result_bind]. rewrite Hf.
  cbn [mbind result_bind]. by rewrite np_set_nat by (by eapply lookup_lt_Some).
Qed.

Lemma on_table_ok op b gs : Forall2 table_ok (block_table b) gs → groups_fit op gs = true →
  ∃ ts, on_table (run_op op) b = Ok (tt, set_table b ts) ∧ Forall2 table_ok ts (groups_after op gs).
Proof.
  intros Ht Hf. destruct (run_op_ok op _ _ Ht Hf) as (ts & E & Hts). exists ts. unfold on_table, zoom. by rewrite E.
Qed.

Lemma groups_fit_all op gs : (∀ i g, gs !! i = Some g → op_fits op i g = true) → groups_fit op gs = true.
Proof.
  intros Hg. unfold groups_fit. apply forallb_forall. intros x Hx. apply list_elem_of_In, list_elem_of_lookup in Hx as [i Hi].
  rewrite list_lookup_imap in Hi. destruct (gs !! i) as [g|] eqn:E; [|done]. simpl in Hi. injection Hi as <-. by apply Hg.
Qed.

Lemma in_add_if c id' (X : gset string) id :
  bool_decide (id ∈ add_if c id' X) = if decide (id = id') then c || bool_decide (id ∈ X) else bool_decide (id ∈ X).
Proof.
  unfold add_if. destruct c; [|by destruct (decide _)]. destruct (decide (id = id')) as [->|Hne]; simpl.
  - rewrite bool_decide_true; [done|set_solver].
  - apply bool_decide_ext. set_solver.
Qed.

Lemma mark_sampling_tags b vocab id sp prev :
  tags b id = no_tags →
  tags (set_marks b (mark_sampling vocab id sp (marks b)) prev) id =
    Build_Tags [bool_decide (sampling_type sp = GREEDY); negb (bool_decide (sampling_type sp = GREEDY));
           f_ltb (top_p sp) f_one; top_k_in_use vocab sp; negb (f_eqb (frequency_penalty sp) f_zero);
           negb (f_eqb (presence_penalty sp) f_zero); negb (f_eqb (repetition_penalty sp) f_one); uses_mask sp]
      ((λ n, if n =? -1 then vocab else n) <$> logprobs sp) (sp_logprob_token_ids sp) None None ∧
  ∀ id', id' ≠ id → tags (set_marks b (mark_sampling vocab id sp (marks b)) prev) id' = tags b id'.
Proof.
  intros Ht. injection Ht as T1 T2 T3 T4 T5 T6 T7 T8 T9 T10 T11 T12. unfold tags. simpl. split.
  - rewrite !in_add_if. rewrite !decide_True by done. rewrite T1, T2, T3, T4, T5, T6, T7, T8, T11, T12, !orb_false_r.
    f_equal; [destruct (logprobs sp)|destruct (sp_logprob_token_ids sp)]; simpl; try done;
      rewrite dict_get_set; by rewrite decide_True.
  - intros id' Hne. rewrite !in_add_if. rewrite !decide_False by done.
    f_equal; [destruct (logprobs sp)|destruct (sp_logprob_token_ids sp)]; simpl; try done;
      rewrite dict_get_set; by rewrite decide_False.
Qed.

(** The parameters: the slot, and the entries under the id. *)
Lemma enter_params_ok b r j s : kind_ok b r → slots b !! j = Some s → slot_free s →
  NoDup (num_logprobs (marks b)).*1 ∧ NoDup (logprob_token_ids (marks b)).*1 ∧
    NoDup (ib_pooling_params b).*1 ∧ NoDup (ib_pooling_states b).*1 → tags b (req_id r) = no_tags →
  ∃ s' m pp ps mask, enter_params r (Z.of_nat j) b =
      Ok (tt, set_slots (set_marks (set_pooling b pp ps) m (prev_req_id_to_index b)) (<[j := s']> (slots b)) mask) ∧
    (s_token_ids s', s_is_token_ids s', s_prompt_embeds s', s_num_tokens_no_spec s', s_num_prompt_tokens s', s_num_computed_tokens s') =
    (s_token_ids s, s_is_token_ids s, s_prompt_embeds s, s_num_tokens_no_spec s, s_num_prompt_tokens s, s_num_computed_tokens s) ∧
    (∀ l, (if is_pooling_model b then None else Some (slot_sampling (set_accepted_lora 1 l s'))) = request_sampling (vocab_size b) r) ∧
    (is_pooling_model b = true → slot_free s') ∧
    let b' := set_marks (set_pooling b pp ps) m (prev_req_id_to_index b) in
    tags b' (req_id r) = request_tags (is_pooling_model b) (vocab_size b) r ∧
    (∀ id, id ≠ req_id r → tags b' id = tags b id) ∧
    NoDup (num_logprobs m).*1 ∧ NoDup (logprob_token_ids m).*1 ∧ NoDup pp.*1 ∧ NoDup ps.*1.
Proof.
  intros Hk Hs [Hg Hw] (N1 & N2 & N3 & N4) Ht. unfold enter_params, kind_ok in *. unfold get at 1, mbind at 1, M_bind.
  destruct (is_pooling_model b) eqn:Ep.
  - destruct Hk as (Hsp & [pp Hpp] & [st Hst]). rewrite Hsp, Hpp, Hst.
    unfold modify at 1, mbind at 1, M_bind.
    erewrite on_slot_ok by done.
    exists (set_needs (requires_token_ids pp) s), (marks b), (dict_set (ib_pooling_params b) (req_id r) pp),
      (dict_set (ib_pooling_states b) (req_id r) st), (has_mask b).
    split; [by destruct b|]. split; [done|]. split; [intros l; unfold request_sampling; by rewrite Hsp|]. split; [done|].
    injection Ht as T1 T2 T3 T4 T5 T6 T7 T8 T9 T10 T11 T12. unfold tags, request_tags. rewrite Hsp, Hpp, Hst. simpl.
    rewrite T1, T2, T3, T4, T5, T6, T7, T8, T9, T10, !dict_get_set, !decide_True by done.
    split; [done|]. split; [|split_and!; auto using dict_set_nodup].
    intros id Hne. by rewrite !dict_get_set, !decide_False by done.
  - destruct Hk as (sp & Hsp & Hm). rewrite Hsp. destruct (Hm (s_mask s)) as [row Hrow].
    edestruct (mark_sampling_tags b (vocab_size b) (req_id r) sp (prev_req_id_to_index b) Ht) as [M1 M2].
    destruct (write_sampling (vocab_size b) r sp s) as [s2|] eqn:Ew; unfold write_sampling in Ew; rewrite Hrow in Ew; [|done].
    rewrite (bind_ok _ _ b tt _ (on_slot_ok (write_sampling (vocab_size b) r sp) j b s s2 Hs
      ltac:(unfold write_sampling; rewrite Hrow; exact Ew))). injection Ew as <-.
    eexists _, (mark_sampling (vocab_size b) (req_id r) sp (marks b)), (ib_pooling_params b), (ib_pooling_states b), (has_mask b || uses_mask sp).
    split; [destruct b; reflexivity|]. split; [done|]. split.
    { intros l. unfold request_sampling. rewrite Hsp. simpl. unfold slot_sampling. simpl. rewrite Hg, Hw.
      by destruct (generator r), (sp_bad_words_token_ids sp) as [[]|]. }
    split; [done|]. unfold request_tags. rewrite Hsp. split; [exact M1|]. split; [exact M2|]. simpl. split_and!; try done.
    + destruct (logprobs sp); [by apply dict_set_nodup|done].
    + destruct (sp_logprob_token_ids sp); [by apply dict_set_nodup|done].
Qed.

(** The LoRA tables with the adapter of a request. *)
Definition lora_ids_with (b : InputBatch) (r : CachedRequestState) : list (Z * gset string) :=
  match lora_request r with
  | Some l => dict_set (lora_id_to_request_ids b) (lora_int_id l)
                ({[req_id r]} ∪ default ∅ (dict_get (lora_id_to_request_ids b) (lora_int_id l)))
  | None => lora_id_to_request_ids b
  end.
Definition lora_reqs_with (b : InputBatch) (r : CachedRequestState) : list (Z * LoRARequest) :=
  match lora_request r with
  | Some l => dict_set (lora_id_to_lora_request b) (lora_int_id l) l
  | None => lora_id_to_lora_request b
  end.

Lemma enter_lora_ok b r j s : slots b !! j = Some s →
  let lora := match lora_request r with Some l => lora_int_id l | None => 0 end in
  enter_lora r (Z.of_nat j) b =
    Ok (tt, set_lora (set_slots b (<[j := set_accepted_lora 1 lora s]> (slots b)) (has_mask b))
      (lora_ids_with b r) (lora_reqs_with b r)).
Proof.
  intros Hs lora. unfold enter_lora. rewrite (bind_ok _ _ b tt _ (on_slot_ok (λ s, Ok (set_accepted_lora 1 lora s)) j b s _ Hs eq_refl)).
  unfold lora_ids_with, lora_reqs_with. destruct (lora_request r) as [l|]; [done|]. by destruct b.
Qed.

Lemma blocks_at_add gs ids j i : Forall (λ g, (j < length (g_rows g))%nat) gs →
  blocks_at (groups_after (OAdd ids j) gs) i =
  if decide (i = j) then imap (λ k g, expand (g_per g) (ids !!! k)) gs else blocks_at gs i.
Proof.
  intros Hg. unfold blocks_at, groups_after. rewrite fmap_imap. destruct (decide (i = j)) as [->|Hne].
  - apply imap_ext. intros k g Hk. simpl. rewrite list_lookup_total_insert_eq; [done|].
    by eapply (Forall_lookup_1 (λ g, (j < length (g_rows g))%nat)).
  - rewrite <-imap_const. apply imap_ext. intros k g _. simpl. by rewrite list_lookup_total_insert_ne.
Qed.

(** What [add_request] leaves, field by field. *)
Record added_at (w : nat) (b : InputBatch) (gs : list group) (r : CachedRequestState) (n j : nat) (s' : Slot) (b' : InputBatch) : Prop := {
  aa_end : (j ≤ length (_req_ids b))%nat;
  aa_slot : (j < length (slots b))%nat;
  aa_free : ∀ id, ¬ live b j id;
  aa_ok : slot_ok w s';
  aa_active : slot_active w s' [];
  aa_pool : is_pooling_model b = true → slot_free s';
  aa_view : view (is_pooling_model b) s' [] (Some (out_ref r)) (imap (λ k g, expand (g_per g) (block_ids r !!! k)) gs)
      (request_tags (is_pooling_model b) (vocab_size b) r) = request_view (is_pooling_model b) (vocab_size b) (g_per <$> gs) r n;
  aa_config : (is_pooling_model b', max_num_reqs b', vocab_size b') = (is_pooling_model b, max_num_reqs b, vocab_size b);
  aa_ids : _req_ids b' = put_at (_req_ids b) j (Some (req_id r));
  aa_outs : req_output_token_ids b' = put_at (req_output_token_ids b) j (Some (out_ref r));
  aa_specs : spec_token_ids b' = drafts_put b j;
  aa_index : req_id_to_index b' = dict_set (req_id_to_index b) (req_id r) (Z.of_nat j);
  aa_slots : slots b' = <[j := s']> (slots b);
  aa_tables : Forall2 table_ok (block_table b') (groups_after (OAdd (block_ids r) j) gs);
  aa_tags : tags b' (req_id r) = request_tags (is_pooling_model b) (vocab_size b) r;
  aa_others : ∀ id, id ≠ req_id r → tags b' id = tags b id;
  aa_dicts : NoDup (num_logprobs (marks b')).*1 ∧ NoDup (logprob_token_ids (marks b')).*1 ∧
      NoDup (ib_pooling_params b').*1 ∧ NoDup (ib_pooling_states b').*1;
  aa_lora_ids : lora_id_to_request_ids b' = lora_ids_with b r;
  aa_lora_reqs : lora_id_to_lora_request b' = lora_reqs_with b r;
  aa_removed : _removed (bu b') ++ (if decide (j = length (_req_ids b)) then [] else [Z.of_nat j]) ≡ₚ _removed (bu b);
  aa_sorted : _is_removed_sorted (bu b') = true → StronglySorted descending (_removed (bu b'));
  aa_moved : moved (bu b') = moved (bu b);
  aa_added : added (bu b') = added (bu b) ++
    match sampling_params r with Some sp => [(Z.of_nat j, (sp, prompt_token_ids r, out_ref r))] | None => [] end;
}.

Lemma add_request_eval w b gs r n : batch_ok w b gs → holes_ok b → num_reqs b < max_num_reqs b →
  request_ok w b gs r n → (∀ i, ¬ live b i (req_id r)) →
  ∃ j s' b', add_request r b = Ok (Z.of_nat j, b') ∧ added_at w b gs r n j s' b'.
Proof.
  intros Hb Hh Hcap [Htf Hem Hbl Hk] Hnl.
  destruct (register_ok w b gs r Hb Hh Hcap) as (j & u & E1 & Hj & Hjs & Hjl & Hu1 & Hu2 & Hu3 & Hu4).
  destruct (lookup_lt_is_Some_2 _ _ Hjs) as [s0 Hs0].
  assert (slot_ok w s0) as Hs0ok by (by eapply Forall_lookup_1; [apply (bo_rows _ _ _ Hb)|]).
  destruct (write_tokens_ok w r n s0 Hs0ok Htf) as (s1 & Ew & Hs1 & Hkn & Hfl & Hemb & Hnt & Hnp & Hnc & Hgen & Hbw & _).
  assert (slot_free s1) as Hs1f. { unfold slot_free. rewrite Hgen, Hbw. by apply (bo_free _ _ _ Hb j). }
  unfold add_request. rewrite (bind_ok _ _ _ _ _ E1).
  set (b1 := set_builder u b).
  assert (enter_ids r (Z.of_nat j) b1 = Ok (tt, set_ids b1 (put_at (_req_ids b) j (Some (req_id r)))
    (put_at (req_output_token_ids b) j (Some (out_ref r))) (drafts_put b j) (dict_set (req_id_to_index b) (req_id r) (Z.of_nat j)))) as E2.
  { pose proof (enter_ids_ok w b gs r j Hb Hj) as E2. unfold enter_ids in *. revert E2.
    change (_req_ids b1) with (_req_ids b). change (req_output_token_ids b1) with (req_output_token_ids b).
    change (spec_token_ids b1) with (spec_token_ids b). change (req_id_to_index b1) with (req_id_to_index b).
    destruct (if _ =? _ then _ else _) as [[[ids outs] specs]|]; [|done]. simpl. intros [= -> -> ->]. done. }
  rewrite (bind_ok _ _ _ _ _ E2). set (b2 := set_ids b1 _ _ _ _).
  rewrite (bind_ok _ _ _ _ _ (on_slot_ok (write_tokens r) j b2 s0 s1 Hs0 Ew)). set (b3 := set_slots b2 _ _).
  destruct (on_table_ok (OAdd (block_ids r) j) b3 gs) as (ts & E4 & Hts); [apply (bo_tables _ _ _ Hb)| |].
  { apply groups_fit_all. intros i g Hg. destruct (Hbl i g Hg) as [H1 H2]. simpl.
    assert (length (g_rows g) = length (slots b)) as -> by (by eapply (Forall_lookup_1 (λ g, length (g_rows g) = length (slots b))); [apply (bo_groups _ _ _ Hb)|]).
    rewrite (proj2 (Nat.ltb_lt _ _)), (proj2 (Nat.ltb_lt _ _)) by done. done. }
  change (multi_add_row (block_ids r) (Z.of_nat j)) with (run_op (OAdd (block_ids r) j)).
  rewrite (bind_ok _ _ _ _ _ E4). set (b4 := set_table b3 ts).
  assert (slots b4 !! j = Some s1) as Hs1l by (apply list_lookup_insert_eq; done).
  destruct (enter_params_ok b4 r j s1) as (s2 & m & pp & ps & mask & E5 & Hs2 & Hsam & Hpf & Htag1 & Htag2 & Hnd); [done|done|done| | |].
  { apply (bo_dicts _ _ _ Hb). } { by apply (bo_tags _ _ _ Hb). }
  rewrite (bind_ok _ _ _ _ _ E5). set (b5 := set_slots _ _ _).
  assert (slots b5 !! j = Some s2) as Hs2l by (apply list_lookup_insert_eq; simpl; by rewrite length_insert).
  rewrite (bind_ok _ _ _ _ _ (enter_lora_ok b5 r j s2 Hs2l)).
  injection Hs2 as S1 S2 S3 S4 S5 S6.
  eexists j, (set_accepted_lora 1 (match lora_request r with Some l => lora_int_id l | None => 0 end) s2), _.
  split; [reflexivity|]. split; try done.
  - split; simpl; rewrite ?S1, ?S2; apply Hs1.
  - assert (active s2 [] = n + length (output_token_ids r))%nat as Hac by (unfold active; rewrite S4, Hnt; unfold zlen; simpl; lia).
    pose proof (tf_fits _ _ _ Htf). split; [|split].
    + simpl. rewrite S4, Hnt. unfold zlen. lia.
    + simpl. rewrite S4, Hnt. unfold zlen. lia.
    + unfold all_known. simpl. rewrite S2, S3, S4, Hnt.
      replace (Z.to_nat (Z.of_nat n + zlen (output_token_ids r))) with (n + length (output_token_ids r))%nat by (unfold zlen; lia).
      rewrite Hfl, Hemb, forallb_app, forallb_replicate_true, andb_true_r.
      intros Hf. destruct (Hem Hf) as [e ->]. done.
  - unfold view, request_view, active, all_known. cbn -[request_known]. rewrite S1, S2, S3, S4, S5, S6, Hnt, Hnp, Hnc, imap_fmap.
    replace (Z.to_nat (Z.of_nat n + zlen (output_token_ids r))) with (n + length (output_token_ids r))%nat by (unfold zlen; lia).
    replace (Z.to_nat (Z.of_nat n + zlen (output_token_ids r) + zlen [])) with (n + length (output_token_ids r))%nat by (unfold zlen; simpl; lia).
    rewrite Hkn, Hfl, forallb_app. f_equal.
    + rewrite forallb_replicate_true, andb_true_r, Hemb.
      destruct (forallb id (prompt_flags r n)); [done|]. destruct (Hem eq_refl) as [e ->]. done.
    + apply Hsam.
  - simpl. by rewrite list_insert_insert_eq, list_insert_insert_eq.
Qed.

Lemma live_slot w b gs i id : batch_ok w b gs → live b i id →
  ∃ s drafts out, slots b !! i = Some s ∧ spec_token_ids b !! i = Some drafts ∧ req_output_token_ids b !! i = Some out.
Proof.
  intros Hb Hl. apply lookup_lt_Some in Hl. pose proof (bo_cap _ _ _ Hb). pose proof (bo_outs _ _ _ Hb).
  pose proof (bo_specs _ _ _ Hb).
  destruct (lookup_lt_is_Some_2 (slots b) i) as [s Hs]; [lia|].
  destruct (lookup_lt_is_Some_2 (spec_token_ids b) i) as [d Hd]; [lia|].
  destruct (lookup_lt_is_Some_2 (req_output_token_ids b) i) as [o Ho]; [lia|]. eauto 10.
Qed.

Lemma cell_live b gs i id v : cell b gs i = Some (id, v) → live b i id.
Proof.
  unfold cell, live. destruct (_req_ids b !! i) as [[x|]|]; simpl; [|done|done].
  destruct (slots b !! i); simpl; [|done]. destruct (spec_token_ids b !! i); simpl; [|done].
  destruct (req_output_token_ids b !! i); simpl; [|done]. congruence.
Qed.
Lemma cell_eq b gs i id s drafts out : live b i id → slots b !! i = Some s → spec_token_ids b !! i = Some drafts →
  req_output_token_ids b !! i = Some out →
  cell b gs i = Some (id, view (is_pooling_model b) s drafts out (blocks_at gs i) (tags b id)).
Proof. unfold cell, live. intros -> -> -> ->. done. Qed.
Lemma cell_none b gs i : (∀ id, ¬ live b i id) → cell b gs i = None.
Proof. intros Hn. destruct (cell b gs i) as [[id v]|] eqn:E; [|done]. apply cell_live in E. by destruct (Hn id). Qed.

(** An index that no operation touched has the cell it had. *)
Lemma cell_frame b gs b' gs' i : is_pooling_model b' = is_pooling_model b → _req_ids b' !! i = _req_ids b !! i →
  (∀ id, live b i id → slots b' !! i = slots b !! i ∧ spec_token_ids b' !! i = spec_token_ids b !! i ∧
     req_output_token_ids b' !! i = req_output_token_ids b !! i ∧ blocks_at gs' i = blocks_at gs i ∧ tags b' id = tags b id) →
  cell b' gs' i = cell b gs i.
Proof.
  intros Hp Hids Hf. unfold cell. rewrite Hids, Hp. destruct (_req_ids b !! i) as [[id|]|] eqn:E; simpl; [|done|done].
  destruct (Hf id E) as (-> & -> & -> & -> & ->). done.
Qed.

Lemma groups_after_lengths op gs m : Forall (λ g, length (g_rows g) = m) gs → Forall (λ g, length (g_rows g) = m) (groups_after op gs).
Proof.
  intros Hg. apply Forall_lookup. intros i g. unfold groups_after. rewrite list_lookup_imap.
  destruct (gs !! i) as [g0|] eqn:E; [|done]. simpl. intros [= <-].
  assert (length (g_rows g0) = m) by (by eapply (Forall_lookup_1 (λ g, length (g_rows g) = m))).
  destruct op; simpl; rewrite ?length_insert, ?length_fmap; done.
Qed.

Lemma lookup_drafts_put w b gs j i : batch_ok w b gs → (j ≤ length (_req_ids b))%nat → (∀ id, ¬ live b j id) →
  (i = j → drafts_put b j !! i = Some []) ∧
  (i ≠ j → drafts_put b j !! i = spec_token_ids b !! i ∨ spec_token_ids b !! i = None ∧ (length (_req_ids b) ≤ i)%nat ∧ (drafts_put b j !! i = Some [] ∨ drafts_put b j !! i = None)).
Proof.
  intros Hb Hj Hnl. pose proof (bo_specs _ _ _ Hb) as Hs. unfold drafts_put. destruct (decide (j = length (_req_ids b))) as [->|Hne].
  - split; [intros ->|intros Hi].
    + destruct (spec_token_ids b !! length (_req_ids b)) as [d|] eqn:E.
      * rewrite (lookup_app_l_Some _ _ _ _ E). f_equal. by apply (bo_no_drafts _ _ _ Hb (length (_req_ids b))).
      * apply lookup_ge_None in E. rewrite lookup_app_r by lia. by replace (length (_req_ids b) - length (spec_token_ids b))%nat with 0%nat by lia.
    + destruct (spec_token_ids b !! i) as [d|] eqn:E; [left; by rewrite (lookup_app_l_Some _ _ _ _ E)|]. right.
      apply lookup_ge_None in E. split; [done|]. split; [lia|]. rewrite lookup_app_r by lia.
      destruct (i - length (spec_token_ids b))%nat; simpl; auto.
  - split; [intros ->; apply list_lookup_insert_eq; lia|]. intros Hi. left. by rewrite list_lookup_insert_ne.
Qed.

Lemma request_tags_kind b r : kind_ok b r → kind_tags (is_pooling_model b) (request_tags (is_pooling_model b) (vocab_size b) r).
Proof.
  unfold kind_ok, kind_tags, request_tags. destruct (is_pooling_model b); [by intros (-> & _)|]. by intros (sp & -> & _).
Qed.

Section added.
Context (w : nat) (b : InputBatch) (gs : list group) (r : CachedRequestState) (n j : nat) (s' : Slot) (b' : InputBatch).
Hypothesis Hb : batch_ok w b gs.
Hypothesis Hk : kind_ok b r.
Hypothesis Hnl : ∀ i, ¬ live b i (req_id r).
Hypothesis Ha : added_at w b gs r n j s' b'.
Let gs' := groups_after (OAdd (block_ids r) j) gs.

Lemma added_live i id : live b' i id ↔ (i = j ∧ id = req_id r) ∨ (i ≠ j ∧ live b i id).
Proof.
  unfold live. rewrite (aa_ids _ _ _ _ _ _ _ _ Ha), lookup_put_at by apply Ha. destruct (decide (i = j)) as [->|]; [|tauto].
  split; [intros [= ->]; auto|]. intros [[_ ->]|[? _]]; [done|tauto].
Qed.
Lemma added_not_live i : (∀ id, ¬ live b' i id) → i ≠ j ∧ ∀ id, ¬ live b i id.
Proof.
  intros Hn. assert (i ≠ j) as Hi by (intros ->; apply (Hn (req_id r)), added_live; auto).
  split; [done|]. intros id Hl. apply (Hn id), added_live. auto.
Qed.

Lemma added_index_ok id z : dict_get (req_id_to_index b') id = Some z ↔ ∃ i, z = Z.of_nat i ∧ live b' i id.
Proof.
  rewrite (aa_index _ _ _ _ _ _ _ _ Ha), dict_get_set. destruct (decide (id = req_id r)) as [->|Hid].
  - split; [intros [= <-]; exists j; split; [done|]; apply added_live; auto|].
    intros (i & -> & [[-> _]|[Hi Hl]]%added_live); [done|]. by destruct (Hnl i).
  - rewrite (bo_index _ _ _ Hb). split; intros (i & -> & Hl); exists i; (split; [done|]).
    + apply added_live. right. split; [|done]. intros ->. by apply (aa_free _ _ _ _ _ _ _ _ Ha id).
    + apply added_live in Hl as [[_ ->]|[_ Hl]]; done.
Qed.

Lemma added_ok : batch_ok w b' gs'.
Proof.
  pose proof (bo_outs _ _ _ Hb). pose proof (bo_specs _ _ _ Hb). pose proof (bo_cap _ _ _ Hb).
  pose proof (λ i, lookup_drafts_put w b gs j i Hb (aa_end _ _ _ _ _ _ _ _ Ha) (aa_free _ _ _ _ _ _ _ _ Ha)) as HD.
  pose proof added_live as HL. pose proof added_not_live as HN.
  destruct Ha as [Hj Hjs Hjl Hs1 Hs2 Hpf Hv Hc Hids Houts Hspecs Hidx Hsl Hts Ht1 Ht2 Hnd _ _ _ _ _ _]. injection Hc as C1 C2 C3.
  split; rewrite ?Hsl, ?Hids, ?Houts, ?Hspecs, ?C2, ?length_insert, ?length_put_at by lia; try done.
  - apply Hb.
  - apply Forall_insert; [apply Hb|done].
  - lia.
  - lia.
  - unfold drafts_put. destruct (decide _); [rewrite length_app; simpl; lia|rewrite length_insert; lia].
  - apply groups_after_lengths, Hb.
  - intros i id s drafts Hl Hs Hd. destruct (HD i) as [D1 D2]. apply HL in Hl as [[-> ->]|[Hi Hl]].
    + rewrite list_lookup_insert_eq in Hs by done. rewrite D1 in Hd by done. by simplify_eq.
    + rewrite list_lookup_insert_ne in Hs by done. pose proof (lookup_lt_Some _ _ _ Hl).
      destruct (D2 Hi) as [D|(_ & D & _)]; [|lia]. rewrite D in Hd. by eapply (bo_active _ _ _ Hb).
  - intros i drafts [Hi Hn]%HN Hd. destruct (HD i) as [_ D2].
    destruct (D2 Hi) as [D|(_ & _ & [D|D])]; rewrite D in Hd; [|by simplify_eq|done]. by eapply (bo_no_drafts _ _ _ Hb).
  - intros i s [Hi Hn]%HN Hs. rewrite list_lookup_insert_ne in Hs by done. by eapply (bo_free _ _ _ Hb).
  - rewrite Hidx. apply dict_set_nodup, Hb.
  - apply added_index_ok.
  - intros id Hn. rewrite Ht2; [apply Hb|]; [|intros ->; apply (Hn j), HL; auto].
    intros i Hl. apply (Hn i), HL. right. split; [|done]. intros ->. by apply (Hjl id).
  - intros Hp. rewrite C1 in Hp. apply Forall_insert; [by apply Hb|by apply Hpf].
  - intros id. rewrite C1. destruct (decide (id = req_id r)) as [->|Hid]; [|rewrite Ht2 by done; apply Hb].
    rewrite Ht1. by apply request_tags_kind.
Qed.

Lemma added_holes : holes_ok b → holes_ok b'.
Proof.
  intros Hh. destruct Ha as [Hj _ _ _ _ _ _ _ Hids _ _ _ _ _ _ _ _ _ _ Hu1 Hu2 _ _].
  assert (NoDup (_removed (bu b') ++ (if decide (j = length (_req_ids b)) then [] else [Z.of_nat j]))) as Hnd'.
  { rewrite Hu1. apply Hh. }
  split; [by apply NoDup_app in Hnd' as (? & _)| |done].
  intros z. assert (z ∈ _removed (bu b') ↔ z ∈ _removed (bu b) ∧ z ≠ Z.of_nat j) as ->.
  { rewrite <-Hu1, elem_of_app. apply NoDup_app in Hnd' as (_ & Hd & _). destruct (decide (j = length (_req_ids b))) as [->|].
    - rewrite elem_of_nil. split; [|tauto]. intros Hz. split; [tauto|]. intros ->.
      assert (Z.of_nat (length (_req_ids b)) ∈ _removed (bu b)) as Hin by (rewrite <-Hu1; set_solver).
      apply (ho_holes _ Hh) in Hin as (i & Hi & Hl). apply lookup_lt_Some in Hl. lia.
    - rewrite list_elem_of_singleton. split; [|tauto]. intros Hz. split; [tauto|]. intros ->. apply (Hd _ Hz). set_solver. }
  rewrite (ho_holes _ Hh), Hids. split.
  - intros [(i & -> & Hi) Hz]. exists i. split; [done|]. rewrite lookup_put_at by done. rewrite decide_False by (intros ->; lia). done.
  - intros (i & -> & Hi). rewrite lookup_put_at in Hi by done. destruct (decide (i = j)); [done|]. split; [eauto|]. lia.
Qed.

Lemma added_cells i : cell b' gs' i = upd (cell b gs) j (Some (req_id r, request_view (is_pooling_model b) (vocab_size b) (g_per <$> gs) r n)) i.
Proof.
  pose proof (bo_outs _ _ _ Hb). pose proof added_live as HL.
  pose proof (lookup_drafts_put w b gs j i Hb (aa_end _ _ _ _ _ _ _ _ Ha) (aa_free _ _ _ _ _ _ _ _ Ha)) as [D1 D2].
  assert (Forall (λ g, (j < length (g_rows g))%nat) gs) as Hgj.
  { eapply Forall_impl; [apply (bo_groups _ _ _ Hb)|]. simpl. intros g ->. apply Ha. }
  destruct Ha as [Hj Hjs Hjl Hs1 Hs2 _ Hv Hc Hids Houts Hspecs Hidx Hsl Hts Ht1 Ht2 _ _ _ _ _ _ _]. injection Hc as C1 C2 C3.
  unfold upd. destruct (decide (i = j)) as [->|Hi].
  - erewrite cell_eq; [|by apply HL; auto|by rewrite Hsl, list_lookup_insert_eq|by rewrite Hspecs; apply D1|].
    2: { rewrite Houts, lookup_put_at by lia. by rewrite decide_True. }
    rewrite C1, Ht1, <-Hv. unfold gs'. rewrite blocks_at_add by done. by rewrite decide_True.
  - apply cell_frame; [done|rewrite Hids, lookup_put_at by done; by rewrite decide_False|].
    intros id Hl. pose proof (lookup_lt_Some _ _ _ Hl). split_and!.
    + by rewrite Hsl, list_lookup_insert_ne.
    + rewrite Hspecs. destruct (D2 Hi) as [?|(_ & ? & _)]; [done|lia].
    + rewrite Houts, lookup_put_at by lia. by rewrite decide_False.
    + unfold gs'. rewrite blocks_at_add by done. by rewrite decide_False.
    + apply Ht2. intros ->. by apply (Hnl i).
Qed.

Lemma added_num : num_reqs b' = num_reqs b + 1.
Proof.
  unfold num_reqs. rewrite (aa_index _ _ _ _ _ _ _ _ Ha), dict_set_new; [by rewrite zlen_app|]. apply dict_get_None.
  destruct (dict_get (req_id_to_index b) (req_id r)) as [z|] eqn:Ez; [|done].
  apply (bo_index _ _ _ Hb) in Ez as (i & _ & Hi). by destruct (Hnl i).
Qed.
End added.

(** Adding puts the request at a free index, with all that belongs to it, and leaves the
    others alone. *)
Lemma batch_add_ok w b gs r n : batch_ok w b gs → holes_ok b → num_reqs b < max_num_reqs b →
  request_ok w b gs r n → (∀ i, ¬ live b i (req_id r)) →
  ∃ j b', let gs' := groups_after (OAdd (block_ids r) j) gs in
    add_request r b = Ok (Z.of_nat j, b') ∧ (∀ id, ¬ live b j id) ∧ batch_ok w b' gs' ∧ holes_ok b' ∧
    num_reqs b' = num_reqs b + 1 ∧
    (is_pooling_model b', max_num_reqs b', vocab_size b') = (is_pooling_model b, max_num_reqs b, vocab_size b) ∧
    (∀ i, cell b' gs' i = upd (cell b gs) j (Some (req_id r, request_view (is_pooling_model b) (vocab_size b) (g_per <$> gs) r n)) i) ∧
    moved (bu b') = moved (bu b) ∧
    added (bu b') = added (bu b) ++ match sampling_params r with Some sp => [(Z.of_nat j, (sp, prompt_token_ids r, out_ref r))] | None => [] end.
Proof.
  intros Hb Hh Hcap Hr Hnl. destruct (add_request_eval w b gs r n Hb Hh Hcap Hr Hnl) as (j & s' & b' & E & Ha).
  exists j, b'. simpl. split_and!; eauto using added_ok, added_holes, added_cells, added_num, ro_kind; apply Ha.
Qed.

(** ** The LoRA tables *)

(** Request [id] is in the batch with adapter [l]. *)
Definition carries (b : InputBatch) (gs : list group) (id : string) (l : Z) : Prop :=
  ∃ i v, cell b gs i = Some (id, v) ∧ v_lora v = l.

Record lora_ok (b : InputBatch) (gs : list group) : Prop := {
  lo_zero : dict_get (lora_id_to_request_ids b) 0 = None;
  lo_ids : ∀ l X, dict_get (lora_id_to_request_ids b) l = Some X → X ≠ ∅ ∧ ∀ id, id ∈ X ↔ carries b gs id l;
  lo_in : ∀ id l, carries b gs id l → l ≠ 0 → is_Some (dict_get (lora_id_to_request_ids b) l);
  lo_reqs : ∀ l, is_Some (dict_get (lora_id_to_request_ids b) l) ↔ is_Some (dict_get (lora_id_to_lora_request b) l);
  lo_nodup : NoDup (lora_id_to_request_ids b).*1 ∧ NoDup (lora_id_to_lora_request b).*1;
}.

(** The tables depend on the batch only by who carries what. *)
Lemma lora_ok_frame b gs b' gs' : lora_ok b gs → lora_id_to_request_ids b' = lora_id_to_request_ids b →
  lora_id_to_lora_request b' = lora_id_to_lora_request b → (∀ id l, carries b' gs' id l ↔ carries b gs id l) → lora_ok b' gs'.
Proof.
  intros [] E1 E2 Hc. split; rewrite ?E1, ?E2; try done.
  - intros l X Hl. destruct (lo_ids0 l X Hl) as [HX Hid]. split; [done|]. intros id. by rewrite Hid, Hc.
  - intros id l. rewrite Hc. apply lo_in0.
Qed.

Lemma carries_add b gs b' gs' j id v x l : (∀ i, cell b' gs' i = upd (cell b gs) j (Some (id, v)) i) → cell b gs j = None →
  carries b' gs' x l ↔ (x = id ∧ l = v_lora v) ∨ carries b gs x l.
Proof.
  intros Hc Hj. unfold carries. split.
  - intros (i & v' & Hi & Hl). rewrite Hc in Hi. unfold upd in Hi. destruct (decide (i = j)); [simplify_eq; auto|eauto].
  - intros [[-> ->]|(i & v' & Hi & Hl)].
    + exists j, v. rewrite Hc. unfold upd. by rewrite decide_True.
    + exists i, v'. rewrite Hc. unfold upd. rewrite decide_False; [done|]. intros ->. congruence.
Qed.

Lemma added_lora w b gs r n j s' b' : batch_ok w b gs → kind_ok b r → (∀ i, ¬ live b i (req_id r)) →
  added_at w b gs r n j s' b' → (∀ l, lora_request r = Some l → lora_int_id l ≠ 0) → lora_ok b gs →
  lora_ok b' (groups_after (OAdd (block_ids r) j) gs).
Proof.
  intros Hb Hk Hnl Ha Hz Hl. pose proof (cell_none b gs j (aa_free _ _ _ _ _ _ _ _ Ha)) as Hj.
  pose proof (λ x l, carries_add b gs b' _ j _ _ x l (added_cells w b gs r n j s' b' Hb Hnl Ha) Hj) as Hc.
  destruct Hl as [L0 L1 L2 L3 [L4 L5]]. split; rewrite ?(aa_lora_ids _ _ _ _ _ _ _ _ Ha), ?(aa_lora_reqs _ _ _ _ _ _ _ _ Ha);
    unfold lora_ids_with, lora_reqs_with; simpl in Hc; destruct (lora_request r) as [l0|] eqn:El.
  - rewrite dict_get_set, decide_False by (specialize (Hz l0 eq_refl); congruence). done.
  - done.
  - intros l X. rewrite dict_get_set. destruct (decide (l = lora_int_id l0)) as [->|Hne].
    + intros [= <-]. split; [set_solver|]. intros x. rewrite elem_of_union, elem_of_singleton, Hc.
      destruct (dict_get (lora_id_to_request_ids b) (lora_int_id l0)) as [X|] eqn:EX; simpl.
      * destruct (L1 _ _ EX) as [_ HX]. rewrite HX. tauto.
      * split; [set_solver|]. intros [[-> _]|Hx]; [auto|]. apply L2 in Hx as [? ?]; [congruence|by apply Hz].
    + intros HX. destruct (L1 _ _ HX) as [H1 H2]. split; [done|]. intros x. rewrite H2, Hc. split; [auto|]. intros [[_ ?]|?]; done.
  - intros l X HX. destruct (L1 _ _ HX) as [H1 H2]. split; [done|]. intros x. rewrite H2, Hc. split; [auto|].
    intros [[_ ->]|?]; [congruence|done].
  - intros x l Hx Hne. rewrite dict_get_set. destruct (decide (l = lora_int_id l0)); [done|].
    apply Hc in Hx as [[_ ?]|Hx]; [done|]. by eapply L2.
  - intros x l Hx Hne. apply Hc in Hx as [[_ ?]|Hx]; [done|]. by eapply L2.
  - intros l. rewrite !dict_get_set. destruct (decide _); [|apply L3]. by split; intros _.
  - done.
  - split; by apply dict_set_nodup.
  - done.
Qed.

(** ** Removing a request *)

(** The LoRA tables without a request. *)
Record lora_without (b : InputBatch) (id : string) (l : Z) (b' : InputBatch) : Prop := {
  lw_ids : lora_id_to_request_ids b' =
    match dict_get (lora_id_to_request_ids b) l with
    | Some X => if decide (l = 0) then lora_id_to_request_ids b
                else if bool_decide (X ∖ {[id]} = ∅) then dict_del (lora_id_to_request_ids b) l
                else dict_set (lora_id_to_request_ids b) l (X ∖ {[id]})
    | None => lora_id_to_request_ids b
    end;
  lw_reqs : lora_id_to_lora_request b' =
    match dict_get (lora_id_to_request_ids b) l with
    | Some X => if decide (l = 0) then lora_id_to_lora_request b
                else if bool_decide (X ∖ {[id]} = ∅) then dict_del (lora_id_to_lora_request b) l
                else lora_id_to_lora_request b
    | None => lora_id_to_lora_request b
    end;
}.

Record removed_at (w : nat) (b : InputBatch) (gs : list group) (id : string) (i : nat) (s s' : Slot) (b' : InputBatch) : Prop := {
  ra_live : live b i id;
  ra_slot : slots b !! i = Some s;
  ra_ok : slot_ok w s';
  ra_free : slot_free s';
  ra_config : (is_pooling_model b', max_num_reqs b', vocab_size b') = (is_pooling_model b, max_num_reqs b, vocab_size b);
  ra_ids : _req_ids b' = <[i := None]> (_req_ids b);
  ra_outs : req_output_token_ids b' = <[i := None]> (req_output_token_ids b);
  ra_specs : spec_token_ids b' = <[i := []]> (spec_token_ids b);
  ra_index : req_id_to_index b' = dict_del (req_id_to_index b) id;
  ra_slots : slots b' = <[i := s']> (slots b);
  ra_tables : Forall2 table_ok (block_table b') (groups_after (OClear i) gs);
  ra_tags : tags b' id = no_tags;
  ra_others : ∀ id', id' ≠ id → tags b' id' = tags b id';
  ra_dicts : NoDup (num_logprobs (marks b')).*1 ∧ NoDup (logprob_token_ids (marks b')).*1 ∧
      NoDup (ib_pooling_params b').*1 ∧ NoDup (ib_pooling_states b').*1;
  ra_lora : lora_without b id (s_lora s) b';
  ra_builder : _removed (bu b') = _removed (bu b) ++ [Z.of_nat i] ∧ _is_removed_sorted (bu b') = false ∧
      added (bu b') = added (bu b) ∧ moved (bu b') = moved (bu b);
}.


Lemma leave_lora_ok b id i s : slots b !! i = Some s →
  (s_lora s ≠ 0 → is_Some (dict_get (lora_id_to_request_ids b) (s_lora s)) ∧ is_Some (dict_get (lora_id_to_lora_request b) (s_lora s))) →
  ∃ d1 d2 s', leave_lora id (Z.of_nat i) b = Ok (tt, set_slots (set_lora b d1 d2) (<[i := s']> (slots b)) (has_mask b)) ∧
    s' = set_slot_lora 0 s ∧ lora_without b id (s_lora s) (set_lora b d1 d2).
Proof.
  intros Hs Hl. unfold leave_lora. rewrite (py_index_nat _ _ _ Hs). cbn [mbind result_bind].
  destruct (Z.eqb_spec (s_lora s) 0) as [Hz|Hz].
  - exists (lora_id_to_request_ids b), (lora_id_to_lora_request b), s. split.
    { rewrite list_insert_id by done. by destruct b. }
    split; [unfold set_slot_lora, set_accepted_lora; destruct s; simpl in *; by subst|].
    split; simpl; rewrite Hz; by destruct (dict_get _ 0).
  - destruct (Hl Hz) as [[X HX] [q Hq]]. rewrite HX.
    destruct (bool_decide (X ∖ {[id]} = ∅)) eqn:EX; [rewrite Hq|]; cbn [mbind result_bind];
      rewrite (on_slot_ok _ i _ s (set_slot_lora 0 s)) by done; do 3 eexists; (split; [reflexivity|]); (split; [done|]);
      split; simpl; rewrite HX, EX; by rewrite decide_False.
Qed.

Lemma in_difference_singleton (X : gset string) id' id :
  bool_decide (id ∈ X ∖ {[id']}) = if decide (id = id') then false else bool_decide (id ∈ X).
Proof. destruct (decide (id = id')) as [->|]; [apply bool_decide_false; set_solver|apply bool_decide_ext; set_solver]. Qed.

Lemma unmark_tags b id prev : NoDup (num_logprobs (marks b)).*1 → NoDup (logprob_token_ids (marks b)).*1 →
  kind_tags false (tags b id) →
  tags (set_marks b (unmark id (marks b)) prev) id = no_tags ∧
  ∀ id', id' ≠ id → tags (set_marks b (unmark id (marks b)) prev) id' = tags b id'.
Proof.
  intros N1 N2 [K1 K2]. simpl in K1, K2. unfold tags. simpl. split.
  - rewrite !in_difference_singleton, !dict_get_del by done. by rewrite !decide_True, K1, K2 by done.
  - intros id' Hne. rewrite !in_difference_singleton, !dict_get_del by done. by rewrite !decide_False by done.
Qed.

Lemma unpool_tags b id : NoDup (ib_pooling_params b).*1 → NoDup (ib_pooling_states b).*1 → kind_tags true (tags b id) →
  let b' := set_pooling b (dict_del (ib_pooling_params b) id) (dict_del (ib_pooling_states b) id) in
  tags b' id = no_tags ∧ ∀ id', id' ≠ id → tags b' id' = tags b id'.
Proof.
  intros N1 N2 (K1 & K2 & K3). simpl in K1, K2, K3. injection K1 as T1 T2 T3 T4 T5 T6 T7 T8. unfold tags. simpl. split.
  - rewrite T1, T2, T3, T4, T5, T6, T7, T8, K2, K3, !dict_get_del by done. by rewrite !decide_True by done.
  - intros id' Hne. rewrite !dict_get_del by done. by rewrite !decide_False by done.
Qed.

Lemma remove_request_eval w b gs id i : batch_ok w b gs → lora_ok b gs → _is_removed_sorted (bu b) = false → live b i id →
  ∃ s s' b', remove_request id b = Ok (Some (Z.of_nat i), b') ∧ removed_at w b gs id i s s' b'.
Proof.
  intros Hb Hlo Hu Hl. destruct (live_slot w b gs i id Hb Hl) as (s & drafts & out & Hs & Hd & Ho).
  pose proof (lookup_lt_Some _ _ _ Hl) as Hi. pose proof (bo_outs _ _ _ Hb) as Hlo'. pose proof (bo_specs _ _ _ Hb).
  unfold remove_request. mstep.
  assert (dict_get (req_id_to_index b) id = Some (Z.of_nat i)) as -> by (apply (bo_index _ _ _ Hb); eauto).
  mstep. set (b1 := set_ids b _ _ _ _).
  set (u := set_changed (set_removed (_removed (bu b) ++ [Z.of_nat i]) false (bu b))).
  rewrite (bind_ok _ _ _ tt (set_builder u b1)).
  2: { unfold on_builder, zoom, removed_append. change (batch_update_builder b1) with (bu b). by rewrite Hu. }
  set (b2 := set_builder u b1).
  rewrite (bind_ok _ _ _ tt (set_ids b2 (<[i := None]> (_req_ids b)) (<[i := None]> (req_output_token_ids b))
    (<[i := []]> (spec_token_ids b)) (dict_del (req_id_to_index b) id))).
  2: { unfold leave_ids. simpl. rewrite !np_set_nat by lia. done. }
  set (b3 := set_ids b2 _ _ _ _).
  destruct (on_table_ok (OClear i) b3 gs) as (ts & E4 & Hts); [apply (bo_tables _ _ _ Hb)| |].
  { apply groups_fit_all. intros k g Hg. simpl. apply Nat.ltb_lt.
    rewrite (Forall_lookup_1 (λ g, length (g_rows g) = length (slots b)) _ _ _ (bo_groups _ _ _ Hb) Hg). by eapply lookup_lt_Some. }
  change (multi_clear_row (Z.of_nat i)) with (run_op (OClear i)).
  rewrite (bind_ok _ _ _ _ _ E4). set (b4 := set_table b3 ts).
  destruct (leave_lora_ok b4 id i s Hs) as (d1 & d2 & s1 & E5 & -> & Hlw).
  { intros Hz. assert (is_Some (dict_get (lora_id_to_request_ids b) (s_lora s))) as Hsome.
    { apply (lo_in _ _ Hlo id); [|done]. eexists i, _. split; [by eapply cell_eq|done]. }
    split; [done|]. by apply (lo_reqs _ _ Hlo). }
  rewrite (bind_ok _ _ _ _ _ E5). set (b5 := set_slots _ _ _).
  assert (slots b5 !! i = Some (set_slot_lora 0 s)) as Hs5 by (apply list_lookup_insert_eq; by eapply lookup_lt_Some).
  assert (slot_ok w s) as Hsok by (by eapply Forall_lookup_1; [apply (bo_rows _ _ _ Hb)|]).
  destruct (bo_dicts _ _ _ Hb) as (N1 & N2 & N3 & N4). pose proof (bo_kind _ _ _ Hb id) as Hk.
  destruct (is_pooling_model b) eqn:Ep.
  - destruct (unpool_tags b5 id N3 N4 Hk) as [T1 T2].
    eexists s, (set_slot_lora 0 s), _. split; [reflexivity|]. split; try done.
    + apply (Forall_lookup_1 slot_free _ i s (bo_pooling _ _ _ Hb Ep) Hs).
    + split_and!; simpl; auto using dict_del_nodup.
    + destruct Hlw as [L1 L2]. split; [exact L1|exact L2].
  - destruct (unmark_tags b5 id ((λ d, dict_del d id) <$> prev_req_id_to_index b5) N1 N2 Hk) as [T1 T2].
    rewrite (bind_ok _ _ b5 tt (set_slots (set_marks b5 (unmark id (marks b5)) ((λ d, dict_del d id) <$> prev_req_id_to_index b5))
      (<[i := leave_slot (has_mask b) (set_slot_lora 0 s)]> (slots b5)) (has_mask b5))).
    2: { mstep. exact (on_slot_ok (λ s, Ok (leave_slot (has_mask b) s)) i
           (set_marks b5 (unmark id (marks b5)) ((λ d, dict_del d id) <$> prev_req_id_to_index b5)) (set_slot_lora 0 s) _ Hs5 eq_refl). }
    eexists s, (leave_slot (has_mask b) (set_slot_lora 0 s)), _. split; [reflexivity|]. split; try done.
    + simpl. by rewrite list_insert_insert_eq.
    + split_and!; simpl; auto using dict_del_nodup.
    + destruct Hlw as [L1 L2]. split; [exact L1|exact L2].
Qed.

Lemma blocks_at_clear gs j i : i ≠ j → blocks_at (groups_after (OClear j) gs) i = blocks_at gs i.
Proof.
  intros Hne. unfold blocks_at, groups_after. rewrite fmap_imap, <-imap_const. apply imap_ext. intros k g _. simpl.
  by rewrite list_lookup_total_insert_ne.
Qed.

Section removed.
Context (w : nat) (b : InputBatch) (gs : list group) (id : string) (i : nat) (s s' : Slot) (b' : InputBatch).
Hypothesis Hb : batch_ok w b gs.
Hypothesis Hr : removed_at w b gs id i s s' b'.
Let gs' := groups_after (OClear i) gs.

Lemma gone_live k x : live b' k x ↔ k ≠ i ∧ live b k x.
Proof.
  unfold live. rewrite (ra_ids _ _ _ _ _ _ _ _ Hr). pose proof (lookup_lt_Some _ _ _ (ra_live _ _ _ _ _ _ _ _ Hr)).
  destruct (decide (k = i)) as [->|Hk]; [rewrite list_lookup_insert_eq by done|rewrite list_lookup_insert_ne by done].
  - split; [done|tauto]. - tauto.
Qed.
Lemma removed_id k x : live b' k x → x ≠ id.
Proof. intros [Hk Hl]%gone_live ->. apply Hk. eapply live_inj; [done|done|]. apply Hr. Qed.

Lemma removed_ok : batch_ok w b' gs'.
Proof.
  pose proof (bo_outs _ _ _ Hb). pose proof (bo_specs _ _ _ Hb). pose proof (bo_cap _ _ _ Hb).
  pose proof gone_live as HL. pose proof removed_id as HI.
  destruct Hr as [Hl Hs Hsok Hfree Hc Hids Houts Hspecs Hidx Hsl Hts Ht1 Ht2 Hnd _ _]. injection Hc as C1 C2 C3.
  assert (∀ k, (∀ x, ¬ live b' k x) → k = i ∨ k ≠ i ∧ ∀ x, ¬ live b k x) as HN.
  { intros k Hn. destruct (decide (k = i)); [auto|]. right. split; [done|]. intros x Hx. apply (Hn x), HL. auto. }
  pose proof (lookup_lt_Some _ _ _ Hl). pose proof (lookup_lt_Some _ _ _ Hs).
  split; rewrite ?Hsl, ?Hids, ?Houts, ?Hspecs, ?C2, ?length_insert; try done; try apply Hb.
  - apply Forall_insert; [apply Hb|done].
  - apply groups_after_lengths, Hb.
  - intros k x s0 drafts [Hk Hlk]%HL. rewrite !list_lookup_insert_ne by done. by eapply (bo_active _ _ _ Hb).
  - intros k drafts [->|[Hk Hn]]%HN; [rewrite list_lookup_insert_eq by lia; congruence|].
    rewrite list_lookup_insert_ne by done. by eapply (bo_no_drafts _ _ _ Hb).
  - intros k s0 [->|[Hk Hn]]%HN; [rewrite list_lookup_insert_eq by lia; congruence|].
    rewrite list_lookup_insert_ne by done. by eapply (bo_free _ _ _ Hb).
  - rewrite Hidx. apply dict_del_nodup, Hb.
  - intros x z. rewrite Hidx, dict_get_del by apply Hb. destruct (decide (x = id)) as [->|Hx].
    + split; [done|]. intros (k & _ & Hlk). by apply HI in Hlk.
    + rewrite (bo_index _ _ _ Hb). split; intros (k & -> & Hlk); exists k; (split; [done|]); [|by apply HL in Hlk as [_ ?]].
      apply HL. split; [|done]. intros ->. unfold live in *. congruence.
  - intros x Hn. destruct (decide (x = id)) as [->|Hx]; [done|]. rewrite Ht2 by done. apply Hb.
    intros k Hlk. apply (Hn k), HL. split; [|done]. intros ->. unfold live in *. congruence.
  - intros Hp. rewrite C1 in Hp. apply Forall_insert; [by apply Hb|done].
  - intros x. rewrite C1. destruct (decide (x = id)) as [->|Hx]; [|rewrite Ht2 by done; apply Hb].
    rewrite Ht1. by destruct (is_pooling_model b).
Qed.

Lemma removed_holes : holes_ok b → holes_ok b'.
Proof.
  intros [Hn Hh _]. destruct Hr as [Hl _ _ _ _ Hids _ _ _ _ _ _ _ _ _ (Hu1 & Hu2 & _)].
  pose proof (lookup_lt_Some _ _ _ Hl) as Hi. split.
  - rewrite Hu1. apply NoDup_app. split; [done|]. split; [|apply NoDup_singleton].
    intros z Hz ->%list_elem_of_singleton. apply Hh in Hz as (k & Hk & Hl'). apply Nat2Z.inj in Hk as <-.
    unfold live in Hl. congruence.
  - intros z. rewrite Hu1, elem_of_app, list_elem_of_singleton, Hh, Hids. split.
    + intros [(k & -> & Hk)| ->]; [|exists i; by rewrite list_lookup_insert_eq].
      exists k. rewrite list_lookup_insert_ne; [done|]. intros ->. unfold live in Hl. congruence.
    + intros (k & -> & Hk). destruct (decide (k = i)) as [->|]; [auto|]. rewrite list_lookup_insert_ne in Hk by done. eauto.
  - by rewrite Hu2.
Qed.

Lemma removed_cells k : cell b' gs' k = upd (cell b gs) i None k.
Proof.
  unfold upd. destruct (decide (k = i)) as [->|Hk]; [apply cell_none; intros x [? _]%gone_live; done|].
  pose proof (ra_others _ _ _ _ _ _ _ _ Hr) as Ht. pose proof removed_id as HI. pose proof gone_live as HL.
  destruct Hr as [Hl Hs _ _ Hc Hids Houts Hspecs _ Hsl _ _ _ _ _ _]. injection Hc as C1 C2 C3.
  apply cell_frame; [done|by rewrite Hids, list_lookup_insert_ne|]. intros x Hx.
  rewrite Hsl, Hspecs, Houts, !list_lookup_insert_ne by done. split_and!; try done.
  - by apply blocks_at_clear.
  - apply Ht. apply (HI k), HL. auto.
Qed.

Lemma removed_carries x l : carries b' gs' x l ↔ x ≠ id ∧ carries b gs x l.
Proof.
  unfold carries. split.
  - intros (k & v & Hk & Hl). assert (live b' k x) as Hlk by (by eapply cell_live). split; [by eapply removed_id|].
    rewrite removed_cells in Hk. unfold upd in Hk. destruct (decide _); [done|]. eauto.
  - intros (Hx & k & v & Hk & Hl). exists k, v. rewrite removed_cells. unfold upd. rewrite decide_False; [done|].
    intros ->. apply cell_live in Hk. pose proof (ra_live _ _ _ _ _ _ _ _ Hr). unfold live in *. congruence.
Qed.
End removed.

Lemma dict_get_del_lora {V} (d : list (Z * V)) l l' : NoDup d.*1 →
  is_Some (dict_get (dict_del d l) l') ↔ l' ≠ l ∧ is_Some (dict_get d l').
Proof.
  intros Hd. rewrite dict_get_del by done. destruct (decide (l' = l)) as [->|].
  - split; [by intros []|tauto]. - tauto.
Qed.

(** Dropping a request from the tables: its adapter is not listed, it was the last to
    use it, or others use it too. *)
Section lora_drop.
Context (b b' : InputBatch) (gs gs' : list group) (id : string) (a : Z).
Hypothesis Hlo : lora_ok b gs.
Hypothesis Hc : ∀ x l, carries b' gs' x l ↔ x ≠ id ∧ carries b gs x l.
Hypothesis Hid : ∀ l, carries b gs id l → l = a.

Lemma lora_other l X : dict_get (lora_id_to_request_ids b) l = Some X → l ≠ a → X ≠ ∅ ∧ ∀ x, x ∈ X ↔ carries b' gs' x l.
Proof.
  intros HX Hl. destruct (lo_ids _ _ Hlo l X HX) as [H1 H2]. split; [done|]. intros x. rewrite H2, Hc. split; [|tauto].
  intros Hx. split; [|done]. intros ->. by apply Hid in Hx.
Qed.

Lemma lora_unlisted : lora_id_to_request_ids b' = lora_id_to_request_ids b →
  lora_id_to_lora_request b' = lora_id_to_lora_request b → dict_get (lora_id_to_request_ids b) a = None → lora_ok b' gs'.
Proof.
  intros E1 E2 Ha. pose proof Hlo as [L0 L1 L2 L3 L4]. split; rewrite ?E1, ?E2; try done.
  - intros l X HX. apply lora_other; [done|]. intros ->. congruence.
  - intros x l [_ Hx]%Hc. by apply (L2 x).
Qed.

Lemma lora_last X : lora_id_to_request_ids b' = dict_del (lora_id_to_request_ids b) a →
  lora_id_to_lora_request b' = dict_del (lora_id_to_lora_request b) a → a ≠ 0 →
  dict_get (lora_id_to_request_ids b) a = Some X → X ∖ {[id]} = ∅ → lora_ok b' gs'.
Proof.
  intros E1 E2 Ha HX EX. pose proof Hlo as [L0 L1 L2 L3 [L4 L5]]. destruct (L1 _ _ HX) as [_ HX2].
  split; rewrite ?E1, ?E2.
  - by rewrite dict_get_del, decide_False by done.
  - intros l Y. rewrite dict_get_del by done. destruct (decide (l = a)); [done|]. intros HY. by apply lora_other.
  - intros x l [Hx Hxl]%Hc Hl0. apply dict_get_del_lora; [done|]. split; [|by apply (L2 x)].
    intros ->. apply HX2 in Hxl. set_solver.
  - intros l. by rewrite !dict_get_del_lora, L3 by done.
  - split; by apply dict_del_nodup.
Qed.

Lemma lora_shared X : lora_id_to_request_ids b' = dict_set (lora_id_to_request_ids b) a (X ∖ {[id]}) →
  lora_id_to_lora_request b' = lora_id_to_lora_request b → a ≠ 0 →
  dict_get (lora_id_to_request_ids b) a = Some X → X ∖ {[id]} ≠ ∅ → lora_ok b' gs'.
Proof.
  intros E1 E2 Ha HX EX. pose proof Hlo as [L0 L1 L2 L3 [L4 L5]]. destruct (L1 _ _ HX) as [_ HX2].
  split; rewrite ?E1, ?E2.
  - by rewrite dict_get_set, decide_False by done.
  - intros l Y. rewrite dict_get_set. destruct (decide (l = a)) as [->|Hl]; [|intros HY; by apply lora_other].
    intros [= <-]. split; [done|]. intros x. rewrite Hc. set_solver.
  - intros x l [Hx Hxl]%Hc Hl0. rewrite dict_get_set. destruct (decide _); [done|]. by apply (L2 x).
  - intros l. rewrite dict_get_set. destruct (decide (l = a)) as [->|]; [|apply L3].
    split; [|done]. intros _. apply L3. eauto.
  - split; [by apply dict_set_nodup|done].
Qed.
End lora_drop.

Lemma removed_lora w b gs id i s s' b' : batch_ok w b gs → removed_at w b gs id i s s' b' → lora_ok b gs →
  lora_ok b' (groups_after (OClear i) gs).
Proof.
  intros Hb Hr Hlo. pose proof (removed_carries w b gs id i s s' b' Hb Hr) as Hc.
  assert (∀ l, carries b gs id l → l = s_lora s) as Hid.
  { intros l (k & v & Hk & Hl). pose proof (cell_live _ _ _ _ _ Hk) as Hlk.
    assert (k = i) as -> by (eapply live_inj; [done|done|apply Hr]).
    destruct (live_slot w b gs i id Hb Hlk) as (s0 & d & o & H1 & H2 & H3). rewrite (cell_eq b gs i id s0 d o) in Hk by done.
    pose proof (ra_slot _ _ _ _ _ _ _ _ Hr). simplify_eq. done. }
  destruct (ra_lora _ _ _ _ _ _ _ _ Hr) as [W1 W2].
  destruct (dict_get (lora_id_to_request_ids b) (s_lora s)) as [X|] eqn:EX; [|by eapply lora_unlisted].
  destruct (decide (s_lora s = 0)) as [Hz|Hz]; [rewrite Hz, (lo_zero _ _ Hlo) in EX; done|].
  destruct (bool_decide (X ∖ {[id]} = ∅)) eqn:E.
  - apply bool_decide_eq_true in E. by eapply lora_last.
  - apply bool_decide_eq_false in E. by eapply lora_shared.
Qed.

(** Removing empties the index of the request and leaves the others alone; a request that
    is not in the batch is ignored. *)
Lemma remove_request_ok w b gs id : batch_ok w b gs → lora_ok b gs → holes_ok b → _is_removed_sorted (bu b) = false →
  (remove_request id b = Ok (None, b) ∧ ∀ i, ¬ live b i id) ∨
  ∃ i b', let gs' := groups_after (OClear i) gs in remove_request id b = Ok (Some (Z.of_nat i), b') ∧ live b i id ∧
    batch_ok w b' gs' ∧ lora_ok b' gs' ∧ holes_ok b' ∧ _is_removed_sorted (bu b') = false ∧
    (is_pooling_model b', max_num_reqs b', vocab_size b') = (is_pooling_model b, max_num_reqs b, vocab_size b) ∧
    (∀ k, cell b' gs' k = upd (cell b gs) i None k) ∧ added (bu b') = added (bu b) ∧ moved (bu b') = moved (bu b).
Proof.
  intros Hb Hlo Hh Hu. destruct (dict_get (req_id_to_index b) id) as [z|] eqn:Ez.
  - apply (bo_index _ _ _ Hb) in Ez as (i & _ & Hl). right.
    destruct (remove_request_eval w b gs id i Hb Hlo Hu Hl) as (s & s' & b' & E & Hr). exists i, b'. simpl.
    split_and!; eauto using removed_ok, removed_lora, removed_holes, removed_cells; apply Hr.
  - left. split; [unfold remove_request; mstep; by rewrite Ez|]. intros i Hl.
    assert (dict_get (req_id_to_index b) id = Some (Z.of_nat i)) by (apply (bo_index _ _ _ Hb); eauto). congruence.
Qed.

(** ** Moving a request down *)

(** A row that got the front of another; past the end of the rows both are clamped. *)
Lemma put_front {A} (row from : list A) (m w : nat) : length row = w → length from = w →
  np_put row 0 (Z.of_nat m) (py_slice from 0 (Z.of_nat m)) = Ok (take m from ++ drop m row).
Proof.
  intros H1 H2. unfold np_put, py_slice, zlen. rewrite H1, H2.
  assert (clamp_index (Z.of_nat w) (Z.of_nat m) = Z.of_nat (Nat.min m w)) as -> by (unfold clamp_index; case_match; lia).
  rewrite (clamp_index_pos _ 0), Z.max_r, !Z.sub_0_r by lia. simpl. rewrite drop_0, !Nat2Z.id.
  rewrite np_broadcast_same by (unfold zlen; rewrite length_take; lia). simpl. do 2 f_equal.
  - destruct (decide (m ≤ w)%nat); [by rewrite Nat.min_l|]. by rewrite Nat.min_r, !take_ge by lia.
  - destruct (decide (m ≤ w)%nat); [by rewrite Nat.min_l|]. by rewrite Nat.min_r, !drop_ge by lia.
Qed.
Lemma take_put_front {A} (row from : list A) (m w : nat) : length row = w → length from = w →
  take m (take m from ++ drop m row) = take m from.
Proof.
  intros Hr Hf. destruct (decide (m ≤ w)%nat); [rewrite take_app_le by (rewrite length_take; lia); by rewrite take_take, Nat.min_id|].
  rewrite (drop_ge row), app_nil_r by lia. by rewrite take_take, Nat.min_id.
Qed.

Lemma moved_in_ok w pooling masked s from drafts : slot_ok w s → slot_ok w from → slot_active w from drafts → slot_free s →
  ∃ s', moved_in pooling masked (s_num_tokens_no_spec from + zlen drafts) s from = Ok s' ∧ slot_ok w s' ∧ slot_active w s' drafts ∧
    (pooling = true → slot_free s') ∧ ∀ out blocks t, view pooling s' drafts out blocks t = view pooling from drafts out blocks t.
Proof.
  intros [H1 H2] [H3 H4] (Ha & Hw & He) [Hg Hb]. unfold moved_in. set (m := active from drafts) in *.
  assert (s_num_tokens_no_spec from + zlen drafts = Z.of_nat m) as -> by (unfold m, active, zlen; lia).
  rewrite !(put_front _ _ m w) by done. cbn [mbind result_bind]. eexists. split; [reflexivity|].
  match goal with |- slot_ok w ?x ∧ _ => set (s' := x) end.
  assert (active s' drafts = m) as Hac by done.
  assert (take m (s_token_ids s') = take m (s_token_ids from)) as Ht by (by eapply take_put_front).
  assert (take m (s_is_token_ids s') = take m (s_is_token_ids from)) as Hf by (by eapply take_put_front).
  assert (all_known s' = all_known from) as Hk.
  { unfold all_known. f_equal. change (s_num_tokens_no_spec s') with (s_num_tokens_no_spec from).
    apply (f_equal (take (Z.to_nat (s_num_tokens_no_spec from)))) in Hf. rewrite !take_take in Hf.
    by rewrite Nat.min_l in Hf by (unfold m, active, zlen; lia). }
  assert (all_known from = false → s_prompt_embeds s' = s_prompt_embeds from) as Hemb.
  { intros Hx. unfold s'. simpl. by destruct (He Hx) as [e ->]. }
  split_and!.
  - split; simpl; rewrite length_app, length_take, length_drop; lia.
  - split; [done|]. rewrite Hk. split; [done|]. intros Hx. rewrite Hemb by done. auto.
  - intros ->. done.
  - intros out blocks t. unfold view. rewrite Hac, Ht, Hf, Hk. fold m. f_equal.
    + destruct (all_known from) eqn:Hx; [done|auto].
    + destruct pooling; [done|]. unfold slot_sampling. simpl. rewrite Hg, Hb.
      by destruct (s_generator from), (s_bad_words from).
Qed.

Lemma pop_sorted {A} (u : BatchUpdateBuilder A) l z : _is_removed_sorted u = true → _removed u = l ++ [z] →
  pop_removed u = Ok (Some z, set_removed l true u) ∧ peek_removed u = Ok (Some z, u).
Proof.
  intros Hs Hr. unfold pop_removed, peek_removed, has_removed, _ensure_removed_sorted. rewrite Hs, Hr.
  rewrite last_snoc, length_app, Nat.add_sub, take_app_length. by destruct l.
Qed.

Lemma active_count_ok b i s drafts : slots b !! i = Some s → spec_token_ids b !! i = Some drafts →
  _get_active_token_count b (Z.of_nat i) = Ok (s_num_tokens_no_spec s + zlen drafts).
Proof. intros Hs Hd. unfold _get_active_token_count. by rewrite (py_index_nat _ _ _ Hs), (py_index_nat _ _ _ Hd). Qed.

(** Request [id] moved from index [last] to the hole [e]. *)
Record shifted_at (w : nat) (b : InputBatch) (gs : list group) (id : string) (last e : nat) (s' from : Slot) (drafts : list Z)
    (b' : InputBatch) : Prop := {
  sa_live : live b last id;
  sa_hole : _req_ids b !! e = Some None;
  sa_from : slots b !! last = Some from;
  sa_drafts : spec_token_ids b !! last = Some drafts;
  sa_ok : slot_ok w s';
  sa_active : slot_active w s' drafts;
  sa_pool : is_pooling_model b = true → slot_free s';
  sa_view : ∀ out blocks t, view (is_pooling_model b) s' drafts out blocks t = view (is_pooling_model b) from drafts out blocks t;
  sa_config : (is_pooling_model b', max_num_reqs b', vocab_size b') = (is_pooling_model b, max_num_reqs b, vocab_size b);
  sa_ids : _req_ids b' = <[last := None]> (<[e := Some id]> (_req_ids b));
  sa_outs : ∃ out, req_output_token_ids b !! last = Some out ∧
      req_output_token_ids b' = <[last := None]> (<[e := out]> (req_output_token_ids b));
  sa_specs : ∃ d, spec_token_ids b' = <[last := []]> (<[e := drafts]> (<[last := d]> (spec_token_ids b)));
  sa_index : req_id_to_index b' = dict_set (req_id_to_index b) id (Z.of_nat e);
  sa_slots : slots b' = <[e := s']> (<[last := moved_out (is_pooling_model b) from]> (slots b));
  sa_tables : Forall2 table_ok (block_table b') (groups_after (OMove last e) gs);
  sa_marks : marks b' = marks b ∧ ib_pooling_params b' = ib_pooling_params b ∧ ib_pooling_states b' = ib_pooling_states b;
  sa_lora : lora_id_to_request_ids b' = lora_id_to_request_ids b ∧ lora_id_to_lora_request b' = lora_id_to_lora_request b;
}.

Lemma move_ids_ok b last e id out drafts d : live b last id → req_output_token_ids b !! last = Some out →
  spec_token_ids b !! last = Some drafts → spec_token_ids b !! e = Some d →
  (e < length (_req_ids b))%nat → (e < length (req_output_token_ids b))%nat →
  move_ids (Z.of_nat last) (Z.of_nat e) b = Ok (tt, set_ids b (<[last := None]> (<[e := Some id]> (_req_ids b)))
    (<[last := None]> (<[e := out]> (req_output_token_ids b))) (<[last := []]> (<[e := drafts]> (<[last := d]> (spec_token_ids b))))
    (dict_set (req_id_to_index b) id (Z.of_nat e))).
Proof.
  intros Hl Ho Hd Hde He1 He2. pose proof (lookup_lt_Some _ _ _ Hl). pose proof (lookup_lt_Some _ _ _ Ho).
  pose proof (lookup_lt_Some _ _ _ Hd). pose proof (lookup_lt_Some _ _ _ Hde).
  unfold move_ids. rewrite (py_index_nat _ _ _ Hl), (py_index_nat _ _ _ Ho). cbn [mbind result_bind].
  rewrite !np_set_nat by lia. cbn [mbind result_bind]. rewrite !np_set_nat by (rewrite ?length_insert; lia). cbn [mbind result_bind].
  rewrite (np_swap_nat _ last e drafts d) by done. cbn [mbind result_bind]. rewrite np_set_nat by (rewrite !length_insert; lia). done.
Qed.
Lemma move_slot_ok n b last e from s s' : slots b !! last = Some from → slots b !! e = Some s →
  moved_in (is_pooling_model b) (has_mask b) n s from = Ok s' →
  move_slot n (Z.of_nat last) (Z.of_nat e) b =
    Ok (tt, set_slots b (<[e := s']> (<[last := moved_out (is_pooling_model b) from]> (slots b))) (has_mask b)).
Proof.
  intros Hs Hse Em. pose proof (lookup_lt_Some _ _ _ Hs). pose proof (lookup_lt_Some _ _ _ Hse).
  unfold move_slot. rewrite (py_index_nat _ _ _ Hs), (py_index_nat _ _ _ Hse). cbn [mbind result_bind].
  rewrite Em. cbn [mbind result_bind]. rewrite !np_set_nat by lia. cbn [mbind result_bind].
  by rewrite np_set_nat by (rewrite length_insert; lia).
Qed.
Lemma rows_exist w b gs op : batch_ok w b gs → (∀ i g, length (g_rows g) = length (slots b) → op_fits op i g = true) →
  groups_fit op gs = true.
Proof.
  intros Hb Hop. apply groups_fit_all. intros k g Hg. apply Hop.
  apply (Forall_lookup_1 (λ g, length (g_rows g) = length (slots b)) _ _ _ (bo_groups _ _ _ Hb) Hg).
Qed.

Lemma move_down_eval w b gs last e l id : batch_ok w b gs → live b last id → _req_ids b !! e = Some None →
  _is_removed_sorted (bu b) = true → _removed (bu b) = l ++ [Z.of_nat e] →
  ∃ s' from drafts b', move_down (Z.of_nat last) (Z.of_nat e) b = Ok (tt, b') ∧
    shifted_at w b gs id last e s' from drafts b' ∧
    _removed (bu b') = l ∧ _is_removed_sorted (bu b') = true ∧ added (bu b') = added (bu b) ∧
    moved (bu b') = moved (bu b) ++ (if is_pooling_model b then [] else [(Z.of_nat last, Z.of_nat e, UNIDIRECTIONAL)]).
Proof.
  intros Hb Hl He Hu Hr. destruct (live_slot w b gs last id Hb Hl) as (from & drafts & out & Hs & Hd & Ho).
  pose proof (lookup_lt_Some _ _ _ He). pose proof (lookup_lt_Some _ _ _ Hl). pose proof (bo_outs _ _ _ Hb).
  pose proof (bo_specs _ _ _ Hb). pose proof (bo_cap _ _ _ Hb).
  destruct (lookup_lt_is_Some_2 (slots b) e) as [s Hse]; [lia|].
  destruct (lookup_lt_is_Some_2 (spec_token_ids b) e) as [d Hde]; [lia|].
  assert (∀ x, ¬ live b e x) as Hne by (unfold live; intros x; congruence).
  destruct (moved_in_ok w (is_pooling_model b) (has_mask b) s from drafts) as (s' & Em & Hok & Hact & Hpf & Hv).
  { by eapply Forall_lookup_1; [apply (bo_rows _ _ _ Hb)|]. } { by eapply Forall_lookup_1; [apply (bo_rows _ _ _ Hb)|]. }
  { by eapply (bo_active _ _ _ Hb). } { by eapply (bo_free _ _ _ Hb). }
  destruct (pop_sorted (bu b) l (Z.of_nat e) Hu Hr) as [Epop _].
  unfold move_down. rewrite (bind_ok _ _ _ (Some (Z.of_nat e)) (set_builder (set_removed l true (bu b)) b)).
  2: { unfold on_builder, zoom. unfold bu in Epop. by rewrite Epop. }
  set (b1 := set_builder _ b). mstep. unfold lift_result. rewrite (active_count_ok b1 last from drafts Hs Hd).
  rewrite (bind_ok _ _ b1 (s_num_tokens_no_spec from + zlen drafts) b1) by done.
  rewrite (bind_ok _ _ _ _ _ (move_ids_ok b1 last e id out drafts d Hl Ho Hd Hde ltac:(simpl; lia) ltac:(simpl; lia))).
  rewrite (bind_ok _ _ _ _ _ (move_slot_ok _ (set_ids b1 _ _ _ _) last e from s s' Hs Hse Em)). set (b3 := set_slots _ _ _).
  destruct (on_table_ok (OMove last e) b3 gs) as (ts & E4 & Hts); [apply (bo_tables _ _ _ Hb)| |].
  { apply (rows_exist w b); [done|]. intros i g Hg. simpl. rewrite Hg. apply andb_true_iff. split; apply Nat.ltb_lt; lia. }
  change (multi_move_row (Z.of_nat last) (Z.of_nat e)) with (run_op (OMove last e)).
  rewrite (bind_ok _ _ _ _ _ E4). change (is_pooling_model b1) with (is_pooling_model b).
  exists s', from, drafts. destruct (is_pooling_model b) eqn:Ep; eexists; (split; [reflexivity|]).
  all: split; [split; rewrite ?Ep; simpl; eauto|split_and!; simpl; try done; by rewrite app_nil_r].
  all: by rewrite Ep.
Qed.

Lemma blocks_at_move gs src tgt i m : Forall (λ g, length (g_rows g) = m) gs → (tgt < m)%nat →
  blocks_at (groups_after (OMove src tgt) gs) i = blocks_at gs (if decide (i = tgt) then src else i).
Proof.
  intros Hg Ht. unfold blocks_at, groups_after. rewrite fmap_imap, <-imap_const. apply imap_ext. intros k g Hk. simpl.
  pose proof (Forall_lookup_1 (λ g, length (g_rows g) = m) _ _ _ Hg Hk) as Hl. simpl in Hl.
  destruct (decide (i = tgt)) as [->|]; [rewrite list_lookup_total_insert_eq by lia|rewrite list_lookup_total_insert_ne by done]; done.
Qed.

Lemma tags_frame b b' id : marks b' = marks b → ib_pooling_params b' = ib_pooling_params b →
  ib_pooling_states b' = ib_pooling_states b → tags b' id = tags b id.
Proof. unfold tags. intros -> -> ->. done. Qed.

Section shifted.
Context (w : nat) (b : InputBatch) (gs : list group) (id : string) (last e : nat) (s' from : Slot) (drafts : list Z) (b' : InputBatch).
Hypothesis Hb : batch_ok w b gs.
Hypothesis Hm : shifted_at w b gs id last e s' from drafts b'.
Let gs' := groups_after (OMove last e) gs.

Lemma shifted_ne : e ≠ last.
Proof. destruct Hm as [Hl He _ _ _ _ _ _ _ _ _ _ _ _ _ _]. intros ->. unfold live in Hl. congruence. Qed.

Lemma shifted_lookup i : _req_ids b' !! i = if decide (i = last) then Some None else if decide (i = e) then Some (Some id) else _req_ids b !! i.
Proof.
  pose proof shifted_ne. destruct Hm as [Hl He _ _ _ _ _ _ _ Hids _ _ _ _ _ _ _]. rewrite Hids.
  pose proof (lookup_lt_Some _ _ _ He). pose proof (lookup_lt_Some _ _ _ Hl).
  destruct (decide (i = last)) as [->|]; [by rewrite list_lookup_insert_eq by (by rewrite length_insert)|].
  rewrite list_lookup_insert_ne by done. destruct (decide (i = e)) as [->|]; [by rewrite list_lookup_insert_eq|].
  by rewrite list_lookup_insert_ne.
Qed.
Lemma shifted_live i x : live b' i x ↔ (i = e ∧ x = id) ∨ (i ≠ last ∧ i ≠ e ∧ live b i x).
Proof.
  unfold live. rewrite shifted_lookup. pose proof shifted_ne. destruct (decide (i = last)) as [->|]; [naive_solver|].
  destruct (decide (i = e)) as [->|]; naive_solver.
Qed.
Lemma shifted_not_live i : (∀ x, ¬ live b' i x) → i = last ∨ (i ≠ last ∧ i ≠ e ∧ ∀ x, ¬ live b i x).
Proof.
  intros Hn. destruct (decide (i = last)); [auto|]. right. split; [done|].
  assert (i ≠ e) as Hi by (intros ->; apply (Hn id), shifted_live; auto).
  split; [done|]. intros x Hx. apply (Hn x), shifted_live. auto.
Qed.
Lemma shifted_slot i : slots b' !! i = if decide (i = e) then Some s' else if decide (i = last) then Some (moved_out (is_pooling_model b) from) else slots b !! i.
Proof.
  pose proof shifted_ne. destruct Hm as [Hl He Hf _ _ _ _ _ _ _ _ _ _ Hsl _ _ _]. rewrite Hsl.
  pose proof (lookup_lt_Some _ _ _ Hf). pose proof (lookup_lt_Some _ _ _ He). pose proof (bo_cap _ _ _ Hb).
  destruct (decide (i = e)) as [->|]; [by rewrite list_lookup_insert_eq by (rewrite length_insert; lia)|].
  rewrite list_lookup_insert_ne by done. destruct (decide (i = last)) as [->|]; [by rewrite list_lookup_insert_eq|].
  by rewrite list_lookup_insert_ne.
Qed.
Lemma shifted_spec i : spec_token_ids b' !! i = if decide (i = last) then Some [] else if decide (i = e) then Some drafts else spec_token_ids b !! i.
Proof.
  pose proof shifted_ne. destruct Hm as [Hl He _ Hd _ _ _ _ _ _ _ [d Hsp] _ _ _ _ _]. rewrite Hsp.
  pose proof (lookup_lt_Some _ _ _ Hd). pose proof (lookup_lt_Some _ _ _ He). pose proof (bo_specs _ _ _ Hb).
  destruct (decide (i = last)) as [->|]; [by rewrite list_lookup_insert_eq by (by rewrite !length_insert)|].
  rewrite list_lookup_insert_ne by done.
  destruct (decide (i = e)) as [->|]; [by rewrite list_lookup_insert_eq by (rewrite length_insert; lia)|].
  by rewrite !list_lookup_insert_ne.
Qed.

Lemma shifted_index x z : dict_get (req_id_to_index b') x = Some z ↔ ∃ i, z = Z.of_nat i ∧ live b' i x.
Proof.
  pose proof shifted_live as HL. destruct Hm as [Hl He _ _ _ _ _ _ _ _ _ _ Hidx _ _ _ _].
  rewrite Hidx, dict_get_set. destruct (decide (x = id)) as [->|Hx].
  - split; [intros [= <-]; exists e; split; [done|]; apply HL; auto|].
    intros (i & -> & [[-> _]|(Hi & _ & Hli)]%HL); [done|]. destruct Hi. by eapply live_inj.
  - rewrite (bo_index _ _ _ Hb). split; intros (i & -> & Hli); exists i; (split; [done|]).
    + apply HL. right. split_and!; [| |done]; intros ->; unfold live in *; congruence.
    + apply HL in Hli as [[_ ?]|(_ & _ & ?)]; done.
Qed.

Lemma shifted_ok : batch_ok w b' gs'.
Proof.
  pose proof shifted_live as HL. pose proof shifted_not_live as HN. pose proof shifted_slot as HS. pose proof shifted_spec as HD.
  pose proof shifted_ne as Hne. pose proof shifted_index as HI.
  destruct Hm as [Hl He Hf Hd Hok Hact Hpf Hv Hc Hids (out & Ho & Houts) [d Hsp] Hidx Hsl Hts (M1 & M2 & M3) _].
  injection Hc as C1 C2 C3. pose proof (λ x, tags_frame b b' x M1 M2 M3) as HT.
  split; rewrite ?M1, ?M2, ?M3; try apply Hb; try done.
  - rewrite Hsl, C2, !length_insert. apply Hb.
  - rewrite Hsl. apply Forall_insert; [|done]. apply Forall_insert; [apply Hb|].
    apply (Forall_lookup_1 _ _ _ _ (bo_rows _ _ _ Hb) Hf).
  - rewrite Hids, Hsl, !length_insert. apply Hb.
  - rewrite Hids, Houts, !length_insert. apply Hb.
  - rewrite Hids, Hsp, !length_insert. apply Hb.
  - rewrite Hsl, !length_insert. apply groups_after_lengths, Hb.
  - intros i x s dr Hli. rewrite HS, HD. apply HL in Hli as [[-> ->]|(Hi1 & Hi2 & Hli)].
    + rewrite decide_True, decide_False, decide_True by done. intros Hx Hy. by simplify_eq.
    + rewrite !decide_False by done. by eapply (bo_active _ _ _ Hb).
  - intros i dr Hn. rewrite HD. apply HN in Hn as [->|(Hi1 & Hi2 & Hn)]; [rewrite decide_True by done; congruence|].
    rewrite !decide_False by done. by eapply (bo_no_drafts _ _ _ Hb).
  - intros i s Hn. rewrite HS. apply HN in Hn as [->|(Hi1 & Hi2 & Hn)].
    + rewrite decide_False, decide_True by done. intros [= <-]. unfold slot_free, moved_out. simpl.
      destruct (is_pooling_model b) eqn:Ep; [|done]. apply (Forall_lookup_1 _ _ _ _ (bo_pooling _ _ _ Hb Ep) Hf).
    + rewrite !decide_False by done. by eapply (bo_free _ _ _ Hb).
  - rewrite Hidx. apply dict_set_nodup, Hb.
  - intros x Hn. rewrite HT. apply Hb. intros i Hli. destruct (decide (i = last)) as [->|Hi].
    + apply (Hn e), HL. unfold live in *. left. split; [done|]. congruence.
    + apply (Hn i), HL. right. split_and!; [done| |done]. intros ->. unfold live in *. congruence.
  - intros Hp. rewrite C1 in Hp. pose proof (bo_pooling _ _ _ Hb Hp) as Hall. rewrite Hsl. apply Forall_insert; [|auto].
    apply Forall_insert; [done|]. pose proof (Forall_lookup_1 _ _ _ _ Hall Hf) as Hff. unfold moved_out, slot_free in *. by rewrite Hp.
  - intros x. rewrite C1, HT. apply Hb.
Qed.

Lemma shifted_cells i : cell b' gs' i = if decide (i = e) then cell b gs last else if decide (i = last) then None else cell b gs i.
Proof.
  pose proof shifted_live as HL. pose proof shifted_slot as HS. pose proof shifted_spec as HD. pose proof shifted_ne as Hne.
  pose proof shifted_lookup as HK. pose proof (bo_outs _ _ _ Hb). pose proof (bo_cap _ _ _ Hb).
  destruct Hm as [Hl He Hf Hd Hok Hact _ Hv Hc Hids (out & Ho & Houts) _ Hidx Hsl Hts (M1 & M2 & M3) _].
  injection Hc as C1 C2 C3. pose proof (λ x, tags_frame b b' x M1 M2 M3) as HT. pose proof (lookup_lt_Some _ _ _ He).
  pose proof (λ i, blocks_at_move gs last e i _ (bo_groups _ _ _ Hb) ltac:(lia)) as HB.
  destruct (decide (i = e)) as [->|Hi]; [|destruct (decide (i = last)) as [->|Hi2]].
  - erewrite (cell_eq b gs last), (cell_eq b' gs' e); [|by apply HL; auto|by rewrite HS, decide_True| | |done..].
    2: { rewrite HD, decide_False, decide_True by done. done. }
    2: { rewrite Houts, list_lookup_insert_ne, list_lookup_insert_eq by (done || lia). done. }
    rewrite C1, HT. unfold gs'. rewrite HB, decide_True by done. by rewrite Hv.
  - apply cell_none. intros x [[? _]|(? & _)]%HL; done.
  - apply cell_frame; [done|rewrite HK, !decide_False by done; done|]. intros x Hx.
    rewrite HS, HD, Houts, !decide_False, !list_lookup_insert_ne by done. split_and!; try done.
    unfold gs'. rewrite HB, decide_False by done. done.
Qed.
End shifted.

(** ** Logits processors follow the moves *)

(** A map of states by index follows the cells: the state of a request is at its index,
    and any other entry is at an index of [R]. *)
Definition tracks {T} (st : string → option T) (c : nat → option (string * View)) (R : Z → Prop) (E : gmap Z T) : Prop :=
  (∀ i id v, c i = Some (id, v) → E !! Z.of_nat i = st id) ∧
  (∀ z, is_Some (E !! z) → (∃ i, z = Z.of_nat i ∧ is_Some (c i)) ∨ R z).

Lemma tracks_impl {T} (st : string → option T) c c' R R' E : (∀ i, c' i = c i) → (∀ z, R z → R' z) →
  tracks st c R E → tracks st c' R' E.
Proof.
  intros Hc HR [H1 H2]. split; [intros i id v Hi; rewrite Hc in Hi; eauto|].
  intros z [(i & -> & Hi)|Hz]%H2; [left; exists i; by rewrite Hc|auto].
Qed.

(** A one-way move. *)
Lemma tracks_shift {T} (st : string → option T) c R E u (last e : nat) : e ≠ last → is_Some (c last) → c e = None →
  tracks st c R E →
  tracks st (λ i, if decide (i = e) then c last else if decide (i = last) then None else c i) (λ z, R z ∧ z ≠ Z.of_nat e)
    (process_moved (E, u) (Z.of_nat last, Z.of_nat e, UNIDIRECTIONAL)).1.
Proof.
  intros Hne [[id v] Hl] He [H1 H2]. pose proof (H1 _ _ _ Hl) as Hst.
  assert (∀ z, (process_moved (E, u) (Z.of_nat last, Z.of_nat e, UNIDIRECTIONAL)).1 !! z =
    if decide (z = Z.of_nat e) then E !! Z.of_nat last else if decide (z = Z.of_nat last) then None else E !! z) as Hz.
  { intros z. unfold process_moved. rewrite lookup_delete_ne by lia. rewrite (bool_decide_false (UNIDIRECTIONAL = SWAP)) by done.
    destruct (decide (z = Z.of_nat e)) as [->|H3]; [|destruct (decide (z = Z.of_nat last)) as [->|H4]];
      destruct (E !! Z.of_nat last) eqn:E1, (E !! Z.of_nat e) eqn:E2; simpl; simplify_map_eq; done. }
  split.
  - intros i x y. rewrite Hz. destruct (decide (i = e)) as [->|Hi].
    + rewrite decide_True by done. intros Hx. eauto.
    + destruct (decide (i = last)); [done|]. rewrite !decide_False by lia. apply H1.
  - intros z. rewrite Hz. destruct (decide (z = Z.of_nat e)) as [->|H3].
    { intros _. left. exists e. rewrite decide_True by done. eauto. }
    destruct (decide (z = Z.of_nat last)); [by intros []|]. intros [(i & -> & Hi)|Hr]%H2; [|auto].
    left. exists i. rewrite !decide_False; [done|intros ->; done|intros ->; done].
Qed.

(** An exchange. *)
Lemma tracks_swap {T} (st : string → option T) c R E u (i1 i2 : nat) : is_Some (c i1) → is_Some (c i2) → tracks st c R E →
  tracks st (λ i, if decide (i = i1) then c i2 else if decide (i = i2) then c i1 else c i) R
    (process_moved (E, u) (Z.of_nat i1, Z.of_nat i2, SWAP)).1.
Proof.
  intros [[id1 v1] C1] [[id2 v2] C2] [H1 H2].
  assert (∀ z, (process_moved (E, u) (Z.of_nat i1, Z.of_nat i2, SWAP)).1 !! z =
    if decide (z = Z.of_nat i1) then E !! Z.of_nat i2 else if decide (z = Z.of_nat i2) then E !! Z.of_nat i1 else E !! z) as Hz.
  { intros z. unfold process_moved. rewrite (bool_decide_true (SWAP = SWAP)) by done.
    destruct (decide (i1 = i2)) as [<-|Hne].
    - rewrite lookup_delete_eq. destruct (decide (z = Z.of_nat i1)) as [->|];
        destruct (E !! Z.of_nat i1) eqn:E1; simpl; simplify_map_eq; done.
    - assert (Z.of_nat i1 ≠ Z.of_nat i2) by lia. assert (Z.of_nat i2 ≠ Z.of_nat i1) by lia. rewrite lookup_delete_ne by done.
      destruct (decide (z = Z.of_nat i1)) as [->|Hz1]; [|destruct (decide (z = Z.of_nat i2)) as [->|Hz2]];
        destruct (E !! Z.of_nat i1) eqn:E1, (E !! Z.of_nat i2) eqn:E2; simpl; simplify_map_eq; done. }
  split.
  - intros i x y. rewrite Hz. destruct (decide (i = i1)) as [->|Hi]; [rewrite decide_True by done; apply H1|].
    rewrite (decide_False (P := Z.of_nat i = Z.of_nat i1)) by lia.
    destruct (decide (i = i2)) as [->|]; [rewrite decide_True by done; apply H1|]. rewrite decide_False by lia. apply H1.
  - intros z. rewrite Hz. destruct (decide (z = Z.of_nat i1)) as [->|].
    { intros _. left. exists i1. rewrite decide_True by done. eauto. }
    destruct (decide (z = Z.of_nat i2)) as [->|].
    { intros _. left. exists i2. destruct (decide (i2 = i1)); [lia|]. rewrite decide_True by done. eauto. }
    intros [(i & -> & Hi)|Hr]%H2; [|auto]. left. exists i. rewrite !decide_False by (intros ->; done). done.
Qed.
End safe.
