(* ===== verification/InputBatchStep.v ===== *)
(** * The persistent batch from step to step: [condense], [swap_states] and the steps of
    the model runner *)

From Stdlib Require Import ZArith Lia.
From stdpp Require Import list numbers gmap strings sorting.
From S2P Require Import Prelude MathUtils BlockTable BatchUpdate InputBatch InputBatchSafe.
Local Open Scope Z_scope.

Section step.
Context `{Float}.

(** ** A new batch *)

Lemma new_batch_ok n len tokens vocab bss kbss mb pooling il pcp dcp f0 k0 b :
  new_input_batch n len tokens vocab bss kbss mb pooling il pcp dcp f0 k0 = Ok b →
  (∀ t, t ∈ block_table b → bt_max_num_blocks_per_req t < 2 ^ 31) →
  let gs := blank n <$> block_table b in
  batch_ok (Z.to_nat len) b gs ∧ lora_ok b gs ∧ bu b = new_builder ∧ _req_ids b = [] ∧ ∀ i, cell b gs i = None.
Proof.
  unfold new_input_batch. destruct (new_multi_group n len tokens bss kbss mb il pcp dcp) as [ts|] eqn:E; [|done].
  cbn [mbind result_bind]. intros Hb Hw. injection Hb as <-. pose proof (new_multi_group_ok _ _ _ _ _ _ _ _ _ _ E Hw) as Ht.
  cbn [block_table] in *. set (gs := blank n <$> ts) in *.
  assert (∀ (c : InputBatch) i id, _req_ids c = [] → ¬ live c i id) as HL by (unfold live; by intros c i id ->).
  set (b := Build_InputBatch _ _ _ _ _ _ _ _ _ _ _ _ _ _ _ _ _). assert (∀ i, cell b gs i = None) as Hc.
  { intros i. apply cell_none. intros id. by apply HL. }
  split_and!; try done; split; simpl; try done; try lia; rewrite ?length_replicate; try lia; try (split; constructor).
  - apply Forall_replicate. split; simpl; by rewrite length_replicate.
  - unfold gs. apply Forall_fmap, Forall_true. intros t. simpl. by rewrite length_replicate.
  - intros i d _ [-> _]%lookup_replicate. done.
  - intros i s _ [-> _]%lookup_replicate. done.
  - constructor.
  - intros id z. split; [done|]. intros (i & _ & Hl). by apply HL in Hl.
  - constructor.
  - split; constructor.
  - intros _. by apply Forall_replicate.
  - intros id. by destruct pooling.
  - intros id l (i & v & Hi & _). by rewrite Hc in Hi.
Qed.

(** ** [condense] *)

Definition upto (z : Z) (R : list Z) : list Z := filter (λ x, x ≤ z) R.

Lemma below_mono z R : (length (upto (z - 1) R) ≤ length (upto z R))%nat.
Proof.
  unfold upto. induction R as [|y R IHR]; [done|]. rewrite !filter_cons.
  destruct (decide (y ≤ z - 1)), (decide (y ≤ z)); simpl; lia.
Qed.
Lemma below_less z R : z ∈ R → (length (upto (z - 1) R) < length (upto z R))%nat.
Proof.
  unfold upto. induction R as [|x R IHR]; intros E; [by apply elem_of_nil in E|]. rewrite !filter_cons.
  pose proof (below_mono z R) as Hm. unfold upto in Hm.
  apply elem_of_cons in E as [->|E]; [|specialize (IHR E)]; destruct (decide _), (decide _); simpl; lia.
Qed.

(** The inner loop stops at the largest index that is not empty. *)
Lemma skip_empty_ok fuel R z : (length (upto z R) ≤ fuel)%nat →
  let z' := skip_empty fuel R z in z' ≤ z ∧ z' ∉ R ∧ ∀ y, z' < y ≤ z → y ∈ R.
Proof.
  revert z. induction fuel as [|fuel IH]; intros z Hf; simpl.
  - split; [lia|]. split; [|lia]. intros Hz. assert (z ∈ upto z R) as Hin by (apply list_elem_of_filter; split; [lia|done]).
    destruct (upto z R); [by apply elem_of_nil in Hin|simpl in Hf; lia].
  - destruct (bool_decide (z ∈ R)) eqn:E; [apply bool_decide_eq_true in E|apply bool_decide_eq_false in E; split_and!; [lia|done|lia]].
    pose proof (below_less z R E). destruct (IH (z - 1)) as (H1 & H2 & H3); [lia|].
    split; [lia|]. split; [done|]. intros y Hy. destruct (decide (y = z)) as [->|]; [done|]. apply H3. lia.
Qed.

(** The loop of [condense]: the empty indices are those still recorded and those above
    the last one. *)
Record gaps_ok (b : InputBatch) (last : Z) : Prop := {
  ga_sorted : StronglySorted descending (_removed (bu b));
  ga_flag : _is_removed_sorted (bu b) = true;
  ga_nodup : NoDup (_removed (bu b));
  ga_range : ∀ z, z ∈ _removed (bu b) → 0 ≤ z < zlen (_req_ids b);
  ga_empty : ∀ i, (i < length (_req_ids b))%nat → _req_ids b !! i = Some None ↔ Z.of_nat i ∈ _removed (bu b) ∨ last < Z.of_nat i;
  ga_some : ∃ i id, live b i id;
}.

(** The requests are the first ones. *)
Definition dense (b : InputBatch) (m : nat) : Prop :=
  (m ≤ length (_req_ids b))%nat ∧ (∀ i, (i < m)%nat → ∃ id, live b i id) ∧ ∀ i, (m ≤ i)%nat → ∀ id, ¬ live b i id.

Definition same_config (b b' : InputBatch) : Prop :=
  (is_pooling_model b', max_num_reqs b', vocab_size b') = (is_pooling_model b, max_num_reqs b, vocab_size b).
Definition same_requests (b : InputBatch) (gs : list group) (b' : InputBatch) (gs' : list group) : Prop :=
  ∀ id v, (∃ i, cell b' gs' i = Some (id, v)) ↔ ∃ i, cell b gs i = Some (id, v).

Lemma not_empty_live b i : (i < length (_req_ids b))%nat → _req_ids b !! i ≠ Some None → ∃ id, live b i id.
Proof. intros Hi Hn. destruct (lookup_lt_is_Some_2 _ _ Hi) as [[id|] Hid]; [by exists id|done]. Qed.

Lemma gaps_dense b last last' : gaps_ok b last → last' ≤ last → last' ∉ _removed (bu b) →
  (∀ y, last' < y ≤ last → y ∈ _removed (bu b)) → (∀ z, z ∈ _removed (bu b) → last' ≤ z) →
  0 ≤ last' → last' < zlen (_req_ids b) → dense b (Z.to_nat (last' + 1)).
Proof.
  intros [Hs Hf Hn Hr He Hsome] Hle Hnin Hin Hmin H0 Hlt. unfold zlen in *. split; [lia|]. split.
  - intros i Hi. apply not_empty_live; [lia|]. rewrite He by lia. intros [Hz|Hz]; [|lia].
    apply Hmin in Hz as Hz'. assert (Z.of_nat i = last') as Heq by lia. by rewrite Heq in Hz.
  - intros i Hi id Hl. pose proof (lookup_lt_Some _ _ _ Hl). assert (_req_ids b !! i = Some None) as Hx; [|unfold live in Hl; congruence].
    apply He; [done|]. destruct (Z_lt_le_dec last (Z.of_nat i)); [auto|]. left. apply Hin. lia.
Qed.

Lemma gaps_removed b last z : gaps_ok b last → z ∈ _removed (bu b) → ∃ e, z = Z.of_nat e ∧ _req_ids b !! e = Some None.
Proof.
  intros Hg Hz. pose proof (ga_range _ _ Hg z Hz) as Hr. unfold zlen in Hr. exists (Z.to_nat z). split; [lia|].
  apply (ga_empty _ _ Hg); [lia|]. left. by rewrite Z2Nat.id by lia.
Qed.

(** The shape of the groups, which no operation changes. *)
Definition shapes (gs : list group) : list (Z * Z) := (λ g, (g_per g, g_width g)) <$> gs.
Lemma shapes_after op gs : shapes (groups_after op gs) = shapes gs.
Proof. unfold shapes, groups_after. rewrite fmap_imap, <-imap_const. by apply imap_ext. Qed.
Lemma shapes_per gs gs' : shapes gs' = shapes gs → g_per <$> gs' = g_per <$> gs.
Proof. intros Hs. apply (f_equal (fmap fst)) in Hs. unfold shapes in Hs. by rewrite <-!list_fmap_compose in Hs. Qed.

(** The requests carried over by rounds of the loop, with the moves [ms] they record. *)
Record carried (w : nat) (b : InputBatch) (gs : list group) (b' : InputBatch) (gs' : list group)
    (ms : list (Z * Z * MoveDirectionality)) : Prop := {
  ca_ok : batch_ok w b' gs';
  ca_lora : lora_ok b' gs';
  ca_config : same_config b b';
  ca_shapes : shapes gs' = shapes gs;
  ca_requests : same_requests b gs b' gs';
  ca_num : num_reqs b' = num_reqs b;
  ca_length : length (_req_ids b') = length (_req_ids b);
  ca_added : added (bu b') = added (bu b);
  ca_moved : moved (bu b') = moved (bu b) ++ ms;
  ca_removed : ∀ z, z ∈ _removed (bu b') → z ∈ _removed (bu b);
  ca_tracks : is_pooling_model b = false → ∀ T (st : string → option T) E u (R : Z → Prop),
    (∀ z, R z → z ∈ _removed (bu b)) →
    tracks st (cell b gs) R E →
    tracks st (cell b' gs') (λ z, R z ∧ z ∈ _removed (bu b')) (foldl process_moved (E, u) ms).1;
}.

Lemma carried_refl w b gs : batch_ok w b gs → lora_ok b gs → carried w b gs b gs [].
Proof.
  intros Hb Hl. split; try done; [by rewrite app_nil_r|]. intros _ T st E u R HR Ht. simpl.
  eapply tracks_impl; [| |exact Ht]; [done|]. auto.
Qed.
Lemma foldl_moved {T} (E : gmap Z T * bool) ms : ∃ u, foldl process_moved E ms = ((foldl process_moved E ms).1, u).
Proof. eexists. apply surjective_pairing. Qed.
Lemma carried_trans w b gs b1 gs1 b2 gs2 ms1 ms2 : carried w b gs b1 gs1 ms1 → carried w b1 gs1 b2 gs2 ms2 →
  carried w b gs b2 gs2 (ms1 ++ ms2).
Proof.
  intros H1 H2. pose proof (ca_config _ _ _ _ _ _ H1) as C1. unfold same_config in C1. injection C1 as D1 D2 D3. split; try apply H2.
  - unfold same_config. pose proof (ca_config _ _ _ _ _ _ H2) as C2. unfold same_config in C2. congruence.
  - rewrite (ca_shapes _ _ _ _ _ _ H2). apply H1.
  - intros id v. transitivity (∃ i, cell b1 gs1 i = Some (id, v));
      [apply (ca_requests _ _ _ _ _ _ H2)|apply (ca_requests _ _ _ _ _ _ H1)].
  - rewrite (ca_num _ _ _ _ _ _ H2). apply H1.
  - rewrite (ca_length _ _ _ _ _ _ H2). apply H1.
  - rewrite (ca_added _ _ _ _ _ _ H2). apply H1.
  - rewrite (ca_moved _ _ _ _ _ _ H2), (ca_moved _ _ _ _ _ _ H1). by rewrite app_assoc.
  - intros z Hz. by apply H1, H2.
  - intros Hp T st E u R HR Ht. rewrite foldl_app.
    pose proof (ca_tracks _ _ _ _ _ _ H1 Hp T st E u R HR Ht) as T1. destruct (foldl_moved (E, u) ms1) as [u1 ->].
    eapply tracks_impl; [reflexivity| |eapply (ca_tracks _ _ _ _ _ _ H2); [congruence| |exact T1]]; simpl; tauto.
Qed.

Lemma lora_ok_same b gs b' gs' : lora_ok b gs → same_requests b gs b' gs' →
  lora_id_to_request_ids b' = lora_id_to_request_ids b → lora_id_to_lora_request b' = lora_id_to_lora_request b → lora_ok b' gs'.
Proof.
  intros Hlo Hsame E1 E2. eapply lora_ok_frame; [exact Hlo|done|done|]. intros x l. unfold carries.
  split; intros (i & v & Hi & Hv).
  - destruct (proj1 (Hsame x v) (ex_intro _ i Hi)) as [k Hk]. eauto.
  - destruct (proj2 (Hsame x v) (ex_intro _ i Hi)) as [k Hk]. eauto.
Qed.

(** One round. *)
Section round.
Context (w : nat) (b : InputBatch) (gs : list group) (last : Z) (last' e : nat) (l : list Z) (id : string).
Context (s' from : Slot) (drafts : list Z) (b' : InputBatch).
Hypothesis Hb : batch_ok w b gs.
Hypothesis Hlo : lora_ok b gs.
Hypothesis Hg : gaps_ok b last.
Hypothesis Hr : _removed (bu b) = l ++ [Z.of_nat e].
Hypothesis Hlt : (e < last')%nat.
Hypothesis Hm : shifted_at w b gs id last' e s' from drafts b'.
Hypothesis Hrem : _removed (bu b') = l.
Let gs' := groups_after (OMove last' e) gs.

Lemma round_hole : Z.of_nat e ∉ l.
Proof.
  pose proof (ga_nodup _ _ Hg) as Hnd. rewrite Hr in Hnd. apply NoDup_app in Hnd as (_ & Hdis & _).
  intros Hx. apply (Hdis _ Hx). set_solver.
Qed.

Lemma round_requests : same_requests b gs b' gs'.
Proof.
  pose proof (shifted_cells w b gs id last' e s' from drafts b' Hb Hm) as Hc.
  pose proof (cell_none b gs e ltac:(unfold live; intros x; pose proof (sa_hole _ _ _ _ _ _ _ _ _ _ Hm); congruence)) as Hce.
  intros x v. split.
  - intros [i Hi]. unfold gs' in Hi. rewrite Hc in Hi. destruct (decide (i = e)); [eauto|]. destruct (decide (i = last')); [done|eauto].
  - intros [i Hi]. unfold gs'. destruct (decide (i = last')) as [->|Hi2]; [exists e; by rewrite Hc, decide_True|].
    exists i. rewrite Hc, !decide_False; [done|done|]. intros ->. congruence.
Qed.

Lemma round_tracks {T} (st : string → option T) E u (R : Z → Prop) : (∀ z, R z → z ∈ _removed (bu b)) →
  tracks st (cell b gs) R E →
  tracks st (cell b' gs') (λ z, R z ∧ z ∈ _removed (bu b')) (process_moved (E, u) (Z.of_nat last', Z.of_nat e, UNIDIRECTIONAL)).1.
Proof.
  intros HR Ht. destruct (live_slot w b gs last' id Hb (sa_live _ _ _ _ _ _ _ _ _ _ Hm)) as (s0 & d0 & o0 & Q1 & Q2 & Q3).
  pose proof (cell_eq b gs last' id s0 d0 o0 (sa_live _ _ _ _ _ _ _ _ _ _ Hm) Q1 Q2 Q3) as Hcl.
  pose proof (cell_none b gs e ltac:(unfold live; intros x; pose proof (sa_hole _ _ _ _ _ _ _ _ _ _ Hm); congruence)) as Hce.
  eapply tracks_impl; [| |apply tracks_shift; [|eauto..|exact Ht]]; [|simpl|lia].
  - intros i. by apply shifted_cells with (w := w) (id := id) (s' := s') (from := from) (drafts := drafts).
  - intros z [Hz Hne]. split; [done|]. rewrite Hrem. specialize (HR z Hz). rewrite Hr in HR. set_solver.
Qed.

Lemma round_gaps : Z.of_nat last' ≤ last → _is_removed_sorted (bu b') = true →
  (∀ y, Z.of_nat last' < y ≤ last → y ∈ _removed (bu b)) → gaps_ok b' (Z.of_nat last' - 1).
Proof.
  intros Hle Hfl Hskip. pose proof (shifted_lookup w b gs id last' e s' from drafts b' Hm) as Hids. pose proof round_hole as Hel.
  assert (length (_req_ids b') = length (_req_ids b)) as Hlen by (rewrite (sa_ids _ _ _ _ _ _ _ _ _ _ Hm), !length_insert; done).
  pose proof (ga_sorted _ _ Hg) as Hso. rewrite Hr in Hso. apply StronglySorted_app in Hso as (_ & Hso & _).
  pose proof (ga_nodup _ _ Hg) as Hnd. rewrite Hr in Hnd. apply NoDup_app in Hnd as (Hndl & _ & _).
  split; rewrite ?Hrem; try done.
  - intros z Hz. unfold zlen. rewrite Hlen. apply (ga_range _ _ Hg). rewrite Hr. set_solver.
  - intros i Hi. rewrite Hlen in Hi. rewrite Hids. destruct (decide (i = last')) as [->|H1]; [split; [lia|done]|].
    destruct (decide (i = e)) as [->|H2]; [split; [done|intros [?|?]; [done|lia]]|].
    rewrite (ga_empty _ _ Hg) by done. rewrite Hr, elem_of_app, list_elem_of_singleton.
    split; [intros [[?|?]|?]; [auto|lia|right; lia]|]. intros [?|?]; [auto|].
    destruct (Z_lt_le_dec last (Z.of_nat i)); [auto|]. left. specialize (Hskip (Z.of_nat i) ltac:(lia)). rewrite Hr in Hskip. set_solver.
  - exists e, id. eapply shifted_live; eauto.
Qed.
End round.

Lemma move_down_ok w b gs last last' e l id : batch_ok w b gs → lora_ok b gs → gaps_ok b last →
  _removed (bu b) = l ++ [Z.of_nat e] → Z.of_nat last' ≤ last → live b last' id → (e < last')%nat →
  (∀ y, Z.of_nat last' < y ≤ last → y ∈ _removed (bu b)) →
  ∃ b' ms, let gs' := groups_after (OMove last' e) gs in
    move_down (Z.of_nat last') (Z.of_nat e) b = Ok (tt, b') ∧ carried w b gs b' gs' ms ∧ gaps_ok b' (Z.of_nat last' - 1) ∧
    _removed (bu b') = l.
Proof.
  intros Hb Hlo Hg Hr Hle Hl Hlt Hskip.
  assert (_req_ids b !! e = Some None) as He.
  { destruct (gaps_removed b last (Z.of_nat e) Hg) as (e' & Ee%Nat2Z.inj & He); [rewrite Hr; set_solver|]. by rewrite Ee. }
  destruct (move_down_eval w b gs last' e l id Hb Hl He (ga_flag _ _ Hg) Hr) as (s' & from & drafts & b' & E & Hm & Hrem & Hfl & Hadd & Hmov).
  exists b'. eexists. simpl. split; [exact E|].
  assert (same_requests b gs b' (groups_after (OMove last' e) gs)) as Hsame by (by eapply round_requests).
  split; [|split; [by eapply round_gaps|done]]. split; try done.
  - by eapply shifted_ok.
  - eapply lora_ok_same; [done|done|apply Hm|apply Hm].
  - apply Hm.
  - apply shapes_after.
  - unfold num_reqs, zlen. rewrite <-(length_fmap fst (req_id_to_index b')), (sa_index _ _ _ _ _ _ _ _ _ _ Hm), dict_set_keys.
    rewrite decide_True, length_fmap; [done|]. apply dict_get_is_Some. exists (Z.of_nat last'). apply (bo_index _ _ _ Hb). eauto.
  - by rewrite (sa_ids _ _ _ _ _ _ _ _ _ _ Hm), !length_insert.
  - intros z Hz. rewrite Hr, elem_of_app. rewrite Hrem in Hz. auto.
  - intros Hp T st E0 u R HR Ht. rewrite Hp. simpl foldl. by eapply round_tracks.
Qed.

Lemma last_of_nonempty (l : list Z) : l ≠ [] → ∃ l' z, l = l' ++ [z].
Proof. intros Hl. destruct (exists_last Hl) as (l' & z & ->). eauto. Qed.

Lemma below_length z R : (length (upto z R) ≤ length R)%nat.
Proof. unfold upto. apply length_filter. Qed.

Definition last_request (b : InputBatch) (last : Z) : Z := skip_empty (length (_removed (bu b))) (_removed (bu b)) last.

Lemma last_request_ok b last : gaps_ok b last →
  0 ≤ last_request b last ≤ last ∧ last_request b last ∉ _removed (bu b) ∧
  ∀ y, last_request b last < y ≤ last → y ∈ _removed (bu b).
Proof.
  intros Hg. destruct (skip_empty_ok (length (_removed (bu b))) (_removed (bu b)) last (below_length _ _)) as (S1 & S2 & S3).
  fold (last_request b last) in *. split; [|done]. split; [|done].
  destruct (ga_some _ _ Hg) as (i & id & Hl). pose proof (lookup_lt_Some _ _ _ Hl).
  destruct (Z_lt_le_dec (last_request b last) (Z.of_nat i)) as [Hi|]; [|lia]. exfalso.
  assert (_req_ids b !! i = Some None) as Hx; [|unfold live in Hl; congruence].
  apply (ga_empty _ _ Hg); [done|]. destruct (Z_lt_le_dec last (Z.of_nat i)); [auto|]. left. apply S3. lia.
Qed.

Lemma condense_loop_nil fuel last b : _removed (bu b) = [] → condense_loop fuel last b = Ok (tt, b).
Proof. intros Hr. destruct fuel; simpl condense_loop; mstep; change (batch_update_builder b) with (bu b); by rewrite ?Hr. Qed.
Lemma condense_loop_cons fuel last b l e : _is_removed_sorted (bu b) = true → _removed (bu b) = l ++ [e] →
  condense_loop (S fuel) last b =
  (if last_request b last <=? e then mret tt
   else move_down (last_request b last) e ≫= λ _, condense_loop fuel (last_request b last - 1)) b.
Proof.
  intros Hs Hr. destruct (pop_sorted (bu b) l e Hs Hr) as [_ Epeek]. simpl condense_loop. mstep.
  change (batch_update_builder b) with (bu b). fold (last_request b last).
  destruct (_removed (bu b)) as [|x xs] eqn:Hx; [by destruct l|]. rewrite (bind_ok _ _ b (Some e) b); [done|].
  unfold on_builder, zoom. unfold bu in Epeek. rewrite Epeek. by destruct b.
Qed.

(** The lowest recorded index comes last. *)
Lemma gaps_last b last : gaps_ok b last → _removed (bu b) ≠ [] →
  ∃ l e, _removed (bu b) = l ++ [Z.of_nat e] ∧ ∀ y, y ∈ _removed (bu b) → Z.of_nat e ≤ y.
Proof.
  intros Hg Hne. destruct (last_of_nonempty _ Hne) as (l & z & Hr). pose proof (ga_sorted _ _ Hg) as Hso.
  destruct (gaps_removed b last z Hg) as (e & -> & _); [rewrite Hr; set_solver|]. exists l, e. split; [done|].
  rewrite Hr in Hso |- *. apply StronglySorted_app in Hso as (Hso & _ & _). intros y Hy.
  apply elem_of_app in Hy as [Hy|Hy%list_elem_of_singleton]; [|lia]. apply (Hso y (Z.of_nat e)); [done|set_solver].
Qed.

Lemma condense_loop_ok fuel w b gs last : (length (_removed (bu b)) ≤ fuel)%nat → batch_ok w b gs → lora_ok b gs → gaps_ok b last →
  last < zlen (_req_ids b) →
  ∃ b' gs' ms m, condense_loop fuel last b = Ok (tt, b') ∧ carried w b gs b' gs' ms ∧ dense b' m.
Proof.
  revert b gs last. induction fuel as [|fuel IH]; intros b gs last Hfuel Hb Hlo Hg Hlast;
    destruct (last_request_ok b last Hg) as (H0 & S2 & S3); set (last' := last_request b last) in *;
    (destruct (decide (_removed (bu b) = [])) as [E|Hne];
     [exists b, gs, [], (Z.to_nat (last' + 1)); rewrite (condense_loop_nil _ _ _ E); split_and!; [done|by apply carried_refl|];
      eapply gaps_dense; try done; [lia| |lia|lia]; rewrite E; intros z Hz; by apply elem_of_nil in Hz|]).
  { destruct (_removed (bu b)); [done|simpl in Hfuel; lia]. }
  destruct (gaps_last b last Hg Hne) as (l & e & Hr & Hmin). rewrite (condense_loop_cons _ _ _ _ _ (ga_flag _ _ Hg) Hr). fold last'.
  destruct (Z.leb_spec last' (Z.of_nat e)) as [Hle|Hlt].
  { exists b, gs, [], (Z.to_nat (last' + 1)). split_and!; [done|by apply carried_refl|].
    eapply gaps_dense; try done; [lia| |lia|lia]. intros y Hy. specialize (Hmin y Hy). lia. }
  unfold zlen in Hlast. destruct (not_empty_live b (Z.to_nat last')) as [id Hl]; [lia| |].
  { rewrite (ga_empty _ _ Hg), Z2Nat.id by lia. intros [?|?]; [done|lia]. }
  destruct (move_down_ok w b gs last (Z.to_nat last') e l id) as (b1 & ms1 & E1 & C1 & G1 & R1);
    rewrite ?Z2Nat.id by lia; try done; [lia|lia|]. rewrite Z2Nat.id in E1, G1 by lia. rewrite (bind_ok _ _ _ _ _ E1).
  destruct (IH b1 (groups_after (OMove (Z.to_nat last') e) gs) (last' - 1)) as (b' & gs' & ms & m & E' & C' & D').
  - rewrite R1. rewrite Hr, length_app in Hfuel. simpl in Hfuel. lia.
  - apply C1.
  - apply C1.
  - done.
  - unfold zlen. rewrite (ca_length _ _ _ _ _ _ C1). lia.
  - exists b', gs', (ms1 ++ ms), m. split; [done|]. split; [by eapply carried_trans|done].
Qed.

Lemma omap_dense (ids : list (option string)) m : (m ≤ length ids)%nat → (∀ i, (i < m)%nat → ∃ id, ids !! i = Some (Some id)) →
  (∀ i, (m ≤ i)%nat → ∀ id, ids !! i ≠ Some (Some id)) → length (omap id ids) = m.
Proof.
  revert m. induction ids as [|o ids IH]; intros m Hm Hl Hn; [simpl in *; lia|]. destruct m as [|m].
  - destruct o as [x|]; [by destruct (Hn 0%nat ltac:(lia) x)|]. apply (IH 0%nat); [lia|lia|]. intros i _ x. apply (Hn (S i)). lia.
  - destruct (Hl 0%nat ltac:(lia)) as [x [= ->]]. simpl. f_equal. apply IH; [simpl in Hm; lia| |].
    + intros i Hi. apply (Hl (S i)). lia.
    + intros i Hi y. apply (Hn (S i)). lia.
Qed.
Lemma dense_num w b gs m : batch_ok w b gs → dense b m → num_reqs b = Z.of_nat m.
Proof.
  intros Hb (H1 & H2 & H3). unfold num_reqs, zlen. f_equal. rewrite <-(length_fmap fst (req_id_to_index b)).
  rewrite (batch_keys_perm w b gs Hb). by apply omap_dense.
Qed.

(** Trimming the lists drops nothing but holes. *)
Definition trimmed (b : InputBatch) (m : nat) : InputBatch :=
  set_ids b (take m (_req_ids b)) (take m (req_output_token_ids b)) (take m (spec_token_ids b)) (req_id_to_index b).

Lemma trim_ok b m : trim (Z.of_nat m) b = Ok (tt, trimmed b m).
Proof. unfold trim, modify, trimmed. by rewrite Nat2Z.id. Qed.

Lemma trimmed_live b m i id : dense b m → live (trimmed b m) i id ↔ live b i id.
Proof.
  intros (H1 & H2 & H3). unfold live. simpl. destruct (decide (i < m)%nat) as [Hi|Hi]; [by rewrite lookup_take_lt|].
  rewrite lookup_take_ge by lia. split; [done|]. intros Hl. by destruct (H3 i ltac:(lia) id).
Qed.

Lemma trimmed_ok w b gs m : batch_ok w b gs → dense b m → batch_ok w (trimmed b m) gs.
Proof.
  intros Hb Hd. pose proof (trimmed_live b m) as HL. pose proof Hd as (H1 & H2 & H3).
  pose proof (bo_cap _ _ _ Hb). pose proof (bo_outs _ _ _ Hb). pose proof (bo_specs _ _ _ Hb).
  split; try apply Hb; simpl; rewrite ?length_take; try lia.
  - intros i id s d Hl. rewrite lookup_take_Some. intros Hs [Hdr _]. apply HL in Hl; [|done]. by eapply (bo_active _ _ _ Hb).
  - intros i d Hn. rewrite lookup_take_Some. intros [Hdr _]. eapply (bo_no_drafts _ _ _ Hb); [|done].
    intros id Hl. by apply (Hn id), HL.
  - intros i s Hn. apply (bo_free _ _ _ Hb). intros id Hl. by apply (Hn id), HL.
  - intros id z. rewrite (bo_index _ _ _ Hb). split; intros (i & -> & Hl); exists i; (split; [done|]); by apply HL in Hl || apply HL.
  - intros id Hn. apply (bo_tags _ _ _ Hb). intros i Hl. by apply (Hn i), HL.
Qed.

Lemma trimmed_cells w b gs m i : batch_ok w b gs → dense b m → cell (trimmed b m) gs i = cell b gs i.
Proof.
  intros Hb Hd. pose proof Hd as (H1 & H2 & H3). destruct (decide (i < m)%nat) as [Hi|Hi].
  - apply cell_frame; [done|simpl; by rewrite lookup_take_lt|]. intros id Hl. simpl. rewrite !lookup_take_lt by done. done.
  - rewrite !cell_none; [done|apply H3; lia|]. intros id Hl%trimmed_live; [|done]. by apply (H3 i ltac:(lia) id).
Qed.
Lemma trimmed_dense b m : dense b m → dense (trimmed b m) m ∧ length (_req_ids (trimmed b m)) = m.
Proof.
  intros Hd. pose proof Hd as (H1 & H2 & H3). assert (length (_req_ids (trimmed b m)) = m) as Hl by (simpl; rewrite length_take; lia).
  split; [|done]. split; [lia|]. split.
  - intros i Hi. destruct (H2 i Hi) as [id Hid]. exists id. by apply trimmed_live.
  - intros i Hi id Hx%trimmed_live; [|done]. by apply (H3 i Hi id).
Qed.

(** After [condense] the requests of the batch are the same, at the first indices. *)
Record condensed (w : nat) (b : InputBatch) (gs : list group) (b' : InputBatch) (gs' : list group)
    (ms : list (Z * Z * MoveDirectionality)) : Prop := {
  co_ok : batch_ok w b' gs';
  co_lora : lora_ok b' gs';
  co_config : same_config b b';
  co_shapes : shapes gs' = shapes gs;
  co_requests : same_requests b gs b' gs';
  co_dense : dense b' (length (_req_ids b'));
  co_added : added (bu b') = added (bu b);
  co_moved : moved (bu b') = moved (bu b) ++ ms;
  co_removed : ∀ z, z ∈ _removed (bu b') → z ∈ _removed (bu b);
  co_tracks : is_pooling_model b = false → ∀ T (st : string → option T) E u (R : Z → Prop),
    (∀ z, R z → z ∈ _removed (bu b)) → tracks st (cell b gs) R E →
    tracks st (cell b' gs') (λ z, R z ∧ z ∈ _removed (bu b')) (foldl process_moved (E, u) ms).1;
}.

Lemma carried_condensed w b gs b' gs' ms m : carried w b gs b' gs' ms → dense b' m →
  condensed w b gs (trimmed b' m) gs' ms.
Proof.
  intros [] Hd. destruct (trimmed_dense b' m Hd) as [Hd' Hl]. pose proof (λ i, trimmed_cells w b' gs' m i ca_ok0 Hd) as Hc.
  assert (same_requests b' gs' (trimmed b' m) gs') as Hs by (intros id v; by setoid_rewrite Hc).
  split; try done.
  - by apply trimmed_ok.
  - eapply lora_ok_same; [exact ca_lora0|done..].
  - intros id v. transitivity (∃ i, cell b' gs' i = Some (id, v)); [apply Hs|apply ca_requests0].
  - by rewrite Hl.
  - intros Hp T st E u R HR Ht. eapply tracks_impl; [exact Hc| |by apply ca_tracks0]. done.
Qed.

Lemma batch_ok_builder w b gs u : batch_ok w b gs → batch_ok w (set_builder u b) gs.
Proof. intros []. by split. Qed.
Lemma lora_ok_builder b gs u : lora_ok b gs → lora_ok (set_builder u b) gs.
Proof. intros []. by split. Qed.

Lemma read_removed b : holes_ok b → ∃ l, on_builder removed b = Ok (l, set_builder (set_removed l true (bu b)) b) ∧
  l ≡ₚ _removed (bu b) ∧ StronglySorted descending l.
Proof.
  intros Hh. destruct (ensure_sorted (bu b) (ho_sorted _ Hh)) as (l & E & Hp & Hs). exists l. split; [|done].
  unfold on_builder, zoom, removed. unfold bu in *. by rewrite E.
Qed.

Lemma condense_ok w b gs : batch_ok w b gs → lora_ok b gs → holes_ok b →
  ∃ b' gs' ms, condense b = Ok (tt, b') ∧ condensed w b gs b' gs' ms.
Proof.
  intros Hb Hlo Hh. destruct (read_removed b Hh) as (l & Er & Hp & Hs). pose proof (num_reqs_holes w b gs Hb Hh) as Hn.
  unfold condense. mstep. rewrite (bind_ok _ _ _ _ _ Er). set (b0 := set_builder (set_removed l true (bu b)) b).
  assert (batch_ok w b0 gs) as Hb0 by (by apply batch_ok_builder). assert (lora_ok b0 gs) as Hlo0 by (by apply lora_ok_builder).
  assert (∀ z, z ∈ l ↔ ∃ i, z = Z.of_nat i ∧ _req_ids b !! i = Some None) as Hl by (intros z; rewrite Hp; apply Hh).
  assert (zlen l = zlen (_removed (bu b))) as Hlen by (unfold zlen; by rewrite Hp).
  assert (carried w b gs b0 gs []) as C0.
  { split; try done; [by rewrite app_nil_r|simpl; intros z; by rewrite Hp|]. intros _ T st E u R HR Ht. simpl.
    eapply tracks_impl; [| |exact Ht]; [done|]. intros z Hz. rewrite Hp. auto. }
  assert (num_reqs b0 = num_reqs b) as Hnum by done.
  destruct (decide (l = [])) as [->|Hne].
  - exists b0, gs, []. split; [done|]. assert (dense b0 (length (_req_ids b0))) as Hd.
    { split; [done|]. split; [|intros i Hi id Hx; apply lookup_lt_Some in Hx; lia]. intros i Hi. apply not_empty_live; [done|].
      intros Hx. assert (Z.of_nat i ∈ @nil Z) as Hin by (apply Hl; eauto). by apply elem_of_nil in Hin. }
    pose proof (carried_condensed w b gs b0 gs [] _ C0 Hd) as Hc. destruct C0. by split.
  - destruct (Z.eqb_spec (num_reqs b) 0) as [Hz|Hz].
    + exists (trimmed b0 0), gs, []. split; [by destruct l|]. apply carried_condensed; [done|]. split; [lia|]. split; [lia|].
      intros i _ id Hx. assert (dict_get (req_id_to_index b) id = Some (Z.of_nat i)) as Hd by (apply (bo_index _ _ _ Hb); eauto).
      unfold num_reqs, zlen in Hz. destruct (req_id_to_index b); [done|simpl in Hz; lia].
    + destruct (condense_loop_ok (length l) w b0 gs (num_reqs b + zlen l - 1)) as (b' & gs' & ms & m & El & C & D); try done.
      * split; simpl; try done; [by rewrite Hp; apply Hh| | |].
        -- intros z (i & -> & Hi)%Hl. apply lookup_lt_Some in Hi. unfold zlen. lia.
        -- intros i Hi. rewrite Hl. split; [intros Hx; left; eauto|]. intros [(k & Hk%Nat2Z.inj & Hx)|Hx]; [by rewrite Hk|].
           unfold zlen in *. lia.
        -- destruct (req_id_to_index b) as [|[id z] d] eqn:Ed; [by unfold num_reqs in Hz; rewrite Ed in Hz|].
           assert (dict_get (req_id_to_index b) id = Some z) as Hg by (rewrite Ed; simpl; by rewrite decide_True).
           apply (bo_index _ _ _ Hb) in Hg as (i & _ & Hi). eauto.
      * change (_req_ids b0) with (_req_ids b). lia.
      * pose proof (dense_num w b' gs' m (ca_ok _ _ _ _ _ _ C) D) as Hm. rewrite (ca_num _ _ _ _ _ _ C), Hnum in Hm.
        exists (trimmed b' m), gs', ms. split.
        { destruct l as [|x l]; [done|]. rewrite (bind_ok _ _ _ _ _ El), Hm. apply trim_ok. }
        apply carried_condensed; [|done]. by apply (carried_trans w b gs b0 gs b' gs' [] ms).
Qed.

(** ** [swap_states] *)

Lemma take_put_prefix {A} (row from : list A) (a m w : nat) : length row = w → length from = w → (a ≤ m)%nat →
  take a (take m from ++ drop m row) = take a from.
Proof.
  intros Hr Hl Hm. pose proof (take_put_front row from m w Hr Hl) as Ht. apply (f_equal (take a)) in Ht.
  by rewrite !take_take, Nat.min_l in Ht by lia.
Qed.

Lemma swapped_ok w pooling masked first (m : nat) s1 s2 drafts : slot_ok w s1 → slot_ok w s2 → slot_active w s2 drafts →
  (active s2 drafts ≤ m)%nat → (pooling = true → slot_free s1) →
  ∃ s', swapped pooling masked (Z.of_nat m) first s1 s2 = Ok s' ∧ slot_ok w s' ∧ slot_active w s' drafts ∧
    (pooling = true → slot_free s') ∧ (∀ out blocks t, view pooling s' drafts out blocks t = view pooling s2 drafts out blocks t) ∧
    s_mask s' = if first && masked && negb pooling then s_mask s2 else s_mask s1.
Proof.
  intros [H1 H2] [H3 H4] (Ha & Hw & He) Hm Hf. unfold swapped. rewrite !(put_front _ _ m w) by (done || lia).
  cbn [mbind result_bind]. eexists. split; [reflexivity|]. match goal with |- slot_ok w ?x ∧ _ => set (s' := x) end.
  assert (active s' drafts = active s2 drafts) as Hac by done.
  assert (take (active s2 drafts) (s_token_ids s') = take (active s2 drafts) (s_token_ids s2)) as Ht by (by eapply take_put_prefix).
  assert (take (active s2 drafts) (s_is_token_ids s') = take (active s2 drafts) (s_is_token_ids s2)) as Hfl by (by eapply take_put_prefix).
  assert (all_known s' = all_known s2) as Hk.
  { unfold all_known. f_equal. change (s_num_tokens_no_spec s') with (s_num_tokens_no_spec s2).
    eapply take_put_prefix; [done|done|]. unfold active, zlen in Hm. lia. }
  split_and!.
  - split; simpl; rewrite length_app, length_take, length_drop; lia.
  - split; [done|]. by rewrite Hk.
  - intros ->. by apply Hf.
  - intros out blocks t. unfold view. rewrite Hac, Ht, Hfl, Hk. f_equal. by destruct pooling.
  - done.
Qed.

(** Requests [id1] and [id2] exchanged. *)
Record exchanged_at (w : nat) (b : InputBatch) (gs : list group) (i1 i2 : nat) (id1 id2 : string) (s1 s2 s1' s2' : Slot)
    (d1 d2 : list Z) (b' : InputBatch) : Prop := {
  xa_live : live b i1 id1 ∧ live b i2 id2;
  xa_slot : slots b !! i1 = Some s1 ∧ slots b !! i2 = Some s2;
  xa_draft : spec_token_ids b !! i1 = Some d1 ∧ spec_token_ids b !! i2 = Some d2;
  xa_ok : slot_ok w s1' ∧ slot_ok w s2';
  xa_active : slot_active w s1' d2 ∧ slot_active w s2' d1;
  xa_pool : is_pooling_model b = true → slot_free s1' ∧ slot_free s2';
  xa_view1 : ∀ out blocks t, view (is_pooling_model b) s1' d2 out blocks t = view (is_pooling_model b) s2 d2 out blocks t;
  xa_view2 : ∀ out blocks t, view (is_pooling_model b) s2' d1 out blocks t = view (is_pooling_model b) s1 d1 out blocks t;
  xa_mask : s_mask s1' = (if has_mask b && negb (is_pooling_model b) then s_mask s2 else s_mask s1) ∧ s_mask s2' = s_mask s2;
  xa_config : same_config b b';
  xa_ids : _req_ids b' = <[i2 := Some id1]> (<[i1 := Some id2]> (_req_ids b));
  xa_outs : ∃ o1 o2, req_output_token_ids b !! i1 = Some o1 ∧ req_output_token_ids b !! i2 = Some o2 ∧
      req_output_token_ids b' = <[i2 := o1]> (<[i1 := o2]> (req_output_token_ids b));
  xa_specs : spec_token_ids b' = <[i2 := d1]> (<[i1 := d2]> (spec_token_ids b));
  xa_index : req_id_to_index b' = dict_set (dict_set (req_id_to_index b) id1 (Z.of_nat i2)) id2 (Z.of_nat i1);
  xa_slots : slots b' = <[i2 := s2']> (<[i1 := s1']> (slots b));
  xa_tables : Forall2 table_ok (block_table b') (groups_after (OSwap i1 i2) gs);
  xa_marks : marks b' = marks b ∧ ib_pooling_params b' = ib_pooling_params b ∧ ib_pooling_states b' = ib_pooling_states b;
  xa_lora : lora_id_to_request_ids b' = lora_id_to_request_ids b ∧ lora_id_to_lora_request b' = lora_id_to_lora_request b;
  xa_builder : added (bu b') = added (bu b) ∧ _removed (bu b') = _removed (bu b) ∧
      moved (bu b') = moved (bu b) ++ (if is_pooling_model b then [] else [(Z.of_nat i1, Z.of_nat i2, SWAP)]);
}.

Lemma swap_ids_ok w b gs i1 i2 id1 id2 o1 o2 d1 d2 : batch_ok w b gs → live b i1 id1 → live b i2 id2 →
  req_output_token_ids b !! i1 = Some o1 → req_output_token_ids b !! i2 = Some o2 →
  spec_token_ids b !! i1 = Some d1 → spec_token_ids b !! i2 = Some d2 →
  swap_ids (Z.of_nat i1) (Z.of_nat i2) b = Ok (tt, set_ids b (<[i2 := Some id1]> (<[i1 := Some id2]> (_req_ids b)))
    (<[i2 := o1]> (<[i1 := o2]> (req_output_token_ids b))) (<[i2 := d1]> (<[i1 := d2]> (spec_token_ids b)))
    (dict_set (dict_set (req_id_to_index b) id1 (Z.of_nat i2)) id2 (Z.of_nat i1))).
Proof.
  intros Hb L1 L2 O1 O2 D1 D2. unfold swap_ids. rewrite (py_index_nat _ _ _ L1), (py_index_nat _ _ _ L2). cbn [mbind result_bind].
  rewrite (np_swap_nat _ _ _ _ _ L1 L2), (np_swap_nat _ _ _ _ _ O1 O2), (np_swap_nat _ _ _ _ _ D1 D2). cbn [mbind result_bind].
  assert (dict_get (req_id_to_index b) id1 = Some (Z.of_nat i1)) as -> by (apply (bo_index _ _ _ Hb); eauto).
  assert (dict_get (req_id_to_index b) id2 = Some (Z.of_nat i2)) as -> by (apply (bo_index _ _ _ Hb); eauto). done.
Qed.

Lemma swap_states_eval w b gs i1 i2 id1 id2 : batch_ok w b gs → live b i1 id1 → live b i2 id2 →
  ∃ s1 s2 s1' s2' d1 d2 b', swap_states (Z.of_nat i1) (Z.of_nat i2) b = Ok (tt, b') ∧
    exchanged_at w b gs i1 i2 id1 id2 s1 s2 s1' s2' d1 d2 b'.
Proof.
  intros Hb L1 L2. destruct (live_slot w b gs i1 id1 Hb L1) as (s1 & d1 & o1 & S1 & D1 & O1).
  destruct (live_slot w b gs i2 id2 Hb L2) as (s2 & d2 & o2 & S2 & D2 & O2).
  pose proof (lookup_lt_Some _ _ _ S1). pose proof (lookup_lt_Some _ _ _ S2).
  pose proof (bo_active _ _ _ Hb i1 id1 s1 d1 L1 S1 D1) as A1. pose proof (bo_active _ _ _ Hb i2 id2 s2 d2 L2 S2 D2) as A2.
  set (m := Nat.max (active s1 d1) (active s2 d2)).
  assert (Z.max (s_num_tokens_no_spec s1 + zlen d1) (s_num_tokens_no_spec s2 + zlen d2) = Z.of_nat m) as Hm.
  { destruct A1 as (A1 & _), A2 as (A2 & _). unfold m, active, zlen in *. lia. }
  assert (active s1 d1 ≤ m ∧ active s2 d2 ≤ m)%nat as [M1 M2].
  { destruct A1 as (_ & A1 & _), A2 as (_ & A2 & _). unfold m. lia. }
  pose proof (Forall_lookup_1 _ _ _ _ (bo_rows _ _ _ Hb) S1) as K1. pose proof (Forall_lookup_1 _ _ _ _ (bo_rows _ _ _ Hb) S2) as K2.
  assert (is_pooling_model b = true → slot_free s1 ∧ slot_free s2) as Hf.
  { intros Hp. split; by eapply (Forall_lookup_1 _ _ _ _ (bo_pooling _ _ _ Hb Hp)). }
  destruct (swapped_ok w (is_pooling_model b) (has_mask b) true m s1 s2 d2) as (s1' & E1 & B1 & B2 & B3 & B4 & B9); [done|done|done|lia|apply Hf|].
  destruct (swapped_ok w (is_pooling_model b) (has_mask b) false m s2 s1 d1) as (s2' & E2 & B5 & B6 & B7 & B8 & B10); [done|done|done|lia|apply Hf|].
  unfold swap_states. mstep. unfold lift_result. rewrite (active_count_ok b i1 s1 d1 S1 D1), (active_count_ok b i2 s2 d2 S2 D2).
  rewrite (bind_ok _ _ b (s_num_tokens_no_spec s1 + zlen d1) b) by done. rewrite (bind_ok _ _ b (s_num_tokens_no_spec s2 + zlen d2) b) by done.
  rewrite (bind_ok _ _ _ _ _ (swap_ids_ok w b gs i1 i2 id1 id2 o1 o2 d1 d2 Hb L1 L2 O1 O2 D1 D2)), Hm. set (b1 := set_ids b _ _ _ _).
  rewrite (bind_ok _ _ b1 tt (set_slots b1 (<[i2 := s2']> (<[i1 := s1']> (slots b))) (has_mask b))).
  2: { unfold swap_slots. simpl. rewrite (py_index_nat _ _ _ S1), (py_index_nat _ _ _ S2). cbn [mbind result_bind].
    rewrite E1, E2. cbn [mbind result_bind]. rewrite np_set_nat by done. cbn [mbind result_bind].
    by rewrite np_set_nat by (by rewrite length_insert). }
  set (b2 := set_slots b1 _ _). destruct (on_table_ok (OSwap i1 i2) b2 gs) as (ts & E4 & Hts); [apply (bo_tables _ _ _ Hb)| |].
  { apply (rows_exist w b); [done|]. intros i g Hg. simpl. rewrite Hg. apply andb_true_iff. split; apply Nat.ltb_lt; lia. }
  change (multi_swap_row (Z.of_nat i1) (Z.of_nat i2)) with (run_op (OSwap i1 i2)). rewrite (bind_ok _ _ _ _ _ E4).
  exists s1, s2, s1', s2', d1, d2. destruct (is_pooling_model b) eqn:Ep; eexists; (split; [reflexivity|]).
  all: split; rewrite ?Ep; simpl; eauto 10. all: try split_and!; simpl; by rewrite ?app_nil_r.
Qed.

Definition other (i1 i2 i : nat) : nat := if decide (i = i1) then i2 else if decide (i = i2) then i1 else i.

Lemma lookup_exchange {A} (l : list A) i1 i2 x1 x2 i : l !! i1 = Some x1 → l !! i2 = Some x2 →
  <[i2 := x1]> (<[i1 := x2]> l) !! i = l !! other i1 i2 i.
Proof.
  intros H1 H2. pose proof (lookup_lt_Some _ _ _ H1). pose proof (lookup_lt_Some _ _ _ H2). unfold other.
  destruct (decide (i = i2)) as [->|Hi].
  - rewrite list_lookup_insert_eq by (by rewrite length_insert). destruct (decide (i2 = i1)) as [->|]; congruence.
  - rewrite list_lookup_insert_ne by done. destruct (decide (i = i1)) as [->|]; [|by rewrite list_lookup_insert_ne].
    by rewrite list_lookup_insert_eq.
Qed.
Lemma blocks_at_swap gs i1 i2 i m : Forall (λ g, length (g_rows g) = m) gs → (i1 < m)%nat → (i2 < m)%nat →
  blocks_at (groups_after (OSwap i1 i2) gs) i = blocks_at gs (other i1 i2 i).
Proof.
  intros Hg H1 H2. unfold blocks_at, groups_after. rewrite fmap_imap, <-imap_const. apply imap_ext. intros k g Hk. simpl.
  pose proof (Forall_lookup_1 (λ g, length (g_rows g) = m) _ _ _ Hg Hk) as Hl. simpl in Hl.
  rewrite (list_lookup_total_alt (<[i2 := _]> _)), lookup_exchange by (apply list_lookup_lookup_total_lt; lia).
  by rewrite list_lookup_total_alt.
Qed.

Section exchanged.
Context (w : nat) (b : InputBatch) (gs : list group) (i1 i2 : nat) (id1 id2 : string) (s1 s2 s1' s2' : Slot) (d1 d2 : list Z) (b' : InputBatch).
Hypothesis Hb : batch_ok w b gs.
Hypothesis Hx : exchanged_at w b gs i1 i2 id1 id2 s1 s2 s1' s2' d1 d2 b'.
Let gs' := groups_after (OSwap i1 i2) gs.

Lemma exchanged_ids i : _req_ids b' !! i = _req_ids b !! other i1 i2 i.
Proof. destruct Hx. destruct xa_live0. rewrite xa_ids0. by apply lookup_exchange. Qed.
Lemma exchanged_live i id : live b' i id ↔ live b (other i1 i2 i) id.
Proof. unfold live. by rewrite exchanged_ids. Qed.
Lemma other_other i : other i1 i2 (other i1 i2 i) = i.
Proof. unfold other. repeat (destruct (decide _)); congruence. Qed.
Lemma exchanged_specs i : spec_token_ids b' !! i = spec_token_ids b !! other i1 i2 i.
Proof. destruct Hx. destruct xa_draft0. rewrite xa_specs0. by apply lookup_exchange. Qed.
Lemma exchanged_outs i : req_output_token_ids b' !! i = req_output_token_ids b !! other i1 i2 i.
Proof. destruct Hx. destruct xa_outs0 as (o1 & o2 & H1 & H2 & ->). by apply lookup_exchange. Qed.

(** The entries of an index after the exchange: those of the other index, as far as the
    request is concerned. *)
Lemma exchanged_slot i s' drafts : slots b' !! i = Some s' → spec_token_ids b' !! i = Some drafts →
  ∃ s, slots b !! other i1 i2 i = Some s ∧ spec_token_ids b !! other i1 i2 i = Some drafts ∧
    (s' = s ∨ (slot_ok w s' ∧ slot_active w s' drafts ∧ (is_pooling_model b = true → slot_free s') ∧
      (∃ id, live b (other i1 i2 i) id) ∧
      ∀ out blocks t, view (is_pooling_model b) s' drafts out blocks t = view (is_pooling_model b) s drafts out blocks t)).
Proof.
  rewrite exchanged_specs. intros Hs Hd. destruct Hx. destruct xa_slot0 as [S1 S2], xa_draft0 as [D1 D2], xa_ok0, xa_active0, xa_live0.
  pose proof (lookup_lt_Some _ _ _ S1). pose proof (lookup_lt_Some _ _ _ S2). rewrite xa_slots0 in Hs. unfold other in *.
  destruct (decide (i = i2)) as [->|Hi2].
  - rewrite list_lookup_insert_eq in Hs by (by rewrite length_insert). injection Hs as <-.
    assert (∃ s, slots b !! i1 = Some s ∧ spec_token_ids b !! i1 = Some d1) by eauto.
    destruct (decide (i2 = i1)) as [->|]; simplify_eq; exists s1; (split; [done|]); (split; [done|]); right;
      split_and!; eauto; apply xa_pool0.
  - rewrite list_lookup_insert_ne in Hs by done. destruct (decide (i = i1)) as [->|Hi1].
    + rewrite list_lookup_insert_eq in Hs by done. injection Hs as <-. simplify_eq. exists s2. split; [done|]. split; [done|]. right.
      split_and!; eauto; apply xa_pool0.
    + rewrite list_lookup_insert_ne in Hs by done. eauto.
Qed.

Lemma exchanged_ok : batch_ok w b' gs'.
Proof.
  pose proof exchanged_live as HL. pose proof exchanged_slot as HS. pose proof other_other as HO. pose proof exchanged_specs as HD.
  pose proof Hx as []. destruct xa_outs0 as (o1 & o2 & _ & _ & Houts), xa_marks0 as (M1 & M2 & M3), xa_slot0 as [S1 S2], xa_ok0, xa_live0 as [L1 L2].
  unfold same_config in xa_config0. injection xa_config0 as C1 C2 C3. pose proof (λ x, tags_frame b b' x M1 M2 M3) as HT.
  assert (∀ i, (∀ id, ¬ live b' i id) → ∀ id, ¬ live b (other i1 i2 i) id) as HN by (intros i Hn id Hl; by apply (Hn id), HL).
  split; rewrite ?xa_ids0, ?Houts, ?xa_specs0, ?xa_slots0, ?M1, ?M2, ?M3, ?C1, ?C2, ?length_insert; try apply Hb; try done.
  - apply Forall_insert; [|done]. apply Forall_insert; [apply Hb|done].
  - apply groups_after_lengths, Hb.
  - intros i id s d Hl Hs Hd. rewrite <-xa_slots0 in Hs. rewrite <-xa_specs0 in Hd.
    destruct (HS i s d Hs Hd) as (s0 & Q1 & Q2 & [->|(_ & ? & _)]); [|done]. eapply (bo_active _ _ _ Hb); [by apply HL|done..].
  - intros i d Hn. rewrite <-xa_specs0, HD. apply (bo_no_drafts _ _ _ Hb). by apply HN.
  - intros i s Hn Hs. destruct (decide (i = i2)) as [->|Hi2]; [destruct (Hn id1); apply HL; unfold other; repeat destruct (decide _); congruence|].
    destruct (decide (i = i1)) as [->|Hi1]; [destruct (Hn id2); apply HL; unfold other; repeat destruct (decide _); congruence|].
    rewrite !list_lookup_insert_ne in Hs by done. eapply (bo_free _ _ _ Hb i); [|done].
    specialize (HN i Hn). unfold other in HN. by rewrite !decide_False in HN.
  - rewrite xa_index0. apply dict_set_nodup, dict_set_nodup, Hb.
  - intros id z. rewrite xa_index0, !dict_get_set. setoid_rewrite HL. destruct (decide (id = id2)) as [->|Hid2]; [|destruct (decide (id = id1)) as [->|Hid1]].
    + split; [intros [= <-]; exists i1; split; [done|]; unfold other; by rewrite decide_True|].
      intros (i & -> & Hl). pose proof (live_inj w b gs _ _ _ Hb Hl L2) as Ho. rewrite <-(HO i), Ho. unfold other.
      destruct (decide (i2 = i1)) as [->|]; [done|by rewrite decide_True].
    + split; [intros [= <-]; exists i2; split; [done|]; unfold other; destruct (decide (i2 = i1)) as [->|]; [congruence|by rewrite decide_True]|].
      intros (i & -> & Hl). pose proof (live_inj w b gs _ _ _ Hb Hl L1) as Ho. rewrite <-(HO i), Ho. unfold other. by rewrite decide_True.
    + rewrite (bo_index _ _ _ Hb). split; intros (i & -> & Hl); exists i; (split; [done|]); revert Hl; unfold other;
        destruct (decide (i = i1)) as [->|]; try (destruct (decide (i = i2)) as [->|]); unfold live in *; congruence.
  - intros id Hn. rewrite HT. apply Hb. intros i Hl. apply (Hn (other i1 i2 i)), HL. by rewrite HO.
  - intros Hp. apply Forall_insert; [|by apply xa_pool0]. apply Forall_insert; [by apply Hb|by apply xa_pool0].
  - intros id. rewrite HT. apply Hb.
Qed.

Lemma exchanged_cells i : cell b' gs' i = cell b gs (other i1 i2 i).
Proof.
  pose proof exchanged_slot as HS. pose proof exchanged_live as HL. pose proof exchanged_ok as Hb'. pose proof exchanged_outs as HO.
  pose proof Hx as []. destruct xa_marks0 as (M1 & M2 & M3), xa_slot0 as [S1 S2]. unfold same_config in xa_config0. injection xa_config0 as C1 C2 C3.
  assert (blocks_at gs' i = blocks_at gs (other i1 i2 i)) as HB.
  { eapply blocks_at_swap; [apply (bo_groups _ _ _ Hb)|by eapply lookup_lt_Some..]. }
  destruct (_req_ids b' !! i) as [[id|]|] eqn:E.
  - destruct (live_slot w b' gs' i id Hb' E) as (s' & d & o & Q1 & Q2 & Q3). destruct (HS i s' d Q1 Q2) as (s & Q4 & Q5 & Q6).
    rewrite (cell_eq b' gs' i id s' d o) by done. rewrite HO in Q3. apply HL in E. rewrite (cell_eq b gs _ id s d o) by done.
    rewrite C1, HB, (tags_frame b b' id M1 M2 M3). destruct Q6 as [->|(_ & _ & _ & _ & ->)]; done.
  - rewrite !cell_none; [done| |unfold live; congruence]. intros id Hl%HL. unfold live in Hl. congruence.
  - rewrite !cell_none; [done| |unfold live; congruence]. intros id Hl%HL. unfold live in Hl. congruence.
Qed.
End exchanged.

Lemma swap_states_ok w b gs i1 i2 id1 id2 : batch_ok w b gs → lora_ok b gs → live b i1 id1 → live b i2 id2 →
  ∃ b', let gs' := groups_after (OSwap i1 i2) gs in swap_states (Z.of_nat i1) (Z.of_nat i2) b = Ok (tt, b') ∧
    batch_ok w b' gs' ∧ lora_ok b' gs' ∧ same_config b b' ∧ length (_req_ids b') = length (_req_ids b) ∧
    (∀ i, cell b' gs' i = cell b gs (other i1 i2 i)) ∧ same_requests b gs b' gs' ∧
    added (bu b') = added (bu b) ∧ _removed (bu b') = _removed (bu b) ∧
    moved (bu b') = moved (bu b) ++ (if is_pooling_model b then [] else [(Z.of_nat i1, Z.of_nat i2, SWAP)]).
Proof.
  intros Hb Hlo L1 L2. destruct (swap_states_eval w b gs i1 i2 id1 id2 Hb L1 L2) as (s1 & s2 & s1' & s2' & d1 & d2 & b' & E & Hx).
  pose proof (exchanged_cells w b gs i1 i2 id1 id2 s1 s2 s1' s2' d1 d2 b' Hb Hx) as Hc.
  assert (same_requests b gs b' (groups_after (OSwap i1 i2) gs)) as Hs.
  { intros id v. split; intros [i Hi]; [rewrite Hc in Hi; eauto|]. exists (other i1 i2 i). rewrite Hc. by rewrite other_other. }
  exists b'. simpl. split; [done|]. split_and!; try done; try apply Hx.
  - by eapply exchanged_ok.
  - eapply lora_ok_same; [done|done|apply Hx|apply Hx].
  - by rewrite (xa_ids _ _ _ _ _ _ _ _ _ _ _ _ _ _ Hx), !length_insert.
Qed.

(** C19: with a mask of allowed tokens, [swap_states] does not exchange the masks. Both
    right-hand sides of its last assignment are views of the mask, so the second row
    assigned to is read after the first one was overwritten. The requests change places
    with everything else, but both indices have the mask of the second request
    afterwards: the first request is sampled under the restriction of the other. *)
Theorem swap_states_duplicates_mask w b gs i1 i2 id1 id2 s1 s2 : batch_ok w b gs → i1 ≠ i2 →
  is_pooling_model b = false → has_mask b = true →
  live b i1 id1 → live b i2 id2 → slots b !! i1 = Some s1 → slots b !! i2 = Some s2 →
  ∃ b' s1' s2', swap_states (Z.of_nat i1) (Z.of_nat i2) b = Ok (tt, b') ∧
    live b' i1 id2 ∧ live b' i2 id1 ∧ (∀ i, cell b' (groups_after (OSwap i1 i2) gs) i = cell b gs (other i1 i2 i)) ∧
    slots b' !! i1 = Some s1' ∧ slots b' !! i2 = Some s2' ∧ s_mask s1' = s_mask s2 ∧ s_mask s2' = s_mask s2.
Proof.
  intros Hb Hne Hp Hm L1 L2 S1 S2. destruct (swap_states_eval w b gs i1 i2 id1 id2 Hb L1 L2) as (t1 & t2 & s1' & s2' & d1 & d2 & b' & E & Hx).
  pose proof (exchanged_cells w b gs i1 i2 id1 id2 t1 t2 s1' s2' d1 d2 b' Hb Hx) as Hc.
  destruct (xa_slot _ _ _ _ _ _ _ _ _ _ _ _ _ _ Hx) as [T1 T2], (xa_mask _ _ _ _ _ _ _ _ _ _ _ _ _ _ Hx) as [M1 M2].
  rewrite S1 in T1. rewrite S2 in T2. injection T1 as <-. injection T2 as <-. rewrite Hp, Hm in M1.
  pose proof (lookup_lt_Some _ _ _ S1). pose proof (lookup_lt_Some _ _ _ S2).
  pose proof (xa_slots _ _ _ _ _ _ _ _ _ _ _ _ _ _ Hx) as Hs.
  exists b', s1', s2'. split; [done|]. split_and!; try done.
  - apply (exchanged_live w b gs i1 i2 id1 id2 s1 s2 s1' s2' d1 d2 b' Hx). unfold other. by rewrite decide_True.
  - apply (exchanged_live w b gs i1 i2 id1 id2 s1 s2 s1' s2' d1 d2 b' Hx). unfold other. by rewrite decide_False, decide_True.
  - by rewrite Hs, list_lookup_insert_ne, list_lookup_insert_eq.
  - rewrite Hs, list_lookup_insert_eq; [done|]. by rewrite length_insert.
Qed.

End step.
