(* ===== verification/InputBatchTouch.v ===== *)
(** * Changes to one request of the persistent batch

    Between adding and removing a request the model runner changes its entries in place:
    the number of computed tokens, the blocks, the sampled tokens and the drafts. Each
    change is described by what it does to the cell of the request. *)

From Stdlib Require Import ZArith Lia.
From stdpp Require Import list numbers gmap strings sorting.
From S2P Require Import Prelude MathUtils BlockTable BatchUpdate InputBatch InputBatchSafe InputBatchStep.
Local Open Scope Z_scope.

Section touch.
Context `{Float}.

(** ** A change at one index *)

(** Request [id] at index [i] had [s] and gets the entries [s'], the drafts [d'] and the
    blocks of [gs']. *)
Record touched_at (w : nat) (b : InputBatch) (gs : list group) (i : nat) (id : string) (s s' : Slot) (d' : list Z)
    (b' : InputBatch) (gs' : list group) : Prop := {
  to_live : live b i id;
  to_slot : slots b !! i = Some s;
  to_ok : slot_ok w s';
  to_active : slot_active w s' d';
  to_free : slot_free s → slot_free s';
  to_lora : s_lora s' = s_lora s;
  to_slots : slots b' = <[i := s']> (slots b);
  to_specs : spec_token_ids b' = <[i := d']> (spec_token_ids b);
  to_ids : (_req_ids b', req_output_token_ids b', req_id_to_index b') = (_req_ids b, req_output_token_ids b, req_id_to_index b);
  to_config : same_config b b';
  to_marks : (marks b', ib_pooling_params b', ib_pooling_states b') = (marks b, ib_pooling_params b, ib_pooling_states b);
  to_loras : (lora_id_to_request_ids b', lora_id_to_lora_request b') = (lora_id_to_request_ids b, lora_id_to_lora_request b);
  to_builder : bu b' = bu b;
  to_tables : Forall2 table_ok (block_table b') gs';
  to_rows : Forall (λ g, length (g_rows g) = length (slots b)) gs';
  to_shapes : shapes gs' = shapes gs;
  to_blocks : ∀ k, k ≠ i → blocks_at gs' k = blocks_at gs k;
}.

Section touched.
Context (w : nat) (b : InputBatch) (gs : list group) (i : nat) (id : string) (s s' : Slot) (d' : list Z) (b' : InputBatch) (gs' : list group).
Hypothesis Hb : batch_ok w b gs.
Hypothesis Ht : touched_at w b gs i id s s' d' b' gs'.

Lemma touched_live k x : live b' k x ↔ live b k x.
Proof. pose proof (to_ids _ _ _ _ _ _ _ _ _ _ Ht) as [= E _ _]. unfold live. by rewrite E. Qed.
Lemma touched_tags x : tags b' x = tags b x.
Proof. pose proof (to_marks _ _ _ _ _ _ _ _ _ _ Ht) as [= E1 E2 E3]. by apply tags_frame. Qed.
Lemma touched_bounds : (i < length (_req_ids b))%nat ∧ (i < length (slots b))%nat ∧ (i < length (spec_token_ids b))%nat.
Proof.
  pose proof (lookup_lt_Some _ _ _ (to_live _ _ _ _ _ _ _ _ _ _ Ht)). pose proof (bo_specs _ _ _ Hb). pose proof (bo_cap _ _ _ Hb). lia.
Qed.

Lemma touched_ok : batch_ok w b' gs'.
Proof.
  pose proof touched_live as HL. pose proof touched_tags as HT. destruct touched_bounds as (I1 & I2 & I3).
  destruct Ht as [L S Hok Hact Hfree _ Hsl Hsp Hids Hc Hm _ _ Htb Hrows _ _].
  injection Hids as E1 E2 E3. injection Hc as C1 C2 C3. injection Hm as M1 M2 M3.
  assert (∀ k, (∀ x, ¬ live b' k x) → k ≠ i ∧ ∀ x, ¬ live b k x) as HN.
  { intros k Hn. split; [intros ->; by apply (Hn id), HL|]. intros x Hx. by apply (Hn x), HL. }
  split; rewrite ?Hsl, ?Hsp, ?E1, ?E2, ?E3, ?C1, ?C2, ?M1, ?M2, ?M3, ?length_insert; try apply Hb; try done.
  - apply Forall_insert; [apply Hb|done].
  - intros k x s0 d Hl%HL. destruct (decide (k = i)) as [->|Hk].
    + rewrite !list_lookup_insert_eq by done. intros. by simplify_eq.
    + rewrite !list_lookup_insert_ne by done. by eapply (bo_active _ _ _ Hb).
  - intros k d [Hk Hn]%HN. rewrite list_lookup_insert_ne by done. by eapply (bo_no_drafts _ _ _ Hb).
  - intros k s0 [Hk Hn]%HN. rewrite list_lookup_insert_ne by done. by eapply (bo_free _ _ _ Hb).
  - intros x z. rewrite (bo_index _ _ _ Hb). by setoid_rewrite HL.
  - intros x Hn. rewrite HT. apply Hb. intros k Hl. by apply (Hn k), HL.
  - intros Hp. pose proof (bo_pooling _ _ _ Hb Hp) as Hall. apply Forall_insert; [done|]. apply Hfree.
    by apply (Forall_lookup_1 _ _ _ _ Hall S).
  - intros x. rewrite HT. apply Hb.
Qed.

Lemma touched_cells out k : req_output_token_ids b !! i = Some out →
  cell b' gs' k = upd (cell b gs) i (Some (id, view (is_pooling_model b) s' d' out (blocks_at gs' i) (tags b id))) k.
Proof.
  intros Ho. pose proof touched_live as HL. pose proof touched_tags as HT. destruct touched_bounds as (I1 & I2 & I3).
  destruct Ht as [L S Hok Hact Hfree _ Hsl Hsp Hids Hc _ _ _ _ _ _ Hbl]. injection Hids as E1 E2 E3. injection Hc as C1 C2 C3.
  unfold upd. destruct (decide (k = i)) as [->|Hk].
  - rewrite <-HT, <-C1. apply cell_eq; [by apply HL|by rewrite Hsl, list_lookup_insert_eq|by rewrite Hsp, list_lookup_insert_eq|by rewrite E2].
  - apply cell_frame; [done|by rewrite E1|]. intros x Hx. rewrite Hsl, Hsp, E2, !list_lookup_insert_ne by done. split_and!; auto.
Qed.

Lemma touched_holes : holes_ok b → holes_ok b'.
Proof.
  pose proof (to_ids _ _ _ _ _ _ _ _ _ _ Ht) as [= E _ _]. pose proof (to_builder _ _ _ _ _ _ _ _ _ _ Ht) as Hu.
  intros []. split; rewrite ?Hu, ?E; done.
Qed.

Lemma touched_lora : lora_ok b gs → lora_ok b' gs'.
Proof.
  intros Hlo. destruct (live_slot w b gs i id Hb (to_live _ _ _ _ _ _ _ _ _ _ Ht)) as (s0 & d & out & Q1 & Q2 & Q3).
  assert (s0 = s) as -> by (pose proof (to_slot _ _ _ _ _ _ _ _ _ _ Ht); congruence).
  pose proof (cell_eq b gs i id s d out (to_live _ _ _ _ _ _ _ _ _ _ Ht) Q1 Q2 Q3) as Hcell.
  pose proof (to_loras _ _ _ _ _ _ _ _ _ _ Ht) as [= E1 E2]. eapply lora_ok_frame; [done|done|done|]. intros x l. unfold carries.
  setoid_rewrite (λ k, touched_cells out k Q3). unfold upd. split; intros (k & v & Hk & Hl).
  - destruct (decide (k = i)) as [->|]; [|eauto]. injection Hk as <- <-. eexists i, _. split; [exact Hcell|].
    rewrite <-Hl. simpl. symmetry. apply Ht.
  - destruct (decide (k = i)) as [->|Hne]; [|exists k, v; by rewrite decide_False]. rewrite Hcell in Hk. injection Hk as <- <-.
    eexists i, _. rewrite decide_True by done. split; [done|]. rewrite <-Hl. simpl. apply Ht.
Qed.
End touched.

(** A change that keeps the batch well formed, seen from outside. *)
Definition changed (w : nat) (b : InputBatch) (gs : list group) (i : nat) (id : string) (v' : View) (b' : InputBatch) (gs' : list group) : Prop :=
  batch_ok w b' gs' ∧ (lora_ok b gs → lora_ok b' gs') ∧ (holes_ok b → holes_ok b') ∧ same_config b b' ∧ bu b' = bu b ∧
  shapes gs' = shapes gs ∧ (_req_ids b', req_id_to_index b') = (_req_ids b, req_id_to_index b) ∧
  ∀ k, cell b' gs' k = upd (cell b gs) i (Some (id, v')) k.

Lemma touched_changed w b gs i id s s' d' out v' b' gs' : batch_ok w b gs → touched_at w b gs i id s s' d' b' gs' →
  req_output_token_ids b !! i = Some out → v' = view (is_pooling_model b) s' d' out (blocks_at gs' i) (tags b id) →
  changed w b gs i id v' b' gs'.
Proof.
  intros Hb Ht Ho ->. pose proof (to_ids _ _ _ _ _ _ _ _ _ _ Ht) as [= E1 E2 E3].
  split_and!; eauto using touched_ok, touched_lora, touched_holes, touched_cells, to_config, to_builder, to_shapes. congruence.
Qed.

(** ** [update_req_spec_token_ids] *)

(** The data of a request with other drafts. *)
Definition with_drafts (drafts : list Z) (v : View) : View :=
  {| v_tokens := take (Z.to_nat (v_num_tokens v)) (v_tokens v) ++ (Some <$> drafts); v_embeds := v_embeds v; v_drafts := drafts;
     v_out := v_out v; v_num_tokens := v_num_tokens v; v_num_prompt := v_num_prompt v; v_num_computed := v_num_computed v;
     v_lora := v_lora v; v_blocks := v_blocks v; v_sampling := v_sampling v; v_tags := v_tags v |}.

(** The drafts fit behind the tokens. *)
Definition drafts_fit (w : nat) (v : View) (drafts : list Z) : Prop :=
  forallb in_int32 drafts = true ∧ (Z.to_nat (v_num_tokens v) + length drafts ≤ w)%nat.

Lemma known_tokens_take k l f : take k (known_tokens l f) = known_tokens (take k l) (take k f).
Proof. unfold known_tokens. apply zip_with_take. Qed.

Lemma write_drafts_ok w s drafts0 drafts : slot_ok w s → slot_active w s drafts0 → forallb in_int32 drafts = true →
  (Z.to_nat (s_num_tokens_no_spec s) + length drafts ≤ w)%nat →
  ∃ s', write_drafts drafts s = Ok s' ∧ slot_ok w s' ∧ slot_active w s' drafts ∧ (s_generator s', s_bad_words s') = (s_generator s, s_bad_words s) ∧
    ∀ pooling out blocks t, view pooling s' drafts out blocks t = with_drafts drafts (view pooling s drafts0 out blocks t).
Proof.
  intros [H1 H2] (H3 & H4 & H5) Hi Hw. set (n := Z.to_nat (s_num_tokens_no_spec s)) in *.
  assert (s_num_tokens_no_spec s = Z.of_nat n) as Hn by lia. unfold write_drafts. rewrite Hn. unfold np_assign.
  rewrite (np_cast_id (NpList drafts) Hi). cbn [mbind result_bind].
  rewrite np_put_fits; [|lia|unfold zlen; lia]. cbn [mbind result_bind].
  rewrite np_put_fill; [|unfold zlen; lia|unfold zlen; lia]. cbn [mbind result_bind]. eexists. split; [reflexivity|].
  rewrite !Nat2Z.id. replace (Z.to_nat (Z.of_nat n + zlen drafts - Z.of_nat n)) with (length drafts) by (unfold zlen; lia).
  replace (Z.to_nat (Z.of_nat n + zlen drafts)) with (n + length drafts)%nat by (unfold zlen; lia).
  match goal with |- slot_ok w ?x ∧ _ => set (s' := x) end.
  assert (active s' drafts = n + length drafts)%nat as Hac by (unfold active, s'; simpl; unfold zlen; lia).
  assert (all_known s' = all_known s) as Hk.
  { unfold all_known, s'. simpl. rewrite Hn, Nat2Z.id. f_equal. rewrite take_app_le, take_take by (rewrite length_take; lia). f_equal. lia. }
  split_and!; [split; simpl; rewrite !length_app, length_take, length_drop, ?length_replicate; lia| |done|].
  - split; [simpl; lia|]. rewrite Hk. split; [simpl; lia|]. intros Hx. by apply H5.
  - intros pooling out blocks t. unfold view, with_drafts. rewrite Hac, Hk. cbn -[known_tokens active]. rewrite Hn. f_equal.
    rewrite Nat2Z.id, known_tokens_take, !take_take. rewrite !(Nat.min_l n) by (unfold active, zlen; lia).
    rewrite !(take_app_add' _ _ n) by (rewrite length_take; lia). rewrite !take_app_le by (rewrite ?length_replicate; lia).
    rewrite (take_ge drafts), (take_ge (replicate _ _)) by (rewrite ?length_replicate; lia).
    rewrite known_tokens_app by (rewrite !length_take; lia). by rewrite known_tokens_true.
Qed.

Lemma cell_inv b gs i id v : cell b gs i = Some (id, v) → ∃ s d out, live b i id ∧ slots b !! i = Some s ∧
  spec_token_ids b !! i = Some d ∧ req_output_token_ids b !! i = Some out ∧
  v = view (is_pooling_model b) s d out (blocks_at gs i) (tags b id).
Proof.
  intros Hc. pose proof (cell_live _ _ _ _ _ Hc) as Hl. unfold cell, live in *. rewrite Hl in Hc. simpl in Hc.
  destruct (slots b !! i) as [s|]; simpl in Hc; [|done]. destruct (spec_token_ids b !! i) as [d|]; simpl in Hc; [|done].
  destruct (req_output_token_ids b !! i) as [out|]; simpl in Hc; [|done]. injection Hc as <-. eauto 10.
Qed.

(** Dropping the drafts drops their tokens from the view. *)
Lemma no_drafts_ok w s d : slot_active w s d → slot_ok w s → slot_active w s [] ∧
  ∀ pooling out blocks t, view pooling s [] out blocks t = with_drafts [] (view pooling s d out blocks t).
Proof.
  intros (H1 & H2 & H3) [H4 H5]. assert (active s [] = Z.to_nat (s_num_tokens_no_spec s)) as Ha by (unfold active, zlen; simpl; lia).
  assert (Z.to_nat (s_num_tokens_no_spec s) ≤ active s d)%nat as Hd by (unfold active, zlen; lia). split.
  - split; [done|]. split; [lia|done].
  - intros pooling out blocks t. unfold view, with_drafts. simpl. rewrite Ha, app_nil_r. f_equal.
    by rewrite known_tokens_take, !take_take, Nat.min_l.
Qed.

Lemma touch_slot w b gs i id s s' d' mask : batch_ok w b gs → live b i id → slots b !! i = Some s → slot_ok w s' → slot_active w s' d' →
  (slot_free s → slot_free s') → s_lora s' = s_lora s →
  touched_at w b gs i id s s' d' (set_slots (set_ids b (_req_ids b) (req_output_token_ids b) (<[i := d']> (spec_token_ids b))
    (req_id_to_index b)) (<[i := s']> (slots b)) mask) gs.
Proof. intros Hb Hl Hs H1 H2 H3 H4. split; try done; apply Hb. Qed.

Lemma set_drafts_ok b i d : (i < length (spec_token_ids b))%nat → set_drafts (Z.of_nat i) d b =
  Ok (tt, set_ids b (_req_ids b) (req_output_token_ids b) (<[i := d]> (spec_token_ids b)) (req_id_to_index b)).
Proof. intros Hi. unfold set_drafts. by rewrite np_set_nat. Qed.

Lemma update_drafts_ok w b gs i id v scheduled : batch_ok w b gs → cell b gs i = Some (id, v) →
  let drafts := default [] (dict_get scheduled id) in drafts_fit w v drafts →
  ∃ b', update_req_spec_token_ids id scheduled b = Ok (zlen drafts, b') ∧ changed w b gs i id (with_drafts drafts v) b' gs.
Proof.
  intros Hb Hc drafts [Hi32 Hfit]. destruct (cell_inv _ _ _ _ _ Hc) as (s & d & out & Hl & Hs & Hd & Ho & ->). simpl in Hfit.
  pose proof (bo_active _ _ _ Hb i id s d Hl Hs Hd) as Hact.
  pose proof (Forall_lookup_1 _ _ _ _ (bo_rows _ _ _ Hb) Hs) as Hok. pose proof (lookup_lt_Some _ _ _ Hd) as Hlen.
  unfold update_req_spec_token_ids. mstep.
  assert (dict_get (req_id_to_index b) id = Some (Z.of_nat i)) as -> by (apply (bo_index _ _ _ Hb); eauto).
  mstep. rewrite (bind_ok _ _ _ _ _ (set_drafts_ok b i [] Hlen)). fold drafts. set (b1 := set_ids b _ _ _ _).
  destruct drafts as [|t ts] eqn:Ed.
  - destruct (no_drafts_ok w s d Hact Hok) as [Ha Hv]. exists b1. split; [done|].
    eapply touched_changed; [done| |exact Ho|symmetry; apply Hv].
    pose proof (touch_slot w b gs i id s s [] (has_mask b) Hb Hl Hs Hok Ha (λ x, x) eq_refl) as Ht.
    rewrite (list_insert_id (slots b)) in Ht by done. exact Ht.
  - rewrite <-Ed in *. destruct (write_drafts_ok w s d drafts Hok Hact Hi32 Hfit) as (s' & Ew & Hok' & Hact' & Hg & Hv).
    rewrite (bind_ok _ _ _ _ _ (on_slot_ok (write_drafts drafts) i b1 s s' Hs Ew)).
    rewrite (bind_ok _ _ _ _ _ (set_drafts_ok (set_slots b1 _ _) i drafts ltac:(simpl; by rewrite length_insert))).
    eexists. split; [reflexivity|]. simpl. rewrite list_insert_insert_eq. injection Hg as G1 G2.
    eapply touched_changed; [done| |exact Ho|symmetry; apply Hv].
    apply (touch_slot w b gs i id s s' drafts); try done; [unfold slot_free; by rewrite G1, G2|].
    unfold write_drafts in Ew. destruct (np_assign _ _ _ _); simpl in Ew; [|done]. destruct (np_put _ _ _ _); simpl in Ew; [|done].
    by injection Ew as <-.
Qed.
End touch.
