(* ===== verification/ReorderBatch.v ===== *)
(** * Grouping the batch by the kind of work: [reorder_batch_to_split_decodes_and_prefills]
    of [v1/attention/backends/utils.py]

    Some attention kernels want the decodes of a batch first, then the short and the long
    chunks of prompts already begun, and the prompts not begun last. The routine finds
    the requests that are not in the region of their kind, sorts them by kind into the
    places that are to be filled, and carries that out by exchanging entries of the
    batch along the cycles of the permutation.

    The indices of the batch are Python integers; the dictionary of sources and
    destinations is an association list in the order of insertion. *)

From Stdlib Require Import ZArith Lia.
From stdpp Require Import list numbers gmap strings sorting.
From S2P Require Import Prelude MathUtils BlockTable BatchUpdate InputBatch InputBatchSafe InputBatchStep.
Local Open Scope Z_scope.

(** ** The kinds of requests *)

Record Kinds := { is_decode : bool; is_short_extend : bool; is_long_extend : bool; is_pure_prefill : bool }.

Definition kinds (decode_threshold num_scheduled num_computed num_prompt : Z) : Kinds :=
  let has_context := 0 <? num_computed in
  let is_below_threshold := num_scheduled <=? decode_threshold in
  let done_prefilling := num_prompt <=? num_computed in
  {| is_decode := has_context && is_below_threshold && done_prefilling;
     is_short_extend := has_context && is_below_threshold && negb done_prefilling;
     is_long_extend := has_context && negb is_below_threshold;
     is_pure_prefill := negb has_context |}.

(** [req_regions]: zero, overwritten where a mask is set. *)
Definition region (k : Kinds) : Z :=
  if is_pure_prefill k then 3 else if is_long_extend k then 2 else if is_short_extend k then 1 else 0.

(** [mask.sum()] *)
Definition count (f : Kinds → bool) (l : list Kinds) : nat := length (filter (λ k, f k = true) l).

Definition target_regions (l : list Kinds) : list Z :=
  replicate (count is_decode l) 0 ++ replicate (count is_short_extend l) 1 ++
  replicate (count is_long_extend l) 2 ++ replicate (count is_pure_prefill l) 3.

(** ** Which index goes where *)

(** [np.argsort(keys, kind="stable")] *)
Definition key_le (x y : Z * nat) : Prop := x.1 < y.1 ∨ x.1 = y.1 ∧ (x.2 ≤ y.2)%nat.
#[local] Instance key_le_dec x y : Decision (key_le x y).
Proof. unfold key_le. apply _. Defined.
Definition argsort (keys : list Z) : list nat := (merge_sort key_le (imap (λ i k, (k, i)) keys)).*2.

(** [np.where(req_regions != target_regions)[0]] *)
Definition misplaced (regions targets : list Z) : list nat :=
  (filter (λ x : nat * (Z * Z), x.2.1 ≠ x.2.2) (imap pair (zip regions targets))).*1.

Definition src_dest_map (regions targets : list Z) : list (Z * Z) :=
  let orig_indices := misplaced regions targets in
  let sorted_order := argsort ((λ i, regions !!! i) <$> orig_indices) in
  let src_indices := (λ k, orig_indices !!! k) <$> sorted_order in
  zip_with (λ src dst, (Z.of_nat src, Z.of_nat dst)) src_indices orig_indices.

(** ** The exchanges *)

Section reorder.
Context `{Float}.

(** The inner loop: along the cycle of [src], at most one round for each entry. *)
Fixpoint follow_cycle (fuel : nat) (src dst : Z) (m : list (Z * Z)) : M InputBatch (list (Z * Z)) :=
  match fuel with
  | O => mret m
  | S fuel =>
      if src =? dst then mret m
      else
        swap_states src dst;;
        let next_dst := default dst (dict_get m dst) in
        follow_cycle fuel src next_dst (dict_set m dst dst)
  end.

Fixpoint follow_cycles (srcs : list Z) (m : list (Z * Z)) : M InputBatch unit :=
  match srcs with
  | [] => mret tt
  | src :: srcs =>
      match dict_get m src with
      | None => raise KeyError
      | Some dst => m ← follow_cycle (length m) src dst m; follow_cycles srcs m
      end
  end.

Definition scheduled_for (sched : list (string * Z)) (id : option string) : result Z :=
  match id with
  | Some id => match dict_get sched id with Some n => Ok n | None => Err KeyError end
  | None => Err KeyError
  end.

Definition batch_kinds (threshold : Z) (ns : list Z) (ss : list Slot) : list Kinds :=
  zip_with (λ n s, kinds threshold n (s_num_computed_tokens s) (s_num_prompt_tokens s)) ns ss.

Definition reorder_batch_to_split_decodes_and_prefills (num_scheduled_tokens : list (string * Z)) (decode_threshold : Z) : M InputBatch bool :=
  b ← get;
  ns ← lift_result (result_map (scheduled_for num_scheduled_tokens) (_req_ids b));
  let ks := batch_kinds decode_threshold ns (take (length (_req_ids b)) (slots b)) in
  let req_regions := region <$> ks in
  let targets := target_regions ks in
  match misplaced req_regions targets with
  | [] => mret false
  | _ => let m := src_dest_map req_regions targets in follow_cycles m.*1 m;; mret true
  end.
End reorder.

(** ** The regions after the exchanges *)

Lemma kinds_region t n c p : let k := kinds t n c p in
  (region k = 0 ∧ k = Build_Kinds true false false false) ∨ (region k = 1 ∧ k = Build_Kinds false true false false) ∨
  (region k = 2 ∧ k = Build_Kinds false false true false) ∨ (region k = 3 ∧ k = Build_Kinds false false false true).
Proof. unfold kinds, region. destruct (0 <? c), (n <=? t), (p <=? c); simpl; auto 10. Qed.

Definition is_kind (k : Kinds) : Prop := ∃ t n c p, k = kinds t n c p.

Lemma targets_perm ks : Forall is_kind ks → region <$> ks ≡ₚ target_regions ks.
Proof.
  unfold target_regions, count. induction 1 as [|k ks (t & n & c & p & ->) _ IH]; [done|]. rewrite fmap_cons, IH, !filter_cons.
  destruct (kinds_region t n c p) as [[-> ->]|[[-> ->]|[[-> ->]|[-> ->]]]]; simpl; [done|..];
    by rewrite <-?Permutation_middle.
Qed.

Lemma sorted_replicate n (x : Z) : StronglySorted Z.le (replicate n x).
Proof. induction n; constructor; [done|]. apply Forall_replicate. lia. Qed.
Lemma targets_sorted ks : StronglySorted Z.le (target_regions ks).
Proof.
  unfold target_regions. repeat apply StronglySorted_app_2; try apply sorted_replicate; intros x y;
    rewrite ?elem_of_app, !elem_of_replicate; lia.
Qed.

Lemma sorted_sublist {A} (R : relation A) (l k : list A) : sublist l k → StronglySorted R k → StronglySorted R l.
Proof.
  induction 1 as [|x l k Hs IH|x l k Hs IH]; intros Hk; [constructor| |]; apply StronglySorted_inv in Hk as [Hk Hx]; [|auto].
  constructor; [auto|]. rewrite Forall_forall in Hx |- *. intros y Hy. apply Hx. by eapply sublist_subseteq.
Qed.

(** Cancelling the pairs with equal parts. *)
Lemma unequal_perm (l : list (Z * Z)) : l.*1 ≡ₚ l.*2 → (filter (λ x, x.1 ≠ x.2) l).*1 ≡ₚ (filter (λ x, x.1 ≠ x.2) l).*2.
Proof.
  intros Hl.
  assert (filter (λ x, x.1 ≠ x.2) l ++ filter (λ x, x.1 = x.2) l ≡ₚ l) as Hp.
  { clear Hl. induction l as [|x l IH]; [done|]. rewrite !filter_cons. destruct (decide (x.1 ≠ x.2)), (decide (x.1 = x.2)); try done;
      [simpl; by rewrite IH|rewrite <-Permutation_middle; by rewrite IH]. }
  rewrite <-Hp, !fmap_app in Hl. assert ((filter (λ x, x.1 = x.2) l).*1 = (filter (λ x, x.1 = x.2) l).*2) as He.
  { apply list_fmap_ext. intros i x Hx. apply list_elem_of_lookup_2, list_elem_of_filter in Hx. tauto. }
  rewrite He in Hl. by apply Permutation_app_inv_r in Hl.
Qed.

Lemma filter_snd {A B} (P : B → Prop) `{∀ x, Decision (P x)} (l : list (A * B)) : (filter (λ x, P x.2) l).*2 = filter P l.*2.
Proof. induction l as [|x l IH]; [done|]. csimpl. rewrite !filter_cons. destruct (decide (P x.2)); csimpl; by rewrite IH. Qed.
Lemma index_snd {A} (l : list A) : (imap pair l).*2 = l.
Proof. rewrite fmap_imap, (imap_ext _ (const id)), imap_const, list_fmap_id; done. Qed.
Lemma index_fst {A} (l : list A) : (imap pair l).*1 = seq 0 (length l).
Proof. rewrite fmap_imap, (imap_ext _ (λ i _, i)), imap_seq_0, list_fmap_id; done. Qed.
Lemma lookup_index {A} (l : list A) x : x ∈ imap pair l → l !! x.1 = Some x.2.
Proof. intros (i & y & -> & Hy)%elem_of_lookup_imap_1. done. Qed.

Lemma fmap_lookup_total_seq {A} `{Inhabited A} (l : list A) : (λ k, l !!! k) <$> seq 0 (length l) = l.
Proof.
  apply list_eq. intros i. rewrite list_lookup_fmap. destruct (decide (i < length l)%nat) as [Hi|Hi].
  - rewrite lookup_seq_lt by done. simpl. destruct (lookup_lt_is_Some_2 l i Hi) as [x Hx]. by rewrite (list_lookup_total_correct _ _ _ Hx).
  - rewrite (lookup_ge_None_2 (seq _ _)), (lookup_ge_None_2 l); [done|lia|rewrite length_seq; lia].
Qed.

#[local] Instance key_le_trans : Transitive key_le.
Proof. intros x y z. unfold key_le. lia. Qed.
#[local] Instance key_le_total : Total key_le.
Proof. intros x y. unfold key_le. lia. Qed.

Lemma argsort_ok keys targets : keys ≡ₚ targets → StronglySorted Z.le targets →
  argsort keys ≡ₚ seq 0 (length keys) ∧ ∀ t k, argsort keys !! t = Some k → keys !! k = targets !! t.
Proof.
  intros Hp Hs. unfold argsort. set (ms := merge_sort key_le _).
  assert (ms ≡ₚ imap (λ i k, (k, i)) keys) as Hms by apply merge_sort_Permutation.
  assert (ms.*1 = targets) as Hk.
  { apply (StronglySorted_unique Z.le); [|done|].
    - eapply StronglySorted_fmap; [|apply (StronglySorted_merge_sort key_le)]; [|apply _..]. unfold key_le. lia.
    - rewrite Hms, fmap_imap. by rewrite <-Hp, (imap_ext _ (const id)), imap_const, list_fmap_id. }
  split.
  - rewrite Hms, fmap_imap. by rewrite (imap_ext _ (λ i _, i)), imap_seq_0, list_fmap_id.
  - intros t k. rewrite <-Hk, !list_lookup_fmap. destruct (ms !! t) as [[z i]|] eqn:E; [|done]. simpl. intros [= <-].
    apply list_elem_of_lookup_2 in E. rewrite Hms in E. by apply elem_of_lookup_imap_1 in E as (j & y & [= -> ->] & Hy).
Qed.

(** The plan: each misplaced index goes to an index of its region. *)
Record planned (regions targets : list Z) (src orig : list nat) : Prop := {
  pl_nodup : NoDup orig;
  pl_perm : src ≡ₚ orig;
  pl_in : ∀ i, i ∈ orig → (i < length regions)%nat;
  pl_out : ∀ i, i ∉ orig → regions !! i = targets !! i;
  pl_region : ∀ t s d, src !! t = Some s → orig !! t = Some d → regions !! s = targets !! d;
}.

Lemma misplaced_entries regions targets : length regions = length targets →
  let L := filter (λ x : nat * (Z * Z), x.2.1 ≠ x.2.2) (imap pair (zip regions targets)) in
  ∀ x, x ∈ L → regions !! x.1 = Some x.2.1 ∧ targets !! x.1 = Some x.2.2.
Proof.
  intros Hl L [i [r t]] [_ Hx%lookup_index]%list_elem_of_filter. by apply lookup_zip_Some in Hx.
Qed.

Lemma misplaced_out regions targets i : length regions = length targets → i ∉ misplaced regions targets → regions !! i = targets !! i.
Proof.
  intros Hl Hi. destruct (regions !! i) as [x|] eqn:E1.
  - destruct (lookup_lt_is_Some_2 targets i) as [y E2]; [rewrite <-Hl; by eapply lookup_lt_Some|]. rewrite E2. f_equal.
    destruct (decide (x = y)); [done|]. destruct Hi. apply list_elem_of_fmap. exists (i, (x, y)). split; [done|].
    apply list_elem_of_filter. split; [done|]. apply elem_of_lookup_imap_2, lookup_zip_Some. done.
  - symmetry. apply lookup_ge_None. rewrite <-Hl. by apply lookup_ge_None.
Qed.

Lemma src_dest_map_ok regions targets : regions ≡ₚ targets → StronglySorted Z.le targets →
  ∃ src orig, src_dest_map regions targets = zip_with (λ s d, (Z.of_nat s, Z.of_nat d)) src orig ∧
    planned regions targets src orig.
Proof.
  intros Hp Hs. pose proof (Permutation_length Hp) as Hl. pose proof (misplaced_entries regions targets Hl) as HL. simpl in HL.
  unfold src_dest_map. pose proof (λ i, misplaced_out regions targets i Hl) as Hout. unfold misplaced in *.
  set (L := filter _ (imap pair (zip regions targets))) in *.
  assert (L.*2 = filter (λ x : Z * Z, x.1 ≠ x.2) (zip regions targets)) as H2.
  { pose proof (filter_snd (λ x : Z * Z, x.1 ≠ x.2) (imap pair (zip regions targets))) as Hf. by rewrite index_snd in Hf. }
  assert ((λ i, regions !!! i) <$> L.*1 = (L.*2).*1) as Hkeys.
  { rewrite <-!list_fmap_compose. apply list_fmap_ext. intros i x Hx. simpl. apply list_elem_of_lookup_2, HL in Hx as [Hx _].
    by apply list_lookup_total_correct. }
  assert ((L.*2).*1 ≡ₚ (L.*2).*2) as Hperm.
  { rewrite H2. apply unequal_perm. by rewrite fst_zip, snd_zip by lia. }
  assert (StronglySorted Z.le (L.*2).*2) as Hsort.
  { eapply sorted_sublist; [|exact Hs]. rewrite <-(snd_zip regions targets) by lia. rewrite H2. apply fmap_sublist, sublist_filter. }
  rewrite Hkeys. destruct (argsort_ok _ _ Hperm Hsort) as [O1 O2]. eexists _, _. split; [reflexivity|]. split; [| | |done|].
  - unfold L. eapply sublist_NoDup; [|apply fmap_sublist, sublist_filter]. rewrite index_fst. apply NoDup_seq.
  - rewrite O1, !length_fmap, <-(length_fmap fst L). apply reflexive_eq, fmap_lookup_total_seq.
  - intros i Hi. apply list_elem_of_fmap in Hi as (x & -> & Hx). apply HL in Hx as [Hx _]. by eapply lookup_lt_Some.
  - intros t s d Hts Htd. rewrite list_lookup_fmap in Hts. destruct (argsort (L.*2).*1 !! t) as [k|] eqn:Ek; [|done].
    injection Hts as <-. specialize (O2 t k Ek). rewrite !list_lookup_fmap in O2. rewrite list_lookup_fmap in Htd.
    destruct (L !! t) as [y|] eqn:Ey; [|done]. injection Htd as <-. simpl in O2.
    destruct (L !! k) as [x|] eqn:Ex; [|done]. injection O2 as O2.
    rewrite (list_lookup_total_correct _ k x.1) by (by rewrite list_lookup_fmap, Ex).
    apply list_elem_of_lookup_2, HL in Ex as [-> _], Ey as [_ ->]. by f_equal.
Qed.

(** ** Rearranging the batch *)

Section rearrange.
Context `{Float}.

(** The requests rearranged by exchanges: what was at [k] is at [pos k]. *)
Record rearranged (w : nat) (b : InputBatch) (gs : list group) (b' : InputBatch) (gs' : list group) (pos : nat → nat)
    (ms : list (Z * Z * MoveDirectionality)) : Prop := {
  re_ok : batch_ok w b' gs';
  re_lora : lora_ok b' gs';
  re_config : same_config b b';
  re_shapes : shapes gs' = shapes gs;
  re_length : length (_req_ids b') = length (_req_ids b);
  re_dense : ∀ m, dense b m → dense b' m;
  re_requests : same_requests b gs b' gs';
  re_cells : ∀ k, cell b' gs' (pos k) = cell b gs k;
  re_added : added (bu b') = added (bu b);
  re_removed : _removed (bu b') = _removed (bu b);
  re_moved : moved (bu b') = moved (bu b) ++ ms;
  re_tracks : is_pooling_model b = false → ∀ T (st : string → option T) E u (R : Z → Prop), tracks st (cell b gs) R E →
    tracks st (cell b' gs') R (foldl process_moved (E, u) ms).1;
}.

Lemma rearranged_refl w b gs : batch_ok w b gs → lora_ok b gs → rearranged w b gs b gs id [].
Proof. intros Hb Hl. split; try done. by rewrite app_nil_r. Qed.

Lemma rearranged_trans w b gs b1 gs1 b2 gs2 p1 p2 ms1 ms2 : rearranged w b gs b1 gs1 p1 ms1 → rearranged w b1 gs1 b2 gs2 p2 ms2 →
  rearranged w b gs b2 gs2 (p2 ∘ p1) (ms1 ++ ms2).
Proof.
  intros H1 H2. pose proof (re_config _ _ _ _ _ _ _ H1) as C1. pose proof (re_config _ _ _ _ _ _ _ H2) as C2.
  unfold same_config in C1, C2. pose proof C1 as [= D1 D2 D3]. split; try apply H2.
  - unfold same_config. congruence.
  - rewrite (re_shapes _ _ _ _ _ _ _ H2). apply H1.
  - rewrite (re_length _ _ _ _ _ _ _ H2). apply H1.
  - intros m Hd. by apply H2, H1.
  - intros id v. transitivity (∃ i, cell b1 gs1 i = Some (id, v)); [apply H2|apply H1].
  - intros k. simpl. rewrite (re_cells _ _ _ _ _ _ _ H2). apply H1.
  - rewrite (re_added _ _ _ _ _ _ _ H2). apply H1.
  - rewrite (re_removed _ _ _ _ _ _ _ H2). apply H1.
  - rewrite (re_moved _ _ _ _ _ _ _ H2), (re_moved _ _ _ _ _ _ _ H1). by rewrite app_assoc.
  - intros Hp T st E u R Ht. rewrite foldl_app. pose proof (re_tracks _ _ _ _ _ _ _ H1 Hp T st E u R Ht) as T1.
    destruct (foldl_moved (E, u) ms1) as [u1 ->]. apply (re_tracks _ _ _ _ _ _ _ H2); [congruence|done].
Qed.

Lemma other_swap i1 i2 i : other i1 i2 (other i1 i2 i) = i.
Proof. unfold other. repeat destruct (decide _); congruence. Qed.

(** One exchange. *)
Lemma swap_rearranged w b gs i1 i2 id1 id2 : batch_ok w b gs → lora_ok b gs → live b i1 id1 → live b i2 id2 →
  ∃ b' gs' ms, swap_states (Z.of_nat i1) (Z.of_nat i2) b = Ok (tt, b') ∧ rearranged w b gs b' gs' (other i1 i2) ms.
Proof.
  intros Hb Hlo L1 L2. destruct (swap_states_ok w b gs i1 i2 id1 id2 Hb Hlo L1 L2) as (b' & E & Hb' & Hlo' & Hc & Hlen & Hcell & Hs & Ha & Hr & Hm).
  exists b'. eexists _, _. split; [exact E|]. split; try done.
  - apply shapes_after.
  - intros m (D1 & D2 & D3).
    assert (∀ i, (∃ id, live b' i id) ↔ ∃ id, live b (other i1 i2 i) id) as HL.
    { intros i. pose proof (Hcell i) as Hi. split; intros [id Hid].
      - destruct (live_slot w b' _ i id Hb' Hid) as (s & d & o & Q1 & Q2 & Q3). rewrite (cell_eq b' _ i id s d o) in Hi by done.
        symmetry in Hi. apply cell_live in Hi. eauto.
      - destruct (live_slot w b _ _ id Hb Hid) as (s & d & o & Q1 & Q2 & Q3). rewrite (cell_eq b _ _ id s d o) in Hi by done.
        apply cell_live in Hi. eauto. }
    assert (i1 < m ∧ i2 < m)%nat as [M1 M2].
    { split; [destruct (decide (i1 < m)%nat); [done|by destruct (D3 i1 ltac:(lia) id1)]|].
      destruct (decide (i2 < m)%nat); [done|by destruct (D3 i2 ltac:(lia) id2)]. }
    split; [lia|]. split.
    + intros i Hi. apply HL, D2. unfold other. repeat destruct (decide _); lia.
    + intros i Hi id Hid. destruct (proj1 (HL i) (ex_intro _ id Hid)) as [id' Hid']. apply (D3 _) with (id := id') in Hid'; [done|].
      unfold other. repeat destruct (decide _); lia.
  - intros k. rewrite Hcell. by rewrite other_swap.
  - intros Hp T st E0 u R Ht. rewrite Hp. simpl foldl. eapply tracks_impl; [| |apply tracks_swap; [| |exact Ht]]; [|done| |].
    + intros i. rewrite Hcell. unfold other. by repeat destruct (decide _).
    + destruct (live_slot w b gs i1 id1 Hb L1) as (s & d & o & Q1 & Q2 & Q3). by rewrite (cell_eq b gs i1 id1 s d o).
    + destruct (live_slot w b gs i2 id2 Hb L2) as (s & d & o & Q1 & Q2 & Q3). by rewrite (cell_eq b gs i2 id2 s d o).
Qed.

(** ** The cycles *)

(** Where an index still has to go: the indices of [rest] where the map says, the others
    are done. *)
Definition dest (m : list (Z * Z)) (rest : list nat) (k : nat) : nat :=
  if decide (k ∈ rest) then match dict_get m (Z.of_nat k) with Some z => Z.to_nat z | None => k end else k.
Definition pending (m : list (Z * Z)) (rest : list nat) (src dst k : nat) : nat :=
  if decide (k = src) then dst else dest m rest k.
Definition maps (m : list (Z * Z)) (rest : list nat) : Prop := ∀ k, k ∈ rest → ∃ d, dict_get m (Z.of_nat k) = Some (Z.of_nat d).

Lemma dest_set m rest j k : j ∈ rest → dest (dict_set m (Z.of_nat j) (Z.of_nat j)) rest k = if decide (k = j) then j else dest m rest k.
Proof.
  intros Hj. unfold dest. destruct (decide (k = j)) as [->|Hk].
  - rewrite decide_True by done. rewrite dict_get_set, decide_True by done. lia.
  - destruct (decide (k ∈ rest)); [|done]. by rewrite dict_get_set, decide_False by lia.
Qed.

(** The next index of the cycle is one that was not visited. *)
Lemma next_in_rest m rest src dst : Inj (=) (=) (pending m rest src dst) → src ≠ dst → dst ∈ rest.
Proof.
  intros Hi Hne. destruct (decide (dst ∈ rest)) as [|Hn]; [done|]. destruct Hne. apply Hi. unfold pending.
  rewrite decide_True by done. destruct (decide (dst = src)); [done|]. unfold dest. by rewrite decide_False.
Qed.

(** After an exchange the rest of the cycle is pending. *)
Lemma pending_step m rest src dst k : dst ∈ rest → src ≠ dst →
  pending (dict_set m (Z.of_nat dst) (Z.of_nat dst)) rest src (dest m rest dst) (other src dst k) = pending m rest src dst k.
Proof.
  intros Hd Hne. unfold pending. rewrite dest_set by done. unfold other.
  repeat (destruct (decide _); simplify_eq; try done).
Qed.
Lemma other_inj i1 i2 : Inj (=) (=) (other i1 i2).
Proof. intros x y Hxy. apply (f_equal (other i1 i2)) in Hxy. by rewrite !other_swap in Hxy. Qed.

Definition unsettled (m : list (Z * Z)) (rest : list nat) : list nat := filter (λ k, dest m rest k ≠ k) rest.

Lemma unsettled_less m rest j : j ∈ rest → dest m rest j ≠ j →
  (length (unsettled (dict_set m (Z.of_nat j) (Z.of_nat j)) rest) < length (unsettled m rest))%nat.
Proof.
  intros Hj Hne. unfold unsettled. assert (∀ l, j ∈ l → (length (filter (λ k, dest (dict_set m (Z.of_nat j) (Z.of_nat j)) rest k ≠ k) l) <
    length (filter (λ k, dest m rest k ≠ k) l))%nat) as Hl; [|by apply Hl].
  assert (∀ l, (length (filter (λ k, dest (dict_set m (Z.of_nat j) (Z.of_nat j)) rest k ≠ k) l) ≤ length (filter (λ k, dest m rest k ≠ k) l))%nat) as Hle.
  { induction l as [|x l IH]; [done|]. rewrite !filter_cons, dest_set by done.
    destruct (decide (x = j)) as [->|]; repeat destruct (decide _); simpl; try lia; done. }
  induction l as [|x l IH]; intros Hx; [by apply elem_of_nil in Hx|]. specialize (Hle l). rewrite !filter_cons, dest_set by done.
  apply elem_of_cons in Hx as [<-|Hx].
  - rewrite (decide_True (P := j = j)) by done. rewrite decide_False by tauto. rewrite decide_True by done. simpl. lia.
  - specialize (IH Hx). destruct (decide (x = j)) as [->|]; repeat destruct (decide _); simpl; try lia; done.
Qed.

Lemma pending_done m rest src k : src ∉ rest → pending m rest src src k = dest m rest k.
Proof. intros Hs. unfold pending, dest. destruct (decide (k = src)) as [->|]; [|done]. by rewrite decide_False. Qed.

Lemma follow_cycle_ok fuel w n b gs src dst m rest : batch_ok w b gs → lora_ok b gs → dense b n → (src < n)%nat → src ∉ rest →
  (∀ k, k ∈ rest → (k < n)%nat) → maps m rest → Inj (=) (=) (pending m rest src dst) → (length (unsettled m rest) < fuel)%nat →
  ∃ m' b' gs' pos ms, follow_cycle fuel (Z.of_nat src) (Z.of_nat dst) m b = Ok (m', b') ∧ rearranged w b gs b' gs' pos ms ∧
    maps m' rest ∧ m'.*1 = m.*1 ∧ (∀ k, dest m' rest (pos k) = pending m rest src dst k) ∧ Inj (=) (=) (dest m' rest).
Proof.
  revert b gs dst m. induction fuel as [|fuel IH]; intros b gs dst m Hb Hlo Hd Hs Hsr Hr Hm Hi Hf; [lia|]. simpl.
  destruct (Z.eqb_spec (Z.of_nat src) (Z.of_nat dst)) as [->%Nat2Z.inj|Hne].
  { exists m, b, gs, id, []. split_and!; [done|by apply rearranged_refl|done|done| |].
    - intros k. by rewrite pending_done.
    - intros x y Hxy. apply Hi. by rewrite !pending_done. }
  assert (src ≠ dst) as Hne' by congruence. pose proof (next_in_rest m rest src dst Hi Hne') as Hdr. destruct (Hm dst Hdr) as [d Hdst].
  destruct Hd as (D1 & D2 & D3). destruct (D2 src Hs) as [id1 L1]. destruct (D2 dst (Hr dst Hdr)) as [id2 L2].
  destruct (swap_rearranged w b gs src dst id1 id2 Hb Hlo L1 L2) as (b1 & gs1 & ms1 & E1 & R1). rewrite (bind_ok _ _ _ _ _ E1), Hdst.
  assert (dest m rest dst = d) as Hdd by (unfold dest; rewrite decide_True, Hdst by done; lia). simpl default.
  set (m1 := dict_set m (Z.of_nat dst) (Z.of_nat dst)).
  assert (∀ k, pending m1 rest src d (other src dst k) = pending m rest src dst k) as Hp by (intros k; rewrite <-Hdd; by apply pending_step).
  assert (m1.*1 = m.*1) as Hk by (unfold m1; rewrite dict_set_keys; by rewrite decide_True by (apply dict_get_is_Some; eauto)).
  destruct (IH b1 gs1 d m1) as (m' & b' & gs' & pos & ms & E & R & Hm' & Hk' & Hdest & Hinj); try done.
  - apply R1.
  - apply R1.
  - apply R1. done.
  - intros k Hkr. unfold m1. rewrite dict_get_set. destruct (decide _); [by eexists|by apply Hm].
  - intros x y Hxy. rewrite <-(other_swap src dst x), <-(other_swap src dst y), !Hp in Hxy. apply Hi in Hxy. by apply other_inj in Hxy.
  - assert (dest m rest dst ≠ dst) as Hnd.
    { intros Hc. apply Hne'. apply Hi. unfold pending. rewrite decide_True by done. by rewrite decide_False. }
    pose proof (unsettled_less m rest dst Hdr Hnd). fold m1 in H0. lia.
  - exists m', b', gs', (pos ∘ other src dst), (ms1 ++ ms). split_and!; [done|by eapply rearranged_trans|done|congruence| |done].
    intros k. simpl. by rewrite Hdest, Hp.
Qed.

Lemma follow_cycles_ok w n b gs m rest : batch_ok w b gs → lora_ok b gs → dense b n → NoDup rest →
  (∀ k, k ∈ rest → (k < n)%nat) → maps m rest → (length rest ≤ length m)%nat → Inj (=) (=) (dest m rest) →
  ∃ b' gs' ms, follow_cycles (Z.of_nat <$> rest) m b = Ok (tt, b') ∧ rearranged w b gs b' gs' (dest m rest) ms.
Proof.
  revert b gs m. induction rest as [|src rest IH]; intros b gs m Hb Hlo Hd Hn Hr Hm Hl Hi.
  - exists b, gs, []. split; [done|]. destruct (rearranged_refl w b gs Hb Hlo). by split.
  - apply NoDup_cons in Hn as [Hsr Hn]. destruct (Hm src) as [dst Hdst]; [by left|].
    change (Z.of_nat <$> src :: rest) with (Z.of_nat src :: (Z.of_nat <$> rest)). cbn [follow_cycles]. rewrite Hdst.
    assert (∀ k, dest m (src :: rest) k = pending m rest src dst k) as Hdp.
    { intros k. unfold pending, dest. destruct (decide (k = src)) as [->|Hk]; [rewrite decide_True, Hdst by left; lia|].
      destruct (decide (k ∈ rest)); [rewrite decide_True by (by right)|rewrite decide_False by (by rewrite elem_of_cons; intros [?|?])]; done. }
    destruct (follow_cycle_ok (length m) w n b gs src dst m rest) as (m' & b1 & gs1 & pos & ms1 & E1 & R1 & Hm' & Hk & Hdest & Hinj); try done.
    + apply Hr. left.
    + intros k Hk. apply Hr. by right.
    + intros k Hk. apply Hm. by right.
    + intros x y. rewrite <-!Hdp. apply Hi.
    + simpl in Hl. pose proof (length_filter (λ k, dest m rest k ≠ k) rest). unfold unsettled. lia.
    + rewrite (bind_ok _ _ _ _ _ E1).
      destruct (IH b1 gs1 m') as (b' & gs' & ms & E & R); try done.
      * apply R1.
      * apply R1.
      * by apply R1.
      * intros k Hkr. apply Hr. by right.
      * rewrite <-(length_fmap fst m'), Hk, length_fmap. simpl in Hl. lia.
      * exists b', gs', (ms1 ++ ms). split; [done|].
        pose proof (rearranged_trans _ _ _ _ _ _ _ _ _ _ _ R1 R) as RR. destruct RR. split; try done.
        intros k. rewrite Hdp, <-Hdest. apply re_cells0.
Qed.

(** ** The routine *)

(** The region of the request at an index, for the tokens it is scheduled for. *)
Definition region_at (threshold : Z) (sched : list (string * Z)) (c : nat → option (string * View)) (i : nat) : option Z :=
  '(id, v) ← c i; n ← dict_get sched id; Some (region (kinds threshold n (v_num_computed v) (v_num_prompt v))).

Lemma batch_regions w b gs threshold sched : batch_ok w b gs → dense b (length (_req_ids b)) →
  (∀ i id, live b i id → is_Some (dict_get sched id)) →
  ∃ ns, result_map (scheduled_for sched) (_req_ids b) = Ok ns ∧
    let ks := batch_kinds threshold ns (take (length (_req_ids b)) (slots b)) in
    Forall is_kind ks ∧ length ks = length (_req_ids b) ∧ ∀ i, region_at threshold sched (cell b gs) i = (region <$> ks) !! i.
Proof.
  intros Hb (_ & D2 & D3) Hsched. pose proof (bo_cap _ _ _ Hb) as Hcap.
  destruct (result_map_ok (scheduled_for sched) (_req_ids b)) as [ns Hns].
  { intros x Hx. apply list_elem_of_lookup in Hx as [i Hi]. destruct (D2 i (lookup_lt_Some _ _ _ Hi)) as [id Hl].
    unfold live in Hl. rewrite Hl in Hi. injection Hi as <-. destruct (Hsched i id Hl) as [n Hn]. exists n. simpl. by rewrite Hn. }
  exists ns. split; [done|]. apply result_map_Forall2 in Hns. pose proof (Forall2_length _ _ _ Hns) as Hl. unfold batch_kinds.
  split; [|split].
  - apply Forall_lookup. intros i k Hk. apply lookup_zip_with_Some in Hk as (n & s & -> & _). unfold is_kind. eauto.
  - rewrite length_zip_with, length_take. lia.
  - intros i. rewrite list_lookup_fmap, lookup_zip_with. unfold region_at. destruct (decide (i < length (_req_ids b))%nat) as [Hi|Hi].
    + destruct (D2 i Hi) as [id Hid]. destruct (live_slot w b gs i id Hb Hid) as (s & d & o & Q1 & Q2 & Q3).
      rewrite (cell_eq b gs i id s d o) by done. rewrite lookup_take_lt, Q1 by done.
      destruct (lookup_lt_is_Some_2 ns i) as [n Hn]; [lia|]. rewrite Hn. simpl.
      pose proof (Forall2_lookup_lr _ _ _ _ _ _ Hns Hid Hn) as Hx. simpl in Hx. destruct (dict_get sched id); [by injection Hx as ->|done].
    + rewrite cell_none by (apply D3; lia). rewrite (lookup_ge_None_2 ns) by lia. done.
Qed.

Lemma zip_keys (l k : list nat) : length l = length k → (zip_with (λ s d, (Z.of_nat s, Z.of_nat d)) l k).*1 = Z.of_nat <$> l.
Proof. revert k. induction l as [|x l IH]; intros [|y k] Hl; simpl in *; try done. f_equal. apply IH. lia. Qed.

Section plan.
Context (regions targets : list Z) (src orig : list nat).
Hypothesis Hpl : planned regions targets src orig.
Let m := zip_with (λ s d, (Z.of_nat s, Z.of_nat d)) src orig.

Lemma plan_keys : m.*1 = Z.of_nat <$> src.
Proof. apply zip_keys, (Permutation_length (pl_perm _ _ _ _ Hpl)). Qed.
Lemma plan_src : NoDup src.
Proof. rewrite (pl_perm _ _ _ _ Hpl). apply Hpl. Qed.
Lemma plan_get t s d : src !! t = Some s → orig !! t = Some d → dict_get m (Z.of_nat s) = Some (Z.of_nat d).
Proof.
  intros Hs Hd. apply dict_in_get; [rewrite plan_keys; apply NoDup_fmap; [apply _|apply plan_src]|].
  apply (list_elem_of_lookup_2 _ t). unfold m. rewrite lookup_zip_with, Hs. simpl. by rewrite Hd.
Qed.
Lemma plan_at t s : src !! t = Some s → ∃ d, orig !! t = Some d ∧ dest m src s = d.
Proof.
  intros Hs. destruct (lookup_lt_is_Some_2 orig t) as [d Hd].
  { rewrite <-(Permutation_length (pl_perm _ _ _ _ Hpl)). by eapply lookup_lt_Some. }
  exists d. split; [done|]. unfold dest. rewrite decide_True by (by eapply list_elem_of_lookup_2). rewrite (plan_get t s d) by done. lia.
Qed.
Lemma plan_maps : maps m src.
Proof. intros k Hk. apply list_elem_of_lookup in Hk as [t Ht]. destruct (plan_at t k Ht) as (d & Hd & _). exists d. by eapply plan_get. Qed.
Lemma plan_inj : Inj (=) (=) (dest m src).
Proof.
  assert (∀ x y, x ∈ src → y ∉ src → dest m src x = dest m src y → x = y) as Hc.
  { intros x y Hx Hy Hxy. apply list_elem_of_lookup in Hx as [t Ht]. destruct (plan_at t x Ht) as (d & Hd & Ex). destruct Hy.
    rewrite Ex in Hxy. unfold dest in Hxy. destruct (decide (y ∈ src)); [done|]. subst y. rewrite (pl_perm _ _ _ _ Hpl). by eapply list_elem_of_lookup_2. }
  intros x y Hxy. destruct (decide (x ∈ src)) as [Hx|Hx], (decide (y ∈ src)) as [Hy|Hy].
  - apply list_elem_of_lookup in Hx as [t Ht], Hy as [u Hu]. destruct (plan_at t x Ht) as (d & Hd & Ex), (plan_at u y Hu) as (e & He & Ey).
    rewrite Ex, Ey in Hxy. subst e. assert (t = u) as -> by (eapply NoDup_lookup; [apply (pl_nodup _ _ _ _ Hpl)|done|done]). congruence.
  - by apply Hc.
  - symmetry. by apply Hc.
  - unfold dest in Hxy. by rewrite !decide_False in Hxy.
Qed.
Lemma plan_onto j : ∃ k, dest m src k = j ∧ regions !! k = targets !! j.
Proof.
  destruct (decide (j ∈ orig)) as [Hj|Hj].
  - apply list_elem_of_lookup in Hj as [t Ht]. destruct (lookup_lt_is_Some_2 src t) as [s Hs].
    { rewrite (Permutation_length (pl_perm _ _ _ _ Hpl)). by eapply lookup_lt_Some. }
    destruct (plan_at t s Hs) as (d & Hd & Es). exists s. rewrite Es. simplify_eq. split; [done|]. by eapply (pl_region _ _ _ _ Hpl).
  - exists j. split; [|by apply Hpl]. unfold dest. rewrite decide_False; [done|]. by rewrite (pl_perm _ _ _ _ Hpl).
Qed.
End plan.

Lemma sorted_lookup (l : list Z) i j x y : StronglySorted Z.le l → (i < j)%nat → l !! i = Some x → l !! j = Some y → x ≤ y.
Proof.
  intros Hs Hij Hi Hj. rewrite <-(take_drop (S i) l) in Hs. apply StronglySorted_app in Hs as (Hs & _).
  apply Hs; [apply (list_elem_of_lookup_2 _ i); by rewrite lookup_take_lt by lia|].
  apply (list_elem_of_lookup_2 _ (j - S i)). rewrite lookup_drop. rewrite <-Hj. f_equal. lia.
Qed.

(** The routine does not fail; the requests and what belongs to them stay, and they are
    in the order of the regions. *)
Lemma reorder_ok w b gs threshold sched : batch_ok w b gs → lora_ok b gs → dense b (length (_req_ids b)) →
  (∀ i id, live b i id → is_Some (dict_get sched id)) →
  ∃ res b' gs' pos ms, reorder_batch_to_split_decodes_and_prefills sched threshold b = Ok (res, b') ∧
    rearranged w b gs b' gs' pos ms ∧ (res = false → b' = b) ∧
    ∀ i j x y, (i < j)%nat → region_at threshold sched (cell b' gs') i = Some x → region_at threshold sched (cell b' gs') j = Some y → x ≤ y.
Proof.
  intros Hb Hlo Hd Hsched. destruct (batch_regions w b gs threshold sched Hb Hd Hsched) as (ns & Ens & Hk & Hlen & Hreg).
  set (ks := batch_kinds _ _ _) in *. pose proof (targets_perm ks Hk) as Hperm. pose proof (targets_sorted ks) as Hsort.
  assert (∀ c, (∀ j, region_at threshold sched c j = target_regions ks !! j) → ∀ i j x y, (i < j)%nat →
    region_at threshold sched c i = Some x → region_at threshold sched c j = Some y → x ≤ y) as Hfin.
  { intros c Hc i j x y Hij. rewrite !Hc. by apply sorted_lookup. }
  unfold reorder_batch_to_split_decodes_and_prefills. mstep. unfold lift_result. rewrite Ens.
  rewrite (bind_ok _ _ b ns b) by done. fold ks. destruct (misplaced (region <$> ks) (target_regions ks)) as [|x0 l0] eqn:Em.
  - exists false, b, gs, id, []. split_and!; [done|by apply rearranged_refl|done|]. apply Hfin. intros j. rewrite Hreg.
    apply misplaced_out; [by apply Permutation_length|]. rewrite Em. apply not_elem_of_nil.
  - clear Em. destruct (src_dest_map_ok _ _ Hperm Hsort) as (src & orig & -> & Hpl). set (m := zip_with _ src orig).
    destruct (follow_cycles_ok w (length (_req_ids b)) b gs m src) as (b' & gs' & ms & E & R); try done.
    + by eapply plan_src.
    + intros k. rewrite (pl_perm _ _ _ _ Hpl). intros Hk'%(pl_in _ _ _ _ Hpl). rewrite length_fmap in Hk'. lia.
    + by eapply plan_maps.
    + unfold m. rewrite length_zip_with, (Permutation_length (pl_perm _ _ _ _ Hpl)). lia.
    + by eapply plan_inj.
    + exists true, b', gs', (dest m src), ms. pose proof (plan_keys _ _ _ _ Hpl) as Hkeys. fold m in Hkeys. rewrite Hkeys, (bind_ok _ _ _ _ _ E).
      split_and!; [done|done|done|]. apply Hfin. intros j. destruct (plan_onto _ _ _ _ Hpl j) as (k & Ek & Er). fold m in Ek.
      rewrite <-Er, <-Hreg, <-Ek. unfold region_at. by rewrite (re_cells _ _ _ _ _ _ _ R).
Qed.
End rearrange.
