(* ===== verification/ModelRunner.v ===== *)
(** * The model runner's bookkeeping: [_update_states] and the caching of sampled tokens
    of [v1/worker/gpu_model_runner.py]

    The runner keeps what it knows of every request, scheduled or not, in [requests], and
    what it is running in the persistent batch. Before the model runs, [_update_states]
    follows the output of the scheduler in both: finished and unscheduled requests leave
    the batch, running requests get blocks and drafts, new and resumed requests enter.
    After it, [_bookkeeping_sync] appends the sampled tokens to both.

    A [CachedRequestState] is one Python object that [requests], the list of requests to
    add and, for its output tokens, the batch refer to; the model keeps it under its id in
    [requests] and refers to it by the id. [next_object] names new objects. Iterating over
    a set has no specified order: [set_order] is some order. The modelled configuration
    has synchronous scheduling, no n-gram drafts on the device and one-dimensional
    positions; what [get_pooling_updates] of the model does to pooling parameters is a
    parameter, its errors those of a missing task.

    Left out are what only other configurations read (the number of drafts of the last
    step, multi-modal features, the trimming of invalid drafts), the zeroing of new blocks
    and the late-interaction runner, which work on the device; the random generator of a
    seeded request is named by its seed and its state is not modelled, so that
    [_bookkeeping_sync] returns the indices whose generator it sets back; the tensors of
    log-probabilities, of which [_get_prompt_logprobs_dict] keeps the control flow and the
    requests it completes; the counting of NaNs and the copy of routed experts. *)

From Stdlib Require Import ZArith Lia.
From stdpp Require Import list numbers gmap strings.
From S2P Require Import Prelude MathUtils BlockTable BatchUpdate InputBatch ReorderBatch.
Local Open Scope Z_scope.
Local Open Scope vllm_scope.

Section runner.
Context `{Float}.

(** ** The scheduler output *)

Record NewRequestData := {
  nd_req_id : string;
  nd_prompt_token_ids : option (list Z);
  nd_sampling_params : option SamplingParams;
  nd_pooling_params : option PoolingParams;
  nd_block_ids : list (list Z);
  nd_num_computed_tokens : Z;
  nd_lora_request : option LoRARequest;
  nd_prompt_embeds : option (list (list F));
  nd_prompt_is_token_ids : option (list bool);
}.

Record CachedRequestData := {
  cd_req_ids : list string;
  cd_resumed_req_ids : gset string;
  cd_new_token_ids : list (list Z);
  cd_new_block_ids : list (option (list (list Z)));
  cd_num_computed_tokens : list Z;
  cd_num_output_tokens : list Z;
}.

Record SchedulerOutput := {
  scheduled_new_reqs : list NewRequestData;
  scheduled_cached_reqs : CachedRequestData;
  num_scheduled_tokens : list (string * Z);
  scheduled_spec_decode_tokens : list (string * list Z);
  finished_req_ids : gset string;
  free_encoder_mm_hashes : list string;
}.

(** ** State *)

Record ModelRunner := {
  requests : list (string * CachedRequestState);
  num_prompt_logprobs : list (string * Z);
  encoder_cache : list (string * Z);
  input_batch : InputBatch;
  next_object : Z;
}.

Context (set_order : gset string → list string).
Context (get_pooling_updates : PoolingParams → result PoolingParams).
Context (is_last_rank : bool) (num_kv_cache_groups : Z) (reorder_batch_threshold : option Z).

Definition set_requests (reqs : list (string * CachedRequestState)) (mr : ModelRunner) : ModelRunner :=
  Build_ModelRunner reqs (num_prompt_logprobs mr) (encoder_cache mr) (input_batch mr) (next_object mr).
Definition set_batch (b : InputBatch) (mr : ModelRunner) : ModelRunner :=
  Build_ModelRunner (requests mr) (num_prompt_logprobs mr) (encoder_cache mr) b (next_object mr).
Definition set_logprobs (d : list (string * Z)) (mr : ModelRunner) : ModelRunner :=
  Build_ModelRunner (requests mr) d (encoder_cache mr) (input_batch mr) (next_object mr).
Definition set_encoder_cache (d : list (string * Z)) (mr : ModelRunner) : ModelRunner :=
  Build_ModelRunner (requests mr) (num_prompt_logprobs mr) d (input_batch mr) (next_object mr).
Definition bump_objects (n : Z) (mr : ModelRunner) : ModelRunner :=
  Build_ModelRunner (requests mr) (num_prompt_logprobs mr) (encoder_cache mr) (input_batch mr) (next_object mr + n).

Definition on_batch {X} (m : M InputBatch X) : M ModelRunner X := zoom input_batch set_batch m.
Definition get_request (id : string) : M ModelRunner CachedRequestState :=
  mr ← get; match dict_get (requests mr) id with Some r => mret r | None => raise KeyError end.
Definition put_request (id : string) (r : CachedRequestState) : M ModelRunner unit :=
  modify (λ mr, set_requests (dict_set (requests mr) id r) mr).

(** ** New requests *)

(** [_update_streaming_request]: the state of a session with the next piece of input. *)
Definition streaming_state (d : NewRequestData) (r : CachedRequestState) : CachedRequestState :=
  {| req_id := req_id r; prompt_token_ids := nd_prompt_token_ids d; prompt_embeds := nd_prompt_embeds d;
     prompt_is_token_ids := prompt_is_token_ids r; sampling_params := nd_sampling_params d;
     pooling_params := nd_pooling_params d; pooling_states := pooling_states r; generator := generator r;
     block_ids := nd_block_ids d; num_computed_tokens := nd_num_computed_tokens d;
     output_token_ids := []; out_ref := out_ref r; lora_request := lora_request r |}.
Definition _update_streaming_request (d : NewRequestData) : M ModelRunner unit :=
  on_batch (remove_request (nd_req_id d));;
  r ← get_request (nd_req_id d);
  lift_result (length_from_prompt_token_ids_or_embeds (nd_prompt_token_ids d) (nd_prompt_embeds d));;
  put_request (nd_req_id d) (streaming_state d r).

(** A generator of its own for a seeded request; its state is the seed. *)
Definition seeded_generator (sp : option SamplingParams) : result (option Z) :=
  match sp with
  | Some sp =>
      if bool_decide (sampling_type sp = RANDOM_SEED) then match seed sp with Some s => Ok (Some s) | None => Err TypeError end
      else Ok None
  | None => Ok None
  end.

(** A new [CachedRequestState], with an output list and, for pooling, states of its own. *)
Definition new_state (pooling : bool) (d : NewRequestData) (object : Z) : result CachedRequestState :=
  gen ← seeded_generator (nd_sampling_params d);
  pp ← (if pooling then match nd_pooling_params d with Some pp => pp ← get_pooling_updates pp; Ok (Some pp) | None => Err AssertionError end
        else Ok (nd_pooling_params d));
  length_from_prompt_token_ids_or_embeds (nd_prompt_token_ids d) (nd_prompt_embeds d) ≫= λ _,
  Ok {| req_id := nd_req_id d; prompt_token_ids := nd_prompt_token_ids d; prompt_embeds := nd_prompt_embeds d;
        prompt_is_token_ids := nd_prompt_is_token_ids d; sampling_params := nd_sampling_params d;
        pooling_params := pp; pooling_states := (λ _, object + 1) <$> pp; generator := gen;
        block_ids := nd_block_ids d; num_computed_tokens := nd_num_computed_tokens d;
        output_token_ids := []; out_ref := object; lora_request := nd_lora_request d |}.

Definition note_prompt_logprobs (d : NewRequestData) (mr : ModelRunner) : ModelRunner :=
  match nd_sampling_params d with
  | Some sp =>
      match prompt_logprobs sp with
      | Some n => set_logprobs (dict_set (num_prompt_logprobs mr) (nd_req_id d)
                    (if n =? -1 then vocab_size (input_batch mr) else n)) mr
      | None => mr
      end
  | None => mr
  end.

Definition add_new_request (d : NewRequestData) : M ModelRunner unit :=
  mr ← get;
  match dict_get (requests mr) (nd_req_id d) with
  | Some _ => _update_streaming_request d
  | None =>
      r ← lift_result (new_state (is_pooling_model (input_batch mr)) d (next_object mr));
      put_request (nd_req_id d) r;;
      modify (bump_objects 2);;
      modify (note_prompt_logprobs d)
  end.

(** ** Running and resumed requests *)

Definition set_tokens (n : Z) (s : Slot) : Slot :=
  {| s_token_ids := s_token_ids s; s_is_token_ids := s_is_token_ids s; s_prompt_embeds := s_prompt_embeds s;
     s_num_tokens_no_spec := n; s_num_prompt_tokens := s_num_prompt_tokens s;
     s_num_computed_tokens := s_num_computed_tokens s; s_temperature := s_temperature s; s_top_p := s_top_p s;
     s_top_k := s_top_k s; s_frequency_penalty := s_frequency_penalty s; s_presence_penalty := s_presence_penalty s;
     s_repetition_penalty := s_repetition_penalty s; s_num_accepted_tokens := s_num_accepted_tokens s;
     s_lora := s_lora s; s_generator := s_generator s; s_mask := s_mask s; s_bad_words := s_bad_words s;
     s_needs_token_ids := s_needs_token_ids s |}.
Definition set_computed (n : Z) (s : Slot) : Slot :=
  {| s_token_ids := s_token_ids s; s_is_token_ids := s_is_token_ids s; s_prompt_embeds := s_prompt_embeds s;
     s_num_tokens_no_spec := s_num_tokens_no_spec s; s_num_prompt_tokens := s_num_prompt_tokens s;
     s_num_computed_tokens := n; s_temperature := s_temperature s; s_top_p := s_top_p s;
     s_top_k := s_top_k s; s_frequency_penalty := s_frequency_penalty s; s_presence_penalty := s_presence_penalty s;
     s_repetition_penalty := s_repetition_penalty s; s_num_accepted_tokens := s_num_accepted_tokens s;
     s_lora := s_lora s; s_generator := s_generator s; s_mask := s_mask s; s_bad_words := s_bad_words s;
     s_needs_token_ids := s_needs_token_ids s |}.

(** [token_ids[start:end] = toks] where there are any, [is_token_ids[start:end] = True],
    [num_tokens_no_spec = end] *)
Definition extend_tokens (toks : list Z) (end_index : Z) (s : Slot) : result Slot :=
  let start_index := s_num_tokens_no_spec s in
  row ← (match toks with [] => Ok (s_token_ids s) | _ => np_assign (s_token_ids s) start_index end_index (NpList toks) end);
  flags ← np_put (s_is_token_ids s) start_index end_index [true];
  Ok {| s_token_ids := row; s_is_token_ids := flags; s_prompt_embeds := s_prompt_embeds s;
        s_num_tokens_no_spec := end_index; s_num_prompt_tokens := s_num_prompt_tokens s;
        s_num_computed_tokens := s_num_computed_tokens s; s_temperature := s_temperature s; s_top_p := s_top_p s;
        s_top_k := s_top_k s; s_frequency_penalty := s_frequency_penalty s;
        s_presence_penalty := s_presence_penalty s; s_repetition_penalty := s_repetition_penalty s;
        s_num_accepted_tokens := s_num_accepted_tokens s; s_lora := s_lora s; s_generator := s_generator s;
        s_mask := s_mask s; s_bad_words := s_bad_words s; s_needs_token_ids := s_needs_token_ids s |}.

Definition with_progress (computed : Z) (out : list Z) (blocks : list (list Z)) (r : CachedRequestState) : CachedRequestState :=
  {| req_id := req_id r; prompt_token_ids := prompt_token_ids r; prompt_embeds := prompt_embeds r;
     prompt_is_token_ids := prompt_is_token_ids r; sampling_params := sampling_params r; pooling_params := pooling_params r;
     pooling_states := pooling_states r; generator := generator r; block_ids := blocks; num_computed_tokens := computed;
     output_token_ids := out; out_ref := out_ref r; lora_request := lora_request r |}.

(** The entries of a request in the parallel lists. *)
Record CachedRow := { cw_new_tokens : list Z; cw_blocks : option (list (list Z)); cw_computed : Z; cw_output : Z }.
Definition cached_row (d : CachedRequestData) (i : nat) : result CachedRow :=
  c ← py_index (cd_num_computed_tokens d) (Z.of_nat i);
  bs ← py_index (cd_new_block_ids d) (Z.of_nat i);
  o ← py_index (cd_num_output_tokens d) (Z.of_nat i);
  toks ← (match cd_new_token_ids d with
          | [] => Ok []
          | l => if is_last_rank then Ok [] else py_index l (Z.of_nat i)
          end);
  Ok (Build_CachedRow toks bs c o).

(** The output tokens: on an earlier pipeline stage those sent along are appended, on the
    last one those that were discarded are cut. *)
Definition next_output (d : CachedRequestData) (row : CachedRow) (r : CachedRequestState) : result (list Z) :=
  let out := output_token_ids r in
  if is_last_rank then Ok (if cw_output row <? zlen out then py_slice out 0 (cw_output row) else out)
  else match cd_new_token_ids d with
  | [] => Ok out
  | _ =>
      total ← num_tokens r;
      let num_new_tokens := cw_computed row + zlen (cw_new_tokens row) - total in
      if num_new_tokens =? 1 then t ← py_index (cw_new_tokens row) (-1); Ok (out ++ [t])
      else if 0 <? num_new_tokens then Ok (out ++ py_from (cw_new_tokens row) (- num_new_tokens))
      else Ok out
  end.

(** The blocks: appended to those of each group, or new ones after a preemption. *)
Definition next_blocks (resumed in_batch : bool) (row : CachedRow) (r : CachedRequestState) : result (list (list Z)) :=
  if resumed then
    match in_batch, cw_blocks row with
    | false, Some new => Ok new
    | _, _ => Err AssertionError
    end
  else match cw_blocks row with
  | Some new => Ok (zip_with app (block_ids r) new ++ drop (length new) (block_ids r))
  | None => Ok (block_ids r)
  end.

(** The batch entries of a request that is in the batch. *)
Definition update_row (id : string) (row : CachedRow) (drafts : list (string * list Z)) (i : Z) : M InputBatch unit :=
  on_slot i (λ s, Ok (set_computed (cw_computed row) s));;
  match cw_blocks row with Some new => on_table (multi_append_row new i) | None => mret tt end;;
  (if is_last_rank then mret tt
   else on_slot i (λ s,
     let start_token_index := s_num_tokens_no_spec s in
     let end_token_index := Z.max start_token_index (cw_computed row + zlen (cw_new_tokens row)) in
     if start_token_index <? end_token_index then
       extend_tokens (py_from (cw_new_tokens row) (- (end_token_index - start_token_index))) end_token_index s
     else Ok s));;
  update_req_spec_token_ids id drafts;;
  mret tt.

(** Truncated outputs shorten the row too. *)
Definition cut_row (row : CachedRow) (out : list Z) (i : Z) : M InputBatch unit :=
  when is_last_rank && (cw_output row <? zlen out) do
    on_slot i (λ s, Ok (set_tokens (s_num_prompt_tokens s + cw_output row) s)).

(** One request of the list; returns it if it has to be added to the batch. *)
Definition update_cached (d : CachedRequestData) (drafts : list (string * list Z)) (i : nat) (id : string) : M ModelRunner (list string) :=
  r ← get_request id;
  row ← lift_result (cached_row d i);
  mr ← get;
  let req_index := dict_get (req_id_to_index (input_batch mr)) id in
  out ← lift_result (next_output d row r);
  match req_index with Some i => on_batch (cut_row row (output_token_ids r) i) | None => mret tt end;;
  blocks ← lift_result (next_blocks (bool_decide (id ∈ cd_resumed_req_ids d)) (bool_decide (is_Some req_index)) row r);
  put_request id (with_progress (cw_computed row) out blocks r);;
  match req_index with
  | None => mret [id]
  | Some i => on_batch (update_row id row drafts i);; mret []
  end.

Fixpoint update_cached_reqs (d : CachedRequestData) (drafts : list (string * list Z)) (i : nat) (ids : list string) : M ModelRunner (list string) :=
  match ids with
  | [] => mret []
  | id :: ids =>
      l ← update_cached d drafts i id;
      ls ← update_cached_reqs d drafts (S i) ids;
      mret (l ++ ls)
  end.

(** ** [_update_states] *)

Definition _may_reorder_batch (so : SchedulerOutput) : M ModelRunner unit :=
  if num_kv_cache_groups =? 0 then mret tt
  else match reorder_batch_threshold with
  | Some t => on_batch (reorder_batch_to_split_decodes_and_prefills (num_scheduled_tokens so) t);; mret tt
  | None => mret tt
  end.

(** Requests in the batch that are not scheduled, or are resumed. *)
Definition unscheduled_req_ids (so : SchedulerOutput) (b : InputBatch) : gset string :=
  list_to_set (req_id_to_index b).*1 ∖ (list_to_set (num_scheduled_tokens so).*1 ∖ cd_resumed_req_ids (scheduled_cached_reqs so)).

Definition add_to_batch (drafts : list (string * list Z)) (id : string) : M ModelRunner unit :=
  r ← get_request id;
  on_batch (add_request r);;
  on_batch (update_req_spec_token_ids id drafts);;
  mret tt.

Definition forget_finished (so : SchedulerOutput) (mr : ModelRunner) : ModelRunner :=
  let finished := set_order (finished_req_ids so) in
  set_logprobs (foldl dict_del (num_prompt_logprobs mr) finished) (set_requests (foldl dict_del (requests mr) finished) mr).

(** Returns the batch update handed to the logits processors. *)
Definition _update_states (so : SchedulerOutput) : M ModelRunner (option (BatchUpdate added_info)) :=
  modify (forget_finished so);;
  forM (set_order (finished_req_ids so)) (λ id, on_batch (remove_request id);; mret tt);;
  modify (λ mr, set_encoder_cache (foldl dict_del (encoder_cache mr) (free_encoder_mm_hashes so)) mr);;
  mr ← get;
  forM (set_order (unscheduled_req_ids so (input_batch mr))) (λ id, on_batch (remove_request id);; mret tt);;
  forM (scheduled_new_reqs so) add_new_request;;
  let cached := scheduled_cached_reqs so in
  readded ← update_cached_reqs cached (scheduled_spec_decode_tokens so) 0 (cd_req_ids cached);
  forM ((nd_req_id <$> scheduled_new_reqs so) ++ readded) (add_to_batch (scheduled_spec_decode_tokens so));;
  on_batch condense;;
  _may_reorder_batch so;;
  on_batch refresh_builder.

(** ** The sampled tokens *)

(** The tokens of each row that were really sampled. *)
Definition PLACEHOLDER_TOKEN_ID : Z := -1.
Definition parse_output (rows : list (list Z)) (vocab : Z) (discard : list bool) : list (list Z) :=
  imap (λ (i : nat) row, if default false (discard !! i) then [] else filter (λ t, t ≠ PLACEHOLDER_TOKEN_ID ∧ t < vocab) row) rows.
Definition valid_sampled_token_ids (max_gen_len : Z) (rows : list (list Z)) (vocab : Z) (discard : list bool) : list (list Z) :=
  if max_gen_len =? 1 then imap (λ (i : nat) row, if default false (discard !! i) then [] else row) rows
  else parse_output rows vocab discard.

Definition cache_row (max_model_len : Z) (req_idx : nat) (sampled_ids : list Z) : M ModelRunner unit :=
  match sampled_ids with
  | [] => mret tt
  | _ =>
      mr ← get;
      s ← lift_result (py_index (slots (input_batch mr)) (Z.of_nat req_idx));
      let end_idx := s_num_tokens_no_spec s + zlen sampled_ids in
      py_assert (end_idx <=? max_model_len);;
      on_batch (on_slot (Z.of_nat req_idx) (extend_tokens sampled_ids end_idx));;
      id ← lift_result (py_index (_req_ids (input_batch mr)) (Z.of_nat req_idx));
      match id with
      | None => raise KeyError
      | Some id =>
          r ← get_request id;
          put_request id (with_progress (num_computed_tokens r) (output_token_ids r ++ sampled_ids) (block_ids r) r)
      end
  end.
Fixpoint cache_rows (max_model_len : Z) (req_idx : nat) (rows : list (list Z)) : M ModelRunner unit :=
  match rows with
  | [] => mret tt
  | row :: rows => cache_row max_model_len req_idx row;; cache_rows max_model_len (S req_idx) rows
  end.

(** The rows whose sample is discarded: [np.nonzero(discard_request_mask.np[:num_reqs])] *)
Definition discarded (b : InputBatch) (mask : list bool) : list bool := take (Z.to_nat (num_reqs b)) mask.

(** The indices whose generator is set back, so that the discarded draw is repeated. *)
Definition rewound_generators (b : InputBatch) (discard : list bool) : list nat :=
  filter (λ i, discard !! i = Some true ∧ is_Some (slots b !! i ≫= s_generator)) (seq 0 (length discard)).

(** One request of [_get_prompt_logprobs_dict]: whether this step ends its prompt. *)
Definition prompt_logprobs_done (scheduled : list (string * Z)) (mr : ModelRunner) (id : string) : result bool :=
  match dict_get scheduled id with
  | None => Ok false
  | Some num_tokens =>
      match dict_get (requests mr) id with
      | None => Err KeyError
      | Some request =>
          match prompt_token_ids request with
          | None => Ok false
          | Some prompt =>
              let start_tok := num_computed_tokens request + 1 in
              let num_remaining_tokens := zlen prompt - start_tok in
              let completed := negb (num_tokens <=? num_remaining_tokens) in
              let num_logits := if completed then num_remaining_tokens else num_tokens in
              if num_logits <=? 0 then Ok completed
              else match dict_get (req_id_to_index (input_batch mr)) id with
              | Some _ => Ok completed
              | None => Err KeyError
              end
          end
      end
  end.

(** [_get_prompt_logprobs_dict], its tensors left out: returns the requests whose prompt
    is complete, whose log-probabilities are returned and asked for no more. *)
Definition _get_prompt_logprobs_dict (scheduled : list (string * Z)) : M ModelRunner (list string) :=
  mr ← get;
  flags ← lift_result (result_map (λ kv, prompt_logprobs_done scheduled mr kv.1) (num_prompt_logprobs mr));
  let completed := fst <$> filter (λ kf, kf.2 = true) (zip (num_prompt_logprobs mr).*1 flags) in
  modify (set_logprobs (foldl dict_del (num_prompt_logprobs mr) completed));;
  mret completed.

(** What [_bookkeeping_sync] returns and does outside the runner's state. *)
Record Bookkept := {
  bk_rows : list (list Z);
  bk_req_ids : list (option string);
  bk_req_id_to_index : list (string * Z);
  bk_rewound : list nat;
  bk_prompt_logprobs : list string;
}.

(** [_bookkeeping_sync] with synchronous scheduling; [mask] is [discard_request_mask], and
    discarding a row that was not sampled raises. *)
Definition _bookkeeping_sync (max_model_len max_gen_len : Z) (scheduled : list (string * Z)) (sampled : list (list Z))
    (mask : list bool) : M ModelRunner Bookkept :=
  mr ← get;
  let b := input_batch mr in
  let discard := discarded b mask in
  (if existsb id (drop (length sampled) discard) then raise IndexError else mret tt);;
  let rows := valid_sampled_token_ids max_gen_len sampled (vocab_size b) discard in
  cache_rows max_model_len 0 rows;;
  completed ← _get_prompt_logprobs_dict scheduled;
  mret (Build_Bookkept rows (_req_ids b) (req_id_to_index b) (rewound_generators b discard) completed).
End runner.
