(* ===== verification/ModelRunnerSafe.v ===== *)
(** * The batch shows the requests: invariants of the model runner

    The runner knows a request twice: as an object in [requests] and as entries of the
    persistent batch. The proofs follow [_update_states] and [_bookkeeping_sync] statement
    by statement and show that the two never disagree. *)

From Stdlib Require Import ZArith Lia.
From stdpp Require Import list numbers gmap strings sorting.
From S2P Require Import Prelude MathUtils BlockTable BatchUpdate InputBatch InputBatchSafe InputBatchStep InputBatchTouch.
From S2P Require Import ReorderBatch ModelRunner.
Local Open Scope Z_scope.

Section safe.
Context `{Float}.

(** ** A request and its entries *)

(** A request that fits in the rows of the batch; [sh] are the shapes of the groups. *)
Record request_wf (w : nat) (sh : list (Z * Z)) (pooling : bool) (vocab : Z) (r : CachedRequestState) (n : nat) : Prop := {
  wf_tokens : tokens_fit w r n;
  wf_embeds : forallb id (prompt_flags r n) = false → is_Some (prompt_embeds r);
  wf_groups : length (block_ids r) = length sh;
  wf_blocks : ∀ i per width, sh !! i = Some (per, width) →
    zlen (expand per (block_ids r !!! i)) ≤ width ∧ forallb in_int32 (expand per (block_ids r !!! i)) = true;
  wf_kind : if pooling then sampling_params r = None ∧ is_Some (pooling_params r) ∧ is_Some (pooling_states r)
            else ∃ sp, sampling_params r = Some sp ∧ ∀ row, ∃ row', allowed_mask vocab sp row = Ok row';
  wf_lora : ∀ l, lora_request r = Some l → lora_int_id l ≠ 0;
}.

Lemma wf_request_ok w b gs r n : request_wf w (shapes gs) (is_pooling_model b) (vocab_size b) r n → request_ok w b gs r n.
Proof.
  intros []. split; try done. intros i g Hg. assert (shapes gs !! i = Some (g_per g, g_width g)) as Hi.
  { unfold shapes. by rewrite list_lookup_fmap, Hg. }
  split; [rewrite wf_groups0; by eapply lookup_lt_Some|]. destruct (wf_blocks0 i _ _ Hi) as [H1 H2].
  unfold ids_fit. rewrite H2, andb_true_r. apply Z.leb_le. unfold zlen at 1. simpl. lia.
Qed.

(** The entries of a request show it, whatever its drafts are. *)
Definition shows (pooling : bool) (vocab : Z) (pers : list Z) (r : CachedRequestState) (v : View) : Prop :=
  ∃ n, num_prompt_tokens r = Ok (Z.of_nat n) ∧ with_drafts [] v = request_view pooling vocab pers r n.

Lemma with_drafts_nil d v : with_drafts d (with_drafts [] v) = with_drafts d v.
Proof. unfold with_drafts. simpl. by rewrite app_nil_r, take_take, Nat.min_id. Qed.

Lemma length_request_known w r n : tokens_fit w r n → length (request_known r n) = (n + length (output_token_ids r))%nat.
Proof.
  intros Hr. pose proof (length_prompt_flags w r n Hr) as Hf. pose proof (tf_prompt _ _ _ Hr) as Hp. unfold request_known, known_tokens.
  rewrite length_app, length_fmap. f_equal. destruct (prompt_token_ids r); [|by rewrite length_replicate].
  rewrite length_zip_with, Hf. lia.
Qed.

Lemma shows_inv w pooling vocab pers r n v : tokens_fit w r n → shows pooling vocab pers r v →
  with_drafts [] v = request_view pooling vocab pers r n.
Proof. intros Hr (n' & Hn & Hv). pose proof (tf_len _ _ _ Hr). assert (n' = n) as -> by (apply Nat2Z.inj; congruence). done. Qed.

Lemma shows_drafts w pooling vocab pers r n v d : tokens_fit w r n → shows pooling vocab pers r v →
  with_drafts d v = with_drafts d (request_view pooling vocab pers r n) ∧ shows pooling vocab pers r (with_drafts d v).
Proof.
  intros Hr Hs. pose proof (shows_inv _ _ _ _ _ _ _ Hr Hs) as Hv. assert (with_drafts d v = with_drafts d (request_view pooling vocab pers r n)) as E.
  { by rewrite <-Hv, with_drafts_nil. }
  split; [done|]. exists n. split; [apply Hr|]. rewrite E. pose proof (length_request_known w r n Hr) as Hl.
  unfold with_drafts, request_view. simpl. rewrite app_nil_r. f_equal. unfold zlen.
  replace (Z.to_nat (Z.of_nat n + Z.of_nat (length (output_token_ids r)))) with (length (request_known r n)) by lia.
  rewrite (take_ge (request_known r n)) by done. by rewrite take_app_length.
Qed.

(** The view of a request shows it, and drafts are written once. *)
Lemma request_view_shows w pooling vocab pers r n : tokens_fit w r n → shows pooling vocab pers r (request_view pooling vocab pers r n).
Proof.
  intros Hr. exists n. split; [apply Hr|]. unfold with_drafts, request_view. simpl. rewrite app_nil_r. f_equal. apply take_ge.
  rewrite (length_request_known w r n Hr). unfold zlen. lia.
Qed.
Lemma request_view_drafts w pooling vocab pers r n d : tokens_fit w r n →
  let v := with_drafts d (request_view pooling vocab pers r n) in v = with_drafts d v.
Proof.
  intros Hr v. destruct (shows_drafts w _ _ _ r n _ d Hr (request_view_shows w pooling vocab pers r n Hr)) as [_ Hs].
  destruct (shows_drafts w _ _ _ r n _ d Hr Hs) as [He _]. symmetry. exact He.
Qed.

Lemma shows_num w pooling vocab pers r n v : tokens_fit w r n → shows pooling vocab pers r v →
  v_num_tokens v = Z.of_nat n + zlen (output_token_ids r) ∧ v_num_prompt v = Z.of_nat n ∧ v_num_computed v = num_computed_tokens r.
Proof.
  intros Hr Hs. pose proof (shows_inv _ _ _ _ _ _ _ Hr Hs) as Hv. pose proof (f_equal v_num_tokens Hv) as E1.
  pose proof (f_equal v_num_prompt Hv) as E2. pose proof (f_equal v_num_computed Hv) as E3. simpl in *. done.
Qed.

(** ** Entries of an index without the drafts *)

Definition base (s : Slot) : list (option Z) :=
  known_tokens (take (Z.to_nat (s_num_tokens_no_spec s)) (s_token_ids s)) (take (Z.to_nat (s_num_tokens_no_spec s)) (s_is_token_ids s)).

Definition known (o : option Z) : bool := match o with Some _ => true | None => false end.

Lemma known_flags l f : length l = length f → forallb known (known_tokens l f) = forallb id f.
Proof.
  revert f. induction l as [|x l IH]; intros [|y f] Hl; simpl in *; try done. unfold id at 1. rewrite IH by lia. by destruct y.
Qed.
Lemma all_known_base w s : slot_ok w s → all_known s = forallb known (base s).
Proof. intros [H1 H2]. unfold base, all_known. rewrite known_flags; [done|]. rewrite !length_take. lia. Qed.

Lemma known_all (l : list Z) : forallb known (Some <$> l) = true.
Proof. by induction l. Qed.
Lemma request_known_all w r n : tokens_fit w r n → forallb known (request_known r n) = forallb id (prompt_flags r n).
Proof.
  intros Hr. pose proof (length_prompt_flags w r n Hr) as Hf. pose proof (tf_prompt _ _ _ Hr) as Hp. unfold request_known, prompt_flags in *.
  rewrite forallb_app, known_all, andb_true_r. destruct (prompt_token_ids r); [apply known_flags; lia|]. by induction n; simpl in *.
Qed.

(** The view of an index without its drafts. *)
Definition bare (pooling : bool) (s : Slot) (out : option Z) (blocks : list (list Z)) (t : Tags) : View :=
  {| v_tokens := base s; v_embeds := if all_known s then None else s_prompt_embeds s; v_drafts := []; v_out := out;
     v_num_tokens := s_num_tokens_no_spec s; v_num_prompt := s_num_prompt_tokens s;
     v_num_computed := s_num_computed_tokens s; v_lora := s_lora s; v_blocks := blocks;
     v_sampling := if pooling then None else Some (slot_sampling s); v_tags := t |}.
Lemma bare_view pooling s d out blocks t : 0 ≤ s_num_tokens_no_spec s →
  with_drafts [] (view pooling s d out blocks t) = bare pooling s out blocks t.
Proof.
  intros Hn. unfold with_drafts, view, bare, base. simpl. rewrite app_nil_r. f_equal.
  rewrite known_tokens_take, !take_take, Nat.min_l; [done|]. unfold active, zlen. lia.
Qed.

(** ** Changes of the entries that follow changes of the request *)

(** [r'] is [r] with other progress. *)
Definition progressed (r r' : CachedRequestState) : Prop :=
  ∃ c out blocks, r' = with_progress c out blocks r.

Lemma progressed_prompt r r' : progressed r r' → num_prompt_tokens r' = num_prompt_tokens r ∧
  (∀ n, prompt_flags r' n = prompt_flags r n) ∧ prompt_token_ids r' = prompt_token_ids r ∧ req_id r' = req_id r ∧
  sampling_params r' = sampling_params r ∧ out_ref r' = out_ref r ∧ prompt_embeds r' = prompt_embeds r.
Proof. intros (c & out & blocks & ->). done. Qed.

(** The part of the view that progress does not touch. *)
Lemma bare_request w pooling vocab pers r n s out blocks t : tokens_fit w r n → slot_ok w s →
  bare pooling s out blocks t = request_view pooling vocab pers r n →
  base s = request_known r n ∧ all_known s = forallb id (prompt_flags r n) ∧
  (all_known s = false → s_prompt_embeds s = prompt_embeds r) ∧ s_num_tokens_no_spec s = Z.of_nat n + zlen (output_token_ids r) ∧
  s_num_prompt_tokens s = Z.of_nat n.
Proof.
  intros Hr Hok Hv. pose proof (all_known_base w s Hok) as Ha. injection Hv as E1 E2 _ E3 E4 _ _ _ _ _.
  assert (all_known s = forallb id (prompt_flags r n)) as Hk by (rewrite Ha, E1; by eapply request_known_all).
  split_and!; try done. intros Hf. rewrite Hf in E2. rewrite Hk in Hf. by rewrite Hf in E2.
Qed.

Section entry.
Context (w : nat) (pooling : bool) (vocab : Z) (pers : list Z) (r : CachedRequestState) (n : nat) (s : Slot) (d : list Z).
Context (out : option Z) (blocks : list (list Z)) (t : Tags).
Hypothesis Hr : tokens_fit w r n.
Hypothesis Hok : slot_ok w s.
Hypothesis Hact : slot_active w s d.
Hypothesis Hv : bare pooling s out blocks t = request_view pooling vocab pers r n.

(** A change of the tokens: [s'] holds the tokens of [r']. *)
Lemma entry_tokens s' r' d' : progressed r r' → tokens_fit w r' n → slot_ok w s' →
  base s' = request_known r' n → s_num_tokens_no_spec s' = Z.of_nat n + zlen (output_token_ids r') →
  s_prompt_embeds s' = s_prompt_embeds s → slot_active w s' d' ∧
  (if all_known s' then None else s_prompt_embeds s') = (if forallb id (prompt_flags r' n) then None else prompt_embeds r').
Proof.
  intros Hp Hr' Hok' Hb' Hn' He'. destruct (bare_request _ _ _ _ _ _ _ _ _ _ Hr Hok Hv) as (B1 & B2 & B3 & B4 & B5).
  destruct (progressed_prompt _ _ Hp) as (_ & P2 & _ & _ & _ & _ & P3).
  assert (all_known s' = all_known s) as Hk.
  { rewrite (all_known_base w s' Hok'), Hb', (request_known_all w r' n Hr'), P2. done. }
  pose proof (tf_fits _ _ _ Hr'). split.
  - split; [unfold zlen in Hn'; lia|]. split; [unfold zlen in Hn'; lia|]. rewrite Hk, He'. apply Hact.
  - rewrite Hk, He', P2, P3, <-B2. destruct (all_known s) eqn:E; [done|]. by apply B3.
Qed.

Lemma entry_computed c : bare pooling (set_computed c s) out blocks t =
  request_view pooling vocab pers (with_progress c (output_token_ids r) (block_ids r) r) n.
Proof. unfold bare, request_view in *. injection Hv as E1 E2 E3 E4 E5 E6 E7 E8 E9 E10. simpl. by f_equal. Qed.

Lemma request_known_cut o : request_known (with_progress (num_computed_tokens r) (take o (output_token_ids r)) (block_ids r) r) n =
  take (n + Nat.min o (length (output_token_ids r))) (request_known r n).
Proof.
  pose proof (length_request_known w r n Hr) as Hl. unfold request_known in *. simpl in *. rewrite length_app, length_fmap in Hl.
  rewrite take_app_add' by lia. f_equal. rewrite <-fmap_take. f_equal.
  destruct (decide (o ≤ length (output_token_ids r))%nat); [by rewrite Nat.min_l|]. by rewrite Nat.min_r, !take_ge by lia.
Qed.

Lemma tokens_fit_out o : forallb in_int32 o = true → (n + length o ≤ w)%nat → tokens_fit w (with_progress (num_computed_tokens r) o (block_ids r) r) n.
Proof. intros Ho Hl. destruct Hr. by split. Qed.

(** Fewer output tokens. *)
Lemma entry_cut (o : nat) : (o ≤ length (output_token_ids r))%nat →
  let s' := set_tokens (s_num_prompt_tokens s + Z.of_nat o) s in
  let r' := with_progress (num_computed_tokens r) (take o (output_token_ids r)) (block_ids r) r in
  slot_ok w s' ∧ slot_active w s' d ∧ bare pooling s' out blocks t = request_view pooling vocab pers r' n.
Proof.
  intros Ho s' r'. destruct (bare_request _ _ _ _ _ _ _ _ _ _ Hr Hok Hv) as (B1 & B2 & B3 & B4 & B5).
  pose proof (tf_fits _ _ _ Hr) as Hf. assert (tokens_fit w r' n) as Hr'.
  { apply tokens_fit_out; [|rewrite length_take; lia]. pose proof (tf_out _ _ _ Hr) as Hi. rewrite <-(take_drop o (output_token_ids r)) in Hi.
    rewrite forallb_app in Hi. by apply andb_true_iff in Hi as [? _]. }
  assert (base s' = request_known r' n) as Hb'.
  { unfold r'. rewrite request_known_cut, <-B1, Nat.min_l by done. unfold base, s'. simpl. unfold zlen in B4. rewrite B4, B5.
    rewrite known_tokens_take, !take_take. f_equal; f_equal; lia. }
  assert (s_num_tokens_no_spec s' = Z.of_nat n + zlen (output_token_ids r')) as Hn'.
  { unfold s', r'. simpl. rewrite B5. unfold zlen. rewrite length_take. lia. }
  destruct (entry_tokens s' r' d) as [Ha He]; try done; [by eexists _, _, _|].
  split; [done|]. split; [done|]. unfold bare, request_view. rewrite Hb', Hn', He.
  unfold bare, request_view in Hv. injection Hv as E1 E2 E3 E4 E5 E6 E7 E8 E9 E10. unfold s', r'. simpl in *. by f_equal.
Qed.

(** More output tokens. *)
Lemma entry_extend toks : toks ≠ [] → forallb in_int32 toks = true → (n + length (output_token_ids r) + length toks ≤ w)%nat →
  let r' := with_progress (num_computed_tokens r) (output_token_ids r ++ toks) (block_ids r) r in
  ∃ s', extend_tokens toks (s_num_tokens_no_spec s + zlen toks) s = Ok s' ∧ slot_ok w s' ∧ slot_active w s' d ∧
    s_lora s' = s_lora s ∧ (slot_free s → slot_free s') ∧ bare pooling s' out blocks t = request_view pooling vocab pers r' n.
Proof.
  intros Hne Hi Hw r'. destruct (bare_request _ _ _ _ _ _ _ _ _ _ Hr Hok Hv) as (B1 & B2 & B3 & B4 & B5). pose proof Hok as [K1 K2].
  set (N := (n + length (output_token_ids r))%nat) in *. assert (s_num_tokens_no_spec s = Z.of_nat N) as HN by (rewrite B4; unfold zlen; lia).
  unfold extend_tokens. rewrite HN.
  assert (∀ X Y : result (list Z), match toks with [] => X | _ => Y end = Y) as -> by (by destruct toks).
  rewrite (np_assign_fits _ (Z.of_nat N) (NpList toks) toks); [|by apply (np_cast_id (NpList toks))|lia|unfold zlen; lia].
  cbn [mbind result_bind]. rewrite np_put_fill by (unfold zlen; lia). cbn [mbind result_bind]. eexists. split; [reflexivity|].
  replace (Z.to_nat (Z.of_nat N + zlen toks - Z.of_nat N)) with (length toks) by (unfold zlen; lia).
  replace (Z.to_nat (Z.of_nat N + zlen toks)) with (N + length toks)%nat by (unfold zlen; lia). rewrite Nat2Z.id.
  match goal with |- slot_ok w ?x ∧ _ => set (s' := x) end.
  assert (slot_ok w s') as Hok'.
  { split; simpl; rewrite !length_app, length_take, length_drop, ?length_replicate; lia. }
  assert (tokens_fit w r' n) as Hr'.
  { apply tokens_fit_out; [rewrite forallb_app, Hi, andb_true_r; apply Hr|rewrite length_app; lia]. }
  assert (base s' = request_known r' n) as Hb'.
  { unfold base in B1. rewrite HN, Nat2Z.id in B1.
    assert (request_known r' n = request_known r n ++ (Some <$> toks)) as ->.
    { unfold request_known, r'. simpl. by rewrite fmap_app, app_assoc. }
    rewrite <-B1.
    unfold base, s'. simpl. replace (Z.to_nat (Z.of_nat N + zlen toks)) with (N + length toks)%nat by (unfold zlen; lia).
    rewrite !(take_app_add' _ _ N) by (rewrite length_take; lia). rewrite !take_app_le by (rewrite ?length_replicate; lia).
    rewrite (take_ge toks), (take_ge (replicate _ _)) by (rewrite ?length_replicate; lia).
    rewrite known_tokens_app by (rewrite !length_take; lia). by rewrite known_tokens_true. }
  assert (s_num_tokens_no_spec s' = Z.of_nat n + zlen (output_token_ids r')) as Hn'.
  { unfold s', r'. simpl. rewrite zlen_app. unfold N, zlen. lia. }
  destruct (entry_tokens s' r' d) as [Ha He]; try done; [by eexists _, _, _|].
  split_and!; try done. unfold bare, request_view. rewrite Hb', Hn', He.
  unfold bare, request_view in Hv. injection Hv as E1 E2 E3 E4 E5 E6 E7 E8 E9 E10. unfold s', r'. simpl in *. by f_equal.
Qed.
End entry.

(** ** The same on the batch *)

Abbreviation batch_shows b gs r v := (shows (is_pooling_model b) (vocab_size b) (g_per <$> gs) r v).

Lemma shows_at w b gs i id v r n : batch_ok w b gs → cell b gs i = Some (id, v) → tokens_fit w r n → batch_shows b gs r v →
  ∃ s d out, live b i id ∧ slots b !! i = Some s ∧ spec_token_ids b !! i = Some d ∧ req_output_token_ids b !! i = Some out ∧
    v = view (is_pooling_model b) s d out (blocks_at gs i) (tags b id) ∧ slot_ok w s ∧ slot_active w s d ∧
    bare (is_pooling_model b) s out (blocks_at gs i) (tags b id) = request_view (is_pooling_model b) (vocab_size b) (g_per <$> gs) r n.
Proof.
  intros Hb Hc Hr Hs. destruct (cell_inv _ _ _ _ _ Hc) as (s & d & out & Hl & Hsl & Hd & Ho & ->). exists s, d, out.
  pose proof (bo_active _ _ _ Hb i id s d Hl Hsl Hd) as Ha. pose proof (Forall_lookup_1 _ _ _ _ (bo_rows _ _ _ Hb) Hsl) as Hok.
  split_and!; try done. rewrite <-(bare_view _ s d) by apply Ha. by eapply shows_inv.
Qed.

Lemma on_slot_shows w b gs i id v r r' n f : batch_ok w b gs → cell b gs i = Some (id, v) → tokens_fit w r n →
  batch_shows b gs r v → num_prompt_tokens r' = Ok (Z.of_nat n) →
  (∀ s d out, slot_ok w s → slot_active w s d →
     bare (is_pooling_model b) s out (blocks_at gs i) (tags b id) = request_view (is_pooling_model b) (vocab_size b) (g_per <$> gs) r n →
     ∃ s', f s = Ok s' ∧ slot_ok w s' ∧ slot_active w s' d ∧ s_lora s' = s_lora s ∧ (slot_free s → slot_free s') ∧
       bare (is_pooling_model b) s' out (blocks_at gs i) (tags b id) = request_view (is_pooling_model b) (vocab_size b) (g_per <$> gs) r' n) →
  ∃ b' v', on_slot (Z.of_nat i) f b = Ok (tt, b') ∧ changed w b gs i id v' b' gs ∧ batch_shows b gs r' v'.
Proof.
  intros Hb Hc Hr Hs Hn Hf. destruct (shows_at w b gs i id v r n Hb Hc Hr Hs) as (s & d & out & Hl & Hsl & Hd & Ho & -> & Hok & Ha & Hv).
  destruct (Hf s d out Hok Ha Hv) as (s' & Ef & Hok' & Ha' & Hlo & Hfree & Hv').
  eexists _, (view (is_pooling_model b) s' d out (blocks_at gs i) (tags b id)). split; [by eapply on_slot_ok|]. split.
  - eapply touched_changed; [done| |exact Ho|reflexivity].
    pose proof (touch_slot w b gs i id s s' d (has_mask b) Hb Hl Hsl Hok' Ha' Hfree Hlo) as Ht.
    rewrite (list_insert_id (spec_token_ids b)) in Ht by done. by destruct b.
  - exists n. split; [done|]. rewrite bare_view by apply Ha'. done.
Qed.

Lemma cut_shows w b gs i id v r n (o : nat) : batch_ok w b gs → cell b gs i = Some (id, v) → tokens_fit w r n → batch_shows b gs r v →
  (o ≤ length (output_token_ids r))%nat →
  let r' := with_progress (num_computed_tokens r) (take o (output_token_ids r)) (block_ids r) r in
  ∃ b' v', on_slot (Z.of_nat i) (λ s, Ok (set_tokens (s_num_prompt_tokens s + Z.of_nat o) s)) b = Ok (tt, b') ∧
    changed w b gs i id v' b' gs ∧ batch_shows b gs r' v'.
Proof.
  intros Hb Hc Hr Hs Ho r'. apply (on_slot_shows w b gs i id v r r' n); try done; [apply Hr|]. intros s d out Hok Ha Hv.
  destruct (entry_cut w _ _ _ r n s d out _ _ Hr Hok Ha Hv o Ho) as (H1 & H2 & H3). eexists. split; [reflexivity|]. split_and!; done.
Qed.

Lemma computed_shows w b gs i id v r n c : batch_ok w b gs → cell b gs i = Some (id, v) → tokens_fit w r n → batch_shows b gs r v →
  let r' := with_progress c (output_token_ids r) (block_ids r) r in
  ∃ b' v', on_slot (Z.of_nat i) (λ s, Ok (set_computed c s)) b = Ok (tt, b') ∧ changed w b gs i id v' b' gs ∧ batch_shows b gs r' v'.
Proof.
  intros Hb Hc Hr Hs r'. apply (on_slot_shows w b gs i id v r r' n); try done; [apply Hr|]. intros s d out Hok Ha Hv.
  eexists. split; [reflexivity|]. split_and!; try done. by eapply entry_computed.
Qed.

Lemma extend_shows w b gs i id v r n toks s : batch_ok w b gs → cell b gs i = Some (id, v) → tokens_fit w r n → batch_shows b gs r v →
  slots b !! i = Some s → toks ≠ [] → forallb in_int32 toks = true → (n + length (output_token_ids r) + length toks ≤ w)%nat →
  let r' := with_progress (num_computed_tokens r) (output_token_ids r ++ toks) (block_ids r) r in
  ∃ b' v', on_slot (Z.of_nat i) (extend_tokens toks (s_num_tokens_no_spec s + zlen toks)) b = Ok (tt, b') ∧
    changed w b gs i id v' b' gs ∧ batch_shows b gs r' v'.
Proof.
  intros Hb Hc Hr Hs Hsl Hne Hi Hw r'. destruct (shows_at w b gs i id v r n Hb Hc Hr Hs) as (s0 & d0 & out0 & _ & E0 & _ & _ & _ & Hok0 & _ & Hv0).
  assert (s0 = s) as -> by congruence. destruct (bare_request _ _ _ _ _ _ _ _ _ _ Hr Hok0 Hv0) as (_ & _ & _ & -> & _).
  apply (on_slot_shows w b gs i id v r r' n); try done; [apply Hr|].
  intros s1 d out Hok Ha Hv. destruct (bare_request _ _ _ _ _ _ _ _ _ _ Hr Hok Hv) as (_ & _ & _ & B4 & _). rewrite <-B4.
  destruct (entry_extend w _ _ _ r n s1 d out _ _ Hr Hok Ha Hv toks Hne Hi Hw) as (s' & Q1 & Q2 & Q3 & Q4 & Q5 & Q6). eauto 10.
Qed.

Lemma expand_app per a b : expand per (a ++ b) = expand per a ++ expand per b.
Proof. unfold expand. apply bind_app. Qed.

Lemma blocks_at_append gs ids i k m : Forall (λ g, length (g_rows g) = m) gs → (i < m)%nat →
  blocks_at (groups_after (OAppend ids i) gs) k =
  if decide (k = i) then imap (λ j g, (g_rows g !!! i) ++ expand (g_per g) (ids !!! j)) gs else blocks_at gs k.
Proof.
  intros Hg Hi. unfold blocks_at, groups_after. rewrite fmap_imap. destruct (decide (k = i)) as [->|Hne].
  - apply imap_ext. intros j g Hj. simpl. rewrite list_lookup_total_insert_eq; [done|].
    pose proof (Forall_lookup_1 (λ g, length (g_rows g) = m) _ _ _ Hg Hj) as Hl. simpl in Hl. lia.
  - rewrite <-imap_const. apply imap_ext. intros j g _. simpl. by rewrite list_lookup_total_insert_ne.
Qed.

Lemma append_shows w b gs i id v r n new c : batch_ok w b gs → cell b gs i = Some (id, v) → tokens_fit w r n → batch_shows b gs r v →
  length new = length gs → length (block_ids r) = length gs →
  let r' := with_progress c (output_token_ids r) (zip_with app (block_ids r) new) r in
  c = num_computed_tokens r → request_wf w (shapes gs) (is_pooling_model b) (vocab_size b) r' n →
  ∃ b' v', let gs' := groups_after (OAppend new i) gs in on_table (multi_append_row new (Z.of_nat i)) b = Ok (tt, b') ∧
    changed w b gs i id v' b' gs' ∧ batch_shows b gs' r' v'.
Proof.
  intros Hb Hc Hr Hs Hl1 Hl2 r' -> Hwf. destruct (shows_at w b gs i id v r n Hb Hc Hr Hs) as (s & d & out & Hl & Hsl & Hd & Ho & -> & Hok & Ha & Hv).
  pose proof (bo_groups _ _ _ Hb) as Hrows. pose proof (lookup_lt_Some _ _ _ Hsl) as Hi.
  assert (blocks_at gs i = imap (λ k per, expand per (block_ids r !!! k)) (g_per <$> gs)) as Hbl by (by injection Hv).
  assert (∀ k g, gs !! k = Some g → g_rows g !!! i = expand (g_per g) (block_ids r !!! k) ∧
    block_ids r' !!! k = block_ids r !!! k ++ new !!! k) as Hk.
  { intros k g Hg. split.
    - apply (f_equal (lookup k)) in Hbl. unfold blocks_at in Hbl. rewrite list_lookup_fmap, list_lookup_imap, list_lookup_fmap, Hg in Hbl. by injection Hbl.
    - destruct (lookup_lt_is_Some_2 (block_ids r) k) as [x Hx]; [rewrite Hl2; by eapply lookup_lt_Some|].
      destruct (lookup_lt_is_Some_2 new k) as [y Hy]; [rewrite Hl1; by eapply lookup_lt_Some|].
      rewrite !(list_lookup_total_correct _ _ _ Hx), (list_lookup_total_correct _ _ _ Hy). apply list_lookup_total_correct.
      simpl. by rewrite lookup_zip_with, Hx, Hy. }
  destruct (on_table_ok (OAppend new i) b gs (bo_tables _ _ _ Hb)) as (ts & E & Hts).
  { apply groups_fit_all. intros k g Hg. destruct (Hk k g Hg) as [K1 K2]. simpl. rewrite K1.
    rewrite (Forall_lookup_1 (λ g, length (g_rows g) = length (slots b)) _ _ _ Hrows Hg).
    rewrite (proj2 (Nat.ltb_lt _ _) Hi), (proj2 (Nat.ltb_lt _ _)) by (rewrite Hl1; by eapply lookup_lt_Some). simpl.
    destruct (wf_blocks _ _ _ _ _ _ Hwf k (g_per g) (g_width g)) as [W1 W2]; [unfold shapes; by rewrite list_lookup_fmap, Hg|].
    rewrite K2, expand_app in W1, W2. rewrite zlen_app in W1. rewrite forallb_app in W2. apply andb_true_iff in W2 as [_ W2].
    unfold ids_fit. rewrite W2, andb_true_r. by apply Z.leb_le. }
  set (gs' := groups_after (OAppend new i) gs) in *.
  assert (blocks_at gs' i = imap (λ k per, expand per (block_ids r' !!! k)) (g_per <$> gs)) as Hbl'.
  { unfold gs'. rewrite (blocks_at_append gs new i i _ Hrows Hi), decide_True, imap_fmap by done. apply imap_ext. intros k g Hg. simpl.
    destruct (Hk k g Hg) as [-> Hk2]. simpl in Hk2. by rewrite Hk2, expand_app. }
  exists (set_table b ts), (view (is_pooling_model b) s d out (blocks_at gs' i) (tags b id)). simpl. split; [done|].
  assert (touched_at w b gs i id s s d (set_table b ts) gs') as Ht.
  { split; try done; simpl.
    - by rewrite list_insert_id.
    - by rewrite list_insert_id.
    - by apply groups_after_lengths.
    - apply shapes_after.
    - intros k Hne. unfold gs'. rewrite (blocks_at_append gs new i k _ Hrows Hi). by rewrite decide_False. }
  split; [by eapply touched_changed|]. exists n. split; [apply Hr|]. rewrite bare_view by apply Ha.
  rewrite (shapes_per gs gs') by apply shapes_after. unfold bare, request_view in *. rewrite Hbl'.
  injection Hv as E1 E2 E3 E4 E5 E6 E7 E8 E9 E10. by f_equal.
Qed.

(** ** A row of a running request *)

Lemma changed_refl w b gs i id v : batch_ok w b gs → cell b gs i = Some (id, v) → changed w b gs i id v b gs.
Proof.
  intros Hb Hc. unfold changed. split_and!; try done. intros k. unfold upd. destruct (decide (k = i)) as [->|]; done.
Qed.
Lemma changed_trans w b gs i id v1 b1 gs1 v2 b2 gs2 : changed w b gs i id v1 b1 gs1 → changed w b1 gs1 i id v2 b2 gs2 →
  changed w b gs i id v2 b2 gs2.
Proof.
  intros (A1 & A2 & A3 & A4 & A5 & A6 & A7 & A8) (B1 & B2 & B3 & B4 & B5 & B6 & B7 & B8). unfold changed, same_config in *.
  split_and!; try tauto; try congruence. intros k. rewrite B8. unfold upd. destruct (decide (k = i)); [done|].
  rewrite A8. unfold upd. by rewrite decide_False.
Qed.
Lemma changed_cell w b gs i id v b' gs' : changed w b gs i id v b' gs' → cell b' gs' i = Some (id, v).
Proof. intros (_ & _ & _ & _ & _ & _ & _ & Hc). rewrite Hc. unfold upd. by rewrite decide_True. Qed.
Lemma config_shows b gs b' gs' r v : same_config b b' → shapes gs' = shapes gs → batch_shows b gs r v ↔ batch_shows b' gs' r v.
Proof. intros C S. unfold same_config in C. injection C as -> _ ->. by rewrite (shapes_per gs gs' S). Qed.
Lemma changed_shows w b gs i id v b' gs' r v0 : changed w b gs i id v b' gs' → batch_shows b gs r v0 ↔ batch_shows b' gs' r v0.
Proof. intros (_ & _ & _ & Hc & _ & Hs & _). by apply config_shows. Qed.

(** The outputs and blocks after a step, on the last pipeline stage. *)
Definition kept_output (row : CachedRow) (r : CachedRequestState) : list Z :=
  if cw_output row <? zlen (output_token_ids r) then take (Z.to_nat (cw_output row)) (output_token_ids r) else output_token_ids r.
Definition more_blocks (row : CachedRow) (r : CachedRequestState) : list (list Z) :=
  match cw_blocks row with Some new => zip_with app (block_ids r) new | None => block_ids r end.

Lemma next_output_last d row r : 0 ≤ cw_output row → next_output true d row r = Ok (kept_output row r).
Proof.
  intros Ho. unfold next_output, kept_output. f_equal. destruct (Z.ltb_spec (cw_output row) (zlen (output_token_ids r))) as [Hl|]; [|done].
  unfold zlen in Hl. rewrite py_slice_pos by lia. by rewrite Z.sub_0_r, drop_0.
Qed.
Lemma next_blocks_kept inb row r m : length (block_ids r) = m → (∀ new, cw_blocks row = Some new → length new = m) →
  next_blocks false inb row r = Ok (more_blocks row r).
Proof.
  intros Hb Hn. unfold next_blocks, more_blocks. destruct (cw_blocks row) as [new|]; [|done]. specialize (Hn new eq_refl).
  rewrite drop_ge by lia. by rewrite app_nil_r.
Qed.

Lemma cut_row_shows w b gs i id v r n row : batch_ok w b gs → cell b gs i = Some (id, v) → tokens_fit w r n → batch_shows b gs r v →
  0 ≤ cw_output row → let r' := with_progress (num_computed_tokens r) (kept_output row r) (block_ids r) r in
  ∃ b' v', cut_row true row (output_token_ids r) (Z.of_nat i) b = Ok (tt, b') ∧ changed w b gs i id v' b' gs ∧ batch_shows b gs r' v' ∧
    tokens_fit w r' n.
Proof.
  intros Hb Hc Hr Hs Ho r'. unfold cut_row, r', kept_output. simpl. destruct (Z.ltb_spec (cw_output row) (zlen (output_token_ids r))) as [Hl|Hl].
  - unfold zlen in Hl. destruct (cut_shows w b gs i id v r n (Z.to_nat (cw_output row)) Hb Hc Hr Hs ltac:(lia)) as (b' & v' & E & Hch & Hs').
    rewrite Z2Nat.id in E by done. exists b', v'. split_and!; try done. apply tokens_fit_out; [done| |].
    + pose proof (tf_out _ _ _ Hr) as Hi. rewrite <-(take_drop (Z.to_nat (cw_output row)) (output_token_ids r)), forallb_app in Hi.
      by apply andb_true_iff in Hi as [? _].
    + pose proof (tf_fits _ _ _ Hr). rewrite length_take. lia.
  - exists b, v. split_and!; try done; [by apply changed_refl|]. destruct Hr. by split.
Qed.

(** The row after [cut_row] and [update_row] shows the request after the step. *)
Lemma update_row_shows w b gs i id v r n row drafts : batch_ok w b gs → cell b gs i = Some (id, v) → tokens_fit w r n →
  batch_shows b gs r v → 0 ≤ cw_output row → length (block_ids r) = length gs → (∀ new, cw_blocks row = Some new → length new = length gs) →
  let r' := with_progress (cw_computed row) (kept_output row r) (more_blocks row r) r in
  let ds := default [] (dict_get drafts id) in
  request_wf w (shapes gs) (is_pooling_model b) (vocab_size b) r' n → forallb in_int32 ds = true →
  (n + length (output_token_ids r') + length ds ≤ w)%nat →
  ∃ b1 b2 gs2, cut_row true row (output_token_ids r) (Z.of_nat i) b = Ok (tt, b1) ∧ req_id_to_index b1 = req_id_to_index b ∧
    update_row true id row drafts (Z.of_nat i) b1 = Ok (tt, b2) ∧
    changed w b gs i id (with_drafts ds (request_view (is_pooling_model b) (vocab_size b) (g_per <$> gs) r' n)) b2 gs2.
Proof.
  intros Hb Hc Hr Hs Ho Hl Hnew r' ds Hwf Hds Hfit.
  destruct (cut_row_shows w b gs i id v r n row Hb Hc Hr Hs Ho) as (b1 & v1 & E1 & C1 & S1 & T1).
  set (r1 := with_progress (num_computed_tokens r) (kept_output row r) (block_ids r) r) in *.
  destruct (computed_shows w b1 gs i id v1 r1 n (cw_computed row)) as (b2 & v2 & E2 & C2 & S2);
    [apply C1|by eapply changed_cell|done|by apply (changed_shows w b gs i id v1 b1 gs)|]. set (r2 := with_progress (cw_computed row) (output_token_ids r1) (block_ids r1) r1) in *.
  assert (tokens_fit w r2 n) as T2 by (destruct T1; by split). pose proof (changed_trans _ _ _ _ _ _ _ _ _ _ _ C1 C2) as C12.
  assert (batch_shows b gs r2 v2) as S2' by (by eapply (changed_shows w b gs i id v1 b1 gs)).
  assert (∃ b3 v3 gs3, (match cw_blocks row with Some new => on_table (multi_append_row new (Z.of_nat i)) | None => mret tt end) b2 = Ok (tt, b3) ∧
    changed w b gs i id v3 b3 gs3 ∧ batch_shows b gs r' v3) as (b3 & v3 & gs3 & E3 & C3 & S3).
  { unfold r', more_blocks in *. destruct (cw_blocks row) as [new|] eqn:En; [|exists b2, v2, gs; by split_and!].
    pose proof C12 as (H1 & _ & _ & H4 & _ & H6 & _). unfold same_config in H4. injection H4 as D1 _ D3.
    destruct (append_shows w b2 gs i id v2 r2 n new (cw_computed row)) as (b3 & v3 & E3 & C3 & S3); try done.
    - by eapply changed_cell.
    - by apply (changed_shows w b gs i id v2 b2 gs).
    - by apply Hnew.
    - rewrite D1, D3. exact Hwf.
    - eexists b3, v3, _. split; [exact E3|]. pose proof (changed_trans _ _ _ _ _ _ _ _ _ _ _ C12 C3) as C123. split; [exact C123|].
      unfold r2, r1 in S3. rewrite D1, D3, (shapes_per gs _ (shapes_after _ gs)) in S3. exact S3. }
  pose proof (wf_tokens _ _ _ _ _ _ Hwf) as Tr'. destruct (shows_num _ _ _ _ _ _ _ Tr' S3) as (N1 & _ & _).
  destruct (update_drafts_ok w b3 gs3 i id v3 drafts) as (b4 & E4 & C4); [apply C3|by eapply changed_cell| |].
  { split; [done|]. rewrite N1. unfold zlen. fold ds. lia. }
  exists b1, b4, gs3. split; [exact E1|]. split; [by destruct C1 as (_ & _ & _ & _ & _ & _ & [= _ ?] & _)|]. split.
  - unfold update_row. rewrite (bind_ok _ _ _ _ _ E2), (bind_ok _ _ _ _ _ E3). mstep. by rewrite (bind_ok _ _ _ _ _ E4).
  - destruct (shows_drafts _ _ _ _ _ _ _ ds Tr' S3) as [<- _]. by eapply changed_trans.
Qed.
End safe.
