(* ===== verification/ModelRunnerTrace.v ===== *)
(** * The model runner from step to step *)

From Stdlib Require Import ZArith Lia.
From stdpp Require Import list numbers gmap strings sorting.
From S2P Require Import Prelude MathUtils BlockTable BatchUpdate InputBatch InputBatchSafe InputBatchStep InputBatchTouch.
From S2P Require Import ReorderBatch ModelRunner ModelRunnerSafe.
Local Open Scope Z_scope.

Section trace.
Context `{Float}.

(** ** The invariant *)

(** The requests known to the runner fit, and those in the batch are shown by it. *)
Record coherent (w : nat) (reqs : list (string * CachedRequestState)) (b : InputBatch) (gs : list group) : Prop := {
  ch_batch : batch_ok w b gs;
  ch_lora : lora_ok b gs;
  ch_keys : NoDup reqs.*1;
  ch_wf : ∀ id r, dict_get reqs id = Some r → req_id r = id ∧ ∃ n, request_wf w (shapes gs) (is_pooling_model b) (vocab_size b) r n;
  ch_shows : ∀ i id v, cell b gs i = Some (id, v) → ∃ r, dict_get reqs id = Some r ∧ shows (is_pooling_model b) (vocab_size b) (g_per <$> gs) r v;
}.

(** What a logits processor keeps for a request. *)
Definition proc_state {T} (f : added_info → option T) (reqs : list (string * CachedRequestState)) (id : string) : option T :=
  r ← dict_get reqs id; sp ← sampling_params r; f (sp, prompt_token_ids r, out_ref r).

(** A logits processor keeps its states in a map by index; [E] is the map before the step. *)
Context {T : Type} (f : added_info → option T) (E : gmap Z T).
Context (drafts : list (string * list Z)).

Definition drafts_of (id : string) : list Z := default [] (dict_get drafts id).

(** The state while a step changes the batch. The requests of [S] have their drafts. *)
Record mid (w : nat) (S : string → Prop) (reqs : list (string * CachedRequestState)) (b : InputBatch) (gs : list group) : Prop := {
  md_coherent : coherent w reqs b gs;
  md_holes : holes_ok b;
  md_moved : moved (bu b) = [];
  md_tracks : is_pooling_model b = false →
    tracks (proc_state f reqs) (cell b gs) (λ z, z ∈ _removed (bu b)) (foldl (process_added f) (E, false) (added (bu b))).1;
  md_drafts : ∀ i id v, cell b gs i = Some (id, v) → S id → v = with_drafts (drafts_of id) v;
}.

(** The batch was changed, its configuration was not. *)
Definition same_setup (b : InputBatch) (gs : list group) (b' : InputBatch) (gs' : list group) : Prop :=
  same_config b b' ∧ shapes gs' = shapes gs.
Lemma same_setup_trans b gs b1 gs1 b2 gs2 : same_setup b gs b1 gs1 → same_setup b1 gs1 b2 gs2 → same_setup b gs b2 gs2.
Proof. unfold same_setup, same_config. intros [H1 H2] [H3 H4]. split; congruence. Qed.

Lemma setup_wf w b gs b' gs' r n : same_setup b gs b' gs' → request_wf w (shapes gs) (is_pooling_model b) (vocab_size b) r n →
  request_wf w (shapes gs') (is_pooling_model b') (vocab_size b') r n.
Proof. intros [Hc Hs]. unfold same_config in Hc. injection Hc as -> _ ->. by rewrite Hs. Qed.

(** Coherence after a change of the cells. *)
Lemma coherent_after w reqs reqs' b gs b' gs' : coherent w reqs b gs → same_setup b gs b' gs' → batch_ok w b' gs' → lora_ok b' gs' →
  NoDup reqs'.*1 →
  (∀ id r, dict_get reqs' id = Some r → dict_get reqs id = Some r ∨
     req_id r = id ∧ ∃ n, request_wf w (shapes gs) (is_pooling_model b) (vocab_size b) r n) →
  (∀ i id v, cell b' gs' i = Some (id, v) →
     cell b gs i = Some (id, v) ∧ dict_get reqs' id = dict_get reqs id ∨
     ∃ r, dict_get reqs' id = Some r ∧ shows (is_pooling_model b) (vocab_size b) (g_per <$> gs) r v) →
  coherent w reqs' b' gs'.
Proof.
  intros [] Hs Hb Hl Hk Hr Hc. pose proof Hs as [Hc1 Hc2]. split; try done.
  - intros id r Hid. assert (req_id r = id ∧ ∃ n, request_wf w (shapes gs) (is_pooling_model b) (vocab_size b) r n) as (H1 & n & H2).
    { destruct (Hr id r Hid) as [?|?]; [by apply ch_wf0|done]. }
    split; [done|]. exists n. by eapply setup_wf.
  - intros i id v Hi. assert (∃ r, dict_get reqs' id = Some r ∧ shows (is_pooling_model b) (vocab_size b) (g_per <$> gs) r v) as (r & H1 & H2).
    { destruct (Hc i id v Hi) as [[H1 H2]|?]; [|done]. rewrite H2. by eapply ch_shows0. }
    exists r. split; [done|]. by apply (config_shows b gs).
Qed.

Lemma tracks_st (st st' : string → option T) c R E0 : (∀ i id v, c i = Some (id, v) → st' id = st id) → tracks st c R E0 → tracks st' c R E0.
Proof. intros Hst [H1 H2]. split; [|done]. intros i id v Hi. rewrite (Hst i id v Hi). eauto. Qed.

(** ** Removing *)

Lemma tracks_drop (st : string → option T) c (R R' : Z → Prop) E0 i : (∀ z, R z → R' z) → R' (Z.of_nat i) → tracks st c R E0 → tracks st (upd c i None) R' E0.
Proof.
  intros HR Hi [H1 H2]. split.
  - intros k id v. unfold upd. destruct (decide (k = i)); [done|]. apply H1.
  - intros z [(k & -> & Hk)|Hz]%H2; [|auto]. destruct (decide (k = i)) as [->|Hne]; [auto|].
    left. exists k. unfold upd. by rewrite decide_False.
Qed.

Lemma remove_mid w S reqs b gs id : mid w S reqs b gs → _is_removed_sorted (bu b) = false →
  ∃ o b' gs', remove_request id b = Ok (o, b') ∧ mid w S reqs b' gs' ∧ _is_removed_sorted (bu b') = false ∧ same_setup b gs b' gs' ∧
    ∀ i x, live b' i x ↔ live b i x ∧ x ≠ id.
Proof.
  intros [Hc Hh Hm Ht Hd] Hu. pose proof (ch_batch _ _ _ _ Hc) as Hb. pose proof (ch_lora _ _ _ _ Hc) as Hlo.
  destruct (dict_get (req_id_to_index b) id) as [z|] eqn:Ez.
  - apply (bo_index _ _ _ Hb) in Ez as (i & _ & Hl). destruct (remove_request_eval w b gs id i Hb Hlo Hu Hl) as (s & s' & b' & E0 & Hr).
    pose proof (removed_cells w b gs id i s s' b' Hb Hr) as Hcell. pose proof (gone_live w b gs id i s s' b' Hr) as HL.
    destruct (ra_builder _ _ _ _ _ _ _ _ Hr) as (U1 & U2 & U3 & U4).
    assert (same_setup b gs b' (groups_after (OClear i) gs)) as Hset by (split; [apply Hr|apply shapes_after]).
    assert (∀ k x v, cell b' (groups_after (OClear i) gs) k = Some (x, v) → cell b gs k = Some (x, v)) as Hsub.
    { intros k x v. rewrite Hcell. unfold upd. by destruct (decide (k = i)). }
    eexists _, b', _. split; [exact E0|]. split_and!; try done; [|].
    + split; [| |congruence| |].
      * eapply coherent_after; [done|done|by eapply removed_ok|by eapply removed_lora|apply Hc|auto|]. intros k x v Hk. left. auto.
      * by eapply removed_holes.
      * intros Hp. destruct Hset as [Hcfg _]. unfold same_config in Hcfg. injection Hcfg as Ep _ _. rewrite Ep in Hp. rewrite U3.
        eapply tracks_impl; [exact Hcell|intros y Hy; exact Hy|]. eapply tracks_drop; [| |by apply Ht]; rewrite U1; set_solver.
      * intros k x v Hk. eauto.
    + intros k x. rewrite HL. split; [intros [Hk Hx]; split; [done|]; intros ->; apply Hk; by eapply live_inj|].
      intros [Hx Hne]. split; [|done]. intros ->. unfold live in *. congruence.
  - exists None, b, gs. unfold remove_request. mstep. rewrite Ez. split_and!; try done. intros i x. split; [|tauto]. intros Hl. split; [done|].
    intros ->. assert (dict_get (req_id_to_index b) id = Some (Z.of_nat i)) by (apply (bo_index _ _ _ Hb); eauto). congruence.
Qed.

Lemma remove_all_mid w S reqs mr gs l : mid w S reqs (input_batch mr) gs → _is_removed_sorted (bu (input_batch mr)) = false →
  ∃ b' gs', forM l (λ id, on_batch (remove_request id);; mret tt) mr = Ok (tt, set_batch b' mr) ∧ mid w S reqs b' gs' ∧
    _is_removed_sorted (bu b') = false ∧ same_setup (input_batch mr) gs b' gs' ∧ ∀ i x, live b' i x ↔ live (input_batch mr) i x ∧ x ∉ l.
Proof.
  revert mr gs. induction l as [|id l IH]; intros mr gs Hm Hu.
  - exists (input_batch mr), gs. split_and!; try done; [by destruct mr|]. intros i x. rewrite elem_of_nil. tauto.
  - destruct (remove_mid w S reqs _ gs id Hm Hu) as (o & b1 & gs1 & E1 & M1 & U1 & S1 & L1).
    destruct (IH (set_batch b1 mr) gs1 M1 U1) as (b' & gs' & E2 & M2 & U2 & S2 & L2).
    exists b', gs'. split_and!; try done; [|by eapply same_setup_trans|].
    + simpl. rewrite (bind_ok _ _ _ tt (set_batch b1 mr)); [exact E2|]. rewrite (bind_ok _ _ _ o (set_batch b1 mr)); [done|].
      unfold on_batch, zoom. by rewrite E1.
    + intros i x. rewrite L2. simpl. rewrite L1, elem_of_cons. tauto.
Qed.

(** ** Requests out of the batch *)

Lemma dict_del_all (reqs : list (string * CachedRequestState)) l : NoDup reqs.*1 → NoDup (foldl dict_del reqs l).*1 ∧
  ∀ id, dict_get (foldl dict_del reqs l) id = if decide (id ∈ l) then None else dict_get reqs id.
Proof.
  revert reqs. induction l as [|x l IH]; intros reqs Hn; [done|]. simpl.
  destruct (IH (dict_del reqs x) (dict_del_nodup _ _ Hn)) as [H1 H2]. split; [done|]. intros id. rewrite H2, dict_get_del by done.
  destruct (decide (id ∈ l)); [by rewrite decide_True by (by right)|]. destruct (decide (id = x)) as [->|]; [by rewrite decide_True by left|].
  rewrite decide_False; [done|]. by rewrite elem_of_cons; intros [?|?].
Qed.

(** The requests may change as long as those in the batch do not. *)
Lemma mid_requests w S reqs reqs' b gs : mid w S reqs b gs → NoDup reqs'.*1 →
  (∀ id r, dict_get reqs' id = Some r → dict_get reqs id = Some r ∨
     req_id r = id ∧ ∃ n, request_wf w (shapes gs) (is_pooling_model b) (vocab_size b) r n) →
  (∀ i id, live b i id → dict_get reqs' id = dict_get reqs id) → mid w S reqs' b gs.
Proof.
  intros [Hc Hh Hm Ht Hd] Hk Hr Hl. split; try done.
  - eapply coherent_after; [exact Hc|done|apply Hc|apply Hc|done|done|]. intros i id v Hi. left. split; [done|]. by eapply Hl, cell_live.
  - intros Hp. eapply tracks_st; [|by apply Ht]. intros i id v Hi. unfold proc_state. by rewrite (Hl i id (cell_live _ _ _ _ _ Hi)).
Qed.

Lemma mid_forget w S reqs b gs l : mid w S reqs b gs → (∀ i id, live b i id → id ∉ l) → mid w S (foldl dict_del reqs l) b gs.
Proof.
  intros Hm Hl. destruct (dict_del_all reqs l (ch_keys _ _ _ _ (md_coherent _ _ _ _ _ Hm))) as [H1 H2].
  eapply mid_requests; [done|done| |].
  - intros id r. rewrite H2. destruct (decide (id ∈ l)); [done|auto].
  - intros i id Hi. rewrite H2, decide_False; [done|]. by eapply Hl.
Qed.

Lemma mid_put w S reqs b gs id r n : mid w S reqs b gs → (∀ i, ¬ live b i id) → req_id r = id →
  request_wf w (shapes gs) (is_pooling_model b) (vocab_size b) r n → mid w S (dict_set reqs id r) b gs.
Proof.
  intros Hm Hl Hid Hwf. eapply mid_requests; [done|apply dict_set_nodup, Hm| |].
  - intros x y. rewrite dict_get_set. destruct (decide (x = id)) as [->|]; [|auto]. intros [= <-]. right. eauto.
  - intros i x Hx. rewrite dict_get_set, decide_False; [done|]. intros ->. by apply (Hl i).
Qed.

(** ** Running requests *)

(** What a logits processor is told of a request does not depend on its progress. *)
Lemma proc_progress reqs id r c o bs x : dict_get reqs id = Some r →
  proc_state f (dict_set reqs id (with_progress c o bs r)) x = proc_state f reqs x.
Proof.
  intros Hr. unfold proc_state. rewrite dict_get_set. destruct (decide (x = id)) as [->|]; [|done]. by rewrite Hr.
Qed.

Lemma upd_ids c (j : nat) id (v v' : View) : c j = Some (id, v) →
  (∀ (st : string → option T) R E0, tracks st c R E0 → tracks st (upd c j (Some (id, v'))) R E0).
Proof.
  intros Hj st R E0 [H1 H2]. unfold upd. split.
  - intros i x y. destruct (decide (i = j)) as [->|]; [|apply H1]. intros [= <- <-]. by eapply H1.
  - intros z [(i & -> & Hi)|?]%H2; [|auto]. left. exists i. split; [done|]. by destruct (decide (i = j)).
Qed.

Lemma mid_progress w (S S' : string → Prop) reqs b gs i id v v' r n c o bs b' gs' : mid w S reqs b gs → cell b gs i = Some (id, v) → dict_get reqs id = Some r →
  let r' := with_progress c o bs r in request_wf w (shapes gs) (is_pooling_model b) (vocab_size b) r' n →
  changed w b gs i id v' b' gs' → shows (is_pooling_model b) (vocab_size b) (g_per <$> gs) r' v' →
  (∀ x, S' x → x ≠ id → S x) → (S' id → v' = with_drafts (drafts_of id) v') → mid w S' (dict_set reqs id r') b' gs' ∧ same_setup b gs b' gs'.
Proof.
  intros [Hc Hh Hm Ht Hd] Hi Hr r' Hwf (C1 & C2 & C3 & C4 & C5 & C6 & C7 & C8) Hs HS Hv.
  pose proof (ch_batch _ _ _ _ Hc) as Hb. pose proof C4 as C4'. unfold same_config in C4'. injection C4' as D1 D2 D3.
  assert (∀ k x y, cell b gs k = Some (x, y) → k ≠ i → x ≠ id) as Hne.
  { intros k x y Hk Hki ->. apply Hki. eapply (live_inj w b gs); [done|by eapply cell_live|by eapply cell_live]. }
  split; [|done]. split.
  - eapply coherent_after; [exact Hc|done|done|by apply C2, Hc|apply dict_set_nodup, Hc| |].
    + intros x y. rewrite dict_get_set. destruct (decide (x = id)) as [->|]; [|auto]. intros [= <-]. right. split; [|eauto].
      destruct (ch_wf _ _ _ _ Hc id r Hr) as [? _]. done.
    + intros k x y. rewrite C8. unfold upd. destruct (decide (k = i)) as [->|Hk].
      * intros [= <- <-]. right. exists r'. by rewrite dict_get_set, decide_True.
      * intros Hk'. left. split; [done|]. rewrite dict_get_set, decide_False; [done|]. eauto.
  - auto.
  - congruence.
  - intros Hp. rewrite D1 in Hp. rewrite C5. eapply tracks_impl; [exact C8|intros z Hz; exact Hz|].
    eapply upd_ids; [done|]. eapply tracks_st; [|by apply Ht]. intros k x y _. by apply proc_progress.
  - intros k x y. rewrite C8. unfold upd. destruct (decide (k = i)) as [->|Hk]; [intros [= <- <-]; done|].
    intros Hk' HS'. apply (Hd k); [done|]. apply HS; [done|]. eauto.
Qed.

(** ** Adding *)

Lemma tracks_enter (st : string → option T) c (R R' : Z → Prop) E0 u j id v info : st id = f info → c j = None →
  (∀ z, R z → z ≠ Z.of_nat j → R' z) → tracks st c R E0 →
  tracks st (upd c j (Some (id, v))) R' (process_added f (E0, u) (Z.of_nat j, info)).1.
Proof.
  intros Hst Hj HR [H1 H2].
  assert (∀ z, (process_added f (E0, u) (Z.of_nat j, info)).1 !! z = if decide (z = Z.of_nat j) then f info else E0 !! z) as Hz.
  { intros z. unfold process_added. simpl. destruct (f info), (decide (z = Z.of_nat j)) as [->|]; simpl; by simplify_map_eq. }
  split; unfold upd.
  - intros i x y. rewrite Hz. destruct (decide (i = j)) as [->|Hi].
    + intros [= <- <-]. by rewrite decide_True.
    + rewrite decide_False by lia. apply H1.
  - intros z. rewrite Hz. destruct (decide (z = Z.of_nat j)) as [->|Hne].
    + intros _. left. exists j. by rewrite decide_True.
    + intros [(i & -> & Hi)|?]%H2; [|auto]. left. exists i. rewrite decide_False; [done|]. intros ->. done.
Qed.

Lemma add_mid w S reqs b gs id r n : mid w S reqs b gs → dict_get reqs id = Some r → (∀ i, ¬ live b i id) → num_reqs b < max_num_reqs b →
  request_wf w (shapes gs) (is_pooling_model b) (vocab_size b) r n → forallb in_int32 (drafts_of id) = true →
  (n + length (output_token_ids r) + length (drafts_of id) ≤ w)%nat →
  ∃ o b1 k b' gs', add_request r b = Ok (o, b1) ∧ update_req_spec_token_ids id drafts b1 = Ok (k, b') ∧
    mid w (λ x, S x ∨ x = id) reqs b' gs' ∧ same_setup b gs b' gs' ∧ ∀ x, (∃ i, live b' i x) ↔ (∃ i, live b i x) ∨ x = id.
Proof.
  intros [Hc Hh Hm Ht Hd] Hr Hnl Hcap Hwf Hd32 Hfit. pose proof (ch_batch _ _ _ _ Hc) as Hb. destruct (ch_wf _ _ _ _ Hc id r Hr) as [Hid _].
  assert (∀ i, ¬ live b i (req_id r)) as Hnl' by (by rewrite Hid). pose proof (wf_request_ok w b gs r n Hwf) as Hok.
  destruct (add_request_eval w b gs r n Hb Hh Hcap Hok Hnl') as (j & s' & b1 & E1 & Ha).
  pose proof (added_cells w b gs r n j s' b1 Hb Hnl' Ha) as Hcell. set (gs1 := groups_after (OAdd (block_ids r) j) gs) in *.
  set (rv := request_view (is_pooling_model b) (vocab_size b) (g_per <$> gs) r n) in *. rewrite Hid in Hcell.
  pose proof (added_ok w b gs r n j s' b1 Hb (ro_kind _ _ _ _ _ Hok) Hnl' Ha) as Hb1. fold gs1 in Hb1.
  assert (same_config b b1) as Hcfg by apply Ha. pose proof Hcfg as Hcfg'. unfold same_config in Hcfg'. injection Hcfg' as D1 D2 D3.
  assert (cell b1 gs1 j = Some (id, rv)) as Hj by (rewrite Hcell; unfold upd; by rewrite decide_True).
  destruct (update_drafts_ok w b1 gs1 j id rv drafts Hb1 Hj) as (b2 & E2 & C1 & C2 & C3 & C4 & C5 & C6 & C7 & C8).
  { split; [done|]. simpl. unfold zlen. fold (drafts_of id). lia. }
  fold (drafts_of id) in E2, C8.
  assert (same_setup b gs b2 gs1) as Hset.
  { split; [unfold same_config in *; congruence|]. apply shapes_after. }
  assert (∀ i, cell b2 gs1 i = upd (cell b gs) j (Some (id, with_drafts (drafts_of id) rv)) i) as Hfin.
  { intros i. rewrite C8. unfold upd at 1 2. destruct (decide (i = j)); [done|]. rewrite Hcell. unfold upd. by rewrite decide_False. }
  assert (cell b gs j = None) as Hjn by (apply cell_none, Ha). pose proof (wf_tokens _ _ _ _ _ _ Hwf) as Htok.
  assert (shows (is_pooling_model b) (vocab_size b) (g_per <$> gs) r rv) as Hsh by (by eapply request_view_shows).
  destruct (shows_drafts w _ _ _ r n rv (drafts_of id) Htok Hsh) as [_ Hsh'].
  exists (Z.of_nat j), b1, (zlen (drafts_of id)), b2, gs1. split_and!; try done.
  - split.
    + eapply coherent_after; [exact Hc|exact Hset|done| |apply Hc|auto|].
      * apply C2. eapply added_lora; try done; [apply Hok|apply Hwf|apply Hc].
      * intros i x v. rewrite Hfin. unfold upd. destruct (decide (i = j)); [intros [= <- <-]; right; eauto|auto].
    + apply C3. apply (added_holes w b gs r n j s' b1); try done; apply Hok.
    + rewrite C5, (aa_moved _ _ _ _ _ _ _ _ Ha). done.
    + intros Hp. assert (is_pooling_model b = false) as Hpb by (destruct Hset as [Hx _]; unfold same_config in Hx; congruence).
      rewrite C5, (aa_added _ _ _ _ _ _ _ _ Ha). pose proof (wf_kind _ _ _ _ _ _ Hwf) as Hk. rewrite Hpb in Hk. destruct Hk as (sp & Hsp & _). rewrite Hsp.
      rewrite foldl_app. simpl foldl. destruct (foldl (process_added f) (E, false) (added (bu b))) as [E1' u] eqn:EE.
      eapply tracks_impl; [exact Hfin|intros z Hz; exact Hz|]. pose proof (Ht Hpb) as Ht0. simpl in Ht0.
      eapply tracks_enter; [|done| |exact Ht0].
      * unfold proc_state. rewrite Hr. simpl. by rewrite Hsp.
      * intros z Hz Hne. cbv beta in Hz. rewrite <-(aa_removed _ _ _ _ _ _ _ _ Ha), elem_of_app in Hz. destruct Hz as [?|Hz]; [done|].
        destruct (decide _); [by apply elem_of_nil in Hz|]. by apply list_elem_of_singleton in Hz.
    + intros i x v. rewrite Hfin. unfold upd. destruct (decide (i = j)).
      * intros [= <- <-] _. by eapply request_view_drafts.
      * intros Hi [HS|Hx]; [eauto|]. subst x. apply cell_live in Hi. by destruct (Hnl i).
  - injection C7 as C7 _. intros x. unfold live at 1. rewrite C7. split.
    + intros [i Hi]. apply (added_live w b gs r n j s' b1 Ha) in Hi as [[_ ->]|[_ Hi]]; [auto|eauto].
    + intros [[i Hi]| ->].
      * exists i. apply (added_live w b gs r n j s' b1 Ha). right. split; [|done]. intros ->. by apply (aa_free _ _ _ _ _ _ _ _ Ha x).
      * exists j. apply (added_live w b gs r n j s' b1 Ha). auto.
Qed.
End trace.
