(* ===== verification/ModelRunnerStep.v ===== *)
(** * [_update_states] follows the scheduler

    What the scheduler promises the runner, and the loops of [_update_states] under that
    promise. *)

From Stdlib Require Import ZArith Lia.
From stdpp Require Import list numbers gmap strings sorting.
From S2P Require Import Prelude MathUtils BlockTable BatchUpdate InputBatch InputBatchSafe InputBatchStep InputBatchTouch.
From S2P Require Import ReorderBatch ModelRunner ModelRunnerSafe ModelRunnerTrace.
Local Open Scope Z_scope.

Section step.
Context `{Float}.
Context (set_order : gset string → list string) (get_pooling_updates : PoolingParams → result PoolingParams).
Context (num_kv_cache_groups : Z) (reorder_batch_threshold : option Z).

(** ** What the scheduler promises *)

Definition table_shapes (b : InputBatch) : list (Z * Z) := (λ t, (blocks_per_kv_block t, bt_max_num_blocks_per_req t)) <$> block_table b.

Lemma shapes_tables w b gs : batch_ok w b gs → shapes gs = table_shapes b.
Proof.
  intros [_ _ _ _ _ Ht _ _ _ _ _ _ _ _ _ _]. unfold shapes, table_shapes. induction Ht as [|t g ts gs' [] _ IH]; [done|].
  csimpl. f_equal; [congruence|done].
Qed.

(** A request fits in the batch, with the drafts it is scheduled with. *)
Definition fits (w : nat) (b : InputBatch) (drafts : list (string * list Z)) (r : CachedRequestState) : Prop :=
  ∃ n, request_wf w (table_shapes b) (is_pooling_model b) (vocab_size b) r n ∧ forallb in_int32 (drafts_of drafts (req_id r)) = true ∧
    (n + length (output_token_ids r) + length (drafts_of drafts (req_id r)) ≤ w)%nat.

Lemma fits_setup w b gs b' gs' drafts r : batch_ok w b gs → batch_ok w b' gs' → same_setup b gs b' gs' → fits w b drafts r → fits w b' drafts r.
Proof.
  intros Hb Hb' Hs (n & Hwf & Hd). exists n. split; [|done]. rewrite <-(shapes_tables w b gs Hb) in Hwf. rewrite <-(shapes_tables w b' gs' Hb').
  by eapply setup_wf.
Qed.

(** The state of a request after the step, on the last pipeline stage. *)
Definition after_blocks (resumed : bool) (row : CachedRow) (r : CachedRequestState) : list (list Z) :=
  if resumed then default [] (cw_blocks row) else more_blocks row r.
Definition after_step (resumed : bool) (row : CachedRow) (r : CachedRequestState) : CachedRequestState :=
  with_progress (cw_computed row) (kept_output row r) (after_blocks resumed row r) r.

(** A new request, or the next input of a session. *)
Definition new_ok (w : nat) (b : InputBatch) (drafts : list (string * list Z)) (reqs : list (string * CachedRequestState)) (d : NewRequestData) : Prop :=
  match dict_get reqs (nd_req_id d) with
  | Some r => fits w b drafts (streaming_state d r)
  | None => ∀ object, ∃ r, new_state get_pooling_updates (is_pooling_model b) d object = Ok r ∧ fits w b drafts r
  end.
(** A running or resumed request. *)
Definition cached_ok (w : nat) (b : InputBatch) (drafts : list (string * list Z)) (d : CachedRequestData)
    (reqs : list (string * CachedRequestState)) (i : nat) (id : string) : Prop :=
  ∃ r row, dict_get reqs id = Some r ∧ cached_row true d i = Ok row ∧ 0 ≤ cw_output row ∧
    (∀ new, cw_blocks row = Some new → length new = length (block_table b)) ∧
    (id ∈ cd_resumed_req_ids d → is_Some (cw_blocks row)) ∧
    fits w b drafts (after_step (bool_decide (id ∈ cd_resumed_req_ids d)) row r).

(** What a request becomes: the states that the entries of the scheduler output call for. *)
Definition new_becomes (pooling : bool) (reqs : list (string * CachedRequestState)) (d : NewRequestData) (r : CachedRequestState) : Prop :=
  match dict_get reqs (nd_req_id d) with
  | Some r0 => r = streaming_state d r0
  | None => ∃ object, new_state get_pooling_updates pooling d object = Ok r
  end.
Definition cached_becomes (d : CachedRequestData) (reqs : list (string * CachedRequestState)) (i : nat) (id : string) (r : CachedRequestState) : Prop :=
  ∃ r0 row, dict_get reqs id = Some r0 ∧ cached_row true d i = Ok row ∧
    r = after_step (bool_decide (id ∈ cd_resumed_req_ids d)) row r0.

Record schedule_ok (w : nat) (mr : ModelRunner) (so : SchedulerOutput) : Prop := {
  sc_nodup : NoDup ((nd_req_id <$> scheduled_new_reqs so) ++ cd_req_ids (scheduled_cached_reqs so));
  sc_new : ∀ d, d ∈ scheduled_new_reqs so →
    new_ok w (input_batch mr) (scheduled_spec_decode_tokens so) (requests (forget_finished set_order so mr)) d;
  sc_cached : ∀ i id, cd_req_ids (scheduled_cached_reqs so) !! i = Some id →
    cached_ok w (input_batch mr) (scheduled_spec_decode_tokens so) (scheduled_cached_reqs so) (requests (forget_finished set_order so mr)) i id;
  sc_tokens : ∀ id, id ∈ (num_scheduled_tokens so).*1 ↔ id ∈ (nd_req_id <$> scheduled_new_reqs so) ++ cd_req_ids (scheduled_cached_reqs so);
  sc_capacity : zlen ((nd_req_id <$> scheduled_new_reqs so) ++ cd_req_ids (scheduled_cached_reqs so)) ≤ max_num_reqs (input_batch mr);
}.

(** ** The loops *)

Context {T : Type} (f : added_info → option T) (E : gmap Z T) (drafts : list (string * list Z)) (w : nat).
Abbreviation mid := (mid f E drafts w).

Lemma mid_batch S reqs b gs : mid S reqs b gs → batch_ok w b gs.
Proof. intros Hm. apply Hm. Qed.
Lemma mid_known S reqs b gs i id : mid S reqs b gs → live b i id → is_Some (dict_get reqs id).
Proof.
  intros Hm Hl. pose proof (mid_batch _ _ _ _ Hm) as Hb. destruct (live_slot w b gs i id Hb Hl) as (s & d & o & Q1 & Q2 & Q3).
  destruct (ch_shows _ _ _ _ (md_coherent _ _ _ _ _ _ _ _ Hm) i id _ (cell_eq b gs i id s d o Hl Q1 Q2 Q3)) as (r & Hr & _). eauto.
Qed.
Lemma fits_wf b gs r : batch_ok w b gs → fits w b drafts r → ∃ n, request_wf w (shapes gs) (is_pooling_model b) (vocab_size b) r n ∧
  forallb in_int32 (drafts_of drafts (req_id r)) = true ∧ (n + length (output_token_ids r) + length (drafts_of drafts (req_id r)) ≤ w)%nat.
Proof. intros Hb (n & Hwf & Hd). exists n. by rewrite (shapes_tables w b gs Hb). Qed.

(** The requests outside [ids] are what they were, those of [ids] fit and are what [P] says. *)
Definition follows (ids : list string) (P : string → CachedRequestState → Prop) (b : InputBatch) (reqs reqs' : list (string * CachedRequestState)) : Prop :=
  (∀ id, id ∉ ids → dict_get reqs' id = dict_get reqs id) ∧ ∀ id, id ∈ ids → ∃ r, dict_get reqs' id = Some r ∧ fits w b drafts r ∧ P id r.

Lemma follows_cons id ids (P P' : string → CachedRequestState → Prop) b gs b' gs' reqs reqs1 reqs' r : batch_ok w b gs → batch_ok w b' gs' →
  same_setup b gs b' gs' → id ∉ ids → reqs1 = dict_set reqs id r → fits w b drafts r → P id r → (∀ x r', x ∈ ids → P' x r' → P x r') →
  follows ids P' b' reqs1 reqs' → follows (id :: ids) P b reqs reqs'.
Proof.
  intros Hb Hb' [Sa Sb] Hid -> Hf HP HPP [F1 F2]. split.
  - intros x Hx. rewrite elem_of_cons in Hx. by rewrite F1, dict_get_set, decide_False by tauto.
  - intros x Hx. apply elem_of_cons in Hx as [->|Hx]; [exists r; by rewrite F1, dict_get_set, decide_True|].
    destruct (F2 x Hx) as (r' & Hr' & Hf' & HP'). exists r'. split; [done|]. split; [|auto].
    assert (same_setup b' gs' b gs) as Hs' by (split; [unfold same_config in *; congruence|done]). by eapply (fits_setup w b' gs' b gs).
Qed.

Lemma on_batch_ok {X} (m : M InputBatch X) mr x b : m (input_batch mr) = Ok (x, b) → on_batch m mr = Ok (x, set_batch b mr).
Proof. intros Hm. unfold on_batch, zoom. by rewrite Hm. Qed.
Lemma get_request_ok id mr r : dict_get (requests mr) id = Some r → get_request id mr = Ok (r, mr).
Proof. intros Hr. unfold get_request. mstep. by rewrite Hr. Qed.

(** A new request. *)
Lemma add_new_mid S mr gs d : mid S (requests mr) (input_batch mr) gs → _is_removed_sorted (bu (input_batch mr)) = false →
  new_ok w (input_batch mr) drafts (requests mr) d →
  ∃ mr' gs', add_new_request get_pooling_updates d mr = Ok (tt, mr') ∧ mid S (requests mr') (input_batch mr') gs' ∧
    _is_removed_sorted (bu (input_batch mr')) = false ∧ same_setup (input_batch mr) gs (input_batch mr') gs' ∧
    (∀ i x, live (input_batch mr') i x ↔ live (input_batch mr) i x ∧ x ≠ nd_req_id d) ∧
    ∃ r, requests mr' = dict_set (requests mr) (nd_req_id d) r ∧ fits w (input_batch mr) drafts r ∧
      new_becomes (is_pooling_model (input_batch mr)) (requests mr) d r.
Proof.
  intros Hm Hu Hok. unfold add_new_request. mstep. unfold new_ok in Hok. pose proof (mid_batch _ _ _ _ Hm) as Hb.
  destruct (dict_get (requests mr) (nd_req_id d)) as [r|] eqn:Er.
  - destruct (remove_mid f E drafts w S _ _ gs (nd_req_id d) Hm Hu) as (o & b1 & gs1 & E1 & M1 & U1 & S1 & L1).
    destruct (fits_wf _ gs _ Hb Hok) as (n & Hwf & _).
    destruct (ch_wf _ _ _ _ (md_coherent _ _ _ _ _ _ _ _ Hm) _ _ Er) as [Hid _].
    exists (set_requests (dict_set (requests mr) (nd_req_id d) (streaming_state d r)) (set_batch b1 mr)), gs1. split.
    { unfold _update_streaming_request. rewrite (bind_ok _ _ _ _ _ (on_batch_ok _ _ _ _ E1)).
      rewrite (bind_ok _ _ _ _ _ (get_request_ok _ (set_batch b1 mr) _ Er)).
      pose proof (tf_len _ _ _ (wf_tokens _ _ _ _ _ _ Hwf)) as Hl. unfold num_prompt_tokens in Hl. simpl in Hl. unfold lift_result. rewrite Hl.
      rewrite (bind_ok _ _ _ (Z.of_nat n) (set_batch b1 mr)) by done. done. }
    split_and!; try done.
    + simpl. eapply mid_put; [done| |done|by eapply setup_wf]. intros i Hl. apply L1 in Hl. tauto.
    + eexists. split; [done|]. split; [done|]. unfold new_becomes. by rewrite Er.
  - destruct (Hok (next_object mr)) as (r & En & Hf). destruct (fits_wf _ gs _ Hb Hf) as (n & Hwf & _). unfold lift_result. rewrite En.
    rewrite (bind_ok _ _ _ r mr) by done. mstep. mstep.
    assert (req_id r = nd_req_id d) as Hid.
    { unfold new_state, mbind, result_bind in En. repeat case_match; by simplify_eq. }
    assert (∀ i, ¬ live (input_batch mr) i (nd_req_id d)) as Hnl.
    { intros i Hl. apply (mid_known _ _ _ _ _ _ Hm) in Hl as [? ?]. congruence. }
    set (mr1 := bump_objects 2 _). exists (note_prompt_logprobs d mr1), gs.
    assert (requests (note_prompt_logprobs d mr1) = dict_set (requests mr) (nd_req_id d) r ∧ input_batch (note_prompt_logprobs d mr1) = input_batch mr) as [-> ->].
    { unfold note_prompt_logprobs. destruct (nd_sampling_params d) as [sp|]; [|done]. by destruct (prompt_logprobs sp). }
    split; [done|]. split_and!; try done.
    + by eapply mid_put.
    + intros i x. split; [|tauto]. intros Hl. split; [done|]. intros ->. by apply (Hnl i).
    + exists r. split; [done|]. split; [done|]. unfold new_becomes. rewrite Er. eauto.
Qed.

Lemma new_ok_other b drafts' reqs reqs' d : dict_get reqs' (nd_req_id d) = dict_get reqs (nd_req_id d) → new_ok w b drafts' reqs d → new_ok w b drafts' reqs' d.
Proof. unfold new_ok. by intros ->. Qed.
Lemma new_ok_setup b gs b' gs' reqs d : batch_ok w b gs → batch_ok w b' gs' → same_setup b gs b' gs' → new_ok w b drafts reqs d → new_ok w b' drafts reqs d.
Proof.
  intros Hb Hb' Hs. unfold new_ok. destruct (dict_get reqs (nd_req_id d)); [by eapply fits_setup|].
  intros Ho object. destruct (Ho object) as (r & Hr & Hf). exists r. split; [|by apply (fits_setup w b gs b' gs')].
  destruct Hs as [Hc _]. unfold same_config in Hc. injection Hc as -> _ _. done.
Qed.

Lemma new_reqs_mid S mr gs ds : mid S (requests mr) (input_batch mr) gs → _is_removed_sorted (bu (input_batch mr)) = false →
  NoDup (nd_req_id <$> ds) → (∀ d, d ∈ ds → new_ok w (input_batch mr) drafts (requests mr) d) →
  ∃ mr' gs', forM ds (add_new_request get_pooling_updates) mr = Ok (tt, mr') ∧ mid S (requests mr') (input_batch mr') gs' ∧
    same_setup (input_batch mr) gs (input_batch mr') gs' ∧
    (∀ i x, live (input_batch mr') i x ↔ live (input_batch mr) i x ∧ x ∉ nd_req_id <$> ds) ∧
    follows (nd_req_id <$> ds) (λ id r, ∃ d, d ∈ ds ∧ nd_req_id d = id ∧ new_becomes (is_pooling_model (input_batch mr)) (requests mr) d r)
      (input_batch mr) (requests mr) (requests mr').
Proof.
  revert mr gs. induction ds as [|d ds IH]; intros mr gs Hm Hu Hn Hok.
  - exists mr, gs. split_and!; try done; [intros i x; rewrite elem_of_nil; tauto|]. split; [done|]. by intros id Hid%elem_of_nil.
  - csimpl in *. apply NoDup_cons in Hn as [Hd Hn].
    destruct (add_new_mid S mr gs d Hm Hu) as (mr1 & gs1 & E1 & M1 & U1 & S1 & L1 & r & R1 & R2 & R3); [apply Hok; left|].
    pose proof (mid_batch _ _ _ _ Hm) as Hb. pose proof (mid_batch _ _ _ _ M1) as Hb1.
    assert (∀ d', d' ∈ ds → dict_get (requests mr1) (nd_req_id d') = dict_get (requests mr) (nd_req_id d')) as Hkeep.
    { intros d' Hd'. rewrite R1, dict_get_set, decide_False; [done|]. intros Heq. apply Hd. rewrite <-Heq. apply list_elem_of_fmap. eauto. }
    destruct (IH mr1 gs1 M1 U1 Hn) as (mr' & gs' & E2 & M2 & S2 & L2 & F2).
    { intros d' Hd'. eapply new_ok_other; [|eapply new_ok_setup; [exact Hb|exact Hb1|done|apply Hok; by right]]. by apply Hkeep. }
    exists mr', gs'. split_and!; try done; [by rewrite (bind_ok _ _ _ _ _ E1)|by eapply same_setup_trans| |].
    + intros i x. rewrite L2, L1, elem_of_cons. tauto.
    + eapply (follows_cons _ _ _ _ _ gs _ gs1); [done..| | |exact F2].
      * exists d. split; [left|done].
      * intros x r' _ (d' & Hd' & <- & Hx). exists d'. split; [by right|]. split; [done|]. unfold new_becomes in *.
        rewrite <-Hkeep by done. destruct S1 as [Sc _]. unfold same_config in Sc. injection Sc as Sc _ _. by rewrite <-Sc.
Qed.

(** A running or resumed request. *)
Lemma update_cached_mid S mr gs d k id : mid S (requests mr) (input_batch mr) gs →
  cached_ok w (input_batch mr) drafts d (requests mr) k id → (id ∈ cd_resumed_req_ids d → ∀ i, ¬ live (input_batch mr) i id) →
  ∃ l mr' gs' r, update_cached true d drafts k id mr = Ok (l, mr') ∧ mid (λ x, S x ∨ x = id) (requests mr') (input_batch mr') gs' ∧
    same_setup (input_batch mr) gs (input_batch mr') gs' ∧ (∀ i x, live (input_batch mr') i x ↔ live (input_batch mr) i x) ∧
    requests mr' = dict_set (requests mr) id r ∧ fits w (input_batch mr) drafts r ∧ cached_becomes d (requests mr) k id r ∧
    ((∃ i, live (input_batch mr) i id) ∧ l = [] ∨ (∀ i, ¬ live (input_batch mr) i id) ∧ l = [id]).
Proof.
  intros Hm (r & row & Hr & Erow & Ho & Hnew & Hres & Hfits) Hnl. pose proof (mid_batch _ _ _ _ Hm) as Hb.
  pose proof (md_coherent _ _ _ _ _ _ _ _ Hm) as Hc. destruct (ch_wf _ _ _ _ Hc id r Hr) as (Hid & n & Hwf).
  pose proof (Forall2_length _ _ _ (bo_tables _ _ _ Hb)) as Hlen. rewrite Hlen in Hnew.
  assert (length (block_ids r) = length gs) as Hbl by (rewrite (wf_groups _ _ _ _ _ _ Hwf); unfold shapes; by rewrite length_fmap).
  set (r' := after_step (bool_decide (id ∈ cd_resumed_req_ids d)) row r) in *.
  destruct (fits_wf _ gs _ Hb Hfits) as (n' & Hwf' & Hd32 & Hfit). change (req_id r') with (req_id r) in Hd32, Hfit. rewrite Hid in Hd32, Hfit.
  assert (n' = n) as ->.
  { apply Nat2Z.inj. pose proof (tf_len _ _ _ (wf_tokens _ _ _ _ _ _ Hwf)). pose proof (tf_len _ _ _ (wf_tokens _ _ _ _ _ _ Hwf')) as Hl'.
    change (num_prompt_tokens r') with (num_prompt_tokens r) in Hl'. congruence. }
  assert (cached_becomes d (requests mr) k id r') as Hbec by (by exists r, row).
  unfold update_cached. rewrite (bind_ok _ _ _ _ _ (get_request_ok _ _ _ Hr)). unfold lift_result at 1. rewrite Erow.
  rewrite (bind_ok _ _ _ row mr) by done. mstep. unfold lift_result at 1. rewrite (next_output_last d row r Ho).
  rewrite (bind_ok _ _ _ (kept_output row r) mr) by done.
  destruct (dict_get (req_id_to_index (input_batch mr)) id) as [z|] eqn:Ez.
  - apply (bo_index _ _ _ Hb) in Ez as (i & -> & Hl). destruct (live_slot w (input_batch mr) gs i id Hb Hl) as (s & ds & o & Q1 & Q2 & Q3).
    set (v := view (is_pooling_model (input_batch mr)) s ds o (blocks_at gs i) (tags (input_batch mr) id)).
    assert (cell (input_batch mr) gs i = Some (id, v)) as Hcell by (by apply cell_eq).
    destruct (ch_shows _ _ _ _ Hc i id v Hcell) as (r0 & Hr0 & Hsh). assert (r0 = r) as -> by congruence.
    assert (bool_decide (id ∈ cd_resumed_req_ids d) = false) as Hfalse by (apply bool_decide_false; intros Hx; by apply (Hnl Hx i)).
    assert (r' = with_progress (cw_computed row) (kept_output row r) (more_blocks row r) r) as Er' by (unfold r', after_step, after_blocks; by rewrite Hfalse).
    destruct (update_row_shows w (input_batch mr) gs i id v r n row drafts) as (b1 & b2 & gs2 & E1 & Ei & E2 & Hch); try done;
      [apply Hwf|rewrite Er' in Hwf'; exact Hwf'|]. rewrite <-Er' in Hch.
    rewrite (bind_ok _ _ _ _ _ (on_batch_ok _ _ _ _ E1)). rewrite Hfalse.
    rewrite (next_blocks_kept _ row r (length gs) Hbl Hnew). rewrite (bind_ok _ _ _ (more_blocks row r) (set_batch b1 mr)) by done.
    mstep. rewrite <-Er'. set (mr1 := set_requests (dict_set (requests mr) id r') (set_batch b1 mr)).
    change (set_requests (dict_set (requests (set_batch b1 mr)) id r') (set_batch b1 mr)) with mr1.
    rewrite (bind_ok _ _ _ _ _ (on_batch_ok _ mr1 _ b2 E2)).
    pose proof (wf_tokens _ _ _ _ _ _ Hwf') as Htok.
    pose proof (request_view_shows w (is_pooling_model (input_batch mr)) (vocab_size (input_batch mr)) (g_per <$> gs) r' n Htok) as Hself.
    destruct (shows_drafts w _ _ _ r' n _ (drafts_of drafts id) Htok Hself) as [_ Hsh'].
    destruct (mid_progress f E drafts w S (λ x, S x ∨ x = id) (requests mr) (input_batch mr) gs i id v
      (with_drafts (drafts_of drafts id) (request_view (is_pooling_model (input_batch mr)) (vocab_size (input_batch mr)) (g_per <$> gs) r' n))
      r n (cw_computed row) (kept_output row r)
      (after_blocks (bool_decide (id ∈ cd_resumed_req_ids d)) row r) b2 gs2 Hm Hcell Hr) as [Hm' Hset]; [exact Hwf'|exact Hch|exact Hsh'| | |].
    + intros x [?|?] ?; done.
    + intros _. by eapply request_view_drafts.
    + eexists [], (set_batch b2 mr1), gs2, r'. split_and!; try done; [|left; eauto].
      intros j x. destruct Hch as (_ & _ & _ & _ & _ & _ & [= Hids _] & _). unfold live. simpl. by rewrite Hids.
  - assert (∀ i, ¬ live (input_batch mr) i id) as Hnl'.
    { intros i Hl. assert (dict_get (req_id_to_index (input_batch mr)) id = Some (Z.of_nat i)) by (apply (bo_index _ _ _ Hb); eauto). congruence. }
    mstep. assert (next_blocks (bool_decide (id ∈ cd_resumed_req_ids d)) (bool_decide (is_Some (@None Z))) row r = Ok (block_ids r')) as Eb.
    { unfold r', after_step, after_blocks. destruct (bool_decide (id ∈ cd_resumed_req_ids d)) eqn:Ed.
      - apply bool_decide_eq_true in Ed. destruct (Hres Ed) as [new Hn]. simpl. by rewrite Hn.
      - by eapply next_blocks_kept. }
    rewrite Eb. rewrite (bind_ok _ _ _ (block_ids r') mr) by done. mstep.
    exists [id], (set_requests (dict_set (requests mr) id r') mr), gs, r'. split_and!; try done; [|right; done].
    pose proof (mid_put f E drafts w S _ _ gs id r' n Hm Hnl' Hid Hwf') as [M1 M2 M3 M4 M5]. split; try done.
    intros i x v Hx [HS| ->]; [eauto|]. apply cell_live in Hx. by destruct (Hnl' i).
Qed.

Lemma cached_ok_after b gs b' gs' d reqs reqs' k id : batch_ok w b gs → batch_ok w b' gs' → same_setup b gs b' gs' →
  length (block_table b') = length (block_table b) → dict_get reqs' id = dict_get reqs id →
  cached_ok w b drafts d reqs k id → cached_ok w b' drafts d reqs' k id.
Proof.
  intros Hb Hb' Hs Hl Hr (r & row & H1 & H2 & H3 & H4 & H5 & H6). exists r, row. rewrite Hr, Hl. split_and!; try done. by eapply (fits_setup w b gs b' gs').
Qed.
Lemma setup_tables b gs b' gs' : batch_ok w b gs → batch_ok w b' gs' → same_setup b gs b' gs' → length (block_table b') = length (block_table b).
Proof.
  intros Hb Hb' [_ Hs]. apply (f_equal length) in Hs. rewrite (shapes_tables w b gs Hb), (shapes_tables w b' gs' Hb') in Hs.
  unfold table_shapes in Hs. by rewrite !length_fmap in Hs.
Qed.

Lemma cached_reqs_mid S mr gs d k ids : mid S (requests mr) (input_batch mr) gs → NoDup ids →
  (∀ j id, ids !! j = Some id → cached_ok w (input_batch mr) drafts d (requests mr) (k + j) id) →
  (∀ id, id ∈ cd_resumed_req_ids d → ∀ i, ¬ live (input_batch mr) i id) →
  ∃ l mr' gs', update_cached_reqs true d drafts k ids mr = Ok (l, mr') ∧ mid (λ x, S x ∨ x ∈ ids) (requests mr') (input_batch mr') gs' ∧
    same_setup (input_batch mr) gs (input_batch mr') gs' ∧ (∀ i x, live (input_batch mr') i x ↔ live (input_batch mr) i x) ∧
    follows ids (λ id r, ∃ j, ids !! j = Some id ∧ cached_becomes d (requests mr) (k + j) id r) (input_batch mr) (requests mr) (requests mr') ∧ NoDup l ∧
    ∀ x, x ∈ l ↔ x ∈ ids ∧ ∀ i, ¬ live (input_batch mr) i x.
Proof.
  revert S mr gs k. induction ids as [|id ids IH]; intros S mr gs k Hm Hn Hok Hres.
  - exists [], mr, gs. split; [done|]. split; [|split; [done|split; [done|split; [split; [done|by intros id Hid%elem_of_nil]|split; [constructor|]]]]].
    + destruct Hm as [M1 M2 M3 M4 M5]. split; try done. intros i id v Hi [HS|Hx]; [eauto|by apply elem_of_nil in Hx].
    + intros x. rewrite elem_of_nil. tauto.
  - apply NoDup_cons in Hn as [Hid Hn].
    destruct (update_cached_mid S mr gs d k id Hm) as (l1 & mr1 & gs1 & r & E1 & M1 & S1 & L1 & R1 & F1 & B1 & C1).
    { specialize (Hok 0%nat id eq_refl). by rewrite Nat.add_0_r in Hok. } { intros Hx. by apply Hres. }
    pose proof (mid_batch _ _ _ _ Hm) as Hb. pose proof (mid_batch _ _ _ _ M1) as Hb1.
    destruct (IH (λ x, S x ∨ x = id) mr1 gs1 (1 + k)%nat M1 Hn) as (l & mr' & gs' & E2 & M2 & S2 & L2 & F2 & N2 & C2).
    { intros j x Hj. eapply cached_ok_after; [exact Hb|exact Hb1|done|by eapply setup_tables| |].
      - rewrite R1, dict_get_set, decide_False; [done|]. intros ->. apply Hid. by eapply list_elem_of_lookup_2.
      - specialize (Hok (Datatypes.S j) x Hj). by replace (1 + k + j)%nat with (k + Datatypes.S j)%nat by lia. }
    { intros x Hx i. rewrite L1. by apply Hres. }
    exists (l1 ++ l), mr', gs'. split_and!.
    + simpl. rewrite (bind_ok _ _ _ _ _ E1). by rewrite (bind_ok _ _ _ _ _ E2).
    + destruct M2 as [K1 K2 K3 K4 K5]. split; try done. intros i x v Hx Hs. apply (K5 i x v Hx). rewrite elem_of_cons in Hs. tauto.
    + by eapply same_setup_trans.
    + intros i x. by rewrite L2, L1.
    + eapply (follows_cons _ _ _ _ _ gs _ gs1); [done..| | |exact F2].
      * exists 0%nat. by rewrite Nat.add_0_r.
      * intros x r' Hx (j & Hj & r0 & row & Hr0 & Hrow & ->). exists (Datatypes.S j). split; [done|]. exists r0, row.
        rewrite R1, dict_get_set, decide_False in Hr0 by (intros ->; done). by replace (k + Datatypes.S j)%nat with (1 + k + j)%nat by lia.
    + destruct C1 as [[_ ->]|[_ ->]]; [done|]. constructor; [|done]. rewrite C2. tauto.
    + intros x. rewrite elem_of_app, C2, elem_of_cons. setoid_rewrite L1.
      destruct C1 as [[[i Hi] ->]|[Hnl ->]]; [rewrite elem_of_nil|rewrite list_elem_of_singleton].
      * split; [tauto|]. intros [[->|?] Hx]; [by destruct (Hx i)|tauto].
      * split; [intros [->|?]; tauto|]. tauto.
Qed.

(** ** Adding the requests *)

Lemma num_reqs_room b gs id (L : list string) : batch_ok w b gs → NoDup L → (∀ i x, live b i x → x ∈ L) → id ∈ L → (∀ i, ¬ live b i id) →
  num_reqs b < zlen L.
Proof.
  intros Hb HL Hin Hid Hnl. unfold num_reqs, zlen. rewrite <-(length_fmap fst (req_id_to_index b)).
  assert (id :: (req_id_to_index b).*1 ⊆+ L) as Hsub.
  { apply NoDup_submseteq.
    - constructor; [|apply (bo_keys _ _ _ Hb)]. intros Hx%dict_get_is_Some. destruct Hx as [z Hz].
      apply (bo_index _ _ _ Hb) in Hz as (i & _ & Hi). by apply (Hnl i).
    - intros x Hx. apply elem_of_cons in Hx as [->|Hx]; [done|]. apply dict_get_is_Some in Hx as [z Hz].
      apply (bo_index _ _ _ Hb) in Hz as (i & _ & Hi). by eapply Hin. }
  apply submseteq_length in Hsub. simpl in Hsub. lia.
Qed.

Lemma adds_mid S mr gs (L A : list string) : mid S (requests mr) (input_batch mr) gs → NoDup A → NoDup L → zlen L ≤ max_num_reqs (input_batch mr) →
  (∀ i x, live (input_batch mr) i x → x ∈ L ∧ x ∉ A) → (∀ x, x ∈ A → x ∈ L) →
  (∀ id, id ∈ A → ∃ r, dict_get (requests mr) id = Some r ∧ fits w (input_batch mr) drafts r) →
  ∃ b' gs', forM A (add_to_batch drafts) mr = Ok (tt, set_batch b' mr) ∧ mid (λ x, S x ∨ x ∈ A) (requests mr) b' gs' ∧
    same_setup (input_batch mr) gs b' gs' ∧ ∀ x, (∃ i, live b' i x) ↔ (∃ i, live (input_batch mr) i x) ∨ x ∈ A.
Proof.
  revert S mr gs. induction A as [|id A IH]; intros S mr gs Hm Hn HL Hcap Hin HA Hf.
  - exists (input_batch mr), gs. split; [by destruct mr|]. split; [|split; [done|intros x; rewrite elem_of_nil; tauto]].
    destruct Hm as [M1 M2 M3 M4 M5]. split; try done. intros i id v Hi [HS|Hx]; [eauto|by apply elem_of_nil in Hx].
  - apply NoDup_cons in Hn as [Hid Hn]. destruct (Hf id) as (r & Hr & Hfr); [by left|]. pose proof (mid_batch _ _ _ _ Hm) as Hb.
    assert (∀ i, ¬ live (input_batch mr) i id) as Hnl by (intros i Hl; destruct (Hin i id Hl) as [_ []]; by left).
    destruct (fits_wf _ gs _ Hb Hfr) as (n & Hwf & Hd & Hlen). destruct (ch_wf _ _ _ _ (md_coherent _ _ _ _ _ _ _ _ Hm) id r Hr) as [Hrid _].
    rewrite Hrid in Hd, Hlen.
    destruct (add_mid f E drafts w S (requests mr) (input_batch mr) gs id r n Hm Hr Hnl) as (o & b1 & c & b2 & gs2 & E1 & E2 & M2 & S2 & L2); try done.
    { apply Z.lt_le_trans with (zlen L); [|done]. eapply num_reqs_room; try done; [intros i x Hl; by apply Hin in Hl as [? _]|apply HA; by left]. }
    pose proof (mid_batch _ _ _ _ M2) as Hb2.
    destruct (IH (λ x, S x ∨ x = id) (set_batch b2 mr) gs2 M2 Hn HL) as (b' & gs' & E3 & M3 & S3 & L3).
    { destruct S2 as [Sc _]. unfold same_config in Sc. simpl. congruence. }
    { intros i x Hl. destruct (proj1 (L2 x) (ex_intro _ i Hl)) as [[j Hj]| ->]; [|split; [apply HA; by left|done]].
      destruct (Hin j x Hj) as [Hx Hx']. split; [done|]. rewrite elem_of_cons in Hx'. tauto. }
    { intros x Hx. apply HA. by right. }
    { intros x Hx. destruct (Hf x) as (r' & Hr' & Hf'); [by right|]. exists r'. split; [done|]. by eapply (fits_setup w (input_batch mr) gs b2 gs2). }
    exists b', gs'. split_and!.
    + simpl. rewrite (bind_ok _ _ _ tt (set_batch b2 mr)); [exact E3|]. unfold add_to_batch. rewrite (bind_ok _ _ _ _ _ (get_request_ok _ _ _ Hr)).
      rewrite (bind_ok _ _ _ _ _ (on_batch_ok _ _ _ _ E1)). by rewrite (bind_ok _ _ _ _ _ (on_batch_ok _ (set_batch b1 mr) _ _ E2)).
    + destruct M3 as [K1 K2 K3 K4 K5]. split; try done. intros i x v Hx Hs. apply (K5 i x v Hx). rewrite elem_of_cons in Hs. tauto.
    + by eapply same_setup_trans.
    + intros x. rewrite L3. simpl. rewrite L2, elem_of_cons. tauto.
Qed.

(** ** The end of the step *)

(** The update as one fold: the shortcut for an empty map changes nothing. *)
Definition full_update (truthy : T → bool) (u : BatchUpdateBuilder added_info) : gmap Z T :=
  (foldl process_moved (foldl (process_removed truthy) (foldl (process_added f) (E, false) (added u)) (_removed u)) (moved u)).1.

Lemma empty_removed truthy (l : list Z) x : (foldl (process_removed truthy) (∅ : gmap Z T, x) l).1 = ∅.
Proof. revert x. induction l as [|z l IH]; intros x; [done|]. simpl. rewrite delete_empty. apply IH. Qed.
Lemma empty_moved (l : list (Z * Z * MoveDirectionality)) x : (foldl process_moved (∅ : gmap Z T, x) l).1 = ∅.
Proof.
  revert x. induction l as [|[[a b] k] l IH]; intros x; [done|]. simpl. rewrite !delete_empty, !lookup_empty. apply IH.
Qed.
Lemma process_full truthy (b : InputBatch) : is_pooling_model b = false → ∃ u,
  refresh_builder b = Ok (u, set_builder new_builder b) ∧ (process_dict_updates truthy f E u).1 = full_update truthy (bu b).
Proof.
  intros Hp. unfold refresh_builder. mstep. rewrite Hp. unfold on_builder, zoom, get_and_reset, bu, full_update.
  destruct (batch_update_builder b) as [rem so ad mo ch]. simpl.
  assert ((process_dict_updates truthy f E (Some (Build_BatchUpdate (num_reqs b) rem ad mo))).1 =
    (foldl process_moved (foldl (process_removed truthy) (foldl (process_added f) (E, false) ad) rem) mo).1) as Hsome.
  { simpl. destruct (map_to_list (foldl (process_added f) (E, false) ad).1) eqn:El; [|done]. apply map_to_list_empty_iff in El.
    destruct (foldl (process_added f) (E, false) ad) as [d x]. simpl in El. subst d.
    pose proof (empty_removed truthy rem x) as H1. destruct (foldl (process_removed truthy) (∅, x) rem) as [d y]. simpl in H1. subst d.
    by rewrite empty_moved. }
  destruct rem as [|z rem]; [destruct mo as [|m mo]; [destruct ad as [|a ad]|]|]; eexists; (split; [reflexivity|]); try exact Hsome. done.
Qed.

(** Deleting the entries of empty indices. *)
Lemma tracks_delete truthy (st : string → option T) c (R : Z → Prop) (l : list Z) acc : (∀ i, Z.of_nat i ∈ l → c i = None) → tracks st c R acc.1 →
  tracks st c (λ z, R z ∧ z ∉ l) (foldl (process_removed truthy) acc l).1.
Proof.
  intros Hl [H1 H2].
  assert (∀ z, (foldl (process_removed truthy) acc l).1 !! z = if decide (z ∈ l) then None else acc.1 !! z) as Hz.
  { clear. revert acc. induction l as [|x l IH]; intros [d u] z; simpl; [done|]. rewrite IH. simpl.
    destruct (decide (z ∈ l)); [by rewrite decide_True by (by right)|]. destruct (decide (z = x)) as [->|].
    - rewrite decide_True by left. by rewrite lookup_delete_eq.
    - rewrite decide_False by (by rewrite elem_of_cons; intros [?|?]). by rewrite lookup_delete_ne. }
  split.
  - intros i id v Hi. rewrite Hz, decide_False; [eauto|]. intros Hx. rewrite (Hl i Hx) in Hi. done.
  - intros z. rewrite Hz. destruct (decide (z ∈ l)); [by intros []|]. intros [?|?]%H2; auto.
Qed.

(** What a step leaves. *)
Record stepped (sched : list (string * Z)) (reqs : list (string * CachedRequestState)) (b : InputBatch) (gs : list group) : Prop := {
  sd_coherent : coherent w reqs b gs;
  sd_dense : dense b (length (_req_ids b));
  sd_builder : bu b = new_builder;
  sd_drafts : ∀ i id v, cell b gs i = Some (id, v) → v = with_drafts (drafts_of drafts id) v;
  sd_order : num_kv_cache_groups ≠ 0 → ∀ t, reorder_batch_threshold = Some t → ∀ i j x y, (i < j)%nat →
    region_at t sched (cell b gs) i = Some x → region_at t sched (cell b gs) j = Some y → x ≤ y;
}.

(** Condensing and reordering, whether or not a threshold is set. *)
Lemma reorder_may mr gs so : batch_ok w (input_batch mr) gs → lora_ok (input_batch mr) gs → dense (input_batch mr) (length (_req_ids (input_batch mr))) →
  (∀ i id, live (input_batch mr) i id → is_Some (dict_get (num_scheduled_tokens so) id)) →
  ∃ b' gs' pos ms, _may_reorder_batch num_kv_cache_groups reorder_batch_threshold so mr = Ok (tt, set_batch b' mr) ∧
    rearranged w (input_batch mr) gs b' gs' pos ms ∧
    (num_kv_cache_groups ≠ 0 → ∀ t, reorder_batch_threshold = Some t → ∀ i j x y, (i < j)%nat →
      region_at t (num_scheduled_tokens so) (cell b' gs') i = Some x → region_at t (num_scheduled_tokens so) (cell b' gs') j = Some y → x ≤ y).
Proof.
  intros Hb Hlo Hd Hs. unfold _may_reorder_batch. destruct (Z.eqb_spec num_kv_cache_groups 0) as [Hz|Hz].
  { exists (input_batch mr), gs, id, []. split_and!; [by destruct mr|by apply rearranged_refl|done]. }
  destruct reorder_batch_threshold as [t|].
  - destruct (reorder_ok w (input_batch mr) gs t (num_scheduled_tokens so) Hb Hlo Hd Hs) as (res & b' & gs' & pos & ms & E0 & R & _ & Ho).
    exists b', gs', pos, ms. split_and!; [by rewrite (bind_ok _ _ _ _ _ (on_batch_ok _ _ _ _ E0))|done|]. intros _ t' [= <-]. apply Ho.
  - exists (input_batch mr), gs, id, []. split_and!; [by destruct mr|by apply rearranged_refl|done].
Qed.

Lemma finish_ok S mr gs so truthy : mid S (requests mr) (input_batch mr) gs →
  (∀ i id, live (input_batch mr) i id → S id ∧ is_Some (dict_get (num_scheduled_tokens so) id)) →
  ∃ u b' gs', (on_batch condense ≫= λ _, _may_reorder_batch num_kv_cache_groups reorder_batch_threshold so ≫= λ _, on_batch refresh_builder) mr =
      Ok (u, set_batch b' mr) ∧ stepped (num_scheduled_tokens so) (requests mr) b' gs' ∧ same_setup (input_batch mr) gs b' gs' ∧
    (∀ x, (∃ i, live b' i x) ↔ ∃ i, live (input_batch mr) i x) ∧
    (is_pooling_model (input_batch mr) = false →
       tracks (proc_state f (requests mr)) (cell b' gs') (λ _, False) (process_dict_updates truthy f E u).1).
Proof.
  intros Hm Hlive. pose proof (mid_batch _ _ _ _ Hm) as Hb. pose proof Hm as [Hc Hh Hmv Ht Hd]. pose proof (ch_lora _ _ _ _ Hc) as Hlo.
  destruct (condense_ok w (input_batch mr) gs Hb Hlo Hh) as (b1 & gs1 & ms1 & E1 & C). destruct C as [A1 A2 A3 A4 A5 A6 A7 A8 A9 A10].
  assert (∀ b' gs', same_requests (input_batch mr) gs b' gs' → batch_ok w b' gs' → ∀ x, (∃ i, live b' i x) ↔ ∃ i, live (input_batch mr) i x) as Hsame.
  { intros b' gs' Hs Hb' x. split; intros [i Hi].
    - destruct (live_slot w b' gs' i x Hb' Hi) as (s & d & o & Q1 & Q2 & Q3).
      destruct (proj1 (Hs x _) (ex_intro _ i (cell_eq b' gs' i x s d o Hi Q1 Q2 Q3))) as [k Hk]. exists k. by eapply cell_live.
    - destruct (live_slot w (input_batch mr) gs i x Hb Hi) as (s & d & o & Q1 & Q2 & Q3).
      destruct (proj2 (Hs x _) (ex_intro _ i (cell_eq _ gs i x s d o Hi Q1 Q2 Q3))) as [k Hk]. exists k. by eapply cell_live. }
  destruct (reorder_may (set_batch b1 mr) gs1 so A1 A2 A6) as (b2 & gs2 & pos & ms2 & E2 & R & Hord).
  { intros i x Hi. destruct (proj1 (Hsame b1 gs1 A5 A1 x) (ex_intro _ i Hi)) as [k Hk]. by apply Hlive in Hk as [_ ?]. }
  simpl in R, E2. set (b3 := set_builder new_builder b2).
  assert (same_requests (input_batch mr) gs b2 gs2) as Hs2.
  { intros x v. transitivity (∃ i, cell b1 gs1 i = Some (x, v)); [apply R|apply A5]. }
  assert (same_setup (input_batch mr) gs b2 gs2) as Hset.
  { split; [pose proof (re_config _ _ _ _ _ _ _ R); unfold same_config in *; congruence|]. rewrite (re_shapes _ _ _ _ _ _ _ R). done. }
  assert (stepped (num_scheduled_tokens so) (requests mr) b3 gs2) as Hst.
  { split; [| |done| |exact Hord].
    - eapply coherent_after; [exact Hc|exact Hset|apply batch_ok_builder, R|apply lora_ok_builder, R|apply Hc|auto|].
      intros i x v Hi. right. destruct (proj1 (Hs2 x v) (ex_intro _ i Hi)) as [k Hk]. by eapply (ch_shows _ _ _ _ Hc).
    - change (_req_ids b3) with (_req_ids b2). rewrite (re_length _ _ _ _ _ _ _ R). by apply (re_dense _ _ _ _ _ _ _ R).
    - intros i x v Hi. destruct (proj1 (Hs2 x v) (ex_intro _ i Hi)) as [k Hk]. apply (Hd k x v Hk). apply cell_live in Hk. by apply Hlive in Hk as [? _]. }
  assert (∃ u, refresh_builder b2 = Ok (u, b3) ∧ (is_pooling_model (input_batch mr) = false → (process_dict_updates truthy f E u).1 = full_update truthy (bu b2)))
    as (u & E3 & Hfull).
  { destruct (is_pooling_model b2) eqn:Ep.
    - exists None. split; [unfold refresh_builder; mstep; by rewrite Ep|]. destruct Hset as [Hx _]. unfold same_config in Hx. congruence.
    - destruct (process_full truthy b2 Ep) as (u & Eu & Hu). eauto. }
  exists u, b3, gs2. split_and!; try done.
  - rewrite (bind_ok _ _ _ _ _ (on_batch_ok _ _ _ _ E1)), (bind_ok _ _ _ _ _ E2). by rewrite (on_batch_ok _ (set_batch b2 (set_batch b1 mr)) _ _ E3).
  - apply (Hsame b2 gs2 Hs2). apply R.
  - intros Hp. rewrite (Hfull Hp). unfold full_update. rewrite (re_added _ _ _ _ _ _ _ R), (re_removed _ _ _ _ _ _ _ R), (re_moved _ _ _ _ _ _ _ R), A8, Hmv, A7. simpl app.
    assert (is_pooling_model b1 = false) as Hp1 by (unfold same_config in A3; congruence). rewrite foldl_app.
    set (acc := foldl (process_added f) (E, false) (added (bu (input_batch mr)))).
    assert (tracks (proc_state f (requests mr)) (cell (input_batch mr) gs) (λ z, z ∈ _removed (bu (input_batch mr)) ∧ z ∉ _removed (bu b1))
      (foldl (process_removed truthy) acc (_removed (bu b1))).1) as T1.
    { apply (tracks_delete truthy _ _ (λ z, z ∈ _removed (bu (input_batch mr)))); [|by apply Ht]. intros i Hi%A9. apply (ho_holes _ Hh) in Hi as (k & Hk%Nat2Z.inj & Hx).
      subst k. apply cell_none. unfold live. congruence. }
    destruct (foldl (process_removed truthy) acc (_removed (bu b1))) as [E1' u1]. simpl in T1.
    pose proof (A10 Hp _ _ E1' u1 _ (λ z Hz, proj1 Hz) T1) as T2. destruct (foldl_moved (E1', u1) ms1) as [u2 ->].
    pose proof (re_tracks _ _ _ _ _ _ _ R Hp1 _ _ _ u2 _ T2) as T3. eapply tracks_impl; [| |exact T3]; [done|]. simpl. tauto.
Qed.

(** ** Between steps *)

Record idle (mr : ModelRunner) (gs : list group) : Prop := {
  id_coherent : coherent w (requests mr) (input_batch mr) gs;
  id_dense : dense (input_batch mr) (length (_req_ids (input_batch mr)));
  id_builder : bu (input_batch mr) = new_builder;
}.

End step.
