(* ===== verification/PrepareInputs.v ===== *)
(** * The inputs of a step: [_prepare_inputs] of [v1/worker/gpu_model_runner.py]

    The tokens of all scheduled requests go through the model as one flat batch. From the
    number of tokens of each request the runner computes, with array operations, the
    index and the position of every token, gathers the tokens from the rows of the
    persistent batch, stores where each request starts, computes the slots of the new
    tokens in the KV cache and selects the positions to sample from.

    The buffers live as long as the runner; entries a step does not write keep what they
    had. Arrays of 64-bit integers hold numbers that are far from their bounds; 32-bit
    ones are wrapped. A copy to the device is a copy of the first entries. The modelled
    configuration is that of [ModelRunner], without prompt embeddings and adapters; what
    only hybrid models and asynchronous scheduling read (accepted tokens, previous
    positions) is left out. *)

From Stdlib Require Import ZArith Lia.
From stdpp Require Import list numbers gmap strings.
From S2P Require Import Prelude MathUtils BlockTable BatchUpdate InputBatch ReorderBatch ModelRunner.
Local Open Scope Z_scope.
Local Open Scope vllm_scope.

(** ** Array operations *)

(** [np.cumsum(l, dtype)], [cast] being the cast to the type. *)
Fixpoint np_cumsum (cast : Z → Z) (a : Z) (l : list Z) : list Z :=
  match l with [] => [] | x :: l => cast (a + x) :: np_cumsum cast (cast (a + x)) l end.

(** [np.repeat(l, counts)] *)
Definition np_repeat {A} (l : list A) (counts : list Z) : result (list A) :=
  counts ← np_broadcast counts (zlen l);
  if existsb (λ n, n <? 0) counts then Err ValueError
  else Ok (mjoin (zip_with (λ x n, replicate (Z.to_nat n) x) l counts)).

(** [a op b] for arrays of one dimension. *)
Definition np_zip {A B C} (op : A → B → C) (a : list A) (b : list B) : result (list C) :=
  let n := if zlen a =? 1 then zlen b else zlen a in
  a ← np_broadcast a n; b ← np_broadcast b n; Ok (zip_with op a b).

(** [a[indices]] *)
Definition np_take {A} (l : list A) (indices : list Z) : result (list A) := result_map (py_index l) indices.

(** [torch.index_select]: negative indices are errors too. *)
Definition index_select {A} (l : list A) (indices : list Z) : result (list A) :=
  result_map (λ i, if i <? 0 then Err IndexError else py_index l i) indices.

(** [out[:n] = l], where [l] must have that size. *)
Definition np_store {A} (out : list A) (n : Z) (l : list A) : result (list A) :=
  if zlen (py_slice out 0 n) =? zlen l then np_put out 0 n l else Err ValueError.

(** [copy_to_gpu(n)] *)
Definition copy_to_gpu {A} (n : Z) (cpu gpu : list A) : list A := take (Z.to_nat n) cpu ++ drop (Z.to_nat n) gpu.

(** ** Buffers *)

Record Buffers := {
  arange_np : list Z;
  query_pos : list Z;
  _arange_scratch : list Z;
  input_ids : list Z;
  input_ids_gpu : list Z;
  query_start_loc : list Z;
  optimistic_seq_lens_cpu : list Z;
  discard_request_mask : list bool;
  positions : list Z;
  seq_lens : list Z;
  num_decode_draft_tokens : list Z;
}.

Definition new_buffers (max_num_reqs max_num_tokens : Z) (scratch : list Z) : Buffers :=
  let arange_size := Z.max (max_num_reqs + 1) max_num_tokens in
  let zeros n := replicate (Z.to_nat n) 0 in
  {| arange_np := zrange 0 arange_size; query_pos := zeros arange_size; _arange_scratch := scratch;
     input_ids := zeros max_num_tokens; input_ids_gpu := zeros max_num_tokens; query_start_loc := zeros (max_num_reqs + 1);
     optimistic_seq_lens_cpu := zeros max_num_reqs; discard_request_mask := replicate (Z.to_nat max_num_reqs) false;
     positions := zeros max_num_tokens; seq_lens := zeros max_num_reqs; num_decode_draft_tokens := zeros max_num_reqs |}.

(** [_get_cumsum_and_arange]: the running sums, and the new content of [arange_out]. *)
Definition _get_cumsum_and_arange (arange : list Z) (cast : Z → Z) (num_tokens arange_out : list Z) : result (list Z * list Z) :=
  let cu_num_tokens := np_cumsum cast 0 num_tokens in
  total_num_tokens ← py_index cu_num_tokens (-1);
  offsets ← np_zip (λ c n, cast (c - n)) cu_num_tokens num_tokens;
  cumsums_offsets ← np_repeat offsets num_tokens;
  diff ← np_zip Z.sub (py_slice arange 0 total_num_tokens) cumsums_offsets;
  out ← np_store arange_out total_num_tokens diff;
  Ok (cu_num_tokens, out).

(** ** Drafts: [_calc_spec_decode_metadata] *)

Record SpecDecodeMetadata := {
  draft_token_ids : list Z;
  md_num_draft_tokens : list Z;
  cu_num_draft_tokens : list Z;
  cu_num_sampled_tokens : list Z;
  target_logits_indices : list Z;
  bonus_logits_indices : list Z;
  logits_indices : list Z;
}.

(** Returns the metadata and the scratch array. *)
Definition _calc_spec_decode_metadata (arange scratch ids_gpu num_draft_tokens cu_num_scheduled_tokens : list Z)
    : result (SpecDecodeMetadata * list Z) :=
  let num_sampled_tokens := (λ n, int32 (n + 1)) <$> num_draft_tokens in
  '(cu_num_sampled_tokens, scratch) ← _get_cumsum_and_arange arange int32 num_sampled_tokens scratch;
  ends ← np_zip Z.sub cu_num_scheduled_tokens num_sampled_tokens;
  starts ← np_repeat ends num_sampled_tokens;
  total ← py_index cu_num_sampled_tokens (-1);
  logits_indices ← np_zip Z.add starts (py_slice scratch 0 total);
  let bonus_logits_indices := (λ c, int32 (c - 1)) <$> cu_num_sampled_tokens in
  '(cu_num_draft_tokens, scratch) ← _get_cumsum_and_arange arange int32 num_draft_tokens scratch;
  firsts ← np_zip (λ c n, int32 (c - n)) cu_num_sampled_tokens num_sampled_tokens;
  targets ← np_repeat firsts num_draft_tokens;
  total ← py_index cu_num_draft_tokens (-1);
  target_logits_indices ← np_zip (λ a b, int32 (a + b)) targets (py_slice scratch 0 total);
  ids ← np_take ids_gpu logits_indices;
  draft_token_ids ← np_take ids ((λ i, int32 (i + 1)) <$> target_logits_indices);
  Ok ({| draft_token_ids := draft_token_ids; md_num_draft_tokens := num_draft_tokens;
         cu_num_draft_tokens := cu_num_draft_tokens; cu_num_sampled_tokens := cu_num_sampled_tokens;
         target_logits_indices := target_logits_indices; bonus_logits_indices := bonus_logits_indices;
         logits_indices := logits_indices |}, scratch).

(** ** [_prepare_inputs] *)

Section prepare.
Context `{Float}.
Context (max_model_len : Z).

(** The number of drafts of each request, and of each request past its prompt. *)
Fixpoint count_drafts (b : InputBatch) (drafts : list (string * list Z)) (num_draft num_decode_draft : list Z) : result (list Z * list Z) :=
  match drafts with
  | [] => Ok (num_draft, num_decode_draft)
  | (id, toks) :: drafts =>
      req_idx ← match dict_get (req_id_to_index b) id with Some i => Ok i | None => Err KeyError end;
      num_draft ← np_set num_draft req_idx (zlen toks);
      s ← py_index (slots b) req_idx;
      num_decode_draft ← (if s_num_prompt_tokens s <=? s_num_computed_tokens s then np_set num_decode_draft req_idx (zlen toks) else Ok num_decode_draft);
      count_drafts b drafts num_draft num_decode_draft
  end.

(** [num_tokens] of every request in the batch, as 32-bit integers. *)
Definition known_num_tokens (mr : ModelRunner) : result (list Z) :=
  result_map (λ o, match o with
                   | Some id => match dict_get (requests mr) id with Some r => n ← num_tokens r; Ok (int32 n) | None => Err KeyError end
                   | None => Err KeyError
                   end) (_req_ids (input_batch mr)).

(** [query_start_loc]: zero, the running sums, and the total as padding. *)
Definition start_locs (num_reqs : Z) (cu loc : list Z) : result (list Z) :=
  loc ← np_set loc 0 0;
  loc ← np_assign loc 1 (num_reqs + 1) (NpArray cu);
  total ← py_index cu (-1);
  np_assign loc (num_reqs + 1) (zlen loc) (NpArray [total]).

(** [a[:num_reqs] = l; a[num_reqs:].fill(x)] *)
Definition store_padded {A} (out : list A) (num_reqs : Z) (l : list A) (x : A) : result (list A) :=
  out ← np_put out 0 num_reqs l;
  np_put out num_reqs (zlen out) [x].

(** The positions to sample from: the last of each request, or all with drafts. *)
Definition select_logits (so : SchedulerOutput) (num_reqs : Z) (cu : list Z) (b : InputBatch) (bf : Buffers)
    : result (list Z * option SpecDecodeMetadata * Buffers) :=
  match scheduled_spec_decode_tokens so with
  | [] =>
      let locs := py_slice (query_start_loc bf) 0 (num_reqs + 1) in
      Ok ((λ x, int32 (x - 1)) <$> py_from locs 1, None, bf)
  | drafts =>
      '(num_draft, num_decode_draft) ←
        count_drafts b drafts (replicate (Z.to_nat num_reqs) 0) (replicate (Z.to_nat num_reqs) (-1));
      '(md, scratch) ← _calc_spec_decode_metadata (arange_np bf) (_arange_scratch bf) (input_ids_gpu bf) num_draft cu;
      nd ← store_padded (num_decode_draft_tokens bf) num_reqs num_decode_draft (-1);
      Ok (logits_indices md, Some md,
        {| arange_np := arange_np bf; query_pos := query_pos bf; _arange_scratch := scratch; input_ids := input_ids bf;
           input_ids_gpu := input_ids_gpu bf; query_start_loc := query_start_loc bf;
           optimistic_seq_lens_cpu := optimistic_seq_lens_cpu bf; discard_request_mask := discard_request_mask bf;
           positions := positions bf; seq_lens := seq_lens bf; num_decode_draft_tokens := nd |})
  end.

Definition _prepare_inputs (so : SchedulerOutput) (total_num_scheduled_tokens : Z) (num_scheduled_tokens : list Z)
    (mr : ModelRunner) (bf : Buffers) : result (list Z * option SpecDecodeMetadata * ModelRunner * Buffers) :=
  let b := input_batch mr in
  let total := total_num_scheduled_tokens in
  let num_reqs := num_reqs b in
  if (total <=? 0) || (num_reqs <=? 0) then Err AssertionError else
  '(_, b) ← on_table (multi_commit_block_table num_reqs) b;
  req_indices ← np_repeat (py_slice (arange_np bf) 0 num_reqs) num_scheduled_tokens;
  '(cu_num_tokens, qpos) ← _get_cumsum_and_arange (arange_np bf) id num_scheduled_tokens (query_pos bf);
  last ← py_index cu_num_tokens (-1);
  computed ← np_take (s_num_computed_tokens <$> slots b) req_indices;
  positions_np ← np_zip Z.add computed (py_slice qpos 0 last);
  token_indices ← np_zip (λ p i, p + i * max_model_len) positions_np req_indices;
  toks ← index_select (mjoin (s_token_ids <$> slots b)) token_indices;
  ids ← np_store (input_ids bf) total toks;
  locs ← start_locs num_reqs cu_num_tokens (query_start_loc bf);
  lens ← np_zip (λ c n, int32 (c + n)) (py_slice (s_num_computed_tokens <$> slots b) 0 num_reqs) num_scheduled_tokens;
  opt_lens ← store_padded (optimistic_seq_lens_cpu bf) num_reqs lens 0;
  num_tokens ← known_num_tokens mr;
  discard ← np_zip Z.ltb (py_slice opt_lens 0 num_reqs) num_tokens;
  mask ← np_put (discard_request_mask bf) 0 num_reqs discard;
  pos ← np_put (positions bf) 0 total positions_np;
  lens_gpu ← store_padded (seq_lens bf) num_reqs lens 0;
  '(_, b) ← on_table (multi_compute_slot_mapping num_reqs (py_slice locs 0 (num_reqs + 1)) (py_slice pos 0 total)) b;
  let bf := {| arange_np := arange_np bf; query_pos := qpos; _arange_scratch := _arange_scratch bf; input_ids := ids;
               input_ids_gpu := copy_to_gpu total ids (input_ids_gpu bf); query_start_loc := locs;
               optimistic_seq_lens_cpu := opt_lens; discard_request_mask := mask; positions := pos;
               seq_lens := lens_gpu; num_decode_draft_tokens := num_decode_draft_tokens bf |} in
  '(logits, md, bf) ← select_logits so num_reqs cu_num_tokens b bf;
  Ok (logits, md, set_batch b mr, bf).
End prepare.
