(* ===== verification/PrepareSafe.v ===== *)
(** * The flat batch is the scheduled tokens, request after request *)

From Stdlib Require Import ZArith Lia.
From stdpp Require Import list numbers gmap strings.
From S2P Require Import Prelude MathUtils BlockTable SlotMapping BatchUpdate InputBatch InputBatchSafe InputBatchStep InputBatchTouch.
From S2P Require Import ReorderBatch ModelRunner ModelRunnerSafe ModelRunnerTrace ModelRunnerStep PrepareInputs.
Local Open Scope Z_scope.

(** ** Segments *)

Definition sumZ (l : list Z) : Z := foldr Z.add 0 l.

(** Where each segment starts. *)
Fixpoint starts (a : Z) (l : list Z) : list Z := match l with [] => [] | x :: l => a :: starts (a + x) l end.

Lemma sumZ_nonneg l : Forall (λ n, 0 ≤ n) l → 0 ≤ sumZ l.
Proof. induction 1; simpl; lia. Qed.

Lemma cumsum_cast cast a l : Forall (λ n, 0 ≤ n) l → (∀ z, a ≤ z ≤ a + sumZ l → cast z = z) → np_cumsum cast a l = np_cumsum id a l.
Proof.
  revert a. induction l as [|x l IH]; intros a Hl Hc; [done|]. apply Forall_cons in Hl as [Hx Hl]. pose proof (sumZ_nonneg l Hl). simpl in Hc |- *.
  rewrite Hc by lia. f_equal. apply IH; [done|]. intros z Hz. apply Hc. lia.
Qed.
Lemma length_cumsum cast a l : length (np_cumsum cast a l) = length l.
Proof. revert a. induction l as [|x l IH]; intros a; simpl; [done|]. by rewrite IH. Qed.
Lemma cumsum_starts a l : zip_with Z.sub (np_cumsum id a l) l = starts a l.
Proof. revert a. induction l as [|x l IH]; intros a; simpl; [done|]. rewrite IH. f_equal. unfold id. lia. Qed.
Lemma last_cumsum a l : l ≠ [] → last (np_cumsum id a l) = Some (a + sumZ l).
Proof.
  intros Hl. revert a. induction l as [|x l IH]; intros a; [done|]. destruct l as [|y l]; [simpl; unfold id; f_equal; lia|].
  change (np_cumsum id a (x :: y :: l)) with (a + x :: np_cumsum id (a + x) (y :: l)). rewrite last_cons, IH by done. simpl. f_equal. lia.
Qed.
Lemma cumsum_last a l : l ≠ [] → py_index (np_cumsum id a l) (-1) = Ok (a + sumZ l).
Proof. intros Hl. by apply py_index_last, last_cumsum. Qed.
Lemma cumsum_lookup a l i x : l !! i = Some x → starts a l !! i = Some (a + sumZ (take i l)) ∧ np_cumsum id a l !! i = Some (a + sumZ (take i l) + x).
Proof.
  revert a i. induction l as [|y l IH]; intros a [|i] Hi; try done.
  - injection Hi as ->. simpl. unfold id. split; f_equal; lia.
  - destruct (IH (a + y) i Hi) as [H1 H2]. simpl. change (id (a + y)) with (a + y). rewrite H1, H2. split; f_equal; lia.
Qed.

(** Two arrays cut into the same segments. *)
Lemma zip_with_mjoin {A B C} (f : A → B → C) ls ks : Forall2 (λ l k, length l = length k) ls ks →
  zip_with f (mjoin ls) (mjoin ks) = mjoin (zip_with (zip_with f) ls ks).
Proof. induction 1 as [|l k ls ks Hl _ IH]; [done|]. simpl. by rewrite zip_with_app, IH. Qed.
Lemma result_map_mjoin {A B} (f : A → result B) ls ys : Forall2 (λ l y, result_map f l = Ok y) ls ys → result_map f (mjoin ls) = Ok (mjoin ys).
Proof.
  intros Hf. apply result_map_Forall2. induction Hf as [|l y ls ys Hl _ IH]; simpl; [constructor|].
  apply Forall2_app; [|done]. by apply result_map_Forall2.
Qed.

Lemma np_zip_eq {A B C} (f : A → B → C) a b : length a = length b → np_zip f a b = Ok (zip_with f a b).
Proof.
  intros Hl. unfold np_zip. assert (zlen a = zlen b) as E by (unfold zlen; lia). rewrite E.
  replace (if zlen b =? 1 then zlen b else zlen b) with (zlen b) by (by case_match). unfold np_broadcast. rewrite E, Z.eqb_refl. done.
Qed.
Lemma np_repeat_eq {A} (l : list A) ns : length l = length ns → Forall (λ n, 0 ≤ n) ns →
  np_repeat l ns = Ok (mjoin (zip_with (λ x n, replicate (Z.to_nat n) x) l ns)).
Proof.
  intros Hl Hn. unfold np_repeat, np_broadcast. rewrite (proj2 (Z.eqb_eq _ _)) by (unfold zlen; lia). simpl.
  assert (existsb (λ n, n <? 0) ns = false) as ->; [|done]. clear Hl. induction Hn as [|n ns Hn _ IH]; [done|]. simpl.
  by rewrite IH, (proj2 (Z.ltb_ge _ _)).
Qed.
Lemma np_store_eq {A} (out l : list A) n : n = zlen l → (length l ≤ length out)%nat → np_store out n l = Ok (l ++ drop (length l) out).
Proof.
  intros -> Hl. unfold np_store. rewrite py_slice_pos, drop_0 by (unfold zlen; lia).
  rewrite (proj2 (Z.eqb_eq _ _)) by (unfold zlen; rewrite length_take; lia).
  pose proof (np_put_fits out l 0 ltac:(lia) ltac:(unfold zlen; lia)) as E. by rewrite Z.add_0_l in E.
Qed.

Lemma length_segments (ns : list Z) : Forall (λ n, 0 ≤ n) ns → zlen (mjoin (seqZ 0 <$> ns)) = sumZ ns.
Proof.
  induction 1 as [|n ns Hn _ IH]; [done|]. rewrite fmap_cons, zlen_mjoin_cons, IH. simpl sumZ. unfold zlen. rewrite length_seqZ. lia.
Qed.

(** Step 3 of [_get_cumsum_and_arange]. *)
Lemma arange_segments a ns : Forall (λ n, 0 ≤ n) ns →
  zip_with Z.sub (seqZ a (sumZ ns)) (mjoin (zip_with (λ x n, replicate (Z.to_nat n) x) (starts a ns) ns)) = mjoin (seqZ 0 <$> ns).
Proof.
  intros Hn. revert a. induction Hn as [|n ns Hn Hns IH]; intros a; [by rewrite zip_with_nil_r|]. pose proof (sumZ_nonneg ns Hns).
  csimpl. rewrite seqZ_app by lia. rewrite zip_with_app by (rewrite length_seqZ, length_replicate; lia). rewrite IH. f_equal.
  apply list_eq. intros i. rewrite lookup_zip_with. destruct (decide (i < Z.to_nat n)%nat).
  - rewrite !lookup_seqZ_lt, lookup_replicate_2 by lia. simpl. f_equal. lia.
  - by rewrite !lookup_seqZ_ge by lia.
Qed.
Lemma length_repeats (l ns : list Z) : length l = length ns → Forall (λ n, 0 ≤ n) ns →
  length (mjoin (zip_with (λ x n, replicate (Z.to_nat n) x) l ns)) = length (mjoin (seqZ 0 <$> ns)).
Proof.
  intros Hl Hn. revert l Hl. induction Hn as [|n ns Hn Hns IH]; intros [|x l] Hl; try done. simpl in Hl. csimpl.
  rewrite !length_app, length_replicate, length_seqZ, IH by lia. done.
Qed.
Lemma seqZ_prefix n m : 0 ≤ n ≤ m → take (Z.to_nat n) (seqZ 0 m) = seqZ 0 n.
Proof.
  intros Hn. apply list_eq. intros i. rewrite lookup_take. case_decide.
  - by rewrite !lookup_seqZ_lt by lia.
  - by rewrite lookup_seqZ_ge by lia.
Qed.

(** The helper computes the running sums and the concatenation of the ranges. *)
Lemma cumsum_and_arange_ok size cast ns out : ns ≠ [] → Forall (λ n, 0 ≤ n) ns → sumZ ns ≤ size → sumZ ns ≤ zlen out →
  (∀ z, 0 ≤ z ≤ sumZ ns → cast z = z) →
  _get_cumsum_and_arange (zrange 0 size) cast ns out =
    Ok (np_cumsum id 0 ns, mjoin (seqZ 0 <$> ns) ++ drop (Z.to_nat (sumZ ns)) out).
Proof.
  intros Hne Hn Hs Ho Hc. pose proof (sumZ_nonneg ns Hn) as H0. unfold _get_cumsum_and_arange. rewrite cumsum_cast by done.
  rewrite cumsum_last, Z.add_0_l by done. cbn [mbind result_bind]. rewrite np_zip_eq by apply length_cumsum. cbn [mbind result_bind].
  assert (zip_with (λ c n, cast (c - n)) (np_cumsum id 0 ns) ns = starts 0 ns) as ->.
  { rewrite <-cumsum_starts. apply list_eq. intros i. rewrite !lookup_zip_with. destruct (ns !! i) as [x|] eqn:Hx; [|by destruct (np_cumsum id 0 ns !! i)].
    destruct (cumsum_lookup 0 ns i x Hx) as [_ ->]. simpl. f_equal. apply Hc.
    rewrite <-(take_drop_middle ns i x Hx) in Hn. apply Forall_app in Hn as [Ha [Hb Hd]%Forall_cons].
    assert (sumZ ns = sumZ (take i ns) + (x + sumZ (drop (S i) ns))) as ->.
    { rewrite <-(take_drop_middle ns i x Hx) at 1. clear. induction (take i ns) as [|y l IH]; simpl; lia. }
    pose proof (sumZ_nonneg _ Ha). pose proof (sumZ_nonneg _ Hd). lia. }
  assert (length (starts 0 ns) = length ns) as Hlen.
  { generalize 0. clear. induction ns as [|x ns IH]; intros a; simpl; [done|]. by rewrite IH. }
  rewrite np_repeat_eq by done. cbn [mbind result_bind]. unfold zrange. rewrite Z.sub_0_r, py_slice_pos, drop_0, Z.sub_0_r, seqZ_prefix by (rewrite ?length_seqZ; lia).
  pose proof (length_segments ns Hn) as Hseg. unfold zlen in Hseg.
  rewrite np_zip_eq by (rewrite length_seqZ, length_repeats by done; lia). cbn [mbind result_bind]. rewrite arange_segments by done.
  rewrite np_store_eq; [| |].
  - cbn [mbind result_bind]. do 4 f_equal. pose proof (length_segments ns Hn) as E. unfold zlen in E. lia.
  - by rewrite length_segments.
  - pose proof (length_segments ns Hn) as E. unfold zlen in *. lia.
Qed.

Lemma zip_with_imap {A B C D} (f : B → C → D) (g : nat → A → B) (h : nat → A → C) l :
  zip_with f (imap g l) (imap h l) = imap (λ i x, f (g i x) (h i x)) l.
Proof.
  apply list_eq. intros i. rewrite lookup_zip_with, !list_lookup_imap. by destruct (l !! i).
Qed.
Lemma Forall2_imap {A B C} (P : B → C → Prop) (g : nat → A → B) (h : nat → A → C) l :
  (∀ i x, l !! i = Some x → P (g i x) (h i x)) → Forall2 P (imap g l) (imap h l).
Proof.
  intros Hp. apply Forall2_same_length_lookup. split; [by rewrite !length_imap|]. intros i x y.
  rewrite !list_lookup_imap. destruct (l !! i) eqn:E; [|done]. simpl. intros. simplify_eq. by apply Hp.
Qed.
Lemma imap_fmap_const {A B} (f : A → B) l : f <$> l = imap (λ _, f) l.
Proof. symmetry. apply imap_const. Qed.

Lemma mjoin_same_length {A B} (ls : list (list A)) (ks : list (list B)) : Forall2 (λ l k, length l = length k) ls ks → length (mjoin ls) = length (mjoin ks).
Proof. induction 1 as [|l k ls ks Hl _ IH]; [done|]. simpl. rewrite !length_app. lia. Qed.

(** ** The gather *)

Section gather.
Context (size M : Z) (rows : list (list Z)) (all ns : list Z).
Hypothesis Hns : ∀ i n, ns !! i = Some n → 0 ≤ n ∧ ∃ c row, all !! i = Some c ∧ rows !! i = Some row ∧ 0 ≤ c ∧ c + n ≤ M.
Hypothesis Hrows : Forall (λ row, zlen row = M) rows.
Hypothesis Hsize : zlen ns ≤ size.

(** The positions of each request, and its tokens there. *)
Definition spans : list (list Z) := imap (λ i n, seqZ (all !!! i) n) ns.
Definition span_tokens : list (list Z) := imap (λ i n, take (Z.to_nat n) (drop (Z.to_nat (all !!! i)) (rows !!! i))) ns.
Definition span_requests : list (list Z) := imap (λ i n, replicate (Z.to_nat n) (Z.of_nat i)) ns.

Lemma ns_nonneg : Forall (λ n, 0 ≤ n) ns.
Proof. apply Forall_lookup. intros i n Hi. by apply Hns in Hi as [? _]. Qed.

Lemma request_indices_ok : np_repeat (py_slice (zrange 0 size) 0 (zlen ns)) ns = Ok (mjoin span_requests).
Proof.
  pose proof (zlen_nonneg ns). unfold zrange. rewrite Z.sub_0_r, py_slice_pos, drop_0, Z.sub_0_r, seqZ_prefix by (rewrite ?length_seqZ; lia).
  rewrite np_repeat_eq; [|rewrite length_seqZ; unfold zlen; lia|apply ns_nonneg]. do 2 f_equal. apply list_eq. intros i.
  unfold span_requests. rewrite lookup_zip_with, list_lookup_imap. destruct (ns !! i) as [n|] eqn:Hn; [|by destruct (seqZ _ _ !! i)].
  apply lookup_lt_Some in Hn. rewrite lookup_seqZ_lt by (unfold zlen; lia). done.
Qed.

Lemma computed_ok : np_take all (mjoin span_requests) = Ok (mjoin (imap (λ i n, replicate (Z.to_nat n) (all !!! i)) ns)).
Proof.
  apply result_map_mjoin, Forall2_imap. intros i n Hi. destruct (Hns i n Hi) as (_ & c & row & Hc & _).
  rewrite (list_lookup_total_correct _ _ _ Hc). apply result_map_Forall2. induction (Z.to_nat n) as [|k IH]; simpl; constructor; [|done].
  by apply py_index_nat.
Qed.

Lemma positions_ok : zip_with Z.add (mjoin (imap (λ i n, replicate (Z.to_nat n) (all !!! i)) ns)) (mjoin (seqZ 0 <$> ns)) = mjoin spans.
Proof.
  rewrite imap_fmap_const, zip_with_mjoin, zip_with_imap.
  - f_equal. apply imap_ext. intros i n Hi. apply list_eq. intros j. rewrite lookup_zip_with. destruct (decide (j < Z.to_nat n)%nat).
    + rewrite lookup_replicate_2, !lookup_seqZ_lt by lia. done.
    + rewrite !lookup_seqZ_ge by lia. by destruct (replicate _ _ !! j).
  - apply Forall2_imap. intros i n _. by rewrite length_replicate, length_seqZ.
Qed.

Lemma length_spans : length (mjoin spans) = length (mjoin span_requests) ∧
  length (mjoin (imap (λ i n, replicate (Z.to_nat n) (all !!! i)) ns)) = length (mjoin (seqZ 0 <$> ns)).
Proof.
  split; [|rewrite imap_fmap_const]; apply mjoin_same_length, Forall2_imap; intros i n _; by rewrite length_replicate, length_seqZ.
Qed.

Lemma token_indices_ok : zip_with (λ p i, p + i * M) (mjoin spans) (mjoin span_requests) =
  mjoin (imap (λ i n, (λ p, p + Z.of_nat i * M) <$> seqZ (all !!! i) n) ns).
Proof.
  unfold spans, span_requests. rewrite zip_with_mjoin, zip_with_imap.
  - f_equal. apply imap_ext. intros i n _. apply zip_with_replicate_r_eq. by rewrite length_seqZ.
  - apply Forall2_imap. intros i n _. by rewrite length_replicate, length_seqZ.
Qed.

Lemma gather_rows_ok : index_select (mjoin rows) (mjoin (imap (λ i n, (λ p, p + Z.of_nat i * M) <$> seqZ (all !!! i) n) ns)) = Ok (mjoin span_tokens).
Proof.
  apply result_map_mjoin, Forall2_imap. intros i n Hi. destruct (Hns i n Hi) as (Hn & c & row & Hc & Hr & Hc0 & HM).
  rewrite (list_lookup_total_correct _ _ _ Hc), (list_lookup_total_correct _ _ _ Hr). pose proof (Forall_lookup_1 _ _ _ _ Hrows Hr) as Hl. simpl in Hl.
  apply result_map_Forall2, Forall2_same_length_lookup. unfold zlen in Hl. split; [rewrite length_fmap, length_seqZ, length_take, length_drop; lia|].
  intros j x y. rewrite list_lookup_fmap. destruct (decide (j < Z.to_nat n)%nat).
  - rewrite lookup_seqZ_lt, lookup_take_lt, lookup_drop by lia. simpl. intros [= <-] Hy.
    rewrite (proj2 (Z.ltb_ge _ _)) by nia. apply py_index_pos; [nia|].
    replace (Z.to_nat (c + Z.of_nat j + Z.of_nat i * M)) with (length (mjoin (take i rows)) + (Z.to_nat c + j))%nat; [by eapply mjoin_lookup|].
    pose proof (length_mjoin_uniform (take i rows) M (Forall_take _ _ _ Hrows)) as Hu. unfold zlen in Hu. rewrite length_take in Hu.
    apply lookup_lt_Some in Hr. nia.
  - by rewrite lookup_seqZ_ge by lia.
Qed.
End gather.

(** ** Drafts *)

Lemma int32_small z : 0 ≤ z < 2 ^ 31 → int32 z = z.
Proof. intros Hz. unfold int32. rewrite Z.mod_small by lia. lia. Qed.
Lemma sumZ_take l i x : Forall (λ n, 0 ≤ n) l → l !! i = Some x → 0 ≤ sumZ (take i l) ∧ sumZ (take i l) + x ≤ sumZ l.
Proof.
  intros Hl Hx. assert (sumZ l = sumZ (take i l) + (x + sumZ (drop (S i) l))) as ->.
  { rewrite <-(take_drop_middle l i x Hx) at 1. clear. induction (take i l) as [|y l' IH]; simpl; lia. }
  pose proof (sumZ_nonneg _ (Forall_take _ i _ Hl)). pose proof (sumZ_nonneg _ (Forall_drop _ (S i) _ Hl)). lia.
Qed.
Lemma zip_replicate (l ns : list Z) : length l = length ns →
  zip_with (λ x n, replicate (Z.to_nat n) x) l ns = imap (λ i n, replicate (Z.to_nat n) (l !!! i)) ns.
Proof.
  intros Hl. apply list_eq. intros i. rewrite lookup_zip_with, list_lookup_imap. destruct (ns !! i) as [n|] eqn:Hn; [|by destruct (l !! i)].
  destruct (lookup_lt_is_Some_2 l i) as [x Hx]; [apply lookup_lt_Some in Hn; lia|]. rewrite Hx, (list_lookup_total_correct _ _ _ Hx). done.
Qed.

(** Taking the same part of every segment. *)
Lemma take_segments (segs : list (list Z)) rest (l : list Z) (off k : nat → Z → Z) :
  (∀ i x, l !! i = Some x → ∃ seg, segs !! i = Some seg ∧ 0 ≤ off i x ∧ 0 ≤ k i x ∧ off i x + k i x ≤ zlen seg) →
  np_take (mjoin segs ++ rest) (mjoin (imap (λ i x, seqZ (zlen (mjoin (take i segs)) + off i x) (k i x)) l)) =
  Ok (mjoin (imap (λ i x, take (Z.to_nat (k i x)) (drop (Z.to_nat (off i x)) (segs !!! i))) l)).
Proof.
  intros Hl. apply result_map_mjoin, Forall2_imap. intros i x Hi. destruct (Hl i x Hi) as (seg & Hs & Ho & Hk & Hle).
  rewrite (list_lookup_total_correct _ _ _ Hs). apply result_map_Forall2, Forall2_same_length_lookup. unfold zlen in Hle.
  split; [rewrite length_seqZ, length_take, length_drop; lia|]. intros j a y. destruct (decide (j < Z.to_nat (k i x))%nat).
  - rewrite lookup_seqZ_lt, lookup_take_lt, lookup_drop by lia. intros [= <-] Hy. apply py_index_pos; [unfold zlen; lia|].
    replace (Z.to_nat (zlen (mjoin (take i segs)) + off i x + Z.of_nat j)) with (length (mjoin (take i segs)) + (Z.to_nat (off i x) + j))%nat by (unfold zlen; lia).
    apply lookup_app_l_Some. by eapply mjoin_lookup.
  - by rewrite lookup_seqZ_ge by lia.
Qed.

Lemma slice_front (l r : list Z) n : n = zlen l → py_slice (l ++ r) 0 n = l.
Proof. intros ->. unfold zlen. rewrite py_slice_pos, drop_0 by (rewrite ?length_app; lia). rewrite Z.sub_0_r, Nat2Z.id. apply take_app_length. Qed.

(** Where a segment starts in the concatenation. *)
Lemma segments_start (l : list Z) (f : nat → Z → list Z) : (∀ j n, l !! j = Some n → zlen (f j n) = n) →
  ∀ i, zlen (mjoin (take i (imap f l))) = sumZ (take i l).
Proof.
  revert f. induction l as [|x l IH]; intros f Hf [|k]; try done. rewrite imap_cons. simpl take. rewrite zlen_mjoin_cons.
  rewrite (IH (f ∘ S)) by (intros j n Hj; by apply (Hf (S j))). by rewrite (Hf 0%nat x eq_refl).
Qed.
Lemma segments_lookup (l : list Z) (f : nat → Z → list Z) rest i n j x : (∀ j n, l !! j = Some n → zlen (f j n) = n) → l !! i = Some n → f i n !! j = Some x →
  (mjoin (imap f l) ++ rest) !! (Z.to_nat (sumZ (take i l)) + j)%nat = Some x.
Proof.
  intros Hf Hi Hx. rewrite <-(segments_start l f Hf i). unfold zlen. rewrite Nat2Z.id. apply lookup_app_l_Some.
  eapply mjoin_lookup; [|done]. by rewrite list_lookup_imap, Hi.
Qed.

Section drafts.
Context (size : Z) (ns ds : list Z) (segs : list (list Z)) (rest : list Z).
Hypothesis Hne : ns ≠ [].
Hypothesis Hsegs : segs = imap (λ i _, segs !!! i) ns.
Hypothesis Hlen : ∀ i n, ns !! i = Some n → zlen (segs !!! i) = n ∧ ∃ d, ds !! i = Some d ∧ 0 ≤ d ∧ d + 1 ≤ n.
Hypothesis Hds : length ds = length ns.
Hypothesis Hsize : sumZ ns ≤ size.
Hypothesis Hbound : sumZ ns < 2 ^ 31.

Abbreviation ms := ((λ d, d + 1) <$> ds).

Lemma ds_ns i d : ds !! i = Some d → ∃ n, ns !! i = Some n ∧ zlen (segs !!! i) = n ∧ 0 ≤ d ∧ d + 1 ≤ n.
Proof.
  intros Hd. destruct (lookup_lt_is_Some_2 ns i) as [n Hn]; [apply lookup_lt_Some in Hd; lia|].
  destruct (Hlen i n Hn) as (H1 & d' & H2 & H3). simplify_eq. eauto.
Qed.
Lemma drafts_nonneg : Forall (λ n, 0 ≤ n) ns ∧ Forall (λ n, 0 ≤ n) ds ∧ Forall (λ n, 0 ≤ n) ms.
Proof.
  split_and!; apply Forall_lookup; intros i x Hi.
  - destruct (Hlen i x Hi) as (_ & d & _ & ? & ?). lia.
  - destruct (ds_ns i x Hi) as (n & _ & _ & ? & _). lia.
  - rewrite list_lookup_fmap in Hi. destruct (ds !! i) as [d|] eqn:Hd; [|done]. destruct (ds_ns i d Hd) as (n & _ & _ & ? & _). simplify_eq/=. lia.
Qed.
Lemma drafts_sums : sumZ ms ≤ sumZ ns ∧ sumZ ds ≤ sumZ ms.
Proof.
  clear Hsegs Hne Hsize Hbound. revert ns Hds Hlen. generalize segs as sg. induction ds as [|d l IH]; intros sg [|n ns'] Hl Hlen'; try done.
  csimpl. destruct (Hlen' 0%nat n eq_refl) as (_ & d' & [= <-] & H1 & H2).
  destruct (IH (tail sg) ns') as [H3 H4]; [simpl in Hl; lia| |lia].
  intros i x Hi. specialize (Hlen' (S i) x Hi). simpl in Hlen'. destruct sg as [|s sg]; simpl in *; [|done].
  destruct Hlen' as [H5 H6]. split; [|done]. rewrite <-H5. by destruct i.
Qed.
Lemma seg_start i : (i ≤ length ns)%nat → zlen (mjoin (take i segs)) = sumZ (take i ns).
Proof.
  intros _. rewrite Hsegs. apply segments_start. intros j n Hj. by apply Hlen in Hj as [? _].
Qed.

(** The end of each request in the flat batch, and the first of its rows of logits. *)
Definition ends : list Z := np_cumsum id 0 ns.
Definition draft_tokens : list (list Z) := imap (λ i d, take (Z.to_nat d) (drop (Z.to_nat ((ns !!! i) - d)) (segs !!! i))) ds.

Lemma ends_lookup i d : ds !! i = Some d → ends !!! i = sumZ (take i ns) + (ns !!! i).
Proof.
  intros Hd. destruct (ds_ns i d Hd) as (n & Hn & _). destruct (cumsum_lookup 0 ns i n Hn) as [_ Hc]. unfold ends.
  rewrite (list_lookup_total_correct _ _ _ Hc), (list_lookup_total_correct _ _ _ Hn). lia.
Qed.

(** The logits of a request are those of its last token and its drafts. *)
Lemma logits_rows : zip_with Z.add (mjoin (zip_with (λ x n, replicate (Z.to_nat n) x) (zip_with Z.sub ends ms) ms)) (mjoin (seqZ 0 <$> ms)) =
  mjoin (imap (λ i d, seqZ (zlen (mjoin (take i segs)) + ((ns !!! i) - (d + 1))) (d + 1)) ds).
Proof.
  assert (length (zip_with Z.sub ends ms) = length ms) as Hl.
  { rewrite length_zip_with, length_fmap. unfold ends. rewrite length_cumsum. lia. }
  rewrite zip_replicate, positions_ok by done. unfold spans. rewrite imap_fmap. f_equal. apply imap_ext. intros i d Hd. simpl.
  destruct (ds_ns i d Hd) as (n & Hn & _). pose proof (ends_lookup i d Hd) as He. rewrite seg_start by (apply lookup_lt_Some in Hn; lia).
  f_equal. destruct (lookup_lt_is_Some_2 ends i) as [e Hx]; [unfold ends; rewrite length_cumsum; by eapply lookup_lt_Some|].
  rewrite (list_lookup_total_correct _ _ _ Hx) in He. apply list_lookup_total_correct. rewrite lookup_zip_with, Hx, list_lookup_fmap, Hd. simpl. f_equal. lia.
Qed.

(** The rows of logits of the drafts, among those that are selected. *)
Lemma target_rows : zip_with Z.add (mjoin (zip_with (λ x n, replicate (Z.to_nat n) x) (starts 0 ms) ds)) (mjoin (seqZ 0 <$> ds)) =
  mjoin (imap (λ i d, seqZ (sumZ (take i ms)) d) ds).
Proof.
  assert (length (starts 0 ms) = length ds) as Hl.
  { rewrite <-cumsum_starts, length_zip_with, length_cumsum, length_fmap. lia. }
  rewrite zip_replicate, positions_ok by done. unfold spans. f_equal. apply imap_ext. intros i d Hd. f_equal.
  apply list_lookup_total_correct. destruct (cumsum_lookup 0 ms i (d + 1)) as [-> _]; [by rewrite list_lookup_fmap, Hd|]. done.
Qed.

Lemma small_rows (f : nat → Z → Z) (k : Z) : 0 ≤ k ≤ 1 → (∀ i d, ds !! i = Some d → f i d = sumZ (take i ms)) →
  (λ z, int32 (z + k)) <$> mjoin (imap (λ i d, seqZ (f i d) d) ds) = mjoin (imap (λ i d, seqZ (f i d + k) d) ds).
Proof.
  intros Hk Hf. destruct drafts_nonneg as (_ & _ & Hms). destruct drafts_sums as [Hsum _].
  transitivity (mjoin ((λ l, (λ z, int32 (z + k)) <$> l) <$> imap (λ i d, seqZ (f i d) d) ds)).
  { generalize (imap (λ i d, seqZ (f i d) d) ds). intros l. induction l as [|x l IH]; [done|]. simpl. rewrite fmap_app. by rewrite IH. }
  rewrite fmap_imap. f_equal. apply imap_ext. intros i d Hd. simpl. destruct (ds_ns i d Hd) as (n & Hn & _ & Hd0 & _).
  destruct (sumZ_take ms i (d + 1) Hms) as [S1 S2]; [by rewrite list_lookup_fmap, Hd|]. rewrite (Hf i d Hd).
  apply list_eq. intros j. rewrite list_lookup_fmap. destruct (decide (j < Z.to_nat d)%nat).
  - rewrite !lookup_seqZ_lt by lia. simpl. f_equal. rewrite int32_small by lia. lia.
  - by rewrite !lookup_seqZ_ge by lia.
Qed.

(** What the metadata of the drafts are. *)
Record drafts_selected (md : SpecDecodeMetadata) : Prop := {
  ds_logits : logits_indices md = mjoin (imap (λ i d, seqZ (zlen (mjoin (take i segs)) + ((ns !!! i) - (d + 1))) (d + 1)) ds);
  ds_target : target_logits_indices md = mjoin (imap (λ i d, seqZ (sumZ (take i ms)) d) ds);
  ds_bonus : bonus_logits_indices md = imap (λ i d, sumZ (take i ms) + d) ds;
  ds_drafts : draft_token_ids md = mjoin draft_tokens;
  ds_counts : md_num_draft_tokens md = ds;
}.

Lemma drafts_read : ∃ ids, np_take (mjoin segs ++ rest) (mjoin (imap (λ i d, seqZ (zlen (mjoin (take i segs)) + ((ns !!! i) - (d + 1))) (d + 1)) ds)) = Ok ids ∧
  np_take ids (mjoin (imap (λ i d, seqZ (sumZ (take i ms) + 1) d) ds)) = Ok (mjoin draft_tokens).
Proof.
  rewrite (take_segments segs rest ds (λ i d, (ns !!! i) - (d + 1)) (λ _ d, d + 1)).
  2:{ intros i d Hd. destruct (ds_ns i d Hd) as (n & Hn & Hz & H1 & H2). rewrite (list_lookup_total_correct _ _ _ Hn).
      destruct (segs !! i) as [seg|] eqn:Es; [|rewrite Hsegs in Es; rewrite list_lookup_imap, Hn in Es; done].
      rewrite (list_lookup_total_correct _ _ _ Es) in Hz. exists seg. split; [done|]. lia. }
  eexists. split; [done|]. set (parts := imap _ ds).
  assert (∀ i d, ds !! i = Some d → parts !! i = Some (take (Z.to_nat (d + 1)) (drop (Z.to_nat ((ns !!! i) - (d + 1))) (segs !!! i))) ∧
    zlen (parts !!! i) = d + 1) as Hparts.
  { intros i d Hd. assert (parts !! i = Some (take (Z.to_nat (d + 1)) (drop (Z.to_nat ((ns !!! i) - (d + 1))) (segs !!! i)))) as Hp.
    { unfold parts. by rewrite list_lookup_imap, Hd. }
    split; [done|]. rewrite (list_lookup_total_correct _ _ _ Hp). destruct (ds_ns i d Hd) as (n & Hn & Hz & H1 & H2).
    rewrite (list_lookup_total_correct _ _ _ Hn). unfold zlen in *. rewrite length_take, length_drop. lia. }
  assert (∀ i d, ds !! i = Some d → zlen (mjoin (take i parts)) = sumZ (take i ms)) as Hstart.
  { intros i d Hd. assert (parts = imap (λ j (_ : Z), parts !!! j) ms) as Hp.
    { rewrite imap_fmap. apply list_eq. intros j. rewrite list_lookup_imap. destruct (ds !! j) as [x|] eqn:Hj.
      - destruct (Hparts j x Hj) as [Q _]. by rewrite (list_lookup_total_correct _ _ _ Q), Q.
      - unfold parts. by rewrite list_lookup_imap, Hj. }
    rewrite Hp. apply segments_start. intros j n Hj. rewrite list_lookup_fmap in Hj. destruct (ds !! j) as [x|] eqn:Hx; [|done]. injection Hj as <-.
    by destruct (Hparts j x Hx). }
  rewrite <-(app_nil_r (mjoin parts)).
  assert (imap (λ i d, seqZ (sumZ (take i ms) + 1) d) ds = imap (λ i d, seqZ (zlen (mjoin (take i parts)) + 1) d) ds) as ->.
  { apply imap_ext. intros i d Hd. by rewrite (Hstart i d Hd). }
  rewrite (take_segments parts [] ds (λ _ _, 1) (λ _ d, d)).
  - do 2 f_equal. unfold draft_tokens. apply imap_ext. intros i d Hd. destruct (Hparts i d Hd) as [Q _].
    rewrite (list_lookup_total_correct _ _ _ Q). destruct (ds_ns i d Hd) as (n & Hn & Hz & H1 & H2). rewrite (list_lookup_total_correct _ _ _ Hn).
    rewrite skipn_firstn_comm, take_take, drop_drop. f_equal; [lia|]. f_equal. lia.
  - intros i d Hd. destruct (Hparts i d Hd) as [Q1 Q2]. eexists. split; [exact Q1|]. rewrite (list_lookup_total_correct _ _ _ Q1) in Q2.
    destruct (ds_ns i d Hd) as (n & _ & _ & ? & _). lia.
Qed.

Lemma spec_decode_ok scratch : sumZ ns ≤ zlen scratch →
  ∃ md scratch', _calc_spec_decode_metadata (zrange 0 size) scratch (mjoin segs ++ rest) ds (np_cumsum id 0 ns) = Ok (md, scratch') ∧
    drafts_selected md ∧ length scratch' = length scratch.
Proof.
  intros Hsc. destruct drafts_nonneg as (N1 & N2 & N3). destruct drafts_sums as [S1 S2]. pose proof (sumZ_nonneg ds N2) as S0. unfold _calc_spec_decode_metadata.
  assert ((λ n, int32 (n + 1)) <$> ds = ms) as ->.
  { apply list_fmap_ext. intros i d Hd. apply int32_small. destruct (ds_ns i d Hd) as (n & Hn & _ & ? & ?).
    destruct (sumZ_take ns i n N1 Hn). lia. }
  assert (ms ≠ [] ∧ ds ≠ []) as [Hms Hdn] by (destruct ds, ns; done).
  rewrite cumsum_and_arange_ok; [|done|done|lia|lia|intros z Hz; apply int32_small; lia]. cbn [mbind result_bind].
  rewrite (np_zip_eq Z.sub) by (rewrite length_cumsum, length_fmap; lia). cbn [mbind result_bind]. fold ends.
  rewrite np_repeat_eq; [|unfold ends; rewrite length_zip_with, length_cumsum, length_fmap; lia|done]. cbn [mbind result_bind].
  rewrite (cumsum_last 0 ms Hms), Z.add_0_l. cbn [mbind result_bind]. rewrite slice_front by (by rewrite length_segments).
  rewrite (np_zip_eq Z.add) by (apply length_repeats; [unfold ends; rewrite length_zip_with, length_cumsum, length_fmap; lia|done]).
  cbn [mbind result_bind]. rewrite logits_rows. pose proof (length_segments ms N3) as L3. pose proof (length_segments ds N2) as L2. unfold zlen in Hsc, L2, L3.
  rewrite cumsum_and_arange_ok; [|done|done|lia|unfold zlen; rewrite length_app, length_drop; lia|intros z Hz; apply int32_small; lia].
  cbn [mbind result_bind]. rewrite np_zip_eq by apply length_cumsum. cbn [mbind result_bind].
  assert (zip_with (λ c n, int32 (c - n)) (np_cumsum id 0 ms) ms = starts 0 ms) as ->.
  { rewrite <-cumsum_starts. apply list_eq. intros i. rewrite !lookup_zip_with. destruct (ms !! i) as [m|] eqn:Hm; [|by destruct (np_cumsum id 0 ms !! i)].
    destruct (cumsum_lookup 0 ms i m Hm) as [_ ->]. simpl. destruct (sumZ_take ms i m N3 Hm). f_equal. apply int32_small.
    pose proof (Forall_lookup_1 _ _ _ _ N3 Hm) as Hm0. cbv beta in Hm0. lia. }
  assert (length (starts 0 ms) = length ds) as Hst by (rewrite <-cumsum_starts, length_zip_with, length_cumsum, length_fmap; lia).
  rewrite np_repeat_eq by done. cbn [mbind result_bind]. rewrite (cumsum_last 0 ds Hdn), Z.add_0_l. cbn [mbind result_bind].
  rewrite slice_front by (unfold zlen; lia). rewrite np_zip_eq by (by apply length_repeats). cbn [mbind result_bind].
  assert (∀ x y, zip_with (λ a b, int32 (a + b)) x y = (λ z, int32 (z + 0)) <$> zip_with Z.add x y) as Hz.
  { induction x as [|a x IH]; intros [|b y]; csimpl; try done. by rewrite Z.add_0_r, IH. }
  rewrite Hz, target_rows. rewrite (small_rows (λ i _, sumZ (take i ms)) 0) by (done || lia).
  assert (imap (λ i d, seqZ (sumZ (take i ms) + 0) d) ds = imap (λ i d, seqZ (sumZ (take i ms)) d) ds) as ->.
  { apply imap_ext. intros i d _. by rewrite Z.add_0_r. }
  destruct drafts_read as (ids & E1 & E2). rewrite E1. cbn [mbind result_bind].
  rewrite (small_rows (λ i _, sumZ (take i ms)) 1) by (done || lia). rewrite E2. cbn [mbind result_bind].
  eexists _, _. split; [reflexivity|]. split; [split; try done|].
  - simpl. apply list_eq. intros i. rewrite list_lookup_fmap, list_lookup_imap. destruct (ds !! i) as [d|] eqn:Hd.
    + destruct (cumsum_lookup 0 ms i (d + 1)) as [_ ->]; [by rewrite list_lookup_fmap, Hd|]. simpl. f_equal.
      destruct (sumZ_take ms i (d + 1) N3); [by rewrite list_lookup_fmap, Hd|]. pose proof (Forall_lookup_1 _ _ _ _ N2 Hd). rewrite int32_small; simpl in *; lia.
    + rewrite (lookup_ge_None_2 (np_cumsum _ _ _)); [done|]. rewrite length_cumsum, length_fmap. by apply lookup_ge_None.
  - rewrite !length_app, !length_drop, length_app, length_drop. lia.
Qed.
End drafts.

(** ** The slots *)

Lemma zlen_slots_spec bs cw k il max rows batch : (length batch ≤ length rows)%nat → zlen (mjoin batch) ≤ max → zlen (slots_spec bs cw k il max rows batch) = max.
Proof.
  intros Hl Hm. unfold slots_spec. rewrite zlen_app, (length_zip_slots (slot_spec bs cw k il)) by done. unfold zlen at 2. rewrite length_replicate.
  pose proof (zlen_nonneg (mjoin batch)). lia.
Qed.

(** The positions of the batch fit in the rows of a table. *)
Definition table_covers (batch : list (list Z)) (t : BlockTable) (g : group) : Prop :=
  0 < bt_block_size t ∧ 0 < total_cp_world_size t ∧ 0 < cp_kv_cache_interleave_size t ∧ zlen (mjoin batch) ≤ bt_max_num_batched_tokens t ∧
  batch_fits (bt_block_size t) (total_cp_world_size t) (g_rows g) batch.
Definition table_maps (batch : list (list Z)) (t : BlockTable) (g : group) (t' : BlockTable) : Prop :=
  table_ok t' g ∧ slot_mapping t' = slots_spec (bt_block_size t) (total_cp_world_size t) (total_cp_rank t) (cp_kv_cache_interleave_size t)
    (bt_max_num_batched_tokens t) (g_rows g) batch.

Lemma table_mapped batch t g : table_ok t g → table_covers batch t g → ∃ t1 t2, commit_block_table (zlen batch) t = Ok (tt, t1) ∧
  compute_slot_mapping (zlen batch) (starts_from 0 batch) (mjoin batch) t1 = Ok (tt, t2) ∧ table_maps batch t g t2.
Proof.
  intros Ht (H1 & H2 & H3 & H4 & H5). assert (length batch ≤ length (g_rows g))%nat as Hl.
  { destruct (decide (length batch = 0)%nat); [lia|]. destruct (lookup_lt_is_Some_2 batch (length batch - 1)) as [ps Hps]; [lia|].
    destruct (H5 _ _ Hps) as (row & Hr & _). apply lookup_lt_Some in Hr. lia. }
  destruct (commit_then_map t g batch Ht H1 H2 H3 H4 H5) as (t1 & E1 & Hlaunch). destruct (commit_ok t g (length batch) Ht Hl) as (t1' & E1' & Ht1 & _).
  fold (zlen batch) in E1'. assert (t1' = t1) as -> by congruence. exists t1. eexists. split; [done|]. unfold compute_slot_mapping.
  rewrite (Hlaunch _ (reflexivity _)). split; [reflexivity|]. split; [|done]. destruct Ht1. split; simpl; try done.
  injection E1 as <-. simpl in *. by apply zlen_slots_spec.
Qed.

Lemma tables_mapped batch ts gs k : Forall2 table_ok ts gs → Forall2 (table_covers batch) ts gs → ∃ ts1 ts2,
  each_table (λ _, commit_block_table (zlen batch)) k ts = Ok ts1 ∧
  each_table (λ _, compute_slot_mapping (zlen batch) (starts_from 0 batch) (mjoin batch)) k ts1 = Ok ts2 ∧
  Forall2 table_ok ts2 gs ∧ length ts2 = length ts ∧
  ∀ i t g, ts !! i = Some t → gs !! i = Some g → ∃ t2, ts2 !! i = Some t2 ∧ table_maps batch t g t2.
Proof.
  intros Hts. revert k. induction Hts as [|t g ts gs Ht _ IH]; intros k Hc; [by exists [], []|]. apply Forall2_cons in Hc as [Hc Hcs].
  destruct (table_mapped batch t g Ht Hc) as (t1 & t2 & E1 & E2 & Hm). destruct (IH (S k) Hcs) as (ts1 & ts2 & F1 & F2 & F3 & F4 & F5).
  exists (t1 :: ts1), (t2 :: ts2). cbn [each_table]. rewrite E1. cbn [mbind result_bind]. rewrite F1. cbn [mbind result_bind each_table].
  rewrite E2. cbn [mbind result_bind]. rewrite F2. split_and!; try done.
  - constructor; [apply Hm|done].
  - simpl. by rewrite F4.
  - intros [|i] t' g'; simpl; [|apply F5]. intros [= <-] [= <-]. eauto.
Qed.

(** ** Buffers *)

Record buffers_ok (n tokens : Z) (bf : Buffers) : Prop := {
  bu_arange : arange_np bf = zrange 0 (Z.max (n + 1) tokens);
  bu_query : zlen (query_pos bf) = Z.max (n + 1) tokens;
  bu_scratch : zlen (_arange_scratch bf) = Z.max (n + 1) tokens;
  bu_ids : zlen (input_ids bf) = tokens;
  bu_gpu : zlen (input_ids_gpu bf) = tokens;
  bu_locs : zlen (query_start_loc bf) = n + 1;
  bu_lens : zlen (optimistic_seq_lens_cpu bf) = n;
  bu_mask : zlen (discard_request_mask bf) = n;
  bu_positions : zlen (positions bf) = tokens;
  bu_seq : zlen (seq_lens bf) = n;
  bu_decode : zlen (num_decode_draft_tokens bf) = n;
}.
Lemma zlen_replicate {A} n (x : A) : 0 ≤ n → zlen (replicate (Z.to_nat n) x) = n.
Proof. intros Hn. unfold zlen. rewrite length_replicate. lia. Qed.
Lemma new_buffers_ok n tokens scratch : 0 ≤ n → 0 ≤ tokens → zlen scratch = Z.max (n + 1) tokens → buffers_ok n tokens (new_buffers n tokens scratch).
Proof. intros Hn Ht Hs. split; simpl; rewrite ?zlen_replicate; try done; lia. Qed.

Lemma np_put_front {A} (out l : list A) k : k = zlen l → (length l ≤ length out)%nat → np_put out 0 k l = Ok (l ++ drop (length l) out).
Proof. intros -> Hl. pose proof (np_put_fits out l 0 ltac:(lia) ltac:(unfold zlen; lia)) as E. by rewrite Z.add_0_l in E. Qed.
Lemma store_padded_ok {A} (out l : list A) k x : k = zlen l → (length l ≤ length out)%nat →
  store_padded out k l x = Ok (l ++ replicate (length out - length l) x).
Proof.
  intros -> Hl. unfold store_padded. rewrite np_put_front by done. cbn [mbind result_bind].
  assert (zlen (l ++ drop (length l) out) = zlen out) as E by (unfold zlen; rewrite length_app, length_drop; lia). rewrite E.
  rewrite np_put_fill by (rewrite ?E; unfold zlen; lia). f_equal. unfold zlen. rewrite !Nat2Z.id, take_app_length.
  f_equal. rewrite (drop_ge (l ++ _)) by (rewrite length_app, length_drop; lia). rewrite app_nil_r. f_equal. lia.
Qed.

Lemma start_locs_ok loc cu k : k = zlen cu → cu ≠ [] → (length cu < length loc)%nat → Forall (λ z, 0 ≤ z < 2 ^ 31) cu →
  start_locs k cu loc = Ok (0 :: cu ++ replicate (length loc - S (length cu)) (default 0 (last cu))).
Proof.
  intros -> Hne Hl Hcu. unfold start_locs. destruct loc as [|x loc]; [simpl in Hl; lia|]. simpl in Hl.
  assert (np_set (x :: loc) 0 0 = Ok (0 :: loc)) as -> by (apply (np_set_nat (x :: loc) 0%nat 0); simpl; lia). cbn [mbind result_bind]. unfold np_assign, np_cast. cbn [mbind result_bind].
  assert (int32 <$> cu = cu) as ->.
  { clear -Hcu. induction Hcu as [|z cu Hz _ IH]; csimpl; [done|]. by rewrite int32_small, IH. }
  rewrite (Z.add_comm (zlen cu) 1), np_put_fits by (rewrite ?zlen_cons; unfold zlen; lia). cbn [mbind result_bind].
  destruct (last cu) as [y|] eqn:Ey; [|by apply last_None in Ey]. rewrite (py_index_last _ _ Ey). cbn [mbind result_bind].
  assert (0 ≤ y < 2 ^ 31) as Hy.
  { apply last_Some in Ey as [l' ->]. apply Forall_app in Hcu as [_ Hcu]. apply Forall_cons in Hcu as [Hcu _]. exact Hcu. }
  rewrite list_fmap_singleton, int32_small by done.
  change (Z.to_nat 1) with 1%nat. change (take 1 (0 :: loc) ++ cu ++ drop (1 + length cu) (0 :: loc)) with (0 :: cu ++ drop (length cu) loc).
  set (l := 0 :: cu ++ drop (length cu) loc). assert (zlen l = zlen (x :: loc)) as E.
  { unfold l, zlen. simpl. rewrite length_app, length_drop. lia. }
  assert (0 ≤ 1 + zlen cu ≤ zlen l) as Hle by (rewrite E, zlen_cons; unfold zlen; lia). rewrite np_put_fill by lia. f_equal.
  rewrite (drop_ge l) by (unfold zlen; lia). rewrite app_nil_r. rewrite E. unfold l. replace (Z.to_nat (1 + zlen cu)) with (S (length cu)) by (unfold zlen; lia).
  simpl. rewrite take_app_length. do 3 f_equal. rewrite zlen_cons. unfold zlen. simpl. lia.
Qed.

(** ** The batch *)

Section batch.
Context `{Float}.
Context (w : nat) (tokens : Z).

(** The requests of the batch can be run for [ns] tokens each: the tokens are there, and
    the blocks to store them in; a request with drafts ends with them. *)
Record inputs_fit (drafts : list (string * list Z)) (b : InputBatch) (gs : list group) (ns : list Z) : Prop := {
  if_some : _req_ids b ≠ [];
  if_length : length ns = length (_req_ids b);
  if_total : sumZ ns ≤ tokens;
  if_small : tokens < 2 ^ 31 ∧ Z.of_nat w < 2 ^ 31;
  if_tokens : ∀ i id v n, cell b gs i = Some (id, v) → ns !! i = Some n →
    0 < n ∧ 0 ≤ v_num_computed v ∧ v_num_computed v + n ≤ zlen (v_tokens v);
  if_tables : ∀ k t, block_table b !! k = Some t →
    0 < bt_block_size t ∧ 0 < total_cp_world_size t ∧ 0 < cp_kv_cache_interleave_size t ∧ tokens ≤ bt_max_num_batched_tokens t ∧
    ∀ i id v n, cell b gs i = Some (id, v) → ns !! i = Some n →
      v_num_computed v + n ≤ zlen (v_blocks v !!! k) * (bt_block_size t * total_cp_world_size t);
  if_keys : NoDup drafts.*1 ∧ ∀ id, id ∈ drafts.*1 → ∃ i, live b i id;
  if_drafts : ∀ i id v n, cell b gs i = Some (id, v) → ns !! i = Some n →
    v = with_drafts (drafts_of drafts id) v ∧ (v_drafts v ≠ [] → zlen (v_drafts v) + 1 ≤ n ∧ v_num_computed v + n = v_num_tokens v + zlen (v_drafts v));
}.

Context (drafts : list (string * list Z)) (mr : ModelRunner) (gs : list group) (ns : list Z) (bf : Buffers).
Abbreviation b := (input_batch mr).
Abbreviation all := (s_num_computed_tokens <$> slots b).
Abbreviation rows := (s_token_ids <$> slots b).
Hypothesis Hidle : idle w mr gs.
Hypothesis Hfit : inputs_fit drafts b gs ns.
Hypothesis Hbuf : buffers_ok (max_num_reqs b) tokens bf.

Lemma batch_fine : batch_ok w b gs.
Proof. apply Hidle. Qed.

(** The request at an index. *)
Lemma span_request i n : ns !! i = Some n → ∃ id s d out, live b i id ∧ slots b !! i = Some s ∧ spec_token_ids b !! i = Some d ∧
  let v := view (is_pooling_model b) s d out (blocks_at gs i) (tags b id) in
  cell b gs i = Some (id, v) ∧ slot_ok w s ∧ slot_active w s d ∧ all !! i = Some (s_num_computed_tokens s) ∧ rows !! i = Some (s_token_ids s) ∧
  zlen (v_tokens v) ≤ Z.of_nat w.
Proof.
  intros Hn. pose proof batch_fine as Hb. destruct (id_dense _ _ _ Hidle) as (_ & Hd & _).
  destruct (Hd i) as [id Hl]; [rewrite <-(if_length _ _ _ _ Hfit); by eapply lookup_lt_Some|].
  destruct (live_slot w b gs i id Hb Hl) as (s & d & out & Q1 & Q2 & Q3). exists id, s, d, out. split_and!; try done.
  pose proof (Forall_lookup_1 _ _ _ _ (bo_rows _ _ _ Hb) Q1) as Hok. pose proof (bo_active _ _ _ Hb i id s d Hl Q1 Q2) as Ha.
  split_and!; try done.
  - by apply cell_eq.
  - by rewrite list_lookup_fmap, Q1.
  - by rewrite list_lookup_fmap, Q1.
  - destruct Hok as [K1 K2]. simpl. unfold known_tokens, zlen. rewrite length_zip_with, !length_take. lia.
Qed.

Lemma span_fits i n : ns !! i = Some n → 0 ≤ n ∧ ∃ c row, all !! i = Some c ∧ rows !! i = Some row ∧ 0 ≤ c ∧ c + n ≤ Z.of_nat w.
Proof.
  intros Hn. destruct (span_request i n Hn) as (id & s & d & out & _ & _ & _ & Hc & _ & _ & Ha & Hr & Hl).
  destruct (if_tokens _ _ _ _ Hfit i id _ n Hc Hn) as (H1 & H2 & H3). simpl in H2, H3, Hl. split; [lia|]. eexists _, _. split_and!; [done|done|lia|lia].
Qed.

Lemma ns_pos : Forall (λ n, 0 ≤ n) ns.
Proof. apply Forall_lookup. intros i n Hn. by apply span_fits in Hn as [? _]. Qed.
Lemma ns_some : ns ≠ [].
Proof. pose proof (if_length _ _ _ _ Hfit). pose proof (if_some _ _ _ _ Hfit). destruct ns, (_req_ids b); done. Qed.
Lemma num_reqs_ns : num_reqs b = zlen ns.
Proof. rewrite (dense_num w b gs _ batch_fine (id_dense _ _ _ Hidle)), <-(if_length _ _ _ _ Hfit). done. Qed.
Lemma num_reqs_cap : zlen ns ≤ max_num_reqs b.
Proof.
  pose proof (bo_cap _ _ _ batch_fine). pose proof (bo_slots _ _ _ batch_fine) as Hs. pose proof (if_length _ _ _ _ Hfit). pose proof ns_some.
  unfold zlen. destruct ns; [done|]. simpl in *. lia.
Qed.

Abbreviation batch := (spans all ns).

Lemma batch_lengths : zlen <$> batch = ns.
Proof.
  unfold spans. rewrite fmap_imap. apply list_eq. intros i. rewrite list_lookup_imap. destruct (ns !! i) as [n|] eqn:Hn; [|done].
  simpl. f_equal. unfold zlen. rewrite length_seqZ. apply span_fits in Hn as [? _]. lia.
Qed.
Lemma zlen_batch : zlen batch = zlen ns ∧ zlen (mjoin batch) = sumZ ns.
Proof.
  split; [unfold zlen, spans; by rewrite length_imap|]. rewrite <-batch_lengths at 2. generalize batch. clear. intros l.
  induction l as [|x l IH]; [done|]. rewrite zlen_mjoin_cons, IH. done.
Qed.
Lemma batch_starts : starts_from 0 batch = 0 :: np_cumsum id 0 ns.
Proof.
  rewrite <-batch_lengths at 2. generalize batch, 0. clear. intros l. induction l as [|x l IH]; intros a; [done|]. csimpl. by rewrite IH.
Qed.

Lemma batch_tables : Forall2 (table_covers batch) (block_table b) gs.
Proof.
  pose proof (bo_tables _ _ _ batch_fine) as Ht. apply Forall2_same_length_lookup. split; [by eapply Forall2_length|].
  intros k t g Hk Hg. destruct (if_tables _ _ _ _ Hfit k t Hk) as (H1 & H2 & H3 & H4 & H5). destruct zlen_batch as [Z1 Z2].
  split_and!; try done; [pose proof (if_total _ _ _ _ Hfit); lia|]. intros i ps Hi. unfold spans in Hi. rewrite list_lookup_imap in Hi.
  destruct (ns !! i) as [n|] eqn:Hn; [|done]. injection Hi as <-. destruct (span_request i n Hn) as (id & s & d & out & _ & Hs & _ & Hc & _ & _ & Ha & _).
  destruct (if_tokens _ _ _ _ Hfit i id _ n Hc Hn) as (_ & C1 & _). specialize (H5 i id _ n Hc Hn). simpl in C1, H5.
  rewrite (list_lookup_total_correct _ _ _ Ha). pose proof (Forall_lookup_1 _ _ _ _ (bo_groups _ _ _ batch_fine) Hg) as Hrows. simpl in Hrows.
  destruct (lookup_lt_is_Some_2 (g_rows g) i) as [row Hrow]; [rewrite Hrows; by eapply lookup_lt_Some|]. exists row. split; [done|].
  assert (blocks_at gs i !!! k = row) as Er.
  { apply list_lookup_total_correct. unfold blocks_at. rewrite list_lookup_fmap, Hg. simpl. by rewrite (list_lookup_total_correct _ _ _ Hrow). }
  rewrite Er in H5. intros p Hp. apply elem_of_seqZ in Hp. lia.
Qed.

(** *** The drafts of each request *)

Lemma count_drafts_ok ds l1 l2 : NoDup ds.*1 → (∀ id, id ∈ ds.*1 → ∃ i, live b i id) → length l1 = length (_req_ids b) → length l2 = length (_req_ids b) →
  ∃ r1 r2, count_drafts b ds l1 l2 = Ok (r1, r2) ∧ length r1 = length l1 ∧ length r2 = length l2 ∧
    ∀ i id s, live b i id → slots b !! i = Some s →
      r1 !! i = match dict_get ds id with Some toks => Some (zlen toks) | None => l1 !! i end ∧
      r2 !! i = match dict_get ds id with
                | Some toks => if s_num_prompt_tokens s <=? s_num_computed_tokens s then Some (zlen toks) else l2 !! i
                | None => l2 !! i
                end.
Proof.
  pose proof batch_fine as Hb. revert l1 l2. induction ds as [|[x toks] ds IH]; intros l1 l2 Hn Hk H1 H2; [by exists l1, l2|].
  apply NoDup_cons in Hn as [Hx Hn]. destruct (Hk x) as [k Hl]; [left|]. pose proof (lookup_lt_Some _ _ _ Hl) as Hlt.
  assert (dict_get (req_id_to_index b) x = Some (Z.of_nat k)) as Ek by (apply (bo_index _ _ _ Hb); eauto).
  destruct (live_slot w b gs k x Hb Hl) as (s & _ & _ & Hs & _).
  cbn [count_drafts]. rewrite Ek. cbn [mbind result_bind]. rewrite (np_set_nat l1) by lia. cbn [mbind result_bind]. rewrite (py_index_nat _ _ _ Hs). cbn [mbind result_bind].
  set (l2' := if s_num_prompt_tokens s <=? s_num_computed_tokens s then <[k := zlen toks]> l2 else l2).
  assert ((if s_num_prompt_tokens s <=? s_num_computed_tokens s then np_set l2 (Z.of_nat k) (zlen toks) else Ok l2) = Ok l2') as ->.
  { unfold l2'. destruct (_ <=? _); [|done]. by rewrite np_set_nat by lia. }
  cbn [mbind result_bind]. assert (length l2' = length l2) as L2 by (unfold l2'; destruct (_ <=? _); by rewrite ?length_insert).
  destruct (IH (<[k := zlen toks]> l1) l2' Hn) as (r1 & r2 & E & R1 & R2 & HR).
  { intros id Hid. apply Hk. by right. } { by rewrite length_insert. } { lia. }
  exists r1, r2. split; [done|]. rewrite R1, R2, length_insert. split_and!; try done. intros i id s' Hi Hs'.
  destruct (HR i id s' Hi Hs') as [E1 E2]. rewrite E1, E2. destruct (decide (id = x)) as [->|Hne].
  - assert (i = k) as -> by (by eapply live_inj). assert (s' = s) as -> by congruence.
    assert (dict_get ds x = None) as ->.
    { destruct (dict_get ds x) eqn:Ed; [|done]. exfalso. apply Hx. apply dict_get_is_Some. eauto. }
    simpl. destruct (decide (x = x)); [|done]. rewrite list_lookup_insert_eq by lia. split; [done|]. unfold l2'.
    destruct (_ <=? _); [|done]. by rewrite list_lookup_insert_eq by lia.
  - assert (i ≠ k) as Hik by (intros ->; unfold live in *; congruence).
    simpl. destruct (decide (x = id)); [congruence|]. rewrite list_lookup_insert_ne by done. split; [done|]. unfold l2'.
    destruct (_ <=? _); [|done]. by rewrite list_lookup_insert_ne by done.
Qed.

(** *** The tokens of each request *)

Lemma known_lookup l f p t : known_tokens l f !! p = Some (Some t) → l !! p = Some t.
Proof.
  unfold known_tokens. rewrite lookup_zip_with. destruct (l !! p) as [x|]; [|done]. simpl. destruct (f !! p) as [[]|]; simpl; congruence.
Qed.

Abbreviation segs := (span_tokens rows all ns).

Lemma segs_length i n : ns !! i = Some n → zlen (take (Z.to_nat n) (drop (Z.to_nat (all !!! i)) (rows !!! i))) = n.
Proof.
  intros Hn. destruct (span_request i n Hn) as (id & s & d & out & _ & _ & _ & Hc & [K1 _] & _ & Ha & Hr & Hl).
  destruct (if_tokens _ _ _ _ Hfit i id _ n Hc Hn) as (H1 & H2 & H3). simpl in H2, H3, Hl.
  rewrite (list_lookup_total_correct _ _ _ Ha), (list_lookup_total_correct _ _ _ Hr). unfold zlen in *. rewrite length_take, length_drop. lia.
Qed.
Lemma zlen_segs : zlen (mjoin segs) = sumZ ns.
Proof.
  rewrite <-(take_ge segs (length ns)) by (unfold span_tokens; rewrite length_imap; lia).
  unfold span_tokens. rewrite (segments_start ns _ segs_length). by rewrite take_ge.
Qed.

(** A token that is known is the one that is gathered. *)
Lemma seg_token i id v n j t : cell b gs i = Some (id, v) → ns !! i = Some n → 0 ≤ j < n → v_tokens v !! Z.to_nat (v_num_computed v + j) = Some (Some t) →
  take (Z.to_nat n) (drop (Z.to_nat (all !!! i)) (rows !!! i)) !! Z.to_nat j = Some t.
Proof.
  intros Hc Hn Hj Ht. destruct (span_request i n Hn) as (id' & s & d & out & _ & _ & _ & Hc' & _ & _ & Ha & Hr & _). simpl in Hc'. rewrite Hc in Hc'.
  injection Hc' as <- ->. destruct (if_tokens _ _ _ _ Hfit i id _ n Hc Hn) as (_ & H2 & _). simpl in H2, Ht.
  apply known_lookup in Ht. rewrite lookup_take_lt in Ht. 2:{ apply lookup_lt_Some in Ht. rewrite length_take in Ht. lia. }
  rewrite (list_lookup_total_correct _ _ _ Ha), (list_lookup_total_correct _ _ _ Hr). rewrite lookup_take_lt, lookup_drop by lia.
  rewrite <-Ht. f_equal. lia.
Qed.

(** The drafts of the requests, in the order of the batch. *)
Definition draft_lists : list (list Z) := imap (λ i _, default [] ((λ c, v_drafts c.2) <$> cell b gs i)) ns.

Lemma seg_drafts i id v n : cell b gs i = Some (id, v) → ns !! i = Some n →
  take (length (v_drafts v)) (drop (Z.to_nat (n - zlen (v_drafts v))) (take (Z.to_nat n) (drop (Z.to_nat (all !!! i)) (rows !!! i)))) = v_drafts v.
Proof.
  intros Hc Hn. destruct (if_drafts _ _ _ _ Hfit i id v n Hc Hn) as [Hv Hd]. destruct (if_tokens _ _ _ _ Hfit i id v n Hc Hn) as (H1 & H2 & H3).
  destruct (decide (v_drafts v = [])) as [->|Hne]; [done|]. destruct (Hd Hne) as [D1 D2].
  pose proof (segs_length i n Hn) as Hl. apply list_eq. intros j. destruct (decide (j < length (v_drafts v))%nat) as [Hj|Hj].
  2:{ rewrite lookup_take_ge by lia. symmetry. apply lookup_ge_None. lia. }
  destruct (lookup_lt_is_Some_2 (v_drafts v) j Hj) as [t Ht]. rewrite Ht, lookup_take_lt, lookup_drop by done.
  assert (0 ≤ v_num_tokens v) as Hnt.
  { destruct (span_request i n Hn) as (id' & s & d & out & _ & _ & _ & Hc' & _ & (A1 & _) & _). simpl in Hc'. rewrite Hc in Hc'. injection Hc' as <- ->. done. }
  replace (Z.to_nat (n - zlen (v_drafts v)) + j)%nat with (Z.to_nat (n - zlen (v_drafts v) + Z.of_nat j)) by lia.
  apply (seg_token i id v n); try done; [unfold zlen in *; lia|].
  replace (Z.to_nat (v_num_computed v + (n - zlen (v_drafts v) + Z.of_nat j))) with (Z.to_nat (v_num_tokens v) + j)%nat by lia.
  rewrite Hv. assert (v_drafts v = drafts_of drafts id) as <- by (by rewrite Hv). simpl.
  assert (length (take (Z.to_nat (v_num_tokens v)) (v_tokens v)) = Z.to_nat (v_num_tokens v)) as Hlen.
  { rewrite length_take. unfold zlen in *. lia. }
  rewrite lookup_app_r by (rewrite Hlen; lia). rewrite Hlen, list_lookup_fmap. replace (Z.to_nat (v_num_tokens v) + j - Z.to_nat (v_num_tokens v))%nat with j by lia.
  by rewrite Ht.
Qed.

Lemma segs_eq i n : ns !! i = Some n → segs !!! i = take (Z.to_nat n) (drop (Z.to_nat (all !!! i)) (rows !!! i)).
Proof. intros Hn. apply list_lookup_total_correct. unfold span_tokens. by rewrite list_lookup_imap, Hn. Qed.
Lemma draft_list i id v n : cell b gs i = Some (id, v) → ns !! i = Some n → draft_lists !! i = Some (v_drafts v).
Proof. intros Hc Hn. unfold draft_lists. by rewrite list_lookup_imap, Hn, Hc. Qed.

Lemma drafts_counted : ∃ r2, count_drafts b drafts (replicate (Z.to_nat (zlen ns)) 0) (replicate (Z.to_nat (zlen ns)) (-1)) = Ok (zlen <$> draft_lists, r2) ∧
  zlen r2 = zlen ns.
Proof.
  destruct (if_keys _ _ _ _ Hfit) as [K1 K2]. pose proof (if_length _ _ _ _ Hfit) as Hlen.
  destruct (count_drafts_ok drafts (replicate (Z.to_nat (zlen ns)) 0) (replicate (Z.to_nat (zlen ns)) (-1)) K1 K2) as (r1 & r2 & E & R1 & R2 & HR).
  { rewrite length_replicate. unfold zlen. lia. } { rewrite length_replicate. unfold zlen. lia. }
  exists r2. rewrite length_replicate in R1, R2. split; [|unfold zlen in *; lia]. rewrite E. do 2 f_equal. apply list_eq. intros i. rewrite list_lookup_fmap.
  destruct (ns !! i) as [n|] eqn:Hn.
  - destruct (span_request i n Hn) as (id & s & d & out & Hl & Hs & _ & Hc & _). destruct (HR i id s Hl Hs) as [-> _].
    rewrite (draft_list i id _ n Hc Hn). destruct (if_drafts _ _ _ _ Hfit i id _ n Hc Hn) as [Hv _].
    rewrite (f_equal v_drafts Hv). simpl. unfold drafts_of. destruct (dict_get drafts id) as [toks|]; [done|]. simpl.
    rewrite lookup_replicate_2; [done|]. apply lookup_lt_Some in Hn. unfold zlen. lia.
  - unfold draft_lists. rewrite list_lookup_imap, Hn. simpl. apply lookup_ge_None. apply lookup_ge_None in Hn. unfold zlen in R1. lia.
Qed.

Lemma count_drafts_tables ts ds l1 l2 : count_drafts (set_table b ts) ds l1 l2 = count_drafts b ds l1 l2.
Proof.
  revert l1 l2. induction ds as [|[x toks] ds IH]; intros l1 l2; [done|]. cbn [count_drafts]. change (req_id_to_index (set_table b ts)) with (req_id_to_index b).
  change (slots (set_table b ts)) with (slots b). destruct (match dict_get _ _ with Some _ => _ | None => _ end); [|done]. cbn [mbind result_bind].
  destruct (np_set l1 _ _); [|done]. cbn [mbind result_bind]. destruct (py_index _ _); [|done]. cbn [mbind result_bind].
  destruct (if _ <=? _ then _ else _); [|done]. cbn [mbind result_bind]. apply IH.
Qed.

Lemma known_tokens_ok : ∃ ts, known_num_tokens mr = Ok ts ∧ length ts = length ns ∧
  ∀ i id r total, live b i id → dict_get (requests mr) id = Some r → num_tokens r = Ok total → ts !! i = Some (int32 total) ∧ 0 ≤ total ≤ Z.of_nat w.
Proof.
  pose proof batch_fine as Hb. pose proof (id_coherent _ _ _ Hidle) as Hco. destruct (id_dense _ _ _ Hidle) as (_ & Hd & _). unfold known_num_tokens.
  assert (∀ i id, live b i id → ∃ r n, dict_get (requests mr) id = Some r ∧ num_tokens r = Ok (Z.of_nat n + zlen (output_token_ids r)) ∧
    Z.of_nat n + zlen (output_token_ids r) ≤ Z.of_nat w) as Hk.
  { intros i id Hl. destruct (live_slot w b gs i id Hb Hl) as (s & d & o & Q1 & Q2 & Q3).
    destruct (ch_shows _ _ _ _ Hco i id _ (cell_eq b gs i id s d o Hl Q1 Q2 Q3)) as (r & Hr & _). destruct (ch_wf _ _ _ _ Hco id r Hr) as (_ & n & Hwf).
    pose proof (wf_tokens _ _ _ _ _ _ Hwf) as Htf. exists r, n. split; [done|]. unfold num_tokens. rewrite (tf_len _ _ _ Htf).
    split; [done|]. pose proof (tf_fits _ _ _ Htf). unfold zlen. lia. }
  destruct (result_map_ok (λ o, match o with
                   | Some id => match dict_get (requests mr) id with Some r => num_tokens r ≫= λ n, Ok (int32 n) | None => Err KeyError end
                   | None => Err KeyError
                   end) (_req_ids b)) as [ts Hts].
  { intros o Ho. apply list_elem_of_lookup in Ho as [i Hi]. destruct (Hd i (lookup_lt_Some _ _ _ Hi)) as [id Hl]. unfold live in Hl.
    rewrite Hi in Hl. injection Hl as ->. destruct (Hk i id Hi) as (r & n & Hr & Hn & _). rewrite Hr, Hn. eauto. }
  exists ts. split; [exact Hts|]. apply result_map_Forall2 in Hts. split; [rewrite (if_length _ _ _ _ Hfit); symmetry; by eapply Forall2_length|].
  intros i id r total Hl Hr Ht. destruct (Hk i id Hl) as (r' & n & Hr' & Hn & Hle). assert (r' = r) as -> by congruence.
  destruct (Forall2_lookup_l _ _ _ _ _ Hts Hl) as (y & Hy & E). rewrite Hr, Ht in E. cbn [mbind result_bind] in E. split; [congruence|].
  pose proof (zlen_nonneg (output_token_ids r)). assert (total = Z.of_nat n + zlen (output_token_ids r)) as -> by congruence. lia.
Qed.

(** *** The inputs *)

(** Which rows of logits are computed: the last token of each request, and its drafts. *)
Definition logits_ready (logits : list Z) (md : option SpecDecodeMetadata) : Prop :=
  match drafts with
  | [] => md = None ∧ logits = (λ e, e - 1) <$> np_cumsum id 0 ns
  | _ => ∃ m, md = Some m ∧ logits = logits_indices m ∧ drafts_selected ns (zlen <$> draft_lists) segs m ∧ draft_token_ids m = mjoin draft_lists
  end.

(** Token [j] of the request at index [i] is at the start of the request plus [j], with
    its position, its id where it has one, and its slot in every group. *)
Record inputs_ready (logits : list Z) (md : option SpecDecodeMetadata) (mr' : ModelRunner) (bf' : Buffers) : Prop := {
  ir_buffers : buffers_ok (max_num_reqs b) tokens bf';
  ir_tokens : ∀ i id v n j, cell b gs i = Some (id, v) → ns !! i = Some n → 0 ≤ j < n →
    let k := (Z.to_nat (sumZ (take i ns)) + Z.to_nat j)%nat in
    positions bf' !! k = Some (v_num_computed v + j) ∧
    ∀ t, v_tokens v !! Z.to_nat (v_num_computed v + j) = Some (Some t) → input_ids_gpu bf' !! k = Some t;
  ir_locs : query_start_loc bf' = 0 :: np_cumsum id 0 ns ++ replicate (Z.to_nat (max_num_reqs b) - length ns) (sumZ ns);
  ir_lens : ∀ i id v n, cell b gs i = Some (id, v) → ns !! i = Some n → seq_lens bf' !! i = Some (v_num_computed v + n) ∧
    ∀ r total, dict_get (requests mr) id = Some r → num_tokens r = Ok total →
      discard_request_mask bf' !! i = Some (v_num_computed v + n <? total);
  ir_slots : ∀ k t g, block_table b !! k = Some t → gs !! k = Some g → ∃ t', block_table (input_batch mr') !! k = Some t' ∧
    slot_mapping t' = slots_spec (bt_block_size t) (total_cp_world_size t) (total_cp_rank t) (cp_kv_cache_interleave_size t)
      (bt_max_num_batched_tokens t) (g_rows g) batch;
  ir_logits : logits_ready logits md;
  ir_idle : idle w mr' gs;
  ir_same : ∃ ts, mr' = set_batch (set_table b ts) mr;
}.

Lemma idle_tables ts : Forall2 table_ok ts gs → idle w (set_batch (set_table b ts) mr) gs.
Proof.
  intros Hts. destruct Hidle as [[Hb Hl Hk Hw Hs] Hd Hu]. split; [|done..].
  split; [destruct Hb; by split|destruct Hl; by split|done..].
Qed.

(** The end of the function, for any device buffer that starts with the tokens. *)
Lemma select_logits_ok so rest bf1 : scheduled_spec_decode_tokens so = drafts → arange_np bf1 = arange_np bf → _arange_scratch bf1 = _arange_scratch bf →
  input_ids_gpu bf1 = mjoin segs ++ rest → num_decode_draft_tokens bf1 = num_decode_draft_tokens bf →
  query_start_loc bf1 = 0 :: np_cumsum id 0 ns ++ replicate (Z.to_nat (max_num_reqs b) - length ns) (sumZ ns) → buffers_ok (max_num_reqs b) tokens bf1 →
  ∀ ts, ∃ logits md bf2, select_logits so (zlen ns) (np_cumsum id 0 ns) (set_table b ts) bf1 = Ok (logits, md, bf2) ∧ logits_ready logits md ∧
    buffers_ok (max_num_reqs b) tokens bf2 ∧ (positions bf2, input_ids_gpu bf2, query_start_loc bf2, seq_lens bf2, discard_request_mask bf2) =
      (positions bf1, input_ids_gpu bf1, query_start_loc bf1, seq_lens bf1, discard_request_mask bf1).
Proof.
  intros Hso Ha Hsc Hg Hnd Hq Hb1 ts. unfold select_logits. pose proof ns_pos as Hp. pose proof ns_some as Hne.
  pose proof (if_total _ _ _ _ Hfit) as Ht. destruct (if_small _ _ _ _ Hfit) as [Hsm _]. pose proof (sumZ_nonneg ns Hp) as H0. unfold logits_ready.
  rewrite <-Hso. destruct (scheduled_spec_decode_tokens so) as [|x l] eqn:Ed.
  - eexists _, None, bf1. split; [reflexivity|]. split; [|done]. split; [done|]. rewrite Hq, app_comm_cons, slice_front.
    2:{ rewrite zlen_cons. unfold zlen. by rewrite length_cumsum. }
    assert (∀ l : list Z, py_from (0 :: l) 1 = l) as ->.
    { intros l. unfold py_from. rewrite clamp_index_pos by (simpl; lia). done. }
    apply list_fmap_ext. intros i e Hi. apply int32_small.
    destruct (lookup_lt_is_Some_2 ns i) as [n Hn]; [apply lookup_lt_Some in Hi; by rewrite length_cumsum in Hi|].
    destruct (cumsum_lookup 0 ns i n Hn) as [_ Hc]. rewrite Hi in Hc. injection Hc as ->. destruct (sumZ_take ns i n Hp Hn).
    destruct (span_request i n Hn) as (id & s & d & out & _ & _ & _ & Hcell & _). destruct (if_tokens _ _ _ _ Hfit i id _ n Hcell Hn). lia.
  - destruct drafts_counted as (r2 & E1 & L1). rewrite <-Hso in E1.
    rewrite count_drafts_tables, E1. cbn [mbind result_bind].
    rewrite Ha, Hsc, Hg, (bu_arange _ _ _ Hbuf).
    destruct (spec_decode_ok (Z.max (max_num_reqs b + 1) tokens) ns (zlen <$> draft_lists) segs rest) with (scratch := _arange_scratch bf)
      as (m & scratch' & E2 & Hsel & L2); [done| | | |lia|lia|rewrite (bu_scratch _ _ _ Hbuf); lia|].
    { apply list_eq. intros i. rewrite list_lookup_imap. destruct (ns !! i) as [n|] eqn:Hn.
      - rewrite (segs_eq i n Hn). unfold span_tokens. by rewrite list_lookup_imap, Hn.
      - unfold span_tokens. by rewrite list_lookup_imap, Hn. }
    { intros i n Hn. rewrite (segs_eq i n Hn), (segs_length i n Hn). split; [done|]. destruct (span_request i n Hn) as (id & s & d & out & _ & _ & _ & Hc & _).
      rewrite list_lookup_fmap, (draft_list i id _ n Hc Hn). eexists. split; [reflexivity|]. split; [apply zlen_nonneg|].
      destruct (if_tokens _ _ _ _ Hfit i id _ n Hc Hn) as [Hn0 _]. destruct (if_drafts _ _ _ _ Hfit i id _ n Hc Hn) as [_ Hd].
      destruct (decide (v_drafts (view (is_pooling_model b) s d out (blocks_at gs i) (tags b id)) = [])) as [->|Hx]; [unfold zlen; simpl; lia|].
      by destruct (Hd Hx) as [? _]. }
    { rewrite length_fmap. unfold draft_lists. by rewrite length_imap. }
    rewrite E2. cbn [mbind result_bind]. pose proof num_reqs_cap as Hcap. pose proof (bu_decode _ _ _ Hbuf) as Hdec.
    rewrite Hnd, (store_padded_ok _ r2) by (done || (unfold zlen in *; lia)). cbn [mbind result_bind].
    eexists _, (Some m), _. split; [reflexivity|]. split.
    { exists m. split_and!; try done. rewrite (ds_drafts _ _ _ _ Hsel). f_equal. unfold draft_tokens, draft_lists at 2. rewrite imap_fmap.
      apply list_eq. intros i. rewrite !list_lookup_imap. destruct (ns !! i) as [n|] eqn:Hn.
      - destruct (span_request i n Hn) as (id & s & d & out & _ & _ & _ & Hc & _). rewrite (draft_list i id _ n Hc Hn), Hc. cbn [fmap option_fmap option_map default].
        f_equal. rewrite (segs_eq i n Hn), (list_lookup_total_correct _ _ _ Hn). cbv [compose].
        assert (∀ l : list Z, Z.to_nat (zlen l) = length l) as -> by (intros; unfold zlen; lia). by apply (seg_drafts i id).
      - unfold draft_lists. by rewrite list_lookup_imap, Hn. }
    split; [|done]. destruct Hb1. split; simpl; try done.
    + unfold zlen in *. rewrite L2. apply Hbuf.
    + by rewrite <-Hg.
    + unfold zlen in *. rewrite length_app, length_replicate. lia.
Qed.

Lemma rows_width : Forall (λ row, zlen row = Z.of_nat w) rows.
Proof. apply Forall_fmap. eapply Forall_impl; [apply batch_fine|]. intros s [Hs _]. unfold zlen. simpl. lia. Qed.

(** The sequence lengths. *)
Abbreviation lens := (imap (λ i n, (all !!! i) + n) ns).
Lemma lens_ok : np_zip (λ c n, int32 (c + n)) (py_slice all 0 (zlen ns)) ns = Ok lens.
Proof.
  assert (length ns ≤ length all)%nat as Hl.
  { rewrite length_fmap. pose proof (bo_cap _ _ _ batch_fine). pose proof (if_length _ _ _ _ Hfit). lia. }
  rewrite py_slice_pos, drop_0 by (unfold zlen; lia). rewrite np_zip_eq by (rewrite length_take; unfold zlen; lia). f_equal.
  apply list_eq. intros i. rewrite lookup_zip_with, list_lookup_imap. destruct (ns !! i) as [n|] eqn:Hn; [|by destruct (take _ _ !! i)].
  rewrite lookup_take_lt by (apply lookup_lt_Some in Hn; unfold zlen; lia). destruct (span_fits i n Hn) as (Hn0 & c & row & Hc & _ & Hc0 & Hw).
  rewrite Hc, (list_lookup_total_correct _ _ _ Hc). simpl. f_equal. apply int32_small. destruct (if_small _ _ _ _ Hfit). lia.
Qed.

Lemma lens_lookup i id v n : cell b gs i = Some (id, v) → ns !! i = Some n → all !!! i = v_num_computed v ∧ lens !! i = Some (v_num_computed v + n) ∧
  0 ≤ v_num_computed v + n ≤ Z.of_nat w.
Proof.
  intros Hc Hn. destruct (span_request i n Hn) as (id' & s & d & out & _ & _ & _ & Hc' & _ & _ & Ha & _ & Hl). simpl in Hc'. rewrite Hc in Hc'.
  injection Hc' as <- ->. destruct (if_tokens _ _ _ _ Hfit i id _ n Hc Hn) as (H1 & H2 & H3). rewrite list_lookup_imap, Hn, (list_lookup_total_correct _ _ _ Ha).
  simpl in *. split; [done|]. split; [done|]. lia.
Qed.

Lemma ready_intro logits md ts bf' kt r1 r2 r3 r4 : buffers_ok (max_num_reqs b) tokens bf' →
  positions bf' = mjoin batch ++ r1 → input_ids_gpu bf' = mjoin segs ++ r2 →
  query_start_loc bf' = 0 :: np_cumsum id 0 ns ++ replicate (Z.to_nat (max_num_reqs b) - length ns) (sumZ ns) →
  seq_lens bf' = lens ++ r3 → discard_request_mask bf' = zip_with Z.ltb lens kt ++ r4 →
  (∀ i id r total, live b i id → dict_get (requests mr) id = Some r → num_tokens r = Ok total → kt !! i = Some (int32 total) ∧ 0 ≤ total ≤ Z.of_nat w) →
  Forall2 table_ok ts gs →
  (∀ k t g, block_table b !! k = Some t → gs !! k = Some g → ∃ t', ts !! k = Some t' ∧
    slot_mapping t' = slots_spec (bt_block_size t) (total_cp_world_size t) (total_cp_rank t) (cp_kv_cache_interleave_size t)
      (bt_max_num_batched_tokens t) (g_rows g) batch) →
  logits_ready logits md → inputs_ready logits md (set_batch (set_table b ts) mr) bf'.
Proof.
  intros Hbf S1 S2 S3 S4 S5 Hkt Hts Hsl Hlog. split; try done.
  - intros i id v n j Hc Hn Hj. destruct (lens_lookup i id v n Hc Hn) as (Ha & _ & _). rewrite S1, S2. split.
    + apply (segments_lookup ns (λ i n, seqZ (all !!! i) n) _ i n); [|done|].
      * intros k m Hm. unfold zlen. rewrite length_seqZ. destruct (span_fits k m Hm). lia.
      * rewrite lookup_seqZ_lt, Ha by lia. f_equal. lia.
    + intros t Ht. apply (segments_lookup ns (λ i n, take (Z.to_nat n) (drop (Z.to_nat (all !!! i)) (rows !!! i))) _ i n); [apply segs_length|done|].
      by apply (seg_token i id v n).
  - intros i id v n Hc Hn. destruct (lens_lookup i id v n Hc Hn) as (_ & Hl & Hb). rewrite S4, S5. split; [by apply lookup_app_l_Some|].
    intros r total Hr Ht. apply lookup_app_l_Some. destruct (Hkt i id r total (cell_live _ _ _ _ _ Hc) Hr Ht) as [K1 K2].
    rewrite lookup_zip_with, Hl, K1. simpl. rewrite int32_small; [done|]. destruct (if_small _ _ _ _ Hfit). lia.
  - by apply idle_tables.
  - by exists ts.
Qed.

Lemma on_table_each f (c : InputBatch) ts : each_table f 0 (block_table c) = Ok ts → on_table (each f) c = Ok (tt, set_table c ts).
Proof. intros E. unfold on_table, zoom, each. by rewrite E. Qed.

Lemma prepare_ok so : scheduled_spec_decode_tokens so = drafts → ∃ logits md mr' bf',
  _prepare_inputs (Z.of_nat w) so (sumZ ns) ns mr bf = Ok (logits, md, mr', bf') ∧ inputs_ready logits md mr' bf'.
Proof.
  intros Hso. pose proof ns_pos as Hp. pose proof ns_some as Hne. pose proof num_reqs_cap as Hcap. pose proof (if_total _ _ _ _ Hfit) as Ht.
  destruct (if_small _ _ _ _ Hfit) as [Hsm Hwm]. pose proof (sumZ_nonneg ns Hp) as H0. destruct zlen_batch as [Z1 Z2]. pose proof Hbuf as [B1 B2 B3 B4 B5 B6 B7 B8 B9 B10 B11].
  assert (0 < sumZ ns ∧ 0 < zlen ns) as [Hpos Hlen].
  { destruct (lookup_lt_is_Some_2 ns 0) as [n Hn]; [by destruct ns as [|? ?]; [|simpl; lia]|].
    destruct (span_request 0 n Hn) as (id & s & d & out & _ & _ & _ & Hc & _). destruct (if_tokens _ _ _ _ Hfit 0%nat id _ n Hc Hn) as [Hn0 _].
    destruct (sumZ_take ns 0 n Hp Hn). apply lookup_lt_Some in Hn. unfold zlen. lia. }
  destruct (tables_mapped batch (block_table b) gs 0 (bo_tables _ _ _ batch_fine) batch_tables) as (ts1 & ts2 & T1 & T2 & T3 & T4 & T5).
  unfold _prepare_inputs. rewrite num_reqs_ns, !(proj2 (Z.leb_gt _ _)) by done. cbn [orb].
  rewrite Z1 in T1, T2. unfold multi_commit_block_table. rewrite (on_table_each _ _ _ T1). cbn [mbind result_bind].
  change (slots (set_table b ts1)) with (slots b). rewrite B1.
  rewrite (request_indices_ok (Z.max (max_num_reqs b + 1) tokens) (Z.of_nat w) rows all ns span_fits) by lia. cbn [mbind result_bind].
  rewrite cumsum_and_arange_ok by (done || lia). cbn [mbind result_bind]. rewrite (cumsum_last 0 ns Hne), Z.add_0_l. cbn [mbind result_bind].
  rewrite (computed_ok (Z.of_nat w) rows all ns span_fits). cbn [mbind result_bind]. rewrite slice_front by (by rewrite length_segments).
  rewrite (np_zip_eq Z.add) by apply length_spans. cbn [mbind result_bind]. rewrite (positions_ok all ns).
  rewrite (np_zip_eq (λ p i, p + i * Z.of_nat w)) by apply length_spans. cbn [mbind result_bind]. rewrite (token_indices_ok (Z.of_nat w) all ns).
  rewrite (gather_rows_ok (Z.of_nat w) rows all ns span_fits rows_width). cbn [mbind result_bind]. pose proof zlen_segs as Zs.
  rewrite np_store_eq by (done || (unfold zlen in *; lia)). cbn [mbind result_bind].
  rewrite start_locs_ok; [|unfold zlen; by rewrite length_cumsum| | |].
  2:{ intros E. apply (f_equal length) in E. rewrite length_cumsum in E. unfold zlen in Hlen. simpl in E. lia. }
  2:{ rewrite length_cumsum. unfold zlen in *. lia. }
  2:{ apply Forall_lookup. intros i e Hi. destruct (lookup_lt_is_Some_2 ns i) as [n Hn]; [apply lookup_lt_Some in Hi; by rewrite length_cumsum in Hi|].
      destruct (cumsum_lookup 0 ns i n Hn) as [_ Hc]. rewrite Hi in Hc. injection Hc as ->. destruct (sumZ_take ns i n Hp Hn).
      pose proof (Forall_lookup_1 _ _ _ _ Hp Hn). simpl in *. lia. }
  rewrite (last_cumsum 0 ns Hne), length_cumsum. simpl default.
  replace (length (query_start_loc bf) - S (length ns))%nat with (Z.to_nat (max_num_reqs b) - length ns)%nat by (unfold zlen in *; lia).
  set (locs := 0 :: np_cumsum id 0 ns ++ _). cbn [mbind result_bind]. rewrite lens_ok. cbn [mbind result_bind].
  rewrite (store_padded_ok (optimistic_seq_lens_cpu bf)) by (unfold zlen in *; rewrite ?length_imap; lia). cbn [mbind result_bind].
  destruct known_tokens_ok as (kt & K1 & K2 & K3). rewrite K1. cbn [mbind result_bind]. rewrite slice_front by (unfold zlen; by rewrite length_imap).
  rewrite np_zip_eq by (by rewrite length_imap). cbn [mbind result_bind].
  assert (zlen ns = zlen (zip_with Z.ltb lens kt)) as Hzl by (unfold zlen; rewrite length_zip_with, length_imap; lia).
  rewrite np_put_front by (done || (unfold zlen in *; lia)). cbn [mbind result_bind]. rewrite np_put_front by (done || (unfold zlen in *; lia)). cbn [mbind result_bind].
  rewrite store_padded_ok by (unfold zlen in *; rewrite ?length_imap; lia). cbn [mbind result_bind].
  assert (py_slice locs 0 (zlen ns + 1) = starts_from 0 batch) as ->.
  { rewrite batch_starts. unfold locs. rewrite app_comm_cons. apply slice_front. rewrite zlen_cons. unfold zlen. rewrite length_cumsum. lia. }
  rewrite slice_front by done. unfold multi_compute_slot_mapping. rewrite (on_table_each _ (set_table b ts1) _ T2). cbn [mbind result_bind].
  assert (copy_to_gpu (sumZ ns) (mjoin segs ++ drop (length (mjoin segs)) (input_ids bf)) (input_ids_gpu bf) = mjoin segs ++ drop (Z.to_nat (sumZ ns)) (input_ids_gpu bf)) as ->.
  { unfold copy_to_gpu. f_equal. rewrite <-Zs. unfold zlen. rewrite Nat2Z.id. apply take_app_length. }
  match goal with |- context [select_logits _ _ _ _ ?x] => set (bf1 := x) end.
  assert (buffers_ok (max_num_reqs b) tokens bf1) as Hb1.
  { split; simpl; try done; unfold zlen in *; rewrite ?length_app, ?length_drop, ?length_replicate, ?length_zip_with, ?length_imap; simpl; rewrite ?length_app, ?length_cumsum, ?length_replicate; try lia.
    pose proof (length_segments ns Hp) as E. unfold zlen in E. lia. }
  destruct (select_logits_ok so (drop (Z.to_nat (sumZ ns)) (input_ids_gpu bf)) bf1 Hso) with (ts := ts2) as (logits & md & bf2 & E & Hlog & Hb2 & Hsame); try done.
  change (set_table (set_table b ts1) ts2) with (set_table b ts2). rewrite E. cbn [mbind result_bind].
  injection Hsame as S1 S2 S3 S4 S5. eexists logits, md, _, bf2. split; [reflexivity|].
  eapply (ready_intro _ _ ts2 bf2 kt); try done. intros k t g Hk Hg. destruct (T5 k t g Hk Hg) as (t' & Ht' & _ & Hm). eauto.
Qed.
End batch.
