(* ===== verification/RunnerReachable.v ===== *)
(** * The runner follows the scheduler for ever

    Every sequence of steps whose scheduler outputs keep the promise of
    [ModelRunnerStep.schedule_ok] runs without exception, and after each of them the
    persistent batch holds exactly the scheduled requests as the runner knows them.

    [runs] are the runs of a runner built by [new_input_batch] and [new_buffers]: updates,
    steps that prepare inputs, and recordings of sampled tokens, with a logits processor
    that applies every batch update. A state is [reachable] if a run ends in it. The
    theorems say what each operation does there; the demonstration at the end runs two
    requests, one of them with drafts. *)

From Stdlib Require Import ZArith Lia.
From stdpp Require Import list numbers gmap strings sorting.
From S2P Require Import Prelude MathUtils BlockTable SlotMapping BatchUpdate InputBatch InputBatchSafe InputBatchStep InputBatchTouch.
From S2P Require Import ReorderBatch ModelRunner ModelRunnerSafe ModelRunnerTrace ModelRunnerStep PrepareInputs PrepareSafe.
Local Open Scope Z_scope.

Section reachable.
Context `{Float}.
Context (set_order : gset string → list string) (get_pooling_updates : PoolingParams → result PoolingParams).
Context (num_kv_cache_groups : Z) (reorder_batch_threshold : option Z) (w : nat) (max_num_tokens : Z).
Hypothesis set_order_perm : ∀ X, set_order X ≡ₚ elements X.

Lemma in_order (X : gset string) x : x ∈ set_order X ↔ x ∈ X.
Proof. by rewrite set_order_perm, elem_of_elements. Qed.

Definition scheduled_ids (so : SchedulerOutput) : list string :=
  (nd_req_id <$> scheduled_new_reqs so) ++ cd_req_ids (scheduled_cached_reqs so).

(** What the runner knows of a request after a step, by what the scheduler says of it. *)
Record request_after (so : SchedulerOutput) (mr : ModelRunner) (id : string) (o : option CachedRequestState) : Prop := {
  ra_new : ∀ d, d ∈ scheduled_new_reqs so → nd_req_id d = id →
    ∃ r, o = Some r ∧ new_becomes get_pooling_updates (is_pooling_model (input_batch mr)) (requests (forget_finished set_order so mr)) d r;
  ra_cached : ∀ i, cd_req_ids (scheduled_cached_reqs so) !! i = Some id →
    ∃ r, o = Some r ∧ cached_becomes (scheduled_cached_reqs so) (requests (forget_finished set_order so mr)) i id r;
  ra_other : id ∉ scheduled_ids so → o = if decide (id ∈ finished_req_ids so) then None else dict_get (requests mr) id;
}.

Section one_step.
Context {T : Type} (f : added_info → option T) (E : gmap Z T) (truthy : T → bool).

Lemma idle_mid drafts mr gs : idle w mr gs →
  (is_pooling_model (input_batch mr) = false → tracks (proc_state f (requests mr)) (cell (input_batch mr) gs) (λ _, False) E) →
  mid f E drafts w (λ _, False) (requests mr) (input_batch mr) gs ∧ _is_removed_sorted (bu (input_batch mr)) = false.
Proof.
  intros [Hc (D1 & D2 & D3) Hu] Ht. split; [|by rewrite Hu]. split; try done; [|by rewrite Hu|].
  - split; rewrite Hu; simpl; [constructor| |done]. intros z. rewrite elem_of_nil. split; [done|]. intros (i & _ & Hi).
    destruct (D2 i (lookup_lt_Some _ _ _ Hi)) as [x Hx]. unfold live in Hx. congruence.
  - intros Hp. rewrite Hu. eapply tracks_impl; [| |by apply Ht]; done.
Qed.

Lemma live_dec b gs x : batch_ok w b gs → (∃ i, live b i x) ∨ ∀ i, ¬ live b i x.
Proof.
  intros Hb. destruct (dict_get (req_id_to_index b) x) as [z|] eqn:E0.
  - apply (bo_index _ _ _ Hb) in E0 as (i & _ & Hi). eauto.
  - right. intros i Hi. assert (dict_get (req_id_to_index b) x = Some (Z.of_nat i)) by (apply (bo_index _ _ _ Hb); eauto). congruence.
Qed.

Lemma unscheduled_spec so b gs i x : batch_ok w b gs → live b i x →
  x ∉ set_order (unscheduled_req_ids so b) ↔ x ∈ (num_scheduled_tokens so).*1 ∧ x ∉ cd_resumed_req_ids (scheduled_cached_reqs so).
Proof.
  intros Hb Hl. rewrite in_order. unfold unscheduled_req_ids.
  assert (x ∈ (req_id_to_index b).*1) as Hx by (apply dict_get_is_Some; exists (Z.of_nat i); apply (bo_index _ _ _ Hb); eauto).
  rewrite elem_of_difference, elem_of_difference, !elem_of_list_to_set.
  destruct (decide (x ∈ (num_scheduled_tokens so).*1)), (decide (x ∈ cd_resumed_req_ids (scheduled_cached_reqs so))); tauto.
Qed.

(** The first half: the requests that are no longer scheduled leave. *)
Lemma leave_ok mr gs so : idle w mr gs →
  (is_pooling_model (input_batch mr) = false → tracks (proc_state f (requests mr)) (cell (input_batch mr) gs) (λ _, False) E) →
  ∃ mr' gs', (∀ X (k : M ModelRunner X), (modify (forget_finished set_order so) ≫= λ _,
      forM (set_order (finished_req_ids so)) (λ id, on_batch (remove_request id);; mret tt) ≫= λ _,
      modify (λ mr, set_encoder_cache (foldl dict_del (encoder_cache mr) (free_encoder_mm_hashes so)) mr) ≫= λ _, get ≫= λ mr,
      forM (set_order (unscheduled_req_ids so (input_batch mr))) (λ id, on_batch (remove_request id);; mret tt) ≫= λ _, k) mr = k mr') ∧
    mid f E (scheduled_spec_decode_tokens so) w (λ _, False) (requests mr') (input_batch mr') gs' ∧ _is_removed_sorted (bu (input_batch mr')) = false ∧
    same_setup (input_batch mr) gs (input_batch mr') gs' ∧ requests mr' = requests (forget_finished set_order so mr) ∧
    ∀ i x, live (input_batch mr') i x → x ∈ (num_scheduled_tokens so).*1 ∧ x ∉ cd_resumed_req_ids (scheduled_cached_reqs so).
Proof.
  intros Hi Ht. destruct (idle_mid (scheduled_spec_decode_tokens so) mr gs Hi Ht) as [M0 U0].
  set (mr1 := forget_finished set_order so mr).
  destruct (remove_all_mid f E (scheduled_spec_decode_tokens so) w (λ _, False) (requests mr) mr1 gs (set_order (finished_req_ids so)) M0 U0) as (b2 & gs2 & E2 & M2 & U2 & S2 & L2).
  set (mr2 := set_encoder_cache (foldl dict_del (encoder_cache mr) (free_encoder_mm_hashes so)) (set_batch b2 mr1)).
  assert (mid f E (scheduled_spec_decode_tokens so) w (λ _, False) (requests mr1) b2 gs2) as M2'.
  { apply mid_forget; [done|]. intros i x Hl. apply L2 in Hl. tauto. }
  destruct (remove_all_mid f E (scheduled_spec_decode_tokens so) w (λ _, False) (requests mr1) mr2 gs2
    (set_order (unscheduled_req_ids so b2)) M2' U2) as (b3 & gs3 & E3 & M3 & U3 & S3 & L3).
  exists (set_batch b3 mr2), gs3. split; [|split_and!; try done].
  - intros X k. mstep. fold mr1. rewrite (bind_ok _ _ _ _ _ E2). mstep. mstep. by rewrite (bind_ok _ _ _ _ _ E3).
  - by eapply same_setup_trans.
  - intros i x Hl. apply L3 in Hl as [Hl Hx]. eapply unscheduled_spec; [|exact Hl|exact Hx]. apply M2.
Qed.

(** The two loops together. *)
Lemma after_both mr so mr1 b1 b2 drafts reqs2 reqs3 x :
  NoDup (nd_req_id <$> scheduled_new_reqs so) ∧ (∀ x, x ∈ nd_req_id <$> scheduled_new_reqs so → x ∉ cd_req_ids (scheduled_cached_reqs so)) ∧
    NoDup (cd_req_ids (scheduled_cached_reqs so)) →
  NoDup (requests mr).*1 → is_pooling_model b1 = is_pooling_model (input_batch mr) → mr1 = requests (forget_finished set_order so mr) →
  follows drafts w (nd_req_id <$> scheduled_new_reqs so)
    (λ id r, ∃ d, d ∈ scheduled_new_reqs so ∧ nd_req_id d = id ∧ new_becomes get_pooling_updates (is_pooling_model b1) mr1 d r) b1 mr1 reqs2 →
  follows drafts w (cd_req_ids (scheduled_cached_reqs so))
    (λ id r, ∃ j, cd_req_ids (scheduled_cached_reqs so) !! j = Some id ∧ cached_becomes (scheduled_cached_reqs so) reqs2 (0 + j) id r) b2 reqs2 reqs3 →
  request_after so mr x (dict_get reqs3 x).
Proof.
  intros (N1 & N2 & N3) Hk Hp -> [F1 F2] [G1 G2]. set (reqs1 := requests (forget_finished set_order so mr)) in *. split.
  - intros d Hd <-. assert (nd_req_id d ∈ nd_req_id <$> scheduled_new_reqs so) as Hx by (apply list_elem_of_fmap; eauto).
    destruct (F2 _ Hx) as (r & Hr & _ & d' & Hd' & Heq & Hb). rewrite G1 by auto. exists r. split; [done|]. rewrite <-Hp.
    apply list_elem_of_lookup in Hd as [i Hi], Hd' as [j Hj]. assert (i = j) as ->; [|by simplify_eq].
    eapply NoDup_lookup; [exact N1| |]; rewrite list_lookup_fmap; [by rewrite Hi|rewrite Hj; simpl; by rewrite Heq].
  - intros i Hi. destruct (G2 x) as (r & Hr & _ & j & Hj & r0 & row & Hr0 & Hrow & Hb); [by eapply list_elem_of_lookup_2|].
    exists r. split; [done|]. assert (i = j) as <- by (eapply NoDup_lookup; [exact N3|done|done]). exists r0, row. split_and!; try done.
    rewrite <-Hr0. symmetry. apply F1. intros Hx. apply (N2 x Hx). by eapply list_elem_of_lookup_2.
  - unfold scheduled_ids. intros Hx. rewrite elem_of_app in Hx. rewrite G1, F1 by tauto. unfold reqs1. simpl.
    rewrite (proj2 (dict_del_all _ _ Hk)). by rewrite (decide_ext _ _ _ _ (in_order _ _)).
Qed.

Lemma update_states_ok mr gs so : idle w mr gs → schedule_ok set_order get_pooling_updates w mr so →
  (is_pooling_model (input_batch mr) = false → tracks (proc_state f (requests mr)) (cell (input_batch mr) gs) (λ _, False) E) →
  ∃ u mr' gs', _update_states set_order get_pooling_updates true num_kv_cache_groups reorder_batch_threshold so mr = Ok (u, mr') ∧
    stepped num_kv_cache_groups reorder_batch_threshold (scheduled_spec_decode_tokens so) w (num_scheduled_tokens so) (requests mr') (input_batch mr') gs' ∧
    same_setup (input_batch mr) gs (input_batch mr') gs' ∧ (∀ x, (∃ i, live (input_batch mr') i x) ↔ x ∈ scheduled_ids so) ∧
    (∀ x, request_after so mr x (dict_get (requests mr') x)) ∧
    (is_pooling_model (input_batch mr) = false →
       tracks (proc_state f (requests mr')) (cell (input_batch mr') gs') (λ _, False) (process_dict_updates truthy f E u).1).
Proof.
  intros Hi [Hnd Hnew Hcached Htok Hcap] Ht. set (drafts := scheduled_spec_decode_tokens so) in *. set (cached := scheduled_cached_reqs so) in *.
  destruct (leave_ok mr gs so Hi Ht) as (mr1 & gs1 & E1 & M1 & U1 & S1 & R1 & L1). fold drafts in M1.
  pose proof (ch_batch _ _ _ _ (id_coherent _ _ _ Hi)) as Hb. pose proof (mid_batch _ _ _ _ _ _ _ _ M1) as Hb1.
  apply NoDup_app in Hnd as (N1 & N2 & N3).
  destruct (new_reqs_mid get_pooling_updates f E drafts w (λ _, False) mr1 gs1 (scheduled_new_reqs so) M1 U1 N1) as (mr2 & gs2 & E2 & M2 & S2 & L2 & F2).
  { intros d Hd. rewrite R1. eapply new_ok_setup; [exact Hb|exact Hb1|done|by apply Hnew]. }
  pose proof (mid_batch _ _ _ _ _ _ _ _ M2) as Hb2. pose proof (same_setup_trans _ _ _ _ _ _ S1 S2) as S12.
  destruct (cached_reqs_mid f E drafts w (λ _, False) mr2 gs2 cached 0 (cd_req_ids cached) M2 N3) as (l & mr3 & gs3 & E3 & M3 & S3 & L3 & F3 & Nl & Cl).
  { intros j x Hj. eapply (cached_ok_after drafts w (input_batch mr) gs (input_batch mr2) gs2 cached (requests (forget_finished set_order so mr))); try done.
    - by eapply (setup_tables w (input_batch mr) gs).
    - rewrite (proj1 F2), R1; [done|]. intros Hx. apply (N2 x Hx). by eapply list_elem_of_lookup_2.
    - by apply Hcached. }
  { intros x Hx i Hl. apply L2 in Hl as [Hl _]. by apply L1 in Hl as [_ ?]. }
  pose proof (mid_batch _ _ _ _ _ _ _ _ M3) as Hb3. pose proof (same_setup_trans _ _ _ _ _ _ S12 S3) as S123.
  assert (∀ i x, live (input_batch mr3) i x → x ∈ scheduled_ids so ∧ x ∉ nd_req_id <$> scheduled_new_reqs so) as Hlive.
  { intros i x Hl. apply L3, L2 in Hl as [Hl Hx]. apply L1 in Hl as [Hl _]. split; [|done]. by apply Htok. }
  set (A := (nd_req_id <$> scheduled_new_reqs so) ++ l).
  destruct (adds_mid f E drafts w (λ x, False ∨ x ∈ cd_req_ids cached) mr3 gs3 (scheduled_ids so) A) as (b4 & gs4 & E4 & M4 & S4 & L4); try done.
  { apply NoDup_app. split; [done|]. split; [|done]. intros x Hx Hy. apply Cl in Hy as [Hy _]. by apply (N2 x). }
  { by apply NoDup_app. }
  { destruct S123 as [Sc _]. unfold same_config in Sc. injection Sc as _ Sc _. rewrite Sc. exact Hcap. }
  { intros i x Hl. split; [by eapply Hlive|]. unfold A. rewrite elem_of_app. intros [Hx|Hx]; [by apply Hlive in Hl as [_ ?]|].
    apply Cl in Hx as [_ Hx]. apply (Hx i). by apply L3. }
  { intros x. unfold A, scheduled_ids. rewrite !elem_of_app. intros [?|Hx]; [auto|]. apply Cl in Hx as [? _]. auto. }
  { intros x. unfold A. rewrite elem_of_app. intros [Hx|Hx].
    - destruct (proj2 F2 x Hx) as (r & Hr & Hf & _). exists r. rewrite (proj1 F3); [|intros Hy; by apply (N2 x)]. split; [done|].
      eapply (fits_setup w (input_batch mr1) gs1 (input_batch mr3) gs3); try done. by eapply same_setup_trans.
    - apply Cl in Hx as [Hx _]. destruct (proj2 F3 x Hx) as (r & Hr & Hf & _). exists r. split; [done|].
      by eapply (fits_setup w (input_batch mr2) gs2 (input_batch mr3) gs3). }
  assert (∀ x, (∃ i, live b4 i x) ↔ x ∈ scheduled_ids so) as Hids.
  { intros x. rewrite L4. split.
    - intros [[i Hl]|Hx]; [by eapply Hlive|]. unfold A, scheduled_ids in *. rewrite !elem_of_app in *. destruct Hx as [?|Hx]; [auto|]. apply Cl in Hx as [? _]. auto.
    - intros Hx. unfold scheduled_ids, A in *. rewrite !elem_of_app in *. destruct Hx as [Hx|Hx]; [auto|]. fold cached in Hx.
      destruct (live_dec (input_batch mr2) gs2 x Hb2) as [[i Hl]|Hl]; [left; exists i; by apply L3|]. right. right. by apply Cl. }
  destruct (finish_ok num_kv_cache_groups reorder_batch_threshold f E drafts w _ (set_batch b4 mr3) gs4 so truthy M4) as (u & b5 & gs5 & E5 & St & S5 & L5 & T5).
  { intros i x Hl. pose proof (proj1 (Hids x) (ex_intro _ i Hl)) as Hx. split.
    - destruct (proj1 (L4 x) (ex_intro _ i Hl)) as [[k Hk]|?]; [|auto]. left. right. apply Hlive in Hk as [Hk1 Hk2]. unfold scheduled_ids in Hk1.
      rewrite elem_of_app in Hk1. tauto.
    - apply dict_get_is_Some. by apply Htok. }
  exists u, (set_batch b5 (set_batch b4 mr3)), gs5. split; [|split_and!; try done].
  - unfold _update_states. rewrite E1, (bind_ok _ _ _ _ _ E2).
    fold drafts cached. rewrite (bind_ok _ _ _ _ _ E3). fold A. rewrite (bind_ok _ _ _ _ _ E4). exact E5.
  - eapply same_setup_trans; [exact S123|]. by eapply same_setup_trans.
  - intros x. simpl. rewrite L5. apply Hids.
  - intros x. simpl. eapply after_both; [done|apply (id_coherent _ _ _ Hi)| |exact R1|exact F2|exact F3]. by destruct S1 as [[= -> _ _] _].
  - intros Hp. apply T5. simpl. destruct S123 as [Sx _], S4 as [Sy _]. unfold same_config in *. congruence.
Qed.

(** ** Sampled tokens *)

(** A request with more output. *)
Definition with_sampled (toks : list Z) (r : CachedRequestState) : CachedRequestState :=
  with_progress (num_computed_tokens r) (output_token_ids r ++ toks) (block_ids r) r.
Lemma with_sampled_nil r : with_sampled [] r = r.
Proof. unfold with_sampled. rewrite app_nil_r. by destruct r. Qed.

(** The tokens sampled at an index; the rows are those of the indices from [k] on. *)
Definition sampled_at (k : nat) (rows : list (list Z)) (i : nat) : list Z :=
  if decide (k ≤ i)%nat then default [] (rows !! (i - k)%nat) else [].

(** An index with tokens written after those it has, and nothing else changed. *)
Definition row_with (toks : list Z) (s : Slot) : Slot :=
  let n := Z.to_nat (s_num_tokens_no_spec s) in
  {| s_token_ids := take n (s_token_ids s) ++ toks ++ drop (n + length toks) (s_token_ids s);
     s_is_token_ids := take n (s_is_token_ids s) ++ replicate (length toks) true ++ drop (n + length toks) (s_is_token_ids s);
     s_prompt_embeds := s_prompt_embeds s; s_num_tokens_no_spec := s_num_tokens_no_spec s + zlen toks;
     s_num_prompt_tokens := s_num_prompt_tokens s; s_num_computed_tokens := s_num_computed_tokens s;
     s_temperature := s_temperature s; s_top_p := s_top_p s; s_top_k := s_top_k s;
     s_frequency_penalty := s_frequency_penalty s; s_presence_penalty := s_presence_penalty s;
     s_repetition_penalty := s_repetition_penalty s; s_num_accepted_tokens := s_num_accepted_tokens s;
     s_lora := s_lora s; s_generator := s_generator s; s_mask := s_mask s; s_bad_words := s_bad_words s;
     s_needs_token_ids := s_needs_token_ids s |}.
(** The runner with tokens at its indices, and the requests [reqs]. *)
Definition recorded (toks : nat → list Z) (reqs : list (string * CachedRequestState)) (mr : ModelRunner) : ModelRunner :=
  let b := input_batch mr in
  set_requests reqs (set_batch (set_slots b (imap (λ i, row_with (toks i)) (slots b)) (has_mask b)) mr).

Lemma row_with_nil s : row_with [] s = s.
Proof. destruct s. unfold row_with. cbn -[Z.add]. unfold zlen. simpl. by rewrite !Nat.add_0_r, Z.add_0_r, !take_drop. Qed.
Lemma recorded_nil mr : recorded (λ _, []) (requests mr) mr = mr.
Proof.
  destruct mr as [reqs lp ec b o]. unfold recorded. simpl. replace (imap (λ _, row_with []) (slots b)) with (slots b); [by destruct b|].
  apply list_eq. intros i. rewrite list_lookup_imap. destruct (slots b !! i); simpl; [by rewrite row_with_nil|done].
Qed.
(** Each index gets tokens at most once. *)
Lemma recorded_comp t1 t2 t reqs1 reqs2 mr : (∀ i, t i = t1 i ++ t2 i) → (∀ i, t1 i = [] ∨ t2 i = []) →
  recorded t2 reqs2 (recorded t1 reqs1 mr) = recorded t reqs2 mr.
Proof.
  intros Ht Hd. unfold recorded. simpl. unfold set_requests, set_batch, set_slots. simpl. f_equal. f_equal.
  apply list_eq. intros i. rewrite !list_lookup_imap, Ht. destruct (slots (input_batch mr) !! i); simpl; [|done].
  destruct (Hd i) as [->| ->]; rewrite row_with_nil; [done|by rewrite app_nil_r].
Qed.
Lemma recorded_at toks reqs mr i s : slots (input_batch mr) !! i = Some s →
  set_requests reqs (set_batch (set_slots (input_batch mr) (<[i := row_with toks s]> (slots (input_batch mr))) (has_mask (input_batch mr))) mr) =
  recorded (λ k, if decide (k = i) then toks else []) reqs mr.
Proof.
  intros Hs. unfold recorded, set_requests, set_batch, set_slots. simpl. f_equal. f_equal. apply list_eq. intros k. rewrite list_lookup_imap.
  destruct (decide (k = i)) as [->|Hk].
  - rewrite list_lookup_insert_eq by (by eapply lookup_lt_Some). by rewrite Hs.
  - rewrite list_lookup_insert_ne by done. destruct (slots (input_batch mr) !! k); simpl; [by rewrite row_with_nil|done].
Qed.
Lemma extend_row s toks : slot_ok w s → toks ≠ [] → forallb in_int32 toks = true → 0 ≤ s_num_tokens_no_spec s →
  s_num_tokens_no_spec s + zlen toks ≤ Z.of_nat w → extend_tokens toks (s_num_tokens_no_spec s + zlen toks) s = Ok (row_with toks s).
Proof.
  intros [K1 K2] Hne Hi H0 Hw. unfold extend_tokens.
  assert (∀ X Y : result (list Z), match toks with [] => X | _ => Y end = Y) as -> by (by destruct toks).
  rewrite (np_assign_fits _ _ (NpList toks) toks); [|by apply (np_cast_id (NpList toks))|lia|unfold zlen in *; lia].
  cbn [mbind result_bind]. rewrite np_put_fill by (unfold zlen in *; lia). cbn [mbind result_bind]. unfold row_with.
  replace (Z.to_nat (s_num_tokens_no_spec s + zlen toks - s_num_tokens_no_spec s)) with (length toks) by (unfold zlen; lia).
  by replace (Z.to_nat (s_num_tokens_no_spec s + zlen toks)) with (Z.to_nat (s_num_tokens_no_spec s) + length toks)%nat by (unfold zlen; lia).
Qed.

(** Tokens are sampled for requests in the batch, and stay within the model length. *)
Definition row_fits (reqs : list (string * CachedRequestState)) (b : InputBatch) (i : nat) (toks : list Z) : Prop :=
  toks = [] ∨ forallb in_int32 toks = true ∧
    ∃ id r n, live b i id ∧ dict_get reqs id = Some r ∧ num_prompt_tokens r = Ok n ∧ n + zlen (output_token_ids r) + zlen toks ≤ Z.of_nat w.

(** The requests at the indices have their tokens, the others are as they were. *)
Definition samples (toks : nat → list Z) (b : InputBatch) (reqs reqs' : list (string * CachedRequestState)) : Prop :=
  (∀ i id, live b i id → dict_get reqs' id = with_sampled (toks i) <$> dict_get reqs id) ∧
  ∀ id, (∀ i, ¬ live b i id) → dict_get reqs' id = dict_get reqs id.

Lemma cache_row_mid drafts mr gs i toks : mid f E drafts w (λ _, False) (requests mr) (input_batch mr) gs → row_fits (requests mr) (input_batch mr) i toks →
  ∃ mr' gs', cache_row (Z.of_nat w) i toks mr = Ok (tt, mr') ∧ mid f E drafts w (λ _, False) (requests mr') (input_batch mr') gs' ∧
    same_setup (input_batch mr) gs (input_batch mr') gs' ∧ bu (input_batch mr') = bu (input_batch mr) ∧
    (_req_ids (input_batch mr'), req_id_to_index (input_batch mr')) = (_req_ids (input_batch mr), req_id_to_index (input_batch mr)) ∧
    samples (λ k, if decide (k = i) then toks else []) (input_batch mr) (requests mr) (requests mr') ∧
    (requests mr').*1 = (requests mr).*1 ∧ mr' = recorded (λ k, if decide (k = i) then toks else []) (requests mr') mr.
Proof.
  intros Hm Hfits. destruct (decide (toks = [])) as [->|Hne].
  { exists mr, gs. split_and!; try done.
    2: { etransitivity; [symmetry; apply recorded_nil|]. unfold recorded. f_equal. f_equal. f_equal. apply imap_ext. intros k s _. by case_decide. }
    split; [|done]. intros k x Hx. replace (if decide (k = i) then [] else []) with (@nil Z) by (by case_decide).
    destruct (dict_get (requests mr) x); simpl; [by rewrite with_sampled_nil|done]. }
  destruct Hfits as [->|(H32 & id & r & z & Hl & Hr & Hn & Hfit)]; [done|].
  pose proof (md_coherent _ _ _ _ _ _ _ _ Hm) as Hc. pose proof (ch_batch _ _ _ _ Hc) as Hb.
  destruct (ch_wf _ _ _ _ Hc id r Hr) as (Hid & n & Hwf). pose proof (wf_tokens _ _ _ _ _ _ Hwf) as Htf.
  assert (z = Z.of_nat n) as -> by (pose proof (tf_len _ _ _ Htf); congruence).
  destruct (live_slot w _ gs i id Hb Hl) as (s & d & o & Q1 & Q2 & Q3).
  pose proof (cell_eq _ gs i id s d o Hl Q1 Q2 Q3) as Hcell. destruct (ch_shows _ _ _ _ Hc i id _ Hcell) as (r0 & Hr0 & Hsh).
  assert (r0 = r) as -> by congruence. destruct (shows_num _ _ _ _ _ _ _ Htf Hsh) as (N1 & _ & _). simpl in N1.
  destruct (extend_shows w (input_batch mr) gs i id _ r n toks s Hb Hcell Htf Hsh Q1 Hne H32) as (b' & v' & E1 & Hch & Hsh').
  { unfold zlen in Hfit. lia. }
  assert (request_wf w (shapes gs) (is_pooling_model (input_batch mr)) (vocab_size (input_batch mr)) (with_sampled toks r) n) as Hwf'.
  { destruct Hwf. split; try done. apply tokens_fit_out; [done| |].
    - rewrite forallb_app, H32, andb_true_r. apply Htf.
    - rewrite length_app. unfold zlen in Hfit. lia. }
  destruct (mid_progress f E drafts w (λ _, False) (λ _, False) _ _ gs i id _ v' r n _ _ _ b' gs Hm Hcell Hr Hwf' Hch Hsh') as [Hm' Hset]; [done|done|].
  exists (set_requests (dict_set (requests mr) id (with_sampled toks r)) (set_batch b' mr)), gs. split_and!; try done; try apply Hch.
  - unfold cache_row. destruct toks as [|t toks]; [done|]. mstep. rewrite (py_index_nat _ _ _ Q1). rewrite (bind_ok _ _ _ s mr) by done.
    unfold py_assert. rewrite (proj2 (Z.leb_le _ _)) by lia. mstep. rewrite (bind_ok _ _ _ _ _ (on_batch_ok _ _ _ _ E1)).
    rewrite (py_index_nat _ _ _ Hl). rewrite (bind_ok _ _ _ (Some id) (set_batch b' mr)) by done.
    by rewrite (bind_ok _ _ _ _ _ (get_request_ok _ (set_batch b' mr) _ Hr)).
  - split; simpl.
    + intros k x Hx. rewrite dict_get_set. destruct (decide (k = i)) as [->|Hk].
      * assert (x = id) as -> by (unfold live in *; congruence). by rewrite decide_True, Hr.
      * rewrite decide_False; [|intros ->; apply Hk; by eapply live_inj]. destruct (dict_get (requests mr) x); simpl; [by rewrite with_sampled_nil|done].
    + intros x Hx. rewrite dict_get_set, decide_False; [done|]. intros ->. by apply (Hx i).
  - simpl. rewrite dict_set_keys, decide_True; [done|]. apply dict_get_is_Some. eauto.
  - rewrite <-(recorded_at _ _ _ _ _ Q1). simpl. f_equal. f_equal. pose proof (Forall_lookup_1 _ _ _ _ (bo_rows _ _ _ Hb) Q1) as Hok.
    rewrite (on_slot_ok _ _ _ s (row_with toks s)) in E1; [by injection E1 as <-|done|].
    apply extend_row; try done; unfold zlen in *; lia.
Qed.

Lemma samples_comp t1 t2 t b b' reqs reqs1 reqs2 : _req_ids b' = _req_ids b → samples t1 b reqs reqs1 → samples t2 b' reqs1 reqs2 →
  (∀ i, t i = t1 i ++ t2 i) → samples t b reqs reqs2.
Proof.
  intros Hb [A1 A2] [B1 B2] Ht. assert (∀ i id, live b' i id ↔ live b i id) as HL by (unfold live; by rewrite Hb). split.
  - intros i id Hi. rewrite (B1 i id), (A1 i id), Ht by (by rewrite ?HL). destruct (dict_get reqs id) as [r|]; [|done]. simpl.
    f_equal. unfold with_sampled. simpl. by rewrite app_assoc.
  - intros id Hid. rewrite B2, A2; [done|done|]. intros i. rewrite HL. apply Hid.
Qed.

Lemma cache_rows_mid drafts mr gs k rows : mid f E drafts w (λ _, False) (requests mr) (input_batch mr) gs →
  (∀ j toks, rows !! j = Some toks → row_fits (requests mr) (input_batch mr) (k + j) toks) →
  ∃ mr' gs', cache_rows (Z.of_nat w) k rows mr = Ok (tt, mr') ∧ mid f E drafts w (λ _, False) (requests mr') (input_batch mr') gs' ∧
    same_setup (input_batch mr) gs (input_batch mr') gs' ∧ bu (input_batch mr') = bu (input_batch mr) ∧
    (_req_ids (input_batch mr'), req_id_to_index (input_batch mr')) = (_req_ids (input_batch mr), req_id_to_index (input_batch mr)) ∧
    samples (sampled_at k rows) (input_batch mr) (requests mr) (requests mr') ∧
    (requests mr').*1 = (requests mr).*1 ∧ mr' = recorded (sampled_at k rows) (requests mr') mr.
Proof.
  revert mr gs k. induction rows as [|toks rows IH]; intros mr gs k Hm Hfit.
  { exists mr, gs. split_and!; try done.
    2: { etransitivity; [symmetry; apply recorded_nil|]. unfold recorded. f_equal. f_equal. f_equal. apply imap_ext. intros i s _. unfold sampled_at. by case_decide. }
    split; [|done]. intros i x Hx. replace (sampled_at k [] i) with (@nil Z) by (unfold sampled_at; by case_decide).
    destruct (dict_get (requests mr) x); simpl; [by rewrite with_sampled_nil|done]. }
  destruct (cache_row_mid drafts mr gs k toks Hm) as (mr1 & gs1 & E1 & M1 & S1 & U1 & I1 & P1 & K1 & R1).
  { specialize (Hfit 0%nat toks eq_refl). by rewrite Nat.add_0_r in Hfit. }
  injection I1 as I1 J1. destruct (IH mr1 gs1 (S k) M1) as (mr' & gs' & E2 & M2 & S2 & U2 & I2 & P2 & K2 & R2).
  { intros j t Hj. destruct (Hfit (S j) t Hj) as [->|(H1 & id & r & n & H2 & H3 & H4)]; [by left|]. right. split; [done|]. exists id, r, n.
    replace (S k + j)%nat with (k + S j)%nat by lia. unfold live. rewrite I1. split; [done|]. split; [|done].
    rewrite (proj1 P1 _ _ H2), H3, decide_False by lia. simpl. by rewrite with_sampled_nil. }
  assert (∀ i, sampled_at k (toks :: rows) i = (if decide (i = k) then toks else []) ++ sampled_at (S k) rows i) as Hat.
  { intros i. unfold sampled_at.
    destruct (decide (k ≤ i)%nat), (decide (S k ≤ i)%nat), (decide (i = k)) as [->|]; try lia; [|by rewrite Nat.sub_diag, app_nil_r|done].
    simpl. by replace (i - k)%nat with (S (i - S k)) by lia. }
  injection I2 as I2 J2. exists mr', gs'.
  split_and!; try done; [simpl; by rewrite (bind_ok _ _ _ _ _ E1)|by eapply same_setup_trans|congruence|congruence| |congruence|].
  - by eapply samples_comp; [exact I1|exact P1|exact P2|].
  - rewrite R2, R1 at 1. apply recorded_comp; [done|]. intros i. unfold sampled_at. destruct (decide (i = k)); [right; by rewrite decide_False by lia|by left].
Qed.

Lemma mid_idle drafts mr gs : mid f E drafts w (λ _, False) (requests mr) (input_batch mr) gs → bu (input_batch mr) = new_builder →
  dense (input_batch mr) (length (_req_ids (input_batch mr))) →
  idle w mr gs ∧ (is_pooling_model (input_batch mr) = false → tracks (proc_state f (requests mr)) (cell (input_batch mr) gs) (λ _, False) E).
Proof.
  intros [Hc _ _ Ht _] Hu Hd. split; [done|]. intros Hp. specialize (Ht Hp). rewrite Hu in Ht. eapply tracks_impl; [done| |exact Ht].
  simpl. intros z. by rewrite elem_of_nil.
Qed.

(** The prompt of a request is computed when this step is done. *)
Definition prompt_done (scheduled : list (string * Z)) (reqs : list (string * CachedRequestState)) (id : string) : bool :=
  match dict_get scheduled id, dict_get reqs id with
  | Some n, Some r => match prompt_token_ids r with Some prompt => zlen prompt <=? num_computed_tokens r + n | None => false end
  | _, _ => false
  end.
Lemma prompt_done_samples scheduled t b gs reqs reqs' id : batch_ok w b gs → samples t b reqs reqs' →
  prompt_done scheduled reqs' id = prompt_done scheduled reqs id.
Proof.
  intros Hb [S1 S2]. unfold prompt_done. destruct (live_dec b gs id Hb) as [[i Hl]|Hn]; [|by rewrite S2].
  rewrite (S1 i id Hl). by destruct (dict_get reqs id).
Qed.

(** Deleting the keys that pass a test. *)
Lemma dict_del_filter {V} (d : list (string * V)) (p : string → bool) :
  foldl dict_del d (filter (λ kv, p kv.1 = true) d).*1 = filter (λ kv, p kv.1 = false) d.
Proof.
  assert (∀ (l : list string) k (v : V) d, k ∉ l → foldl dict_del ((k, v) :: d) l = (k, v) :: foldl dict_del d l) as Hskip.
  { intros l k v. induction l as [|x l IH]; [done|]. intros d' [Hx Hl]%not_elem_of_cons. simpl. rewrite decide_False by done. by apply IH. }
  induction d as [|[k v] d IH]; [done|]. rewrite !filter_cons. simpl. destruct (p k) eqn:Ep; simpl.
  - by rewrite decide_True.
  - rewrite Hskip, IH; [done|]. intros ([k' v'] & Hk & [Hp _]%list_elem_of_filter)%list_elem_of_fmap. simpl in *. congruence.
Qed.

Lemma get_prompt_logprobs_ok mr gs scheduled : coherent w (requests mr) (input_batch mr) gs →
  (∀ id, id ∈ scheduled.*1 → ∃ i, live (input_batch mr) i id) →
  let over := prompt_done scheduled (requests mr) in
  _get_prompt_logprobs_dict scheduled mr = Ok ((filter (λ kv, over kv.1 = true) (num_prompt_logprobs mr)).*1,
    set_logprobs (filter (λ kv, over kv.1 = false) (num_prompt_logprobs mr)) mr).
Proof.
  intros Hc Hlive over.
  assert (∀ id, prompt_logprobs_done scheduled mr id = Ok (over id)) as Hdone.
  { intros x. unfold prompt_logprobs_done, over, prompt_done. destruct (dict_get scheduled x) as [n|] eqn:Es; [|done].
    destruct (Hlive x) as [i Hl]; [apply dict_get_is_Some; eauto|]. pose proof (ch_batch _ _ _ _ Hc) as Hb.
    destruct (live_slot w _ gs i x Hb Hl) as (s & d & o & Q1 & Q2 & Q3).
    destruct (ch_shows _ _ _ _ Hc i x _ (cell_eq _ gs i x s d o Hl Q1 Q2 Q3)) as (r & -> & _).
    assert (dict_get (req_id_to_index (input_batch mr)) x = Some (Z.of_nat i)) as -> by (apply (bo_index _ _ _ Hb); eauto).
    destruct (prompt_token_ids r) as [p|]; [|done].
    assert (negb (n <=? zlen p - (num_computed_tokens r + 1)) = (zlen p <=? num_computed_tokens r + n)) as ->.
    { destruct (Z.leb_spec n (zlen p - (num_computed_tokens r + 1))), (Z.leb_spec (zlen p) (num_computed_tokens r + n)); done || lia. }
    by case_match. }
  assert (∀ d : list (string * Z), result_map (λ kv, prompt_logprobs_done scheduled mr kv.1) d = Ok (over <$> d.*1)) as Hmap.
  { intros d. induction d as [|kv d IH]; [done|]. simpl. rewrite Hdone. simpl. rewrite IH. done. }
  unfold _get_prompt_logprobs_dict. mstep. rewrite Hmap. unfold lift_result. mstep.
  assert (∀ d : list (string * Z), fst <$> filter (λ kf, kf.2 = true) (zip d.*1 (over <$> d.*1)) = (filter (λ kv, over kv.1 = true) d).*1) as Hz.
  { intros d. induction d as [|kv d IH]; [done|]. rewrite !fmap_cons. simpl zip. rewrite !filter_cons. simpl.
    destruct (over kv.1); simpl; [f_equal; exact IH|exact IH]. }
  rewrite Hz, dict_del_filter. done.
Qed.

(** What the recording of a step's sample does: the tokens at the index of their request
    and in its output, the prompts that are complete, and nothing else. *)
Record bookkept (scheduled : list (string * Z)) (mask : list bool) (rows : list (list Z)) (mr : ModelRunner)
    (res : Bookkept) (mr' : ModelRunner) : Prop := {
  bk_returned : res = Build_Bookkept rows (_req_ids (input_batch mr)) (req_id_to_index (input_batch mr))
    (rewound_generators (input_batch mr) (discarded (input_batch mr) mask))
    (filter (λ kv, prompt_done scheduled (requests mr) kv.1 = true) (num_prompt_logprobs mr)).*1;
  bk_logprobs : num_prompt_logprobs mr' = filter (λ kv, prompt_done scheduled (requests mr) kv.1 = false) (num_prompt_logprobs mr);
  bk_batch : input_batch mr' = set_slots (input_batch mr)
    (imap (λ i, row_with (default [] (rows !! i))) (slots (input_batch mr))) (has_mask (input_batch mr));
  bk_keys : (requests mr').*1 = (requests mr).*1;
  bk_requests : samples (λ i, default [] (rows !! i)) (input_batch mr) (requests mr) (requests mr');
  bk_others : encoder_cache mr' = encoder_cache mr ∧ next_object mr' = next_object mr;
}.

Lemma samples_ext t t' b reqs reqs' : (∀ i, t i = t' i) → samples t b reqs reqs' → samples t' b reqs reqs'.
Proof. intros Ht [H1 H2]. split; [|done]. intros i id Hi. by rewrite (H1 i id Hi), Ht. Qed.

(** What the sampler promises: a row for each request, of tokens that fit; and the
    scheduled requests are in the batch. *)
Record sample_ok (max_gen_len : Z) (scheduled : list (string * Z)) (sampled : list (list Z)) (mask : list bool) (mr : ModelRunner) : Prop := {
  so_all : num_reqs (input_batch mr) ≤ zlen sampled;
  so_fit : ∀ i toks, valid_sampled_token_ids max_gen_len sampled (vocab_size (input_batch mr)) (discarded (input_batch mr) mask) !! i = Some toks →
    row_fits (requests mr) (input_batch mr) i toks;
  so_live : ∀ id, id ∈ scheduled.*1 → ∃ i, live (input_batch mr) i id;
}.

Lemma bookkeeping_ok mr gs max_gen_len scheduled sampled mask : idle w mr gs →
  (is_pooling_model (input_batch mr) = false → tracks (proc_state f (requests mr)) (cell (input_batch mr) gs) (λ _, False) E) →
  sample_ok max_gen_len scheduled sampled mask mr →
  let rows := valid_sampled_token_ids max_gen_len sampled (vocab_size (input_batch mr)) (discarded (input_batch mr) mask) in
  ∃ res mr' gs', _bookkeeping_sync (Z.of_nat w) max_gen_len scheduled sampled mask mr = Ok (res, mr') ∧ bookkept scheduled mask rows mr res mr' ∧
    idle w mr' gs' ∧ same_setup (input_batch mr) gs (input_batch mr') gs' ∧
    (is_pooling_model (input_batch mr') = false → tracks (proc_state f (requests mr')) (cell (input_batch mr') gs') (λ _, False) E).
Proof.
  intros Hi Ht [Hall Hfit Hlive] rows. destruct (idle_mid [] mr gs Hi Ht) as [M0 _]. pose proof (mid_batch _ _ _ _ _ _ _ _ M0) as Hb.
  destruct (cache_rows_mid [] mr gs 0 rows M0 Hfit) as (mr1 & gs' & E1 & M1 & S1 & U1 & I1 & P1 & K1 & R1). injection I1 as I1 J1.
  assert (∀ i, sampled_at 0 rows i = default [] (rows !! i)) as Hat by (intros i; unfold sampled_at; by rewrite decide_True, Nat.sub_0_r by lia).
  destruct (mid_idle [] mr1 gs' M1) as [Hi' Ht'].
  { rewrite U1. apply Hi. }
  { pose proof (id_dense _ _ _ Hi) as Hd. unfold dense, live in *. by rewrite I1. }
  pose proof (get_prompt_logprobs_ok mr1 gs' scheduled (md_coherent _ _ _ _ _ _ _ _ M1)) as E2.
  specialize (E2 ltac:(intros x Hx; unfold live; rewrite I1; by apply Hlive)). simpl in E2.
  assert (num_prompt_logprobs mr1 = num_prompt_logprobs mr ∧ encoder_cache mr1 = encoder_cache mr ∧ next_object mr1 = next_object mr ∧
    input_batch mr1 = set_slots (input_batch mr) (imap (λ i, row_with (sampled_at 0 rows i)) (slots (input_batch mr))) (has_mask (input_batch mr)))
    as (L1 & L2 & L3 & L4) by (rewrite R1; done).
  eexists _, _, gs'. split; [|split; [|split; [|split]]].
  - unfold _bookkeeping_sync. mstep. fold rows.
    assert (existsb id (drop (length sampled) (discarded (input_batch mr) mask)) = false) as ->.
    { rewrite drop_ge; [done|]. unfold discarded. rewrite length_take. unfold zlen in Hall. lia. }
    mstep. rewrite (bind_ok _ _ _ _ _ E1). by rewrite (bind_ok _ _ _ _ _ E2).
  - split; simpl; try done.
    + rewrite L1. repeat f_equal. apply list_filter_iff. intros kv. by rewrite (prompt_done_samples _ _ _ _ _ _ _ Hb P1).
    + rewrite L1. apply list_filter_iff. intros kv. by rewrite (prompt_done_samples _ _ _ _ _ _ _ Hb P1).
    + rewrite L4. f_equal. apply imap_ext. intros i s _. by rewrite Hat.
    + by eapply samples_ext.
  - destruct Hi' as [? ? ?]. by split.
  - done.
  - done.
Qed.

End one_step.

(** ** The tokens of a step *)

Lemma stepped_shows drafts sched reqs b gs i x : stepped num_kv_cache_groups reorder_batch_threshold drafts w sched reqs b gs → live b i x →
  ∃ r n, dict_get reqs x = Some r ∧ num_prompt_tokens r = Ok (Z.of_nat n) ∧
    cell b gs i = Some (x, with_drafts (drafts_of drafts x) (request_view (is_pooling_model b) (vocab_size b) (g_per <$> gs) r n)).
Proof.
  intros [Hc _ _ Hd _] Hl. destruct (live_slot w b gs i x (ch_batch _ _ _ _ Hc) Hl) as (s & d & o & Q1 & Q2 & Q3).
  pose proof (cell_eq b gs i x s d o Hl Q1 Q2 Q3) as Hcell. destruct (ch_shows _ _ _ _ Hc i x _ Hcell) as (r & Hr & Hs).
  destruct (ch_wf _ _ _ _ Hc x r Hr) as (_ & n & Hwf). pose proof (wf_tokens _ _ _ _ _ _ Hwf) as Htf. exists r, n. split; [done|].
  split; [apply Htf|]. rewrite Hcell, (Hd i x _ Hcell). by destruct (shows_drafts _ _ _ _ _ _ _ (drafts_of drafts x) Htf Hs) as [<- _].
Qed.

(** The tokens a step is scheduled for are known, have blocks to be stored in and fit in
    the buffers; a request with drafts is scheduled up to its last one. *)
Record step_fits (so : SchedulerOutput) (mr : ModelRunner) (ns : list Z) : Prop := {
  sf_scheduled : result_map (scheduled_for (num_scheduled_tokens so)) (_req_ids (input_batch mr)) = Ok ns;
  sf_some : ns ≠ [];
  sf_total : sumZ ns ≤ max_num_tokens;
  sf_small : max_num_tokens < 2 ^ 31 ∧ Z.of_nat w < 2 ^ 31;
  sf_tables : ∀ t, t ∈ block_table (input_batch mr) →
    0 < bt_block_size t ∧ 0 < total_cp_world_size t ∧ 0 < cp_kv_cache_interleave_size t ∧ max_num_tokens ≤ bt_max_num_batched_tokens t;
  sf_keys : NoDup (scheduled_spec_decode_tokens so).*1 ∧ ∀ id, id ∈ (scheduled_spec_decode_tokens so).*1 → ∃ i, live (input_batch mr) i id;
  sf_requests : ∀ i id n r m, live (input_batch mr) i id → dict_get (num_scheduled_tokens so) id = Some n →
    dict_get (requests mr) id = Some r → num_tokens r = Ok m →
    let d := drafts_of (scheduled_spec_decode_tokens so) id in
    0 < n ∧ 0 ≤ num_computed_tokens r ∧ num_computed_tokens r + n ≤ m + zlen d ∧
    (d ≠ [] → zlen d + 1 ≤ n ∧ num_computed_tokens r + n = m + zlen d) ∧
    ∀ k t, block_table (input_batch mr) !! k = Some t →
      num_computed_tokens r + n ≤ zlen (block_ids r !!! k) * blocks_per_kv_block t * (bt_block_size t * total_cp_world_size t);
}.

Lemma zlen_expand per ids : zlen ids * per ≤ zlen (expand per ids).
Proof.
  induction ids as [|x ids IH]; [done|]. unfold expand in *. rewrite bind_cons, zlen_app, zlen_cons.
  assert (zlen ((λ a, x * per + a) <$> zrange 0 per) = Z.max 0 per) as -> by (unfold zlen, zrange; rewrite length_fmap, length_seqZ; lia). lia.
Qed.

Lemma step_inputs_fit so mr gs ns : stepped num_kv_cache_groups reorder_batch_threshold (scheduled_spec_decode_tokens so) w (num_scheduled_tokens so)
    (requests mr) (input_batch mr) gs → step_fits so mr ns → inputs_fit w max_num_tokens (scheduled_spec_decode_tokens so) (input_batch mr) gs ns.
Proof.
  intros St [Hs Hne Ht Hsm Htb Hk Hr]. pose proof (sd_coherent _ _ _ _ _ _ _ _ St) as Hco. pose proof (ch_batch _ _ _ _ Hco) as Hb.
  pose proof Hs as Hf. apply result_map_Forall2 in Hf. pose proof (Forall2_length _ _ _ Hf) as Hlen. set (drafts := scheduled_spec_decode_tokens so) in *.
  assert (∀ i id v n, cell (input_batch mr) gs i = Some (id, v) → ns !! i = Some n → ∃ r m, live (input_batch mr) i id ∧
    dict_get (num_scheduled_tokens so) id = Some n ∧ dict_get (requests mr) id = Some r ∧ num_tokens r = Ok m ∧ v_num_tokens v = m ∧
    v_num_computed v = num_computed_tokens r ∧ zlen (v_tokens v) = m + zlen (drafts_of drafts id) ∧ v_drafts v = drafts_of drafts id ∧ v = with_drafts (drafts_of drafts id) v ∧
    ∀ k g, gs !! k = Some g → v_blocks v !!! k = expand (g_per g) (block_ids r !!! k)) as Hv.
  { intros i id v n Hc Hn. pose proof (cell_live _ _ _ _ _ Hc) as Hl. destruct (stepped_shows _ _ _ _ gs i id St Hl) as (r & p & R1 & R2 & R3).
    destruct (ch_wf _ _ _ _ Hco id r R1) as (_ & p' & Hwf). pose proof (wf_tokens _ _ _ _ _ _ Hwf) as Htf.
    assert (p' = p) as -> by (apply Nat2Z.inj; pose proof (tf_len _ _ _ Htf); congruence).
    rewrite R3 in Hc. injection Hc as <-. exists r, (Z.of_nat p + zlen (output_token_ids r)).
    destruct (Forall2_lookup_l _ _ _ _ _ Hf Hl) as (n' & Hn' & Hs'). rewrite Hn in Hn'. injection Hn' as <-. unfold scheduled_for in Hs'.
    split_and!; try done.
    - by destruct (dict_get (num_scheduled_tokens so) id); simplify_eq/=.
    - unfold num_tokens. by rewrite R2.
    - unfold with_drafts, request_view. simpl. rewrite zlen_app. pose proof (length_request_known w r p Htf). unfold zlen. rewrite length_take, length_fmap. lia.
    - by eapply request_view_drafts.
    - intros k g Hg. simpl. apply list_lookup_total_correct. by rewrite list_lookup_imap, list_lookup_fmap, Hg. }
  split; try done.
  - intros E. rewrite E in Hlen. by destruct ns.
  - intros i id v n Hc Hn. destruct (Hv i id v n Hc Hn) as (r & m & V1 & V2 & V3 & V4 & V5 & V6 & V7 & _).
    destruct (Hr i id n r m V1 V2 V3 V4) as (R1 & R2 & R3 & _). fold drafts in R3. rewrite V6, V7. lia.
  - intros k t Hk'. destruct (Htb t) as (T1 & T2 & T3 & T4); [by eapply list_elem_of_lookup_2|]. split_and!; try done.
    intros i id v n Hc Hn. destruct (Hv i id v n Hc Hn) as (r & m & V1 & V2 & V3 & V4 & V5 & V6 & _ & _ & _ & V8).
    destruct (Hr i id n r m V1 V2 V3 V4) as (_ & _ & _ & _ & R5). specialize (R5 k t Hk').
    destruct (Forall2_lookup_l _ _ _ _ _ (bo_tables _ _ _ Hb) Hk') as (g & Hg & Htg). rewrite (V8 k g Hg), V6.
    pose proof (zlen_expand (g_per g) (block_ids r !!! k)). rewrite (ok_per _ _ Htg) in R5. etransitivity; [exact R5|].
    apply Z.mul_le_mono_nonneg_r; [nia|done].
  - intros i id v n Hc Hn. destruct (Hv i id v n Hc Hn) as (r & m & V1 & V2 & V3 & V4 & V5 & V6 & V7 & V9 & V10 & _). split; [done|].
    destruct (Hr i id n r m V1 V2 V3 V4) as (_ & _ & _ & R4 & _). fold drafts in R4. rewrite V9, V5, V6. exact R4.
Qed.

(** ** Reachable states *)

(** A runner, its buffers and a sparse logits processor that keeps [f] of every request it
    is told of: a new runner with an empty batch, then any number of steps with scheduler
    outputs that keep their promises, and of sampled tokens. A step without tokens ends
    after [_update_states]. *)
Section runs.
Context {T : Type} (f : added_info → option T) (truthy : T → bool).

Inductive runs : ModelRunner → Buffers → gmap Z T → Prop :=
  | runs_new n vocab bss kbss mb pooling il pcp dcp f0 k0 b object scratch :
      0 ≤ n → 0 ≤ max_num_tokens → zlen scratch = Z.max (n + 1) max_num_tokens →
      new_input_batch n (Z.of_nat w) max_num_tokens vocab bss kbss mb pooling il pcp dcp f0 k0 = Ok b →
      (∀ t, t ∈ block_table b → bt_max_num_blocks_per_req t < 2 ^ 31) →
      runs (Build_ModelRunner [] [] [] b object) (new_buffers n max_num_tokens scratch) ∅
  | runs_update mr bf E so u mr' :
      runs mr bf E → schedule_ok set_order get_pooling_updates w mr so →
      _update_states set_order get_pooling_updates true num_kv_cache_groups reorder_batch_threshold so mr = Ok (u, mr') →
      runs mr' bf (process_dict_updates truthy f E u).1
  | runs_step mr bf E so u mr1 ns logits md mr' bf' :
      runs mr bf E → schedule_ok set_order get_pooling_updates w mr so →
      _update_states set_order get_pooling_updates true num_kv_cache_groups reorder_batch_threshold so mr = Ok (u, mr1) →
      step_fits so mr1 ns →
      _prepare_inputs (Z.of_nat w) so (sumZ ns) ns mr1 bf = Ok (logits, md, mr', bf') →
      runs mr' bf' (process_dict_updates truthy f E u).1
  | runs_sample mr bf E max_gen_len scheduled sampled mask res mr' :
      runs mr bf E → sample_ok max_gen_len scheduled sampled mask mr →
      _bookkeeping_sync (Z.of_nat w) max_gen_len scheduled sampled mask mr = Ok (res, mr') →
      runs mr' bf E.

Definition at_rest (mr : ModelRunner) (bf : Buffers) (E : gmap Z T) (gs : list group) : Prop :=
  idle w mr gs ∧ buffers_ok (max_num_reqs (input_batch mr)) max_num_tokens bf ∧
  (is_pooling_model (input_batch mr) = false → tracks (proc_state f (requests mr)) (cell (input_batch mr) gs) (λ _, False) E).

Lemma stepped_idle drafts sched mr gs : stepped num_kv_cache_groups reorder_batch_threshold drafts w sched (requests mr) (input_batch mr) gs → idle w mr gs.
Proof. by intros []. Qed.

Lemma new_at_rest n vocab bss kbss mb pooling il pcp dcp f0 k0 b object scratch :
  0 ≤ n → 0 ≤ max_num_tokens → zlen scratch = Z.max (n + 1) max_num_tokens →
  new_input_batch n (Z.of_nat w) max_num_tokens vocab bss kbss mb pooling il pcp dcp f0 k0 = Ok b →
  (∀ t, t ∈ block_table b → bt_max_num_blocks_per_req t < 2 ^ 31) →
  ∃ gs, at_rest (Build_ModelRunner [] [] [] b object) (new_buffers n max_num_tokens scratch) ∅ gs.
Proof.
  intros Hn Hm Hs Hb Hw. destruct (new_batch_ok _ _ _ _ _ _ _ _ _ _ _ _ _ _ Hb Hw) as (H1 & H2 & H3 & H4 & H5).
  eexists. rewrite Nat2Z.id in H1. split; [|split].
  - split; [split; [exact H1|done|constructor|done|]| |done]; simpl; [intros i id v; by rewrite H5|].
    split; [done|]. unfold live. rewrite H4. split; [intros i Hi; simpl in Hi; lia|done].
  - assert (max_num_reqs b = n) as E0.
    { unfold new_input_batch in Hb. destruct (new_multi_group _ _ _ _ _ _ _ _ _); simpl in Hb; [|done]. by injection Hb as <-. }
    simpl. rewrite E0. by apply new_buffers_ok.
  - intros _. simpl. split; [intros i id v; by rewrite H5|]. intros z. rewrite lookup_empty. by intros [].
Qed.

(** [_update_states] from a state at rest. *)
Lemma update_at_rest mr bf E gs so : at_rest mr bf E gs → schedule_ok set_order get_pooling_updates w mr so →
  ∃ u mr' gs', _update_states set_order get_pooling_updates true num_kv_cache_groups reorder_batch_threshold so mr = Ok (u, mr') ∧
    stepped num_kv_cache_groups reorder_batch_threshold (scheduled_spec_decode_tokens so) w (num_scheduled_tokens so) (requests mr') (input_batch mr') gs' ∧
    (∀ x, (∃ i, live (input_batch mr') i x) ↔ x ∈ scheduled_ids so) ∧ (∀ x, request_after so mr x (dict_get (requests mr') x)) ∧
    at_rest mr' bf (process_dict_updates truthy f E u).1 gs'.
Proof.
  intros (Hi & Hbf & Ht) Hso. destruct (update_states_ok f E truthy mr gs so Hi Hso Ht) as (u & mr' & gs' & E1 & St & Hset & Hids & Hreq & T1).
  exists u, mr', gs'. destruct Hset as [Hc _]. unfold same_config in Hc. injection Hc as C1 C2 C3. split_and!; try done.
  split; [by eapply stepped_idle|]. split; [by rewrite C2|]. intros Hp. apply T1. congruence.
Qed.

(** A whole step from a state at rest. *)
Lemma step_at_rest mr bf E gs so ns : at_rest mr bf E gs → stepped num_kv_cache_groups reorder_batch_threshold (scheduled_spec_decode_tokens so) w (num_scheduled_tokens so) (requests mr) (input_batch mr) gs →
  step_fits so mr ns → ∃ logits md mr' bf', _prepare_inputs (Z.of_nat w) so (sumZ ns) ns mr bf = Ok (logits, md, mr', bf') ∧
    inputs_ready w max_num_tokens (scheduled_spec_decode_tokens so) mr gs ns logits md mr' bf' ∧ at_rest mr' bf' E gs.
Proof.
  intros (Hi & Hbf & Ht) St Hf. pose proof (step_inputs_fit so mr gs ns St Hf) as Hfit.
  destruct (prepare_ok w max_num_tokens _ mr gs ns bf Hi Hfit Hbf so eq_refl) as (logits & md & mr' & bf' & E1 & Hr).
  exists logits, md, mr', bf'. split; [done|]. split; [done|]. pose proof (ir_idle _ _ _ _ _ _ _ _ _ _ Hr) as Hi'.
  pose proof (ir_buffers _ _ _ _ _ _ _ _ _ _ Hr) as Hb'. destruct (ir_same _ _ _ _ _ _ _ _ _ _ Hr) as [ts ->]. done.
Qed.

Lemma runs_rest mr bf E : runs mr bf E → ∃ gs, at_rest mr bf E gs.
Proof.
  induction 1 as [| mr bf E so u mr' _ (gs & Hr) Hso Hu|mr bf E so u mr1 ns logits md mr' bf' _ (gs & Hr) Hso Hu Hf Hp|mr bf E g scheduled sampled mask res mr' _ (gs & Hr) Hfit Hs].
  - by eapply new_at_rest.
  - destruct (update_at_rest mr bf E gs so Hr Hso) as (u' & m & gs' & E1 & _ & _ & _ & Hr'). rewrite E1 in Hu. injection Hu as <- <-. eauto.
  - destruct (update_at_rest mr bf E gs so Hr Hso) as (u' & m & gs' & E1 & St & _ & _ & Hr'). rewrite E1 in Hu. injection Hu as <- <-.
    destruct (step_at_rest m bf _ gs' so ns Hr' St Hf) as (l' & md' & m' & bf'' & E2 & _ & Hr''). rewrite E2 in Hp. injection Hp as <- <- <- <-. eauto.
  - destruct Hr as (Hi & Hbf & Ht). destruct (bookkeeping_ok f E mr gs g scheduled sampled mask Hi Ht Hfit) as (r' & m & gs' & E1 & _ & Hi' & Hset & T1).
    rewrite E1 in Hs. injection Hs as <- <-. exists gs'. split; [done|]. split; [|done]. destruct Hset as [Hc _]. unfold same_config in Hc. injection Hc as C1 C2 C3. by rewrite C2.
Qed.
End runs.

(** The states of the runner and its buffers alone. *)
Definition reachable (mr : ModelRunner) (bf : Buffers) : Prop := ∃ E, runs (λ _, None : option unit) (λ _, true) mr bf E.

(** The batch after a step: its indices hold the scheduled requests, each entry shows the
    request that the runner knows, with the drafts it is scheduled with. *)
Record batch_follows (so : SchedulerOutput) (mr : ModelRunner) (mr' : ModelRunner) (gs : list group) : Prop := {
  bf_tables : Forall2 (λ t g, reads t (g_rows g)) (block_table (input_batch mr')) gs;
  bf_requests : ∀ id, request_after so mr id (dict_get (requests mr') id);
  bf_ids : ∃ ids, _req_ids (input_batch mr') = Some <$> ids ∧ ids ≡ₚ scheduled_ids so;
  bf_index : ∀ id z, dict_get (req_id_to_index (input_batch mr')) id = Some z ↔ ∃ i, z = Z.of_nat i ∧ _req_ids (input_batch mr') !! i = Some (Some id);
  bf_shows : ∀ i id, _req_ids (input_batch mr') !! i = Some (Some id) → ∃ r n,
    dict_get (requests mr') id = Some r ∧ num_prompt_tokens r = Ok (Z.of_nat n) ∧
    cell (input_batch mr') gs i = Some (id, with_drafts (drafts_of (scheduled_spec_decode_tokens so) id)
      (request_view (is_pooling_model (input_batch mr')) (vocab_size (input_batch mr')) (g_per <$> gs) r n));
  bf_order : num_kv_cache_groups ≠ 0 → ∀ t, reorder_batch_threshold = Some t → ∀ i j x y, (i < j)%nat →
    region_at t (num_scheduled_tokens so) (cell (input_batch mr') gs) i = Some x →
    region_at t (num_scheduled_tokens so) (cell (input_batch mr') gs) j = Some y → x ≤ y;
}.

(** The indices of a batch without holes. *)
Lemma dense_ids b (L : list string) gs : batch_ok w b gs → dense b (length (_req_ids b)) → NoDup L → (∀ x, (∃ i, live b i x) ↔ x ∈ L) →
  ∃ ids, _req_ids b = Some <$> ids ∧ ids ≡ₚ L.
Proof.
  intros Hb (_ & Hd & _) HL Hx. exists (omap id (_req_ids b)).
  assert (_req_ids b = Some <$> omap id (_req_ids b)) as Heq.
  { assert (Forall is_Some (_req_ids b)) as Hall.
    { apply Forall_lookup. intros i o Hi. destruct (Hd i (lookup_lt_Some _ _ _ Hi)) as [x Hl]. unfold live in Hl. rewrite Hi in Hl. injection Hl as ->. eauto. }
    clear -Hall. induction Hall as [|o l [x ->] _ IH]; csimpl; [done|]. by rewrite <-IH. }
  revert Heq. generalize (omap id (_req_ids b)). intros ids Heq. split; [done|].
  assert (∀ k x, live b k x ↔ ids !! k = Some x) as Hk.
  { intros k x. unfold live. rewrite Heq, list_lookup_fmap. destruct (ids !! k); simpl; split; congruence. }
  apply NoDup_Permutation; [|done|].
  - apply NoDup_alt. intros i j x Hi%Hk Hj%Hk. by eapply (live_inj w b gs).
  - intros x. rewrite <-Hx, list_elem_of_lookup. by setoid_rewrite Hk.
Qed.


Lemma stepped_follows so mr mr' gs' : schedule_ok set_order get_pooling_updates w mr so →
  stepped num_kv_cache_groups reorder_batch_threshold (scheduled_spec_decode_tokens so) w (num_scheduled_tokens so) (requests mr') (input_batch mr') gs' →
  (∀ x, (∃ i, live (input_batch mr') i x) ↔ x ∈ scheduled_ids so) → (∀ x, request_after so mr x (dict_get (requests mr') x)) → batch_follows so mr mr' gs'.
Proof.
  intros Hso St Hids Hreq. pose proof (ch_batch _ _ _ _ (sd_coherent _ _ _ _ _ _ _ _ St)) as Hb. split.
  - eapply Forall2_impl; [apply Hb|]. apply table_ok_reads.
  - done.
  - apply (dense_ids _ _ gs'); [done|apply St|apply Hso|done].
  - apply Hb.
  - intros i id Hl. by eapply stepped_shows.
  - apply St.
Qed.

(** ** The theorems *)

(** C12: whenever the scheduler keeps its promise, [_update_states] succeeds in every
    reachable state of the runner: the requests become what the scheduler output says
    (new, continued, resumed, cut back, finished); the batch has no holes and holds
    exactly the scheduled requests, in one order of the ids that [req_id_to_index]
    inverts; each index shows its request, tokens, drafts, parameters and blocks, but for
    the mask of allowed tokens, which [swap_states] (C19) and [condense] do not move as
    they should, and the flag that token ids are needed; and with a reordering threshold
    decodes come before prefills. The stage is the last of the pipeline. *)
Theorem update_states_follows_schedule mr bf so :
  reachable mr bf → schedule_ok set_order get_pooling_updates w mr so →
  ∃ u mr' gs, _update_states set_order get_pooling_updates true num_kv_cache_groups reorder_batch_threshold so mr = Ok (u, mr') ∧
    batch_follows so mr mr' gs.
Proof.
  intros [E [gs Hr]%runs_rest] Hso. destruct (update_at_rest _ (λ _, true) mr bf E gs so Hr Hso) as (u & mr' & gs' & E1 & St & Hids & Hreq & _).
  exists u, mr', gs'. split; [done|]. by apply (stepped_follows so mr mr' gs').
Qed.

(** C5: after [_update_states], if the scheduled tokens are there and have blocks,
    [_prepare_inputs] succeeds, and the flat batch it hands to the model is the scheduled
    tokens, request after request: each token with its position, its id, drafts included,
    and its slot in the KV cache of every group; the starts and lengths of the requests,
    the requests whose sample is discarded, and the rows of logits to sample from, with
    the drafts to verify. *)
Theorem prepared_inputs_are_scheduled mr bf so u mr1 ns :
  reachable mr bf → schedule_ok set_order get_pooling_updates w mr so →
  _update_states set_order get_pooling_updates true num_kv_cache_groups reorder_batch_threshold so mr = Ok (u, mr1) →
  step_fits so mr1 ns →
  ∃ gs logits md mr2 bf2, _prepare_inputs (Z.of_nat w) so (sumZ ns) ns mr1 bf = Ok (logits, md, mr2, bf2) ∧
    batch_follows so mr mr1 gs ∧
    inputs_ready w max_num_tokens (scheduled_spec_decode_tokens so) mr1 gs ns logits md mr2 bf2.
Proof.
  intros [E [gs Hr]%runs_rest] Hso Hu Hf.
  destruct (update_at_rest _ (λ _, true) mr bf E gs so Hr Hso) as (u' & mr' & gs' & E1 & St & Hids & Hreq & Hr').
  rewrite E1 in Hu. injection Hu as <- <-. destruct (step_at_rest _ mr' bf _ gs' so ns Hr' St Hf) as (logits & md & mr2 & bf2 & E2 & Hready & _).
  exists gs', logits, md, mr2, bf2. split; [done|]. split; [|done]. by apply (stepped_follows so mr mr' gs').
Qed.

(** C6: recording a step's sample in a reachable state succeeds when the sampler returns a
    row of tokens that fit for each request. The tokens, placeholders and discarded rows
    apart, are written after the tokens of their index and appended to the output of the
    request there; the generators of the discarded rows are set back; the requests whose
    prompt is computed with this step are returned and no longer asked for their
    log-probabilities; the returned ids are those of the batch. Every other part of the
    runner is as it was, and each index still shows its request. *)
Theorem sampled_tokens_recorded mr bf max_gen_len scheduled sampled mask :
  reachable mr bf → sample_ok max_gen_len scheduled sampled mask mr →
  let rows := valid_sampled_token_ids max_gen_len sampled (vocab_size (input_batch mr)) (discarded (input_batch mr) mask) in
  ∃ res mr', _bookkeeping_sync (Z.of_nat w) max_gen_len scheduled sampled mask mr = Ok (res, mr') ∧
    bookkept scheduled mask rows mr res mr' ∧
    ∃ gs, Forall2 (λ t g, reads t (g_rows g)) (block_table (input_batch mr)) gs ∧
      ∀ i id v, cell (input_batch mr') gs i = Some (id, v) →
        ∃ r, dict_get (requests mr') id = Some r ∧ shows (is_pooling_model (input_batch mr)) (vocab_size (input_batch mr)) (g_per <$> gs) r v.
Proof.
  intros [E [gs (Hi & Hbf & Ht)]%runs_rest] Hs rows.
  destruct (bookkeeping_ok _ _ mr gs max_gen_len scheduled sampled mask Hi Ht Hs) as (res & mr' & gs' & E1 & Hk & Hi' & _).
  exists res, mr'. split; [done|]. split; [done|]. exists gs'. pose proof (id_coherent _ _ _ Hi') as Hc. pose proof (bk_batch _ _ _ _ _ _ Hk) as Hb. split.
  - replace (block_table (input_batch mr)) with (block_table (input_batch mr')) by (by rewrite Hb).
    eapply Forall2_impl; [apply (ch_batch _ _ _ _ Hc)|]. apply table_ok_reads.
  - intros i id v Hcell. destruct (ch_shows _ _ _ _ Hc i id v Hcell) as (r & Hr & Hsh). exists r. split; [done|]. by rewrite Hb in Hsh.
Qed.

(** C26: a sparse logits processor that applies the batch update of every step has, after
    any number of steps, its state of each request at the index of that request, and no
    entry for any other index. *)
Theorem logits_processor_follows_batch {T} (f : added_info → option T) (truthy : T → bool) mr bf E :
  runs f truthy mr bf E → is_pooling_model (input_batch mr) = false →
  (∀ i id, _req_ids (input_batch mr) !! i = Some (Some id) →
     ∃ r sp, dict_get (requests mr) id = Some r ∧ sampling_params r = Some sp ∧ E !! Z.of_nat i = f (sp, prompt_token_ids r, out_ref r)) ∧
  (∀ z, is_Some (E !! z) → ∃ i id, z = Z.of_nat i ∧ _req_ids (input_batch mr) !! i = Some (Some id)).
Proof.
  intros [gs ([Hc _ _] & _ & Ht)]%runs_rest Hp. destruct (Ht Hp) as [T1 T2]. split.
  - intros i x Hl. destruct (live_slot w _ gs i x (ch_batch _ _ _ _ Hc) Hl) as (s & d & o & Q1 & Q2 & Q3).
    pose proof (cell_eq _ gs i x s d o Hl Q1 Q2 Q3) as Hcell. destruct (ch_shows _ _ _ _ Hc i x _ Hcell) as (r & Hr & _).
    destruct (ch_wf _ _ _ _ Hc x r Hr) as (_ & n & Hwf). pose proof (wf_kind _ _ _ _ _ _ Hwf) as Hk. rewrite Hp in Hk. destruct Hk as (sp & Hsp & _).
    exists r, sp. split_and!; try done. rewrite (T1 i x _ Hcell). unfold proc_state. rewrite Hr. simpl. by rewrite Hsp.
  - intros z [(i & -> & [[x v] Hi])|[]]%T2. exists i, x. split; [done|]. by eapply cell_live.
Qed.
End reachable.

(** ** A run *)

Module demo.

Definition floats : Float := {| F := Z; f_zero := 0; f_one := 1; f_ltb := Z.ltb; f_eqb := Z.eqb; f32 := λ x, x |}.
#[local] Existing Instance floats.
Definition zero : @F floats := 0.
Definition one : @F floats := 1.

(** Greedy sampling from the tokens [allowed]. *)
Definition params (allowed : list Z) : SamplingParams :=
  {| sampling_type := GREEDY; seed := None; temperature := zero; top_p := one; top_k := 0; frequency_penalty := zero;
     presence_penalty := zero; repetition_penalty := one; logprobs := None; prompt_logprobs := Some 1;
     sp_logprob_token_ids := None; allowed_token_ids := Some allowed; sp_bad_words_token_ids := None |}.
Definition new_data (id : string) (allowed prompt : list Z) (blocks : list (list Z)) : NewRequestData :=
  {| nd_req_id := id; nd_prompt_token_ids := Some prompt; nd_sampling_params := Some (params allowed); nd_pooling_params := None;
     nd_block_ids := blocks; nd_num_computed_tokens := 0; nd_lora_request := None; nd_prompt_embeds := None;
     nd_prompt_is_token_ids := None |}.
Definition no_cached : CachedRequestData := Build_CachedRequestData [] ∅ [] [] [] [].
Definition no_pooling (pp : PoolingParams) : result PoolingParams := Ok pp.
Definition in_set_order (X : gset string) : list string := elements X.

(** A runner for two requests of at most eight tokens, one group of blocks of four. *)
Definition runner0 : option ModelRunner :=
  match new_input_batch 2 8 8 10 [4] [4] None false 1 None None zero 0 with
  | Ok b => Some (Build_ModelRunner [] [] [] b 0)
  | Err _ => None
  end.
(** Request a with a prompt of three tokens. *)
Definition output1 : SchedulerOutput :=
  Build_SchedulerOutput [new_data "a" [5; 6; 7] [1; 2; 3] [[1]]] no_cached [("a"%string, 3)] [] ∅ [].
(** Request a goes on with a draft and gets a block, request b starts. *)
Definition output2 : SchedulerOutput :=
  Build_SchedulerOutput [new_data "b" [8] [4; 4] [[3]]]
    (Build_CachedRequestData ["a"%string] ∅ [] [Some [[2]]] [3] [1]) [("b"%string, 2); ("a"%string, 2)] [("a"%string, [7])] ∅ [].

Definition do_update (so : SchedulerOutput) (mr : ModelRunner) : result (option (BatchUpdate added_info) * ModelRunner) :=
  _update_states in_set_order no_pooling true 1 (Some 2) so mr.
Definition prepare (so : SchedulerOutput) (ns : list Z) (mr : ModelRunner) (bf : Buffers) := _prepare_inputs 8 so (sumZ ns) ns mr bf.
Definition sample (so : SchedulerOutput) (rows : list (list Z)) (mr : ModelRunner) :=
  _bookkeeping_sync 8 1 (num_scheduled_tokens so) rows [] mr.

Definition state0 : ModelRunner := Eval vm_compute in
  match runner0 as o return match o with Some _ => ModelRunner | None => unit end with Some mr => mr | None => tt end.
Definition buffers0 : Buffers := new_buffers 2 8 (replicate 8 0).
Definition after {A} (x : result (A * ModelRunner)) (mr : ModelRunner) : ModelRunner := match x with Ok (_, mr) => mr | Err _ => mr end.
Definition after_inputs {A} (x : result (A * ModelRunner * Buffers)) (mr : ModelRunner) (bf : Buffers) : ModelRunner * Buffers :=
  match x with Ok (_, mr, bf) => (mr, bf) | Err _ => (mr, bf) end.
(** The states after the first update, its inputs, its sample and the second update. *)
Definition state1 : ModelRunner := Eval vm_compute in after (do_update output1 state0) state0.
Definition inputs1 : ModelRunner * Buffers := Eval vm_compute in after_inputs (prepare output1 [3] state1 buffers0) state1 buffers0.
Definition state2 : ModelRunner := Eval vm_compute in after (sample output1 [[5]] inputs1.1) inputs1.1.
Definition state3 : ModelRunner := Eval vm_compute in after (do_update output2 state2) state2.

Ltac small_request n :=
  exists n; split; [|split; [vm_compute; reflexivity|vm_compute; lia]];
  split; [split; [vm_compute; reflexivity|vm_compute; done|vm_compute; reflexivity|vm_compute; lia]|vm_compute; done|vm_compute; reflexivity| | |done];
    [intros [|i] per width; [intros [= <- <-]; vm_compute; done|done]|eexists; split; [reflexivity|]; intros row; eexists; vm_compute; reflexivity].

Lemma output1_ok : schedule_ok in_set_order no_pooling 8 state0 output1.
Proof.
  split; [repeat constructor; set_solver| |by intros [|i] id| |vm_compute; done].
  - intros d Hd%list_elem_of_singleton. subst d. unfold new_ok.
    match goal with |- match ?x with _ => _ end => replace x with (@None CachedRequestState) by (vm_compute; reflexivity) end. intros object. eexists. split; [reflexivity|]. small_request 3%nat.
  - intros id. simpl. done.
Qed.
Lemma output2_ok : schedule_ok in_set_order no_pooling 8 state2 output2.
Proof.
  split; [apply (bool_decide_unpack _); vm_compute; done| | | |vm_compute; done].
  - intros d Hd%list_elem_of_singleton. subst d. unfold new_ok.
    match goal with |- match ?x with _ => _ end => replace x with (@None CachedRequestState) by (vm_compute; reflexivity) end. intros object. eexists. split; [reflexivity|]. small_request 2%nat.
  - intros [|i] id; [|done]. intros [= <-]. eexists _, _. split; [vm_compute; reflexivity|]. split; [vm_compute; reflexivity|].
    split; [vm_compute; done|]. split; [intros new [= <-]; vm_compute; done|]. split; [intros []; done|]. small_request 3%nat.
  - intros id. simpl. done.
Qed.

Lemma step1_fits : step_fits 8 8 output1 state1 [3].
Proof.
  split; [vm_compute; reflexivity|done|done|done| |split; [constructor|intros id Hid; by apply elem_of_nil in Hid]|].
  - intros t Ht%list_elem_of_singleton. subst t. vm_compute. done.
  - intros [|i] id n r m Hl; [injection Hl as <-|done]. intros [= <-] [= <-] [= <-]. split_and!; try (vm_compute; done).
    intros [|k] t Ht; [injection Ht as <-|done]. vm_compute. done.
Qed.
Lemma step2_fits : step_fits 8 8 output2 state3 [2; 2].
Proof.
  split; [vm_compute; reflexivity|done|done|done| | |].
  - intros t Ht%list_elem_of_singleton. subst t. vm_compute. done.
  - split; [apply NoDup_singleton|]. intros id Hid%list_elem_of_singleton. subst id. exists 0%nat. done.
  - intros [|[|i]] id n r m Hl; [injection Hl as <-|injection Hl as <-|done]; intros [= <-] [= <-] [= <-]; split_and!; try (vm_compute; done);
      intros [|k] t Ht; [injection Ht as <-; vm_compute; done|done|injection Ht as <-; vm_compute; done|done].
Qed.

Lemma inputs1_runs {T} (f : added_info → option T) truthy : ∃ E, runs in_set_order no_pooling 1 (Some 2) 8 8 f truthy inputs1.1 inputs1.2 E.
Proof.
  eexists. eapply (runs_step _ _ _ _ _ _ _ _ state0 buffers0 _ output1); [|apply output1_ok|vm_compute; reflexivity|apply step1_fits|vm_compute; reflexivity].
  eapply (runs_new _ _ _ _ _ _ _ _ 2 10 [4] [4] None false 1 None None zero 0); [done|done|done|vm_compute; reflexivity|].
  intros t Ht%list_elem_of_singleton. subst t. vm_compute. done.
Qed.
Lemma sample1_ok : sample_ok 8 1 (num_scheduled_tokens output1) [[5]] [] inputs1.1.
Proof.
  split; [vm_compute; done| |].
  - intros [|i] toks; [intros [= <-]|done]. right. split; [done|]. eexists "a"%string, _, 3. split; [vm_compute; reflexivity|].
    split; [vm_compute; reflexivity|]. split; [done|]. vm_compute. done.
  - intros id Hid%list_elem_of_singleton. subst id. exists 0%nat. vm_compute. done.
Qed.
Lemma state2_runs {T} (f : added_info → option T) truthy : ∃ E, runs in_set_order no_pooling 1 (Some 2) 8 8 f truthy state2 inputs1.2 E.
Proof.
  destruct (inputs1_runs f truthy) as [E HE]. exists E. eapply (runs_sample _ _ _ _ _ _ _ _ inputs1.1 _ _ 1 _ [[5]] []);
    [exact HE|apply sample1_ok|vm_compute; reflexivity].
Qed.
Lemma state3_batch : ∃ gs, batch_ok 8 (input_batch state3) gs.
Proof.
  destruct (state2_runs (λ _, None : option unit) (λ _, true)) as [E HE].
  destruct (runs_rest in_set_order no_pooling 1 (Some 2) 8 8 (λ X, reflexivity _) (λ _, None : option unit) (λ _, true) state3 inputs1.2
    (process_dict_updates (λ _, true) (λ _, None : option unit) E (match do_update output2 state2 with Ok (u, _) => u | Err _ => None end)).1)
    as (gs & [Hc _ _] & _).
  - eapply (runs_update _ _ _ _ _ _ _ _ state2); [exact HE|apply output2_ok|vm_compute; reflexivity].
  - exists gs. apply Hc.
Qed.
End demo.

(** Requests a and b are exchanged: both have the mask of b then, which allows token 8. *)
Lemma swap_states_duplicates_mask_witness : ∃ b' s1 s2,
  has_mask (input_batch demo.state3) = true ∧ (s_mask <$> slots (input_batch demo.state3)) =
    [[true; true; true; true; true; false; false; false; true; true]; [true; true; true; true; true; true; true; true; false; true]] ∧
  swap_states 0 1 (input_batch demo.state3) = Ok (tt, b') ∧ _req_ids b' !! 1%nat = Some (Some "a"%string) ∧
  slots b' !! 0%nat = Some s1 ∧ slots b' !! 1%nat = Some s2 ∧
  s_mask s1 = [true; true; true; true; true; true; true; true; false; true] ∧ s_mask s2 = s_mask s1.
Proof.
  destruct demo.state3_batch as [gs Hb].
  destruct (slots (input_batch demo.state3) !! 0%nat) as [t1|] eqn:S1; [|by vm_compute in S1].
  destruct (slots (input_batch demo.state3) !! 1%nat) as [t2|] eqn:S2; [|by vm_compute in S2].
  destruct (swap_states_duplicates_mask 8 (input_batch demo.state3) gs 0 1 "a" "b" t1 t2) as (b' & s1 & s2 & E & _ & L2 & _ & T1 & T2 & M1 & M2).
  - exact Hb.
  - discriminate.
  - vm_compute. reflexivity.
  - vm_compute. reflexivity.
  - vm_compute. reflexivity.
  - vm_compute. reflexivity.
  - exact S1.
  - exact S2.
  - exists b', s1, s2. split; [vm_compute; reflexivity|]. split; [vm_compute; reflexivity|]. split; [exact E|]. split; [exact L2|].
    split; [exact T1|]. split; [exact T2|]. rewrite M1, M2. vm_compute in S2. injection S2 as <-. split; vm_compute; reflexivity.
Defined.

(** Request a, with one sampled token, continues with a draft while b starts. *)
Lemma update_states_follows_schedule_witness :
  reachable demo.in_set_order demo.no_pooling 1 (Some 2) 8 8 demo.state2 demo.inputs1.2 ∧
  schedule_ok demo.in_set_order demo.no_pooling 8 demo.state2 demo.output2 ∧
  ∃ u mr' gs, demo.do_update demo.output2 demo.state2 = Ok (u, mr') ∧
    batch_follows demo.in_set_order demo.no_pooling 1 (Some 2) demo.output2 demo.state2 mr' gs.
Proof.
  split; [apply demo.state2_runs|]. split; [apply demo.output2_ok|].
  apply (update_states_follows_schedule demo.in_set_order demo.no_pooling 1 (Some 2) 8 8 (λ X, reflexivity _) demo.state2 demo.inputs1.2).
  - apply demo.state2_runs.
  - apply demo.output2_ok.
Defined.

(** Its flat batch: the sampled token 5 and the draft 7 of a, then the prompt of b. *)
Lemma prepared_inputs_are_scheduled_witness : ∃ u gs logits md mr2 bf2,
  reachable demo.in_set_order demo.no_pooling 1 (Some 2) 8 8 demo.state2 demo.inputs1.2 ∧
  demo.do_update demo.output2 demo.state2 = Ok (u, demo.state3) ∧
  demo.prepare demo.output2 [2; 2] demo.state3 demo.inputs1.2 = Ok (logits, md, mr2, bf2) ∧
  take 4 (input_ids_gpu bf2) = [5; 7; 4; 4] ∧ take 4 (positions bf2) = [3; 4; 0; 1] ∧
  batch_follows demo.in_set_order demo.no_pooling 1 (Some 2) demo.output2 demo.state2 demo.state3 gs ∧
  inputs_ready 8 8 (scheduled_spec_decode_tokens demo.output2) demo.state3 gs [2; 2] logits md mr2 bf2.
Proof.
  destruct (prepared_inputs_are_scheduled demo.in_set_order demo.no_pooling 1 (Some 2) 8 8 (λ X, reflexivity _) demo.state2 demo.inputs1.2 demo.output2
    (match demo.do_update demo.output2 demo.state2 with Ok (u, _) => u | Err _ => None end) demo.state3 [2; 2])
    as (gs & logits & md & mr2 & bf2 & E & Hf & Hr); [apply demo.state2_runs|apply demo.output2_ok|vm_compute; reflexivity|apply demo.step2_fits|].
  exists (match demo.do_update demo.output2 demo.state2 with Ok (u, _) => u | Err _ => None end), gs, logits, md, mr2, bf2.
  split; [apply demo.state2_runs|]. split; [vm_compute; reflexivity|]. split; [exact E|].
  assert (input_ids_gpu bf2 = [5; 7; 4; 4; 0; 0; 0; 0] ∧ positions bf2 = [3; 4; 0; 1; 0; 0; 0; 0]) as [-> ->].
  { vm_compute in E. injection E as <- <- <- <-. done. }
  split; [reflexivity|]. split; [reflexivity|]. split; [exact Hf|exact Hr].
Defined.

(** The first sample of request a, whose prompt is complete then. *)
Lemma sampled_tokens_recorded_witness : ∃ res mr',
  reachable demo.in_set_order demo.no_pooling 1 (Some 2) 8 8 demo.inputs1.1 demo.inputs1.2 ∧
  num_prompt_logprobs demo.inputs1.1 = [("a"%string, 1)] ∧
  demo.sample demo.output1 [[5]] demo.inputs1.1 = Ok (res, mr') ∧
  bookkept (num_scheduled_tokens demo.output1) [] [[5]] demo.inputs1.1 res mr' ∧
  res = Build_Bookkept [[5]] [Some "a"%string] [("a"%string, 0)] [] ["a"%string] ∧ num_prompt_logprobs mr' = [].
Proof.
  destruct (sampled_tokens_recorded demo.in_set_order demo.no_pooling 1 (Some 2) 8 8 (λ X, reflexivity _) demo.inputs1.1 demo.inputs1.2
    1 (num_scheduled_tokens demo.output1) [[5]] []) as (res & mr' & E & Hk & _); [apply demo.inputs1_runs|apply demo.sample1_ok|].
  exists res, mr'. split; [apply demo.inputs1_runs|]. split; [vm_compute; reflexivity|]. split; [exact E|]. split; [exact Hk|].
  vm_compute in E. injection E as <- <-. split; vm_compute; reflexivity.
Defined.

(** A processor that keeps the reference to the output list. *)
Lemma logits_processor_follows_batch_witness : ∃ E,
  runs demo.in_set_order demo.no_pooling 1 (Some 2) 8 8 (λ info, Some info.2) (λ _, true) demo.state2 demo.inputs1.2 E ∧
  (∀ i id, _req_ids (input_batch demo.state2) !! i = Some (Some id) →
     ∃ r sp, dict_get (requests demo.state2) id = Some r ∧ sampling_params r = Some sp ∧ E !! Z.of_nat i = Some (out_ref r)) ∧
  (∀ z, is_Some (E !! z) → ∃ i id, z = Z.of_nat i ∧ _req_ids (input_batch demo.state2) !! i = Some (Some id)).
Proof.
  destruct (demo.state2_runs (λ info, Some info.2) (λ _, true)) as [E HE]. exists E. split; [exact HE|].
  exact (logits_processor_follows_batch demo.in_set_order demo.no_pooling 1 (Some 2) 8 8 (λ X, reflexivity _)
    (λ info, Some info.2) (λ _, true) demo.state2 demo.inputs1.2 E HE eq_refl).
Defined.
