(* ===== verification/CacheMetrics.v ===== *)
(** * KV-cache residency metrics

    Models [vllm/v1/core/kv_cache_metrics.py]: the collector samples allocated blocks,
    notes when they are accessed and turns an eviction into an event. [BlockPool] logs
    the calls it makes ([metrics_call]); [collect] runs the collector on such a log.

    The clock and the random numbers are sequences of readings, and the state counts how
    many were taken; seconds are exact rationals where the code has floats. *)

From Stdlib Require Import ZArith Lia QArith.
From stdpp Require Import list numbers gmap.
From S2P Require Import Prelude BlockPool.
Local Open Scope Z_scope.

Record BlockMetricsState := { birth_time_ns : Z; last_access_ns : Z; access_history : list Z }.

Record KVCacheEvictionEvent := {
  lifetime_seconds : Q;
  idle_seconds : Q;
  reuse_gaps_seconds : list Q;
}.

Record KVCacheMetricsCollector := {
  sample_rate : Q;
  block_metrics : gmap Z BlockMetricsState;
  _eviction_events : list KVCacheEvictionEvent;
  clock_reads : nat;
  random_draws : nat;
}.

(** [(b - a) / 1e9] *)
Definition seconds (ns : Z) : Q := ns # 1000000000.

(** [deque(maxlen=4).append(x)] *)
Definition history_append (l : list Z) (x : Z) : list Z :=
  let l := l ++ [x] in drop (length l - 4) l.

Definition new_block_state (now_ns : Z) : BlockMetricsState :=
  {| birth_time_ns := now_ns; last_access_ns := now_ns; access_history := [] |}.
Definition record_access (now_ns : Z) (m : BlockMetricsState) : BlockMetricsState :=
  {| birth_time_ns := birth_time_ns m; last_access_ns := now_ns; access_history := history_append (access_history m) now_ns |}.
Definition get_lifetime_seconds (now_ns : Z) (m : BlockMetricsState) : Q := seconds (now_ns - birth_time_ns m).
Definition get_idle_time_seconds (now_ns : Z) (m : BlockMetricsState) : Q := seconds (now_ns - last_access_ns m).
Definition history_gaps (h : list Z) : list Z := zip_with (λ a b, b - a) h (tail h).
Definition get_reuse_gaps_seconds (m : BlockMetricsState) : list Q :=
  if (length (access_history m) <? 2)%nat then [] else seconds <$> history_gaps (access_history m).

Section collector.
Context (monotonic_ns : nat → Z) (random : nat → Q).

Definition new_collector (rate : Q) : result KVCacheMetricsCollector :=
  if negb (Qle_bool rate 0) && Qle_bool rate 1 then
    Ok {| sample_rate := rate; block_metrics := ∅; _eviction_events := []; clock_reads := 0; random_draws := 0 |}
  else Err AssertionError.

Definition set_metrics (d : gmap Z BlockMetricsState) (c : KVCacheMetricsCollector) : KVCacheMetricsCollector :=
  {| sample_rate := sample_rate c; block_metrics := d; _eviction_events := _eviction_events c;
     clock_reads := clock_reads c; random_draws := random_draws c |}.
Definition set_events (l : list KVCacheEvictionEvent) (c : KVCacheMetricsCollector) : KVCacheMetricsCollector :=
  {| sample_rate := sample_rate c; block_metrics := block_metrics c; _eviction_events := l;
     clock_reads := clock_reads c; random_draws := random_draws c |}.

(** [time.monotonic_ns()] *)
Definition now (c : KVCacheMetricsCollector) : Z * KVCacheMetricsCollector :=
  (monotonic_ns (clock_reads c),
   {| sample_rate := sample_rate c; block_metrics := block_metrics c; _eviction_events := _eviction_events c;
      clock_reads := S (clock_reads c); random_draws := random_draws c |}).
Definition should_sample_block (c : KVCacheMetricsCollector) : bool * KVCacheMetricsCollector :=
  (negb (Qle_bool (sample_rate c) (random (random_draws c))),
   {| sample_rate := sample_rate c; block_metrics := block_metrics c; _eviction_events := _eviction_events c;
      clock_reads := clock_reads c; random_draws := S (random_draws c) |}).

Definition block_allocated (id : Z) (c : KVCacheMetricsCollector) : KVCacheMetricsCollector :=
  let '(sampled, c) := should_sample_block c in
  if sampled then let '(t, c) := now c in set_metrics (<[id := new_block_state t]> (block_metrics c)) c else c.

Definition block_accessed (id : Z) (c : KVCacheMetricsCollector) : KVCacheMetricsCollector :=
  match block_metrics c !! id with
  | Some m => let '(t, c) := now c in set_metrics (<[id := record_access t m]> (block_metrics c)) c
  | None => c
  end.

Definition block_evicted (id : Z) (c : KVCacheMetricsCollector) : KVCacheMetricsCollector :=
  match block_metrics c !! id with
  | None => c
  | Some m =>
      let c := set_metrics (delete id (block_metrics c)) c in
      let '(t1, c) := now c in
      let '(t2, c) := now c in
      set_events (_eviction_events c ++
        [{| lifetime_seconds := get_lifetime_seconds t1 m; idle_seconds := get_idle_time_seconds t2 m;
            reuse_gaps_seconds := get_reuse_gaps_seconds m |}]) c
  end.

Definition reset_collector (c : KVCacheMetricsCollector) : KVCacheMetricsCollector := set_events [] (set_metrics ∅ c).
Definition drain_events (c : KVCacheMetricsCollector) : list KVCacheEvictionEvent * KVCacheMetricsCollector :=
  (_eviction_events c, set_events [] c).

(** The collector on the calls of the pool. *)
Definition collect_call (c : KVCacheMetricsCollector) (call : metrics_call) : KVCacheMetricsCollector :=
  match call with
  | on_block_allocated id => block_allocated id c
  | on_block_accessed id => block_accessed id c
  | on_block_evicted id => block_evicted id c
  | metrics_reset => reset_collector c
  end.
Definition collect (calls : list metrics_call) (c : KVCacheMetricsCollector) : KVCacheMetricsCollector := foldl collect_call c calls.
End collector.

(** ** What the events report *)

(** The sample of a block at time [t]: accesses follow one another since its birth. *)
Record sample_ok (t : Z) (m : BlockMetricsState) : Prop := {
  so_last : birth_time_ns m ≤ last_access_ns m ≤ t;
  so_history : Forall (λ x, birth_time_ns m ≤ x ≤ last_access_ns m) (access_history m);
  so_gaps : Forall (λ g, 0 ≤ g) (history_gaps (access_history m));
  so_bounded : (length (access_history m) ≤ 4)%nat;
}.

(** Times are not negative, at most three gaps are reported, and together they fit in
    the lifetime. *)
Record event_ok (e : KVCacheEvictionEvent) : Prop := {
  eo_idle : (0 <= idle_seconds e)%Q;
  eo_gaps : Forall (λ g, (0 <= g)%Q) (reuse_gaps_seconds e);
  eo_count : (length (reuse_gaps_seconds e) ≤ 3)%nat;
  eo_total : (foldr Qplus 0 (reuse_gaps_seconds e) <= lifetime_seconds e)%Q;
}.

Lemma seconds_le a b : a ≤ b → (seconds a <= seconds b)%Q.
Proof. unfold seconds, Qle. simpl. lia. Qed.

Lemma seconds_nonneg a : 0 ≤ a → (0 <= seconds a)%Q.
Proof. unfold seconds, Qle. simpl. lia. Qed.

Lemma seconds_sum l : (foldr Qplus 0 (seconds <$> l) == seconds (zsum l))%Q.
Proof.
  induction l as [|x l IH]; [done|]. simpl. rewrite IH. unfold seconds, Qplus, Qeq. simpl. lia.
Qed.

Lemma history_gaps_cons a b h : history_gaps (a :: b :: h) = (b - a) :: history_gaps (b :: h).
Proof. done. Qed.

Lemma history_gaps_sum a h : zsum (history_gaps (a :: h)) = default a (last (a :: h)) - a.
Proof.
  revert a. induction h as [|b h IH]; intros a; [simpl; lia|].
  rewrite history_gaps_cons. cbn [zsum foldr]. fold (zsum (history_gaps (b :: h))). rewrite IH, last_cons_cons.
  destruct (last_is_Some (b :: h)) as [_ [y ->]]; [done|]. simpl. lia.
Qed.

Lemma history_gaps_snoc h x : Forall (λ g, 0 ≤ g) (history_gaps h) → Forall (λ y, y ≤ x) h → Forall (λ g, 0 ≤ g) (history_gaps (h ++ [x])).
Proof.
  intros Hg Hx. induction h as [|a [|b h] IH]; [constructor| |].
  - apply Forall_cons in Hx as [Ha _]. repeat constructor. lia.
  - apply Forall_cons in Hx as [Ha Hx]. rewrite history_gaps_cons in Hg. apply Forall_cons in Hg as [Hb Hg].
    change ((a :: b :: h) ++ [x]) with (a :: b :: (h ++ [x])). rewrite history_gaps_cons. constructor; [done|]. by apply IH.
Qed.

Lemma history_gaps_drop n h : Forall (λ g, 0 ≤ g) (history_gaps h) → Forall (λ g, 0 ≤ g) (history_gaps (drop n h)).
Proof.
  revert h. induction n as [|n IH]; [done|]. intros [|a [|b h]] Hg; [done|by destruct n|].
  rewrite history_gaps_cons in Hg. apply Forall_cons in Hg as [_ Hg]. by apply (IH (b :: h)).
Qed.

Lemma sample_later t t' m : sample_ok t m → t ≤ t' → sample_ok t' m.
Proof. intros [] ?. split; [lia|done..]. Qed.

Lemma new_block_state_ok t : sample_ok t (new_block_state t).
Proof. split; simpl; [lia|constructor|constructor|lia]. Qed.

Lemma record_access_ok t m : sample_ok t m → sample_ok t (record_access t m).
Proof.
  intros [Hl Hh Hg Hb]. split; simpl; [lia| | |].
  - apply Forall_drop, Forall_app. split; [eapply Forall_impl; [done|simpl; lia]|repeat constructor; lia].
  - apply history_gaps_drop, history_gaps_snoc; [done|]. eapply Forall_impl; [done|simpl; lia].
  - unfold history_append. rewrite length_drop, length_app. simpl. lia.
Qed.

Lemma gaps_within t m : sample_ok t m → zsum (history_gaps (access_history m)) ≤ t - birth_time_ns m.
Proof.
  intros [Hl Hh _ _]. destruct (access_history m) as [|a h] eqn:E; [simpl; lia|].
  rewrite history_gaps_sum. destruct (last_is_Some (a :: h)) as [_ [y Hy]]; [done|]. rewrite Hy. simpl.
  rewrite Forall_forall in Hh. pose proof (Hh a (list_elem_of_here _ _)).
  pose proof (Hh y (last_Some_elem_of _ _ Hy)). lia.
Qed.

Section trace.
Context (monotonic_ns : nat → Z) (random : nat → Q).
Hypothesis clock_monotone : ∀ i, monotonic_ns i ≤ monotonic_ns (S i).

(** Every sample lies before the next reading of the clock. *)
Definition collector_ok (c : KVCacheMetricsCollector) : Prop :=
  map_Forall (λ _, sample_ok (monotonic_ns (clock_reads c))) (block_metrics c) ∧ Forall event_ok (_eviction_events c).

Lemma event_of_sample i m : sample_ok (monotonic_ns i) m →
  event_ok {| lifetime_seconds := get_lifetime_seconds (monotonic_ns i) m;
              idle_seconds := get_idle_time_seconds (monotonic_ns (S i)) m;
              reuse_gaps_seconds := get_reuse_gaps_seconds m |}.
Proof.
  intros Hm. pose proof (gaps_within _ _ Hm) as Hsum. destruct Hm as [Hl Hh Hg Hb]. pose proof (clock_monotone i).
  unfold get_reuse_gaps_seconds. split; simpl.
  - apply seconds_nonneg. lia.
  - case_match; [constructor|]. apply Forall_fmap. eapply Forall_impl; [exact Hg|]. intros g. apply seconds_nonneg.
  - case_match; simpl; [lia|]. rewrite length_fmap. unfold history_gaps. rewrite length_zip_with. destruct (access_history m); cbn [tail length] in *; lia.
  - case_match; simpl; [apply seconds_nonneg; lia|]. rewrite seconds_sum. by apply seconds_le.
Qed.

Lemma map_Forall_later c : map_Forall (λ _, sample_ok (monotonic_ns (clock_reads c))) (block_metrics c) →
  map_Forall (λ _, sample_ok (monotonic_ns (S (clock_reads c)))) (block_metrics c).
Proof. intros Hm i m Hi. eapply sample_later; [by apply (Hm i)|apply clock_monotone]. Qed.

Lemma collect_call_ok c call : collector_ok c → collector_ok (collect_call monotonic_ns random c call).
Proof.
  intros [Hm He]. pose proof (map_Forall_later c Hm) as Hm'. destruct call as [id|id|id|]; simpl.
  - unfold block_allocated. destruct (should_sample_block random c) as [[] c1] eqn:E; injection E as _ <-; [|done].
    split; [|done]. apply map_Forall_insert_2; [|done]. eapply sample_later; [apply new_block_state_ok|apply clock_monotone].
  - unfold block_accessed. destruct (block_metrics c !! id) as [m|] eqn:E; [|done]. split; [|done].
    apply map_Forall_insert_2; [|done]. eapply sample_later; [apply record_access_ok; by apply (Hm id)|apply clock_monotone].
  - unfold block_evicted. destruct (block_metrics c !! id) as [m|] eqn:E; [|done]. split; simpl.
    + intros i m' Hi. apply lookup_delete_Some in Hi as [_ Hi]. eapply sample_later; [by apply (Hm' i)|apply clock_monotone].
    + apply Forall_app. split; [done|]. apply Forall_singleton, event_of_sample. by apply (Hm id).
  - split; [apply map_Forall_empty|constructor].
Qed.

(** The collector tracks a block only from an allocation on, however the calls are
    ordered, and every event it reports is well formed. *)
Theorem collect_sound rate c calls : new_collector rate = Ok c →
  let c' := collect monotonic_ns random calls c in
  Forall event_ok (_eviction_events c') ∧
  (∀ id, is_Some (block_metrics c' !! id) → on_block_allocated id ∈ calls) ∧
  map_Forall (λ _ m, (length (access_history m) ≤ 4)%nat) (block_metrics c').
Proof.
  intros Hc. unfold new_collector in Hc. case_match; [|done]. injection Hc as <-. cbv zeta. unfold collect.
  set (c := Build_KVCacheMetricsCollector _ _ _ _ _).
  assert (collector_ok (foldl (collect_call monotonic_ns random) c calls) ∧
    ∀ id, is_Some (block_metrics (foldl (collect_call monotonic_ns random) c calls) !! id) → on_block_allocated id ∈ calls) as [[Hm He] Ha].
  { induction calls as [|call calls [IH1 IH2]] using rev_ind.
    { split; [split; [apply map_Forall_empty|constructor]|]. intros id. simpl. rewrite lookup_empty. by intros [? [=]]. }
    rewrite foldl_app. simpl. split; [by apply collect_call_ok|].
    set (d := foldl _ c calls) in *. clearbody d. intros id Hid. apply elem_of_app. destruct call as [j|j|j|]; simpl in Hid.
    - unfold block_allocated in Hid. destruct (should_sample_block random d) as [[] c1] eqn:E; injection E as _ <-; [|left; by apply IH2].
      simpl in Hid. destruct (decide (j = id)) as [->|]; [right; by apply list_elem_of_singleton|].
      rewrite lookup_insert_ne in Hid by done. left. by apply IH2.
    - unfold block_accessed in Hid. destruct (block_metrics d !! j) eqn:E; [|left; by apply IH2]. simpl in Hid.
      left. apply IH2. destruct (decide (j = id)) as [->|]; [by rewrite E|]. by rewrite lookup_insert_ne in Hid.
    - unfold block_evicted in Hid. destruct (block_metrics d !! j) eqn:E; [|left; by apply IH2]. simpl in Hid.
      left. apply IH2. destruct (decide (j = id)) as [->|]; [by rewrite E|]. by rewrite lookup_delete_ne in Hid.
    - rewrite lookup_empty in Hid. by destruct Hid. }
  split_and!; [done|done|]. intros i m Hi. by apply (so_bounded _ _ (Hm i m Hi)).
Qed.
End trace.

(** The clock is read twice per eviction: the idle time of a block that was never
    accessed exceeds its lifetime by the time between the readings. *)
Lemma idle_exceeds_lifetime : ∃ c e, new_collector 1 = Ok c ∧
  _eviction_events (collect (λ i, Z.of_nat i) (λ _, 0%Q) [on_block_allocated 7; on_block_evicted 7] c) = [e] ∧
  (lifetime_seconds e < idle_seconds e)%Q.
Proof. do 2 eexists. split; [reflexivity|]. split; [reflexivity|]. reflexivity. Qed.
